(* ===== verification/_CoqProject ===== *)
-Q . S2P
Prelude.v
ListModel.v
ListRep.v
ListOps.v
ListOrder.v
ListSpec.v
ListThms.v
Bitmap.v
BitmapThms.v
Arith64.v
Bytes.v
Block.v
FsModel.v
FsRep.v
FsRead.v
FsWrite.v
FsAlloc.v
FsGrow.v
FsSecond.v
FsThms.v
FsProps.v
FsMap.v
ThreadModel.v
ThreadInv.v
ThreadSched.v
ThreadStep.v
ThreadLock.v
ThreadProps.v
ThreadPrio.v
ThreadTimer.v
Hash.v
HashRep.v
HashOps.v
HashThms.v
HashProps.v
CString.v
CStringRep.v
CStringProps.v
CStringTok.v
StdLib.v
SortThms.v
Page.v
PageThms.v
PageDir.v
PageProps.v
Loader.v
LoaderStack.v
LoaderProps.v
LoaderSegment.v
Syscall.v
SyscallFiles.v
SyscallProps.v
Stdio.v
StdioThms.v
StdioProps.v
Random.v
Intq.v
IntqProps.v
Devices.v
DevicesProps.v
Malloc.v
MallocRep.v
MallocOps.v
MallocFree.v
MallocProps.v
Ustar.v
UstarThms.v
UstarProps.v
Paging.v
Process.v
ProcessInv.v
ProcessProps.v
Rtc.v
Vga.v
Kbd.v
Descr.v
Ide.v
UserCall.v
Boot.v
Serial.v
