(* ===== verification/Prelude.v ===== *)
(** * A verification development for the Pintos kernel

    ** The program

    The repository is a teaching operating system for the i386: a kernel with
    threads and synchronization (threads/), user programs (userprog/), a file
    system (filesys/), drivers (devices/) and a small C library (lib/).  The
    kernel schedules threads by priority, with donation through locks; a thread
    that sleeps or waits is linked into lists by members of its structure.  A
    file is an inode on a block device, with direct, indirect and doubly
    indirect sectors; free sectors are kept in a bitmap that is itself a file.
    Memory is handed out in pages, and page directories map user pages to
    frames.  Programs enter the kernel through one interrupt, devices through
    others, all by way of the tables that the kernel builds at its start.

    ** The files and the code they model

    - [Prelude]: the state and error monad [M], [ASSERT], machine integers
      ([u8], [u32], [u64], [s32], [s64] write out the wrap-around).
    - [ListModel] .. [ListThms]: lib/kernel/list.c at pointer level.  Memory is
      a map from addresses to [struct list_elem]; [rep m l xs] says that the
      list at [l] has the elements [xs], and [outside] that nothing else
      changed.  [ListOrder] and [ListSpec] hold the merge sort.
    - [Bitmap], [BitmapThms]: lib/kernel/bitmap.c, words of 32 bits.
    - [Arith64]: lib/arithmetic.c, with the trap of the [divl] instruction.
    - [Bytes], [Block]: little-endian words in sectors; devices/block.c.
    - [FsModel] .. [FsMap]: filesys/inode.c, file.c and free-map.c.  The state
      [fs] has the bytes of the device, the open inodes and files and the free
      map; a local array that C leaves uninitialised has arbitrary contents.
      [FsRep] relates an inode to the bytes of its file; [FsGrow] and [FsSecond]
      treat growth through the three levels, [FsThms] the recursion into the free
      map's own file.
    - [ThreadModel] .. [ThreadTimer]: threads/thread.c, synch.c, the interrupt
      level and the timer interrupt of interrupt.c and the sleeping of
      devices/timer.c.  Each thread has a stack
      [kstack] of calls it has still to finish; a step ([exec]) runs one section of
      code that an interrupt cannot split, a call by the running thread, or a
      timer tick.  [reachable main s] are the states of all interleavings.
      [ThreadInv], [ThreadSched] and [ThreadStep] prove the
      scheduler invariant [sched_inv]; [ThreadLock] the balance of lock tokens;
      [ThreadPrio] and [ThreadTimer] treat priorities and sleepers, with every
      step taken apart into elementary changes ([does]).
    - [Hash] .. [HashProps]: lib/kernel/hash.c over the pointer-level lists.
      [reps m ls] is a family of disjoint lists; [hash_rep s xs] relates a table
      to the elements in it.
    - [CString] .. [CStringTok]: lib/string.c and the byte hashes of hash.c
      over a map from addresses to bytes.
    - [StdLib], [SortThms]: lib/stdlib.c over the same memory.
    - [Page] .. [PageProps]: threads/vaddr.h, pte.h, palloc.c and
      userprog/pagedir.c over the words of physical memory.
    - [Loader] .. [LoaderSegment]: the start of a program in
      userprog/process.c.  The state [machine] has the file system, the pages
      and the bytes of the data pages; a user address goes through the page
      directory.  [FileReader] is what the loader needs of a file, and
      [fs_reader] shows that a file of the file system provides it.
    - [Syscall], [SyscallFiles], [SyscallProps]: userprog/syscall.c.  The state
      [task] adds the open files and the console to the machine; [outcome] is
      how a call ends.
    - [Stdio], [StdioThms], [StdioProps]: lib/stdio.c, for any output callback
      over any state.  The arguments are the words on the stack; the reference
      texts are in [StdioThms].
    - [Random]: lib/random.c.
    - [Intq], [IntqProps]: devices/intq.c.  A call is split where
      its thread may leave the processor: in [lock_acquire], in [wait] and at
      the end of [lock_release]; [Intq.reachable] are the interleavings of any
      number of readers, writers and interrupts.
    - [Devices], [DevicesProps]: the registry of devices/block.c and
      devices/partition.c.  [Block] is the ideal device of the file system, and
      every registered device is shown to implement it.
    - [Malloc] .. [MallocProps]: threads/malloc.c.  The headers of arenas and the
      bytes of blocks are words of the pages of [Page], the free lists are
      lists of [ListModel]; [heap_rep s ar fls] says which arenas there are and
      [heap_ok blocks s] which blocks are allocated.
    - [Ustar], [UstarThms], [UstarProps]: lib/ustar.c on the memory of [CString]
      with the formatter of [Stdio]; a string literal is at an address given by
      the caller.
    - [Paging]: [paging_init] of threads/init.c on the pages of [Page].
    - [Process], [ProcessInv], [ProcessProps]: starting, waiting for and
      ending processes in userprog/process.c, cut into the sections between
      which other processes run, with [kill] of userprog/exception.c, which ends
      a process that faults.
    - [Rtc]: devices/rtc.c, pit.c and the calibration and delays of timer.c.
    - [Vga]: devices/vga.c over the bytes of the frame buffer, and
      lib/kernel/console.c with the formatter of [Stdio] on top of it.
    - [Kbd]: devices/kbd.c, which fills the input buffer of [Intq].
    - [Descr]: userprog/gdt.c and tss.c, the registrations of exception.c, and
      the vectors, the registration and the dispatch of threads/interrupt.c.
    - [Ide]: the transfers of devices/ide.c, for a channel that satisfies [AtaLaws].
    - [UserCall]: lib/user/syscall.c, from the stubs of a user program through
      the interrupt to [syscall_handler] of [Syscall] and back.
    - [Boot]: the command line of threads/init.c on the memory of [CString],
      with [Random] and [Devices].
    - [Serial]: devices/serial.c and input.c over two queues of [Intq] and the
      vectors of [Descr], for a UART that satisfies [UartLaws].

    A definition has the name of the C function, a loop of it the name with
    [_loop] or a name of its own, and a part of a function that runs after a
    point where other threads may run the suffix [_rest].  Pointers are numbers;
    a field access through an address that has no object stops with [EFault].
    What a function obtains from outside its component ([malloc], a callback,
    the contents of fresh memory, the answers of a device) is an argument.  A
    device with a protocol is a type class of its instructions with a class of
    laws, for which a concrete device is given as an instance.

    ** What the theorems show

    Properties are marked C1 to C40 in their comments, in order of importance.
    - File system (C1, C14, C15): a write implements
      the replacement of a range of a file, also when the file grows; what is
      written is read back; a write leaves every other file as it was.
    - Threads (C2, C4, C21, C29, C32): in every reachable state
      each thread is in the one queue that its state names; locks exclude; a
      yield runs the first of the ready list, which is in priority order as
      long as no thread in it gets a donation; a donation ends and raises the
      chain of holders up to the first that is not below the donor; sleepers
      wake exactly when their time has come, in that order.
    - Memory (C3, C7, C20, C25, C38): the block allocator implements a map from
      addresses to sizes on top of the page allocator, in all sessions of a
      client; a page directory implements a finite map, and the one of the
      kernel maps all of memory; pages are handed out and taken back.
    - Lists (C5), hash tables (C6), sorting and searching (C33), strings (C34)
      and division (C39): the functional contract of each, with
      frame conditions and, where the code asserts, the failing cases.
    - Formatted output (C13, C35, C40), archives (C17) and random numbers (C27): the text of
      every conversion equals a reference text, vsnprintf stays in its buffer, the
      console writes whole texts under its lock,
      a header that is made is parsed back; the generator's table stays a permutation.
    - Programs (C8, C9, C18): an accepted segment is in memory as its header
      says, through the file system, the page allocator and the directory
      together; the stack has the layout that a program expects; a parent
      that waits gets the status its child exited with, or -1 if it was killed.
    - System calls (C11, C19, C31): a call of a user program does what the
      kernel's function does and returns its value, on the user's own stack;
      the open files are a map from descriptors, and closing one closes its
      file; the checks of user pointers accept mapped addresses and strings, and
      buffers below the kernel's memory, mapped or not.
    - Start and interrupts (C16, C28, C30): the words of the command line
      become the options and actions they say, the processor reads the segments and
      gates that the code means, and the dispatcher runs the registered handler,
      acknowledges the controllers and yields if the handler asked for it.
    - Devices (C10, C12, C22, C23, C24, C26, C36, C37): the disk driver implements
      the sectors of two disks, a partition is an ideal device of its
      own; the display shows the end of a tape; the serial line carries the
      bytes in order and the input buffer loses none; an interrupt queue is a
      bounded queue in every interleaving and loses no wake-up; the keyboard types what its layout says;
      delays have the length that was asked for.

    Further theorems without a number treat the other functions of these files
    (insertion and splicing of lists, bitmaps, closing of inodes, the free
    map's file, the block devices of the roles, the scan of partitions, the clock,
    which is a month ahead) and the
    races, leaks and flaws that the model exhibits: a full device, a thread that never
    finishes exiting, lost donations, races between an exit and a wait, the
    lock of an interrupt queue, extended partitions that never end.

    ** Fuel

    A C loop whose end is not counted carries [fuel] and stops with [EFuel]
    when it is used up, which is no outcome of the code.  Every theorem that
    says what a call returns asks only for fuel above a stated bound (the number
    of elements, of buckets, of characters or of pages), so it also says that the loop
    ends.  [priority_donation] uses two more than the number of threads,
    [best_bucket_cnt] one more than the bits of a [size_t], and a write to
    an inode a depth of two: the write that grows the file and the write of the
    free map to its own file, which does not grow.

    The recursion of devices into the disks below them and of partition tables
    has a [depth] in the same sense, and the formatter as much fuel as the
    format has characters.  The waiting loops of the disk driver are counted in
    the source (1000 and 3000 rounds) and so in the model; the command line
    needs 200, more than its 128 bytes; the serial driver needs more than the 63 bytes
    of a queue and more than the looks at the status register until a byte is
    sent; the calibration of the delay loop has 33 turns, one more than the bits of its counter.

    ** Not modelled

    The loader and the kernel assembly, [bss_init] and the order of the
    initialisation calls; the detection and identification of disks; the
    loudspeaker and the ways to turn the machine off; the messages of [kill] and
    the decoding of the fault in [page_fault], which ends in [kill]; the switch of page tables.
    Debug output and the statistics printers only do output.
    filesys/directory.c and filesys.c are not part of the repository; the
    system calls take their functions as parameters, and fsutil.c, which
    only copies files through them, is left out.  Examples, the tools
    for the host and the rest of the user library are not kernel code.  The locks inside
    palloc.c, malloc.c and ide.c are left out, since each call is treated as one step there.

    Where a definition is coarser than the code: [thread_create] between
    [allocate_tid] and [thread_unblock] is one piece although interrupts are on,
    since it only touches the new thread, which is in no queue yet, and the
    child list of the running thread.  The links of the free lists of
    malloc.c are in a memory of list elements of their own and not in the words
    of the free blocks.  The theorems about the file system ask that [malloc]
    succeeds there ([heap_ok] of [FsRead]).  [byte_to_sector] stops with
    [EFault] where the function ends without a return value.  The [save_ptr] of
    [strtok_r] is a value that is passed and returned, so the test that the
    pointer to it is not null has no counterpart. *)

From Stdlib Require Export ZArith Lia.
From stdpp Require Export base gmap sorting numbers list.

#[global] Open Scope Z_scope.

(** ** Outcomes

    A kernel function either returns, or stops the kernel: an [ASSERT] that
    does not hold, an explicit [PANIC], an access through a pointer that does
    not designate an object, or a processor exception such as the divide error
    ([ETrap]).  [EFuel] is not an outcome of the code: it
    marks a loop of the model whose iteration budget is used up, and the
    theorems show that a stated budget is never used up. *)
Inductive err :=
  | EAssert
  | EPanic
  | EFault
  | ETrap
  | EFuel.

Inductive result (A : Type) :=
  | Ok (a : A)
  | Err (e : err).

Arguments Ok {A} a.
Arguments Err {A} e.

(** ** The state and error monad *)

Definition M (S A : Type) : Type := S -> result (A * S).

Definition fail {S A : Type} (e : err) : M S A := fun _ => Err e.
Definition get {S : Type} : M S S := fun s => Ok (s, s).
Definition put {S : Type} (s : S) : M S unit := fun _ => Ok (tt, s).
Definition gets {S A : Type} (f : S -> A) : M S A := fun s => Ok (f s, s).

#[global] Instance M_ret {S : Type} : MRet (M S) := fun A a s => Ok (a, s).
#[global] Instance M_bind {S : Type} : MBind (M S) :=
  fun A B k m s => match m s with Ok (a, s') => k a s' | Err e => Err e end.

(** The same without a state, for functions that touch none. *)
#[global] Instance result_ret : MRet result := fun A a => Ok a.
#[global] Instance result_bind : MBind result :=
  fun A B k m => match m with Ok a => k a | Err e => Err e end.

(** [ASSERT (CONDITION)] of [lib/debug.h]. *)
Definition ASSERT {S : Type} (b : bool) : M S unit :=
  if b then mret tt else fail EAssert.

Definition lift_opt {S A : Type} (e : err) (o : option A) : M S A :=
  match o with Some a => mret a | None => fail e end.

Lemma bind_ok {S A B : Type} (m : M S A) (k : A -> M S B) s a s' :
  m s = Ok (a, s') -> (m ≫= k) s = k a s'.
Proof. intros H. unfold mbind, M_bind. by rewrite H. Qed.

Lemma bind_err {S A B : Type} (m : M S A) (k : A -> M S B) s e :
  m s = Err e -> (m ≫= k) s = Err e.
Proof. intros H. unfold mbind, M_bind. by rewrite H. Qed.

Lemma bind_inv {S A B : Type} (m : M S A) (k : A -> M S B) s b s'' :
  (m ≫= k) s = Ok (b, s'') ->
  exists a s', m s = Ok (a, s') /\ k a s' = Ok (b, s'').
Proof.
  unfold mbind, M_bind. destruct (m s) as [[a s']|e]; [|discriminate]. eauto.
Qed.

Lemma bind_ret {S A B : Type} (a : A) (k : A -> M S B) s :
  (mret a ≫= k) s = k a s.
Proof. reflexivity. Qed.

Lemma bind_assoc {S A B C : Type} (m : M S A) (f : A -> M S B) (g : B -> M S C) s :
  ((m ≫= f) ≫= g) s = (m ≫= (fun a => f a ≫= g)) s.
Proof. unfold mbind, M_bind. by destruct (m s) as [[a s']|e]. Qed.

Lemma ASSERT_true {S : Type} (b : bool) (s : S) :
  b = true -> ASSERT b s = Ok (tt, s).
Proof. by intros ->. Qed.

Lemma ASSERT_false {S : Type} (b : bool) (s : S) :
  b = false -> ASSERT b s = Err EAssert.
Proof. by intros ->. Qed.

(** [mstep] runs the first action of a sequence with a fact about it;
    [mstep_by tac] proves the fact with [tac]. *)
Ltac mstep H := rewrite (bind_ok _ _ _ _ _ H); cbv beta.
Tactic Notation "mstep_by" tactic3(tac) :=
  erewrite bind_ok; [cbv beta | solve [tac]].

(** ** Machine integers *)

Definition wrap (w z : Z) : Z := z mod 2 ^ w.
Definition u8 (z : Z) : Z := z mod 256.
Definition u32 (z : Z) : Z := z mod 4294967296.
Definition u64 (z : Z) : Z := z mod 18446744073709551616.

(** Two's complement reading of the low bits. *)
Definition s32 (z : Z) : Z := (z + 2147483648) mod 4294967296 - 2147483648.
Definition s64 (z : Z) : Z :=
  (z + 9223372036854775808) mod 18446744073709551616 - 9223372036854775808.

Lemma u32_small z : 0 <= z < 4294967296 -> u32 z = z.
Proof. apply Z.mod_small. Qed.

Lemma u32_range z : 0 <= u32 z < 4294967296.
Proof. by apply Z.mod_pos_bound. Qed.

Lemma u64_small z : 0 <= z < 18446744073709551616 -> u64 z = z.
Proof. apply Z.mod_small. Qed.

Lemma u64_range z : 0 <= u64 z < 18446744073709551616.
Proof. by apply Z.mod_pos_bound. Qed.

Lemma s32_small z : -2147483648 <= z < 2147483648 -> s32 z = z.
Proof. intros. unfold s32. rewrite Z.mod_small; lia. Qed.

Lemma s32_u32 z : -2147483648 <= z < 2147483648 -> s32 (u32 z) = z.
Proof. intros Hz. unfold s32, u32. rewrite Zplus_mod_idemp_l, Z.mod_small; lia. Qed.

Lemma s64_small z :
  -9223372036854775808 <= z < 9223372036854775808 -> s64 z = z.
Proof. intros. unfold s64. rewrite Z.mod_small; lia. Qed.

Create HintDb pintos.
