(* ===== verification/ListModel.v ===== *)
(** * [lib/kernel/list.c]: the intrusive doubly linked list, at pointer level

    Memory is a finite map from the address of a [struct list_elem] to its two
    link fields.  A [struct list] at address [l] is two list elements laid out
    one after the other: [list->head] at [l] and [list->tail] right behind it,
    as the i386 ABI places them.  Each function of list.c is one definition
    with the same name; loops carry an iteration budget [fuel] and stop with
    [EFuel] when it is used up, reads and writes through an address that holds
    no element stop with [EFault], and a failing [ASSERT] with [EAssert].
    A [list_less_func] together with its [aux] is the parameter [less]. *)

From S2P Require Import Prelude.

(** [struct list_elem] *)
Record list_elem := ListElem { prev : Z; next : Z }.

Abbreviation mem := (gmap Z list_elem).

Definition NULL : Z := 0.

(** [struct list]: the addresses of its two header elements. *)
Definition head_of (list : Z) : Z := list.
Definition tail_of (list : Z) : Z := list + 8.

(** A link field as an lvalue: an element and which of its fields. *)
Inductive field := FPrev | FNext.

Definition fget (f : field) (n : list_elem) : Z :=
  match f with FPrev => prev n | FNext => next n end.

Definition fset (f : field) (v : Z) (n : list_elem) : list_elem :=
  match f with
  | FPrev => ListElem v (next n)
  | FNext => ListElem (prev n) v
  end.

(** Load and store of one link field. *)
Definition ld (a : Z) (f : field) : M mem Z := fun m =>
  if bool_decide (a = NULL) then Err EFault else
  match m !! a with Some n => Ok (fget f n, m) | None => Err EFault end.

Definition st (a : Z) (f : field) (v : Z) : M mem unit := fun m =>
  if bool_decide (a = NULL) then Err EFault else
  match m !! a with
  | Some n => Ok (tt, <[a := fset f v n]> m)
  | None => Err EFault
  end.

(** [e1 && e2] and [e1 || e2] with C's evaluation order. *)
Definition andM (a : bool) (b : M mem bool) : M mem bool :=
  if a then b else mret false.
Definition orM (a : M mem bool) (b : M mem bool) : M mem bool :=
  x ← a; if x : bool then mret true else b.

(** ** Classification of elements *)

Definition is_head (elem : Z) : M mem bool :=
  andM (negb (bool_decide (elem = NULL)))
    (p ← ld elem FPrev;
     andM (bool_decide (p = NULL))
       (n ← ld elem FNext; mret (negb (bool_decide (n = NULL))))).

Definition is_interior (elem : Z) : M mem bool :=
  andM (negb (bool_decide (elem = NULL)))
    (p ← ld elem FPrev;
     andM (negb (bool_decide (p = NULL)))
       (n ← ld elem FNext; mret (negb (bool_decide (n = NULL))))).

Definition is_tail (elem : Z) : M mem bool :=
  andM (negb (bool_decide (elem = NULL)))
    (p ← ld elem FPrev;
     andM (negb (bool_decide (p = NULL)))
       (n ← ld elem FNext; mret (bool_decide (n = NULL)))).

(** [ASSERT] of a condition that reads memory. *)
Definition ASSERTM (c : M mem bool) : M mem unit :=
  b ← c; ASSERT b.

(** ** Creation and traversal *)

Definition list_init (list : Z) : M mem unit :=
  ASSERT (negb (bool_decide (list = NULL)));;
  st (head_of list) FPrev NULL;;
  st (head_of list) FNext (tail_of list);;
  st (tail_of list) FPrev (head_of list);;
  st (tail_of list) FNext NULL.

Definition list_begin (list : Z) : M mem Z :=
  ASSERT (negb (bool_decide (list = NULL)));;
  ld (head_of list) FNext.

Definition list_next (elem : Z) : M mem Z :=
  ASSERTM (orM (is_head elem) (is_interior elem));;
  ld elem FNext.

Definition list_end (list : Z) : M mem Z :=
  ASSERT (negb (bool_decide (list = NULL)));;
  mret (tail_of list).

Definition list_rbegin (list : Z) : M mem Z :=
  ASSERT (negb (bool_decide (list = NULL)));;
  ld (tail_of list) FPrev.

Definition list_prev (elem : Z) : M mem Z :=
  ASSERTM (orM (is_interior elem) (is_tail elem));;
  ld elem FPrev.

Definition list_rend (list : Z) : M mem Z :=
  ASSERT (negb (bool_decide (list = NULL)));;
  mret (head_of list).

Definition list_head (list : Z) : M mem Z :=
  ASSERT (negb (bool_decide (list = NULL)));;
  mret (head_of list).

Definition list_tail (list : Z) : M mem Z :=
  ASSERT (negb (bool_decide (list = NULL)));;
  mret (tail_of list).

(** ** Insertion and removal *)

Definition list_insert (before elem : Z) : M mem unit :=
  ASSERTM (orM (is_interior before) (is_tail before));;
  ASSERT (negb (bool_decide (elem = NULL)));;
  bp ← ld before FPrev;
  st elem FPrev bp;;
  st elem FNext before;;
  bp ← ld before FPrev;
  st bp FNext elem;;
  st before FPrev elem.

Definition list_splice (before first last : Z) : M mem unit :=
  ASSERTM (orM (is_interior before) (is_tail before));;
  if bool_decide (first = last) then mret tt else
  last ← list_prev last;
  ASSERTM (is_interior first);;
  ASSERTM (is_interior last);;
  (* Cleanly remove FIRST...LAST from its current list. *)
  fp ← ld first FPrev;
  ln ← ld last FNext;
  st fp FNext ln;;
  ln ← ld last FNext;
  fp ← ld first FPrev;
  st ln FPrev fp;;
  (* Splice FIRST...LAST into new list. *)
  bp ← ld before FPrev;
  st first FPrev bp;;
  st last FNext before;;
  bp ← ld before FPrev;
  st bp FNext first;;
  st before FPrev last.

Definition list_push_front (list elem : Z) : M mem unit :=
  b ← list_begin list; list_insert b elem.

Definition list_push_back (list elem : Z) : M mem unit :=
  e ← list_end list; list_insert e elem.

Definition list_remove (elem : Z) : M mem Z :=
  ASSERTM (is_interior elem);;
  p ← ld elem FPrev;
  n ← ld elem FNext;
  st p FNext n;;
  n ← ld elem FNext;
  p ← ld elem FPrev;
  st n FPrev p;;
  ld elem FNext.

Definition list_empty (list : Z) : M mem bool :=
  b ← list_begin list;
  e ← list_end list;
  mret (bool_decide (b = e)).

Definition list_front (list : Z) : M mem Z :=
  ASSERTM (e ← list_empty list; mret (negb e));;
  ld (head_of list) FNext.

Definition list_back (list : Z) : M mem Z :=
  ASSERTM (e ← list_empty list; mret (negb e));;
  ld (tail_of list) FPrev.

Definition list_pop_front (list : Z) : M mem Z :=
  front ← list_front list;
  list_remove front;;
  mret front.

Definition list_pop_back (list : Z) : M mem Z :=
  back ← list_back list;
  list_remove back;;
  mret back.

(** ** Size and reversal *)

(** The loop of [list_size]; [cnt] is a [size_t]. *)
Fixpoint list_size_loop (fuel : nat) (list e cnt : Z) : M mem Z :=
  match fuel with
  | O => fail EFuel
  | S fuel =>
      z ← list_end list;
      if bool_decide (e = z) then mret cnt else
      e ← list_next e;
      list_size_loop fuel list e (u32 (cnt + 1))
  end.

Definition list_size (fuel : nat) (list : Z) : M mem Z :=
  e ← list_begin list;
  list_size_loop fuel list e 0.

(** [swap]: exchanges the contents of two link fields. *)
Definition swap (a b : Z * field) : M mem unit :=
  t ← ld a.1 a.2;
  v ← ld b.1 b.2;
  st a.1 a.2 v;;
  st b.1 b.2 t.

Fixpoint list_reverse_loop (fuel : nat) (list e : Z) : M mem unit :=
  match fuel with
  | O => fail EFuel
  | S fuel =>
      z ← list_end list;
      if bool_decide (e = z) then mret tt else
      swap (e, FPrev) (e, FNext);;
      e ← ld e FPrev;
      list_reverse_loop fuel list e
  end.

Definition list_reverse (fuel : nat) (list : Z) : M mem unit :=
  b ← list_empty list;
  if b : bool then mret tt else
  e ← list_begin list;
  list_reverse_loop fuel list e;;
  swap (head_of list, FNext) (tail_of list, FPrev);;
  hn ← ld (head_of list) FNext;
  tp ← ld (tail_of list) FPrev;
  swap (hn, FPrev) (tp, FNext).

Section Ordered.
Variable less : Z -> Z -> bool.

(** ** Runs and merging *)

Fixpoint is_sorted_loop (fuel : nat) (a b : Z) : M mem bool :=
  match fuel with
  | O => fail EFuel
  | S fuel =>
      a ← list_next a;
      if bool_decide (a = b) then mret true else
      p ← list_prev a;
      if less a p then mret false else is_sorted_loop fuel a b
  end.

Definition is_sorted (fuel : nat) (a b : Z) : M mem bool :=
  if bool_decide (a = b) then mret true else is_sorted_loop fuel a b.

Fixpoint find_end_of_run_loop (fuel : nat) (a b : Z) : M mem Z :=
  match fuel with
  | O => fail EFuel
  | S fuel =>
      a ← list_next a;
      if bool_decide (a = b) then mret a else
      p ← list_prev a;
      if less a p then mret a else find_end_of_run_loop fuel a b
  end.

Definition find_end_of_run (fuel : nat) (a b : Z) : M mem Z :=
  ASSERT (negb (bool_decide (a = NULL)));;
  ASSERT (negb (bool_decide (b = NULL)));;
  ASSERT (negb (bool_decide (a = b)));;
  find_end_of_run_loop fuel a b.

Fixpoint inplace_merge_loop (fuel : nat) (a0 a1b0 b1 : Z) : M mem unit :=
  match fuel with
  | O => fail EFuel
  | S fuel =>
      if negb (bool_decide (a0 = a1b0)) && negb (bool_decide (a1b0 = b1)) then
        if negb (less a1b0 a0) then
          a0 ← list_next a0;
          inplace_merge_loop fuel a0 a1b0 b1
        else
          a1b0 ← list_next a1b0;
          p ← list_prev a1b0;
          list_splice a0 p a1b0;;
          inplace_merge_loop fuel a0 a1b0 b1
      else mret tt
  end.

Definition inplace_merge (fuel : nat) (a0 a1b0 b1 : Z) : M mem unit :=
  ASSERT (negb (bool_decide (a0 = NULL)));;
  ASSERT (negb (bool_decide (a1b0 = NULL)));;
  ASSERT (negb (bool_decide (b1 = NULL)));;
  ASSERTM (is_sorted fuel a0 a1b0);;
  ASSERTM (is_sorted fuel a1b0 b1);;
  inplace_merge_loop fuel a0 a1b0 b1.

(** One pass of [list_sort]: the inner [for] loop.  It returns the number of
    runs output. *)
Fixpoint list_sort_pass (fuel fuel0 : nat) (list a0 output_run_cnt : Z) : M mem Z :=
  match fuel with
  | O => fail EFuel
  | S fuel =>
      z ← list_end list;
      if bool_decide (a0 = z) then mret output_run_cnt else
      let output_run_cnt := u32 (output_run_cnt + 1) in
      a1b0 ← find_end_of_run fuel0 a0 z;
      if bool_decide (a1b0 = z) then mret output_run_cnt else
      b1 ← find_end_of_run fuel0 a1b0 z;
      inplace_merge fuel0 a0 a1b0 b1;;
      list_sort_pass fuel fuel0 list b1 output_run_cnt
  end.

(** The [do ... while] loop of [list_sort]. *)
Fixpoint list_sort_loop (fuel fuel0 : nat) (list : Z) : M mem unit :=
  match fuel with
  | O => fail EFuel
  | S fuel =>
      a0 ← list_begin list;
      output_run_cnt ← list_sort_pass fuel0 fuel0 list a0 0;
      if 1 <? output_run_cnt then list_sort_loop fuel fuel0 list else mret tt
  end.

Definition list_sort (fuel : nat) (list : Z) : M mem unit :=
  ASSERT (negb (bool_decide (list = NULL)));;
  list_sort_loop fuel fuel list;;
  b ← list_begin list;
  e ← list_end list;
  ASSERTM (is_sorted fuel b e).

(** ** Ordered insertion, duplicates, extrema *)

Fixpoint list_insert_ordered_loop (fuel : nat) (list elem e : Z) : M mem Z :=
  match fuel with
  | O => fail EFuel
  | S fuel =>
      z ← list_end list;
      if bool_decide (e = z) then mret e else
      if less elem e then mret e else
      e ← list_next e;
      list_insert_ordered_loop fuel list elem e
  end.

Definition list_insert_ordered (fuel : nat) (list elem : Z) : M mem unit :=
  ASSERT (negb (bool_decide (list = NULL)));;
  ASSERT (negb (bool_decide (elem = NULL)));;
  e ← list_begin list;
  e ← list_insert_ordered_loop fuel list elem e;
  list_insert e elem.

(** [duplicates] may be [NULL]. *)
Fixpoint list_unique_loop (fuel : nat) (list duplicates elem : Z) : M mem unit :=
  match fuel with
  | O => fail EFuel
  | S fuel =>
      nxt ← list_next elem;
      z ← list_end list;
      if bool_decide (nxt = z) then mret tt else
      if negb (less elem nxt) && negb (less nxt elem) then
        list_remove nxt;;
        (if negb (bool_decide (duplicates = NULL))
         then list_push_back duplicates nxt else mret tt);;
        list_unique_loop fuel list duplicates elem
      else list_unique_loop fuel list duplicates nxt
  end.

Definition list_unique (fuel : nat) (list duplicates : Z) : M mem unit :=
  ASSERT (negb (bool_decide (list = NULL)));;
  b ← list_empty list;
  if b : bool then mret tt else
  elem ← list_begin list;
  list_unique_loop fuel list duplicates elem.

Fixpoint list_max_loop (fuel : nat) (list max e : Z) : M mem Z :=
  match fuel with
  | O => fail EFuel
  | S fuel =>
      z ← list_end list;
      if bool_decide (e = z) then mret max else
      let max := if less max e then e else max in
      e ← list_next e;
      list_max_loop fuel list max e
  end.

Definition list_max (fuel : nat) (list : Z) : M mem Z :=
  max ← list_begin list;
  z ← list_end list;
  if bool_decide (max = z) then mret max else
  e ← list_next max;
  list_max_loop fuel list max e.

Fixpoint list_min_loop (fuel : nat) (list min e : Z) : M mem Z :=
  match fuel with
  | O => fail EFuel
  | S fuel =>
      z ← list_end list;
      if bool_decide (e = z) then mret min else
      let min := if less e min then e else min in
      e ← list_next e;
      list_min_loop fuel list min e
  end.

Definition list_min (fuel : nat) (list : Z) : M mem Z :=
  min ← list_begin list;
  z ← list_end list;
  if bool_decide (min = z) then mret min else
  e ← list_next min;
  list_min_loop fuel list min e.

End Ordered.
