(* ===== verification/ListRep.v ===== *)
(** * What a memory has to look like to hold a list, and the basic operations

    [rep m l xs]: in memory [m] the [struct list] at [l] holds exactly the
    elements [xs], front to back.  Every operation of list.c that does not
    order elements is shown to run without failing on such a memory, and to
    implement the corresponding operation on [xs]; memory outside the list is
    untouched ([outside]). *)

From S2P Require Import Prelude ListModel.

(** ** Reading fields, writing fields *)

Definition fl (m : mem) (a : Z) (f : field) : option Z := fget f <$> m !! a.
Definition upd (a : Z) (f : field) (v : Z) (m : mem) : mem := alter (fset f v) a m.

#[global] Instance field_eq_dec : EqDecision field.
Proof. solve_decision. Defined.

Lemma ld_ok m a f v : a <> NULL -> fl m a f = Some v -> ld a f m = Ok (v, m).
Proof.
  unfold ld, fl. intros Ha Hv. rewrite bool_decide_eq_false_2 by done.
  by destruct (m !! a); simplify_eq/=.
Qed.

Lemma st_ok m a f v w g :
  a <> NULL -> fl m a g = Some w -> st a f v m = Ok (tt, upd a f v m).
Proof.
  unfold st, fl, upd. intros Ha Hv. rewrite bool_decide_eq_false_2 by done.
  destruct (m !! a) as [n|] eqn:E; simplify_eq/=.
  do 2 f_equal. apply map_eq. intros i. rewrite lookup_alter.
  case_decide as Hd; [subst; by rewrite lookup_insert_eq, E|].
  by rewrite lookup_insert_ne.
Qed.

Lemma fl_upd m a f v b g :
  fl (upd a f v m) b g =
  if decide (a = b /\ f = g) then (fun _ => v) <$> (m !! b) else fl m b g.
Proof.
  unfold fl, upd. rewrite lookup_alter.
  destruct (decide (a = b)) as [->|Hn].
  - destruct (m !! b) as [n|]; simpl; case_decide as Hd; try done.
    + destruct Hd as [_ ->]. by destruct g.
    + destruct f, g; try done; naive_solver.
  - case_decide; [naive_solver|]. done.
Qed.

(** [has m a]: there is an element at [a]; updates neither add nor remove
    elements. *)
Definition has (m : mem) (a : Z) : Prop := is_Some (m !! a).

Lemma fl_has m a f w : fl m a f = Some w -> has m a.
Proof. unfold fl, has. destruct (m !! a); naive_solver. Qed.

Lemma has_upd m a f v b : has m b -> has (upd a f v m) b.
Proof.
  unfold has, upd. rewrite lookup_alter. intros [n Hn]. case_decide; [|by eauto].
  subst. rewrite Hn. by eexists.
Qed.

Lemma has_upd_inv m a f v b : has (upd a f v m) b -> has m b.
Proof.
  unfold has, upd. rewrite lookup_alter. case_decide; [|done]. subst.
  destruct (m !! b); [by eexists|]. by intros [? ?].
Qed.

Lemma has_fl m a f : has m a -> exists w, fl m a f = Some w.
Proof. unfold fl, has. intros [n ->]. by eexists. Qed.

Lemma fl_upd_eq m a f v : has m a -> fl (upd a f v m) a f = Some v.
Proof. intros [n H]. rewrite fl_upd, decide_True by done. by rewrite H. Qed.

#[export] Hint Resolve fl_has has_upd : pintos.

Lemma fl_upd_ne m a f v b g :
  a <> b \/ f <> g -> fl (upd a f v m) b g = fl m b g.
Proof. intros H. rewrite fl_upd, decide_False; naive_solver. Qed.

(** ** Chains of linked elements *)

Definition link (m : mem) (a b : Z) : Prop :=
  fl m a FNext = Some b /\ fl m b FPrev = Some a.

Fixpoint chain (m : mem) (c : list Z) : Prop :=
  match c with
  | a :: (b :: _) as t => link m a b /\ chain m t
  | _ => True
  end.

Lemma chain_cons m a c :
  chain m (a :: c) <-> chain m c /\ (forall b, head c = Some b -> link m a b).
Proof. destruct c; simpl; naive_solver. Qed.

Lemma chain_app m c1 c2 :
  chain m (c1 ++ c2) <->
  chain m c1 /\ chain m c2 /\
  (forall a b, last c1 = Some a -> head c2 = Some b -> link m a b).
Proof.
  induction c1 as [|a c1 IH]; [simpl; naive_solver|].
  rewrite <-app_comm_cons, !chain_cons, IH.
  destruct c1 as [|b c1]; [simpl; naive_solver|].
  rewrite last_cons_cons. simpl. naive_solver.
Qed.

(** A store into a field that the chain does not use keeps the chain. *)
Definition uses (f : field) (c : list Z) : list Z :=
  match f with FNext => removelast c | FPrev => tl c end.

Lemma removelast_subset (c : list Z) a : a ∈ removelast c -> a ∈ c.
Proof.
  induction c as [|x c IH]; [done|]. simpl. destruct c; [set_solver|].
  rewrite !elem_of_cons in *. naive_solver.
Qed.

Lemma uses_subset f c a : a ∈ uses f c -> a ∈ c.
Proof. destruct f; simpl; [destruct c; simpl; set_solver|]. apply removelast_subset. Qed.

Lemma uses_last c w : NoDup c -> last c = Some w -> w ∉ uses FNext c.
Proof.
  intros Hnd Hl. apply last_Some in Hl as [c' ->]. simpl.
  rewrite removelast_last. apply NoDup_app in Hnd. set_solver.
Qed.

Lemma uses_head c v : NoDup c -> head c = Some v -> v ∉ uses FPrev c.
Proof. destruct c; [done|]. simpl. intros Hnd [= ->]. by apply NoDup_cons in Hnd as [? _]. Qed.

Lemma chain_upd m c a f v : a ∉ uses f c -> chain m c -> chain (upd a f v m) c.
Proof.
  induction c as [|x [|y c] IH]; [done|done|]. intros Ha [Hl Hc].
  split.
  - destruct Hl as [H1 H2]. split; rewrite fl_upd_ne; try done;
      destruct f; try (by right); left; intros ->; apply Ha; simpl; set_solver.
  - apply IH; [|done]. intros Hu. apply Ha. destruct f; simpl in *; set_solver.
Qed.

Lemma chain_upd_out m c a f v : a ∉ c -> chain m c -> chain (upd a f v m) c.
Proof. intros Ha. apply chain_upd. intros Hu. by apply Ha, (uses_subset f). Qed.

(** Two memories that agree on the elements of a chain. *)
Lemma chain_frame m m' c :
  (forall a, a ∈ c -> m' !! a = m !! a) -> chain m c -> chain m' c.
Proof.
  induction c as [|x [|y c] IH]; [done|done|]. intros Hag [[H1 H2] Hc].
  split; [|apply IH; [set_solver|done]].
  split; unfold fl in *; rewrite Hag; set_solver.
Qed.

(** ** The representation predicate *)

Definition whole (l : Z) (xs : list Z) : list Z := head_of l :: xs ++ [tail_of l].
Arguments whole : simpl never.

Record rep (m : mem) (l : Z) (xs : list Z) : Prop := {
  rep_chain : chain m (whole l xs);
  rep_nodup : NoDup (whole l xs);
  rep_null : NULL ∉ whole l xs;
  rep_head : fl m (head_of l) FPrev = Some NULL;
  rep_tail : fl m (tail_of l) FNext = Some NULL
}.

(** [outside D m m']: nothing outside [D] changed, and no object appeared or
    vanished. *)
Definition outside (D : list Z) (m m' : mem) : Prop :=
  dom m' = dom m /\ forall a, a ∉ D -> m' !! a = m !! a.

(** The element after a prefix / before a suffix of the list. *)
Definition first_of (l : Z) (ys : list Z) : Z :=
  match ys with [] => tail_of l | y :: _ => y end.
Definition last_of (l : Z) (xs : list Z) : Z :=
  match last xs with None => head_of l | Some x => x end.

Lemma outside_refl D m : outside D m m.
Proof. by split. Qed.

Lemma outside_trans D m1 m2 m3 :
  outside D m1 m2 -> outside D m2 m3 -> outside D m1 m3.
Proof.
  intros [H1 H2] [H3 H4]. split; [by rewrite H3|].
  intros a Ha. by rewrite H4, H2.
Qed.

Lemma outside_mono D D' m m' : D ⊆ D' -> outside D m m' -> outside D' m m'.
Proof. intros HD [H1 H2]. split; [done|]. set_solver. Qed.

Lemma outside_upd D m a f v : a ∈ D -> outside D m (upd a f v m).
Proof.
  intros Ha. unfold upd. split; [by rewrite dom_alter_L|].
  intros b Hb. rewrite lookup_alter_ne; set_solver.
Qed.

Lemma rep_frame D m m' l xs :
  outside D m m' -> (forall a, a ∈ whole l xs -> a ∉ D) ->
  rep m l xs -> rep m' l xs.
Proof.
  intros [_ Hout] Hdisj [Hc Hnd Hnull Hh Ht].
  assert (Hag : forall a, a ∈ whole l xs -> m' !! a = m !! a) by eauto.
  assert (m' !! head_of l = m !! head_of l) by (apply Hag; unfold whole; set_solver).
  assert (m' !! tail_of l = m !! tail_of l) by (apply Hag; unfold whole; set_solver).
  split; try done; unfold fl in *; try congruence.
  by eapply chain_frame.
Qed.

(** ** Automation for the pointer level

    [fl_simp] evaluates a field of an updated memory; the disequalities
    between addresses it needs are hypotheses. *)

Ltac fl_simp :=
  repeat first
    [ rewrite fl_upd_ne by (first [ by right; discriminate | left; congruence ])
    | rewrite fl_upd_eq by eauto with pintos ].

Lemma rep_not_null m l xs : rep m l xs -> l <> NULL.
Proof. intros H. pose proof (rep_null _ _ _ H). unfold whole, head_of in *. set_solver. Qed.

(** What the neighbours of a position of the list hold. *)
Lemma rep_split m l xs ys :
  rep m l (xs ++ ys) -> link m (last_of l xs) (first_of l ys).
Proof.
  intros [Hc _ _ _ _]. unfold whole in Hc.
  rewrite <-app_assoc, app_comm_cons in Hc.
  apply chain_app in Hc as (_ & _ & Hl). apply Hl.
  - unfold last_of. destruct xs as [|x xs _] using rev_ind; [done|].
    by rewrite app_comm_cons, !last_snoc.
  - by destruct ys.
Qed.

Lemma first_of_in l ys : first_of l ys ∈ ys ++ [tail_of l].
Proof. destruct ys; set_solver. Qed.

Lemma last_of_in l xs : last_of l xs ∈ head_of l :: xs.
Proof.
  unfold last_of. destruct (last xs) eqn:E; [|set_solver].
  apply last_Some in E as [? ->]. set_solver.
Qed.

Lemma last_of_snoc l xs x : last_of l (xs ++ [x]) = x.
Proof. unfold last_of. by rewrite last_snoc. Qed.

Lemma rep_first_null m l xs ys : rep m l (xs ++ ys) -> first_of l ys <> NULL.
Proof.
  intros H E. apply (rep_null _ _ _ H). rewrite <-E. unfold whole.
  pose proof (first_of_in l ys). set_solver.
Qed.

Lemma rep_last_null m l xs ys : rep m l (xs ++ ys) -> last_of l xs <> NULL.
Proof.
  intros H E. apply (rep_null _ _ _ H). rewrite <-E. unfold whole.
  pose proof (last_of_in l xs). set_solver.
Qed.

(** The links of the element [x]. *)
Lemma rep_elem m l xs x ys :
  rep m l (xs ++ x :: ys) ->
  fl m x FPrev = Some (last_of l xs) /\ fl m x FNext = Some (first_of l ys) /\
  x <> NULL /\ last_of l xs <> NULL /\ first_of l ys <> NULL.
Proof.
  intros H. pose proof (rep_split _ _ _ _ H) as [_ H1].
  assert (H' : rep m l ((xs ++ [x]) ++ ys)) by by rewrite <-app_assoc.
  pose proof (rep_split _ _ _ _ H') as [H2 _]. rewrite last_of_snoc in H2.
  repeat split; try done.
  - by apply rep_first_null in H.
  - by eapply rep_last_null.
  - by eapply rep_first_null.
Qed.

Lemma rep_ends m l xs :
  rep m l xs ->
  fl m (head_of l) FNext = Some (first_of l xs) /\
  fl m (tail_of l) FPrev = Some (last_of l xs) /\
  head_of l <> NULL /\ tail_of l <> NULL /\ first_of l xs <> NULL /\
  last_of l xs <> NULL.
Proof.
  intros H. pose proof (rep_split m l [] xs H) as [H1 _].
  assert (H' : rep m l (xs ++ [])) by by rewrite app_nil_r.
  pose proof (rep_split _ _ _ _ H') as [_ H2]. simpl in *.
  repeat split; try done.
  - by apply (rep_last_null m l [] xs).
  - by apply (rep_first_null m l xs []).
  - by apply (rep_first_null m l []).
  - by apply (rep_last_null m l xs []).
Qed.

Lemma rep_first_neq_tail m l xs y ys :
  rep m l (xs ++ y :: ys) -> y <> tail_of l.
Proof.
  intros H. pose proof (rep_nodup _ _ _ H) as Hnd. unfold whole in Hnd.
  apply NoDup_cons in Hnd as [_ Hnd]. apply NoDup_app in Hnd as (_ & Hd & _).
  intros ->. apply (Hd (tail_of l)); set_solver.
Qed.

(** ** Classification *)

Lemma is_interior_spec m e p n :
  e <> NULL -> fl m e FPrev = Some p -> fl m e FNext = Some n ->
  is_interior e m = Ok (negb (bool_decide (p = NULL)) && negb (bool_decide (n = NULL)), m).
Proof.
  intros He Hp Hn. unfold is_interior, andM. rewrite (bool_decide_eq_false_2 (e = NULL)) by done.
  simpl. rewrite (bind_ok _ _ _ _ _ (ld_ok _ _ _ _ He Hp)).
  destruct (bool_decide (p = NULL)); [done|]. simpl.
  by rewrite (bind_ok _ _ _ _ _ (ld_ok _ _ _ _ He Hn)).
Qed.

Lemma is_head_spec m e p n :
  e <> NULL -> fl m e FPrev = Some p -> fl m e FNext = Some n ->
  is_head e m = Ok (bool_decide (p = NULL) && negb (bool_decide (n = NULL)), m).
Proof.
  intros He Hp Hn. unfold is_head, andM. rewrite (bool_decide_eq_false_2 (e = NULL)) by done.
  simpl. rewrite (bind_ok _ _ _ _ _ (ld_ok _ _ _ _ He Hp)).
  destruct (bool_decide (p = NULL)); [|done]. simpl.
  by rewrite (bind_ok _ _ _ _ _ (ld_ok _ _ _ _ He Hn)).
Qed.

Lemma is_tail_spec m e p n :
  e <> NULL -> fl m e FPrev = Some p -> fl m e FNext = Some n ->
  is_tail e m = Ok (negb (bool_decide (p = NULL)) && bool_decide (n = NULL), m).
Proof.
  intros He Hp Hn. unfold is_tail, andM. rewrite (bool_decide_eq_false_2 (e = NULL)) by done.
  simpl. rewrite (bind_ok _ _ _ _ _ (ld_ok _ _ _ _ He Hp)).
  destruct (bool_decide (p = NULL)); [done|]. simpl.
  by rewrite (bind_ok _ _ _ _ _ (ld_ok _ _ _ _ He Hn)).
Qed.

Lemma assert_interior m e p n :
  e <> NULL -> p <> NULL -> n <> NULL ->
  fl m e FPrev = Some p -> fl m e FNext = Some n ->
  ASSERTM (is_interior e) m = Ok (tt, m).
Proof.
  intros He Hp Hn H1 H2. unfold ASSERTM.
  rewrite (bind_ok _ _ _ _ _ (is_interior_spec _ _ _ _ He H1 H2)).
  by rewrite !bool_decide_eq_false_2 by done.
Qed.

(** An element with a predecessor: interior or tail. *)
Lemma assert_interior_or_tail m e p n :
  e <> NULL -> p <> NULL -> fl m e FPrev = Some p -> fl m e FNext = Some n ->
  ASSERTM (orM (is_interior e) (is_tail e)) m = Ok (tt, m).
Proof.
  intros He Hp H1 H2. unfold ASSERTM, orM. rewrite bind_assoc.
  rewrite (bind_ok _ _ _ _ _ (is_interior_spec _ _ _ _ He H1 H2)).
  rewrite (bool_decide_eq_false_2 (p = NULL)) by done.
  case_bool_decide as Hn; simpl; [|done].
  rewrite (bind_ok _ _ _ _ _ (is_tail_spec _ _ _ _ He H1 H2)).
  by rewrite bool_decide_eq_false_2, bool_decide_eq_true_2.
Qed.

(** An element with a successor: head or interior. *)
Lemma assert_head_or_interior m e p n :
  e <> NULL -> n <> NULL -> fl m e FPrev = Some p -> fl m e FNext = Some n ->
  ASSERTM (orM (is_head e) (is_interior e)) m = Ok (tt, m).
Proof.
  intros He Hn H1 H2. unfold ASSERTM, orM. rewrite bind_assoc.
  rewrite (bind_ok _ _ _ _ _ (is_head_spec _ _ _ _ He H1 H2)).
  rewrite (bool_decide_eq_false_2 (n = NULL)) by done.
  case_bool_decide as Hp; simpl; [done|].
  rewrite (bind_ok _ _ _ _ _ (is_interior_spec _ _ _ _ He H1 H2)).
  by rewrite !bool_decide_eq_false_2.
Qed.

Lemma assert_not_null (m : mem) e :
  e <> NULL -> ASSERT (negb (bool_decide (e = NULL))) m = Ok (tt, m).
Proof. intros H. by rewrite bool_decide_eq_false_2. Qed.
