(* ===== verification/ListOps.v ===== *)
(** * Specifications of the basic list operations

    Removing and inserting a segment of linked elements are the two pointer
    surgeries of list.c: [list_insert], [list_remove] and [list_splice] are
    built from them, and so are their proofs. *)

From S2P Require Import Prelude ListModel ListRep.

(** ** Pointer surgery on chains *)

Lemma head_app_l {A} (c d : list A) x : head c = Some x -> head (c ++ d) = Some x.
Proof. by destruct c. Qed.

Lemma last_app_r {A} (c d : list A) x : last d = Some x -> last (c ++ d) = Some x.
Proof. intros H. by rewrite last_app, H. Qed.

Lemma head_elem {A} (c : list A) x : head c = Some x -> x ∈ c.
Proof. destruct c; simpl; [done|]. intros [= ->]. set_solver. Qed.

Lemma last_elem {A} (c : list A) x : last c = Some x -> x ∈ c.
Proof. intros [c' ->]%last_Some. set_solver. Qed.

(** Side conditions of [chain_upd]: the field is that of an end of the
    segment, or the element lies outside it. *)
Ltac upd_side :=
  first [ by apply uses_last | by apply uses_head
        | let H := fresh in intros H%uses_subset; set_solver ].
Ltac chain_tac := repeat (apply chain_upd; [upd_side|]); try done.

(** Linking [p] to [z] takes [Y] out of the chain. *)
Lemma chain_remove m A Y B p z :
  chain m (A ++ Y ++ B) -> NoDup (A ++ Y ++ B) ->
  last A = Some p -> head B = Some z -> Y <> [] ->
  let m' := upd z FPrev p (upd p FNext z m) in
  chain m' (A ++ B) /\ chain m' Y.
Proof.
  intros Hc Hnd Hp Hz HY m'.
  apply chain_app in Hc as (HA & HYB & Hl1). apply chain_app in HYB as (HcY & HB & Hl2).
  apply NoDup_app in Hnd as (HnA & Hd1 & Hnd). apply NoDup_app in Hnd as (HnY & Hd2 & HnB).
  pose proof (head_elem _ _ Hz). pose proof (last_elem _ _ Hp).
  destruct (head Y) as [y|] eqn:Ey; [|by destruct Y].
  destruct (last Y) as [x|] eqn:Ex; [|by apply last_None in Ex].
  destruct (Hl1 p y) as [Hpn _]; [done|by apply head_app_l|].
  destruct (Hl2 x z) as [_ Hzp]; [done..|].
  assert (p <> z) by (intros ->; apply (Hd1 z); set_solver).
  split; [|unfold m'; chain_tac].
  apply chain_app. split_and!; [unfold m'; chain_tac..|].
  intros a b Ha Hb. assert (a = p) as -> by congruence. assert (b = z) as -> by congruence.
  unfold m'. split; fl_simp; done.
Qed.

(** Linking a detached segment [Y] between [p] and [z]. *)
Lemma chain_insert m A Y B p z y x wy wx :
  chain m (A ++ B) -> chain m Y -> NoDup (A ++ Y ++ B) ->
  last A = Some p -> head B = Some z -> head Y = Some y -> last Y = Some x ->
  fl m y FPrev = Some wy -> fl m x FNext = Some wx ->
  let m' := upd z FPrev x (upd p FNext y (upd x FNext z (upd y FPrev p m))) in
  chain m' (A ++ Y ++ B).
Proof.
  intros Hc HcY Hnd Hp Hz Hy Hx Hwy Hwx m'.
  apply chain_app in Hc as (HA & HB & Hl).
  apply NoDup_app in Hnd as (HnA & Hd1 & Hnd). apply NoDup_app in Hnd as (HnY & Hd2 & HnB).
  pose proof (head_elem _ _ Hz). pose proof (last_elem _ _ Hp).
  pose proof (head_elem _ _ Hy). pose proof (last_elem _ _ Hx).
  destruct (Hl p z) as [Hpn Hzp]; [done..|].
  assert (p <> x /\ p <> y /\ p <> z) as (? & ? & ?).
  { split_and!; intros ->; eapply Hd1; set_solver. }
  assert (z <> x /\ z <> y) as (? & ?) by (split; intros ->; eapply Hd2; set_solver).
  assert (forall a b, last A = Some a -> head (Y ++ B) = Some b -> link m' a b) as Hj1.
  { intros a b Ha Hb. rewrite (head_app_l _ _ _ Hy) in Hb. simplify_eq.
    unfold m'. split; fl_simp; done. }
  assert (forall a b, last Y = Some a -> head B = Some b -> link m' a b) as Hj2.
  { intros a b Ha Hb. simplify_eq. unfold m'. split; fl_simp; done. }
  apply chain_app. split_and!; [unfold m'; chain_tac| |done].
  apply chain_app. split_and!; [unfold m'; chain_tac..|done].
Qed.

(** ** The same surgery on lists *)

Lemma whole_app l xs ys : whole l (xs ++ ys) = (head_of l :: xs) ++ (ys ++ [tail_of l]).
Proof. unfold whole. by rewrite <-app_assoc. Qed.

Lemma last_head_of l xs : last (head_of l :: xs) = Some (last_of l xs).
Proof.
  unfold last_of. destruct xs as [|x xs _] using rev_ind; [done|].
  by rewrite app_comm_cons, !last_snoc.
Qed.

Lemma head_tail_of l ys : head (ys ++ [tail_of l]) = Some (first_of l ys).
Proof. by destruct ys. Qed.

Lemma rep_head_notin m l xs : rep m l xs -> head_of l ∉ xs ++ [tail_of l].
Proof. intros H. pose proof (rep_nodup _ _ _ H) as Hn. by apply NoDup_cons in Hn as [? _]. Qed.

Lemma rep_tail_notin m l xs : rep m l xs -> tail_of l ∉ head_of l :: xs.
Proof.
  intros H. pose proof (rep_nodup _ _ _ H) as Hn. unfold whole in Hn.
  rewrite app_comm_cons in Hn. apply NoDup_app in Hn. set_solver.
Qed.

Definition unlink (p z : Z) (m : mem) : mem := upd z FPrev p (upd p FNext z m).
Definition relink (p y x z : Z) (m : mem) : mem :=
  upd z FPrev x (upd p FNext y (upd x FNext z (upd y FPrev p m))).

Lemma rep_remove m l xs Y ys :
  rep m l (xs ++ Y ++ ys) -> Y <> [] ->
  let m' := unlink (last_of l xs) (first_of l ys) m in
  rep m' l (xs ++ ys) /\ chain m' Y.
Proof.
  intros H HY m'. destruct H as [Hc Hnd Hnull Hh Ht].
  rewrite whole_app, <-app_assoc in Hc, Hnd.
  destruct (chain_remove m _ Y _ _ _ Hc Hnd (last_head_of l xs) (head_tail_of l ys) HY)
    as [Hc1 HcY].
  split; [|done]. pose proof (first_of_in l ys). pose proof (last_of_in l xs).
  pose proof Hnd as Hnd'. rewrite <-app_comm_cons in Hnd'.
  apply NoDup_cons in Hnd' as [Hnh _].
  assert (Hsub : whole l (xs ++ ys) ⊆ whole l (xs ++ Y ++ ys)) by (unfold whole; set_solver).
  split.
  - by rewrite whole_app.
  - rewrite whole_app. eapply sublist_NoDup; [exact Hnd|].
    apply sublist_app; [done|]. by apply sublist_inserts_l.
  - set_solver.
  - assert (first_of l ys <> head_of l) by (intros E; apply Hnh; rewrite <-E; set_solver).
    unfold m', unlink. fl_simp. done.
  - assert (last_of l xs <> tail_of l).
    { apply NoDup_app in Hnd as (_ & Hd & _). intros E.
      apply (Hd (tail_of l)); [by rewrite <-E|set_solver]. }
    unfold m', unlink. fl_simp. done.
Qed.

Lemma rep_insert m l xs Y ys y x wy wx :
  rep m l (xs ++ ys) -> chain m Y -> NoDup Y -> NULL ∉ Y ->
  (forall a, a ∈ Y -> a ∉ whole l (xs ++ ys)) ->
  head Y = Some y -> last Y = Some x ->
  fl m y FPrev = Some wy -> fl m x FNext = Some wx ->
  rep (relink (last_of l xs) y x (first_of l ys) m) l (xs ++ Y ++ ys).
Proof.
  intros [Hc Hnd Hnull Hh Ht] HcY HnY HnullY Hdisj Hy Hx Hwy Hwx.
  rewrite whole_app in Hc, Hnd, Hdisj, Hnull.
  assert (Hnd' : NoDup ((head_of l :: xs) ++ Y ++ (ys ++ [tail_of l]))).
  { rewrite (Permutation_app_comm Y), app_assoc. apply NoDup_app. split_and!; [done| |done].
    clear -Hdisj. set_solver. }
  pose proof (chain_insert m _ Y _ _ _ y x wy wx Hc HcY Hnd' (last_head_of l xs)
    (head_tail_of l ys) Hy Hx Hwy Hwx) as Hc'.
  pose proof (head_elem _ _ Hy). pose proof (last_elem _ _ Hx).
  pose proof (first_of_in l ys). pose proof (last_of_in l xs).
  pose proof Hnd as (? & Hd & ?)%NoDup_app.
  assert (head_of l <> y) by (intros <-; eapply Hdisj; [done|set_solver]).
  assert (tail_of l <> x) by (intros <-; eapply Hdisj; [done|set_solver]).
  assert (head_of l <> first_of l ys).
  { intros E. apply (Hd (head_of l)); [set_solver|by rewrite E]. }
  assert (tail_of l <> last_of l xs).
  { intros E. apply (Hd (tail_of l)); [by rewrite E|set_solver]. }
  split.
  - by rewrite whole_app, <-app_assoc.
  - by rewrite whole_app, <-app_assoc.
  - rewrite whole_app. clear -Hnull HnullY. set_solver.
  - unfold relink. fl_simp. done.
  - unfold relink. fl_simp. done.
Qed.

Lemma outside_unlink l xs Y ys m :
  outside (whole l (xs ++ Y ++ ys)) m (unlink (last_of l xs) (first_of l ys) m).
Proof.
  pose proof (first_of_in l ys). pose proof (last_of_in l xs).
  eapply outside_trans; apply outside_upd; unfold whole; set_solver.
Qed.

Lemma outside_relink l xs Y ys y x m :
  y ∈ Y -> x ∈ Y ->
  outside (whole l (xs ++ Y ++ ys)) m (relink (last_of l xs) y x (first_of l ys) m).
Proof.
  intros Hy Hx. pose proof (first_of_in l ys). pose proof (last_of_in l xs).
  do 3 (eapply outside_trans; [|apply outside_upd; unfold whole; set_solver]).
  apply outside_upd; unfold whole; set_solver.
Qed.

(** ** Traversal *)

Section Traversal.
Context (m : mem) (l : Z) (xs ys : list Z).

Lemma list_end_ok : l <> NULL -> list_end l m = Ok (tail_of l, m).
Proof. intros H. unfold list_end. by mstep (assert_not_null m _ H). Qed.

Lemma list_begin_ok : rep m l xs -> list_begin l m = Ok (first_of l xs, m).
Proof.
  intros H. unfold list_begin. mstep (assert_not_null m _ (rep_not_null _ _ _ H)).
  destruct (rep_ends _ _ _ H) as (H1 & _ & H2 & _). by apply ld_ok.
Qed.

Lemma list_rbegin_ok : rep m l xs -> list_rbegin l m = Ok (last_of l xs, m).
Proof.
  intros H. unfold list_rbegin. mstep (assert_not_null m _ (rep_not_null _ _ _ H)).
  destruct (rep_ends _ _ _ H) as (_ & H1 & _ & H2 & _). by apply ld_ok.
Qed.

Lemma list_next_ok : rep m l (xs ++ ys) -> list_next (last_of l xs) m = Ok (first_of l ys, m).
Proof.
  intros H. destruct (rep_split _ _ _ _ H) as [H1 _].
  pose proof (rep_last_null _ _ _ _ H) as H0. pose proof (rep_first_null _ _ _ _ H) as H2.
  destruct (has_fl m (last_of l xs) FPrev) as [p Hp]; [eauto with pintos|].
  unfold list_next. mstep (assert_head_or_interior m _ p (first_of l ys) H0 H2 Hp H1). by apply ld_ok.
Qed.

Lemma list_prev_ok : rep m l (xs ++ ys) -> list_prev (first_of l ys) m = Ok (last_of l xs, m).
Proof.
  intros H. destruct (rep_split _ _ _ _ H) as [_ H1].
  pose proof (rep_last_null _ _ _ _ H) as H0. pose proof (rep_first_null _ _ _ _ H) as H2.
  destruct (has_fl m (first_of l ys) FNext) as [p Hp]; [eauto with pintos|].
  unfold list_prev. mstep (assert_interior_or_tail m _ (last_of l xs) p H2 H0 H1 Hp). by apply ld_ok.
Qed.

End Traversal.

(** The successor of the element [x] itself. *)
Lemma list_next_elem m l xs x ys :
  rep m l (xs ++ x :: ys) -> list_next x m = Ok (first_of l ys, m).
Proof.
  intros H. rewrite <-(last_of_snoc l xs x). apply list_next_ok. by rewrite <-app_assoc.
Qed.

Lemma first_of_tail m l xs ys :
  rep m l (xs ++ ys) -> first_of l ys = tail_of l <-> ys = [].
Proof.
  intros H. destruct ys as [|y ys]; [done|]. split; [|done]. intros E.
  by apply rep_first_neq_tail in H.
Qed.

Lemma list_empty_ok m l xs :
  rep m l xs -> list_empty l m = Ok (bool_decide (xs = []), m).
Proof.
  intros H. unfold list_empty. mstep (list_begin_ok _ _ _ H).
  mstep (list_end_ok m l (rep_not_null _ _ _ H)). unfold mret, M_ret.
  do 2 f_equal. apply bool_decide_ext. by apply (first_of_tail m l []).
Qed.

(** ** Initialization *)

Lemma list_init_ok m l :
  l <> NULL -> tail_of l <> NULL -> has m (head_of l) -> has m (tail_of l) ->
  exists m', list_init l m = Ok (tt, m') /\ rep m' l [] /\
    outside (whole l []) m m'.
Proof.
  intros Hl Ht Hh Hht.
  assert (Hne : head_of l <> tail_of l) by (unfold head_of, tail_of; lia).
  destruct (has_fl _ _ FPrev Hh) as [w Hw]. destruct (has_fl _ _ FPrev Hht) as [w' Hw'].
  eexists. split; [|split].
  - unfold list_init. mstep (assert_not_null m l Hl).
    mstep_by (by eapply st_ok). mstep_by (eapply st_ok; [done|by fl_simp]).
    mstep_by (eapply st_ok; [done|fl_simp; exact Hw']).
    eapply (st_ok _ _ _ _ _ FPrev); [done|by fl_simp].
  - split; unfold whole; simpl.
    + repeat split; fl_simp; done.
    + repeat constructor; set_solver.
    + unfold head_of. set_solver.
    + fl_simp. done.
    + fl_simp. done.
  - do 3 (eapply outside_trans; [|apply outside_upd; unfold whole; set_solver]).
    apply outside_upd; unfold whole; set_solver.
Qed.

(** ** Insertion, removal, splicing *)

Lemma list_insert_ok m l xs ys e :
  rep m l (xs ++ ys) -> e <> NULL -> has m e -> e ∉ whole l (xs ++ ys) ->
  exists m', list_insert (first_of l ys) e m = Ok (tt, m') /\
    rep m' l (xs ++ e :: ys) /\ outside (whole l (xs ++ e :: ys)) m m'.
Proof.
  intros H He Hhas Hout. destruct (rep_split _ _ _ _ H) as [Hp Hz].
  pose proof (rep_last_null _ _ _ _ H). pose proof (rep_first_null _ _ _ _ H).
  destruct (has_fl _ _ FPrev Hhas) as [wp Hwp]. destruct (has_fl _ _ FNext Hhas) as [wn Hwn].
  destruct (has_fl m (first_of l ys) FNext) as [zn Hzn]; [eauto with pintos|].
  assert (e <> first_of l ys /\ e <> last_of l xs) as [Hez Hep].
  { pose proof (first_of_in l ys). pose proof (last_of_in l xs).
    rewrite whole_app in Hout. split; intros ->; set_solver. }
  exists (relink (last_of l xs) e e (first_of l ys) m). split_and!.
  - unfold list_insert. mstep_by (by apply (assert_interior_or_tail m _ (last_of l xs) zn)).
    mstep (assert_not_null m e He). mstep_by (by apply ld_ok).
    mstep_by (by eapply st_ok). mstep_by (eapply st_ok; [done|by fl_simp]).
    mstep_by (apply ld_ok; [done|by fl_simp]).
    mstep_by (eapply st_ok; [done|fl_simp; exact Hp]).
    eapply (st_ok _ _ _ _ _ FPrev); [done|]. by fl_simp.
  - apply (rep_insert m l xs [e] ys e e wp wn); try done.
    + apply NoDup_singleton.
    + set_solver.
    + set_solver.
  - apply (outside_relink l xs [e] ys); set_solver.
Qed.

Lemma list_remove_ok m l xs e ys :
  rep m l (xs ++ e :: ys) ->
  exists m', list_remove e m = Ok (first_of l ys, m') /\
    rep m' l (xs ++ ys) /\ outside (whole l (xs ++ e :: ys)) m m' /\ has m' e.
Proof.
  intros H. destruct (rep_elem _ _ _ _ _ H) as (Hp & Hn & He & Hnp & Hnn).
  assert (H' : rep m l ((xs ++ [e]) ++ ys)) by (by rewrite <-app_assoc).
  pose proof (rep_split _ _ _ _ H) as [Hpn _]. pose proof (rep_split _ _ _ _ H') as [_ Hzp].
  rewrite last_of_snoc in Hzp.
  assert (e <> first_of l ys /\ e <> last_of l xs) as [Hez Hep].
  { pose proof (first_of_in l ys). pose proof (last_of_in l xs).
    pose proof (rep_nodup _ _ _ H) as Hnd. rewrite whole_app in Hnd.
    apply NoDup_app in Hnd as (_ & Hd & (Hn1 & _)%NoDup_cons).
    split; intros E; [apply Hn1; by rewrite E|].
    apply (Hd e); [by rewrite E|set_solver]. }
  destruct (rep_remove m l xs [e] ys H) as [Hrep _]; [done|].
  exists (unlink (last_of l xs) (first_of l ys) m). split_and!; [|done| |].
  - unfold list_remove.
    mstep_by (by apply (assert_interior m e (last_of l xs) (first_of l ys))).
    mstep_by (by apply ld_ok). mstep_by (by apply ld_ok).
    mstep_by (by eapply st_ok). mstep_by (apply ld_ok; [done|by fl_simp]).
    mstep_by (apply ld_ok; [done|by fl_simp]).
    mstep_by (eapply (st_ok _ _ _ _ _ FPrev); [done|fl_simp; exact Hzp]).
    apply ld_ok; [done|]. unfold unlink. by fl_simp.
  - apply (outside_unlink l xs [e] ys).
  - unfold unlink. eauto with pintos.
Qed.

(** The pointer reads and writes of [list_splice], on any two places. *)
Lemma list_splice_run m before p' first last' bp fp ln bn wl :
  before <> NULL -> bp <> NULL -> first <> NULL -> p' <> NULL -> fp <> NULL -> ln <> NULL ->
  first <> last' -> list_prev last' m = Ok (p', m) ->
  fl m before FPrev = Some wl -> wl <> NULL -> fl m before FNext = Some bn ->
  fl m first FPrev = Some fp -> has m p' -> fl m p' FNext = Some ln ->
  (exists n, fl m first FNext = Some n /\ n <> NULL) ->
  (exists q, fl m p' FPrev = Some q /\ q <> NULL) ->
  fl (unlink fp ln m) before FPrev = Some bp ->
  has m fp -> has m ln -> has m bp ->
  first <> ln -> p' <> fp -> before <> first ->
  list_splice before first last' m = Ok (tt, relink bp first p' before (unlink fp ln m)).
Proof.
  intros Hb Hbp Hf Hp Hfp Hln Hfl Hprev Hbfp Hwl Hbfn Hffp Hhp Hpn (n & Hn & Hn0)
    (q & Hq & Hq0) Hbp' Hhfp Hhln Hhbp Hne1 Hne2 Hne3.
  unfold list_splice, relink, unlink in *.
  destruct (has_fl _ _ FPrev Hhfp) as [? ?]. destruct (has_fl _ _ FPrev Hhln) as [? ?].
  destruct (has_fl _ _ FPrev Hhbp) as [? ?].
  mstep_by (by apply (assert_interior_or_tail m before wl bn)).
  rewrite bool_decide_eq_false_2 by done. mstep Hprev.
  mstep_by (by eapply (assert_interior m first fp n)).
  mstep_by (by eapply (assert_interior m p' q ln)).
  mstep_by (by apply ld_ok). mstep_by (by apply ld_ok). mstep_by (by eapply st_ok).
  mstep_by (apply ld_ok; [done|by fl_simp]). mstep_by (apply ld_ok; [done|by fl_simp]).
  mstep_by (eapply (st_ok _ _ _ _ _ FPrev); [done|by fl_simp]).
  mstep_by (apply ld_ok; [done|exact Hbp']).
  mstep_by (eapply (st_ok _ _ _ _ _ FPrev); [done|by fl_simp]).
  edestruct (has_fl (upd first FPrev bp (upd ln FPrev fp (upd fp FNext ln m))) p' FPrev)
    as [? ?]; [by eauto 6 with pintos|].
  mstep_by (by eapply st_ok).
  mstep_by (apply ld_ok; [done|]; rewrite fl_upd_ne by (by right; discriminate);
    rewrite fl_upd_ne by (left; congruence); exact Hbp').
  edestruct (has_fl (upd p' FNext before (upd first FPrev bp (upd ln FPrev fp
    (upd fp FNext ln m)))) bp FPrev) as [? ?]; [by eauto 8 with pintos|].
  mstep_by (by eapply st_ok).
  edestruct (has_fl (upd bp FNext first (upd p' FNext before (upd first FPrev bp
    (upd ln FPrev fp (upd fp FNext ln m))))) before FPrev) as [? ?];
    [by eauto 10 with pintos|].
  by eapply st_ok.
Qed.

(** [Y] is taken out of list [l]; [before] is a position of list [l2] (which
    may be [l] itself) as it is once [Y] is gone. *)
Lemma list_splice_ok m l xs Y zs l2 us vs :
  rep m l (xs ++ Y ++ zs) -> Y <> [] ->
  rep (unlink (last_of l xs) (first_of l zs) m) l2 (us ++ vs) ->
  (forall a, a ∈ Y -> a ∉ whole l2 (us ++ vs)) ->
  exists y x, head Y = Some y /\ last Y = Some x /\
  let m' := relink (last_of l2 us) y x (first_of l2 vs)
              (unlink (last_of l xs) (first_of l zs) m) in
  list_splice (first_of l2 vs) y (first_of l zs) m = Ok (tt, m') /\
  rep m' l2 (us ++ Y ++ vs).
Proof.
  intros H HY H2 Hdisj. set (m1 := unlink _ _ m) in *.
  destruct (head Y) as [y|] eqn:Ey; [|by destruct Y].
  destruct (last Y) as [x|] eqn:Ex; [|by apply last_None in Ex].
  exists y, x. split_and!; [done..|].
  pose proof Ey as [Y1 HY1]%head_Some. pose proof Ex as [Y2 HY2]%last_Some.
  assert (Hy : rep m l (xs ++ y :: Y1 ++ zs)) by (by rewrite app_comm_cons, <-HY1).
  assert (Hx : rep m l ((xs ++ Y2) ++ x :: zs)).
  { rewrite <-app_assoc, cons_middle, (app_assoc Y2), <-HY2. done. }
  destruct (rep_elem _ _ _ _ _ Hy) as (Hyp & Hyn & Hy0 & Hw0 & Hyn0).
  destruct (rep_elem _ _ _ _ _ Hx) as (Hxp & Hxn & Hx0 & Hxp0 & Hz0).
  pose proof (rep_split _ _ _ _ Hy) as [Hwn _]. pose proof (rep_split _ _ _ _ H2) as [Hpn Hbp].
  assert (Hx' : rep m l ((xs ++ Y) ++ zs)) by (by rewrite <-app_assoc).
  pose proof (rep_split _ _ _ _ Hx') as [_ Hzp].
  assert (last_of l (xs ++ Y) = x) as El by (by rewrite HY2, app_assoc, last_of_snoc).
  rewrite El in Hzp.
  destruct (rep_remove m l xs Y zs H HY) as [_ HcY]. fold m1 in HcY.
  pose proof (rep_nodup _ _ _ H) as Hnd. rewrite whole_app, <-app_assoc in Hnd.
  apply NoDup_app in Hnd as (_ & Hd1 & (HnY & Hd2 & _)%NoDup_app).
  pose proof (head_elem _ _ Ey) as HyY. pose proof (last_elem _ _ Ex) as HxY.
  pose proof (first_of_in l zs) as Hzin. pose proof (last_of_in l xs) as Hwin.
  assert (Hbin : first_of l2 vs ∈ whole l2 (us ++ vs)).
  { rewrite whole_app. pose proof (first_of_in l2 vs). set_solver. }
  assert (Hhas : forall b, has m1 b -> has m b).
  { intros b Hb. by eapply has_upd_inv, has_upd_inv. }
  assert (has m (first_of l2 vs)) as Hhb by eauto with pintos.
  destruct (has_fl _ _ FNext Hhb) as [bn Hbn].
  destruct (has_fl _ _ FPrev Hhb) as [wl Hwl].
  assert (wl <> NULL) as Hwl0.
  { destruct (decide (first_of l zs = first_of l2 vs)) as [E|E]; [congruence|].
    unfold m1, unlink in Hbp.
    rewrite fl_upd_ne, fl_upd_ne, Hwl in Hbp by (by first [by left | by right]).
    pose proof (rep_last_null _ _ _ _ H2). congruence. }
  assert (HYne : forall a, a ∈ Y -> a <> first_of l zs /\ a <> last_of l xs).
  { intros a Ha. split; intros ->; [by apply (Hd2 _ Ha)|].
    apply (Hd1 _ Hwin). set_solver. }
  split.
  - eapply (list_splice_run _ _ x y _ _ _ _ bn wl); eauto with pintos.
    + by eapply rep_first_null.
    + by eapply rep_last_null.
    + by apply HYne.
    + rewrite <-El. by apply list_prev_ok.
    + by apply HYne.
    + by apply HYne.
    + intros E. apply (Hdisj y HyY). by rewrite <-E.
  - assert (has m1 y /\ has m1 x) as [Hh1 Hh2].
    { split; unfold m1, unlink; eauto with pintos. }
    destruct (has_fl _ _ FPrev Hh1) as [? ?]. destruct (has_fl _ _ FNext Hh2) as [? ?].
    eapply rep_insert; eauto. intros Hnull. apply (rep_null _ _ _ H). unfold whole. clear -Hnull. set_solver.
Qed.

(** Moving [ys] in front of the preceding segment [vs] of the same list. *)
Lemma list_splice_forward m l us vs ys zs y :
  rep m l (us ++ vs ++ ys ++ zs) -> vs <> [] -> head ys = Some y ->
  exists m', list_splice (first_of l vs) y (first_of l zs) m = Ok (tt, m') /\
    rep m' l (us ++ ys ++ vs ++ zs) /\
    outside (whole l (us ++ vs ++ ys ++ zs)) m m'.
Proof.
  intros H Hvs Hy. assert (Hys : ys <> []) by by intros ->.
  assert (H' : rep m l ((us ++ vs) ++ ys ++ zs)) by by rewrite <-app_assoc.
  destruct (rep_remove _ _ _ _ _ H' Hys) as [Hrem _]. rewrite <-app_assoc in Hrem.
  destruct (list_splice_ok m l (us ++ vs) ys zs l us (vs ++ zs) H' Hys Hrem)
    as (y' & x & Hy' & Hx & Hrun & Hrep).
  { intros a Ha Hin. pose proof (rep_nodup _ _ _ H') as Hnd. rewrite whole_app in Hnd.
    unfold whole in Hin. apply NoDup_app in Hnd as (_ & Hd1 & Hnd).
    rewrite <-app_assoc in Hnd, Hd1. apply NoDup_app in Hnd as (_ & Hd2 & _).
    specialize (Hd1 a). specialize (Hd2 a Ha). set_solver. }
  assert (y' = y) as -> by congruence.
  assert (first_of l (vs ++ zs) = first_of l vs) as E by by destruct vs.
  rewrite E in *. eexists. split; [exact Hrun|]. split; [done|].
  eapply outside_trans.
  - pose proof (outside_unlink l (us ++ vs) ys zs m) as Ho. by rewrite <-app_assoc in Ho.
  - rewrite <-E. eapply outside_mono; [|apply (outside_relink l us ys (vs ++ zs));
      [by apply head_elem|by apply last_elem]]. unfold whole. set_solver.
Qed.

(** Moving [ys] from one list into another. *)
Lemma list_splice_across m l xs ys zs l2 us vs y :
  rep m l (xs ++ ys ++ zs) -> rep m l2 (us ++ vs) -> head ys = Some y ->
  (forall a, a ∈ whole l (xs ++ ys ++ zs) -> a ∉ whole l2 (us ++ vs)) ->
  exists m', list_splice (first_of l2 vs) y (first_of l zs) m = Ok (tt, m') /\
    rep m' l (xs ++ zs) /\ rep m' l2 (us ++ ys ++ vs) /\
    outside (whole l (xs ++ ys ++ zs) ++ whole l2 (us ++ vs)) m m'.
Proof.
  intros H H2 Hy Hdisj. assert (Hys : ys <> []) by by intros ->.
  destruct (rep_remove _ _ _ _ _ H Hys) as [Hrem _].
  pose proof (outside_unlink l xs ys zs m) as Ho1.
  assert (Hsub : ys ⊆ whole l (xs ++ ys ++ zs)) by (unfold whole; set_solver).
  assert (Hrem2 : rep (unlink (last_of l xs) (first_of l zs) m) l2 (us ++ vs)).
  { eapply rep_frame; [exact Ho1| |done]. intros a Ha Hin. by apply (Hdisj a). }
  destruct (list_splice_ok m l xs ys zs l2 us vs H Hys Hrem2)
    as (y' & x & Hy' & Hx & Hrun & Hrep).
  { intros a Ha. apply Hdisj. by apply Hsub. }
  assert (y' = y) as -> by congruence.
  pose proof (outside_relink l2 us ys vs y x (unlink (last_of l xs) (first_of l zs) m)
    (head_elem _ _ Hy) (last_elem _ _ Hx)) as Ho2.
  eexists. split; [exact Hrun|]. split_and!; [|done|].
  - eapply (rep_frame (ys ++ whole l2 (us ++ vs))); [|intros a Ha|exact Hrem].
    + eapply outside_mono; [|exact Ho2]. unfold whole. set_solver.
    + pose proof (rep_nodup _ _ _ H) as Hnd. rewrite whole_app, <-app_assoc in Hnd.
      apply NoDup_app in Hnd as (_ & Hd1 & (_ & Hd2 & _)%NoDup_app).
      specialize (Hd1 a). specialize (Hd2 a). specialize (Hdisj a).
      unfold whole in Ha, Hdisj. set_solver.
  - eapply outside_trans; [eapply outside_mono; [|exact Ho1]; set_solver|].
    eapply outside_mono; [|exact Ho2]. unfold whole in *. set_solver.
Qed.

(** ** Sequence operations of list.c: ends, size, reversal

    The functions that treat a list as a sequence, specified through the
    sequence the list represents. *)

(** ** Both ends *)

Lemma list_push_front_ok m l xs e :
  rep m l xs -> e <> NULL -> has m e -> e ∉ whole l xs ->
  exists m', list_push_front l e m = Ok (tt, m') /\ rep m' l (e :: xs) /\
    outside (whole l (e :: xs)) m m'.
Proof.
  intros H He Hh Hout. unfold list_push_front. mstep (list_begin_ok _ _ _ H).
  by apply (list_insert_ok m l [] xs e).
Qed.

Lemma list_push_back_ok m l xs e :
  rep m l xs -> e <> NULL -> has m e -> e ∉ whole l xs ->
  exists m', list_push_back l e m = Ok (tt, m') /\ rep m' l (xs ++ [e]) /\
    outside (whole l (xs ++ [e])) m m'.
Proof.
  intros H He Hh Hout. unfold list_push_back.
  mstep (list_end_ok m l (rep_not_null _ _ _ H)).
  rewrite <-(app_nil_r xs) in H, Hout.
  by apply (list_insert_ok m l xs [] e).
Qed.

Lemma assert_nonempty m l xs :
  rep m l xs ->
  ASSERTM (e ← list_empty l; mret (negb e)) m =
  if bool_decide (xs = []) then Err EAssert else Ok (tt, m).
Proof.
  intros H. unfold ASSERTM. rewrite bind_assoc. mstep (list_empty_ok _ _ _ H).
  rewrite bind_ret. by case_bool_decide.
Qed.

Lemma list_front_ok m l x xs : rep m l (x :: xs) -> list_front l m = Ok (x, m).
Proof.
  intros H. unfold list_front. pose proof (assert_nonempty _ _ _ H) as E.
  rewrite bool_decide_eq_false_2 in E by done. mstep E.
  destruct (rep_ends _ _ _ H) as (? & _ & ? & _). by apply ld_ok.
Qed.

Lemma list_back_ok m l xs x : rep m l (xs ++ [x]) -> list_back l m = Ok (x, m).
Proof.
  intros H. unfold list_back. pose proof (assert_nonempty _ _ _ H) as E.
  rewrite bool_decide_eq_false_2 in E by (by destruct xs). mstep E.
  destruct (rep_ends _ _ _ H) as (_ & E2 & _ & ? & _). rewrite last_of_snoc in E2.
  by apply ld_ok.
Qed.

Lemma list_pop_front_ok m l x xs :
  rep m l (x :: xs) ->
  exists m', list_pop_front l m = Ok (x, m') /\ rep m' l xs /\
    outside (whole l (x :: xs)) m m' /\ has m' x.
Proof.
  intros H. destruct (list_remove_ok m l [] x xs H) as (m' & E & H' & Ho & Hh).
  exists m'. split_and!; try done. unfold list_pop_front.
  mstep (list_front_ok _ _ _ _ H). by mstep E.
Qed.

Lemma list_pop_back_ok m l xs x :
  rep m l (xs ++ [x]) ->
  exists m', list_pop_back l m = Ok (x, m') /\ rep m' l xs /\
    outside (whole l (xs ++ [x])) m m' /\ has m' x.
Proof.
  intros H. destruct (list_remove_ok m l xs x [] H) as (m' & E & H' & Ho & Hh).
  rewrite app_nil_r in H'. exists m'. split_and!; try done. unfold list_pop_back.
  mstep (list_back_ok _ _ _ _ H). by mstep E.
Qed.

Lemma list_pop_front_empty m l : rep m l [] -> list_pop_front l m = Err EAssert.
Proof.
  intros H. unfold list_pop_front, list_front. apply bind_err, bind_err.
  by rewrite (assert_nonempty _ _ _ H).
Qed.

(** ** Size *)

Lemma at_end m l xs ys {A} (t e : M mem A) :
  rep m l (xs ++ ys) ->
  (z ← list_end l; if bool_decide (first_of l ys = z) then t else e) m =
  match ys with [] => t m | _ => e m end.
Proof.
  intros H. mstep (list_end_ok m l (rep_not_null _ _ _ H)).
  destruct ys as [|y ys]; [by rewrite bool_decide_eq_true_2|].
  rewrite bool_decide_eq_false_2; [done|]. by eapply rep_first_neq_tail.
Qed.

Lemma list_size_loop_ok m l ys : forall xs fuel cnt,
  rep m l (xs ++ ys) -> (length ys < fuel)%nat -> 0 <= cnt < 4294967296 ->
  list_size_loop fuel l (first_of l ys) cnt m = Ok (u32 (cnt + Z.of_nat (length ys)), m).
Proof.
  induction ys as [|y ys IH]; intros xs fuel cnt H Hf Hc;
    (destruct fuel as [|fuel]; [simpl in *; lia|]); cbn [list_size_loop];
    rewrite (at_end m l xs _ _ _ H).
  - rewrite u32_small by (simpl; lia). by rewrite Z.add_0_r.
  - mstep (list_next_elem _ _ _ _ _ H).
    rewrite (IH (xs ++ [y])); [|by rewrite <-app_assoc|simpl in *; lia|apply u32_range].
    do 2 f_equal. unfold u32. rewrite Z.add_mod_idemp_l by done.
    f_equal. simpl length. lia.
Qed.

Lemma list_size_ok m l xs fuel :
  rep m l xs -> (length xs < fuel)%nat ->
  list_size fuel l m = Ok (u32 (Z.of_nat (length xs)), m).
Proof.
  intros H Hf. unfold list_size. mstep (list_begin_ok _ _ _ H).
  by apply (list_size_loop_ok m l xs []).
Qed.

(** ** Reversal *)

Lemma swap_ok m a f b g va vb :
  a <> NULL -> b <> NULL -> fl m a f = Some va -> fl m b g = Some vb ->
  swap (a, f) (b, g) m = Ok (tt, upd b g va (upd a f vb m)).
Proof.
  intros Ha Hb Hva Hvb. unfold swap. simpl.
  mstep_by (by apply ld_ok). mstep_by (by apply ld_ok). mstep_by (by eapply st_ok).
  destruct (has_fl (upd a f vb m) b FPrev) as [? ?]; [eauto with pintos|].
  by eapply st_ok.
Qed.

(** The state of the loop: [us] is reversed in place, [ys] is not yet. *)
Record half_reversed (m : mem) (l : Z) (us ys : list Z) : Prop := {
  hr_done : chain m (reverse us);
  hr_todo : chain m (ys ++ [tail_of l]);
  hr_cut : fl m (first_of l ys) FPrev = Some (last_of l us);
  hr_first : forall u, head us = Some u -> fl m u FNext = Some (head_of l);
  hr_last : forall u, last us = Some u -> fl m u FPrev = Some (first_of l ys);
  hr_head : fl m (head_of l) FNext = Some (first_of l (us ++ ys));
  hr_head_prev : fl m (head_of l) FPrev = Some NULL;
  hr_tail : fl m (tail_of l) FNext = Some NULL
}.

Lemma half_reversed_step m l us y ys z :
  NoDup (whole l (us ++ y :: ys)) -> half_reversed m l us (y :: ys) ->
  fl m y FNext = Some z ->
  half_reversed (upd y FNext (last_of l us) (upd y FPrev z m)) l (us ++ [y]) ys.
Proof.
  intros Hnd [Hd Ht Hc Hf Hl Hh Hhp Htn] Hz.
  rewrite whole_app in Hnd. apply NoDup_app in Hnd as (Hn1 & Hdis & Hn2).
  assert (y ∉ head_of l :: us) as Hy1 by (intros Hin; apply (Hdis y Hin); set_solver).
  assert (y ∉ ys ++ [tail_of l]) as Hy2 by (by apply NoDup_cons in Hn2 as [? _]).
  assert (Hhy : has m y) by eauto with pintos.
  assert (y <> head_of l /\ y <> tail_of l) as [? ?] by (clear -Hy1 Hy2; set_solver).
  simpl in Ht. apply chain_cons in Ht as [Ht Hlk].
  destruct (Hlk (first_of l ys)) as [Hyn Hyp]; [apply head_tail_of|].
  assert (z = first_of l ys) as -> by (simpl in *; congruence).
  assert (first_of l ys <> y) by (intros E; apply Hy2; rewrite <-E; apply first_of_in).
  split.
  - rewrite reverse_snoc. apply chain_cons. split.
    + do 2 (apply chain_upd_out; [rewrite elem_of_reverse; clear -Hy1; set_solver|]). done.
    + intros b Hb. rewrite head_reverse in Hb.
      assert (last_of l us = b) as -> by (unfold last_of; by rewrite Hb).
      assert (y <> b) by (apply last_elem in Hb; clear -Hy1 Hb; set_solver).
      split; fl_simp; [done|]. by apply Hl.
  - do 2 (apply chain_upd_out; [done|]). done.
  - rewrite last_of_snoc. by fl_simp.
  - intros u Hu. destruct us as [|u' us]; simpl in Hu; simplify_eq.
    + fl_simp. done.
    + assert (y <> u) by (clear -Hy1; set_solver). fl_simp. by apply Hf.
  - intros u Hu. rewrite last_snoc in Hu. simplify_eq. by fl_simp.
  - rewrite <-app_assoc. by fl_simp.
  - by fl_simp.
  - by fl_simp.
Qed.

Lemma list_reverse_loop_ok l ys : forall us fuel m,
  NoDup (whole l (us ++ ys)) -> NULL ∉ whole l (us ++ ys) -> half_reversed m l us ys ->
  (length ys < fuel)%nat ->
  exists m', list_reverse_loop fuel l (first_of l ys) m = Ok (tt, m') /\
    half_reversed m' l (us ++ ys) [] /\ outside (us ++ ys) m m'.
Proof.
  induction ys as [|y ys IH]; intros us fuel m Hnd Hnull H Hf;
    (destruct fuel as [|fuel]; [simpl in *; lia|]); cbn [list_reverse_loop];
    (assert (l <> NULL) as Hl by (intros ->; apply Hnull; unfold whole, head_of; set_solver));
    mstep (list_end_ok m l Hl).
  - simpl. rewrite bool_decide_eq_true_2 by done. exists m. rewrite app_nil_r.
    split_and!; [done..|apply outside_refl].
  - rewrite bool_decide_eq_false_2.
    2:{ simpl. intros ->. rewrite whole_app in Hnd.
        apply NoDup_app in Hnd as (_ & _ & [Hn _]%NoDup_cons). set_solver. }
    assert (y <> NULL) as Hy by (intros ->; apply Hnull; unfold whole; set_solver).
    pose proof (hr_cut _ _ _ _ H) as Hp. simpl in Hp |- *.
    destruct (has_fl m y FNext) as [z Hz]; [eauto with pintos|].
    mstep (swap_ok m y FPrev y FNext _ _ Hy Hy Hp Hz).
    assert (fl (upd y FNext (last_of l us) (upd y FPrev z m)) y FPrev = Some z) as Hz'
      by (by fl_simp).
    mstep (ld_ok _ _ _ _ Hy Hz').
    pose proof (hr_todo _ _ _ _ H) as Ht. simpl in Ht. apply chain_cons in Ht as [_ Hlk].
    destruct (Hlk (first_of l ys)) as [Hyn _]; [apply head_tail_of|].
    assert (z = first_of l ys) as -> by congruence.
    assert (us ++ y :: ys = (us ++ [y]) ++ ys) as E by by rewrite <-app_assoc.
    destruct (IH (us ++ [y]) fuel (upd y FNext (last_of l us) (upd y FPrev (first_of l ys) m)))
      as (m' & Hrun & Hhr & Ho).
    + by rewrite <-E.
    + by rewrite <-E.
    + by apply half_reversed_step.
    + simpl in Hf. lia.
    + exists m'. rewrite E. split_and!; [done..|].
      eapply outside_trans; [|exact Ho].
      eapply outside_trans; apply outside_upd; set_solver.
Qed.

Lemma list_reverse_ok m l xs fuel :
  rep m l xs -> (length xs < fuel)%nat ->
  exists m', list_reverse fuel l m = Ok (tt, m') /\ rep m' l (reverse xs) /\
    outside (whole l xs) m m'.
Proof.
  intros H Hf. unfold list_reverse. mstep (list_empty_ok _ _ _ H). case_bool_decide as Hxs.
  { subst. exists m. split_and!; [done..|apply outside_refl]. }
  mstep (list_begin_ok _ _ _ H).
  destruct (rep_ends _ _ _ H) as (Hhn & Htp & Hh0 & Ht0 & _ & _).
  destruct (list_reverse_loop_ok l xs [] fuel m) as (m1 & Hrun & Hhr & Ho);
    [apply H..| |done|].
  { pose proof (rep_chain _ _ _ H) as Hc. unfold whole in Hc.
    apply chain_cons in Hc as [Hc Hlk]. split; try done; try apply H.
    apply (rep_split m l []), H. }
  mstep Hrun. destruct Hhr as [Hd _ Hc Hfst Hlst Hhead Hhp Htn]. simpl in *.
  rewrite app_nil_r in Hhead.
  destruct (head xs) as [x|] eqn:Ex; [|by destruct xs].
  destruct (last xs) as [y|] eqn:Ey; [|by apply last_None in Ey].
  assert (first_of l xs = x) as Exf by (by destruct xs; simplify_eq/=).
  assert (last_of l xs = y) as Eyl by (unfold last_of; by rewrite Ey).
  rewrite Exf in *. rewrite Eyl in *.
  specialize (Hfst x eq_refl). specialize (Hlst y eq_refl).
  pose proof (head_elem _ _ Ex). pose proof (last_elem _ _ Ey).
  pose proof (rep_nodup _ _ _ H) as (Hnh & (Hnx & Hdt & _)%NoDup_app)%NoDup_cons.
  assert (x <> NULL /\ y <> NULL) as [Hx0 Hy0].
  { pose proof (rep_null _ _ _ H) as Hnull. unfold whole in Hnull.
    split; intros ->; apply Hnull; set_solver. }
  assert (x <> head_of l /\ y <> head_of l) as [? ?] by (split; intros ->; apply Hnh; set_solver).
  assert (x <> tail_of l /\ y <> tail_of l) as [? ?].
  { split; intros ->; eapply Hdt; set_solver. }
  mstep (swap_ok m1 (head_of l) FNext (tail_of l) FPrev _ _ Hh0 Ht0 Hhead Hc).
  mstep_by (apply ld_ok; [done|by fl_simp]). mstep_by (apply ld_ok; [done|by fl_simp]).
  eexists. split; [apply swap_ok; [done|done|by fl_simp|by fl_simp]|]. split.
  - split.
    + unfold whole. rewrite app_comm_cons. apply chain_app. split_and!; [|done|].
      * apply chain_cons. split.
        -- apply chain_upd; [apply uses_last; [by rewrite reverse_Permutation|by rewrite last_reverse]|].
           apply chain_upd; [apply uses_head; [by rewrite reverse_Permutation|by rewrite head_reverse]|].
           apply chain_upd_out; [rewrite elem_of_reverse; intros Hu; apply (Hdt _ Hu); set_solver|].
           apply chain_upd_out; [rewrite elem_of_reverse; intros Hu; apply Hnh; set_solver|]. done.
        -- intros b Hb. rewrite head_reverse in Hb. simplify_eq. split; by fl_simp.
      * intros a b Ha Hb. simplify_eq/=. rewrite last_cons, last_reverse, Ex in Ha.
        simplify_eq. split; by fl_simp.
    + unfold whole. rewrite reverse_Permutation. apply (rep_nodup _ _ _ H).
    + unfold whole. rewrite reverse_Permutation. apply (rep_null _ _ _ H).
    + by fl_simp.
    + by fl_simp.
  - eapply outside_trans; [eapply outside_mono; [|exact Ho]; unfold whole; set_solver|].
    do 3 (eapply outside_trans; [|apply outside_upd; unfold whole; set_solver]).
    apply outside_upd; unfold whole; set_solver.
Qed.
