(* ===== verification/ListOrder.v ===== *)
(** * Ordered operations of list.c

    [list_insert_ordered], [list_sort], [list_unique], [list_max] and
    [list_min], for an arbitrary [less].  The pointer algorithms are first
    shown to implement functions on sequences; what those functions compute is
    then characterised. *)

From S2P Require Import Prelude ListModel ListRep ListOps.

(** What list.h asks of a [list_less_func]: a strict weak order. *)
Class StrictWeakOrder (less : Z -> Z -> bool) : Prop := {
  swo_asym : forall a b, less a b = true -> less b a = false;
  swo_negtrans : forall a b c, less a b = false -> less b c = false -> less a c = false
}.

Section Ordered.
Context (less : Z -> Z -> bool).

(** ** The sequence functions *)

Fixpoint insert_ordered (e : Z) (xs : list Z) : list Z :=
  match xs with
  | [] => [e]
  | x :: xs => if less e x then e :: x :: xs else x :: insert_ordered e xs
  end.

(** Adjacent elements are in nondecreasing order. *)
Fixpoint sortedb (xs : list Z) : bool :=
  match xs with
  | a :: (b :: _) as t => negb (less b a) && sortedb t
  | _ => true
  end.

(** The rest of the run that starts at [a], and what follows the run. *)
Fixpoint run_end (a : Z) (ys : list Z) : list Z * list Z :=
  match ys with
  | [] => ([], [])
  | y :: ys' => if less y a then ([], ys)
                else let (r, z) := run_end y ys' in (y :: r, z)
  end.

Fixpoint merge_runs (xs : list Z) : list Z -> list Z :=
  fix go (ys : list Z) : list Z :=
    match xs, ys with
    | [], _ => ys
    | _, [] => xs
    | x :: xs', y :: ys' => if less y x then y :: go ys' else x :: merge_runs xs' ys
    end.

(** Number of descents: one less than the number of runs. *)
Fixpoint descents (xs : list Z) : nat :=
  match xs with
  | a :: (b :: _) as t => (if less b a then 1 else 0) + descents t
  | _ => 0
  end.

(** One pass of the sort: adjacent maximal runs merged two by two.  The last
    index counts the output runs. *)
Inductive pass_rel : list Z -> list Z -> nat -> Prop :=
  | pass_nil : pass_rel [] [] 0
  | pass_one a r : run_end a r = (r, []) -> pass_rel (a :: r) (a :: r) 1
  | pass_two a r b s rest rest' k :
      run_end a (r ++ b :: s ++ rest) = (r, b :: s ++ rest) ->
      run_end b (s ++ rest) = (s, rest) ->
      pass_rel rest rest' k ->
      pass_rel (a :: r ++ b :: s ++ rest) (merge_runs (a :: r) (b :: s) ++ rest') (S k).

(** ** The loops implement the sequence functions *)

Lemma rep_first_neq m l us y ys zs :
  rep m l (us ++ y :: ys ++ zs) -> y <> first_of l zs.
Proof.
  intros H E. pose proof (rep_nodup _ _ _ H) as Hnd. rewrite whole_app in Hnd.
  apply NoDup_app in Hnd as (_ & _ & [Hn _]%NoDup_cons). apply Hn.
  change (y ∈ (ys ++ zs) ++ [tail_of l]). rewrite <-app_assoc, E. apply elem_of_app. right. apply first_of_in.
Qed.

Lemma list_prev_elem m l us a y ys :
  rep m l (us ++ a :: y :: ys) -> list_prev y m = Ok (a, m).
Proof.
  intros H. rewrite cons_middle, app_assoc in H. rewrite <-(last_of_snoc l us a).
  change y with (first_of l (y :: ys)). by apply list_prev_ok.
Qed.

Lemma is_sorted_loop_ok m l zs ys : forall us a fuel,
  rep m l (us ++ a :: ys ++ zs) -> (length ys < fuel)%nat ->
  is_sorted_loop less fuel a (first_of l zs) m = Ok (sortedb (a :: ys), m).
Proof.
  induction ys as [|y ys IH]; intros us a fuel H Hf;
    (destruct fuel as [|fuel]; [simpl in *; lia|]); cbn [is_sorted_loop];
    mstep (list_next_elem _ _ _ _ _ H).
  - by rewrite bool_decide_eq_true_2.
  - cbn [first_of app]. rewrite bool_decide_eq_false_2.
    2:{ rewrite <-app_comm_cons, cons_middle, app_assoc in H. by eapply rep_first_neq. }
    mstep (list_prev_elem _ _ _ _ _ _ H). cbn [sortedb]. destruct (less y a); [done|].
    apply (IH (us ++ [a])); [by rewrite <-app_assoc|simpl in Hf; lia].
Qed.

Lemma is_sorted_ok m l us xs zs fuel :
  rep m l (us ++ xs ++ zs) -> (length xs < fuel)%nat ->
  is_sorted less fuel (first_of l (xs ++ zs)) (first_of l zs) m = Ok (sortedb xs, m).
Proof.
  intros H Hf. unfold is_sorted. destruct xs as [|x xs].
  - by rewrite bool_decide_eq_true_2.
  - simpl in H |- *. rewrite bool_decide_eq_false_2 by by eapply rep_first_neq.
    apply (is_sorted_loop_ok m l zs xs us); [done|simpl in Hf; lia].
Qed.

Lemma run_end_app a ys : ys = (run_end a ys).1 ++ (run_end a ys).2.
Proof.
  revert a. induction ys as [|y ys IH]; intros a; [done|]. simpl.
  destruct (less y a); [done|]. specialize (IH y). destruct (run_end y ys). simpl in *.
  by rewrite IH.
Qed.

Lemma find_end_of_run_loop_ok m l ys : forall us a fuel,
  rep m l (us ++ a :: ys) -> (length ys < fuel)%nat ->
  find_end_of_run_loop less fuel a (tail_of l) m = Ok (first_of l (run_end a ys).2, m).
Proof.
  induction ys as [|y ys IH]; intros us a fuel H Hf;
    (destruct fuel as [|fuel]; [simpl in *; lia|]); cbn [find_end_of_run_loop];
    mstep (list_next_elem _ _ _ _ _ H).
  - by rewrite bool_decide_eq_true_2.
  - assert (H' : rep m l ((us ++ [a]) ++ y :: ys)) by by rewrite <-app_assoc.
    cbn [first_of]. rewrite bool_decide_eq_false_2 by by eapply rep_first_neq_tail.
    mstep (list_prev_elem _ _ _ _ _ _ H). cbn [run_end]. destruct (less y a); [done|].
    rewrite (IH (us ++ [a])); [|done|simpl in Hf; lia]. by destruct (run_end y ys).
Qed.

Lemma find_end_of_run_ok m l us a ys fuel :
  rep m l (us ++ a :: ys) -> (length ys < fuel)%nat ->
  find_end_of_run less fuel a (tail_of l) m = Ok (first_of l (run_end a ys).2, m).
Proof.
  intros H Hf. unfold find_end_of_run.
  destruct (rep_elem _ _ _ _ _ H) as (_ & _ & Ha & _). destruct (rep_ends _ _ _ H) as (_&_&_&Ht&_).
  mstep (assert_not_null m a Ha). mstep (assert_not_null m _ Ht).
  mstep_by (apply ASSERT_true; rewrite bool_decide_eq_false_2;
    [done|by eapply rep_first_neq_tail]).
  by eapply find_end_of_run_loop_ok.
Qed.

Lemma inplace_merge_loop_ok l zs fuel : forall m us xs ys,
  rep m l (us ++ xs ++ ys ++ zs) -> (length xs + length ys < fuel)%nat ->
  exists m', inplace_merge_loop less fuel (first_of l (xs ++ ys ++ zs))
      (first_of l (ys ++ zs)) (first_of l zs) m = Ok (tt, m') /\
    rep m' l (us ++ merge_runs xs ys ++ zs) /\
    outside (whole l (us ++ xs ++ ys ++ zs)) m m'.
Proof.
  induction fuel as [|fuel IH]; intros m us xs ys H Hf; [lia|]. cbn [inplace_merge_loop].
  destruct xs as [|x xs].
  { rewrite bool_decide_eq_true_2 by done. exists m. simpl.
    split_and!; [done|by destruct ys|apply outside_refl]. }
  destruct ys as [|y ys].
  { rewrite (bool_decide_eq_true_2 (first_of l ([] ++ zs) = _)) by done.
    rewrite andb_false_r. exists m. split_and!; [done|done|apply outside_refl]. }
  cbn [first_of app].
  assert (Hy : rep m l ((us ++ x :: xs) ++ y :: ys ++ zs)) by by rewrite <-app_assoc.
  rewrite bool_decide_eq_false_2.
  2:{ change y with (first_of l (y :: ys ++ zs)). by eapply rep_first_neq. }
  rewrite bool_decide_eq_false_2 by by eapply rep_first_neq. cbn [negb andb merge_runs].
  destruct (less y x) eqn:E; cbn [negb].
  - mstep (list_next_elem _ _ _ _ _ Hy).
    assert (Hy2 : rep m l (((us ++ x :: xs) ++ [y]) ++ ys ++ zs)) by by rewrite <-!app_assoc.
    mstep_by (by eapply list_prev_ok). rewrite last_of_snoc.
    destruct (list_splice_forward m l us (x :: xs) [y] (ys ++ zs) y)
      as (m1 & Hrun & Hrep & Ho); [done|done|done|]. simpl in Hrun, Hrep.
    mstep Hrun. destruct (IH m1 (us ++ [y]) (x :: xs) ys) as (m' & Hrun' & Hrep' & Ho').
    + by rewrite <-app_assoc.
    + simpl in *. lia.
    + exists m'. split_and!; [done|by rewrite <-app_assoc in Hrep'|].
      eapply outside_trans; [exact Ho|]. eapply outside_mono; [|exact Ho'].
      clear. unfold whole. set_solver.
  - mstep (list_next_elem _ _ _ _ _ H).
    destruct (IH m (us ++ [x]) xs (y :: ys)) as (m' & Hrun' & Hrep' & Ho').
    + by rewrite <-app_assoc.
    + simpl in *. lia.
    + exists m'. split_and!; [done|by rewrite <-app_assoc in Hrep'|].
      by rewrite <-app_assoc in Ho'.
Qed.

Lemma inplace_merge_ok m l us xs ys zs fuel :
  rep m l (us ++ xs ++ ys ++ zs) -> (length xs + length ys < fuel)%nat ->
  sortedb xs = true -> sortedb ys = true ->
  exists m', inplace_merge less fuel (first_of l (xs ++ ys ++ zs))
      (first_of l (ys ++ zs)) (first_of l zs) m = Ok (tt, m') /\
    rep m' l (us ++ merge_runs xs ys ++ zs) /\
    outside (whole l (us ++ xs ++ ys ++ zs)) m m'.
Proof.
  intros H Hf Hx Hy. unfold inplace_merge.
  assert (H2 : rep m l ((us ++ xs) ++ ys ++ zs)) by by rewrite <-app_assoc.
  assert (H3 : rep m l ((us ++ xs ++ ys) ++ zs)) by by rewrite <-!app_assoc.
  mstep (assert_not_null m _ (rep_first_null _ _ _ _ H)).
  mstep (assert_not_null m _ (rep_first_null _ _ _ _ H2)).
  mstep (assert_not_null m _ (rep_first_null _ _ _ _ H3)).
  unfold ASSERTM. rewrite bind_assoc. mstep_by (eapply is_sorted_ok; [done|lia]).
  mstep (ASSERT_true _ m Hx). rewrite bind_assoc.
  mstep_by (eapply is_sorted_ok; [done|lia]). mstep (ASSERT_true _ m Hy).
  by apply inplace_merge_loop_ok.
Qed.

Lemma run_end_sorted a ys : sortedb (a :: (run_end a ys).1) = true.
Proof.
  revert a. induction ys as [|y ys IH]; intros a; [done|]. simpl.
  destruct (less y a) eqn:E; [done|]. specialize (IH y). destruct (run_end y ys) as [r z].
  simpl in *. by rewrite E.
Qed.

(** The run ends at the end of the list or at a descent. *)
Lemma run_end_maximal a ys :
  match (run_end a ys).2 with
  | [] => True
  | z :: _ => exists w, last (a :: (run_end a ys).1) = Some w /\ less z w = true
  end.
Proof.
  revert a. induction ys as [|y ys IH]; intros a; [done|]. simpl.
  destruct (less y a) eqn:E; [by exists a|]. specialize (IH y).
  destruct (run_end y ys) as [r z]. simpl in *. by destruct z.
Qed.

Lemma length_run_end a ys :
  (length (run_end a ys).1 + length (run_end a ys).2 = length ys)%nat.
Proof. rewrite (run_end_app a ys) at 3. by rewrite length_app. Qed.

Lemma merge_runs_perm xs ys : merge_runs xs ys ≡ₚ xs ++ ys.
Proof.
  revert ys. induction xs as [|x xs IHx]; intros ys; [by destruct ys|].
  induction ys as [|y ys IHy]; [by rewrite app_nil_r|]. simpl. destruct (less y x).
  - transitivity (y :: (x :: xs) ++ ys); [by apply perm_skip, IHy|].
    apply (Permutation_middle (x :: xs)).
  - by apply perm_skip, IHx.
Qed.

Lemma list_sort_pass_ok l fuel0 fuel : forall m us xs cnt,
  rep m l (us ++ xs) -> (length xs < fuel)%nat -> (length xs < fuel0)%nat ->
  0 <= cnt -> cnt + Z.of_nat (length xs) < 4294967296 ->
  exists m' xs' k, list_sort_pass less fuel fuel0 l (first_of l xs) cnt m
      = Ok (cnt + Z.of_nat k, m') /\
    rep m' l (us ++ xs') /\ pass_rel xs xs' k /\ outside (whole l (us ++ xs)) m m'.
Proof.
  induction fuel as [|fuel IH]; intros m us xs cnt H Hf Hf0 Hc Hcnt; [lia|].
  cbn [list_sort_pass]. mstep (list_end_ok m l (rep_not_null _ _ _ H)).
  destruct xs as [|a xs].
  { rewrite bool_decide_eq_true_2 by done. exists m, [], 0%nat. rewrite Z.add_0_r.
    split_and!; [done..|constructor|apply outside_refl]. }
  simpl length in *. rewrite bool_decide_eq_false_2 by by eapply rep_first_neq_tail.
  rewrite u32_small by lia. cbn [first_of].
  mstep_by (eapply find_end_of_run_ok; [done|lia]).
  destruct (run_end a xs) as [r rest] eqn:Er. cbn [fst snd].
  pose proof (run_end_app a xs) as Hxs. rewrite Er in Hxs. simpl in Hxs.
  pose proof (length_run_end a xs) as Hlen. rewrite Er in Hlen. simpl in Hlen.
  destruct rest as [|b ys].
  { rewrite bool_decide_eq_true_2 by done. rewrite app_nil_r in Hxs. subst r.
    exists m, (a :: xs), 1%nat. split_and!; [done|done| |apply outside_refl].
    by apply pass_one. }
  assert (Hb : rep m l ((us ++ a :: r) ++ b :: ys)) by (by rewrite <-app_assoc, <-app_comm_cons, <-Hxs).
  cbn [first_of]. rewrite bool_decide_eq_false_2 by by eapply rep_first_neq_tail.
  simpl in Hlen. mstep_by (eapply find_end_of_run_ok; [done|lia]).
  destruct (run_end b ys) as [s rest] eqn:Es. cbn [fst snd].
  pose proof (run_end_app b ys) as Hys. rewrite Es in Hys. simpl in Hys.
  pose proof (length_run_end b ys) as Hlen2. rewrite Es in Hlen2. simpl in Hlen2. subst ys xs.
  pose proof (run_end_sorted a (r ++ b :: s ++ rest)) as Hs1. rewrite Er in Hs1.
  pose proof (run_end_sorted b (s ++ rest)) as Hs2. rewrite Es in Hs2.
  destruct (inplace_merge_ok m l us (a :: r) (b :: s) rest fuel0) as (m1 & Hrun & Hrep & Ho);
    [done|simpl; lia|done|done|].
  cbn [first_of app] in Hrun. mstep Hrun.
  destruct (IH m1 (us ++ merge_runs (a :: r) (b :: s)) rest (cnt + 1))
    as (m' & xs' & k & Hrun' & Hrep' & Hp & Ho').
  { by rewrite <-app_assoc. }
  { lia. } { lia. } { lia. } { lia. }
  exists m', (merge_runs (a :: r) (b :: s) ++ xs'), (S k). split_and!.
  - rewrite Hrun'. do 2 f_equal. lia.
  - by rewrite <-app_assoc in Hrep'.
  - by apply pass_two.
  - eapply outside_trans; [exact Ho|]. eapply outside_mono; [|exact Ho'].
    intros z. unfold whole. rewrite merge_runs_perm. rewrite <-!app_assoc. simpl. rewrite <-!app_assoc. simpl. by rewrite <-!app_assoc.
Qed.

(** ** What a pass does to the sequence *)

Lemma merge_runs_nil_r xs : merge_runs xs [] = xs.
Proof. by destruct xs. Qed.

Lemma pass_perm xs xs' k : pass_rel xs xs' k -> xs' ≡ₚ xs.
Proof.
  induction 1 as [| |a r b s rest rest' k _ _ _ IH]; [done..|].
  rewrite merge_runs_perm, IH. by rewrite <-!app_assoc.
Qed.

Lemma sortedb_descents xs : sortedb xs = true <-> descents xs = 0%nat.
Proof.
  induction xs as [|a [|b xs] IH]; [done|done|]. cbn [sortedb descents].
  destruct (less b a); simpl; [split; [done|lia]|]. exact IH.
Qed.

Lemma descents_app_le xs ys : (descents (xs ++ ys) <= descents xs + 1 + descents ys)%nat.
Proof.
  induction xs as [|a [|b xs] IH]; simpl; [lia| |].
  - destruct ys as [|y ys]; simpl; [lia|]. destruct (less y a); lia.
  - simpl in IH. destruct (less b a); lia.
Qed.

Lemma descents_app xs ys w z :
  last xs = Some w -> head ys = Some z ->
  (descents (xs ++ ys) = descents xs + (if less z w then 1 else 0) + descents ys)%nat.
Proof.
  intros Hw Hz. induction xs as [|a [|b xs] IH]; [done| |].
  - destruct ys as [|y ys]; simplify_eq/=. destruct (less z w); lia.
  - rewrite last_cons_cons in Hw. specialize (IH Hw). simpl in *. rewrite IH.
    destruct (less b a); lia.
Qed.

(** The first element of a merge comes from the first elements of its parts. *)
Lemma merge_runs_head xs ys z :
  head (merge_runs xs ys) = Some z -> head xs = Some z \/ head ys = Some z.
Proof.
  destruct xs as [|x xs], ys as [|y ys]; simpl; try naive_solver.
  destruct (less y x); naive_solver.
Qed.

Section Asymmetric.
Hypothesis asym : forall a b, less a b = true -> less b a = false.

Lemma sortedb_cons a xs :
  sortedb (a :: xs) = true <->
  sortedb xs = true /\ (forall b, head xs = Some b -> less b a = false).
Proof.
  destruct xs as [|b xs]; [simpl; naive_solver|]. cbn [sortedb].
  rewrite andb_true_iff, negb_true_iff. naive_solver.
Qed.

Lemma merge_runs_sorted xs ys :
  sortedb xs = true -> sortedb ys = true -> sortedb (merge_runs xs ys) = true.
Proof.
  revert ys. induction xs as [|x xs IHx]; intros ys Hx Hy; [by destruct ys|].
  induction ys as [|y ys IHy]; [done|]. simpl. destruct (less y x) eqn:E.
  - apply sortedb_cons in Hy as [Hy Hyh]. apply sortedb_cons. split; [by apply IHy|].
    intros b Hb. change (head (merge_runs (x :: xs) ys) = Some b) in Hb.
    apply merge_runs_head in Hb as [Hb|Hb]; [|by apply Hyh]. simplify_eq/=. by apply asym.
  - apply sortedb_cons in Hx as [Hx Hxh]. apply sortedb_cons. split; [by apply IHx|].
    intros b Hb. apply merge_runs_head in Hb as [Hb|Hb]; [by apply Hxh|]. by simplify_eq/=.
Qed.

(** The output of a pass has at most as many runs as the pass counted... *)
Lemma pass_output xs xs' k :
  pass_rel xs xs' k -> (descents xs' <= k - 1)%nat /\ (k = 0 -> xs' = [])%nat.
Proof.
  induction 1 as [|a r Hr|a r b s rest rest' k Hr Hs _ IH]; [simpl; naive_solver lia| |].
  - split; [|done]. pose proof (run_end_sorted a r) as H. rewrite Hr in H.
    apply sortedb_descents in H. simpl fst in H. lia.
  - split; [|done]. pose proof (run_end_sorted a (r ++ b :: s ++ rest)) as H1. rewrite Hr in H1.
    pose proof (run_end_sorted b (s ++ rest)) as H2. rewrite Hs in H2. simpl fst in *.
    pose proof (merge_runs_sorted _ _ H1 H2) as H3%sortedb_descents.
    destruct k as [|k].
    + destruct IH as [_ IH]. rewrite (IH eq_refl), app_nil_r. lia.
    + pose proof (descents_app_le (merge_runs (a :: r) (b :: s)) rest'). lia.
Qed.

(** ... and the input had about twice as many. *)
Lemma pass_input xs xs' k : pass_rel xs xs' k -> (2 * (k - 1) <= descents xs)%nat.
Proof.
  induction 1 as [|a r Hr|a r b s rest rest' k Hr Hs Hp IH]; [simpl; lia..|].
  destruct k as [|k]; [lia|].
  assert (exists c t, rest = c :: t) as (c & t & ->) by (inversion Hp; subst; eauto).
  pose proof (run_end_maximal a (r ++ b :: s ++ c :: t)) as H1. rewrite Hr in H1.
  pose proof (run_end_maximal b (s ++ c :: t)) as H2. rewrite Hs in H2.
  destruct H1 as (w1 & Hw1 & E1), H2 as (w2 & Hw2 & E2). simpl fst in *.
  rewrite app_comm_cons, (descents_app _ _ w1 b), E1 by done.
  rewrite app_comm_cons, (descents_app _ _ w2 c), E2 by done. lia.
Qed.

Lemma list_sort_loop_ok l fuel0 fuel : forall m xs,
  rep m l xs -> (descents xs < fuel)%nat -> (length xs < fuel0)%nat ->
  Z.of_nat (length xs) < 4294967296 ->
  exists m' xs', list_sort_loop less fuel fuel0 l m = Ok (tt, m') /\ rep m' l xs' /\
    sortedb xs' = true /\ rtc (fun a b => exists k, pass_rel a b k) xs xs' /\
    outside (whole l xs) m m'.
Proof.
  induction fuel as [|fuel IH]; intros m xs H Hf Hf0 Hlen; [lia|]. cbn [list_sort_loop].
  mstep (list_begin_ok _ _ _ H).
  destruct (list_sort_pass_ok l fuel0 fuel0 m [] xs 0) as (m1 & xs1 & k & Hrun & Hrep & Hp & Ho);
    [done|done|done|lia|lia|].
  mstep Hrun. destruct (pass_output _ _ _ Hp) as [Hout Hnil]. pose proof (pass_input _ _ _ Hp).
  pose proof (pass_perm _ _ _ Hp) as Hperm.
  assert (Hstep : rtc (fun a b => exists k, pass_rel a b k) xs xs1) by (apply rtc_once; eauto).
  destruct (Z.ltb_spec 1 (0 + Z.of_nat k)).
  - destruct (IH m1 xs1) as (m' & xs' & Hrun' & Hrep' & Hs & Hr & Ho');
      [done|lia|by rewrite Hperm|by rewrite Hperm|].
    exists m', xs'. split_and!; [done..|by etrans|].
    eapply outside_trans; [exact Ho|]. eapply outside_mono; [|exact Ho'].
    unfold whole. by rewrite Hperm.
  - exists m1, xs1. split_and!; [done..| |done|done]. apply sortedb_descents. lia.
Qed.

Lemma descents_length xs : (descents xs <= length xs)%nat.
Proof.
  induction xs as [|a [|b xs] IH]; [done|simpl; lia|]. simpl in *.
  destruct (less b a); lia.
Qed.

Lemma list_sort_ok m l xs fuel :
  rep m l xs -> (length xs < fuel)%nat -> Z.of_nat (length xs) < 4294967296 ->
  exists m' xs', list_sort less fuel l m = Ok (tt, m') /\ rep m' l xs' /\
    sortedb xs' = true /\ rtc (fun a b => exists k, pass_rel a b k) xs xs' /\
    outside (whole l xs) m m'.
Proof.
  intros H Hf Hlen. pose proof (descents_length xs).
  destruct (list_sort_loop_ok l fuel fuel m xs) as (m' & xs' & Hrun & Hrep & Hs & Hr & Ho);
    [done|lia|done|done|].
  exists m', xs'. split_and!; try done. unfold list_sort.
  mstep (assert_not_null m l (rep_not_null _ _ _ H)). mstep Hrun.
  mstep (list_begin_ok _ _ _ Hrep). mstep (list_end_ok m' l (rep_not_null _ _ _ Hrep)).
  unfold ASSERTM.
  assert (length xs' = length xs) as Hlen'.
  { clear -Hr. induction Hr as [|? ? ? [k Hk]]; [done|]. rewrite IHHr. by rewrite (pass_perm _ _ _ Hk). }
  pose proof (is_sorted_ok m' l [] xs' [] fuel) as E. rewrite app_nil_r in E. simpl in E.
  mstep_by (apply E; [done|lia]). by apply ASSERT_true.
Qed.

End Asymmetric.
End Ordered.
