(* ===== verification/ListSpec.v ===== *)
(** * What list.c promises

    The remaining ordered operations and the properties of the component: each
    theorem below starts from a memory that represents a list, and says that
    the call returns and what the list is afterwards. *)

From Stdlib Require Import Sorted.
From S2P Require Import Prelude ListModel ListRep ListOps ListOrder.

Section Spec.
Context (less : Z -> Z -> bool).

(** Elements that compare equal. *)
Definition eqv (a b : Z) : bool := negb (less a b) && negb (less b a).

(** No later element is smaller. *)
Definition nondecreasing : list Z -> Prop := StronglySorted (fun a b => less b a = false).

(** ** Duplicates and extrema as sequence functions *)

(** What [list_unique] keeps after [e], and what it takes out. *)
Fixpoint unique_adj (e : Z) (ys : list Z) : list Z * list Z :=
  match ys with
  | [] => ([], [])
  | y :: ys => if eqv e y then let (k, d) := unique_adj e ys in (k, y :: d)
               else let (k, d) := unique_adj y ys in (y :: k, d)
  end.

Fixpoint max_from (mx : Z) (ys : list Z) : Z :=
  match ys with [] => mx | y :: ys => max_from (if less mx y then y else mx) ys end.

Fixpoint min_from (mn : Z) (ys : list Z) : Z :=
  match ys with [] => mn | y :: ys => min_from (if less y mn then y else mn) ys end.

(** ** The loops *)

Lemma insert_ordered_split e xs :
  exists us vs, xs = us ++ vs /\ insert_ordered less e xs = us ++ e :: vs /\
    Forall (fun u => less e u = false) us /\
    (forall v, head vs = Some v -> less e v = true).
Proof.
  induction xs as [|x xs (us & vs & -> & IH & Hu & Hv)]; [by exists [], []|]. simpl.
  destruct (less e x) eqn:E.
  - exists [], (x :: us ++ vs). split_and!; [done..|]. naive_solver.
  - exists (x :: us), vs. rewrite IH. split_and!; [done|done| |done]. by constructor.
Qed.

Lemma list_insert_ordered_loop_ok m l e vs : forall us vs0 fuel,
  rep m l (vs0 ++ us ++ vs) -> (length us < fuel)%nat ->
  Forall (fun u => less e u = false) us -> (forall v, head vs = Some v -> less e v = true) ->
  list_insert_ordered_loop less fuel l e (first_of l (us ++ vs)) m = Ok (first_of l vs, m).
Proof.
  induction us as [|u us IH]; intros vs0 fuel H Hf Hu Hv;
    (destruct fuel as [|fuel]; [simpl in *; lia|]); cbn [list_insert_ordered_loop];
    rewrite (at_end m l vs0 _ _ _ H); simpl.
  - destruct vs as [|v vs]; [done|]. simpl. by rewrite (Hv v).
  - apply Forall_cons in Hu as [Hu Hus]. rewrite Hu. simpl in H.
    mstep (list_next_elem _ _ _ _ _ H).
    apply (IH (vs0 ++ [u])); [by rewrite <-app_assoc|simpl in Hf; lia|done|done].
Qed.

Lemma list_insert_ordered_ok m l xs e fuel :
  rep m l xs -> (length xs < fuel)%nat -> e <> NULL -> has m e -> e ∉ whole l xs ->
  exists m', list_insert_ordered less fuel l e m = Ok (tt, m') /\
    rep m' l (insert_ordered less e xs) /\ outside (e :: whole l xs) m m'.
Proof.
  intros H Hf He Hh Hout.
  destruct (insert_ordered_split e xs) as (us & vs & -> & -> & Hu & Hv).
  unfold list_insert_ordered. mstep (assert_not_null m l (rep_not_null _ _ _ H)).
  mstep (assert_not_null m e He). mstep (list_begin_ok _ _ _ H).
  rewrite length_app in Hf.
  mstep_by (apply (list_insert_ordered_loop_ok m l e vs us []); [done|lia|done|done]).
  destruct (list_insert_ok m l us vs e H He Hh Hout) as (m' & Hrun & Hrep & Ho).
  exists m'. split_and!; [done..|]. eapply outside_mono; [|exact Ho].
  unfold whole. clear. set_solver.
Qed.

Lemma list_max_loop_ok m l ys : forall xs fuel mx,
  rep m l (xs ++ ys) -> (length ys < fuel)%nat ->
  list_max_loop less fuel l mx (first_of l ys) m = Ok (max_from mx ys, m).
Proof.
  induction ys as [|y ys IH]; intros xs fuel mx H Hf;
    (destruct fuel as [|fuel]; [simpl in *; lia|]); cbn [list_max_loop];
    rewrite (at_end m l xs _ _ _ H); [done|].
  simpl. mstep (list_next_elem _ _ _ _ _ H).
  apply (IH (xs ++ [y])); [by rewrite <-app_assoc|simpl in Hf; lia].
Qed.

Lemma list_max_ok m l x xs fuel :
  rep m l (x :: xs) -> (length xs < fuel)%nat ->
  list_max less fuel l m = Ok (max_from x xs, m).
Proof.
  intros H Hf. unfold list_max. mstep (list_begin_ok _ _ _ H).
  rewrite (at_end m l [] (x :: xs) _ _ H). cbn [first_of].
  mstep (list_next_elem m l [] x xs H). by apply (list_max_loop_ok m l xs [x]).
Qed.

Lemma list_min_loop_ok m l ys : forall xs fuel mn,
  rep m l (xs ++ ys) -> (length ys < fuel)%nat ->
  list_min_loop less fuel l mn (first_of l ys) m = Ok (min_from mn ys, m).
Proof.
  induction ys as [|y ys IH]; intros xs fuel mn H Hf;
    (destruct fuel as [|fuel]; [simpl in *; lia|]); cbn [list_min_loop];
    rewrite (at_end m l xs _ _ _ H); [done|].
  simpl. mstep (list_next_elem _ _ _ _ _ H).
  apply (IH (xs ++ [y])); [by rewrite <-app_assoc|simpl in Hf; lia].
Qed.

Lemma list_min_ok m l x xs fuel :
  rep m l (x :: xs) -> (length xs < fuel)%nat ->
  list_min less fuel l m = Ok (min_from x xs, m).
Proof.
  intros H Hf. unfold list_min. mstep (list_begin_ok _ _ _ H).
  rewrite (at_end m l [] (x :: xs) _ _ H). cbn [first_of].
  mstep (list_next_elem m l [] x xs H). by apply (list_min_loop_ok m l xs [x]).
Qed.

(** [list_unique] with a list for the duplicates. *)
Lemma list_unique_loop_ok l d fuel : forall m us e ys ds,
  rep m l (us ++ e :: ys) -> rep m d ds -> (length ys < fuel)%nat ->
  (forall a, a ∈ whole l (us ++ e :: ys) -> a ∉ whole d ds) ->
  exists m', list_unique_loop less fuel l d e m = Ok (tt, m') /\
    rep m' l (us ++ e :: (unique_adj e ys).1) /\ rep m' d (ds ++ (unique_adj e ys).2) /\
    outside (whole l (us ++ e :: ys) ++ whole d ds) m m'.
Proof.
  induction fuel as [|fuel IH]; intros m us e ys ds H Hd Hf Hdisj; [lia|].
  cbn [list_unique_loop]. mstep (list_next_elem _ _ _ _ _ H).
  assert (H' : rep m l ((us ++ [e]) ++ ys)) by by rewrite <-app_assoc.
  rewrite (at_end m l (us ++ [e]) ys _ _ H'). destruct ys as [|y ys].
  { exists m. simpl. rewrite app_nil_r. split_and!; [done..|apply outside_refl]. }
  cbn [unique_adj first_of]. fold (eqv e y). destruct (eqv e y) eqn:E.
  - destruct (list_remove_ok m l (us ++ [e]) y ys H') as (m1 & Hrun & Hrep & Ho & Hhas).
    mstep Hrun. rewrite <-app_assoc in Hrep, Ho. simpl in Hrep, Ho.
    assert (Hd1 : rep m1 d ds).
    { eapply rep_frame; [exact Ho| |done]. intros a Ha Hin. by eapply Hdisj. }
    assert (Hyin : y ∈ whole l (us ++ e :: y :: ys)) by (unfold whole; set_solver).
    assert (y <> NULL) as Hy0 by (intros ->; by apply (rep_null _ _ _ H)).
    rewrite (bool_decide_eq_false_2 (d = NULL)) by by eapply rep_not_null.
    destruct (list_push_back_ok m1 d ds y Hd1 Hy0 Hhas) as (m2 & Hrun2 & Hd2 & Ho2);
      [by apply Hdisj|].
    simpl. mstep Hrun2.
    assert (Hynot : y ∉ whole l (us ++ e :: ys)).
    { pose proof (rep_nodup _ _ _ H') as Hnd. rewrite whole_app in Hnd.
      apply NoDup_app in Hnd as (_ & Hdis & [Hn _]%NoDup_cons). specialize (Hdis y).
      unfold whole. set_solver. }
    assert (Hdisj2 : forall a, a ∈ whole l (us ++ e :: ys) -> a ∉ whole d (ds ++ [y])).
    { intros a Ha Hin. assert (a <> y) by by intros ->.
      apply (Hdisj a); [unfold whole in *; set_solver|].
      clear -Hin H0. unfold whole in *. set_solver. }
    assert (Hrep2 : rep m2 l (us ++ e :: ys)).
    { eapply rep_frame; [exact Ho2| |exact Hrep]. intros a Ha. by apply Hdisj2. }
    destruct (IH m2 us e ys (ds ++ [y])) as (m' & Hrun' & Hr1 & Hr2 & Ho');
      [done|done|simpl in Hf; lia|done|].
    exists m'. destruct (unique_adj e ys) as [k du]. cbn [fst snd] in *.
    rewrite <-app_assoc in Hr2. split_and!; [done..|].
    eapply outside_trans; [eapply outside_mono; [|exact Ho]; set_solver|].
    eapply outside_trans; [eapply outside_mono; [|exact Ho2]|eapply outside_mono; [|exact Ho']].
    all: clear; unfold whole; set_solver.
  - destruct (IH m (us ++ [e]) y ys ds) as (m' & Hrun' & Hr1 & Hr2 & Ho');
      [done|done|simpl in Hf; lia|by rewrite <-app_assoc|].
    exists m'. destruct (unique_adj y ys) as [k du]. cbn [fst snd] in *.
    rewrite <-app_assoc in Hr1. replace ((us ++ [e]) ++ y :: ys) with (us ++ e :: y :: ys)
      in Ho' by by rewrite <-app_assoc.
    by split_and!.
Qed.

Lemma list_unique_ok m l d x xs ds fuel :
  rep m l (x :: xs) -> rep m d ds -> (length xs < fuel)%nat ->
  (forall a, a ∈ whole l (x :: xs) -> a ∉ whole d ds) ->
  exists m', list_unique less fuel l d m = Ok (tt, m') /\
    rep m' l (x :: (unique_adj x xs).1) /\ rep m' d (ds ++ (unique_adj x xs).2) /\
    outside (whole l (x :: xs) ++ whole d ds) m m'.
Proof.
  intros H Hd Hf Hdisj. unfold list_unique.
  mstep (assert_not_null m l (rep_not_null _ _ _ H)). mstep (list_empty_ok _ _ _ H).
  rewrite bool_decide_eq_false_2 by done. mstep (list_begin_ok _ _ _ H).
  by apply (list_unique_loop_ok l d fuel m []).
Qed.

(** ** What the sequence functions compute *)

Lemma unique_adj_perm e ys : (unique_adj e ys).1 ++ (unique_adj e ys).2 ≡ₚ ys.
Proof.
  revert e. induction ys as [|y ys IH]; intros e; [done|]. simpl. destruct (eqv e y).
  - specialize (IH e). destruct (unique_adj e ys) as [k d]. simpl in *.
    rewrite <-Permutation_middle. by rewrite IH.
  - specialize (IH y). destruct (unique_adj y ys) as [k d]. simpl in *. by rewrite IH.
Qed.

(** No two neighbours are left equal. *)
Fixpoint adjacent_distinct (e : Z) (ys : list Z) : Prop :=
  match ys with [] => True | y :: ys => eqv e y = false /\ adjacent_distinct y ys end.

Lemma unique_adj_distinct e ys : adjacent_distinct e (unique_adj e ys).1.
Proof.
  revert e. induction ys as [|y ys IH]; intros e; [done|]. simpl. destruct (eqv e y) eqn:E.
  - specialize (IH e). by destruct (unique_adj e ys).
  - specialize (IH y). by destruct (unique_adj y ys).
Qed.

Context `{Hswo : !StrictWeakOrder less}.

Lemma less_trans a b c : less a b = true -> less b c = true -> less a c = true.
Proof.
  intros H1 H2. destruct (less a c) eqn:E; [done|].
  pose proof (swo_negtrans _ _ _ E (swo_asym _ _ H2)). congruence.
Qed.

(** [less a b] and [c] not below [b]: then [less a c]. *)
Lemma less_mixed a b c : less a b = true -> less c b = false -> less a c = true.
Proof.
  intros H1 H2. destruct (less a c) eqn:E; [done|].
  pose proof (swo_negtrans _ _ _ E H2). congruence.
Qed.

Lemma less_mixed_l a b c : less b a = false -> less b c = true -> less a c = true.
Proof.
  intros H1 H2. destruct (less a c) eqn:E; [done|].
  pose proof (swo_negtrans _ _ _ H1 E). congruence.
Qed.

Lemma less_irrefl a : less a a = false.
Proof. destruct (less a a) eqn:E; [|done]. pose proof (swo_asym _ _ E). congruence. Qed.

Lemma sortedb_nondecreasing xs : sortedb less xs = true -> nondecreasing xs.
Proof.
  intros H. unfold nondecreasing. apply Sorted_StronglySorted.
  { intros a b c H1 H2. by eapply swo_negtrans. }
  induction xs as [|a [|b xs] IH]; [constructor|repeat constructor|].
  cbn [sortedb] in H. apply andb_true_iff in H as [H1 H2]. constructor; [by apply IH|].
  constructor. by apply negb_true_iff.
Qed.

Lemma max_from_spec mx ys :
  exists us vs, mx :: ys = us ++ max_from mx ys :: vs /\
    Forall (fun u => less u (max_from mx ys) = true) us /\
    Forall (fun v => less (max_from mx ys) v = false) vs.
Proof.
  revert mx. induction ys as [|y ys IH]; intros mx; simpl.
  { exists [], []. by split_and!; constructor. }
  destruct (less mx y) eqn:E.
  - destruct (IH y) as (us & vs & Heq & Hu & Hv). exists (mx :: us), vs.
    rewrite Heq. split_and!; [done| |done]. constructor; [|done].
    destruct us as [|u us]; simplify_eq/=; [congruence|].
    apply Forall_cons in Hu as [Hu _]. by eapply less_trans.
  - destruct (IH mx) as (us & vs & Heq & Hu & Hv).
    destruct us as [|u us]; injection Heq as Hm Hys.
    + exists [], (y :: vs). rewrite <-Hm in Hv |- *. rewrite Hys. split_and!; [done..|].
      by constructor.
    + apply Forall_cons in Hu as [Hu Hus]. subst u. exists (mx :: y :: us), vs.
      rewrite Hys at 1. split_and!; [done| |done].
      constructor; [done|]. constructor; [|done]. by eapply less_mixed_l.
Qed.

(** ** Stability *)

Lemma eqv_sym a b : eqv a b = eqv b a.
Proof. unfold eqv. apply andb_comm. Qed.

(** Elements equal to a common one are equal, so not ordered. *)
Lemma eqv_not_less z a b : eqv z a = true -> eqv z b = true -> less a b = false.
Proof.
  unfold eqv. rewrite !andb_true_iff, !negb_true_iff. intros [_ H1] [H2 _].
  by eapply swo_negtrans.
Qed.

Lemma filter_above z a xs :
  eqv z a = true -> Forall (fun x => less a x = true) xs -> List.filter (eqv z) xs = [].
Proof.
  intros Ha. induction 1 as [|x xs Hx _ IH]; [done|]. simpl.
  destruct (eqv z x) eqn:E; [|done]. pose proof (eqv_not_less _ _ _ Ha E). congruence.
Qed.

Lemma merge_runs_filter z xs ys :
  nondecreasing xs ->
  List.filter (eqv z) (merge_runs less xs ys) = List.filter (eqv z) (xs ++ ys).
Proof.
  intros Hxs. rewrite List.filter_app. revert ys.
  induction Hxs as [|x xs Hxs IHx Hall]; intros ys; [by destruct ys|].
  induction ys as [|y ys IHy]; [by rewrite app_nil_r|]. simpl. destruct (less y x) eqn:E.
  - change (List.filter (eqv z) (y :: merge_runs less (x :: xs) ys) =
            List.filter (eqv z) (x :: xs) ++ List.filter (eqv z) (y :: ys)).
    cbn [List.filter] in IHy |- *. rewrite IHy. destruct (eqv z y) eqn:Ey; [|done].
    assert (Forall (fun v => less y v = true) (x :: xs)) as Hab.
    { constructor; [done|]. eapply Forall_impl; [exact Hall|]. intros v Hv.
      by eapply less_mixed. }
    pose proof (filter_above z y _ Ey Hab) as Hnil. cbn [List.filter] in Hnil. by rewrite Hnil.
  - cbn [List.filter]. rewrite IHx. by destruct (eqv z x).
Qed.

Lemma pass_filter z xs xs' k :
  pass_rel less xs xs' k -> List.filter (eqv z) xs' = List.filter (eqv z) xs.
Proof.
  induction 1 as [|a r Hr|a r b s rest rest' k Hr Hs _ IH]; [done..|].
  pose proof (run_end_sorted less a (r ++ b :: s ++ rest)) as H1. rewrite Hr in H1.
  apply sortedb_nondecreasing in H1.
  rewrite List.filter_app, merge_runs_filter, IH by done.
  rewrite <-List.filter_app. by rewrite <-app_assoc.
Qed.

Lemma nondecreasing_app us vs :
  nondecreasing us -> nondecreasing vs ->
  (forall u v, u ∈ us -> v ∈ vs -> less v u = false) -> nondecreasing (us ++ vs).
Proof.
  intros Hu Hv. induction Hu as [|u us Hu IH Hall]; intros Hx; [done|]. simpl.
  constructor; [apply IH; set_solver|]. apply Forall_app. split; [done|].
  apply Forall_forall. intros v Hin. apply Hx; [left|done].
Qed.

Lemma nondecreasing_app_inv us vs :
  nondecreasing (us ++ vs) ->
  nondecreasing us /\ nondecreasing vs /\
  (forall u v, u ∈ us -> v ∈ vs -> less v u = false).
Proof.
  induction us as [|u us IH]; simpl.
  { intros H. split_and!; [constructor|done|set_solver]. }
  intros H. inversion H as [|? ? H1 H2]; subst. destruct (IH H1) as (Hu & Hv & Hx).
  apply Forall_app in H2 as [H2 H3]. split_and!; [by constructor|done|].
  intros u' v Hin Hv'. apply elem_of_cons in Hin as [->|Hin]; [|by apply Hx].
  by eapply Forall_forall in H3.
Qed.

(** In a sorted list the new element goes behind all that are not above it. *)
Lemma insert_ordered_sorted e xs :
  nondecreasing xs ->
  exists us vs, xs = us ++ vs /\ insert_ordered less e xs = us ++ e :: vs /\
    Forall (fun u => less e u = false) us /\ Forall (fun v => less e v = true) vs /\
    nondecreasing (us ++ e :: vs).
Proof.
  intros H. destruct (insert_ordered_split e xs) as (us & vs & -> & E & Hu & Hv).
  apply nondecreasing_app_inv in H as (H1 & H2 & H3).
  assert (Hall : Forall (fun v => less e v = true) vs).
  { destruct H2 as [|v vs Hs Hf]; [constructor|]. specialize (Hv v eq_refl).
    constructor; [done|]. eapply Forall_impl; [exact Hf|]. intros w Hw.
    by eapply less_mixed. }
  exists us, vs. split_and!; [done..|]. apply nondecreasing_app; [done| |].
  - constructor; [done|]. eapply Forall_impl; [exact Hall|]. intros v. apply swo_asym.
  - intros u v Hin [->|Hin']%elem_of_cons; [by eapply Forall_forall in Hu|by apply H3].
Qed.

End Spec.

#[global] Instance flip_swo less `{!StrictWeakOrder less} :
  StrictWeakOrder (fun a b => less b a).
Proof.
  split; [intros a b; apply swo_asym|]. intros a b c H1 H2. by eapply swo_negtrans.
Qed.

Lemma min_from_max less mn ys : min_from less mn ys = max_from (fun a b => less b a) mn ys.
Proof. revert mn. induction ys as [|y ys IH]; intros mn; [done|]. apply IH. Qed.

(** ** [list_sort] computes the stable sort

    A sequence that is in order and keeps the order of equal elements is
    determined by the sequence it sorts; insertion sort, which the clients of
    the list component reason about, produces it. *)

(** The stable sort, by insertion. *)
Definition sort_ordered (less : Z -> Z -> bool) (xs : list Z) : list Z :=
  foldl (fun acc x => insert_ordered less x acc) [] xs.

Lemma insert_ordered_perm less e xs : insert_ordered less e xs ≡ₚ e :: xs.
Proof.
  destruct (insert_ordered_split less e xs) as (us & vs & -> & -> & _).
  by rewrite Permutation_middle.
Qed.

Lemma sort_ordered_perm less xs : sort_ordered less xs ≡ₚ xs.
Proof.
  unfold sort_ordered. rewrite <-(app_nil_r xs) at 2. generalize (@nil Z) as acc.
  induction xs as [|x xs IH]; intros acc; simpl; [done|].
  rewrite IH, insert_ordered_perm. by rewrite Permutation_middle.
Qed.

Section Stable.
Context (less : Z -> Z -> bool) `{!StrictWeakOrder less}.

Lemma eqv_refl a : eqv less a a = true.
Proof. unfold eqv. by rewrite (less_irrefl less a). Qed.

Lemma nondecreasing_cons a xs :
  nondecreasing less (a :: xs) -> nondecreasing less xs /\ forall b, b ∈ xs -> less b a = false.
Proof.
  intros H. apply StronglySorted_inv in H as [H1 H2]. split; [done|]. by rewrite Forall_forall in H2.
Qed.

Lemma elem_of_class (f : Z -> bool) a xs : a ∈ List.filter f xs -> a ∈ xs /\ f a = true.
Proof. rewrite !list_elem_of_In. apply List.filter_In. Qed.

Lemma stable_unique xs : forall ys,
  nondecreasing less xs -> nondecreasing less ys ->
  (forall z, List.filter (eqv less z) xs = List.filter (eqv less z) ys) -> xs = ys.
Proof.
  induction xs as [|x xs IH]; intros ys Hx Hy Hf.
  { destruct ys as [|y ys]; [done|]. specialize (Hf y). simpl in Hf. by rewrite eqv_refl in Hf. }
  destruct ys as [|y ys]; [specialize (Hf x); simpl in Hf; by rewrite eqv_refl in Hf|].
  apply nondecreasing_cons in Hx as [Hx Hx']. apply nondecreasing_cons in Hy as [Hy Hy'].
  assert (Hxy : less x y = false).
  { assert (Hin : x ∈ List.filter (eqv less x) (y :: ys)).
    { rewrite <-Hf. cbn [List.filter]. rewrite eqv_refl. by left. }
    apply elem_of_class in Hin as [[->|Hin]%elem_of_cons _]; [apply (less_irrefl less)|by apply Hy']. }
  assert (Hyx : less y x = false).
  { assert (Hin : y ∈ List.filter (eqv less y) (x :: xs)).
    { rewrite Hf. cbn [List.filter]. rewrite eqv_refl. by left. }
    apply elem_of_class in Hin as [[->|Hin]%elem_of_cons _]; [apply (less_irrefl less)|by apply Hx']. }
  assert (x = y) as <-.
  { specialize (Hf x). cbn [List.filter] in Hf. rewrite eqv_refl in Hf. unfold eqv at 2 in Hf.
    rewrite Hxy, Hyx in Hf. simpl in Hf. congruence. }
  f_equal. apply IH; [done|done|]. intros z. specialize (Hf z). cbn [List.filter] in Hf.
  destruct (eqv less z x); congruence.
Qed.

Lemma insert_ordered_filter z e xs :
  nondecreasing less xs ->
  nondecreasing less (insert_ordered less e xs) /\
  List.filter (eqv less z) (insert_ordered less e xs) = List.filter (eqv less z) (xs ++ [e]).
Proof.
  intros H. destruct (insert_ordered_sorted less e xs H) as (us & vs & -> & -> & _ & Hv & Hs).
  split; [done|]. rewrite !List.filter_app. cbn [List.filter]. destruct (eqv less z e) eqn:E; [|by rewrite app_nil_r].
  assert (List.filter (eqv less z) vs = []) as ->; [|by rewrite app_nil_r].
  clear -E Hv StrictWeakOrder0. induction Hv as [|v vs Hv _ IH]; [done|]. simpl.
  destruct (eqv less z v) eqn:E2; [|done]. by rewrite (eqv_not_less less z e v) in Hv.
Qed.

Lemma sort_ordered_stable xs :
  nondecreasing less (sort_ordered less xs) /\
  forall z, List.filter (eqv less z) (sort_ordered less xs) = List.filter (eqv less z) xs.
Proof.
  unfold sort_ordered.
  enough (G : forall acc, nondecreasing less acc ->
    nondecreasing less (foldl (fun acc x => insert_ordered less x acc) acc xs) /\
    forall z, List.filter (eqv less z) (foldl (fun acc x => insert_ordered less x acc) acc xs) =
              List.filter (eqv less z) (acc ++ xs)) by (apply (G []); constructor).
  induction xs as [|x xs IH]; intros acc Ha; simpl; [by rewrite app_nil_r|].
  destruct (insert_ordered_filter x x acc Ha) as [Hs _]. destruct (IH _ Hs) as [H1 H2]. split; [done|].
  intros z. rewrite H2, List.filter_app, (proj2 (insert_ordered_filter z x acc Ha)), <-List.filter_app.
  by rewrite <-app_assoc.
Qed.

(** What the pointer algorithm leaves in the list. *)
Lemma list_sort_sorts m l xs fuel :
  rep m l xs -> (length xs < fuel)%nat -> Z.of_nat (length xs) < 2 ^ 32 ->
  exists m', list_sort less fuel l m = Ok (tt, m') /\ rep m' l (sort_ordered less xs) /\
    outside (whole l xs) m m'.
Proof.
  intros H Hf Hlen.
  destruct (list_sort_ok less swo_asym m l xs fuel) as (m' & xs' & Hrun & Hrep & Hs & Hr & Ho); [done..|].
  exists m'. split_and!; [done| |done]. destruct (sort_ordered_stable xs) as [S1 S2].
  rewrite (stable_unique (sort_ordered less xs) xs'); [done|done|by apply sortedb_nondecreasing|].
  intros z. rewrite S2. symmetry. clear -Hr StrictWeakOrder0.
  induction Hr as [|? ? ? [k Hk] _ IH]; [done|]. rewrite IH. by eapply pass_filter.
Qed.
End Stable.
