(* ===== verification/ListThms.v ===== *)
(** * Properties of [lib/kernel/list.c]

    The claims about the list component, each with a memory on which it
    applies. *)

From S2P Require Import Prelude ListModel ListRep ListOps ListOrder ListSpec.

(** ** A concrete memory

    Two lists, at 16 with elements 64, 80, 96 and at 32 with element 112, and
    an element 128 that is in no list. *)
Definition demo_mem : mem := list_to_map
  [ (16, ListElem 0 64); (64, ListElem 16 80); (80, ListElem 64 96);
    (96, ListElem 80 24); (24, ListElem 96 0);
    (32, ListElem 0 112); (112, ListElem 32 40); (40, ListElem 112 0);
    (128, ListElem 7 7) ].

Definition demo_key (a : Z) : Z := a / 16 mod 3.
Definition demo_less (a b : Z) : bool := demo_key a <? demo_key b.

#[global] Instance demo_swo : StrictWeakOrder demo_less.
Proof. unfold demo_less. split; intros; lia. Qed.

Ltac rep_tac :=
  split; [ repeat split; vm_compute; reflexivity
         | apply (bool_decide_unpack _); vm_compute; exact I
         | apply (bool_decide_unpack _); vm_compute; exact I
         | vm_compute; reflexivity | vm_compute; reflexivity ].

Lemma demo_rep1 : rep demo_mem 16 [64; 80; 96].
Proof. rep_tac. Qed.

Lemma demo_rep2 : rep demo_mem 32 [112].
Proof. rep_tac. Qed.

Lemma demo_disjoint a : a ∈ whole 16 [64; 80; 96] -> a ∉ whole 32 [112].
Proof. unfold whole, head_of, tail_of. simpl. set_solver by lia. Qed.

(** The memory cells of a list are determined by the sequence it holds. *)
Lemma rep_determines m m' l xs a :
  rep m l xs -> rep m' l xs -> a ∈ whole l xs -> m !! a = m' !! a.
Proof.
  intros H H' Ha.
  assert (Hnext : forall f, fl m a f = fl m' a f).
  { intros f. unfold whole in Ha. apply elem_of_cons in Ha as [->|Ha].
    { destruct f; [by rewrite (rep_head _ _ _ H), (rep_head _ _ _ H')|].
      destruct (rep_ends _ _ _ H) as [-> _]. by destruct (rep_ends _ _ _ H') as [-> _]. }
    apply elem_of_app in Ha as [Ha| ->%list_elem_of_singleton].
    - apply list_elem_of_split in Ha as (us & vs & ->).
      destruct (rep_elem _ _ _ _ _ H) as (H1 & H2 & _).
      destruct (rep_elem _ _ _ _ _ H') as (H1' & H2' & _). destruct f; congruence.
    - destruct f; [|by rewrite (rep_tail _ _ _ H), (rep_tail _ _ _ H')].
      destruct (rep_ends _ _ _ H) as (_ & -> & _). by destruct (rep_ends _ _ _ H') as (_ & -> & _). }
  pose proof (Hnext FPrev) as Hp. pose proof (Hnext FNext) as Hn. unfold fl in *.
  destruct (m !! a) as [[p n]|], (m' !! a) as [[p' n']|]; simplify_eq/=; done.
Qed.

(** ** Sorting *)

(** C5: [list_sort] terminates without tripping an assertion for every strict
    weak order, and leaves the stable sort of the sequence in the list: the
    same elements in nondecreasing order, with elements that compare equal in
    their original order; nothing outside the list is written.  A budget above
    the number of elements is enough for every loop. *)
Theorem list_sort_correct less `{!StrictWeakOrder less} m l xs fuel :
  rep m l xs -> (length xs < fuel)%nat -> Z.of_nat (length xs) < 2 ^ 32 ->
  exists m' xs', list_sort less fuel l m = Ok (tt, m') /\ rep m' l xs' /\
    xs' ≡ₚ xs /\ nondecreasing less xs' /\
    (forall z, List.filter (eqv less z) xs' = List.filter (eqv less z) xs) /\
    xs' = sort_ordered less xs /\ outside (whole l xs) m m'.
Proof.
  intros H Hf Hlen. destruct (list_sort_sorts less m l xs fuel) as (m' & Hrun & Hrep & Ho); [done..|].
  destruct (sort_ordered_stable less xs) as [S1 S2].
  exists m', (sort_ordered less xs). by split_and!; [| |apply sort_ordered_perm| | | |].
Qed.

Lemma list_sort_correct_witness :
  exists m' xs', list_sort demo_less 4 16 demo_mem = Ok (tt, m') /\ rep m' 16 xs' /\
    xs' ≡ₚ [64; 80; 96] /\ nondecreasing demo_less xs' /\
    (forall z, List.filter (eqv demo_less z) xs' = List.filter (eqv demo_less z) [64; 80; 96]) /\
    xs' = sort_ordered demo_less [64; 80; 96] /\ outside (whole 16 [64; 80; 96]) demo_mem m'.
Proof.
  apply (list_sort_correct demo_less); [exact demo_rep1|simpl; lia|vm_compute; reflexivity].
Defined.

(** [list_insert_ordered] on a sorted list keeps it sorted and puts the
    new element behind every element that is not above it, so insertion into
    a queue is first come, first served among equals. *)
Theorem list_insert_ordered_correct less `{!StrictWeakOrder less} m l xs e fuel :
  rep m l xs -> (length xs < fuel)%nat -> e <> NULL -> has m e -> e ∉ whole l xs ->
  nondecreasing less xs ->
  exists m' us vs, xs = us ++ vs /\ list_insert_ordered less fuel l e m = Ok (tt, m') /\
    rep m' l (us ++ e :: vs) /\ nondecreasing less (us ++ e :: vs) /\
    Forall (fun u => less e u = false) us /\ Forall (fun v => less e v = true) vs /\
    outside (e :: whole l xs) m m'.
Proof.
  intros H Hf He Hh Hout Hs.
  destruct (list_insert_ordered_ok less m l xs e fuel) as (m' & Hrun & Hrep & Ho); [done..|].
  destruct (insert_ordered_sorted less e xs Hs) as (us & vs & Heq & E & Hu & Hv & Hs').
  rewrite E in Hrep. by exists m', us, vs.
Qed.

Lemma list_insert_ordered_correct_witness :
  exists m' us vs, [112] = us ++ vs /\ list_insert_ordered demo_less 2 32 128 demo_mem = Ok (tt, m') /\
    rep m' 32 (us ++ 128 :: vs) /\ nondecreasing demo_less (us ++ 128 :: vs) /\
    Forall (fun u => demo_less 128 u = false) us /\ Forall (fun v => demo_less 128 v = true) vs /\
    outside (128 :: whole 32 [112]) demo_mem m'.
Proof.
  apply (list_insert_ordered_correct demo_less); [exact demo_rep2|simpl; lia|done| | |].
  - by eexists.
  - apply (bool_decide_unpack _); vm_compute; exact I.
  - repeat constructor.
Defined.

(** [list_reverse] reverses the list in place; a budget above the number
    of elements is enough. *)
Theorem list_reverse_correct m l xs fuel :
  rep m l xs -> (length xs < fuel)%nat ->
  exists m', list_reverse fuel l m = Ok (tt, m') /\ rep m' l (reverse xs) /\
    outside (whole l xs) m m'.
Proof. apply list_reverse_ok. Qed.

Lemma list_reverse_correct_witness :
  exists m', list_reverse 4 16 demo_mem = Ok (tt, m') /\ rep m' 16 (reverse [64; 80; 96]) /\
    outside (whole 16 [64; 80; 96]) demo_mem m'.
Proof. apply list_reverse_correct; [exact demo_rep1|simpl; lia]. Defined.

(** [list_splice] moves the range FIRST..LAST (exclusive) of one list in
    front of BEFORE in another: the first list loses exactly that segment, the
    second one gains it at that place, and no other memory changes. *)
Theorem list_splice_correct m l xs ys zs l2 us vs y :
  rep m l (xs ++ ys ++ zs) -> rep m l2 (us ++ vs) -> head ys = Some y ->
  (forall a, a ∈ whole l (xs ++ ys ++ zs) -> a ∉ whole l2 (us ++ vs)) ->
  exists m', list_splice (first_of l2 vs) y (first_of l zs) m = Ok (tt, m') /\
    rep m' l (xs ++ zs) /\ rep m' l2 (us ++ ys ++ vs) /\
    outside (whole l (xs ++ ys ++ zs) ++ whole l2 (us ++ vs)) m m'.
Proof. apply list_splice_across. Qed.

Lemma list_splice_correct_witness :
  exists m', list_splice 112 64 96 demo_mem = Ok (tt, m') /\
    rep m' 16 [96] /\ rep m' 32 [64; 80; 112] /\
    outside (whole 16 [64; 80; 96] ++ whole 32 [112]) demo_mem m'.
Proof.
  apply (list_splice_correct demo_mem 16 [] [64; 80] [96] 32 [] [112] 64);
    [exact demo_rep1|exact demo_rep2|done|exact demo_disjoint].
Defined.

(** [list_remove] undoes [list_insert]: it returns the element that was
    given as BEFORE, and every memory cell but the inserted element itself is
    as it was. *)
Theorem list_insert_remove_roundtrip m l xs ys e :
  rep m l (xs ++ ys) -> e <> NULL -> has m e -> e ∉ whole l (xs ++ ys) ->
  exists m1 m2, list_insert (first_of l ys) e m = Ok (tt, m1) /\
    rep m1 l (xs ++ e :: ys) /\ list_remove e m1 = Ok (first_of l ys, m2) /\
    rep m2 l (xs ++ ys) /\ outside [e] m m2.
Proof.
  intros H He Hh Hout.
  destruct (list_insert_ok m l xs ys e H He Hh Hout) as (m1 & R1 & H1 & O1).
  destruct (list_remove_ok m1 l xs e ys H1) as (m2 & R2 & H2 & O2 & _).
  exists m1, m2. split_and!; [done..|]. destruct O1 as [D1 O1], O2 as [D2 O2].
  split; [congruence|]. intros a Ha.
  destruct (decide (a ∈ whole l (xs ++ ys))) as [Hin|Hin].
  - by eapply rep_determines.
  - assert (a ∉ whole l (xs ++ e :: ys)) by (unfold whole in *; set_solver).
    by rewrite O2, O1.
Qed.

Lemma list_insert_remove_roundtrip_witness :
  exists m1 m2, list_insert 80 128 demo_mem = Ok (tt, m1) /\
    rep m1 16 [64; 128; 80; 96] /\ list_remove 128 m1 = Ok (80, m2) /\
    rep m2 16 [64; 80; 96] /\ outside [128] demo_mem m2.
Proof.
  apply (list_insert_remove_roundtrip demo_mem 16 [64] [80; 96] 128);
    [exact demo_rep1|done|by eexists|].
  apply (bool_decide_unpack _); vm_compute; exact I.
Defined.

(** [list_unique] keeps the first of each group of adjacent equal
    elements, so that no two neighbours are left equal, and appends the others
    to DUPLICATES; nothing is lost. *)
Theorem list_unique_correct less m l d x xs ds fuel :
  rep m l (x :: xs) -> rep m d ds -> (length xs < fuel)%nat ->
  (forall a, a ∈ whole l (x :: xs) -> a ∉ whole d ds) ->
  exists m' kept dups, list_unique less fuel l d m = Ok (tt, m') /\
    rep m' l (x :: kept) /\ rep m' d (ds ++ dups) /\ kept ++ dups ≡ₚ xs /\
    adjacent_distinct less x kept /\ outside (whole l (x :: xs) ++ whole d ds) m m'.
Proof.
  intros H Hd Hf Hdisj.
  destruct (list_unique_ok less m l d x xs ds fuel) as (m' & Hrun & H1 & H2 & Ho); [done..|].
  exists m', (unique_adj less x xs).1, (unique_adj less x xs).2.
  split_and!; [done..|apply unique_adj_perm|apply unique_adj_distinct|done].
Qed.

Lemma list_unique_correct_witness :
  exists m' kept dups, list_unique (fun a b => a / 40 <? b / 40) 3 16 32 demo_mem = Ok (tt, m') /\
    rep m' 16 (64 :: kept) /\ rep m' 32 ([112] ++ dups) /\ kept ++ dups ≡ₚ [80; 96] /\
    adjacent_distinct (fun a b => a / 40 <? b / 40) 64 kept /\
    outside (whole 16 [64; 80; 96] ++ whole 32 [112]) demo_mem m'.
Proof.
  apply list_unique_correct; [exact demo_rep1|exact demo_rep2|simpl; lia|exact demo_disjoint].
Defined.

(** [list_max] returns the earliest of the largest elements and [list_min]
    the earliest of the smallest: everything in front of the result is
    strictly smaller (larger), nothing behind it is larger (smaller). *)
Theorem list_extrema_correct less `{!StrictWeakOrder less} m l x xs fuel :
  rep m l (x :: xs) -> (length xs < fuel)%nat ->
  exists mx mn, list_max less fuel l m = Ok (mx, m) /\ list_min less fuel l m = Ok (mn, m) /\
    (exists us vs, x :: xs = us ++ mx :: vs /\
      Forall (fun u => less u mx = true) us /\ Forall (fun v => less mx v = false) vs) /\
    (exists us vs, x :: xs = us ++ mn :: vs /\
      Forall (fun u => less mn u = true) us /\ Forall (fun v => less v mn = false) vs).
Proof.
  intros H Hf. exists (max_from less x xs), (min_from less x xs).
  split_and!; [by apply list_max_ok|by apply list_min_ok|by apply max_from_spec|].
  rewrite min_from_max. by apply (max_from_spec (fun a b => less b a)).
Qed.

Lemma list_extrema_correct_witness :
  exists mx mn, list_max demo_less 3 16 demo_mem = Ok (mx, demo_mem) /\
    list_min demo_less 3 16 demo_mem = Ok (mn, demo_mem) /\
    (exists us vs, [64; 80; 96] = us ++ mx :: vs /\
      Forall (fun u => demo_less u mx = true) us /\ Forall (fun v => demo_less mx v = false) vs) /\
    (exists us vs, [64; 80; 96] = us ++ mn :: vs /\
      Forall (fun u => demo_less mn u = true) us /\ Forall (fun v => demo_less v mn = false) vs).
Proof. apply (list_extrema_correct demo_less); [exact demo_rep1|simpl; lia]. Defined.

(** A list is a first-in first-out queue: [list_push_back] followed by
    [list_pop_front] takes the oldest element out, in particular the pushed
    one when the list was empty; [list_pop_front] on an empty list trips its
    assertion and [list_size] counts the elements. *)
Theorem list_fifo m l xs e fuel :
  rep m l xs -> e <> NULL -> has m e -> e ∉ whole l xs -> (length xs + 1 < fuel)%nat ->
  exists m1 m2, list_push_back l e m = Ok (tt, m1) /\
    list_size fuel l m1 = Ok (u32 (Z.of_nat (length xs) + 1), m1) /\
    list_pop_front l m1 = Ok (first_of l (xs ++ [e]), m2) /\
    rep m2 l (tail (xs ++ [e])) /\
    (xs = [] -> list_pop_front l m = Err EAssert /\ list_pop_front l m2 = Err EAssert).
Proof.
  intros H He Hh Hout Hf.
  destruct (list_push_back_ok m l xs e H He Hh Hout) as (m1 & R1 & H1 & O1).
  destruct (xs ++ [e]) as [|y ys] eqn:E; [by destruct xs|].
  destruct (list_pop_front_ok m1 l y ys H1) as (m2 & R2 & H2 & O2 & _).
  assert (length (y :: ys) = length xs + 1)%nat as Hlen by (rewrite <-E, length_app; done).
  exists m1, m2. split_and!; [done| |done|done|].
  - rewrite (list_size_ok m1 l (y :: ys) fuel H1) by lia. do 3 f_equal. lia.
  - intros ->. simplify_eq/=. split; by apply list_pop_front_empty.
Qed.

Lemma list_fifo_witness :
  exists m1 m2, list_push_back 32 128 demo_mem = Ok (tt, m1) /\
    list_size 3 32 m1 = Ok (2, m1) /\
    list_pop_front 32 m1 = Ok (112, m2) /\ rep m2 32 [128] /\
    ([112] = [] -> list_pop_front 32 demo_mem = Err EAssert /\ list_pop_front 32 m2 = Err EAssert).
Proof.
  apply (list_fifo demo_mem 32 [112] 128 3); [exact demo_rep2|done|by eexists| |simpl; lia].
  apply (bool_decide_unpack _); vm_compute; exact I.
Defined.
