(* ===== verification/Bitmap.v ===== *)
(** * [lib/kernel/bitmap.c]: arrays of bits in 32-bit words

    A bitmap is its bit count and its array of [elem_type] words; the bitmap is
    the state of the monad.  Sizes and indices are [size_t]: sums wrap modulo
    2^32, as in the code.  A word index outside the array stops with
    [EFault]. *)

From S2P Require Import Prelude.

(** [struct bitmap] *)
Record bitmap := Bitmap { bit_cnt : Z; bits : list Z }.

Definition ELEM_BITS : Z := 32.
Definition BITMAP_ERROR : Z := 4294967295.

(** [DIV_ROUND_UP] of lib/round.h on [size_t] operands. *)
Definition DIV_ROUND_UP (x step : Z) : Z := u32 (x + step - 1) / step.

Definition elem_idx (bit_idx : Z) : Z := bit_idx / ELEM_BITS.
Definition bit_mask (bit_idx : Z) : Z := u32 (Z.shiftl 1 (bit_idx mod ELEM_BITS)).
Definition elem_cnt (bit_cnt : Z) : Z := DIV_ROUND_UP bit_cnt ELEM_BITS.
Definition byte_cnt (bit_cnt : Z) : Z := u32 (4 * elem_cnt bit_cnt).

Definition last_mask (b : bitmap) : Z :=
  let last_bits := bit_cnt b mod ELEM_BITS in
  if negb (last_bits =? 0) then u32 (Z.shiftl 1 last_bits - 1) else u32 (-1).

(** Reading and updating one word of the array. *)
Definition ld_elem (idx : Z) : M bitmap Z := fun b =>
  match bits b !! Z.to_nat idx with Some w => Ok (w, b) | None => Err EFault end.

Definition st_elem (idx w : Z) : M bitmap unit := fun b =>
  match bits b !! Z.to_nat idx with
  | Some _ => Ok (tt, Bitmap (bit_cnt b) (<[Z.to_nat idx := w]> (bits b)))
  | None => Err EFault
  end.

(** ** Size and single bits *)

Definition bitmap_size : M bitmap Z := gets bit_cnt.

Definition bitmap_buf_size (bit_cnt : Z) : Z := u32 (8 + byte_cnt bit_cnt).

Definition bitmap_mark (bit_idx : Z) : M bitmap unit :=
  let idx := elem_idx bit_idx in
  let mask := bit_mask bit_idx in
  w ← ld_elem idx; st_elem idx (Z.lor w mask).

Definition bitmap_reset (bit_idx : Z) : M bitmap unit :=
  let idx := elem_idx bit_idx in
  let mask := bit_mask bit_idx in
  w ← ld_elem idx; st_elem idx (Z.land w (u32 (Z.lnot mask))).

Definition bitmap_flip (bit_idx : Z) : M bitmap unit :=
  let idx := elem_idx bit_idx in
  let mask := bit_mask bit_idx in
  w ← ld_elem idx; st_elem idx (Z.lxor w mask).

Definition bitmap_set (idx : Z) (value : bool) : M bitmap unit :=
  b ← get;
  ASSERT (idx <? bit_cnt b);;
  if value then bitmap_mark idx else bitmap_reset idx.

Definition bitmap_test (idx : Z) : M bitmap bool :=
  b ← get;
  ASSERT (idx <? bit_cnt b);;
  w ← ld_elem (elem_idx idx);
  mret (negb (Z.land w (bit_mask idx) =? 0)).

(** ** Ranges *)

(** The loops run over [i = cnt - n] for [n = cnt, ..., 1]. *)
Fixpoint bitmap_set_loop (n : nat) (start i : Z) (value : bool) : M bitmap unit :=
  match n with
  | O => mret tt
  | S n => bitmap_set (u32 (start + i)) value;; bitmap_set_loop n start (u32 (i + 1)) value
  end.

Definition bitmap_set_multiple (start cnt : Z) (value : bool) : M bitmap unit :=
  b ← get;
  ASSERT (start <=? bit_cnt b);;
  ASSERT (u32 (start + cnt) <=? bit_cnt b);;
  bitmap_set_loop (Z.to_nat cnt) start 0 value.

Definition bitmap_set_all (value : bool) : M bitmap unit :=
  n ← bitmap_size; bitmap_set_multiple 0 n value.

Fixpoint bitmap_count_loop (n : nat) (start i value_cnt : Z) (value : bool) : M bitmap Z :=
  match n with
  | O => mret value_cnt
  | S n =>
      t ← bitmap_test (u32 (start + i));
      bitmap_count_loop n start (u32 (i + 1))
        (if Bool.eqb t value then u32 (value_cnt + 1) else value_cnt) value
  end.

Definition bitmap_count (start cnt : Z) (value : bool) : M bitmap Z :=
  b ← get;
  ASSERT (start <=? bit_cnt b);;
  ASSERT (u32 (start + cnt) <=? bit_cnt b);;
  bitmap_count_loop (Z.to_nat cnt) start 0 0 value.

Fixpoint bitmap_contains_loop (n : nat) (start i : Z) (value : bool) : M bitmap bool :=
  match n with
  | O => mret false
  | S n =>
      t ← bitmap_test (u32 (start + i));
      if Bool.eqb t value then mret true
      else bitmap_contains_loop n start (u32 (i + 1)) value
  end.

Definition bitmap_contains (start cnt : Z) (value : bool) : M bitmap bool :=
  b ← get;
  ASSERT (start <=? bit_cnt b);;
  ASSERT (u32 (start + cnt) <=? bit_cnt b);;
  bitmap_contains_loop (Z.to_nat cnt) start 0 value.

Definition bitmap_any (start cnt : Z) : M bitmap bool := bitmap_contains start cnt true.

Definition bitmap_none (start cnt : Z) : M bitmap bool :=
  c ← bitmap_contains start cnt true; mret (negb c).

Definition bitmap_all (start cnt : Z) : M bitmap bool :=
  c ← bitmap_contains start cnt false; mret (negb c).

(** ** Searching *)

Fixpoint bitmap_scan_loop (fuel : nat) (i last cnt : Z) (value : bool) : M bitmap Z :=
  match fuel with
  | O => fail EFuel
  | S fuel =>
      if i <=? last then
        c ← bitmap_contains i cnt (negb value);
        if negb c then mret i else bitmap_scan_loop fuel (u32 (i + 1)) last cnt value
      else mret BITMAP_ERROR
  end.

Definition bitmap_scan (start cnt : Z) (value : bool) : M bitmap Z :=
  b ← get;
  ASSERT (start <=? bit_cnt b);;
  if cnt <=? bit_cnt b then
    let last := bit_cnt b - cnt in
    bitmap_scan_loop (Z.to_nat (last - start + 1) + 1) start last cnt value
  else mret BITMAP_ERROR.

Definition bitmap_scan_and_flip (start cnt : Z) (value : bool) : M bitmap Z :=
  idx ← bitmap_scan start cnt value;
  (if negb (idx =? BITMAP_ERROR) then bitmap_set_multiple idx cnt (negb value) else mret tt);;
  mret idx.

(** ** Creation

    [bits_block] is the result of the second [malloc], [None] for a null
    pointer: the words it happens to contain.  [hdr] is the first one. *)
Definition bitmap_create (hdr : bool) (bits_block : option (list Z)) (bit_cnt : Z)
    : result (option bitmap) :=
  if hdr then
    match bits_block, bit_cnt =? 0 with
    | None, false => Ok None
    | blk, _ =>
        match bitmap_set_all false (Bitmap bit_cnt (default [] blk)) with
        | Ok (_, b) => Ok (Some b)
        | Err e => Err e
        end
    end
  else Ok None.

(** The words behind the header in the buffer are [block]. *)
Definition bitmap_create_in_buf (bit_cnt : Z) (block : list Z) (block_size : Z)
    : result bitmap :=
  if bitmap_buf_size bit_cnt <=? block_size then
    match bitmap_set_all false (Bitmap bit_cnt block) with
    | Ok (_, b) => Ok b
    | Err e => Err e
    end
  else Err EAssert.

(** ** Well-formed bitmaps and their bits *)

Definition word (w : Z) : Prop := 0 <= w < 4294967296.

(** The array has the words that [bit_cnt] bits need.  [elem_cnt] itself
    overflows for the 31 largest counts, which no allocation satisfies. *)
Record wf (b : bitmap) : Prop := {
  wf_cnt : 0 <= bit_cnt b <= 4294967264;
  wf_len : Z.of_nat (length (bits b)) >= elem_cnt (bit_cnt b);
  wf_words : Forall word (bits b)
}.

Definition bit (b : bitmap) (i : Z) : bool :=
  match bits b !! Z.to_nat (i / 32) with
  | Some w => Z.testbit w (i mod 32)
  | None => false
  end.

(** [b'] is [b] with the bits in [P] set to [v]. *)
Record updated (b b' : bitmap) (P : Z -> bool) (v : bool) : Prop := {
  upd_wf : wf b';
  upd_cnt : bit_cnt b' = bit_cnt b;
  upd_len : length (bits b') = length (bits b);
  upd_bit : forall j, 0 <= j -> bit b' j = if P j then v else bit b j
}.

Lemma elem_cnt_eq n : 0 <= n <= 4294967264 -> elem_cnt n = (n + 31) / 32.
Proof.
  intros H. unfold elem_cnt, DIV_ROUND_UP, ELEM_BITS. rewrite u32_small by lia.
  f_equal. lia.
Qed.

Lemma wf_lookup b i :
  wf b -> 0 <= i < bit_cnt b -> exists w, bits b !! Z.to_nat (i / 32) = Some w /\ word w.
Proof.
  intros [Hc Hl Hw] Hi. rewrite elem_cnt_eq in Hl by done.
  destruct (lookup_lt_is_Some_2 (bits b) (Z.to_nat (i / 32))) as [w E].
  { assert (0 <= i / 32 < (bit_cnt b + 31) / 32); [|lia]. split; [apply Z.div_pos; lia|].
    pose proof (Z.div_add (i) 1 32 ltac:(lia)) as Hd.
    assert ((i + 1 * 32) / 32 <= (bit_cnt b + 31) / 32) by (apply Z.div_le_mono; lia). lia. }
  exists w. split; [done|]. by eapply Forall_lookup in Hw.
Qed.

Lemma bit_mask_eq i : bit_mask i = 2 ^ (i mod 32).
Proof.
  unfold bit_mask, ELEM_BITS. rewrite Z.shiftl_1_l. apply u32_small.
  pose proof (Z.mod_pos_bound i 32 ltac:(lia)). split; [lia|].
  change 4294967296 with (2 ^ 32). apply Z.pow_lt_mono_r; lia.
Qed.

Lemma testbit_pow2 k j : 0 <= k -> Z.testbit (2 ^ k) j = (j =? k).
Proof.
  intros Hk. destruct (Z.eqb_spec j k) as [->|Hn].
  - by apply Z.pow2_bits_true.
  - apply Z.pow2_bits_false. lia.
Qed.

(** A bitwise operation that keeps words within 32 bits. *)
Lemma word_bits w : (0 <= w) -> (forall j, 32 <= j -> Z.testbit w j = false) -> word w.
Proof.
  intros Hw H. split; [done|]. destruct (Z.eq_dec w 0) as [->|Hn]; [lia|].
  change 4294967296 with (2 ^ 32). apply Z.log2_lt_pow2; [lia|].
  destruct (Z.lt_ge_cases (Z.log2 w) 32) as [|Hge]; [done|].
  pose proof (H _ Hge) as Hb. rewrite Z.bit_log2 in Hb by lia. done.
Qed.

Lemma word_high w j : word w -> 32 <= j -> Z.testbit w j = false.
Proof.
  intros [H1 H2] Hj. destruct (Z.eq_dec w 0) as [->|Hn]; [apply Z.testbit_0_l|].
  apply Z.bits_above_log2; [done|]. apply Z.lt_le_trans with 32; [|done].
  apply Z.log2_lt_pow2; lia.
Qed.

Lemma u32_testbit z j : 0 <= j -> Z.testbit (u32 z) j = (j <? 32) && Z.testbit z j.
Proof.
  intros Hj. unfold u32. change 4294967296 with (2 ^ 32).
  destruct (Z.ltb_spec j 32); [by rewrite Z.mod_pow2_bits_low|].
  by rewrite Z.mod_pow2_bits_high by lia.
Qed.

(** Changing one word through [f], which sets bit [i mod 32] to [v]. *)
Lemma st_elem_ok b i w f v :
  wf b -> 0 <= i < bit_cnt b -> bits b !! Z.to_nat (i / 32) = Some w -> word w ->
  word (f w) ->
  (forall k, 0 <= k < 32 -> Z.testbit (f w) k = if k =? i mod 32 then v else Z.testbit w k) ->
  exists b', st_elem (elem_idx i) (f w) b = Ok (tt, b') /\ updated b b' (fun j => j =? i) v.
Proof.
  intros Hwf Hi E Hw Hfw Hf. unfold st_elem, elem_idx, ELEM_BITS. rewrite E.
  eexists. split; [done|]. pose proof (lookup_lt_Some _ _ _ E) as Hlt. destruct Hwf as [H1 H2 H3].
  split; [split|..]; simpl; rewrite ?length_insert; try done; [by apply Forall_insert|].
  intros j Hj. unfold bit. simpl.
  pose proof (Z.mod_pos_bound j 32 ltac:(lia)).
  destruct (decide (Z.to_nat (i / 32) = Z.to_nat (j / 32))) as [Heq|Hne].
  - rewrite <-Heq, list_lookup_insert_eq, E by done. rewrite Hf by done.
    assert (i / 32 = j / 32).
    { apply Z2Nat.inj; [apply Z.div_pos; lia|apply Z.div_pos; lia|done]. }
    replace (j mod 32 =? i mod 32) with (j =? i); [done|].
    apply eq_bool_prop_intro. rewrite !Is_true_true, !Z.eqb_eq. split; [by intros ->|].
    intros. rewrite (Z.div_mod i 32), (Z.div_mod j 32) by lia. lia.
  - rewrite list_lookup_insert_ne by done.
    destruct (Z.eqb_spec j i) as [->|]; [done|]. done.
Qed.

Lemma lor_bit w i k : 0 <= k < 32 ->
  Z.testbit (Z.lor w (bit_mask i)) k = if k =? i mod 32 then true else Z.testbit w k.
Proof.
  intros Hk. rewrite Z.lor_spec, bit_mask_eq, testbit_pow2 by (apply Z.mod_pos_bound; lia).
  destruct (k =? i mod 32); by rewrite ?orb_true_r, ?orb_false_r.
Qed.

Lemma lxor_bit w i k : 0 <= k < 32 ->
  Z.testbit (Z.lxor w (bit_mask i)) k =
  if k =? i mod 32 then negb (Z.testbit w (i mod 32)) else Z.testbit w k.
Proof.
  intros Hk. rewrite Z.lxor_spec, bit_mask_eq, testbit_pow2 by (apply Z.mod_pos_bound; lia).
  destruct (Z.eqb_spec k (i mod 32)) as [->|]; by destruct (Z.testbit w _).
Qed.

Lemma land_bit w i k : 0 <= k < 32 ->
  Z.testbit (Z.land w (u32 (Z.lnot (bit_mask i)))) k =
  if k =? i mod 32 then false else Z.testbit w k.
Proof.
  intros Hk. rewrite Z.land_spec, u32_testbit, Z.lnot_spec by lia.
  rewrite bit_mask_eq, testbit_pow2 by (apply Z.mod_pos_bound; lia).
  replace (k <? 32) with true by (symmetry; apply Z.ltb_lt; lia).
  destruct (k =? i mod 32); simpl; by rewrite ?andb_true_r, ?andb_false_r.
Qed.

Lemma bit_mask_word i : word (bit_mask i).
Proof. unfold bit_mask. apply u32_range. Qed.

Lemma word_op f w i : word w -> 
  (forall k, Z.testbit w k = false -> Z.testbit (bit_mask i) k = false -> 
             0 <= k -> Z.testbit (f w) k = false) ->
  0 <= f w -> word (f w).
Proof.
  intros Hw Hf Hp. apply word_bits; [done|]. intros j Hj. apply Hf; [by apply word_high| |lia].
  apply word_high; [apply bit_mask_word|done].
Qed.

(** Each of the three single-bit instructions changes one bit. *)
Lemma bitmap_mark_ok b i :
  wf b -> 0 <= i < bit_cnt b ->
  exists b', bitmap_mark i b = Ok (tt, b') /\ updated b b' (fun j => j =? i) true.
Proof.
  intros Hwf Hi. destruct (wf_lookup b i Hwf Hi) as (w & E & Hw).
  unfold bitmap_mark. mstep_by (unfold ld_elem, elem_idx, ELEM_BITS; by rewrite E).
  apply (st_elem_ok b i w (fun w => Z.lor w (bit_mask i))); try done; [|intros; by apply lor_bit].
  apply (word_op (fun w => Z.lor w (bit_mask i)) w i); [done| |].
  - intros k H1 H2 Hk. by rewrite Z.lor_spec, H1, H2.
  - apply Z.lor_nonneg. split; [apply Hw|apply bit_mask_word].
Qed.

Lemma bitmap_reset_ok b i :
  wf b -> 0 <= i < bit_cnt b ->
  exists b', bitmap_reset i b = Ok (tt, b') /\ updated b b' (fun j => j =? i) false.
Proof.
  intros Hwf Hi. destruct (wf_lookup b i Hwf Hi) as (w & E & Hw).
  unfold bitmap_reset. mstep_by (unfold ld_elem, elem_idx, ELEM_BITS; by rewrite E).
  apply (st_elem_ok b i w (fun w => Z.land w (u32 (Z.lnot (bit_mask i)))));
    try done; [|intros; by apply land_bit].
  apply (word_op (fun w => Z.land w (u32 (Z.lnot (bit_mask i)))) w i); [done| |].
  - intros k H1 _ _. by rewrite Z.land_spec, H1.
  - apply Z.land_nonneg. left. apply Hw.
Qed.

Lemma bitmap_flip_ok b i :
  wf b -> 0 <= i < bit_cnt b ->
  exists b', bitmap_flip i b = Ok (tt, b') /\
             updated b b' (fun j => j =? i) (negb (bit b i)).
Proof.
  intros Hwf Hi. destruct (wf_lookup b i Hwf Hi) as (w & E & Hw).
  unfold bitmap_flip. mstep_by (unfold ld_elem, elem_idx, ELEM_BITS; by rewrite E).
  assert (bit b i = Z.testbit w (i mod 32)) as -> by (unfold bit; by rewrite E).
  apply (st_elem_ok b i w (fun w => Z.lxor w (bit_mask i))); try done; [|intros; by apply lxor_bit].
  apply (word_op (fun w => Z.lxor w (bit_mask i)) w i); [done| |].
  - intros k H1 H2 Hk. by rewrite Z.lxor_spec, H1, H2.
  - apply Z.lxor_nonneg. split; intros; [apply bit_mask_word|apply Hw].
Qed.

Lemma bitmap_set_ok b i v :
  wf b -> 0 <= i < bit_cnt b ->
  exists b', bitmap_set i v b = Ok (tt, b') /\ updated b b' (fun j => j =? i) v.
Proof.
  intros Hwf Hi. unfold bitmap_set. mstep_by reflexivity.
  mstep_by (apply ASSERT_true; apply Z.ltb_lt; lia).
  destruct v; [by apply bitmap_mark_ok|by apply bitmap_reset_ok].
Qed.

Lemma bitmap_set_fails b i v : bit_cnt b <= i -> bitmap_set i v b = Err EAssert.
Proof.
  intros Hi. unfold bitmap_set. mstep_by reflexivity.
  apply bind_err, ASSERT_false, Z.ltb_ge. lia.
Qed.

Lemma land_pow2_eqb w k : 0 <= k -> negb (Z.land w (2 ^ k) =? 0) = Z.testbit w k.
Proof.
  intros Hk. destruct (Z.testbit w k) eqn:E.
  - apply negb_true_iff, Z.eqb_neq. intros H0.
    assert (Z.testbit (Z.land w (2 ^ k)) k = false) as H1 by (rewrite H0; apply Z.testbit_0_l).
    rewrite Z.land_spec, E, Z.pow2_bits_true in H1 by done. done.
  - apply negb_false_iff, Z.eqb_eq, Z.bits_inj'. intros j Hj.
    rewrite Z.land_spec, testbit_pow2, Z.testbit_0_l by done.
    destruct (Z.eqb_spec j k) as [->|]; by rewrite ?E, ?andb_false_r.
Qed.

Lemma bitmap_test_ok b i :
  wf b -> 0 <= i < bit_cnt b -> bitmap_test i b = Ok (bit b i, b).
Proof.
  intros Hwf Hi. destruct (wf_lookup b i Hwf Hi) as (w & E & Hw).
  unfold bitmap_test. mstep_by reflexivity.
  mstep_by (apply ASSERT_true; apply Z.ltb_lt; lia).
  mstep_by (unfold ld_elem, elem_idx, ELEM_BITS; by rewrite E).
  unfold bit. rewrite E, bit_mask_eq, land_pow2_eqb by (apply Z.mod_pos_bound; lia). done.
Qed.

Lemma bitmap_test_fails b i : bit_cnt b <= i -> bitmap_test i b = Err EAssert.
Proof.
  intros Hi. unfold bitmap_test. mstep_by reflexivity.
  apply bind_err, ASSERT_false, Z.ltb_ge. lia.
Qed.
