(* ===== verification/BitmapThms.v ===== *)
(** * Correctness of the bitmap operations on ranges

    The range operations of [lib/kernel/bitmap.c] against their reading on the
    sequence of bits, and the searches built on them. *)

From S2P Require Import Prelude Bitmap.

(** The positions of a range and their bits. *)
Definition in_range (start cnt j : Z) : bool := (start <=? j) && (j <? start + cnt).

Lemma in_range_true start cnt j : start <= j < start + cnt -> in_range start cnt j = true.
Proof. intros H. apply andb_true_iff. rewrite Z.leb_le, Z.ltb_lt. lia. Qed.

Lemma in_range_false start cnt j : ~ start <= j < start + cnt -> in_range start cnt j = false.
Proof. intros H. apply andb_false_iff. rewrite Z.leb_gt, Z.ltb_ge. lia. Qed.

(** [cnt] bits from [start] on are all [v]. *)
Definition run (b : bitmap) (start cnt : Z) (v : bool) : Prop :=
  forall j, start <= j < start + cnt -> bit b j = v.

Definition range_count (b : bitmap) (start cnt : Z) (v : bool) : Z :=
  Z.of_nat (length (filter (fun j => bit b j = v) (seqZ start cnt))).

Lemma updated_refl b v : wf b -> updated b b (fun _ => false) v.
Proof. by split. Qed.

Lemma updated_ext b b' P Q v :
  (forall j, 0 <= j -> P j = Q j) -> updated b b' P v -> updated b b' Q v.
Proof.
  intros H [H1 H2 H3 H4]. split; [done..|]. intros j Hj. rewrite <-H by done. by apply H4.
Qed.

Lemma updated_trans b1 b2 b3 P Q v :
  updated b1 b2 P v -> updated b2 b3 Q v -> updated b1 b3 (fun j => P j || Q j) v.
Proof.
  intros [H1 H2 H3 H4] [G1 G2 G3 G4]. split; [done|congruence|congruence|].
  intros j Hj. rewrite G4, H4 by done. by destruct (P j), (Q j).
Qed.

Lemma u32_add_small a c n : 0 <= a -> 0 <= c -> a + c < n -> n <= 4294967296 -> u32 (a + c) = a + c.
Proof. intros. apply u32_small. lia. Qed.

(** ** Setting a range *)

Lemma bitmap_set_loop_ok n : forall b start i v,
  wf b -> 0 <= start -> 0 <= i -> start + i + Z.of_nat n <= bit_cnt b ->
  exists b', bitmap_set_loop n start i v b = Ok (tt, b') /\
             updated b b' (in_range (start + i) (Z.of_nat n)) v.
Proof.
  induction n as [|n IH]; intros b start i v Hwf Hs Hi Hn.
  - exists b. split; [done|]. eapply updated_ext; [|by apply updated_refl].
    intros j _. symmetry. apply in_range_false. lia.
  - pose proof (wf_cnt _ Hwf). cbn [bitmap_set_loop]. rewrite !u32_small by lia.
    destruct (bitmap_set_ok b (start + i) v Hwf ltac:(lia)) as (b1 & E1 & U1).
    mstep E1. destruct (IH b1 start (i + 1) v) as (b2 & E2 & U2); try lia;
      [apply U1|rewrite (upd_cnt _ _ _ _ U1); lia|].
    exists b2. split; [done|].
    eapply updated_ext; [|exact (updated_trans _ _ _ _ _ _ U1 U2)].
    intros j _. unfold in_range. apply eq_bool_prop_intro.
    rewrite !Is_true_true, orb_true_iff, !andb_true_iff, !Z.leb_le, !Z.ltb_lt, Z.eqb_eq. lia.
Qed.

(** The loop stops at the first position behind the bitmap. *)
Lemma bitmap_set_loop_fails n : forall b start i v,
  wf b -> 0 <= start -> 0 <= i -> start + i <= bit_cnt b -> bit_cnt b < start + i + Z.of_nat n ->
  bitmap_set_loop n start i v b = Err EAssert.
Proof.
  induction n as [|n IH]; intros b start i v Hwf Hs Hi Hle Hn; [lia|].
  pose proof (wf_cnt _ Hwf). cbn [bitmap_set_loop]. rewrite !u32_small by lia.
  destruct (decide (start + i = bit_cnt b)) as [E|E].
  - apply bind_err, bitmap_set_fails. lia.
  - destruct (bitmap_set_ok b (start + i) v Hwf ltac:(lia)) as (b1 & E1 & U1).
    mstep E1. pose proof (upd_cnt _ _ _ _ U1). apply IH; try lia. apply U1.
Qed.

Lemma bitmap_set_multiple_ok b start cnt v :
  wf b -> 0 <= start -> 0 <= cnt -> start + cnt <= bit_cnt b ->
  exists b', bitmap_set_multiple start cnt v b = Ok (tt, b') /\
             updated b b' (in_range start cnt) v.
Proof.
  intros Hwf Hs Hc Hn. pose proof (wf_cnt _ Hwf). unfold bitmap_set_multiple.
  mstep_by reflexivity. mstep_by (apply ASSERT_true, Z.leb_le; lia).
  rewrite u32_small by lia. mstep_by (apply ASSERT_true, Z.leb_le; lia).
  destruct (bitmap_set_loop_ok (Z.to_nat cnt) b start 0 v) as (b' & E & U); [done|lia..|].
  exists b'. split; [done|]. by rewrite Z.add_0_r, Z2Nat.id in U by lia.
Qed.

Lemma bitmap_set_multiple_fails b start cnt v :
  wf b -> 0 <= start < 4294967296 -> 0 <= cnt < 4294967296 -> bit_cnt b < start + cnt ->
  bitmap_set_multiple start cnt v b = Err EAssert.
Proof.
  intros Hwf Hs Hc Hn. unfold bitmap_set_multiple. mstep_by reflexivity.
  destruct (Z.leb_spec start (bit_cnt b)); [|by apply bind_err, ASSERT_false].
  mstep_by reflexivity.
  destruct (Z.leb_spec (u32 (start + cnt)) (bit_cnt b)); [|by apply bind_err, ASSERT_false].
  mstep_by reflexivity. apply bitmap_set_loop_fails; try lia. done.
Qed.

(** ** Counting and testing a range *)

Lemma seqZ_S start n : seqZ start (Z.of_nat (S n)) = start :: seqZ (start + 1) (Z.of_nat n).
Proof.
  rewrite seqZ_cons by lia. replace (Z.pred (Z.of_nat (S n))) with (Z.of_nat n) by lia. done.
Qed.

Lemma bitmap_count_loop_ok n : forall b start i c v,
  wf b -> 0 <= start -> 0 <= i -> start + i + Z.of_nat n <= bit_cnt b ->
  0 <= c -> c + Z.of_nat n < 4294967296 ->
  bitmap_count_loop n start i c v b = Ok (c + range_count b (start + i) (Z.of_nat n) v, b).
Proof.
  induction n as [|n IH]; intros b start i c v Hwf Hs Hi Hn Hc Hcn.
  - unfold range_count. simpl. by rewrite Z.add_0_r.
  - pose proof (wf_cnt _ Hwf). cbn [bitmap_count_loop]. rewrite !(u32_small (_ + i)), !(u32_small (i + _)) by lia.
    mstep_by (apply bitmap_test_ok; [done|lia]).
    unfold range_count. rewrite seqZ_S, filter_cons.
    destruct (decide (bit b (start + i) = v)) as [<-|Hne].
    + rewrite eqb_reflx, u32_small, IH by (done || lia). unfold range_count. simpl.
      rewrite Z.add_assoc. replace (Z.of_nat (S _)) with (1 + range_count b (start + i + 1) (Z.of_nat n) (bit b (start + i))) by (unfold range_count; lia).
      by rewrite Z.add_assoc.
    + replace (Bool.eqb (bit b (start + i)) v) with false by (by destruct (bit b _), v).
      rewrite IH by (done || lia). by rewrite Z.add_assoc.
Qed.

Lemma bitmap_contains_loop_ok n : forall b start i v,
  wf b -> 0 <= start -> 0 <= i -> start + i + Z.of_nat n <= bit_cnt b ->
  exists r, bitmap_contains_loop n start i v b = Ok (r, b) /\
            (r = false <-> run b (start + i) (Z.of_nat n) (negb v)).
Proof.
  induction n as [|n IH]; intros b start i v Hwf Hs Hi Hn.
  - exists false. split; [done|]. split; [|done]. intros _ j Hj. lia.
  - pose proof (wf_cnt _ Hwf). cbn [bitmap_contains_loop]. rewrite !u32_small by lia.
    mstep_by (apply bitmap_test_ok; [done|lia]).
    destruct (Bool.eqb (bit b (start + i)) v) eqn:E.
    + apply eqb_prop in E. exists true. split; [done|]. split; [done|]. intros Hr.
      specialize (Hr (start + i) ltac:(lia)). rewrite E in Hr. by destruct v.
    + apply eqb_false_iff in E.
      destruct (IH b start (i + 1) v) as (r & Er & Hr); [done|lia..|].
      exists r. split; [done|]. rewrite Hr. split; intros Hrun j Hj.
      * destruct (decide (j = start + i)) as [->|]; [by destruct (bit b _), v|].
        apply Hrun. lia.
      * apply Hrun. lia.
Qed.

Lemma bitmap_contains_ok b start cnt v :
  wf b -> 0 <= start -> 0 <= cnt -> start + cnt <= bit_cnt b ->
  exists r, bitmap_contains start cnt v b = Ok (r, b) /\
            (r = false <-> run b start cnt (negb v)).
Proof.
  intros Hwf Hs Hc Hn. pose proof (wf_cnt _ Hwf). unfold bitmap_contains.
  mstep_by reflexivity. mstep_by (apply ASSERT_true, Z.leb_le; lia).
  rewrite u32_small by lia. mstep_by (apply ASSERT_true, Z.leb_le; lia).
  destruct (bitmap_contains_loop_ok (Z.to_nat cnt) b start 0 v) as (r & E & Hr); [done|lia..|].
  exists r. split; [done|]. by rewrite Z.add_0_r, Z2Nat.id in Hr by lia.
Qed.

Lemma bitmap_count_ok b start cnt v :
  wf b -> 0 <= start -> 0 <= cnt -> start + cnt <= bit_cnt b ->
  bitmap_count start cnt v b = Ok (range_count b start cnt v, b).
Proof.
  intros Hwf Hs Hc Hn. pose proof (wf_cnt _ Hwf). unfold bitmap_count.
  mstep_by reflexivity. mstep_by (apply ASSERT_true, Z.leb_le; lia).
  rewrite u32_small by lia. mstep_by (apply ASSERT_true, Z.leb_le; lia).
  rewrite bitmap_count_loop_ok by (done || lia).
  by rewrite Z.add_0_r, Z.add_0_l, Z2Nat.id by lia.
Qed.

(** ** Searching *)

Definition first_run (b : bitmap) (start cnt : Z) (v : bool) (r : Z) : Prop :=
  start <= r /\ r + cnt <= bit_cnt b /\ run b r cnt v /\ forall i, start <= i < r -> ~ run b i cnt v.

Definition no_run (b : bitmap) (start cnt : Z) (v : bool) : Prop :=
  forall i, start <= i -> i + cnt <= bit_cnt b -> ~ run b i cnt v.

Lemma bitmap_scan_loop_ok fuel : forall b i cnt v,
  wf b -> 0 <= i -> 0 <= cnt <= bit_cnt b ->
  bit_cnt b - cnt - i + 1 < Z.of_nat fuel -> (0 < fuel)%nat ->
  exists r, bitmap_scan_loop fuel i (bit_cnt b - cnt) cnt v b = Ok (r, b) /\
    (r = BITMAP_ERROR /\ no_run b i cnt v \/ r < BITMAP_ERROR /\ first_run b i cnt v r).
Proof.
  induction fuel as [|fuel IH]; intros b i cnt v Hwf Hi Hc Hf Hf0; [lia|].
  pose proof (wf_cnt _ Hwf) as Hcnt. cbn [bitmap_scan_loop].
  destruct (Z.leb_spec i (bit_cnt b - cnt)) as [Hle|Hgt].
  - destruct (bitmap_contains_ok b i cnt (negb v)) as (c & E & Hr); [done|lia..|].
    rewrite negb_involutive in Hr. mstep E. destruct c; simpl.
    + rewrite u32_small by lia.
      assert (~ run b i cnt v) as Hnr by (intros H; apply Hr in H; done).
      destruct (IH b (i + 1) cnt v) as (r & Er & Hres); [done|lia..|].
      exists r. split; [done|]. destruct Hres as [[-> Hno]|(Hlt & H1 & H2 & H3 & H4)].
      * left. split; [done|]. intros k Hk Hkc.
        destruct (decide (k = i)) as [->|]; [done|apply Hno; lia].
      * right. split; [done|]. repeat split; try done; [lia|]. intros k Hk.
        destruct (decide (k = i)) as [->|]; [done|apply H4; lia].
    + exists i. split; [done|]. right. unfold BITMAP_ERROR. split; [lia|].
      repeat split; [lia|lia|by apply Hr|]. intros k Hk. lia.
  - exists BITMAP_ERROR. split; [done|]. left. split; [done|]. intros k Hk Hkc. lia.
Qed.

Lemma bitmap_scan_ok b start cnt v :
  wf b -> 0 <= start <= bit_cnt b -> 0 <= cnt ->
  exists r, bitmap_scan start cnt v b = Ok (r, b) /\
    (r = BITMAP_ERROR /\ no_run b start cnt v \/ r < BITMAP_ERROR /\ first_run b start cnt v r).
Proof.
  intros Hwf Hs Hc. unfold bitmap_scan. mstep_by reflexivity.
  mstep_by (apply ASSERT_true, Z.leb_le; lia).
  destruct (Z.leb_spec cnt (bit_cnt b)) as [Hle|Hgt].
  - apply bitmap_scan_loop_ok; try lia. done.
  - exists BITMAP_ERROR. split; [done|]. left. split; [done|]. intros i Hi Hic. lia.
Qed.

Lemma bitmap_scan_and_flip_ok b start cnt v :
  wf b -> 0 <= start <= bit_cnt b -> 0 <= cnt ->
  exists r b', bitmap_scan_and_flip start cnt v b = Ok (r, b') /\
    (r = BITMAP_ERROR /\ no_run b start cnt v /\ b' = b \/
     r < BITMAP_ERROR /\ first_run b start cnt v r /\ updated b b' (in_range r cnt) (negb v)).
Proof.
  intros Hwf Hs Hc. unfold bitmap_scan_and_flip.
  destruct (bitmap_scan_ok b start cnt v Hwf Hs Hc) as (r & E & [[-> Hn]|[Hlt Hf]]); mstep E.
  - exists BITMAP_ERROR, b. split; [done|]. by left.
  - replace (r =? BITMAP_ERROR) with false by (symmetry; apply Z.eqb_neq; lia). simpl negb.
    destruct Hf as (F1 & F2 & F3 & F4).
    destruct (bitmap_set_multiple_ok b r cnt (negb v)) as (b' & E' & U); [done|lia..|].
    exists r, b'. mstep E'. split; [done|]. right. repeat split; try done; try apply U.
Qed.

(** ** Creation *)

Lemma bitmap_set_all_ok b v :
  wf b -> exists b', bitmap_set_all v b = Ok (tt, b') /\ updated b b' (in_range 0 (bit_cnt b)) v.
Proof.
  intros Hwf. unfold bitmap_set_all, bitmap_size, gets. mstep_by reflexivity.
  pose proof (wf_cnt _ Hwf). apply bitmap_set_multiple_ok; done || lia.
Qed.

Lemma bitmap_create_ok ws n :
  0 <= n <= 4294967264 -> elem_cnt n <= Z.of_nat (length ws) -> Forall word ws ->
  exists b, bitmap_create true (Some ws) n = Ok (Some b) /\ wf b /\ bit_cnt b = n /\ run b 0 n false.
Proof.
  intros Hn Hl Hw. destruct (bitmap_set_all_ok (Bitmap n ws) false) as (b & E & U).
  { split; simpl; [done|lia|done]. }
  exists b. split; [cbv [bitmap_create default from_option id]; by rewrite E|]. split_and!; [apply U|apply (upd_cnt _ _ _ _ U)|].
  intros j Hj. rewrite (upd_bit _ _ _ _ U) by lia. by rewrite in_range_true.
Qed.

Lemma bitmap_create_in_buf_ok ws n size :
  0 <= n <= 4294967264 -> elem_cnt n <= Z.of_nat (length ws) -> Forall word ws ->
  bitmap_buf_size n <= size ->
  exists b, bitmap_create_in_buf n ws size = Ok b /\ wf b /\ bit_cnt b = n /\ run b 0 n false.
Proof.
  intros Hn Hl Hw Hs. destruct (bitmap_create_ok ws n Hn Hl Hw) as (b & E & H).
  exists b. split; [|done]. cbv [bitmap_create default from_option id] in E. unfold bitmap_create_in_buf.
  replace (bitmap_buf_size n <=? size) with true by (symmetry; by apply Z.leb_le).
  destruct (bitmap_set_all false (Bitmap n ws)) as [[[] b0]|e];
    by simplify_eq/=.
Qed.

(** ** Properties *)

(** bitmap_set_multiple, for all [size_t] arguments: a range within the
    bitmap gets the value and every other bit keeps its own; a range that
    leaves the bitmap, even one whose end wraps around below the bit count,
    fails an assertion and never writes outside the array. *)
Theorem bitmap_set_multiple_correct b start cnt v :
  wf b -> 0 <= start < 4294967296 -> 0 <= cnt < 4294967296 ->
  if start + cnt <=? bit_cnt b
  then exists b', bitmap_set_multiple start cnt v b = Ok (tt, b') /\
                  wf b' /\ bit_cnt b' = bit_cnt b /\
                  forall j, 0 <= j -> bit b' j = if in_range start cnt j then v else bit b j
  else bitmap_set_multiple start cnt v b = Err EAssert.
Proof.
  intros Hwf Hs Hc. destruct (Z.leb_spec (start + cnt) (bit_cnt b)).
  - destruct (bitmap_set_multiple_ok b start cnt v) as (b' & E & [U1 U2 U3 U4]);
      [done|lia..|]. by exists b'.
  - by apply bitmap_set_multiple_fails.
Qed.

Definition sample : bitmap := Bitmap 40 [4026531855; 255].

Lemma sample_wf : wf sample.
Proof.
  split; [vm_compute; split; discriminate|vm_compute; congruence|].
  unfold sample, word. simpl. repeat constructor; lia.
Qed.

Lemma bitmap_set_multiple_correct_witness :
  exists b', bitmap_set_multiple 30 5 false sample = Ok (tt, b') /\
             bit b' 34 = false /\ bit b' 35 = true /\
             bitmap_set_multiple 30 4294967295 false sample = Err EAssert.
Proof.
  pose proof (bitmap_set_multiple_correct sample 30 5 false sample_wf ltac:(lia) ltac:(lia)) as H.
  pose proof (bitmap_set_multiple_correct sample 30 4294967295 false sample_wf
    ltac:(lia) ltac:(lia)) as G.
  simpl in H, G. destruct H as (b' & E & _ & _ & Hb). exists b'. split; [exact E|].
  rewrite !Hb by lia. split; [reflexivity|]. split; [reflexivity|]. exact G.
Defined.

(** bitmap_scan_and_flip returns the first position at or after START
    from which CNT bits have the value, having flipped exactly these bits, or
    BITMAP_ERROR, with the bitmap unchanged, when no such position exists. *)
Theorem bitmap_scan_and_flip_correct b start cnt v :
  wf b -> 0 <= start <= bit_cnt b -> 0 <= cnt ->
  exists r b', bitmap_scan_and_flip start cnt v b = Ok (r, b') /\
    (r = BITMAP_ERROR /\ no_run b start cnt v /\ b' = b \/
     r < BITMAP_ERROR /\ first_run b start cnt v r /\
     updated b b' (in_range r cnt) (negb v)).
Proof. apply bitmap_scan_and_flip_ok. Qed.

Lemma bitmap_scan_and_flip_correct_witness :
  exists b', bitmap_scan_and_flip 2 4 true sample = Ok (28, b') /\
             bit b' 31 = false /\ bit b' 32 = true.
Proof.
  destruct (bitmap_scan_and_flip_correct sample 2 4 true sample_wf) as (r & b' & E & H);
    [simpl; lia|lia|].
  vm_compute in E. inversion E; subst.
  eexists. split; [reflexivity|]. destruct H as [(H & _)|(_ & _ & U)]; [discriminate|].
  rewrite !(upd_bit _ _ _ _ U) by lia. split; reflexivity.
Defined.

(** the tests of a range answer for the sequence of its bits: the count
    of matching bits, whether some or none or all of them match, without
    changing the bitmap. *)
Theorem bitmap_range_tests_correct b start cnt :
  wf b -> 0 <= start -> 0 <= cnt -> start + cnt <= bit_cnt b ->
  (forall v, bitmap_count start cnt v b = Ok (range_count b start cnt v, b)) /\
  exists any none all,
    bitmap_any start cnt b = Ok (any, b) /\ (any = false <-> run b start cnt false) /\
    bitmap_none start cnt b = Ok (none, b) /\ (none = true <-> run b start cnt false) /\
    bitmap_all start cnt b = Ok (all, b) /\ (all = true <-> run b start cnt true).
Proof.
  intros Hwf Hs Hc Hn. split; [intros; by apply bitmap_count_ok|].
  destruct (bitmap_contains_ok b start cnt true) as (r & E & Hr); [done..|].
  destruct (bitmap_contains_ok b start cnt false) as (r' & E' & Hr'); [done..|].
  exists r, (negb r), (negb r'). rewrite !negb_true_iff.
  unfold bitmap_any, bitmap_none, bitmap_all, mbind, M_bind. by rewrite E, E'.
Qed.

Lemma bitmap_range_tests_correct_witness :
  bitmap_count 28 10 true sample = Ok (10, sample) /\ bitmap_all 28 10 sample = Ok (true, sample).
Proof.
  destruct (bitmap_range_tests_correct sample 28 10 sample_wf) as (H & a & n & l & _ & _ & _ & _ & E & _);
    [lia|lia|simpl; lia|].
  split; [rewrite H; reflexivity|]. rewrite E. vm_compute in E. inversion E. reflexivity.
Defined.
