(* ===== verification/Arith64.v ===== *)
(** * [lib/arithmetic.c]: 64-bit division on a 32-bit processor

    The routines GCC calls for 64-bit [/] and [%].  The only primitive is the
    x86 [divl] instruction, which divides 64 by 32 bits and traps when the
    quotient does not fit in 32 bits; every shift, product and difference is
    taken at the width the code computes it in. *)

From S2P Require Import Prelude.

Definition divl (n d : Z) : result Z :=
  let n1 := u32 (Z.shiftr n 32) in
  let n0 := u32 n in
  if d =? 0 then Err ETrap
  else let q := (n1 * 4294967296 + n0) / d in
       if q <? 4294967296 then Ok q else Err ETrap.

Definition nlz (x : Z) : Z :=
  let n := 0 in
  let '(n, x) := if x <=? 65535 then (n + 16, u32 (Z.shiftl x 16)) else (n, x) in
  let '(n, x) := if x <=? 16777215 then (n + 8, u32 (Z.shiftl x 8)) else (n, x) in
  let '(n, x) := if x <=? 268435455 then (n + 4, u32 (Z.shiftl x 4)) else (n, x) in
  let '(n, x) := if x <=? 1073741823 then (n + 2, u32 (Z.shiftl x 2)) else (n, x) in
  if x <=? 2147483647 then n + 1 else n.

Definition udiv64 (n d : Z) : result Z :=
  if Z.shiftr d 32 =? 0 then
    let b := u64 (Z.shiftl 1 32) in
    let n1 := u32 (Z.shiftr n 32) in
    let n0 := u32 n in
    let d0 := u32 d in
    if d0 =? 0 then Err ETrap  (* n1 % d0 *)
    else
      q ← divl (u64 (u64 (b * (n1 mod d0)) + n0)) d0;
      Ok (u64 (q + u64 (b * (n1 / d0))))
  else if n <? d then Ok 0
  else
    let d1 := u32 (Z.shiftr d 32) in
    let s := nlz d1 in
    q ← divl (Z.shiftr n 1) (u32 (Z.shiftr (u64 (Z.shiftl d s)) 32));
    let q := Z.shiftr q (31 - s) in
    Ok (if u64 (n - u64 (u64 (q - 1) * d)) <? d then u64 (q - 1) else q).

Definition umod64 (n d : Z) : result Z :=
  q ← udiv64 n d; Ok (u32 (u64 (n - u64 (d * q)))).

Definition sdiv64 (n d : Z) : result Z :=
  let n_abs := if 0 <=? n then u64 n else u64 (- u64 n) in
  let d_abs := if 0 <=? d then u64 d else u64 (- u64 d) in
  q_abs ← udiv64 n_abs d_abs;
  Ok (if Bool.eqb (n <? 0) (d <? 0) then s64 q_abs else s64 (- s64 q_abs)).

Definition smod64 (n d : Z) : result Z :=
  q ← sdiv64 n d; Ok (s32 (s64 (n - s64 (d * q)))).

Definition __divdi3 (n d : Z) : result Z := sdiv64 n d.
(** The [int32_t] and [uint32_t] results are converted to 64 bits. *)
Definition __moddi3 (n d : Z) : result Z := r ← smod64 n d; Ok (s64 r).
Definition __udivdi3 (n d : Z) : result Z := udiv64 n d.
Definition __umoddi3 (n d : Z) : result Z := r ← umod64 n d; Ok (u64 r).

(** ** Leading zeros *)

(** One step of the binary search: shifting by [k] loses no bit below [bound]. *)
Lemma nlz_step x k : 0 <= k <= 31 -> 0 <= x -> x * 2 ^ k < 4294967296 -> u32 (Z.shiftl x k) = x * 2 ^ k.
Proof. intros. rewrite Z.shiftl_mul_pow2, u32_small; lia. Qed.

Lemma nlz_spec x :
  0 < x < 4294967296 ->
  0 <= nlz x <= 31 /\ 2147483648 <= x * 2 ^ nlz x < 4294967296.
Proof.
  intros Hx. unfold nlz.
  destruct (Z.leb_spec x 65535); try rewrite (nlz_step x 16) by lia;
  repeat match goal with
  | |- context [?y <=? ?c] => destruct (Z.leb_spec y c); try rewrite (nlz_step y) by lia
  end; lia.
Qed.

(** ** Unsigned quotient *)

Lemma shiftr32 n : Z.shiftr n 32 = n / 4294967296.
Proof. by rewrite Z.shiftr_div_pow2 by lia. Qed.

Lemma divl_ok n d :
  0 <= n < 18446744073709551616 -> 0 < d -> n / d < 4294967296 -> divl n d = Ok (n / d).
Proof.
  intros Hn Hd Hq. unfold divl. rewrite shiftr32.
  replace (d =? 0) with false by (symmetry; apply Z.eqb_neq; lia).
  rewrite (u32_small (n / _)) by
    (split; [apply Z.div_pos|apply Z.div_lt_upper_bound]; lia).
  replace (n / 4294967296 * 4294967296 + u32 n) with n
    by (unfold u32; pose proof (Z.div_mod n 4294967296); lia).
  by replace (n / d <? 4294967296) with true by (symmetry; by apply Z.ltb_lt).
Qed.

(** The school division by a one-word divisor. *)
Lemma short_division n d :
  0 < d ->
  let b := 4294967296 in
  n / d = (b * (n / b mod d) + n mod b) / d + b * (n / b / d).
Proof.
  intros Hd b. pose proof (Z.div_mod n b ltac:(lia)) as H1.
  pose proof (Z.div_mod (n / b) d ltac:(lia)) as H2.
  replace n with ((b * (n / b mod d) + n mod b) + b * (n / b / d) * d) at 1 by nia.
  by rewrite Z.div_add by lia.
Qed.

Lemma short_quotient_fits x r d :
  0 < d -> 0 <= x < d -> 0 <= r < 4294967296 -> (4294967296 * x + r) / d < 4294967296.
Proof. intros. apply Z.div_lt_upper_bound; nia. Qed.

(** The estimate of the long case: dividing by the divisor rounded down to its
    32 leading bits gives the quotient or one more. *)
Lemma long_estimate n d A B v :
  0 <= n < 18446744073709551616 -> A * B = 4294967296 -> 1 <= A -> 2 <= B ->
  v = d / B -> 2147483648 <= v ->
  n / d <= n / (v * B) <= n / d + 1.
Proof.
  intros Hn HAB HA HB -> Hv.
  pose proof (Z.div_mod d B ltac:(lia)) as Hd. pose proof (Z.mod_pos_bound d B ltac:(lia)) as Hr.
  remember (d / B) as v eqn:Ev. remember (d mod B) as r eqn:Er. clear Ev Er.
  assert (0 < v * B) as HD by nia. 
  split; [apply Z.div_le_compat_l; lia|].
  pose proof (Z.div_mod n d ltac:(lia)) as Hq. pose proof (Z.mod_pos_bound n d ltac:(lia)) as Hqr.
  remember (n / d) as Q eqn:EQ. remember (n mod d) as R eqn:ER.
  assert (0 <= Q) by (subst Q; apply Z.div_pos; lia). clear EQ ER.
  apply Z.lt_succ_r. replace (Z.succ (Q + 1)) with (Q + 2) by lia.
  apply Z.div_lt_upper_bound; [done|].
  (* n < (Q + 1) * d and (Q + 1) * r <= v * B *)
  assert (Q * (v * B) < 18446744073709551616) by nia.
  assert (Q + 1 <= 2 * A).
  { assert (Q < 2 * A); [|lia]. apply Z.mul_lt_mono_pos_r with (2147483648 * B); [lia|].
    assert (Q * (2147483648 * B) <= Q * (v * B)); [|lia].
    apply Z.mul_le_mono_nonneg_l; [done|]. apply Z.mul_le_mono_nonneg_r; lia. }
  assert ((Q + 1) * r <= v * B).
  { assert ((Q + 1) * r <= 2 * A * (B - 1)) by (apply Z.mul_le_mono_nonneg; lia).
    assert (2 * A * (B - 1) = 8589934592 - 2 * A) by (clear -HAB; lia).
    assert (2147483648 * B <= v * B) by (apply Z.mul_le_mono_nonneg_r; lia).
    assert (8589934592 - 2 * A <= 2147483648 * B); [|lia].
    apply Z.mul_le_mono_pos_r with B; [lia|]. pose proof (Z.square_nonneg (B - 2)) as Hsq. clear -Hsq HAB. lia. }
  replace (v * B * (Q + 2)) with (v * B + (Q + 1) * (d - r)) by (rewrite Hd; ring).
  rewrite Z.mul_sub_distr_l. lia.
Qed.

Abbreviation in_u64 n := (0 <= n < 18446744073709551616).
Abbreviation in_s64 n := (-9223372036854775808 <= n < 9223372036854775808).

Lemma udiv64_short n d :
  in_u64 n -> 0 < d < 4294967296 -> udiv64 n d = Ok (n / d).
Proof.
  intros Hn Hd. unfold udiv64. rewrite !shiftr32, (Z.div_small d) by lia. cbn [Z.eqb].
  rewrite (u32_small d) by lia.
  replace (d =? 0) with false by (symmetry; apply Z.eqb_neq; lia).
  change (u64 (Z.shiftl 1 32)) with 4294967296.
  pose proof (Z.div_pos n 4294967296 ltac:(lia) ltac:(lia)).
  pose proof (Z.div_lt_upper_bound n 4294967296 4294967296 ltac:(lia) ltac:(lia)).
  rewrite (u32_small (n / _)) by lia.
  pose proof (Z.mod_pos_bound (n / 4294967296) d ltac:(lia)) as Hm.
  pose proof (u32_range n) as Hr. rewrite (u64_small (_ * (_ mod d))) by lia.
  rewrite (u64_small (_ + u32 n)) by lia.
  pose proof (short_quotient_fits _ _ d ltac:(lia) Hm Hr) as Hf.
  rewrite divl_ok by lia. cbn. f_equal.
  pose proof (short_division n d ltac:(lia)) as Hs. cbv zeta in Hs.
  assert (n / d <= n) by (apply Z.div_le_upper_bound; nia).
  assert (0 <= (4294967296 * (n / 4294967296 mod d) + u32 n) / d) by (apply Z.div_pos; lia).
  pose proof (Z.div_pos (n / 4294967296) d ltac:(lia) ltac:(lia)).
  unfold u32 at 1 in H2. rewrite (u64_small (_ * _)), u64_small; unfold u32 in *; lia.
Qed.

(** Shifting the divisor left by its leading zeros brings its top 32 bits,
    which are those of [d / 2^(32 - s)], between 2^31 and 2^32. *)
Lemma normalized d s :
  4294967296 <= d < 18446744073709551616 -> 0 <= s <= 31 ->
  2147483648 <= d / 4294967296 * 2 ^ s < 4294967296 ->
  2 ^ s * 2 ^ (32 - s) = 4294967296 /\ 2 ^ (32 - s) = 2 * 2 ^ (31 - s) /\
  0 < 2 ^ s /\ 0 < 2 ^ (31 - s) /\ d * 2 ^ s < 18446744073709551616 /\
  d * 2 ^ s / 4294967296 = d / 2 ^ (32 - s) /\
  2147483648 <= d / 2 ^ (32 - s) /\ d / 2 ^ (32 - s) < 4294967296.
Proof.
  intros Hd Hs Hn1.
  assert (2 ^ s * 2 ^ (32 - s) = 4294967296) as HAB
    by (rewrite <-Z.pow_add_r by lia; by replace (s + (32 - s)) with 32 by lia).
  assert (2 ^ (32 - s) = 2 * 2 ^ (31 - s)) as HB
    by (rewrite <-Z.pow_succ_r by lia; f_equal; lia).
  assert (0 < 2 ^ s) as HA by (apply Z.pow_pos_nonneg; lia).
  assert (0 < 2 ^ (31 - s)) as HC by (apply Z.pow_pos_nonneg; lia).
  pose proof (Z.div_mod d 4294967296 ltac:(lia)).
  pose proof (Z.mod_pos_bound d 4294967296 ltac:(lia)).
  assert (d * 2 ^ s < 18446744073709551616) as Hds
    by (assert (d / 4294967296 < 2 ^ (32 - s)) by nia; nia).
  assert (d * 2 ^ s / 4294967296 = d / 2 ^ (32 - s)) as Hv
    by (rewrite <-HAB, (Z.mul_comm d), Z.div_mul_cancel_l by lia; done).
  split_and!; try done; rewrite <-Hv.
  - apply Z.div_le_lower_bound; nia.
  - apply Z.div_lt_upper_bound; lia.
Qed.

Lemma udiv64_long n d :
  in_u64 n -> 4294967296 <= d < 18446744073709551616 -> udiv64 n d = Ok (n / d).
Proof.
  intros Hn Hd. unfold udiv64. rewrite !shiftr32.
  assert (1 <= d / 4294967296) by (apply Z.div_le_lower_bound; lia).
  assert (d / 4294967296 < 4294967296) by (apply Z.div_lt_upper_bound; lia).
  replace (d / 4294967296 =? 0) with false by (symmetry; apply Z.eqb_neq; lia).
  destruct (Z.ltb_spec n d) as [Hlt|Hge]; [by rewrite Z.div_small by lia|].
  rewrite (u32_small (d / _)) by lia.
  destruct (nlz_spec (d / 4294967296)) as [Hs Hn1]; [lia|].
  remember (nlz (d / 4294967296)) as s eqn:Es. clear Es.
  destruct (normalized d s Hd Hs Hn1) as (HAB & HB & HA & HC & Hds & Hv & Hlo & Hhi).
  pose proof (long_estimate n d (2 ^ s) (2 ^ (32 - s)) _ Hn HAB ltac:(lia) ltac:(lia)
    eq_refl Hlo) as Hest.
  remember (d / 2 ^ (32 - s)) as v eqn:Ev.
  rewrite Z.shiftl_mul_pow2, (u64_small (d * _)), Hv, (u32_small v) by lia.
  rewrite (Z.shiftr_div_pow2 n 1) by lia. change (2 ^ 1) with 2.
  assert (0 <= n / 2) by (apply Z.div_pos; lia).
  assert (n / 2 < 9223372036854775808) by (apply Z.div_lt_upper_bound; lia).
  rewrite divl_ok; [|lia|lia|apply Z.div_lt_upper_bound; lia]. cbn -[Z.shiftr].
  rewrite Z.shiftr_div_pow2, !Z.div_div by lia.
  replace (2 * (v * 2 ^ (31 - s))) with (v * 2 ^ (32 - s)) by (rewrite HB; ring).
  replace (2 * v * 2 ^ (31 - s)) with (v * 2 ^ (32 - s)) by (rewrite HB; ring).
  remember (n / (v * 2 ^ (32 - s))) as q eqn:Eq.
  assert (1 <= n / d) by (apply Z.div_le_lower_bound; lia).
  pose proof (Z.div_mod n d ltac:(lia)) as Hq. pose proof (Z.mod_pos_bound n d ltac:(lia)) as Hqr.
  assert (n / d <= n) by (apply Z.div_le_upper_bound; nia).
  f_equal. rewrite (u64_small (q - 1)) by lia.
  rewrite (u64_small (_ * d)) by nia. rewrite u64_small by nia.
  destruct (Z.ltb_spec (n - (q - 1) * d) d); nia.
Qed.

Lemma udiv64_ok n d : in_u64 n -> 0 < d < 18446744073709551616 -> udiv64 n d = Ok (n / d).
Proof.
  intros Hn Hd. destruct (Z.lt_ge_cases d 4294967296).
  - apply udiv64_short; lia.
  - apply udiv64_long; lia.
Qed.

(** ** Signed quotient and remainders *)

Lemma s64_cong z : exists k, s64 z = z + k * 18446744073709551616.
Proof.
  exists (- ((z + 9223372036854775808) / 18446744073709551616)). unfold s64.
  rewrite Z.mod_eq by lia. lia.
Qed.

Lemma s64_shift z k : s64 (z + k * 18446744073709551616) = s64 z.
Proof.
  unfold s64. f_equal. rewrite <-(Z.mod_add (z + _) k) by lia. f_equal. lia.
Qed.

Lemma u64_cong z : exists k, u64 z = z + k * 18446744073709551616.
Proof.
  exists (- (z / 18446744073709551616)). unfold u64. rewrite Z.mod_eq by lia. lia.
Qed.

Lemma abs_u64 n : in_s64 n -> (if 0 <=? n then u64 n else u64 (- u64 n)) = Z.abs n.
Proof.
  intros Hn. destruct (Z.leb_spec 0 n).
  - rewrite u64_small; lia.
  - unfold u64. rewrite <-(Z.mod_add n 1), (Z.mod_small (n + _)) by lia.
    rewrite <-(Z.mod_add _ 1), Z.mod_small by lia. lia.
Qed.

Lemma sdiv64_ok n d : in_s64 n -> in_s64 d -> d <> 0 -> sdiv64 n d = Ok (s64 (Z.quot n d)).
Proof.
  intros Hn Hd Hd0. unfold sdiv64. rewrite !abs_u64 by done.
  rewrite udiv64_ok by lia. cbn -[s64 Z.ltb]. f_equal. rewrite Z.quot_div by done.
  remember (Z.abs n / Z.abs d) as q eqn:Eq.
  assert (n = 0 -> q = 0) by (intros ->; subst q; by apply Z.div_0_l; lia).
  assert (forall z, s64 (- s64 z) = s64 (- z)) as Hneg.
  { intros z. destruct (s64_cong z) as [k ->].
    replace (- (z + k * 18446744073709551616)) with (- z + - k * 18446744073709551616) by lia.
    apply s64_shift. }
  rewrite Hneg. destruct (Z.ltb_spec n 0), (Z.ltb_spec d 0); cbn [Bool.eqb]; f_equal;
    rewrite ?(Z.sgn_neg n), ?(Z.sgn_neg d), ?(Z.sgn_pos d) by lia;
    destruct (decide (n = 0)) as [->|]; rewrite ?(Z.sgn_pos n) by lia; lia.
Qed.

Lemma smod64_ok n d : in_s64 n -> in_s64 d -> d <> 0 -> smod64 n d = Ok (s32 (Z.rem n d)).
Proof.
  intros Hn Hd Hd0. unfold smod64. rewrite sdiv64_ok by done. cbn -[s64 s32]. do 2 f_equal.
  destruct (s64_cong (Z.quot n d)) as [k ->].
  destruct (s64_cong (d * (Z.quot n d + k * 18446744073709551616))) as [l ->].
  pose proof (Z.quot_rem' n d) as H. pose proof (Z.rem_bound_abs n d Hd0) as Hr.
  replace (n - _) with (Z.rem n d + (- (d * k) - l) * 18446744073709551616)
    by (rewrite H at 2; ring).
  rewrite s64_shift. apply s64_small. lia.
Qed.

Lemma umod64_ok n d :
  in_u64 n -> 0 < d < 18446744073709551616 -> umod64 n d = Ok (u32 (n mod d)).
Proof.
  intros Hn Hd. unfold umod64. rewrite udiv64_ok by done. cbn -[u64 u32]. do 2 f_equal.
  pose proof (Z.div_mod n d ltac:(lia)). pose proof (Z.mod_pos_bound n d ltac:(lia)).
  pose proof (Z.div_pos n d ltac:(lia) ltac:(lia)).
  rewrite (u64_small (d * _)) by nia. rewrite u64_small; nia.
Qed.

(** ** Properties *)

(** C39: the unsigned division returns the mathematical quotient for every
    pair of 64-bit operands with a divisor that is not zero; the [divl]
    instructions it executes never trap. *)
Theorem udivdi3_correct n d :
  in_u64 n -> 0 < d < 18446744073709551616 -> __udivdi3 n d = Ok (n / d).
Proof. apply udiv64_ok. Qed.

Lemma udivdi3_correct_witness :
  __udivdi3 18446744073709551615 4294967297 = Ok (18446744073709551615 / 4294967297).
Proof. apply udivdi3_correct; lia. Defined.

(** the signed division returns the quotient truncated towards zero, at
    64 bits: the one quotient that does not fit, of the least integer by -1,
    wraps around. *)
Theorem divdi3_correct n d :
  in_s64 n -> in_s64 d -> d <> 0 ->
  __divdi3 n d = Ok (s64 (Z.quot n d)) /\
  (~ (n = -9223372036854775808 /\ d = -1) -> s64 (Z.quot n d) = Z.quot n d).
Proof.
  intros Hn Hd Hd0. split; [by apply sdiv64_ok|]. intros Hne. apply s64_small.
  pose proof (Z.quot_div n d Hd0) as Hq. rewrite Hq.
  assert (0 <= Z.abs n / Z.abs d) by (apply Z.div_pos; lia).
  assert (Z.abs d = 1 \/ Z.abs n / Z.abs d < 9223372036854775808) as [H1|].
  { destruct (decide (Z.abs d = 1)); [by left|right]. apply Z.div_lt_upper_bound; lia. }
  - rewrite H1, Z.div_1_r. destruct (decide (d = 1)) as [->|]; [lia|].
    assert (d = -1) as -> by lia. lia.
  - pose proof (Z.sgn_spec n). pose proof (Z.sgn_spec d). nia.
Qed.

Lemma divdi3_correct_witness :
  __divdi3 (-7) 2 = Ok (s64 (Z.quot (-7) 2)) /\ s64 (Z.quot (-7) 2) = -3.
Proof.
  destruct (divdi3_correct (-7) 2) as [H1 H2]; [lia..|].
  split; [exact H1|]. rewrite H2; [reflexivity|lia].
Defined.

(** the remainder routines return the remainder cut down to 32 bits,
    since umod64 and smod64 return 32-bit integers: the result is right
    exactly when the remainder fits in 32 bits. *)
Theorem moddi3_truncated n d :
  (in_u64 n -> 0 < d < 18446744073709551616 ->
   __umoddi3 n d = Ok (u32 (n mod d)) /\
   (__umoddi3 n d = Ok (n mod d) <-> n mod d < 4294967296)) /\
  (in_s64 n -> in_s64 d -> d <> 0 ->
   __moddi3 n d = Ok (s32 (Z.rem n d)) /\
   (__moddi3 n d = Ok (Z.rem n d) <-> -2147483648 <= Z.rem n d < 2147483648)).
Proof.
  assert (forall z, -2147483648 <= s32 z < 2147483648) as Hs32.
  { intros z. unfold s32. pose proof (Z.mod_pos_bound (z + 2147483648) 4294967296). lia. }
  split; intros.
  - unfold __umoddi3. rewrite umod64_ok by done. cbn -[u32 u64].
    pose proof (u32_range (n mod d)). rewrite u64_small by lia. split; [done|].
    pose proof (Z.mod_pos_bound n d ltac:(lia)).
    split; [intros [= E]; lia|intros; by rewrite u32_small by lia].
  - unfold __moddi3. rewrite smod64_ok by done. cbn -[s32 s64].
    specialize (Hs32 (Z.rem n d)). rewrite s64_small by lia. split; [done|].
    split; [intros [= E]; lia|intros; by rewrite s32_small by lia].
Qed.

Lemma moddi3_truncated_witness :
  __umoddi3 4294967296 8589934592 = Ok 0 /\ 4294967296 mod 8589934592 = 4294967296 /\
  __moddi3 (-7) 2 = Ok (-1).
Proof.
  destruct (moddi3_truncated 4294967296 8589934592) as [H _].
  destruct (moddi3_truncated (-7) 2) as [_ G].
  destruct H as [H _]; [lia..|]. destruct G as [G _]; [lia..|].
  split; [rewrite H; reflexivity|]. split; [reflexivity|]. rewrite G. reflexivity.
Defined.
