(* ===== verification/Bytes.v ===== *)
(** * Words in memory and on disk

    The processor is little-endian: a structure of 32-bit words written to a
    sector, and a sector read into such a structure, are related by these
    functions. *)

From S2P Require Import Prelude.

Definition le_bytes (w : Z) : list Z :=
  [w mod 256; w / 256 mod 256; w / 65536 mod 256; w / 16777216 mod 256].

Definition words_bytes (ws : list Z) : list Z := flat_map le_bytes ws.

Fixpoint bytes_words (bs : list Z) : list Z :=
  match bs with
  | b0 :: b1 :: b2 :: b3 :: bs => b0 + 256 * b1 + 65536 * b2 + 16777216 * b3 :: bytes_words bs
  | _ => []
  end.

Definition is_byte (b : Z) : Prop := 0 <= b < 256.
Definition is_word (w : Z) : Prop := 0 <= w < 4294967296.

Lemma le_bytes_word w :
  is_word w ->
  w mod 256 + 256 * (w / 256 mod 256) + 65536 * (w / 65536 mod 256)
    + 16777216 * (w / 16777216 mod 256) = w.
Proof.
  intros [Hw1 Hw2]. 
  replace 65536 with (256 * 256) by done. replace 16777216 with (256 * 256 * 256) by done.
  rewrite <-!Z.div_div by lia.
  rewrite !Z.mod_eq by lia.
  assert (w / 256 / 256 / 256 / 256 = 0) as ->; [|lia].
  rewrite !Z.div_div by lia. apply Z.div_small. lia.
Qed.

(** Writing cuts a value down to a word. *)
Lemma le_bytes_u32 w : le_bytes w = le_bytes (u32 w).
Proof.
  unfold le_bytes, u32. rewrite (Z.mod_eq w 4294967296) by lia.
  replace (w - 4294967296 * (w / 4294967296)) with (w + - (w / 4294967296) * 4294967296) by lia.
  remember (- (w / 4294967296)) as k eqn:E. clear E.
  replace (w + k * 4294967296) with (w + k * 16777216 * 256) at 1 by lia.
  replace (w + k * 4294967296) with (w + k * 65536 * 256 * 256) at 1 by lia.
  replace (w + k * 4294967296) with (w + k * 256 * 256 * 65536) at 1 by lia.
  replace (w + k * 4294967296) with (w + k * 256 * 16777216) at 1 by lia.
  rewrite (Z.div_add w (k * 65536 * 256)), (Z.div_add w (k * 256 * 256)),
    (Z.div_add w (k * 256) 16777216), !Z.mod_add by lia. done.
Qed.

Lemma bytes_words_bytes ws : bytes_words (words_bytes ws) = map u32 ws.
Proof.
  induction ws as [|w ws IH]; [done|]. unfold words_bytes. cbn [flat_map].
  rewrite le_bytes_u32. cbn [le_bytes app bytes_words map].
  by rewrite le_bytes_word, (IH : bytes_words (flat_map _ _) = _) by apply u32_range.
Qed.

Lemma length_words_bytes ws : length (words_bytes ws) = (4 * length ws)%nat.
Proof. induction ws as [|w ws IH]; [done|]. simpl. lia. Qed.

Lemma words_bytes_byte ws : Forall is_byte (words_bytes ws).
Proof.
  assert (forall z, is_byte (z mod 256)) by (intros z; by apply Z.mod_pos_bound).
  induction ws as [|w ws IH]; simpl; [constructor|]. repeat constructor; try done; apply H.
Qed.

Lemma length_bytes_words bs k : length bs = (4 * k)%nat -> length (bytes_words bs) = k.
Proof.
  revert bs. induction k as [|k IH]; intros l Hl.
  - by rewrite (nil_length_inv l) by lia.
  - destruct l as [|a [|b [|c [|d l]]]]; simpl in Hl; try lia. simpl. rewrite IH; lia.
Qed.

Lemma le_bytes_join a b c d :
  is_byte a -> is_byte b -> is_byte c -> is_byte d ->
  le_bytes (a + 256 * b + 65536 * c + 16777216 * d) = [a; b; c; d].
Proof.
  unfold is_byte. intros Ha Hb Hc Hd. unfold le_bytes.
  replace (a + 256 * b + 65536 * c + 16777216 * d)
    with (a + (b + (c + d * 256) * 256) * 256) by ring.
  replace 65536 with (256 * 256) by done. replace 16777216 with (256 * 256 * 256) by done.
  rewrite <-!Z.div_div by lia.
  repeat (rewrite ?Z.div_add, ?Z.mod_add, ?(Z.div_small a 256), ?(Z.div_small b 256),
    ?(Z.div_small c 256), ?Z.add_0_l by lia).
  by rewrite !Z.mod_small by lia.
Qed.

Lemma words_bytes_words bs k :
  length bs = (4 * k)%nat -> Forall is_byte bs -> words_bytes (bytes_words bs) = bs.
Proof.
  intros Hl. revert Hl. revert bs. induction k as [|k IH]; intros l Hl Hb.
  - by rewrite (nil_length_inv l) by lia.
  - destruct l as [|a [|b [|c [|d l]]]]; simpl in Hl; try lia.
    decompose_Forall_hyps. 
    change (le_bytes (a + 256 * b + 65536 * c + 16777216 * d) ++ words_bytes (bytes_words l)
            = [a; b; c; d] ++ l).
    rewrite le_bytes_join by done. f_equal. apply IH; [lia|done].
Qed.

Lemma bytes_words_word bs : Forall is_byte bs -> Forall is_word (bytes_words bs).
Proof.
  intros Hb. remember (length bs) as n eqn:Hn. revert bs Hb Hn.
  induction (lt_wf n) as [n _ IH]. intros bs Hb ->.
  destruct bs as [|a [|b [|c [|d bs]]]]; try constructor.
  - decompose_Forall_hyps. unfold is_byte, is_word in *. lia.
  - decompose_Forall_hyps. eapply IH; [|done|done]. simpl. lia.
Qed.
