(* ===== verification/Block.v ===== *)
(** * [devices/block.c]: block devices

    A device is its type, its size in sectors, its statistics and the contents
    of its sectors.  The driver behind [ops] is an ideal disk: a sector reads
    as it was written last. *)

From S2P Require Import Prelude.

Definition BLOCK_SECTOR_SIZE : Z := 512.

Inductive block_type :=
  | BLOCK_KERNEL
  | BLOCK_FILESYS
  | BLOCK_SCRATCH
  | BLOCK_SWAP
  | BLOCK_RAW
  | BLOCK_FOREIGN.

#[export] Instance block_type_eq_dec : EqDecision block_type.
Proof. solve_decision. Defined.

Record block := Block {
  blk_type : block_type;
  blk_size : Z;
  sectors : list (list Z);
  read_cnt : Z;
  write_cnt : Z
}.

(** [ops->read] and [ops->write] of the driver. *)
Definition ops_read (sector : Z) : M block (list Z) := fun b =>
  match sectors b !! Z.to_nat sector with Some d => Ok (d, b) | None => Err EFault end.

Definition ops_write (sector : Z) (data : list Z) : M block unit := fun b =>
  Ok (tt, Block (blk_type b) (blk_size b) (<[Z.to_nat sector := data]> (sectors b))
            (read_cnt b) (write_cnt b)).

Definition check_sector (sector : Z) : M block unit :=
  b ← get;
  if blk_size b <=? sector then fail EPanic else mret tt.

Definition block_read (sector : Z) : M block (list Z) :=
  check_sector sector;;
  d ← ops_read sector;
  b ← get;
  put (Block (blk_type b) (blk_size b) (sectors b) (u64 (read_cnt b + 1)) (write_cnt b));;
  mret d.

Definition block_write (sector : Z) (data : list Z) : M block unit :=
  check_sector sector;;
  b ← get;
  ASSERT (negb (bool_decide (blk_type b = BLOCK_FOREIGN)));;
  ops_write sector data;;
  b ← get;
  put (Block (blk_type b) (blk_size b) (sectors b) (read_cnt b) (u64 (write_cnt b + 1))).

Definition block_size (b : block) : Z := blk_size b.

(** A device as the kernel attaches it: every sector is present and has 512
    bytes. *)
Record blk_wf (b : block) : Prop := {
  blk_native : blk_type b <> BLOCK_FOREIGN;
  blk_len : Z.of_nat (length (sectors b)) = blk_size b;
  blk_bytes : Forall (fun d => length d = 512%nat) (sectors b)
}.

Definition sector_of (b : block) (i : Z) : list Z := default [] (sectors b !! Z.to_nat i).

Lemma block_read_ok b i :
  blk_wf b -> 0 <= i < blk_size b ->
  exists b', block_read i b = Ok (sector_of b i, b') /\
             sectors b' = sectors b /\ blk_type b' = blk_type b /\ blk_size b' = blk_size b.
Proof.
  intros [H1 H2 H3] Hi. unfold block_read, check_sector, ops_read, sector_of.
  destruct (lookup_lt_is_Some_2 (sectors b) (Z.to_nat i)) as [d E]; [lia|].
  replace (blk_size b <=? i) with false by (symmetry; apply Z.leb_gt; lia).
  unfold mbind, M_bind, get, put, mret, M_ret.
  replace (blk_size b <=? i) with false by (symmetry; apply Z.leb_gt; lia).
  rewrite E. eexists. split; [reflexivity|]. done.
Qed.

Lemma block_read_panic b i : blk_size b <= i -> block_read i b = Err EPanic.
Proof.
  intros Hi. unfold block_read, check_sector, mbind, M_bind, get.
  by replace (blk_size b <=? i) with true by (symmetry; apply Z.leb_le; lia).
Qed.

Lemma block_write_panic b i d : blk_size b <= i -> block_write i d b = Err EPanic.
Proof.
  intros Hi. unfold block_write, check_sector, mbind, M_bind, get.
  by replace (blk_size b <=? i) with true by (symmetry; apply Z.leb_le; lia).
Qed.

Lemma block_write_ok b i d :
  blk_wf b -> 0 <= i < blk_size b -> length d = 512%nat ->
  exists b', block_write i d b = Ok (tt, b') /\ blk_wf b' /\ blk_size b' = blk_size b /\
             sectors b' = <[Z.to_nat i := d]> (sectors b).
Proof.
  intros [H1 H2 H3] Hi Hd. unfold block_write, check_sector, ops_write.
  unfold mbind, M_bind, get, put, mret, M_ret.
  replace (blk_size b <=? i) with false by (symmetry; apply Z.leb_gt; lia).
  rewrite bool_decide_eq_false_2 by done. cbn. eexists. split; [reflexivity|].
  split; [|done]. split; simpl; [done|by rewrite length_insert|by apply Forall_insert].
Qed.

Lemma sector_of_write b b' i d j :
  blk_wf b -> 0 <= i < blk_size b -> 0 <= j -> sectors b' = <[Z.to_nat i := d]> (sectors b) ->
  sector_of b' j = if j =? i then d else sector_of b j.
Proof.
  intros [H1 H2 H3] Hi Hj E. unfold sector_of. rewrite E.
  destruct (Z.eqb_spec j i) as [->|Hne].
  - rewrite list_lookup_insert_eq; [done|lia].
  - by rewrite list_lookup_insert_ne by lia.
Qed.
