(* ===== verification/FsModel.v ===== *)
(** * The file system: [filesys/inode.c], [filesys/free-map.c], [filesys/file.c]

    One state holds the device, the free map, the open inodes and files.  The
    three source files call each other in a cycle: writing an inode may grow
    it, growing allocates sectors, allocating writes the free map to its file,
    which is again a write to an inode.  The operations are therefore written
    over the recursive call [write_at], and [inode_write_at] ties the knot with
    a bound on the depth of the cycle.

    [malloc] and [calloc] succeed or fail as [oracle] says for the [tick]-th
    request; an address is used once.  Memory that the code reads before it is
    written (locals without an initialiser) has the arbitrary contents
    [junk_ptr] and [junk_block].  Locks are those of a single thread of
    control: acquiring a held lock fails the assertion of [lock_acquire]. *)

From S2P Require Import Prelude Bitmap Bytes Block.

Definition INODE_MAGIC : Z := 1229868868.
Definition INDEX_BLOCK_SIZE : Z := 128.
Definition DIRECT_BLOCK_SIZE : Z := 12.
Definition FIRST_LEV_INDEX : Z := 10.
Definition SECOND_LEV_INDEX : Z := 11.
Definition ERROR : Z := -1.
Definition FREE_MAP_SECTOR : Z := 0.
Definition ROOT_DIR_SECTOR : Z := 1.

(** ** Data *)

(** [struct inode_disk]; [sub_dir] is its byte with the padding behind it. *)
Record inode_disk := InodeDisk {
  dlength : Z;
  magic : Z;
  unused : list Z;
  ptr : list Z;
  parent : Z;
  direct_level_index : Z;
  first_level_index : Z;
  second_level_index : Z;
  sub_dir : Z
}.

(** [struct inode], without the list element. *)
Record inode := Inode {
  open_cnt : Z;
  deny_write_cnt : Z;
  removed : bool;
  sector : Z;
  data : inode_disk;
  locked : bool
}.

(** [struct file] *)
Record file := File { finode : Z; pos : Z; deny_write : bool }.

Record fs := Fs {
  fs_device : block;
  free_map : bitmap;
  free_map_file : Z;
  inodes : gmap Z inode;
  open_inodes : list Z;
  files : gmap Z file;
  fresh : Z;
  oracle : nat -> bool;
  tick : nat;
  junk_ptr : list Z;
  junk_block : list Z
}.

(** Structures as sectors. *)
Definition encode_inode (d : inode_disk) : list Z :=
  words_bytes (u32 (dlength d) :: magic d :: unused d ++ ptr d ++
    [parent d; direct_level_index d; first_level_index d; second_level_index d; sub_dir d]).

Definition decode_inode (bs : list Z) : inode_disk :=
  let ws := bytes_words bs in
  let w i := nth i ws 0 in
  InodeDisk (s32 (w 0%nat)) (w 1%nat) (take 109 (drop 2 ws)) (take 12 (drop 111 ws))
    (w 123%nat) (w 124%nat) (w 125%nat) (w 126%nat) (w 127%nat).

(** [struct indexed_block] is its array of 128 words. *)
Definition encode_block (ps : list Z) : list Z := words_bytes ps.
Definition decode_block (bs : list Z) : list Z := bytes_words bs.

Definition is_sub_dir (d : inode_disk) : bool := negb (sub_dir d mod 256 =? 0).

(** ** Access to the state *)

Definition set_device (s : fs) b := Fs b (free_map s) (free_map_file s) (inodes s)
  (open_inodes s) (files s) (fresh s) (oracle s) (tick s) (junk_ptr s) (junk_block s).
Definition set_map (s : fs) b := Fs (fs_device s) b (free_map_file s) (inodes s)
  (open_inodes s) (files s) (fresh s) (oracle s) (tick s) (junk_ptr s) (junk_block s).
Definition set_map_file (s : fs) p := Fs (fs_device s) (free_map s) p (inodes s)
  (open_inodes s) (files s) (fresh s) (oracle s) (tick s) (junk_ptr s) (junk_block s).
Definition set_inodes (s : fs) im := Fs (fs_device s) (free_map s) (free_map_file s) im
  (open_inodes s) (files s) (fresh s) (oracle s) (tick s) (junk_ptr s) (junk_block s).
Definition set_open (s : fs) l := Fs (fs_device s) (free_map s) (free_map_file s) (inodes s)
  l (files s) (fresh s) (oracle s) (tick s) (junk_ptr s) (junk_block s).
Definition set_files (s : fs) fl := Fs (fs_device s) (free_map s) (free_map_file s) (inodes s)
  (open_inodes s) fl (fresh s) (oracle s) (tick s) (junk_ptr s) (junk_block s).
Definition set_heap (s : fs) p t := Fs (fs_device s) (free_map s) (free_map_file s) (inodes s)
  (open_inodes s) (files s) p (oracle s) t (junk_ptr s) (junk_block s).

Definition on_device {A} (m : M block A) : M fs A := fun s =>
  match m (fs_device s) with Ok (a, b) => Ok (a, set_device s b) | Err e => Err e end.
Definition on_map {A} (m : M bitmap A) : M fs A := fun s =>
  match m (free_map s) with Ok (a, b) => Ok (a, set_map s b) | Err e => Err e end.

Definition ld_inode (p : Z) : M fs inode := fun s =>
  match inodes s !! p with Some i => Ok (i, s) | None => Err EFault end.
Definition st_inode (p : Z) (i : inode) : M fs unit := fun s =>
  match inodes s !! p with
  | Some _ => Ok (tt, set_inodes s (<[p := i]> (inodes s)))
  | None => Err EFault
  end.
Definition ld_file (p : Z) : M fs file := fun s =>
  match files s !! p with Some f => Ok (f, s) | None => Err EFault end.
Definition st_file (p : Z) (f : file) : M fs unit := fun s =>
  match files s !! p with
  | Some _ => Ok (tt, set_files s (<[p := f]> (files s)))
  | None => Err EFault
  end.

(** [malloc] and [calloc]: a new address, 0 for a null pointer. *)
Definition malloc : M fs Z := fun s =>
  if oracle s (tick s) then Ok (fresh s, set_heap s (fresh s + 1) (S (tick s)))
  else Ok (0, set_heap s (fresh s) (S (tick s))).

Definition with_data (i : inode) (d : inode_disk) : inode :=
  Inode (open_cnt i) (deny_write_cnt i) (removed i) (sector i) d (locked i).
Definition with_length (d : inode_disk) l := InodeDisk l (magic d) (unused d) (ptr d) (parent d)
  (direct_level_index d) (first_level_index d) (second_level_index d) (sub_dir d).
Definition with_ptr (d : inode_disk) ps := InodeDisk (dlength d) (magic d) (unused d) ps (parent d)
  (direct_level_index d) (first_level_index d) (second_level_index d) (sub_dir d).
Definition with_index (d : inode_disk) a b c := InodeDisk (dlength d) (magic d) (unused d) (ptr d)
  (parent d) a b c (sub_dir d).

Definition ld_data (p : Z) : M fs inode_disk := i ← ld_inode p; mret (data i).
Definition upd_data (p : Z) (f : inode_disk -> inode_disk) : M fs unit :=
  i ← ld_inode p; st_inode p (with_data i (f (data i))).

(** [a[i]] of an array. *)
Definition aref (l : list Z) (i : Z) : M fs Z :=
  if i <? 0 then fail EFault else lift_opt EFault (l !! Z.to_nat i).

(** Bytes [from] to [from + n] of a buffer. *)
Definition slice (l : list Z) (from n : Z) : M fs (list Z) :=
  let r := take (Z.to_nat n) (drop (Z.to_nat from) l) in
  if Z.of_nat (length r) =? n then mret r else fail EFault.

(** [memcpy (dst + ofs, src, length src)] *)
Definition blit (dst : list Z) (ofs : Z) (src : list Z) : list Z :=
  take (Z.to_nat ofs) dst ++ src ++ drop (Z.to_nat ofs + length src) dst.

Definition zeros : list Z := repeat 0 512.

(** ** Lengths and the sector of a byte *)

Definition bytes_to_sectors (size : Z) : Z :=
  u32 (Z.quot (s32 (size + BLOCK_SECTOR_SIZE - 1)) BLOCK_SECTOR_SIZE).

Definition inode_length (p : Z) : M fs Z := d ← ld_data p; mret (dlength d).

Definition byte_to_sector (p : Z) (pos : Z) : M fs Z :=
  len ← inode_length p;
  if pos <? len then
    d ← ld_data p;
    let pos := Z.quot pos BLOCK_SECTOR_SIZE in
    if pos <? FIRST_LEV_INDEX then aref (ptr d) pos
    else
      let pos := pos - FIRST_LEV_INDEX in
      if pos <? INDEX_BLOCK_SIZE then
        x ← aref (ptr d) FIRST_LEV_INDEX;
        blk ← on_device (block_read x);
        aref (decode_block blk) pos
      else
        let pos := pos - INDEX_BLOCK_SIZE in
        if pos <? INDEX_BLOCK_SIZE * INDEX_BLOCK_SIZE then
          let off := Z.rem pos INDEX_BLOCK_SIZE in
          let pos := Z.quot pos INDEX_BLOCK_SIZE in
          x ← aref (ptr d) SECOND_LEV_INDEX;
          second_block ← on_device (block_read x);
          y ← aref (decode_block second_block) pos;
          blk ← on_device (block_read y);
          aref (decode_block blk) off
        else fail EFault  (* no return statement is reached *)
  else mret (u32 ERROR).

(** ** Reading *)

(** [bounce] says whether the bounce buffer has been allocated. *)
Fixpoint inode_read_loop (fuel : nat) (p : Z) (buffer : list Z) (bounce : bool)
    (size offset bytes_read : Z) : M fs (Z * list Z) :=
  match fuel with
  | O => fail EFuel
  | S fuel =>
      if 0 <? size then
        sector_idx ← byte_to_sector p offset;
        len ← inode_length p;
        let sector_ofs := Z.rem offset BLOCK_SECTOR_SIZE in
        let inode_left := s32 (len - offset) in
        let sector_left := BLOCK_SECTOR_SIZE - sector_ofs in
        let min_left := if inode_left <? sector_left then inode_left else sector_left in
        let chunk_size := if size <? min_left then size else min_left in
        if chunk_size <=? 0 then mret (bytes_read, buffer)
        else if (sector_ofs =? 0) && (chunk_size =? BLOCK_SECTOR_SIZE) then
          blk ← on_device (block_read sector_idx);
          inode_read_loop fuel p (buffer ++ blk) bounce
            (size - chunk_size) (offset + chunk_size) (bytes_read + chunk_size)
        else
          a ← (if bounce then mret 1 else malloc);
          if a =? 0 then mret (bytes_read, buffer)
          else
            blk ← on_device (block_read sector_idx);
            chunk ← slice blk sector_ofs chunk_size;
            inode_read_loop fuel p (buffer ++ chunk) true
              (size - chunk_size) (offset + chunk_size) (bytes_read + chunk_size)
      else mret (bytes_read, buffer)
  end.

(** Returns the count and the bytes stored in the caller's buffer.  Every
    iteration takes at least one byte off [size]. *)
Definition inode_read_at (p : Z) (size offset : Z) : M fs (Z * list Z) :=
  inode_read_loop (S (Z.to_nat size)) p [] false size offset 0.

(** ** Operations over the recursive call *)

Section Cycle.
Variable write_at : Z -> list Z -> Z -> Z -> M fs Z.

Definition file_write_at_ (fp : Z) (buffer : list Z) (size file_ofs : Z) : M fs Z :=
  f ← ld_file fp; write_at (finode f) buffer size file_ofs.

Definition bitmap_write_ (fp : Z) : M fs bool :=
  s ← get;
  let size := s32 (byte_cnt (bit_cnt (free_map s))) in
  n ← file_write_at_ fp (words_bytes (bits (free_map s))) size 0;
  mret (n =? size).

(** [Some sector] is stored through [sectorp], with the result [true]. *)
Definition free_map_allocate_ (cnt : Z) : M fs (option Z) :=
  sector ← on_map (bitmap_scan_and_flip 0 cnt false);
  s ← get;
  sector ←
    (if negb (sector =? BITMAP_ERROR) && negb (free_map_file s =? 0) then
       ok ← bitmap_write_ (free_map_file s);
       if negb ok then
         on_map (bitmap_set_multiple sector cnt false);; mret BITMAP_ERROR
       else mret sector
     else mret sector);
  mret (if sector =? BITMAP_ERROR then None else Some sector).

Definition free_map_release_ (sector cnt : Z) : M fs unit :=
  a ← on_map (bitmap_all sector cnt);
  ASSERT a;;
  on_map (bitmap_set_multiple sector cnt false);;
  s ← get;
  bitmap_write_ (free_map_file s);;
  mret tt.

(** [free_map_allocate (1, &arr[index]); block_write (fs_device, arr[index], zeros);] *)
Definition store_at (arr : list Z) (index : Z) (o : option Z) : M fs (list Z) :=
  aref arr index;;
  mret match o with Some x => <[Z.to_nat index := x]> arr | None => arr end.

(** The loop over the direct pointers; at most [n] more are below
    FIRST_LEV_INDEX. *)
Fixpoint grow_direct_loop (n : nat) (p index sectors : Z) : M fs (Z * Z) :=
  match n with
  | O => mret (index, sectors)
  | S n =>
      if negb (sectors =? 0) then
        o ← free_map_allocate_ 1;
        d ← ld_data p;
        ps ← store_at (ptr d) index o;
        upd_data p (fun d => with_ptr d ps);;
        x ← aref ps index;
        on_device (block_write x zeros);;
        grow_direct_loop n p (index + 1) (u32 (sectors - 1))
      else mret (index, sectors)
  end.

(** The loop over a block of pointers on the stack. *)
Fixpoint grow_block_loop (n : nat) (blk : list Z) (index sectors : Z) : M fs (list Z * Z * Z) :=
  match n with
  | O => mret (blk, index, sectors)
  | S n =>
      if negb (sectors =? 0) then
        o ← free_map_allocate_ 1;
        blk ← store_at blk index o;
        x ← aref blk index;
        on_device (block_write x zeros);;
        grow_block_loop n blk (index + 1) (u32 (sectors - 1))
      else mret (blk, index, sectors)
  end.

Definition first_indir_alloc_ (sectors p : Z) : M fs Z :=
  d ← ld_data p;
  s ← get;
  index_block ←
    (if first_level_index d =? 0 then
       o ← free_map_allocate_ 1;
       d ← ld_data p;
       ps ← store_at (ptr d) FIRST_LEV_INDEX o;
       upd_data p (fun d => with_ptr d ps);;
       mret (junk_block s)
     else
       x ← aref (ptr d) FIRST_LEV_INDEX;
       blk ← on_device (block_read x);
       mret (decode_block blk));
  d ← ld_data p;
  let index := s32 (first_level_index d) in
  r ← grow_block_loop (Z.to_nat (INDEX_BLOCK_SIZE - index)) index_block index sectors;
  let '(index_block, index, sectors) := r in
  upd_data p (fun d => with_index d (direct_level_index d) (u32 index) (second_level_index d));;
  d ← ld_data p;
  x ← aref (ptr d) FIRST_LEV_INDEX;
  on_device (block_write x (encode_block index_block));;
  (if first_level_index d =? INDEX_BLOCK_SIZE then
     upd_data p (fun d => with_index d (u32 (direct_level_index d + 1)) 0 (second_level_index d))
   else mret tt);;
  mret sectors.

Definition second_indir_alloc_deep_ (sectors p : Z) (second_block : list Z)
    : M fs (Z * list Z) :=
  d ← ld_data p;
  s ← get;
  r ←
    (if second_level_index d =? 0 then
       o ← free_map_allocate_ 1;
       second_block ← store_at second_block (first_level_index d) o;
       mret (second_block, junk_block s)
     else
       x ← aref second_block (first_level_index d);
       blk ← on_device (block_read x);
       mret (second_block, decode_block blk));
  let '(second_block, first_block) := r in
  d ← ld_data p;
  let index := s32 (second_level_index d) in
  r ← grow_block_loop (Z.to_nat (INDEX_BLOCK_SIZE - index)) first_block index sectors;
  let '(first_block, index, sectors) := r in
  upd_data p (fun d => with_index d (direct_level_index d) (first_level_index d) (u32 index));;
  d ← ld_data p;
  x ← aref second_block (first_level_index d);
  on_device (block_write x (encode_block first_block));;
  (if second_level_index d =? INDEX_BLOCK_SIZE then
     upd_data p (fun d => with_index d (direct_level_index d) (u32 (first_level_index d + 1)) 0)
   else mret tt);;
  mret (sectors, second_block).

Fixpoint second_indir_loop (fuel : nat) (sectors p : Z) (second_block : list Z)
    : M fs (Z * list Z) :=
  match fuel with
  | O => fail EFuel
  | S fuel =>
      d ← ld_data p;
      if first_level_index d <? INDEX_BLOCK_SIZE then
        r ← second_indir_alloc_deep_ sectors p second_block;
        let '(sectors, second_block) := r in
        if sectors =? 0 then mret (sectors, second_block)
        else second_indir_loop fuel sectors p second_block
      else mret (sectors, second_block)
  end.

(** Every iteration either fills a block, which advances the first level
    index, or ends the loop. *)
Definition second_indir_alloc_ (sectors p : Z) : M fs Z :=
  d ← ld_data p;
  s ← get;
  second_block ←
    (if (first_level_index d =? 0) && (second_level_index d =? 0) then
       o ← free_map_allocate_ 1;
       d ← ld_data p;
       ps ← store_at (ptr d) SECOND_LEV_INDEX o;
       upd_data p (fun d => with_ptr d ps);;
       mret (junk_block s)
     else
       x ← aref (ptr d) SECOND_LEV_INDEX;
       blk ← on_device (block_read x);
       mret (decode_block blk));
  r ← second_indir_loop (S (Z.to_nat INDEX_BLOCK_SIZE)) sectors p second_block;
  let '(sectors, second_block) := r in
  d ← ld_data p;
  x ← aref (ptr d) SECOND_LEV_INDEX;
  on_device (block_write x (encode_block second_block));;
  mret sectors.

Definition inode_grow_ (disk_length p : Z) : M fs Z :=
  len ← inode_length p;
  let sectors := u32 (bytes_to_sectors disk_length - bytes_to_sectors len) in
  if sectors =? 0 then mret disk_length
  else
    d ← ld_data p;
    let index := s32 (direct_level_index d) in
    r ← grow_direct_loop (Z.to_nat (FIRST_LEV_INDEX - index)) p index sectors;
    let '(index, sectors) := r in
    upd_data p (fun d =>
      with_index d (u32 index) (first_level_index d) (second_level_index d));;
    if sectors =? 0 then mret disk_length
    else
      d ← ld_data p;
      r ← (if direct_level_index d =? FIRST_LEV_INDEX then
             sectors ← first_indir_alloc_ sectors p;
             if sectors =? u32 ERROR then mret (inl ERROR)
             else if sectors =? 0 then mret (inl disk_length)
             else mret (inr sectors)
           else mret (inr sectors) : M fs (Z + Z));
      match r with
      | inl v => mret v
      | inr sectors =>
          d ← ld_data p;
          if direct_level_index d =? SECOND_LEV_INDEX then
            sectors ← second_indir_alloc_ sectors p;
            if sectors =? u32 ERROR then mret ERROR
            else mret (s32 (disk_length - sectors * BLOCK_SECTOR_SIZE))
          else mret (s32 (disk_length - sectors * BLOCK_SECTOR_SIZE))
      end.

(** [lock_acquire] and [lock_release] on [&inode->lock] *)
Definition inode_lock (p : Z) : M fs unit :=
  i ← ld_inode p;
  ASSERT (negb (locked i));;
  st_inode p (Inode (open_cnt i) (deny_write_cnt i) (removed i) (sector i) (data i) true).

Definition inode_unlock (p : Z) : M fs unit :=
  i ← ld_inode p;
  ASSERT (locked i);;
  st_inode p (Inode (open_cnt i) (deny_write_cnt i) (removed i) (sector i) (data i) false).

Fixpoint inode_write_loop (fuel : nat) (p : Z) (buffer : list Z) (bounce : bool)
    (size offset bytes_written : Z) : M fs Z :=
  match fuel with
  | O => fail EFuel
  | S fuel =>
      if 0 <? size then
        sector_idx ← byte_to_sector p offset;
        len ← inode_length p;
        let sector_ofs := Z.rem offset BLOCK_SECTOR_SIZE in
        let inode_left := s32 (len - offset) in
        let sector_left := BLOCK_SECTOR_SIZE - sector_ofs in
        let min_left := if inode_left <? sector_left then inode_left else sector_left in
        let chunk_size := if size <? min_left then size else min_left in
        if chunk_size <=? 0 then mret bytes_written
        else
          chunk ← slice buffer bytes_written chunk_size;
          if (sector_ofs =? 0) && (chunk_size =? BLOCK_SECTOR_SIZE) then
            on_device (block_write sector_idx chunk);;
            inode_write_loop fuel p buffer bounce
              (size - chunk_size) (offset + chunk_size) (bytes_written + chunk_size)
          else
            a ← (if bounce then mret 1 else malloc);
            if a =? 0 then mret bytes_written
            else
              blk ← (if (0 <? sector_ofs) || (chunk_size <? sector_left)
                     then on_device (block_read sector_idx) else mret zeros);
              on_device (block_write sector_idx (blit blk sector_ofs chunk));;
              inode_write_loop fuel p buffer true
                (size - chunk_size) (offset + chunk_size) (bytes_written + chunk_size)
      else mret bytes_written
  end.

Definition inode_write_at_ (p : Z) (buffer : list Z) (size offset : Z) : M fs Z :=
  i ← ld_inode p;
  if negb (deny_write_cnt i =? 0) then mret 0
  else
    len ← inode_length p;
    (if len <? s32 (offset + size) then
       let sub := is_sub_dir (data i) in
       (if negb sub then inode_lock p else mret tt);;
       l ← inode_grow_ (s32 (offset + size)) p;
       upd_data p (fun d => with_length d l);;
       (if negb sub then inode_unlock p else mret tt)
     else mret tt);;
    inode_write_loop (S (Z.to_nat size)) p buffer false size offset 0.

End Cycle.

(** At most [depth] writes are nested. *)
Fixpoint inode_write_at (depth : nat) (p : Z) (buffer : list Z) (size offset : Z) : M fs Z :=
  match depth with
  | O => fail EFuel
  | S depth => inode_write_at_ (inode_write_at depth) p buffer size offset
  end.

(** ** The rest of the module, with the cycle tied *)

Section Tied.
Variable depth : nat.

Definition free_map_allocate : Z -> M fs (option Z) := free_map_allocate_ (inode_write_at depth).
Definition free_map_release : Z -> Z -> M fs unit := free_map_release_ (inode_write_at depth).
Definition bitmap_write : Z -> M fs bool := bitmap_write_ (inode_write_at depth).
Definition inode_grow : Z -> Z -> M fs Z := inode_grow_ (inode_write_at depth).
Definition first_indir_alloc := first_indir_alloc_ (inode_write_at depth).
Definition second_indir_alloc := second_indir_alloc_ (inode_write_at depth).
Definition second_indir_alloc_deep := second_indir_alloc_deep_ (inode_write_at depth).

(** A local [struct inode] lives at an address of its own while the function
    runs. *)
Definition inode_allocate (disk_inode : inode_disk) : M fs (bool * inode_disk) :=
  s ← get;
  let p := fresh s in
  put (set_inodes (set_heap s (fresh s + 1) (tick s))
        (<[p := Inode 0 0 false 0 (InodeDisk 0 0 [] (junk_ptr s) 0 0 0 0 0) false]> (inodes s)));;
  inode_grow (dlength disk_inode) p;;
  d ← ld_data p;
  s ← get;
  put (set_inodes s (delete p (inodes s)));;
  mret (true, with_ptr (with_index disk_inode (direct_level_index d) (first_level_index d)
                          (second_level_index d)) (ptr d)).

Definition inode_create (sector length : Z) (sub_dir : bool) : M fs bool :=
  ASSERT (0 <=? length);;
  a ← malloc;
  if a =? 0 then mret false
  else
    r ← inode_allocate
          (InodeDisk length INODE_MAGIC (repeat 0 109) (repeat 0 12) ROOT_DIR_SECTOR 0 0 0
             (if sub_dir then 1 else 0));
    let '(ok, disk_inode) := r in
    if ok : bool then on_device (block_write sector (encode_inode disk_inode));; mret true
    else mret false.

Definition inode_reopen (p : Z) : M fs Z :=
  if p =? 0 then mret p
  else
    i ← ld_inode p;
    st_inode p (Inode (open_cnt i + 1) (deny_write_cnt i) (removed i) (sector i) (data i)
                  (locked i));;
    mret p.

(** The loop of [inode_open] over the open inodes. *)
Fixpoint find_open (l : list Z) (sec : Z) : M fs (option Z) :=
  match l with
  | [] => mret None
  | p :: l => i ← ld_inode p; if sector i =? sec then mret (Some p) else find_open l sec
  end.

Definition inode_init : M fs unit := s ← get; put (set_open s []).

Definition inode_open (sec : Z) : M fs Z :=
  s ← get;
  r ← find_open (open_inodes s) sec;
  match r with
  | Some p => inode_reopen p
  | None =>
      p ← malloc;
      if p =? 0 then mret 0
      else
        d ← on_device (block_read sec);
        s ← get;
        put (set_open (set_inodes s (<[p := Inode 1 0 false sec (decode_inode d) false]> (inodes s)))
               (p :: open_inodes s));;
        mret p
  end.

Definition inode_get_inumber (p : Z) : M fs Z := i ← ld_inode p; mret (sector i).

Definition inode_remove (p : Z) : M fs unit :=
  ASSERT (negb (p =? 0));;
  i ← ld_inode p;
  st_inode p (Inode (open_cnt i) (deny_write_cnt i) true (sector i) (data i) (locked i)).

Definition inode_deny_write (p : Z) : M fs unit :=
  i ← ld_inode p;
  st_inode p (Inode (open_cnt i) (deny_write_cnt i + 1) (removed i) (sector i) (data i) (locked i));;
  ASSERT (deny_write_cnt i + 1 <=? open_cnt i).

Definition inode_allow_write (p : Z) : M fs unit :=
  i ← ld_inode p;
  ASSERT (0 <? deny_write_cnt i);;
  ASSERT (deny_write_cnt i <=? open_cnt i);;
  st_inode p (Inode (open_cnt i) (deny_write_cnt i - 1) (removed i) (sector i) (data i) (locked i)).

(** ** Deallocation *)

(** Releases [arr[index]], ..., until [n] are released or [size] reaches zero. *)
Fixpoint release_loop (n : nat) (arr : list Z) (index size : Z) : M fs Z :=
  match n with
  | O => mret size
  | S n =>
      x ← aref arr index;
      free_map_release x 1;;
      let size := u32 (size - 1) in
      if size =? 0 then mret size else release_loop n arr (index + 1) size
  end.

Definition first_level_dealloc (size p : Z) : M fs Z :=
  d ← ld_data p;
  x ← aref (ptr d) FIRST_LEV_INDEX;
  blk ← on_device (block_read x);
  release_loop (Z.to_nat INDEX_BLOCK_SIZE) (decode_block blk) 0 size.

Definition second_level_dealloc_deep (size index : Z) (second_block : list Z) : M fs Z :=
  y ← aref second_block index;
  blk ← on_device (block_read y);
  release_loop (Z.to_nat INDEX_BLOCK_SIZE) (decode_block blk) 0 size.

Fixpoint second_dealloc_loop (n : nat) (size index : Z) (second_block : list Z) : M fs Z :=
  match n with
  | O => mret size
  | S n =>
      size ← second_level_dealloc_deep size index second_block;
      if size =? 0 then mret size else second_dealloc_loop n size (index + 1) second_block
  end.

Definition second_level_dealloc (size p : Z) : M fs Z :=
  d ← ld_data p;
  x ← aref (ptr d) SECOND_LEV_INDEX;
  blk ← on_device (block_read x);
  second_dealloc_loop (Z.to_nat INDEX_BLOCK_SIZE) size 0 (decode_block blk).

Definition inode_deallocate (p : Z) : M fs unit :=
  len ← inode_length p;
  let size := bytes_to_sectors len in
  if size =? 0 then mret tt
  else
    d ← ld_data p;
    size ← release_loop (Z.to_nat FIRST_LEV_INDEX) (ptr d) 0 size;
    if size =? 0 then mret tt
    else
      size ← first_level_dealloc size p;
      d ← ld_data p;
      x ← aref (ptr d) FIRST_LEV_INDEX;
      free_map_release x 1;;
      if size =? 0 then mret tt
      else
        second_level_dealloc size p;;
        d ← ld_data p;
        x ← aref (ptr d) SECOND_LEV_INDEX;
        free_map_release x 1.

Definition inode_close (p : Z) : M fs unit :=
  if p =? 0 then mret tt
  else
    i ← ld_inode p;
    st_inode p (Inode (open_cnt i - 1) (deny_write_cnt i) (removed i) (sector i) (data i) (locked i));;
    if open_cnt i - 1 =? 0 then
      s ← get;
      put (set_open s (filter (fun q => q <> p) (open_inodes s)));;
      (if removed i then
         free_map_release (sector i) 1;;
         inode_deallocate p
       else
         on_device (block_write (sector i) (encode_inode (data i))));;
      s ← get;
      put (set_inodes s (delete p (inodes s)))
    else mret tt.

(** ** [filesys/file.c] *)

Definition file_open (ip : Z) : M fs Z :=
  fp ← malloc;
  if negb (ip =? 0) && negb (fp =? 0) then
    s ← get;
    put (set_files s (<[fp := File ip 0 false]> (files s)));;
    mret fp
  else inode_close ip;; mret 0.

Definition file_reopen (fp : Z) : M fs Z :=
  f ← ld_file fp; ip ← inode_reopen (finode f); file_open ip.

Definition file_allow_write (fp : Z) : M fs unit :=
  ASSERT (negb (fp =? 0));;
  f ← ld_file fp;
  if deny_write f then
    st_file fp (File (finode f) (pos f) false);;
    inode_allow_write (finode f)
  else mret tt.

Definition file_deny_write (fp : Z) : M fs unit :=
  ASSERT (negb (fp =? 0));;
  f ← ld_file fp;
  if negb (deny_write f) then
    st_file fp (File (finode f) (pos f) true);;
    inode_deny_write (finode f)
  else mret tt.

Definition file_close (fp : Z) : M fs unit :=
  if fp =? 0 then mret tt
  else
    file_allow_write fp;;
    f ← ld_file fp;
    inode_close (finode f);;
    s ← get;
    put (set_files s (delete fp (files s))).

Definition file_get_inode (fp : Z) : M fs Z := f ← ld_file fp; mret (finode f).

Definition file_read (fp size : Z) : M fs (Z * list Z) :=
  f ← ld_file fp;
  r ← inode_read_at (finode f) size (pos f);
  st_file fp (File (finode f) (s32 (pos f + r.1)) (deny_write f));;
  mret r.

Definition file_read_at (fp size file_ofs : Z) : M fs (Z * list Z) :=
  f ← ld_file fp; inode_read_at (finode f) size file_ofs.

Definition file_write (fp : Z) (buffer : list Z) (size : Z) : M fs Z :=
  f ← ld_file fp;
  n ← inode_write_at depth (finode f) buffer size (pos f);
  st_file fp (File (finode f) (s32 (pos f + n)) (deny_write f));;
  mret n.

Definition file_write_at : Z -> list Z -> Z -> Z -> M fs Z := file_write_at_ (inode_write_at depth).

Definition file_length (fp : Z) : M fs Z :=
  ASSERT (negb (fp =? 0));; f ← ld_file fp; inode_length (finode f).

Definition file_seek (fp new_pos : Z) : M fs unit :=
  ASSERT (negb (fp =? 0));;
  ASSERT (0 <=? new_pos);;
  f ← ld_file fp;
  st_file fp (File (finode f) new_pos (deny_write f)).

Definition file_tell (fp : Z) : M fs Z :=
  ASSERT (negb (fp =? 0));; f ← ld_file fp; mret (pos f).

(** ** The free map's file *)

(** [bitmap_read] stores the bytes read over the words of the array. *)
Definition bitmap_read (fp : Z) : M fs bool :=
  s ← get;
  let b := free_map s in
  if 0 <? bit_cnt b then
    let size := s32 (byte_cnt (bit_cnt b)) in
    r ← file_read_at fp size 0;
    let ws := bytes_words (r.2 ++ drop (length r.2) (words_bytes (bits b))) in
    let last := Z.to_nat (elem_cnt (bit_cnt b) - 1) in
    w ← lift_opt EFault (ws !! last);
    s ← get;
    put (set_map s (Bitmap (bit_cnt b) (<[last := Z.land w (last_mask b)]> ws)));;
    mret (r.1 =? size)
  else mret true.

(** [created] is the result of [bitmap_create (block_size (fs_device))]. *)
Definition free_map_init (bits_block : option (list Z)) : M fs unit := fun s =>
  match bitmap_create (negb (bool_decide (bits_block = None))) bits_block
          (block_size (fs_device s)) with
  | Ok (Some b) =>
      (on_map (bitmap_mark FREE_MAP_SECTOR);; on_map (bitmap_mark ROOT_DIR_SECTOR)) (set_map s b)
  | Ok None => Err EPanic
  | Err e => Err e
  end.

Definition free_map_open : M fs unit :=
  ip ← inode_open FREE_MAP_SECTOR;
  fp ← file_open ip;
  s ← get;
  put (set_map_file s fp);;
  if fp =? 0 then fail EPanic
  else ok ← bitmap_read fp; if negb ok then fail EPanic else mret tt.

Definition free_map_close : M fs unit := s ← get; file_close (free_map_file s).

Definition bitmap_file_size (b : bitmap) : Z := byte_cnt (bit_cnt b).

Definition free_map_create : M fs unit :=
  s ← get;
  ok ← inode_create FREE_MAP_SECTOR (s32 (bitmap_file_size (free_map s))) false;
  if negb ok then fail EPanic
  else
    ip ← inode_open FREE_MAP_SECTOR;
    fp ← file_open ip;
    s ← get;
    put (set_map_file s fp);;
    if fp =? 0 then fail EPanic
    else ok ← bitmap_write fp; if negb ok then fail EPanic else mret tt.

End Tied.
