(* ===== verification/FsRep.v ===== *)
(** * The sectors of a file

    The multi-level index of an inode read as a function: [sec_at] is the
    sector of the k-th 512 bytes, [idx_secs] are the index blocks, [foot] all
    sectors the file occupies.  [layout] is the well-formedness invariant of an
    index, and [byte_to_sector] is shown to compute [sec_at]. *)

From S2P Require Import Prelude Bitmap BitmapThms Bytes Block FsModel.

Definition getp (l : list Z) (k : Z) : Z := nth (Z.to_nat k) l 0.
Definition blk_at (D : block) (x : Z) : list Z := decode_block (sector_of D x).

(** The second level, from the contents of its first block. *)
Definition sec2_at (D : block) (sb : list Z) (j : Z) : Z :=
  getp (blk_at D (getp sb (j / 128))) (j mod 128).

Definition sec_at (D : block) (ps : list Z) (k : Z) : Z :=
  if k <? 10 then getp ps k
  else if k <? 138 then getp (blk_at D (getp ps 10)) (k - 10)
  else sec2_at D (blk_at D (getp ps 11)) (k - 138).

Definition data_secs (D : block) (ps : list Z) (n : Z) : list Z :=
  sec_at D ps <$> seqZ 0 n.

(** Inner blocks that [j] sectors of the second level need. *)
Definition inner_cnt (j : Z) : Z := (j + 127) / 128.

Definition idx_secs (D : block) (ps : list Z) (n : Z) : list Z :=
  (if 10 <? n then [getp ps 10] else []) ++
  (if 138 <? n then getp ps 11 :: (getp (blk_at D (getp ps 11)) <$> seqZ 0 (inner_cnt (n - 138)))
   else []).

Definition foot (D : block) (ps : list Z) (n : Z) : list Z :=
  data_secs D ps n ++ idx_secs D ps n.

Definition MAX_SECTORS : Z := 16522.

Record layout (D : block) (ps : list Z) (n : Z) : Prop := {
  lay_len : length ps = 12%nat;
  lay_n : 0 <= n <= MAX_SECTORS;
  lay_nodup : NoDup (foot D ps n);
  lay_in : forall x, x ∈ foot D ps n -> 0 <= x < blk_size D
}.

(** The three level indices that [n] allocated sectors leave. *)
Definition idx_ok (d : inode_disk) (n : Z) : Prop :=
  if n <? 138 then
    direct_level_index d = Z.min n 10 /\ first_level_index d = Z.max 0 (n - 10) /\
    second_level_index d = 0
  else
    direct_level_index d = 11 /\ first_level_index d = (n - 138) / 128 /\
    second_level_index d = (n - 138) mod 128.

Definition sectors_of (len : Z) : Z := (len + 511) / 512.

(** Byte [i] of a file. *)
Definition byte_at (D : block) (ps : list Z) (i : Z) : Z :=
  nth (Z.to_nat (i mod 512)) (sector_of D (sec_at D ps (i / 512))) 0.

(** ** Equal devices *)

(** Devices that differ in their statistics only. *)
Record dev_eq (b b' : block) : Prop := {
  dev_type : blk_type b' = blk_type b;
  dev_size : blk_size b' = blk_size b;
  dev_sectors : sectors b' = sectors b
}.

#[export] Instance dev_eq_preorder : PreOrder dev_eq.
Proof. split; [by split|]. intros a b c [] []. split; congruence. Qed.

Lemma dev_eq_wf b b' : dev_eq b b' -> blk_wf b -> blk_wf b'.
Proof. intros [H1 H2 H3] [G1 G2 G3]. split; by rewrite ?H1, ?H2, ?H3. Qed.

Lemma dev_eq_sector b b' x : dev_eq b b' -> sector_of b' x = sector_of b x.
Proof. intros H. unfold sector_of. by rewrite (dev_sectors _ _ H). Qed.

(** States with the same contents of memory; addresses may have been used up. *)
Record same_mem (s s' : fs) : Prop := {
  sm_map : free_map s' = free_map s;
  sm_file : free_map_file s' = free_map_file s;
  sm_inodes : inodes s' = inodes s;
  sm_open : open_inodes s' = open_inodes s;
  sm_files : files s' = files s;
  sm_oracle : oracle s' = oracle s;
  sm_fresh : fresh s <= fresh s';
  sm_junk_ptr : junk_ptr s' = junk_ptr s;
  sm_junk_block : junk_block s' = junk_block s
}.

#[export] Instance same_mem_preorder : PreOrder same_mem.
Proof.
  split; [by split|]. intros a b c [] []. split; try congruence. lia.
Qed.

Lemma same_mem_device s b : same_mem s (set_device s b).
Proof. by split. Qed.

(** ** Reading pointers *)

Lemma aref_ok l k s : 0 <= k < Z.of_nat (length l) -> aref l k s = Ok (getp l k, s).
Proof.
  intros Hk. unfold aref, getp.
  replace (k <? 0) with false by (symmetry; apply Z.ltb_ge; lia).
  destruct (lookup_lt_is_Some_2 l (Z.to_nat k)) as [x E]; [lia|].
  rewrite E. cbn. by rewrite (nth_lookup_Some _ _ _ _ E).
Qed.

Lemma on_device_ok {A} (m : M block A) s a b :
  m (fs_device s) = Ok (a, b) -> on_device m s = Ok (a, set_device s b).
Proof. intros H. unfold on_device. by rewrite H. Qed.

Lemma on_map_ok {A} (m : M bitmap A) s a b :
  m (free_map s) = Ok (a, b) -> on_map m s = Ok (a, set_map s b).
Proof. intros H. unfold on_map. by rewrite H. Qed.

Lemma ld_inode_ok s p i : inodes s !! p = Some i -> ld_inode p s = Ok (i, s).
Proof. intros H. unfold ld_inode. by rewrite H. Qed.

Lemma ld_data_ok s p i : inodes s !! p = Some i -> ld_data p s = Ok (data i, s).
Proof. intros H. unfold ld_data. by mstep (ld_inode_ok _ _ _ H). Qed.

Lemma inode_length_ok s p i : inodes s !! p = Some i -> inode_length p s = Ok (dlength (data i), s).
Proof. intros H. unfold inode_length. by mstep (ld_data_ok _ _ _ H). Qed.

(** A read of a sector of the device. *)
Lemma fs_read_ok s x :
  blk_wf (fs_device s) -> 0 <= x < blk_size (fs_device s) ->
  exists b, on_device (block_read x) s = Ok (sector_of (fs_device s) x, set_device s b) /\
            dev_eq (fs_device s) b.
Proof.
  intros Hwf Hx. destruct (block_read_ok _ _ Hwf Hx) as (b & E & H1 & H2 & H3).
  exists b. split; [by apply on_device_ok|]. by split.
Qed.

Lemma fs_write_ok s x d :
  blk_wf (fs_device s) -> 0 <= x < blk_size (fs_device s) -> length d = 512%nat ->
  exists b, on_device (block_write x d) s = Ok (tt, set_device s b) /\ blk_wf b /\
            blk_size b = blk_size (fs_device s) /\
            forall j, 0 <= j -> sector_of b j = if j =? x then d else sector_of (fs_device s) j.
Proof.
  intros Hwf Hx Hd. destruct (block_write_ok _ _ _ Hwf Hx Hd) as (b & E & H1 & H2 & H3).
  exists b. split; [by apply on_device_ok|]. split_and!; [done|done|].
  intros j Hj. by apply sector_of_write.
Qed.

Lemma sector_len D x : blk_wf D -> 0 <= x < blk_size D -> length (sector_of D x) = 512%nat.
Proof.
  intros [H1 H2 H3] Hx. unfold sector_of.
  destruct (lookup_lt_is_Some_2 (sectors D) (Z.to_nat x)) as [d E]; [lia|].
  rewrite E. simpl. by eapply Forall_lookup in H3.
Qed.

Lemma blk_at_len D x : blk_wf D -> 0 <= x < blk_size D -> length (blk_at D x) = 128%nat.
Proof. intros Hwf Hx. apply length_bytes_words. by rewrite sector_len. Qed.

(** ** Members of the footprint *)

Lemma data_sec_in D ps n k : 0 <= k < n -> sec_at D ps k ∈ foot D ps n.
Proof.
  intros Hk. apply elem_of_app. left. apply list_elem_of_fmap_2. apply elem_of_seqZ. lia.
Qed.

Lemma idx1_in D ps n : 10 < n -> getp ps 10 ∈ idx_secs D ps n.
Proof.
  intros Hn. apply elem_of_app. left.
  replace (10 <? n) with true by (symmetry; apply Z.ltb_lt; lia). set_solver.
Qed.

Lemma idx2_in D ps n : 138 < n -> getp ps 11 ∈ idx_secs D ps n.
Proof.
  intros Hn. apply elem_of_app. right.
  replace (138 <? n) with true by (symmetry; apply Z.ltb_lt; lia). set_solver.
Qed.

Lemma idx3_in D ps n j :
  138 < n -> 0 <= j < inner_cnt (n - 138) ->
  getp (blk_at D (getp ps 11)) j ∈ idx_secs D ps n.
Proof.
  intros Hn Hj. apply elem_of_app. right.
  replace (138 <? n) with true by (symmetry; apply Z.ltb_lt; lia).
  apply elem_of_cons. right. apply list_elem_of_fmap_2. apply elem_of_seqZ. lia.
Qed.

Lemma idx_foot D ps n x : x ∈ idx_secs D ps n -> x ∈ foot D ps n.
Proof. intros H. apply elem_of_app. by right. Qed.

Lemma inner_lt j n : 0 <= j < n -> 0 <= j / 128 < inner_cnt n.
Proof.
  intros H. unfold inner_cnt. split; [apply Z.div_pos; lia|].
  assert ((j + 1 * 128) / 128 <= (n + 127) / 128) by (apply Z.div_le_mono; lia).
  rewrite Z.div_add in * by lia. lia.
Qed.

Lemma sectors_of_lt pos len : 0 <= pos < len -> 0 <= pos / 512 < sectors_of len.
Proof.
  intros H. unfold sectors_of. split; [apply Z.div_pos; lia|].
  assert ((pos + 1 * 512) / 512 <= (len + 511) / 512) by (apply Z.div_le_mono; lia).
  rewrite Z.div_add in * by lia. lia.
Qed.

Lemma set_device_twice s b b' : set_device (set_device s b) b' = set_device s b'.
Proof. done. Qed.

Lemma set_device_same s : set_device s (fs_device s) = s.
Proof. by destruct s. Qed.

(** ** [byte_to_sector] computes [sec_at] *)

Lemma byte_to_sector_eof s p i pos :
  inodes s !! p = Some i -> dlength (data i) <= pos ->
  byte_to_sector p pos s = Ok (u32 ERROR, s).
Proof.
  intros Hi Hpos. unfold byte_to_sector. mstep (inode_length_ok _ _ _ Hi).
  by replace (pos <? dlength (data i)) with false by (symmetry; apply Z.ltb_ge; lia).
Qed.

Lemma byte_to_sector_ok s p i n pos :
  inodes s !! p = Some i -> blk_wf (fs_device s) -> layout (fs_device s) (ptr (data i)) n ->
  0 <= pos < dlength (data i) -> sectors_of (dlength (data i)) <= n ->
  exists b, byte_to_sector p pos s
            = Ok (sec_at (fs_device s) (ptr (data i)) (pos / 512), set_device s b) /\
            dev_eq (fs_device s) b.
Proof.
  intros Hi Hwf [Hl Hn Hnd Hin] Hpos Hsec. unfold byte_to_sector, MAX_SECTORS in *.
  pose proof (sectors_of_lt _ _ Hpos) as Hk. remember (ptr (data i)) as ps eqn:Eps.
  mstep (inode_length_ok _ _ _ Hi).
  replace (pos <? dlength (data i)) with true by (symmetry; apply Z.ltb_lt; lia).
  mstep (ld_data_ok _ _ _ Hi). rewrite <-Eps. unfold BLOCK_SECTOR_SIZE, FIRST_LEV_INDEX,
    INDEX_BLOCK_SIZE, SECOND_LEV_INDEX. rewrite Z.quot_div_nonneg by lia. unfold sec_at.
  remember (pos / 512) as k eqn:Ek. clear Ek.
  destruct (Z.ltb_spec k 10).
  { exists (fs_device s). rewrite set_device_same, aref_ok by lia. split; [done|reflexivity]. }
  replace (k - 10 <? 128) with (k <? 138)
    by (destruct (Z.ltb_spec k 138), (Z.ltb_spec (k - 10) 128); lia).
  destruct (Z.ltb_spec k 138).
  { rewrite (bind_ok _ _ _ _ _ (aref_ok ps 10 s ltac:(lia))).
    destruct (fs_read_ok s (getp ps 10)) as (b & E & Hb); [done|apply Hin, idx_foot, idx1_in; lia|].
    mstep E. exists b. split; [|done]. apply aref_ok. 
    change (decode_block _) with (blk_at (fs_device s) (getp ps 10)).
    rewrite blk_at_len; [lia|done|apply Hin, idx_foot, idx1_in; lia]. }
  replace (k - 10 - 128) with (k - 138) by lia.
  replace (k - 138 <? 128 * 128) with true by (symmetry; apply Z.ltb_lt; lia).
  rewrite Z.rem_mod_nonneg, Z.quot_div_nonneg by lia.
  rewrite (bind_ok _ _ _ _ _ (aref_ok ps 11 s ltac:(lia))).
  assert (0 <= getp ps 11 < blk_size (fs_device s)) as H11 by (apply Hin, idx_foot, idx2_in; lia).
  destruct (fs_read_ok s (getp ps 11)) as (b & E & Hb); [done..|]. mstep E.
  change (decode_block (sector_of (fs_device s) (getp ps 11)))
    with (blk_at (fs_device s) (getp ps 11)).
  assert (0 <= (k - 138) / 128 < 128) as Hq
    by (split; [apply Z.div_pos|apply Z.div_lt_upper_bound]; lia).
  mstep_by (apply aref_ok; rewrite blk_at_len by done; lia).
  set (y := getp (blk_at (fs_device s) (getp ps 11)) ((k - 138) / 128)).
  assert (0 <= y < blk_size (fs_device s)) as Hy.
  { apply Hin, idx_foot, idx3_in; [lia|]. apply inner_lt. lia. }
  destruct (fs_read_ok (set_device s b) y) as (b' & E' & Hb');
    [by eapply dev_eq_wf|simpl; by rewrite (dev_size _ _ Hb)|].
  mstep E'. exists b'. split; [|by etransitivity]. rewrite set_device_twice. simpl.
  rewrite (dev_eq_sector _ _ _ Hb). change (decode_block _) with (blk_at (fs_device s) y).
  apply aref_ok. rewrite blk_at_len by done. pose proof (Z.mod_pos_bound (k - 138) 128). lia.
Qed.

(** ** Frames: what the index depends on *)

Lemma sec_at_frame D D' ps n k :
  (forall x, x ∈ idx_secs D ps n -> sector_of D' x = sector_of D x) ->
  0 <= k < n -> sec_at D' ps k = sec_at D ps k.
Proof.
  intros H Hk. unfold sec_at, sec2_at, blk_at.
  destruct (Z.ltb_spec k 10); [done|]. destruct (Z.ltb_spec k 138).
  - rewrite H; [done|]. apply idx1_in. lia.
  - rewrite (H (getp ps 11)) by (apply idx2_in; lia). rewrite H; [done|].
    apply idx3_in; [lia|]. apply inner_lt. lia.
Qed.

Lemma idx_secs_frame D D' ps n :
  (forall x, x ∈ idx_secs D ps n -> sector_of D' x = sector_of D x) ->
  idx_secs D' ps n = idx_secs D ps n.
Proof.
  intros H. unfold idx_secs. destruct (Z.ltb_spec 138 n); [|done].
  unfold blk_at. by rewrite (H (getp ps 11)) by (apply idx2_in; lia).
Qed.

Lemma data_secs_frame D D' ps n :
  (forall x, x ∈ idx_secs D ps n -> sector_of D' x = sector_of D x) ->
  data_secs D' ps n = data_secs D ps n.
Proof.
  intros H. unfold data_secs. apply list_fmap_ext. intros j k Hj.
  apply lookup_seqZ in Hj as [-> Hj]. eapply sec_at_frame; [done|]. lia.
Qed.

Lemma foot_frame D D' ps n :
  (forall x, x ∈ idx_secs D ps n -> sector_of D' x = sector_of D x) ->
  foot D' ps n = foot D ps n.
Proof. intros H. unfold foot. by rewrite (data_secs_frame D D'), (idx_secs_frame D D'). Qed.

Lemma layout_frame D D' ps n :
  (forall x, x ∈ idx_secs D ps n -> sector_of D' x = sector_of D x) ->
  blk_size D' = blk_size D -> layout D ps n -> layout D' ps n.
Proof.
  intros H Hs [H1 H2 H3 H4]. split; [done|done|..]; rewrite (foot_frame D D') by done; [done|].
  by rewrite Hs.
Qed.

Lemma byte_at_frame D D' ps n i :
  (forall x, x ∈ foot D ps n -> sector_of D' x = sector_of D x) ->
  0 <= i < 512 * n -> byte_at D' ps i = byte_at D ps i.
Proof.
  intros H Hi. assert (0 <= i / 512 < n)
    by (split; [apply Z.div_pos|apply Z.div_lt_upper_bound]; lia).
  unfold byte_at. rewrite (sec_at_frame D D' ps n); [|intros x Hx; by apply H, idx_foot|done].
  by rewrite H by (by apply data_sec_in).
Qed.

(** Data sectors are distinct from each other and from the index blocks. *)
Lemma sec_at_inj D ps n j k :
  layout D ps n -> 0 <= j < n -> 0 <= k < n -> sec_at D ps j = sec_at D ps k -> j = k.
Proof.
  intros [_ _ Hnd _] Hj Hk E. apply NoDup_app in Hnd as (Hnd & _ & _).
  assert (data_secs D ps n !! Z.to_nat j = Some (sec_at D ps j)) as Lj.
  { unfold data_secs. rewrite list_lookup_fmap, lookup_seqZ_lt by lia. simpl. do 2 f_equal. lia. }
  assert (data_secs D ps n !! Z.to_nat k = Some (sec_at D ps k)) as Lk.
  { unfold data_secs. rewrite list_lookup_fmap, lookup_seqZ_lt by lia. simpl. do 2 f_equal. lia. }
  rewrite E in Lj. pose proof (NoDup_lookup _ _ _ _ Hnd Lj Lk). lia.
Qed.

Lemma sec_at_not_idx D ps n k :
  layout D ps n -> 0 <= k < n -> sec_at D ps k ∉ idx_secs D ps n.
Proof.
  intros [_ _ Hnd _] Hk. apply NoDup_app in Hnd as (_ & Hd & _). apply Hd.
  apply list_elem_of_fmap_2. apply elem_of_seqZ. lia.
Qed.
