(* ===== verification/FsRead.v ===== *)
(** * Reading a file: [inode_read_at]

    The read loop copies the bytes of the file, whatever the alignment of the
    range with the sectors. *)

From S2P Require Import Prelude Bitmap BitmapThms Bytes Block FsModel FsRep.

Definition bytes_of (D : block) (ps : list Z) (off n : Z) : list Z :=
  byte_at D ps <$> seqZ off n.

(** An inode whose index is laid out on the device of the state. *)
Record file_ok (s : fs) (p : Z) (i : inode) (n : Z) : Prop := {
  fo_inode : inodes s !! p = Some i;
  fo_blk : blk_wf (fs_device s);
  fo_layout : layout (fs_device s) (ptr (data i)) n;
  fo_len : 0 <= dlength (data i) < 1073741824;
  fo_n : sectors_of (dlength (data i)) <= n
}.

(** Every request for memory succeeds. *)
Record heap_ok (s : fs) : Prop := {
  ho_oracle : forall k, oracle s k = true;
  ho_fresh : 0 < fresh s
}.

Lemma file_ok_same s s' p i n :
  same_mem s s' -> dev_eq (fs_device s) (fs_device s') -> file_ok s p i n -> file_ok s' p i n.
Proof.
  intros Hs Hd [H1 H2 H3 H4 H5]. split; [by rewrite (sm_inodes _ _ Hs)|by eapply dev_eq_wf| |done..].
  eapply layout_frame; [|by rewrite (dev_size _ _ Hd)|done].
  intros x _. by apply dev_eq_sector.
Qed.

Lemma heap_ok_same s s' : same_mem s s' -> heap_ok s -> heap_ok s'.
Proof.
  intros Hs [H1 H2]. split; [by rewrite (sm_oracle _ _ Hs)|]. pose proof (sm_fresh _ _ Hs). lia.
Qed.

Lemma malloc_ok s :
  heap_ok s -> exists a s', malloc s = Ok (a, s') /\ 0 < a /\ same_mem s s' /\
                            fs_device s' = fs_device s /\ a = fresh s /\ fresh s' = fresh s + 1.
Proof.
  intros [H1 H2]. unfold malloc. rewrite H1. eexists _, _. split; [done|].
  split_and!; try done. split; simpl; try done. lia.
Qed.

(** The request for the bounce buffer. *)
Lemma bounce_ok s (bounce : bool) :
  heap_ok s ->
  exists a s', (if bounce then mret 1 else malloc : M fs Z) s = Ok (a, s') /\ (a =? 0) = false /\
               same_mem s s' /\ fs_device s' = fs_device s.
Proof.
  intros Hh. destruct bounce.
  - exists 1, s. split_and!; try done. 
  - destruct (malloc_ok s Hh) as (a & s' & E & Ha & Hs & Hd & _). exists a, s'.
    split_and!; try done. apply Z.eqb_neq. lia.
Qed.

Lemma slice_ok l from n s :
  0 <= from -> 0 <= n -> from + n <= Z.of_nat (length l) ->
  slice l from n s = Ok (take (Z.to_nat n) (drop (Z.to_nat from) l), s).
Proof.
  intros Hf Hn Hl. unfold slice. rewrite length_take, length_drop.
  replace (_ =? n) with true; [done|]. symmetry. apply Z.eqb_eq. lia.
Qed.

(** Bytes within one sector. *)
Lemma byte_at_sector D ps off j :
  0 <= off -> 0 <= j -> off mod 512 + j < 512 ->
  byte_at D ps (off + j) =
  nth (Z.to_nat (off mod 512 + j)) (sector_of D (sec_at D ps (off / 512))) 0.
Proof.
  intros Ho Hj Hlt. unfold byte_at. pose proof (Z.mod_pos_bound off 512 ltac:(lia)).
  assert (off + j = 512 * (off / 512) + (off mod 512 + j)) as E
    by (pose proof (Z.div_mod off 512); lia).
  rewrite <-(Z.div_unique_pos (off + j) 512 (off / 512) (off mod 512 + j)) by lia.
  by rewrite <-(Z.mod_unique_pos (off + j) 512 (off / 512) (off mod 512 + j)) by lia.
Qed.

Lemma chunk_bytes D ps off c :
  0 <= off -> 0 <= c -> off mod 512 + c <= 512 ->
  length (sector_of D (sec_at D ps (off / 512))) = 512%nat ->
  take (Z.to_nat c) (drop (Z.to_nat (off mod 512)) (sector_of D (sec_at D ps (off / 512))))
  = bytes_of D ps off c.
Proof.
  intros Ho Hc Hlt Hl. pose proof (Z.mod_pos_bound off 512 ltac:(lia)).
  apply list_eq. intros k. unfold bytes_of. rewrite list_lookup_fmap.
  destruct (decide (k < Z.to_nat c)%nat) as [Hk|Hk].
  - rewrite lookup_take_lt, lookup_drop, lookup_seqZ_lt by lia. cbn [fmap option_fmap option_map].
    rewrite byte_at_sector by lia.
    destruct (lookup_lt_is_Some_2 (sector_of D (sec_at D ps (off / 512)))
      (Z.to_nat (off mod 512) + k)) as [x E]; [lia|].
    replace (Z.to_nat (off mod 512 + Z.of_nat k)) with (Z.to_nat (off mod 512) + k)%nat by lia.
    rewrite (nth_lookup_Some _ _ _ _ E). by rewrite E.
  - rewrite lookup_take_ge, lookup_seqZ_ge by lia. done.
Qed.

Lemma bytes_of_split D ps off c r :
  0 <= c <= r -> bytes_of D ps off r = bytes_of D ps off c ++ bytes_of D ps (off + c) (r - c).
Proof.
  intros H. unfold bytes_of. rewrite <-fmap_app, <-seqZ_app by lia. do 2 f_equal. lia.
Qed.

Lemma length_bytes_of D ps off n : 0 <= n -> Z.of_nat (length (bytes_of D ps off n)) = n.
Proof. intros H. unfold bytes_of. rewrite length_fmap, length_seqZ. lia. Qed.

(** ** The chunk of an iteration *)

Definition chunk_of (len size off : Z) : Z :=
  Z.min size (Z.min (len - off) (512 - off mod 512)).

Lemma chunk_of_code len size off :
  0 <= off < 2147483648 -> 0 <= len < 1073741824 ->
  (let inode_left := s32 (len - off) in
   let sector_left := BLOCK_SECTOR_SIZE - Z.rem off BLOCK_SECTOR_SIZE in
   let min_left := if inode_left <? sector_left then inode_left else sector_left in
   if size <? min_left then size else min_left) = chunk_of len size off.
Proof.
  intros Ho Hl. cbv zeta. unfold BLOCK_SECTOR_SIZE, chunk_of.
  rewrite Z.rem_mod_nonneg, s32_small by lia.
  destruct (Z.ltb_spec (len - off) (512 - off mod 512)).
  - destruct (Z.ltb_spec size (len - off)); lia.
  - destruct (Z.ltb_spec size (512 - off mod 512)); lia.
Qed.

Ltac use_chunk len size off :=
  let H := fresh "H" in
  pose proof (chunk_of_code len size off ltac:(lia) ltac:(lia)) as H;
  cbv zeta in H |- *; rewrite !H; clear H.

Lemma chunk_of_pos len size off :
  0 < size -> 0 <= off < len ->
  0 < chunk_of len size off <= size /\ off + chunk_of len size off <= len /\
  off mod 512 + chunk_of len size off <= 512.
Proof.
  intros Hs Ho. unfold chunk_of. pose proof (Z.mod_pos_bound off 512 ltac:(lia)). lia.
Qed.

(** The number of bytes a read of [size] bytes at [off] delivers. *)
Definition read_cnt_of (len size off : Z) : Z := Z.max 0 (Z.min size (len - off)).

Lemma inode_read_loop_ok fuel : forall s p i n buf bounce size off br,
  file_ok s p i n -> heap_ok s -> 0 <= off -> 0 <= size -> off + size < 2147483648 ->
  size < Z.of_nat fuel ->
  let r := read_cnt_of (dlength (data i)) size off in
  exists s', inode_read_loop fuel p buf bounce size off br s
             = Ok ((br + r, buf ++ bytes_of (fs_device s) (ptr (data i)) off r), s') /\
             same_mem s s' /\ dev_eq (fs_device s) (fs_device s').
Proof.
  induction fuel as [|fuel IH]; intros s p i n buf bounce size off br Hf Hh Ho Hs Hos Hfu r; [lia|].
  cbn [inode_read_loop]. pose proof (fo_len _ _ _ _ Hf) as Hlen.
  destruct (Z.ltb_spec 0 size) as [Hsz|Hsz].
  2: { exists s. replace r with 0 by (unfold r, read_cnt_of; lia).
       unfold bytes_of. simpl. rewrite app_nil_r, Z.add_0_r. split_and!; [done|reflexivity|reflexivity]. }
  destruct (Z.le_gt_cases (dlength (data i)) off) as [Heof|Hin].
  { mstep (byte_to_sector_eof _ _ _ _ (fo_inode _ _ _ _ Hf) Heof).
    mstep (inode_length_ok _ _ _ (fo_inode _ _ _ _ Hf)).
    use_chunk (dlength (data i)) size off.
    assert (chunk_of (dlength (data i)) size off <= 0) by (unfold chunk_of; lia).
    replace (chunk_of _ _ _ <=? 0) with true by (symmetry; by apply Z.leb_le).
    exists s. replace r with 0 by (unfold r, read_cnt_of; lia).
    unfold bytes_of. simpl. rewrite app_nil_r, Z.add_0_r. split_and!; [done|reflexivity|reflexivity]. }
  destruct (byte_to_sector_ok s p i n off) as (b & E & Hb); try apply Hf; [lia|].
  mstep E. set (s1 := set_device s b).
  assert (same_mem s s1) as Hs1 by apply same_mem_device.
  assert (file_ok s1 p i n) as Hf1 by (by eapply file_ok_same).
  mstep (inode_length_ok _ _ _ (fo_inode _ _ _ _ Hf1)).
  use_chunk (dlength (data i)) size off.
  destruct (chunk_of_pos (dlength (data i)) size off Hsz ltac:(lia)) as (Hc1 & Hc2 & Hc3).
  remember (chunk_of (dlength (data i)) size off) as c eqn:Ec.
  replace (c <=? 0) with false by (symmetry; apply Z.leb_gt; lia).
  unfold BLOCK_SECTOR_SIZE. rewrite Z.rem_mod_nonneg by lia.
  set (x := sec_at (fs_device s) (ptr (data i)) (off / 512)).
  assert (0 <= x < blk_size (fs_device s)) as Hx.
  { apply (lay_in _ _ _ (fo_layout _ _ _ _ Hf)), data_sec_in.
    pose proof (sectors_of_lt off (dlength (data i)) ltac:(lia)). pose proof (fo_n _ _ _ _ Hf). lia. }
  pose proof (sector_len _ _ (fo_blk _ _ _ _ Hf) Hx) as Hxl.
  pose proof (Z.mod_pos_bound off 512 ltac:(lia)) as Hm.
  assert (r = c + read_cnt_of (dlength (data i)) (size - c) (off + c)) as Hr
    by (unfold r, read_cnt_of; lia).
  pose proof (chunk_bytes (fs_device s) (ptr (data i)) off c Ho ltac:(lia) Hc3 Hxl) as Hch.
  fold x in Hch.
  (* Both branches append the chunk and go on. *)
  assert (forall s2 bounce', same_mem s s2 -> dev_eq (fs_device s) (fs_device s2) ->
    exists s', inode_read_loop fuel p (buf ++ bytes_of (fs_device s) (ptr (data i)) off c) bounce'
      (size - c) (off + c) (br + c) s2
      = Ok ((br + r, buf ++ bytes_of (fs_device s) (ptr (data i)) off r), s') /\
      same_mem s s' /\ dev_eq (fs_device s) (fs_device s')) as Hnext.
  { intros s2 bounce' Hs2 Hd2.
    destruct (IH s2 p i n (buf ++ bytes_of (fs_device s) (ptr (data i)) off c) bounce' (size - c)
      (off + c) (br + c)) as (s' & E' & Hs' & Hd'); try lia;
      [by eapply file_ok_same|by eapply heap_ok_same|].
    exists s'. split; [|split; by etransitivity]. rewrite E'. do 3 f_equal; [lia|].
    rewrite <-app_assoc. f_equal. rewrite (bytes_of_split _ _ off c r) by (unfold read_cnt_of in Hr; lia).
    f_equal. replace (r - c) with (read_cnt_of (dlength (data i)) (size - c) (off + c)) by lia.
    apply list_fmap_ext. intros j z Hj. apply lookup_seqZ in Hj as [-> Hj].
    apply (byte_at_frame _ _ _ n); [intros y _; by apply dev_eq_sector|].
    pose proof (fo_n _ _ _ _ Hf) as Hn. unfold sectors_of, read_cnt_of in *.
    pose proof (Z.div_mod (dlength (data i) + 511) 512 ltac:(lia)).
    pose proof (Z.mod_pos_bound (dlength (data i) + 511) 512 ltac:(lia)). lia. }
  destruct ((off mod 512 =? 0) && (c =? 512)) eqn:Efull.
  - apply andb_true_iff in Efull as [E0 E1]. apply Z.eqb_eq in E0, E1.
    destruct (fs_read_ok s1 x) as (b2 & E2 & Hb2);
      [apply Hf1|simpl; by rewrite (dev_size _ _ Hb)|].
    mstep E2. simpl fs_device. rewrite (dev_eq_sector _ _ _ Hb).
    rewrite E0, E1, drop_0, take_ge in Hch by (rewrite Hxl; lia). rewrite Hch, <-E1.
    apply Hnext; [by etransitivity; [|apply same_mem_device]|]. simpl. by etransitivity.
  - destruct (bounce_ok s1 bounce) as (a & s2 & E2 & Ha & Hs2 & Hd2); [by eapply heap_ok_same|].
    mstep E2. rewrite Ha.
    assert (file_ok s2 p i n) as Hf2
      by (eapply file_ok_same; [exact Hs2|rewrite Hd2; reflexivity|done]).
    destruct (fs_read_ok s2 x) as (b3 & E3 & Hb3);
      [apply Hf2|rewrite Hd2; simpl; by rewrite (dev_size _ _ Hb)|].
    mstep E3. rewrite Hd2. simpl fs_device. rewrite (dev_eq_sector _ _ _ Hb).
    mstep_by (apply slice_ok; rewrite ?Hxl; lia). rewrite Hch.
    apply Hnext.
    + etransitivity; [exact Hs1|]. etransitivity; [exact Hs2|]. apply same_mem_device.
    + simpl. etransitivity; [exact Hb|]. by rewrite Hd2 in Hb3.
Qed.

Lemma inode_read_at_ok s p i n size off :
  file_ok s p i n -> heap_ok s -> 0 <= off -> 0 <= size -> off + size < 2147483648 ->
  let r := read_cnt_of (dlength (data i)) size off in
  exists s', inode_read_at p size off s
             = Ok ((r, bytes_of (fs_device s) (ptr (data i)) off r), s') /\
             same_mem s s' /\ dev_eq (fs_device s) (fs_device s').
Proof.
  intros Hf Hh Ho Hs Hos r. unfold inode_read_at.
  by destruct (inode_read_loop_ok (S (Z.to_nat size)) s p i n [] false size off 0)
    as (s' & E & H); [done..|lia|exists s'].
Qed.
