(* ===== verification/FsWrite.v ===== *)
(** * Writing a file in place: the loop of [inode_write_at]

    A write within the allocated sectors changes exactly the bytes of its
    range and no other sector of the device. *)

From S2P Require Import Prelude Bitmap BitmapThms Bytes Block FsModel FsRep FsRead.

(** [D'] is [D] after the bytes [buf] have been written at [off] of the file. *)
Record wrote (D D' : block) (ps : list Z) (n off : Z) (buf : list Z) : Prop := {
  wr_wf : blk_wf D';
  wr_size : blk_size D' = blk_size D;
  wr_frame : forall x, 0 <= x -> x ∉ data_secs D ps n -> sector_of D' x = sector_of D x;
  wr_bytes : forall i, 0 <= i < 512 * n ->
    byte_at D' ps i = if (off <=? i) && (i <? off + Z.of_nat (length buf))
                      then nth (Z.to_nat (i - off)) buf 0 else byte_at D ps i
}.

Lemma wrote_idx D D' ps n off buf :
  layout D ps n -> wrote D D' ps n off buf ->
  forall x, x ∈ idx_secs D ps n -> sector_of D' x = sector_of D x.
Proof.
  intros [H1 H2 Hnd Hin] W x Hx. apply W; [by apply Hin, idx_foot|].
  apply NoDup_app in Hnd as (_ & Hd & _). intros Hx'. by eapply Hd.
Qed.

Lemma wrote_layout D D' ps n off buf :
  layout D ps n -> wrote D D' ps n off buf -> layout D' ps n.
Proof.
  intros HL W. eapply layout_frame; [by eapply wrote_idx|by apply W|done].
Qed.

Lemma wrote_nil D D' ps n off :
  blk_wf D -> layout D ps n -> dev_eq D D' -> wrote D D' ps n off [].
Proof.
  intros Hwf HL Hd. split; [by eapply dev_eq_wf|apply Hd|intros; by apply dev_eq_sector|].
  intros i Hi. rewrite (byte_at_frame D D' ps n) by (done || intros; by apply dev_eq_sector).
  destruct (Z.leb_spec off i); simpl; [|done].
  by replace (i <? _) with false by (symmetry; apply Z.ltb_ge; lia).
Qed.

Lemma wrote_app D D1 D2 ps n off a b :
  layout D ps n -> wrote D D1 ps n off a ->
  wrote D1 D2 ps n (off + Z.of_nat (length a)) b -> wrote D D2 ps n off (a ++ b).
Proof.
  intros HL W1 W2. pose proof (wrote_idx _ _ _ _ _ _ HL W1) as Hidx.
  destruct W1 as [A1 A2 A3 A4], W2 as [B1 B2 B3 B4]. split; [done|congruence|..].
  - intros x Hx Hn. rewrite B3, A3; [done|done|done|done|]. 
    by rewrite (data_secs_frame D D1) by done.
  - intros i Hi. rewrite B4, A4, length_app by done.
    destruct (Z.leb_spec off i), (Z.leb_spec (off + Z.of_nat (length a)) i),
      (Z.ltb_spec i (off + Z.of_nat (length a))),
      (Z.ltb_spec i (off + Z.of_nat (length a) + Z.of_nat (length b))),
      (Z.ltb_spec i (off + Z.of_nat (length a + length b))); try lia; simpl; try done.
    + rewrite app_nth2 by lia. f_equal. lia.
    + by rewrite app_nth1 by lia.
Qed.

(** ** One sector *)

Lemma length_blit l o c :
  0 <= o -> o + Z.of_nat (length c) <= Z.of_nat (length l) -> length (blit l o c) = length l.
Proof. intros Ho Hl. unfold blit. rewrite !length_app, length_take, length_drop. lia. Qed.

Lemma nth_blit l o c j :
  0 <= o -> o + Z.of_nat (length c) <= Z.of_nat (length l) -> 0 <= j ->
  nth (Z.to_nat j) (blit l o c) 0 =
  if (o <=? j) && (j <? o + Z.of_nat (length c)) then nth (Z.to_nat (j - o)) c 0
  else nth (Z.to_nat j) l 0.
Proof.
  intros Ho Hl Hj. unfold blit.
  destruct (Z.leb_spec o j); simpl.
  - rewrite app_nth2 by (rewrite length_take; lia). rewrite length_take.
    destruct (Z.ltb_spec j (o + Z.of_nat (length c))).
    + rewrite app_nth1 by lia. f_equal. lia.
    + rewrite app_nth2 by lia. rewrite !nth_lookup, lookup_drop. do 2 f_equal. lia.
  - rewrite app_nth1 by (rewrite length_take; lia).
    rewrite !nth_lookup, lookup_take_lt by lia. done.
Qed.

Lemma wrote_chunk D D' ps n off c :
  layout D ps n -> 0 <= off -> off / 512 < n ->
  off mod 512 + Z.of_nat (length c) <= 512 ->
  blk_wf D -> blk_wf D' -> blk_size D' = blk_size D ->
  (forall j, 0 <= j -> sector_of D' j =
     if j =? sec_at D ps (off / 512)
     then blit (sector_of D (sec_at D ps (off / 512))) (off mod 512) c else sector_of D j) ->
  wrote D D' ps n off c.
Proof.
  intros HL Ho Hk Hc Hwf Hwf' Hsz Hsec.
  assert (0 <= off / 512) by (apply Z.div_pos; lia).
  pose proof (Z.mod_pos_bound off 512 ltac:(lia)) as Hm.
  set (x := sec_at D ps (off / 512)) in *.
  assert (0 <= x < blk_size D) as Hx by (apply (lay_in _ _ _ HL), data_sec_in; lia).
  pose proof (sector_len _ _ Hwf Hx) as Hxl.
  assert (forall k, 0 <= k < n -> sec_at D' ps k = sec_at D ps k) as Hsa.
  { intros k Hk'. apply (sec_at_frame D D' ps n); [|done]. intros y Hy.
    rewrite Hsec by (apply (lay_in _ _ _ HL), idx_foot; done).
    destruct (Z.eqb_spec y x) as [->|]; [|done].
    exfalso. by eapply (sec_at_not_idx D ps n (off / 512)); [|lia|]. }
  split; [done|done|..].
  - intros j Hj Hn. rewrite Hsec by done. destruct (Z.eqb_spec j x) as [->|]; [|done].
    exfalso. apply Hn. apply list_elem_of_fmap_2, elem_of_seqZ. lia.
  - intros i Hi. assert (0 <= i / 512 < n)
      by (split; [apply Z.div_pos|apply Z.div_lt_upper_bound]; lia).
    pose proof (Z.mod_pos_bound i 512 ltac:(lia)).
    pose proof (Z.div_mod i 512 ltac:(lia)). pose proof (Z.div_mod off 512 ltac:(lia)).
    unfold byte_at. rewrite Hsa, Hsec by (done || apply (lay_in _ _ _ HL), data_sec_in; done).
    destruct (Z.eqb_spec (sec_at D ps (i / 512)) x) as [E|E].
    + apply (sec_at_inj D ps n) in E; [|done|lia|lia]. rewrite E. fold x.
      rewrite nth_blit by (rewrite ?Hxl; lia).
      replace (off mod 512 <=? i mod 512) with (off <=? i)
        by (destruct (Z.leb_spec off i), (Z.leb_spec (off mod 512) (i mod 512)); lia).
      replace (i mod 512 <? off mod 512 + Z.of_nat (length c)) with (i <? off + Z.of_nat (length c))
        by (destruct (Z.ltb_spec i (off + Z.of_nat (length c))),
              (Z.ltb_spec (i mod 512) (off mod 512 + Z.of_nat (length c))); lia).
      by replace (i mod 512 - off mod 512) with (i - off) by lia.
    + assert (i / 512 <> off / 512) by (intros E'; apply E; unfold x; by rewrite E').
      destruct (Z.leb_spec off i), (Z.ltb_spec i (off + Z.of_nat (length c))); simpl; try done.
      exfalso. assert (i / 512 = off / 512); [|done]. lia.
Qed.

(** The two ways an iteration writes its sector. *)
Lemma write_sector_ok s p i n off c :
  file_ok s p i n -> 0 <= off < dlength (data i) -> off mod 512 + Z.of_nat (length c) <= 512 ->
  let x := sec_at (fs_device s) (ptr (data i)) (off / 512) in
  exists b, on_device (block_write x (blit (sector_of (fs_device s) x) (off mod 512) c)) s
            = Ok (tt, set_device s b) /\
            wrote (fs_device s) b (ptr (data i)) n off c.
Proof.
  intros Hf Ho Hc x. pose proof (sectors_of_lt _ _ Ho) as Hk. pose proof (fo_n _ _ _ _ Hf) as Hn.
  pose proof (Z.mod_pos_bound off 512 ltac:(lia)) as Hm.
  assert (0 <= x < blk_size (fs_device s)) as Hx
    by (apply (lay_in _ _ _ (fo_layout _ _ _ _ Hf)), data_sec_in; lia).
  pose proof (sector_len _ _ (fo_blk _ _ _ _ Hf) Hx) as Hxl.
  destruct (fs_write_ok s x (blit (sector_of (fs_device s) x) (off mod 512) c))
    as (b & E & H1 & H2 & H3); [apply Hf|done|by rewrite length_blit by (rewrite ?Hxl; lia)|].
  exists b. split; [done|]. apply wrote_chunk; try done; try lia; apply Hf.
Qed.

Lemma blit_full l c : length l = length c -> blit l 0 c = c.
Proof.
  intros H. unfold blit. simpl. rewrite drop_ge by lia. apply app_nil_r.
Qed.

(** ** The loop *)

Lemma file_ok_wrote s s' p i n off buf :
  same_mem s s' -> wrote (fs_device s) (fs_device s') (ptr (data i)) n off buf ->
  file_ok s p i n -> file_ok s' p i n.
Proof.
  intros Hs W [H1 H2 H3 H4 H5]. split; [by rewrite (sm_inodes _ _ Hs)|apply W| |done..].
  by eapply wrote_layout.
Qed.

(** The chunk [c] has been written; the rest of the buffer is written from the
    state reached. *)
Lemma write_continue s s2 s' p i n off size w c buffer :
  file_ok s p i n -> 0 <= c <= size -> 0 <= w -> w + size <= Z.of_nat (length buffer) ->
  same_mem s s2 ->
  wrote (fs_device s) (fs_device s2) (ptr (data i)) n off (take (Z.to_nat c) (drop (Z.to_nat w) buffer)) ->
  same_mem s2 s' ->
  wrote (fs_device s2) (fs_device s') (ptr (data i)) n (off + c)
    (take (Z.to_nat (size - c)) (drop (Z.to_nat (w + c)) buffer)) ->
  same_mem s s' /\
  wrote (fs_device s) (fs_device s') (ptr (data i)) n off (take (Z.to_nat size) (drop (Z.to_nat w) buffer)).
Proof.
  intros Hf Hc Hw Hl Hs2 W1 Hs' W2. split; [by etransitivity|].
  replace (take (Z.to_nat size) (drop (Z.to_nat w) buffer)) with
    (take (Z.to_nat c) (drop (Z.to_nat w) buffer) ++
     take (Z.to_nat (size - c)) (drop (Z.to_nat (w + c)) buffer)).
  - eapply wrote_app; [apply Hf|done|]. rewrite length_take, length_drop.
    by replace (Z.of_nat _) with c by lia.
  - replace (Z.to_nat (w + c)) with (Z.to_nat w + Z.to_nat c)%nat by lia.
    rewrite <-drop_drop, take_take_drop. f_equal. lia.
Qed.

(** An iteration that goes through the bounce buffer. *)
Lemma write_bounce_ok s p i n off c (bounce : bool) :
  file_ok s p i n -> heap_ok s -> 0 <= off < dlength (data i) ->
  0 < Z.of_nat (length c) -> off mod 512 + Z.of_nat (length c) <= 512 ->
  (off mod 512 =? 0) && (Z.of_nat (length c) =? 512) = false ->
  let x := sec_at (fs_device s) (ptr (data i)) (off / 512) in
  exists a s1 blk s2 s3,
    (if bounce then mret 1 else malloc : M fs Z) s = Ok (a, s1) /\ (a =? 0) = false /\
    (if (0 <? off mod 512) || (Z.of_nat (length c) <? 512 - off mod 512)
     then on_device (block_read x) else mret zeros) s1 = Ok (blk, s2) /\
    on_device (block_write x (blit blk (off mod 512) c)) s2 = Ok (tt, s3) /\
    same_mem s s3 /\ wrote (fs_device s) (fs_device s3) (ptr (data i)) n off c.
Proof.
  intros Hf Hh Ho Hc0 Hc Hnf x. pose proof (Z.mod_pos_bound off 512 ltac:(lia)) as Hm.
  destruct (bounce_ok s bounce Hh) as (a & s1 & E1 & Ha & Hs1 & Hd1).
  assert (file_ok s1 p i n) as Hf1
    by (eapply file_ok_same; [exact Hs1|rewrite Hd1; reflexivity|done]).
  assert ((0 <? off mod 512) || (Z.of_nat (length c) <? 512 - off mod 512) = true) as ->.
  { apply andb_false_iff in Hnf. rewrite !Z.eqb_neq in Hnf.
    apply orb_true_iff. rewrite !Z.ltb_lt. lia. }
  pose proof (sectors_of_lt _ _ Ho) as Hk. pose proof (fo_n _ _ _ _ Hf) as Hn.
  assert (0 <= x < blk_size (fs_device s)) as Hx
    by (apply (lay_in _ _ _ (fo_layout _ _ _ _ Hf)), data_sec_in; lia).
  destruct (fs_read_ok s1 x) as (b2 & E2 & Hb2); [apply Hf1|by rewrite Hd1|].
  rewrite Hd1 in E2, Hb2. set (s2 := set_device s1 b2) in *.
  assert (same_mem s s2) as Hs2 by (etransitivity; [exact Hs1|apply same_mem_device]).
  assert (file_ok s2 p i n) as Hf2 by (eapply file_ok_same; [exact Hs2|exact Hb2|done]).
  assert (sec_at (fs_device s2) (ptr (data i)) (off / 512) = x) as Ex.
  { apply (sec_at_frame _ _ _ n); [|lia]. intros y _. by apply dev_eq_sector. }
  destruct (write_sector_ok s2 p i n off c Hf2 Ho Hc) as (b3 & E3 & W3).
  rewrite Ex in E3. change (fs_device s2) with b2 in E3. rewrite (dev_eq_sector _ _ _ Hb2) in E3.
  exists a, s1, (sector_of (fs_device s) x), s2, (set_device s2 b3).
  split_and!; try done; [by etransitivity; [|apply same_mem_device]|].
  apply (wrote_app (fs_device s) b2 b3 _ _ _ [] c); [apply Hf|by apply wrote_nil; try apply Hf|].
  simpl. by rewrite Z.add_0_r.
Qed.

Lemma inode_write_loop_ok fuel : forall s p i n buffer bounce size off w,
  file_ok s p i n -> heap_ok s -> 0 <= off -> 0 <= size -> off + size <= dlength (data i) ->
  0 <= w -> w + size <= Z.of_nat (length buffer) -> size < Z.of_nat fuel ->
  exists s', inode_write_loop fuel p buffer bounce size off w s = Ok (w + size, s') /\
    same_mem s s' /\
    wrote (fs_device s) (fs_device s') (ptr (data i)) n off (take (Z.to_nat size) (drop (Z.to_nat w) buffer)).
Proof.
  induction fuel as [|fuel IH]; intros s p i n buffer bounce size off w Hf Hh Ho Hs Hos Hw Hbuf Hfu; [lia|].
  cbn [inode_write_loop]. pose proof (fo_len _ _ _ _ Hf) as Hlen.
  destruct (Z.ltb_spec 0 size) as [Hsz|Hsz].
  2: { exists s. replace size with 0 by lia. rewrite Z.add_0_r. split; [done|].
       split; [reflexivity|]. apply wrote_nil; [apply Hf..|reflexivity]. }
  destruct (byte_to_sector_ok s p i n off) as (b & E & Hb); try apply Hf; [lia|].
  mstep E. set (s1 := set_device s b).
  assert (same_mem s s1) as Hs1 by apply same_mem_device.
  assert (file_ok s1 p i n) as Hf1 by (by eapply file_ok_same).
  assert (heap_ok s1) as Hh1 by (by eapply heap_ok_same).
  assert (wrote (fs_device s) b (ptr (data i)) n off []) as W0 by (by apply wrote_nil; try apply Hf).
  mstep (inode_length_ok _ _ _ (fo_inode _ _ _ _ Hf1)).
  use_chunk (dlength (data i)) size off.
  destruct (chunk_of_pos (dlength (data i)) size off Hsz ltac:(lia)) as (Hc1 & Hc2 & Hc3).
  remember (chunk_of (dlength (data i)) size off) as c eqn:Ec. clear Ec.
  replace (c <=? 0) with false by (symmetry; apply Z.leb_gt; lia).
  unfold BLOCK_SECTOR_SIZE. rewrite Z.rem_mod_nonneg by lia.
  mstep_by (apply slice_ok; lia).
  remember (take (Z.to_nat c) (drop (Z.to_nat w) buffer)) as ch eqn:Ech.
  assert (Z.of_nat (length ch) = c) as Hch by (subst ch; rewrite length_take, length_drop; lia).
  pose proof (sectors_of_lt off (dlength (data i)) ltac:(lia)) as Hk.
  pose proof (fo_n _ _ _ _ Hf) as Hn.
  assert (sec_at (fs_device s1) (ptr (data i)) (off / 512)
          = sec_at (fs_device s) (ptr (data i)) (off / 512)) as Ex
    by (apply (sec_at_frame _ _ _ n); [intros y _; by apply dev_eq_sector|lia]).
  (* the rest, once the chunk is written *)
  assert (forall s2 bounce', same_mem s1 s2 ->
    wrote (fs_device s1) (fs_device s2) (ptr (data i)) n off ch ->
    exists s', inode_write_loop fuel p buffer bounce' (size - c) (off + c) (w + c) s2
      = Ok (w + size, s') /\ same_mem s s' /\
      wrote (fs_device s) (fs_device s') (ptr (data i)) n off
        (take (Z.to_nat size) (drop (Z.to_nat w) buffer))) as Hnext.
  { intros s2 bounce' Hs2 W2. 
    assert (same_mem s s2) as Hs02 by (by etransitivity).
    assert (wrote (fs_device s) (fs_device s2) (ptr (data i)) n off ch) as W02.
    { apply (wrote_app _ _ _ _ _ _ [] ch (fo_layout _ _ _ _ Hf) W0). simpl. by rewrite Z.add_0_r. }
    destruct (IH s2 p i n buffer bounce' (size - c) (off + c) (w + c))
      as (s' & E' & Hs' & W'); try lia; [by eapply file_ok_wrote|by eapply heap_ok_same|].
    exists s'. rewrite E'. split; [by replace (w + c + (size - c)) with (w + size) by lia|].
    eapply write_continue; [exact Hf| |exact Hw|exact Hbuf|exact Hs02| |exact Hs'|exact W'];
      [lia|by subst ch]. }
  destruct ((off mod 512 =? 0) && (c =? 512)) eqn:Efull.
  - apply andb_true_iff in Efull as [E0 E1]. apply Z.eqb_eq in E0, E1.
    destruct (write_sector_ok s1 p i n off ch Hf1) as (b2 & E2 & W2); [lia|lia|].
    rewrite Ex, E0, blit_full in E2.
    + mstep E2. apply Hnext; [apply same_mem_device|done].
    + rewrite sector_len; [lia|apply Hf1|]. rewrite <-Ex.
      apply (lay_in _ _ _ (fo_layout _ _ _ _ Hf1)), data_sec_in. lia.
  - destruct (write_bounce_ok s1 p i n off ch bounce) as (a & s2 & blk & s3 & s4 & E2 & Ha & E3 & E4 & Hs4 & W4);
      try done; [lia|lia|lia|by rewrite Hch|].
    mstep E2. rewrite Ha. rewrite Hch, Ex in E3. mstep E3. rewrite Ex in E4. mstep E4. by apply Hnext.
Qed.

(** ** A write that stays within the file *)

Lemma inode_write_inplace_ok wa s p i n buffer size off :
  file_ok s p i n -> heap_ok s -> deny_write_cnt i = 0 ->
  0 <= off -> 0 <= size -> off + size <= dlength (data i) -> size <= Z.of_nat (length buffer) ->
  exists s', inode_write_at_ wa p buffer size off s = Ok (size, s') /\ same_mem s s' /\
    wrote (fs_device s) (fs_device s') (ptr (data i)) n off (take (Z.to_nat size) buffer).
Proof.
  intros Hf Hh Hd Ho Hs Hos Hl. pose proof (fo_len _ _ _ _ Hf) as Hlen. unfold inode_write_at_.
  mstep (ld_inode_ok _ _ _ (fo_inode _ _ _ _ Hf)). rewrite Hd. cbn [Z.eqb negb].
  mstep (inode_length_ok _ _ _ (fo_inode _ _ _ _ Hf)). rewrite s32_small by lia.
  replace (dlength (data i) <? off + size) with false by (symmetry; apply Z.ltb_ge; lia).
  mstep_by reflexivity.
  destruct (inode_write_loop_ok (S (Z.to_nat size)) s p i n buffer false size off 0)
    as (s' & E & H); try done; try lia.
  exists s'. by rewrite E.
Qed.
