(* ===== verification/FsAlloc.v ===== *)
(** * The free map: [free_map_allocate]

    The state of the free map together with its file, and the effect of an
    allocation: one sector that was free is marked in the map, the map is
    written to its file, and no other sector of the device changes. *)

From S2P Require Import Prelude Bitmap BitmapThms Bytes Block FsModel FsRep FsRead FsWrite.

(** ** Counting free sectors *)

Definition free_cnt (b : bitmap) : Z := range_count b 0 (bit_cnt b) false.

Lemma filter_ext_on (P Q : Z -> Prop) `{!forall x, Decision (P x), !forall x, Decision (Q x)} (l : list Z) :
  (forall x, x ∈ l -> P x <-> Q x) -> filter P l = filter Q l.
Proof.
  induction l as [|y l IH]; intros HPQ; [done|]. rewrite !filter_cons, IH.
  - destruct (decide (P y)) as [HP|HP], (decide (Q y)) as [HQ|HQ]; try done; exfalso;
      [apply HQ, HPQ; [by apply elem_of_cons; left|done]
      |apply HP, HPQ; [by apply elem_of_cons; left|done]].
  - intros x Hx. apply HPQ. by apply elem_of_cons; right.
Qed.

Lemma filter_remove_one (P Q : Z -> Prop) `{!forall x, Decision (P x), !forall x, Decision (Q x)} (x : Z) (l : list Z) :
  NoDup l -> x ∈ l -> P x -> (forall y, y ∈ l -> Q y <-> P y /\ y <> x) ->
  length (filter P l) = S (length (filter Q l)).
Proof.
  induction l as [|y l IH]; intros Hnd Hx HP HQ; [by apply not_elem_of_nil in Hx|].
  apply NoDup_cons in Hnd as [Hy Hnd]. rewrite !filter_cons.
  assert (forall z, z ∈ l -> Q z <-> P z /\ z <> x) as HQ'
    by (intros z Hz; apply HQ; by apply elem_of_cons; right).
  destruct (decide (y = x)) as [->|Hne].
  - rewrite (decide_True (P := P x)) by done.
    rewrite decide_False by (intros HH; apply HQ in HH; [naive_solver|by apply elem_of_cons; left]).
    simpl. f_equal. f_equal. apply filter_ext_on. intros z Hz. rewrite HQ' by done.
    split; [intros ?; split; [done|by intros ->]|naive_solver].
  - apply elem_of_cons in Hx as [->|Hx]; [done|]. specialize (IH Hnd Hx HP HQ').
    assert (Q y <-> P y) as Hyy by (rewrite HQ by (by apply elem_of_cons; left); naive_solver).
    destruct (decide (P y)), (decide (Q y)); simpl; rewrite ?IH; try done; naive_solver.
Qed.

Lemma free_cnt_mark b b' x :
  wf b -> 0 <= x < bit_cnt b -> bit b x = false -> updated b b' (fun j => j =? x) true ->
  free_cnt b' = free_cnt b - 1.
Proof.
  intros Hwf Hx Hb [U1 U2 U3 U4]. unfold free_cnt, range_count. rewrite U2.
  rewrite (filter_remove_one (fun j => bit b j = false) (fun j => bit b' j = false) x
    (seqZ 0 (bit_cnt b))); [lia|apply NoDup_seqZ|apply elem_of_seqZ; lia|done|].
  intros y Hy. apply elem_of_seqZ in Hy. rewrite U4 by lia.
  destruct (Z.eqb_spec y x); naive_solver.
Qed.

Lemma free_cnt_pos b : 0 < free_cnt b -> exists x, 0 <= x < bit_cnt b /\ bit b x = false.
Proof.
  unfold free_cnt, range_count. intros H.
  destruct (filter (fun j => bit b j = false) (seqZ 0 (bit_cnt b))) as [|x l] eqn:E; [simpl in H; lia|].
  assert (x ∈ filter (fun j => bit b j = false) (seqZ 0 (bit_cnt b))) as Hx
    by (rewrite E; by apply elem_of_cons; left).
  apply list_elem_of_filter in Hx as [H1 H2]. apply elem_of_seqZ in H2. exists x. split; [lia|done].
Qed.

(** ** The free map and its file *)

(** The inode of the open free map file with its address and its number of
    sectors; [None] before the file exists. *)
Definition fm_desc : Type := option (Z * inode * Z).

Definition fm_foot (D : block) (o : fm_desc) : list Z :=
  match o with Some (_, i, n) => foot D (ptr (data i)) n | None => [] end.

Record fm_ok (s : fs) (o : fm_desc) : Prop := {
  fm_map : wf (free_map s);
  fm_cnt : bit_cnt (free_map s) = blk_size (fs_device s);
  fm_blk : blk_wf (fs_device s);
  fm_heap : heap_ok s;
  fm_used : forall x, x ∈ fm_foot (fs_device s) o -> bit (free_map s) x = true;
  fm_file : match o with
            | None => free_map_file s = 0
            | Some (ip, i, n) =>
                free_map_file s <> 0 /\
                (exists f, files s !! free_map_file s = Some f /\ finode f = ip) /\
                file_ok s ip i n /\ deny_write_cnt i = 0 /\
                dlength (data i) = byte_cnt (bit_cnt (free_map s))
            end
}.

Lemma byte_cnt_le b : wf b -> 0 <= byte_cnt (bit_cnt b) <= 4 * Z.of_nat (length (bits b)).
Proof.
  intros [H1 H2 _]. unfold byte_cnt.
  assert (0 <= elem_cnt (bit_cnt b)) by (rewrite elem_cnt_eq by done; apply Z.div_pos; lia).
  pose proof (u32_range (4 * elem_cnt (bit_cnt b))).
  assert (u32 (4 * elem_cnt (bit_cnt b)) <= 4 * elem_cnt (bit_cnt b))
    by (apply Z.mod_le; lia). lia.
Qed.

Lemma bitmap_write_ok d s ip i n :
  fm_ok s (Some (ip, i, n)) ->
  exists s', bitmap_write_ (inode_write_at (S d)) (free_map_file s) s = Ok (true, s') /\
    same_mem s s' /\
    wrote (fs_device s) (fs_device s') (ptr (data i)) n 0
      (take (Z.to_nat (byte_cnt (bit_cnt (free_map s)))) (words_bytes (bits (free_map s)))).
Proof.
  intros [H1 H2 H3 H4 H5 (H6 & (f & Ef & Efi) & Hf & Hd & Hl)].
  pose proof (byte_cnt_le _ H1) as Hb. pose proof (fo_len _ _ _ _ Hf) as Hlen.
  unfold bitmap_write_, file_write_at_. mstep_by reflexivity. rewrite s32_small by lia.
  rewrite bind_assoc. mstep_by (unfold ld_file; by rewrite Ef). rewrite Efi. cbn [inode_write_at].
  destruct (inode_write_inplace_ok (inode_write_at d) s ip i n
    (words_bytes (bits (free_map s))) (byte_cnt (bit_cnt (free_map s))) 0)
    as (s' & E & Hs & W); try done; try lia; [rewrite length_words_bytes; lia|].
  mstep E. rewrite Z.eqb_refl. by exists s'.
Qed.

(** Memory other than the free map. *)
Record same_but_map (s s' : fs) : Prop := {
  sb_file : free_map_file s' = free_map_file s;
  sb_open : open_inodes s' = open_inodes s;
  sb_files : files s' = files s;
  sb_oracle : oracle s' = oracle s;
  sb_fresh : fresh s <= fresh s';
  sb_junk_ptr : junk_ptr s' = junk_ptr s;
  sb_junk_block : junk_block s' = junk_block s
}.

#[export] Instance same_but_map_preorder : PreOrder same_but_map.
Proof. split; [by split|]. intros a b c [] []. split; try congruence. lia. Qed.

Lemma same_mem_but s s' : same_mem s s' -> same_but_map s s'.
Proof. intros []. by split. Qed.

(** ** One allocation *)

(** Between [s] and [s'], the sectors [xs], all free before, have been
    allocated; apart from them, from the sectors [T] and from the free map's
    file, the device is unchanged; only inode [p] may have changed. *)
Record alloced (p : Z) (s s' : fs) (o : fm_desc) (xs T : list Z) : Prop := {
  al_fm : fm_ok s' o;
  al_mem : same_but_map s s';
  al_inodes : forall q, q <> p -> inodes s' !! q = inodes s !! q;
  al_size : blk_size (fs_device s') = blk_size (fs_device s);
  al_foot : fm_foot (fs_device s') o = fm_foot (fs_device s) o;
  al_nodup : NoDup xs;
  al_free : forall x, x ∈ xs -> 0 <= x < blk_size (fs_device s) /\ bit (free_map s) x = false;
  al_bits : forall j, 0 <= j ->
    bit (free_map s') j = bool_decide (j ∈ xs) || bit (free_map s) j;
  al_cnt : free_cnt (free_map s') = free_cnt (free_map s) - Z.of_nat (length xs);
  al_frame : forall j, 0 <= j -> j ∉ xs -> j ∉ T -> j ∉ fm_foot (fs_device s) o ->
    sector_of (fs_device s') j = sector_of (fs_device s) j
}.

Lemma fm_foot_range s o x : fm_ok s o -> x ∈ fm_foot (fs_device s) o -> 0 <= x < blk_size (fs_device s).
Proof.
  intros H Hx. destruct o as [[[ip i] n]|]; [|by apply not_elem_of_nil in Hx].
  pose proof (fm_file _ _ H) as (_ & _ & Hf & _). by apply (lay_in _ _ _ (fo_layout _ _ _ _ Hf)).
Qed.

Lemma alloced_refl p s o T : fm_ok s o -> alloced p s s o [] T.
Proof.
  intros H. split; try done; [apply NoDup_nil_2|intros x Hx; by apply not_elem_of_nil in Hx|simpl; lia].
Qed.

Lemma alloced_trans p s1 s2 s3 o xs ys T U :
  alloced p s1 s2 o xs T -> alloced p s2 s3 o ys U -> alloced p s1 s3 o (xs ++ ys) (T ++ U).
Proof.
  intros [A1 A2 A3 A4 A5 A6 A7 A8 A9 A10] [B1 B2 B3 B4 B5 B6 B7 B8 B9 B10]. split.
  - done.
  - by etransitivity.
  - intros q Hq. by rewrite B3, A3.
  - congruence.
  - congruence.
  - apply NoDup_app. split_and!; [done| |done]. intros x Hx Hy. apply B7 in Hy as [Hr Hy].
    rewrite A8, bool_decide_eq_true_2 in Hy by (done || lia). done.
  - intros x [Hx|Hy]%elem_of_app; [by apply A7|]. apply B7 in Hy as [Hr Hy]. rewrite A4 in Hr.
    split; [done|]. rewrite A8 in Hy by lia. by apply orb_false_iff in Hy as [_ ->].
  - intros j Hj. rewrite B8, A8 by done. destruct (decide (j ∈ xs)) as [Hx|Hx].
    + rewrite (bool_decide_eq_true_2 (j ∈ xs ++ ys)) by (apply elem_of_app; by left).
      rewrite (bool_decide_eq_true_2 (j ∈ xs)) by done. by destruct (bool_decide _).
    + rewrite (bool_decide_eq_false_2 (j ∈ xs)) by done. simpl.
      f_equal. apply bool_decide_ext. rewrite elem_of_app. tauto.
  - rewrite B9, A9, length_app. lia.
  - intros j Hj Hx HT Hf. apply not_elem_of_app in Hx as [??], HT as [??].
    rewrite B10, A10; try done. by rewrite A5.
Qed.

Lemma alloced_mono p s s' o xs T T' :
  (forall j, j ∈ T -> j ∈ xs \/ j ∈ T') -> alloced p s s' o xs T -> alloced p s s' o xs T'.
Proof.
  intros HT [A1 A2 A3 A4 A5 A6 A7 A8 A9 A10]. split; try done.
  intros j Hj Hx HT' Hf. apply A10; try done. intros H. by apply HT in H as [?|?].
Qed.

(** The invariant survives writes within the free map's file and writes that
    avoid it. *)
Lemma fm_ok_device s s' o :
  fm_ok s o -> same_mem s s' -> blk_wf (fs_device s') ->
  blk_size (fs_device s') = blk_size (fs_device s) ->
  (forall ip i n x, o = Some (ip, i, n) -> x ∈ idx_secs (fs_device s) (ptr (data i)) n ->
     sector_of (fs_device s') x = sector_of (fs_device s) x) ->
  fm_ok s' o /\ fm_foot (fs_device s') o = fm_foot (fs_device s) o.
Proof.
  intros [H1 H2 H3 H4 H5 H6] Hs Hwf Hsz Hidx.
  assert (fm_foot (fs_device s') o = fm_foot (fs_device s) o) as Hft.
  { destruct o as [[[ip i] n]|]; [|done]. apply foot_frame. intros x. by apply (Hidx ip i n). }
  split; [|done]. split; rewrite ?(sm_map _ _ Hs), ?Hft; try done; [congruence|by eapply heap_ok_same|].
  rewrite (sm_file _ _ Hs), (sm_files _ _ Hs). destruct o as [[[ip i] n]|]; [|done].
  destruct H6 as (G1 & G2 & G3 & G4 & G5). split_and!; try done.
  destruct G3 as [F1 F2 F3 F4 F5]. split; try done; [by rewrite (sm_inodes _ _ Hs)|].
  eapply layout_frame; [|done|done]. intros x. by apply (Hidx ip i n).
Qed.

Lemma fs_write_alloced p s o x d :
  fm_ok s o -> 0 <= x < blk_size (fs_device s) -> x ∉ fm_foot (fs_device s) o ->
  length d = 512%nat ->
  exists b, on_device (block_write x d) s = Ok (tt, set_device s b) /\
    alloced p s (set_device s b) o [] [x] /\ sector_of b x = d /\
    forall j, 0 <= j -> j <> x -> sector_of b j = sector_of (fs_device s) j.
Proof.
  intros Hfm Hx Hxf Hd. destruct (fs_write_ok s x d) as (b & E & H1 & H2 & H3); [apply Hfm|done|done|].
  assert (forall j, 0 <= j -> j <> x -> sector_of b j = sector_of (fs_device s) j) as Hother.
  { intros j Hj Hne. rewrite H3 by done. by destruct (Z.eqb_spec j x). }
  exists b. split; [done|]. split; [|split; [rewrite H3, Z.eqb_refl by lia; done|done]].
  destruct (fm_ok_device s (set_device s b) o) as [Hfm' Hft]; try done.
  { intros ip i n y -> Hy. apply Hother; [|intros ->; by apply Hxf, idx_foot].
    apply (fm_foot_range s (Some (ip, i, n)) y Hfm). by apply idx_foot. }
  pose proof (alloced_refl p s o [x] Hfm) as [A1 A2 A3 A4 A5 A6 A7 A8 A9 A10].
  split; try done. intros j Hj _ Hne _. apply Hother; [done|]. by intros ->; apply Hne, list_elem_of_singleton.
Qed.

(** ** [free_map_allocate (1, ...)] *)

Lemma scan_one b :
  wf b -> 0 < free_cnt b ->
  exists x b', bitmap_scan_and_flip 0 1 false b = Ok (x, b') /\ (x =? BITMAP_ERROR) = false /\
    0 <= x < bit_cnt b /\ bit b x = false /\ updated b b' (fun j => j =? x) true.
Proof.
  intros Hwf Hfree. pose proof (wf_cnt _ Hwf) as Hc.
  destruct (bitmap_scan_and_flip_ok b 0 1 false Hwf ltac:(lia) ltac:(lia)) as (r & b' & E & H).
  destruct H as [(-> & Hno & _)|(Hlt & (F1 & F2 & F3 & F4) & U)].
  - exfalso. destruct (free_cnt_pos b Hfree) as (x & Hx & Hb). apply (Hno x); [lia|lia|].
    intros j Hj. by replace j with x by lia.
  - exists r, b'. split; [done|]. split; [apply Z.eqb_neq; lia|]. split; [lia|].
    split; [apply F3; lia|]. eapply updated_ext; [|exact U]. intros j Hj. unfold in_range.
    destruct (Z.eqb_spec j r), (Z.leb_spec r j), (Z.ltb_spec j (r + 1)); done || lia.
Qed.

Lemma fm_ok_mark s o b' x :
  fm_ok s o -> 0 <= x < bit_cnt (free_map s) -> bit (free_map s) x = false ->
  updated (free_map s) b' (fun j => j =? x) true ->
  alloced 0 s (set_map s b') o [x] [] /\ x ∉ fm_foot (fs_device s) o.
Proof.
  intros [H1 H2 H3 H4 H5 H6] Hx Hb U.
  assert (x ∉ fm_foot (fs_device s) o) as Hxf by (intros H; apply H5 in H; congruence).
  split; [|done]. pose proof (free_cnt_mark _ _ _ H1 Hx Hb U) as Hc. destruct U as [U1 U2 U3 U4].
  assert (forall j, 0 <= j -> bit b' j = bool_decide (j ∈ [x]) || bit (free_map s) j) as Hbits.
  { intros j Hj. rewrite U4 by done. destruct (Z.eqb_spec j x) as [->|Hne].
    - by rewrite bool_decide_eq_true_2 by (by apply list_elem_of_singleton).
    - by rewrite bool_decide_eq_false_2 by (by rewrite list_elem_of_singleton). }
  split; try done; [|apply NoDup_singleton|].
  - split; simpl; try done; [congruence|by destruct H4| |].
    + intros y Hy. assert (0 <= y) by (by eapply fm_foot_range; [split; eauto|done]).
      rewrite U4, H5 by done. by destruct (y =? x).
    + destruct o as [[[ip i] n]|]; [|done]. destruct H6 as (G1 & G2 & [] & G4 & G5).
      split_and!; try done. by rewrite U2.
  - intros y ->%list_elem_of_singleton. split; [lia|done].
Qed.

Lemma free_map_allocate_ok d s o :
  fm_ok s o -> 0 < free_cnt (free_map s) ->
  exists x s', free_map_allocate_ (inode_write_at (S d)) 1 s = Ok (Some x, s') /\
    alloced 0 s s' o [x] [] /\ inodes s' = inodes s /\ x ∉ fm_foot (fs_device s) o.
Proof.
  intros Hfm Hfree. unfold free_map_allocate_.
  destruct (scan_one _ (fm_map _ _ Hfm) Hfree) as (x & b' & E & Hne & Hx & Hb & U).
  mstep (on_map_ok _ _ _ _ E). mstep_by reflexivity. rewrite Hne. cbn [negb andb].
  destruct (fm_ok_mark s o b' x Hfm Hx Hb U) as [HA Hxf].
  set (s1 := set_map s b') in *. pose proof (al_fm _ _ _ _ _ _ HA) as Hfm1.
  destruct o as [[[ip i] n]|].
  - pose proof (fm_file _ _ Hfm1) as (G1 & G2 & G3 & G4 & G5).
    replace (free_map_file s1 =? 0) with false by (symmetry; by apply Z.eqb_neq). cbn [negb].
    destruct (bitmap_write_ok d s1 ip i n Hfm1) as (s2 & E2 & Hs2 & W).
    rewrite bind_assoc. mstep E2. cbn [negb]. mstep_by reflexivity. rewrite Hne.
    exists x, s2. split; [done|]. split; [|split; [apply (sm_inodes _ _ Hs2)|done]].
    destruct (fm_ok_device s1 s2 (Some (ip, i, n)) Hfm1 Hs2) as [Hfm2 Hft2]; [apply W|apply W| |].
    { intros ip' i' n' y [= <- <- <-] Hy. by eapply wrote_idx; [apply G3|exact W|]. }
    apply (alloced_trans 0 s s1 s2 _ [x] [] [] []); [done|].
    pose proof (alloced_refl 0 s1 (Some (ip, i, n)) [] Hfm1) as [A1 A2 A3 A4 A5 A6 A7 A8 A9 A10].
    split; try done; try (rewrite (sm_map _ _ Hs2); done); [by apply same_mem_but| |apply W|].
    + intros q _. by rewrite (sm_inodes _ _ Hs2).
    + intros j Hj _ _ Hf. apply W; [done|]. intros Hd. apply Hf, elem_of_app. by left.
  - rewrite (fm_file _ _ Hfm1). cbn [Z.eqb negb]. mstep_by reflexivity. rewrite Hne. by exists x, s1.
Qed.
