(* ===== verification/FsGrow.v ===== *)
(** * Growing a file: [inode_grow] and its helpers

    Each helper allocates a number of zeroed sectors and enters them in the
    index; the lemmas follow the code level by level and say which sectors the
    index of the file designates afterwards. *)

From S2P Require Import Prelude Bitmap BitmapThms Bytes Block FsModel FsRep FsRead FsWrite FsAlloc.

Lemma alloced_any p q s s' o xs T :
  inodes s' = inodes s -> alloced p s s' o xs T -> alloced q s s' o xs T.
Proof.
  intros Hi [A1 A2 A3 A4 A5 A6 A7 A8 A9 A10]. split; try done. intros r _. by rewrite Hi.
Qed.

Lemma length_zeros : length zeros = 512%nat.
Proof. done. Qed.

(** Entering an allocated sector in an array of pointers. *)
Lemma store_at_ok l k x s :
  0 <= k < Z.of_nat (length l) ->
  store_at l k (Some x) s = Ok (<[Z.to_nat k := x]> l, s).
Proof. intros Hk. unfold store_at. by mstep (aref_ok _ _ s Hk). Qed.

Lemma aref_store l k x s :
  0 <= k < Z.of_nat (length l) -> aref (<[Z.to_nat k := x]> l) k s = Ok (x, s).
Proof.
  intros Hk. rewrite aref_ok by (by rewrite length_insert).
  unfold getp. rewrite nth_lookup, list_lookup_insert_eq by lia. done.
Qed.

(** A sector allocated earlier keeps its contents. *)
Lemma alloced_keeps p s s' o xs T x :
  alloced p s s' o xs T -> 0 <= x -> bit (free_map s) x = true -> x ∉ T ->
  x ∉ fm_foot (fs_device s) o -> sector_of (fs_device s') x = sector_of (fs_device s) x.
Proof.
  intros HA Hx Hb HT Hf. apply HA; try done. intros Hxs. apply HA in Hxs as [_ H]. congruence.
Qed.

(** Allocation of a sector that is then filled with zeros. *)
Lemma alloc_zero_ok d s o :
  fm_ok s o -> 0 < free_cnt (free_map s) ->
  exists x s1 b, free_map_allocate_ (inode_write_at (S d)) 1 s = Ok (Some x, s1) /\
    on_device (block_write x zeros) s1 = Ok (tt, set_device s1 b) /\
    alloced 0 s (set_device s1 b) o [x] [] /\ inodes s1 = inodes s /\
    alloced 0 s s1 o [x] [] /\
    sector_of b x = zeros /\ x ∉ fm_foot (fs_device s) o.
Proof.
  intros Hfm Hfree.
  destruct (free_map_allocate_ok d s o Hfm Hfree) as (x & s1 & E & HA & Hi & Hxf).
  assert (0 <= x < blk_size (fs_device s1)) as Hx.
  { rewrite (al_size _ _ _ _ _ _ HA). apply HA. by apply list_elem_of_singleton. }
  destruct (fs_write_alloced 0 s1 o x zeros (al_fm _ _ _ _ _ _ HA) Hx) as (b & Eb & HB & Hz & _);
    [by rewrite (al_foot _ _ _ _ _ _ HA)|done|].
  exists x, s1, b. split_and!; try done.
  eapply alloced_mono; [|exact (alloced_trans _ _ _ _ _ [x] [] [] [x] HA HB)].
  intros j Hj. by left.
Qed.

Lemma insert_middle (l : list Z) (k : nat) x xs m :
  (k < length l)%nat ->
  take (S k) (<[k := x]> l) ++ xs ++ drop (S k + m) (<[k := x]> l)
  = take k l ++ (x :: xs) ++ drop (k + S m) l.
Proof.
  intros Hk. rewrite insert_take_drop by done.
  rewrite take_app_ge by (rewrite length_take; lia). rewrite drop_app_ge by (rewrite length_take; lia).
  rewrite length_take, Nat.min_l by lia.
  replace (S k - k)%nat with 1%nat by lia. replace (S k + m - k)%nat with (S m) by lia. simpl.
  rewrite drop_drop, take_0, <-app_assoc. simpl. do 4 f_equal. lia.
Qed.

(** ** The loop over a block of pointers *)

Lemma grow_block_loop_ok d o m : forall s blk index sectors,
  fm_ok s o -> 0 <= index -> index + Z.of_nat m = Z.of_nat (length blk) ->
  0 <= sectors < 4294967296 ->
  let k := Z.min (Z.of_nat m) sectors in
  k <= free_cnt (free_map s) ->
  exists xs s',
    grow_block_loop (inode_write_at (S d)) m blk index sectors s
    = Ok ((take (Z.to_nat index) blk ++ xs ++ drop (Z.to_nat index + Z.to_nat k) blk,
           index + k, sectors - k), s') /\
    Z.of_nat (length xs) = k /\ alloced 0 s s' o xs [] /\ inodes s' = inodes s /\
    (forall x, x ∈ xs -> sector_of (fs_device s') x = zeros /\ x ∉ fm_foot (fs_device s) o).
Proof.
  induction m as [|m IH]; intros s blk index sectors Hfm Hi Hl Hs k Hfree; cbn [grow_block_loop].
  - exists [], s. replace k with 0 by lia. rewrite Nat.add_0_r. simpl.
    rewrite take_drop, Z.add_0_r, Z.sub_0_r. split_and!; try done; [by apply alloced_refl|].
    intros x Hx. by apply not_elem_of_nil in Hx.
  - destruct (Z.eqb_spec sectors 0) as [->|Hne]; cbn [negb].
    { exists [], s. replace k with 0 by lia. rewrite Nat.add_0_r. simpl.
      rewrite take_drop, Z.add_0_r. split_and!; try done; [by apply alloced_refl|].
      intros x Hx. by apply not_elem_of_nil in Hx. }
    destruct (alloc_zero_ok d s o Hfm ltac:(lia)) as (x & s1 & b & E1 & E2 & HA & Hi1 & _ & Hz & Hxf).
    mstep E1. mstep_by (apply store_at_ok; lia). mstep_by (apply aref_store; lia). mstep E2.
    rewrite u32_small by lia. set (s2 := set_device s1 b) in *.
    pose proof (al_cnt _ _ _ _ _ _ HA) as Hcnt. simpl in Hcnt.
    destruct (IH s2 (<[Z.to_nat index := x]> blk) (index + 1) (sectors - 1))
      as (xs & s' & E' & Hlen & HA' & Hi' & Hz'); 
      [apply HA|lia|rewrite length_insert; lia|lia|simpl; lia|].
    set (k' := Z.min (Z.of_nat m) (sectors - 1)) in *. assert (k = k' + 1) as Hk by lia.
    exists (x :: xs), s'. split_and!.
    + rewrite E'. replace (index + 1 + k') with (index + k) by lia.
      replace (sectors - 1 - k') with (sectors - k) by lia. do 4 f_equal.
      replace (Z.to_nat (index + 1)) with (S (Z.to_nat index)) by lia.
      rewrite insert_middle by lia. do 3 f_equal. lia.
    + simpl. lia.
    + exact (alloced_trans _ _ _ _ _ [x] xs [] [] HA HA').
    + etransitivity; [exact Hi'|exact Hi1].
    + intros y [->|Hy]%elem_of_cons.
      * split; [|done]. rewrite <-Hz. apply (alloced_keeps _ _ _ _ _ _ _ HA').
        -- apply HA. by apply list_elem_of_singleton.
        -- rewrite (al_bits _ _ _ _ _ _ HA) by (apply HA; by apply list_elem_of_singleton).
           by rewrite bool_decide_eq_true_2 by (by apply list_elem_of_singleton).
        -- apply not_elem_of_nil.
        -- by rewrite (al_foot _ _ _ _ _ _ HA).
      * destruct (Hz' y Hy) as [H1 H2]. split; [done|]. by rewrite (al_foot _ _ _ _ _ _ HA) in H2.
Qed.

(** ** Stages of growth *)

(** Sectors that belong to the file: distinct, in use, and not the free map's. *)
Record tracked (s : fs) (o : fm_desc) (idx : list Z) : Prop := {
  tr_nodup : NoDup idx;
  tr_used : forall x, x ∈ idx -> 0 <= x < blk_size (fs_device s) /\
    bit (free_map s) x = true /\ x ∉ fm_foot (fs_device s) o
}.

(** From [s] to [s'] the file has grown from [n] to [n'] sectors.  Sector [k]
    was [f k] and is [f' k], the index blocks were [idx] and are [idx']: the
    old sectors keep their place, the new ones are zeroed, the index blocks
    and the new sectors are the old index blocks and freshly allocated ones,
    and nothing else on the device has changed. *)
Definition stage (p : Z) (o : fm_desc) (s s' : fs) (f f' : Z -> Z) (idx idx' : list Z)
    (n n' : Z) : Prop :=
  exists xs,
    alloced p s s' o xs idx /\
    (forall k, 0 <= k < n -> f' k = f k) /\
    idx' ++ (f' <$> seqZ n (n' - n)) ≡ₚ idx ++ xs /\
    (forall k, n <= k < n' -> sector_of (fs_device s') (f' k) = zeros).

Lemma alloced_tracked p s s' o xs T idx idx' :
  fm_ok s o -> alloced p s s' o xs T -> tracked s o idx -> idx' ≡ₚ idx ++ xs -> tracked s' o idx'.
Proof.
  intros Hfm HA [H1 H2] HP. split.
  - rewrite HP. apply NoDup_app. split_and!; [done| |apply HA].
    intros x Hx Hxs. apply H2 in Hx as (_ & Hb & _). apply HA in Hxs as [_ Hb']. congruence.
  - intros x Hx. rewrite HP in Hx. rewrite (al_size _ _ _ _ _ _ HA), (al_foot _ _ _ _ _ _ HA).
    apply elem_of_app in Hx as [Hx|Hx].
    + destruct (H2 x Hx) as (Hr & Hb & Hf). split_and!; [lia|lia| |done].
      rewrite (al_bits _ _ _ _ _ _ HA), Hb by lia. apply orb_true_r.
    + destruct (al_free _ _ _ _ _ _ HA x Hx) as [Hr Hb]. split_and!; [lia|lia| |].
      * by rewrite (al_bits _ _ _ _ _ _ HA), bool_decide_eq_true_2 by (done || lia).
      * intros Hf. apply (fm_used _ _ Hfm) in Hf. congruence.
Qed.

Lemma tracked_app s o a b : tracked s o (a ++ b) -> tracked s o a.
Proof.
  intros [H1 H2]. apply NoDup_app in H1 as (H1 & _ & _). split; [done|].
  intros x Hx. apply H2, elem_of_app. by left.
Qed.

Lemma stage_refl p o s f idx n : fm_ok s o -> stage p o s s f f idx idx n n.
Proof.
  intros Hfm. exists []. split_and!; [by apply alloced_refl|done| |].
  - rewrite Z.sub_diag. done.
  - intros k Hk. lia.
Qed.

(** A new sector is none of the index blocks. *)
Lemma new_not_idx s o (f : Z -> Z) idx n m k :
  tracked s o (idx ++ (f <$> seqZ n m)) -> n <= k < n + m -> f k ∉ idx.
Proof.
  intros [Hnd _] Hk Hin. apply NoDup_app in Hnd as (_ & Hd & _). eapply Hd; [done|].
  apply list_elem_of_fmap_2, elem_of_seqZ. lia.
Qed.

Lemma stage_trans p o s s1 s2 f f1 f2 idx idx1 idx2 n n1 n2 :
  fm_ok s o -> tracked s o idx -> 0 <= n <= n1 -> n1 <= n2 ->
  stage p o s s1 f f1 idx idx1 n n1 -> stage p o s1 s2 f1 f2 idx1 idx2 n1 n2 ->
  stage p o s s2 f f2 idx idx2 n n2.
Proof.
  intros Hfm Htr Hn Hn1 (xs & A & Hf & HP & Hz) (ys & B & Hg & HQ & Hy).
  pose proof (alloced_tracked _ _ _ _ _ _ _ _ Hfm A Htr HP) as Htr1.
  assert (forall k, n <= k < n1 -> f2 k = f1 k) as Hfg by (intros; apply Hg; lia).
  exists (xs ++ ys). split_and!.
  - eapply alloced_mono; [|exact (alloced_trans _ _ _ _ _ _ _ _ _ A B)].
    intros j [Hj|Hj]%elem_of_app; [by right|].
    assert (j ∈ idx ++ xs) as Hj' by (rewrite <-HP; apply elem_of_app; by left).
    apply elem_of_app in Hj' as [Hj'|Hj']; [by right|]. left. apply elem_of_app. by left.
  - intros k Hk. rewrite Hg by lia. by apply Hf.
  - replace (n2 - n) with ((n1 - n) + (n2 - n1)) by lia.
    rewrite seqZ_app, fmap_app by lia. replace (n + (n1 - n)) with n1 by lia.
    assert (f2 <$> seqZ n (n1 - n) = f1 <$> seqZ n (n1 - n)) as ->.
    { apply list_fmap_ext. intros j k Hk. apply lookup_seqZ in Hk as [-> Hk]. apply Hfg. lia. }
    rewrite (app_assoc idx xs ys), <-HP, <-(app_assoc idx1).
    rewrite (Permutation_app_comm (f1 <$> _) ys), (app_assoc idx1 ys), <-HQ, <-(app_assoc idx2).
    by rewrite (Permutation_app_comm (f1 <$> _) (f2 <$> _)).
  - intros k Hk. destruct (Z.lt_ge_cases k n1); [|apply Hy; lia].
    rewrite Hfg by lia. rewrite <-(Hz k) by lia.
    assert (f1 k ∈ idx1 ++ (f1 <$> seqZ n (n1 - n))) as Hin
      by (apply elem_of_app; right; apply list_elem_of_fmap_2, elem_of_seqZ; lia).
    destruct (tr_used _ _ _ Htr1 _ Hin) as (Hr & Hb & Hnf).
    apply (alloced_keeps _ _ _ _ _ _ _ B); try done; [lia|]. eapply new_not_idx; [done|lia].
Qed.

(** ** The levels of the index

    [inode_grow] fills the direct pointers, then the block of the first level,
    then the blocks of the second level: one [stage] each. *)

(** Inode [p] is not the one of the free map. *)
Definition not_fm (o : fm_desc) (p : Z) : Prop :=
  match o with Some (ip, _, _) => p <> ip | None => True end.

Lemma upd_data_ok s p i f :
  inodes s !! p = Some i ->
  upd_data p f s = Ok (tt, set_inodes s (<[p := with_data i (f (data i))]> (inodes s))).
Proof.
  intros Hi. unfold upd_data. mstep (ld_inode_ok _ _ _ Hi). unfold st_inode. by rewrite Hi.
Qed.

Lemma upd_alloced s o p j T :
  fm_ok s o -> not_fm o p -> alloced p s (set_inodes s (<[p := j]> (inodes s))) o [] T.
Proof.
  intros Hfm Hp. pose proof (alloced_refl p s o T Hfm) as [A1 A2 A3 A4 A5 A6 A7 A8 A9 A10].
  split; try done; [|intros q Hq; simpl; by rewrite lookup_insert_ne].
  destruct Hfm as [H1 H2 H3 H4 H5 H6]. split; try done; [by destruct H4|].
  destruct o as [[[ip i] n]|]; [|done]. destruct H6 as (G1 & G2 & [F1 F2 F3 F4 F5] & G4 & G5).
  split_and!; try done. split; try done. simpl. by rewrite lookup_insert_ne.
Qed.

Lemma with_ptr_id i : with_data i (with_ptr (data i) (ptr (data i))) = i.
Proof. destruct i as [? ? ? ? [] ?]. done. Qed.

(** ** Pointers in the middle of an array *)

Lemma getp_mid l xs i k :
  0 <= i -> i + Z.of_nat (length xs) <= Z.of_nat (length l) ->
  0 <= k < i + Z.of_nat (length xs) ->
  getp (take (Z.to_nat i) l ++ xs ++ drop (Z.to_nat i + length xs) l) k
  = if k <? i then getp l k else getp xs (k - i).
Proof.
  intros Hi Hl Hk. unfold getp. rewrite !nth_lookup. destruct (Z.ltb_spec k i).
  - by rewrite lookup_app_l, lookup_take_lt by (rewrite ?length_take; lia).
  - rewrite lookup_app_r by (rewrite length_take; lia). rewrite length_take, lookup_app_l by lia.
    do 2 f_equal. lia.
Qed.

Lemma getp_seq xs i : (fun k => getp xs (k - i)) <$> seqZ i (Z.of_nat (length xs)) = xs.
Proof.
  apply list_eq. intros j. rewrite list_lookup_fmap. destruct (decide (j < length xs)%nat).
  - rewrite lookup_seqZ_lt by lia. cbn [fmap option_fmap option_map]. unfold getp.
    destruct (lookup_lt_is_Some_2 xs j) as [x E]; [done|].
    replace (Z.to_nat (i + Z.of_nat j - i)) with j by lia.
    by rewrite (nth_lookup_Some _ _ _ _ E), E.
  - rewrite lookup_seqZ_ge by lia. by rewrite lookup_ge_None_2 by lia.
Qed.

Lemma getp_in xs k : 0 <= k < Z.of_nat (length xs) -> getp xs k ∈ xs.
Proof.
  intros Hk. unfold getp. destruct (lookup_lt_is_Some_2 xs (Z.to_nat k)) as [x E]; [lia|].
  rewrite (nth_lookup_Some _ _ _ _ E). by eapply list_elem_of_lookup_2.
Qed.

(** ** Direct pointers *)

Lemma grow_direct_loop_ok d o p m : forall s i index sectors,
  fm_ok s o -> not_fm o p -> inodes s !! p = Some i -> length (ptr (data i)) = 12%nat ->
  0 <= index -> index + Z.of_nat m <= 12 -> 0 <= sectors < 4294967296 ->
  let k := Z.min (Z.of_nat m) sectors in
  k <= free_cnt (free_map s) ->
  exists xs s',
    grow_direct_loop (inode_write_at (S d)) m p index sectors s
    = Ok ((index + k, sectors - k), s') /\
    Z.of_nat (length xs) = k /\ alloced p s s' o xs [] /\
    inodes s' = <[p := with_data i (with_ptr (data i) (take (Z.to_nat index) (ptr (data i)) ++ xs
                    ++ drop (Z.to_nat index + Z.to_nat k) (ptr (data i))))]> (inodes s) /\
    (forall x, x ∈ xs -> sector_of (fs_device s') x = zeros).
Proof.
  induction m as [|m IH]; intros s i index sectors Hfm Hp Hi Hl Hix Hm Hs k Hfree;
    cbn [grow_direct_loop].
  - exists [], s. replace k with 0 by lia. rewrite Nat.add_0_r. simpl app.
    rewrite take_drop, with_ptr_id, insert_id, Z.add_0_r, Z.sub_0_r by done.
    split_and!; try done; [by apply alloced_refl|]. intros x Hx. by apply not_elem_of_nil in Hx.
  - destruct (Z.eqb_spec sectors 0) as [->|Hne]; cbn [negb].
    { exists [], s. replace k with 0 by lia. rewrite Nat.add_0_r. simpl app.
      rewrite take_drop, with_ptr_id, insert_id, Z.add_0_r by done.
      split_and!; try done; [by apply alloced_refl|]. intros x Hx. by apply not_elem_of_nil in Hx. }
    destruct (free_map_allocate_ok d s o Hfm ltac:(lia)) as (x & s1 & E1 & HA1 & Hi1 & Hxf).
    mstep E1. rewrite <-Hi1 in Hi. mstep (ld_data_ok _ _ _ Hi).
    mstep_by (apply store_at_ok; lia). mstep (upd_data_ok _ _ _ (fun d => with_ptr d
      (<[Z.to_nat index := x]> (ptr (data i)))) Hi).
    mstep_by (apply aref_store; lia). set (ps1 := <[Z.to_nat index := x]> (ptr (data i))).
    set (i1 := with_data i (with_ptr (data i) ps1)).
    set (s2 := set_inodes s1 (<[p := i1]> (inodes s1))).
    pose proof (upd_alloced s1 o p i1 [] (al_fm _ _ _ _ _ _ HA1) Hp) as HA2. fold s2 in HA2.
    pose proof (alloced_trans _ _ _ _ _ [x] [] [] []
      (alloced_any 0 p _ _ _ _ _ Hi1 HA1) HA2) as HA12. simpl app in HA12.
    assert (x ∈ [x]) as Hxx by (by apply list_elem_of_singleton).
    destruct (fs_write_alloced p s2 o x zeros (al_fm _ _ _ _ _ _ HA12)) as (b & Eb & HB & Hz & _).
    { rewrite (al_size _ _ _ _ _ _ HA12). by apply HA12. }
    { by rewrite (al_foot _ _ _ _ _ _ HA12). }
    { done. }
    mstep Eb. rewrite u32_small by lia. set (s3 := set_device s2 b) in *.
    assert (alloced p s s3 o [x] []) as HA3.
    { eapply alloced_mono; [|exact (alloced_trans _ _ _ _ _ [x] [] [] [x] HA12 HB)].
      intros j Hj. by left. }
    pose proof (al_cnt _ _ _ _ _ _ HA3) as Hcnt. simpl in Hcnt.
    destruct (IH s3 i1 (index + 1) (sectors - 1)) as (xs & s' & E' & Hlen & HA' & Hi' & Hz');
      [apply HA3|done|simpl; by rewrite lookup_insert_eq|unfold i1, ps1; simpl; by rewrite length_insert|lia|lia|lia|simpl; lia|].
    set (k' := Z.min (Z.of_nat m) (sectors - 1)) in *. assert (k = k' + 1) as Hk by lia.
    exists (x :: xs), s'. split_and!.
    + rewrite E'. replace (index + 1 + k') with (index + k) by lia.
      by replace (sectors - 1 - k') with (sectors - k) by lia.
    + simpl. lia.
    + exact (alloced_trans _ _ _ _ _ [x] xs [] [] HA3 HA').
    + rewrite Hi'. simpl. rewrite insert_insert_eq, Hi1. f_equal. unfold i1, with_data, with_ptr. simpl.
      f_equal. f_equal. replace (Z.to_nat (index + 1)) with (S (Z.to_nat index)) by lia.
      unfold ps1. rewrite insert_middle by lia. by replace (Z.to_nat k) with (S (Z.to_nat k')) by lia.
    + intros y [->|Hy]%elem_of_cons; [|by apply Hz']. rewrite <-Hz.
      apply (alloced_keeps _ _ _ _ _ _ _ HA').
      * by apply HA3.
      * rewrite (al_bits _ _ _ _ _ _ HA3) by (by apply HA3). by rewrite bool_decide_eq_true_2.
      * apply not_elem_of_nil.
      * by rewrite (al_foot _ _ _ _ _ _ HA3).
Qed.

(** ** Growth of a file *)

(** Everything but the index. *)
Record same_meta (i i' : inode) : Prop := {
  mt_open : open_cnt i' = open_cnt i;
  mt_deny : deny_write_cnt i' = deny_write_cnt i;
  mt_removed : removed i' = removed i;
  mt_sector : sector i' = sector i;
  mt_locked : locked i' = locked i;
  mt_length : dlength (data i') = dlength (data i);
  mt_magic : magic (data i') = magic (data i);
  mt_unused : unused (data i') = unused (data i);
  mt_parent : parent (data i') = parent (data i);
  mt_sub_dir : sub_dir (data i') = sub_dir (data i)
}.

#[export] Instance same_meta_preorder : PreOrder same_meta.
Proof. split; [by split|]. intros a b c [] []. split; congruence. Qed.

(** A file of [n] sectors that can grow. *)
Record growing (s : fs) (o : fm_desc) (p : Z) (i : inode) (n : Z) : Prop := {
  gr_fm : fm_ok s o;
  gr_p : not_fm o p;
  gr_inode : inodes s !! p = Some i;
  gr_len : length (ptr (data i)) = 12%nat;
  gr_n : 0 <= n <= MAX_SECTORS;
  gr_tracked : tracked s o (foot (fs_device s) (ptr (data i)) n);
  gr_idx : idx_ok (data i) n;
  gr_junk : length (junk_block s) = 128%nat
}.

(** The file has grown from [n] to [n'] sectors. *)
Record grown (p : Z) (o : fm_desc) (s s' : fs) (i i' : inode) (n n' : Z) : Prop := {
  gw_stage : stage p o s s' (sec_at (fs_device s) (ptr (data i)))
    (sec_at (fs_device s') (ptr (data i'))) (idx_secs (fs_device s) (ptr (data i)) n)
    (idx_secs (fs_device s') (ptr (data i')) n') n n';
  gw_inode : inodes s' !! p = Some i';
  gw_meta : same_meta i i';
  gw_len : length (ptr (data i')) = 12%nat;
  gw_idx : idx_ok (data i') n';
  gw_le : n <= n'
}.

Lemma growing_layout s o p i n : growing s o p i n -> layout (fs_device s) (ptr (data i)) n.
Proof.
  intros [H1 H2 H3 H4 H5 [H6 H6'] H7 H8]. split; try done. intros x Hx. by apply H6'.
Qed.

Lemma growing_idx s o p i n :
  growing s o p i n -> tracked s o (idx_secs (fs_device s) (ptr (data i)) n).
Proof.
  intros H. destruct (gr_tracked _ _ _ _ _ H) as [H1 H2]. apply NoDup_app in H1 as (_ & _ & H1).
  split; [done|]. intros x Hx. by apply H2, idx_foot.
Qed.

(** The sectors after growth: those before and the allocated ones. *)
Lemma stage_all p o s s' f f' idx idx' n n' :
  0 <= n <= n' -> stage p o s s' f f' idx idx' n n' ->
  exists xs, alloced p s s' o xs idx /\
             (f' <$> seqZ 0 n') ++ idx' ≡ₚ ((f <$> seqZ 0 n) ++ idx) ++ xs.
Proof.
  intros Hn (xs & HA & Hf & HP & _). exists xs. split; [done|].
  replace n' with (n + (n' - n)) at 1 by lia. rewrite seqZ_app, fmap_app by lia.
  rewrite Z.add_0_l.
  assert (f' <$> seqZ 0 n = f <$> seqZ 0 n) as ->.
  { apply list_fmap_ext. intros j k Hk. apply lookup_seqZ in Hk as [-> Hk]. apply Hf. lia. }
  rewrite <-!app_assoc, <-HP. apply Permutation_app_head, Permutation_app_comm.
Qed.

Lemma grown_growing p o s s' i i' n n' :
  growing s o p i n -> grown p o s s' i i' n n' -> n' <= MAX_SECTORS -> growing s' o p i' n'.
Proof.
  intros Hg [W1 W2 W3 W4 W5 W6] Hn'. pose proof (gr_n _ _ _ _ _ Hg) as Hn.
  destruct (stage_all _ _ _ _ _ _ _ _ _ _ (conj (proj1 Hn) W6) W1) as (xs & HA & HP).
  split; try done; [apply HA|apply Hg|lia| |].
  - eapply alloced_tracked; [apply Hg|done|apply Hg|done].
  - rewrite (sb_junk_block _ _ (al_mem _ _ _ _ _ _ HA)). apply Hg.
Qed.

Lemma grown_trans p o s s1 s2 i i1 i2 n n1 n2 :
  growing s o p i n -> grown p o s s1 i i1 n n1 -> grown p o s1 s2 i1 i2 n1 n2 ->
  grown p o s s2 i i2 n n2.
Proof.
  intros Hg [A1 A2 A3 A4 A5 A6] [B1 B2 B3 B4 B5 B6]. pose proof (gr_n _ _ _ _ _ Hg).
  split; try done; [|by etransitivity|lia].
  eapply stage_trans; [apply Hg|by eapply growing_idx|..|exact A1|exact B1]; lia.
Qed.

(** Index blocks that [n] sectors need. *)
Definition idx_len (n : Z) : Z :=
  (if 10 <? n then 1 else 0) + (if 138 <? n then 1 + inner_cnt (n - 138) else 0).

Lemma length_idx_secs D ps n : 0 <= n -> Z.of_nat (length (idx_secs D ps n)) = idx_len n.
Proof.
  intros Hn. unfold idx_secs, idx_len. rewrite length_app, Nat2Z.inj_add. f_equal.
  - by destruct (10 <? n).
  - destruct (Z.ltb_spec 138 n); [|done]. simpl length. rewrite length_fmap, length_seqZ.
    assert (0 <= inner_cnt (n - 138)) by (apply Z.div_pos; lia). lia.
Qed.

(** Growth uses up exactly the sectors it needs. *)
Lemma grown_free p o s s' i i' n n' :
  0 <= n -> grown p o s s' i i' n n' ->
  free_cnt (free_map s') = free_cnt (free_map s) - (n' + idx_len n' - (n + idx_len n)).
Proof.
  intros Hn [(xs & HA & _ & HP & _) _ _ _ _ Hle]. rewrite (al_cnt _ _ _ _ _ _ HA).
  apply Permutation_length in HP. rewrite !length_app, length_fmap, length_seqZ in HP.
  pose proof (length_idx_secs (fs_device s) (ptr (data i)) n Hn).
  pose proof (length_idx_secs (fs_device s') (ptr (data i')) n' ltac:(lia)). lia.
Qed.

(** ** Stage 1: the direct pointers *)

Lemma idx_secs_small D ps n : n <= 10 -> idx_secs D ps n = [].
Proof.
  intros Hn. unfold idx_secs.
  replace (10 <? n) with false by (symmetry; apply Z.ltb_ge; lia).
  by replace (138 <? n) with false by (symmetry; apply Z.ltb_ge; lia).
Qed.

Lemma sec_at_direct D ps k : k < 10 -> sec_at D ps k = getp ps k.
Proof. intros Hk. unfold sec_at. by replace (k <? 10) with true by (symmetry; by apply Z.ltb_lt). Qed.

Lemma direct_stage d s o p i n sectors :
  growing s o p i n -> n <= 10 -> 0 <= sectors < 4294967296 ->
  let k := Z.min (10 - n) sectors in
  k <= free_cnt (free_map s) ->
  exists s1 s' i', 
    grow_direct_loop (inode_write_at (S d)) (Z.to_nat (10 - n)) p n sectors s
    = Ok ((n + k, sectors - k), s1) /\
    upd_data p (fun d => with_index d (u32 (n + k)) (first_level_index d) (second_level_index d)) s1
    = Ok (tt, s') /\
    grown p o s s' i i' n (n + k).
Proof.
  intros Hg Hn Hs k Hfree. pose proof (gr_n _ _ _ _ _ Hg) as Hn0.
  destruct (grow_direct_loop_ok d o p (Z.to_nat (10 - n)) s i n sectors) as (xs & s1 & E & Hl & HA & Hi & Hz);
    try apply Hg; try lia.
  rewrite Z2Nat.id in * by lia. fold k in E, Hl, Hi.
  set (ps' := take (Z.to_nat n) (ptr (data i)) ++ xs ++ drop (Z.to_nat n + Z.to_nat k) (ptr (data i))) in *.
  assert (inodes s1 !! p = Some (with_data i (with_ptr (data i) ps'))) as Hi1
    by (rewrite Hi; by rewrite lookup_insert_eq).
  pose proof (gr_len _ _ _ _ _ Hg) as Hlen.
  assert (forall j, 0 <= j < n + k -> getp ps' j = if j <? n then getp (ptr (data i)) j else getp xs (j - n)) as Hget.
  { intros j Hj. unfold ps'. replace (Z.to_nat k) with (length xs) by lia.
    apply getp_mid; lia. }
  set (i' := with_data i (with_index (with_ptr (data i) ps') (u32 (n + k))
               (first_level_index (data i)) (second_level_index (data i)))).
  set (s' := set_inodes s1 (<[p := i']> (inodes s1))).
  exists s1, s', i'. split; [exact E|]. split; [by rewrite (upd_data_ok _ _ _ _ Hi1)|].
  assert (alloced p s s' o xs []) as HA'.
  { rewrite <-(app_nil_r xs). apply (alloced_trans _ _ s1 _ _ xs [] [] []); [done|].
    apply upd_alloced; [apply HA|apply Hg]. }
  split; simpl.
  - exists xs. split_and!.
    + eapply alloced_mono; [|exact HA']. intros j Hj. by apply not_elem_of_nil in Hj.
    + intros j Hj. rewrite !sec_at_direct, Hget by lia.
      by replace (j <? n) with true by (symmetry; apply Z.ltb_lt; lia).
    + rewrite !idx_secs_small by lia. simpl. replace (n + k - n) with k by lia.
      rewrite <-(getp_seq xs n). rewrite Hl. apply reflexive_eq, list_fmap_ext.
      intros j z Hj. apply lookup_seqZ in Hj as [-> Hj]. rewrite sec_at_direct, Hget by lia.
      by replace (_ <? n) with false by (symmetry; apply Z.ltb_ge; lia).
    + intros j Hj. rewrite sec_at_direct, Hget by lia.
      replace (_ <? n) with false by (symmetry; apply Z.ltb_ge; lia). apply Hz, getp_in. lia.
  - by rewrite lookup_insert_eq.
  - by split.
  - unfold ps'. rewrite !length_app, length_take, length_drop. lia.
  - pose proof (gr_idx _ _ _ _ _ Hg) as Hx. unfold idx_ok in *. simpl.
    replace (n <? 138) with true in Hx by (symmetry; apply Z.ltb_lt; lia).
    replace (n + k <? 138) with true by (symmetry; apply Z.ltb_lt; lia).
    rewrite u32_small by lia. lia.
  - lia.
Qed.

(** ** The first level of indirection: [first_indir_alloc] *)

Lemma dev_eq_alloced p s b o T :
  fm_ok s o -> dev_eq (fs_device s) b -> alloced p s (set_device s b) o [] T.
Proof.
  intros Hfm Hb. 
  destruct (fm_ok_device s (set_device s b) o Hfm) as [Hfm' Hft];
    [apply same_mem_device|eapply dev_eq_wf; [done|apply Hfm]|apply Hb|intros; by apply dev_eq_sector|].
  pose proof (alloced_refl p s o T Hfm) as [A1 A2 A3 A4 A5 A6 A7 A8 A9 A10].
  split; try done; [apply Hb|]. intros j _ _ _ _. by apply dev_eq_sector.
Qed.

Lemma getp_insert_eq l k x : 0 <= k < Z.of_nat (length l) -> getp (<[Z.to_nat k := x]> l) k = x.
Proof. intros Hk. unfold getp. rewrite nth_lookup, list_lookup_insert_eq by lia. done. Qed.

Lemma getp_insert_ne l k j x : 0 <= k -> 0 <= j -> j <> k -> getp (<[Z.to_nat k := x]> l) j = getp l j.
Proof. intros Hk Hj Hne. unfold getp. rewrite !nth_lookup, list_lookup_insert_ne by lia. done. Qed.

(** A block of pointers read back. *)
Lemma blk_at_encode D x l : sector_of D x = encode_block l -> blk_at D x = map u32 l.
Proof. intros H. unfold blk_at. rewrite H. apply bytes_words_bytes. Qed.

Lemma getp_u32 l k : getp (map u32 l) k = u32 (getp l k).
Proof. unfold getp. by rewrite <-(map_nth u32 l 0). Qed.

Lemma length_encode l : length l = 128%nat -> length (encode_block l) = 512%nat.
Proof. intros H. unfold encode_block. rewrite length_words_bytes. lia. Qed.

(** Sector numbers fit in a pointer. *)
Lemma sector_u32 s o x : fm_ok s o -> 0 <= x < blk_size (fs_device s) -> u32 x = x.
Proof.
  intros Hfm Hx. apply u32_small. pose proof (wf_cnt _ (fm_map _ _ Hfm)).
  rewrite (fm_cnt _ _ Hfm) in *. lia.
Qed.

(** ** The block of the level: allocated or read *)

Lemma first_block_ok d s o p i n :
  growing s o p i n -> 10 <= n < 138 -> (n = 10 -> 0 < free_cnt (free_map s)) ->
  exists s1 ps1 blk0 xs0,
    (if first_level_index (data i) =? 0 then
       o ← free_map_allocate_ (inode_write_at (S d)) 1;
       d ← ld_data p;
       ps ← store_at (ptr d) FIRST_LEV_INDEX o;
       upd_data p (fun d => with_ptr d ps);;
       mret (junk_block s)
     else
       x ← aref (ptr (data i)) FIRST_LEV_INDEX;
       blk ← on_device (block_read x);
       mret (decode_block blk)) s = Ok (blk0, s1) /\
    alloced p s s1 o xs0 [] /\
    inodes s1 = <[p := with_data i (with_ptr (data i) ps1)]> (inodes s) /\
    length ps1 = 12%nat /\ length blk0 = 128%nat /\
    (forall k, 0 <= k -> k <> 10 -> getp ps1 k = getp (ptr (data i)) k) /\
    (n = 10 /\ xs0 = [getp ps1 10] \/
     10 < n /\ xs0 = [] /\ ps1 = ptr (data i) /\ blk0 = blk_at (fs_device s) (getp ps1 10)).
Proof.
  intros Hg Hn Hfree. pose proof (gr_idx _ _ _ _ _ Hg) as Hx. pose proof (gr_len _ _ _ _ _ Hg) as Hl.
  unfold idx_ok in Hx. replace (n <? 138) with true in Hx by (symmetry; apply Z.ltb_lt; lia).
  destruct Hx as (_ & Hfli & _). pose proof (gr_inode _ _ _ _ _ Hg) as Hi.
  destruct (decide (n = 10)) as [->|Hne].
  - rewrite Hfli. change (Z.max 0 (10 - 10) =? 0) with true. cbv iota.
    destruct (free_map_allocate_ok d s o (gr_fm _ _ _ _ _ Hg) (Hfree eq_refl)) as (x & s1 & E & HA & Hi1 & Hxf).
    mstep E. rewrite <-Hi1 in Hi. mstep (ld_data_ok _ _ _ Hi). unfold FIRST_LEV_INDEX.
    mstep_by (apply store_at_ok; lia). mstep_by (by apply upd_data_ok).
    eexists _, (<[Z.to_nat 10 := x]> (ptr (data i))), _, [x]. split; [reflexivity|].
    split_and!; rewrite ?length_insert; try done.
    + apply (alloced_trans _ _ s1 _ _ [x] [] [] []); [by eapply alloced_any|].
      apply upd_alloced; [apply HA|apply Hg].
    + simpl. by rewrite Hi1.
    + apply Hg.
    + intros k Hk Hk10. apply getp_insert_ne; lia.
    + left. split; [done|]. by rewrite getp_insert_eq by lia.
  - rewrite Hfli. replace (Z.max 0 (n - 10) =? 0) with false by (symmetry; apply Z.eqb_neq; lia).
    unfold FIRST_LEV_INDEX. mstep_by (apply aref_ok; lia).
    assert (0 <= getp (ptr (data i)) 10 < blk_size (fs_device s)) as Hx
      by (apply (lay_in _ _ _ (growing_layout _ _ _ _ _ Hg)), idx_foot, idx1_in; lia).
    destruct (fs_read_ok s (getp (ptr (data i)) 10)) as (b & E & Hb); [apply Hg|done|].
    mstep E. eexists _, (ptr (data i)), _, []. split; [reflexivity|].
    split_and!; try done; [|by rewrite with_ptr_id, insert_id| |right; split_and!; [lia|done..]].
    + apply dev_eq_alloced; [apply Hg|done].
    + apply blk_at_len; [apply Hg|done].
Qed.

(** ** What the block designates once it is written *)

Section FirstLevel.
Context (s s2 s4 : fs) (o : fm_desc) (p : Z) (i : inode) (n k : Z).
Context (ps1 blk0 xs0 xs : list Z).
Abbreviation x10 := (getp ps1 10).
Abbreviation blk' := (take (Z.to_nat (n - 10)) blk0 ++ xs ++ drop (Z.to_nat (n - 10) + Z.to_nat k) blk0).

Context (Hg : growing s o p i n) (Hn : 10 <= n < 138) (Hk : 0 < k <= 138 - n).
Context (HA : alloced p s s2 o (xs0 ++ xs) []) (Hxs : Z.of_nat (length xs) = k).
Context (Hblk0 : length blk0 = 128%nat).
Context (Hps : forall j, 0 <= j -> j <> 10 -> getp ps1 j = getp (ptr (data i)) j).
Context (Hcase : n = 10 /\ xs0 = [x10] \/
  10 < n /\ xs0 = [] /\ ps1 = ptr (data i) /\ blk0 = blk_at (fs_device s) x10).
Context (HB : alloced p s2 s4 o [] [x10]).
Context (Hx10 : sector_of (fs_device s4) x10 = encode_block blk').
Context (Hother : forall j, 0 <= j -> j <> x10 ->
  sector_of (fs_device s4) j = sector_of (fs_device s2) j).
Context (Hz : forall x, x ∈ xs -> sector_of (fs_device s2) x = zeros).

Lemma first_x10 : x10 ∈ idx_secs (fs_device s) (ptr (data i)) n ++ xs0.
Proof using Hcase.
  apply elem_of_app. clear -Hcase. destruct Hcase as [[_ ->]|(H & _ & E & _)].
  - right. by apply list_elem_of_singleton.
  - left. rewrite E. by apply idx1_in.
Qed.

Lemma first_x10_tracked : 0 <= x10 < blk_size (fs_device s) /\ x10 ∉ xs.
Proof using Hg HA Hcase.
  clear -Hg HA Hcase. pose proof first_x10 as Hin. pose proof (al_nodup _ _ _ _ _ _ HA) as Hnd.
  apply NoDup_app in Hnd as (_ & Hd & _). apply elem_of_app in Hin as [Hin|Hin].
  - destruct (tr_used _ _ _ (growing_idx _ _ _ _ _ Hg) _ Hin) as (Hr & Hb & _). split; [done|].
    intros Hx. destruct (al_free _ _ _ _ _ _ HA x10) as [_ Hb'];
      [apply elem_of_app; by right|congruence].
  - split; [|by apply Hd]. apply HA. apply elem_of_app. by left.
Qed.

Lemma first_sec_at j :
  0 <= j < n + k ->
  sec_at (fs_device s4) ps1 j =
  if j <? n then sec_at (fs_device s) (ptr (data i)) j else getp xs (j - n).
Proof using All.
  intros Hj. unfold sec_at at 1. destruct (Z.ltb_spec j 10).
  { replace (j <? n) with true by (symmetry; apply Z.ltb_lt; lia).
    rewrite sec_at_direct by lia. apply Hps; lia. }
  replace (j <? 138) with true by (symmetry; apply Z.ltb_lt; lia).
  rewrite (blk_at_encode _ _ _ Hx10), getp_u32.
  replace (Z.to_nat k) with (length xs) by lia. rewrite getp_mid by lia.
  replace (j - 10 <? n - 10) with (j <? n)
    by (destruct (Z.ltb_spec j n), (Z.ltb_spec (j - 10) (n - 10)); lia).
  replace (j - 10 - (n - 10)) with (j - n) by lia.
  destruct (Z.ltb_spec j n).
  - destruct Hcase as [[-> _]|(_ & _ & E1 & E2)]; [lia|].
    assert (getp blk0 (j - 10) = sec_at (fs_device s) (ptr (data i)) j) as E.
    { unfold sec_at. replace (j <? 10) with false by (symmetry; apply Z.ltb_ge; lia).
      replace (j <? 138) with true by (symmetry; apply Z.ltb_lt; lia). by rewrite E2, E1. }
    rewrite E. eapply sector_u32; [apply Hg|].
    apply (lay_in _ _ _ (growing_layout _ _ _ _ _ Hg)), data_sec_in. lia.
  - eapply sector_u32; [apply Hg|]. apply HA, elem_of_app. right. apply getp_in. lia.
Qed.

Lemma first_idx D : idx_secs D ps1 (n + k) = [x10].
Proof using All.
  unfold idx_secs. replace (10 <? n + k) with true by (symmetry; apply Z.ltb_lt; lia).
  by replace (138 <? n + k) with false by (symmetry; apply Z.ltb_ge; lia).
Qed.

Lemma first_perm : [x10] ++ xs ≡ₚ idx_secs (fs_device s) (ptr (data i)) n ++ xs0 ++ xs.
Proof using All.
  rewrite app_assoc. apply Permutation_app_tail, reflexive_eq.
  destruct Hcase as [[-> ->]|(H & -> & E & _)]; [by rewrite idx_secs_small|].
  unfold idx_secs. replace (10 <? n) with true by (symmetry; apply Z.ltb_lt; lia).
  replace (138 <? n) with false by (symmetry; apply Z.ltb_ge; lia). by rewrite E.
Qed.

Lemma first_stage_pure s5 :
  fs_device s5 = fs_device s4 -> alloced p s4 s5 o [] [] ->
  stage p o s s5 (sec_at (fs_device s) (ptr (data i))) (sec_at (fs_device s5) ps1)
    (idx_secs (fs_device s) (ptr (data i)) n) (idx_secs (fs_device s5) ps1 (n + k)) n (n + k).
Proof using All.
  intros Ed HC. destruct first_x10_tracked as [Hr Hxn]. exists (xs0 ++ xs). rewrite Ed.
  split_and!.
  - pose proof (alloced_trans _ _ _ _ _ _ _ _ _ HB HC) as HBC.
    pose proof (alloced_trans _ _ _ _ _ _ _ _ _ HA HBC) as HABC. rewrite app_nil_r in HABC.
    eapply alloced_mono; [|exact HABC]. intros j Hj. simpl in Hj.
    apply list_elem_of_singleton in Hj as ->. pose proof first_x10 as Hin.
    apply elem_of_app in Hin as [Hin|Hin]; [by right|left; apply elem_of_app; by left].
  - intros j Hj. rewrite first_sec_at by lia.
    by replace (j <? n) with true by (symmetry; apply Z.ltb_lt; lia).
  - rewrite first_idx, <-first_perm. apply Permutation_app_head, reflexive_eq.
    replace (n + k - n) with k by lia. rewrite <-(getp_seq xs n) at 1. rewrite Hxs.
    apply list_fmap_ext. intros j z Hj. apply lookup_seqZ in Hj as [-> Hj].
    rewrite first_sec_at by lia.
    by replace (_ <? n) with false by (symmetry; apply Z.ltb_ge; lia).
  - intros j Hj. rewrite first_sec_at by lia.
    replace (j <? n) with false by (symmetry; apply Z.ltb_ge; lia).
    assert (getp xs (j - n) ∈ xs) as Hin by (apply getp_in; lia).
    rewrite Hother, Hz; [done|done|apply HA, elem_of_app; by right|].
    intros E. apply Hxn. by rewrite <-E.
Qed.
End FirstLevel.

Lemma first_indir_ok d s o p i n sectors :
  growing s o p i n -> 10 <= n < 138 -> 0 < sectors < 4294967296 ->
  let k := Z.min (138 - n) sectors in
  k + (if n =? 10 then 1 else 0) <= free_cnt (free_map s) ->
  exists s' i', first_indir_alloc_ (inode_write_at (S d)) sectors p s = Ok (sectors - k, s') /\
                grown p o s s' i i' n (n + k).
Proof.
  intros Hg Hn Hs k Hfree. pose proof (gr_idx _ _ _ _ _ Hg) as Hx. pose proof (gr_inode _ _ _ _ _ Hg) as Hi.
  unfold idx_ok in Hx. replace (n <? 138) with true in Hx by (symmetry; apply Z.ltb_lt; lia).
  destruct Hx as (Hdli & Hfli & Hsli).
  unfold first_indir_alloc_. mstep (ld_data_ok _ _ _ Hi). mstep_by reflexivity.
  destruct (first_block_ok d s o p i n Hg Hn) as (s1 & ps1 & blk0 & xs0 & E1 & HA1 & Hi1 & Hps1 & Hblk0 & Hps & Hcase).
  { intros ->. simpl in Hfree. lia. }
  mstep E1. set (i1 := with_data i (with_ptr (data i) ps1)) in *.
  assert (inodes s1 !! p = Some i1) as Hi1' by (by rewrite Hi1, lookup_insert_eq).
  mstep (ld_data_ok _ _ _ Hi1'). change (first_level_index (data i1)) with (first_level_index (data i)).
  rewrite Hfli, s32_small by lia. unfold INDEX_BLOCK_SIZE.
  replace (Z.max 0 (n - 10)) with (n - 10) by lia.
  (* the loop *)
  pose proof (al_cnt _ _ _ _ _ _ HA1) as Hcnt.
  destruct (grow_block_loop_ok d o (Z.to_nat (128 - (n - 10))) s1 blk0 (n - 10) sectors)
    as (xs & s2 & E2 & Hxs & HA2 & Hi2 & Hz); [apply HA1|lia|lia|lia| |].
  { destruct Hcase as [[-> ->]|(? & -> & _)]; simpl in Hcnt, Hfree |- *; [lia|].
    replace (n =? 10) with false in Hfree by (symmetry; apply Z.eqb_neq; lia). lia. }
  replace (Z.min (Z.of_nat (Z.to_nat (128 - (n - 10)))) sectors) with k in * by lia.
  mstep E2. cbv beta iota.
  pose proof (alloced_trans _ _ _ _ _ _ _ [] [] HA1 (alloced_any 0 p _ _ _ _ _ Hi2 HA2)) as HA12.
  rewrite <-Hi2 in Hi1'. mstep_by (by apply upd_data_ok).
  set (i3 := with_data _ _). set (s3 := set_inodes s2 _).
  pose proof (upd_alloced s2 o p i3 [] (al_fm _ _ _ _ _ _ HA12) (gr_p _ _ _ _ _ Hg)) as HA3.
  assert (inodes s3 !! p = Some i3) as Hi3 by (simpl; by rewrite lookup_insert_eq).
  mstep (ld_data_ok _ _ _ Hi3). change (ptr (data i3)) with ps1. unfold FIRST_LEV_INDEX.
  mstep_by (apply aref_ok; lia).
  destruct (first_x10_tracked s s2 o p i n ps1 blk0 xs0 xs Hg HA12 Hcase) as [Hr Hxn].
  pose proof (alloced_trans _ _ _ _ _ _ _ [] [] HA12 HA3) as HA123.
  rewrite app_nil_r in HA123. fold s3 in HA123. pose proof (al_fm _ _ _ _ _ _ HA123) as Hfm3.
  assert (getp ps1 10 ∉ fm_foot (fs_device s3) o) as Hxf.
  { rewrite (al_foot _ _ _ _ _ _ HA123). pose proof (first_x10 s i n ps1 blk0 xs0 Hcase) as Hin.
    apply elem_of_app in Hin as [Hin|Hin].
    - by apply (tr_used _ _ _ (growing_idx _ _ _ _ _ Hg)).
    - intros Hf. apply (fm_used _ _ (gr_fm _ _ _ _ _ Hg)) in Hf.
      destruct (al_free _ _ _ _ _ _ HA1 _ Hin). congruence. }
  destruct (fs_write_alloced p s3 o (getp ps1 10) (encode_block
    (take (Z.to_nat (n - 10)) blk0 ++ xs ++ drop (Z.to_nat (n - 10) + Z.to_nat k) blk0)) Hfm3)
    as (b & Eb & HB & Hbx & Hbo); [by rewrite (al_size _ _ _ _ _ _ HA123)|done| |].
  { apply length_encode. rewrite !length_app, length_take, length_drop. lia. }
  mstep Eb. set (s4 := set_device s3 b) in *.
  pose proof (alloced_trans _ _ _ _ _ _ _ _ _ HA3 HB) as HB'. simpl app in HB'.
  assert (inodes s4 !! p = Some i3) as Hi4 by done.
  change (first_level_index (data i3)) with (u32 (n - 10 + k)). rewrite u32_small by lia.
  (* the end: the level may be full *)
  assert (forall s5 i5, fs_device s5 = fs_device s4 -> alloced p s4 s5 o [] [] ->
    inodes s5 !! p = Some i5 -> same_meta i i5 -> ptr (data i5) = ps1 -> idx_ok (data i5) (n + k) ->
    grown p o s s5 i i5 n (n + k)) as Hend.
  { intros s5 i5 Ed HC Hi5 Hm Hp5 Hix. split; try done; [|by rewrite Hp5|lia]. rewrite Hp5.
    apply (first_stage_pure s s2 s4 o p i n k ps1 blk0 xs0 xs); try done; try lia.
    intros x Hx. by apply Hz. }
  destruct (Z.eqb_spec (n - 10 + k) 128) as [Hfull|Hnf].
  - erewrite (bind_ok _ _ _ _ _ (upd_data_ok _ _ _ _ Hi4)); cbv beta. eexists _, (with_data i3 (with_index (data i3)
      (u32 (direct_level_index (data i3) + 1)) 0 (second_level_index (data i3)))).
    split; [reflexivity|]. apply Hend; try done.
    + apply upd_alloced; [apply HB'|apply Hg].
    + simpl. by rewrite lookup_insert_eq.
    + unfold idx_ok. replace (n + k) with 138 by lia. simpl. rewrite Hdli, Hsli.
      replace (Z.min n 10) with 10 by lia. done.
  - mstep_by reflexivity. exists s4, i3. split; [done|]. apply Hend; try done.
    + apply alloced_refl, HB'.
    + unfold idx_ok. replace (n + k <? 138) with true by (symmetry; apply Z.ltb_lt; lia).
      simpl. rewrite Hdli, Hsli, u32_small by lia. lia.
Qed.
