(* ===== verification/FsSecond.v ===== *)
(** * The second level of indirection: [second_indir_alloc]

    While it runs, the block of the second level is a local variable: the
    sectors of the file are read through its current contents [sb], and only
    the final write puts it on the device. *)

From S2P Require Import Prelude Bitmap BitmapThms Bytes Block FsModel FsRep FsRead FsWrite FsAlloc FsGrow.

Definition f2 (D : block) (ps sb : list Z) (k : Z) : Z :=
  if k <? 138 then sec_at D ps k else sec2_at D sb (k - 138).

Definition idx2 (ps sb : list Z) (n : Z) : list Z :=
  getp ps 10 :: getp ps 11 :: (getp sb <$> seqZ 0 (inner_cnt (n - 138))).

(** A file in the second level, with the block [sb]. *)
Record growing2 (s : fs) (o : fm_desc) (p : Z) (i : inode) (sb : list Z) (n : Z) : Prop := {
  g2_fm : fm_ok s o;
  g2_p : not_fm o p;
  g2_inode : inodes s !! p = Some i;
  g2_len : length (ptr (data i)) = 12%nat;
  g2_sb : length sb = 128%nat;
  g2_n : 138 <= n <= MAX_SECTORS;
  g2_tracked : tracked s o ((f2 (fs_device s) (ptr (data i)) sb <$> seqZ 0 n)
                            ++ idx2 (ptr (data i)) sb n);
  g2_idx : idx_ok (data i) n;
  g2_junk : length (junk_block s) = 128%nat
}.

Record grown2 (p : Z) (o : fm_desc) (s s' : fs) (i i' : inode) (sb sb' : list Z) (n n' : Z) : Prop := {
  w2_stage : stage p o s s' (f2 (fs_device s) (ptr (data i)) sb)
    (f2 (fs_device s') (ptr (data i)) sb') (idx2 (ptr (data i)) sb n)
    (idx2 (ptr (data i)) sb' n') n n';
  w2_inode : inodes s' !! p = Some i';
  w2_meta : same_meta i i';
  w2_ptr : ptr (data i') = ptr (data i);
  w2_sb : length sb' = 128%nat;
  w2_idx : idx_ok (data i') n';
  w2_le : n <= n'
}.

Lemma tracked_r s o a b : tracked s o (a ++ b) -> tracked s o b.
Proof.
  intros [H1 H2]. apply NoDup_app in H1 as (_ & _ & H1). split; [done|].
  intros x Hx. apply H2, elem_of_app. by right.
Qed.

Lemma grown2_growing2 p o s s' i i' sb sb' n n' :
  growing2 s o p i sb n -> grown2 p o s s' i i' sb sb' n n' -> n' <= MAX_SECTORS ->
  growing2 s' o p i' sb' n'.
Proof.
  intros Hg [W1 W2 W3 W4 W5 W6 W7] Hn'. pose proof (g2_n _ _ _ _ _ _ Hg) as Hn.
  destruct (stage_all _ _ _ _ _ _ _ _ n n' ltac:(lia) W1) as (xs & HA & HP).
  split; try done; rewrite ?W4; [apply HA|apply Hg|apply Hg|lia| |].
  - eapply alloced_tracked; [apply Hg|done|apply Hg|done].
  - rewrite (sb_junk_block _ _ (al_mem _ _ _ _ _ _ HA)). apply Hg.
Qed.

Lemma grown2_trans p o s s1 s2 i i1 i2 sb sb1 sb2 n n1 n2 :
  growing2 s o p i sb n -> grown2 p o s s1 i i1 sb sb1 n n1 -> grown2 p o s1 s2 i1 i2 sb1 sb2 n1 n2 ->
  grown2 p o s s2 i i2 sb sb2 n n2.
Proof.
  intros Hg [A1 A2 A3 A4 A5 A6 A7] [B1 B2 B3 B4 B5 B6 B7]. pose proof (g2_n _ _ _ _ _ _ Hg).
  rewrite A4 in B1, B4. split; try done; [|by etransitivity|lia].
  eapply stage_trans; [apply Hg|eapply tracked_r, Hg|..|exact A1|exact B1]; lia.
Qed.

(** ** Where the index stands *)

Lemma inner_at a b k : 0 <= a -> 0 <= b -> 0 < b + k <= 128 -> inner_cnt (128 * a + b + k) = a + 1.
Proof.
  intros Ha Hb Hk. unfold inner_cnt.
  replace (128 * a + b + k + 127) with ((b + k - 1) + (a + 1) * 128) by lia.
  rewrite Z.div_add, Z.div_small by lia. lia.
Qed.

Lemma inner_at_0 a : inner_cnt (128 * a) = a.
Proof.
  unfold inner_cnt. replace (128 * a + 127) with (127 + a * 128) by lia.
  by rewrite Z.div_add, Z.div_small by lia.
Qed.

(** ** One inner block *)

Section Inner.
Context (s s2 s4 : fs) (o : fm_desc) (p : Z) (i : inode) (n k a b : Z).
Context (sb sb' blk0 xs0 xs : list Z).
Abbreviation ps := (ptr (data i)).
Abbreviation y := (getp sb' a).
Abbreviation blk' := (take (Z.to_nat b) blk0 ++ xs ++ drop (Z.to_nat b + Z.to_nat k) blk0).

Context (Hg : growing2 s o p i sb n) (Hab : n - 138 = 128 * a + b).
Context (Ha : 0 <= a < 128) (Hb : 0 <= b < 128) (Hk : 0 < k <= 128 - b).
Context (HA : alloced p s s2 o (xs0 ++ xs) []) (Hxs : Z.of_nat (length xs) = k).
Context (Hblk0 : length blk0 = 128%nat).
Context (Hsb : forall q, 0 <= q -> q <> a -> getp sb' q = getp sb q).
Context (Hcase : b = 0 /\ xs0 = [y] \/
  0 < b /\ xs0 = [] /\ sb' = sb /\ blk0 = blk_at (fs_device s) y).
Context (Hy : sector_of (fs_device s4) y = encode_block blk').
Context (Hother : forall j, 0 <= j -> j <> y ->
  sector_of (fs_device s4) j = sector_of (fs_device s2) j).
Context (Hz : forall x, x ∈ xs -> sector_of (fs_device s2) x = zeros).

Lemma inner_before : inner_cnt (n - 138) = if b =? 0 then a else a + 1.
Proof using Hab Ha Hb.
  clear -Hab Ha Hb. rewrite Hab. destruct (Z.eqb_spec b 0) as [->|].
  - rewrite Z.add_0_r. apply inner_at_0.
  - rewrite <-(Z.add_0_r (_ + b)). apply inner_at; lia.
Qed.

Lemma inner_after : inner_cnt (n + k - 138) = a + 1.
Proof using Hab Ha Hb Hk.
  clear -Hab Ha Hb Hk. replace (n + k - 138) with (128 * a + b + k) by lia. apply inner_at; lia.
Qed.

Lemma inner_y : y ∈ idx2 ps sb n ++ xs0.
Proof using Hab Ha Hb Hcase.
  pose proof inner_before as Hi. clear -Hab Ha Hb Hcase Hi. apply elem_of_app.
  destruct Hcase as [[_ ->]|(H & _ & -> & _)].
  - right. by apply list_elem_of_singleton.
  - left. do 2 (apply elem_of_cons; right). apply list_elem_of_fmap_2, elem_of_seqZ.
    rewrite Hi. destruct (Z.eqb_spec b 0); lia.
Qed.

Lemma inner_y_fresh : 0 <= y < blk_size (fs_device s) /\ y ∉ xs.
Proof using Hg Hab Ha Hb HA Hcase.
  pose proof inner_y as Hin. clear -Hg HA Hin. pose proof (al_nodup _ _ _ _ _ _ HA) as Hnd.
  apply NoDup_app in Hnd as (_ & Hd & _). apply elem_of_app in Hin as [Hin|Hin].
  - destruct (tr_used _ _ _ (tracked_r _ _ _ _ (g2_tracked _ _ _ _ _ _ Hg)) _ Hin) as (Hr & Hb & _).
    split; [done|]. intros Hx. destruct (al_free _ _ _ _ _ _ HA y) as [_ Hb'];
      [apply elem_of_app; by right|congruence].
  - split; [|by apply Hd]. apply HA. apply elem_of_app. by left.
Qed.

(** The other index blocks keep their contents. *)
Lemma inner_keep z :
  z ∈ idx2 ps sb n -> z <> y -> sector_of (fs_device s4) z = sector_of (fs_device s) z.
Proof using Hg HA Hother.
  clear -Hg HA Hother. intros Hin Hne.
  destruct (tr_used _ _ _ (tracked_r _ _ _ _ (g2_tracked _ _ _ _ _ _ Hg)) _ Hin) as (Hr & Hu & Hf).
  rewrite Hother by (done || lia). eapply alloced_keeps; [exact HA|lia|done|apply not_elem_of_nil|done].
Qed.

Lemma idx2_distinct q r :
  0 <= q < inner_cnt (n - 138) -> 0 <= r < inner_cnt (n - 138) -> getp sb q = getp sb r -> q = r.
Proof using Hg.
  clear -Hg. intros Hq Hr E. pose proof (tr_nodup _ _ _ (tracked_r _ _ _ _ (g2_tracked _ _ _ _ _ _ Hg))) as Hnd.
  apply NoDup_cons in Hnd as [_ Hnd]. apply NoDup_cons in Hnd as [_ Hnd].
  assert (forall q, 0 <= q < inner_cnt (n - 138) ->
    (getp sb <$> seqZ 0 (inner_cnt (n - 138))) !! Z.to_nat q = Some (getp sb q)) as Hl.
  { intros z Hz. rewrite list_lookup_fmap, lookup_seqZ_lt by lia. simpl. do 2 f_equal. lia. }
  pose proof (Hl q Hq) as L1. pose proof (Hl r Hr) as L2. rewrite E in L1.
  pose proof (NoDup_lookup _ _ _ _ Hnd L1 L2). lia.
Qed.

Lemma y_not_fresh_idx z : z ∈ idx2 ps sb n -> b = 0 -> z <> y.
Proof using Hg HA Hcase.
  clear -Hg HA Hcase. intros Hz Hb0 ->. destruct Hcase as [[_ E]|(? & _)]; [|lia].
  destruct (tr_used _ _ _ (tracked_r _ _ _ _ (g2_tracked _ _ _ _ _ _ Hg)) _ Hz) as (_ & Hu & _).
  destruct (al_free _ _ _ _ _ _ HA y) as [_ Hu']; [|congruence].
  rewrite E. apply elem_of_app. left. by apply list_elem_of_singleton.
Qed.

Lemma ptr10_not_y : getp ps 10 <> y.
Proof using Hg Hab Ha Hb HA Hcase.
  pose proof y_not_fresh_idx as Hf. pose proof inner_before as Hi. clear -Hf Hg Hcase Hi Ha Hb.
  assert (getp ps 10 ∈ idx2 ps sb n) as Hin by (apply elem_of_cons; by left).
  destruct Hcase as [[Hb0 _]|(Hb0 & _ & -> & _)]; [by apply Hf|].
  pose proof (tr_nodup _ _ _ (tracked_r _ _ _ _ (g2_tracked _ _ _ _ _ _ Hg))) as Hnd.
  apply NoDup_cons in Hnd as [Hnd _]. intros E. apply Hnd. rewrite E. apply elem_of_cons. right.
  apply list_elem_of_fmap_2, elem_of_seqZ. rewrite Hi. destruct (Z.eqb_spec b 0); lia.
Qed.

Lemma inner_low j : 0 <= j < 138 -> sec_at (fs_device s4) ps j = sec_at (fs_device s) ps j.
Proof using Hg Hab Ha Hb HA Hcase Hother.
  pose proof ptr10_not_y as Hne. pose proof inner_keep as Hkeep. clear -Hne Hkeep. intros Hj.
  unfold sec_at, blk_at. destruct (Z.ltb_spec j 10); [done|].
  replace (j <? 138) with true by (symmetry; apply Z.ltb_lt; lia).
  rewrite Hkeep; [done|apply elem_of_cons; by left|done].
Qed.

Lemma old_range j : 0 <= j < n -> 0 <= f2 (fs_device s) ps sb j < blk_size (fs_device s).
Proof using Hg.
  clear -Hg. intros Hj. apply (tr_used _ _ _ (g2_tracked _ _ _ _ _ _ Hg)). apply elem_of_app. left.
  apply list_elem_of_fmap_2, elem_of_seqZ. lia.
Qed.

Lemma inner_sec_at j :
  0 <= j < n + k ->
  f2 (fs_device s4) ps sb' j = if j <? n then f2 (fs_device s) ps sb j else getp xs (j - n).
Proof using All.
  intros Hj. pose proof (g2_n _ _ _ _ _ _ Hg) as Hn. unfold f2 at 1.
  destruct (Z.ltb_spec j 138).
  { replace (j <? n) with true by (symmetry; apply Z.ltb_lt; lia). rewrite inner_low by lia.
    unfold f2. by replace (j <? 138) with true by (symmetry; apply Z.ltb_lt; lia). }
  pose proof (Z.div_mod (j - 138) 128 ltac:(lia)) as Hdm.
  pose proof (Z.mod_pos_bound (j - 138) 128 ltac:(lia)) as Hm.
  set (q := (j - 138) / 128) in *. set (r := (j - 138) mod 128) in *.
  unfold sec2_at. fold q r. pose proof inner_before as Hib.
  destruct (decide (q = a)) as [Hqa|Hqa].
  - rewrite Hqa, (blk_at_encode _ _ _ Hy), getp_u32.
    replace (Z.to_nat k) with (length xs) by lia. rewrite getp_mid by lia.
    replace (r <? b) with (j <? n) by (destruct (Z.ltb_spec j n), (Z.ltb_spec r b); lia).
    replace (r - b) with (j - n) by lia. destruct (Z.ltb_spec j n).
    + assert (getp blk0 r = f2 (fs_device s) ps sb j) as E.
      { unfold f2, sec2_at. replace (j <? 138) with false by (symmetry; apply Z.ltb_ge; lia).
        fold q r. rewrite Hqa. destruct Hcase as [[Hb0 _]|(_ & _ & E1 & E2)]; [lia|].
        by rewrite E2, E1. }
      rewrite E. eapply sector_u32; [apply Hg|]. apply old_range; lia.
    + eapply sector_u32; [apply Hg|]. apply HA, elem_of_app. right. apply getp_in. lia.
  - assert (0 <= q < a) as Hq by (split; [apply Z.div_pos; lia|lia]).
    replace (j <? n) with true by (symmetry; apply Z.ltb_lt; lia).
    unfold f2, sec2_at. replace (j <? 138) with false by (symmetry; apply Z.ltb_ge; lia).
    fold q r. rewrite Hsb by lia.
    assert (getp sb q ∈ idx2 ps sb n) as Hin.
    { do 2 (apply elem_of_cons; right). apply list_elem_of_fmap_2, elem_of_seqZ.
      rewrite Hib. destruct (b =? 0); lia. }
    unfold blk_at. rewrite inner_keep; [done|done|].
    destruct Hcase as [[Hb0 _]|(Hb0 & _ & E1 & _)]; [by apply y_not_fresh_idx|].
    rewrite E1. intros E. apply Hqa. apply idx2_distinct; [rewrite Hib..|done];
      destruct (Z.eqb_spec b 0); lia.
Qed.

Lemma inner_perm : idx2 ps sb' (n + k) ++ xs ≡ₚ idx2 ps sb n ++ xs0 ++ xs.
Proof using Hab Ha Hb Hk Hsb Hcase.
  pose proof inner_before as Hib. pose proof inner_after as Hia. clear -Hib Hia Hsb Hcase Ha.
  rewrite app_assoc. apply Permutation_app_tail, reflexive_eq. unfold idx2. rewrite Hib, Hia.
  simpl. do 2 f_equal. 
  rewrite seqZ_app, fmap_app by lia.
  assert (getp sb' <$> seqZ 0 a = getp sb <$> seqZ 0 a) as ->.
  { apply list_fmap_ext. intros j z Hj. apply lookup_seqZ in Hj as [-> Hj]. apply Hsb; lia. }
  destruct Hcase as [[-> ->]|(H & -> & -> & _)]; [done|].
  replace (b =? 0) with false by (symmetry; apply Z.eqb_neq; lia).
  by rewrite seqZ_app, fmap_app, app_nil_r by lia.
Qed.

Lemma inner_stage s5 :
  fs_device s5 = fs_device s4 -> alloced p s2 s5 o [] [y] ->
  stage p o s s5 (f2 (fs_device s) ps sb) (f2 (fs_device s5) ps sb')
    (idx2 ps sb n) (idx2 ps sb' (n + k)) n (n + k).
Proof using All.
  intros Ed HB. destruct inner_y_fresh as [Hr Hyn]. pose proof (g2_n _ _ _ _ _ _ Hg) as Hn.
  exists (xs0 ++ xs). rewrite Ed. split_and!.
  - pose proof (alloced_trans _ _ _ _ _ _ _ _ _ HA HB) as HAB. rewrite app_nil_r in HAB.
    eapply alloced_mono; [|exact HAB]. intros j Hj. simpl in Hj.
    apply list_elem_of_singleton in Hj as ->. pose proof inner_y as Hin.
    apply elem_of_app in Hin as [Hin|Hin]; [by right|left; apply elem_of_app; by left].
  - intros j Hj. rewrite inner_sec_at by lia.
    by replace (j <? n) with true by (symmetry; apply Z.ltb_lt; lia).
  - rewrite <-inner_perm. apply Permutation_app_head, reflexive_eq.
    replace (n + k - n) with k by lia. rewrite <-(getp_seq xs n) at 1. rewrite Hxs.
    apply list_fmap_ext. intros j z Hj. apply lookup_seqZ in Hj as [-> Hj].
    rewrite inner_sec_at by lia.
    by replace (_ <? n) with false by (symmetry; apply Z.ltb_ge; lia).
  - intros j Hj. rewrite inner_sec_at by lia.
    replace (j <? n) with false by (symmetry; apply Z.ltb_ge; lia).
    assert (getp xs (j - n) ∈ xs) as Hin by (apply getp_in; lia).
    rewrite Hother, Hz; [done|done|apply HA, elem_of_app; by right|].
    intros E. apply Hyn. by rewrite <-E.
Qed.
End Inner.

(** ** [second_indir_alloc_deep] *)

Lemma idx_ok_second d n a b :
  n - 138 = 128 * a + b -> 0 <= a -> 0 <= b < 128 -> 138 <= n -> idx_ok d n ->
  direct_level_index d = 11 /\ first_level_index d = a /\ second_level_index d = b.
Proof.
  intros Hab Ha Hb Hn H. unfold idx_ok in H.
  replace (n <? 138) with false in H by (symmetry; apply Z.ltb_ge; lia).
  destruct H as (-> & -> & ->). split; [done|].
  split; symmetry; [by apply (Z.div_unique_pos _ _ a b)|by apply (Z.mod_unique_pos _ _ a b)].
Qed.

Lemma idx_ok_second_intro d n a b :
  n - 138 = 128 * a + b -> 0 <= b < 128 -> 138 <= n ->
  direct_level_index d = 11 -> first_level_index d = a -> second_level_index d = b -> idx_ok d n.
Proof.
  intros Hab Hb Hn H1 H2 H3. unfold idx_ok. rewrite H1, H2, H3.
  replace (n <? 138) with false by (symmetry; apply Z.ltb_ge; lia).
  split; [done|]. split; [by apply (Z.div_unique_pos _ _ a b)|by apply (Z.mod_unique_pos _ _ a b)].
Qed.

Lemma inner_block_ok d s o p i sb n a b :
  growing2 s o p i sb n -> n - 138 = 128 * a + b -> 0 <= a < 128 -> 0 <= b < 128 ->
  (b = 0 -> 0 < free_cnt (free_map s)) ->
  exists s1 sb' blk0 xs0,
    (if b =? 0 then
       o ← free_map_allocate_ (inode_write_at (S d)) 1;
       second_block ← store_at sb a o;
       mret (second_block, junk_block s)
     else
       x ← aref sb a;
       blk ← on_device (block_read x);
       mret (sb, decode_block blk)) s = Ok ((sb', blk0), s1) /\
    alloced 0 s s1 o xs0 [] /\ inodes s1 = inodes s /\
    length sb' = 128%nat /\ length blk0 = 128%nat /\
    (forall q, 0 <= q -> q <> a -> getp sb' q = getp sb q) /\
    (b = 0 /\ xs0 = [getp sb' a] \/
     0 < b /\ xs0 = [] /\ sb' = sb /\ blk0 = blk_at (fs_device s) (getp sb' a)).
Proof.
  intros Hg Hab Ha Hb Hfree. pose proof (g2_sb _ _ _ _ _ _ Hg) as Hl.
  destruct (Z.eqb_spec b 0) as [->|Hne].
  - destruct (free_map_allocate_ok d s o (g2_fm _ _ _ _ _ _ Hg) (Hfree eq_refl)) as (x & s1 & E & HA & Hi1 & Hxf).
    mstep E. mstep_by (apply store_at_ok; lia).
    exists s1, (<[Z.to_nat a := x]> sb), (junk_block s), [x].
    split_and!; rewrite ?length_insert; try done; [apply Hg| |].
    + intros q Hq Hqa. apply getp_insert_ne; lia.
    + left. split; [done|]. by rewrite getp_insert_eq by lia.
  - mstep_by (apply aref_ok; lia).
    assert (0 <= getp sb a < blk_size (fs_device s)) as Hx.
    { apply (tr_used _ _ _ (tracked_r _ _ _ _ (g2_tracked _ _ _ _ _ _ Hg))).
      do 2 (apply elem_of_cons; right). apply list_elem_of_fmap_2, elem_of_seqZ.
      rewrite (inner_before n a b) by done. destruct (Z.eqb_spec b 0); lia. }
    destruct (fs_read_ok s (getp sb a)) as (b' & E & Hb'); [apply Hg|done|].
    mstep E. exists (set_device s b'), sb, (blk_at (fs_device s) (getp sb a)), [].
    split_and!; try done; [| |right; split_and!; [lia|done..]].
    + apply dev_eq_alloced; [apply Hg|done].
    + apply blk_at_len; [apply Hg|done].
Qed.

Lemma second_deep_ok d s o p i sb n sectors :
  growing2 s o p i sb n -> n < MAX_SECTORS -> 0 < sectors < 4294967296 ->
  let b := (n - 138) mod 128 in
  let k := Z.min (128 - b) sectors in
  k + (if b =? 0 then 1 else 0) <= free_cnt (free_map s) ->
  exists s' i' sb',
    second_indir_alloc_deep_ (inode_write_at (S d)) sectors p sb s = Ok ((sectors - k, sb'), s') /\
    grown2 p o s s' i i' sb sb' n (n + k).
Proof.
  intros Hg Hmax Hs b k Hfree. pose proof (g2_n _ _ _ _ _ _ Hg) as Hn. unfold MAX_SECTORS in *.
  set (a := (n - 138) / 128).
  assert (n - 138 = 128 * a + b) as Hab by (apply Z.div_mod; lia).
  assert (0 <= b < 128) as Hb by (apply Z.mod_pos_bound; lia).
  assert (0 <= a < 128) as Ha by lia. clearbody a b.
  pose proof (g2_inode _ _ _ _ _ _ Hg) as Hi.
  destruct (idx_ok_second _ _ a b Hab ltac:(lia) Hb ltac:(lia) (g2_idx _ _ _ _ _ _ Hg)) as (Hdli & Hfli & Hsli).
  unfold second_indir_alloc_deep_. mstep (ld_data_ok _ _ _ Hi). mstep_by reflexivity. rewrite Hfli, Hsli.
  destruct (inner_block_ok d s o p i sb n a b Hg Hab Ha Hb)
    as (s1 & sb' & blk0 & xs0 & E1 & HA1 & Hi1 & Hsb' & Hblk0 & Hsb & Hcase).
  { intros ->. simpl in Hfree. lia. }
  mstep E1. cbv beta iota. pose proof Hi as Hi'. rewrite <-Hi1 in Hi'. mstep (ld_data_ok _ _ _ Hi').
  rewrite Hsli, s32_small by lia. unfold INDEX_BLOCK_SIZE.
  pose proof (al_cnt _ _ _ _ _ _ HA1) as Hcnt.
  destruct (grow_block_loop_ok d o (Z.to_nat (128 - b)) s1 blk0 b sectors)
    as (xs & s2 & E2 & Hxs & HA2 & Hi2 & Hz); [apply HA1|lia|lia|lia| |].
  { destruct Hcase as [[-> ->]|(? & -> & _)]; simpl in Hcnt, Hfree |- *; [lia|].
    replace (b =? 0) with false in Hfree by (symmetry; apply Z.eqb_neq; lia). lia. }
  replace (Z.min (Z.of_nat (Z.to_nat (128 - b))) sectors) with k in * by lia.
  mstep E2. cbv beta iota.
  pose proof (alloced_any 0 p _ _ _ _ _ (eq_trans Hi2 Hi1) (alloced_trans _ _ _ _ _ _ _ [] [] HA1 HA2)) as HA12.
  rewrite <-Hi2 in Hi'. erewrite (bind_ok _ _ _ _ _ (upd_data_ok _ _ _ _ Hi')); cbv beta.
  set (i3 := with_data i _). set (s3 := set_inodes s2 _).
  pose proof (upd_alloced s2 o p i3 [] (al_fm _ _ _ _ _ _ HA12) (g2_p _ _ _ _ _ _ Hg)) as HA3. fold s3 in HA3.
  assert (inodes s3 !! p = Some i3) as Hi3 by (simpl; by rewrite lookup_insert_eq).
  mstep (ld_data_ok _ _ _ Hi3). change (first_level_index (data i3)) with (first_level_index (data i)).
  rewrite Hfli. mstep_by (apply aref_ok; lia).
  destruct (inner_y_fresh s s2 o p i n a b sb sb' blk0 xs0 xs Hg Hab Ha Hb HA12 Hcase) as [Hr Hyn].
  pose proof (alloced_trans _ _ _ _ _ _ _ [] [] HA12 HA3) as HA123. rewrite app_nil_r in HA123.
  pose proof (al_fm _ _ _ _ _ _ HA123) as Hfm3.
  assert (getp sb' a ∉ fm_foot (fs_device s3) o) as Hxf.
  { rewrite (al_foot _ _ _ _ _ _ HA123).
    pose proof (inner_y s i n a b sb sb' blk0 xs0 Hab Ha Hb Hcase) as Hin.
    apply elem_of_app in Hin as [Hin|Hin].
    - by apply (tr_used _ _ _ (tracked_r _ _ _ _ (g2_tracked _ _ _ _ _ _ Hg))).
    - intros Hf. apply (fm_used _ _ (g2_fm _ _ _ _ _ _ Hg)) in Hf.
      destruct (al_free _ _ _ _ _ _ HA1 _ Hin). congruence. }
  destruct (fs_write_alloced p s3 o (getp sb' a) (encode_block
    (take (Z.to_nat b) blk0 ++ xs ++ drop (Z.to_nat b + Z.to_nat k) blk0)) Hfm3)
    as (bd & Eb & HB & Hbx & Hbo); [by rewrite (al_size _ _ _ _ _ _ HA123)|done| |].
  { apply length_encode. rewrite !length_app, length_take, length_drop. lia. }
  mstep Eb. set (s4 := set_device s3 bd) in *.
  pose proof (alloced_trans _ _ _ _ _ _ _ _ _ HA3 HB) as HB'. simpl app in HB'.
  assert (inodes s4 !! p = Some i3) as Hi4 by done.
  change (second_level_index (data i3)) with (u32 (b + k)). rewrite u32_small by lia.
  assert (forall s5 i5, fs_device s5 = fs_device s4 -> alloced p s4 s5 o [] [] ->
    inodes s5 !! p = Some i5 -> same_meta i i5 -> ptr (data i5) = ptr (data i) -> idx_ok (data i5) (n + k) ->
    grown2 p o s s5 i i5 sb sb' n (n + k)) as Hend.
  { intros s5 i5 Ed HC Hi5 Hm Hp5 Hix. split; try done; [|lia].
    apply (inner_stage s s2 s4 o p i n k a b sb sb' blk0 xs0 xs); try done; try lia.
    - intros x Hx. by apply Hz.
    - exact (alloced_trans _ _ _ _ _ [] [] [getp sb' a] [] HB' HC). }
  destruct (Z.eqb_spec (b + k) 128) as [Hfull|Hnf].
  - erewrite (bind_ok _ _ _ _ _ (upd_data_ok _ _ _ _ Hi4)); cbv beta.
    eexists _, (with_data i3 (with_index (data i3) (direct_level_index (data i3))
      (u32 (first_level_index (data i3) + 1)) 0)), sb'.
    split; [reflexivity|]. apply Hend; try done.
    + apply upd_alloced; [apply HB'|apply Hg].
    + simpl. by rewrite lookup_insert_eq.
    + apply (idx_ok_second_intro _ _ (a + 1) 0); simpl; try done; try lia. rewrite Hfli, u32_small; lia.
  - mstep_by reflexivity. exists s4, i3, sb'. split; [done|]. apply Hend; try done.
    + apply alloced_refl, HB'.
    + apply (idx_ok_second_intro _ _ a (b + k)); simpl; try done; try lia. rewrite u32_small; lia.
Qed.

(** ** The loop over the inner blocks *)

Lemma length_idx2 ps sb n : 138 <= n -> Z.of_nat (length (idx2 ps sb n)) = 2 + inner_cnt (n - 138).
Proof.
  intros Hn. unfold idx2. simpl length. rewrite length_fmap, length_seqZ.
  assert (0 <= inner_cnt (n - 138)) by (apply Z.div_pos; lia). lia.
Qed.

Lemma grown2_free p o s s' i i' sb sb' n n' :
  138 <= n -> grown2 p o s s' i i' sb sb' n n' ->
  free_cnt (free_map s')
  = free_cnt (free_map s) - (n' + inner_cnt (n' - 138) - (n + inner_cnt (n - 138))).
Proof.
  intros Hn [(xs & HA & _ & HP & _) _ _ _ _ _ Hle]. rewrite (al_cnt _ _ _ _ _ _ HA).
  apply Permutation_length in HP. rewrite !length_app, length_fmap, length_seqZ in HP.
  pose proof (length_idx2 (ptr (data i)) sb n Hn).
  pose proof (length_idx2 (ptr (data i)) sb' n' ltac:(lia)). lia.
Qed.

Lemma second_loop_ok d o p fuel : forall s i sb n sectors,
  growing2 s o p i sb n -> 0 < sectors -> n + sectors <= MAX_SECTORS ->
  128 - (n - 138) / 128 < Z.of_nat fuel ->
  sectors + inner_cnt (n + sectors - 138) - inner_cnt (n - 138) <= free_cnt (free_map s) ->
  exists s' i' sb',
    second_indir_loop (inode_write_at (S d)) fuel sectors p sb s = Ok ((0, sb'), s') /\
    grown2 p o s s' i i' sb sb' n (n + sectors).
Proof.
  induction fuel as [|fuel IH]; intros s i sb n sectors Hg Hs Hmax Hfu Hfree; unfold MAX_SECTORS in *.
  { pose proof (g2_n _ _ _ _ _ _ Hg) as Hn. unfold MAX_SECTORS in Hn.
    assert ((n - 138) / 128 < 128) by (apply Z.div_lt_upper_bound; lia). lia. }
  pose proof (g2_n _ _ _ _ _ _ Hg) as Hn. unfold MAX_SECTORS in Hn. cbn [second_indir_loop].
  set (a := (n - 138) / 128) in *. set (b := (n - 138) mod 128).
  assert (n - 138 = 128 * a + b) as Hab by (apply Z.div_mod; lia).
  assert (0 <= b < 128) as Hb by (apply Z.mod_pos_bound; lia).
  assert (0 <= a < 128) as Ha by lia.
  destruct (idx_ok_second _ _ a b Hab ltac:(lia) Hb ltac:(lia) (g2_idx _ _ _ _ _ _ Hg)) as (Hdli & Hfli & Hsli).
  mstep (ld_data_ok _ _ _ (g2_inode _ _ _ _ _ _ Hg)). rewrite Hfli. unfold INDEX_BLOCK_SIZE.
  replace (a <? 128) with true by (symmetry; apply Z.ltb_lt; lia).
  pose proof (inner_before n a b Hab Ha Hb) as Hib.
  assert (a + 1 <= inner_cnt (n + sectors - 138)) as Hia.
  { rewrite <-(inner_at a b 1) by lia. apply Z.div_le_mono; lia. }
  destruct (second_deep_ok d s o p i sb n sectors Hg) as (s1 & i1 & sb1 & E1 & W1);
    [unfold MAX_SECTORS; lia|lia| |].
  { fold b. rewrite Hib in Hfree. destruct (b =? 0); lia. }
  fold b in E1, W1. set (k := Z.min (128 - b) sectors) in *. mstep E1. cbv beta iota.
  destruct (Z.eqb_spec (sectors - k) 0) as [H0|Hn0].
  { exists s1, i1, sb1. replace (n + sectors) with (n + k) by lia. by rewrite H0. }
  assert (k = 128 - b) as Hk by lia.
  pose proof (grown2_growing2 _ _ _ _ _ _ _ _ _ _ Hg W1 ltac:(unfold MAX_SECTORS; lia)) as Hg1.
  pose proof (grown2_free _ _ _ _ _ _ _ _ n _ ltac:(lia) W1) as Hf1.
  assert ((n + k - 138) / 128 = a + 1) as Ha1
    by (symmetry; apply (Z.div_unique_pos _ _ (a + 1) 0); lia).
  destruct (IH s1 i1 sb1 (n + k) (sectors - k) Hg1) as (s' & i' & sb' & E' & W'); try lia.
  { replace (n + k + (sectors - k)) with (n + sectors) by lia. lia. }
  exists s', i', sb'. split; [done|]. replace (n + sectors) with (n + k + (sectors - k)) by lia.
  by eapply grown2_trans.
Qed.

(** ** [second_indir_alloc] *)

(** The block of the level, allocated or read: the view of the file through it
    is the file. *)
Lemma second_block_ok d s o p i n :
  growing s o p i n -> 138 <= n -> (n = 138 -> 0 < free_cnt (free_map s)) ->
  exists s1 i1 sb,
    (if (first_level_index (data i) =? 0) && (second_level_index (data i) =? 0) then
       o ← free_map_allocate_ (inode_write_at (S d)) 1;
       d ← ld_data p;
       ps ← store_at (ptr d) SECOND_LEV_INDEX o;
       upd_data p (fun d => with_ptr d ps);;
       mret (junk_block s)
     else
       x ← aref (ptr (data i)) SECOND_LEV_INDEX;
       blk ← on_device (block_read x);
       mret (decode_block blk)) s = Ok (sb, s1) /\
    inodes s1 !! p = Some i1 /\ same_meta i i1 /\ length (ptr (data i1)) = 12%nat /\
    idx_ok (data i1) n /\ length sb = 128%nat /\
    stage p o s s1 (sec_at (fs_device s) (ptr (data i))) (f2 (fs_device s1) (ptr (data i1)) sb)
      (idx_secs (fs_device s) (ptr (data i)) n) (idx2 (ptr (data i1)) sb n) n n.
Proof.
  intros Hg Hn Hfree. pose proof (gr_len _ _ _ _ _ Hg) as Hl. pose proof (gr_inode _ _ _ _ _ Hg) as Hi.
  pose proof (gr_n _ _ _ _ _ Hg) as Hmax. unfold MAX_SECTORS in Hmax.
  assert (0 <= (n - 138) mod 128 < 128) by (apply Z.mod_pos_bound; lia).
  destruct (idx_ok_second (data i) n ((n - 138) / 128) ((n - 138) mod 128)) as (Hdli & Hfli & Hsli);
    [apply Z.div_mod; lia|apply Z.div_pos; lia|lia|lia|apply Hg|].
  rewrite Hfli, Hsli. destruct (decide (n = 138)) as [->|Hne].
  - change (((138 - 138) / 128 =? 0) && ((138 - 138) mod 128 =? 0)) with true. cbv iota.
    destruct (free_map_allocate_ok d s o (gr_fm _ _ _ _ _ Hg) (Hfree eq_refl)) as (x & s1 & E & HA & Hi1 & Hxf).
    mstep E. rewrite <-Hi1 in Hi. mstep (ld_data_ok _ _ _ Hi). unfold SECOND_LEV_INDEX.
    mstep_by (apply store_at_ok; lia).
    erewrite (bind_ok _ _ _ _ _ (upd_data_ok _ _ _ _ Hi)); cbv beta.
    set (ps1 := <[Z.to_nat 11 := x]> (ptr (data i))). set (i1 := with_data i (with_ptr (data i) ps1)).
    set (s2 := set_inodes s1 _). exists s2, i1, (junk_block s). split; [done|].
    assert (alloced p s s2 o [x] []) as HA2.
    { apply (alloced_trans _ _ s1 _ _ [x] [] [] []); [by eapply alloced_any|].
      apply upd_alloced; [apply HA|apply Hg]. }
    assert (getp ps1 10 = getp (ptr (data i)) 10) as E10 by (apply getp_insert_ne; lia).
    split_and!; try done.
    + simpl. by rewrite lookup_insert_eq.
    + unfold i1, ps1. simpl. by rewrite length_insert.
    + apply Hg.
    + exists [x]. split_and!.
      * eapply alloced_mono; [|exact HA2]. intros j Hj. by apply not_elem_of_nil in Hj.
      * intros j Hj. unfold f2. replace (j <? 138) with true by (symmetry; apply Z.ltb_lt; lia).
        change (ptr (data i1)) with ps1. unfold sec_at, blk_at. destruct (Z.ltb_spec j 10).
        -- apply getp_insert_ne; lia.
        -- replace (j <? 138) with true by (symmetry; apply Z.ltb_lt; lia). rewrite E10.
           destruct (tr_used _ _ _ (growing_idx _ _ _ _ _ Hg) (getp (ptr (data i)) 10)) as (Hr & Hu & Hf);
             [apply idx1_in; lia|].
           rewrite (alloced_keeps _ _ _ _ _ _ (getp (ptr (data i)) 10) HA2 ltac:(lia) Hu (not_elem_of_nil _) Hf). done.
      * change (ptr (data i1)) with ps1. unfold idx2, idx_secs. rewrite E10.
        unfold ps1. rewrite getp_insert_eq by lia. done.
      * intros j Hj. lia.
  - assert (((n - 138) / 128 =? 0) && ((n - 138) mod 128 =? 0) = false) as ->.
    { apply andb_false_iff. rewrite !Z.eqb_neq. pose proof (Z.div_mod (n - 138) 128 ltac:(lia)). lia. }
    unfold SECOND_LEV_INDEX. mstep_by (apply aref_ok; lia).
    assert (0 <= getp (ptr (data i)) 11 < blk_size (fs_device s)) as Hx
      by (apply (lay_in _ _ _ (growing_layout _ _ _ _ _ Hg)), idx_foot, idx2_in; lia).
    destruct (fs_read_ok s (getp (ptr (data i)) 11)) as (b & E & Hb); [apply Hg|done|].
    mstep E. exists (set_device s b), i, (blk_at (fs_device s) (getp (ptr (data i)) 11)).
    split_and!; try done; [apply Hg|apply blk_at_len; [apply Hg|done]|].
    exists []. split_and!.
    + apply dev_eq_alloced; [apply Hg|done].
    + intros j Hj. rewrite <-(sec_at_frame (fs_device s) b _ n) by (done || intros; by apply dev_eq_sector).
      unfold f2, sec_at. simpl. destruct (Z.ltb_spec j 10).
      * by replace (j <? 138) with true by (symmetry; apply Z.ltb_lt; lia).
      * destruct (j <? 138); [done|]. unfold blk_at. by rewrite (dev_eq_sector _ _ _ Hb).
    + rewrite Z.sub_diag, app_nil_r. simpl. rewrite app_nil_r. apply reflexive_eq. unfold idx2, idx_secs.
      replace (10 <? n) with true by (symmetry; apply Z.ltb_lt; lia).
      by replace (138 <? n) with true by (symmetry; apply Z.ltb_lt; lia).
    + intros j Hj. lia.
Qed.

Lemma idx2_inner ps sb n q : 0 <= q < inner_cnt (n - 138) -> getp sb q ∈ idx2 ps sb n.
Proof.
  intros Hq. do 2 (apply elem_of_cons; right). apply list_elem_of_fmap_2, elem_of_seqZ. lia.
Qed.

(** Once the block is written, the index on the device is the view. *)
Lemma second_write_stage s s' o p i sb n :
  growing2 s o p i sb n -> 138 < n -> alloced p s s' o [] [getp (ptr (data i)) 11] ->
  sector_of (fs_device s') (getp (ptr (data i)) 11) = encode_block sb ->
  (forall j, 0 <= j -> j <> getp (ptr (data i)) 11 ->
     sector_of (fs_device s') j = sector_of (fs_device s) j) ->
  stage p o s s' (f2 (fs_device s) (ptr (data i)) sb) (sec_at (fs_device s') (ptr (data i)))
    (idx2 (ptr (data i)) sb n) (idx_secs (fs_device s') (ptr (data i)) n) n n.
Proof.
  intros Hg Hn HA Hx Ho. set (ps := ptr (data i)) in *.
  pose proof (tracked_r _ _ _ _ (g2_tracked _ _ _ _ _ _ Hg)) as Htr. fold ps in Htr.
  pose proof (tr_nodup _ _ _ Htr) as Hnd. apply NoDup_cons in Hnd as [Hnd10 Hnd].
  apply NoDup_cons in Hnd as [Hnd11 _].
  assert (forall q, 0 <= q < inner_cnt (n - 138) -> getp (blk_at (fs_device s') (getp ps 11)) q = getp sb q) as Hsb.
  { intros q Hq. rewrite (blk_at_encode _ _ _ Hx), getp_u32. eapply sector_u32; [apply Hg|].
    apply (tr_used _ _ _ Htr). by apply idx2_inner. }
  exists []. split_and!.
  - eapply alloced_mono; [|exact HA]. intros j ->%list_elem_of_singleton. right.
    apply elem_of_cons; right; apply elem_of_cons; by left.
  - intros j Hj. unfold f2, sec_at. destruct (Z.ltb_spec j 10).
    + by replace (j <? 138) with true by (symmetry; apply Z.ltb_lt; lia).
    + destruct (Z.ltb_spec j 138).
      * unfold blk_at. rewrite Ho; [done| |].
        -- apply (tr_used _ _ _ Htr). apply elem_of_cons; by left.
        -- intros E. apply Hnd10. rewrite E. apply elem_of_cons; by left.
      * pose proof (inner_lt (j - 138) (n - 138) ltac:(lia)) as Hq.
        unfold sec2_at. rewrite Hsb by done. unfold blk_at at 1. rewrite Ho; [done| |].
        -- apply (tr_used _ _ _ Htr). by apply idx2_inner.
        -- intros E. apply Hnd11. rewrite <-E. apply list_elem_of_fmap_2, elem_of_seqZ. lia.
  - rewrite Z.sub_diag. simpl. rewrite !app_nil_r. apply reflexive_eq. unfold idx_secs, idx2.
    replace (10 <? n) with true by (symmetry; apply Z.ltb_lt; lia).
    replace (138 <? n) with true by (symmetry; apply Z.ltb_lt; lia). simpl. do 2 f_equal.
    apply list_fmap_ext. intros j z Hj. apply lookup_seqZ in Hj as [-> Hj]. apply Hsb. lia.
  - intros j Hj. lia.
Qed.

Lemma idx_len_second n : 138 < n -> idx_len n = 2 + inner_cnt (n - 138).
Proof.
  intros Hn. unfold idx_len. replace (10 <? n) with true by (symmetry; apply Z.ltb_lt; lia).
  replace (138 <? n) with true by (symmetry; apply Z.ltb_lt; lia). lia.
Qed.

Lemma second_indir_ok d s o p i n sectors :
  growing s o p i n -> 138 <= n -> 0 < sectors -> n + sectors <= MAX_SECTORS ->
  sectors + idx_len (n + sectors) - idx_len n <= free_cnt (free_map s) ->
  exists s' i', second_indir_alloc_ (inode_write_at (S d)) sectors p s = Ok (0, s') /\
                grown p o s s' i i' n (n + sectors).
Proof.
  intros Hg Hn Hs Hmax Hfree. unfold MAX_SECTORS in Hmax.
  rewrite (idx_len_second (n + sectors)) in Hfree by lia.
  assert (0 <= inner_cnt (n - 138) <= inner_cnt (n + sectors - 138)) as Hmono
    by (split; [apply Z.div_pos|apply Z.div_le_mono]; lia).
  assert (138 < n -> idx_len n = 2 + inner_cnt (n - 138)) as Hid by apply idx_len_second.
  unfold second_indir_alloc_. mstep (ld_data_ok _ _ _ (gr_inode _ _ _ _ _ Hg)). mstep_by reflexivity.
  destruct (second_block_ok d s o p i n Hg Hn) as (s1 & i1 & sb & E1 & Hi1 & Hm1 & Hl1 & Hx1 & Hsb & S1).
  { intros ->. change (idx_len 138) with 1 in Hfree. lia. }
  mstep E1. pose proof (gr_n _ _ _ _ _ Hg) as Hn0.
  destruct (stage_all _ _ _ _ _ _ _ _ n n ltac:(lia) S1) as (xs & HA & HP).
  assert (growing2 s1 o p i1 sb n) as Hg1.
  { split; try done; [apply HA|apply Hg|lia| |].
    - eapply alloced_tracked; [apply Hg|done|apply Hg|done].
    - rewrite (sb_junk_block _ _ (al_mem _ _ _ _ _ _ HA)). apply Hg. }
  assert (Z.of_nat (length xs) = (if n =? 138 then 1 else 0)) as Hxs.
  { apply Permutation_length in HP. rewrite !length_app, !length_fmap in HP.
    pose proof (length_idx2 (ptr (data i1)) sb n Hn).
    pose proof (length_idx_secs (fs_device s) (ptr (data i)) n ltac:(lia)).
    destruct (Z.eqb_spec n 138) as [->|].
    - change (idx_len 138) with 1 in *. change (inner_cnt (138 - 138)) with 0 in *. lia.
    - rewrite Hid in * by lia. lia. }
  pose proof (al_cnt _ _ _ _ _ _ HA) as Hcnt. rewrite Hxs in Hcnt.
  destruct (second_loop_ok d o p (S (Z.to_nat INDEX_BLOCK_SIZE)) s1 i1 sb n sectors Hg1)
    as (s2 & i2 & sb2 & E2 & W2); [lia|unfold MAX_SECTORS; lia| | |].
  { unfold INDEX_BLOCK_SIZE. assert (0 <= (n - 138) / 128) by (apply Z.div_pos; lia). lia. }
  { destruct (Z.eqb_spec n 138) as [->|].
    - change (idx_len 138) with 1 in *. change (inner_cnt (138 - 138)) with 0 in *. lia.
    - rewrite Hid in * by lia. lia. }
  mstep E2. cbv beta iota.
  pose proof (grown2_growing2 _ _ _ _ _ _ _ _ _ _ Hg1 W2 ltac:(unfold MAX_SECTORS; lia)) as Hg2.
  mstep (ld_data_ok _ _ _ (w2_inode _ _ _ _ _ _ _ _ _ _ W2)).
  unfold SECOND_LEV_INDEX. mstep_by (apply aref_ok; rewrite (g2_len _ _ _ _ _ _ Hg2); lia).
  pose proof (tracked_r _ _ _ _ (g2_tracked _ _ _ _ _ _ Hg2)) as Htr2.
  destruct (tr_used _ _ _ Htr2 (getp (ptr (data i2)) 11)) as (Hr & _ & Hf);
    [apply elem_of_cons; right; apply elem_of_cons; by left|].
  destruct (fs_write_alloced p s2 o (getp (ptr (data i2)) 11) (encode_block sb2))
    as (b & Eb & HB & Hbx & Hbo); [apply Hg2|done|done|apply length_encode, Hg2|].
  mstep Eb. exists (set_device s2 b), i2. split; [done|].
  pose proof (w2_ptr _ _ _ _ _ _ _ _ _ _ W2) as Hp2.
  split; try done; [|by apply W2|etransitivity; [exact Hm1|apply W2]|apply Hg2|apply Hg2|lia].
  eapply stage_trans; [apply Hg|by eapply growing_idx|split; [lia|reflexivity]|lia|exact S1|].
  eapply stage_trans; [apply Hg1|eapply tracked_r, Hg1|split; [lia|]|reflexivity|apply W2|]; [lia|].
  rewrite <-Hp2. by apply second_write_stage; [|lia|..].
Qed.

(** ** [inode_grow]: the stages together *)

Lemma bytes_to_sectors_eq len :
  0 <= len < 2147483648 - 512 -> bytes_to_sectors len = sectors_of len.
Proof.
  intros H. unfold bytes_to_sectors, sectors_of, BLOCK_SECTOR_SIZE.
  rewrite s32_small, Z.quot_div_nonneg by lia. replace (len + 512 - 1) with (len + 511) by lia.
  apply u32_small. split; [apply Z.div_pos; lia|apply Z.div_lt_upper_bound; lia].
Qed.

Lemma grown_refl p o s i n : growing s o p i n -> grown p o s s i i n n.
Proof. intros Hg. split; try apply Hg; [apply stage_refl, Hg|done|lia]. Qed.

(** Beyond the direct pointers the first loop does nothing. *)
Lemma skip_direct s o p i n dli :
  growing s o p i n -> dli = direct_level_index (data i) -> 0 <= dli < 4294967296 ->
  upd_data p (fun d => with_index d (u32 dli) (first_level_index d) (second_level_index d)) s
  = Ok (tt, s).
Proof.
  intros Hg -> Hd. rewrite (upd_data_ok _ _ _ _ (gr_inode _ _ _ _ _ Hg)). do 2 f_equal.
  rewrite u32_small by done.
  assert (with_data i (with_index (data i) (direct_level_index (data i))
    (first_level_index (data i)) (second_level_index (data i))) = i) as ->
    by (by destruct i as [? ? ? ? [] ?]).
  rewrite insert_id by apply Hg. by destruct s.
Qed.

(** [inode_grow] after its loop over the direct pointers. *)
Definition grow_rest (wa : Z -> list Z -> Z -> Z -> M fs Z) (disk_length p sectors : Z) : M fs Z :=
  d ← ld_data p;
  r ← (if direct_level_index d =? FIRST_LEV_INDEX then
         sectors ← first_indir_alloc_ wa sectors p;
         if sectors =? u32 ERROR then mret (inl ERROR)
         else if sectors =? 0 then mret (inl disk_length)
         else mret (inr sectors)
       else mret (inr sectors) : M fs (Z + Z));
  match r with
  | inl v => mret v
  | inr sectors =>
      d ← ld_data p;
      if direct_level_index d =? SECOND_LEV_INDEX then
        sectors ← second_indir_alloc_ wa sectors p;
        if sectors =? u32 ERROR then mret ERROR
        else mret (s32 (disk_length - sectors * BLOCK_SECTOR_SIZE))
      else mret (s32 (disk_length - sectors * BLOCK_SECTOR_SIZE))
  end.

Lemma idx_ok_dli d n : 10 <= n -> idx_ok d n -> direct_level_index d = if n <? 138 then 10 else 11.
Proof. intros Hn H. unfold idx_ok in H. destruct (n <? 138); destruct H as [-> _]; lia. Qed.

Lemma idx_len_mono m n : 0 <= m <= n -> idx_len m <= idx_len n.
Proof.
  intros H. unfold idx_len.
  assert (inner_cnt (m - 138) <= inner_cnt (n - 138)) by (apply Z.div_le_mono; lia).
  assert (138 < n -> 0 <= inner_cnt (n - 138)) by (intros; apply Z.div_pos; lia).
  destruct (Z.ltb_spec 10 m), (Z.ltb_spec 10 n), (Z.ltb_spec 138 m), (Z.ltb_spec 138 n); lia.
Qed.

Lemma grow_rest_ok d s o p i n n' len :
  growing s o p i n -> 10 <= n < n' -> n' <= MAX_SECTORS -> 0 <= len < 1073741824 ->
  n' + idx_len n' - (n + idx_len n) <= free_cnt (free_map s) ->
  exists s' i', grow_rest (inode_write_at (S d)) len p (n' - n) s = Ok (len, s') /\
                grown p o s s' i i' n n'.
Proof.
  intros Hg Hn Hmax Hlen Hfree. unfold MAX_SECTORS in Hmax. unfold grow_rest.
  mstep (ld_data_ok _ _ _ (gr_inode _ _ _ _ _ Hg)).
  (* the second level, from a file that has reached it *)
  assert (forall s1 i1 n1, growing s1 o p i1 n1 -> grown p o s s1 i i1 n n1 -> 138 <= n1 < n' ->
    exists s' i', (dd ← ld_data p;
      if direct_level_index dd =? SECOND_LEV_INDEX then
        sectors ← second_indir_alloc_ (inode_write_at (S d)) (n' - n1) p;
        if sectors =? u32 ERROR then mret ERROR
        else mret (s32 (len - sectors * BLOCK_SECTOR_SIZE))
      else mret (s32 (len - (n' - n1) * BLOCK_SECTOR_SIZE))) s1 = Ok (len, s') /\
      grown p o s s' i i' n n') as Hsecond.
  { intros s1 i1 n1 Hg1 W1 Hn1. mstep (ld_data_ok _ _ _ (gr_inode _ _ _ _ _ Hg1)).
    rewrite (idx_ok_dli _ n1 ltac:(lia) (gr_idx _ _ _ _ _ Hg1)).
    replace (n1 <? 138) with false by (symmetry; apply Z.ltb_ge; lia). change (11 =? SECOND_LEV_INDEX) with true.
    pose proof (grown_free _ _ _ _ _ _ n n1 ltac:(lia) W1) as Hf1.
    destruct (second_indir_ok d s1 o p i1 n1 (n' - n1) Hg1) as (s2 & i2 & E2 & W2);
      [lia|lia|unfold MAX_SECTORS; lia| |].
    { replace (n1 + (n' - n1)) with n' by lia. lia. }
    replace (n1 + (n' - n1)) with n' in W2 by lia.
    mstep E2. change (0 =? u32 ERROR) with false. cbv iota. exists s2, i2.
    rewrite Z.mul_0_l, Z.sub_0_r, s32_small by lia. split; [done|]. by eapply grown_trans. }
  rewrite (idx_ok_dli _ n ltac:(lia) (gr_idx _ _ _ _ _ Hg)).
  destruct (Z.ltb_spec n 138) as [Hlo|Hhi].
  - change (10 =? FIRST_LEV_INDEX) with true. cbv iota.
    set (k := Z.min (138 - n) (n' - n)).
    destruct (first_indir_ok d s o p i n (n' - n) Hg) as (s1 & i1 & E1 & W1); [lia|lia| |].
    { fold k. pose proof (idx_len_mono (n + k) n' ltac:(lia)).
      assert (idx_len (n + k) = 1) as Hid.
      { unfold idx_len. replace (10 <? n + k) with true by (symmetry; apply Z.ltb_lt; lia).
        by replace (138 <? n + k) with false by (symmetry; apply Z.ltb_ge; lia). }
      destruct (Z.eqb_spec n 10) as [->|]; [change (idx_len 10) with 0 in *; lia|].
      pose proof (idx_len_mono n (n + k) ltac:(lia)). lia. }
    fold k in E1, W1. rewrite bind_assoc. mstep E1.
    replace (n' - n - k =? u32 ERROR) with false
      by (symmetry; apply Z.eqb_neq; change (u32 ERROR) with 4294967295; lia).
    destruct (Z.eqb_spec (n' - n - k) 0) as [H0|Hn0]; mstep_by reflexivity.
    { exists s1, i1. split; [done|]. by replace n' with (n + k) by lia. }
    replace (n' - n - k) with (n' - (n + k)) by lia. eapply Hsecond; [|exact W1|lia].
    eapply grown_growing; [exact Hg|exact W1|unfold MAX_SECTORS; lia].
  - change (11 =? FIRST_LEV_INDEX) with false. cbv iota. mstep_by reflexivity.
    apply (Hsecond s i n Hg); [by apply grown_refl|lia].
Qed.

(** [inode_grow] gives the file the sectors of the new length. *)
Lemma inode_grow_ok d s o p i n len :
  growing s o p i n -> n = sectors_of (dlength (data i)) -> 0 <= dlength (data i) <= len ->
  len <= 512 * MAX_SECTORS ->
  let n' := sectors_of len in
  n' + idx_len n' - (n + idx_len n) <= free_cnt (free_map s) ->
  exists s' i', inode_grow_ (inode_write_at (S d)) len p s = Ok (len, s') /\
                grown p o s s' i i' n n'.
Proof.
  intros Hg Hn Hl Hmax n' Hfree. unfold MAX_SECTORS in Hmax.
  pose proof (gr_n _ _ _ _ _ Hg) as Hn0. unfold MAX_SECTORS in Hn0.
  assert (n <= n') as Hnn by (subst n n'; apply Z.div_le_mono; lia).
  assert (n' <= 16522) as Hn'.
  { unfold n', sectors_of. apply Z.lt_succ_r. apply Z.div_lt_upper_bound; lia. }
  unfold inode_grow_. mstep (inode_length_ok _ _ _ (gr_inode _ _ _ _ _ Hg)).
  rewrite !bytes_to_sectors_eq, <-Hn by lia. fold n'. rewrite u32_small by lia.
  destruct (Z.eqb_spec (n' - n) 0) as [H0|Hne].
  { exists s, i. split; [done|]. replace n' with n by lia. by apply grown_refl. }
  mstep (ld_data_ok _ _ _ (gr_inode _ _ _ _ _ Hg)).
  (* the direct pointers *)
  assert (exists s1 i1 n1, 
    (r ← grow_direct_loop (inode_write_at (S d)) (Z.to_nat (FIRST_LEV_INDEX - s32 (direct_level_index (data i))))
           p (s32 (direct_level_index (data i))) (n' - n);
     let '(index, sectors) := r in
     upd_data p (fun d => with_index d (u32 index) (first_level_index d) (second_level_index d));;
     mret sectors) s = Ok (n' - n1, s1) /\ grown p o s s1 i i1 n n1 /\ n1 <= n' /\
     (n1 = n' \/ 10 <= n1)) as (s1 & i1 & n1 & E1 & W1 & Hn1 & Hn1').
  { unfold FIRST_LEV_INDEX. destruct (Z.le_gt_cases n 10) as [Hlo|Hhi].
    - pose proof (gr_idx _ _ _ _ _ Hg) as Hx. unfold idx_ok in Hx.
      replace (n <? 138) with true in Hx by (symmetry; apply Z.ltb_lt; lia). destruct Hx as (-> & _).
      replace (Z.min n 10) with n by lia. rewrite s32_small by lia.
      set (k := Z.min (10 - n) (n' - n)).
      pose proof (idx_len_mono n n' ltac:(lia)).
      destruct (direct_stage d s o p i n (n' - n) Hg Hlo) as (s1 & s2 & i2 & E & Eu & W); [lia|fold k; lia|].
      fold k in E, Eu, W. exists s2, i2, (n + k). mstep E. mstep Eu.
      split; [by replace (n' - n - k) with (n' - (n + k)) by lia|]. split; [done|]. lia.
    - rewrite (idx_ok_dli _ n ltac:(lia) (gr_idx _ _ _ _ _ Hg)). exists s, i, n.
      split; [|split; [by apply grown_refl|lia]].
      destruct (Z.ltb_spec n 138).
      + change (s32 10) with 10. simpl Z.to_nat. cbn [grow_direct_loop]. mstep_by reflexivity. cbv iota.
        mstep_by (apply (skip_direct s o p i n); [done| |lia];
          rewrite (idx_ok_dli _ n ltac:(lia) (gr_idx _ _ _ _ _ Hg));
          by replace (n <? 138) with true by (symmetry; apply Z.ltb_lt; lia)). done.
      + change (s32 11) with 11. simpl Z.to_nat. cbn [grow_direct_loop]. mstep_by reflexivity. cbv iota.
        mstep_by (apply (skip_direct s o p i n); [done| |lia];
          rewrite (idx_ok_dli _ n ltac:(lia) (gr_idx _ _ _ _ _ Hg));
          by replace (n <? 138) with false by (symmetry; apply Z.ltb_ge; lia)). done. }
  apply bind_inv in E1 as ([index sectors] & s0 & E0 & E1). mstep E0. cbv beta iota in E1 |- *.
  apply bind_inv in E1 as ([] & s0' & Eu & E1). mstep Eu. injection E1 as -> ->.
  destruct (Z.eqb_spec (n' - n1) 0) as [H0|Hn1n].
  { exists s1, i1. split; [done|]. by replace n' with n1 by lia. }
  pose proof (gw_le _ _ _ _ _ _ _ _ W1).
  pose proof (grown_free _ _ _ _ _ _ n n1 ltac:(lia) W1) as Hf1.
  pose proof (grown_growing _ _ _ _ _ _ _ _ Hg W1 ltac:(unfold MAX_SECTORS; lia)) as Hg1.
  destruct (grow_rest_ok d s1 o p i1 n1 n' len Hg1) as (s2 & i2 & E2 & W2);
    [lia|unfold MAX_SECTORS; lia|lia|lia|].
  exists s2, i2. split; [exact E2|]. by eapply grown_trans.
Qed.
