(* ===== verification/FsThms.v ===== *)
(** * Files as sequences of bytes

    [inode_write_at], growth included, and [inode_read_at] against a file seen
    as its bytes. *)

From S2P Require Import Prelude Bitmap BitmapThms Bytes Block FsModel FsRep FsRead FsWrite FsAlloc FsGrow FsSecond.

(** ** Bytes after growth *)

Lemma grown_bytes p o s s' i i' n n' :
  growing s o p i n -> grown p o s s' i i' n n' ->
  (forall j, 0 <= j < 512 * n ->
     byte_at (fs_device s') (ptr (data i')) j = byte_at (fs_device s) (ptr (data i)) j) /\
  (forall j, 512 * n <= j < 512 * n' -> byte_at (fs_device s') (ptr (data i')) j = 0).
Proof.
  intros Hg W. destruct (gw_stage _ _ _ _ _ _ _ _ W) as (xs & HA & Hf & _ & Hz).
  pose proof (gr_n _ _ _ _ _ Hg) as Hn. split; intros j Hj; unfold byte_at.
  - assert (0 <= j / 512 < n) as Hk by (split; [apply Z.div_pos|apply Z.div_lt_upper_bound]; lia).
    rewrite Hf by done.
    destruct (tr_used _ _ _ (gr_tracked _ _ _ _ _ Hg) (sec_at (fs_device s) (ptr (data i)) (j / 512)))
      as (Hr & Hu & Hnf); [by apply data_sec_in|].
    by rewrite (alloced_keeps _ _ _ _ _ _ (sec_at (fs_device s) (ptr (data i)) (j / 512)) HA
      ltac:(lia) Hu (sec_at_not_idx _ _ _ _ (growing_layout _ _ _ _ _ Hg) Hk) Hnf).
  - assert (n <= j / 512 < n')
      by (split; [apply Z.div_le_lower_bound|apply Z.div_lt_upper_bound]; lia).
    rewrite Hz by done. unfold zeros. apply nth_repeat.
Qed.

(** Growth leaves every sector in use that is neither the file's nor the free
    map's as it is. *)
Lemma grown_frame p o s s' i i' n n' x :
  growing s o p i n -> grown p o s s' i i' n n' -> 0 <= x -> bit (free_map s) x = true ->
  x ∉ foot (fs_device s) (ptr (data i)) n -> x ∉ fm_foot (fs_device s) o ->
  sector_of (fs_device s') x = sector_of (fs_device s) x.
Proof.
  intros Hg W Hx Hu Hnp Hnf. destruct (gw_stage _ _ _ _ _ _ _ _ W) as (xs & HA & _).
  eapply alloced_keeps; [exact HA|done|done| |done]. intros H. by apply Hnp, idx_foot.
Qed.

Lemma grown_foot p o s s' i i' n n' x :
  growing s o p i n -> grown p o s s' i i' n n' ->
  x ∈ foot (fs_device s') (ptr (data i')) n' ->
  x ∈ foot (fs_device s) (ptr (data i)) n \/ bit (free_map s) x = false.
Proof.
  intros Hg W Hx. pose proof (gr_n _ _ _ _ _ Hg) as Hn. pose proof (gw_le _ _ _ _ _ _ _ _ W).
  destruct (stage_all _ _ _ _ _ _ _ _ n n' ltac:(lia) (gw_stage _ _ _ _ _ _ _ _ W)) as (xs & HA & HP).
  unfold foot, data_secs in Hx. rewrite HP in Hx. apply elem_of_app in Hx as [Hx|Hx]; [by left|right].
  by apply HA.
Qed.

(** ** Changes to the inode that leave the index alone *)

Lemma growing_upd s o p i n j :
  growing s o p i n -> ptr (data j) = ptr (data i) -> idx_ok (data j) n ->
  growing (set_inodes s (<[p := j]> (inodes s))) o p j n.
Proof.
  intros Hg Hp Hx. pose proof (upd_alloced s o p j [] (gr_fm _ _ _ _ _ Hg) (gr_p _ _ _ _ _ Hg)) as HA.
  split; try done; rewrite ?Hp; [apply HA|apply Hg|simpl; by rewrite lookup_insert_eq|apply Hg|apply Hg| |apply Hg].
  destruct (gr_tracked _ _ _ _ _ Hg) as [T1 T2]. by split.
Qed.

Definition with_lock (i : inode) (b : bool) : inode :=
  Inode (open_cnt i) (deny_write_cnt i) (removed i) (sector i) (data i) b.

Lemma inode_lock_ok s p i :
  inodes s !! p = Some i -> locked i = false ->
  inode_lock p s = Ok (tt, set_inodes s (<[p := with_lock i true]> (inodes s))).
Proof.
  intros Hi Hl. unfold inode_lock. mstep (ld_inode_ok _ _ _ Hi). rewrite Hl.
  mstep_by reflexivity. unfold st_inode. by rewrite Hi.
Qed.

Lemma inode_unlock_ok s p i :
  inodes s !! p = Some i -> locked i = true ->
  inode_unlock p s = Ok (tt, set_inodes s (<[p := with_lock i false]> (inodes s))).
Proof.
  intros Hi Hl. unfold inode_unlock. mstep (ld_inode_ok _ _ _ Hi). rewrite Hl.
  mstep_by reflexivity. unfold st_inode. by rewrite Hi.
Qed.

(** ** The part of [inode_write_at] that grows the file *)

Definition grow_to (wa : Z -> list Z -> Z -> Z -> M fs Z) (p len : Z) (sub : bool) : M fs unit :=
  (if negb sub then inode_lock p else mret tt);;
  l ← inode_grow_ wa len p;
  upd_data p (fun d => with_length d l);;
  (if negb sub then inode_unlock p else mret tt).

(** The state after growth: as [grown], with the length set. *)
Record grown_to (p : Z) (o : fm_desc) (s s' : fs) (i i' : inode) (n len : Z) : Prop := {
  gt_growing : growing s' o p i' (sectors_of len);
  gt_length : dlength (data i') = len;
  gt_deny : deny_write_cnt i' = deny_write_cnt i;
  gt_locked : locked i' = locked i;
  gt_sector : sector i' = sector i;
  gt_old : forall j, 0 <= j < 512 * n ->
    byte_at (fs_device s') (ptr (data i')) j = byte_at (fs_device s) (ptr (data i)) j;
  gt_new : forall j, 512 * n <= j < 512 * sectors_of len ->
    byte_at (fs_device s') (ptr (data i')) j = 0;
  gt_frame : forall x, 0 <= x -> bit (free_map s) x = true ->
    x ∉ foot (fs_device s) (ptr (data i)) n -> x ∉ fm_foot (fs_device s) o ->
    sector_of (fs_device s') x = sector_of (fs_device s) x;
  gt_foot : forall x, x ∈ foot (fs_device s') (ptr (data i')) (sectors_of len) ->
    x ∈ foot (fs_device s) (ptr (data i)) n \/ bit (free_map s) x = false;
  gt_fm_foot : fm_foot (fs_device s') o = fm_foot (fs_device s) o;
  gt_inodes : forall q, q <> p -> inodes s' !! q = inodes s !! q;
  gt_bits : forall x, 0 <= x -> bit (free_map s) x = true -> bit (free_map s') x = true;
  gt_size : blk_size (fs_device s') = blk_size (fs_device s);
  gt_mem : same_but_map s s'
}.

Lemma grow_to_ok d s o p i n len sub :
  growing s o p i n -> n = sectors_of (dlength (data i)) -> 0 <= dlength (data i) <= len ->
  len <= 512 * MAX_SECTORS -> locked i = false ->
  sectors_of len + idx_len (sectors_of len) - (n + idx_len n) <= free_cnt (free_map s) ->
  exists s' i', grow_to (inode_write_at (S d)) p len sub s = Ok (tt, s') /\
                grown_to p o s s' i i' n len.
Proof.
  intros Hg Hn Hlen Hmax Hlk Hfree. unfold grow_to. pose proof (gr_inode _ _ _ _ _ Hg) as Hi.
  (* take the lock *)
  set (i1 := if negb sub then with_lock i true else i).
  set (s1 := set_inodes s (<[p := i1]> (inodes s))).
  assert ((if negb sub then inode_lock p else mret tt) s = Ok (tt, s1)) as E1.
  { unfold s1, i1. destruct sub; simpl; [|by apply inode_lock_ok].
    rewrite insert_id by done. by destruct s. }
  assert (data i1 = data i) as Hd1 by (unfold i1; by destruct (negb sub)).
  assert (growing s1 o p i1 n) as Hg1
    by (apply growing_upd with i; rewrite ?Hd1; [done|done|apply Hg]).
  mstep E1.
  destruct (inode_grow_ok d s1 o p i1 n len Hg1) as (s2 & i2 & E2 & W2); rewrite ?Hd1; try done.
  mstep E2. pose proof (gw_inode _ _ _ _ _ _ _ _ W2) as Hi2.
  assert (sectors_of len <= MAX_SECTORS) as Hns.
  { unfold sectors_of, MAX_SECTORS in *. apply Z.lt_succ_r, Z.div_lt_upper_bound; lia. }
  pose proof (grown_growing _ _ _ _ _ _ _ _ Hg1 W2 Hns) as Hg2.
  erewrite (bind_ok _ _ _ _ _ (upd_data_ok _ _ _ _ Hi2)); cbv beta.
  set (i3 := with_data i2 (with_length (data i2) len)). set (s3 := set_inodes s2 _).
  assert (growing s3 o p i3 (sectors_of len)) as Hg3 by (apply growing_upd with i2; [done|done|apply Hg2]).
  pose proof (gr_inode _ _ _ _ _ Hg3) as Hi3.
  assert (locked i3 = locked i1) as Hl3 by (simpl; apply (gw_meta _ _ _ _ _ _ _ _ W2)).
  (* release it *)
  set (i4 := if negb sub then with_lock i3 false else i3).
  set (s4 := set_inodes s3 (<[p := i4]> (inodes s3))).
  assert ((if negb sub then inode_unlock p else mret tt) s3 = Ok (tt, s4)) as E4.
  { unfold s4, i4. destruct sub; simpl negb; cbv iota.
    - rewrite insert_id by done. by destruct s3.
    - apply inode_unlock_ok; [done|]. by rewrite Hl3. }
  assert (data i4 = data i3) as Hd4 by (unfold i4; by destruct (negb sub)).
  exists s4, i4. split; [exact E4|].
  assert (fs_device s4 = fs_device s2) as Hdev by done. assert (fs_device s1 = fs_device s) as Hdev1 by done.
  assert (ptr (data i4) = ptr (data i2)) as Hp4 by (by rewrite Hd4).
  destruct (grown_bytes _ _ _ _ _ _ _ _ Hg1 W2) as [B1 B2]. rewrite Hd1, Hdev1 in B1.
  destruct (gw_stage _ _ _ _ _ _ _ _ W2) as (xs & HA & _).
  pose proof (gw_meta _ _ _ _ _ _ _ _ W2) as Hm.
  split; rewrite ?Hdev, ?Hp4; try done.
  - apply growing_upd with i3; [done|by rewrite Hd4|rewrite Hd4; apply Hg3].
  - by rewrite Hd4.
  - unfold i4, i1 in *. destruct sub; simpl; apply Hm.
  - unfold i4. destruct sub; simpl; [|done]. apply Hm.
  - unfold i4, i1 in *. destruct sub; simpl; apply Hm.
  - intros x Hx Hu Hp Hf. apply (grown_frame _ _ _ _ _ _ _ _ x Hg1 W2); rewrite ?Hd1; done.
  - intros x Hx. destruct (grown_foot _ _ _ _ _ _ _ _ x Hg1 W2 Hx) as [H|H]; rewrite ?Hd1 in H; [by left|by right].
  - apply (al_foot _ _ _ _ _ _ HA).
  - intros q Hq. simpl. rewrite !lookup_insert_ne by done.
    rewrite (al_inodes _ _ _ _ _ _ HA) by done. simpl. by rewrite lookup_insert_ne.
  - intros x Hx Hu. simpl. rewrite (al_bits _ _ _ _ _ _ HA) by done. simpl. rewrite Hu. apply orb_true_r.
  - apply (al_size _ _ _ _ _ _ HA).
  - destruct (al_mem _ _ _ _ _ _ HA). by split.
Qed.

Lemma growing_wrote s s' o p i n off buf :
  growing s o p i n -> same_mem s s' ->
  wrote (fs_device s) (fs_device s') (ptr (data i)) n off buf ->
  growing s' o p i n /\ fm_foot (fs_device s') o = fm_foot (fs_device s) o /\
  foot (fs_device s') (ptr (data i)) n = foot (fs_device s) (ptr (data i)) n.
Proof.
  intros Hg Hs W. pose proof (growing_layout _ _ _ _ _ Hg) as HL.
  assert (foot (fs_device s') (ptr (data i)) n = foot (fs_device s) (ptr (data i)) n) as Hft
    by (apply foot_frame; by eapply wrote_idx).
  destruct (fm_ok_device s s' o (gr_fm _ _ _ _ _ Hg) Hs) as [Hfm Hff]; [apply W|apply W| |].
  { intros ip j m x -> Hx. apply W.
    - apply (fm_foot_range s _ x (gr_fm _ _ _ _ _ Hg)). simpl. by apply idx_foot.
    - intros Hd. destruct (tr_used _ _ _ (gr_tracked _ _ _ _ _ Hg) x) as (_ & _ & Hn);
        [apply elem_of_app; by left|]. by apply Hn, idx_foot. }
  split; [|done]. destruct Hg as [G1 G2 G3 G4 G5 [G6 G6'] G7 G8].
  split; try done; [by rewrite (sm_inodes _ _ Hs)| |by rewrite (sm_junk_block _ _ Hs)].
  split; rewrite Hft; [done|]. intros x Hx. rewrite (wr_size _ _ _ _ _ _ W), (sm_map _ _ Hs), Hff.
  by apply G6'.
Qed.

(** ** The invariant of an open file and its contents *)

(** [o] describes the free map's file.  The sectors that the length needs are
    allocated, and the rest of the last one is zero. *)
Record file_inv (s : fs) (o : fm_desc) (p : Z) (i : inode) : Prop := {
  fi_growing : growing s o p i (sectors_of (dlength (data i)));
  fi_length : 0 <= dlength (data i);
  fi_locked : locked i = false;
  fi_tail : forall j, dlength (data i) <= j < 512 * sectors_of (dlength (data i)) ->
    byte_at (fs_device s) (ptr (data i)) j = 0
}.

(** The file as the function of its bytes, zero behind its end. *)
Definition content (s : fs) (i : inode) (j : Z) : Z :=
  if j <? dlength (data i) then byte_at (fs_device s) (ptr (data i)) j else 0.

(** Sectors to allocate when the length becomes [len]. *)
Definition sectors_needed (i : inode) (len : Z) : Z :=
  let n := sectors_of (dlength (data i)) in
  let n' := sectors_of (Z.max (dlength (data i)) len) in
  n' + idx_len n' - (n + idx_len n).

Lemma sectors_of_bound len : 0 <= len -> len <= 512 * sectors_of len < len + 512.
Proof.
  intros H. unfold sectors_of. pose proof (Z.div_mod (len + 511) 512 ltac:(lia)).
  pose proof (Z.mod_pos_bound (len + 511) 512 ltac:(lia)). lia.
Qed.

Lemma content_byte s o p i j :
  file_inv s o p i -> 0 <= j < 512 * sectors_of (dlength (data i)) ->
  content s i j = byte_at (fs_device s) (ptr (data i)) j.
Proof.
  intros Hi Hj. unfold content. destruct (Z.ltb_spec j (dlength (data i))); [done|].
  symmetry. apply Hi. lia.
Qed.

Lemma file_inv_ok s o p i :
  file_inv s o p i -> dlength (data i) <= 512 * MAX_SECTORS ->
  file_ok s p i (sectors_of (dlength (data i))).
Proof.
  intros [H1 H2 H3 H4] Hm. unfold MAX_SECTORS in Hm.
  split; [apply H1|apply H1|by eapply growing_layout|lia|lia].
Qed.

Lemma file_inv_max s o p i : file_inv s o p i -> dlength (data i) <= 512 * MAX_SECTORS.
Proof.
  intros [H1 H2 _ _]. pose proof (gr_n _ _ _ _ _ H1). pose proof (sectors_of_bound _ H2). lia.
Qed.

(** The state before the loop of the write: the file is long enough. *)
Lemma write_prepare d s o p i off size :
  file_inv s o p i -> 0 <= off -> 0 <= size -> off + size <= 512 * MAX_SECTORS ->
  sectors_needed i (off + size) <= free_cnt (free_map s) ->
  exists s' i', (if dlength (data i) <? s32 (off + size)
                 then grow_to (inode_write_at (S d)) p (s32 (off + size)) (is_sub_dir (data i))
                 else mret tt) s = Ok (tt, s') /\
    grown_to p o s s' i i' (sectors_of (dlength (data i))) (Z.max (dlength (data i)) (off + size)).
Proof.
  intros Hi Ho Hs Hmax Hfree. unfold sectors_needed in Hfree. unfold MAX_SECTORS in Hmax.
  pose proof (fi_length _ _ _ _ Hi) as Hl. rewrite s32_small by lia.
  destruct (Z.ltb_spec (dlength (data i)) (off + size)).
  - rewrite Z.max_r in * by lia.
    apply grow_to_ok; try apply Hi; unfold MAX_SECTORS; try done; try lia.
  - rewrite Z.max_l in * by lia. exists s, i. split; [done|]. split; try done; try apply Hi; try lia.
    intros x Hx. by left.
Qed.

Lemma content_spliced s s1 s2 o p i i1 off size buffer n len :
  file_inv s o p i -> n = sectors_of (dlength (data i)) -> len = Z.max (dlength (data i)) (off + size) ->
  0 <= off -> 0 <= size <= Z.of_nat (length buffer) ->
  grown_to p o s s1 i i1 n len ->
  wrote (fs_device s1) (fs_device s2) (ptr (data i1)) (sectors_of len) off (take (Z.to_nat size) buffer) ->
  (forall j, 0 <= j < 512 * sectors_of len ->
     byte_at (fs_device s2) (ptr (data i1)) j =
     if (off <=? j) && (j <? off + size) then nth (Z.to_nat (j - off)) buffer 0 else content s i j).
Proof.
  intros Hi -> Hlen Ho Hs G W j Hj. rewrite (wr_bytes _ _ _ _ _ _ W) by done.
  rewrite length_take. replace (Z.of_nat (Z.to_nat size `min` length buffer)) with size by lia.
  destruct ((off <=? j) && (j <? off + size)) eqn:E.
  - apply andb_true_iff in E as [E1%Z.leb_le E2%Z.ltb_lt].
    rewrite !nth_lookup, lookup_take_lt by lia. done.
  - destruct (Z.lt_ge_cases j (512 * sectors_of (dlength (data i)))).
    + rewrite (gt_old _ _ _ _ _ _ _ _ G) by lia. symmetry. eapply content_byte; [done|lia].
    + rewrite (gt_new _ _ _ _ _ _ _ _ G) by lia. unfold content.
      pose proof (sectors_of_bound _ (fi_length _ _ _ _ Hi)).
      by replace (j <? _) with false by (symmetry; apply Z.ltb_ge; lia).
Qed.

(** What an operation on inode [p] with the sectors [F] leaves alone. *)
Record others_kept (s s' : fs) (o : fm_desc) (p : Z) (F : list Z) : Prop := {
  ok_inodes : forall q, q <> p -> inodes s' !! q = inodes s !! q;
  ok_sectors : forall x, 0 <= x -> bit (free_map s) x = true -> x ∉ F ->
    x ∉ fm_foot (fs_device s) o -> sector_of (fs_device s') x = sector_of (fs_device s) x;
  ok_bits : forall x, 0 <= x -> bit (free_map s) x = true -> bit (free_map s') x = true;
  ok_size : blk_size (fs_device s') = blk_size (fs_device s);
  ok_fm : fm_foot (fs_device s') o = fm_foot (fs_device s) o;
  ok_mem : same_but_map s s'
}.

Lemma inode_write_at_ok d s o p i buffer size off :
  file_inv s o p i -> deny_write_cnt i = 0 -> 0 <= off -> 0 <= size <= Z.of_nat (length buffer) ->
  off + size <= 512 * MAX_SECTORS -> sectors_needed i (off + size) <= free_cnt (free_map s) ->
  exists s' i', inode_write_at (S (S d)) p buffer size off s = Ok (size, s') /\
    file_inv s' o p i' /\ inodes s' !! p = Some i' /\ deny_write_cnt i' = 0 /\
    dlength (data i') = Z.max (dlength (data i)) (off + size) /\
    (forall j, 0 <= j -> content s' i' j =
       if (off <=? j) && (j <? off + size) then nth (Z.to_nat (j - off)) buffer 0 else content s i j) /\
    others_kept s s' o p (foot (fs_device s) (ptr (data i)) (sectors_of (dlength (data i)))).
Proof.
  intros Hi Hd Ho Hs Hmax Hfree. pose proof (fi_length _ _ _ _ Hi) as Hl. pose proof (file_inv_max _ _ _ _ Hi) as Hlm.
  destruct (write_prepare d s o p i off size Hi Ho ltac:(lia) Hmax Hfree) as (s1 & i1 & E1 & G).
  set (len := Z.max (dlength (data i)) (off + size)) in *.
  assert (0 <= len <= 512 * MAX_SECTORS) as Hlen by (unfold len; lia).
  pose proof (gt_growing _ _ _ _ _ _ _ _ G) as Hg1. pose proof (gt_length _ _ _ _ _ _ _ _ G) as Hl1.
  assert (file_ok s1 p i1 (sectors_of len)) as Hf1.
  { split; try apply Hg1; [by eapply growing_layout|rewrite Hl1; unfold MAX_SECTORS in *; lia|rewrite Hl1; lia]. }
  destruct (inode_write_loop_ok (S (Z.to_nat size)) s1 p i1 (sectors_of len) buffer false size off 0)
    as (s2 & E2 & Hs2 & W2); try lia; [done|apply (gr_fm _ _ _ _ _ Hg1)|].
  rewrite drop_0 in W2.
  destruct (growing_wrote _ _ _ _ _ _ _ _ Hg1 Hs2 W2) as (Hg2 & Hff2 & Hft2).
  pose proof (content_spliced _ _ _ _ _ _ _ _ _ _ _ _ Hi eq_refl eq_refl Ho Hs G W2) as Hbytes.
  fold len in Hbytes.
  pose proof (sectors_of_bound _ (proj1 Hlen)) as Hsb.
  exists s2, i1. split_and!.
  - change (inode_write_at (S (S d))) with (inode_write_at_ (inode_write_at (S d))). unfold inode_write_at_.
    mstep (ld_inode_ok _ _ _ (gr_inode _ _ _ _ _ (fi_growing _ _ _ _ Hi))). rewrite Hd.
    change (negb (0 =? 0)) with false. cbv iota.
    mstep (inode_length_ok _ _ _ (gr_inode _ _ _ _ _ (fi_growing _ _ _ _ Hi))).
    mstep E1. exact E2.
  - split; rewrite ?Hl1; [done|lia|rewrite (gt_locked _ _ _ _ _ _ _ _ G); apply Hi|].
    intros j Hj. rewrite Hbytes by lia. 
    replace (j <? off + size) with false by (symmetry; apply Z.ltb_ge; lia). rewrite andb_false_r.
    unfold content. by replace (j <? dlength (data i)) with false by (symmetry; apply Z.ltb_ge; lia).
  - apply Hg2.
  - by rewrite (gt_deny _ _ _ _ _ _ _ _ G).
  - done.
  - intros j Hj. unfold content at 1. rewrite Hl1. destruct (Z.ltb_spec j len).
    + apply Hbytes. lia.
    + replace (j <? off + size) with false by (symmetry; apply Z.ltb_ge; lia). rewrite andb_false_r.
      unfold content. by replace (j <? dlength (data i)) with false by (symmetry; apply Z.ltb_ge; lia).
  - split.
    + intros q Hq. rewrite (sm_inodes _ _ Hs2). by apply (gt_inodes _ _ _ _ _ _ _ _ G).
    + intros x Hx Hu Hn Hnf. rewrite (wr_frame _ _ _ _ _ _ W2); [by apply (gt_frame _ _ _ _ _ _ _ _ G)|done|].
      intros H. destruct (gt_foot _ _ _ _ _ _ _ _ G x) as [?|?]; [apply elem_of_app; by left|done|congruence].
    + intros x Hx Hu. rewrite (sm_map _ _ Hs2). by apply (gt_bits _ _ _ _ _ _ _ _ G).
    + rewrite (wr_size _ _ _ _ _ _ W2). apply G.
    + rewrite Hff2. apply G.
    + etransitivity; [apply G|by apply same_mem_but].
Qed.

(** A file that shares no sector with [p] is not affected. *)
Lemma others_kept_file s s' o p i n q j :
  growing s o p i n -> others_kept s s' o p (foot (fs_device s) (ptr (data i)) n) ->
  fm_ok s' o -> file_inv s o q j -> q <> p ->
  (forall x, x ∈ foot (fs_device s) (ptr (data j)) (sectors_of (dlength (data j))) ->
     x ∉ foot (fs_device s) (ptr (data i)) n) ->
  file_inv s' o q j /\ forall k, 0 <= k -> content s' j k = content s j k.
Proof.
  intros Hg [K1 K2 K3 K4 K5 K6] Hfm' [G1 G2 G3 G4] Hq Hdis.
  destruct (gr_tracked _ _ _ _ _ G1) as [T1 T2].
  assert (forall x, x ∈ foot (fs_device s) (ptr (data j)) (sectors_of (dlength (data j))) ->
    sector_of (fs_device s') x = sector_of (fs_device s) x) as Hsec.
  { intros x Hx. destruct (T2 x Hx) as (Hr & Hu & Hf). apply K2; try done; [lia|]. by apply Hdis. }
  assert (foot (fs_device s') (ptr (data j)) (sectors_of (dlength (data j)))
          = foot (fs_device s) (ptr (data j)) (sectors_of (dlength (data j)))) as Hft
    by (apply foot_frame; intros x Hx; by apply Hsec, idx_foot).
  assert (forall k, 0 <= k < 512 * sectors_of (dlength (data j)) ->
    byte_at (fs_device s') (ptr (data j)) k = byte_at (fs_device s) (ptr (data j)) k) as Hb
    by (intros k Hk; by apply (byte_at_frame _ _ _ (sectors_of (dlength (data j))))).
  split.
  - split; [|done|done|].
    + destruct G1 as [F1 F2 F3 F4 F5 F6 F7 F8].
      split; try done; [by rewrite K1| |by rewrite (sb_junk_block _ _ K6)].
      split; rewrite Hft; [done|]. intros x Hx. destruct (T2 x Hx) as (Hr & Hu & Hf).
      rewrite K4, K5. split_and!; try done; try lia. apply K3; done || lia.
    + intros k Hk. rewrite Hb by lia. by apply G4.
  - intros k Hk. unfold content. destruct (Z.ltb_spec k (dlength (data j))); [|done].
    pose proof (sectors_of_bound _ G2). apply Hb. lia.
Qed.

(** ** Inodes on disk, openers and write denial

    The on-disk form of an inode, what closing and reopening preserve, sharing
    of open inodes, and the counters behind [file_deny_write]. *)

(** ** The on-disk form *)

(** Fields within their machine types. *)
Record disk_wf (d : inode_disk) : Prop := {
  dw_length : -2147483648 <= dlength d < 2147483648;
  dw_magic : is_word (magic d);
  dw_unused : length (unused d) = 109%nat;
  dw_unused_w : Forall is_word (unused d);
  dw_ptr : length (ptr d) = 12%nat;
  dw_ptr_w : Forall is_word (ptr d);
  dw_parent : is_word (parent d);
  dw_direct : is_word (direct_level_index d);
  dw_first : is_word (first_level_index d);
  dw_second : is_word (second_level_index d);
  dw_sub : is_word (sub_dir d)
}.

Lemma map_u32_id ws : Forall is_word ws -> map u32 ws = ws.
Proof. induction 1 as [|w ws Hw _ IH]; [done|]. simpl. rewrite IH, u32_small by done. done. Qed.

Lemma decode_encode_inode d : disk_wf d -> decode_inode (encode_inode d) = d.
Proof.
  intros [H1 H2 H3 H4 H5 H6 H7 H8 H9 H10 H11]. unfold decode_inode, encode_inode.
  rewrite bytes_words_bytes, map_u32_id.
  2: { repeat (apply Forall_cons; split; [done || apply u32_range|]).
       repeat (apply Forall_app; split); [done|done|]. repeat (constructor; [done|]). constructor. }
  destruct d as [len mg un ps pa dl fl sl sd]. simpl in *.
  do 109 (destruct un as [|? un]; [simpl in H3; lia|]). destruct un; [|simpl in H3; lia].
  do 12 (destruct ps as [|? ps]; [simpl in H5; lia|]). destruct ps; [|simpl in H5; lia].
  simpl. by rewrite s32_u32.
Qed.

Lemma length_encode_inode d : disk_wf d -> length (encode_inode d) = 512%nat.
Proof.
  intros [_ _ H1 _ H2 _ _ _ _ _ _]. unfold encode_inode. rewrite length_words_bytes. simpl.
  rewrite !length_app. simpl. lia.
Qed.

(** ** Closing and reopening *)

(** The sectors of the open inodes. *)
Lemma find_open_none s l x :
  (forall p, p ∈ l -> exists i, inodes s !! p = Some i /\ sector i <> x) -> find_open l x s = Ok (None, s).
Proof.
  induction l as [|p l IH]; intros H; [done|]. cbn [find_open].
  destruct (H p ltac:(by left)) as (i & Hi & Hx). mstep (ld_inode_ok _ _ _ Hi).
  destruct (Z.eqb_spec (sector i) x); [done|]. apply IH. intros q Hq. apply H. by right.
Qed.

Lemma find_open_some s l x p :
  p ∈ l -> (forall q, q ∈ l -> exists j, inodes s !! q = Some j /\ (sector j = x <-> q = p)) ->
  find_open l x s = Ok (Some p, s).
Proof.
  induction l as [|q l IH]; intros Hp Hu; [by apply not_elem_of_nil in Hp|]. cbn [find_open].
  destruct (Hu q ltac:(by left)) as (j & Hj & Hx). mstep (ld_inode_ok _ _ _ Hj).
  destruct (Z.eqb_spec (sector j) x) as [Es|Hne]; [apply Hx in Es as ->; done|].
  apply elem_of_cons in Hp as [->|Hp]; [by destruct Hne; apply Hx|]. apply IH; [done|]. intros r Hr. apply Hu. by right.
Qed.

(** The last opener writes the inode back. *)
Lemma inode_close_last_ok d s p i :
  inodes s !! p = Some i -> p <> 0 -> open_cnt i = 1 -> removed i = false ->
  blk_wf (fs_device s) -> 0 <= sector i < blk_size (fs_device s) -> disk_wf (data i) ->
  exists b, blk_wf b /\ blk_size b = blk_size (fs_device s) /\
    (forall j, 0 <= j -> sector_of b j =
       if j =? sector i then encode_inode (data i) else sector_of (fs_device s) j) /\
    inode_close d p s = Ok (tt,
      Fs b (free_map s) (free_map_file s) (delete p (inodes s))
         (filter (fun q => q <> p) (open_inodes s)) (files s) (fresh s) (oracle s) (tick s)
         (junk_ptr s) (junk_block s)).
Proof.
  intros Hi Hp Ho Hr Hwf Hx Hd. unfold inode_close.
  replace (p =? 0) with false by (symmetry; by apply Z.eqb_neq).
  mstep (ld_inode_ok _ _ _ Hi). mstep_by (unfold st_inode; by rewrite Hi).
  rewrite Ho. change (1 - 1 =? 0) with true. cbv iota. mstep_by reflexivity. mstep_by reflexivity.
  rewrite Hr. set (s1 := set_open _ _).
  destruct (fs_write_ok s1 (sector i) (encode_inode (data i))) as (b & E & H1 & H2 & H3);
    [done|done|by apply length_encode_inode|].
  exists b. split_and!; try done. mstep E. mstep_by reflexivity. unfold put. do 2 f_equal.
  unfold s1, set_open, set_inodes, set_device. simpl. f_equal. by rewrite delete_insert_eq.
Qed.

Lemma inode_open_new_ok s x :
  heap_ok s -> blk_wf (fs_device s) -> 0 <= x < blk_size (fs_device s) ->
  find_open (open_inodes s) x s = Ok (None, s) ->
  exists b, dev_eq (fs_device s) b /\
    inode_open x s = Ok (fresh s,
      Fs b (free_map s) (free_map_file s)
         (<[fresh s := Inode 1 0 false x (decode_inode (sector_of (fs_device s) x)) false]> (inodes s))
         (fresh s :: open_inodes s) (files s) (fresh s + 1) (oracle s) (S (tick s))
         (junk_ptr s) (junk_block s)).
Proof.
  intros Hh Hwf Hx Hf. unfold inode_open. mstep_by reflexivity. mstep Hf.
  destruct Hh as [H1 H2]. mstep_by (unfold malloc; by rewrite H1).
  replace (fresh s =? 0) with false by (symmetry; apply Z.eqb_neq; lia).
  destruct (fs_read_ok (set_heap s (fresh s + 1) (S (tick s))) x) as (b & E & Hb); [done|done|].
  mstep E. exists b. split; [done|]. mstep_by reflexivity. mstep_by reflexivity. done.
Qed.
