(* ===== verification/FsProps.v ===== *)
(** * Properties of the file system

    The statements about [filesys/inode.c], [filesys/free-map.c] and
    [filesys/file.c], with the file system that the code itself formats as the
    concrete state. *)

From S2P Require Import Prelude Bitmap BitmapThms Bytes Block FsModel FsRep FsRead FsWrite FsAlloc FsGrow FsSecond FsThms.

(** ** A formatted device

    A blank device of 32 sectors, formatted by the code: the free map is
    initialised and written to its file, then two files are created and
    opened. *)

Definition blank_device (n : nat) (junk : Z) : fs :=
  Fs (Block BLOCK_FILESYS (Z.of_nat n) (repeat zeros n) 0 0) (Bitmap 0 []) 0 ∅ [] ∅ 1
     (fun _ => true) 0 (repeat junk 12) (repeat junk 128).

Definition blank : fs := blank_device 32 3735928559.

Definition new_file (length : Z) : M fs Z :=
  x ← free_map_allocate 3 1;
  inode_create 3 (default 0 x) length false;;
  inode_open (default 0 x).

Definition format (words : list Z) : M fs Z :=
  inode_init;; free_map_init (Some words);; free_map_create 3;; new_file 0;; new_file 600.

Definition formatted : fs := match format [7] blank with Ok (_, s) => s | Err _ => blank end.

Definition inode_at (s : fs) (p : Z) : inode :=
  default (Inode 0 0 false 0 (InodeDisk 0 0 [] [] 0 0 0 0 0) false) (inodes s !! p).

Definition fm0 : fm_desc := Some (3, inode_at formatted 3, 1).

(** A sector set that is in use, distinct and apart from the free map's. *)
Lemma tracked_decide s o l :
  bool_decide (NoDup l) && forallb (fun x => (0 <=? x) && (x <? blk_size (fs_device s)) &&
    bit (free_map s) x && negb (existsb (Z.eqb x) (fm_foot (fs_device s) o))) l = true ->
  tracked s o l.
Proof.
  intros [H1%bool_decide_eq_true H2]%andb_true_iff. split; [done|]. intros x Hx.
  rewrite forallb_forall in H2. apply list_elem_of_In, H2 in Hx.
  rewrite !andb_true_iff, negb_true_iff, Z.leb_le, Z.ltb_lt in Hx.
  destruct Hx as (((Ha & Hb) & Hc) & Hd). split_and!; try done. intros Hin.
  apply not_true_iff_false in Hd. apply Hd, existsb_exists. exists x.
  split; [by apply list_elem_of_In|apply Z.eqb_refl].
Qed.

Lemma blk_wf_decide b :
  bool_decide (blk_type b <> BLOCK_FOREIGN) && (Z.of_nat (length (sectors b)) =? blk_size b) &&
  forallb (fun d => Nat.eqb (length d) 512) (sectors b) = true -> blk_wf b.
Proof.
  rewrite !andb_true_iff, bool_decide_eq_true, Z.eqb_eq, forallb_forall.
  intros ((H1 & H2) & H3). split; [done|done|]. apply Forall_forall. intros d Hd.
  apply Nat.eqb_eq, H3. by apply list_elem_of_In.
Qed.

Lemma wf_decide b :
  (0 <=? bit_cnt b) && (bit_cnt b <=? 4294967264) &&
  (elem_cnt (bit_cnt b) <=? Z.of_nat (length (bits b))) &&
  forallb (fun w => (0 <=? w) && (w <? 4294967296)) (bits b) = true -> wf b.
Proof.
  rewrite !andb_true_iff, !Z.leb_le, forallb_forall. intros (((H1 & H2) & H3) & H4).
  split; [lia|lia|]. apply Forall_forall. intros w Hw. apply list_elem_of_In, H4 in Hw.
  apply andb_true_iff in Hw. unfold word. lia.
Qed.

Lemma formatted_blk : blk_wf (fs_device formatted).
Proof. apply blk_wf_decide. vm_compute. reflexivity. Qed.

Lemma formatted_fm : fm_ok formatted fm0.
Proof.
  split.
  - apply wf_decide. vm_compute. reflexivity.
  - vm_compute. reflexivity.
  - apply formatted_blk.
  - split; [intros k; vm_compute; reflexivity|vm_compute; reflexivity].
  - assert (tracked formatted None (fm_foot (fs_device formatted) fm0)) as [_ H]
      by (apply tracked_decide; vm_compute; reflexivity).
    intros x Hx. by apply H.
  - split; [vm_compute; discriminate|]. split.
    { exists (default (File 0 0 false) (files formatted !! free_map_file formatted)).
      split; vm_compute; reflexivity. }
    assert (tracked formatted None (fm_foot (fs_device formatted) fm0)) as [H1 H2]
      by (apply tracked_decide; vm_compute; reflexivity).
    split; [split|split].
    + vm_compute. reflexivity.
    + apply formatted_blk.
    + split; [vm_compute; reflexivity|unfold MAX_SECTORS; lia|exact H1|].
      intros x Hx. by apply H2.
    + vm_compute. split; discriminate || reflexivity.
    + vm_compute. discriminate.
    + vm_compute. reflexivity.
    + vm_compute. reflexivity.
Qed.

Lemma formatted_file : file_inv formatted fm0 9 (inode_at formatted 9).
Proof.
  assert (sectors_of (dlength (data (inode_at formatted 9))) = 0) as E by (vm_compute; reflexivity).
  split.
  - rewrite E. split.
    + apply formatted_fm.
    + vm_compute. discriminate.
    + vm_compute. reflexivity.
    + vm_compute. reflexivity.
    + unfold MAX_SECTORS. lia.
    + apply tracked_decide. vm_compute. reflexivity.
    + vm_compute. auto.
    + vm_compute. reflexivity.
  - vm_compute. discriminate.
  - vm_compute. reflexivity.
  - rewrite E. intros j Hj. assert (dlength (data (inode_at formatted 9)) = 0) by (vm_compute; reflexivity). lia.
Qed.

(** ** Writing and reading *)

(** C1: inode_write_at, for every range below the largest file size and with
    enough free sectors: it returns after at most two nested writes with all
    bytes written, the file has grown to the end of the range if it was
    shorter, its bytes are the old ones with the range replaced by the buffer
    (a gap behind the old end reads as zeros), the invariant of the file
    system still holds, and no other inode and no other sector in use, except
    those of the free map's file, has changed. *)
Theorem inode_write_at_correct d s o p i buffer size off :
  file_inv s o p i -> deny_write_cnt i = 0 -> 0 <= off -> 0 <= size <= Z.of_nat (length buffer) ->
  off + size <= 512 * MAX_SECTORS -> sectors_needed i (off + size) <= free_cnt (free_map s) ->
  exists s' i', inode_write_at (S (S d)) p buffer size off s = Ok (size, s') /\
    file_inv s' o p i' /\ inodes s' !! p = Some i' /\ deny_write_cnt i' = 0 /\
    dlength (data i') = Z.max (dlength (data i)) (off + size) /\
    (forall j, 0 <= j -> content s' i' j =
       if (off <=? j) && (j <? off + size) then nth (Z.to_nat (j - off)) buffer 0 else content s i j) /\
    others_kept s s' o p (foot (fs_device s) (ptr (data i)) (sectors_of (dlength (data i)))).
Proof. apply inode_write_at_ok. Qed.

Lemma inode_write_at_correct_witness :
  exists s' i', inode_write_at 2 9 [10; 20; 30] 3 700 formatted = Ok (3, s') /\
    inodes s' !! 9 = Some i' /\ dlength (data i') = 703 /\
    content s' i' 701 = 20 /\ content s' i' 600 = 0.
Proof.
  destruct (inode_write_at_correct 0 formatted fm0 9 (inode_at formatted 9) [10; 20; 30] 3 700)
    as (s' & i' & E & _ & Hi & _ & Hl & Hc & _).
  - apply formatted_file.
  - vm_compute. reflexivity.
  - lia.
  - simpl. lia.
  - unfold MAX_SECTORS. lia.
  - vm_compute. discriminate.
  - exists s', i'. split; [exact E|]. split; [exact Hi|]. split; [rewrite Hl; vm_compute; reflexivity|].
    rewrite !Hc by lia. split; vm_compute; reflexivity.
Defined.

(** inode_read_at returns the number of bytes between the offset and the
    end of the file, at most the size asked for, and exactly these bytes of
    the file; memory and the sectors of the device are unchanged. *)
Theorem inode_read_at_correct s o p i size off :
  file_inv s o p i -> 0 <= off -> 0 <= size -> off + size < 2147483648 ->
  let r := Z.max 0 (Z.min size (dlength (data i) - off)) in
  exists s', inode_read_at p size off s = Ok ((r, content s i <$> seqZ off r), s') /\
    same_mem s s' /\ dev_eq (fs_device s) (fs_device s').
Proof.
  intros Hi Ho Hs Hos r.
  destruct (inode_read_at_ok s p i (sectors_of (dlength (data i))) size off) as (s' & E & H);
    [eapply file_inv_ok; [done|by eapply file_inv_max]|apply (gr_fm _ _ _ _ _ (fi_growing _ _ _ _ Hi))|done..|].
  exists s'. split; [|done]. rewrite E. unfold r, read_cnt_of. do 3 f_equal.
  apply list_fmap_ext. intros j z Hj. apply lookup_seqZ in Hj as [-> Hj]. unfold content.
  by replace (_ <? dlength (data i)) with true by (symmetry; apply Z.ltb_lt; lia).
Qed.

(** C14: what has been written is read back, across a growth of the file and
    any alignment with the sectors. *)
Theorem inode_write_read_roundtrip d s o p i buffer off :
  file_inv s o p i -> deny_write_cnt i = 0 -> 0 <= off ->
  let size := Z.of_nat (length buffer) in
  off + size <= 512 * MAX_SECTORS -> sectors_needed i (off + size) <= free_cnt (free_map s) ->
  exists s' s'', inode_write_at (S (S d)) p buffer size off s = Ok (size, s') /\
                 inode_read_at p size off s' = Ok ((size, buffer), s'').
Proof.
  intros Hi Hd Ho size Hm Hf. unfold MAX_SECTORS in Hm.
  destruct (inode_write_at_ok d s o p i buffer size off) as (s' & i' & E & Hi' & _ & _ & Hl & Hc & _);
    [done|done|done|lia|unfold MAX_SECTORS; lia|done|].
  destruct (inode_read_at_ok s' p i' (sectors_of (dlength (data i'))) size off) as (s'' & E' & _);
    [eapply file_inv_ok; [done|by eapply file_inv_max]|apply (gr_fm _ _ _ _ _ (fi_growing _ _ _ _ Hi'))|lia..|].
  exists s', s''. split; [done|]. rewrite E'. pose proof (fi_length _ _ _ _ Hi).
  replace (read_cnt_of (dlength (data i')) size off) with size by (unfold read_cnt_of; lia).
  do 3 f_equal. apply list_eq. intros j. unfold bytes_of. rewrite list_lookup_fmap.
  destruct (decide (j < length buffer)%nat) as [Hj|Hj].
  - rewrite lookup_seqZ_lt by lia. cbn [fmap option_fmap option_map].
    pose proof (Hc (off + Z.of_nat j) ltac:(lia)) as Hcj.
    rewrite (content_byte s' o p i') in Hcj; [|done|pose proof (sectors_of_bound (dlength (data i'))); lia].
    rewrite Hcj. replace (off <=? _) with true by (symmetry; apply Z.leb_le; lia).
    replace (_ <? off + size) with true by (symmetry; apply Z.ltb_lt; lia). cbn [andb].
    replace (Z.to_nat (off + Z.of_nat j - off)) with j by lia.
    destruct (lookup_lt_is_Some_2 buffer j Hj) as [x Ex]. by rewrite (nth_lookup_Some _ _ _ _ Ex), Ex.
  - rewrite lookup_seqZ_ge by lia. by rewrite lookup_ge_None_2 by lia.
Qed.

Lemma inode_write_read_roundtrip_witness :
  exists s' s'', inode_write_at 2 9 [10; 20; 30] 3 510 formatted = Ok (3, s') /\
                 inode_read_at 9 3 510 s' = Ok ((3, [10; 20; 30]), s'').
Proof.
  apply (inode_write_read_roundtrip 0 formatted fm0 9 (inode_at formatted 9) [10; 20; 30] 510).
  - apply formatted_file.
  - vm_compute. reflexivity.
  - lia.
  - unfold MAX_SECTORS. simpl. lia.
  - vm_compute. discriminate.
Defined.

Lemma inode_read_at_correct_witness :
  exists s', inode_read_at 9 100 5 formatted = Ok ((0, []), s') /\ same_mem formatted s'.
Proof.
  destruct (inode_read_at_correct formatted fm0 9 (inode_at formatted 9) 100 5) as (s' & E & H & _);
    [apply formatted_file|lia|lia|lia|].
  exists s'. split; [|exact H]. rewrite E. vm_compute. reflexivity.
Defined.

Lemma formatted_file2 : file_inv formatted fm0 15 (inode_at formatted 15).
Proof.
  assert (sectors_of (dlength (data (inode_at formatted 15))) = 2) as E by (vm_compute; reflexivity).
  assert (dlength (data (inode_at formatted 15)) = 600) as E' by (vm_compute; reflexivity).
  split; rewrite ?E, ?E'.
  - split.
    + apply formatted_fm.
    + vm_compute. discriminate.
    + vm_compute. reflexivity.
    + vm_compute. reflexivity.
    + unfold MAX_SECTORS. lia.
    + apply tracked_decide. vm_compute. reflexivity.
    + vm_compute. auto.
    + vm_compute. reflexivity.
  - lia.
  - vm_compute. reflexivity.
  - assert (forallb (fun j => byte_at (fs_device formatted) (ptr (data (inode_at formatted 15))) j =? 0)
      (seqZ 600 424) = true) as H by (vm_compute; reflexivity).
    intros j Hj. rewrite forallb_forall in H. apply Z.eqb_eq, H, list_elem_of_In, elem_of_seqZ. lia.
Qed.

(** C15: files are isolated from each other: a write to one file, with its
    growth, changes neither the contents nor the invariant of another open
    file that shares no sector with it. *)
Theorem file_isolation d s o p i q j buffer size off :
  file_inv s o p i -> file_inv s o q j -> q <> p ->
  (forall x, x ∈ foot (fs_device s) (ptr (data j)) (sectors_of (dlength (data j))) ->
     x ∉ foot (fs_device s) (ptr (data i)) (sectors_of (dlength (data i)))) ->
  deny_write_cnt i = 0 -> 0 <= off -> 0 <= size <= Z.of_nat (length buffer) ->
  off + size <= 512 * MAX_SECTORS -> sectors_needed i (off + size) <= free_cnt (free_map s) ->
  exists s', inode_write_at (S (S d)) p buffer size off s = Ok (size, s') /\
    file_inv s' o q j /\ inodes s' !! q = Some j /\
    forall k, 0 <= k -> content s' j k = content s j k.
Proof.
  intros Hi Hj Hq Hdis Hd Ho Hs Hm Hf.
  destruct (inode_write_at_ok d s o p i buffer size off) as (s' & i' & E & Hi' & _ & _ & _ & _ & K); [done..|].
  exists s'. split; [done|].
  destruct (others_kept_file s s' o p i _ q j (fi_growing _ _ _ _ Hi) K) as [Hj' Hc]; try done.
  { apply (gr_fm _ _ _ _ _ (fi_growing _ _ _ _ Hi')). }
  split; [done|]. split; [|done]. apply (gr_inode _ _ _ _ _ (fi_growing _ _ _ _ Hj')).
Qed.

Lemma file_isolation_witness :
  exists s', inode_write_at 2 9 [10; 20; 30] 3 510 formatted = Ok (3, s') /\
    forall k, 0 <= k -> content s' (inode_at formatted 15) k = content formatted (inode_at formatted 15) k.
Proof.
  destruct (file_isolation 0 formatted fm0 9 (inode_at formatted 9) 15 (inode_at formatted 15)
    [10; 20; 30] 3 510) as (s' & E & _ & _ & H).
  - apply formatted_file.
  - apply formatted_file2.
  - lia.
  - intros x Hx Hy. vm_compute in Hy. by apply not_elem_of_nil in Hy.
  - vm_compute. reflexivity.
  - lia.
  - simpl. lia.
  - unfold MAX_SECTORS. lia.
  - vm_compute. discriminate.
  - exists s'. split; [exact E|exact H].
Defined.

(** ** Persistence, sharing and denial *)

Lemma words_decide ws :
  forallb (fun w => (0 <=? w) && (w <? 4294967296)) ws = true -> Forall is_word ws.
Proof.
  rewrite forallb_forall. intros H. apply Forall_forall. intros w Hw.
  apply list_elem_of_In, H, andb_true_iff in Hw. unfold is_word. lia.
Qed.

Lemma disk_wf_decide d :
  (-2147483648 <=? dlength d) && (dlength d <? 2147483648) &&
  Nat.eqb (length (unused d)) 109 && Nat.eqb (length (ptr d)) 12 &&
  forallb (fun w => (0 <=? w) && (w <? 4294967296))
    (magic d :: parent d :: direct_level_index d :: first_level_index d :: second_level_index d ::
     sub_dir d :: unused d ++ ptr d) = true -> disk_wf d.
Proof.
  rewrite !andb_true_iff, Z.leb_le, Z.ltb_lt, !Nat.eqb_eq. intros ((((H1 & H2) & H3) & H4) & H5).
  apply words_decide in H5. rewrite !Forall_cons, Forall_app in H5. destruct H5 as (?&?&?&?&?&?&?&?).
  by split.
Qed.

(** closing the last opener of a file and opening its sector again gives
    an inode with the same data and the same contents: everything a file is
    made of survives on the device. *)
Theorem inode_close_open_roundtrip d s o p i :
  file_inv s o p i -> p <> 0 -> open_cnt i = 1 -> removed i = false -> disk_wf (data i) ->
  0 <= sector i < blk_size (fs_device s) ->
  sector i ∉ foot (fs_device s) (ptr (data i)) (sectors_of (dlength (data i))) ->
  (forall q, q ∈ open_inodes s -> exists j, inodes s !! q = Some j /\ (sector j = sector i -> q = p)) ->
  exists s1 s2 p' i', inode_close d p s = Ok (tt, s1) /\ inodes s1 !! p = None /\
    inode_open (sector i) s1 = Ok (p', s2) /\ inodes s2 !! p' = Some i' /\
    data i' = data i /\ open_cnt i' = 1 /\ deny_write_cnt i' = 0 /\
    forall k, 0 <= k -> content s2 i' k = content s i k.
Proof.
  intros Hi Hp Ho Hr Hd Hx Hnf Hu. pose proof (fi_growing _ _ _ _ Hi) as Hg.
  pose proof (gr_fm _ _ _ _ _ Hg) as Hfm.
  destruct (inode_close_last_ok d s p i (gr_inode _ _ _ _ _ Hg) Hp Ho Hr (fm_blk _ _ Hfm) Hx Hd)
    as (b & B1 & B2 & B3 & E1).
  eexists _. set (s1 := Fs b _ _ _ _ _ _ _ _ _ _) in E1.
  destruct (inode_open_new_ok s1 (sector i)) as (b2 & Hb2 & E2).
  - destruct (fm_heap _ _ Hfm). by split.
  - done.
  - simpl. by rewrite B2.
  - apply find_open_none. simpl. intros q Hq. apply list_elem_of_filter in Hq as [Hq1 Hq2].
    destruct (Hu q Hq2) as (j & Hj & Hs). exists j. rewrite lookup_delete_ne by done. split; [done|]. intros E. by apply Hq1, Hs.
  - simpl fs_device in E2. rewrite B3, Z.eqb_refl, decode_encode_inode in E2 by (done || lia).
    eexists _, (fresh s1), _. split; [exact E1|]. split; [simpl; apply lookup_delete_eq|].
    split; [exact E2|]. split; [simpl; apply lookup_insert_eq|]. simpl. split_and!; try done.
    intros k Hk. unfold content. simpl. destruct (Z.ltb_spec k (dlength (data i))); [|done].
    pose proof (sectors_of_bound _ (fi_length _ _ _ _ Hi)).
    apply (byte_at_frame _ _ _ (sectors_of (dlength (data i)))); [|lia].
    intros y Hy. rewrite (dev_eq_sector _ _ _ Hb2). simpl.
    rewrite B3 by (by apply (tr_used _ _ _ (gr_tracked _ _ _ _ _ Hg))).
    destruct (Z.eqb_spec y (sector i)) as [->|]; [done|done].
Qed.

Lemma inode_close_open_roundtrip_witness :
  exists s1 s2 p' i', inode_close 2 15 formatted = Ok (tt, s1) /\
    inode_open (sector (inode_at formatted 15)) s1 = Ok (p', s2) /\ inodes s2 !! p' = Some i' /\
    dlength (data i') = 600.
Proof.
  destruct (inode_close_open_roundtrip 2 formatted fm0 15 (inode_at formatted 15))
    as (s1 & s2 & p' & i' & E1 & _ & E2 & Hi & Hd & _).
  - apply formatted_file2.
  - lia.
  - vm_compute. reflexivity.
  - vm_compute. reflexivity.
  - apply disk_wf_decide. vm_compute. reflexivity.
  - vm_compute. split; discriminate || reflexivity.
  - intros H. vm_compute in H. repeat (apply elem_of_cons in H as [H|H]; [discriminate|]).
    by apply not_elem_of_nil in H.
  - intros q Hq. exists (inode_at formatted q). vm_compute in Hq.
    apply elem_of_cons in Hq as [->|Hq]; [split; [vm_compute; reflexivity|intros _; reflexivity]|].
    apply elem_of_cons in Hq as [->|Hq]; [split; [vm_compute; reflexivity|intros Es; vm_compute in Es; discriminate]|].
    apply elem_of_cons in Hq as [->|Hq]; [split; [vm_compute; reflexivity|intros Es; vm_compute in Es; discriminate]|].
    destruct (not_elem_of_nil q Hq).
  - exists s1, s2, p', i'. split; [exact E1|]. split; [exact E2|]. split; [exact Hi|].
    rewrite Hd. vm_compute. reflexivity.
Defined.

(** opening a sector whose inode is already open returns the same inode
    with one more opener and reads nothing from the device; closing it again
    restores the state. *)
Theorem inode_open_shared d s p i :
  p ∈ open_inodes s -> p <> 0 -> inodes s !! p = Some i -> 0 < open_cnt i ->
  (forall q, q ∈ open_inodes s -> exists j, inodes s !! q = Some j /\ (sector j = sector i -> q = p)) ->
  exists s1, inode_open (sector i) s = Ok (p, s1) /\ fs_device s1 = fs_device s /\
    inodes s1 !! p = Some (Inode (open_cnt i + 1) (deny_write_cnt i) (removed i) (sector i)
                             (data i) (locked i)) /\
    inode_close d p s1 = Ok (tt, s).
Proof.
  intros Hp Hp0 Hi Ho Hu. unfold inode_open.
  rewrite (bind_ok get _ s s s eq_refl). cbv beta.
  assert (Ef : find_open (open_inodes s) (sector i) s = Ok (Some p, s)).
  { apply find_open_some; [done|]. intros q Hq. destruct (Hu q Hq) as (j & Hj & Hs). exists j. split; [done|].
    split; [done|]. intros ->. congruence. }
  mstep Ef.
  unfold inode_reopen. replace (p =? 0) with false by (symmetry; by apply Z.eqb_neq).
  mstep (ld_inode_ok _ _ _ Hi). mstep_by (unfold st_inode; by rewrite Hi).
  eexists. split; [reflexivity|]. split; [done|]. split; [simpl; apply lookup_insert_eq|].
  unfold inode_close. replace (p =? 0) with false by (symmetry; by apply Z.eqb_neq).
  mstep_by (apply ld_inode_ok; simpl; apply lookup_insert_eq).
  mstep_by (unfold st_inode; simpl; by rewrite lookup_insert_eq).
  cbn [open_cnt].
  replace (open_cnt i + 1 - 1) with (open_cnt i) by lia.
  replace (open_cnt i =? 0) with false by (symmetry; apply Z.eqb_neq; lia).
  cbv iota. refine (f_equal (fun z => Ok (tt, z)) _). destruct s, i. unfold set_inodes. simpl in *.
  f_equal. by rewrite insert_insert_eq, insert_id.
Qed.

Lemma inode_open_shared_witness :
  exists s1, inode_open 0 formatted = Ok (3, s1) /\ inode_close 2 3 s1 = Ok (tt, formatted).
Proof.
  destruct (inode_open_shared 2 formatted 3 (inode_at formatted 3)) as (s1 & E1 & _ & _ & E2).
  - replace (open_inodes formatted) with [15; 9; 3] by (vm_compute; reflexivity).
    apply list_elem_of_In. simpl. auto.
  - lia.
  - vm_compute. reflexivity.
  - vm_compute. reflexivity.
  - intros q Hq. exists (inode_at formatted q). vm_compute in Hq.
    apply elem_of_cons in Hq as [->|Hq]; [split; [vm_compute; reflexivity|intros Es; vm_compute in Es; discriminate]|].
    apply elem_of_cons in Hq as [->|Hq]; [split; [vm_compute; reflexivity|intros Es; vm_compute in Es; discriminate]|].
    apply elem_of_cons in Hq as [->|Hq]; [split; [vm_compute; reflexivity|intros _; reflexivity]|].
    destruct (not_elem_of_nil q Hq).
  - exists s1. split; [exact E1|exact E2].
Defined.

(** between file_deny_write and file_allow_write, writes to the inode
    through any opener return 0 and change nothing; afterwards the inode and
    the file are as before. *)
Theorem deny_write_blocks s fp f i :
  fp <> 0 -> files s !! fp = Some f -> deny_write f = false -> inodes s !! finode f = Some i ->
  0 <= deny_write_cnt i < open_cnt i ->
  exists s1, file_deny_write fp s = Ok (tt, s1) /\
    (forall d buffer size off, inode_write_at (S d) (finode f) buffer size off s1 = Ok (0, s1)) /\
    file_allow_write fp s1 = Ok (tt, s).
Proof.
  intros Hfp Hf Hd Hi Hc. unfold file_deny_write, ld_file, st_file.
  replace (fp =? 0) with false by (symmetry; by apply Z.eqb_neq).
  mstep_by reflexivity. mstep_by (by rewrite Hf). rewrite Hd. cbn [negb]. mstep_by (by rewrite Hf).
  unfold inode_deny_write. mstep_by (by apply ld_inode_ok).
  mstep_by (unfold st_inode; simpl; by rewrite Hi).
  rewrite ASSERT_true by (apply Z.leb_le; lia). eexists. split; [reflexivity|]. split.
  - intros d buffer size off. cbn [inode_write_at]. unfold inode_write_at_.
    mstep_by (apply ld_inode_ok; simpl; apply lookup_insert_eq). cbn [deny_write_cnt].
    by replace (deny_write_cnt i + 1 =? 0) with false by (symmetry; apply Z.eqb_neq; lia).
  - unfold file_allow_write, ld_file, st_file.
    replace (fp =? 0) with false by (symmetry; by apply Z.eqb_neq).
    mstep_by reflexivity. mstep_by (simpl; by rewrite lookup_insert_eq). cbn [deny_write].
    mstep_by (simpl; by rewrite lookup_insert_eq). cbn [finode]. unfold inode_allow_write.
    mstep_by (apply ld_inode_ok; simpl; apply lookup_insert_eq). simpl.
    mstep_by (apply ASSERT_true, Z.ltb_lt; lia). mstep_by (apply ASSERT_true, Z.leb_le; lia).
    unfold st_inode. simpl. rewrite lookup_insert_eq. do 2 f_equal.
    replace (deny_write_cnt i + 1 - 1) with (deny_write_cnt i) by lia.
    destruct s, f, i. unfold set_inodes, set_files. simpl in *. subst. f_equal.
    + by rewrite insert_insert_eq, insert_id.
    + by rewrite insert_insert_eq, insert_id.
Qed.

Lemma deny_write_blocks_witness :
  exists s1, file_deny_write 4 formatted = Ok (tt, s1) /\ inode_write_at 1 3 [1] 1 0 s1 = Ok (0, s1).
Proof.
  destruct (deny_write_blocks formatted 4 (File 3 0 false) (inode_at formatted 3)) as (s1 & E & H & _).
  - lia.
  - vm_compute. reflexivity.
  - reflexivity.
  - vm_compute. reflexivity.
  - vm_compute. split; [discriminate|reflexivity].
  - exists s1. split; [exact E|]. apply (H 0%nat).
Defined.

(** ** Where the code falls short *)

Lemma free_cnt_0 b x : free_cnt b = 0 -> 0 <= x < bit_cnt b -> bit b x = true.
Proof.
  unfold free_cnt, range_count. intros H Hx. destruct (bit b x) eqn:E; [done|]. exfalso.
  assert (x ∈ filter (fun j => bit b j = false) (seqZ 0 (bit_cnt b))) as Hin
    by (apply list_elem_of_filter; split; [done|apply elem_of_seqZ; lia]).
  destruct (filter _ _); [by apply not_elem_of_nil in Hin|simpl in H; lia].
Qed.

(** inode_grow ignores that free_map_allocate can fail.  On a full device
    the first sector of an empty file is not allocated, yet inode_grow
    returns the full length, having overwritten with zeros the sector [x] that
    the pointer happened to contain, whoever owns it. *)
Theorem inode_grow_full_device d s p i len :
  wf (free_map s) -> free_cnt (free_map s) = 0 -> blk_wf (fs_device s) ->
  inodes s !! p = Some i -> length (ptr (data i)) = 12%nat -> dlength (data i) = 0 ->
  direct_level_index (data i) = 0 -> 0 < len <= 512 ->
  let x := getp (ptr (data i)) 0 in
  0 <= x < blk_size (fs_device s) ->
  exists s', inode_grow d len p s = Ok (len, s') /\ free_map s' = free_map s /\
    sector_of (fs_device s') x = zeros /\
    forall j, 0 <= j -> j <> x -> sector_of (fs_device s') j = sector_of (fs_device s) j.
Proof.
  intros Hwf Hfull Hblk Hi Hp Hl Hdli Hlen x Hx. unfold inode_grow, inode_grow_.
  mstep (inode_length_ok _ _ _ Hi). rewrite Hl, !bytes_to_sectors_eq by lia.
  replace (sectors_of len) with 1 by (unfold sectors_of; apply (Z.div_unique_pos _ _ 1 (len - 1)); lia).
  change (u32 (1 - sectors_of 0)) with 1. change (1 =? 0) with false. cbv iota.
  mstep (ld_data_ok _ _ _ Hi). rewrite Hdli. change (s32 0) with 0.
  change (Z.to_nat (FIRST_LEV_INDEX - 0)) with 10%nat. cbn [grow_direct_loop].
  change (negb (1 =? 0)) with true. cbv iota.
  (* no sector is free *)
  assert (free_map_allocate_ (inode_write_at d) 1 s = Ok (None, s)) as E.
  { unfold free_map_allocate_. pose proof (wf_cnt _ Hwf).
    destruct (bitmap_scan_and_flip_ok (free_map s) 0 1 false Hwf ltac:(lia) ltac:(lia))
      as (r & b' & Eb & [(-> & _ & ->)|(_ & (F1 & F2 & F3 & _) & _)]).
    - mstep (on_map_ok _ _ _ _ Eb). mstep_by reflexivity. mstep_by reflexivity.
      change (BITMAP_ERROR =? BITMAP_ERROR) with true. cbv iota. unfold mret, M_ret. by destruct s.
    - exfalso. specialize (F3 r ltac:(lia)). rewrite (free_cnt_0 _ _ Hfull) in F3 by lia. done. }
  rewrite bind_assoc. mstep E. rewrite bind_assoc. mstep (ld_data_ok _ _ _ Hi).
  rewrite bind_assoc. mstep_by (unfold store_at; mstep_by (apply aref_ok; lia); reflexivity).
  rewrite bind_assoc. erewrite (bind_ok _ _ _ _ _ (upd_data_ok _ _ _ _ Hi)); cbv beta.
  rewrite with_ptr_id, insert_id by done. replace (set_inodes s (inodes s)) with s by (by destruct s).
  rewrite bind_assoc. mstep_by (apply aref_ok; lia). rewrite bind_assoc.
  destruct (fs_write_ok s x zeros Hblk Hx eq_refl) as (b & Eb & _ & _ & Hb). fold x. mstep Eb.
  change (u32 (1 - 1)) with 0. cbn [negb Z.eqb]. mstep_by reflexivity. cbv beta iota.
  erewrite (bind_ok _ _ _ _ _ (upd_data_ok (set_device s b) p i _ Hi)); cbv beta.
  change (0 =? 0) with true. cbv iota. eexists. split; [reflexivity|]. simpl. split; [done|].
  split; [rewrite Hb, Z.eqb_refl by lia; done|]. intros j Hj Hne. rewrite Hb by done.
  by replace (j =? x) with false by (symmetry; by apply Z.eqb_neq).
Qed.

(** The formatted device with stale zeros in the pointers and every sector in
    use: the sector overwritten is that of the free map's inode. *)
Definition full_device : fs :=
  match format [7] (blank_device 32 0) with
  | Ok (_, s) => set_map s (Bitmap 32 [4294967295])
  | Err _ => blank
  end.

Lemma inode_grow_full_device_witness :
  exists s', inode_grow 2 1 9 full_device = Ok (1, s') /\
             sector_of (fs_device full_device) FREE_MAP_SECTOR <> zeros /\
             sector_of (fs_device s') FREE_MAP_SECTOR = zeros.
Proof.
  destruct (inode_grow_full_device 2 full_device 9 (inode_at full_device 9) 1) as (s' & E & _ & Hz & _).
  - apply wf_decide. vm_compute. reflexivity.
  - vm_compute. reflexivity.
  - apply blk_wf_decide. vm_compute. reflexivity.
  - vm_compute. reflexivity.
  - vm_compute. reflexivity.
  - vm_compute. reflexivity.
  - vm_compute. reflexivity.
  - lia.
  - vm_compute. split; [discriminate|reflexivity].
  - exists s'. split; [exact E|]. split; [vm_compute; discriminate|].
    replace FREE_MAP_SECTOR with (getp (ptr (data (inode_at full_device 9))) 0); [exact Hz|].
    vm_compute. reflexivity.
Defined.

(** removing a file of 139 sectors releases its data sectors, its inode
    and the two index blocks the inode points to, but not the inner index
    block of the second level: sector 144 stays marked although nothing refers
    to it any more. *)
Theorem dealloc_leaks_inner_block :
  match (inode_init;; free_map_init (Some (repeat 0 7));; free_map_create 3;;
         s0 ← get;
         p ← new_file (512 * 139);
         s1 ← get;
         inode_remove p;; inode_close 3 p;;
         s2 ← get;
         mret (bits (free_map s0), bits (free_map s1), bits (free_map s2)))
        (blank_device 200 0) with
  | Ok ((b0, b1, b2), s) =>
      b0 = [7; 0; 0; 0; 0; 0; 0] /\
      b1 = [4294967295; 4294967295; 4294967295; 4294967295; 262143; 0; 0] /\
      b2 = [7; 0; 0; 0; 65536; 0; 0] /\ open_inodes s = [3]
  | Err _ => False
  end.
Proof. vm_compute. repeat split. Qed.
