(* ===== verification/FsMap.v ===== *)
(** * The free map on disk: [bitmap_write] and [bitmap_read] *)

From S2P Require Import Prelude Bitmap BitmapThms Bytes Block FsModel FsRep FsRead FsWrite FsAlloc FsProps.

Lemma take_words_bytes k ws : take (4 * k) (words_bytes ws) = words_bytes (take k ws).
Proof.
  revert ws. induction k as [|k IH]; intros ws; [done|]. destruct ws as [|w ws]; [by rewrite !take_nil|].
  replace (4 * S k)%nat with (4 + 4 * k)%nat by lia. unfold words_bytes in *. cbn [flat_map take].
  change (take (4 + 4 * k) (le_bytes w ++ flat_map le_bytes ws))
    with (le_bytes w ++ take (4 * k) (flat_map le_bytes ws)). by rewrite IH.
Qed.

Lemma bytes_words_app k a b :
  length a = (4 * k)%nat -> bytes_words (a ++ b) = bytes_words a ++ bytes_words b.
Proof.
  revert a. induction k as [|k IH]; intros a Ha.
  - by rewrite (nil_length_inv a) by lia.
  - destruct a as [|x [|y [|z [|w a]]]]; simpl in Ha; try lia. simpl. f_equal. apply IH. lia.
Qed.

(** The bytes of a write at the start of a file, read back. *)
Lemma wrote_bytes_of D D' ps n buf :
  wrote D D' ps n 0 buf -> Z.of_nat (length buf) <= 512 * n ->
  bytes_of D' ps 0 (Z.of_nat (length buf)) = buf.
Proof.
  intros W Hl. apply list_eq. intros j. unfold bytes_of. rewrite list_lookup_fmap.
  destruct (decide (j < length buf)%nat) as [Hj|Hj].
  - rewrite lookup_seqZ_lt by lia. cbn [fmap option_fmap option_map].
    rewrite (wr_bytes _ _ _ _ _ _ W) by lia.
    replace (0 <=? 0 + Z.of_nat j) with true by (symmetry; apply Z.leb_le; lia).
    replace (0 + Z.of_nat j <? _) with true by (symmetry; apply Z.ltb_lt; lia). cbn [andb].
    replace (Z.to_nat (0 + Z.of_nat j - 0)) with j by lia.
    destruct (lookup_lt_is_Some_2 buf j Hj) as [x E]. by rewrite (nth_lookup_Some _ _ _ _ E), E.
  - rewrite lookup_seqZ_ge by lia. by rewrite lookup_ge_None_2 by lia.
Qed.

(** The words read back, with the last one masked, have the same bits. *)
Lemma masked_bits b w last ws' j :
  wf b -> 0 < bit_cnt b -> last = Z.to_nat (elem_cnt (bit_cnt b) - 1) ->
  (forall k, (k <= last)%nat -> ws' !! k = bits b !! k) -> bits b !! last = Some w ->
  0 <= j < bit_cnt b ->
  bit (Bitmap (bit_cnt b) (<[last := Z.land w (last_mask b)]> ws')) j = bit b j.
Proof.
  intros Hwf Hc -> Hws Hw Hj. pose proof (wf_cnt _ Hwf) as Hcnt. rewrite elem_cnt_eq in * by lia.
  unfold bit. cbn [bits]. pose proof (Z.mod_pos_bound j 32 ltac:(lia)).
  assert (0 <= j / 32 <= (bit_cnt b + 31) / 32 - 1) as Hq.
  { split; [apply Z.div_pos; lia|].
    assert ((j + 1 * 32) / 32 <= (bit_cnt b + 31) / 32) by (apply Z.div_le_mono; lia).
    rewrite Z.div_add in * by lia. lia. }
  destruct (decide (j / 32 = (bit_cnt b + 31) / 32 - 1)) as [Heq|Hne].
  - rewrite <-Heq in *. rewrite list_lookup_insert_eq, Hw.
    2: { apply lookup_lt_is_Some_1. rewrite Hws by lia. by exists w. }
    rewrite Z.land_spec. replace (Z.testbit (last_mask b) (j mod 32)) with true; [apply andb_true_r|].
    symmetry. unfold last_mask, ELEM_BITS.
    pose proof (Z.mod_pos_bound (bit_cnt b) 32 ltac:(lia)) as Hm.
    pose proof (Z.div_mod j 32 ltac:(lia)). pose proof (Z.div_mod (bit_cnt b) 32 ltac:(lia)) as Hdm.
    destruct (Z.eqb_spec (bit_cnt b mod 32) 0) as [E|E]; cbn [negb].
    + rewrite u32_testbit by lia. replace (j mod 32 <? 32) with true by (symmetry; apply Z.ltb_lt; lia).
      by rewrite Z.bits_m1 by lia.
    + rewrite u32_testbit by lia. replace (j mod 32 <? 32) with true by (symmetry; apply Z.ltb_lt; lia).
      cbn [andb]. rewrite Z.shiftl_1_l.
      replace (2 ^ (bit_cnt b mod 32) - 1) with (Z.ones (bit_cnt b mod 32))
        by (rewrite Z.ones_equiv; lia).
      apply Z.ones_spec_low. assert (bit_cnt b / 32 = j / 32); [|lia].
      rewrite Heq. assert ((bit_cnt b + 31) / 32 = bit_cnt b / 32 + 1); [|lia].
      symmetry. apply (Z.div_unique_pos _ _ _ (bit_cnt b mod 32 - 1)); lia.
  - rewrite list_lookup_insert_ne by lia. by rewrite Hws by lia.
Qed.

(** the free map survives on disk: after bitmap_write, bitmap_read
    restores every bit whatever the words in memory had become. *)
Theorem free_map_file_roundtrip d s ip i n ws :
  fm_ok s (Some (ip, i, n)) -> 0 < bit_cnt (free_map s) ->
  Z.of_nat (length (bits (free_map s))) = elem_cnt (bit_cnt (free_map s)) ->
  length ws = length (bits (free_map s)) ->
  exists s1 s2, bitmap_write (S d) (free_map_file s) s = Ok (true, s1) /\
    bitmap_read (free_map_file s) (set_map s1 (Bitmap (bit_cnt (free_map s)) ws)) = Ok (true, s2) /\
    bit_cnt (free_map s2) = bit_cnt (free_map s) /\
    forall j, 0 <= j < bit_cnt (free_map s) -> bit (free_map s2) j = bit (free_map s) j.
Proof.
  intros Hfm Hc Hlen Hws. set (b := free_map s) in *.
  destruct (bitmap_write_ok d s ip i n Hfm) as (s1 & E1 & Hs1 & W). fold b in W.
  pose proof (fm_map _ _ Hfm) as Hwf. fold b in Hwf. pose proof (wf_cnt _ Hwf) as Hcnt.
  pose proof (fm_file _ _ Hfm) as (Hfp & (f & Ef & Efi) & Hf & Hd & Hl). fold b in Hl.
  pose proof (fo_len _ _ _ _ Hf) as Hfl.
  assert (byte_cnt (bit_cnt b) = 4 * elem_cnt (bit_cnt b)) as Hbc.
  { unfold byte_cnt. apply u32_small. rewrite elem_cnt_eq by lia. split; [apply Z.mul_nonneg_nonneg; [lia|apply Z.div_pos; lia]|].
    assert ((bit_cnt b + 31) / 32 < 1073741824) by (apply Z.div_lt_upper_bound; lia). lia. }
  assert (1 <= elem_cnt (bit_cnt b)) as Hec
    by (rewrite elem_cnt_eq by lia; apply Z.div_le_lower_bound; lia).
  set (k := length (bits b)) in *.
  assert (Z.to_nat (byte_cnt (bit_cnt b)) = (4 * k)%nat) as Hbk by lia.
  rewrite Hbk, take_words_bytes, take_ge in W by lia.
  set (s1' := set_map s1 (Bitmap (bit_cnt b) ws)).
  assert (file_ok s1' ip i n) as Hf1 by (destruct (file_ok_wrote _ _ _ _ _ _ _ Hs1 W Hf); by split).
  destruct (inode_read_at_ok s1' ip i n (byte_cnt (bit_cnt b)) 0) as (s2 & E2 & Hs2 & Hd2);
    [done|destruct (heap_ok_same _ _ Hs1 (fm_heap _ _ Hfm)); by split|lia..|].
  replace (read_cnt_of _ _ _) with (byte_cnt (bit_cnt b)) in E2 by (unfold read_cnt_of; lia).
  assert (bytes_of (fs_device s1') (ptr (data i)) 0 (byte_cnt (bit_cnt b)) = words_bytes (bits b)) as Hby.
  { replace (byte_cnt (bit_cnt b)) with (Z.of_nat (length (words_bytes (bits b))))
      by (rewrite length_words_bytes; lia).
    eapply wrote_bytes_of; [exact W|]. rewrite length_words_bytes. pose proof (fo_n _ _ _ _ Hf) as Hn.
    unfold sectors_of in Hn. pose proof (Z.div_mod (dlength (data i) + 511) 512 ltac:(lia)).
    pose proof (Z.mod_pos_bound (dlength (data i) + 511) 512 ltac:(lia)). lia. }
  rewrite Hby in E2.
  destruct (lookup_lt_is_Some_2 (bits b) (Z.to_nat (elem_cnt (bit_cnt b) - 1))) as [w Hw]; [lia|].
  assert (bytes_words (words_bytes (bits b) ++ drop (length (words_bytes (bits b))) (words_bytes ws)) = bits b) as Hbw.
  { rewrite drop_ge, app_nil_r, bytes_words_bytes by (rewrite !length_words_bytes; lia).
    pose proof (wf_words _ Hwf) as Hww. clear -Hww. induction Hww as [|x l Hx _ IH]; [done|].
    simpl. by rewrite IH, u32_small. }
  eexists s1, _. split; [exact E1|]. unfold bitmap_read. rewrite (bind_ok get _ s1' s1' s1' eq_refl). cbv beta.
  change (free_map s1') with (Bitmap (bit_cnt b) ws). cbn [bit_cnt bits].
  replace (0 <? bit_cnt b) with true by (symmetry; by apply Z.ltb_lt).
  rewrite s32_small by lia. unfold file_read_at, ld_file.
  assert (files s1' !! free_map_file s = Some f) as Hf1' by (simpl; by rewrite (sm_files _ _ Hs1)).
  rewrite bind_assoc. mstep_by (by rewrite Hf1'). rewrite Efi. mstep E2. cbn [fst snd].
  rewrite Hbw, Hw. mstep_by reflexivity. mstep_by reflexivity. mstep_by reflexivity.
  rewrite Z.eqb_refl. split; [reflexivity|]. split; [done|]. intros j Hj. simpl free_map.
  change (last_mask (Bitmap (bit_cnt b) ws)) with (last_mask b).
  by apply masked_bits.
Qed.

Lemma free_map_file_roundtrip_witness :
  exists s1 s2, bitmap_write 1 (free_map_file formatted) formatted = Ok (true, s1) /\
    bitmap_read (free_map_file formatted) (set_map s1 (Bitmap 32 [0])) = Ok (true, s2) /\
    bit (free_map s2) 4 = true.
Proof.
  destruct (free_map_file_roundtrip 0 formatted 3 (inode_at formatted 3) 1 [0])
    as (s1 & s2 & E1 & E2 & _ & H).
  - apply formatted_fm.
  - vm_compute. reflexivity.
  - vm_compute. reflexivity.
  - vm_compute. reflexivity.
  - exists s1, s2. split; [exact E1|]. split; [exact E2|].
    rewrite H; [vm_compute; reflexivity|]. vm_compute. split; [discriminate|reflexivity].
Defined.
