(* ===== verification/ThreadModel.v ===== *)
(** * Threads, synchronization and the timer: the model

    Translation of [threads/thread.c], [threads/synch.c], the interrupt level
    of [threads/interrupt.c] and the sleeping part of [devices/timer.c], with
    the process bookkeeping of [userprog/process.c] that [thread_create] and
    [thread_exit] call.

    Threads, locks, condition variables and child records are named by their
    addresses; a semaphore is named by the object it lies in.  A queue of
    threads is the list of their addresses, from front to back: insertion and
    sorting are the sequence functions that the list component is proved to
    implement.

    A kernel function can lose the processor in the middle, in [schedule].
    What is left to do when the thread gets it back is kept in the thread's
    [kstack], the model of its kernel stack: one frame for each piece of code
    that runs without giving up the processor.  A function pushes the frames
    of its remaining pieces; [run_frame] executes the topmost one of the
    running thread.  Code under [intr_disable] up to a switch is one piece;
    the code of [lock_acquire] and [lock_release] that runs with interrupts on
    is one piece for each statement, and each turn of [priority_donation] is
    one.  [thread_create] from [allocate_tid] to [thread_unblock], which only
    touches the new thread and the child list of the running one, is one piece
    too. *)

From stdpp Require Import functions.
From S2P Require Import Prelude ListModel ListOrder ListSpec.

(** ** Data *)

Definition PRI_MIN : Z := 0.
Definition PRI_DEFAULT : Z := 31.
Definition PRI_MAX : Z := 63.
Definition THREAD_MAGIC : Z := 3446325067.
Definition TIME_SLICE : Z := 4.
Definition NO_PARENT : Z := -1.
Definition INIT_FD : Z := 2.
Definition NOT_LOADED : Z := 0.
Definition INIT_EXIT_STATUS : Z := -1.

Inductive thread_status :=
  | THREAD_RUNNING
  | THREAD_READY
  | THREAD_BLOCKED
  | THREAD_DYING.

#[global] Instance thread_status_eq_dec : EqDecision thread_status.
Proof. solve_decision. Defined.

(** Where a semaphore lies: a static or local variable, a lock, the members
    [sema_p], [sema_wait] and [sema_load] of a thread, the [semaphore_elem]
    on the stack of a thread inside [cond_wait], a child record. *)
Inductive sema_ref :=
  | SemaVar (a : Z)
  | LockSema (lock : Z)
  | SleepSema (t : Z)
  | WaitSema (t : Z)
  | LoadSema (t : Z)
  | CondSema (t : Z)
  | ZombiSema (child : Z).

#[global] Instance sema_ref_eq_dec : EqDecision sema_ref.
Proof. solve_decision. Defined.

Record semaphore := Semaphore { value : Z; waiters : list Z }.

Record child_process := ChildProcess {
  pid : Z; child_exit : bool; child_wait : bool; exit_status : Z
}.

(** The pieces of kernel code that can be left to run. *)
Inductive frame :=
  | KIntrSet (old_level : bool)          (** [intr_set_level (old_level)] *)
  | KIret                                (** the end of an interrupt *)
  | KKernelThread                        (** the start of [kernel_thread] *)
  | KCheckPriority                       (** a call of [check_priority] *)
  | KSemaDownCall (s : sema_ref)         (** a call of [sema_down] *)
  | KSemaDown (s : sema_ref)             (** the loop of [sema_down] *)
  | KSemaUpCall (s : sema_ref)           (** a call of [sema_up] *)
  | KLockAcquire (lock : Z)              (** a call of [lock_acquire] *)
  | KTryLock (lock : Z)                  (** [cur->try_lock = lock] *)
  | KDonation                            (** a call of [priority_donation] *)
  | KDonate (cur curr_lock : Z)          (** the loop of [priority_donation] *)
  | KDonorInsert (lock : Z)              (** the insertion into the donors *)
  | KLockTaken (lock : Z)                (** the end of [lock_acquire] *)
  | KLockRelease (lock : Z)              (** a call of [lock_release] *)
  | KPriorityRecheck                     (** a call of [priority_recheck] *)
  | KHolderClear (lock : Z)              (** the end of [lock_release] *)
  | KCondSignal (cond lock : Z)          (** a call of [cond_signal] *)
  | KBroadcast (cond lock : Z)           (** the loop of [cond_broadcast] *)
  | KAllocTid (t priority child dir : Z) (** [tid = next_tid++] *)
  | KCreate (t tid priority child dir : Z) (** [thread_create] after [allocate_tid] *)
  | KCreated (priority : Z)              (** [thread_create] after [thread_unblock] *)
  | KProcessExit                         (** [process_exit] from the page directory on *)
  | KThreadExit                          (** [thread_exit] after [process_exit] *)
  | KIdle                                (** the loop of [idle] *)
  | KIdleWait.                           (** [sti; hlt] *)

#[global] Instance frame_eq_dec : EqDecision frame.
Proof. solve_decision. Defined.

Record thread := Thread {
  tid : Z;
  status : thread_status;
  name : list Z;
  priority : Z;
  original_priority : Z;
  donor : list Z  (** threads linked by [donor_elem] *);
  try_lock : Z;
  fd : Z;
  load_status : Z;
  file_name : Z;
  parent : Z;
  child_proc : Z;
  child_list : list Z;
  file_list : list Z;
  executable : Z;
  pagedir : Z;
  magic : Z;
  timeChecker : Z;
  cur_dir : Z;
  kstack : list frame  (** suspended calls *)
}.

Definition with_tid (v : Z) (x : thread) : thread :=
  Thread v (status x) (name x) (priority x) (original_priority x) (donor x) (try_lock x) (fd x) (load_status x) (file_name x) (parent x) (child_proc x) (child_list x) (file_list x) (executable x) (pagedir x) (magic x) (timeChecker x) (cur_dir x) (kstack x).
Definition with_status (v : thread_status) (x : thread) : thread :=
  Thread (tid x) v (name x) (priority x) (original_priority x) (donor x) (try_lock x) (fd x) (load_status x) (file_name x) (parent x) (child_proc x) (child_list x) (file_list x) (executable x) (pagedir x) (magic x) (timeChecker x) (cur_dir x) (kstack x).
Definition with_priority (v : Z) (x : thread) : thread :=
  Thread (tid x) (status x) (name x) v (original_priority x) (donor x) (try_lock x) (fd x) (load_status x) (file_name x) (parent x) (child_proc x) (child_list x) (file_list x) (executable x) (pagedir x) (magic x) (timeChecker x) (cur_dir x) (kstack x).
Definition with_original_priority (v : Z) (x : thread) : thread :=
  Thread (tid x) (status x) (name x) (priority x) v (donor x) (try_lock x) (fd x) (load_status x) (file_name x) (parent x) (child_proc x) (child_list x) (file_list x) (executable x) (pagedir x) (magic x) (timeChecker x) (cur_dir x) (kstack x).
Definition with_donor (v : list Z) (x : thread) : thread :=
  Thread (tid x) (status x) (name x) (priority x) (original_priority x) v (try_lock x) (fd x) (load_status x) (file_name x) (parent x) (child_proc x) (child_list x) (file_list x) (executable x) (pagedir x) (magic x) (timeChecker x) (cur_dir x) (kstack x).
Definition with_try_lock (v : Z) (x : thread) : thread :=
  Thread (tid x) (status x) (name x) (priority x) (original_priority x) (donor x) v (fd x) (load_status x) (file_name x) (parent x) (child_proc x) (child_list x) (file_list x) (executable x) (pagedir x) (magic x) (timeChecker x) (cur_dir x) (kstack x).
Definition with_parent (v : Z) (x : thread) : thread :=
  Thread (tid x) (status x) (name x) (priority x) (original_priority x) (donor x) (try_lock x) (fd x) (load_status x) (file_name x) v (child_proc x) (child_list x) (file_list x) (executable x) (pagedir x) (magic x) (timeChecker x) (cur_dir x) (kstack x).
Definition with_child_proc (v : Z) (x : thread) : thread :=
  Thread (tid x) (status x) (name x) (priority x) (original_priority x) (donor x) (try_lock x) (fd x) (load_status x) (file_name x) (parent x) v (child_list x) (file_list x) (executable x) (pagedir x) (magic x) (timeChecker x) (cur_dir x) (kstack x).
Definition with_child_list (v : list Z) (x : thread) : thread :=
  Thread (tid x) (status x) (name x) (priority x) (original_priority x) (donor x) (try_lock x) (fd x) (load_status x) (file_name x) (parent x) (child_proc x) v (file_list x) (executable x) (pagedir x) (magic x) (timeChecker x) (cur_dir x) (kstack x).
Definition with_file_list (v : list Z) (x : thread) : thread :=
  Thread (tid x) (status x) (name x) (priority x) (original_priority x) (donor x) (try_lock x) (fd x) (load_status x) (file_name x) (parent x) (child_proc x) (child_list x) v (executable x) (pagedir x) (magic x) (timeChecker x) (cur_dir x) (kstack x).
Definition with_pagedir (v : Z) (x : thread) : thread :=
  Thread (tid x) (status x) (name x) (priority x) (original_priority x) (donor x) (try_lock x) (fd x) (load_status x) (file_name x) (parent x) (child_proc x) (child_list x) (file_list x) (executable x) v (magic x) (timeChecker x) (cur_dir x) (kstack x).
Definition with_timeChecker (v : Z) (x : thread) : thread :=
  Thread (tid x) (status x) (name x) (priority x) (original_priority x) (donor x) (try_lock x) (fd x) (load_status x) (file_name x) (parent x) (child_proc x) (child_list x) (file_list x) (executable x) (pagedir x) (magic x) v (cur_dir x) (kstack x).
Definition with_cur_dir (v : Z) (x : thread) : thread :=
  Thread (tid x) (status x) (name x) (priority x) (original_priority x) (donor x) (try_lock x) (fd x) (load_status x) (file_name x) (parent x) (child_proc x) (child_list x) (file_list x) (executable x) (pagedir x) (magic x) (timeChecker x) v (kstack x).
Definition with_kstack (v : list frame) (x : thread) : thread :=
  Thread (tid x) (status x) (name x) (priority x) (original_priority x) (donor x) (try_lock x) (fd x) (load_status x) (file_name x) (parent x) (child_proc x) (child_list x) (file_list x) (executable x) (pagedir x) (magic x) (timeChecker x) (cur_dir x) v.

(** ** The kernel state *)

Record kstate := KState {
  threads : Z -> thread;
  sema : sema_ref -> semaphore;
  holder : Z -> Z  (** [lock->holder] *);
  cond_waiters : Z -> list Z;
  children : Z -> child_process;
  ready_list : list Z;
  all_list : list Z;
  sleep_list : list Z;
  idle_thread : Z;
  initial_thread : Z;
  current : Z;
  intr_on : bool;
  in_external_intr : bool;
  yield_on_return : bool;
  ticks : Z;
  thread_ticks : Z;
  idle_ticks : Z;
  kernel_ticks : Z;
  user_ticks : Z;
  next_tid : Z
}.

Definition set_threads (v : Z -> thread) (x : kstate) : kstate :=
  KState v (sema x) (holder x) (cond_waiters x) (children x) (ready_list x) (all_list x) (sleep_list x) (idle_thread x) (initial_thread x) (current x) (intr_on x) (in_external_intr x) (yield_on_return x) (ticks x) (thread_ticks x) (idle_ticks x) (kernel_ticks x) (user_ticks x) (next_tid x).
Definition set_sema (v : sema_ref -> semaphore) (x : kstate) : kstate :=
  KState (threads x) v (holder x) (cond_waiters x) (children x) (ready_list x) (all_list x) (sleep_list x) (idle_thread x) (initial_thread x) (current x) (intr_on x) (in_external_intr x) (yield_on_return x) (ticks x) (thread_ticks x) (idle_ticks x) (kernel_ticks x) (user_ticks x) (next_tid x).
Definition set_holder (v : Z -> Z) (x : kstate) : kstate :=
  KState (threads x) (sema x) v (cond_waiters x) (children x) (ready_list x) (all_list x) (sleep_list x) (idle_thread x) (initial_thread x) (current x) (intr_on x) (in_external_intr x) (yield_on_return x) (ticks x) (thread_ticks x) (idle_ticks x) (kernel_ticks x) (user_ticks x) (next_tid x).
Definition set_cond_waiters (v : Z -> list Z) (x : kstate) : kstate :=
  KState (threads x) (sema x) (holder x) v (children x) (ready_list x) (all_list x) (sleep_list x) (idle_thread x) (initial_thread x) (current x) (intr_on x) (in_external_intr x) (yield_on_return x) (ticks x) (thread_ticks x) (idle_ticks x) (kernel_ticks x) (user_ticks x) (next_tid x).
Definition set_children (v : Z -> child_process) (x : kstate) : kstate :=
  KState (threads x) (sema x) (holder x) (cond_waiters x) v (ready_list x) (all_list x) (sleep_list x) (idle_thread x) (initial_thread x) (current x) (intr_on x) (in_external_intr x) (yield_on_return x) (ticks x) (thread_ticks x) (idle_ticks x) (kernel_ticks x) (user_ticks x) (next_tid x).
Definition set_ready_list (v : list Z) (x : kstate) : kstate :=
  KState (threads x) (sema x) (holder x) (cond_waiters x) (children x) v (all_list x) (sleep_list x) (idle_thread x) (initial_thread x) (current x) (intr_on x) (in_external_intr x) (yield_on_return x) (ticks x) (thread_ticks x) (idle_ticks x) (kernel_ticks x) (user_ticks x) (next_tid x).
Definition set_all_list (v : list Z) (x : kstate) : kstate :=
  KState (threads x) (sema x) (holder x) (cond_waiters x) (children x) (ready_list x) v (sleep_list x) (idle_thread x) (initial_thread x) (current x) (intr_on x) (in_external_intr x) (yield_on_return x) (ticks x) (thread_ticks x) (idle_ticks x) (kernel_ticks x) (user_ticks x) (next_tid x).
Definition set_sleep_list (v : list Z) (x : kstate) : kstate :=
  KState (threads x) (sema x) (holder x) (cond_waiters x) (children x) (ready_list x) (all_list x) v (idle_thread x) (initial_thread x) (current x) (intr_on x) (in_external_intr x) (yield_on_return x) (ticks x) (thread_ticks x) (idle_ticks x) (kernel_ticks x) (user_ticks x) (next_tid x).
Definition set_idle_thread (v : Z) (x : kstate) : kstate :=
  KState (threads x) (sema x) (holder x) (cond_waiters x) (children x) (ready_list x) (all_list x) (sleep_list x) v (initial_thread x) (current x) (intr_on x) (in_external_intr x) (yield_on_return x) (ticks x) (thread_ticks x) (idle_ticks x) (kernel_ticks x) (user_ticks x) (next_tid x).
Definition set_current (v : Z) (x : kstate) : kstate :=
  KState (threads x) (sema x) (holder x) (cond_waiters x) (children x) (ready_list x) (all_list x) (sleep_list x) (idle_thread x) (initial_thread x) v (intr_on x) (in_external_intr x) (yield_on_return x) (ticks x) (thread_ticks x) (idle_ticks x) (kernel_ticks x) (user_ticks x) (next_tid x).
Definition set_intr_on (v : bool) (x : kstate) : kstate :=
  KState (threads x) (sema x) (holder x) (cond_waiters x) (children x) (ready_list x) (all_list x) (sleep_list x) (idle_thread x) (initial_thread x) (current x) v (in_external_intr x) (yield_on_return x) (ticks x) (thread_ticks x) (idle_ticks x) (kernel_ticks x) (user_ticks x) (next_tid x).
Definition set_in_external_intr (v : bool) (x : kstate) : kstate :=
  KState (threads x) (sema x) (holder x) (cond_waiters x) (children x) (ready_list x) (all_list x) (sleep_list x) (idle_thread x) (initial_thread x) (current x) (intr_on x) v (yield_on_return x) (ticks x) (thread_ticks x) (idle_ticks x) (kernel_ticks x) (user_ticks x) (next_tid x).
Definition set_yield_on_return (v : bool) (x : kstate) : kstate :=
  KState (threads x) (sema x) (holder x) (cond_waiters x) (children x) (ready_list x) (all_list x) (sleep_list x) (idle_thread x) (initial_thread x) (current x) (intr_on x) (in_external_intr x) v (ticks x) (thread_ticks x) (idle_ticks x) (kernel_ticks x) (user_ticks x) (next_tid x).
Definition set_ticks (v : Z) (x : kstate) : kstate :=
  KState (threads x) (sema x) (holder x) (cond_waiters x) (children x) (ready_list x) (all_list x) (sleep_list x) (idle_thread x) (initial_thread x) (current x) (intr_on x) (in_external_intr x) (yield_on_return x) v (thread_ticks x) (idle_ticks x) (kernel_ticks x) (user_ticks x) (next_tid x).
Definition set_thread_ticks (v : Z) (x : kstate) : kstate :=
  KState (threads x) (sema x) (holder x) (cond_waiters x) (children x) (ready_list x) (all_list x) (sleep_list x) (idle_thread x) (initial_thread x) (current x) (intr_on x) (in_external_intr x) (yield_on_return x) (ticks x) v (idle_ticks x) (kernel_ticks x) (user_ticks x) (next_tid x).
Definition set_idle_ticks (v : Z) (x : kstate) : kstate :=
  KState (threads x) (sema x) (holder x) (cond_waiters x) (children x) (ready_list x) (all_list x) (sleep_list x) (idle_thread x) (initial_thread x) (current x) (intr_on x) (in_external_intr x) (yield_on_return x) (ticks x) (thread_ticks x) v (kernel_ticks x) (user_ticks x) (next_tid x).
Definition set_kernel_ticks (v : Z) (x : kstate) : kstate :=
  KState (threads x) (sema x) (holder x) (cond_waiters x) (children x) (ready_list x) (all_list x) (sleep_list x) (idle_thread x) (initial_thread x) (current x) (intr_on x) (in_external_intr x) (yield_on_return x) (ticks x) (thread_ticks x) (idle_ticks x) v (user_ticks x) (next_tid x).
Definition set_user_ticks (v : Z) (x : kstate) : kstate :=
  KState (threads x) (sema x) (holder x) (cond_waiters x) (children x) (ready_list x) (all_list x) (sleep_list x) (idle_thread x) (initial_thread x) (current x) (intr_on x) (in_external_intr x) (yield_on_return x) (ticks x) (thread_ticks x) (idle_ticks x) (kernel_ticks x) v (next_tid x).
Definition set_next_tid (v : Z) (x : kstate) : kstate :=
  KState (threads x) (sema x) (holder x) (cond_waiters x) (children x) (ready_list x) (all_list x) (sleep_list x) (idle_thread x) (initial_thread x) (current x) (intr_on x) (in_external_intr x) (yield_on_return x) (ticks x) (thread_ticks x) (idle_ticks x) (kernel_ticks x) (user_ticks x) v.

Abbreviation K := (M kstate).

Definition modify (f : kstate -> kstate) : K unit := s ← get; put (f s).

(** Access to the members of a thread through a pointer. *)
Definition thread_at (t : Z) : K thread :=
  if t =? NULL then fail EFault else gets (fun s => threads s t).
Definition upd_thread (t : Z) (f : thread -> thread) : K unit :=
  if t =? NULL then fail EFault else
  modify (fun s => set_threads (<[t := f (threads s t)]> (threads s)) s).
Definition upd_sema (r : sema_ref) (f : semaphore -> semaphore) : K unit :=
  modify (fun s => set_sema (<[r := f (sema s r)]> (sema s)) s).
Definition upd_child (c : Z) (f : child_process -> child_process) : K unit :=
  modify (fun s => set_children (<[c := f (children s c)]> (children s)) s).

(** ** Interrupt level *)

Definition intr_get_level : K bool := gets intr_on.
Definition intr_context : K bool := gets in_external_intr.

Definition intr_enable : K bool :=
  old_level ← intr_get_level; c ← intr_context; ASSERT (negb c);;
  modify (set_intr_on true);; mret old_level.

Definition intr_disable : K bool :=
  old_level ← intr_get_level; modify (set_intr_on false);; mret old_level.

Definition intr_set_level (level : bool) : K bool :=
  if level then intr_enable else intr_disable.

Definition intr_yield_on_return : K unit :=
  c ← intr_context; ASSERT c;; modify (set_yield_on_return true).

(** ** The running thread *)

Definition running_thread : K Z := gets current.

Definition is_thread (s : kstate) (t : Z) : bool :=
  negb (t =? NULL) && (magic (threads s t) =? THREAD_MAGIC).

Definition thread_current : K Z :=
  t ← running_thread; s ← get;
  ASSERT (is_thread s t);;
  ASSERT (bool_decide (status (threads s t) = THREAD_RUNNING));;
  mret t.

Definition thread_tid : K Z := t ← thread_current; th ← thread_at t; mret (tid th).

(** Leave the frames [fs] to be run next by the running thread. *)
Definition push (fs : list frame) : K unit :=
  t ← running_thread; upd_thread t (fun th => with_kstack (fs ++ kstack th) th).

(** ** Orders *)

(** Offsets of members of [struct thread]. *)
Definition OFS_name : Z := 8.
Definition OFS_priority : Z := 28.
Definition OFS_donor_elem : Z := 64.
Definition OFS_elem : Z := 72.

(** The link member that the elements of a list are. *)
Inductive link := elem | donor_elem.

Definition int_of_bytes (bs : list Z) : Z :=
  s32 (foldr (fun b acc => u8 b + 256 * acc) 0 bs).

(** What [list_entry (e, struct thread, elem)->priority] reads when [e] is the
    given link of a thread.  [comparePriority] always subtracts the offset of
    [elem]; for a [donor_elem], 8 bytes in front of it, it ends 8 bytes in
    front of the thread and reads the last four characters of [name]. *)
Definition entry_priority (l : link) (th : thread) : Z :=
  match l with
  | elem => priority th
  | donor_elem => int_of_bytes (take 4 (drop 12 (name th)))
  end.

Definition comparePriority (l : link) (s : kstate) (cur compare : Z) : bool :=
  entry_priority l (threads s compare) <? entry_priority l (threads s cur).

Definition compare_timer (s : kstate) (current_thread other_thread : Z) : bool :=
  timeChecker (threads s current_thread) <? timeChecker (threads s other_thread).

(** ** Scheduling *)

(** The contents of a freed page: [palloc_free_page] fills it with 0xcc. *)
Definition CC : Z := 3435973836.
Definition freed_thread : thread :=
  Thread CC THREAD_DYING (repeat 204 16) (s32 CC) (s32 CC) [] CC (s32 CC) (s32 CC) CC (s32 CC)
         CC [] [] CC CC CC (s64 14757395258967641292) CC [].

Definition next_thread_to_run : K Z :=
  s ← get;
  match ready_list s with
  | [] => mret (idle_thread s)
  | t :: rest => modify (set_ready_list rest);; mret t
  end.

Definition thread_schedule_tail (prev : Z) : K unit :=
  cur ← running_thread;
  lv ← intr_get_level; ASSERT (negb lv);;
  upd_thread cur (with_status THREAD_RUNNING);;
  modify (set_thread_ticks 0);;
  s ← get;
  if negb (prev =? NULL) && bool_decide (status (threads s prev) = THREAD_DYING)
     && negb (prev =? initial_thread s)
  then ASSERT (negb (prev =? cur));; upd_thread prev (fun _ => freed_thread)
  else mret tt.

(** [switch_threads] makes NEXT the running thread and returns, in it, the
    thread it switched from. *)
Definition switch_threads (cur next : Z) : K Z := modify (set_current next);; mret cur.

Definition schedule : K unit :=
  cur ← running_thread;
  next ← next_thread_to_run;
  lv ← intr_get_level; ASSERT (negb lv);;
  s ← get;
  ASSERT (negb (bool_decide (status (threads s cur) = THREAD_RUNNING)));;
  ASSERT (is_thread s next);;
  prev ← (if negb (cur =? next) then switch_threads cur next else mret NULL);
  thread_schedule_tail prev.

Definition thread_block : K unit :=
  c ← intr_context; ASSERT (negb c);;
  lv ← intr_get_level; ASSERT (negb lv);;
  cur ← thread_current; upd_thread cur (with_status THREAD_BLOCKED);;
  schedule.

Definition ready_insert (t : Z) : K unit :=
  modify (fun s => set_ready_list (insert_ordered (comparePriority elem s) t (ready_list s)) s).

Definition thread_unblock (t : Z) : K unit :=
  s ← get; ASSERT (is_thread s t);;
  old_level ← intr_disable;
  ASSERT (bool_decide (status (threads s t) = THREAD_BLOCKED));;
  ready_insert t;;
  upd_thread t (with_status THREAD_READY);;
  intr_set_level old_level;; mret tt.

(** The level is restored when the thread runs again. *)
Definition thread_yield : K unit :=
  cur ← thread_current;
  c ← intr_context; ASSERT (negb c);;
  old_level ← intr_disable;
  s ← get;
  (if negb (cur =? idle_thread s) then ready_insert cur else mret tt);;
  upd_thread cur (with_status THREAD_READY);;
  push [KIntrSet old_level];;
  schedule.

Definition check_priority : K unit :=
  s ← get;
  match ready_list s with
  | [] => mret tt
  | other_thread :: _ =>
      cur ← thread_current;
      if priority (threads s cur) <? priority (threads s other_thread)
      then thread_yield else mret tt
  end.

Definition thread_set_priority (new_priority : Z) : K unit :=
  old_level ← intr_disable;
  cur ← thread_current; upd_thread cur (with_priority new_priority);;
  upd_thread cur (with_original_priority new_priority);;
  push [KCheckPriority; KIntrSet old_level].

Definition thread_get_priority : K Z :=
  cur ← thread_current; th ← thread_at cur;
  match last (donor th) with
  | Some o =>
      other_thread ← thread_at o;
      mret (if priority th <? priority other_thread then priority other_thread else priority th)
  | None => mret (priority th)
  end.

Definition thread_tick : K unit :=
  t ← thread_current; th ← thread_at t; s ← get;
  (if t =? idle_thread s then modify (set_idle_ticks (s64 (idle_ticks s + 1)))
   else if negb (pagedir th =? NULL) then modify (set_user_ticks (s64 (user_ticks s + 1)))
   else modify (set_kernel_ticks (s64 (kernel_ticks s + 1))));;
  modify (set_thread_ticks (u32 (thread_ticks s + 1)));;
  if TIME_SLICE <=? u32 (thread_ticks s + 1) then intr_yield_on_return else mret tt.

Definition thread_exist (s : kstate) (id : Z) : bool :=
  existsb (fun t => tid (threads s t) =? id) (all_list s).

Definition get_thread (s : kstate) (id : Z) : Z :=
  match List.find (fun t => tid (threads s t) =? id) (all_list s) with
  | Some t => t
  | None => NULL
  end.

(** ** Semaphores *)

Definition sema_init (r : sema_ref) (v : Z) : K unit :=
  upd_sema r (fun _ => Semaphore v []).

(** [sema_down] up to its loop, and one iteration of the loop: the thread
    either leaves the loop with the semaphore decremented, or waits and comes
    back to the test when it is unblocked. *)
Definition sema_down (r : sema_ref) : K unit :=
  c ← intr_context; ASSERT (negb c);;
  old_level ← intr_disable;
  push [KSemaDown r; KIntrSet old_level].

Definition sema_down_loop (r : sema_ref) : K unit :=
  s ← get;
  if value (sema s r) =? 0 then
    cur ← thread_current;
    upd_sema r (fun x => Semaphore (value x)
                           (insert_ordered (comparePriority elem s) cur (waiters x)));;
    push [KSemaDown r];;
    thread_block
  else upd_sema r (fun x => Semaphore (u32 (value x - 1)) (waiters x)).

Definition sema_try_down (r : sema_ref) : K bool :=
  old_level ← intr_disable;
  s ← get;
  success ← (if 0 <? value (sema s r)
             then upd_sema r (fun x => Semaphore (u32 (value x - 1)) (waiters x));; mret true
             else mret false);
  intr_set_level old_level;; mret success.

Definition sema_up (r : sema_ref) : K unit :=
  old_level ← intr_disable;
  s ← get;
  match sort_ordered (comparePriority elem s) (waiters (sema s r)) with
  | [] => mret tt
  | t :: rest => upd_sema r (fun x => Semaphore (value x) rest);; thread_unblock t
  end;;
  upd_sema r (fun x => Semaphore (u32 (value x + 1)) (waiters x));;
  intr_set_level old_level;;
  c ← intr_context;
  if negb c then push [KCheckPriority] else mret tt.

(** ** Locks and priority donation *)

Definition lock_init (lock : Z) : K unit :=
  ASSERT (negb (lock =? NULL));;
  modify (fun s => set_holder (<[lock := NULL]> (holder s)) s);;
  sema_init (LockSema lock) 1.

Definition lock_held_by_current_thread (lock : Z) : K bool :=
  ASSERT (negb (lock =? NULL));;
  cur ← thread_current; s ← get; mret (holder s lock =? cur).

(** A turn of the loop along the chain of locks: [cur] and [curr_lock] of the
    next one, if there is one. *)
Definition donation_turn (cur curr_lock : Z) : K (option (Z * Z)) :=
  if curr_lock =? NULL then mret None else
  s ← get;
  let h := holder s curr_lock in
  if h =? NULL then mret None else
  if priority (threads s h) <? priority (threads s cur) then
    upd_thread h (with_priority (priority (threads s cur)));;
    mret (Some (h, try_lock (threads s h)))
  else mret None.

(** [priority_donation] runs with interrupts on: its beginning and every turn
    of its loop are pieces of their own. *)
Definition donation_start : K unit :=
  cur ← thread_current; th ← thread_at cur; push [KDonate cur (try_lock th)].

Definition donation_step (cur curr_lock : Z) : K unit :=
  r ← donation_turn cur curr_lock;
  match r with
  | None => mret tt
  | Some (h, l) => push [KDonate h l]
  end.

(** The whole function when nothing comes in between.  Every turn raises a
    thread to the priority of the first one, so the number of threads bounds
    the loop. *)
Fixpoint priority_donation_loop (fuel : nat) (cur curr_lock : Z) : K unit :=
  match fuel with
  | O => fail EFuel
  | S fuel =>
      r ← donation_turn cur curr_lock;
      match r with
      | None => mret tt
      | Some (h, l) => priority_donation_loop fuel h l
      end
  end.

Definition priority_donation : K unit :=
  cur ← thread_current; th ← thread_at cur; s ← get;
  priority_donation_loop (2 + length (all_list s)) cur (try_lock th).

Definition lock_acquire (lock : Z) : K unit :=
  ASSERT (negb (lock =? NULL));;
  c ← intr_context; ASSERT (negb c);;
  held ← lock_held_by_current_thread lock; ASSERT (negb held);;
  s ← get;
  push ((if negb (holder s lock =? NULL)
         then [KTryLock lock; KDonation; KDonorInsert lock] else [])
        ++ [KSemaDownCall (LockSema lock); KLockTaken lock]).

Definition set_try_lock (lock : Z) : K unit :=
  cur ← thread_current; upd_thread cur (with_try_lock lock).

(** [list_insert_ordered (&lock->holder->donor, &cur->donor_elem, ...)] *)
Definition donor_insert (lock : Z) : K unit :=
  cur ← thread_current; s ← get;
  upd_thread (holder s lock)
    (fun th => with_donor (insert_ordered (comparePriority donor_elem s) cur (donor th)) th).

Definition lock_taken (lock : Z) : K unit :=
  cur ← thread_current;
  upd_thread cur (with_try_lock NULL);;
  modify (fun s => set_holder (<[lock := cur]> (holder s)) s).

Definition lock_try_acquire (lock : Z) : K bool :=
  ASSERT (negb (lock =? NULL));;
  held ← lock_held_by_current_thread lock; ASSERT (negb held);;
  success ← sema_try_down (LockSema lock);
  (if success : bool then
     cur ← thread_current; modify (fun s => set_holder (<[lock := cur]> (holder s)) s)
   else mret tt);;
  mret success.

(** [list_remove] leaves the links of the removed element in place, so the
    loop goes on behind it: the donors that wait for LOCK are taken out. *)
Definition donation_back (lock : Z) : K unit :=
  cur ← thread_current; s ← get;
  upd_thread cur (fun th => with_donor
    (List.filter (fun d => negb (try_lock (threads s d) =? lock)) (donor th)) th).

Definition priority_recheck : K unit :=
  cur ← thread_current; th ← thread_at cur;
  match donor th with
  | d :: _ => t ← thread_at d; upd_thread cur (with_priority (priority t))
  | [] => upd_thread cur (with_priority (original_priority th))
  end.

Definition lock_release (lock : Z) : K unit :=
  ASSERT (negb (lock =? NULL));;
  held ← lock_held_by_current_thread lock; ASSERT held;;
  donation_back lock;;
  push [KPriorityRecheck; KHolderClear lock].

Definition holder_clear (lock : Z) : K unit :=
  modify (fun s => set_holder (<[lock := NULL]> (holder s)) s);;
  push [KSemaUpCall (LockSema lock)].

(** ** Condition variables

    The [semaphore_elem] of a waiting thread is named by the thread. *)

Definition cond_init (cond : Z) : K unit :=
  ASSERT (negb (cond =? NULL));;
  modify (fun s => set_cond_waiters (<[cond := []]> (cond_waiters s)) s).

Definition cond_wait (cond lock : Z) : K unit :=
  ASSERT (negb (cond =? NULL));; ASSERT (negb (lock =? NULL));;
  c ← intr_context; ASSERT (negb c);;
  held ← lock_held_by_current_thread lock; ASSERT held;;
  cur ← thread_current;
  sema_init (CondSema cur) 0;;
  modify (fun s => set_cond_waiters (<[cond := cond_waiters s cond ++ [cur]]> (cond_waiters s)) s);;
  push [KLockRelease lock; KSemaDownCall (CondSema cur); KLockAcquire lock].

(** The thread that [convar_compare] looks at, the first waiter. *)
Definition front_waiter (s : kstate) (w : Z) : option Z :=
  head (waiters (sema s (CondSema w))).

Definition convar_compare (s : kstate) (curr it : Z) : bool :=
  match front_waiter s curr, front_waiter s it with
  | Some a, Some b => priority (threads s b) <? priority (threads s a)
  | _, _ => false
  end.

(** Sorting two elements or more compares every element with its neighbour,
    and [list_front] asserts that each of them has a waiter. *)
Definition cond_signal (cond lock : Z) : K unit :=
  ASSERT (negb (cond =? NULL));; ASSERT (negb (lock =? NULL));;
  c ← intr_context; ASSERT (negb c);;
  held ← lock_held_by_current_thread lock; ASSERT held;;
  s ← get;
  let ws := cond_waiters s cond in
  ASSERT ((length ws <? 2)%nat || forallb (fun w => bool_decide (is_Some (front_waiter s w))) ws);;
  match sort_ordered (convar_compare s) ws with
  | [] => mret tt
  | w :: rest =>
      modify (set_cond_waiters (<[cond := rest]> (cond_waiters s)));;
      push [KSemaUpCall (CondSema w)]
  end.

Definition cond_broadcast (cond lock : Z) : K unit :=
  ASSERT (negb (cond =? NULL));; ASSERT (negb (lock =? NULL));;
  push [KBroadcast cond lock].

Definition cond_broadcast_loop (cond lock : Z) : K unit :=
  s ← get;
  match cond_waiters s cond with
  | [] => mret tt
  | _ :: _ => push [KCondSignal cond lock; KBroadcast cond lock]
  end.

(** ** Creating and ending threads *)

(** The address of the static lock of [allocate_tid]. *)
Definition tid_lock : Z := 1.

(** [strlcpy (t->name, name, sizeof t->name)] on a zeroed array: at most 15
    characters, the rest null bytes. *)
Definition name_field (nm : list Z) : list Z :=
  take 15 nm ++ repeat 0 (16 - length (take 15 nm)).

Definition init_thread (t : Z) (nm : list Z) (prio : Z) : K unit :=
  ASSERT (negb (t =? NULL));;
  ASSERT ((PRI_MIN <=? prio) && (prio <=? PRI_MAX));;
  upd_thread t (fun _ =>
    Thread 0 THREAD_BLOCKED (name_field nm) prio prio [] NULL INIT_FD NOT_LOADED NULL NO_PARENT
           NULL [] [] NULL NULL THREAD_MAGIC 0 NULL []);;
  sema_init (WaitSema t) 0;;
  sema_init (LoadSema t) 0;;
  sema_init (SleepSema t) 0;;
  modify (fun s => set_all_list (all_list s ++ [t]) s).

(** CHILD is what [malloc] returns, or [NULL]. *)
Definition add_child_proc (id child : Z) : K Z :=
  cur ← thread_current;
  if child =? NULL then mret NULL else
  sema_init (ZombiSema child) 0;;
  upd_child child (fun _ => ChildProcess id false false INIT_EXIT_STATUS);;
  upd_thread cur (fun th => with_child_list (child_list th ++ [child]) th);;
  mret child.

(** PAGE, CHILD and DIR are what [palloc_get_page], [malloc] and [dir_reopen]
    return. *)
Definition thread_create (nm : list Z) (prio function page child dir : Z) : K unit :=
  ASSERT (negb (function =? NULL));;
  if page =? NULL then mret tt else
  init_thread page nm prio;;
  push [KLockAcquire tid_lock; KAllocTid page prio child dir].

(** The critical section of [allocate_tid]. *)
Definition allocate_tid (t prio child dir : Z) : K unit :=
  s ← get;
  modify (set_next_tid (s32 (next_tid s + 1)));;
  push [KLockRelease tid_lock; KCreate t (next_tid s) prio child dir].

(** The frames of [switch_threads], [switch_entry] and [kernel_thread] on the
    new stack are the frame [KKernelThread]. *)
Definition thread_create_rest (t id prio child dir : Z) : K unit :=
  upd_thread t (with_tid id);;
  upd_thread t (with_kstack [KKernelThread]);;
  ptid ← thread_tid; upd_thread t (with_parent ptid);;
  cp ← add_child_proc id child; upd_thread t (with_child_proc cp);;
  cur ← thread_current; th ← thread_at cur;
  upd_thread t (with_cur_dir (if negb (cur_dir th =? NULL) then dir else NULL));;
  thread_unblock t;;
  push [KCreated prio].

Definition thread_created (prio : Z) : K unit :=
  p ← thread_get_priority;
  if p <=? prio then thread_yield else mret tt.

(** [process_exit] up to the page directory: the files are closed, the child
    records freed, and the parent, if there is one, is told. *)
Definition process_exit : K unit :=
  cur ← thread_current; th ← thread_at cur;
  upd_thread cur (with_file_list []);;
  upd_thread cur (with_child_list []);;
  s ← get;
  if thread_exist s (parent th) && negb (executable th =? NULL) && negb (child_proc th =? NULL) then
    upd_child (child_proc th) (fun c => ChildProcess (pid c) true (child_wait c) (exit_status c));;
    push ((if child_wait (children s (child_proc th))
           then [KSemaUpCall (WaitSema (get_thread s (parent th)))]
           else [KSemaDownCall (ZombiSema (child_proc th))]) ++ [KProcessExit])
  else push [KProcessExit].

(** [process_exit] from the page directory on.  The call of [thread_block]
    has no matching [thread_unblock]. *)
Definition process_exit_rest : K unit :=
  cur ← thread_current;
  upd_thread cur (with_pagedir NULL);;
  old_level ← intr_disable;
  push [KIntrSet old_level];;
  thread_block.

Definition thread_exit : K unit :=
  c ← intr_context; ASSERT (negb c);;
  push [KThreadExit];; process_exit.

Definition thread_exit_rest : K unit :=
  intr_disable;;
  cur ← thread_current;
  modify (fun s => set_all_list (List.filter (fun t => negb (t =? cur)) (all_list s)) s);;
  upd_thread cur (with_status THREAD_DYING);;
  schedule.

Definition idle (idle_started : sema_ref) : K unit :=
  cur ← thread_current;
  modify (set_idle_thread cur);;
  push [KSemaUpCall idle_started; KIdle].

Definition idle_loop : K unit :=
  intr_disable;; push [KIdleWait];; thread_block.

(** ** The timer *)

(** N is the argument [ticks]. *)
Definition timer_sleep (n : Z) : K unit :=
  s ← get;
  cur ← thread_current;
  lv ← intr_get_level; ASSERT lv;;
  old_level ← intr_disable;
  upd_thread cur (with_timeChecker (s64 (ticks s + n)));;
  modify (fun s => set_sleep_list (insert_ordered (compare_timer s) cur (sleep_list s)) s);;
  sema_init (SleepSema cur) 0;;
  push [KIntrSet old_level];;
  sema_down (SleepSema cur).

(** The loop of [timer_wakeup] over the rest of the sleep list. *)
Fixpoint timer_wakeup_loop (now : Z) (element : list Z) : K unit :=
  match element with
  | [] => mret tt
  | t :: rest =>
      s ← get;
      if timeChecker (threads s t) <=? now then
        sema_up (SleepSema t);;
        modify (set_sleep_list rest);;
        timer_wakeup_loop now rest
      else mret tt
  end.

Definition timer_wakeup (now : Z) : K unit :=
  s ← get; timer_wakeup_loop now (sleep_list s).

Definition timer_interrupt : K unit :=
  modify (fun s => set_ticks (s64 (ticks s + 1)) s);;
  s ← get;
  timer_wakeup (ticks s);;
  thread_tick.

(** [intr_handler] for the timer; the processor has saved the level, which is
    restored by the frame [KIret]. *)
Definition intr_handler : K unit :=
  modify (set_intr_on false);;
  push [KIret];;
  c ← intr_context; ASSERT (negb c);;
  modify (set_in_external_intr true);;
  modify (set_yield_on_return false);;
  timer_interrupt;;
  lv ← intr_get_level; ASSERT (negb lv);;
  c ← intr_context; ASSERT c;;
  modify (set_in_external_intr false);;
  s ← get;
  if yield_on_return s then thread_yield else mret tt.

(** ** Execution *)

Definition run_frame (f : frame) : K unit :=
  match f with
  | KIntrSet old_level => intr_set_level old_level;; mret tt
  | KIret => modify (set_intr_on true)
  | KKernelThread => intr_enable;; mret tt
  | KCheckPriority => check_priority
  | KSemaDownCall r => sema_down r
  | KSemaDown r => sema_down_loop r
  | KSemaUpCall r => sema_up r
  | KLockAcquire lock => lock_acquire lock
  | KTryLock lock => set_try_lock lock
  | KDonation => donation_start
  | KDonate cur curr_lock => donation_step cur curr_lock
  | KDonorInsert lock => donor_insert lock
  | KLockTaken lock => lock_taken lock
  | KLockRelease lock => lock_release lock
  | KPriorityRecheck => priority_recheck
  | KHolderClear lock => holder_clear lock
  | KCondSignal cond lock => cond_signal cond lock
  | KBroadcast cond lock => cond_broadcast_loop cond lock
  | KAllocTid t prio child dir => allocate_tid t prio child dir
  | KCreate t id prio child dir => thread_create_rest t id prio child dir
  | KCreated prio => thread_created prio
  | KProcessExit => process_exit_rest
  | KThreadExit => thread_exit_rest
  | KIdle => idle_loop
  | KIdleWait => modify (set_intr_on true);; push [KIdle]
  end.

(** The calls a thread makes when it is not inside the kernel code above. *)
Inductive call :=
  | CIntrSet (level : bool)
  | CYield
  | CSetPriority (p : Z)
  | CSemaDown (r : sema_ref)
  | CSemaTryDown (r : sema_ref)
  | CSemaUp (r : sema_ref)
  | CLockAcquire (lock : Z)
  | CLockTryAcquire (lock : Z)
  | CLockRelease (lock : Z)
  | CCondWait (cond lock : Z)
  | CCondSignal (cond lock : Z)
  | CCondBroadcast (cond lock : Z)
  | CSleep (n : Z)
  | CCreate (nm : list Z) (prio function page child dir : Z)
  | CIdle (idle_started : sema_ref)
  | CExit.

Definition run_call (c : call) : K unit :=
  match c with
  | CIntrSet level => intr_set_level level;; mret tt
  | CYield => thread_yield
  | CSetPriority p => thread_set_priority p
  | CSemaDown r => sema_down r
  | CSemaTryDown r => sema_try_down r;; mret tt
  | CSemaUp r => sema_up r
  | CLockAcquire lock => lock_acquire lock
  | CLockTryAcquire lock => lock_try_acquire lock;; mret tt
  | CLockRelease lock => lock_release lock
  | CCondWait cond lock => cond_wait cond lock
  | CCondSignal cond lock => cond_signal cond lock
  | CCondBroadcast cond lock => cond_broadcast cond lock
  | CSleep n => timer_sleep n
  | CCreate nm prio function page child dir => thread_create nm prio function page child dir
  | CIdle idle_started => idle idle_started
  | CExit => thread_exit
  end.

(** What happens next: the running thread makes a call, the kernel code it is
    in goes on, or the timer interrupts it. *)
Inductive event := Call (c : call) | Run | Tick.

Definition exec (e : event) : K unit :=
  match e with
  | Call c => run_call c
  | Run =>
      cur ← running_thread; th ← thread_at cur;
      match kstack th with
      | [] => mret tt
      | f :: rest => upd_thread cur (with_kstack rest);; run_frame f
      end
  | Tick => intr_handler
  end.

(** [thread_init] on the code that is running, whose page is at MAIN. *)
Definition thread_init (main : Z) : kstate :=
  let blank := Thread 0 THREAD_BLOCKED (repeat 0 16) 0 0 [] NULL 0 0 NULL 0 NULL [] [] NULL NULL 0 0
                 NULL [] in
  let th := Thread 1 THREAD_RUNNING (name_field [109; 97; 105; 110]) PRI_DEFAULT PRI_DEFAULT [] NULL
              INIT_FD NOT_LOADED NULL NO_PARENT NULL [] [] NULL NULL THREAD_MAGIC 0 NULL [] in
  KState (<[main := th]> (fun _ => blank))
         (fun r => match r with LockSema _ => Semaphore 1 [] | _ => Semaphore 0 [] end)
         (fun _ => NULL) (fun _ => []) (fun _ => ChildProcess 0 false false 0)
         [] [main] [] NULL main main false false false 0 0 0 0 0 2.
