(* ===== verification/ThreadInv.v ===== *)
(** * The scheduler invariant

    Which thread is in which queue, and what the stacks of threads that do not
    run look like.  The invariant is stated for a running thread or for none,
    the situation between giving up the processor and the dispatch. *)

From stdpp Require Import functions.
From S2P Require Import Prelude ListModel ListOrder ListSpec ThreadModel.

(** ** Rules for the thread model

    What the small operations of [ThreadModel] do when they return, as
    equations between states, and the tactic [kinv] that runs a definition
    backwards through them. *)

Lemma get_inv (s : kstate) a s' : get s = Ok (a, s') -> a = s /\ s' = s.
Proof. unfold get. by intros [= <- <-]. Qed.
Lemma gets_inv {A} (f : kstate -> A) s a s' : gets f s = Ok (a, s') -> a = f s /\ s' = s.
Proof. unfold gets. by intros [= <- <-]. Qed.
Lemma ret_inv {A} (x : A) (s : kstate) a s' : mret (M := M kstate) x s = Ok (a, s') -> a = x /\ s' = s.
Proof. unfold mret, M_ret. by intros [= <- <-]. Qed.
Lemma modify_inv f s a s' : modify f s = Ok (a, s') -> s' = f s.
Proof. unfold modify. cbn. by intros [= <- <-]. Qed.
Lemma ASSERT_inv b (s : kstate) a s' : ASSERT b s = Ok (a, s') -> b = true /\ s' = s.
Proof. unfold ASSERT. destruct b; cbn; [by intros [= <- <-]|discriminate]. Qed.
Lemma fail_inv {A} e (s : kstate) (a : A) s' : fail e s = Ok (a, s') -> False.
Proof. discriminate. Qed.

Lemma thread_at_inv t s a s' :
  thread_at t s = Ok (a, s') -> t <> NULL /\ a = threads s t /\ s' = s.
Proof. unfold thread_at. destruct (Z.eqb_spec t NULL); [by intros ?%fail_inv|]. by intros [-> ->]%gets_inv. Qed.

Lemma upd_thread_inv t f s a s' :
  upd_thread t f s = Ok (a, s') ->
  t <> NULL /\ s' = set_threads (<[t := f (threads s t)]> (threads s)) s.
Proof.
  unfold upd_thread. destruct (Z.eqb_spec t NULL); [by intros ?%fail_inv|].
  by intros ->%modify_inv.
Qed.

Lemma upd_sema_inv r f s a s' :
  upd_sema r f s = Ok (a, s') -> s' = set_sema (<[r := f (sema s r)]> (sema s)) s.
Proof. by intros ->%modify_inv. Qed.

Lemma sema_init_inv r v s a s' :
  sema_init r v s = Ok (a, s') -> s' = set_sema (<[r := Semaphore v []]> (sema s)) s.
Proof. apply upd_sema_inv. Qed.

Lemma upd_child_inv c f s a s' :
  upd_child c f s = Ok (a, s') -> s' = set_children (<[c := f (children s c)]> (children s)) s.
Proof. by intros ->%modify_inv. Qed.

Lemma intr_get_level_inv s a s' : intr_get_level s = Ok (a, s') -> a = intr_on s /\ s' = s.
Proof. apply gets_inv. Qed.
Lemma intr_context_inv s a s' : intr_context s = Ok (a, s') -> a = in_external_intr s /\ s' = s.
Proof. apply gets_inv. Qed.
Lemma running_thread_inv s a s' : running_thread s = Ok (a, s') -> a = current s /\ s' = s.
Proof. apply gets_inv. Qed.

(** The functions [kinv] knows besides the primitive ones; extended below. *)
Ltac kleaf H := idtac.

(** [kinv H] replaces the run of a sequence in [H] by what its parts did. *)
Ltac kinv H :=
  lazymatch type of H with
  | (_ ≫= _) _ = Ok _ =>
      let a := fresh "a" in let s := fresh "s" in let Ha := fresh "Ha" in
      apply bind_inv in H; destruct H as (a & s & Ha & H); cbv beta in H; kinv Ha; try kinv H
  | get _ = _ => apply get_inv in H; destruct H; subst
  | gets _ _ = _ => apply gets_inv in H; destruct H; subst
  | mret _ _ = _ => apply ret_inv in H; destruct H; subst
  | modify _ _ = _ => apply modify_inv in H; subst
  | ASSERT _ _ = _ =>
      let Hb := fresh "Hb" in apply ASSERT_inv in H; destruct H as [Hb H]; subst
  | fail _ _ = _ => destruct (fail_inv _ _ _ _ H)
  | thread_at _ _ = _ =>
      let Hn := fresh "Hn" in apply thread_at_inv in H; destruct H as (Hn & H & ?); subst
  | upd_thread _ _ _ = _ =>
      let Hn := fresh "Hn" in apply upd_thread_inv in H; destruct H as [Hn H]; subst
  | upd_sema _ _ _ = _ => apply upd_sema_inv in H; subst
  | upd_child _ _ _ = _ => apply upd_child_inv in H; subst
  | sema_init _ _ _ = _ => apply sema_init_inv in H; subst
  | intr_get_level _ = _ => apply intr_get_level_inv in H; destruct H; subst
  | intr_context _ = _ => apply intr_context_inv in H; destruct H; subst
  | running_thread _ = _ => apply running_thread_inv in H; destruct H; subst
  | _ => kleaf H
  end.

Lemma thread_current_inv s t s' :
  thread_current s = Ok (t, s') ->
  t = current s /\ s' = s /\ is_thread s t = true /\ status (threads s t) = THREAD_RUNNING.
Proof.
  unfold thread_current. intros H. kinv H. split_and!; [done..|]. by case_bool_decide.
Qed.

Lemma intr_disable_inv s a s' : intr_disable s = Ok (a, s') -> a = intr_on s /\ s' = set_intr_on false s.
Proof. unfold intr_disable. intros H. kinv H. done. Qed.

Lemma intr_set_level_inv lv s a s' : intr_set_level lv s = Ok (a, s') -> s' = set_intr_on lv s.
Proof.
  unfold intr_set_level. destruct lv; [unfold intr_enable|unfold intr_disable]; intros H; by kinv H.
Qed.

Lemma intr_enable_inv s a s' : intr_enable s = Ok (a, s') -> s' = set_intr_on true s.
Proof. apply (intr_set_level_inv true). Qed.

(** The state after leaving frames to the running thread. *)
Definition pushed (fs : list frame) (s : kstate) : kstate :=
  set_threads (<[current s := with_kstack (fs ++ kstack (threads s (current s)))
                                (threads s (current s))]> (threads s)) s.

Lemma push_inv fs s a s' : push fs s = Ok (a, s') -> s' = pushed fs s.
Proof. unfold push. intros H. by kinv H. Qed.

Ltac kleaf H ::=
  lazymatch type of H with
  | thread_current _ = _ =>
      let Hc := fresh "Hc" in apply thread_current_inv in H; destruct H as (? & ? & Hc); subst
  | intr_disable _ = _ => apply intr_disable_inv in H; destruct H; subst
  | intr_enable _ = _ => apply intr_enable_inv in H; subst
  | intr_set_level _ _ = _ => apply intr_set_level_inv in H; subst
  | push _ _ = _ => apply push_inv in H; subst
  | _ => idtac
  end.

Lemma thread_tid_inv s a s' :
  thread_tid s = Ok (a, s') -> s' = s /\ a = tid (threads s (current s)).
Proof. unfold thread_tid. intros H. by kinv H. Qed.

(** ** Stacks *)

(** The thread that a frame is creating. *)
Definition creating (f : frame) : option Z :=
  match f with
  | KAllocTid t _ _ _ | KCreate t _ _ _ _ => Some t
  | _ => None
  end.

Definition releasing (f : frame) : bool := match f with KHolderClear _ => true | _ => false end.
Definition no_creating (st : list frame) : Prop := Forall (fun f => creating f = None) st.
Definition no_release (st : list frame) : Prop := Forall (fun f => releasing f = false) st.

(** What may lie under a frame on the stack of thread [t].  A semaphore inside
    a thread is waited for by that thread only, waiting for the semaphore of a
    lock is followed by taking the lock. *)
Definition frame_ok (t : Z) (f : frame) (rest : list frame) : Prop :=
  match f with
  | KSemaDownCall r | KSemaDown r =>
      match r with
      | SleepSema u | CondSema u => u = t
      | LockSema l =>
          match f with
          | KSemaDownCall _ => head rest = Some (KLockTaken l)
          | _ => exists lv, take 2 rest = [KIntrSet lv; KLockTaken l]
          end
      | _ => True
      end
  | KSemaUpCall (SleepSema _) => False
  | KHolderClear _ => no_release rest
  | KLockRelease _ => no_release rest
  | KAllocTid _ _ _ _ => no_release rest /\ no_creating rest
  | KCreate _ _ _ _ _ => no_creating rest
  | KProcessExit => rest = [KThreadExit]
  | _ => True
  end.

(** [KThreadExit] lies only under [KProcessExit]. *)
Fixpoint stack_ok (t : Z) (st : list frame) : Prop :=
  match st with
  | [] => True
  | KThreadExit :: _ => False
  | KProcessExit :: rest => rest = [KThreadExit]
  | f :: rest => frame_ok t f rest /\ stack_ok t rest
  end.

(** The idle thread only runs its loop, interrupt frames and yields. *)
Definition idle_frame (f : frame) : bool :=
  match f with
  | KIntrSet _ | KIret | KCheckPriority | KSemaUpCall _ | KIdle | KIdleWait => true
  | _ => false
  end.
Definition idle_stack (st : list frame) : Prop :=
  Forall (fun f => idle_frame f = true) st /\ (last st = Some KIdle \/ last st = Some KIdleWait).

(** ** The invariant *)

Abbreviation status_of s t := (status (threads s t)).
Abbreviation stack_of s t := (kstack (threads s t)).

(** A thread between [init_thread] and the end of [thread_create]. *)
Definition embryo (s : kstate) (t : Z) : Prop :=
  t ∈ all_list s /\ status_of s t = THREAD_BLOCKED /\ stack_of s t = [].

(** A thread that has gone through [process_exit]. *)
Definition zombie (s : kstate) (t : Z) : Prop :=
  status_of s t = THREAD_BLOCKED /\ exists lv, stack_of s t = [KIntrSet lv; KThreadExit].

Record sched_inv (run : option Z) (s : kstate) : Prop := {
  si_nodup : NoDup (all_list s);
  si_thread t : t ∈ all_list s -> is_thread s t = true;
  si_current : current s ∈ all_list s;
  si_run t : t ∈ all_list s -> (status_of s t = THREAD_RUNNING <-> run = Some t);
  si_alive t : t ∈ all_list s -> status_of s t <> THREAD_DYING;
  si_ready_nodup : NoDup (ready_list s);
  si_ready t : t ∈ ready_list s <->
    t ∈ all_list s /\ status_of s t = THREAD_READY /\ t <> idle_thread s;
  si_wait_nodup r : NoDup (waiters (sema s r));
  si_wait t r : t ∈ waiters (sema s r) <->
    t ∈ all_list s /\ status_of s t = THREAD_BLOCKED /\ head (stack_of s t) = Some (KSemaDown r);
  si_idle : idle_thread s = NULL \/ idle_thread s ∈ all_list s;
  si_stack t : t ∈ all_list s -> run <> Some t -> stack_ok t (stack_of s t) \/ zombie s t;
  si_idle_stack : idle_thread s ∈ all_list s -> run <> Some (idle_thread s) ->
    idle_stack (stack_of s (idle_thread s));
  si_creating u f t : u ∈ all_list s -> run <> Some u -> f ∈ stack_of s u -> creating f = Some t ->
    embryo s t;
  si_creating_inj u v f g t : u ∈ all_list s -> run <> Some u -> v ∈ all_list s -> run <> Some v ->
    f ∈ stack_of s u -> g ∈ stack_of s v -> creating f = Some t -> creating g = Some t -> u = v
}.

(** What the stack of the running thread owes the invariant when the thread
    stops at it. *)
Record cur_ok (s : kstate) (t : Z) (st : list frame) : Prop := {
  co_stack : stack_ok t st;
  co_idle : t = idle_thread s -> idle_stack st;
  co_creating f x : f ∈ st -> creating f = Some x -> embryo s x;
  co_creating_inj u f g x : u ∈ all_list s -> u <> t -> f ∈ st -> g ∈ stack_of s u ->
    creating f = Some x -> creating g <> Some x
}.

(** The parts of a thread the invariant looks at. *)
Definition tview (s : kstate) (t : Z) : thread_status * list frame * Z :=
  (status_of s t, stack_of s t, magic (threads s t)).

(** Two states that agree on all of it. *)
Record same_sched (s s' : kstate) : Prop := {
  ss_all : all_list s' = all_list s;
  ss_current : current s' = current s;
  ss_ready : ready_list s' = ready_list s;
  ss_idle : idle_thread s' = idle_thread s;
  ss_wait r : waiters (sema s' r) = waiters (sema s r);
  ss_thread t : tview s' t = tview s t
}.

Lemma tview_eq s s' t : tview s' t = tview s t ->
  status_of s' t = status_of s t /\ stack_of s' t = stack_of s t /\
  magic (threads s' t) = magic (threads s t).
Proof. unfold tview. by intros [= -> -> ->]. Qed.

Lemma is_thread_view s s' t : magic (threads s' t) = magic (threads s t) ->
  is_thread s' t = is_thread s t.
Proof. unfold is_thread. by intros ->. Qed.

Lemma embryo_view s s' t : all_list s' = all_list s -> tview s' t = tview s t ->
  embryo s t -> embryo s' t.
Proof. intros E (Hs & Hk & _)%tview_eq. unfold embryo. by rewrite E, Hs, Hk. Qed.

Lemma zombie_view s s' t : tview s' t = tview s t -> zombie s t -> zombie s' t.
Proof. intros (Hs & Hk & _)%tview_eq. unfold zombie. by rewrite Hs, Hk. Qed.

Lemma sched_inv_same run s s' : same_sched s s' -> sched_inv run s -> sched_inv run s'.
Proof.
  intros [Ea Ec Er Ei Ew Et] H.
  assert (Es : forall t, status_of s' t = status_of s t) by (intros t; apply (tview_eq _ _ _ (Et t))).
  assert (Ek : forall t, stack_of s' t = stack_of s t) by (intros t; apply (tview_eq _ _ _ (Et t))).
  assert (Em : forall t, is_thread s' t = is_thread s t)
    by (intros t; apply is_thread_view, (tview_eq _ _ _ (Et t))).
  split; intros *; rewrite ?Ea, ?Ec, ?Er, ?Ei, ?Ew, ?Es, ?Ek, ?Em.
  - apply (si_nodup _ _ H).
  - apply (si_thread _ _ H).
  - apply (si_current _ _ H).
  - apply (si_run _ _ H).
  - apply (si_alive _ _ H).
  - apply (si_ready_nodup _ _ H).
  - apply (si_ready _ _ H).
  - apply (si_wait_nodup _ _ H).
  - apply (si_wait _ _ H).
  - apply (si_idle _ _ H).
  - intros Ha Hr. destruct (si_stack _ _ H t Ha Hr) as [|Hz]; [by left|right].
    exact (zombie_view _ _ _ (Et t) Hz).
  - apply (si_idle_stack _ _ H).
  - intros. apply (embryo_view s); [done..|]. by eapply (si_creating _ _ H).
  - apply (si_creating_inj _ _ H).
Qed.

Lemma cur_ok_same s s' t st : same_sched s s' -> cur_ok s t st -> cur_ok s' t st.
Proof.
  intros [Ea Ec Er Ei Ew Et] H. split.
  - apply (co_stack _ _ _ H).
  - rewrite Ei. apply (co_idle _ _ _ H).
  - intros. apply (embryo_view s); [done..|]. by eapply (co_creating _ _ _ H).
  - intros u f g x. rewrite Ea, (proj1 (proj2 (tview_eq _ _ _ (Et u)))).
    apply (co_creating_inj _ _ _ H).
Qed.

Lemma same_sched_refl s : same_sched s s.
Proof. by split. Qed.

Lemma same_sched_trans s1 s2 s3 : same_sched s1 s2 -> same_sched s2 s3 -> same_sched s1 s3.
Proof.
  intros [] []. split; [congruence..| |]; intros; etrans; eauto.
Qed.

(** ** Code that neither switches nor wakes a thread

    [quiet fs s s']: the running thread has only pushed [fs]; queues, states
    and the stacks of the other threads are as before. *)

Record others (s s' : kstate) : Prop := {
  q_all : all_list s' = all_list s;
  q_current : current s' = current s;
  q_ready : ready_list s' = ready_list s;
  q_idle : idle_thread s' = idle_thread s;
  q_wait r : waiters (sema s' r) = waiters (sema s r);
  q_status t : status_of s' t = status_of s t;
  q_magic t : magic (threads s' t) = magic (threads s t);
  q_stack t : t <> current s -> stack_of s' t = stack_of s t
}.

Definition quiet (fs : list frame) (s s' : kstate) : Prop :=
  others s s' /\ stack_of s' (current s) = fs ++ stack_of s (current s).

Lemma quiet_refl s : quiet [] s s.
Proof. by split. Qed.

Lemma others_trans s1 s2 s3 : others s1 s2 -> others s2 s3 -> others s1 s3.
Proof.
  intros [A1 C1 R1 I1 W1 S1 M1 K1] [A2 C2 R2 I2 W2 S2 M2 K2].
  split; [congruence..| | | |].
  - intros r. by rewrite W2.
  - intros t. by rewrite S2.
  - intros t. by rewrite M2.
  - intros t Ht. rewrite K2 by by rewrite C1. by apply K1.
Qed.

Lemma quiet_trans f1 f2 s1 s2 s3 :
  quiet f1 s1 s2 -> quiet f2 s2 s3 -> quiet (f2 ++ f1) s1 s3.
Proof.
  intros [Q1 O1] [Q2 O2]. split; [by eapply others_trans|].
  rewrite <-(q_current _ _ Q1) at 1. by rewrite O2, (q_current _ _ Q1), O1, app_assoc.
Qed.

(** Changes of a thread that leave its state and stack alone. *)
Definition benign (f : thread -> thread) : Prop :=
  forall th, status (f th) = status th /\ kstack (f th) = kstack th /\ magic (f th) = magic th.

Lemma fn_at {A} `{EqDecision B} (f : B -> A) a v b :
  (<[a := v]> f) b = if decide (a = b) then v else f b.
Proof. reflexivity. Qed.

Lemma quiet_upd t f s : benign f -> quiet [] s (set_threads (<[t := f (threads s t)]> (threads s)) s).
Proof.
  intros Hf. destruct (Hf (threads s t)) as (H1 & H2 & H3).
  split; [split; intros *|]; cbn [all_list current ready_list idle_thread sema threads set_threads];
    rewrite ?fn_at; try (intros ?); try done; by case_decide; subst.
Qed.

Lemma quiet_pushed fs s : quiet fs s (pushed fs s).
Proof.
  unfold pushed.
  split; [split; intros *|]; cbn [all_list current ready_list idle_thread sema threads set_threads];
    rewrite ?fn_at; try (intros ?); try done; by case_decide; subst.
Qed.

Lemma quiet_sema r x s : waiters x = waiters (sema s r) ->
  quiet [] s (set_sema (<[r := x]> (sema s)) s).
Proof.
  intros E. split; [split; intros *|]; cbn [all_list current ready_list idle_thread sema threads set_sema];
    try done. rewrite fn_at. by case_decide; subst.
Qed.

(** Changes of the other fields of the state. *)
Ltac quiet_field := split; [by split|reflexivity].

Ltac benign_tac := intros ?; by split_and!.

(** [quiet_go] decomposes a state built by such changes from [s]. *)
Ltac quiet_go :=
  lazymatch goal with
  | |- quiet _ ?s ?s => apply quiet_refl
  | |- quiet _ _ (pushed ?fs ?s) =>
      eapply (quiet_trans _ fs _ s); [quiet_go|apply quiet_pushed]
  | |- quiet _ _ (set_threads (<[?t := ?f (threads ?s0 ?t)]> _) ?s) =>
      eapply (quiet_trans _ [] _ s); [quiet_go|apply (quiet_upd t f s); benign_tac]
  | |- quiet _ _ (set_threads (<[?t := _]> _) ?s) =>
      eapply (quiet_trans _ [] _ s);
        [quiet_go|apply (quiet_upd t _ s); benign_tac]
  | |- quiet _ _ (set_sema (<[?r := ?x]> _) ?s) =>
      eapply (quiet_trans _ [] _ s); [quiet_go|apply (quiet_sema r x s)]
  | |- quiet _ _ (_ _ ?s) => eapply (quiet_trans _ [] _ s); [quiet_go|quiet_field]
  end.

Section Run.
Context (s s' : kstate).
Hypotheses (H : sched_inv (Some (current s)) s) (Q : others s s').

Lemma run_status : status_of s (current s) = THREAD_RUNNING.
Proof using H. apply (si_run _ _ H); [apply (si_current _ _ H)|done]. Qed.

Lemma embryo_not_running t : embryo s t -> t <> current s.
Proof using H. intros (_ & E & _) ->. rewrite run_status in E. discriminate. Qed.

Lemma embryo_quiet t : embryo s t -> embryo s' t.
Proof using All.
  intros He. pose proof (embryo_not_running _ He) as Hn. destruct He as (Ha & Hs & Hk).
  split_and!; [by rewrite (q_all _ _ Q)|by rewrite (q_status _ _ Q)|].
  by rewrite (q_stack _ _ Q).
Qed.

Lemma sched_inv_quiet : sched_inv (Some (current s')) s'.
Proof using All.
  pose proof run_status as Hrun. destruct Q as [Ea Ec Er Ei Ew Es Em Ek].
  assert (Ekr : forall t, Some (current s) <> Some t -> stack_of s' t = stack_of s t)
    by (intros t Ht; apply Ek; congruence).
  split; intros *; rewrite ?Ea, ?Ec, ?Er, ?Ei, ?Ew, ?Es, ?(is_thread_view s s') by done.
  - apply (si_nodup _ _ H).
  - apply (si_thread _ _ H).
  - apply (si_current _ _ H).
  - apply (si_run _ _ H).
  - apply (si_alive _ _ H).
  - apply (si_ready_nodup _ _ H).
  - apply (si_ready _ _ H).
  - apply (si_wait_nodup _ _ H).
  - rewrite (si_wait _ _ H). destruct (decide (t = current s)) as [->|Ht]; [|by rewrite Ek].
    rewrite Hrun. naive_solver.
  - apply (si_idle _ _ H).
  - intros Ha Hr. rewrite Ekr by done. destruct (si_stack _ _ H t Ha Hr) as [|Hz]; [by left|right].
    unfold zombie. by rewrite Es, Ekr.
  - intros Ha Hr. rewrite Ekr by done. by apply (si_idle_stack _ _ H).
  - intros Ha Hr. rewrite Ekr by done. intros Hf Hc. apply embryo_quiet. by eapply (si_creating _ _ H).
  - intros Hu Hur Hv Hvr. rewrite !Ekr by done. by apply (si_creating_inj _ _ H).
Qed.

Lemma cur_ok_quiet st : cur_ok s (current s) st -> cur_ok s' (current s') st.
Proof using All.
  intros C. rewrite (q_current _ _ Q). split.
  - apply (co_stack _ _ _ C).
  - rewrite (q_idle _ _ Q). apply (co_idle _ _ _ C).
  - intros. apply embryo_quiet. by eapply (co_creating _ _ _ C).
  - intros u f g x. rewrite (q_all _ _ Q). intros Ha Hu. rewrite (q_stack _ _ Q) by done.
    by apply (co_creating_inj _ _ _ C).
Qed.
End Run.
