(* ===== verification/ThreadSched.v ===== *)
(** * Switching and waking threads keep the scheduler invariant *)

From stdpp Require Import functions.
From S2P Require Import Prelude ListModel ListOrder ListSpec ThreadModel ThreadInv.

(** ** Giving up the processor *)

(** The running thread becomes ready or blocked with the stack [st]. *)
Record stops (st : list frame) (new : thread_status) (s s' : kstate) : Prop := {
  st_all : all_list s' = all_list s;
  st_current : current s' = current s;
  st_idle : idle_thread s' = idle_thread s;
  st_magic t : magic (threads s' t) = magic (threads s t);
  st_other t : t <> current s -> status_of s' t = status_of s t /\ stack_of s' t = stack_of s t;
  st_status : status_of s' (current s) = new;
  st_stack : stack_of s' (current s) = st;
  st_ready_nodup : NoDup (ready_list s');
  st_ready t : t ∈ ready_list s' <->
    t ∈ ready_list s \/ (t = current s /\ new = THREAD_READY /\ t <> idle_thread s);
  st_wait_nodup r : NoDup (waiters (sema s' r));
  st_wait t r : t ∈ waiters (sema s' r) <->
    t ∈ waiters (sema s r) \/ (t = current s /\ new = THREAD_BLOCKED /\ head st = Some (KSemaDown r))
}.

Section Stop.
Context (s s' : kstate) (st : list frame) (new : thread_status).
Hypotheses (H : sched_inv (Some (current s)) s) (St : stops st new s s')
  (Hnew : new = THREAD_READY \/ new = THREAD_BLOCKED)
  (Hstack : stack_ok (current s) st \/
            (new = THREAD_BLOCKED /\ exists lv, st = [KIntrSet lv; KThreadExit]))
  (Hidle : current s = idle_thread s -> idle_stack st)
  (Hcre : forall f x, f ∈ st -> creating f = Some x -> embryo s x)
  (Hinj : forall u f g x, u ∈ all_list s -> u <> current s -> f ∈ st -> g ∈ stack_of s u ->
            creating f = Some x -> creating g <> Some x).

Lemma stop_not_running : new <> THREAD_RUNNING /\ new <> THREAD_DYING.
Proof using All. destruct Hnew as [E|E]; by rewrite E. Qed.

Lemma stop_status t : status_of s' t = if decide (t = current s) then new else status_of s t.
Proof using All. case_decide; [subst; apply (st_status _ _ _ _ St)|by apply (st_other _ _ _ _ St)]. Qed.

Lemma stop_stack t : stack_of s' t = if decide (t = current s) then st else stack_of s t.
Proof using All. case_decide; [subst; apply (st_stack _ _ _ _ St)|by apply (st_other _ _ _ _ St)]. Qed.

Lemma stop_embryo t : embryo s t -> embryo s' t.
Proof using All.
  intros He. pose proof (embryo_not_running _ H _ He) as Hn. destruct He as (Ha & Hs & Hk).
  unfold embryo. rewrite (st_all _ _ _ _ St), stop_status, stop_stack. by rewrite !decide_False.
Qed.

Lemma stop_waiting t r : t ∈ waiters (sema s' r) <->
  t ∈ all_list s /\ (if decide (t = current s) then new else status_of s t) = THREAD_BLOCKED /\
  head (if decide (t = current s) then st else stack_of s t) = Some (KSemaDown r).
Proof using All.
  rewrite (st_wait _ _ _ _ St), (si_wait _ _ H).
  pose proof (si_current _ _ H) as Hcur. pose proof (run_status _ H) as Hrun.
  case_decide as Ht; [|naive_solver]. subst t. rewrite Hrun. naive_solver.
Qed.

Lemma stop_readying t : t ∈ ready_list s' <->
  t ∈ all_list s /\ (if decide (t = current s) then new else status_of s t) = THREAD_READY /\
  t <> idle_thread s.
Proof using All.
  rewrite (st_ready _ _ _ _ St), (si_ready _ _ H).
  pose proof (si_current _ _ H) as Hcur. pose proof (run_status _ H) as Hrun.
  case_decide as Ht; [|naive_solver]. subst t. rewrite Hrun. naive_solver.
Qed.

Lemma stop_stack_ok t : t ∈ all_list s -> stack_ok t (stack_of s' t) \/ zombie s' t.
Proof using All.
  intros Ha. unfold zombie. rewrite stop_stack, stop_status. case_decide as Ht.
  - subst t. destruct Hstack as [?|[? ?]]; [by left|by right].
  - apply (si_stack _ _ H t Ha). congruence.
Qed.

Lemma stop_inj u v f g t : u ∈ all_list s -> v ∈ all_list s ->
  f ∈ stack_of s' u -> g ∈ stack_of s' v -> creating f = Some t -> creating g = Some t -> u = v.
Proof using All.
  intros Hu Hv. rewrite !stop_stack. intros Hf Hg Cf Cg.
  destruct (decide (u = current s)) as [Eu|Nu], (decide (v = current s)) as [Ev|Nv]; [congruence| | |].
  - destruct (Hinj v f g t Hv Nv Hf Hg Cf Cg).
  - destruct (Hinj u g f t Hu Nu Hg Hf Cg Cf).
  - eapply (si_creating_inj _ _ H u v f g t); eauto; congruence.
Qed.

Lemma stop_inv : sched_inv None s'.
Proof using All.
  destruct stop_not_running as [Hn1 Hn2]. pose proof stop_embryo as Hemb.
  destruct St as [Ea Ec Ei Em _ _ _ Hrn _ Hwn _].
  split; rewrite ?Ea, ?Ec, ?Ei; try done; intros *; rewrite ?(is_thread_view s s') by done.
  - apply (si_nodup _ _ H).
  - apply (si_thread _ _ H).
  - apply (si_current _ _ H).
  - intros Ha. rewrite stop_status. split; [|done]. case_decide as Ht; [done|].
    intros [= Eq]%(si_run _ _ H); done.
  - intros Ha. rewrite stop_status. case_decide; [done|by apply (si_alive _ _ H)].
  - rewrite stop_status. apply stop_readying.
  - rewrite stop_status, stop_stack. apply stop_waiting.
  - apply (si_idle _ _ H).
  - intros Ha _. by apply stop_stack_ok.
  - intros Ha _. rewrite stop_stack. case_decide as Ht; [by apply Hidle|].
    apply (si_idle_stack _ _ H); [done|congruence].
  - intros Ha _ Hf Hc. apply Hemb. rewrite stop_stack in Hf. case_decide as Ht; [by eapply Hcre|].
    eapply (si_creating _ _ H); eauto. congruence.
  - intros Hu _ Hv _. by apply stop_inj.
Qed.
End Stop.

(** ** Dispatching *)

Definition next_of (s : kstate) : Z :=
  match ready_list s with [] => idle_thread s | t :: _ => t end.

(** The state in which the next thread runs. *)
Definition dispatch (s : kstate) : kstate :=
  let t := next_of s in
  set_thread_ticks 0
    (set_threads (<[t := with_status THREAD_RUNNING (threads s t)]> (threads s))
       (set_current t (set_ready_list (tail (ready_list s)) s))).

Lemma next_thread_to_run_inv s t s' :
  next_thread_to_run s = Ok (t, s') -> t = next_of s /\ s' = set_ready_list (tail (ready_list s)) s.
Proof.
  unfold next_thread_to_run, next_of. intros H. apply bind_inv in H as (? & ? & [-> ->]%get_inv & H).
  destruct (ready_list s) as [|x rest] eqn:E; kinv H; [|done]. split; [done|]. simpl. rewrite <-E. by destruct s.
Qed.

(** The end of a switch to [t] from a thread that is not dying. *)
Lemma schedule_tail_inv s prev a s' :
  (prev = NULL \/ status_of s prev <> THREAD_DYING) -> thread_schedule_tail prev s = Ok (a, s') ->
  s' = set_thread_ticks 0
         (set_threads (<[current s := with_status THREAD_RUNNING (threads s (current s))]> (threads s)) s).
Proof.
  unfold thread_schedule_tail. intros Hp H. kinv H.
  cbn [threads set_thread_ticks set_threads] in H. rewrite fn_at in H.
  replace (negb (prev =? NULL) && _) with false in H; [simpl in H; by kinv H|].
  symmetry. destruct Hp as [->|Hp]; [done|]. destruct (prev =? NULL); [done|]. simpl.
  rewrite bool_decide_eq_false_2; [done|]. by case_decide; subst.
Qed.

Lemma schedule_inv s a s' :
  status_of s (current s) <> THREAD_DYING -> schedule s = Ok (a, s') ->
  s' = dispatch s /\ is_thread s (next_of s) = true /\ intr_on s = false.
Proof.
  intros Hnd. unfold schedule. intros H. kinv H. rename Ha0 into Hsw.
  apply next_thread_to_run_inv in Ha as [-> ->].
  cbn [set_ready_list intr_on threads] in *. apply negb_true_iff in Hb.
  split_and!; [|done|done].
  destruct (Z.eqb_spec (current s) (next_of s)) as [Ec|Nc]; cbn [negb] in Hsw.
  - kinv Hsw. apply schedule_tail_inv in H; [|by left]. subst s'. unfold dispatch. rewrite <-Ec.
    cbn. by destruct s.
  - unfold switch_threads in Hsw. kinv Hsw. apply schedule_tail_inv in H; [by subst|by right].
Qed.

Lemma next_live s : sched_inv None s -> is_thread s (next_of s) = true -> next_of s ∈ all_list s.
Proof.
  intros Hi Ht. unfold next_of in *. destruct (ready_list s) as [|x r] eqn:E.
  - destruct (si_idle _ _ Hi) as [E0|]; [|done]. by rewrite E0 in Ht.
  - apply (si_ready _ _ Hi). rewrite E. by left.
Qed.

Lemma dispatch_status s t :
  status_of (dispatch s) t = if decide (next_of s = t) then THREAD_RUNNING else status_of s t.
Proof. unfold dispatch. cbn. rewrite fn_at. by case_decide; subst. Qed.

Lemma dispatch_stack s t : stack_of (dispatch s) t = stack_of s t.
Proof. unfold dispatch. cbn. rewrite fn_at. by case_decide; subst. Qed.

Lemma dispatch_magic s t : is_thread (dispatch s) t = is_thread s t.
Proof. apply is_thread_view. unfold dispatch. cbn. rewrite fn_at. by case_decide; subst. Qed.

Section Dispatch.
Context (s : kstate).
Hypotheses (H : sched_inv None s) (Hnext : next_of s ∈ all_list s).

(** The thread that is chosen is ready, or the idle thread. *)
Lemma next_ready : next_of s <> idle_thread s -> status_of s (next_of s) = THREAD_READY.
Proof using H.
  unfold next_of. destruct (ready_list s) as [|x r] eqn:E; [done|]. intros _.
  apply (si_ready _ _ H). rewrite E. by left.
Qed.

Lemma next_stack_ok : stack_ok (next_of s) (stack_of s (next_of s)).
Proof using H Hnext.
  destruct (si_stack _ _ H _ Hnext) as [|(Hb & lv & Hk)]; [done..|].
  destruct (decide (next_of s = idle_thread s)) as [Ei|Hn].
  - assert (idle_stack (stack_of s (idle_thread s))) as [Hf _].
    { apply (si_idle_stack _ _ H); [by rewrite <-Ei|done]. }
    rewrite <-Ei, Hk in Hf. apply Forall_cons in Hf as [_ [Hf _]%Forall_cons]. done.
  - rewrite next_ready in Hb by done. done.
Qed.

Lemma next_not_waiting r : head (stack_of s (next_of s)) = Some (KSemaDown r) ->
  status_of s (next_of s) <> THREAD_BLOCKED.
Proof using H Hnext.
  intros Hh. destruct (decide (next_of s = idle_thread s)) as [Ei|Hn]; [|by rewrite next_ready].
  assert (idle_stack (stack_of s (idle_thread s))) as [Hf _].
  { apply (si_idle_stack _ _ H); [by rewrite <-Ei|done]. }
  rewrite <-Ei in Hf. destruct (stack_of s (next_of s)) as [|f k]; [done|].
  apply Forall_cons in Hf as [Hf _]. simpl in Hh. by simplify_eq.
Qed.

Lemma next_not_embryo : ~ embryo s (next_of s).
Proof using H Hnext.
  intros (_ & Hb & Hk). destruct (decide (next_of s = idle_thread s)) as [Ei|Hn].
  - assert (idle_stack (stack_of s (idle_thread s))) as [_ Hl].
    { apply (si_idle_stack _ _ H); [by rewrite <-Ei|done]. }
    rewrite <-Ei, Hk in Hl. by destruct Hl.
  - by rewrite next_ready in Hb.
Qed.

Lemma dispatch_ready t : t ∈ tail (ready_list s) <->
  t ∈ all_list s /\ status_of (dispatch s) t = THREAD_READY /\ t <> idle_thread s.
Proof using H Hnext.
  rewrite dispatch_status. pose proof (si_ready_nodup _ _ H) as Hnd. pose proof (si_ready _ _ H t) as Hr.
  unfold next_of in *. destruct (ready_list s) as [|x r] eqn:E; simpl.
  - case_decide; split; naive_solver.
  - apply NoDup_cons in Hnd as [Hx _]. rewrite elem_of_cons in Hr. case_decide as Hd.
    + subst x. split; [by intros ?|]. by intros (_ & ? & _).
    + rewrite <-Hr. split; [by right|]. intros [->|]; done.
Qed.

Lemma dispatch_embryo t : embryo s t -> embryo (dispatch s) t.
Proof using H Hnext.
  intros He. assert (next_of s <> t) by (intros <-; by apply next_not_embryo).
  destruct He as (? & ? & ?). split_and!; [done| |by rewrite dispatch_stack].
  by rewrite dispatch_status, decide_False.
Qed.

Lemma dispatch_inv : sched_inv (Some (current (dispatch s))) (dispatch s).
Proof using H Hnext.
  split; intros *; rewrite ?dispatch_magic, ?dispatch_stack.
  - apply (si_nodup _ _ H).
  - apply (si_thread _ _ H).
  - exact Hnext.
  - intros Ha. rewrite dispatch_status. change (current (dispatch s)) with (next_of s).
    case_decide as Hd; [by subst|]. split; [|congruence]. by intros E%(si_run _ _ H).
  - intros Ha. rewrite dispatch_status. case_decide; [done|by apply (si_alive _ _ H)].
  - change (NoDup (tail (ready_list s))). pose proof (si_ready_nodup _ _ H) as Hn.
    destruct (ready_list s); [done|]. by apply NoDup_cons in Hn as [_ ?].
  - apply dispatch_ready.
  - apply (si_wait_nodup _ _ H).
  - change (sema (dispatch s)) with (sema s). rewrite (si_wait _ _ H), dispatch_status.
    case_decide as Hd; [|done]. subst t. split; [|by intros (_ & ? & _)].
    intros (_ & Hb & Hh). by destruct (next_not_waiting _ Hh).
  - apply (si_idle _ _ H).
  - intros Ha _. unfold zombie. rewrite dispatch_stack, dispatch_status.
    case_decide as Hd; [subst t; left; apply next_stack_ok|]. by apply (si_stack _ _ H).
  - intros Ha _. by apply (si_idle_stack _ _ H).
  - intros Ha _ Hf Hc. apply dispatch_embryo. by eapply (si_creating _ _ H).
  - intros Hu _ Hv _. by apply (si_creating_inj _ _ H).
Qed.

Lemma dispatch_cur_ok : cur_ok (dispatch s) (current (dispatch s)) (stack_of (dispatch s) (current (dispatch s))).
Proof using H Hnext.
  rewrite dispatch_stack. change (current (dispatch s)) with (next_of s). split.
  - apply next_stack_ok.
  - intros E. change (idle_thread (dispatch s)) with (idle_thread s) in E. rewrite E.
    apply (si_idle_stack _ _ H); [by rewrite <-E|done].
  - intros f x Hf Hc. apply dispatch_embryo. by eapply (si_creating _ _ H).
  - intros u f g x Hu Hn Hf. rewrite dispatch_stack. intros Hg Cf Cg. apply Hn.
    by apply (si_creating_inj _ _ H u (next_of s) g f x).
Qed.
End Dispatch.

(** ** The operations *)

(** The invariant between two pieces of code. *)
Definition sound (s : kstate) : Prop :=
  sched_inv (Some (current s)) s /\ cur_ok s (current s) (stack_of s (current s)).

Lemma schedule_sound s a s' :
  sched_inv None s -> schedule s = Ok (a, s') -> s' = dispatch s /\ sound s'.
Proof.
  intros Hi H. apply schedule_inv in H as (-> & Ht & _).
  - pose proof (next_live _ Hi Ht) as Hn. split; [done|]. split; [by apply dispatch_inv|by apply dispatch_cur_ok].
  - apply (si_alive _ _ Hi), (si_current _ _ Hi).
Qed.

(** The running thread with another state. *)
Definition restate (st : thread_status) (s : kstate) : kstate :=
  set_threads (<[current s := with_status st (threads s (current s))]> (threads s)) s.

Lemma thread_block_inv s a s' :
  thread_block s = Ok (a, s') ->
  intr_on s = false /\ in_external_intr s = false /\
  status_of s (current s) = THREAD_RUNNING /\ schedule (restate THREAD_BLOCKED s) = Ok (a, s').
Proof. unfold thread_block. intros H. kinv H. apply negb_true_iff in Hb, Hb0.
  split_and!; [done|done|apply Hc|done].
Qed.

Lemma restate_status st s t :
  status_of (restate st s) t = if decide (current s = t) then st else status_of s t.
Proof. unfold restate. cbn. rewrite fn_at. by case_decide; subst. Qed.
Lemma restate_stack st s t : stack_of (restate st s) t = stack_of s t.
Proof. unfold restate. cbn. rewrite fn_at. by case_decide; subst. Qed.
Lemma restate_magic st s t : magic (threads (restate st s) t) = magic (threads s t).
Proof. unfold restate. cbn. rewrite fn_at. by case_decide; subst. Qed.

(** Blocking without joining a queue. *)
Lemma block_sound s a s' :
  sched_inv (Some (current s)) s ->
  (forall r, head (stack_of s (current s)) <> Some (KSemaDown r)) ->
  (cur_ok s (current s) (stack_of s (current s)) \/
   (current s <> idle_thread s /\ exists lv, stack_of s (current s) = [KIntrSet lv; KThreadExit])) ->
  thread_block s = Ok (a, s') -> sound s' /\ s' = dispatch (restate THREAD_BLOCKED s).
Proof.
  intros Hi Hh Hc H. apply thread_block_inv in H as (_ & _ & _ & H).
  eapply schedule_sound in H; [naive_solver|].
  apply (stop_inv s _ (stack_of s (current s)) THREAD_BLOCKED); [done| |by right| | | |].
  - split; try done.
    + intros t. apply restate_magic.
    + intros t Ht. by rewrite restate_status, restate_stack, decide_False.
    + by rewrite restate_status, decide_True.
    + by rewrite restate_stack.
    + apply (si_ready_nodup _ _ Hi).
    + naive_solver.
    + apply (si_wait_nodup _ _ Hi).
    + naive_solver.
  - destruct Hc as [Hc|[_ Hz]]; [left; apply (co_stack _ _ _ Hc)|by right].
  - destruct Hc as [Hc|[Hn _]]; [apply (co_idle _ _ _ Hc)|done].
  - destruct Hc as [Hc|[_ (lv & ->)]]; [apply (co_creating _ _ _ Hc)|].
    intros f x [->|[->|[]%not_elem_of_nil]%elem_of_cons]%elem_of_cons; simpl; done.
  - destruct Hc as [Hc|[_ (lv & ->)]]; [apply (co_creating_inj _ _ _ Hc)|].
    intros u f g x _ _ [->|[->|[]%not_elem_of_nil]%elem_of_cons]%elem_of_cons; simpl; done.
Qed.

(** *** Stacks of the running thread *)

Lemma stack_ok_tail t f rest : f <> KProcessExit -> stack_ok t (f :: rest) -> stack_ok t rest.
Proof. destruct f; simpl; naive_solver. Qed.

Lemma stack_ok_head t f rest : stack_ok t (f :: rest) -> frame_ok t f rest.
Proof. destruct f; simpl; naive_solver. Qed.

Lemma stack_ok_cons t f rest :
  f <> KThreadExit -> frame_ok t f rest -> stack_ok t rest -> stack_ok t (f :: rest).
Proof. destruct f; simpl; naive_solver. Qed.

Lemma idle_stack_tail f rest :
  f <> KIdle -> f <> KIdleWait -> idle_stack (f :: rest) -> idle_stack rest.
Proof.
  intros H1 H2 [Hf Hl]. apply Forall_cons in Hf as [_ Hf]. split; [done|].
  destruct rest; [|done]. by destruct Hl as [[= ->]|[= ->]].
Qed.

Lemma idle_stack_cons f rest : idle_frame f = true -> idle_stack rest -> idle_stack (f :: rest).
Proof.
  intros H1 [Hf Hl]. split; [by constructor|]. destruct rest; [by destruct Hl|done].
Qed.

Lemma idle_stack_head f rest : idle_stack (f :: rest) -> idle_frame f = true.
Proof. intros [[Hf _]%Forall_cons _]. done. Qed.

(** A frame is replaced by others that create no other thread. *)
Lemma cur_ok_replace s t f fs rest :
  cur_ok s t (f :: rest) -> stack_ok t (fs ++ rest) ->
  (t = idle_thread s -> idle_stack (fs ++ rest)) ->
  (forall g x, g ∈ fs -> creating g = Some x -> creating f = Some x) ->
  cur_ok s t (fs ++ rest).
Proof.
  intros C Hs Hi Hn. split; [done|done| |].
  - intros g x [Hg|Hg]%elem_of_app Hc.
    + eapply (co_creating _ _ _ C f); [by left|by eapply Hn].
    + eapply (co_creating _ _ _ C g); [by right|done].
  - intros u g h x Hu Ht [Hg|Hg]%elem_of_app Hh Hc.
    + eapply (co_creating_inj _ _ _ C u f h); eauto. by left.
    + eapply (co_creating_inj _ _ _ C u g h); eauto. by right.
Qed.

Lemma cur_ok_pop s t f rest :
  f <> KProcessExit -> f <> KIdle -> f <> KIdleWait -> cur_ok s t (f :: rest) -> cur_ok s t rest.
Proof.
  intros H1 H2 H3 C. apply (cur_ok_replace s t f [] rest C).
  - by apply (stack_ok_tail t f), C.
  - intros E. by apply (idle_stack_tail f), (co_idle _ _ _ C).
  - intros g x []%not_elem_of_nil.
Qed.

(** Frames that fit on every stack. *)
Definition light (f : frame) : bool :=
  match f with KIntrSet _ | KIret | KCheckPriority | KSemaUpCall (CondSema _) => true | _ => false end.

Lemma cur_ok_light s t f st : light f = true -> cur_ok s t st -> cur_ok s t (f :: st).
Proof.
  intros Hl C.
  assert (Hf : f <> KThreadExit /\ creating f = None /\ idle_frame f = true /\ frame_ok t f st)
    by (destruct f as [| | | | | |[]| | | | | | | | | | | | | | | | | |]; done).
  destruct Hf as (H1 & H2 & H3 & H4). split.
  - apply stack_ok_cons; [done|done|apply C].
  - intros E. by apply idle_stack_cons, (co_idle _ _ _ C).
  - intros g x [->|Hg]%elem_of_cons Hc; [congruence|by eapply (co_creating _ _ _ C)].
  - intros u g h x Hu Ht [->|Hg]%elem_of_cons Hh Hc; [congruence|by eapply (co_creating_inj _ _ _ C)].
Qed.

(** *** Yielding *)

Definition ready_with (t : Z) (s : kstate) : kstate :=
  set_ready_list (insert_ordered (comparePriority elem s) t (ready_list s)) s.

(** The state of the running thread when it gives up the processor in
    [thread_yield]. *)
Definition yielded (s : kstate) : kstate :=
  let s1 := set_intr_on false s in
  let s2 := if current s =? idle_thread s then s1 else ready_with (current s) s1 in
  pushed [KIntrSet (intr_on s)] (restate THREAD_READY s2).

Lemma thread_yield_inv s a s' :
  thread_yield s = Ok (a, s') ->
  in_external_intr s = false /\ status_of s (current s) = THREAD_RUNNING /\
  schedule (yielded s) = Ok (a, s').
Proof.
  unfold thread_yield, yielded. intros H. kinv H. apply negb_true_iff in Hb. split_and!; [done|apply Hc|].
  cbn [idle_thread set_intr_on] in Ha. destruct (current s =? idle_thread s); cbn [negb] in Ha.
  - by kinv Ha.
  - unfold ready_insert in Ha. by kinv Ha.
Qed.

Lemma yielded_stops s :
  sched_inv (Some (current s)) s ->
  stops (KIntrSet (intr_on s) :: stack_of s (current s)) THREAD_READY s (yielded s).
Proof.
  intros Hi. pose proof (run_status _ Hi) as Hrun. unfold yielded, pushed, restate, ready_with.
  assert (Hnr : current s ∉ ready_list s).
  { intros (_ & E & _)%(si_ready _ _ Hi). congruence. }
  destruct (Z.eqb_spec (current s) (idle_thread s)) as [E|E]; split; try done; intros *;
    cbn; rewrite ?fn_at; try (by case_decide; subst; rewrite ?fn_at, ?decide_True by done).
  all: try apply (si_ready_nodup _ _ Hi); try apply (si_wait_nodup _ _ Hi).
  all: try naive_solver.
  - rewrite insert_ordered_perm. by apply NoDup_cons; split; [|apply (si_ready_nodup _ _ Hi)].
  - rewrite insert_ordered_perm, elem_of_cons. naive_solver.
Qed.

Lemma thread_yield_sound s a s' : sound s -> thread_yield s = Ok (a, s') -> sound s'.
Proof.
  intros [Hi C] H. apply thread_yield_inv in H as (_ & _ & H).
  apply (cur_ok_light _ _ (KIntrSet (intr_on s))) in C; [|done].
  eapply schedule_sound in H; [by destruct H|].
  apply (stop_inv s _ _ THREAD_READY Hi (yielded_stops s Hi)); [by left|left; apply C|apply C..].
Qed.

(** *** Waiting for a semaphore *)

Definition queued (r : sema_ref) (s : kstate) : kstate :=
  set_sema (<[r := Semaphore (value (sema s r))
                     (insert_ordered (comparePriority elem s) (current s) (waiters (sema s r)))]> (sema s)) s.

Lemma sema_down_loop_inv r s a s' :
  sema_down_loop r s = Ok (a, s') ->
  (value (sema s r) = 0 /\ thread_block (pushed [KSemaDown r] (queued r s)) = Ok (a, s')) \/
  (value (sema s r) <> 0 /\
   s' = set_sema (<[r := Semaphore (u32 (value (sema s r) - 1)) (waiters (sema s r))]> (sema s)) s).
Proof.
  unfold sema_down_loop. intros H. apply bind_inv in H as (? & ? & [-> ->]%get_inv & H).
  destruct (Z.eqb_spec (value (sema s r)) 0) as [E|E].
  - left. split; [done|]. by kinv H.
  - right. split; [done|]. by kinv H.
Qed.

Lemma queued_stops r s :
  sched_inv (Some (current s)) s ->
  stops (KSemaDown r :: stack_of s (current s)) THREAD_BLOCKED s
    (restate THREAD_BLOCKED (pushed [KSemaDown r] (queued r s))).
Proof.
  intros Hi. pose proof (run_status _ Hi) as Hrun. unfold pushed, restate, queued.
  assert (Hnw : current s ∉ waiters (sema s r)).
  { intros (_ & E & _)%(si_wait _ _ Hi). congruence. }
  split; try done; intros *; cbn; rewrite ?fn_at;
    try (by case_decide; subst; rewrite ?fn_at, ?decide_True by done).
  - apply (si_ready_nodup _ _ Hi).
  - naive_solver.
  - case_decide; [subst|apply (si_wait_nodup _ _ Hi)]. simpl. rewrite insert_ordered_perm.
    by apply NoDup_cons; split; [|apply (si_wait_nodup _ _ Hi)].
  - case_decide; [subst|naive_solver]. simpl. rewrite insert_ordered_perm, elem_of_cons. naive_solver.
Qed.

Lemma sema_down_loop_sound r s a s' :
  sched_inv (Some (current s)) s -> cur_ok s (current s) (KSemaDown r :: stack_of s (current s)) ->
  sema_down_loop r s = Ok (a, s') -> sound s'.
Proof.
  intros Hi C H. apply sema_down_loop_inv in H as [[_ H]|[_ ->]].
  - apply thread_block_inv in H as (_ & _ & _ & H). eapply schedule_sound in H; [by destruct H|].
    apply (stop_inv s _ _ THREAD_BLOCKED Hi (queued_stops r s Hi)); [by right|left; apply C|apply C..].
  - assert (Q : quiet [] s (set_sema (<[r := Semaphore (u32 (value (sema s r) - 1))
                                               (waiters (sema s r))]> (sema s)) s)) by by apply quiet_sema.
    destruct Q as [Q Qo]. split; [by apply (sched_inv_quiet s)|].
    apply (cur_ok_quiet s); [done|done|]. cbn [set_sema current threads].
    by apply (cur_ok_pop _ _ (KSemaDown r)).
Qed.

(** *** Waking the first waiter *)

Definition readied (t : Z) (s : kstate) : kstate :=
  let s1 := ready_with t s in
  set_threads (<[t := with_status THREAD_READY (threads s t)]> (threads s)) s1.

Definition with_waiters (r : sema_ref) (ws : list Z) (s : kstate) : kstate :=
  set_sema (<[r := Semaphore (value (sema s r)) ws]> (sema s)) s.

Definition incremented (r : sema_ref) (s : kstate) : kstate :=
  set_sema (<[r := Semaphore (u32 (value (sema s r) + 1)) (waiters (sema s r))]> (sema s)) s.

(** The state after the protected part of [sema_up]. *)
Definition upped (r : sema_ref) (s : kstate) : kstate :=
  incremented r
    match sort_ordered (comparePriority elem s) (waiters (sema s r)) with
    | [] => s
    | t :: rest => readied t (with_waiters r rest s)
    end.

Lemma thread_unblock_inv t s a s' :
  thread_unblock t s = Ok (a, s') ->
  is_thread s t = true /\ status_of s t = THREAD_BLOCKED /\ s' = readied t s.
Proof.
  unfold thread_unblock, ready_insert. intros H. kinv H. case_bool_decide; [|done].
  split_and!; [done..|]. by destruct s.
Qed.

(** Disabling interrupts around a change and restoring the level. *)
Lemma level_restored (f : kstate -> kstate) s :
  (forall b x, f (set_intr_on b x) = set_intr_on b (f x)) -> intr_on (f s) = intr_on s ->
  set_intr_on (intr_on s) (f (set_intr_on false s)) = f s.
Proof. intros H E. rewrite H, <-E. by destruct (f s). Qed.

Lemma upped_level r b s : upped r (set_intr_on b s) = set_intr_on b (upped r s).
Proof.
  unfold upped. change (comparePriority elem (set_intr_on b s)) with (comparePriority elem s).
  change (sema (set_intr_on b s)) with (sema s). by destruct (sort_ordered _ _).
Qed.

Lemma upped_fields r s :
  intr_on (upped r s) = intr_on s /\ in_external_intr (upped r s) = in_external_intr s.
Proof. unfold upped. by destruct (sort_ordered _ _). Qed.

Lemma sema_up_inv r s a s' :
  sema_up r s = Ok (a, s') ->
  s' = (if in_external_intr s then upped r s else pushed [KCheckPriority] (upped r s)).
Proof.
  unfold sema_up. intros H. kinv H. rename Ha into Hm.
  assert (Hs : incremented r s0 = upped r (set_intr_on false s)).
  { unfold upped. destruct (sort_ordered _ _) as [|t rest]; [by kinv Hm|].
    kinv Hm. by apply thread_unblock_inv in Hm as (_ & _ & ->). }
  fold (incremented r s0) in H. rewrite Hs in H.
  rewrite (level_restored (upped r)) in H by (intros; apply upped_level || apply upped_fields).
  replace (in_external_intr (upped r s)) with (in_external_intr s) in H by by rewrite (proj2 (upped_fields r s)).
  destruct (in_external_intr s); simpl in H; by kinv H.
Qed.

Lemma sort_ordered_first less xs t rest :
  sort_ordered less xs = t :: rest -> xs ≡ₚ t :: rest.
Proof. intros E. by rewrite <-E, sort_ordered_perm. Qed.

(** A blocked thread [t] becomes ready. *)
Record wakes (t : Z) (s s' : kstate) : Prop := {
  wk_all : all_list s' = all_list s;
  wk_current : current s' = current s;
  wk_idle : idle_thread s' = idle_thread s;
  wk_magic u : magic (threads s' u) = magic (threads s u);
  wk_status u : status_of s' u = if decide (t = u) then THREAD_READY else status_of s u;
  wk_stack u : stack_of s' u = stack_of s u;
  wk_ready_nodup : NoDup (ready_list s');
  wk_ready u : u ∈ ready_list s' <-> u ∈ ready_list s \/ u = t;
  wk_wait_nodup r : NoDup (waiters (sema s' r));
  wk_wait u r : u ∈ waiters (sema s' r) <-> u ∈ waiters (sema s r) /\ u <> t
}.

Section Wake.
Context (t c : Z) (s s' : kstate).
Hypotheses (H : sched_inv (Some c) s) (W : wakes t s s') (Ht : t ∈ all_list s)
  (Hb : status_of s t = THREAD_BLOCKED) (Hne : stack_of s t <> []) (Hni : t <> idle_thread s)
  (Hnz : ~ zombie s t).

Lemma wake_embryo u : embryo s u -> embryo s' u.
Proof using All.
  intros (Ha & Hs & Hk). unfold embryo.
  rewrite (wk_all _ _ _ W), (wk_status _ _ _ W), (wk_stack _ _ _ W). by case_decide; [subst|].
Qed.

Lemma wake_inv : sched_inv (Some c) s'.
Proof using All.
  pose proof wake_embryo as Hemb. destruct W as [Ea Ec Ei Em Es Ek Hrn Hr Hwn Hw].
  assert (Hct : Some c <> Some t).
  { intros [= ->]. by pose proof (proj2 (si_run _ _ H t Ht) eq_refl) as E; rewrite Hb in E. }
  split; rewrite ?Ea, ?Ec, ?Ei; try done; intros *; rewrite ?Ek, ?(is_thread_view s s') by done.
  - apply (si_nodup _ _ H).
  - apply (si_thread _ _ H).
  - apply (si_current _ _ H).
  - intros Ha. rewrite Es. case_decide as E; [subst; split; [done|by intros ?]|by apply (si_run _ _ H)].
  - intros Ha. rewrite Es. case_decide; [done|by apply (si_alive _ _ H)].
  - rewrite Hr, Es, (si_ready _ _ H). case_decide; naive_solver.
  - rewrite Hw, Es, (si_wait _ _ H). case_decide; naive_solver.
  - apply (si_idle _ _ H).
  - intros Ha Hn. unfold zombie. rewrite Ek, Es.
    destruct (si_stack _ _ H t0 Ha Hn) as [|Hz]; [by left|]. right.
    rewrite decide_False; [done|]. by intros <-.
  - apply (si_idle_stack _ _ H).
  - intros Hu Hn Hf Hc. apply Hemb. by eapply (si_creating _ _ H).
  - apply (si_creating_inj _ _ H).
Qed.

Lemma wake_cur_ok x st : cur_ok s x st -> cur_ok s' x st.
Proof using All.
  intros C. split.
  - apply C.
  - rewrite (wk_idle _ _ _ W). apply C.
  - intros. apply wake_embryo. by eapply (co_creating _ _ _ C).
  - intros u f g y. rewrite (wk_all _ _ _ W), (wk_stack _ _ _ W). apply C.
Qed.
End Wake.

Lemma readied_wakes t r rest s c :
  sched_inv (Some c) s -> waiters (sema s r) ≡ₚ t :: rest ->
  wakes t s (readied t (with_waiters r rest s)).
Proof.
  intros Hi Hp. pose proof (si_wait_nodup _ _ Hi r) as Hnd. rewrite Hp in Hnd.
  apply NoDup_cons in Hnd as [Hx Hnd].
  assert (Hin : forall u, u ∈ waiters (sema s r) <-> u = t \/ u ∈ rest) by (intros u; by rewrite Hp, elem_of_cons).
  pose proof (proj1 (si_wait _ _ Hi t r) (proj2 (Hin t) (or_introl eq_refl))) as (Ha & Hb & Hh).
  assert (Hnr : t ∉ ready_list s) by (intros (_ & E & _)%(si_ready _ _ Hi); congruence).
  unfold readied, ready_with, with_waiters. split; try done; intros *; cbn; rewrite ?fn_at;
    try (by case_decide; subst).
  - rewrite insert_ordered_perm. by apply NoDup_cons; split; [|apply (si_ready_nodup _ _ Hi)].
  - rewrite insert_ordered_perm, elem_of_cons. naive_solver.
  - case_decide; [done|apply (si_wait_nodup _ _ Hi)].
  - case_decide as E; [subst; simpl; rewrite Hin|].
    + split; [|naive_solver]. intros Hu. split; [by right|by intros ->].
    + split; [|naive_solver]. intros Hu. split; [done|]. intros ->.
      pose proof (proj1 (si_wait _ _ Hi t r0) Hu) as (_ & _ & Hh'). congruence.
Qed.

(** A waiting thread is neither idle nor gone. *)
Lemma waiting_facts t r s c :
  sched_inv (Some c) s -> t ∈ waiters (sema s r) ->
  t ∈ all_list s /\ status_of s t = THREAD_BLOCKED /\ stack_of s t <> [] /\ t <> idle_thread s /\ ~ zombie s t.
Proof.
  intros Hi Hw. pose proof (proj1 (si_wait _ _ Hi t r) Hw) as (Ha & Hb & Hh).
  assert (Hct : Some c <> Some t).
  { intros [= ->]. by pose proof (proj2 (si_run _ _ Hi t Ha) eq_refl) as E; rewrite Hb in E. }
  split_and!; [done|done| | |].
  - intros E. by rewrite E in Hh.
  - intros ->. destruct (si_idle_stack _ _ Hi Ha Hct) as [Hf _].
    destruct (stack_of s (idle_thread s)); [done|]. simpl in Hh. simplify_eq.
    by apply Forall_cons in Hf as [? _].
  - intros (_ & lv & E). by rewrite E in Hh.
Qed.

Lemma upped_sound r s st :
  sched_inv (Some (current s)) s -> cur_ok s (current s) st ->
  sched_inv (Some (current s)) (upped r s) /\ cur_ok (upped r s) (current s) st /\
  current (upped r s) = current s /\ stack_of (upped r s) (current s) = stack_of s (current s).
Proof.
  intros Hi C. unfold upped. destruct (sort_ordered _ _) as [|t rest] eqn:E.
  - assert (Q : quiet [] s (incremented r s)) by by apply quiet_sema. destruct Q as [Q Qo].
    split_and!; [exact (sched_inv_quiet s _ Hi Q)|exact (cur_ok_quiet s _ Hi Q _ C)|done|done].
  - apply sort_ordered_first in E. set (s1 := readied t (with_waiters r rest s)).
    pose proof (readied_wakes t r rest s _ Hi E) as W.
    destruct (waiting_facts t r s _ Hi) as (H1 & H2 & H3 & H4 & H5); [rewrite E; by left|].
    pose proof (wake_inv t _ s s1 Hi W H1 H2 H3 H4 H5) as Hi1.
    pose proof (wake_cur_ok t _ s s1 Hi W H1 H2 H3 H4 H5 _ _ C) as C1.
    assert (Q : quiet [] s1 (incremented r s1)) by by apply quiet_sema. destruct Q as [Q Qo].
    split_and!; [exact (sched_inv_quiet s1 _ Hi1 Q)|exact (cur_ok_quiet s1 _ Hi1 Q _ C1)|done|].
    change (current s) with (current s1) at 1. rewrite Qo. simpl. change (current s1) with (current s).
    apply (wk_stack _ _ _ W).
Qed.

(** [sema_up] from a thread whose stack is in order. *)
Lemma sema_up_sound r s a s' :
  sound s -> sema_up r s = Ok (a, s') -> sound s'.
Proof.
  intros [Hi C] H. apply sema_up_inv in H as ->.
  destruct (upped_sound r s _ Hi C) as (Hi1 & C1 & Ec & Ek).
  destruct (in_external_intr s).
  - unfold sound. by rewrite Ec, Ek.
  - destruct (quiet_pushed [KCheckPriority] (upped r s)) as [Q Qo].
    rewrite <-Ec in Hi1, C1. split; [by apply (sched_inv_quiet (upped r s))|].
    apply (cur_ok_quiet (upped r s)); [done..|]. change (current (pushed [KCheckPriority] (upped r s)))
      with (current (upped r s)). rewrite Qo, Ec, Ek. rewrite Ec in C1. by apply cur_ok_light.
Qed.
