(* ===== verification/ThreadStep.v ===== *)
(** * Every step keeps the scheduler invariant

    The synchronization primitives, locks, condition variables, thread
    creation, exit and the timer, one after the other, and the step relation of
    the kernel. *)

From stdpp Require Import functions.
From S2P Require Import Prelude ListModel ListOrder ListSpec ThreadModel ThreadInv ThreadSched.

(** ** Pushing frames *)

Lemma idle_stack_app fs st :
  Forall (fun f => idle_frame f = true) fs -> idle_stack st -> idle_stack (fs ++ st).
Proof. induction fs; simpl; [done|]. intros [? ?]%Forall_cons ?. apply idle_stack_cons; auto. Qed.

Lemma push_sound fs s s' :
  sound s -> quiet fs s s' -> stack_ok (current s) (fs ++ stack_of s (current s)) ->
  (current s = idle_thread s -> Forall (fun f => idle_frame f = true) fs) -> no_creating fs -> sound s'.
Proof.
  intros [Hi C] [Q Qo] Hs Hd Hn. split; [by apply (sched_inv_quiet s)|].
  apply (cur_ok_quiet s); [done..|]. rewrite (q_current _ _ Q), Qo. split; [done| | |].
  - intros E. by apply idle_stack_app; [apply Hd|apply (co_idle _ _ _ C)].
  - intros f x [Hf|Hf]%elem_of_app Hc; [|by eapply (co_creating _ _ _ C)].
    unfold no_creating in Hn. rewrite Forall_forall in Hn. rewrite (Hn f Hf) in Hc. done.
  - intros u f g x Hu Ht [Hf|Hf]%elem_of_app Hg Hc; [|by eapply (co_creating_inj _ _ _ C)].
    unfold no_creating in Hn. rewrite Forall_forall in Hn. rewrite (Hn f Hf) in Hc. done.
Qed.

(** Frames pushed by a thread that is not the idle thread. *)
Lemma push_sound_busy fs s s' :
  sound s -> current s <> idle_thread s -> quiet fs s s' ->
  stack_ok (current s) (fs ++ stack_of s (current s)) -> no_creating fs -> sound s'.
Proof. intros. by eapply push_sound. Qed.

Lemma quiet_sound s s' : sound s -> quiet [] s s' -> sound s'.
Proof.
  intros Hs Q. eapply (push_sound []); [done|done| |by constructor|by constructor].
  apply (proj2 Hs).
Qed.

(** ** Quiet functions *)

Lemma sema_down_quiet r s a s' :
  sema_down r s = Ok (a, s') -> quiet [KSemaDown r; KIntrSet (intr_on s)] s s'.
Proof. unfold sema_down. intros H. kinv H. quiet_go. Qed.

Lemma sema_try_down_quiet r s a s' : sema_try_down r s = Ok (a, s') -> quiet [] s s'.
Proof.
  unfold sema_try_down. intros H. kinv H. case_match; kinv Ha; quiet_go; done.
Qed.

Lemma thread_set_priority_quiet p s a s' :
  thread_set_priority p s = Ok (a, s') -> quiet [KCheckPriority; KIntrSet (intr_on s)] s s'.
Proof. unfold thread_set_priority. intros H. kinv H. quiet_go. Qed.

Lemma lock_held_inv l s b s' :
  lock_held_by_current_thread l s = Ok (b, s') ->
  s' = s /\ b = (holder s l =? current s) /\ status_of s (current s) = THREAD_RUNNING /\ l <> NULL.
Proof.
  unfold lock_held_by_current_thread. intros H. kinv H. apply negb_true_iff, Z.eqb_neq in Hb.
  split_and!; [done|done|apply Hc|done].
Qed.

Definition acquire_frames (l : Z) (s : kstate) : list frame :=
  (if negb (holder s l =? NULL) then [KTryLock l; KDonation; KDonorInsert l] else [])
  ++ [KSemaDownCall (LockSema l); KLockTaken l].

Lemma lock_acquire_inv l s a s' :
  lock_acquire l s = Ok (a, s') -> holder s l <> current s /\ s' = pushed (acquire_frames l s) s.
Proof.
  unfold lock_acquire. intros H. kinv H. apply lock_held_inv in Ha as (-> & -> & _).
  by apply negb_true_iff, Z.eqb_neq in Hb1.
Qed.

Lemma lock_try_acquire_quiet l s a s' : lock_try_acquire l s = Ok (a, s') -> quiet [] s s'.
Proof.
  unfold lock_try_acquire. intros H. kinv H. apply lock_held_inv in Ha as (-> & -> & _).
  apply sema_try_down_quiet in Ha0. eapply (quiet_trans [] []); [exact Ha0|].
  destruct a3; kinv Ha1; quiet_go.
Qed.

Lemma set_try_lock_quiet l s a s' : set_try_lock l s = Ok (a, s') -> quiet [] s s'.
Proof. unfold set_try_lock. intros H. kinv H. quiet_go. Qed.

Lemma donor_insert_quiet l s a s' : donor_insert l s = Ok (a, s') -> quiet [] s s'.
Proof. unfold donor_insert. intros H. kinv H. apply quiet_upd. benign_tac. Qed.

Lemma lock_taken_quiet l s a s' : lock_taken l s = Ok (a, s') -> quiet [] s s'.
Proof. unfold lock_taken. intros H. kinv H. quiet_go. Qed.

(** A turn of the donation raises one thread or ends the loop. *)
Lemma donation_turn_inv c l s r s' :
  donation_turn c l s = Ok (r, s') ->
  (r = None /\ s' = s) \/
  exists h, r = Some (h, try_lock (threads s h)) /\
    s' = set_threads (<[h := with_priority (priority (threads s c)) (threads s h)]> (threads s)) s.
Proof.
  unfold donation_turn. intros H. destruct (l =? NULL); [kinv H; by left|]. kinv H.
  destruct (_ =? NULL); [kinv H; by left|]. destruct (_ <? _); kinv H; [right|by left]. by eexists.
Qed.

Lemma donation_start_quiet s a s' :
  donation_start s = Ok (a, s') -> quiet [KDonate (current s) (try_lock (threads s (current s)))] s s'.
Proof. unfold donation_start. intros H. kinv H. quiet_go. Qed.

Lemma donation_step_quiet c l s a s' :
  donation_step c l s = Ok (a, s') -> quiet [] s s' \/ exists h m, quiet [KDonate h m] s s'.
Proof.
  unfold donation_step. intros H. kinv H. apply donation_turn_inv in Ha as [[-> ->]|(h & -> & ->)]; kinv H.
  - left. apply quiet_refl.
  - right. eexists _, _. eapply (quiet_trans [] [_]); [|apply quiet_pushed]. apply quiet_upd. benign_tac.
Qed.

Lemma donation_back_quiet l s a s' : donation_back l s = Ok (a, s') -> quiet [] s s'.
Proof. unfold donation_back. intros H. kinv H. apply quiet_upd. benign_tac. Qed.

Lemma priority_recheck_quiet s a s' : priority_recheck s = Ok (a, s') -> quiet [] s s'.
Proof. unfold priority_recheck. intros H. kinv H. case_match; kinv H; apply quiet_upd; benign_tac. Qed.

Lemma lock_release_quiet l s a s' :
  lock_release l s = Ok (a, s') ->
  holder s l = current s /\ quiet [KPriorityRecheck; KHolderClear l] s s'.
Proof.
  unfold lock_release. intros H. kinv H. apply lock_held_inv in Ha as (-> & Hh & _).
  split; [by apply Z.eqb_eq|]. apply donation_back_quiet in Ha0.
  by eapply (quiet_trans [] [_; _]); [exact Ha0|apply quiet_pushed].
Qed.

Lemma holder_clear_quiet l s a s' :
  holder_clear l s = Ok (a, s') -> quiet [KSemaUpCall (LockSema l)] s s'.
Proof. unfold holder_clear. intros H. kinv H. quiet_go. Qed.

Lemma cond_signal_quiet c l s a s' :
  cond_signal c l s = Ok (a, s') ->
  quiet [] s s' \/ exists w, quiet [KSemaUpCall (CondSema w)] s s'.
Proof.
  unfold cond_signal. intros H. kinv H. apply lock_held_inv in Ha as (-> & Hh & _).
  case_match; kinv H; [left; apply quiet_refl|]. right. eexists. quiet_go.
Qed.

Lemma cond_broadcast_quiet c l s a s' :
  cond_broadcast c l s = Ok (a, s') -> quiet [KBroadcast c l] s s'.
Proof. unfold cond_broadcast. intros H. kinv H. quiet_go. Qed.

Lemma cond_broadcast_loop_quiet c l s a s' :
  cond_broadcast_loop c l s = Ok (a, s') ->
  quiet [] s s' \/ quiet [KCondSignal c l; KBroadcast c l] s s'.
Proof.
  unfold cond_broadcast_loop. intros H. kinv H. case_match; kinv H; [left|right]; quiet_go.
Qed.

(** Nobody else waits for the semaphores inside the running thread. *)
Lemma own_semaphore_free s r :
  sched_inv (Some (current s)) s -> r = SleepSema (current s) \/ r = CondSema (current s) ->
  waiters (sema s r) = [].
Proof.
  intros Hi Hr. destruct (waiters (sema s r)) as [|x xs] eqn:E; [done|]. exfalso.
  assert (Hx : x ∈ waiters (sema s r)) by (rewrite E; by left).
  pose proof (proj1 (si_wait _ _ Hi _ _) Hx) as (Ha & Hb & Hh).
  assert (Hn : Some (current s) <> Some x).
  { intros [= <-]. rewrite (run_status _ Hi) in Hb. done. }
  destruct (si_stack _ _ Hi x Ha Hn) as [Hs|(_ & lv & Hz)]; [|by rewrite Hz in Hh].
  destruct (stack_of s x) as [|f rest]; [done|]. simpl in Hh. simplify_eq.
  apply stack_ok_head in Hs. destruct Hr as [->| ->]; simpl in Hs; congruence.
Qed.

Lemma cond_wait_quiet c l s a s' :
  sched_inv (Some (current s)) s -> cond_wait c l s = Ok (a, s') ->
  quiet [KLockRelease l; KSemaDownCall (CondSema (current s)); KLockAcquire l] s s'.
Proof.
  intros Hi. unfold cond_wait. intros H. kinv H. apply lock_held_inv in Ha as (-> & Hh & _).
  quiet_go. symmetry. exact (own_semaphore_free s _ Hi (or_intror eq_refl)).
Qed.

Lemma timer_sleep_quiet n s a s' :
  sched_inv (Some (current s)) s -> timer_sleep n s = Ok (a, s') ->
  quiet [KSemaDown (SleepSema (current s)); KIntrSet false; KIntrSet true] s s'.
Proof.
  intros Hi. unfold timer_sleep, sema_down. intros H. kinv H. rewrite Hb. cbn.
  quiet_go. symmetry. exact (own_semaphore_free s _ Hi (or_introl eq_refl)).
Qed.

(** ** Creating a thread *)

Record births (p : Z) (s s' : kstate) : Prop := {
  bi_all : all_list s' = all_list s ++ [p];
  bi_current : current s' = current s;
  bi_ready : ready_list s' = ready_list s;
  bi_idle : idle_thread s' = idle_thread s;
  bi_wait r : waiters (sema s' r) = waiters (sema s r);
  bi_thread u : u <> p -> tview s' u = tview s u;
  bi_new : tview s' p = (THREAD_BLOCKED, [], THREAD_MAGIC)
}.

(** What [palloc_get_page] promises: a page that holds no thread and in which
    nobody waits. *)
Definition fresh_page (s : kstate) (p : Z) : Prop :=
  (p ∉ all_list s) /\ waiters (sema s (WaitSema p)) = [] /\ waiters (sema s (LoadSema p)) = [] /\
  waiters (sema s (SleepSema p)) = [].

Lemma init_thread_births p nm prio s a s' :
  fresh_page s p -> init_thread p nm prio s = Ok (a, s') -> births p s s' /\ p <> NULL.
Proof.
  intros (_ & H1 & H2 & H3). unfold init_thread. intros H. kinv H.
  split; [|done]. split; try done.
  - intros r. cbn. rewrite !fn_at. repeat (case_decide; subst; simpl; [done|]). done.
  - intros u Hu. unfold tview. cbn. by rewrite fn_at, decide_False.
  - unfold tview. cbn. by rewrite fn_at, decide_True.
Qed.

Section Birth.
Context (p : Z) (s s' : kstate).
Hypotheses (H : sched_inv (Some (current s)) s) (B : births p s s') (Hp : p ∉ all_list s) (Hp0 : p <> NULL).

Lemma birth_old u : u ∈ all_list s -> status_of s' u = status_of s u /\ stack_of s' u = stack_of s u /\
  is_thread s' u = is_thread s u.
Proof using All.
  intros Hu. assert (Hn : u <> p) by by intros ->.
  destruct (tview_eq _ _ _ (bi_thread _ _ _ B u Hn)) as (H1 & H2 & H3).
  split_and!; [done..|by apply is_thread_view].
Qed.

Lemma birth_new : status_of s' p = THREAD_BLOCKED /\ stack_of s' p = [] /\ is_thread s' p = true.
Proof using All.
  pose proof (bi_new _ _ _ B) as E. unfold tview in E. injection E as E1 E2 E3.
  split_and!; [done..|]. unfold is_thread. rewrite E3. destruct (Z.eqb_spec p NULL); done.
Qed.

Lemma birth_all u : u ∈ all_list s' <-> u ∈ all_list s \/ u = p.
Proof using All. rewrite (bi_all _ _ _ B), elem_of_app, list_elem_of_singleton. done. Qed.

Lemma birth_embryo u : embryo s u -> embryo s' u.
Proof using All.
  intros (Ha & Hb & Hk). destruct (birth_old u Ha) as (H1 & H2 & _).
  split_and!; [apply birth_all; by left|congruence..].
Qed.

Lemma birth_creating u f : u ∈ all_list s' -> f ∈ stack_of s' u -> u ∈ all_list s /\ f ∈ stack_of s u.
Proof using All.
  intros [Hu| ->]%birth_all Hf.
  - destruct (birth_old u Hu) as (_ & E & _). by rewrite E in Hf.
  - destruct birth_new as (_ & E & _). rewrite E in Hf. by apply not_elem_of_nil in Hf.
Qed.

Lemma birth_inv : sched_inv (Some (current s')) s'.
Proof using All.
  destruct birth_new as (N1 & N2 & N3). rewrite (bi_current _ _ _ B).
  assert (Hc : current s <> p) by (intros E; apply Hp; rewrite <-E; apply (si_current _ _ H)).
  assert (Hidle : idle_thread s <> p) by (intros E; destruct (si_idle _ _ H); congruence).
  split; rewrite ?(bi_ready _ _ _ B), ?(bi_current _ _ _ B), ?(bi_idle _ _ _ B).
  - rewrite (bi_all _ _ _ B), NoDup_app. split_and!; [apply (si_nodup _ _ H)| |apply NoDup_singleton].
    by intros x Hx ->%list_elem_of_singleton.
  - intros t [Ht| ->]%birth_all; [|done]. destruct (birth_old t Ht) as (_ & _ & ->). by apply (si_thread _ _ H).
  - apply birth_all. left. apply (si_current _ _ H).
  - intros t [Ht| ->]%birth_all; [|rewrite N1; split; [done|congruence]].
    destruct (birth_old t Ht) as (-> & _). by apply (si_run _ _ H).
  - intros t [Ht| ->]%birth_all; [|by rewrite N1]. destruct (birth_old t Ht) as (-> & _). by apply (si_alive _ _ H).
  - apply (si_ready_nodup _ _ H).
  - intros t. rewrite (si_ready _ _ H), birth_all. split.
    + intros (Ht & Hs & Hi). destruct (birth_old t Ht) as (-> & _). auto.
    + intros ([Ht| ->] & Hs & Hi); [|congruence]. destruct (birth_old t Ht) as (E & _). rewrite E in Hs. auto.
  - intros r. rewrite (bi_wait _ _ _ B). apply (si_wait_nodup _ _ H).
  - intros t r. rewrite (bi_wait _ _ _ B), (si_wait _ _ H), birth_all. split.
    + intros (Ht & Hs & Hh). destruct (birth_old t Ht) as (-> & -> & _). auto.
    + intros ([Ht| ->] & Hs & Hh); [|by rewrite N2 in Hh].
      destruct (birth_old t Ht) as (E1 & E2 & _). rewrite E1 in Hs. rewrite E2 in Hh. auto.
  - rewrite birth_all. destruct (si_idle _ _ H); auto.
  - intros t [Ht| ->]%birth_all Hn; [|left; by rewrite N2]. unfold zombie.
    destruct (birth_old t Ht) as (-> & -> & _). by apply (si_stack _ _ H).
  - intros [Ht|E]%birth_all Hn; [|done]. destruct (birth_old _ Ht) as (_ & -> & _). by apply (si_idle_stack _ _ H).
  - intros u f t Hu Hn Hf Hcr. destruct (birth_creating u f Hu Hf). apply birth_embryo. by eapply (si_creating _ _ H).
  - intros u v f g t Hu Hun Hv Hvn Hf Hg. destruct (birth_creating u f Hu Hf), (birth_creating v g Hv Hg).
    by apply (si_creating_inj _ _ H u v f g t).
Qed.

(** The new thread may be named on top of a stack that creates no other. *)
Lemma birth_cur_ok st fs :
  cur_ok s (current s) st -> stack_ok (current s) (fs ++ st) -> current s <> idle_thread s ->
  Forall (fun f => creating f = None \/ creating f = Some p) fs -> cur_ok s' (current s') (fs ++ st).
Proof using All.
  intros C Hs Hn Hf. rewrite Forall_forall in Hf. rewrite (bi_current _ _ _ B).
  split; [done|by rewrite (bi_idle _ _ _ B)| |].
  - intros f x [Hin|Hin]%elem_of_app Hc; [|apply birth_embryo; by eapply (co_creating _ _ _ C)].
    destruct (Hf f Hin) as [E|E]; rewrite E in Hc; [done|]. injection Hc as <-.
    destruct birth_new as (N1 & N2 & _). split_and!; [apply birth_all; by right|done|done].
  - intros u f g x Hu Hne Hin Hg Hc Hcg. destruct (birth_creating u g Hu Hg) as [Hu' Hg'].
    apply elem_of_app in Hin as [Hin|Hin]; [|by eapply (co_creating_inj _ _ _ C u f g x)].
    destruct (Hf f Hin) as [E|E]; rewrite E in Hc; [done|]. injection Hc as <-.
    apply Hp. eapply (si_creating _ _ H u g p Hu'); [congruence|done|done].
Qed.
End Birth.

Lemma thread_create_sound nm prio fn p c d s a s' :
  sound s -> stack_of s (current s) = [] -> (p = NULL \/ fresh_page s p) ->
  thread_create nm prio fn p c d s = Ok (a, s') -> sound s'.
Proof.
  intros [Hi C] Hk Hp. unfold thread_create. intros H. kinv H. case_match eqn:E; kinv H; [done|].
  apply Z.eqb_neq in E. destruct Hp as [?|Hp]; [done|].
  apply init_thread_births in Ha as [B Hp0]; [|done].
  pose proof (birth_inv p s s0 Hi B (proj1 Hp) Hp0) as Hi0.
  assert (Hidle : current s <> idle_thread s).
  { intros Ei. destruct (co_idle _ _ _ C Ei) as [_ Hl]. rewrite Hk in Hl. by destruct Hl. }
  assert (C0 : cur_ok s0 (current s0) ([KLockAcquire tid_lock; KAllocTid p prio c d] ++ stack_of s (current s))).
  { apply (birth_cur_ok p s s0 Hi B (proj1 Hp) Hp0); [done| |done|].
    - rewrite Hk. simpl. split_and!; done || constructor.
    - constructor; [by left|]. constructor; [by right|constructor]. }
  assert (Hk0 : stack_of s0 (current s0) = []).
  { rewrite (bi_current _ _ _ B), <-Hk. apply (birth_old p s s0 Hi B (proj1 Hp) Hp0), (si_current _ _ Hi). }
  destruct (quiet_pushed [KLockAcquire tid_lock; KAllocTid p prio c d] s0) as [Q Qo].
  split; [by apply (sched_inv_quiet s0)|]. apply (cur_ok_quiet s0); [done..|].
  change (current (pushed _ s0)) with (current s0). rewrite Qo, Hk0. by rewrite Hk in C0.
Qed.

Lemma allocate_tid_sound t prio c d s a s' :
  sched_inv (Some (current s)) s ->
  cur_ok s (current s) (KAllocTid t prio c d :: stack_of s (current s)) ->
  allocate_tid t prio c d s = Ok (a, s') -> sound s'.
Proof.
  intros Hi C. unfold allocate_tid. intros H. kinv H.
  set (fs := [KLockRelease tid_lock; KCreate t (next_tid s) prio c d]).
  assert (Q : quiet fs s (pushed fs (set_next_tid (s32 (next_tid s + 1)) s))) by quiet_go.
  destruct Q as [Q Qo]. split; [by apply (sched_inv_quiet s)|]. apply (cur_ok_quiet s); [done..|].
  change (current (pushed _ _)) with (current s). rewrite Qo.
  pose proof (stack_ok_head _ _ _ (co_stack _ _ _ C)) as [Hr Hn].
  apply (cur_ok_replace _ _ _ _ _ C).
  - apply stack_ok_cons; [done|by constructor|]. apply stack_ok_cons; [done|done|].
    apply (stack_ok_tail _ (KAllocTid t prio c d)); [done|apply C].
  - intros E. by pose proof (idle_stack_head _ _ (co_idle _ _ _ C E)).
  - unfold fs. intros g x [->|[->|[]%not_elem_of_nil]%elem_of_cons]%elem_of_cons; simpl; congruence.
Qed.

(** The thread [t] gets the stack it starts on. *)
Record hatches (t : Z) (s s' : kstate) : Prop := {
  ha_all : all_list s' = all_list s;
  ha_current : current s' = current s;
  ha_ready : ready_list s' = ready_list s;
  ha_idle : idle_thread s' = idle_thread s;
  ha_wait r : waiters (sema s' r) = waiters (sema s r);
  ha_status u : status_of s' u = status_of s u;
  ha_magic u : magic (threads s' u) = magic (threads s u);
  ha_stack u : stack_of s' u = if decide (t = u) then [KKernelThread] else stack_of s u
}.

Section Hatch.
Context (t c : Z) (s s' : kstate).
Hypotheses (H : sched_inv (Some c) s) (W : hatches t s s') (Hc : c <> t) (He : embryo s t)
  (Hno : forall u g, u ∈ all_list s -> u <> c -> g ∈ stack_of s u -> creating g <> Some t).

Lemma hatch_not_idle : t <> idle_thread s.
Proof using All.
  intros E. destruct He as (Ha & _ & Hk). rewrite E in Ha, Hk.
  destruct (si_idle_stack _ _ H Ha) as [_ Hl]; [congruence|]. rewrite Hk in Hl. by destruct Hl.
Qed.

Lemma hatch_embryo u : embryo s u -> u <> t -> embryo s' u.
Proof using All.
  intros (Ha & Hs & Hk) Hn. unfold embryo.
  by rewrite (ha_all _ _ _ W), (ha_status _ _ _ W), (ha_stack _ _ _ W), decide_False.
Qed.

Lemma hatch_creating u f x : f ∈ stack_of s' u -> creating f = Some x -> f ∈ stack_of s u.
Proof using All.
  rewrite (ha_stack _ _ _ W). case_decide; [|done]. intros ->%list_elem_of_singleton. done.
Qed.

Lemma hatch_inv : sched_inv (Some c) s'.
Proof using All.
  pose proof hatch_embryo as Hemb. pose proof hatch_creating as Hcr. pose proof hatch_not_idle as Hni.
  destruct He as (Hta & Htb & Htk). destruct W as [Ea Ec Er Ei Ew Es Em Ek].
  split; rewrite ?Ea, ?Ec, ?Ei, ?Er; intros *; rewrite ?Ew, ?Es, ?(is_thread_view s s') by done.
  - apply (si_nodup _ _ H).
  - apply (si_thread _ _ H).
  - apply (si_current _ _ H).
  - apply (si_run _ _ H).
  - apply (si_alive _ _ H).
  - apply (si_ready_nodup _ _ H).
  - apply (si_ready _ _ H).
  - apply (si_wait_nodup _ _ H).
  - rewrite (si_wait _ _ H), Ek. case_decide as E; [|done]. subst. rewrite Htk. naive_solver.
  - apply (si_idle _ _ H).
  - intros Ha Hn. unfold zombie. rewrite Ek, Es. case_decide; [by left|]. by apply (si_stack _ _ H).
  - intros Ha Hn. rewrite Ek, decide_False by done. by apply (si_idle_stack _ _ H).
  - intros Ha Hn Hf Hx. pose proof (Hcr _ _ _ Hf Hx) as Hf'. apply Hemb; [by eapply (si_creating _ _ H)|].
    intros ->. eapply (Hno u f Ha); [congruence|done|done].
  - intros Hu Hun Hv Hvn Hf Hg Cf Cg. eapply (si_creating_inj _ _ H u v f g); eauto.
Qed.

Lemma hatch_cur_ok st : cur_ok s c st -> (forall f, f ∈ st -> creating f <> Some t) -> cur_ok s' c st.
Proof using All.
  intros C Hst. split.
  - apply C.
  - rewrite (ha_idle _ _ _ W). apply C.
  - intros f x Hf Hx. apply hatch_embryo; [by eapply (co_creating _ _ _ C)|]. intros ->. by eapply Hst.
  - intros u f g x. rewrite (ha_all _ _ _ W). intros Hu Hn Hf Hg Cf Cg.
    pose proof (hatch_creating u g x Hg Cg) as Hg'. by eapply (co_creating_inj _ _ _ C u f g x).
Qed.

Lemma hatch_wakes : wakes t s' (readied t s').
Proof using All.
  pose proof hatch_inv as Hi. destruct He as (Hta & Htb & Htk).
  assert (Hnr : t ∉ ready_list s').
  { intros (_ & E & _)%(si_ready _ _ Hi). rewrite (ha_status _ _ _ W) in E. congruence. }
  assert (Hnw : forall r, t ∉ waiters (sema s' r)).
  { intros r (_ & _ & E)%(si_wait _ _ Hi). rewrite (ha_stack _ _ _ W), decide_True in E by done. done. }
  unfold readied, ready_with. split; try done; intros *; cbn; rewrite ?fn_at; try (by case_decide; subst).
  - rewrite insert_ordered_perm. by apply NoDup_cons; split; [|apply (si_ready_nodup _ _ Hi)].
  - rewrite insert_ordered_perm, elem_of_cons. naive_solver.
  - apply (si_wait_nodup _ _ Hi).
  - split; [|naive_solver]. intros Hu. split; [done|]. intros ->. by eapply Hnw.
Qed.

Lemma hatch_ready_sound st :
  cur_ok s c st -> (forall f, f ∈ st -> creating f <> Some t) ->
  sched_inv (Some c) (readied t s') /\ cur_ok (readied t s') c st.
Proof using All.
  intros C Hst. pose proof hatch_inv as Hi. pose proof (hatch_cur_ok st C Hst) as C1.
  assert (Hta : t ∈ all_list s') by (rewrite (ha_all _ _ _ W); apply He).
  assert (Htb : status_of s' t = THREAD_BLOCKED) by (rewrite (ha_status _ _ _ W); apply He).
  assert (Hk : stack_of s' t = [KKernelThread]) by by rewrite (ha_stack _ _ _ W), decide_True.
  assert (Hni : t <> idle_thread s') by (rewrite (ha_idle _ _ _ W); apply hatch_not_idle).
  assert (Hne : stack_of s' t <> []) by by rewrite Hk.
  assert (Hnz : ~ zombie s' t) by (intros (_ & lv & E); congruence).
  split; [by apply (wake_inv t c s' _ Hi hatch_wakes)|by apply (wake_cur_ok t c s' _ Hi hatch_wakes)].
Qed.
End Hatch.

Lemma quiet_nil_stack s s' u : quiet [] s s' -> stack_of s' u = stack_of s u.
Proof.
  intros [Q Qo]. destruct (decide (u = current s)) as [->|Hn]; [done|by apply (q_stack _ _ Q)].
Qed.

Lemma hatches_quiet t s1 s2 s3 s4 :
  quiet [] s1 s2 -> hatches t s2 s3 -> quiet [] s3 s4 -> hatches t s1 s4.
Proof.
  intros [Q1 O1] W [Q3 O3].
  destruct W as [Wa Wc Wr Wi Ww Ws Wm Wk], Q1 as [Aa Ac Ar Ai Aw As Am Ak], Q3 as [Ba Bc Br Bi Bw Bs Bm Bk].
  split; [congruence..| | | |].
  - intros r. by rewrite Bw, Ww.
  - intros u. by rewrite Bs, Ws.
  - intros u. by rewrite Bm, Wm.
  - intros u. rewrite (quiet_nil_stack s3 s4 u), Wk, (quiet_nil_stack s1 s2 u); [done|split..]; by try split.
Qed.

Lemma add_child_proc_quiet id c s a s' :
  (c = NULL \/ waiters (sema s (ZombiSema c)) = []) -> add_child_proc id c s = Ok (a, s') -> quiet [] s s'.
Proof.
  intros Hc. unfold add_child_proc. intros H. kinv H.
  destruct (Z.eqb_spec c NULL) as [->|E]; kinv H; [apply quiet_refl|].
  destruct Hc as [|Hc]; [done|].
  lazymatch goal with |- quiet _ _ (set_threads _ ?x) => apply (quiet_trans [] [] s x) end;
    [quiet_go; by rewrite Hc|].
  apply (quiet_upd (current s) (fun th => with_child_list (child_list th ++ [c]) th)). benign_tac.
Qed.

Lemma thread_get_priority_inv s a s' : thread_get_priority s = Ok (a, s') -> s' = s.
Proof. unfold thread_get_priority. intros H. kinv H. case_match; by kinv H. Qed.

Lemma start_stack_hatches t s :
  hatches t s (set_threads (<[t := with_kstack [KKernelThread] (threads s t)]> (threads s)) s).
Proof. split; try done; intros u; cbn; rewrite fn_at; by case_decide; subst. Qed.

(** The state [thread_create] leaves before the new thread competes. *)
Lemma thread_create_rest_inv t id prio c d s a s' :
  (c = NULL \/ waiters (sema s (ZombiSema c)) = []) ->
  thread_create_rest t id prio c d s = Ok (a, s') ->
  exists s1, hatches t s s1 /\ s' = pushed [KCreated prio] (readied t s1).
Proof.
  intros Hc. unfold thread_create_rest. intros H. kinv H.
  repeat match goal with
  | X : thread_tid _ = _ |- _ => apply thread_tid_inv in X; destruct X as [-> ->]
  | X : thread_unblock _ _ = _ |- _ => apply thread_unblock_inv in X; destruct X as (_ & _ & ->)
  | X : add_child_proc _ _ _ = _ |- _ => apply add_child_proc_quiet in X; [|exact Hc]
  end.
  lazymatch goal with |- context [readied t ?x] => exists x end. split; [|done].
    eapply (hatches_quiet t); [apply (quiet_upd t (with_tid id)); benign_tac|apply start_stack_hatches|].
    lazymatch goal with X : quiet [] ?x ?y |- _ =>
      apply (quiet_trans [] [] _ x); [|apply (quiet_trans [] [] _ y); [exact X|quiet_go]] end.
    apply quiet_upd. benign_tac.
Qed.

Lemma thread_create_rest_sound t id prio c d s a s' :
  sched_inv (Some (current s)) s ->
  cur_ok s (current s) (KCreate t id prio c d :: stack_of s (current s)) ->
  (c = NULL \/ waiters (sema s (ZombiSema c)) = []) ->
  thread_create_rest t id prio c d s = Ok (a, s') -> sound s'.
Proof.
  intros Hi C Hc H. apply thread_create_rest_inv in H as (s1 & W & ->); [|done].
  assert (He : embryo s t) by (eapply (co_creating _ _ _ C); [by left|done]).
  pose proof (embryo_not_running _ Hi t He) as Hn.
  assert (C' : cur_ok s (current s) (stack_of s (current s)))
    by by apply (cur_ok_pop _ _ (KCreate t id prio c d)).
  assert (Hst : forall f, f ∈ stack_of s (current s) -> creating f <> Some t).
  { pose proof (stack_ok_head _ _ _ (co_stack _ _ _ C)) as Hno. simpl in Hno. unfold no_creating in Hno.
    rewrite Forall_forall in Hno. intros f Hf. by rewrite (Hno f Hf). }
  destruct (hatch_ready_sound t (current s) s s1 Hi W) with (st := stack_of s (current s)) as [Hi2 C2];
    [done|done| |done|done|].
  { intros u g Hu Hne Hg. by eapply (co_creating_inj _ _ _ C u (KCreate t id prio c d) g t); [| |left| |]. }
  assert (S2 : sound (readied t s1)).
  { unfold sound. change (current (readied t s1)) with (current s1). rewrite (ha_current _ _ _ W).
    split; [done|]. rewrite (wk_stack _ _ _ (hatch_wakes t (current s) s s1 Hi W ltac:(done) He ltac:(
      intros u g Hu Hne Hg; by eapply (co_creating_inj _ _ _ C u (KCreate t id prio c d) g t); [| |left| |]))).
    by rewrite (ha_stack _ _ _ W), decide_False. }
  eapply push_sound_busy; [exact S2| |apply quiet_pushed|by split; [|apply S2]|by repeat constructor].
  change (current (readied t s1)) with (current s1). change (idle_thread (readied t s1)) with (idle_thread s1).
  rewrite (ha_current _ _ _ W), (ha_idle _ _ _ W). intros E. by pose proof (idle_stack_head _ _ (co_idle _ _ _ C E)).
Qed.

Lemma thread_created_sound prio s a s' : sound s -> thread_created prio s = Ok (a, s') -> sound s'.
Proof.
  intros Hs. unfold thread_created. intros H. kinv H. apply thread_get_priority_inv in Ha as ->.
  destruct (_ <=? prio); [by eapply thread_yield_sound|by kinv H].
Qed.

(** ** Ending a thread *)

Lemma process_exit_quiet s a s' :
  process_exit s = Ok (a, s') ->
  exists fs, quiet (fs ++ [KProcessExit]) s s' /\ no_creating fs /\
    (fs = [] \/ (exists p, fs = [KSemaUpCall (WaitSema p)]) \/ (exists c, fs = [KSemaDownCall (ZombiSema c)])).
Proof.
  unfold process_exit. intros H. kinv H. case_match; kinv H.
  - case_match; eexists [_]; (split; [quiet_go|split; [by repeat constructor|eauto]]).
  - exists []. split; [quiet_go|split; [by constructor|by left]].
Qed.

Lemma thread_exit_sound s a s' :
  sound s -> stack_of s (current s) = [] -> current s <> idle_thread s ->
  thread_exit s = Ok (a, s') -> sound s'.
Proof.
  intros Hs Hk Hn. unfold thread_exit. intros H. kinv H.
  apply process_exit_quiet in H as (fs & Q & Hc & Hfs).
  pose proof (quiet_trans _ _ _ _ _ (quiet_pushed [KThreadExit] s) Q) as Q2.
  rewrite <-app_assoc in Q2. simpl in Q2.
  eapply push_sound_busy; [done|done|exact Q2| |].
  - rewrite Hk, app_nil_r. by destruct Hfs as [->|[[p ->]|[c ->]]].
  - apply Forall_app. split; [done|by repeat constructor].
Qed.

Lemma process_exit_rest_sound s a s' :
  sched_inv (Some (current s)) s -> cur_ok s (current s) (KProcessExit :: stack_of s (current s)) ->
  process_exit_rest s = Ok (a, s') -> sound s'.
Proof.
  intros Hi C. unfold process_exit_rest. intros H. kinv H.
  lazymatch type of H with thread_block (pushed ?fs ?x) = _ =>
    assert (Q : quiet fs s (pushed fs x)) by quiet_go; set (s1 := pushed fs x) in * end.
  destruct Q as [Q Qo].
  assert (Hk : stack_of s (current s) = [KThreadExit]) by apply (co_stack _ _ _ C).
  rewrite Hk in Qo.
  apply block_sound in H as [? _]; [done|by apply (sched_inv_quiet s)| |].
  - change (current s1) with (current s). rewrite Qo. done.
  - right. change (current s1) with (current s). change (idle_thread s1) with (idle_thread s).
    split; [|rewrite Qo; simpl; eauto]. intros E. by pose proof (idle_stack_head _ _ (co_idle _ _ _ C E)).
Qed.

(** ** The idle thread *)

Lemma idle_stack_replace f g rest :
  idle_stack (f :: rest) -> g = KIdle \/ g = KIdleWait -> idle_stack (g :: rest).
Proof.
  intros [[_ Hf]%Forall_cons Hl] Hg. split; [constructor; [by destruct Hg as [->| ->]|done]|].
  destruct rest; [by destruct Hg as [->| ->]; auto|done].
Qed.

(** One turn of the loop of [idle]. *)
Lemma idle_turn_cur_ok s f g :
  f = KIdle \/ f = KIdleWait -> g = KIdle \/ g = KIdleWait ->
  cur_ok s (current s) (f :: stack_of s (current s)) -> cur_ok s (current s) (g :: stack_of s (current s)).
Proof.
  intros Hf Hg C. apply (cur_ok_replace s _ f [g] _ C).
  - pose proof (co_stack _ _ _ C) as Hs. by destruct Hf as [->| ->], Hg as [->| ->].
  - intros E. apply (idle_stack_replace f); [by apply (co_idle _ _ _ C)|done].
  - intros h x ->%list_elem_of_singleton. by destruct Hg as [->| ->].
Qed.

Lemma idle_loop_sound s a s' :
  sched_inv (Some (current s)) s -> cur_ok s (current s) (KIdle :: stack_of s (current s)) ->
  idle_loop s = Ok (a, s') -> sound s'.
Proof.
  intros Hi C. unfold idle_loop. intros H. kinv H.
  apply (idle_turn_cur_ok _ _ KIdleWait) in C; [|auto..].
  assert (Q : quiet [KIdleWait] s (pushed [KIdleWait] (set_intr_on false s))) by quiet_go.
  destruct Q as [Q Qo].
  apply block_sound in H as [? _]; [done|by apply (sched_inv_quiet s)| |left];
    change (current (pushed _ _)) with (current s); rewrite Qo; [done|].
  exact (cur_ok_quiet s _ Hi Q _ C).
Qed.

Lemma idle_wait_sound s a s' :
  sched_inv (Some (current s)) s -> cur_ok s (current s) (KIdleWait :: stack_of s (current s)) ->
  run_frame KIdleWait s = Ok (a, s') -> sound s'.
Proof.
  intros Hi C. unfold run_frame. intros H. kinv H.
  apply (idle_turn_cur_ok _ _ KIdle) in C; [|auto..].
  assert (Q : quiet [KIdle] s (pushed [KIdle] (set_intr_on true s))) by quiet_go.
  destruct Q as [Q Qo]. split; [by apply (sched_inv_quiet s)|].
  change (current (pushed _ _)) with (current s). rewrite Qo. exact (cur_ok_quiet s _ Hi Q _ C).
Qed.

Lemma set_idle_inv s :
  sched_inv (Some (current s)) s -> idle_thread s = NULL ->
  sched_inv (Some (current s)) (set_idle_thread (current s) s).
Proof.
  intros H E. pose proof (run_status _ H) as Hr.
  split; cbn; try apply H.
  - intros t. rewrite (si_ready _ _ H), E. split; intros (Ha & Hs & Hn); split_and!; try done.
    + intros ->. congruence.
    + intros ->. by apply (si_thread _ _ H) in Ha.
  - right. apply (si_current _ _ H).
  - done.
Qed.

Lemma idle_sound r s a s' :
  sound s -> stack_of s (current s) = [] -> idle_thread s = NULL -> (forall t, r <> SleepSema t) ->
  idle r s = Ok (a, s') -> sound s'.
Proof.
  intros [Hi C] Hk E Hr. unfold idle. intros H. kinv H.
  set (s1 := set_idle_thread (current s) s).
  assert (Hi1 : sched_inv (Some (current s1)) s1) by exact (set_idle_inv s Hi E).
  destruct (quiet_pushed [KSemaUpCall r; KIdle] s1) as [Q Qo].
  split; [by apply (sched_inv_quiet s1)|]. apply (cur_ok_quiet s1); [done..|].
  change (current (pushed _ s1)) with (current s1). rewrite Qo.
  change (stack_of s1 (current s1)) with (stack_of s (current s)). rewrite Hk. simpl. split.
  - simpl. split_and!; [|done..]. destruct r; try done. by apply (Hr t).
  - intros _. split; [by repeat constructor|by left].
  - intros f x [->|[->|[]%not_elem_of_nil]%elem_of_cons]%elem_of_cons; simpl; done.
  - intros u f g x _ _ [->|[->|[]%not_elem_of_nil]%elem_of_cons]%elem_of_cons; simpl; done.
Qed.

(** ** The timer interrupt *)

Lemma timer_wakeup_loop_sound now l : forall s a s',
  sound s -> in_external_intr s = true -> timer_wakeup_loop now l s = Ok (a, s') ->
  sound s' /\ in_external_intr s' = true.
Proof.
  induction l as [|t rest IH]; intros s a s' Hs He H; cbn [timer_wakeup_loop] in H; [by kinv H|].
  kinv H. destruct (_ <=? now); [|by kinv H]. kinv H.
  pose proof (sema_up_sound _ _ _ _ Hs Ha) as Hs1. apply sema_up_inv in Ha. rewrite He in Ha.
  assert (He1 : in_external_intr s0 = true) by (subst; by rewrite (proj2 (upped_fields _ _))).
  apply (IH (set_sleep_list rest s0) a s'); [|done|done]. eapply quiet_sound; [exact Hs1|]. quiet_field.
Qed.

Lemma thread_tick_quiet s a s' : thread_tick s = Ok (a, s') -> quiet [] s s'.
Proof.
  unfold thread_tick, intr_yield_on_return. intros H. kinv H.
  destruct (_ =? idle_thread _); [|destruct (negb _)]; kinv Ha;
    (destruct (TIME_SLICE <=? _); kinv H; quiet_go).
Qed.

Lemma intr_handler_sound s a s' : sound s -> intr_handler s = Ok (a, s') -> sound s'.
Proof.
  intros Hs. unfold intr_handler, timer_interrupt, timer_wakeup. intros H. kinv H.
  lazymatch goal with X : timer_wakeup_loop _ _ ?x = _ |- _ =>
    assert (Q : quiet [KIret] s x) by quiet_go end.
  eapply push_sound in Q; [|exact Hs|apply stack_ok_cons; [done..|apply Hs]|by repeat constructor..].
  repeat match goal with
  | X : timer_wakeup_loop _ _ _ = _ |- _ => apply timer_wakeup_loop_sound in X as [? _]; [|exact Q|done]
  | X : thread_tick _ = _ |- _ => apply thread_tick_quiet in X
  end.
  lazymatch type of H with _ ?x = _ => assert (Hs2 : sound x) end.
  { apply (quiet_sound s0); [by apply (quiet_sound s1)|quiet_field]. }
  destruct (yield_on_return _); [by eapply thread_yield_sound|]. kinv H. done.
Qed.

Lemma check_priority_sound s a s' : sound s -> check_priority s = Ok (a, s') -> sound s'.
Proof.
  intros Hs. unfold check_priority. intros H. kinv H. destruct (ready_list s); kinv H; [done|].
  destruct (_ <? _); [by eapply thread_yield_sound|]. by kinv H.
Qed.

(** ** The step relation *)

(** Semaphores that threads use directly; the others belong to locks, to the
    timer and to condition variables. *)
Definition plain_sema (r : sema_ref) : bool :=
  match r with LockSema _ | SleepSema _ | CondSema _ => false | _ => true end.

(** What callers owe the kernel, and the allocators their callers. *)
Definition call_ok (s : kstate) (c : call) : Prop :=
  match c with
  | CSemaDown r | CSemaTryDown r | CSemaUp r => plain_sema r = true
  | CCreate _ _ _ page _ _ => page = NULL \/ fresh_page s page
  | CIdle r => idle_thread s = NULL /\ plain_sema r = true
  | CExit => forall l, holder s l <> current s
  | _ => True
  end.

Definition allowed (s : kstate) (e : event) : Prop :=
  match e with
  | Call c => stack_of s (current s) = [] /\ call_ok s c
  | Run =>
      match stack_of s (current s) with
      | [] => False
      | KCreate _ _ _ child _ :: _ => child = NULL \/ waiters (sema s (ZombiSema child)) = []
      | _ => True
      end
  | Tick => intr_on s = true
  end.

Inductive step (s s' : kstate) : Prop :=
  | step_event e : allowed s e -> exec e s = Ok (tt, s') -> step s s'.

(** The states of a kernel whose first thread is at [main]. *)
Definition reachable (main : Z) : kstate -> Prop := rtc step (thread_init main).

Lemma not_idle_of f s :
  idle_frame f = false -> cur_ok s (current s) (f :: stack_of s (current s)) -> current s <> idle_thread s.
Proof. intros Hf C E. pose proof (idle_stack_head _ _ (co_idle _ _ _ C E)). congruence. Qed.

Lemma acquire_stack_ok l s st : stack_ok (current s) st -> stack_ok (current s) (acquire_frames l s ++ st).
Proof. intros H. unfold acquire_frames. by destruct (negb _); simpl; split_and!. Qed.

Lemma acquire_no_creating l s : no_creating (acquire_frames l s).
Proof. unfold acquire_frames. by destruct (negb _); repeat constructor. Qed.

Lemma lock_acquire_sound l s a s' :
  sound s -> current s <> idle_thread s -> lock_acquire l s = Ok (a, s') -> sound s'.
Proof.
  intros Hs Hn [_ ->]%lock_acquire_inv. eapply push_sound_busy; [done|done|apply quiet_pushed| |].
  - apply acquire_stack_ok, Hs.
  - apply acquire_no_creating.
Qed.

Lemma sema_down_sound r s a s' :
  sound s -> current s <> idle_thread s ->
  (forall lv, frame_ok (current s) (KSemaDown r) (KIntrSet lv :: stack_of s (current s))) ->
  sema_down r s = Ok (a, s') -> sound s'.
Proof.
  intros Hs Hn Hf Q%sema_down_quiet. eapply push_sound_busy; [done|done|done| |by repeat constructor].
  apply stack_ok_cons; [done|apply Hf|]. apply stack_ok_cons; [done|done|apply Hs].
Qed.

Lemma lock_release_sound l s a s' :
  sound s -> current s <> idle_thread s -> no_release (stack_of s (current s)) ->
  lock_release l s = Ok (a, s') -> sound s'.
Proof.
  intros Hs Hn Hr [_ Q]%lock_release_quiet. eapply push_sound_busy; [done|done|done| |by repeat constructor].
  apply stack_ok_cons; [done|done|]. apply stack_ok_cons; [done|done|apply Hs].
Qed.

(** The frame [f] has been taken from the stack of the running thread. *)
Definition about_to (f : frame) (s : kstate) : Prop :=
  sched_inv (Some (current s)) s /\ cur_ok s (current s) (f :: stack_of s (current s)).

Lemma popped_sound f s :
  about_to f s -> f <> KProcessExit -> f <> KIdle -> f <> KIdleWait -> sound s.
Proof. intros [Hi C] H1 H2 H3. split; [done|]. by apply (cur_ok_pop _ _ f). Qed.

Lemma sema_call_sound r s a s' :
  about_to (KSemaDownCall r) s -> sema_down r s = Ok (a, s') -> sound s'.
Proof.
  intros P. apply sema_down_sound; [by apply (popped_sound _ _ P)|apply (not_idle_of (KSemaDownCall r)); [done|apply P]|].
  intros lv. pose proof (stack_ok_head _ _ _ (co_stack _ _ _ (proj2 P))) as Hf. destruct r; try done.
  simpl in *. exists lv. destruct (stack_of s (current s)) as [|g k]; [done|]. simpl in *. by simplify_eq.
Qed.

Lemma quiet_frame_sound fs s s' :
  sound s -> current s <> idle_thread s -> quiet fs s s' ->
  (forall st, stack_ok (current s) st -> stack_ok (current s) (fs ++ st)) -> no_creating fs -> sound s'.
Proof. intros Hs Hn Q Hst Hc. eapply push_sound_busy; eauto. apply Hst, Hs. Qed.

Lemma lock_frame_sound f s a s' : about_to f s ->
  (exists l, f = KTryLock l \/ f = KDonorInsert l \/ f = KLockTaken l) \/ f = KPriorityRecheck ->
  run_frame f s = Ok (a, s') -> sound s'.
Proof.
  intros P Hf H.
  assert (Hs : sound s) by (apply (popped_sound f); [done|destruct Hf as [[l [->|[->| ->]]]| ->]; done..]).
  apply (quiet_sound s); [done|]. destruct Hf as [[l [->|[->| ->]]]| ->]; simpl in H.
  - by eapply set_try_lock_quiet.
  - by eapply donor_insert_quiet.
  - by eapply lock_taken_quiet.
  - by eapply priority_recheck_quiet.
Qed.

Lemma donation_frame_sound f s a s' : about_to f s ->
  f = KDonation \/ (exists c l, f = KDonate c l) -> run_frame f s = Ok (a, s') -> sound s'.
Proof.
  intros P Hf H. assert (Hs : sound s) by (apply (popped_sound f); [done|by destruct Hf as [->|(? & ? & ->)]..]).
  assert (Hn : current s <> idle_thread s) by (apply (not_idle_of f); [by destruct Hf as [->|(? & ? & ->)]|apply P]).
  destruct Hf as [->|(c & l & ->)]; simpl in H.
  - eapply quiet_frame_sound; [done|done|by eapply donation_start_quiet|done|by repeat constructor].
  - apply donation_step_quiet in H as [Q|(h & m & Q)]; [by eapply quiet_sound|].
    eapply quiet_frame_sound; [done|done|exact Q|done|by repeat constructor].
Qed.

Lemma cond_frame_sound c l f s a s' : about_to f s ->
  f = KCondSignal c l \/ f = KBroadcast c l -> run_frame f s = Ok (a, s') -> sound s'.
Proof.
  intros P Hf H. assert (Hs : sound s) by (apply (popped_sound f); [done|by destruct Hf as [->| ->]..]).
  assert (Hn : current s <> idle_thread s) by (apply (not_idle_of f); [by destruct Hf as [->| ->]|apply P]).
  destruct Hf as [->| ->]; simpl in H.
  - apply cond_signal_quiet in H as [Q|[w Q]]; [by eapply quiet_sound|].
    eapply quiet_frame_sound; [done|done|done|by intros|by repeat constructor].
  - apply cond_broadcast_loop_quiet in H as [Q|Q]; [by eapply quiet_sound|].
    eapply quiet_frame_sound; [done|done|done|by intros|by repeat constructor].
Qed.

Lemma level_frame_sound f s a s' : about_to f s ->
  (exists lv, f = KIntrSet lv) \/ f = KIret \/ f = KKernelThread ->
  run_frame f s = Ok (a, s') -> sound s'.
Proof.
  intros P Hf H. assert (Hs : sound s) by (apply (popped_sound f); [done|destruct Hf as [[l ->]|[->| ->]]; done..]).
  apply (quiet_sound s); [done|]. destruct Hf as [[l ->]|[->| ->]]; simpl in H; kinv H; quiet_field.
Qed.

Lemma run_frame_sound f s a s' : about_to f s ->
  (forall t id prio c d, f = KCreate t id prio c d -> c = NULL \/ waiters (sema s (ZombiSema c)) = []) ->
  run_frame f s = Ok (a, s') -> sound s'.
Proof.
  intros P Hch H. pose proof P as [Hi C].
  assert (Hst := stack_ok_head _ _ _ (co_stack _ _ _ C)).
  pose proof (popped_sound f s P) as Hs.
  assert (Hn : idle_frame f = false -> current s <> idle_thread s) by (intros; by apply (not_idle_of f)).
  destruct f; try (eapply level_frame_sound; by eauto); try (eapply lock_frame_sound; by eauto 6);
    try (eapply cond_frame_sound; by eauto); try (eapply donation_frame_sound; by eauto); simpl in H.
  - by eapply check_priority_sound; [apply Hs|].
  - by eapply sema_call_sound.
  - by eapply sema_down_loop_sound.
  - by eapply sema_up_sound; [apply Hs|].
  - by eapply lock_acquire_sound; [apply Hs|apply Hn|].
  - by eapply lock_release_sound; [apply Hs|apply Hn| |].
  - eapply (quiet_frame_sound [_]); [by apply Hs|by apply Hn|by eapply holder_clear_quiet|done|by repeat constructor].
  - by eapply allocate_tid_sound.
  - by eapply thread_create_rest_sound; [| |eapply Hch|].
  - by eapply thread_created_sound; [apply Hs|].
  - by eapply process_exit_rest_sound.
  - by pose proof (co_stack _ _ _ C).
  - by eapply idle_loop_sound.
  - by eapply idle_wait_sound.
Qed.

Lemma run_call_sound c s a s' :
  sound s -> stack_of s (current s) = [] -> call_ok s c -> run_call c s = Ok (a, s') -> sound s'.
Proof.
  intros Hs Hk Hc H.
  assert (Hn : current s <> idle_thread s).
  { intros E. destruct (co_idle _ _ _ (proj2 Hs) E) as [_ Hl]. rewrite Hk in Hl. by destruct Hl. }
  destruct c; simpl in H, Hc.
  - kinv H. eapply quiet_sound; [done|quiet_field].
  - by eapply thread_yield_sound.
  - eapply quiet_frame_sound; [done|done|by eapply thread_set_priority_quiet|done|by repeat constructor].
  - eapply sema_down_sound; [done|done| |done]. by destruct r.
  - kinv H. eapply quiet_sound; [done|by eapply sema_try_down_quiet].
  - by eapply sema_up_sound.
  - by eapply lock_acquire_sound.
  - kinv H. eapply quiet_sound; [done|by eapply lock_try_acquire_quiet].
  - eapply lock_release_sound; [done|done| |done]. rewrite Hk. constructor.
  - eapply push_sound_busy; [done|done|by eapply cond_wait_quiet; [apply Hs|]| |by repeat constructor].
    rewrite Hk. simpl. split_and!; [by repeat constructor|done..].
  - apply cond_signal_quiet in H as [Q|[w Q]]; [by eapply quiet_sound|].
    eapply quiet_frame_sound; [done|done|done|by intros|by repeat constructor].
  - eapply quiet_frame_sound; [done|done|by eapply cond_broadcast_quiet|done|by repeat constructor].
  - eapply quiet_frame_sound; [done|done|by eapply timer_sleep_quiet; [apply Hs|]|done|by repeat constructor].
  - by eapply thread_create_sound.
  - eapply idle_sound; [done|done|apply Hc| |done]. destruct Hc as [_ Hc]. by destruct idle_started.
  - by eapply thread_exit_sound.
Qed.

Lemma pop_others s f rest :
  stack_of s (current s) = f :: rest ->
  others s (set_threads (<[current s := with_kstack rest (threads s (current s))]> (threads s)) s).
Proof.
  intros E. split; intros *; cbn; rewrite ?fn_at; try done; by case_decide; subst.
Qed.

Lemma exec_run_inv s a s' f rest :
  stack_of s (current s) = f :: rest -> exec Run s = Ok (a, s') ->
  exists s1, others s s1 /\ current s1 = current s /\ stack_of s1 (current s) = rest /\
    s1 = set_threads (<[current s := with_kstack rest (threads s (current s))]> (threads s)) s /\
    run_frame f s1 = Ok (a, s').
Proof.
  intros E. unfold exec. intros H. kinv H. rewrite E in H. kinv H.
  eexists. split_and!; [by eapply pop_others|done| |reflexivity|exact H]. cbn. by rewrite fn_at, decide_True.
Qed.

Lemma exec_sound e s a s' : sound s -> allowed s e -> exec e s = Ok (a, s') -> sound s'.
Proof.
  intros Hs Ha H. destruct e as [c| |]; simpl in Ha.
  - destruct Ha as [Hk Hc]. by eapply run_call_sound.
  - destruct (stack_of s (current s)) as [|f rest] eqn:E; [done|].
    destruct Hs as [Hi C]. apply (exec_run_inv _ _ _ f rest E) in H as (s1 & Ho & Hc & Hk & -> & H).
    set (s1 := set_threads _ s) in *.
    apply (run_frame_sound f s1 a s'); [|intros t id prio c d ->|exact H].
    + split; [by apply (sched_inv_quiet s)|]. rewrite Hc, Hk. rewrite E in C.
      pose proof (cur_ok_quiet s s1 Hi Ho _ C) as C1. by rewrite Hc in C1.
    + exact Ha.
  - by eapply intr_handler_sound.
Qed.

Lemma init_facts main :
  let s := thread_init main in
  (forall t, t ∈ all_list s -> t = main) /\ status_of s main = THREAD_RUNNING /\
  magic (threads s main) = THREAD_MAGIC /\ (forall t, stack_of s t = []) /\ (forall r, waiters (sema s r) = []).
Proof.
  simpl. split_and!; [by intros t ->%list_elem_of_singleton|by rewrite fn_at, decide_True..| |by intros []].
  intros t. rewrite fn_at. by case_decide.
Qed.

Lemma init_sound main : main <> NULL -> sound (thread_init main).
Proof.
  intros Hm. destruct (init_facts main) as (Ha & Hr & Hg & Hk & Hw). split; [split|split]; intros *;
    rewrite ?Hk, ?Hw; try done; try (by intros; by constructor); try (by intros; apply not_elem_of_nil in H1);
    try (by intros ->%Ha; rewrite ?Hr).
  - apply NoDup_singleton.
  - intros ->%Ha. unfold is_thread. rewrite Hg. by destruct (Z.eqb_spec main NULL).
  - split; [by intros ?%not_elem_of_nil|]. intros (->%Ha & E & _). congruence.
  - split; [by intros ?%not_elem_of_nil|]. by intros (_ & _ & E).
  - by intros ?%not_elem_of_nil.
Qed.

Lemma reachable_sound main s : main <> NULL -> reachable main s -> sound s.
Proof.
  intros Hm H. apply init_sound in Hm. unfold reachable in H. revert Hm.
  induction H as [|x y z [e Ha He] _ IH]; [done|]. intros Hs. apply IH. by eapply exec_sound.
Qed.
