(* ===== verification/ThreadLock.v ===== *)
(** * Locks exclude

    Every lock has one token.  It is in its semaphore, with the holder, or with
    a thread that is between taking it from the semaphore and becoming the
    holder, or between giving up the lock and [sema_up].  The frames on the
    stacks say which, so the token is counted with weights. *)

From stdpp Require Import functions.
From S2P Require Import Prelude ListModel ListOrder ListSpec ThreadModel ThreadInv ThreadSched ThreadStep.

(** ** Counting the token *)

Definition weight (l : Z) (f : frame) : Z :=
  match f with
  | KLockTaken l' => if l =? l' then 1 else 0
  | KSemaUpCall (LockSema l') => if l =? l' then 1 else 0
  | KSemaDownCall (LockSema l') | KSemaDown (LockSema l') => if l =? l' then -1 else 0
  | _ => 0
  end.

Definition weights (l : Z) (st : list frame) : Z := foldr (fun f acc => weight l f + acc) 0 st.

Definition total (l : Z) (s : kstate) (ts : list Z) : Z :=
  foldr (fun t acc => weights l (stack_of s t) + acc) 0 ts.

Definition held (l : Z) (s : kstate) : Z := if holder s l =? NULL then 0 else 1.

Definition balance (l : Z) (s : kstate) : Z :=
  value (sema s (LockSema l)) + total l s (all_list s) + held l s.

Record lock_inv (s : kstate) : Prop := {
  li_balance l : balance l s = 1;
  li_value l : 0 <= value (sema s (LockSema l));
  li_clear t l : t ∈ all_list s -> KHolderClear l ∈ stack_of s t -> holder s l = t;
  li_live l : holder s l = NULL \/ holder s l ∈ all_list s
}.

Lemma weights_app l a b : weights l (a ++ b) = weights l a + weights l b.
Proof. induction a as [|f a IH]; simpl; [done|]. unfold weights in *. simpl. rewrite IH. lia. Qed.

(** A stack in order never owes a token. *)
Lemma weights_nonneg l t st :
  stack_ok t st -> 0 <= weights l st /\ (head st = Some (KLockTaken l) -> 1 <= weights l st) /\
    (forall lv, take 2 st = [KIntrSet lv; KLockTaken l] -> 1 <= weights l st).
Proof.
  induction st as [|f rest IH]; [done|]. intros Hs.
  change (weights l (f :: rest)) with (weight l f + weights l rest).
  destruct (decide (f = KProcessExit)) as [->|Hp].
  { simpl in Hs. subst rest. simpl. split_and!; [lia|done..]. }
  pose proof (IH (stack_ok_tail _ _ _ Hp Hs)) as (I1 & I2 & I3).
  pose proof (stack_ok_head _ _ _ Hs) as Hf.
  assert (Hpos : 0 <= weight l f + weights l rest /\ (f = KLockTaken l -> 1 <= weight l f + weights l rest)).
  { destruct f; simpl; try (split; [lia|done]).
    all: try (destruct s; simpl; try (split; [lia|done])).
    all: destruct (Z.eqb_spec l lock); try (split; [lia|intros [= ->]; lia]).
    - subst. simpl in Hf. apply I2 in Hf. split; [lia|done].
    - subst. destruct Hf as [lv Hf]. apply I3 in Hf. split; [lia|done]. }
  split_and!; [lia|by intros [= ->]; apply Hpos|].
  intros lv E. destruct rest as [|g rest]; [done|]. simpl in E. simplify_eq.
  simpl weight. specialize (I2 eq_refl). lia.
Qed.

Lemma weights_live l s t run :
  sched_inv run s -> t ∈ all_list s -> run <> Some t -> 0 <= weights l (stack_of s t).
Proof.
  intros Hi Ht Hn. destruct (si_stack _ _ Hi t Ht Hn) as [Hs|(_ & lv & ->)]; [|done].
  by apply (weights_nonneg l) in Hs as [? _].
Qed.

Lemma total_nonneg l s ts :
  (forall t, t ∈ ts -> 0 <= weights l (stack_of s t)) -> 0 <= total l s ts.
Proof.
  induction ts as [|t ts IH]; simpl; [done|]. intros H. unfold total in *. simpl.
  assert (0 <= weights l (stack_of s t)) by (apply H; left). enough (0 <= foldr (fun t acc => weights l (stack_of s t) + acc) 0 ts) by lia.
  apply IH. intros. apply H. by right.
Qed.

Lemma total_ext l s s' ts :
  (forall t, t ∈ ts -> weights l (stack_of s' t) = weights l (stack_of s t)) -> total l s' ts = total l s ts.
Proof.
  induction ts as [|t ts IH]; [done|]. intros H. unfold total in *. simpl.
  rewrite (H t) by left. rewrite IH; [done|]. intros. apply H. by right.
Qed.

(** Changing the stack of one thread. *)
Lemma total_change l s s' c ts d :
  NoDup ts -> c ∈ ts -> (forall t, t <> c -> stack_of s' t = stack_of s t) ->
  weights l (stack_of s' c) = weights l (stack_of s c) + d -> total l s' ts = total l s ts + d.
Proof.
  intros Hnd Hc Ho Hd. induction ts as [|t ts IH]; [by apply not_elem_of_nil in Hc|].
  apply NoDup_cons in Hnd as [Hn Hnd]. unfold total in *. simpl.
  apply elem_of_cons in Hc as [<-|Hc].
  - rewrite Hd. pose proof (total_ext l s s' ts) as E. unfold total in E. rewrite E; [lia|].
    intros t Ht. rewrite Ho; [done|]. by intros ->.
  - rewrite (Ho t) by (by intros ->). rewrite IH by done. lia.
Qed.

(** ** Changes that leave semaphores of locks and holders alone *)

Record leff (fs : list frame) (s s' : kstate) : Prop := {
  le_all : all_list s' = all_list s;
  le_holder : holder s' = holder s;
  le_value l : value (sema s' (LockSema l)) = value (sema s (LockSema l));
  le_stack t : t <> current s -> stack_of s' t = stack_of s t;
  le_own : stack_of s' (current s) = fs ++ stack_of s (current s)
}.

Lemma leff_refl s : leff [] s s.
Proof. by split. Qed.

Lemma leff_nil s s' t : leff [] s s' -> stack_of s' t = stack_of s t.
Proof.
  intros E. destruct (decide (t = current s)) as [->|Hn]; [apply (le_own _ _ _ E)|by apply (le_stack _ _ _ E)].
Qed.

Lemma leff_trans f1 f2 s1 s2 s3 :
  current s2 = current s1 -> leff f1 s1 s2 -> leff f2 s2 s3 -> leff (f2 ++ f1) s1 s3.
Proof.
  intros Ec [A1 H1 V1 K1 O1] [A2 H2 V2 K2 O2]. rewrite Ec in *. split; [congruence..| | |].
  - intros l. by rewrite V2.
  - intros t Ht. by rewrite K2, K1.
  - by rewrite O2, O1, app_assoc.
Qed.

Lemma leff_nil_r fs s1 s2 s3 : leff fs s1 s2 -> leff [] s2 s3 -> leff fs s1 s3.
Proof.
  intros [A1 H1 V1 K1 O1] E2.
  split; [by rewrite (le_all _ _ _ E2)|by rewrite (le_holder _ _ _ E2)|..].
  - intros l. by rewrite (le_value _ _ _ E2).
  - intros t Ht. rewrite (leff_nil s2 s3 t E2). auto.
  - by rewrite (leff_nil s2 s3 _ E2).
Qed.

Lemma leff_balance fs s s' l :
  NoDup (all_list s) -> current s ∈ all_list s -> leff fs s s' -> balance l s' = balance l s + weights l fs.
Proof.
  intros Hnd Hc E. unfold balance, held. rewrite (le_all _ _ _ E), (le_holder _ _ _ E), (le_value _ _ _ E).
  rewrite (total_change l s s' (current s) (all_list s) (weights l fs)); [lia|done|done|apply E|].
  rewrite (le_own _ _ _ E), weights_app. lia.
Qed.

(** Frames that have nothing to do with a lock's token. *)
Definition neutral (f : frame) : bool :=
  match f with
  | KLockTaken _ | KSemaUpCall (LockSema _) | KSemaDownCall (LockSema _) | KSemaDown (LockSema _)
  | KHolderClear _ => false
  | _ => true
  end.

Lemma neutral_weights l fs : Forall (fun f => neutral f = true) fs -> weights l fs = 0.
Proof.
  induction 1 as [|f fs Hf _ IH]; [done|]. change (weight l f + weights l fs = 0). rewrite IH.
  by destruct f as [| | | |[]|[]|[]| | | | | | | | | | | | | | | | | |].
Qed.

Lemma neutral_clear fs l : Forall (fun f => neutral f = true) fs -> KHolderClear l ∉ fs.
Proof. rewrite Forall_forall. intros H Hin. by apply H in Hin. Qed.

Lemma leff_neutral fs s s' :
  NoDup (all_list s) -> current s ∈ all_list s -> leff fs s s' ->
  Forall (fun f => neutral f = true) fs -> lock_inv s -> lock_inv s'.
Proof.
  intros Hnd Hc E Hf [B V C I]. split; [..|by rewrite (le_all _ _ _ E), (le_holder _ _ _ E)].
  - intros l. by rewrite (leff_balance fs s s' l Hnd Hc E), B, (neutral_weights l fs Hf).
  - intros l. rewrite (le_value _ _ _ E). apply V.
  - intros t l. rewrite (le_all _ _ _ E), (le_holder _ _ _ E). intros Ht.
    destruct (decide (t = current s)) as [->|Hn].
    + rewrite (le_own _ _ _ E). intros [Hin|Hin]%elem_of_app; [by destruct (neutral_clear _ l Hf)|by apply C].
    + rewrite (le_stack _ _ _ E) by done. by apply C.
Qed.

Lemma leff_upd t f s :
  (forall th, kstack (f th) = kstack th) -> leff [] s (set_threads (<[t := f (threads s t)]> (threads s)) s).
Proof. intros Hf. split; try done; intros *; cbn; rewrite fn_at; by case_decide; subst. Qed.

Lemma leff_pushed fs s : leff fs s (pushed fs s).
Proof. unfold pushed. split; try done; intros *; cbn; rewrite fn_at; by case_decide; subst. Qed.

Definition lock_sema (r : sema_ref) : bool := match r with LockSema _ => true | _ => false end.

Lemma leff_sema r x s :
  lock_sema r = false \/ value x = value (sema s r) -> leff [] s (set_sema (<[r := x]> (sema s)) s).
Proof.
  intros Hr. split; try done. intros l. cbn. rewrite fn_at. case_decide; [subst|done].
  by destruct Hr as [|Hr].
Qed.

Ltac leff_field := by split.

(** [leff_go] decomposes a state built by such changes. *)
Ltac leff_go :=
  lazymatch goal with
  | |- leff _ ?s ?s => apply leff_refl
  | |- leff _ _ (pushed ?fs ?s) => eapply (leff_trans _ fs _ s); [reflexivity|leff_go|apply leff_pushed]
  | |- leff _ _ (set_threads (<[?t := _]> _) ?s) =>
      eapply (leff_nil_r _ _ s); [leff_go|apply (leff_upd t _ s); intros ?; reflexivity]
  | |- leff _ _ (set_sema (<[?r := ?x]> _) ?s) =>
      eapply (leff_nil_r _ _ s); [leff_go|apply (leff_sema r x s)]
  | |- leff _ _ (_ _ ?s) => eapply (leff_nil_r _ _ s); [leff_go|leff_field]
  end.

(** ** Switches *)

Lemma dispatch_leff s : leff [] s (dispatch s).
Proof. split; try done; intros; apply dispatch_stack. Qed.

Lemma thread_block_leff s a s' : thread_block s = Ok (a, s') -> leff [] s s'.
Proof.
  intros H. apply thread_block_inv in H as (_ & _ & _ & H).
  apply schedule_inv in H as (-> & _); [|by rewrite restate_status, decide_True].
  eapply leff_nil_r; [|apply dispatch_leff]. unfold restate. leff_go.
Qed.

Lemma thread_yield_leff s a s' : thread_yield s = Ok (a, s') -> leff [KIntrSet (intr_on s)] s s'.
Proof.
  intros H. apply thread_yield_inv in H as (_ & _ & H).
  assert (E : leff [KIntrSet (intr_on s)] s (yielded s)).
  { unfold yielded, restate, ready_with. destruct (_ =? _); leff_go. }
  apply schedule_inv in H as (-> & _); [by eapply leff_nil_r; [|apply dispatch_leff]|].
  unfold yielded, restate, ready_with, pushed. cbn [current set_threads set_intr_on set_ready_list].
  destruct (_ =? _); cbn; by rewrite !fn_at, !decide_True.
Qed.

Lemma check_priority_leff s a s' :
  check_priority s = Ok (a, s') -> exists fs, leff fs s s' /\ Forall (fun f => neutral f = true) fs.
Proof.
  unfold check_priority. intros H. kinv H.
  destruct (ready_list s); kinv H; [exists []; split; [apply leff_refl|constructor]|].
  destruct (_ <? _); [|kinv H; exists []; split; [apply leff_refl|constructor]].
  eexists. split; [by eapply thread_yield_leff|by repeat constructor].
Qed.

Lemma upped_leff r s : lock_sema r = false -> leff [] s (upped r s).
Proof.
  intros Hr. unfold upped, incremented. destruct (sort_ordered _ _) as [|t rest]; [leff_go; auto|].
  unfold readied, ready_with, with_waiters. leff_go; auto.
Qed.

Lemma sema_up_leff r s a s' :
  lock_sema r = false -> sema_up r s = Ok (a, s') ->
  exists fs, leff fs s s' /\ Forall (fun f => neutral f = true) fs.
Proof.
  intros Hr ->%sema_up_inv. destruct (in_external_intr s).
  - exists []. split; [by apply upped_leff|constructor].
  - exists [KCheckPriority]. split; [|by repeat constructor].
    eapply (leff_trans [] [KCheckPriority]); [|by apply upped_leff|apply leff_pushed].
    unfold upped. by destruct (sort_ordered _ _).
Qed.

(** ** Where the token is *)

Lemma total_split l s c ts :
  NoDup ts -> c ∈ ts -> (forall t, t ∈ ts -> 0 <= weights l (stack_of s t)) ->
  weights l (stack_of s c) <= total l s ts.
Proof.
  induction ts as [|t ts IH]; intros Hnd Hc Hp; [by apply not_elem_of_nil in Hc|].
  apply NoDup_cons in Hnd as [_ Hnd].
  assert (Hrest : 0 <= total l s ts) by (apply total_nonneg; intros; apply Hp; by right).
  change (total l s (t :: ts)) with (weights l (stack_of s t) + total l s ts).
  apply elem_of_cons in Hc as [->|Hc]; [lia|].
  assert (0 <= weights l (stack_of s t)) by (apply Hp; left).
  assert (weights l (stack_of s c) <= total l s ts) by (apply IH; [done|done|]; intros; apply Hp; by right). lia.
Qed.

Lemma held_cases l s : (holder s l = NULL /\ held l s = 0) \/ (holder s l <> NULL /\ held l s = 1).
Proof. unfold held. destruct (Z.eqb_spec (holder s l) NULL); auto. Qed.

(** A running thread with a token of [l] on its stack leaves none elsewhere. *)
Lemma token_bounds s l :
  sound s -> lock_inv s ->
  let w := weights l (stack_of s (current s)) in
  0 <= value (sema s (LockSema l)) <= 1 /\ 0 <= w <= 1 /\ value (sema s (LockSema l)) + w + held l s <= 1.
Proof.
  intros [Hi C] [B V _]. specialize (B l). specialize (V l). unfold balance in B.
  assert (Hw : forall t, t ∈ all_list s -> 0 <= weights l (stack_of s t)).
  { intros t Ht. destruct (decide (t = current s)) as [->|Hn].
    - apply (weights_nonneg l _ _ (co_stack _ _ _ C)).
    - eapply weights_live; [done|done|congruence]. }
  pose proof (total_split l s (current s) (all_list s) (si_nodup _ _ Hi) (si_current _ _ Hi) Hw).
  pose proof (Hw _ (si_current _ _ Hi)). simpl. destruct (held_cases l s) as [[_ ?]|[_ ?]]; lia.
Qed.

(** ** Frames taken from the stack *)

Record lock_pre (f : frame) (s : kstate) : Prop := {
  lp_balance l : balance l s + weight l f = 1;
  lp_value l : 0 <= value (sema s (LockSema l)) <= 1;
  lp_clear t l : t ∈ all_list s -> KHolderClear l ∈ stack_of s t -> holder s l = t;
  lp_live l : holder s l = NULL \/ holder s l ∈ all_list s;
  lp_holder l : f = KHolderClear l -> holder s l = current s;
  lp_taken l : f = KLockTaken l -> holder s l = NULL;
  lp_up l : f = KSemaUpCall (LockSema l) -> value (sema s (LockSema l)) = 0
}.

Lemma popped_pre f rest s :
  sound s -> lock_inv s -> stack_of s (current s) = f :: rest ->
  lock_pre f (set_threads (<[current s := with_kstack rest (threads s (current s))]> (threads s)) s).
Proof.
  intros Hs L Ek. pose proof L as [B V Cl I]. pose proof Hs as [Hi C]. set (s1 := set_threads _ s).
  assert (Hk : forall t, stack_of s1 t = if decide (current s = t) then rest else stack_of s t).
  { intros t. unfold s1. cbn. rewrite fn_at. by case_decide. }
  assert (Hrest : forall l, 0 <= weights l rest).
  { intros l. destruct (decide (f = KProcessExit)) as [->|Hp].
    - pose proof (co_stack _ _ _ C) as Hst. rewrite Ek in Hst. simpl in Hst. by subst.
    - pose proof (co_stack _ _ _ C) as Hst. rewrite Ek in Hst. apply stack_ok_tail in Hst; [|done].
      by apply (weights_nonneg l) in Hst as [? _]. }
  assert (Hw : forall l, weights l (stack_of s (current s)) = weight l f + weights l rest) by (intros l; by rewrite Ek).
  assert (Hb : forall l, balance l s1 + weight l f = 1).
  { intros l. rewrite <-(B l). unfold balance. change (held l s1) with (held l s).
    change (sema s1) with (sema s). change (all_list s1) with (all_list s).
    rewrite (total_change l s s1 (current s) (all_list s) (- weight l f)); [lia|apply (si_nodup _ _ Hi)|apply (si_current _ _ Hi)| |].
    - intros t Ht. by rewrite Hk, decide_False.
    - rewrite Hk, decide_True, Hw by done. lia. }
  split; [done|..].
  - intros l. pose proof (token_bounds s l Hs L). simpl in *. unfold s1. cbn. lia.
  - intros t l Ht. rewrite Hk. case_decide as E; [|by apply Cl]. subst t. intros Hin. apply Cl; [done|].
    rewrite Ek. by right.
  - exact I.
  - intros l ->. apply (Cl (current s) l); [apply (si_current _ _ Hi)|]. rewrite Ek. by left.
  - intros l ->. pose proof (token_bounds s l Hs L) as (? & ? & ?). specialize (Hw l). specialize (Hrest l).
    simpl in Hw. rewrite Z.eqb_refl in Hw. destruct (held_cases l s) as [[? _]|[_ ?]]; [done|lia].
  - intros l ->. pose proof (token_bounds s l Hs L) as (? & ? & ?). specialize (Hw l). specialize (Hrest l).
    simpl in Hw. rewrite Z.eqb_refl in Hw. unfold s1. cbn. destruct (held_cases l s) as [[_ ?]|[_ ?]]; lia.
Qed.

Lemma neutral_pre f s : neutral f = true -> lock_pre f s -> lock_inv s.
Proof.
  intros Hn [B V C I _ _ _]. split; [|intros l; apply V|done|done].
  intros l. pose proof (neutral_weights l [f] ltac:(by repeat constructor)) as E. simpl in E.
  specialize (B l). lia.
Qed.

(** The body of a frame moves the token of the frame into [fs]. *)
Lemma moved_inv f fs s s' :
  NoDup (all_list s) -> current s ∈ all_list s -> lock_pre f s -> leff fs s s' ->
  (forall l, weights l fs = weight l f) -> (forall l, KHolderClear l ∈ fs -> holder s l = current s) -> lock_inv s'.
Proof.
  intros Hnd Hc [B V C I _ _ _] E Hw Hcl. split; [..|by rewrite (le_all _ _ _ E), (le_holder _ _ _ E)].
  - intros l. rewrite (leff_balance fs s s' l Hnd Hc E), Hw. apply B.
  - intros l. rewrite (le_value _ _ _ E). apply V.
  - intros t l. rewrite (le_all _ _ _ E), (le_holder _ _ _ E). intros Ht.
    destruct (decide (t = current s)) as [->|Hn].
    + rewrite (le_own _ _ _ E). intros [Hin|Hin]%elem_of_app; [by apply Hcl|by apply C].
    + rewrite (le_stack _ _ _ E) by done. by apply C.
Qed.

(** ** The operations *)

Definition lneutral (s s' : kstate) : Prop :=
  exists fs, leff fs s s' /\ Forall (fun f => neutral f = true) fs.

Lemma lneutral_nil s s' : leff [] s s' -> lneutral s s'.
Proof. intros E. exists []. split; [done|constructor]. Qed.

Lemma lneutral_inv s s' : sched_inv (Some (current s)) s -> lneutral s s' -> lock_inv s -> lock_inv s'.
Proof.
  intros Hi (fs & E & Hf). eapply leff_neutral; [apply (si_nodup _ _ Hi)|apply (si_current _ _ Hi)|done|done].
Qed.

Lemma sema_try_down_leff r s a s' :
  lock_sema r = false -> sema_try_down r s = Ok (a, s') -> leff [] s s'.
Proof. unfold sema_try_down. intros Hr H. kinv H. case_match; kinv Ha; leff_go; auto. Qed.

Lemma donation_leff f s a s' :
  f = KDonation \/ (exists c l, f = KDonate c l) -> run_frame f s = Ok (a, s') -> lneutral s s'.
Proof.
  intros [->|(c & l & ->)] H; simpl in H.
  - unfold donation_start in H. kinv H. eexists. split; [leff_go|by repeat constructor].
  - unfold donation_step in H. kinv H. apply donation_turn_inv in Ha as [[-> ->]|(h & -> & ->)]; kinv H.
    + apply lneutral_nil, leff_refl.
    + eexists. split; [leff_go|by repeat constructor].
Qed.

Lemma thread_created_leff p s a s' : thread_created p s = Ok (a, s') -> lneutral s s'.
Proof.
  unfold thread_created. intros H. kinv H. apply thread_get_priority_inv in Ha as ->.
  destruct (_ <=? p); [|kinv H; apply lneutral_nil, leff_refl].
  eexists. split; [by eapply thread_yield_leff|by repeat constructor].
Qed.

Lemma lock_code_leff f s a s' :
  (exists l, f = KTryLock l \/ f = KDonorInsert l) \/ f = KPriorityRecheck ->
  run_frame f s = Ok (a, s') -> leff [] s s'.
Proof.
  intros [[l [->| ->]]| ->] H; simpl in H.
  - unfold set_try_lock in H. kinv H. leff_go.
  - unfold donor_insert in H. kinv H. by apply leff_upd.
  - unfold priority_recheck in H. kinv H. case_match; kinv H; by apply leff_upd.
Qed.

Lemma lock_release_leff l s a s' :
  lock_release l s = Ok (a, s') -> leff [KPriorityRecheck; KHolderClear l] s s'.
Proof.
  unfold lock_release, donation_back. intros H. kinv H. apply lock_held_inv in Ha as (-> & _).
  lazymatch goal with |- leff _ _ (pushed ?fs ?x) =>
    apply (leff_trans [] fs s x); [done|by apply leff_upd|apply leff_pushed] end.
Qed.

Lemma cond_signal_leff c l s a s' : cond_signal c l s = Ok (a, s') -> lneutral s s'.
Proof.
  unfold cond_signal. intros H. kinv H. apply lock_held_inv in Ha as (-> & _).
  case_match; kinv H; [apply lneutral_nil, leff_refl|].
  eexists. split; [leff_go|by repeat constructor].
Qed.

Lemma cond_broadcast_loop_leff c l s a s' : cond_broadcast_loop c l s = Ok (a, s') -> lneutral s s'.
Proof.
  unfold cond_broadcast_loop. intros H. kinv H. case_match; kinv H; [apply lneutral_nil, leff_refl|].
  eexists. split; [leff_go|by repeat constructor].
Qed.

Lemma thread_tick_leff s a s' : thread_tick s = Ok (a, s') -> leff [] s s'.
Proof.
  unfold thread_tick, intr_yield_on_return. intros H. kinv H.
  destruct (_ =? idle_thread _); [|destruct (negb _)]; kinv Ha;
    (destruct (TIME_SLICE <=? _); kinv H; leff_go).
Qed.

Lemma timer_wakeup_leff now ts : forall s a s',
  in_external_intr s = true -> timer_wakeup_loop now ts s = Ok (a, s') -> leff [] s s' /\ current s' = current s.
Proof.
  induction ts as [|t rest IH]; intros s a s' He H; cbn [timer_wakeup_loop] in H;
    [kinv H; split; [apply leff_refl|done]|].
  kinv H. destruct (_ <=? now); [|kinv H; split; [apply leff_refl|done]]. kinv H.
  apply sema_up_inv in Ha. rewrite He in Ha. subst s0.
  apply IH in H as [E Ec]; [|cbn [in_external_intr set_sleep_list]; by rewrite (proj2 (upped_fields _ _))]. split.
  - eapply leff_nil_r; [|exact E]. eapply leff_nil_r; [by apply (upped_leff (SleepSema t))|leff_field].
  - rewrite Ec. cbn [current set_sleep_list]. unfold upped. by destruct (sort_ordered _ _).
Qed.

Lemma intr_handler_leff s a s' : intr_handler s = Ok (a, s') -> lneutral s s'.
Proof.
  unfold intr_handler, timer_interrupt, timer_wakeup. intros H. kinv H.
  lazymatch goal with X : timer_wakeup_loop _ _ ?x = Ok (_, ?y), Y : thread_tick ?y = Ok (_, ?z) |- _ =>
    assert (E : leff [KIret] s x) by leff_go; apply timer_wakeup_leff in X as [X Xc]; [|done];
    pose proof (q_current _ _ (proj1 (thread_tick_quiet _ _ _ Y))) as Yc;
    apply thread_tick_leff in Y;
    assert (E2 : leff [KIret] s (set_in_external_intr false z))
      by (eapply leff_nil_r; [eapply leff_nil_r; [eapply leff_nil_r; [exact E|exact X]|exact Y]|leff_field]);
    assert (Ec : current (set_in_external_intr false z) = current s) by (cbn; rewrite Yc, Xc; reflexivity)
  end.
  destruct (yield_on_return _).
  - apply thread_yield_leff in H. eexists. split; [by eapply leff_trans|by repeat constructor].
  - kinv H. exists [KIret]. split; [done|by repeat constructor].
Qed.

(** ** Frames that move a token *)

Section Moves.
Context (s : kstate).
Hypothesis (Hi : sched_inv (Some (current s)) s).

Lemma moves f fs s' :
  lock_pre f s -> leff fs s s' -> (forall l, weights l fs = weight l f) ->
  (forall l, KHolderClear l ∈ fs -> holder s l = current s) -> lock_inv s'.
Proof using Hi. apply moved_inv; [apply (si_nodup _ _ Hi)|apply (si_current _ _ Hi)]. Qed.

Lemma neutral_moves f s' : neutral f = true -> lock_pre f s -> lneutral s s' -> lock_inv s'.
Proof using Hi. intros Hf P E. eapply lneutral_inv; [done|done|]. by eapply neutral_pre. Qed.

(** A change of the value of one lock's semaphore. *)
Lemma value_moves f l d s' :
  lock_pre f s -> all_list s' = all_list s -> holder s' = holder s ->
  (forall t, stack_of s' t = stack_of s t) ->
  (forall m, value (sema s' (LockSema m)) = value (sema s (LockSema m)) + (if m =? l then d else 0)) ->
  (forall m, weight m f = if m =? l then d else 0) -> 0 <= value (sema s (LockSema l)) + d -> lock_inv s'.
Proof using Hi.
  intros [B V C I _ _ _] Ha Hh Hk Hv Hw Hd. split; [..|by rewrite Ha, Hh].
  - intros m. rewrite <-(B m), Hw. unfold balance, held. rewrite Ha, Hh, Hv, (total_ext m s s'); [lia|].
    intros t _. by rewrite Hk.
  - intros m. rewrite Hv. destruct (Z.eqb_spec m l); [by subst|]. specialize (V m). lia.
  - intros t m. rewrite Ha, Hh, Hk. apply C.
Qed.

Lemma sema_down_loop_lock r a s' :
  lock_pre (KSemaDown r) s -> sema_down_loop r s = Ok (a, s') -> lock_inv s'.
Proof using Hi.
  intros P H. apply sema_down_loop_inv in H as [[_ H]|[Hv ->]].
  - apply thread_block_leff in H. apply (moves (KSemaDown r) [KSemaDown r]); [done| |intros l; simpl; lia|].
    + eapply leff_nil_r; [|exact H]. unfold queued. leff_go. by right.
    + by intros l ?%list_elem_of_singleton.
  - destruct (lock_sema r) eqn:Er.
    + destruct r; try done. pose proof (lp_value _ _ P lock) as Hb.
      apply (value_moves (KSemaDown (LockSema lock)) lock (-1)); try done; [|lia].
      intros m. cbn. rewrite fn_at. destruct (Z.eqb_spec m lock) as [->|Hm].
      * rewrite decide_True by done. simpl. rewrite u32_small; lia.
      * rewrite decide_False by congruence. lia.
    + apply (moves (KSemaDown r) []); [done|leff_go; auto|intros l; by destruct r|by intros ? ?%not_elem_of_nil].
Qed.

Lemma upped_lock l :
  lock_pre (KSemaUpCall (LockSema l)) s -> lock_inv (upped (LockSema l) s).
Proof using Hi.
  intros P. pose proof (lp_up _ _ P l eq_refl) as H0.
  apply (value_moves (KSemaUpCall (LockSema l)) l 1); [done|..|lia].
  - unfold upped. by destruct (sort_ordered _ _).
  - unfold upped. by destruct (sort_ordered _ _).
  - intros t. unfold upped. destruct (sort_ordered _ _); [done|]. cbn. rewrite fn_at. by case_decide; subst.
  - intros m. unfold upped. destruct (sort_ordered _ _) as [|t ts]; cbn; rewrite !fn_at.
    all: destruct (Z.eqb_spec m l) as [->|Hm]; [rewrite !decide_True by done|rewrite !decide_False by congruence];
      simpl; rewrite ?fn_at, ?decide_True by done; simpl; [rewrite H0; done|lia].
  - done.
Qed.

Lemma sema_up_lock r a s' :
  lock_pre (KSemaUpCall r) s -> sema_up r s = Ok (a, s') -> lock_inv s'.
Proof using Hi.
  intros P H. destruct (lock_sema r) eqn:Er.
  - destruct r; try done. pose proof (upped_lock _ P) as L. apply sema_up_inv in H as ->.
    destruct (in_external_intr s); [done|]. destruct (upped_fields (LockSema lock) s) as [_ _].
    assert (Ha : all_list (upped (LockSema lock) s) = all_list s /\ current (upped (LockSema lock) s) = current s)
      by (unfold upped; by destruct (sort_ordered _ _)).
    destruct Ha as [Ha Hc]. eapply (leff_neutral [KCheckPriority]); [| |apply leff_pushed|by repeat constructor|done].
    + rewrite Ha. apply (si_nodup _ _ Hi).
    + rewrite Ha, Hc. apply (si_current _ _ Hi).
  - eapply (neutral_moves (KSemaUpCall r)); [by destruct r|done|]. by eapply sema_up_leff.
Qed.

Lemma lock_taken_lock l a s' :
  lock_pre (KLockTaken l) s -> lock_taken l s = Ok (a, s') -> lock_inv s'.
Proof using Hi.
  intros P. pose proof (lp_taken _ _ P l eq_refl) as H0. destruct P as [B V C I _ _ _].
  unfold lock_taken. intros H. kinv H.
  set (s1 := set_threads _ s). assert (E : leff [] s s1) by (unfold s1; leff_go).
  assert (Hb : forall m, balance m s1 = balance m s).
  { intros m. rewrite (leff_balance [] s s1 m); [simpl; lia|apply (si_nodup _ _ Hi)|apply (si_current _ _ Hi)|done]. }
  split.
  - intros m. rewrite <-(B m). specialize (Hb m). unfold balance, held in *. cbn in *. rewrite fn_at.
    destruct (Z.eqb_spec m l) as [->|Hm].
    + rewrite decide_True by done. rewrite H0 in Hb. simpl in Hb.
      rewrite (proj2 (Z.eqb_neq _ _) Hn). rewrite H0. simpl. unfold total in *. cbn in *. lia.
    + rewrite decide_False by congruence. unfold total in *. cbn in *. lia.
  - intros m. apply V.
  - intros t m Ht Hin. change (KHolderClear m ∈ stack_of s1 t) in Hin. rewrite (leff_nil s s1 t E) in Hin.
    pose proof (C t m Ht Hin) as Hh. cbn. rewrite fn_at. case_decide; [subst m|done].
    rewrite H0 in Hh. subst t. by apply (si_thread _ _ Hi) in Ht.
  - intros m. cbn. rewrite fn_at. case_decide; [right; apply (si_current _ _ Hi)|apply I].
Qed.

Lemma holder_clear_lock l a s' :
  no_release (stack_of s (current s)) -> lock_pre (KHolderClear l) s ->
  holder_clear l s = Ok (a, s') -> lock_inv s'.
Proof using Hi.
  intros Hnr P. pose proof (lp_holder _ _ P l eq_refl) as H0. destruct P as [B V C I _ _ _].
  assert (Hc0 : current s <> NULL).
  { intros E. pose proof (si_thread _ _ Hi _ (si_current _ _ Hi)) as Ht. by rewrite E in Ht. }
  unfold holder_clear. intros H. kinv H. set (s1 := set_holder _ s).
  assert (Hb : forall m, balance m s1 = balance m s - (if m =? l then 1 else 0)).
  { intros m. unfold balance, held. cbn. rewrite fn_at. unfold total. cbn. destruct (Z.eqb_spec m l) as [->|Hm].
    - rewrite decide_True by done. rewrite H0, (proj2 (Z.eqb_neq _ _) Hc0). simpl. lia.
    - rewrite decide_False by congruence. lia. }
  assert (E : leff [KSemaUpCall (LockSema l)] s1 (pushed [KSemaUpCall (LockSema l)] s1)) by apply leff_pushed.
  split.
  - intros m. rewrite (leff_balance _ s1 _ m (si_nodup _ _ Hi) (si_current _ _ Hi) E), Hb.
    specialize (B m). simpl in *. destruct (m =? l); lia.
  - intros m. apply V.
  - intros t m Ht Hin. change (holder s1 m = t).
    assert (Hin' : KHolderClear m ∈ stack_of s t).
    { destruct (decide (t = current s)) as [->|Hn].
      - change (current s) with (current s1) in Hin. rewrite (le_own _ _ _ E) in Hin.
        apply elem_of_cons in Hin as [?|Hin]; [done|exact Hin].
      - by rewrite (le_stack _ _ _ E) in Hin. }
    pose proof (C t m Ht Hin') as Hh. cbn. rewrite fn_at. case_decide; [subst m|done].
    rewrite H0 in Hh. subst t. unfold no_release in Hnr. rewrite Forall_forall in Hnr. by apply Hnr in Hin'.
  - intros m. cbn. rewrite fn_at. case_decide; [by left|apply I].
Qed.
End Moves.

(** ** Threads that are created *)

Lemma add_child_proc_leff id c s a s' : add_child_proc id c s = Ok (a, s') -> leff [] s s' /\ current s' = current s.
Proof.
  unfold add_child_proc. intros H. kinv H. destruct (c =? NULL); kinv H; [split; [apply leff_refl|done]|].
  split; [|done].
  lazymatch goal with |- leff _ _ (set_threads _ ?x) => apply (leff_nil_r _ _ x) end;
    [leff_go; by left|by apply leff_upd].
Qed.

Definition started (t : Z) (s : kstate) : kstate :=
  set_threads (<[t := with_kstack [KKernelThread] (threads s t)]> (threads s)) s.

Lemma started_lock t s : t <> current s -> stack_of s t = [] -> lock_inv s -> lock_inv (started t s).
Proof.
  intros Hn Hk [B V C I].
  assert (Hs : forall u, stack_of (started t s) u = if decide (t = u) then [KKernelThread] else stack_of s u).
  { intros u. unfold started. cbn. rewrite fn_at. by case_decide. }
  split; [|done| |done].
  - intros l. rewrite <-(B l). unfold balance. rewrite (total_ext l s (started t s)); [done|].
    intros u _. rewrite Hs. case_decide; [subst; by rewrite Hk|done].
  - intros u l Hu. rewrite Hs. case_decide; [by intros ?%list_elem_of_singleton|by apply C].
Qed.

Lemma thread_create_rest_lock t id prio c d s a s' :
  about_to (KCreate t id prio c d) s -> lock_inv s -> thread_create_rest t id prio c d s = Ok (a, s') -> lock_inv s'.
Proof.
  intros [Hi C] L. unfold thread_create_rest. intros H. kinv H.
  assert (He : embryo s t) by (eapply (co_creating _ _ _ C); [by left|done]).
  pose proof (embryo_not_running _ Hi t He) as Hnr. destruct He as (_ & _ & Hk).
  repeat match goal with
  | X : thread_tid _ = _ |- _ => apply thread_tid_inv in X; destruct X as [-> ->]
  | X : thread_unblock _ _ = _ |- _ => apply thread_unblock_inv in X; destruct X as (_ & _ & ->)
  | X : add_child_proc _ _ _ = _ |- _ => apply add_child_proc_leff in X; destruct X as [X Xc]
  end.
  set (s2 := set_threads (<[t := with_tid id (threads s t)]> (threads s)) s) in *.
  fold (started t s2) in *.
  assert (L3 : lock_inv (started t s2)).
  { apply started_lock; [done|unfold s2; cbn; by rewrite fn_at, decide_True|].
    eapply (leff_neutral []); [apply (si_nodup _ _ Hi)|apply (si_current _ _ Hi)|by apply leff_upd|constructor|done]. }
  lazymatch goal with |- lock_inv (pushed _ ?x) => assert (E : leff [] (started t s2) x) end.
  { lazymatch goal with X : leff [] ?x ?y |- _ =>
      apply (leff_nil_r [] _ x); [by apply leff_upd|]; apply (leff_nil_r [] _ y); [exact X|] end.
    unfold readied, ready_with. leff_go. }
  refine (leff_neutral [KCreated _] (started t s2) _ (si_nodup _ _ Hi) (si_current _ _ Hi) _ _ L3); [|by repeat constructor].
  eapply (leff_trans [] [KCreated _]); [|exact E|apply leff_pushed]. cbn [readied current set_threads ready_with set_ready_list].
  rewrite Xc. done.
Qed.

Lemma total_app l s a b : total l s (a ++ b) = total l s a + total l s b.
Proof. induction a as [|t a IH]; simpl; [done|]. unfold total in *. simpl. rewrite IH. lia. Qed.

Lemma init_thread_lock p nm prio s a s' :
  fresh_page s p -> lock_inv s -> init_thread p nm prio s = Ok (a, s') -> lock_inv s'.
Proof.
  intros Hp [B V C I] H. pose proof (init_thread_births p nm prio s a s' Hp H) as [Bi _].
  assert (Hk : forall t, t ∈ all_list s -> stack_of s' t = stack_of s t).
  { intros t Ht. apply (tview_eq s s'), (bi_thread _ _ _ Bi). intros ->. by apply Hp. }
  assert (Hh : holder s' = holder s /\ forall l, sema s' (LockSema l) = sema s (LockSema l)).
  { unfold init_thread in H. kinv H. split; [done|]. intros l. cbn. by rewrite !fn_at, !decide_False. }
  destruct Hh as [Hh Hv]. pose proof (bi_new _ _ _ Bi) as Hnew. unfold tview in Hnew. injection Hnew as _ Hk0 _.
  split.
  - intros l. rewrite <-(B l). unfold balance, held. rewrite Hh, Hv, (bi_all _ _ _ Bi), total_app.
    rewrite (total_ext l s s' (all_list s)) by (intros; by rewrite Hk).
    unfold total at 2. simpl. rewrite Hk0. simpl. lia.
  - intros l. rewrite Hv. apply V.
  - intros t l. rewrite (bi_all _ _ _ Bi), Hh. intros [Ht|Ht]%elem_of_app; [rewrite Hk by done; by apply C|].
    apply list_elem_of_singleton in Ht as ->. rewrite Hk0. by intros ?%not_elem_of_nil.
  - intros l. rewrite (bi_all _ _ _ Bi), Hh, elem_of_app. destruct (I l); auto.
Qed.

(** ** Every step keeps the token *)

Lemma acquire_weights l m s : weights m (acquire_frames l s) = 0.
Proof. unfold acquire_frames. destruct (negb _); simpl; destruct (m =? l); lia. Qed.

Lemma acquire_clear l m s : KHolderClear m ∉ acquire_frames l s.
Proof.
  unfold acquire_frames. intros H. assert (Forall (fun f => f <> KHolderClear m)
    ((if negb (holder s l =? NULL) then [KTryLock l; KDonation; KDonorInsert l] else []) ++
       [KSemaDownCall (LockSema l); KLockTaken l])) as Hf by (destruct (negb _); by repeat constructor).
  rewrite Forall_forall in Hf. by apply (Hf _ H).
Qed.

Lemma lock_acquire_lock l f s a s' :
  sched_inv (Some (current s)) s -> neutral f = true -> lock_pre f s ->
  lock_acquire l s = Ok (a, s') -> lock_inv s'.
Proof.
  intros Hi Hf P [_ ->]%lock_acquire_inv.
  eapply (moves s Hi f (acquire_frames l s)); [done|apply leff_pushed| |].
  - intros m. rewrite acquire_weights. pose proof (neutral_weights m [f] ltac:(by repeat constructor)) as E.
    simpl in E. lia.
  - intros m H. by destruct (acquire_clear l m s).
Qed.

Lemma lock_release_lock l f s a s' :
  sched_inv (Some (current s)) s -> neutral f = true -> lock_pre f s ->
  lock_release l s = Ok (a, s') -> lock_inv s'.
Proof.
  intros Hi Hf P H. pose proof (lock_release_quiet _ _ _ _ H) as [Hh _]. apply lock_release_leff in H.
  eapply (moves s Hi f [KPriorityRecheck; KHolderClear l]); [done|done| |].
  - intros m. pose proof (neutral_weights m [f] ltac:(by repeat constructor)) as E. simpl in *. lia.
  - by intros m [?|[[= ->]|[]%not_elem_of_nil]%elem_of_cons]%elem_of_cons.
Qed.

Lemma run_frame_lock f s a s' :
  about_to f s -> lock_pre f s -> run_frame f s = Ok (a, s') -> lock_inv s'.
Proof.
  intros P L H. pose proof P as [Hi C].
  assert (Hst := stack_ok_head _ _ _ (co_stack _ _ _ C)).
  assert (HN : neutral f = true -> lneutral s s' -> lock_inv s') by (intros; by eapply neutral_moves).
  destruct f; try (apply HN; [done|]; apply lneutral_nil; refine (lock_code_leff _ _ _ _ _ H); by eauto 6);
    try (apply HN; [done|]; refine (donation_leff _ _ _ _ _ H); by eauto); simpl in H.
  - kinv H. apply HN; [done|]. apply lneutral_nil. leff_field.
  - kinv H. apply HN; [done|]. apply lneutral_nil. leff_field.
  - kinv H. apply HN; [done|]. apply lneutral_nil. leff_field.
  - apply HN; [done|]. by eapply check_priority_leff.
  - unfold sema_down in H. kinv H. eapply (moves s Hi _ [KSemaDown s0; KIntrSet (intr_on s)] _ L); [leff_go| |].
    + intros l. by destruct s0; simpl; lia.
    + by intros l [?|[?|[]%not_elem_of_nil]%elem_of_cons]%elem_of_cons.
  - by eapply sema_down_loop_lock.
  - by eapply sema_up_lock.
  - by eapply (lock_acquire_lock lock (KLockAcquire lock)).
  - by eapply lock_taken_lock.
  - by eapply (lock_release_lock lock (KLockRelease lock)).
  - by eapply holder_clear_lock.
  - apply HN; [done|]. by eapply cond_signal_leff.
  - apply HN; [done|]. by eapply cond_broadcast_loop_leff.
  - apply HN; [done|]. unfold allocate_tid in H. kinv H. eexists. split; [leff_go|by repeat constructor].
  - eapply thread_create_rest_lock; [done|by eapply neutral_pre; [|exact L]|done].
  - apply HN; [done|]. by eapply thread_created_leff.
  - apply HN; [done|]. unfold process_exit_rest in H. kinv H. apply thread_block_leff in H.
    eexists. split; [eapply leff_nil_r; [|exact H]; leff_go|by repeat constructor].
  - by pose proof (co_stack _ _ _ C).
  - apply HN; [done|]. unfold idle_loop in H. kinv H. apply thread_block_leff in H.
    eexists. split; [eapply leff_nil_r; [|exact H]; leff_go|by repeat constructor].
  - apply HN; [done|]. kinv H. eexists. split; [leff_go|by repeat constructor].
Qed.

(** A call is a frame that carries nothing, taken from an empty stack. *)
Lemma call_pre s : sound s -> lock_inv s -> lock_pre KKernelThread s.
Proof.
  intros Hs L. split; try done.
  - intros l. simpl. rewrite (li_balance _ L). lia.
  - intros l. apply (token_bounds s l Hs L).
  - apply (li_clear _ L).
  - apply (li_live _ L).
Qed.

Lemma lock_try_acquire_lock l s a s' :
  sound s -> lock_inv s -> lock_try_acquire l s = Ok (a, s') -> lock_inv s'.
Proof.
  intros Hs L. unfold lock_try_acquire, sema_try_down. intros H. kinv H.
  apply lock_held_inv in Ha as (-> & -> & _). pose proof Hs as [Hi _].
  destruct (token_bounds s l Hs L) as (Hv & Hw & Ht). pose proof (held_cases l s) as Hh. pose proof L as [B V C I].
  destruct (0 <? value (sema (set_intr_on false s) (LockSema l))) eqn:E; kinv Ha1; cbv iota in Ha0; kinv Ha0.
  - apply Z.ltb_lt in E. cbn in E. destruct Hh as [[Hh _]|[_ Hh]]; [|lia]. split.
    + assert (Hc0 : current s <> NULL).
      { intros Ec. pose proof (si_thread _ _ Hi _ (si_current _ _ Hi)) as Hth. by rewrite Ec in Hth. }
      intros m. specialize (B m). unfold balance, held, total in *. cbn. rewrite !fn_at.
      destruct (Z.eqb_spec m l) as [->|Hm].
      * rewrite !decide_True by done. cbn. rewrite Hh in B. simpl in B.
        rewrite (proj2 (Z.eqb_neq _ _) Hc0), u32_small by lia. lia.
      * rewrite !decide_False by congruence. done.
    + intros m. cbn. rewrite fn_at. case_decide; [cbn; apply u32_range|apply V].
    + intros t m Ht' Hin. cbn in *. pose proof (C t m Ht' Hin) as Hx. rewrite fn_at. case_decide; [subst m|done].
      rewrite Hh in Hx. subst t. by apply (si_thread _ _ Hi) in Ht'.
    + intros m. cbn. rewrite fn_at. case_decide; [right; apply (si_current _ _ Hi)|apply I].
  - eapply (leff_neutral []); [apply (si_nodup _ _ Hi)|apply (si_current _ _ Hi)| |constructor|done]. leff_go.
Qed.

Lemma run_call_lock c s a s' :
  sound s -> lock_inv s -> stack_of s (current s) = [] -> call_ok s c -> run_call c s = Ok (a, s') -> lock_inv s'.
Proof.
  intros Hs L Hk Hc H. pose proof Hs as [Hi _]. pose proof (call_pre s Hs L) as P.
  assert (HN : lneutral s s' -> lock_inv s') by (intros; by eapply lneutral_inv).
  destruct c; simpl in H, Hc.
  - kinv H. apply HN, lneutral_nil. leff_field.
  - apply HN. eexists. split; [by eapply thread_yield_leff|by repeat constructor].
  - apply HN. unfold thread_set_priority in H. kinv H. eexists. split; [leff_go|by repeat constructor].
  - apply HN. unfold sema_down in H. kinv H. exists [KSemaDown r; KIntrSet (intr_on s)].
    split; [leff_go|]. by destruct r; repeat constructor.
  - kinv H. apply HN, lneutral_nil. eapply sema_try_down_leff; [|done]. by destruct r.
  - apply HN. eapply sema_up_leff; [|done]. by destruct r.
  - by eapply (lock_acquire_lock lock KKernelThread).
  - kinv H. by eapply lock_try_acquire_lock.
  - by eapply (lock_release_lock lock KKernelThread).
  - apply HN. unfold cond_wait in H. kinv H. apply lock_held_inv in Ha as (-> & _).
    eexists. split; [leff_go; by left|by repeat constructor].
  - apply HN. by eapply cond_signal_leff.
  - apply HN. unfold cond_broadcast in H. kinv H. eexists. split; [leff_go|by repeat constructor].
  - apply HN. unfold timer_sleep, sema_down in H. kinv H. eexists. split; [leff_go; by left|by repeat constructor].
  - unfold thread_create in H. kinv H. destruct (Z.eqb_spec page NULL) as [|Hp]; kinv H; [done|].
    destruct Hc as [?|Hf]; [done|]. pose proof (init_thread_births _ _ _ _ _ _ Hf Ha) as [Bi Hp0].
    pose proof (birth_inv page s s0 Hi Bi (proj1 Hf) Hp0) as Hi0. apply init_thread_lock in Ha; [|done|done].
    eapply (leff_neutral [KLockAcquire tid_lock; KAllocTid page prio child dir] s0);
      [apply (si_nodup _ _ Hi0)|apply (si_current _ _ Hi0)|apply leff_pushed|by repeat constructor|done].
  - apply HN. unfold idle in H. kinv H. exists [KSemaUpCall idle_started; KIdle].
    split; [leff_go|]. destruct Hc as [_ Hc]. by destruct idle_started; repeat constructor.
  - apply HN. unfold thread_exit, process_exit in H. kinv H. case_match; kinv H.
    + destruct (child_wait _); eexists; (split; [leff_go|by repeat constructor]).
    + eexists. split; [leff_go|by repeat constructor].
Qed.

Lemma exec_lock e s a s' : sound s -> lock_inv s -> allowed s e -> exec e s = Ok (a, s') -> lock_inv s'.
Proof.
  intros Hs L Ha H. pose proof Hs as [Hi C]. destruct e as [c| |]; simpl in Ha.
  - destruct Ha as [Hk Hc]. by eapply run_call_lock.
  - destruct (stack_of s (current s)) as [|f rest] eqn:E; [done|].
    apply (exec_run_inv _ _ _ f rest E) in H as (s1 & Ho & Hc & Hk & -> & H).
    pose proof (popped_pre f rest s Hs L E) as P. set (s1 := set_threads _ s) in *.
    eapply (run_frame_lock f s1); [|done|exact H]. split; [by apply (sched_inv_quiet s)|]. rewrite Hc, Hk.
    pose proof (cur_ok_quiet s s1 Hi Ho _ C) as C1. by rewrite Hc in C1.
  - eapply lneutral_inv; [exact Hi|by eapply intr_handler_leff|done].
Qed.

Lemma init_lock main : lock_inv (thread_init main).
Proof.
  destruct (init_facts main) as (_ & _ & _ & Hk & _). split.
  - intros l. unfold balance, held, total. cbn [all_list thread_init foldr]. rewrite Hk. done.
  - done.
  - intros t l _. rewrite Hk. by intros ?%not_elem_of_nil.
  - by left.
Qed.

Lemma reachable_lock main s : main <> NULL -> reachable main s -> sound s /\ lock_inv s.
Proof.
  intros Hm H. unfold reachable in H. pose proof (init_sound main Hm) as Hs. pose proof (init_lock main) as L.
  revert Hs L. induction H as [|x y z [e Ha He] _ IH]; [done|]. intros Hs L.
  apply IH; [by eapply exec_sound|by eapply exec_lock].
Qed.

(** ** Who becomes the holder *)

Inductive holder_change (s s' : kstate) : Prop :=
  | holder_kept : holder s' = holder s -> holder_change s s'
  | holder_taken l : holder s l = NULL -> value (sema s' (LockSema l)) = 0 ->
      holder s' = <[l := current s]> (holder s) -> holder_change s s'
  | holder_dropped l : holder s l = current s -> head (stack_of s (current s)) = Some (KHolderClear l) ->
      holder s' = <[l := NULL]> (holder s) -> holder_change s s'.

Lemma lneutral_holder s s' : lneutral s s' -> holder s' = holder s.
Proof. by intros (fs & E & _); apply (le_holder _ _ _ E). Qed.

Lemma sema_up_holder r s a s' : sema_up r s = Ok (a, s') -> holder s' = holder s.
Proof.
  intros ->%sema_up_inv. by destruct (in_external_intr s); unfold pushed, upped; cbn; destruct (sort_ordered _ _).
Qed.

Lemma thread_create_rest_holder t id prio c d s a s' :
  thread_create_rest t id prio c d s = Ok (a, s') -> holder s' = holder s.
Proof.
  unfold thread_create_rest. intros H. kinv H.
  repeat match goal with
  | X : thread_tid _ = _ |- _ => apply thread_tid_inv in X; destruct X as [-> ->]
  | X : thread_unblock _ _ = _ |- _ => apply thread_unblock_inv in X; destruct X as (_ & _ & ->)
  | X : add_child_proc _ _ _ = _ |- _ => apply add_child_proc_leff in X; destruct X as [X%le_holder _]
  end.
  cbn. by rewrite Ha0.
Qed.

Lemma run_frame_holder f s a s' :
  run_frame f s = Ok (a, s') ->
  (exists l, f = KLockTaken l) \/ (exists l, f = KHolderClear l) \/ f = KThreadExit \/ holder s' = holder s.
Proof.
  intros H. destruct f; try (by eauto); right; right; right;
    try (refine (le_holder _ _ _ (lock_code_leff _ _ _ _ _ H)); by eauto 6);
    try (refine (lneutral_holder _ _ (donation_leff _ _ _ _ _ H)); by eauto); simpl in H.
  - by kinv H.
  - by kinv H.
  - by kinv H.
  - by apply lneutral_holder, (check_priority_leff _ _ _ H).
  - unfold sema_down in H. by kinv H.
  - apply sema_down_loop_inv in H as [[_ H]|[_ ->]]; [|done]. by apply thread_block_leff, le_holder in H.
  - by eapply sema_up_holder.
  - by apply lock_acquire_inv in H as [_ ->].
  - by apply lock_release_leff, le_holder in H.
  - by eapply lneutral_holder, cond_signal_leff.
  - by eapply lneutral_holder, cond_broadcast_loop_leff.
  - unfold allocate_tid in H. by kinv H.
  - by eapply thread_create_rest_holder.
  - by eapply lneutral_holder, thread_created_leff.
  - unfold process_exit_rest in H. kinv H. by apply thread_block_leff, le_holder in H.
  - unfold idle_loop in H. kinv H. by apply thread_block_leff, le_holder in H.
  - by kinv H.
Qed.

Lemma run_call_holder c s a s' :
  run_call c s = Ok (a, s') -> (exists l, c = CLockTryAcquire l) \/ holder s' = holder s.
Proof.
  intros H. destruct c; try (by eauto); right; simpl in H.
  - by kinv H.
  - by apply thread_yield_leff, le_holder in H.
  - unfold thread_set_priority in H. by kinv H.
  - unfold sema_down in H. by kinv H.
  - kinv H. unfold sema_try_down in Ha. kinv Ha. case_match; by kinv Ha0.
  - by eapply sema_up_holder.
  - by apply lock_acquire_inv in H as [_ ->].
  - by apply lock_release_leff, le_holder in H.
  - unfold cond_wait in H. kinv H. by apply lock_held_inv in Ha as (-> & _).
  - by eapply lneutral_holder, cond_signal_leff.
  - unfold cond_broadcast in H. by kinv H.
  - unfold timer_sleep, sema_down in H. by kinv H.
  - unfold thread_create, init_thread in H. kinv H. destruct (page =? NULL); by kinv H.
  - unfold idle in H. by kinv H.
  - unfold thread_exit, process_exit in H. kinv H. case_match; by kinv H.
Qed.

Lemma try_acquire_change l s a s' :
  sound s -> lock_inv s -> lock_try_acquire l s = Ok (a, s') -> holder_change s s'.
Proof.
  intros Hs L. destruct (token_bounds s l Hs L) as (Hv & Hw & Ht). pose proof (held_cases l s) as Hh.
  unfold lock_try_acquire, sema_try_down. intros H. kinv H. apply lock_held_inv in Ha as (-> & -> & _).
  destruct (0 <? value (sema (set_intr_on false s) (LockSema l))) eqn:E; kinv Ha1; cbv iota in Ha0; kinv Ha0.
  - apply Z.ltb_lt in E. cbn in E. destruct Hh as [[Hh _]|[_ Hh]]; [|lia].
    apply (holder_taken _ _ l); [done| |done]. cbn. rewrite fn_at, decide_True by done. cbn.
    rewrite u32_small; lia.
  - by apply holder_kept.
Qed.

Lemma exec_holder e s a s' :
  sound s -> lock_inv s -> allowed s e -> exec e s = Ok (a, s') -> holder_change s s'.
Proof.
  intros Hs L Ha H. pose proof Hs as [Hi C]. destruct e as [c| |].
  - destruct (run_call_holder c s a s' H) as [[l ->]|]; [|by apply holder_kept].
    simpl in H. kinv H. by eapply try_acquire_change.
  - simpl in Ha. destruct (stack_of s (current s)) as [|f rest] eqn:E; [done|].
    apply (exec_run_inv _ _ _ f rest E) in H as (s1 & Ho & Hc & Hk & -> & H).
    pose proof (popped_pre f rest s Hs L E) as P.
    destruct (run_frame_holder _ _ _ _ H) as [[l ->]|[[l ->]|[->|Hh]]].
    + apply (holder_taken _ _ l); [apply (lp_taken _ _ P l eq_refl)| |unfold run_frame, lock_taken in H; by kinv H].
      destruct (token_bounds s l Hs L) as (Hv & Hw & Ht). pose proof (held_cases l s) as Hh.
      rewrite E in Hw, Ht. simpl in Hw, Ht. rewrite Z.eqb_refl in Hw, Ht.
      pose proof (co_stack _ _ _ C) as Hst. apply stack_ok_tail in Hst; [|done].
      apply (weights_nonneg l) in Hst as [Hr _]. unfold run_frame, lock_taken in H. kinv H. cbn.
      change (foldr (fun f acc => weight l f + acc) 0 rest) with (weights l rest) in *. lia.
    + apply (holder_dropped _ _ l); [apply (lp_holder _ _ P l eq_refl)|by rewrite E|].
      unfold run_frame, holder_clear in H. by kinv H.
    + by pose proof (co_stack _ _ _ C).
    + by apply holder_kept.
  - apply holder_kept. by eapply lneutral_holder, intr_handler_leff.
Qed.
