(* ===== verification/ThreadProps.v ===== *)
(** * Properties of the scheduler and of locks

    What holds in every state of the kernel, whatever the threads call and
    whenever the timer interrupts them. *)

From stdpp Require Import functions.
From S2P Require Import Prelude ListModel ListOrder ListSpec ThreadModel ThreadInv ThreadSched ThreadStep ThreadLock.

(** ** Executions that can be evaluated *)

Definition call_okb (s : kstate) (c : call) : bool :=
  match c with
  | CSemaDown r | CSemaTryDown r | CSemaUp r => plain_sema r
  | CCreate _ _ _ page _ _ =>
      (page =? NULL) || bool_decide ((page ∉ all_list s) /\ waiters (sema s (WaitSema page)) = [] /\
        waiters (sema s (LoadSema page)) = [] /\ waiters (sema s (SleepSema page)) = [])
  | CIdle r => (idle_thread s =? NULL) && plain_sema r
  | CExit => false
  | _ => true
  end.

Definition allowedb (s : kstate) (e : event) : bool :=
  match e with
  | Call c => bool_decide (stack_of s (current s) = []) && call_okb s c
  | Run =>
      match stack_of s (current s) with
      | [] => false
      | KCreate _ _ _ child _ :: _ => (child =? NULL) || bool_decide (waiters (sema s (ZombiSema child)) = [])
      | _ => true
      end
  | Tick => intr_on s
  end.

Lemma allowedb_ok s e : allowedb s e = true -> allowed s e.
Proof.
  destruct e as [c| |]; simpl; [|destruct (stack_of s (current s)) as [|[] ?]|done]; try done.
  - intros [Hk%bool_decide_eq_true Hc]%andb_true_iff. split; [done|].
    destruct c; simpl in *; try done.
    + apply orb_true_iff in Hc as [?%Z.eqb_eq|Hc%bool_decide_eq_true]; [by left|by right].
    + apply andb_true_iff in Hc as [?%Z.eqb_eq ?]. done.
  - intros [?%Z.eqb_eq|Hc%bool_decide_eq_true]%orb_true_iff; auto.
Qed.

(** The state after a sequence of events, if each of them is allowed and
    returns. *)
Fixpoint trace (es : list event) (s : kstate) : option kstate :=
  match es with
  | [] => Some s
  | e :: es => if allowedb s e then match exec e s with Ok (_, s') => trace es s' | Err _ => None end else None
  end.

Definition after (es : list event) (s : kstate) : kstate := default s (trace es s).

Lemma trace_steps es : forall s s', trace es s = Some s' -> rtc step s s'.
Proof.
  induction es as [|e es IH]; intros s s' H; simpl in H; [by simplify_eq|].
  destruct (allowedb s e) eqn:Ha; [|done]. destruct (exec e s) as [[[] s1]|] eqn:He; [|done].
  eapply rtc_l; [|by apply IH]. eapply step_event; [by apply allowedb_ok|done].
Qed.

Definition defined {A} (o : option A) : bool := match o with Some _ => true | None => false end.

Lemma after_steps es s : defined (trace es s) = true -> rtc step s (after es s).
Proof. unfold after. destruct (trace es s) eqn:E; [|done]. intros _. by eapply trace_steps. Qed.

Lemma after_reachable main es :
  defined (trace es (thread_init main)) = true -> reachable main (after es (thread_init main)).
Proof. apply after_steps. Qed.

(** The state after one event. *)
Definition next (e : event) (s : kstate) : kstate := match exec e s with Ok (_, s') => s' | Err _ => s end.
Definition returns (e : event) (s : kstate) : bool := match exec e s with Ok _ => true | Err _ => false end.

Lemma next_step e s : allowed s e -> returns e s = true -> step s (next e s).
Proof.
  intros Ha. unfold returns, next. destruct (exec e s) as [[[] s']|] eqn:E; [|done]. intros _. by eapply step_event.
Qed.

Definition runs (n : nat) : list event := repeat Run n.

(** The creation of a thread up to its first competition for the processor. *)
Definition create (nm : list Z) (prio page : Z) : list event :=
  Call (CCreate nm prio 1 page 0 0) :: runs 13.

(** A kernel with its idle thread: [thread_start] until the first thread has
    the processor back. *)
Definition demo_main : Z := 4096.
Definition idle_page : Z := 8192.
Definition boot : list event :=
  create [105] PRI_MIN idle_page ++ [Call (CIntrSet true); Call (CSemaDown (SemaVar 5))] ++ runs 1
  ++ runs 1 ++ [Call (CIdle (SemaVar 5))] ++ runs 2 ++ runs 2.

(** ** The queues *)

(** C2: In every reachable state of the kernel the queues and the states of
    the threads agree: exactly the current thread is running; the ready list
    holds, once each, the ready threads other than the idle thread; the wait
    list of a semaphore holds, once each, exactly the threads blocked in
    [sema_down] on it, so that no waiting thread is lost.  No thread is in two
    queues, which is what allows the ready list and the wait lists to share
    the member [elem]. *)
Theorem scheduler_queues main s :
  main <> NULL -> reachable main s ->
  (current s ∈ all_list s /\ forall t, t ∈ all_list s -> (status_of s t = THREAD_RUNNING <-> t = current s)) /\
  (NoDup (ready_list s) /\ forall t, t ∈ ready_list s <->
     t ∈ all_list s /\ status_of s t = THREAD_READY /\ t <> idle_thread s) /\
  (forall r, NoDup (waiters (sema s r)) /\ forall t, t ∈ waiters (sema s r) <->
     t ∈ all_list s /\ status_of s t = THREAD_BLOCKED /\ head (stack_of s t) = Some (KSemaDown r)) /\
  (forall t r, t ∈ ready_list s -> t ∈ waiters (sema s r) -> False) /\
  (forall t r r', t ∈ waiters (sema s r) -> t ∈ waiters (sema s r') -> r = r').
Proof.
  intros Hm Hr. pose proof (reachable_sound _ _ Hm Hr) as [Hi _].
  split_and!; [apply (si_current _ _ Hi)| |apply (si_ready_nodup _ _ Hi)|apply (si_ready _ _ Hi)|..].
  - intros t Ht. rewrite (si_run _ _ Hi) by done. naive_solver.
  - intros r. split; [apply (si_wait_nodup _ _ Hi)|intros; apply (si_wait _ _ Hi)].
  - intros t r (_ & E & _)%(si_ready _ _ Hi) (_ & E' & _)%(si_wait _ _ Hi). congruence.
  - intros t r r' (_ & _ & E)%(si_wait _ _ Hi) (_ & _ & E')%(si_wait _ _ Hi). congruence.
Qed.

(** Two threads compete for a lock: the second one waits for it. *)
Definition contended : list event :=
  boot ++ [Call (CLockAcquire 2)] ++ runs 4 ++ create [97] 40 12288
  ++ runs 1 ++ [Call (CLockAcquire 2)] ++ runs 8.

Lemma scheduler_queues_witness :
  let s := after contended (thread_init demo_main) in
  (current s ∈ all_list s /\ forall t, t ∈ all_list s -> (status_of s t = THREAD_RUNNING <-> t = current s)) /\
  (NoDup (ready_list s) /\ forall t, t ∈ ready_list s <->
     t ∈ all_list s /\ status_of s t = THREAD_READY /\ t <> idle_thread s) /\
  (forall r, NoDup (waiters (sema s r)) /\ forall t, t ∈ waiters (sema s r) <->
     t ∈ all_list s /\ status_of s t = THREAD_BLOCKED /\ head (stack_of s t) = Some (KSemaDown r)) /\
  (forall t r, t ∈ ready_list s -> t ∈ waiters (sema s r) -> False) /\
  (forall t r r', t ∈ waiters (sema s r) -> t ∈ waiters (sema s r') -> r = r').
Proof.
  apply (scheduler_queues demo_main); [done|]. apply after_reachable. vm_compute. reflexivity.
Defined.

(** ** Locks *)

(** C4: Locks exclude.  While a thread is the holder of a lock the lock's
    semaphore is zero, and no step of any thread or of the timer makes another
    thread the holder: the lock stays with the thread until that thread itself
    reaches the end of [lock_release]. *)
Theorem lock_mutual_exclusion main s s' l :
  main <> NULL -> reachable main s -> step s s' -> holder s l <> NULL ->
  holder s l ∈ all_list s /\ value (sema s (LockSema l)) = 0 /\
  (holder s' l = holder s l \/
   (holder s' l = NULL /\ holder s l = current s /\ head (stack_of s (current s)) = Some (KHolderClear l))).
Proof.
  intros Hm Hr [e Ha He] Hh. destruct (reachable_lock _ _ Hm Hr) as [Hs L].
  destruct (token_bounds s l Hs L) as (Hv & Hw & Ht). destruct (held_cases l s) as [[? _]|[_ H1]]; [done|].
  split_and!; [by destruct (li_live _ L l)|lia|].
  destruct (exec_holder e s tt s' Hs L Ha He) as [E|l' E0 _ E|l' E0 E1 E].
  - left. by rewrite E.
  - left. rewrite E, fn_at. case_decide; [subst; congruence|done].
  - rewrite E, fn_at. case_decide; [subst; by right|by left].
Qed.

Lemma lock_mutual_exclusion_witness :
  let s := after contended (thread_init demo_main) in
  let s' := next (Call CYield) s in
  holder s 2 ∈ all_list s /\ value (sema s (LockSema 2)) = 0 /\
  (holder s' 2 = holder s 2 \/
   (holder s' 2 = NULL /\ holder s 2 = current s /\ head (stack_of s (current s)) = Some (KHolderClear 2))).
Proof.
  apply (lock_mutual_exclusion demo_main); [done| | |vm_compute; done].
  - apply after_reachable. vm_compute. reflexivity.
  - apply next_step; [apply allowedb_ok|]; vm_compute; reflexivity.
Defined.

(** ** Exit *)

(** A thread that exits is never reclaimed.  [process_exit] ends in
    [thread_block] and nothing unblocks the thread, so in no reachable state
    does the running thread get to the rest of [thread_exit]: no thread is
    ever dying, none leaves the list of all threads, and its page is never
    freed. *)
Theorem thread_exit_never_completes main s :
  main <> NULL -> reachable main s ->
  head (stack_of s (current s)) <> Some KThreadExit /\
  (forall t, t ∈ all_list s -> status_of s t <> THREAD_DYING /\ is_thread s t = true) /\
  (forall t lv, t ∈ all_list s -> stack_of s t = [KIntrSet lv; KThreadExit] ->
     t <> current s /\ (t ∉ ready_list s) /\ forall r, t ∉ waiters (sema s r)).
Proof.
  intros Hm Hr. destruct (reachable_sound _ _ Hm Hr) as [Hi C]. split_and!.
  - pose proof (co_stack _ _ _ C) as Hs. destruct (stack_of s (current s)) as [|f k]; [done|]. by intros [= ->].
  - intros t Ht. split; [by apply (si_alive _ _ Hi)|by apply (si_thread _ _ Hi)].
  - intros t lv Ht Hk.
    assert (Hn : t <> current s).
    { intros ->. pose proof (co_stack _ _ _ C) as Hs. rewrite Hk in Hs. by destruct Hs. }
    assert (Hz : zombie s t).
    { destruct (si_stack _ _ Hi t Ht) as [Hs|]; [congruence| |done]. rewrite Hk in Hs. by destruct Hs. }
    destruct Hz as [Hb _]. split_and!; [done|by intros (_ & E & _)%(si_ready _ _ Hi); congruence|].
    intros r (_ & _ & E)%(si_wait _ _ Hi). by rewrite Hk in E.
Qed.

(** A thread of priority 40 is created, runs and exits. *)
Definition before_exit : list event := boot ++ create [97] 40 12288 ++ runs 1.

Definition exit0 : kstate := after before_exit (thread_init demo_main).
Definition exit1 : kstate := next (Call CExit) exit0.
Definition exit2 : kstate := next Run exit1.

Lemma exit_reachable : reachable demo_main exit2.
Proof.
  assert (S1 : step exit0 exit1).
  { apply (next_step (Call CExit)); [|vm_compute; reflexivity]. split; [vm_compute; reflexivity|].
    intros [|[q|q|]|q]; vm_compute; done. }
  assert (S2 : step exit1 exit2).
  { apply (next_step Run); [apply allowedb_ok|]; vm_compute; reflexivity. }
  apply (rtc_r _ exit1); [apply (rtc_r _ exit0)|]; [|exact S1|exact S2].
  apply after_reachable. vm_compute. reflexivity.
Qed.

Lemma thread_exit_never_completes_witness :
  let s := exit2 in
  stack_of s 12288 = [KIntrSet true; KThreadExit] /\
  head (stack_of s (current s)) <> Some KThreadExit /\
  (forall t, t ∈ all_list s -> status_of s t <> THREAD_DYING /\ is_thread s t = true) /\
  (forall t lv, t ∈ all_list s -> stack_of s t = [KIntrSet lv; KThreadExit] ->
     t <> current s /\ (t ∉ ready_list s) /\ forall r, t ∉ waiters (sema s r)).
Proof.
  split; [vm_compute; reflexivity|]. apply (thread_exit_never_completes demo_main); [done|exact exit_reachable].
Defined.
