(* ===== verification/ThreadPrio.v ===== *)
(** * Priority scheduling and priority donation *)

From Stdlib Require Import Sorted.
From stdpp Require Import functions.
From S2P Require Import Prelude ListModel ListOrder ListSpec ThreadModel ThreadInv ThreadSched ThreadStep ThreadLock ThreadProps.

Abbreviation prio s t := (priority (threads s t)).

#[global] Instance comparePriority_swo l s : StrictWeakOrder (comparePriority l s).
Proof. unfold comparePriority. split; intros; lia. Qed.

#[global] Instance compare_timer_swo s : StrictWeakOrder (compare_timer s).
Proof. unfold compare_timer. split; intros; lia. Qed.

(** No thread is behind one of lower priority. *)
Definition by_priority (s : kstate) (ts : list Z) : Prop := nondecreasing (comparePriority elem s) ts.

Lemma by_priority_cons s t ts :
  by_priority s (t :: ts) <-> by_priority s ts /\ forall u, u ∈ ts -> prio s u <= prio s t.
Proof.
  unfold by_priority, nondecreasing. split.
  - intros H. apply StronglySorted_inv in H as [H1 H2]. split; [done|]. rewrite Forall_forall in H2.
    intros u Hu. specialize (H2 u Hu). unfold comparePriority in H2. simpl in H2. lia.
  - intros [H1 H2]. constructor; [done|]. apply Forall_forall. intros u Hu. specialize (H2 u Hu).
    unfold comparePriority. simpl. lia.
Qed.

Lemma by_priority_ext s s' ts :
  (forall t, t ∈ ts -> prio s' t = prio s t) -> by_priority s ts -> by_priority s' ts.
Proof.
  induction ts as [|t ts IH]; intros E H; [constructor|]. apply by_priority_cons in H as [H1 H2].
  apply by_priority_cons. split; [apply IH; [|done]; intros; apply E; by right|].
  intros u Hu. rewrite !E by (by left || by right). auto.
Qed.

Lemma by_priority_insert s t ts :
  by_priority s ts -> by_priority s (insert_ordered (comparePriority elem s) t ts).
Proof.
  intros H. destruct (insert_ordered_sorted (comparePriority elem s) t ts H) as (us & vs & _ & -> & _ & _ & H').
  done.
Qed.

(** The first thread after an insertion: the new one only if it is above all. *)
Lemma insert_head s t ts :
  head (insert_ordered (comparePriority elem s) t ts) =
    Some (match ts with [] => t | u :: _ => if prio s u <? prio s t then t else u end).
Proof. destruct ts as [|u ts]; [done|]. simpl. unfold comparePriority at 1. simpl. by destruct (_ <? _). Qed.

(** ** Running forward *)

Lemma current_not_null s : sched_inv (Some (current s)) s -> current s <> NULL.
Proof. intros Hi E. pose proof (si_thread _ _ Hi _ (si_current _ _ Hi)) as H. by rewrite E in H. Qed.

Lemma thread_current_ok s : sched_inv (Some (current s)) s -> thread_current s = Ok (current s, s).
Proof.
  intros Hi. unfold thread_current, running_thread, gets, get, mbind, M_bind. cbn.
  rewrite (si_thread _ _ Hi _ (si_current _ _ Hi)), (run_status _ Hi). done.
Qed.

Lemma upd_thread_ok t f s :
  t <> NULL -> upd_thread t f s = Ok (tt, set_threads (<[t := f (threads s t)]> (threads s)) s).
Proof. intros H. unfold upd_thread. by rewrite (proj2 (Z.eqb_neq _ _) H). Qed.

Lemma thread_at_ok t s : t <> NULL -> thread_at t s = Ok (threads s t, s).
Proof. intros H. unfold thread_at. by rewrite (proj2 (Z.eqb_neq _ _) H). Qed.

Lemma push_ok fs s : current s <> NULL -> push fs s = Ok (tt, pushed fs s).
Proof. intros H. unfold push, running_thread. cbn. by apply upd_thread_ok. Qed.

Lemma bind_get {B} (k : kstate -> K B) s : (get ≫= k) s = k s s.
Proof. reflexivity. Qed.

(** ** Yielding *)

Lemma schedule_ok s :
  intr_on s = false -> status_of s (current s) <> THREAD_RUNNING -> status_of s (current s) <> THREAD_DYING ->
  is_thread s (next_of s) = true -> schedule s = Ok (tt, dispatch s).
Proof.
  intros H1 H2 H3 H4.
  assert (Hs : exists s', schedule s = Ok (tt, s')).
  { unfold schedule, next_thread_to_run, running_thread, switch_threads, thread_schedule_tail, intr_get_level, upd_thread, modify.
    assert (Hnz : (next_of s =? NULL) = false) by (unfold is_thread in H4; by destruct (next_of s =? NULL)).
    set (r := set_ready_list (tail (ready_list s)) s).
    unfold mbind, M_bind, gets, get, put, mret, M_ret. cbn.
    replace (match ready_list s with [] => _ | _ :: _ => _ end s) with (Ok (next_of s, r)).
    2:{ unfold next_of, r. destruct (ready_list s) as [|x k] eqn:E; cbn; [|done]. rewrite <-E. by destruct s. }
    cbn. rewrite H1. cbn. rewrite bool_decide_eq_false_2 by done. cbn.
    change (is_thread r (next_of s)) with (is_thread s (next_of s)). rewrite H4. cbn.
    destruct (Z.eqb_spec (current s) (next_of s)) as [E|E]; cbn.
    - rewrite E, Hnz. cbn. rewrite H1. cbn. eauto.
    - rewrite H1. cbn. rewrite Hnz. cbn. rewrite fn_at, decide_False by congruence.
      rewrite bool_decide_eq_false_2 by done. destruct (negb (current s =? NULL)); cbn; eauto. }
  destruct Hs as [s' Hs]. rewrite Hs. by apply schedule_inv in Hs as (-> & _).
Qed.

Lemma yielded_facts s :
  current (yielded s) = current s /\ intr_on (yielded s) = false /\
  status_of (yielded s) (current s) = THREAD_READY /\ (forall t, prio (yielded s) t = prio s t) /\
  (forall t, magic (threads (yielded s) t) = magic (threads s t)) /\
  idle_thread (yielded s) = idle_thread s /\
  ready_list (yielded s) =
    (if current s =? idle_thread s then ready_list s
     else insert_ordered (comparePriority elem s) (current s) (ready_list s)).
Proof.
  unfold yielded, pushed, restate, ready_with. destruct (_ =? _); cbn; rewrite !fn_at, !decide_True by done;
    (split_and!; [done..| | |done|done]); intros t; rewrite !fn_at; by case_decide; subst.
Qed.

Lemma thread_yield_ok s :
  sound s -> in_external_intr s = false ->
  thread_yield s = Ok (tt, dispatch (yielded s)).
Proof.
  intros Hs He. pose proof Hs as [Hi _]. pose proof (run_status _ Hi) as Hrun.
  destruct (yielded_facts s) as (F1 & F2 & F3 & _ & F5 & F6 & F7).
  pose proof (si_thread _ _ Hi _ (si_current _ _ Hi)) as Hcur.
  assert (Hn : is_thread (yielded s) (next_of (yielded s)) = true).
  { rewrite (is_thread_view s) by done. unfold next_of. rewrite F6, F7.
    destruct (Z.eqb_spec (current s) (idle_thread s)) as [E|E].
    - destruct (ready_list s) eqn:Er; [by rewrite <-E|]. apply (si_thread _ _ Hi), (si_ready _ _ Hi). rewrite Er. by left.
    - pose proof (insert_head s (current s) (ready_list s)) as Hh. destruct (insert_ordered _ _ _); [done|].
      simpl in Hh. injection Hh as ->. destruct (ready_list s) eqn:Er; [done|]. destruct (_ <? _); [done|].
      apply (si_thread _ _ Hi), (si_ready _ _ Hi). rewrite Er. by left. }
  assert (Hsch : schedule (yielded s) = Ok (tt, dispatch (yielded s))).
  { apply schedule_ok; [done|by rewrite F1, F3..|done]. }
  rewrite <-Hsch.
  unfold thread_yield. mstep (thread_current_ok s Hi). mstep (eq_refl : intr_context s = Ok (in_external_intr s, s)).
  rewrite He. mstep (eq_refl : ASSERT (negb false) s = Ok (tt, s)).
  mstep (eq_refl : intr_disable s = Ok (intr_on s, set_intr_on false s)). rewrite bind_get. unfold yielded.
  pose proof (current_not_null s Hi) as Hc0. cbn [idle_thread set_intr_on].
  destruct (current s =? idle_thread s); cbn [negb].
  - rewrite bind_ret. mstep (upd_thread_ok (current s) (with_status THREAD_READY) (set_intr_on false s) Hc0).
    mstep_by (by apply push_ok). done.
  - mstep (eq_refl : ready_insert (current s) (set_intr_on false s) = Ok (tt, ready_with (current s) (set_intr_on false s))).
    mstep (upd_thread_ok (current s) (with_status THREAD_READY) (ready_with (current s) (set_intr_on false s)) Hc0).
    mstep_by (by apply push_ok). done.
Qed.

(** ** Elementary changes

    Every operation is a sequence of elementary changes.  A change keeps the
    ready list in order when it does not touch the priority of a thread in it,
    and keeps the sleepers asleep when it leaves their wake-up times, their
    stacks and their semaphores alone; [b] says that it may wake or add
    sleepers. *)
Inductive atom (b : bool) (s : kstate) : kstate -> Prop :=
  | at_thread t th :
      (t ∉ ready_list s) \/ priority th = prio s t ->
      b = true \/ (t ∉ all_list s) \/
        (timeChecker th = timeChecker (threads s t) /\ forall f, f ∈ stack_of s t -> f ∈ kstack th) ->
      atom b s (set_threads (<[t := th]> (threads s)) s)
  | at_sema r x :
      b = true \/ value x = value (sema s r) \/ (forall t, t ∈ all_list s -> r <> SleepSema t) ->
      atom b s (set_sema (<[r := x]> (sema s)) s)
  | at_insert t : atom b s (ready_with t s)
  | at_next : atom b s (set_ready_list (tail (ready_list s)) s)
  | at_all ts : (forall t, t ∈ all_list s -> t ∈ ts) -> atom b s (set_all_list ts s)
  | at_sleep ts : b = true -> atom b s (set_sleep_list ts s)
  | at_other s' :
      threads s' = threads s -> sema s' = sema s -> ready_list s' = ready_list s ->
      all_list s' = all_list s -> sleep_list s' = sleep_list s -> atom b s s'.

Definition does (b : bool) : kstate -> kstate -> Prop := rtc (atom b).

Lemma does_weaken b s s' : does false s s' -> does b s s'.
Proof.
  induction 1 as [|x y z A _ IH]; [apply rtc_refl|]. eapply rtc_l; [|exact IH]. clear IH.
  destruct A; try (by constructor); constructor; try done; naive_solver.
Qed.

Lemma atom_order b s s' : atom b s s' -> by_priority s (ready_list s) -> by_priority s' (ready_list s').
Proof.
  intros A H. destruct A as [t th Hp _|r x _|t| |ts _|ts _|s' E1 _ E3 _ _]; try (by apply (by_priority_ext s)).
  - apply (by_priority_ext s); [|done]. intros u Hu. cbn in *. rewrite fn_at. case_decide; [subst|done]. by destruct Hp.
  - apply (by_priority_ext s); [done|]. by apply by_priority_insert.
  - apply (by_priority_ext s); [done|]. cbn. destruct (ready_list s); [done|]. by apply by_priority_cons in H as [H _].
  - rewrite E3. apply (by_priority_ext s); [|done]. intros. by rewrite E1.
Qed.

Lemma does_order b s s' : does b s s' -> by_priority s (ready_list s) -> by_priority s' (ready_list s').
Proof. induction 1 as [|x y z A _ IH]; [done|]. intros H. apply IH. by eapply atom_order. Qed.

Lemma does_trans b s1 s2 s3 : does b s1 s2 -> does b s2 s3 -> does b s1 s3.
Proof. intros H1 H2. unfold does in *. by etrans. Qed.

Lemma does_r b s1 s2 s3 : does b s1 s2 -> atom b s2 s3 -> does b s1 s3.
Proof. apply rtc_r. Qed.

(** [does_go] takes a state apart into the changes that made it. *)
Ltac does_thread b x t th :=
  apply (at_thread b x t th);
    [first [right; reflexivity|left; assumption|idtac]
    |first [right; right; split; [reflexivity|intros ? ?; first [assumption|apply elem_of_app; right; assumption]]|idtac]].

Ltac does_go :=
  lazymatch goal with
  | |- does _ ?s ?s => apply rtc_refl
  | |- does ?b ?s (pushed ?fs ?x) => unfold pushed; does_go
  | |- does ?b ?s (set_threads (<[?t := ?th]> _) ?x) => apply (does_r b s x); [does_go|does_thread b x t th]
  | |- does ?b ?s (set_sema (<[?r := ?v]> _) ?x) => apply (does_r b s x); [does_go|apply (at_sema b x r v); first [right; right; done|right; left; reflexivity|idtac]]
  | |- does ?b ?s (ready_with ?t ?x) => apply (does_r b s x); [does_go|apply at_insert]
  | |- does ?b ?s (set_ready_list (insert_ordered _ ?t _) ?x) => apply (does_r b s x); [does_go|apply (at_insert _ x t)]
  | |- does ?b ?s (set_ready_list (tail _) ?x) => apply (does_r b s x); [does_go|apply at_next]
  | |- does ?b ?s (set_all_list ?l ?x) => apply (does_r b s x); [does_go|apply at_all]
  | |- does ?b ?s (set_sleep_list ?l ?x) => apply (does_r b s x); [does_go|apply at_sleep]
  | |- does ?b ?s (_ _ ?x) => apply (does_r b s x); [does_go|by apply at_other]
  end.

Lemma dispatch_does b s : does b s (dispatch s).
Proof. unfold dispatch. cbv zeta. does_go. Qed.

Lemma schedule_does b s a s' :
  status_of s (current s) <> THREAD_DYING -> schedule s = Ok (a, s') -> does b s s'.
Proof. intros Hd (-> & _)%schedule_inv; [apply dispatch_does|done]. Qed.

Lemma thread_block_does b s a s' : thread_block s = Ok (a, s') -> does b s s'.
Proof.
  intros (_ & _ & _ & H)%thread_block_inv. eapply does_trans; [|eapply schedule_does, H].
  - unfold restate. does_go.
  - by rewrite restate_status, decide_True.
Qed.

Lemma thread_yield_does b s a s' : thread_yield s = Ok (a, s') -> does b s s'.
Proof.
  intros (_ & _ & H)%thread_yield_inv. eapply does_trans; [|eapply schedule_does, H].
  - unfold yielded, restate. cbv zeta. destruct (_ =? _); does_go.
  - destruct (yielded_facts s) as (E & _ & F & _). by rewrite E, F.
Qed.

Lemma check_priority_does b s a s' : check_priority s = Ok (a, s') -> does b s s'.
Proof.
  unfold check_priority. intros H. kinv H. destruct (ready_list s); kinv H; [apply rtc_refl|].
  destruct (_ <? _); [by eapply thread_yield_does|kinv H; apply rtc_refl].
Qed.

(** A semaphore that is not the one of a sleeper. *)
Definition not_sleep (r : sema_ref) : Prop := forall t, r <> SleepSema t.

Lemma upped_does b r s : b = true \/ not_sleep r -> does b s (upped r s).
Proof.
  intros Hr. unfold upped, incremented. destruct (sort_ordered _ _) as [|t rest].
  - does_go. unfold not_sleep in Hr. naive_solver.
  - unfold readied, with_waiters. cbv zeta. does_go; unfold not_sleep in Hr; naive_solver.
Qed.

Lemma sema_up_does b r s a s' : b = true \/ not_sleep r -> sema_up r s = Ok (a, s') -> does b s s'.
Proof.
  intros Hr ->%sema_up_inv. pose proof (upped_does b r s Hr) as D.
  destruct (in_external_intr s); [done|]. eapply does_trans; [exact D|does_go].
Qed.

Lemma current_not_ready s : sched_inv (Some (current s)) s -> current s ∉ ready_list s.
Proof. intros Hi (_ & E & _)%(si_ready _ _ Hi). rewrite (run_status _ Hi) in E. done. Qed.

Lemma sema_down_does b r s a s' : sema_down r s = Ok (a, s') -> does b s s'.
Proof. unfold sema_down. intros H. kinv H. does_go. Qed.

Lemma sema_down_loop_does b r s a s' :
  b = true \/ not_sleep r -> sema_down_loop r s = Ok (a, s') -> does b s s'.
Proof.
  intros Hr [[_ H]|[_ ->]]%sema_down_loop_inv.
  - eapply does_trans; [|by eapply thread_block_does]. unfold queued. does_go.
  - does_go. unfold not_sleep in Hr. naive_solver.
Qed.

Lemma sema_try_down_does b r s a s' : b = true \/ not_sleep r -> sema_try_down r s = Ok (a, s') -> does b s s'.
Proof.
  unfold sema_try_down, not_sleep. intros Hr H. kinv H. case_match; kinv Ha; does_go; naive_solver.
Qed.

Lemma lock_release_does b l s a s' : lock_release l s = Ok (a, s') -> does b s s'.
Proof.
  unfold lock_release, donation_back. intros H. kinv H. apply lock_held_inv in Ha as (-> & _). does_go.
Qed.

Lemma cond_signal_does b c l s a s' : cond_signal c l s = Ok (a, s') -> does b s s'.
Proof.
  unfold cond_signal. intros H. kinv H. apply lock_held_inv in Ha as (-> & _). case_match; kinv H; does_go.
Qed.

Lemma priority_recheck_does b s a s' :
  current s ∉ ready_list s -> priority_recheck s = Ok (a, s') -> does b s s'.
Proof. unfold priority_recheck. intros Hn H. kinv H. case_match; kinv H; does_go. Qed.

Lemma add_child_proc_does b id c s a s' : add_child_proc id c s = Ok (a, s') -> does b s s'.
Proof. unfold add_child_proc. intros H. kinv H. destruct (c =? NULL); kinv H; does_go. Qed.

(** The new thread has no frames before it gets the ones it starts with. *)
Lemma thread_create_rest_does b t id prio c d s a s' :
  stack_of s t = [] -> thread_create_rest t id prio c d s = Ok (a, s') -> does b s s'.
Proof.
  intros Hk. unfold thread_create_rest. intros H. kinv H.
  repeat match goal with
  | X : thread_tid _ = _ |- _ => apply thread_tid_inv in X; destruct X as [-> ->]
  | X : thread_unblock _ _ = _ |- _ => apply thread_unblock_inv in X; destruct X as (_ & _ & ->)
  | X : add_child_proc _ _ _ = _ |- _ => apply (add_child_proc_does b) in X
  end.
  lazymatch goal with X : does b ?x ?y |- _ =>
    assert (Dx : does b s x) by (does_go; right; right; split; [done|]; cbn; rewrite fn_at, decide_True by done; cbn;
      rewrite Hk; by intros f ?%not_elem_of_nil);
    apply (does_trans _ _ x); [exact Dx|apply (does_trans _ _ y); [exact X|unfold readied; cbv zeta; does_go]] end.
Qed.

(** The piece of code of every frame but the turns of a donation. *)
Lemma run_frame_does b f s a s' :
  about_to f s -> (forall c l, f <> KDonate c l) -> b = true \/ (forall t, f <> KSemaDown (SleepSema t)) ->
  run_frame f s = Ok (a, s') -> does b s s'.
Proof.
  intros [Hi C] Hd Hf H. pose proof (stack_ok_head _ _ _ (co_stack _ _ _ C)) as Hst.
  pose proof (current_not_ready s Hi) as Hn.
  destruct f; try done; simpl in H.
  - kinv H. does_go.
  - kinv H. does_go.
  - kinv H. does_go.
  - by eapply check_priority_does.
  - by eapply sema_down_does.
  - eapply sema_down_loop_does; [|exact H]. destruct Hf as [|Hf]; [by left|right]. intros t ->. by apply (Hf t).
  - eapply sema_up_does; [|exact H]. right. intros t ->. done.
  - apply lock_acquire_inv in H as [_ ->]. does_go.
  - unfold set_try_lock in H. kinv H. does_go.
  - unfold donation_start in H. kinv H. does_go.
  - by destruct (Hd cur curr_lock).
  - unfold donor_insert in H. kinv H. does_go.
  - unfold lock_taken in H. kinv H. does_go.
  - by eapply lock_release_does.
  - by eapply priority_recheck_does.
  - unfold holder_clear in H. kinv H. does_go.
  - by eapply cond_signal_does.
  - unfold cond_broadcast_loop in H. kinv H. case_match; kinv H; does_go.
  - unfold allocate_tid in H. kinv H. does_go.
  - eapply thread_create_rest_does; [|exact H]. eapply (co_creating _ _ _ C); [by left|done].
  - unfold thread_created in H. kinv H. apply thread_get_priority_inv in Ha as ->.
    destruct (_ <=? priority); [by eapply thread_yield_does|kinv H; apply rtc_refl].
  - unfold process_exit_rest in H. kinv H. eapply does_trans; [|by eapply thread_block_does]. does_go.
  - by pose proof (co_stack _ _ _ C).
  - unfold idle_loop in H. kinv H. eapply does_trans; [|by eapply thread_block_does]. does_go.
  - kinv H. does_go.
Qed.

Lemma thread_create_does b nm prio fn p c d s a s' :
  sched_inv (Some (current s)) s -> p = NULL \/ fresh_page s p ->
  thread_create nm prio fn p c d s = Ok (a, s') -> does b s s'.
Proof.
  intros Hi Hp. unfold thread_create, init_thread. intros H. kinv H. destruct (Z.eqb_spec p NULL) as [|Hn]; kinv H; [apply rtc_refl|].
  destruct Hp as [|(Hp & _)]; [done|]. assert (Hr : p ∉ ready_list s) by (by intros [? _]%(si_ready _ _ Hi)).
  assert (Hs : forall t, t ∈ all_list s -> SleepSema p <> SleepSema t) by (by intros t Ht [= ->]).
  does_go; [by right; left|]. cbn. intros t Ht. apply elem_of_app. by left.
Qed.

(** Every call of the kernel. *)
Lemma run_call_does b c s a s' :
  sound s -> call_ok s c -> b = true \/ (forall n, c <> CSleep n) -> run_call c s = Ok (a, s') -> does b s s'.
Proof.
  intros [Hi C] Hc Hb H. pose proof (current_not_ready s Hi) as Hn.
  assert (Hplain : forall r, plain_sema r = true -> b = true \/ not_sleep r) by (intros r Hr; right; by intros t ->).
  destruct c; simpl in H, Hc.
  - kinv H. does_go.
  - by eapply thread_yield_does.
  - unfold thread_set_priority in H. kinv H. does_go.
  - by eapply sema_down_does.
  - kinv H. eapply sema_try_down_does; [by apply Hplain|done].
  - eapply sema_up_does; [by apply Hplain|done].
  - apply lock_acquire_inv in H as [_ ->]. does_go.
  - unfold lock_try_acquire in H. kinv H. apply lock_held_inv in Ha0 as (-> & _).
    apply (sema_try_down_does b) in Ha1; [|by right]. eapply does_trans; [exact Ha1|]. case_match; kinv Ha2; does_go.
  - by eapply lock_release_does.
  - unfold cond_wait in H. kinv H. apply lock_held_inv in Ha as (-> & _). does_go.
  - by eapply cond_signal_does.
  - unfold cond_broadcast in H. kinv H. does_go.
  - destruct Hb as [->|Hb]; [|by destruct (Hb n)]. unfold timer_sleep, sema_down in H. kinv H. does_go; by try left.
  - by eapply thread_create_does.
  - unfold idle in H. kinv H. does_go.
  - unfold thread_exit, process_exit in H. kinv H. case_match; kinv H; does_go.
Qed.

Lemma thread_tick_does b s a s' : thread_tick s = Ok (a, s') -> does b s s'.
Proof.
  unfold thread_tick, intr_yield_on_return. intros H. kinv H.
  destruct (_ =? idle_thread _); [|destruct (negb _)]; kinv Ha; (destruct (TIME_SLICE <=? _); kinv H; does_go).
Qed.

Lemma timer_wakeup_loop_does now ts : forall s a s', timer_wakeup_loop now ts s = Ok (a, s') -> does true s s'.
Proof.
  induction ts as [|t rest IH]; intros s a s' H; cbn [timer_wakeup_loop] in H; kinv H; [apply rtc_refl|].
  destruct (_ <=? now); kinv H; [|apply rtc_refl]. eapply does_trans; [by eapply sema_up_does; [left|]|].
  eapply does_trans; [|by eapply IH]. by apply rtc_once, at_sleep.
Qed.

(** The state in which the timer interrupt looks at the sleepers. *)
Definition at_tick (s : kstate) : kstate :=
  let s1 := set_in_external_intr true (pushed [KIret] (set_intr_on false s)) in
  set_ticks (s64 (ticks s + 1)) (set_yield_on_return false s1).

Lemma at_tick_does b s : does b s (at_tick s).
Proof. unfold at_tick. cbv zeta. does_go. Qed.

Lemma intr_handler_split s a s' : intr_handler s = Ok (a, s') ->
  exists s1, timer_wakeup (s64 (ticks s + 1)) (at_tick s) = Ok (tt, s1) /\ forall b, does b s1 s'.
Proof.
  unfold intr_handler, timer_interrupt. intros H. kinv H.
  lazymatch goal with X : timer_wakeup _ _ = Ok (?u, ?y), Y : thread_tick ?y = Ok (_, ?z) |- _ =>
    exists y; destruct u; split; [exact X|]; intros b; apply (thread_tick_does b) in Y; apply (does_trans _ _ z); [exact Y|] end.
  lazymatch type of H with _ ?x = _ => apply (does_trans _ _ x); [does_go|] end.
  destruct (yield_on_return _); [by eapply thread_yield_does|kinv H; apply rtc_refl].
Qed.

(** ** The order of the ready list *)

(** A step that does not change the priority of a thread in the ready list:
    every step but a donation to such a thread. *)
Definition calm_step (s s' : kstate) : Prop :=
  step s s' /\ forall t, t ∈ ready_list s -> prio s' t = prio s t.

Lemma exec_order e s a s' :
  sound s -> allowed s e -> exec e s = Ok (a, s') -> (forall t, t ∈ ready_list s -> prio s' t = prio s t) ->
  by_priority s (ready_list s) -> by_priority s' (ready_list s').
Proof.
  intros Hs Ha H Hp Ho. destruct e as [c| |]; simpl in Ha.
  - destruct Ha as [_ Hc]. apply (run_call_does true) in H; [by apply (does_order _ _ _ H)|done|done|by left].
  - destruct (stack_of s (current s)) as [|f rest] eqn:E; [done|]. pose proof Hs as [Hi C].
    apply (exec_run_inv _ _ _ f rest E) in H as (s1 & Hoth & Hc & Hk & E1 & H).
    assert (P1 : forall t, prio s1 t = prio s t) by (intros t; rewrite E1; cbn; rewrite fn_at; by case_decide; subst).
    assert (R1 : ready_list s1 = ready_list s) by (by rewrite E1).
    assert (A1 : about_to f s1).
    { split; [by apply (sched_inv_quiet s)|]. rewrite Hc, Hk. rewrite E in C.
      pose proof (cur_ok_quiet s s1 Hi Hoth _ C) as C1. by rewrite Hc in C1. }
    assert (Hcase : (exists c l, f = KDonate c l) \/ forall c l, f <> KDonate c l) by (destruct f; eauto).
    destruct Hcase as [(c & l & ->)|Hf].
    + assert (Er : ready_list s' = ready_list s1) by (apply donation_step_quiet in H as [[Q _]|(h & m & [Q _])]; apply Q).
      rewrite Er, R1. by apply (by_priority_ext s).
    + apply (run_frame_does true) in H; [|done|done|by left]. apply (does_order _ _ _ H).
      rewrite R1. by apply (by_priority_ext s).
  - apply intr_handler_split in H as (s1 & H & D). unfold timer_wakeup in H. kinv H. apply timer_wakeup_loop_does in H.
    apply (does_order true s); [|done]. eapply does_trans; [apply at_tick_does|]. by eapply does_trans.
Qed.

Lemma calm_ordered main s :
  main <> NULL -> rtc calm_step (thread_init main) s -> reachable main s /\ by_priority s (ready_list s).
Proof.
  intros Hm H. apply init_sound in Hm.
  assert (G : forall x y, rtc calm_step x y -> sound x -> by_priority x (ready_list x) -> rtc step x y /\ by_priority y (ready_list y)).
  { clear. induction 1 as [|x y z [[e Ha He] Hp] _ IH]; [done|]. intros Hs Ho. destruct IH as [R O].
    - by eapply exec_sound.
    - by eapply exec_order.
    - split; [|done]. eapply rtc_l; [|exact R]. by eapply step_event. }
  apply G; [done|done|constructor].
Qed.

(** Where an insertion puts a thread. *)
Lemma insert_place s t ts :
  exists us vs, ts = us ++ vs /\ insert_ordered (comparePriority elem s) t ts = us ++ t :: vs /\
    (forall u, u ∈ us -> prio s t <= prio s u) /\ (forall v, head vs = Some v -> prio s v < prio s t).
Proof.
  induction ts as [|u ts (us & vs & -> & E & Hu & Hv)].
  { exists [], []. split_and!; try done. by intros u ?%not_elem_of_nil. }
  cbn [insert_ordered]. unfold comparePriority at 1. cbn [entry_priority].
  destruct (Z.ltb_spec (prio s u) (prio s t)) as [Hlt|Hge].
  - exists [], (u :: us ++ vs). split_and!; try done; [by intros x ?%not_elem_of_nil|]. by intros v [= <-].
  - exists (u :: us), vs. rewrite E. split_and!; try done. intros x [->|Hx]%elem_of_cons; [done|by apply Hu].
Qed.

(** With the ready list in order the thread that runs next is the highest. *)
Lemma yield_ordered s s' :
  sched_inv (Some (current s)) s -> by_priority s (ready_list s) -> (forall t, prio s' t = prio s t) ->
  ready_list s' = tail (ready_list (yielded s)) -> current s' = next_of (yielded s) ->
  by_priority s' (ready_list s') /\ (forall t, t ∈ ready_list s' -> prio s' t <= prio s' (current s')) /\
  (current s' = current s -> current s <> idle_thread s -> forall t, t ∈ ready_list s -> prio s t < prio s (current s)).
Proof.
  intros Hi Hp Hpr -> ->. destruct (yielded_facts s) as (F1 & _ & _ & F4 & _ & F6 & F7).
  assert (Hsorted : by_priority s (ready_list (yielded s))).
  { rewrite F7. destruct (_ =? _); [done|by apply by_priority_insert]. }
  split_and!.
  - apply (by_priority_ext s); [by intros|].
    destruct (ready_list (yielded s)); [done|]. by apply by_priority_cons in Hsorted as [? _].
  - unfold next_of. destruct (ready_list (yielded s)) as [|u k]; [by intros t ?%not_elem_of_nil|].
    apply by_priority_cons in Hsorted as [_ Hs2]. cbn [tail]. intros t Ht. rewrite !Hpr. by apply Hs2.
  - intros Hn Hni t Ht. unfold next_of in Hn. rewrite F7 in Hn.
    destruct (Z.eqb_spec (current s) (idle_thread s)); [done|].
    pose proof (insert_head s (current s) (ready_list s)) as Hh. destruct (insert_ordered _ _ _) as [|x k]; [done|].
    simpl in Hh. injection Hh as ->. destruct (ready_list s) as [|u us] eqn:Er; [by apply not_elem_of_nil in Ht|].
    apply by_priority_cons in Hp as [_ Hp]. destruct (Z.ltb_spec (prio s u) (prio s (current s))) as [Hlt|Hge].
    + apply elem_of_cons in Ht as [->|Ht]; [done|]. specialize (Hp t Ht). lia.
    + exfalso. assert (Hu : u ∈ ready_list s) by (rewrite Er; by left).
      apply (si_ready _ _ Hi) in Hu as (_ & Hu & _). rewrite Hn, (run_status _ Hi) in Hu. done.
Qed.

(** C29: [thread_yield] returns in every reachable state outside interrupts,
    changes no priority, and does this with the processor: the yielding
    thread goes in front of the first ready thread that is strictly below it,
    behind all those before that one, and the first of the list runs; the idle
    thread stays out of the list and runs only if the list is empty.  In a
    state reached without a donation to a thread in the ready list
    ([calm_step]), the ready list is in priority order before and after, so
    that the thread that runs then is of the highest priority, and the
    yielding thread keeps the processor only if every ready thread is strictly
    below it: equals take turns. *)
Theorem thread_yield_highest main s :
  main <> NULL -> reachable main s -> in_external_intr s = false ->
  exists s', thread_yield s = Ok (tt, s') /\ (forall t, prio s' t = prio s t) /\
    (if current s =? idle_thread s then
       match ready_list s with
       | [] => current s' = idle_thread s /\ ready_list s' = []
       | t :: ts => current s' = t /\ ready_list s' = ts
       end
     else exists us vs, ready_list s = us ++ vs /\ current s' :: ready_list s' = us ++ current s :: vs /\
       (forall u, u ∈ us -> prio s (current s) <= prio s u) /\
       (forall v, head vs = Some v -> prio s v < prio s (current s))) /\
    (rtc calm_step (thread_init main) s ->
     by_priority s (ready_list s) /\ by_priority s' (ready_list s') /\
     (forall t, t ∈ ready_list s' -> prio s' t <= prio s' (current s')) /\
     (current s' = current s -> current s <> idle_thread s ->
        forall t, t ∈ ready_list s -> prio s t < prio s (current s))).
Proof.
  intros Hm Hr He. pose proof (reachable_sound _ _ Hm Hr) as Hs. pose proof Hs as [Hi _].
  exists (dispatch (yielded s)). split; [by apply thread_yield_ok|].
  destruct (yielded_facts s) as (F1 & _ & _ & F4 & _ & F6 & F7).
  assert (Hpr : forall t, prio (dispatch (yielded s)) t = prio s t).
  { intros t. rewrite <-F4. unfold dispatch. cbn. rewrite fn_at. by case_decide; subst. }
  split; [exact Hpr|].
  change (ready_list (dispatch (yielded s))) with (tail (ready_list (yielded s))).
  change (current (dispatch (yielded s))) with (next_of (yielded s)).
  split; [unfold next_of; rewrite F6, F7; destruct (Z.eqb_spec (current s) (idle_thread s)) as [_|Hne]|].
  - by destruct (ready_list s).
  - destruct (insert_place s (current s) (ready_list s)) as (us & vs & E & Ei & Hu & Hv). exists us, vs. rewrite Ei.
    split_and!; try done. by destruct us.
  - intros Hc. apply calm_ordered in Hc as [_ Hp]; [|done]. split; [done|].
    by apply (yield_ordered s (dispatch (yielded s))).
Qed.

(** A thread of the same priority as the first one runs, which is ready. *)
Definition two_equal : list event := boot ++ create [97] 31 12288.

(** The events do not change the priority of a thread in the ready list. *)
Fixpoint calm_trace (es : list event) (s : kstate) : bool :=
  match es with
  | [] => true
  | e :: es => allowedb s e && match exec e s with
                               | Ok (_, s') => forallb (fun t => prio s' t =? prio s t) (ready_list s) && calm_trace es s'
                               | Err _ => false
                               end
  end.

Lemma calm_trace_steps es : forall s, calm_trace es s = true -> rtc calm_step s (after es s).
Proof.
  induction es as [|e es IH]; intros s H; [apply rtc_refl|]. cbn [calm_trace] in H. unfold after. cbn [trace].
  apply andb_true_iff in H as [Ha H]. rewrite Ha. destruct (exec e s) as [[[] s']|] eqn:He; [|done].
  apply andb_true_iff in H as [Hp H]. specialize (IH s' H). unfold after in IH. eapply rtc_l.
  - split; [eapply step_event; [by apply allowedb_ok|exact He]|]. rewrite forallb_forall in Hp.
    intros t Ht%list_elem_of_In. apply Z.eqb_eq. by apply Hp.
  - destruct (trace es s') eqn:E; [done|]. exfalso. clear IH He Hp Ha. revert s' H E.
    induction es as [|e' es IH]; intros s' H E; [done|]. cbn [calm_trace trace] in *.
    apply andb_true_iff in H as [Ha H]. rewrite Ha in E. destruct (exec e' s') as [[[] s2]|]; [|done].
    apply andb_true_iff in H as [_ H]. by apply (IH s2).
Qed.

Lemma thread_yield_highest_witness :
  let s := after two_equal (thread_init demo_main) in
  current s = 12288 /\ ready_list s = [demo_main] /\
  exists s', thread_yield s = Ok (tt, s') /\ current s' :: ready_list s' = [demo_main; 12288] /\
    (forall t, t ∈ ready_list s' -> prio s' t <= prio s' (current s')).
Proof.
  split; [vm_compute; reflexivity|]. split; [vm_compute; reflexivity|].
  destruct (thread_yield_highest demo_main (after two_equal (thread_init demo_main)))
    as (s' & E & Hp & Hq & Ho); [done|apply after_reachable; vm_compute; reflexivity|vm_compute; reflexivity|].
  exists s'. split; [exact E|]. split; [|apply Ho, calm_trace_steps; vm_compute; reflexivity].
  assert (Hne : (current (after two_equal (thread_init demo_main)) =? idle_thread (after two_equal (thread_init demo_main))) = false)
    by (vm_compute; reflexivity).
  rewrite Hne in Hq. destruct Hq as (us & vs & E1 & E2 & _ & Hv).
  assert (Er : ready_list (after two_equal (thread_init demo_main)) = [demo_main]) by (vm_compute; reflexivity).
  rewrite Er in E1. destruct us as [|x us].
  - exfalso. cbn in E1. subst vs. specialize (Hv demo_main eq_refl). vm_compute in Hv. discriminate Hv.
  - injection E1 as <- E1. symmetry in E1. apply app_eq_nil in E1 as [-> ->]. rewrite E2. vm_compute. reflexivity.
Defined.

(** ** Waking *)

Lemma intr_set_level_ok lv s :
  (lv = true -> in_external_intr s = false) -> exists old, intr_set_level lv s = Ok (old, set_intr_on lv s).
Proof.
  intros H. destruct lv; [|by eexists]. unfold intr_set_level, intr_enable, intr_get_level, intr_context, gets.
  unfold mbind, M_bind. cbn. rewrite H by done. cbn. by eexists.
Qed.

Lemma thread_unblock_ok t s :
  is_thread s t = true -> status_of s t = THREAD_BLOCKED -> intr_on s = false ->
  thread_unblock t s = Ok (tt, readied t s).
Proof.
  intros Ht Hb Hl. assert (Hn : t <> NULL) by (intros ->; done).
  unfold thread_unblock. rewrite bind_get. rewrite Ht. mstep (eq_refl : ASSERT true s = Ok (tt, s)).
  mstep (eq_refl : intr_disable s = Ok (intr_on s, set_intr_on false s)).
  rewrite bool_decide_eq_true_2 by done. rewrite Hl.
  mstep (eq_refl : ASSERT true (set_intr_on false s) = Ok (tt, set_intr_on false s)).
  mstep (eq_refl : ready_insert t (set_intr_on false s) = Ok (tt, ready_with t (set_intr_on false s))).
  mstep (upd_thread_ok t (with_status THREAD_READY) (ready_with t (set_intr_on false s)) Hn).
  cbn. unfold readied, ready_with. destruct s. cbn in *. by subst.
Qed.

(** The protected part of [sema_up] runs through in every reachable state. *)
Lemma sema_up_ok r s :
  sched_inv (Some (current s)) s -> (in_external_intr s = true -> intr_on s = false) ->
  sema_up r s = Ok (tt, if in_external_intr s then upped r s else pushed [KCheckPriority] (upped r s)).
Proof.
  intros Hi He. unfold sema_up. mstep (eq_refl : intr_disable s = Ok (intr_on s, set_intr_on false s)).
  rewrite bind_get. set (s0 := set_intr_on false s).
  assert (Hm : exists s1, match sort_ordered (comparePriority elem s0) (waiters (sema s0 r)) with
      | [] => mret tt
      | t :: rest => upd_sema r (fun x => Semaphore (value x) rest);; thread_unblock t end s0 = Ok (tt, s1)
      /\ incremented r s1 = upped r s0).
  { unfold upped. destruct (sort_ordered _ _) as [|t rest] eqn:E; [by eexists|].
    eexists. mstep (eq_refl : upd_sema r (fun x => Semaphore (value x) rest) s0 = Ok (tt, with_waiters r rest s0)).
    apply sort_ordered_first in E. destruct (waiting_facts t r s _ Hi) as (H1 & H2 & _).
    { change (waiters (sema s0 r)) with (waiters (sema s r)) in E. rewrite E. by left. }
    split; [apply thread_unblock_ok; [by apply (si_thread _ _ Hi)|done|done]|done]. }
  destruct Hm as (s1 & Hm & Hup). mstep Hm.
  mstep (eq_refl : upd_sema r (fun x => Semaphore (u32 (value x + 1)) (waiters x)) s1 = Ok (tt, incremented r s1)).
  rewrite Hup.
  destruct (upped_fields r s0) as [_ F2].
  destruct (intr_set_level_ok (intr_on s) (upped r s0)) as [old Hl].
  { intros E. rewrite F2. change (in_external_intr s0) with (in_external_intr s).
    destruct (in_external_intr s); [by rewrite He in E|done]. }
  mstep Hl. rewrite (level_restored (upped r)) by (intros; apply upped_level || apply upped_fields).
  mstep (eq_refl : intr_context (upped r s) = Ok (in_external_intr (upped r s), upped r s)).
  destruct (upped_fields r s) as [_ F3]. rewrite F3. destruct (in_external_intr s); cbn [negb]; [done|].
  apply push_ok. replace (current (upped r s)) with (current s); [by apply current_not_null|].
  unfold upped. by destruct (sort_ordered _ _).
Qed.

(** The stable sort puts the first of the least elements in front. *)
Lemma sort_ordered_head less x xs : head (sort_ordered less (x :: xs)) = Some (min_from less x xs).
Proof.
  unfold sort_ordered. cbn [foldl insert_ordered].
  enough (G : forall acc h, head acc = Some h ->
    head (foldl (fun acc y => insert_ordered less y acc) acc xs) = Some (min_from less h xs)) by by apply G.
  induction xs as [|y xs IH]; intros acc h Hh; [done|]. cbn [foldl min_from]. apply IH.
  destruct acc as [|z acc]; [done|]. simpl in Hh. injection Hh as ->. simpl. by destruct (less y h).
Qed.

Lemma min_from_spec less `{!StrictWeakOrder less} mn ys :
  exists us vs, mn :: ys = us ++ min_from less mn ys :: vs /\
    Forall (fun u => less (min_from less mn ys) u = true) us /\
    Forall (fun v => less v (min_from less mn ys) = false) vs.
Proof. rewrite min_from_max. apply (max_from_spec (fun a b => less b a)). Qed.

Lemma upped_nil r s :
  waiters (sema s r) = [] -> upped r s = incremented r s.
Proof. intros E. unfold upped. by rewrite E. Qed.

Lemma upped_cons r s :
  waiters (sema s r) <> [] ->
  exists us t vs rest, waiters (sema s r) = us ++ t :: vs /\
    (forall u, u ∈ us -> prio s u < prio s t) /\ (forall v, v ∈ vs -> prio s v <= prio s t) /\
    rest ≡ₚ us ++ vs /\ upped r s = incremented r (readied t (with_waiters r rest s)).
Proof.
  intros Hne. unfold upped. destruct (waiters (sema s r)) as [|x xs]; [done|].
  pose proof (sort_ordered_head (comparePriority elem s) x xs) as Hh.
  pose proof (sort_ordered_perm (comparePriority elem s) (x :: xs)) as Hp.
  destruct (min_from_spec (comparePriority elem s) x xs) as (us & vs & E & Hu & Hv).
  destruct (sort_ordered _ _) as [|t rest]; [done|]. simpl in Hh. injection Hh as ->.
  rewrite Forall_forall in Hu, Hv. exists us, (min_from (comparePriority elem s) x xs), vs, rest.
  split_and!; [done| | | |done].
  - intros u H. specialize (Hu u H). unfold comparePriority in Hu at 1. simpl in Hu. lia.
  - intros v H. specialize (Hv v H). unfold comparePriority in Hv at 1. simpl in Hv. lia.
  - rewrite E, <-Permutation_middle in Hp. by apply Permutation_cons_inv in Hp.
Qed.

(** [sema_up] always returns and increments the value.  Without waiters
    nothing else happens.  Otherwise exactly one thread is made ready: the one
    that has waited longest among the waiters of the highest priority, with
    the priorities they have now; all others keep waiting. *)
Theorem sema_up_wakes_highest main s r :
  main <> NULL -> reachable main s -> in_external_intr s = false ->
  exists s', sema_up r s = Ok (tt, s') /\ value (sema s' r) = u32 (value (sema s r) + 1) /\
    (waiters (sema s r) = [] -> waiters (sema s' r) = [] /\ ready_list s' = ready_list s /\
       forall t, status_of s' t = status_of s t) /\
    (waiters (sema s r) <> [] -> exists us t vs, waiters (sema s r) = us ++ t :: vs /\
       (forall u, u ∈ us -> prio s u < prio s t) /\ (forall v, v ∈ vs -> prio s v <= prio s t) /\
       waiters (sema s' r) ≡ₚ us ++ vs /\ ready_list s' ≡ₚ t :: ready_list s /\
       forall u, status_of s' u = if decide (t = u) then THREAD_READY else status_of s u).
Proof.
  intros Hm Hr He. pose proof (reachable_sound _ _ Hm Hr) as [Hi _].
  assert (Hok : sema_up r s = Ok (tt, pushed [KCheckPriority] (upped r s))).
  { rewrite sema_up_ok; [by rewrite He|done|congruence]. }
  eexists. split; [exact Hok|].
  assert (Hst : forall u x, status_of (pushed [KCheckPriority] x) u = status_of x u).
  { intros u x. apply (quiet_pushed [KCheckPriority] x). }
  split_and!.
  - destruct (waiters (sema s r)) eqn:E; [rewrite upped_nil by done; cbn; by rewrite fn_at, decide_True|].
    destruct (upped_cons r s) as (us & t & vs & rest & _ & _ & _ & _ & ->); [by rewrite E|].
    cbn. by rewrite !fn_at, !decide_True.
  - intros E. rewrite upped_nil by done. split_and!; [cbn; by rewrite fn_at, decide_True|done|].
    intros t. by rewrite Hst.
  - intros E. destruct (upped_cons r s E) as (us & t & vs & rest & H1 & H2 & H3 & H4 & ->).
    exists us, t, vs. split_and!; [done..| | |].
    + cbn. by rewrite !fn_at, !decide_True.
    + cbn. apply insert_ordered_perm.
    + intros u. rewrite Hst. cbn. rewrite fn_at. by case_decide; subst.
Qed.

(** Two threads of different priority wait for the same semaphore. *)
Definition two_waiters : list event :=
  boot ++ create [97] 40 12288 ++ runs 1 ++ [Call (CSemaDown (SemaVar 7))] ++ runs 2
  ++ create [98] 45 16384 ++ runs 1 ++ [Call (CSemaDown (SemaVar 7))] ++ runs 2.

Lemma sema_up_wakes_highest_witness :
  let s := after two_waiters (thread_init demo_main) in
  waiters (sema s (SemaVar 7)) = [16384; 12288] /\
  exists s', sema_up (SemaVar 7) s = Ok (tt, s') /\
    value (sema s' (SemaVar 7)) = u32 (value (sema s (SemaVar 7)) + 1) /\
    (waiters (sema s (SemaVar 7)) = [] -> waiters (sema s' (SemaVar 7)) = [] /\ ready_list s' = ready_list s /\
       forall t, status_of s' t = status_of s t) /\
    (waiters (sema s (SemaVar 7)) <> [] -> exists us t vs, waiters (sema s (SemaVar 7)) = us ++ t :: vs /\
       (forall u, u ∈ us -> prio s u < prio s t) /\ (forall v, v ∈ vs -> prio s v <= prio s t) /\
       waiters (sema s' (SemaVar 7)) ≡ₚ us ++ vs /\ ready_list s' ≡ₚ t :: ready_list s /\
       forall u, status_of s' u = if decide (t = u) then THREAD_READY else status_of s u).
Proof.
  split; [vm_compute; reflexivity|].
  apply (sema_up_wakes_highest demo_main); [done| |vm_compute; reflexivity].
  apply after_reachable. vm_compute. reflexivity.
Defined.

(** ** Donation *)

(** Thread [a] waits for a lock that [b] holds. *)
Definition waits_for (s : kstate) (a b : Z) : Prop :=
  try_lock (threads s a) <> NULL /\ b <> NULL /\ holder s (try_lock (threads s a)) = b.

(** Only priorities differ. *)
Record reprioritized (s s' : kstate) : Prop := {
  rp_rest : s' = set_threads (threads s') s;
  rp_threads t : threads s' t = with_priority (prio s' t) (threads s t)
}.

Lemma reprioritized_refl s : reprioritized s s.
Proof. split; [by destruct s|]. intros t. by destruct (threads s t). Qed.

Lemma reprioritized_trans s1 s2 s3 : reprioritized s1 s2 -> reprioritized s2 s3 -> reprioritized s1 s3.
Proof. intros [A1 B1] [A2 B2]. split; [by rewrite A2 at 1; rewrite A1 at 1|]. intros t. by rewrite B2, B1. Qed.

Definition raise (t p : Z) (s : kstate) : kstate :=
  set_threads (<[t := with_priority p (threads s t)]> (threads s)) s.

Lemma raise_prio t p s u : prio (raise t p s) u = if decide (t = u) then p else prio s u.
Proof. unfold raise. cbn. rewrite fn_at. by case_decide. Qed.

Lemma raise_reprioritized t p s : reprioritized s (raise t p s).
Proof.
  split; [done|]. intros u. rewrite raise_prio. unfold raise. cbn. rewrite fn_at. case_decide; [by subst|].
  by destruct (threads s u).
Qed.

Lemma waits_for_same s s' a b : reprioritized s s' -> waits_for s' a b <-> waits_for s a b.
Proof.
  intros [E Ht]. unfold waits_for. rewrite Ht. replace (holder s') with (holder s) by (by rewrite E). done.
Qed.

Definition below (p : Z) (s : kstate) : nat :=
  length (List.filter (fun t => prio s t <? p) (all_list s)).

Lemma filter_length_le {A} (f g : A -> bool) xs :
  (forall x, g x = true -> f x = true) -> (length (List.filter g xs) <= length (List.filter f xs))%nat.
Proof.
  intros H. induction xs as [|x xs IH]; simpl; [lia|]. destruct (g x) eqn:E; [rewrite (H x E); simpl; lia|].
  destruct (f x); simpl; lia.
Qed.

Lemma below_raise t p s :
  t ∈ all_list s -> prio s t < p -> (below p (raise t p s) < below p s)%nat.
Proof.
  unfold below. change (all_list (raise t p s)) with (all_list s). intros Ht Hp.
  induction (all_list s) as [|x xs IH]; [by apply not_elem_of_nil in Ht|]. cbn [List.filter].
  rewrite raise_prio. apply elem_of_cons in Ht as [<-|Ht].
  - rewrite decide_True by done. rewrite Z.ltb_irrefl, (proj2 (Z.ltb_lt _ _) Hp). cbn [length].
    apply Nat.lt_succ_r, filter_length_le. intros u. cbv beta. rewrite raise_prio. case_decide; [|done]. lia.
  - specialize (IH Ht). case_decide as E.
    + subst x. rewrite Z.ltb_irrefl, (proj2 (Z.ltb_lt _ _) Hp). cbn [length]. lia.
    + destruct (prio s x <? p); cbn [length]; lia.
Qed.

(** Each thread of the list waits for a lock that the next one holds. *)
Fixpoint wait_chain (s : kstate) (t : Z) (hs : list Z) : Prop :=
  match hs with
  | [] => True
  | h :: hs => waits_for s t h /\ wait_chain s h hs
  end.

(** What a donation of priority [p] by thread [t] does: the threads [hs] of
    the chain behind [t] are raised. *)
Record donated (p t : Z) (hs : list Z) (s s' : kstate) : Prop := {
  do_same : reprioritized s s';
  do_chain : wait_chain s t hs;
  do_nodup : NoDup hs;
  do_below u : u ∈ hs -> prio s u < p;
  do_prio u : prio s' u = if decide (u ∈ hs) then p else prio s u;
  do_end v : waits_for s (default t (last hs)) v -> p <= prio s' v
}.

Lemma donated_stop p t s : (forall v, waits_for s t v -> p <= prio s v) -> donated p t [] s s.
Proof. intros H. split; try done; [apply reprioritized_refl|constructor|by intros u ?%not_elem_of_nil]. Qed.

Lemma wait_chain_same s s' hs : reprioritized s s' -> forall t, wait_chain s' t hs -> wait_chain s t hs.
Proof.
  intros R. induction hs as [|h hs IH]; intros t; [done|]. intros [H1 H2]. split; [by apply (waits_for_same _ _ _ _ R)|by apply IH].
Qed.

Lemma donated_step p t h hs s s' :
  waits_for s t h -> prio s h < p -> donated p h hs (raise h p s) s' -> donated p t (h :: hs) s s'.
Proof.
  intros Hw Hp D. pose proof (raise_reprioritized h p s) as Rr.
  assert (Hn : h ∉ hs).
  { intros Hin%(do_below _ _ _ _ _ D). rewrite raise_prio, decide_True in Hin by done. lia. }
  split.
  - eapply reprioritized_trans; [exact Rr|apply (do_same _ _ _ _ _ D)].
  - split; [done|]. apply (wait_chain_same _ _ _ Rr), (do_chain _ _ _ _ _ D).
  - apply NoDup_cons. split; [done|apply (do_nodup _ _ _ _ _ D)].
  - intros u [->|Hu]%elem_of_cons; [done|]. pose proof (do_below _ _ _ _ _ D u Hu) as Hb. rewrite raise_prio in Hb.
    case_decide; [by subst|done].
  - intros u. rewrite (do_prio _ _ _ _ _ D), raise_prio. destruct (decide (u ∈ h :: hs)) as [Hu|Hu]; rewrite elem_of_cons in Hu.
    + destruct Hu as [->|Hu]; [rewrite decide_False by done; by rewrite decide_True|by rewrite decide_True].
    + rewrite decide_False by (intros ?; apply Hu; by right). rewrite decide_False by (intros <-; apply Hu; by left). done.
  - intros v. replace (default t (last (h :: hs))) with (default h (last hs)) by (by rewrite last_cons; destruct (last hs)).
    intros Hv. apply (do_end _ _ _ _ _ D). by apply (waits_for_same _ _ _ _ Rr).
Qed.

Lemma donation_loop_ok p : forall fuel c s,
  (forall m, holder s m = NULL \/ holder s m ∈ all_list s) -> prio s c = p -> (below p s < fuel)%nat ->
  exists s' hs, priority_donation_loop fuel c (try_lock (threads s c)) s = Ok (tt, s') /\ donated p c hs s s'.
Proof.
  induction fuel as [|fuel IH]; intros c s Hlive Hp Hf; [lia|]. cbn [priority_donation_loop].
  unfold donation_turn. destruct (Z.eqb_spec (try_lock (threads s c)) NULL) as [Hl|Hl].
  { exists s, []. split; [done|]. apply donated_stop. by intros v (? & _). }
  rewrite bind_assoc, bind_get. set (h := holder s (try_lock (threads s c))). destruct (Z.eqb_spec h NULL) as [Hh|Hh].
  { exists s, []. split; [done|]. apply donated_stop. intros v (_ & Hv & Ev). destruct Hv. by rewrite <-Ev. }
  assert (Hw : waits_for s c h) by by split_and!.
  rewrite Hp. destruct (Z.ltb_spec (prio s h) p) as [Hlt|Hge].
  - rewrite bind_assoc. mstep (upd_thread_ok h (with_priority p) s Hh). fold (raise h p s). rewrite bind_ret.
    destruct (IH h (raise h p s)) as (s' & hs & Hrun & D).
    + done.
    + by rewrite raise_prio, decide_True.
    + assert (below p (raise h p s) < below p s)%nat; [|lia].
      apply below_raise; [by destruct (Hlive (try_lock (threads s c)))|done].
    + exists s', (h :: hs). replace (try_lock (threads (raise h p s) h)) with (try_lock (threads s h)) in Hrun
        by (unfold raise; cbn; by rewrite fn_at, decide_True). split; [done|]. by apply donated_step.
  - exists s, []. split; [done|]. apply donated_stop. intros v (_ & _ & <-). done.
Qed.

Lemma below_length p s : (below p s <= length (all_list s))%nat.
Proof. unfold below. induction (all_list s); simpl; [lia|]. destruct (_ <? _); simpl; lia. Qed.

(** C21: From every reachable state [priority_donation], when nothing comes in
    between its turns, returns: the loop along the chain of
    waiting threads and lock holders ends within the number of threads, even
    when the threads wait for each other in a circle.  It raises exactly the
    threads [hs] of a first part of the chain: each is the holder of the lock
    the one before it tries to get, beginning with the donor, each is strictly
    below the donor and gets the donor's priority; every other priority stays.
    The chain is cut at the first holder that is not below the donor, and only
    there or where it ends: if the last of them, or the donor when there are
    none, waits for a thread, that thread is not below the donor.  What lies
    behind it is not raised.  Nothing but priorities changes. *)
Theorem priority_donation_correct main s :
  main <> NULL -> reachable main s ->
  let c := current s in
  exists s' hs, priority_donation s = Ok (tt, s') /\ reprioritized s s' /\
    wait_chain s c hs /\ NoDup hs /\ (forall u, u ∈ hs -> prio s u < prio s c) /\
    (forall u, prio s' u = if decide (u ∈ hs) then prio s c else prio s u) /\
    (forall v, waits_for s (default c (last hs)) v -> prio s c <= prio s' v).
Proof.
  intros Hm Hr c. destruct (reachable_lock _ _ Hm Hr) as [[Hi _] L].
  destruct (donation_loop_ok (prio s c) (2 + length (all_list s)) c s)
    as (s' & hs & Hrun & [D1 D2 D3 D4 D5 D6]); [apply (li_live _ L)|done|pose proof (below_length (prio s c) s); lia|].
  exists s', hs. split_and!; try done.
  unfold priority_donation. mstep (thread_current_ok s Hi).
  mstep (thread_at_ok (current s) s (current_not_null s Hi)). by rewrite bind_get.
Qed.

(** The first thread holds lock 2, a thread of priority 33 holds lock 3 and
    waits for lock 2, and one of priority 40 is about to donate to the holder
    of lock 3. *)
Definition donating : list event :=
  boot ++ [Call (CLockAcquire 2)] ++ runs 4
  ++ create [97] 33 12288 ++ runs 1 ++ [Call (CLockAcquire 3)] ++ runs 4 ++ [Call (CLockAcquire 2)] ++ runs 8
  ++ create [98] 40 16384 ++ runs 1 ++ [Call (CLockAcquire 3)] ++ runs 1.

(** Who waits for whom there, and the priorities. *)
Lemma donating_facts :
  let s := after donating (thread_init demo_main) in
  (try_lock (threads s 16384) = 3 /\ try_lock (threads s 12288) = 2 /\ try_lock (threads s demo_main) = NULL) /\
  (holder s 3 = 12288 /\ holder s 2 = demo_main) /\
  (current s = 16384 /\ prio s 16384 = 40 /\ prio s 12288 = 33 /\ prio s demo_main = 33 /\ prio s idle_page = 0).
Proof. vm_compute. by split_and!. Qed.

(** With two locks in the chain both holders are raised. *)
Lemma donating_raised s s' hs :
  try_lock (threads s 16384) = 3 /\ try_lock (threads s 12288) = 2 /\ try_lock (threads s demo_main) = NULL ->
  holder s 3 = 12288 /\ holder s 2 = demo_main ->
  prio s 12288 = 33 /\ prio s demo_main = 33 -> wait_chain s 16384 hs ->
  (forall u, prio s' u = if decide (u ∈ hs) then 40 else prio s u) ->
  (forall v, waits_for s (default 16384 (last hs)) v -> 40 <= prio s' v) -> hs = [12288; demo_main].
Proof.
  intros (E1 & E2 & E3) (H3 & H2) (F2 & F3) Hc Hp He. unfold demo_main in *.
  assert (W1 : forall v, waits_for s 16384 v <-> v = 12288) by (intros v; unfold waits_for; rewrite E1, H3; unfold NULL; lia).
  assert (W2 : forall v, waits_for s 12288 v <-> v = 4096) by (intros v; unfold waits_for; rewrite E2, H2; unfold NULL; lia).
  assert (W3 : forall v, ~ waits_for s 4096 v) by (intros v; unfold waits_for; rewrite E3; naive_solver).
  destruct hs as [|h hs].
  { specialize (He 12288 (proj2 (W1 _) eq_refl)). rewrite Hp, decide_False in He by set_solver. lia. }
  destruct Hc as [->%W1 Hc]. destruct hs as [|h hs].
  { specialize (He 4096 (proj2 (W2 _) eq_refl)). rewrite Hp, decide_False in He by set_solver. lia. }
  destruct Hc as [->%W2 Hc]. destruct hs as [|h hs]; [done|]. by destruct Hc as [[]%W3 _].
Qed.

Lemma priority_donation_correct_witness :
  let s := after donating (thread_init demo_main) in
  current s = 16384 /\
  exists s', priority_donation s = Ok (tt, s') /\ prio s' 12288 = 40 /\ prio s' demo_main = 40 /\ prio s' idle_page = 0.
Proof.
  destruct donating_facts as (A & B & C0 & C1 & C2 & C3 & C4). cbv zeta. split; [exact C0|].
  destruct (priority_donation_correct demo_main (after donating (thread_init demo_main)))
    as (s' & hs & E & _ & Hc & _ & Hb & Hp & He); [discriminate|apply after_reachable; vm_compute; reflexivity|].
  exists s'. split; [exact E|]. rewrite C0, C1 in *.
  pose proof (donating_raised _ s' hs A B (conj C2 C3) Hc Hp He) as ->. rewrite !Hp, C4. split; [|split]; reflexivity.
Defined.

(** ** Where the synchronization code does not do what it means to

    Executions of the kernel, evaluated, that end in a state the code is meant
    to exclude. *)

Definition get_lock (l : Z) : list event := Call (CLockAcquire l) :: runs 4.

(** A time slice goes by; the last tick makes the thread yield. *)
Definition time_slice : list event := [Tick; Run; Tick; Run; Tick; Run; Tick].

(** The error an event ends in. *)
Definition fails (e : event) (s : kstate) : option err :=
  match exec e s with Ok _ => None | Err x => Some x end.

(** ** Donors in the wrong order *)

(** The first thread holds locks 2, 3 and 4; a thread of priority 40 waits for
    lock 2, then one of priority 50 for lock 3. *)
Definition two_donors : list event :=
  boot ++ get_lock 2 ++ get_lock 3 ++ get_lock 4
  ++ create [97] 40 12288 ++ runs 1 ++ [Call (CLockAcquire 2)] ++ runs 8
  ++ create [98] 50 16384 ++ runs 1 ++ [Call (CLockAcquire 3)] ++ runs 8.

(** Releasing an unrelated lock takes a donation away.  The donors are
    inserted with [comparePriority], which reads the priority at the place of
    [elem] although the list is linked through [donor_elem]; what it compares
    are the last characters of the names, equal for short names, so the list
    is in order of arrival and not of priority.  When the first thread
    releases the uncontended lock 4, [priority_recheck] gives it the priority
    40 of the first donor while the thread of priority 50 still waits for
    lock 3, which the first thread holds. *)
Theorem donation_lost :
  let s := after two_donors (thread_init demo_main) in
  let s' := after (Call (CLockRelease 4) :: runs 2) s in
  reachable demo_main s /\ reachable demo_main s' /\
  donor (threads s demo_main) = [12288; 16384] /\ prio s demo_main = 50 /\
  holder s' 3 = demo_main /\ try_lock (threads s' 16384) = 3 /\ prio s' 16384 = 50 /\
  prio s' demo_main = 40.
Proof.
  split; [apply after_reachable; vm_compute; reflexivity|]. split; [|vm_compute; by split_and!].
  unfold reachable. transitivity (after two_donors (thread_init demo_main)).
  - apply after_reachable. vm_compute. reflexivity.
  - apply after_steps. vm_compute. reflexivity.
Qed.

(** ** The ready list is not reordered *)

(** The first thread holds lock 2 and is ready behind a thread of priority 35;
    a thread of priority 40 asks for the lock. *)
Definition inversion_ : list event :=
  boot ++ get_lock 2 ++ create [98] 35 16384 ++ runs 1
  ++ create [97] 40 12288 ++ runs 1 ++ [Call (CLockAcquire 2)] ++ runs 6.

(** Donation does not move the holder in the ready list.  The holder of
    the lock has been raised to priority 40, but it is still behind the thread
    of priority 35 when the donor blocks, and the scheduler runs the thread of
    priority 35: the ready list is not in priority order. *)
Theorem donation_leaves_ready_list :
  let s := after inversion_ (thread_init demo_main) in
  let s' := next Run s in
  reachable demo_main s /\ step s s' /\
  ready_list s = [16384; demo_main] /\ prio s demo_main = 40 /\ prio s 16384 = 35 /\
  ~ by_priority s (ready_list s) /\
  current s' = 16384 /\ status_of s' demo_main = THREAD_READY.
Proof.
  split; [apply after_reachable; vm_compute; reflexivity|].
  split; [apply next_step; [apply allowedb_ok|]; vm_compute; reflexivity|].
  assert (E : ready_list (after inversion_ (thread_init demo_main)) = [16384; demo_main]) by (vm_compute; reflexivity).
  split_and!; try (vm_compute; reflexivity). rewrite E. intros [_ H]%by_priority_cons.
  specialize (H demo_main ltac:(by left)). revert H. vm_compute. intros H. by apply H.
Qed.

(** ** Races *)

(** A thread of priority 40 has seen that lock 2 has a holder and has donated;
    before it joins the donors its time slice ends, and the holder releases
    the lock. *)
Definition acquire_race : list event :=
  boot ++ get_lock 2 ++ create [97] 40 12288 ++ runs 1 ++ [Call (CLockAcquire 2)] ++ runs 4 ++ time_slice
  ++ runs 1 ++ [Call (CLockRelease 2)] ++ runs 4 ++ runs 2.

(** A thread waits on condition 9; a second one has joined the waiters and
    released the lock, but its time slice ends before [sema_down]. *)
Definition signal_race : list event :=
  boot ++ create [97] 40 12288 ++ runs 1 ++ get_lock 2 ++ [Call (CCondWait 9 2)] ++ runs 7 ++ runs 1
  ++ create [98] 31 16384 ++ runs 1 ++ get_lock 2 ++ [Call (CCondWait 9 2)] ++ runs 5 ++ time_slice
  ++ runs 1 ++ get_lock 2.

(** Two races stop the kernel.  [lock_acquire] tests [lock->holder] and
    uses it again later with interrupts on: when the holder releases the lock
    in between, the donor list of a null pointer is used.  [cond_signal] looks
    at the first waiter of the semaphore of every waiting thread: when one has
    not reached [sema_down] yet, [list_front] fails its assertion. *)
Theorem synchronization_races :
  let s1 := after acquire_race (thread_init demo_main) in
  let s2 := after signal_race (thread_init demo_main) in
  (reachable demo_main s1 /\ allowed s1 Run /\ fails Run s1 = Some EFault) /\
  (reachable demo_main s2 /\ allowed s2 (Call (CCondSignal 9 2)) /\
   fails (Call (CCondSignal 9 2)) s2 = Some EAssert).
Proof.
  split; (split; [apply after_reachable; vm_compute; reflexivity|]);
    (split; [apply allowedb_ok; vm_compute; reflexivity|vm_compute; reflexivity]).
Qed.
