(* ===== verification/ThreadTimer.v ===== *)
(** * Sleeping and waking by the timer *)

From Stdlib Require Import Sorted.
From stdpp Require Import functions.
From S2P Require Import Prelude ListModel ListOrder ListSpec ThreadModel ThreadInv ThreadSched ThreadStep ThreadLock ThreadProps ThreadPrio.

Abbreviation wake_time s t := (timeChecker (threads s t)).

(** The sleepers in the order in which they wake. *)
Definition by_wake_time (s : kstate) (ts : list Z) : Prop := nondecreasing (compare_timer s) ts.

Lemma by_wake_time_cons s t ts :
  by_wake_time s (t :: ts) -> by_wake_time s ts /\ forall u, u ∈ ts -> wake_time s t <= wake_time s u.
Proof.
  unfold by_wake_time, nondecreasing. intros H. apply StronglySorted_inv in H as [H1 H2]. split; [done|].
  rewrite Forall_forall in H2. intros u Hu. specialize (H2 u Hu). unfold compare_timer in H2. lia.
Qed.

Lemma by_wake_time_ext s s' ts :
  (forall t, wake_time s' t = wake_time s t) -> by_wake_time s ts -> by_wake_time s' ts.
Proof.
  intros E H. unfold by_wake_time, nondecreasing in *. induction H as [|t ts _ IH Hf]; [constructor|].
  constructor; [done|]. eapply Forall_impl; [exact Hf|]. intros u. unfold compare_timer. by rewrite !E.
Qed.

(** ** The sleepers of a reachable state *)

(** The sleep list is in order of wake-up times and has no thread twice; every
    thread in it is inside [sema_down] on its semaphore, which is zero. *)
Record sleepers_ok (s : kstate) : Prop := {
  sl_nodup : NoDup (sleep_list s);
  sl_order : by_wake_time s (sleep_list s);
  sl_each t : t ∈ sleep_list s ->
    t ∈ all_list s /\ KSemaDown (SleepSema t) ∈ stack_of s t /\ value (sema s (SleepSema t)) = 0
}.

Lemma by_wake_time_in s s' ts :
  (forall t, t ∈ ts -> wake_time s' t = wake_time s t) -> by_wake_time s ts -> by_wake_time s' ts.
Proof.
  unfold by_wake_time, nondecreasing. intros E H. induction H as [|t ts _ IH Hf]; [constructor|].
  constructor; [apply IH; intros; apply E; by right|]. rewrite Forall_forall in *. intros u Hu. specialize (Hf u Hu).
  unfold compare_timer in *. by rewrite !E by (by left || by right).
Qed.

(** What the invariant looks at. *)
Lemma sleepers_same s s' :
  sleep_list s' = sleep_list s ->
  (forall t, t ∈ sleep_list s -> t ∈ all_list s' /\ wake_time s' t = wake_time s t /\
     KSemaDown (SleepSema t) ∈ stack_of s' t /\ value (sema s' (SleepSema t)) = 0) ->
  sleepers_ok s -> sleepers_ok s'.
Proof.
  intros E H [S1 S2 S3]. split; rewrite E; [done| |].
  - apply (by_wake_time_in s); [|done]. intros t Ht. by apply H.
  - intros t Ht. destruct (H t Ht) as (A & _ & B & C). done.
Qed.

Lemma atom_sleepers s s' : atom false s s' -> sleepers_ok s -> sleepers_ok s'.
Proof.
  intros A S. pose proof (sl_each _ S) as He.
  destruct A as [u th _ [|Hu]|r x [|Hr]|u| |ts Hts|ts|s' E1 E2 _ E4 E5]; try done;
    (apply (sleepers_same s); [done| |done]; intros t Ht; destruct (He t Ht) as (H1 & H2 & H3)); cbn; try done.
  - rewrite fn_at. case_decide; [subst u|done]. destruct Hu as [|[Hu1 Hu2]]; [done|]. split_and!; try done. by apply Hu2.
  - rewrite fn_at. case_decide as E; [subst r|done]. split_and!; try done. destruct Hr as [->|Hr]; [done|]. by destruct (Hr t H1).
  - split_and!; try done. by apply Hts.
  - rewrite E1, E2, E4. done.
Qed.

Lemma does_sleepers s s' : does false s s' -> sleepers_ok s -> sleepers_ok s'.
Proof. induction 1 as [|x y z A _ IH]; [done|]. intros H. apply IH. by eapply atom_sleepers. Qed.

(** A thread that goes to sleep was not asleep. *)
Lemma timer_sleep_sleepers n s a s' :
  sched_inv (Some (current s)) s -> stack_of s (current s) = [] -> timer_sleep n s = Ok (a, s') ->
  sleepers_ok s -> sleepers_ok s'.
Proof.
  intros Hi Hk H S. pose proof S as [S1 S2 S3].
  assert (Hn : current s ∉ sleep_list s).
  { intros (_ & Hin & _)%S3. rewrite Hk in Hin. by apply not_elem_of_nil in Hin. }
  unfold timer_sleep, sema_down in H. kinv H. unfold pushed.
  set (w := s64 (ticks s + n)). set (sw := set_threads _ (set_intr_on false s)).
  assert (Ew : forall t, wake_time sw t = if decide (current s = t) then w else wake_time s t).
  { intros t. unfold sw. cbn. rewrite fn_at. by case_decide. }
  assert (Hsort : by_wake_time sw (sleep_list s)).
  { apply (by_wake_time_in s); [|done]. intros t Ht. rewrite Ew, decide_False; [done|]. by intros <-. }
  destruct (insert_ordered_sorted (compare_timer sw) (current s) (sleep_list s) Hsort) as (us & vs & _ & Eins & _ & _ & Hins).
  rewrite <-Eins in Hins.
  split; cbn [sleep_list set_threads set_intr_on set_sema set_sleep_list].
  - rewrite insert_ordered_perm. by apply NoDup_cons.
  - apply (by_wake_time_ext sw); [|exact Hins]. intros t. rewrite Ew. cbn. rewrite !fn_at. by repeat case_decide; subst.
  - intros t Ht. rewrite insert_ordered_perm in Ht. cbn. rewrite !fn_at. apply elem_of_cons in Ht as [->|Ht].
    + rewrite !decide_True by done. cbn. split_and!; [apply (si_current _ _ Hi)|by left|done].
    + assert (Hne : current s <> t) by (by intros <-). rewrite !decide_False by congruence. by apply S3.
Qed.

Lemma upped_view r s :
  all_list (upped r s) = all_list s /\ sleep_list (upped r s) = sleep_list s /\
  (forall u, wake_time (upped r s) u = wake_time s u /\ stack_of (upped r s) u = stack_of s u /\ prio (upped r s) u = prio s u) /\
  (forall r', r <> r' -> value (sema (upped r s) r') = value (sema s r')).
Proof.
  unfold upped, incremented. destruct (sort_ordered _ _) as [|x rest]; [|unfold readied, ready_with, with_waiters]; cbn.
  - split_and!; try done. intros r' Hr. by rewrite fn_at, decide_False.
  - split_and!; try done; [intros u; rewrite fn_at; by case_decide; subst|]. intros r' Hr. by rewrite !fn_at, !decide_False.
Qed.

Lemma timer_wakeup_loop_sleepers now ts : forall s a s',
  sleep_list s = ts -> in_external_intr s = true -> timer_wakeup_loop now ts s = Ok (a, s') -> sleepers_ok s -> sleepers_ok s'.
Proof.
  induction ts as [|t rest IH]; intros s a s' E He H S; cbn [timer_wakeup_loop] in H; [by kinv H|].
  kinv H. destruct (_ <=? now); [|by kinv H]. kinv H. apply sema_up_inv in Ha. rewrite He in Ha. subst s0.
  destruct (upped_view (SleepSema t) s) as (V1 & V2 & V3 & V4). destruct S as [S1 S2 S3]. rewrite E in *.
  apply NoDup_cons in S1 as [Hn S1]. apply by_wake_time_cons in S2 as [S2 _].
  apply IH in H; [done|done|cbn [in_external_intr set_sleep_list]; by rewrite (proj2 (upped_fields _ _))|].
  split; cbn [sleep_list set_sleep_list]; [done| |].
  - apply (by_wake_time_ext s); [|done]. intros u. apply V3.
  - intros u Hu. destruct (S3 u ltac:(by right)) as (H1 & H2 & H3).
    cbn [all_list threads sema set_sleep_list]. rewrite V1, (proj1 (proj2 (V3 u))), V4 by (intros [= ->]; done). done.
Qed.

(** The end of a stay in [sema_down]. *)
Lemma sleep_down_sleepers s s1 t rest a s' :
  sched_inv (Some (current s)) s -> stack_of s (current s) = KSemaDown (SleepSema t) :: rest -> t = current s ->
  s1 = set_threads (<[current s := with_kstack rest (threads s (current s))]> (threads s)) s ->
  sema_down_loop (SleepSema t) s1 = Ok (a, s') -> sleepers_ok s -> sleepers_ok s'.
Proof.
  intros Hi Hk -> -> H S. pose proof (sl_each _ S) as He. apply sema_down_loop_inv in H as [[_ H]|[Hv ->]].
  - apply (thread_block_does false) in H. apply (does_sleepers _ _ H). apply (sleepers_same s); [done| |done].
    intros u Hu. destruct (He u Hu) as (H1 & H2 & H3). unfold pushed, queued. cbn. rewrite !fn_at.
    rewrite (decide_True (P := current s = current s)) by done.
    destruct (decide (current s = u)) as [<-|Hne]; [rewrite decide_True by done|rewrite decide_False by congruence; done].
    cbn. split_and!; try done. by left.
  - cbn in Hv. apply (sleepers_same s); [done| |done]. intros u Hu. destruct (He u Hu) as (H1 & H2 & H3).
    assert (Hn : current s <> u) by (intros <-; done). cbn. rewrite !fn_at, !decide_False by congruence. done.
Qed.

Lemma exec_sleepers e s a s' :
  sound s -> allowed s e -> exec e s = Ok (a, s') -> sleepers_ok s -> sleepers_ok s'.
Proof.
  intros Hs Ha H S. pose proof Hs as [Hi C]. destruct e as [c| |]; simpl in Ha.
  - destruct Ha as [Hk Hc]. assert (Hcase : (exists n, c = CSleep n) \/ forall n, c <> CSleep n) by (destruct c; eauto).
    destruct Hcase as [[n ->]|Hn].
    + by eapply timer_sleep_sleepers.
    + apply (run_call_does false) in H; [by eapply does_sleepers|done|done|by right].
  - destruct (stack_of s (current s)) as [|f rest] eqn:E; [done|].
    apply (exec_run_inv _ _ _ f rest E) in H as (s1 & Hoth & Hc & Hk & E1 & H).
    assert (A1 : about_to f s1).
    { split; [by apply (sched_inv_quiet s)|]. rewrite Hc, Hk. pose proof (cur_ok_quiet s s1 Hi Hoth _ C) as C1. by rewrite Hc in C1. }
    pose proof (stack_ok_head _ _ _ (co_stack _ _ _ C)) as Hf.
    assert (Hcase : (exists t, f = KSemaDown (SleepSema t)) \/ forall t, f <> KSemaDown (SleepSema t))
      by (destruct f as [| | | | |[]| | | | | | | | | | | | | | | | | | |]; eauto).
    destruct Hcase as [[t ->]|Hsl]; [by eapply (sleep_down_sleepers s s1 t rest)|].
    assert (S1 : sleepers_ok s1).
    { apply (sleepers_same s); [by rewrite E1| |done]. intros u Hu. destruct (sl_each _ S u Hu) as (H1 & H2 & H3).
      rewrite E1. cbn. rewrite fn_at. split_and!; [done|by case_decide; subst| |done]. case_decide; [subst u|done]. cbn.
      rewrite E in H2. apply elem_of_cons in H2 as [H2|H2]; [by destruct (Hsl (current s))|done]. }
    assert (Hcase : (exists c l, f = KDonate c l) \/ forall c l, f <> KDonate c l) by (destruct f; eauto).
    destruct Hcase as [(c & l & ->)|Hd].
    + simpl in H. unfold donation_step in H. kinv H. apply donation_turn_inv in Ha0 as [[-> ->]|(h & -> & ->)]; kinv H; [done|].
      apply (does_sleepers (raise h (prio s1 c) s1)); [unfold raise; does_go|].
      apply (sleepers_same s1); [done| |done]. intros u Hu. destruct (sl_each _ S1 u Hu) as (H1 & H2 & H3).
      cbn. rewrite !fn_at. by case_decide; subst.
    + apply (run_frame_does false) in H; [by eapply does_sleepers|done|done|by right].
  - apply intr_handler_split in H as (s1 & H & D). unfold timer_wakeup in H. kinv H.
    eapply does_sleepers; [apply D|]. eapply timer_wakeup_loop_sleepers; [| |exact H|]; [done|done|].
    eapply does_sleepers; [apply at_tick_does|done].
Qed.

Lemma reachable_sleepers main s : main <> NULL -> reachable main s -> sound s /\ sleepers_ok s.
Proof.
  intros Hm H. apply init_sound in Hm.
  assert (G : forall x y, rtc step x y -> sound x -> sleepers_ok x -> sound y /\ sleepers_ok y).
  { clear. induction 1 as [|x y z [e Ha He] _ IH]; [done|]. intros Hs S. apply IH; [by eapply exec_sound|by eapply exec_sleepers]. }
  apply (G _ _ H); [done|]. split; cbn; [constructor|constructor|]. by intros t ?%not_elem_of_nil.
Qed.

(** ** Waking *)

(** Only the sleeper itself waits for its [sema_p]. *)
Lemma sleep_waiters s c t x :
  sched_inv (Some c) s -> x ∈ waiters (sema s (SleepSema t)) -> x = t.
Proof.
  intros Hi Hx. pose proof (proj1 (si_wait _ _ Hi _ _) Hx) as (Ha & Hb & Hh).
  assert (Hn : Some c <> Some x).
  { intros [= ->]. pose proof (proj2 (si_run _ _ Hi x Ha) eq_refl) as E. rewrite Hb in E. done. }
  destruct (si_stack _ _ Hi x Ha Hn) as [Hs|(_ & lv & Hz)]; [|by rewrite Hz in Hh].
  destruct (stack_of s x) as [|f rest]; [done|]. simpl in Hh. simplify_eq.
  apply stack_ok_head in Hs. simpl in Hs. congruence.
Qed.

Definition sleeping (s : kstate) (t : Z) : bool :=
  match waiters (sema s (SleepSema t)) with [] => false | _ => true end.

(** Waking one sleeper. *)
Lemma upped_sleeper s t :
  sched_inv (Some (current s)) s ->
  let s' := upped (SleepSema t) s in
  sched_inv (Some (current s')) s' /\ current s' = current s /\
  (forall u, wake_time s' u = wake_time s u) /\ sleep_list s' = sleep_list s /\
  in_external_intr s' = in_external_intr s /\ intr_on s' = intr_on s /\
  (forall u, status_of s' u = if (t =? u) && sleeping s u then THREAD_READY else status_of s u) /\
  (forall u, sleeping s' u = negb (t =? u) && sleeping s u) /\
  (forall u, value (sema s' (SleepSema u)) =
     if t =? u then u32 (value (sema s (SleepSema u)) + 1) else value (sema s (SleepSema u))).
Proof.
  intros Hi s'. destruct (upped_fields (SleepSema t) s) as [F1 F2].
  assert (Hc : current s' = current s) by (unfold s', upped; by destruct (sort_ordered _ _)).
  assert (Hi' : sched_inv (Some (current s')) s').
  { rewrite Hc. unfold s', upped. destruct (sort_ordered _ _) as [|x rest] eqn:E.
    - assert (Q : quiet [] s (incremented (SleepSema t) s)) by by apply quiet_sema. destruct Q as [Q _].
      exact (sched_inv_quiet s _ Hi Q).
    - apply sort_ordered_first in E. pose proof (readied_wakes x _ rest s _ Hi E) as W.
      destruct (waiting_facts x (SleepSema t) s _ Hi) as (H1 & H2 & H3 & H4 & H5); [rewrite E; by left|].
      pose proof (wake_inv x _ s _ Hi W H1 H2 H3 H4 H5) as Hi1.
      set (s1 := readied x (with_waiters (SleepSema t) rest s)) in *.
      assert (Q : quiet [] s1 (incremented (SleepSema t) s1)) by by apply quiet_sema. destruct Q as [Q _].
      exact (sched_inv_quiet s1 _ Hi1 Q). }
  split_and!; [done|done|..|done|done| | |].
  - intros u. unfold s', upped. destruct (sort_ordered _ _); [done|]. cbn. rewrite fn_at. by case_decide; subst.
  - unfold s', upped. by destruct (sort_ordered _ _).
  - intros u. unfold sleeping. destruct (waiters (sema s (SleepSema t))) as [|x xs] eqn:E.
    + unfold s'. rewrite upped_nil by done. cbn. destruct (Z.eqb_spec t u); [subst; by rewrite E|done].
    + destruct (upped_cons (SleepSema t) s) as (us & y & vs & rest & Ew & _ & _ & _ & Eu); [by rewrite E|].
      assert (y = t) as -> by (apply (sleep_waiters s _ _ _ Hi); rewrite Ew; apply elem_of_app; right; by left).
      unfold s'. rewrite Eu. cbn. rewrite fn_at. destruct (Z.eqb_spec t u) as [Hu|Hu]; [subst u|by rewrite decide_False].
      rewrite decide_True by done. by rewrite E.
  - intros u. unfold sleeping. unfold s', upped.
    destruct (sort_ordered _ _) as [|x rest] eqn:E.
    + pose proof (sort_ordered_perm (comparePriority elem s) (waiters (sema s (SleepSema t)))) as Hp.
      rewrite E in Hp. apply Permutation_nil_l in Hp. cbn. rewrite fn_at.
      destruct (Z.eqb_spec t u) as [Hu|Hu]; [subst u; rewrite decide_True by done; cbn; by rewrite <-Hp|by rewrite decide_False by congruence].
    + apply sort_ordered_first in E. cbn. rewrite !fn_at.
      destruct (Z.eqb_spec t u) as [Hu|Hu]; [subst u; rewrite !decide_True by done|by rewrite !decide_False by congruence].
      cbn. assert (rest = []) as ->; [|done].
      pose proof (si_wait_nodup _ _ Hi (SleepSema t)) as Hnd. rewrite E in Hnd.
      apply NoDup_cons in Hnd as [Hx _]. destruct rest as [|z rest]; [done|]. exfalso. apply Hx.
      assert (x = t) as -> by (apply (sleep_waiters s _ _ _ Hi); rewrite E; by left).
      assert (z = t) as -> by (apply (sleep_waiters s _ _ _ Hi); rewrite E; right; by left). by left.
  - intros u. unfold s', upped. destruct (sort_ordered _ _); cbn; rewrite !fn_at;
      (destruct (Z.eqb_spec t u) as [Hu|Hu]; [subst u; by rewrite !decide_True|by rewrite !decide_False by congruence]).
Qed.

Definition expired (now : Z) (s : kstate) (t : Z) : bool := wake_time s t <=? now.

(** The ready list after the threads [ts] have entered it one after the
    other. *)
Definition entered (s : kstate) (ts : list Z) : list Z :=
  foldl (fun rs t => insert_ordered (comparePriority elem s) t rs) (ready_list s) ts.

Lemma insert_ordered_ext f g x ts :
  (forall a b, f a b = g a b) -> insert_ordered f x ts = insert_ordered g x ts.
Proof. intros E. induction ts as [|y ts IH]; [done|]. cbn. by rewrite E, IH. Qed.

Lemma entered_same s s' ts :
  (forall u, prio s' u = prio s u) -> ready_list s' = ready_list s -> entered s' ts = entered s ts.
Proof.
  intros Hp Hr. unfold entered. rewrite Hr. generalize (ready_list s) as rs.
  induction ts as [|t ts IH]; intros rs; [done|]. cbn. rewrite IH. f_equal. apply insert_ordered_ext.
  intros a b. unfold comparePriority. cbn. by rewrite !Hp.
Qed.

Lemma entered_upped s t ts :
  sched_inv (Some (current s)) s ->
  entered (upped (SleepSema t) s) ts = entered s (if sleeping s t then t :: ts else ts).
Proof.
  intros Hi. destruct (upped_view (SleepSema t) s) as (_ & _ & V & _).
  transitivity (entered (set_ready_list (ready_list (upped (SleepSema t) s)) s) ts).
  { by apply entered_same; [intros u; apply V|]. }
  unfold sleeping. destruct (waiters (sema s (SleepSema t))) as [|x xs] eqn:E.
  - rewrite upped_nil by done. by apply entered_same.
  - destruct (upped_cons (SleepSema t) s) as (us & y & vs & rest & Ew & _ & _ & _ & Eu); [by rewrite E|].
    assert (y = t) as -> by (apply (sleep_waiters s _ _ _ Hi); rewrite Ew; apply elem_of_app; right; by left).
    rewrite Eu. done.
Qed.

(** What waking the expired sleepers of [ts] does. *)
Record woken (now : Z) (ts : list Z) (s s' : kstate) : Prop := {
  wo_inv : sched_inv (Some (current s')) s';
  wo_current : current s' = current s;
  wo_list : sleep_list s' = List.filter (fun t => negb (expired now s t)) ts;
  wo_time u : wake_time s' u = wake_time s u;
  wo_prio u : prio s' u = prio s u;
  wo_ready : ready_list s' = entered s (List.filter (fun t => expired now s t && sleeping s t) ts);
  wo_status u : status_of s' u =
    if bool_decide (u ∈ ts) && expired now s u && sleeping s u then THREAD_READY else status_of s u;
  wo_value u : value (sema s' (SleepSema u)) =
    if bool_decide (u ∈ ts) && expired now s u then u32 (value (sema s (SleepSema u)) + 1)
    else value (sema s (SleepSema u))
}.

Lemma woken_none now s ts :
  sched_inv (Some (current s)) s -> sleep_list s = ts -> (forall t, t ∈ ts -> now < wake_time s t) ->
  woken now ts s s.
Proof.
  intros Hi <- Ht.
  assert (Hx : forall u, bool_decide (u ∈ sleep_list s) && expired now s u = false).
  { intros u. case_bool_decide as Hu; [|done]. specialize (Ht u Hu). unfold expired. simpl. lia. }
  assert (Hf : List.filter (fun t => negb (expired now s t)) (sleep_list s) = sleep_list s /\
               List.filter (fun t => expired now s t && sleeping s t) (sleep_list s) = []).
  { clear Hx Hi. induction (sleep_list s) as [|t ts IH]; [done|]. cbn [List.filter].
    assert (Ex : expired now s t = false) by (unfold expired; apply Z.leb_gt, Ht; by left). rewrite Ex. cbn [negb andb].
    destruct IH as [I1 I2]; [intros; apply Ht; by right|]. by rewrite I1, I2. }
  destruct Hf as [F1 F2]. split; [done|done|done|done|done|by rewrite F2|intros u; by rewrite Hx|intros u; by rewrite Hx].
Qed.

Lemma filter_in_ext {A} (f g : A -> bool) xs :
  (forall x, x ∈ xs -> f x = g x) -> List.filter f xs = List.filter g xs.
Proof.
  induction xs as [|x xs IH]; intros E; [done|]. cbn. rewrite (E x) by (by left). rewrite IH; [done|]. intros. apply E. by right.
Qed.

Lemma in_cons_other (t u : Z) ts : t <> u -> bool_decide (u ∈ t :: ts) = bool_decide (u ∈ ts).
Proof. intros H. apply bool_decide_ext. rewrite elem_of_cons. naive_solver. Qed.

Lemma timer_wakeup_loop_ok now ts : forall s,
  sched_inv (Some (current s)) s -> in_external_intr s = true -> intr_on s = false ->
  NoDup ts -> by_wake_time s ts -> sleep_list s = ts ->
  exists s', timer_wakeup_loop now ts s = Ok (tt, s') /\ woken now ts s s'.
Proof.
  induction ts as [|t rest IH]; intros s Hi He Hl Hnd Hs Hsl; cbn [timer_wakeup_loop].
  { exists s. split; [done|]. apply woken_none; [done|done|]. by intros t ?%not_elem_of_nil. }
  rewrite bind_get. apply by_wake_time_cons in Hs as [Hs Hle]. apply NoDup_cons in Hnd as [Hnt Hnd].
  destruct (Z.leb_spec (wake_time s t) now) as [Hexp|Hexp].
  - destruct (upped_sleeper s t Hi) as (U1 & U2 & U3 & U4 & U5 & U6 & U7 & U8 & U9).
    mstep_by (rewrite sema_up_ok; [by rewrite He|done|done]).
    assert (Up : forall u, prio (upped (SleepSema t) s) u = prio s u) by (intros u; apply upped_view).
    pose proof (fun l => entered_upped s t l Hi) as Ue.
    set (s1 := upped (SleepSema t) s) in *. clearbody s1.
    mstep (eq_refl : modify (set_sleep_list rest) s1 = Ok (tt, set_sleep_list rest s1)).
    destruct (IH (set_sleep_list rest s1)) as (s' & Hrun & [W1 W2 W3 W4 Wp Wr W5 W6]).
    + eapply (sched_inv_quiet s1); [exact U1|]. by split.
    + by rewrite <-He, <-U5.
    + by rewrite <-Hl, <-U6.
    + done.
    + by eapply by_wake_time_ext.
    + done.
    + exists s'. split; [done|]. cbn in W2, W4, Wp, W5, W6.
      assert (Ex : forall u, expired now (set_sleep_list rest s1) u = expired now s u).
      { intros u. unfold expired. cbn. by rewrite U3. }
      assert (Sl : forall u, sleeping (set_sleep_list rest s1) u = sleeping s1 u) by done.
      assert (Et : expired now s t = true) by (unfold expired; by apply Z.leb_le).
      split; [done|congruence| |intros u; by rewrite W4|intros u; by rewrite Wp|..].
      * rewrite W3. cbn [List.filter]. rewrite Et. simpl. apply List.filter_ext. intros u. by rewrite Ex.
      * rewrite Wr. rewrite (entered_same s1) by done. rewrite Ue. cbn [List.filter]. rewrite Et. cbn [andb].
        assert (Ef : List.filter (fun u => expired now (set_sleep_list rest s1) u && sleeping (set_sleep_list rest s1) u) rest
                   = List.filter (fun u => expired now s u && sleeping s u) rest).
        { apply filter_in_ext. intros u Hu. rewrite Ex, Sl, U8. destruct (Z.eqb_spec t u) as [<-|]; done. }
        rewrite Ef. by destruct (sleeping s t).
      * intros u. rewrite W5, Ex, Sl, U8, U7. destruct (Z.eqb_spec t u) as [<-|Hu].
        -- rewrite (bool_decide_eq_false_2 (t ∈ rest)), (bool_decide_eq_true_2 (t ∈ t :: rest)), Et by (done || by left).
           done.
        -- rewrite in_cons_other by done. simpl. done.
      * intros u. rewrite W6, Ex, U9. destruct (Z.eqb_spec t u) as [<-|Hu].
        -- rewrite (bool_decide_eq_false_2 (t ∈ rest)), (bool_decide_eq_true_2 (t ∈ t :: rest)), Et by (done || by left).
           done.
        -- by rewrite in_cons_other.
  - exists s. split; [done|]. apply woken_none; [done|done|].
    intros u [->|Hu]%elem_of_cons; [done|]. specialize (Hle u Hu). lia.
Qed.

Lemma at_tick_others s : others s (at_tick s).
Proof.
  unfold at_tick, pushed. split; intros *; cbn; rewrite ?fn_at; try done; try (by case_decide; subst).
Qed.

Lemma timer_wakeup_loop_lists now ts : forall s a s',
  in_external_intr s = true -> timer_wakeup_loop now ts s = Ok (a, s') ->
  all_list s' = all_list s /\ idle_thread s' = idle_thread s.
Proof.
  induction ts as [|t rest IH]; intros s a s' He H; cbn [timer_wakeup_loop] in H; [by kinv H|].
  kinv H. destruct (_ <=? now); [|by kinv H]. kinv H. apply sema_up_inv in Ha. rewrite He in Ha. subst s0.
  apply IH in H as [E1 E2]; [|cbn [in_external_intr set_sleep_list]; by rewrite (proj2 (upped_fields _ _))].
  rewrite E1, E2. cbn [all_list idle_thread set_sleep_list]. unfold upped. by destruct (sort_ordered _ _).
Qed.

(** C32: What the timer interrupt does to the sleepers, in every reachable
    state.  The sleep list is in order of wake-up times, without repetition,
    and [timer_wakeup] always returns: the threads whose time has come leave
    the list and the others stay in it in order.  The expired threads are woken
    in the order of their wake-up times: the ready list is the one before with
    those of them that wait for their semaphore inserted one after the other
    in the order of the sleep list, by priority and behind equals; they become
    ready, an expired thread that has not yet begun to wait finds its semaphore
    raised, and no other thread changes state. *)
Theorem timer_wakeup_correct main s now :
  main <> NULL -> reachable main s ->
  let s0 := at_tick s in
  NoDup (sleep_list s0) /\ by_wake_time s0 (sleep_list s0) /\
  exists s', timer_wakeup now s0 = Ok (tt, s') /\
    sleep_list s' = List.filter (fun t => negb (expired now s0 t)) (sleep_list s0) /\
    ready_list s' = entered s0 (List.filter (fun t => expired now s0 t && sleeping s0 t) (sleep_list s0)) /\
    (forall t, t ∈ sleep_list s0 -> wake_time s0 t <= now ->
       value (sema s' (SleepSema t)) = u32 (value (sema s0 (SleepSema t)) + 1) /\
       (t ∈ waiters (sema s0 (SleepSema t)) -> status_of s' t = THREAD_READY /\ t ∈ ready_list s')) /\
    (forall t, ~ (t ∈ sleep_list s0 /\ wake_time s0 t <= now /\ t ∈ waiters (sema s0 (SleepSema t))) ->
       status_of s' t = status_of s0 t).
Proof.
  intros Hm Hr s0. destruct (reachable_sleepers main s Hm Hr) as [[Hi0 _] S].
  apply (does_sleepers _ _ (at_tick_does false s)) in S. fold s0 in S. destruct S as [Hnd Hs _].
  assert (Hi : sched_inv (Some (current s0)) s0) by (apply (sched_inv_quiet s); [exact Hi0|apply at_tick_others]).
  split; [done|]. split; [done|].
  destruct (timer_wakeup_loop_ok now (sleep_list s0) s0) as (s' & Hrun & [W1 W2 W3 W4 _ Wr W5 W6]); [done..|].
  exists s'. split_and!; [unfold timer_wakeup; by rewrite bind_get|done|done|..].
  - intros t Ht Hw. assert (Et : expired now s0 t = true) by (unfold expired; by apply Z.leb_le). split.
    + by rewrite W6, Et, bool_decide_eq_true_2.
    + intros Hin. destruct (waiting_facts t (SleepSema t) s0 _ Hi Hin) as (H1 & H2 & H3 & H4 & _).
      assert (Hst : status_of s' t = THREAD_READY).
      { rewrite W5, Et, bool_decide_eq_true_2 by done. unfold sleeping.
        destruct (waiters (sema s0 (SleepSema t))); [by apply not_elem_of_nil in Hin|done]. }
      split; [done|].
      destruct (timer_wakeup_loop_lists now (sleep_list s0) s0 tt s' eq_refl Hrun) as [Ea Ei].
      apply (si_ready _ _ W1). by rewrite Ea, Ei.
  - intros t Hn. rewrite W5. case_bool_decide as Ht; [|done]. unfold expired.
    destruct (Z.leb_spec (wake_time s0 t) now) as [Hw|]; [|done]. simpl. unfold sleeping.
    destruct (waiters (sema s0 (SleepSema t))) as [|x xs] eqn:E; [done|]. exfalso. apply Hn. split_and!; [done..|].
    assert (x = t) as -> by (apply (sleep_waiters s0 _ _ _ Hi); rewrite E; by left). by left.
Qed.

(** Three threads of the same priority sleep for 10, 2 and 4 ticks. *)
Definition three_sleepers : list event :=
  boot ++ create [97] 40 12288 ++ runs 1 ++ [Call (CSleep 10)] ++ runs 2
  ++ create [98] 40 16384 ++ runs 1 ++ [Call (CSleep 4)] ++ runs 2
  ++ create [99] 40 20480 ++ runs 1 ++ [Call (CSleep 2)] ++ runs 2.

Lemma timer_wakeup_correct_witness :
  let s0 := at_tick (after three_sleepers (thread_init demo_main)) in
  exists s', timer_wakeup 5 s0 = Ok (tt, s') /\ sleep_list s' = [12288] /\ ready_list s' = [20480; 16384].
Proof.
  destruct (timer_wakeup_correct demo_main (after three_sleepers (thread_init demo_main)) 5)
    as (_ & _ & s' & E & Hs & Hr & _); [discriminate|apply after_reachable; vm_compute; reflexivity|].
  exists s'. split; [exact E|]. rewrite Hs, Hr. split; vm_compute; reflexivity.
Defined.
