(* ===== verification/Hash.v ===== *)
(** * [lib/kernel/hash.c]: chained hash tables

    A table is an array of [struct list] in the memory of list elements of
    [ListModel]; bucket [i] is the list at [buckets + 16 * i].  The callbacks
    of the table are parameters of the section: [hash_func] is the
    [hash_hash_func] and [less] the [hash_less_func], each with its [aux].
    [aux] also stands for the data of the caller that an action may change.
    Each function of hash.c is one definition with its name.  A function that
    may call [malloc] takes the address BLOCK that the call returns ([NULL]
    when there is no memory); [junk] is what a new block holds.  [fuel] bounds
    the iterations of every loop over the buckets or over a list. *)

From S2P Require Import Prelude ListModel.

(** [struct hash] without the callbacks. *)
Record hash := Hash { elem_cnt : Z; bucket_cnt : Z; buckets : Z }.

(** [struct hash_iterator]; the table it iterates over is the one table. *)
Record hash_iterator := HashIterator { it_bucket : Z; it_elem : Z }.

Record hstate {E : Type} := HState { tab : hash; hmem : mem; aux : E }.
Arguments hstate : clear implicits.
Arguments HState {E} tab hmem aux.

(** ** Bit tricks *)

Definition turn_off_least_1bit (x : Z) : Z := Z.land x (u32 (x - 1)).

Definition is_power_of_2 (x : Z) : bool :=
  negb (x =? 0) && (turn_off_least_1bit x =? 0).

(** The loop that rounds the bucket count down; a [size_t] has 32 bits. *)
Fixpoint round_loop (fuel : nat) (x : Z) : result Z :=
  match fuel with
  | O => Err EFuel
  | S fuel => if is_power_of_2 x then Ok x else round_loop fuel (turn_off_least_1bit x)
  end.

Definition BEST_ELEMS_PER_BUCKET : Z := 2.

(** ** Blocks of memory *)

Definition cells (p : Z) (n : nat) : list Z := map (fun i => p + 8 * Z.of_nat i) (seq 0 n).

Definition add_cells (junk : Z -> list_elem) (l : list Z) (m : mem) : mem :=
  foldr (fun a m => <[a := junk a]> m) m l.
Definition drop_cells (l : list Z) (m : mem) : mem := foldr delete m l.

Section Ops.
Context {E : Type} (hash_func : Z -> Z) (less : Z -> Z -> bool) (junk : Z -> list_elem).

Abbreviation H := (M (hstate E)).

(** A function of list.c. *)
Definition on_lists {A} (c : M mem A) : H A := fun s =>
  match c (hmem s) with Ok (a, m) => Ok (a, HState (tab s) m (aux s)) | Err e => Err e end.

Definition set_tab (h : hash) : H unit := fun s => Ok (tt, HState h (hmem s) (aux s)).
Definition set_hmem (f : mem -> mem) : H unit := fun s => Ok (tt, HState (tab s) (f (hmem s)) (aux s)).

(** [malloc (size)] that returns BLOCK, and [free] of a block of SIZE bytes. *)
Definition malloc_lists (block size : Z) : H Z :=
  (if block =? NULL then mret tt
   else set_hmem (add_cells junk (cells block (Z.to_nat (size / 8)))));; mret block.
Definition free_lists (block size : Z) : H unit :=
  set_hmem (drop_cells (cells block (Z.to_nat (size / 8)))).

(** [&buckets[i]] *)
Definition bucket_at (p i : Z) : Z := p + 16 * i.

(** ** Buckets *)

Definition find_bucket (e : Z) : H Z :=
  h ← gets tab;
  mret (bucket_at (buckets h) (Z.land (hash_func e) (u32 (bucket_cnt h - 1)))).

Fixpoint find_elem_loop (fuel : nat) (bucket i e : Z) : H Z :=
  match fuel with
  | O => fail EFuel
  | S fuel =>
      z ← on_lists (list_end bucket);
      if bool_decide (i = z) then mret NULL else
      if negb (less i e) && negb (less e i) then mret i else
      n ← on_lists (list_next i);
      find_elem_loop fuel bucket n e
  end.

Definition find_elem (fuel : nat) (bucket e : Z) : H Z :=
  i ← on_lists (list_begin bucket); find_elem_loop fuel bucket i e.

Definition insert_elem (bucket e : Z) : H unit :=
  h ← gets tab;
  set_tab (Hash (u32 (elem_cnt h + 1)) (bucket_cnt h) (buckets h));;
  on_lists (list_push_front bucket e).

Definition remove_elem (e : Z) : H unit :=
  h ← gets tab;
  set_tab (Hash (u32 (elem_cnt h - 1)) (bucket_cnt h) (buckets h));;
  on_lists (list_remove e);; mret tt.

(** ** Resizing *)

Fixpoint init_buckets (fuel : nat) (p i cnt : Z) : H unit :=
  match fuel with
  | O => fail EFuel
  | S fuel =>
      if i <? cnt then on_lists (list_init (bucket_at p i));; init_buckets fuel p (i + 1) cnt
      else mret tt
  end.

(** Moves the elements of one old bucket. *)
Fixpoint rehash_bucket (fuel : nat) (old_bucket elem : Z) : H unit :=
  match fuel with
  | O => fail EFuel
  | S fuel =>
      z ← on_lists (list_end old_bucket);
      if bool_decide (elem = z) then mret tt else
      new_bucket ← find_bucket elem;
      next ← on_lists (list_next elem);
      on_lists (list_remove elem);;
      on_lists (list_push_front new_bucket elem);;
      rehash_bucket fuel old_bucket next
  end.

Fixpoint rehash_loop (fuel : nat) (n : nat) (old_buckets i old_bucket_cnt : Z) : H unit :=
  match n with
  | O => fail EFuel
  | S n =>
      if i <? old_bucket_cnt then
        elem ← on_lists (list_begin (bucket_at old_buckets i));
        rehash_bucket fuel (bucket_at old_buckets i) elem;;
        rehash_loop fuel n old_buckets (i + 1) old_bucket_cnt
      else mret tt
  end.

(** The number of buckets [rehash] wants. *)
Definition best_bucket_cnt (cnt : Z) : result Z :=
  let new_bucket_cnt := cnt / BEST_ELEMS_PER_BUCKET in
  round_loop 33 (if new_bucket_cnt <? 4 then 4 else new_bucket_cnt).

Definition rehash (fuel : nat) (block : Z) : H unit :=
  h ← gets tab;
  let old_buckets := buckets h in
  let old_bucket_cnt := bucket_cnt h in
  new_bucket_cnt ← (fun s => match best_bucket_cnt (elem_cnt h) with
                             | Ok n => Ok (n, s) | Err e => Err e end);
  if new_bucket_cnt =? old_bucket_cnt then mret tt else
  new_buckets ← malloc_lists block (u32 (16 * new_bucket_cnt));
  if new_buckets =? NULL then mret tt else
  init_buckets fuel new_buckets 0 new_bucket_cnt;;
  set_tab (Hash (elem_cnt h) new_bucket_cnt new_buckets);;
  rehash_loop fuel fuel old_buckets 0 old_bucket_cnt;;
  free_lists old_buckets (16 * old_bucket_cnt).

(** ** Search, insertion, deletion *)

Definition hash_insert (fuel : nat) (new block : Z) : H Z :=
  bucket ← find_bucket new;
  old ← find_elem fuel bucket new;
  (if old =? NULL then insert_elem bucket new else mret tt);;
  rehash fuel block;;
  mret old.

Definition hash_replace (fuel : nat) (new block : Z) : H Z :=
  bucket ← find_bucket new;
  old ← find_elem fuel bucket new;
  (if negb (old =? NULL) then remove_elem old else mret tt);;
  insert_elem bucket new;;
  rehash fuel block;;
  mret old.

Definition hash_find (fuel : nat) (e : Z) : H Z :=
  b ← find_bucket e; find_elem fuel b e.

Definition hash_delete (fuel : nat) (e block : Z) : H Z :=
  b ← find_bucket e;
  found ← find_elem fuel b e;
  (if negb (found =? NULL) then remove_elem found;; rehash fuel block else mret tt);;
  mret found.

(** ** Life cycle *)

Fixpoint clear_bucket (fuel : nat) (bucket : Z) (destructor : Z -> H unit) : H unit :=
  match fuel with
  | O => fail EFuel
  | S fuel =>
      b ← on_lists (list_empty bucket);
      if b : bool then mret tt else
      e ← on_lists (list_pop_front bucket);
      destructor e;;
      clear_bucket fuel bucket destructor
  end.

Fixpoint hash_clear_loop (fuel n : nat) (i : Z) (destructor : option (Z -> H unit)) : H unit :=
  match n with
  | O => fail EFuel
  | S n =>
      h ← gets tab;
      if i <? bucket_cnt h then
        let bucket := bucket_at (buckets h) i in
        match destructor with
        | Some d => clear_bucket fuel bucket d
        | None => mret tt
        end;;
        on_lists (list_init bucket);;
        hash_clear_loop fuel n (i + 1) destructor
      else mret tt
  end.

Definition hash_clear (fuel : nat) (destructor : option (Z -> H unit)) : H unit :=
  hash_clear_loop fuel fuel 0 destructor;;
  h ← gets tab;
  set_tab (Hash 0 (bucket_cnt h) (buckets h)).

Definition hash_init (fuel : nat) (block : Z) : H bool :=
  p ← malloc_lists block (16 * 4);
  set_tab (Hash 0 4 p);;
  if negb (p =? NULL) then hash_clear fuel None;; mret true else mret false.

Definition hash_destroy (fuel : nat) (destructor : option (Z -> H unit)) : H unit :=
  match destructor with
  | Some d => hash_clear fuel (Some d)
  | None => mret tt
  end;;
  h ← gets tab;
  free_lists (buckets h) (16 * bucket_cnt h).

(** ** Iteration *)

Fixpoint apply_bucket (fuel : nat) (bucket elem : Z) (action : Z -> H unit) : H unit :=
  match fuel with
  | O => fail EFuel
  | S fuel =>
      z ← on_lists (list_end bucket);
      if bool_decide (elem = z) then mret tt else
      next ← on_lists (list_next elem);
      action elem;;
      apply_bucket fuel bucket next action
  end.

Fixpoint hash_apply_loop (fuel n : nat) (i : Z) (action : Z -> H unit) : H unit :=
  match n with
  | O => fail EFuel
  | S n =>
      h ← gets tab;
      if i <? bucket_cnt h then
        elem ← on_lists (list_begin (bucket_at (buckets h) i));
        apply_bucket fuel (bucket_at (buckets h) i) elem action;;
        hash_apply_loop fuel n (i + 1) action
      else mret tt
  end.

Definition hash_apply (fuel : nat) (action : option (Z -> H unit)) : H unit :=
  match action with
  | None => fail EAssert
  | Some action => hash_apply_loop fuel fuel 0 action
  end.

Definition hash_first : H hash_iterator :=
  h ← gets tab;
  e ← on_lists (list_head (buckets h));
  mret (HashIterator (buckets h) e).

Fixpoint hash_next_loop (fuel : nat) (i : hash_iterator) : H hash_iterator :=
  match fuel with
  | O => fail EFuel
  | S fuel =>
      z ← on_lists (list_end (it_bucket i));
      if bool_decide (it_elem i = z) then
        h ← gets tab;
        let b := bucket_at (it_bucket i) 1 in
        if bucket_at (buckets h) (bucket_cnt h) <=? b then mret (HashIterator b NULL) else
        e ← on_lists (list_begin b);
        hash_next_loop fuel (HashIterator b e)
      else mret i
  end.

(** Returns the advanced iterator; the element is [hash_cur] of it. *)
Definition hash_next (fuel : nat) (i : hash_iterator) : H hash_iterator :=
  e ← on_lists (list_next (it_elem i));
  hash_next_loop fuel (HashIterator (it_bucket i) e).

Definition hash_cur (i : hash_iterator) : Z := it_elem i.

Definition hash_size : H Z := h ← gets tab; mret (elem_cnt h).
Definition hash_empty : H bool := h ← gets tab; mret (elem_cnt h =? 0).

End Ops.
