(* ===== verification/HashRep.v ===== *)
(** * Several lists in one memory, and the shape of a hash table

    [reps m ls] says that the memory holds all the lists of [ls], each with its
    elements, and that they share no element and no header.  A hash table is
    such a family: [tbl p bs] is the array of lists at [p]. *)

From S2P Require Import Prelude ListModel ListRep ListOps ListOrder ListSpec Hash.

(** ** Families of lists *)

Definition foot (ls : list (Z * list Z)) : list Z := concat (map (fun p => whole p.1 p.2) ls).

Definition reps (m : mem) (ls : list (Z * list Z)) : Prop :=
  Forall (fun p => rep m p.1 p.2) ls /\ NoDup (foot ls).

Lemma foot_cons l xs ls : foot ((l, xs) :: ls) = whole l xs ++ foot ls.
Proof. done. Qed.

Lemma foot_app ls1 ls2 : foot (ls1 ++ ls2) = foot ls1 ++ foot ls2.
Proof. unfold foot. by rewrite map_app, concat_app. Qed.

Lemma foot_perm ls ls' : ls ≡ₚ ls' -> foot ls ≡ₚ foot ls'.
Proof.
  unfold foot. induction 1 as [|x l l' _ IH|x y l|? ? ? _ IH1 _ IH2]; cbn [map concat]; [done|by rewrite IH| |by rewrite IH1].
  rewrite !app_assoc. f_equiv. apply Permutation_app_comm.
Qed.

#[export] Instance foot_proper : Proper ((≡ₚ) ==> (≡ₚ)) foot.
Proof. exact foot_perm. Qed.

#[export] Instance reps_proper m : Proper ((≡ₚ) ==> iff) (reps m).
Proof. intros ls ls' E. unfold reps. by rewrite E. Qed.

Lemma reps_cons m l xs ls :
  reps m ((l, xs) :: ls) <-> rep m l xs /\ reps m ls /\ (forall a, a ∈ whole l xs -> a ∉ foot ls).
Proof.
  unfold reps. rewrite Forall_cons, foot_cons, NoDup_app. simpl. split; [tauto|].
  intros (H & [? ?] & ?). split_and!; try done. apply (rep_nodup _ _ _ H).
Qed.

Lemma reps_app m ls1 ls2 :
  reps m (ls1 ++ ls2) <-> reps m ls1 /\ reps m ls2 /\ (forall a, a ∈ foot ls1 -> a ∉ foot ls2).
Proof. unfold reps. rewrite Forall_app, foot_app, NoDup_app. tauto. Qed.

(** What a family is does not depend on the rest of the memory. *)
Lemma rep_agree m m' l xs :
  (forall a, a ∈ whole l xs -> m' !! a = m !! a) -> rep m l xs -> rep m' l xs.
Proof.
  intros Hag [Hc Hnd Hnull Hh Ht]. unfold whole in Hag.
  assert (m' !! head_of l = m !! head_of l) by (apply Hag; set_solver).
  assert (m' !! tail_of l = m !! tail_of l) by (apply Hag; set_solver).
  split; try done; unfold fl in *; try congruence. by apply (chain_frame m).
Qed.

Lemma reps_agree m m' ls :
  (forall a, a ∈ foot ls -> m' !! a = m !! a) -> reps m ls -> reps m' ls.
Proof.
  intros Hag [Hr Hn]. split; [|done]. clear Hn. induction Hr as [|[l xs] ls H Hr IH]; constructor.
  - apply (rep_agree m); [|done]. intros a Ha. apply Hag. rewrite foot_cons. set_solver.
  - apply IH. intros a Ha. apply Hag. rewrite foot_cons. set_solver.
Qed.

Lemma reps_outside D m m' ls :
  outside D m m' -> (forall a, a ∈ D -> a ∉ foot ls) -> reps m ls -> reps m' ls.
Proof. intros [_ Ho] Hd. apply reps_agree. intros a Ha. apply Ho. intros HD. by apply (Hd a). Qed.

(** One list of the family changes. *)
Lemma reps_set m m' l xs xs' D ls :
  reps m ((l, xs) :: ls) -> rep m' l xs' -> outside D m m' ->
  (forall a, a ∈ D -> a ∉ foot ls) -> (forall a, a ∈ whole l xs' -> a ∉ foot ls) ->
  reps m' ((l, xs') :: ls).
Proof.
  rewrite !reps_cons. intros (_ & Hr & _) Hl Ho Hd Hw. split_and!; try done. by apply (reps_outside D m).
Qed.

Lemma whole_cons l e xs a : a ∈ whole l (e :: xs) <-> a = e \/ a ∈ whole l xs.
Proof. unfold whole. set_solver. Qed.

Lemma whole_mid l xs e ys a : a ∈ whole l (xs ++ ys) -> a ∈ whole l (xs ++ e :: ys).
Proof. unfold whole. set_solver. Qed.

Lemma reps_has m ls a : reps m ls -> a ∈ foot ls -> has m a.
Proof.
  intros [Hr _]. induction Hr as [|[l xs] ls H Hr IH]; simpl; [set_solver|].
  rewrite foot_cons, elem_of_app. intros [Ha|Ha]; [|by apply IH].
  destruct (rep_ends _ _ _ H) as (E1 & E2 & _). simpl in H, E1, E2. unfold whole in Ha.
  rewrite elem_of_cons, elem_of_app, list_elem_of_singleton in Ha. destruct Ha as [->|[Ha| ->]].
  - by eapply fl_has.
  - apply list_elem_of_split in Ha as (us & vs & ->).
    destruct (rep_elem _ _ _ _ _ H) as (Hp & _). by eapply fl_has.
  - by eapply fl_has.
Qed.

Lemma reps_null m ls : reps m ls -> NULL ∉ foot ls.
Proof.
  intros [Hr _]. induction Hr as [|[l xs] ls H Hr IH]; [apply not_elem_of_nil|].
  rewrite foot_cons, elem_of_app. intros [Ha|Ha]; [|done]. by apply (rep_null _ _ _ H).
Qed.

(** ** The two list operations of a table, on a family *)

Lemma reps_push m l xs ls e :
  reps m ((l, xs) :: ls) -> e <> NULL -> has m e -> e ∉ foot ((l, xs) :: ls) ->
  exists m', list_push_front l e m = Ok (tt, m') /\ reps m' ((l, e :: xs) :: ls) /\
    outside (e :: whole l xs) m m'.
Proof.
  intros H He Hh Hout. rewrite foot_cons, elem_of_app in Hout.
  pose proof (proj1 (reps_cons _ _ _ _) H) as (Hl & _ & Hd).
  destruct (list_push_front_ok m l xs e) as (m' & E & Hr & Ho); [done|done|done|tauto|].
  exists m'. split_and!; [done| |].
  - apply (reps_set m m' l xs (e :: xs) (whole l (e :: xs))); try done;
      intros a [->|Ha]%whole_cons; try tauto; by apply Hd.
  - eapply outside_mono; [|exact Ho]. intros a Ha. apply whole_cons in Ha. set_solver.
Qed.

Lemma reps_remove m l xs e ys ls :
  reps m ((l, xs ++ e :: ys) :: ls) ->
  exists m', list_remove e m = Ok (first_of l ys, m') /\ reps m' ((l, xs ++ ys) :: ls) /\
    outside (whole l (xs ++ e :: ys)) m m' /\ e <> NULL /\ has m' e /\ e ∉ foot ((l, xs ++ ys) :: ls).
Proof.
  intros H. pose proof (proj1 (reps_cons _ _ _ _) H) as (Hl & _ & Hd).
  destruct (list_remove_ok m l xs e ys Hl) as (m' & E & Hr & Ho & Hh).
  assert (He : e ∈ whole l (xs ++ e :: ys)) by (unfold whole; set_solver).
  exists m'. split_and!; [done| |done| |done|].
  - eapply reps_set; [exact H|exact Hr|exact Ho|done|]. intros a Ha. by apply Hd, whole_mid.
  - intros ->. by apply (rep_null _ _ _ Hl).
  - rewrite foot_cons, elem_of_app. intros [Ha|Ha]; [|by apply (Hd e)].
    pose proof (rep_nodup _ _ _ Hl) as Hn. unfold whole in Ha, Hn. revert Hn.
    replace (head_of l :: (xs ++ e :: ys) ++ [tail_of l])
      with ((head_of l :: xs) ++ e :: (ys ++ [tail_of l])) by (simpl; by rewrite <-app_assoc).
    intros (_ & Hx & [Hy _]%NoDup_cons)%NoDup_app. specialize (Hx e). set_solver.
Qed.

(** Moving an element from the front of one list to the front of another. *)
Lemma reps_move m o e xs l ys ls :
  reps m ((o, e :: xs) :: (l, ys) :: ls) ->
  exists m1 m2, list_remove e m = Ok (first_of o xs, m1) /\
    list_push_front l e m1 = Ok (tt, m2) /\ reps m2 ((o, xs) :: (l, e :: ys) :: ls) /\
    outside (whole o (e :: xs) ++ whole l ys) m m2.
Proof.
  intros H. destruct (reps_remove m o [] e xs _ H) as (m1 & E1 & H1 & O1 & He & Hh & Hn).
  simpl in H1, Hn. assert (P : ((o, xs) :: (l, ys) :: ls) ≡ₚ ((l, ys) :: (o, xs) :: ls)) by apply perm_swap.
  rewrite P in H1. rewrite (foot_perm _ _ P) in Hn.
  destruct (reps_push m1 l ys _ e H1 He Hh Hn) as (m2 & E2 & H2 & O2).
  exists m1, m2. split_and!; [done|done| |].
  - by rewrite perm_swap.
  - eapply outside_trans; (eapply outside_mono; [|eassumption]); [set_solver|].
    intros a Ha. rewrite elem_of_app. apply elem_of_cons in Ha as [->|Ha]; [left; unfold whole|right; done]. set_solver.
Qed.

(** ** The array of lists *)

Fixpoint tbl (p : Z) (bs : list (list Z)) : list (Z * list Z) :=
  match bs with [] => [] | b :: bs => (p, b) :: tbl (p + 16) bs end.

Lemma tbl_app p bs1 bs2 : tbl p (bs1 ++ bs2) = tbl p bs1 ++ tbl (bucket_at p (Z.of_nat (length bs1))) bs2.
Proof.
  unfold bucket_at. revert p. induction bs1 as [|b bs1 IH]; intros p; simpl; [do 2 f_equal; lia|].
  rewrite IH. do 3 f_equal. lia.
Qed.

Lemma tbl_lookup p bs i b :
  bs !! i = Some b ->
  exists ls, tbl p bs ≡ₚ (bucket_at p (Z.of_nat i), b) :: ls /\
    forall b', tbl p (<[i := b']> bs) ≡ₚ (bucket_at p (Z.of_nat i), b') :: ls.
Proof.
  intros H. assert (Hi : length (take i bs) = i).
  { rewrite length_take. apply lookup_lt_Some in H. lia. }
  exists (tbl p (take i bs) ++ tbl (bucket_at p (Z.of_nat i) + 16) (drop (S i) bs)). split.
  - rewrite <-(take_drop_middle bs i b H) at 1. rewrite tbl_app, Hi. simpl. by rewrite Permutation_middle.
  - intros b'. rewrite insert_take_drop by (by eapply lookup_lt_Some).
    rewrite tbl_app, Hi. simpl. by rewrite Permutation_middle.
Qed.

Lemma concat_lookup (bs : list (list Z)) i b :
  bs !! i = Some b ->
  exists r, concat bs ≡ₚ b ++ r /\ forall b', concat (<[i := b']> bs) ≡ₚ b' ++ r.
Proof.
  intros H. exists (concat (take i bs) ++ concat (drop (S i) bs)). split.
  - rewrite <-(take_drop_middle bs i b H) at 1. rewrite concat_app. simpl.
    rewrite !app_assoc. f_equiv. apply Permutation_app_comm.
  - intros b'. rewrite insert_take_drop by (by eapply lookup_lt_Some). rewrite concat_app. simpl.
    rewrite !app_assoc. f_equiv. apply Permutation_app_comm.
Qed.

Lemma cells_S p n : cells p (S n) = p :: cells (p + 8) n.
Proof.
  unfold cells. cbn [seq map]. f_equal; [lia|]. rewrite <-seq_shift, map_map. apply map_ext. intros. lia.
Qed.

Lemma elem_of_cells p n a : a ∈ cells p n <-> exists i, (i < n)%nat /\ a = p + 8 * Z.of_nat i.
Proof.
  unfold cells. rewrite list_elem_of_fmap. setoid_rewrite elem_of_seq. split; intros (i & H1 & H2); exists i; split; lia.
Qed.

Lemma NoDup_cells p n : NoDup (cells p n).
Proof. unfold cells. apply (NoDup_fmap_2_strong (fun i => p + 8 * Z.of_nat i)); [lia|]. apply NoDup_seq. Qed.

(** The headers of the lists fill the array. *)
Lemma foot_tbl p bs : foot (tbl p bs) ≡ₚ cells p (2 * length bs) ++ concat bs.
Proof.
  revert p. induction bs as [|b bs IH]; intros p; [done|].
  replace (2 * length (b :: bs))%nat with (S (S (2 * length bs))) by (simpl; lia).
  rewrite !cells_S. cbn [tbl]. rewrite foot_cons, IH. simpl. unfold whole, head_of, tail_of.
  replace (p + 8 + 8) with (p + 16) by lia. simpl. f_equiv.
  rewrite <-app_assoc. simpl. rewrite <-Permutation_middle. f_equiv.
  rewrite !app_assoc. apply Permutation_app_tail, Permutation_app_comm.
Qed.

Lemma concat_empty n : concat (repeat [] n) = ([] : list Z).
Proof. by induction n. Qed.

(** ** Rounding down to a power of two *)

Fixpoint ones (p : positive) : nat :=
  match p with xH => 1 | xO p => ones p | xI p => S (ones p) end.

Lemma ones_pos p : (0 < ones p)%nat.
Proof. induction p; simpl; lia. Qed.

Lemma ones_bound n p : Z.pos p < 2 ^ Z.of_nat n -> (ones p <= n)%nat.
Proof.
  revert p. induction n as [|n IH]; intros p H; [simpl in H; lia|].
  rewrite Nat2Z.inj_succ, Z.pow_succ_r in H by lia.
  destruct p as [p|p|]; simpl; [|specialize (IH p)|]; [apply le_n_S, IH|apply Nat.le_le_succ_r, IH|]; lia.
Qed.

Lemma land_pred_even z : Z.land (2 * z) (2 * z - 1) = 2 * Z.land z (z - 1).
Proof.
  replace (2 * z - 1) with (2 * (z - 1) + 1) by lia.
  apply Z.bits_inj'. intros n Hn. destruct (decide (n = 0)) as [->|Hn0].
  - by rewrite Z.land_spec, !Z.testbit_even_0.
  - replace n with (Z.succ (Z.pred n)) by lia.
    by rewrite Z.land_spec, !Z.testbit_even_succ, Z.testbit_odd_succ, Z.land_spec by lia.
Qed.

Lemma land_pred_odd z : 0 <= z -> Z.land (2 * z + 1) (2 * z + 1 - 1) = 2 * z.
Proof.
  intros Hz. replace (2 * z + 1 - 1) with (2 * z) by lia.
  apply Z.bits_inj'. intros n Hn. destruct (decide (n = 0)) as [->|Hn0].
  - by rewrite Z.land_spec, !Z.testbit_even_0, andb_false_r.
  - replace n with (Z.succ (Z.pred n)) by lia.
    by rewrite Z.land_spec, Z.testbit_odd_succ, !Z.testbit_even_succ, andb_diag by lia.
Qed.

(** Clearing the lowest bit: either the number was a power of two, or its top
    bit stays and it has one bit less. *)
Lemma land_pred p :
  (Z.land (Z.pos p) (Z.pos p - 1) = 0 /\ Z.pos p = 2 ^ Z.log2 (Z.pos p)) \/
  (exists q, Z.land (Z.pos p) (Z.pos p - 1) = Z.pos q /\ ones p = S (ones q) /\
     Z.log2 (Z.pos q) = Z.log2 (Z.pos p) /\ Z.pos q < Z.pos p).
Proof.
  induction p as [p _|p IH|].
  - right. exists (xO p). rewrite Pos2Z.inj_xI, land_pred_odd by lia. split_and!; [lia|done| |lia].
    by rewrite Pos2Z.inj_xO, Z.log2_double, Z.log2_succ_double by lia.
  - rewrite Pos2Z.inj_xO, land_pred_even, Z.log2_double by lia.
    destruct IH as [[-> E]|(q & -> & E1 & E2 & E3)].
    + left. split; [done|]. rewrite Z.pow_succ_r by apply Z.log2_nonneg. lia.
    + right. exists (xO q). split_and!; [done|done| |lia].
      by rewrite Pos2Z.inj_xO, Z.log2_double, E2 by lia.
  - left. done.
Qed.

Lemma round_loop_ok fuel p :
  Z.pos p < 4294967296 -> (ones p <= fuel)%nat ->
  round_loop fuel (Z.pos p) = Ok (2 ^ Z.log2 (Z.pos p)).
Proof.
  revert p. induction fuel as [|fuel IH]; intros p Hp Hf; [pose proof (ones_pos p); lia|].
  cbn [round_loop]. unfold is_power_of_2, turn_off_least_1bit.
  rewrite (u32_small (Z.pos p - 1)) by lia. destruct (land_pred p) as [[-> E]|(q & -> & E1 & E2 & E3)].
  - simpl. by rewrite E at 1.
  - simpl. rewrite IH by lia. by rewrite E2.
Qed.

Lemma best_bucket_cnt_ok n :
  0 <= n < 4294967296 -> exists k, 2 <= k < 31 /\ best_bucket_cnt n = Ok (2 ^ k) /\ 2 ^ k <= Z.max 4 (n / 2).
Proof.
  intros Hn. unfold best_bucket_cnt, BEST_ELEMS_PER_BUCKET.
  assert (H2 : 0 <= n / 2 < 2147483648) by (split; [apply Z.div_pos|apply Z.div_lt_upper_bound]; lia).
  remember (if n / 2 <? 4 then 4 else n / 2) as x eqn:Ex.
  assert (Hx : 4 <= x < 2147483648 /\ x <= Z.max 4 (n / 2)) by (subst x; destruct (Z.ltb_spec (n / 2) 4); lia).
  destruct x as [|p|p]; [lia| |lia]. exists (Z.log2 (Z.pos p)).
  assert (Hl : 2 <= Z.log2 (Z.pos p) < 31).
  { split; [apply Z.log2_le_pow2; lia|]. apply Z.log2_lt_pow2; lia. }
  split_and!; [lia|lia| |].
  - apply round_loop_ok; [lia|]. apply ones_bound. lia.
  - pose proof (Z.log2_spec (Z.pos p)). lia.
Qed.
