(* ===== verification/HashOps.v ===== *)
(** * The operations of a hash table on its buckets

    What each function of hash.c does to the sequence of buckets, and the
    resizing of the table. *)

From S2P Require Import Prelude ListModel ListRep ListOps ListOrder ListSpec Hash HashRep.

(** A possible number of buckets. *)
Definition pow2 (n : nat) : Prop := exists k, 2 <= k < 31 /\ Z.of_nat n = 2 ^ k.

Definition find_eqv (less : Z -> Z -> bool) (e : Z) (xs : list Z) : option Z :=
  List.find (fun x => eqv less x e) xs.

Definition ptr (o : option Z) : Z := match o with Some a => a | None => NULL end.

Section Ops.
Context {E : Type} (hash_func : Z -> Z) (less : Z -> Z -> bool) (junk : Z -> list_elem).
Implicit Types (h : hash) (m : mem) (x : E).

Lemma on_ok {A} (c : M mem A) h m x (a : A) m' :
  c m = Ok (a, m') -> on_lists c (HState h m x) = Ok (a, HState h m' x).
Proof. intros H. unfold on_lists. simpl. by rewrite H. Qed.

(** ** The place of an element *)

Definition idx (n : nat) (e : Z) : nat := Z.to_nat (Z.land (hash_func e) (u32 (Z.of_nat n - 1))).

Definition home (bs : list (list Z)) : Prop :=
  forall i b e, bs !! i = Some b -> e ∈ b -> idx (length bs) e = i.

Lemma idx_mod n e : pow2 n -> Z.land (hash_func e) (u32 (Z.of_nat n - 1)) = hash_func e mod Z.of_nat n.
Proof.
  intros (k & Hk & En). rewrite En, u32_small.
  - rewrite <-Z.land_ones by lia. by rewrite Z.ones_equiv, Z.sub_1_r.
  - pose proof (Z.pow_pos_nonneg 2 k). assert (2 ^ k <= 2 ^ 31) by (apply Z.pow_le_mono_r; lia). lia.
Qed.

Lemma idx_lt n e : pow2 n -> (idx n e < n)%nat.
Proof.
  intros H. unfold idx. rewrite idx_mod by done. destruct H as (k & Hk & En).
  pose proof (Z.pow_pos_nonneg 2 k). pose proof (Z.mod_pos_bound (hash_func e) (Z.of_nat n)). lia.
Qed.

Lemma find_bucket_ok h m x e n :
  pow2 n -> bucket_cnt h = Z.of_nat n ->
  find_bucket hash_func e (HState h m x)
  = Ok (bucket_at (buckets h) (Z.of_nat (idx n e)), HState h m x).
Proof.
  intros Hn Hc. unfold find_bucket, gets, mret, M_ret, mbind, M_bind. simpl. rewrite Hc. do 3 f_equal.
  unfold idx. rewrite Z2Nat.id; [done|]. rewrite idx_mod by done. destruct Hn as (k & Hk & En).
  pose proof (Z.pow_pos_nonneg 2 k). apply Z.mod_pos_bound. lia.
Qed.

(** ** Searching *)

Lemma end_ok h m x l xs ys {A} (t e : M (hstate E) A) :
  rep m l (xs ++ ys) ->
  (z ← on_lists (list_end l); if bool_decide (first_of l ys = z) then t else e) (HState h m x)
  = match ys with [] => t (HState h m x) | _ => e (HState h m x) end.
Proof.
  intros H. mstep (on_ok _ h m x _ _ (list_end_ok m l (rep_not_null _ _ _ H))).
  destruct ys as [|y ys]; [by rewrite bool_decide_eq_true_2|].
  rewrite bool_decide_eq_false_2; [done|]. by eapply rep_first_neq_tail.
Qed.

Lemma find_elem_loop_ok h m x l e ys : forall xs fuel,
  rep m l (xs ++ ys) -> (length ys < fuel)%nat ->
  find_elem_loop less fuel l (first_of l ys) e (HState h m x)
  = Ok (ptr (find_eqv less e ys), HState h m x).
Proof.
  induction ys as [|y ys IH]; intros xs fuel H Hf;
    (destruct fuel as [|fuel]; [simpl in *; lia|]); cbn [find_elem_loop]; rewrite (end_ok _ _ _ _ xs _ _ _ H); [done|].
  unfold find_eqv. cbn [List.find first_of]. unfold eqv at 1. destruct (negb _ && negb _); [done|].
  mstep (on_ok _ h m x _ _ (list_next_elem _ _ _ _ _ H)).
  apply (IH (xs ++ [y])); [by rewrite <-app_assoc|simpl in Hf; lia].
Qed.

Lemma find_elem_ok h m x l e ys fuel :
  rep m l ys -> (length ys < fuel)%nat ->
  find_elem less fuel l e (HState h m x) = Ok (ptr (find_eqv less e ys), HState h m x).
Proof.
  intros H Hf. unfold find_elem. mstep (on_ok _ h m x _ _ (list_begin_ok _ _ _ H)).
  by apply (find_elem_loop_ok _ _ _ _ _ _ []).
Qed.

(** ** Initializing an array of buckets *)

Lemma init_buckets_ok h x p n : forall i fuel m,
  (n < fuel)%nat -> (forall a, a ∈ cells (bucket_at p i) (2 * n) -> a <> NULL /\ has m a) ->
  exists m', init_buckets fuel p i (i + Z.of_nat n) (HState h m x) = Ok (tt, HState h m' x) /\
    reps m' (tbl (bucket_at p i) (repeat [] n)) /\ outside (cells (bucket_at p i) (2 * n)) m m'.
Proof.
  induction n as [|n IH]; intros i fuel m Hf Hc; (destruct fuel as [|fuel]; [lia|]); cbn [init_buckets].
  { rewrite Z.add_0_r, Z.ltb_irrefl. exists m. split_and!; [done| |apply outside_refl]. by split; [|constructor]. }
  destruct (Z.ltb_spec i (i + Z.of_nat (S n))); [|lia].
  assert (Ec : cells (bucket_at p i) (2 * S n)
               = head_of (bucket_at p i) :: tail_of (bucket_at p i) :: cells (bucket_at p (i + 1)) (2 * n)).
  { replace (2 * S n)%nat with (S (S (2 * n))) by lia. rewrite !cells_S. unfold head_of, tail_of, bucket_at.
    do 3 f_equal. lia. }
  rewrite Ec in *. destruct (Hc (head_of (bucket_at p i))) as [N1 H1]; [set_solver|].
  destruct (Hc (tail_of (bucket_at p i))) as [N2 H2]; [set_solver|].
  destruct (list_init_ok m (bucket_at p i)) as (m1 & E1 & R1 & O1); try done.
  mstep (on_ok _ h m x _ _ E1).
  destruct (IH (i + 1) fuel m1) as (m2 & E2 & R2 & O2); [lia| |].
  { intros a Ha. destruct (Hc a) as [? Hh]; [set_solver|]. split; [done|].
    unfold has in *. rewrite <-!elem_of_dom in *. by rewrite (proj1 O1). }
  exists m2. replace (i + Z.of_nat (S n)) with (i + 1 + Z.of_nat n) by lia. split_and!; [done| |].
  - cbn [repeat tbl]. replace (bucket_at p i + 16) with (bucket_at p (i + 1)) by (unfold bucket_at; lia).
    assert (Hd : forall a, a ∈ whole (bucket_at p i) [] -> a ∉ cells (bucket_at p (i + 1)) (2 * n)).
    { intros a Ha (j & Hj & ->)%elem_of_cells. unfold whole, head_of, tail_of, bucket_at in Ha. cbn [app] in Ha.
      apply elem_of_cons in Ha as [Ha|Ha%list_elem_of_singleton]; lia. }
    apply reps_cons. split_and!; [|done|].
    + apply (rep_frame (cells (bucket_at p (i + 1)) (2 * n)) m1); done.
    + intros a Ha. rewrite foot_tbl, concat_empty, app_nil_r, repeat_length. by apply Hd.
  - eapply outside_trans; (eapply outside_mono; [|eassumption]); unfold whole; set_solver.
Qed.

(** ** Moving the elements *)

Definition lists_ok (h : hash) (n : nat) : Prop := pow2 n /\ bucket_cnt h = Z.of_nat n.

Lemma home_insert bs e b :
  pow2 (length bs) -> home bs -> bs !! idx (length bs) e = Some b ->
  home (<[idx (length bs) e := e :: b]> bs).
Proof.
  intros Hp Hh Hb i c a. rewrite length_insert, list_lookup_insert_Some.
  intros [(<- & <- & _)|[_ Hc]] Ha; [|by eapply Hh].
  apply elem_of_cons in Ha as [->|Ha]; [done|by eapply Hh].
Qed.

Lemma rehash_bucket_ok h x o xs : forall fuel m news ls D,
  lists_ok h (length news) -> home news -> (length xs < fuel)%nat ->
  reps m ((o, xs) :: tbl (buckets h) news ++ ls) -> foot ((o, xs) :: tbl (buckets h) news) ⊆ D ->
  exists m' news', rehash_bucket hash_func fuel o (first_of o xs) (HState h m x) = Ok (tt, HState h m' x) /\
    reps m' ((o, []) :: tbl (buckets h) news' ++ ls) /\ length news' = length news /\ home news' /\
    concat news' ≡ₚ xs ++ concat news /\ outside D m m'.
Proof.
  induction xs as [|e xs IH]; intros fuel m news ls D [Hp Hc] Hh Hf Hr HD;
    (destruct fuel as [|fuel]; [simpl in *; lia|]); cbn [rehash_bucket];
    rewrite (end_ok _ _ _ _ [] _ _ _ (proj1 (proj1 (reps_cons _ _ _ _) Hr))).
  { by exists m, news. }
  cbn [first_of]. pose proof (proj1 (reps_cons _ _ _ _) Hr) as (Ho & _).
  mstep (find_bucket_ok h m x e _ Hp Hc). mstep (on_ok _ h m x _ _ (list_next_elem m o [] e xs Ho)).
  destruct (lookup_lt_is_Some_2 news (idx (length news) e)) as [b Hb]; [by apply idx_lt|].
  destruct (tbl_lookup (buckets h) news _ b Hb) as (rest & P1 & P2).
  destruct (concat_lookup news _ b Hb) as (r & Q1 & Q2).
  rewrite P1 in Hr. cbn [app] in Hr.
  destruct (reps_move _ _ _ _ _ _ _ Hr) as (m1 & m2 & E1 & E2 & R2 & O2).
  mstep (on_ok _ h m x _ _ E1). mstep (on_ok _ h m1 x _ _ E2).
  assert (HD' : foot ((o, e :: xs) :: (bucket_at (buckets h) (Z.of_nat (idx (length news) e)), b) :: rest) ⊆ D).
  { intros a Ha. apply HD. by rewrite P1. }
  rewrite !foot_cons in HD'. rewrite (app_comm_cons rest ls), <-(P2 (e :: b)) in R2.
  destruct (IH fuel m2 (<[idx (length news) e := e :: b]> news) ls D) as (m' & news' & E' & R' & L' & H' & C' & O').
  - by rewrite length_insert.
  - by apply home_insert.
  - simpl in Hf; lia.
  - done.
  - rewrite foot_cons, (P2 (e :: b)), foot_cons. intros a. rewrite !elem_of_app, whole_cons.
    intros [Ha|[[->|Ha]|Ha]]; apply HD'; rewrite !elem_of_app, whole_cons; auto.
  - exists m', news'. rewrite length_insert in L'. split_and!; try done.
    + rewrite C', (Q2 (e :: b)), Q1. simpl. by rewrite <-Permutation_middle.
    + eapply outside_trans; [|exact O']. eapply outside_mono; [|exact O2].
      intros a. rewrite elem_of_app. intros Ha. apply HD'. rewrite !elem_of_app. tauto.
Qed.

(** A list whose elements come from two others. *)
Lemma foot_tbl_subset p bs ls (D : list Z) :
  cells p (2 * length bs) ⊆ D -> concat bs ⊆ D -> foot ls ⊆ D -> foot (ls ++ tbl p bs) ⊆ D.
Proof.
  intros H1 H2 H3 a. rewrite foot_app, elem_of_app, foot_tbl, elem_of_app. intros [|[|]]; auto.
Qed.

Lemma rehash_loop_ok h x o fuel olds : forall i n m news D,
  lists_ok h (length news) -> home news -> (length olds < n)%nat ->
  Forall (fun b => (length b < fuel)%nat) olds ->
  reps m (tbl (bucket_at o i) olds ++ tbl (buckets h) news) ->
  foot (tbl (bucket_at o i) olds ++ tbl (buckets h) news) ⊆ D ->
  exists m' news', rehash_loop hash_func fuel n o i (i + Z.of_nat (length olds)) (HState h m x) = Ok (tt, HState h m' x) /\
    reps m' (tbl (buckets h) news') /\ length news' = length news /\ home news' /\
    concat news' ≡ₚ concat olds ++ concat news /\ outside D m m'.
Proof.
  induction olds as [|b olds IH]; intros i n m news D Hl Hh Hn Hb Hr HD; (destruct n as [|n]; [simpl in Hn; lia|]);
    cbn [rehash_loop].
  { rewrite Z.add_0_r, Z.ltb_irrefl. by exists m, news. }
  destruct (Z.ltb_spec i (i + Z.of_nat (length (b :: olds)))) as [_|Hlt]; [|simpl in Hlt; lia].
  apply Forall_cons in Hb as [Hb1 Hb2].
  cbn [tbl app] in Hr, HD. replace (bucket_at o i + 16) with (bucket_at o (i + 1)) in * by (unfold bucket_at; lia).
  pose proof (proj1 (reps_cons _ _ _ _) Hr) as (Ho & _).
  mstep (on_ok _ h m x _ _ (list_begin_ok _ _ _ Ho)).
  rewrite (Permutation_app_comm (tbl (bucket_at o (i + 1)) olds)) in Hr.
  destruct (rehash_bucket_ok h x (bucket_at o i) b fuel m news _ D Hl Hh Hb1 Hr) as (m1 & n1 & E1 & R1 & L1 & H1 & C1 & O1).
  { intros a. rewrite foot_cons, elem_of_app. intros Ha. apply HD. rewrite foot_cons, foot_app, !elem_of_app. tauto. }
  mstep E1. apply reps_cons in R1 as (_ & R1 & _). rewrite Permutation_app_comm in R1.
  destruct (IH (i + 1) n m1 n1 D) as (m2 & n2 & E2 & R2 & L2 & H2 & C2 & O2); [by rewrite L1|done|simpl in Hn; lia|done|done| |].
  { rewrite foot_cons, foot_app in HD. apply foot_tbl_subset; intros a Ha; apply HD; rewrite !elem_of_app.
    - rewrite L1 in Ha. right; right. rewrite foot_tbl, elem_of_app. by left.
    - rewrite C1, elem_of_app in Ha. destruct Ha as [Ha|Ha]; [left; unfold whole; set_solver|right; right].
      rewrite foot_tbl, elem_of_app. by right.
    - tauto. }
  exists m2, n2. replace (i + Z.of_nat (length (b :: olds))) with (i + 1 + Z.of_nat (length olds)) by (simpl; lia).
  split_and!; [done|done|congruence|done| |by eapply outside_trans].
  rewrite C2, C1. simpl. rewrite !app_assoc. by rewrite (Permutation_app_comm b).
Qed.

(** ** Blocks *)

Lemma add_cells_in l m a : a ∈ l -> has (add_cells junk l m) a.
Proof.
  unfold add_cells, has. induction l as [|c l IH]; simpl; [by intros ?%elem_of_nil|].
  rewrite elem_of_cons, lookup_insert_is_Some. destruct (decide (c = a)); [by left|]. intros [->|Ha]; [done|]. auto.
Qed.

Lemma add_cells_out l m a : a ∉ l -> add_cells junk l m !! a = m !! a.
Proof.
  unfold add_cells. induction l as [|c l IH]; simpl; [done|].
  rewrite elem_of_cons. intros Ha. rewrite lookup_insert_ne by (intros ->; tauto). apply IH. tauto.
Qed.

Lemma drop_cells_out l m a : a ∉ l -> drop_cells l m !! a = m !! a.
Proof.
  unfold drop_cells. induction l as [|c l IH]; simpl; [done|].
  rewrite elem_of_cons. intros Ha. rewrite lookup_delete_ne by (intros ->; tauto). apply IH. tauto.
Qed.

(** ** The table *)

Record table (h : hash) (m : mem) (bs : list (list Z)) : Prop := {
  t_reps : reps m (tbl (buckets h) bs);
  t_ok : lists_ok h (length bs);
  t_cnt : elem_cnt h = Z.of_nat (length (concat bs));
  t_home : home bs
}.

(** BLOCK is [NULL] or new memory for the number of buckets that [rehash]
    asks for when the table has CNT elements. *)
Definition fresh (m : mem) (block cnt : Z) : Prop :=
  block = NULL \/
  forall n a, best_bucket_cnt cnt = Ok n -> a ∈ cells block (Z.to_nat (2 * n)) -> a <> NULL /\ m !! a = None.

(** Memory that was there and is not of [F] is unchanged. *)
Definition kept (F : list Z) (m m' : mem) : Prop := forall a, has m a -> a ∉ F -> m' !! a = m !! a.

Lemma bucket_bound (bs : list (list Z)) : Forall (fun b => (length b <= length (concat bs))%nat) bs.
Proof.
  induction bs as [|b bs IH]; constructor; simpl; rewrite length_app; [lia|].
  eapply Forall_impl; [exact IH|]. simpl. lia.
Qed.

(** The part of [rehash] that moves the table to a new block of [n] buckets. *)
Definition move_to (fuel : nat) (h : hash) (block : Z) (n : nat) : M (hstate E) unit :=
  init_buckets fuel block 0 (Z.of_nat n);;
  set_tab (Hash (elem_cnt h) (Z.of_nat n) block);;
  rehash_loop hash_func fuel fuel (buckets h) 0 (bucket_cnt h);;
  free_lists (buckets h) (16 * bucket_cnt h).

Lemma move_to_ok h m x bs fuel block n :
  table h m bs -> pow2 n -> (n < fuel)%nat -> (length bs < fuel)%nat -> (length (concat bs) < fuel)%nat ->
  (forall a, a ∈ cells block (2 * n) -> a <> NULL /\ m !! a = None) ->
  exists h' m' bs', move_to fuel h block n (HState h (add_cells junk (cells block (2 * n)) m) x) = Ok (tt, HState h' m' x) /\
    table h' m' bs' /\ concat bs' ≡ₚ concat bs /\ kept (foot (tbl (buckets h) bs)) m m'.
Proof.
  intros [Hr [Hp Hc] Hcnt Hh] Hn Hf1 Hf2 Hf3 Hfresh.
  set (m0 := add_cells junk (cells block (2 * n)) m).
  assert (Hold : forall a, has m a -> a ∉ cells block (2 * n)).
  { intros a [v Hv] Ha. destruct (Hfresh a Ha). congruence. }
  destruct (init_buckets_ok h x block n 0 fuel m0 Hf1) as (m1 & E1 & R1 & O1).
  { unfold bucket_at. rewrite Z.add_0_r. intros a Ha. split; [by apply Hfresh|by apply add_cells_in]. }
  replace (bucket_at block 0) with block in * by (unfold bucket_at; lia). rewrite Z.add_0_l in E1.
  set (h1 := Hash (elem_cnt h) (Z.of_nat n) block).
  assert (A1 : forall a, has m a -> m1 !! a = m !! a).
  { intros a Ha. rewrite (proj2 O1) by auto. apply add_cells_out. auto. }
  assert (R2 : reps m1 (tbl (bucket_at (buckets h) 0) bs ++ tbl (buckets h1) (repeat [] n))).
  { replace (bucket_at (buckets h) 0) with (buckets h) by (unfold bucket_at; lia).
    apply reps_app. split_and!; [|done|].
    - apply (reps_agree m); [|done]. intros a Ha. apply A1. by eapply reps_has.
    - intros a Ha. rewrite foot_tbl, concat_empty, app_nil_r, repeat_length. apply Hold. by eapply reps_has. }
  destruct (rehash_loop_ok h1 x (buckets h) fuel bs 0 fuel m1 (repeat [] n)
              (foot (tbl (buckets h) bs) ++ cells block (2 * n))) as (m2 & news & E2 & R3 & L3 & H3 & C3 & O3).
  - by rewrite repeat_length.
  - intros i b e Hi He. apply list_elem_of_lookup_2, list_elem_of_In, repeat_spec in Hi as ->. by apply elem_of_nil in He.
  - done.
  - eapply Forall_impl; [apply bucket_bound|]. simpl. lia.
  - done.
  - replace (bucket_at (buckets h) 0) with (buckets h) by (unfold bucket_at; lia).
    apply foot_tbl_subset; rewrite ?repeat_length, ?concat_empty; set_solver.
  - rewrite repeat_length in L3. rewrite concat_empty, app_nil_r in C3. rewrite Z.add_0_l in E2.
    exists h1, (drop_cells (cells (buckets h) (2 * length bs)) m2), news.
    assert (Hdrop : Z.to_nat (16 * bucket_cnt h / 8) = (2 * length bs)%nat).
    { rewrite Hc. replace (16 * Z.of_nat (length bs)) with (2 * Z.of_nat (length bs) * 8) by lia.
      rewrite Z.div_mul by done. lia. }
    split_and!; [| |done|].
    + unfold move_to. mstep E1. unfold set_tab at 1, mbind at 1, M_bind at 1. cbn [hmem aux].
      rewrite Hc. mstep E2. unfold free_lists, set_hmem. cbn [tab hmem aux]. rewrite <-Hc, Hdrop. done.
    + split; [|by rewrite L3|by rewrite C3|done].
      apply (reps_agree m2); [|done]. intros a Ha. apply drop_cells_out. intros Hcell.
      assert (Hm : has m a) by (eapply reps_has; [exact Hr|]; rewrite foot_tbl; set_solver).
      rewrite foot_tbl, L3, elem_of_app, C3 in Ha. destruct Ha as [Ha|Ha]; [by apply (Hold a)|].
      destruct Hr as [_ Hnd]. rewrite foot_tbl in Hnd. apply NoDup_app in Hnd as (_ & Hd & _). by apply (Hd a).
    + intros a Ha Hout. rewrite foot_tbl, elem_of_app in Hout. rewrite drop_cells_out by tauto.
      rewrite (proj2 O3); [by apply A1|]. rewrite elem_of_app, foot_tbl, elem_of_app. intros [?|?]; [tauto|]. by apply (Hold a).
Qed.

Lemma rehash_ok h m x bs fuel block :
  table h m bs -> (4 < fuel)%nat -> (length bs < fuel)%nat -> (length (concat bs) < fuel)%nat ->
  elem_cnt h < 536870912 -> fresh m block (elem_cnt h) ->
  exists h' m' bs', rehash hash_func junk fuel block (HState h m x) = Ok (tt, HState h' m' x) /\
    table h' m' bs' /\ concat bs' ≡ₚ concat bs /\ kept (foot (tbl (buckets h) bs)) m m'.
Proof.
  intros Ht Hf4 Hf2 Hf3 Hmax Hfresh. pose proof (t_cnt _ _ _ Ht) as Hcnt.
  destruct (best_bucket_cnt_ok (elem_cnt h)) as (k & Hk & Ek & Hle); [lia|].
  assert (Hdiv : elem_cnt h / 2 < 268435456) by (apply Z.div_lt_upper_bound; lia).
  assert (Hpos : 0 < 2 ^ k) by (apply Z.pow_pos_nonneg; lia).
  assert (Hstay : exists h' m' bs', @Ok (unit * hstate E) (tt, HState h m x) = Ok (tt, HState h' m' x) /\
    table h' m' bs' /\ concat bs' ≡ₚ concat bs /\ kept (foot (tbl (buckets h) bs)) m m').
  { by exists h, m, bs. }
  unfold rehash, gets, mbind, M_bind. cbn [tab]. rewrite Ek.
  destruct (2 ^ k =? bucket_cnt h); [exact Hstay|].
  unfold malloc_lists, mbind, M_bind, mret, M_ret.
  destruct (Z.eqb_spec block NULL) as [->|Hb]; [exact Hstay|]. cbn [set_hmem tab hmem aux].
  destruct (Z.eqb_spec block NULL) as [?|_]; [done|].
  set (n := Z.to_nat (2 ^ k)). assert (Hn : Z.of_nat n = 2 ^ k) by (unfold n; lia).
  assert (Hcells : Z.to_nat (u32 (16 * 2 ^ k) / 8) = (2 * n)%nat).
  { rewrite u32_small by lia. replace (16 * 2 ^ k) with (2 * 2 ^ k * 8) by lia. rewrite Z.div_mul by done. lia. }
  rewrite Hcells, <-Hn. destruct Hfresh as [->|Hfresh]; [done|].
  apply (move_to_ok h m x bs fuel block n Ht); [by exists k| |done|done|].
  - rewrite Hcnt in Hle. apply Nat2Z.inj_lt. rewrite Hn. eapply Z.le_lt_trans; [exact Hle|].
    apply Z.max_lub_lt; [lia|]. apply Z.div_lt_upper_bound; lia.
  - intros a Ha. apply (Hfresh (2 ^ k)); [done|]. replace (Z.to_nat (2 * 2 ^ k)) with (2 * n)%nat by lia. done.
Qed.

End Ops.
