(* ===== verification/HashThms.v ===== *)
(** * What a hash table promises

    A table is a set of elements modulo the equality of the table's [less].
    [hash_rep] relates a table in memory to its elements, and each operation
    of hash.c is shown to implement the operation on the set. *)

From S2P Require Import Prelude ListModel ListRep ListOps ListOrder ListSpec Hash HashRep HashOps.

(** What hash.h asks of the two callbacks. *)
Class HashLaws (hash_func : Z -> Z) (less : Z -> Z -> bool) : Prop := {
  hash_swo :: StrictWeakOrder less;
  hash_eqv a b : eqv less a b = true -> hash_func a = hash_func b
}.

(** ** Sets of elements *)

Inductive hash_op := OInsert (e : Z) | OReplace (e : Z) | OFind (e : Z) | ODelete (e : Z).

Definition without (e : Z) (xs : list Z) : list Z := List.filter (fun a => negb (a =? e)) xs.

(** The returned element and the set afterwards. *)
Definition spec_op (less : Z -> Z -> bool) (o : hash_op) (xs : list Z) : Z * list Z :=
  match o with
  | OInsert e => match find_eqv less e xs with
                 | Some old => (old, xs)
                 | None => (NULL, e :: xs)
                 end
  | OReplace e => match find_eqv less e xs with
                  | Some old => (old, e :: without old xs)
                  | None => (NULL, e :: xs)
                  end
  | OFind e => (ptr (find_eqv less e xs), xs)
  | ODelete e => match find_eqv less e xs with
                 | Some old => (old, without old xs)
                 | None => (NULL, xs)
                 end
  end.

Definition run_op {E} (hash_func : Z -> Z) (less : Z -> Z -> bool) (junk : Z -> list_elem)
    (fuel : nat) (block : Z) (o : hash_op) : M (hstate E) Z :=
  match o with
  | OInsert e => hash_insert hash_func less junk fuel e block
  | OReplace e => hash_replace hash_func less junk fuel e block
  | OFind e => hash_find hash_func less fuel e
  | ODelete e => hash_delete hash_func less junk fuel e block
  end.

Definition uniq (less : Z -> Z -> bool) (xs : list Z) : Prop :=
  forall a b, a ∈ xs -> b ∈ xs -> eqv less a b = true -> a = b.

(** The headers of the buckets. *)
Definition headers (h : hash) : list Z := cells (buckets h) (2 * Z.to_nat (bucket_cnt h)).

Record hash_rep {E} (hash_func : Z -> Z) (less : Z -> Z -> bool) (s : hstate E) (xs : list Z) : Prop := {
  hr_table : exists bs, table hash_func (tab s) (hmem s) bs /\ concat bs ≡ₚ xs;
  hr_uniq : uniq less xs
}.

(** The element that an operation links into the table. *)
Definition linked (o : hash_op) : list Z :=
  match o with OInsert e | OReplace e => [e] | _ => [] end.

Section Thms.
Context {E : Type} (hash_func : Z -> Z) (less : Z -> Z -> bool) (junk : Z -> list_elem).
Context `{Hlaws : !HashLaws hash_func less}.
Implicit Types (h : hash) (m : mem) (x : E) (xs ys : list Z).

Lemma eqv_trans a b c : eqv less a b = true -> eqv less b c = true -> eqv less a c = true.
Proof using Hlaws.
  unfold eqv. rewrite !andb_true_iff, !negb_true_iff. intros [H1 H2] [H3 H4].
  split; by eapply swo_negtrans.
Qed.

Lemma eqv_comm a b : eqv less a b = eqv less b a.
Proof. unfold eqv. apply andb_comm. Qed.

Lemma find_eqv_spec xs e y :
  uniq less xs -> find_eqv less e xs = Some y <-> y ∈ xs /\ eqv less y e = true.
Proof using Hlaws.
  intros Hu. unfold find_eqv. split.
  - intros [H1 H2]%List.find_some. by rewrite list_elem_of_In.
  - intros [Hy He]. destruct (List.find _ xs) as [z|] eqn:Ez.
    + apply List.find_some in Ez as [Hz Ez]. rewrite <-list_elem_of_In in Hz. f_equal.
      apply Hu; [done|done|]. eapply eqv_trans; [exact Ez|]. by rewrite eqv_comm.
    + rewrite list_elem_of_In in Hy. pose proof (List.find_none _ _ Ez y Hy) as Hn. simpl in Hn. congruence.
Qed.

(** The answer depends only on which elements are equal to [e]. *)
Lemma find_eqv_ext xs ys e :
  uniq less xs -> uniq less ys ->
  (forall y, eqv less y e = true -> y ∈ xs <-> y ∈ ys) -> find_eqv less e xs = find_eqv less e ys.
Proof using Hlaws.
  intros Hx Hy H. apply option_eq. intros y. rewrite !find_eqv_spec by done.
  split; intros [H1 H2]; (split; [by apply H|done]).
Qed.

Lemma uniq_subset xs ys : ys ⊆ xs -> uniq less xs -> uniq less ys.
Proof. intros H Hu a b Ha Hb. apply Hu; auto. Qed.

Lemma uniq_cons e xs : uniq less xs -> find_eqv less e xs = None -> uniq less (e :: xs).
Proof using Hlaws.
  intros Hu Hn. assert (H : forall y, y ∈ xs -> eqv less y e = false).
  { intros y Hy. rewrite list_elem_of_In in Hy. by apply (List.find_none _ _ Hn). }
  intros a b [->|Ha]%elem_of_cons [->|Hb]%elem_of_cons He; [done| | |by apply Hu].
  - rewrite eqv_comm, H in He; done.
  - rewrite H in He; done.
Qed.

Lemma find_without e y xs : uniq less xs -> find_eqv less e xs = Some y -> find_eqv less e (without y xs) = None.
Proof using Hlaws.
  intros Hu Hy. destruct (find_eqv less e (without y xs)) as [z|] eqn:Ez; [exfalso|done].
  unfold find_eqv in Ez. apply List.find_some in Ez as [Hz Ez].
  apply filter_In in Hz as [Hz Hne]. rewrite <-list_elem_of_In in Hz.
  apply find_eqv_spec in Hy as [Hy He]; [|done].
  assert (z = y) by (apply Hu; [done|done|]; eapply eqv_trans; [exact Ez|]; by rewrite eqv_comm).
  subst. by rewrite Z.eqb_refl in Hne.
Qed.

Lemma without_subset y xs : without y xs ⊆ xs.
Proof using. intros a. unfold without. rewrite !list_elem_of_In, filter_In. by intros [? _]. Qed.

Lemma without_notin y xs : y ∉ xs -> without y xs = xs.
Proof.
  induction xs as [|a xs IH]; [done|]. rewrite not_elem_of_cons. intros [H1 H2]. simpl.
  destruct (Z.eqb_spec a y); [congruence|]. simpl. by rewrite IH.
Qed.

Lemma without_perm y xs ys : NoDup (y :: ys) -> xs ≡ₚ y :: ys -> without y xs ≡ₚ ys.
Proof.
  intros [Hn _]%NoDup_cons H.
  assert (P : without y xs ≡ₚ without y (y :: ys)).
  { unfold without. clear Hn. induction H as [|a l l' _ IH|a b l|l1 l2 l3 _ IH1 _ IH2]; simpl; [done| | |by rewrite IH1].
    - destruct (negb _); by rewrite IH.
    - destruct (negb _), (negb _); try done. apply perm_swap. }
  rewrite P. simpl. rewrite Z.eqb_refl. simpl. by rewrite without_notin.
Qed.

(** ** The table *)

Lemma headers_ok h m bs : table hash_func h m bs -> headers h = cells (buckets h) (2 * length bs).
Proof. intros Ht. unfold headers. destruct (t_ok _ _ _ _ Ht) as [_ ->]. by rewrite Nat2Z.id. Qed.

Lemma table_nodup h m bs : table hash_func h m bs -> NoDup (headers h ++ concat bs).
Proof.
  intros Ht. rewrite (headers_ok _ _ _ Ht). pose proof (proj2 (t_reps _ _ _ _ Ht)) as Hn. by rewrite foot_tbl in Hn.
Qed.

Lemma table_foot h m bs a : table hash_func h m bs -> a ∈ foot (tbl (buckets h) bs) <-> a ∈ headers h \/ a ∈ concat bs.
Proof using. intros Ht. by rewrite foot_tbl, elem_of_app, (headers_ok _ _ _ Ht). Qed.

(** The bucket of [e] and the search in it. *)
Lemma bucket_ok h m bs e :
  table hash_func h m bs ->
  exists b ls, bs !! idx hash_func (length bs) e = Some b /\
    reps m ((bucket_at (buckets h) (Z.of_nat (idx hash_func (length bs) e)), b) :: ls) /\
    (forall b', tbl (buckets h) (<[idx hash_func (length bs) e := b']> bs)
       ≡ₚ (bucket_at (buckets h) (Z.of_nat (idx hash_func (length bs) e)), b') :: ls).
Proof.
  intros Ht. destruct (t_ok _ _ _ _ Ht) as [Hp _].
  destruct (lookup_lt_is_Some_2 bs (idx hash_func (length bs) e)) as [b Hb]; [by apply idx_lt|].
  destruct (tbl_lookup (buckets h) bs _ b Hb) as (ls & P1 & P2). exists b, ls. split_and!; [done| |done].
  rewrite <-P1. apply (t_reps _ _ _ _ Ht).
Qed.

Lemma find_in_bucket bs b e :
  home hash_func bs -> uniq less (concat bs) -> bs !! idx hash_func (length bs) e = Some b ->
  find_eqv less e b = find_eqv less e (concat bs).
Proof using Hlaws.
  intros Hh Hu Hb. destruct (concat_lookup _ _ _ Hb) as (r & Q & _).
  assert (Hsub : b ⊆ concat bs) by (intros a Ha; rewrite Q, elem_of_app; by left).
  apply find_eqv_ext; [by eapply uniq_subset|done|]. intros y Hy. split; [apply Hsub|].
  intros Hin. rewrite list_elem_of_In in Hin. apply in_concat in Hin as (c & Hc & Hyc).
  rewrite <-list_elem_of_In in Hc. rewrite <-list_elem_of_In in Hyc. apply list_elem_of_lookup in Hc as [j Hj].
  assert (j = idx hash_func (length bs) e) as ->; [|congruence].
  rewrite <-(Hh _ _ _ Hj Hyc). unfold idx. by rewrite (hash_eqv _ _ Hy).
Qed.

Lemma find_in_table h m x bs e fuel :
  table hash_func h m bs -> uniq less (concat bs) -> (length (concat bs) < fuel)%nat ->
  find_bucket hash_func e (HState h m x)
    = Ok (bucket_at (buckets h) (Z.of_nat (idx hash_func (length bs) e)), HState h m x) /\
  find_elem less fuel (bucket_at (buckets h) (Z.of_nat (idx hash_func (length bs) e))) e (HState h m x)
    = Ok (ptr (find_eqv less e (concat bs)), HState h m x).
Proof using Hlaws.
  intros Ht Hu Hf. destruct (t_ok _ _ _ _ Ht) as [Hp Hc]. split; [by apply find_bucket_ok|].
  destruct (bucket_ok _ _ _ e Ht) as (b & ls & Hb & Hr & _). apply reps_cons in Hr as (Hr & _).
  rewrite <-(find_in_bucket _ _ _ (t_home _ _ _ _ Ht) Hu Hb). apply find_elem_ok; [done|].
  pose proof (Forall_lookup_1 _ _ _ _ (bucket_bound bs) Hb) as Hl. simpl in Hl. lia.
Qed.

Lemma insert_elem_ok h m x bs e :
  table hash_func h m bs -> e <> NULL -> has m e -> e ∉ foot (tbl (buckets h) bs) -> elem_cnt h < 536870912 ->
  exists m' bs', insert_elem (bucket_at (buckets h) (Z.of_nat (idx hash_func (length bs) e))) e (HState h m x)
      = Ok (tt, HState (Hash (elem_cnt h + 1) (bucket_cnt h) (buckets h)) m' x) /\
    table hash_func (Hash (elem_cnt h + 1) (bucket_cnt h) (buckets h)) m' bs' /\
    concat bs' ≡ₚ e :: concat bs /\ length bs' = length bs /\ outside (e :: foot (tbl (buckets h) bs)) m m'.
Proof.
  intros Ht He Hh Hout Hmax. destruct (bucket_ok _ _ _ e Ht) as (b & ls & Hb & Hr & P).
  pose proof (t_cnt _ _ _ _ Ht) as Hcnt. destruct (concat_lookup _ _ _ Hb) as (r & Q1 & Q2).
  assert (Hf : foot (tbl (buckets h) bs) ≡ₚ foot ((bucket_at (buckets h) (Z.of_nat (idx hash_func (length bs) e)), b) :: ls)).
  { rewrite <-(P b). by rewrite list_insert_id. }
  destruct (reps_push m _ _ _ e Hr He Hh) as (m' & E' & R' & O'); [by rewrite <-Hf|].
  exists m', (<[idx hash_func (length bs) e := e :: b]> bs). split_and!.
  - unfold insert_elem, gets, set_tab, mbind, M_bind. cbn [tab hmem aux].
    rewrite u32_small by lia. by apply on_ok.
  - split; cbn [buckets elem_cnt bucket_cnt].
    + by rewrite (P (e :: b)).
    + rewrite length_insert. apply (t_ok _ _ _ _ Ht).
    + rewrite (Q2 (e :: b)), Hcnt, Q1. simpl. lia.
    + apply home_insert; [apply (t_ok _ _ _ _ Ht)|apply (t_home _ _ _ _ Ht)|done].
  - by rewrite (Q2 (e :: b)), Q1.
  - apply length_insert.
  - eapply outside_mono; [|exact O']. intros a. rewrite !elem_of_cons, Hf, foot_cons, elem_of_app. tauto.
Qed.

Lemma remove_elem_ok h m x bs e :
  table hash_func h m bs -> e ∈ concat bs -> elem_cnt h < 536870912 ->
  exists m' bs', remove_elem e (HState h m x)
      = Ok (tt, HState (Hash (elem_cnt h - 1) (bucket_cnt h) (buckets h)) m' x) /\
    table hash_func (Hash (elem_cnt h - 1) (bucket_cnt h) (buckets h)) m' bs' /\
    concat bs ≡ₚ e :: concat bs' /\ length bs' = length bs /\ outside (foot (tbl (buckets h) bs)) m m'.
Proof.
  intros Ht He Hmax. pose proof (t_cnt _ _ _ _ Ht) as Hcnt.
  rewrite list_elem_of_In in He. apply in_concat in He as (b & Hb & Heb).
  rewrite <-list_elem_of_In in Hb. rewrite <-list_elem_of_In in Heb. apply list_elem_of_lookup in Hb as [i Hb].
  apply list_elem_of_split in Heb as (us & vs & ->).
  destruct (tbl_lookup (buckets h) bs i _ Hb) as (ls & P1 & P2).
  destruct (concat_lookup _ _ _ Hb) as (r & Q1 & Q2). pose proof (t_reps _ _ _ _ Ht) as Hr. rewrite P1 in Hr.
  destruct (reps_remove _ _ _ _ _ _ Hr) as (m' & E' & R' & O' & _).
  assert (Hperm : concat bs ≡ₚ e :: concat (<[i := us ++ vs]> bs)).
  { rewrite Q1, (Q2 (us ++ vs)), <-Permutation_middle. done. }
  exists m', (<[i := us ++ vs]> bs). split_and!.
  - unfold remove_elem, gets, set_tab, mbind, M_bind. cbn [tab hmem aux].
    rewrite (on_ok _ _ _ _ _ _ E'), u32_small; [done|]. rewrite Hcnt, Hperm in *. simpl length in *. lia.
  - split; cbn [buckets elem_cnt bucket_cnt].
    + by rewrite (P2 (us ++ vs)).
    + rewrite length_insert. apply (t_ok _ _ _ _ Ht).
    + rewrite Hcnt, Hperm. simpl. lia.
    + intros j c a. rewrite length_insert, list_lookup_insert_Some.
      intros [(<- & <- & _)|[_ Hc]] Ha; [|by eapply (t_home _ _ _ _ Ht)].
      apply (t_home _ _ _ _ Ht _ _ _ Hb). rewrite elem_of_app, elem_of_cons. apply elem_of_app in Ha. tauto.
  - done.
  - apply length_insert.
  - eapply outside_mono; [|exact O']. intros a Ha. rewrite P1, foot_cons, elem_of_app. by left.
Qed.

Lemma table_found h m bs e y :
  table hash_func h m bs -> find_eqv less e (concat bs) = Some y -> y ∈ concat bs /\ (y =? NULL) = false.
Proof.
  intros Ht Hy. apply List.find_some in Hy as [Hy _]. rewrite <-list_elem_of_In in Hy. split; [done|].
  apply Z.eqb_neq. intros ->. apply (reps_null _ _ (t_reps _ _ _ _ Ht)). rewrite foot_tbl, elem_of_app. by right.
Qed.

(** [F] covers what an operation may write before the table is resized. *)
Lemma finish F h m h1 m1 x bs1 fuel block :
  table hash_func h1 m1 bs1 -> outside F m m1 -> foot (tbl (buckets h1) bs1) ⊆ F ->
  (4 < fuel)%nat -> (length bs1 < fuel)%nat -> (length (concat bs1) < fuel)%nat ->
  elem_cnt h1 < 536870912 -> fresh m block (elem_cnt h1) ->
  exists s' bs', rehash hash_func junk fuel block (HState h1 m1 x) = Ok (tt, s') /\
    table hash_func (tab s') (hmem s') bs' /\ concat bs' ≡ₚ concat bs1 /\ aux s' = x /\ kept F m (hmem s').
Proof.
  intros Ht Ho HF Hf1 Hf2 Hf3 Hmax Hfr.
  destruct (rehash_ok hash_func less junk h1 m1 x bs1 fuel block) as (h2 & m2 & bs2 & E2 & T2 & C2 & K2); try done.
  { destruct Hfr as [->|Hfr]; [by left|right]. intros n a Hn Ha. destruct (Hfr n a Hn Ha) as [Hnull Hm].
    split; [done|]. apply not_elem_of_dom. rewrite (proj1 Ho). by apply not_elem_of_dom. }
  exists (HState h2 m2 x), bs2. split_and!; try done. intros a Ha HaF. cbn [hmem].
  rewrite K2; [by apply (proj2 Ho)| |by intros Hin%HF].
  unfold has in *. rewrite <-!elem_of_dom in *. by rewrite (proj1 Ho).
Qed.

(** Room for one more element. *)
Definition room (fuel : nat) (h : hash) (bs : list (list Z)) : Prop :=
  (4 < fuel)%nat /\ (length bs < fuel)%nat /\ (length (concat bs) + 1 < fuel)%nat /\ elem_cnt h < 536870911.

Lemma hash_insert_ok h m x bs e fuel block :
  table hash_func h m bs -> uniq less (concat bs) -> room fuel h bs ->
  e <> NULL -> has m e -> e ∉ foot (tbl (buckets h) bs) ->
  fresh m block (Z.of_nat (length (spec_op less (OInsert e) (concat bs)).2)) ->
  exists s' bs', hash_insert hash_func less junk fuel e block (HState h m x)
      = Ok ((spec_op less (OInsert e) (concat bs)).1, s') /\
    table hash_func (tab s') (hmem s') bs' /\ concat bs' ≡ₚ (spec_op less (OInsert e) (concat bs)).2 /\
    aux s' = x /\ kept (e :: foot (tbl (buckets h) bs)) m (hmem s').
Proof using All.
  intros Ht Hu (Hf1 & Hf2 & Hf3 & Hmax) He Hh Hout Hfr. pose proof (t_cnt _ _ _ _ Ht) as Hcnt.
  destruct (find_in_table h m x bs e fuel Ht Hu) as [E1 E2]; [lia|].
  unfold hash_insert. mstep E1. mstep E2. cbn [spec_op] in *.
  destruct (find_eqv less e (concat bs)) as [y|] eqn:Ey; cbn [ptr fst snd] in *.
  - destruct (table_found _ _ _ _ _ Ht Ey) as [_ ->]. rewrite bind_ret. rewrite <-Hcnt in Hfr.
    destruct (finish (e :: foot (tbl (buckets h) bs)) h m h m x bs fuel block) as (s' & bs' & E3 & H3); try done; try lia.
    { intros a. rewrite elem_of_cons. tauto. }
    mstep E3. by exists s', bs'.
  - destruct (insert_elem_ok h m x bs e) as (m1 & bs1 & E3 & T1 & C1 & L1 & O1); try done; [lia|].
    cbn [Z.eqb NULL]. mstep E3.
    destruct (finish _ h m _ m1 x bs1 fuel block T1 O1) as (s' & bs' & E4 & T2 & C2 & H2).
    + intros a. cbn [buckets]. rewrite foot_tbl, L1, elem_of_app, C1, !elem_of_cons, foot_tbl, elem_of_app. tauto.
    + lia.
    + lia.
    + rewrite C1. simpl. lia.
    + cbn [elem_cnt]. lia.
    + cbn [elem_cnt length] in *. replace (elem_cnt h + 1) with (Z.of_nat (S (length (concat bs)))) by lia. done.
    + mstep E4. exists s', bs'. split_and!; try done; [by rewrite C2|tauto|tauto].
Qed.

Lemma hash_delete_ok h m x bs e fuel block :
  table hash_func h m bs -> uniq less (concat bs) -> room fuel h bs ->
  fresh m block (Z.of_nat (length (spec_op less (ODelete e) (concat bs)).2)) ->
  exists s' bs', hash_delete hash_func less junk fuel e block (HState h m x)
      = Ok ((spec_op less (ODelete e) (concat bs)).1, s') /\
    table hash_func (tab s') (hmem s') bs' /\ concat bs' ≡ₚ (spec_op less (ODelete e) (concat bs)).2 /\
    aux s' = x /\ kept (foot (tbl (buckets h) bs)) m (hmem s').
Proof using All.
  intros Ht Hu (Hf1 & Hf2 & Hf3 & Hmax) Hfr. pose proof (t_cnt _ _ _ _ Ht) as Hcnt.
  destruct (find_in_table h m x bs e fuel Ht Hu) as [E1 E2]; [lia|].
  unfold hash_delete. mstep E1. mstep E2. cbn [spec_op] in *.
  destruct (find_eqv less e (concat bs)) as [y|] eqn:Ey; cbn [ptr fst snd] in *.
  - destruct (table_found _ _ _ _ _ Ht Ey) as [Hy ->]. cbn [negb].
    destruct (remove_elem_ok h m x bs y) as (m1 & bs1 & E3 & T1 & C1 & L1 & O1); try done; [lia|].
    rewrite bind_assoc. mstep E3.
    assert (Hw : without y (concat bs) ≡ₚ concat bs1).
    { apply without_perm; [|done]. rewrite <-C1. pose proof (table_nodup _ _ _ Ht) as Hn. by apply NoDup_app in Hn as (_ & _ & Hn). }
    destruct (finish _ h m _ m1 x bs1 fuel block T1 O1) as (s' & bs' & E4 & T2 & C2 & H2).
    + intros a. cbn [buckets]. rewrite !foot_tbl, L1, !elem_of_app, C1, elem_of_cons. tauto.
    + lia.
    + lia.
    + rewrite C1 in Hf3. simpl in Hf3. lia.
    + cbn [elem_cnt]. lia.
    + cbn [elem_cnt]. rewrite Hw in Hfr. rewrite C1 in Hcnt. simpl in Hcnt.
      replace (elem_cnt h - 1) with (Z.of_nat (length (concat bs1))) by lia. done.
    + mstep E4. exists s', bs'. split_and!; try done; [by rewrite C2|tauto|tauto].
  - cbn [Z.eqb NULL negb]. rewrite bind_ret. exists (HState h m x), bs. split_and!; done.
Qed.

Lemma hash_replace_ok h m x bs e fuel block :
  table hash_func h m bs -> uniq less (concat bs) -> room fuel h bs ->
  e <> NULL -> has m e -> e ∉ foot (tbl (buckets h) bs) ->
  fresh m block (Z.of_nat (length (spec_op less (OReplace e) (concat bs)).2)) ->
  exists s' bs', hash_replace hash_func less junk fuel e block (HState h m x)
      = Ok ((spec_op less (OReplace e) (concat bs)).1, s') /\
    table hash_func (tab s') (hmem s') bs' /\ concat bs' ≡ₚ (spec_op less (OReplace e) (concat bs)).2 /\
    aux s' = x /\ kept (e :: foot (tbl (buckets h) bs)) m (hmem s').
Proof using All.
  intros Ht Hu (Hf1 & Hf2 & Hf3 & Hmax) He Hh Hout Hfr. pose proof (t_cnt _ _ _ _ Ht) as Hcnt.
  destruct (find_in_table h m x bs e fuel Ht Hu) as [E1 E2]; [lia|].
  unfold hash_replace. mstep E1. mstep E2.
  set (F := e :: foot (tbl (buckets h) bs)).
  assert (exists h1 m1 bs1, (if negb (ptr (find_eqv less e (concat bs)) =? NULL)
      then remove_elem (ptr (find_eqv less e (concat bs))) else mret tt) (HState h m x) = Ok (tt, HState h1 m1 x) /\
    table hash_func h1 m1 bs1 /\ outside F m m1 /\ buckets h1 = buckets h /\ length bs1 = length bs /\
    concat bs1 ⊆ concat bs /\ elem_cnt h1 <= elem_cnt h /\
    (spec_op less (OReplace e) (concat bs)).1 = ptr (find_eqv less e (concat bs)) /\
    (spec_op less (OReplace e) (concat bs)).2 ≡ₚ e :: concat bs1) as (h1 & m1 & bs1 & E3 & T1 & O1 & B1 & L1 & S1 & N1 & Hr1 & Hr2).
  { clear E2 Hfr. cbn [spec_op]. destruct (find_eqv less e (concat bs)) as [y|] eqn:Ey; cbn [ptr fst snd].
    - destruct (table_found _ _ _ _ _ Ht Ey) as [Hy ->]. cbn [negb].
      destruct (remove_elem_ok h m x bs y) as (m1 & bs1 & E3 & T1 & C1 & L1 & O1); try done; [lia|].
      eexists _, m1, bs1. split_and!; [exact E3|done| |done|done| |cbn [elem_cnt]; lia|done|].
      + eapply outside_mono; [|exact O1]. intros a. unfold F. rewrite elem_of_cons. tauto.
      + intros a Ha. rewrite C1, elem_of_cons. by right.
      + f_equiv. apply without_perm; [|done]. rewrite <-C1.
        pose proof (table_nodup _ _ _ Ht) as Hn. by apply NoDup_app in Hn as (_ & _ & Hn).
    - exists h, m, bs. by split_and!. }
  mstep E3. rewrite Hr1. rewrite Hr2 in Hfr.
  assert (HF1 : foot (tbl (buckets h1) bs1) ⊆ foot (tbl (buckets h) bs)).
  { intros a. rewrite !foot_tbl, B1, L1, !elem_of_app. intros [?|Ha]; [by left|right; by apply S1]. }
  destruct (insert_elem_ok h1 m1 x bs1 e) as (m2 & bs2 & E4 & T2 & C2 & L2 & O2); try done; [|by intros Hin%HF1|lia|].
  { unfold has in *. rewrite <-!elem_of_dom in *. by rewrite (proj1 O1). }
  replace (bucket_at (buckets h) (Z.of_nat (idx hash_func (length bs) e)))
    with (bucket_at (buckets h1) (Z.of_nat (idx hash_func (length bs1) e))) by (by rewrite B1, L1).
  mstep E4.
  assert (HF2 : e :: foot (tbl (buckets h1) bs1) ⊆ F).
  { intros a. unfold F. rewrite !elem_of_cons. intros [|Ha]; [by left|right; by apply HF1]. }
  destruct (finish F h m _ m2 x bs2 fuel block T2) as (s' & bs' & E5 & T3 & C3 & H3).
  - eapply outside_trans; [exact O1|]. eapply outside_mono; [|exact O2]. done.
  - intros a. cbn [buckets]. rewrite foot_tbl, L2, elem_of_app, C2, elem_of_cons. intros Ha. apply HF2.
    rewrite elem_of_cons, foot_tbl, elem_of_app. tauto.
  - lia.
  - lia.
  - rewrite C2. simpl. pose proof (t_cnt _ _ _ _ T1). lia.
  - cbn [elem_cnt]. lia.
  - cbn [elem_cnt]. pose proof (t_cnt _ _ _ _ T1) as Hc1. simpl length in Hfr.
    replace (elem_cnt h1 + 1) with (Z.of_nat (S (length (concat bs1)))) by lia. done.
  - mstep E5. exists s', bs'. split_and!; try done; [by rewrite C3, C2, Hr2|tauto|tauto].
Qed.

End Thms.

(** ** Creation, iteration and clearing of a hash table *)

(** The loop that the comment of [hash_first] shows: the elements the iterator
    visits, in order. *)
Fixpoint iterate {E} (fuel n : nat) (i : hash_iterator) : M (hstate E) (list Z) :=
  match n with
  | O => fail EFuel
  | S n =>
      i ← hash_next fuel i;
      if hash_cur i =? NULL then mret [] else
      es ← iterate fuel n i; mret (hash_cur i :: es)
  end.

(** An action that changes the data of the caller by [f], and possibly the
    memory of the element it is given by [g]. *)
Definition acts {E} (action : Z -> M (hstate E) unit) (f : Z -> E -> E) (g : Z -> mem -> mem) : Prop :=
  (forall e h m x, action e (HState h m x) = Ok (tt, HState h (g e m) (f e x))) /\
  (forall e m a, a <> e -> g e m !! a = m !! a).

Definition fold_acts {E} (f : Z -> E -> E) (xs : list Z) (x : E) : E := foldl (fun x e => f e x) x xs.

Section Iter.
Context {E : Type} (hash_func : Z -> Z).
Implicit Types (h : hash) (m : mem) (x : E).

Lemma table_bucket h m pre b post :
  table hash_func h m (pre ++ b :: post) -> rep m (bucket_at (buckets h) (Z.of_nat (length pre))) b.
Proof.
  intros Ht. pose proof (t_reps _ _ _ _ Ht) as Hr. rewrite tbl_app in Hr. cbn [tbl] in Hr.
  apply reps_app in Hr as (_ & Hr & _). by apply reps_cons in Hr as [Hr _].
Qed.

(** ** The iterator *)

(** The iterator [i] is at the element before the rest [es] of the elements. *)
Definition before (h : hash) (bs : list (list Z)) (i : hash_iterator) (es : list Z) : Prop :=
  exists pre us vs post, bs = pre ++ (us ++ vs) :: post /\
    i = HashIterator (bucket_at (buckets h) (Z.of_nat (length pre)))
          (last_of (bucket_at (buckets h) (Z.of_nat (length pre))) us) /\
    es = vs ++ concat post.

Lemma next_loop_ok h m x post : forall pre us vs fuel,
  table hash_func h m (pre ++ (us ++ vs) :: post) -> (length post < fuel)%nat ->
  exists i, hash_next_loop fuel (HashIterator (bucket_at (buckets h) (Z.of_nat (length pre)))
      (first_of (bucket_at (buckets h) (Z.of_nat (length pre))) vs)) (HState h m x) = Ok (i, HState h m x) /\
    match vs ++ concat post with
    | [] => hash_cur i = NULL
    | v :: es => hash_cur i = v /\ v <> NULL /\ before h (pre ++ (us ++ vs) :: post) i es
    end.
Proof.
  induction post as [|b post IH]; intros pre us vs fuel Ht Hf; (destruct fuel as [|fuel]; [simpl in Hf; lia|]);
    cbn [hash_next_loop it_bucket it_elem]; rewrite (end_ok _ _ _ _ us vs _ _ (table_bucket _ _ _ _ _ Ht));
    destruct (t_ok _ _ _ _ Ht) as [_ Hc]; rewrite length_app in Hc; simpl in Hc.
  all: destruct vs as [|v vs]; [|eexists; split; [done|]; cbn [app]; split_and!; [done| |]].
  - unfold gets, mbind, M_bind. cbn [tab]. destruct (Z.leb_spec (bucket_at (buckets h) (bucket_cnt h))
      (bucket_at (bucket_at (buckets h) (Z.of_nat (length pre))) 1)); [by eexists|].
    unfold bucket_at in *. lia.
  - apply (rep_first_null m _ us (v :: vs) (table_bucket _ _ _ _ _ Ht)).
  - exists pre, (us ++ [v]), vs, []. rewrite last_of_snoc. split_and!; [|done|done].
    by rewrite <-app_assoc.
  - unfold gets, mbind at 1, M_bind at 1. cbn [tab].
    replace (bucket_at (bucket_at (buckets h) (Z.of_nat (length pre))) 1)
      with (bucket_at (buckets h) (Z.of_nat (length (pre ++ [us ++ []]))))
      by (unfold bucket_at; rewrite length_app; simpl; lia).
    destruct (Z.leb_spec (bucket_at (buckets h) (bucket_cnt h))
      (bucket_at (buckets h) (Z.of_nat (length (pre ++ [us ++ []]))))) as [Hle|_].
    { unfold bucket_at in Hle. rewrite length_app in Hle. simpl in Hle. lia. }
    assert (Eb : pre ++ (us ++ []) :: b :: post = (pre ++ [us ++ []]) ++ ([] ++ b) :: post) by (by rewrite <-app_assoc).
    rewrite Eb in Ht. mstep (on_ok _ h m x _ _ (list_begin_ok _ _ _ (table_bucket _ _ _ _ _ Ht))).
    destruct (IH _ [] b fuel Ht) as (i & Ei & Hi); [simpl in Hf; lia|].
    exists i. split; [exact Ei|]. cbn [app concat]. by rewrite Eb.
  - apply (rep_first_null m _ us (v :: vs) (table_bucket _ _ _ _ _ Ht)).
  - exists pre, (us ++ [v]), vs, (b :: post). rewrite last_of_snoc. split_and!; [|done|done].
    by rewrite <-app_assoc.
Qed.

Lemma hash_next_ok h m x bs i es fuel :
  table hash_func h m bs -> before h bs i es -> (length bs < fuel)%nat ->
  exists i', hash_next fuel i (HState h m x) = Ok (i', HState h m x) /\
    match es with
    | [] => hash_cur i' = NULL
    | v :: es => hash_cur i' = v /\ v <> NULL /\ before h bs i' es
    end.
Proof.
  intros Ht (pre & us & vs & post & -> & -> & ->) Hf. unfold hash_next. cbn [it_bucket it_elem].
  mstep (on_ok _ h m x _ _ (list_next_ok _ _ _ _ (table_bucket _ _ _ _ _ Ht))).
  apply next_loop_ok; [done|]. rewrite length_app in Hf. simpl in Hf. lia.
Qed.

Lemma iterate_ok h m x bs es : forall i fuel n,
  table hash_func h m bs -> before h bs i es -> (length bs < fuel)%nat -> (length es < n)%nat ->
  iterate fuel n i (HState h m x) = Ok (es, HState h m x).
Proof.
  induction es as [|e es IH]; intros i fuel n Ht Hi Hf Hn; (destruct n as [|n]; [simpl in Hn; lia|]); cbn [iterate];
    destruct (hash_next_ok h m x bs i _ fuel Ht Hi Hf) as (i' & E' & Hi'); mstep E'.
  - by rewrite Hi'.
  - destruct Hi' as (-> & Hne & Hi'). destruct (Z.eqb_spec e NULL); [done|].
    simpl in Hn. by mstep_by (apply IH; [exact Ht|exact Hi'|done|lia]).
Qed.

Lemma iteration_ok h m x bs fuel n :
  table hash_func h m bs -> (length bs < fuel)%nat -> (length (concat bs) < n)%nat ->
  (i ← hash_first; iterate fuel n i) (HState h m x) = Ok (concat bs, HState h m x).
Proof.
  intros Ht Hf Hn. pose proof (t_ok _ _ _ _ Ht) as [(k & Hk & Ek) _].
  destruct bs as [|b bs]; [pose proof (Z.pow_pos_nonneg 2 k); simpl in Ek; lia|].
  unfold hash_first, gets. rewrite !bind_assoc. unfold mbind at 1, M_bind at 1. cbn [tab].
  pose proof (table_bucket h m [] b bs Ht) as Hr. rewrite bind_assoc.
  assert (Hnn : buckets h <> NULL).
  { pose proof (rep_not_null _ _ _ Hr) as Hn'. unfold bucket_at in Hn'. simpl in Hn'. lia. }
  assert (E0 : list_head (buckets h) m = Ok (head_of (buckets h), m)).
  { unfold list_head. rewrite (bind_ok _ _ _ _ _ (assert_not_null m _ Hnn)). done. }
  mstep (on_ok _ h m x _ _ E0). rewrite bind_ret.
  apply (iterate_ok h m x (b :: bs)); [done| |done|done].
  exists [], [], b, bs. split_and!; try done. cbn [length last_of last]. unfold bucket_at.
  by rewrite Z.add_0_r.
Qed.

(** ** Applying an action to every element *)

Context (action : Z -> M (hstate E) unit) (f : Z -> E -> E) (g : Z -> mem -> mem).
Hypothesis Hact : acts action f g.

Lemma fold_acts_app xs ys x : fold_acts f (xs ++ ys) x = fold_acts f ys (fold_acts f xs x).
Proof. apply foldl_app. Qed.

Lemma apply_bucket_ok h m l ys : forall xs fuel x,
  (forall e, g e m = m) -> rep m l (xs ++ ys) -> (length ys < fuel)%nat ->
  apply_bucket fuel l (first_of l ys) action (HState h m x) = Ok (tt, HState h m (fold_acts f ys x)).
Proof using All.
  induction ys as [|y ys IH]; intros xs fuel x Hg Hr Hf; (destruct fuel as [|fuel]; [simpl in Hf; lia|]);
    cbn [apply_bucket]; rewrite (end_ok _ _ _ _ xs _ _ _ Hr); [done|]. cbn [first_of].
  mstep (on_ok _ h m x _ _ (list_next_elem _ _ _ _ _ Hr)). mstep (proj1 Hact y h m x). rewrite Hg.
  apply (IH (xs ++ [y])); [done|by rewrite <-app_assoc|simpl in Hf; lia].
Qed.

Lemma hash_apply_loop_ok h m post : forall pre fuel n x,
  (forall e, g e m = m) -> table hash_func h m (pre ++ post) ->
  Forall (fun b => (length b < fuel)%nat) post -> (length post < n)%nat ->
  hash_apply_loop fuel n (Z.of_nat (length pre)) action (HState h m x)
  = Ok (tt, HState h m (fold_acts f (concat post) x)).
Proof using All.
  induction post as [|b post IH]; intros pre fuel n x Hg Ht Hb Hn; (destruct n as [|n]; [simpl in Hn; lia|]);
    cbn [hash_apply_loop]; unfold gets; unfold mbind at 1, M_bind at 1; cbn [tab];
    destruct (t_ok _ _ _ _ Ht) as [_ Hc]; rewrite length_app in Hc; simpl in Hc.
  - destruct (Z.ltb_spec (Z.of_nat (length pre)) (bucket_cnt h)); [lia|done].
  - destruct (Z.ltb_spec (Z.of_nat (length pre)) (bucket_cnt h)); [|lia].
    apply Forall_cons in Hb as [Hb1 Hb2]. pose proof (table_bucket _ _ _ _ _ Ht) as Hr.
    mstep (on_ok _ h m x _ _ (list_begin_ok _ _ _ Hr)).
    mstep (apply_bucket_ok h m _ b [] fuel x Hg Hr Hb1).
    replace (Z.of_nat (length pre) + 1) with (Z.of_nat (length (pre ++ [b]))) by (rewrite length_app; simpl; lia).
    rewrite IH; [|done|by rewrite <-app_assoc|done|simpl in Hn; lia].
    cbn [concat]. by rewrite fold_acts_app.
Qed.

(** ** Clearing *)

(** Only [F] changes. *)
Definition only (F : list Z) (m m' : mem) : Prop := forall a, a ∉ F -> m' !! a = m !! a.

Lemma only_trans F m1 m2 m3 : only F m1 m2 -> only F m2 m3 -> only F m1 m3.
Proof. intros H1 H2 a Ha. by rewrite H2, H1. Qed.

Lemma only_outside D F m m' : D ⊆ F -> outside D m m' -> only F m m'.
Proof. intros HD [_ H] a Ha. apply H. intros ?%HD. done. Qed.

Lemma clear_bucket_ok h l ys : forall fuel m x ls,
  reps m ((l, ys) :: ls) -> (length ys < fuel)%nat ->
  exists m', clear_bucket fuel l action (HState h m x) = Ok (tt, HState h m' (fold_acts f ys x)) /\
    reps m' ((l, []) :: ls) /\ only (whole l ys) m m'.
Proof using All.
  induction ys as [|y ys IH]; intros fuel m x ls Hr Hf; (destruct fuel as [|fuel]; [simpl in Hf; lia|]); cbn [clear_bucket];
    pose proof (proj1 (reps_cons _ _ _ _) Hr) as (Hl & _ & Hd);
    mstep (on_ok _ h m x _ _ (list_empty_ok _ _ _ Hl)).
  { rewrite bool_decide_eq_true_2 by done. by exists m. }
  rewrite bool_decide_eq_false_2 by done.
  destruct (reps_remove m l [] y ys ls Hr) as (m1 & E1 & R1 & O1 & Hy0 & Hyh & Hyout). simpl in R1, Hyout.
  assert (E2 : list_pop_front l m = Ok (y, m1)).
  { unfold list_pop_front. mstep (list_front_ok _ _ _ _ Hl). by mstep E1. }
  mstep (on_ok _ h m x _ _ E2). mstep (proj1 Hact y h m1 x).
  destruct (IH fuel (g y m1) (f y x) ls) as (m' & E' & R' & O'); [|simpl in Hf; lia|].
  { apply (reps_agree m1); [|done]. intros a Ha. apply (proj2 Hact). by intros ->. }
  exists m'. split_and!; [done|done|]. intros a Ha. rewrite whole_cons in Ha.
  rewrite O', (proj2 Hact) by tauto. apply (proj2 O1). cbn [app]. rewrite whole_cons. tauto.
Qed.

Lemma hash_clear_loop_ok h post : forall i fuel n m x,
  reps m (tbl (bucket_at (buckets h) i) post) -> bucket_cnt h = i + Z.of_nat (length post) ->
  Forall (fun b => (length b < fuel)%nat) post -> (length post < n)%nat ->
  exists m', hash_clear_loop fuel n i (Some action) (HState h m x)
      = Ok (tt, HState h m' (fold_acts f (concat post) x)) /\
    reps m' (tbl (bucket_at (buckets h) i) (repeat [] (length post))) /\
    only (foot (tbl (bucket_at (buckets h) i) post)) m m'.
Proof using All.
  induction post as [|b post IH]; intros i fuel n m x Hr Hc Hb Hn; (destruct n as [|n]; [simpl in Hn; lia|]);
    cbn [hash_clear_loop]; unfold gets; unfold mbind at 1, M_bind at 1; cbn [tab]; simpl in Hc;
    destruct (Z.ltb_spec i (bucket_cnt h)); try lia.
  { by exists m. }
  apply Forall_cons in Hb as [Hb1 Hb2]. cbn [tbl] in Hr.
  destruct (clear_bucket_ok h _ b fuel m x _ Hr Hb1) as (m1 & E1 & R1 & O1). mstep E1.
  set (l := bucket_at (buckets h) i) in *. replace (l + 16) with (bucket_at (buckets h) (i + 1)) in * by (unfold l, bucket_at; lia).
  pose proof (proj1 (reps_cons _ _ _ _) R1) as (Hl & _ & Hd).
  destruct (rep_ends _ _ _ Hl) as (H1 & H2 & N1 & N2 & _).
  destruct (list_init_ok m1 l N1 N2 (fl_has _ _ _ _ H1) (fl_has _ _ _ _ H2)) as (m2 & E2 & Rl & O2).
  mstep (on_ok _ h m1 (fold_acts f b x) _ _ E2).
  assert (R2 : reps m2 ((l, []) :: tbl (bucket_at (buckets h) (i + 1)) post)) by (by apply (reps_set m1 m2 l [] [] _ _ R1 Rl O2)).
  apply reps_cons in R2 as (Rl2 & R2 & _).
  destruct (IH (i + 1) fuel n m2 (fold_acts f b x) R2) as (m3 & E3 & R3 & O3); [lia|done|simpl in Hn; lia|].
  exists m3. cbn [concat length repeat tbl]. rewrite fold_acts_app. split_and!; [exact E3| |].
  - fold l. replace (l + 16) with (bucket_at (buckets h) (i + 1)) by (unfold l, bucket_at; lia).
    apply reps_cons. split_and!; [|done|].
    + apply (rep_agree m2); [|done]. intros a Ha. apply O3. by apply Hd.
    + intros a Ha Hin. apply (Hd a Ha). rewrite foot_tbl, elem_of_app. left.
      by rewrite foot_tbl, concat_empty, app_nil_r, repeat_length in Hin.
  - fold l. replace (l + 16) with (bucket_at (buckets h) (i + 1)) by (unfold l, bucket_at; lia).
    intros a. rewrite foot_cons, elem_of_app. intros Ha. rewrite O3 by tauto.
    rewrite (proj2 O2); [apply O1; tauto|]. intros Hin. apply Ha. left. unfold whole in *. set_solver.
Qed.

End Iter.

(** Without a destructor the buckets are only initialized. *)
Lemma hash_clear_loop_none {E} fuel n i h m (x : E) :
  hash_clear_loop fuel n i None (HState h m x) = init_buckets n (buckets h) i (bucket_cnt h) (HState h m x).
Proof.
  revert i m. induction n as [|n IH]; intros i m; [done|]. cbn [hash_clear_loop init_buckets].
  unfold gets. unfold mbind at 1, M_bind at 1. cbn [tab]. destruct (i <? bucket_cnt h); [|done].
  rewrite bind_ret. unfold on_lists, mbind, M_bind. cbn [hmem tab aux].
  destruct (list_init (bucket_at (buckets h) i) m) as [[[] m']|]; [|done]. apply IH.
Qed.

Lemma table_empty hash_func h m n :
  pow2 n -> reps m (tbl (buckets h) (repeat [] n)) ->
  table hash_func (Hash 0 (Z.of_nat n) (buckets h)) m (repeat [] n).
Proof.
  intros Hp Hr. split; cbn [buckets elem_cnt]; [done| | |].
  - by rewrite repeat_length.
  - by rewrite concat_empty.
  - intros i b e Hi He. apply list_elem_of_lookup_2, list_elem_of_In, repeat_spec in Hi as ->. by apply elem_of_nil in He.
Qed.
