(* ===== verification/HashProps.v ===== *)
(** * Properties of the hash table *)

From S2P Require Import Prelude ListModel ListRep ListOps ListOrder ListSpec Hash HashRep HashOps HashThms.

Section Props.
Context {E : Type} (hash_func : Z -> Z) (less : Z -> Z -> bool) (junk : Z -> list_elem).
Context `{Hlaws : !HashLaws hash_func less}.

(** ** The set does not depend on the order of the elements *)

Lemma find_eqv_perm xs ys e : uniq less xs -> xs ≡ₚ ys -> find_eqv less e xs = find_eqv less e ys.
Proof using Hlaws.
  intros Hu P. apply (find_eqv_ext hash_func less); [done| |].
  - eapply uniq_subset; [|exact Hu]. intros a. by rewrite P.
  - intros y _. by rewrite P.
Qed.

Lemma without_proper y xs ys : xs ≡ₚ ys -> without y xs ≡ₚ without y ys.
Proof using.
  unfold without. induction 1 as [|a l l' _ IH|a b l|l1 l2 l3 _ IH1 _ IH2]; simpl; [done| | |by rewrite IH1].
  - destruct (negb _); by rewrite IH.
  - destruct (negb _), (negb _); try done. apply perm_swap.
Qed.

Lemma spec_op_perm o xs ys :
  uniq less xs -> xs ≡ₚ ys ->
  (spec_op less o xs).1 = (spec_op less o ys).1 /\ (spec_op less o xs).2 ≡ₚ (spec_op less o ys).2.
Proof using Hlaws.
  intros Hu P. destruct o as [e|e|e|e]; cbn [spec_op]; rewrite (find_eqv_perm xs ys e Hu P);
    destruct (find_eqv less e ys) as [y|]; cbn [fst snd]; split; rewrite ?P; auto using without_proper.
Qed.

Lemma spec_op_uniq o xs : uniq less xs -> uniq less (spec_op less o xs).2.
Proof using Hlaws.
  intros Hu. destruct o as [e|e|e|e]; cbn [spec_op]; try done;
    destruct (find_eqv less e xs) as [y|] eqn:Ey; cbn [snd]; try done; try (by apply (uniq_cons hash_func less)).
  - apply (uniq_cons hash_func less); [eapply uniq_subset; [apply without_subset|done]|]. by apply (find_without hash_func less).
  - eapply uniq_subset; [apply without_subset|done].
Qed.

(** ** The operations *)

Lemma run_op_ok o h m (x : E) bs fuel block :
  table hash_func h m bs -> uniq less (concat bs) -> room fuel h bs ->
  (forall e, e ∈ linked o -> e <> NULL /\ has m e /\ e ∉ foot (tbl (buckets h) bs)) ->
  fresh m block (Z.of_nat (length (spec_op less o (concat bs)).2)) ->
  exists s' bs', run_op hash_func less junk fuel block o (HState h m x) = Ok ((spec_op less o (concat bs)).1, s') /\
    table hash_func (tab s') (hmem s') bs' /\ concat bs' ≡ₚ (spec_op less o (concat bs)).2 /\
    aux s' = x /\ kept (linked o ++ foot (tbl (buckets h) bs)) m (hmem s').
Proof using All.
  intros Ht Hu Hroom Hl Hfr. destruct o as [e|e|e|e]; cbn [run_op linked app] in *.
  - destruct (Hl e) as (? & ? & ?); [by apply list_elem_of_here|]. by apply hash_insert_ok.
  - destruct (Hl e) as (? & ? & ?); [by apply list_elem_of_here|]. by apply hash_replace_ok.
  - destruct Hroom as (_ & _ & Hf & _). destruct (find_in_table hash_func less h m x bs e fuel Ht Hu) as [E1 E2]; [lia|].
    exists (HState h m x), bs. unfold hash_find. by mstep E1.
  - by apply hash_delete_ok.
Qed.

Lemma hash_op_ok fuel block o (s : hstate E) xs :
  hash_rep hash_func less s xs ->
  (forall e, e ∈ linked o -> e <> NULL /\ has (hmem s) e /\ (e ∉ xs) /\ e ∉ headers (tab s)) ->
  fresh (hmem s) block (Z.of_nat (length (spec_op less o xs).2)) ->
  Z.of_nat (length xs) < 536870911 ->
  (4 < fuel)%nat /\ bucket_cnt (tab s) < Z.of_nat fuel /\ (length xs + 1 < fuel)%nat ->
  exists s', run_op hash_func less junk fuel block o s = Ok ((spec_op less o xs).1, s') /\
    hash_rep hash_func less s' (spec_op less o xs).2 /\
    elem_cnt (tab s') = Z.of_nat (length (spec_op less o xs).2) /\ aux s' = aux s /\
    kept (linked o ++ xs ++ headers (tab s)) (hmem s) (hmem s').
Proof using All.
  destruct s as [h m x]. cbn [tab hmem aux]. intros [(bs & Ht & P) Hu] Hl Hfr Hmax (Hf1 & Hf2 & Hf3). cbn [tab hmem] in *.
  assert (Hu' : uniq less (concat bs)) by (eapply uniq_subset; [|exact Hu]; intros a; by rewrite P).
  destruct (spec_op_perm o (concat bs) xs Hu' P) as [S1 S2].
  destruct (run_op_ok o h m x bs fuel block Ht Hu') as (s' & bs' & E1 & T1 & C1 & A1 & K1).
  - destruct (t_ok _ _ _ _ Ht) as [_ Hc]. pose proof (t_cnt _ _ _ _ Ht) as Hcnt. unfold room. rewrite Hcnt, P. split_and!; lia.
  - intros e He. destruct (Hl e He) as (? & ? & ? & ?). split_and!; try done. rewrite (table_foot _ _ _ _ _ Ht), P. tauto.
  - by rewrite S2.
  - exists s'. rewrite <-S1. split_and!; [done| | |done|].
    + split; [exists bs'; split; [done|by rewrite C1]|by apply spec_op_uniq].
    + rewrite (t_cnt _ _ _ _ T1), C1. by rewrite S2.
    + intros a Ha Hout. apply K1; [done|]. rewrite !elem_of_app in *. rewrite (table_foot _ _ _ _ _ Ht), P. tauto.
Qed.

(** ** Creation *)

Lemma hash_init_ok fuel block (s : hstate E) :
  (4 < fuel)%nat -> (forall a, a ∈ cells block 8 -> a <> NULL /\ hmem s !! a = None) -> block <> NULL ->
  exists s', hash_init junk fuel block s = Ok (true, s') /\ hash_rep hash_func less s' [] /\
    aux s' = aux s /\ tab s' = Hash 0 4 block /\ kept [] (hmem s) (hmem s').
Proof using.
  destruct s as [h m x]. cbn [hmem aux]. intros Hf Hfr Hb. set (h0 := Hash 0 4 block).
  destruct (init_buckets_ok hash_func less junk h0 x block 4 0 fuel (add_cells junk (cells block 8) m)) as (m' & E1 & R1 & O1).
  { lia. }
  { unfold bucket_at. rewrite Z.add_0_r. intros a Ha. split; [by apply Hfr|by apply add_cells_in]. }
  unfold bucket_at in R1, O1. rewrite Z.add_0_r in R1, O1.
  exists (HState h0 m' x). split_and!; try done.
  - unfold hash_init, malloc_lists, mbind, M_bind, mret, M_ret. destruct (Z.eqb_spec block NULL) as [?|_]; [done|].
    cbn [set_hmem set_tab tab hmem aux]. destruct (Z.eqb_spec block NULL) as [?|_]; [done|]. cbn [negb].
    unfold hash_clear, mbind, M_bind. rewrite hash_clear_loop_none.
    change (Z.to_nat (16 * 4 / 8)) with 8%nat. fold h0.
    change (buckets h0) with block. change (bucket_cnt h0) with (0 + Z.of_nat 4). rewrite E1. done.
  - split; [|by intros a b ?%elem_of_nil]. exists (repeat [] 4). split; [|done]. cbn [tab hmem].
    apply (table_empty hash_func h0 m' 4); [by exists 2|done].
  - intros a [v Hv] _. cbn [hmem]. assert (Ha : a ∉ cells block 8) by (intros Ha; destruct (Hfr a Ha); congruence).
    rewrite (proj2 O1) by done. by apply (add_cells_out hash_func less junk).
Qed.

(** ** Visiting every element *)

Lemma hash_visit_ok fuel (s : hstate E) xs action f g :
  hash_rep hash_func less s xs -> acts action f g ->
  bucket_cnt (tab s) < Z.of_nat fuel -> (length xs < fuel)%nat ->
  exists ys, ys ≡ₚ xs /\ NoDup ys /\
    (i ← hash_first; iterate fuel fuel i) s = Ok (ys, s) /\
    ((forall e m, g e m = m) ->
       hash_apply fuel (Some action) s = Ok (tt, HState (tab s) (hmem s) (fold_acts f ys (aux s)))) /\
    (exists m', let s' := HState (Hash 0 (bucket_cnt (tab s)) (buckets (tab s))) m' (fold_acts f ys (aux s)) in
       hash_clear fuel (Some action) s = Ok (tt, s') /\ hash_rep hash_func less s' [] /\
       forall a, a ∉ xs ++ headers (tab s) -> m' !! a = hmem s !! a).
Proof using.
  destruct s as [h m x]. cbn [tab hmem aux]. intros [(bs & Ht & P) _] Hact Hf1 Hf2. cbn [tab hmem] in *.
  destruct (t_ok _ _ _ _ Ht) as [Hp Hc]. assert (Hbs : (length bs < fuel)%nat) by lia.
  assert (Hlen : (length (concat bs) < fuel)%nat) by (by rewrite P).
  assert (Hb : Forall (fun b => (length b < fuel)%nat) bs).
  { eapply Forall_impl; [apply bucket_bound|]. simpl. lia. }
  exists (concat bs). split_and!; [done| | | |].
  - pose proof (table_nodup _ _ _ _ Ht) as Hn. by apply NoDup_app in Hn as (_ & _ & Hn).
  - by apply (iteration_ok hash_func).
  - intros Hg. unfold hash_apply. by apply (hash_apply_loop_ok hash_func action f g Hact h m bs []).
  - destruct (hash_clear_loop_ok hash_func action f g Hact h bs 0 fuel fuel m x) as (m' & E1 & R1 & O1); try done.
    { unfold bucket_at. rewrite Z.add_0_r. apply (t_reps _ _ _ _ Ht). }
    unfold bucket_at in R1, O1. rewrite Z.add_0_r in R1, O1.
    exists m'. split_and!.
    + unfold hash_clear. by mstep E1.
    + split; [|by intros a b ?%elem_of_nil]. exists (repeat [] (length bs)). split; [|by rewrite concat_empty].
      cbn [tab hmem]. rewrite Hc. by apply table_empty.
    + intros a Ha. apply O1. rewrite (table_foot _ _ _ _ _ Ht), P. rewrite elem_of_app in Ha.
      intros [Hin|Hin]; apply Ha; auto.
Qed.

End Props.

(** ** A table on concrete memory

    Elements are keyed by the thousands of their address. *)

Definition demo_key (a : Z) : Z := a / 1000.
Definition demo_less (a b : Z) : bool := demo_key a <? demo_key b.

#[export] Instance demo_laws : HashLaws demo_key demo_less.
Proof.
  unfold demo_less. split.
  - split; intros; lia.
  - intros a b. unfold eqv. lia.
Qed.

Definition demo_junk (a : Z) : list_elem := ListElem 7 a.
Definition demo_start : hstate (list Z) :=
  HState (Hash 0 0 0) (add_cells demo_junk [1000; 2000; 2008; 3000] ∅) [].

Definition demo_state {A} (r : result (A * hstate (list Z))) : hstate (list Z) :=
  match r with Ok (_, s) => s | Err _ => demo_start end.

Definition demo0 : hstate (list Z) := demo_state (hash_init demo_junk 20 64 demo_start).
Definition demo1 : hstate (list Z) := demo_state (run_op demo_key demo_less demo_junk 20 0 (OInsert 1000) demo0).
Definition demo2 : hstate (list Z) := demo_state (run_op demo_key demo_less demo_junk 20 0 (OInsert 2000) demo1).

Lemma demo_cells (m : mem) p n :
  forallb (fun a => negb (a =? NULL) && bool_decide (m !! a = None)) (cells p n) = true ->
  forall a, a ∈ cells p n -> a <> NULL /\ m !! a = None.
Proof.
  intros H a Ha. rewrite forallb_forall in H. rewrite list_elem_of_In in Ha.
  apply H in Ha as [H1 H2]%andb_true_iff. apply bool_decide_eq_true in H2. split; [lia|done].
Qed.

(** Conditions on a linked element, as a test. *)
Definition linkableb (s : hstate (list Z)) (xs : list Z) (e : Z) : bool :=
  negb (e =? NULL) && bool_decide (is_Some (hmem s !! e)) && bool_decide (e ∉ xs) && bool_decide (e ∉ headers (tab s)).

Lemma linkableb_ok s xs o :
  forallb (linkableb s xs) (linked o) = true ->
  forall e, e ∈ linked o -> e <> NULL /\ has (hmem s) e /\ (e ∉ xs) /\ e ∉ headers (tab s).
Proof.
  intros H e He. rewrite forallb_forall in H. rewrite list_elem_of_In in He. apply H in He. unfold linkableb in He.
  rewrite !andb_true_iff, !bool_decide_eq_true in He. destruct He as (((H1 & H2) & H3) & H4).
  split_and!; [lia|done|done|done].
Qed.

Lemma demo_fuel (cnt : Z) (fuel n : nat) :
  (4 <? fuel)%nat && (cnt <? Z.of_nat fuel) && (n + 1 <? fuel)%nat = true ->
  (4 < fuel)%nat /\ cnt < Z.of_nat fuel /\ (n + 1 < fuel)%nat.
Proof. rewrite !andb_true_iff, !Nat.ltb_lt, Z.ltb_lt. tauto. Qed.

Lemma demo2_rep : hash_rep demo_key demo_less demo2 [2000; 1000].
Proof.
  destruct (hash_init_ok demo_key demo_less demo_junk 20 64 demo_start) as (s0 & E0 & R0 & _); [lia| |done|].
  { apply demo_cells. vm_compute. reflexivity. }
  assert (s0 = demo0) as -> by (unfold demo0; by rewrite E0).
  destruct (hash_op_ok demo_key demo_less demo_junk 20 0 (OInsert 1000) demo0 []) as (s1 & E1 & R1 & _); [exact R0| |by left|done|apply demo_fuel; vm_compute; reflexivity|].
  { apply linkableb_ok. vm_compute. reflexivity. }
  assert (s1 = demo1) as -> by (unfold demo1; by rewrite E1).
  destruct (hash_op_ok demo_key demo_less demo_junk 20 0 (OInsert 2000) demo1 [1000]) as (s2 & E2 & R2 & _); [exact R1| |by left|done|apply demo_fuel; vm_compute; reflexivity|].
  { apply linkableb_ok. vm_compute. reflexivity. }
  assert (s2 = demo2) as -> by (unfold demo2; by rewrite E2). exact R2.
Qed.

(** ** The contracts *)

(** C6: A hash table implements a set of elements modulo the equality of its
    [less], for every [hash] that agrees with it.  [hash_insert],
    [hash_replace], [hash_find] and [hash_delete] return the element the set
    operation returns and leave a table of the set it leaves, whether the
    table is resized, kept, or cannot be resized because [malloc] fails; the
    count is the size of the set, and no memory outside the table and the
    linked element changes. *)
Theorem hash_refines_set {E} hash_func less junk fuel block o (s : hstate E) xs :
  HashLaws hash_func less -> hash_rep hash_func less s xs ->
  (forall e, e ∈ linked o -> e <> NULL /\ has (hmem s) e /\ (e ∉ xs) /\ e ∉ headers (tab s)) ->
  fresh (hmem s) block (Z.of_nat (length (spec_op less o xs).2)) ->
  Z.of_nat (length xs) < 536870911 ->
  (4 < fuel)%nat /\ bucket_cnt (tab s) < Z.of_nat fuel /\ (length xs + 1 < fuel)%nat ->
  exists s', run_op hash_func less junk fuel block o s = Ok ((spec_op less o xs).1, s') /\
    hash_rep hash_func less s' (spec_op less o xs).2 /\
    elem_cnt (tab s') = Z.of_nat (length (spec_op less o xs).2) /\ aux s' = aux s /\
    kept (linked o ++ xs ++ headers (tab s)) (hmem s) (hmem s').
Proof. intros Hl. by apply hash_op_ok. Qed.

(** Replacing the element 2000 by 2008, which has the same key. *)
Lemma hash_refines_set_witness :
  exists s', run_op demo_key demo_less demo_junk 20 4096 (OReplace 2008) demo2 = Ok (2000, s') /\
    hash_rep demo_key demo_less s' [2008; 1000] /\ elem_cnt (tab s') = 2 /\ aux s' = aux demo2 /\
    kept ([2008] ++ [2000; 1000] ++ headers (tab demo2)) (hmem demo2) (hmem s').
Proof.
  apply (hash_refines_set demo_key demo_less demo_junk 20 4096 (OReplace 2008) demo2 [2000; 1000] demo_laws demo2_rep).
  - apply linkableb_ok. vm_compute. reflexivity.
  - right. intros n a [= <-]. apply (demo_cells (hmem demo2) 4096 8). vm_compute. reflexivity.
  - vm_compute. reflexivity.
  - apply demo_fuel. vm_compute. reflexivity.
Defined.

(** The life of a table.  [hash_init] returns false when there is no
    memory and otherwise leaves an empty table.  The iterator visits every
    element of a table exactly once and then ends; [hash_apply] calls its
    action on the elements in the same order; [hash_clear] with a destructor
    does too, although the destructor may destroy the element it is given, and
    leaves an empty table, changing nothing but the elements and the buckets. *)
Theorem hash_life_cycle {E} hash_func less junk fuel (s : hstate E) xs action f g :
  hash_rep hash_func less s xs -> acts action f g ->
  (4 < fuel)%nat -> bucket_cnt (tab s) < Z.of_nat fuel -> (length xs < fuel)%nat ->
  (forall s0 : hstate E, exists s', hash_init junk fuel NULL s0 = Ok (false, s') /\ hmem s' = hmem s0) /\
  (forall (s0 : hstate E) block,
     block <> NULL -> (forall a, a ∈ cells block 8 -> a <> NULL /\ hmem s0 !! a = None) ->
     exists s', hash_init junk fuel block s0 = Ok (true, s') /\ hash_rep hash_func less s' []) /\
  exists ys, ys ≡ₚ xs /\ NoDup ys /\
    (i ← hash_first; iterate fuel fuel i) s = Ok (ys, s) /\
    ((forall e m, g e m = m) ->
       hash_apply fuel (Some action) s = Ok (tt, HState (tab s) (hmem s) (fold_acts f ys (aux s)))) /\
    (exists m', let s' := HState (Hash 0 (bucket_cnt (tab s)) (buckets (tab s))) m' (fold_acts f ys (aux s)) in
       hash_clear fuel (Some action) s = Ok (tt, s') /\ hash_rep hash_func less s' [] /\
       forall a, a ∉ xs ++ headers (tab s) -> m' !! a = hmem s !! a).
Proof.
  intros Hr Ha Hf1 Hf2 Hf3. split_and!.
  - intros [h m x]. by exists (HState (Hash 0 4 NULL) m x).
  - intros s0 block Hb Hfr. destruct (hash_init_ok hash_func less junk fuel block s0 Hf1 Hfr Hb) as (s' & E1 & R1 & _).
    by exists s'.
  - by apply hash_visit_ok.
Qed.

(** An action that writes a log and destroys the element. *)
Definition demo_action (e : Z) : M (hstate (list Z)) unit := fun s =>
  Ok (tt, HState (tab s) (delete e (hmem s)) (e :: aux s)).

Lemma demo_acts : acts demo_action cons delete.
Proof. split; [done|]. intros e m a Ha. by rewrite lookup_delete_ne. Qed.

Lemma hash_life_cycle_witness :
  exists ys, ys ≡ₚ [2000; 1000] /\ NoDup ys /\
    (i ← hash_first; iterate 20 20 i) demo2 = Ok (ys, demo2) /\
    exists m', hash_clear 20 (Some demo_action) demo2 = Ok (tt, HState (Hash 0 4 64) m' (fold_acts cons ys [])).
Proof.
  destruct (hash_life_cycle demo_key demo_less demo_junk 20 demo2 [2000; 1000] demo_action cons delete demo2_rep demo_acts)
    as (_ & _ & ys & P & N & I & _ & m' & C & _); [lia|vm_compute; reflexivity|simpl; lia|].
  exists ys. split_and!; [done|done|done|]. exists m'. exact C.
Defined.
