(* ===== verification/CString.v ===== *)
(** * [lib/string.c]: memory blocks and null-terminated strings

    Memory is a finite map from addresses to bytes; a byte is a number from 0
    to 255, and a C character is compared as the byte it is stored in.  An
    access to an address without a byte stops with [EFault].  Each function of
    string.c is one definition with its name.  A loop over SIZE bytes recurs
    on the size; a loop that runs to the end of a string carries [fuel].  The
    hash functions of [lib/kernel/hash.c] on bytes and strings are at the
    end. *)

From S2P Require Import Prelude ListModel.

Abbreviation bytes := (gmap Z Z).
Abbreviation B := (M bytes).

Definition load (p : Z) : B Z := fun m =>
  match m !! p with Some b => Ok (b, m) | None => Err EFault end.

Definition store (p v : Z) : B unit := fun m =>
  match m !! p with Some _ => Ok (tt, <[p := u8 v]> m) | None => Err EFault end.

Definition not_null (p : Z) : bool := negb (p =? NULL).

(** ** Blocks *)

Fixpoint copy_forward (size : nat) (dst src : Z) : B unit :=
  match size with
  | O => mret tt
  | S size => b ← load src; store dst b;; copy_forward size (dst + 1) (src + 1)
  end.

Fixpoint copy_backward (size : nat) (dst src : Z) : B unit :=
  match size with
  | O => mret tt
  | S size => b ← load (src - 1); store (dst - 1) b;; copy_backward size (dst - 1) (src - 1)
  end.

Definition memcpy (dst src size : Z) : B Z :=
  ASSERT (not_null dst || (size =? 0));;
  ASSERT (not_null src || (size =? 0));;
  copy_forward (Z.to_nat size) dst src;;
  mret dst.

(** The pointer DST has moved when the copy goes forward. *)
Definition memmove (dst src size : Z) : B Z :=
  ASSERT (not_null dst || (size =? 0));;
  ASSERT (not_null src || (size =? 0));;
  if dst <? src then copy_forward (Z.to_nat size) dst src;; mret (dst + size)
  else copy_backward (Z.to_nat size) (dst + size) (src + size);; mret dst.

Fixpoint memcmp_loop (size : nat) (a b : Z) : B Z :=
  match size with
  | O => mret 0
  | S size =>
      x ← load a; y ← load b;
      if negb (x =? y) then mret (if y <? x then 1 else -1) else
      memcmp_loop size (a + 1) (b + 1)
  end.

Definition memcmp (a b size : Z) : B Z :=
  ASSERT (not_null a || (size =? 0));;
  ASSERT (not_null b || (size =? 0));;
  memcmp_loop (Z.to_nat size) a b.

Fixpoint memchr_loop (size : nat) (block ch : Z) : B Z :=
  match size with
  | O => mret NULL
  | S size => x ← load block; if x =? ch then mret block else memchr_loop size (block + 1) ch
  end.

Definition memchr (block ch size : Z) : B Z :=
  ASSERT (not_null block || (size =? 0));;
  memchr_loop (Z.to_nat size) block (u8 ch).

Fixpoint memset_loop (size : nat) (dst value : Z) : B unit :=
  match size with
  | O => mret tt
  | S size => store dst value;; memset_loop size (dst + 1) value
  end.

Definition memset (dst value size : Z) : B Z :=
  ASSERT (not_null dst || (size =? 0));;
  memset_loop (Z.to_nat size) dst value;;
  mret dst.

(** ** Strings *)

Fixpoint strcmp_loop (fuel : nat) (a b : Z) : B Z :=
  match fuel with
  | O => fail EFuel
  | S fuel =>
      x ← load a;
      y ← load b;
      if negb (x =? 0) && (x =? y) then strcmp_loop fuel (a + 1) (b + 1)
      else mret (if x <? y then -1 else if y <? x then 1 else 0)
  end.

Definition strcmp (fuel : nat) (a b : Z) : B Z :=
  ASSERT (not_null a);; ASSERT (not_null b);; strcmp_loop fuel a b.

Fixpoint strchr_loop (fuel : nat) (string c : Z) : B Z :=
  match fuel with
  | O => fail EFuel
  | S fuel =>
      x ← load string;
      if x =? c then mret string
      else if x =? 0 then mret NULL
      else strchr_loop fuel (string + 1) c
  end.

Definition strchr (fuel : nat) (string c : Z) : B Z :=
  ASSERT (not_null string);; strchr_loop fuel string (u8 c).

(** [strcspn] stops at a character of STOP, [strspn] at one outside SKIP. *)
Fixpoint strcspn_loop (fuel : nat) (string stop length : Z) : B Z :=
  match fuel with
  | O => fail EFuel
  | S fuel' =>
      x ← load (string + length);
      if x =? 0 then mret length else
      p ← strchr fuel stop x;
      if not_null p then mret length else strcspn_loop fuel' string stop (length + 1)
  end.

Definition strcspn (fuel : nat) (string stop : Z) : B Z := strcspn_loop fuel string stop 0.

Fixpoint strpbrk_loop (fuel : nat) (string stop : Z) : B Z :=
  match fuel with
  | O => fail EFuel
  | S fuel' =>
      x ← load string;
      if x =? 0 then mret NULL else
      p ← strchr fuel stop x;
      if not_null p then mret string else strpbrk_loop fuel' (string + 1) stop
  end.

Definition strpbrk (fuel : nat) (string stop : Z) : B Z := strpbrk_loop fuel string stop.

Fixpoint strrchr_loop (fuel : nat) (string c p : Z) : B Z :=
  match fuel with
  | O => fail EFuel
  | S fuel =>
      x ← load string;
      if x =? 0 then mret p else
      strrchr_loop fuel (string + 1) c (if x =? c then string else p)
  end.

Definition strrchr (fuel : nat) (string c : Z) : B Z := strrchr_loop fuel string (u8 c) NULL.

Fixpoint strspn_loop (fuel : nat) (string skip length : Z) : B Z :=
  match fuel with
  | O => fail EFuel
  | S fuel' =>
      x ← load (string + length);
      if x =? 0 then mret length else
      p ← strchr fuel skip x;
      if negb (not_null p) then mret length else strspn_loop fuel' string skip (length + 1)
  end.

Definition strspn (fuel : nat) (string skip : Z) : B Z := strspn_loop fuel string skip 0.

Fixpoint strlen_loop (fuel : nat) (p : Z) : B Z :=
  match fuel with
  | O => fail EFuel
  | S fuel => x ← load p; if x =? 0 then mret p else strlen_loop fuel (p + 1)
  end.

Definition strlen (fuel : nat) (string : Z) : B Z :=
  ASSERT (not_null string);;
  p ← strlen_loop fuel string;
  mret (p - string).

Fixpoint strnlen_loop (fuel : nat) (string maxlen length : Z) : B Z :=
  match fuel with
  | O => fail EFuel
  | S fuel =>
      x ← load (string + length);
      if negb (x =? 0) && (length <? maxlen) then strnlen_loop fuel string maxlen (length + 1)
      else mret length
  end.

Definition strnlen (fuel : nat) (string maxlen : Z) : B Z := strnlen_loop fuel string maxlen 0.

Fixpoint strstr_loop (n : nat) (haystack needle needle_len i : Z) : B Z :=
  match n with
  | O => mret NULL
  | S n =>
      c ← memcmp (haystack + i) needle needle_len;
      if c =? 0 then mret (haystack + i) else strstr_loop n haystack needle needle_len (i + 1)
  end.

Definition strstr (fuel : nat) (haystack needle : Z) : B Z :=
  haystack_len ← strlen fuel haystack;
  needle_len ← strlen fuel needle;
  if needle_len <=? haystack_len then
    strstr_loop (Z.to_nat (haystack_len - needle_len + 1)) haystack needle needle_len 0
  else mret NULL.

Definition strlcpy (fuel : nat) (dst src size : Z) : B Z :=
  ASSERT (not_null dst);; ASSERT (not_null src);;
  src_len ← strlen fuel src;
  (if 0 <? size then
     let dst_len := if src_len <? size - 1 then src_len else size - 1 in
     memcpy dst src dst_len;;
     store (dst + dst_len) 0
   else mret tt);;
  mret src_len.

Definition strlcat (fuel : nat) (dst src size : Z) : B Z :=
  ASSERT (not_null dst);; ASSERT (not_null src);;
  src_len ← strlen fuel src;
  dst_len ← strlen fuel dst;
  (if (0 <? size) && (dst_len <? size) then
     let copy_cnt := if src_len <? size - dst_len - 1 then src_len else size - dst_len - 1 in
     memcpy (dst + dst_len) src copy_cnt;;
     store (dst + (dst_len + copy_cnt)) 0
   else mret tt);;
  mret (u32 (src_len + dst_len)).

(** ** Tokens *)

(** The first loop of [strtok_r]: the start of a token, or [None] with the
    position of the end of the string. *)
Fixpoint skip_delimiters (fuel : nat) (s delimiters : Z) : B (option Z * Z) :=
  match fuel with
  | O => fail EFuel
  | S fuel' =>
      x ← load s;
      p ← strchr fuel delimiters x;
      if not_null p then
        x ← load s;
        if x =? 0 then mret (None, s) else skip_delimiters fuel' (s + 1) delimiters
      else mret (Some s, s)
  end.

Fixpoint skip_token (fuel : nat) (s delimiters : Z) : B Z :=
  match fuel with
  | O => fail EFuel
  | S fuel' =>
      x ← load s;
      p ← strchr fuel delimiters x;
      if not_null p then mret s else skip_token fuel' (s + 1) delimiters
  end.

(** SAVE is the variable that [save_ptr] points to; the result is the token
    and the new value of the variable. *)
Definition strtok_r (fuel : nat) (s delimiters save : Z) : B (Z * Z) :=
  ASSERT (not_null delimiters);;
  let s := if s =? NULL then save else s in
  ASSERT (not_null s);;
  r ← skip_delimiters fuel s delimiters;
  match r with
  | (None, s) => mret (NULL, s)
  | (Some token, s) =>
      s ← skip_token fuel s delimiters;
      x ← load s;
      if negb (x =? 0) then store s 0;; mret (token, s + 1) else mret (token, s)
  end.

(** ** Fowler-Noll-Vo hashes *)

Definition FNV_32_PRIME : Z := 16777619.
Definition FNV_32_BASIS : Z := 2166136261.

Fixpoint hash_bytes_loop (size : nat) (buf hash : Z) : B Z :=
  match size with
  | O => mret hash
  | S size => b ← load buf; hash_bytes_loop size (buf + 1) (Z.lxor (u32 (hash * FNV_32_PRIME)) b)
  end.

Definition hash_bytes (buf size : Z) : B Z :=
  ASSERT (not_null buf);; hash_bytes_loop (Z.to_nat size) buf FNV_32_BASIS.

Fixpoint hash_string_loop (fuel : nat) (s hash : Z) : B Z :=
  match fuel with
  | O => fail EFuel
  | S fuel =>
      b ← load s;
      if b =? 0 then mret hash else
      hash_string_loop fuel (s + 1) (Z.lxor (u32 (hash * FNV_32_PRIME)) b)
  end.

Definition hash_string (fuel : nat) (s : Z) : B Z :=
  ASSERT (not_null s);; hash_string_loop fuel s FNV_32_BASIS.

(** The integer is at the address I. *)
Definition hash_int (i : Z) : B Z := hash_bytes i 4.
