(* ===== verification/CStringRep.v ===== *)
(** * Bytes and strings in memory

    [bytes_at m p bs]: the bytes [bs] are at [p].  [write m p bs]: the memory
    with the bytes [bs] at [p].  [cstr m p s]: the null-terminated string [s]
    is at [p].  The lemmas give the result of the functions of string.c on
    such memories. *)

From S2P Require Import Prelude ListModel Bytes CString.

Fixpoint bytes_at (m : bytes) (p : Z) (bs : list Z) : Prop :=
  match bs with [] => True | b :: bs => m !! p = Some b /\ bytes_at m (p + 1) bs end.

Fixpoint write (m : bytes) (p : Z) (bs : list Z) : bytes :=
  match bs with [] => m | b :: bs => write (<[p := b]> m) (p + 1) bs end.

Definition cstr (m : bytes) (p : Z) (s : list Z) : Prop :=
  bytes_at m p (s ++ [0]) /\ Forall (fun c => 0 < c < 256) s.

(** The memories agree outside [n] bytes at [p]. *)
Definition same_but (p n : Z) (m m' : bytes) : Prop := forall a, a < p \/ p + n <= a -> m' !! a = m !! a.

Lemma bytes_at_app m p xs ys :
  bytes_at m p (xs ++ ys) <-> bytes_at m p xs /\ bytes_at m (p + Z.of_nat (length xs)) ys.
Proof.
  revert p. induction xs as [|x xs IH]; intros p; cbn [app bytes_at length].
  - rewrite Z.add_0_r. tauto.
  - rewrite IH. replace (p + 1 + Z.of_nat (length xs)) with (p + Z.of_nat (S (length xs))) by lia. tauto.
Qed.

Lemma bytes_at_agree m m' p bs :
  (forall a, p <= a < p + Z.of_nat (length bs) -> m' !! a = m !! a) -> bytes_at m p bs -> bytes_at m' p bs.
Proof.
  revert p. induction bs as [|b bs IH]; intros p Ha; cbn [bytes_at length] in *; [done|]. intros [H1 H2]. split.
  - rewrite Ha by lia. done.
  - apply IH; [|done]. intros a Hr. apply Ha. lia.
Qed.

Lemma bytes_at_lookup m p bs a :
  bytes_at m p bs -> p <= a < p + Z.of_nat (length bs) -> m !! a = bs !! Z.to_nat (a - p).
Proof.
  revert p. induction bs as [|b bs IH]; intros p; cbn [bytes_at length]; [lia|]. intros [H1 H2] Ha.
  destruct (decide (a = p)) as [->|Hne]; [by rewrite Z.sub_diag|].
  rewrite (IH (p + 1)) by (done || lia). replace (Z.to_nat (a - p)) with (S (Z.to_nat (a - (p + 1)))) by lia. done.
Qed.

(** ** Writing *)

Lemma write_lookup m p bs a :
  write m p bs !! a =
  if (p <=? a) && (a <? p + Z.of_nat (length bs)) then bs !! Z.to_nat (a - p) else m !! a.
Proof.
  revert m p. induction bs as [|b bs IH]; intros m p; cbn [write length].
  - by destruct (Z.leb_spec p a), (Z.ltb_spec a (p + Z.of_nat 0)); try lia.
  - rewrite IH. destruct (Z.leb_spec (p + 1) a), (Z.ltb_spec a (p + 1 + Z.of_nat (length bs))),
      (Z.leb_spec p a), (Z.ltb_spec a (p + Z.of_nat (S (length bs)))); try lia; cbn [andb].
    + replace (Z.to_nat (a - p)) with (S (Z.to_nat (a - (p + 1)))) by lia. done.
    + by rewrite lookup_insert_ne by lia.
    + assert (a = p) as -> by lia. by rewrite lookup_insert_eq, Z.sub_diag.
    + by rewrite lookup_insert_ne by lia.
Qed.

Lemma write_in m p bs a : p <= a < p + Z.of_nat (length bs) -> write m p bs !! a = bs !! Z.to_nat (a - p).
Proof.
  intros Ha. rewrite write_lookup.
  by destruct (Z.leb_spec p a), (Z.ltb_spec a (p + Z.of_nat (length bs))); try lia.
Qed.

Lemma write_out m p bs a : a < p \/ p + Z.of_nat (length bs) <= a -> write m p bs !! a = m !! a.
Proof.
  intros Ha. rewrite write_lookup.
  destruct (Z.leb_spec p a), (Z.ltb_spec a (p + Z.of_nat (length bs))); try lia; done.
Qed.

Lemma write_app m p xs ys : write m p (xs ++ ys) = write (write m p xs) (p + Z.of_nat (length xs)) ys.
Proof.
  revert m p. induction xs as [|x xs IH]; intros m p; cbn [app write length]; [by rewrite Z.add_0_r|].
  rewrite IH. f_equal. lia.
Qed.

Lemma write_insert m p bs a v :
  a < p \/ p + Z.of_nat (length bs) <= a -> write (<[a := v]> m) p bs = <[a := v]> (write m p bs).
Proof.
  revert m p. induction bs as [|b bs IH]; intros m p Ha; cbn [write length] in *; [done|].
  rewrite insert_insert_ne by lia. apply IH. lia.
Qed.

Lemma write_at m p bs : bytes_at (write m p bs) p bs.
Proof.
  revert m p. induction bs as [|b bs IH]; intros m p; cbn [write bytes_at]; [done|]. split; [|done].
  rewrite write_out by lia. by rewrite lookup_insert_eq.
Qed.

Lemma bytes_at_write m p bs q ys :
  q + Z.of_nat (length ys) <= p \/ p + Z.of_nat (length bs) <= q ->
  bytes_at m q ys -> bytes_at (write m p bs) q ys.
Proof. intros Hd. apply bytes_at_agree. intros a Ha. apply write_out. lia. Qed.

(** ** Loads and stores *)

Lemma load_ok m p b : m !! p = Some b -> load p m = Ok (b, m).
Proof. intros H. unfold load. by rewrite H. Qed.

Lemma store_ok m p old b : m !! p = Some old -> is_byte b -> store p b m = Ok (tt, <[p := b]> m).
Proof. intros H Hb. unfold store. rewrite H. do 3 f_equal. unfold u8. by apply Z.mod_small. Qed.

Lemma assert_ptr (m : bytes) p : p <> NULL -> ASSERT (not_null p) m = Ok (tt, m).
Proof. intros H. apply ASSERT_true. unfold not_null. by destruct (Z.eqb_spec p NULL). Qed.

Lemma assert_block (m : bytes) p n : p <> NULL \/ n = 0 -> ASSERT (not_null p || (n =? 0)) m = Ok (tt, m).
Proof.
  intros H. apply ASSERT_true. unfold not_null. destruct (Z.eqb_spec p NULL), (Z.eqb_spec n 0); try done. tauto.
Qed.

(** ** Copies *)

Lemma copy_forward_ok bs : forall m dst src old,
  bytes_at m src bs -> bytes_at m dst old -> length old = length bs -> Forall is_byte bs ->
  dst < src \/ src + Z.of_nat (length bs) <= dst ->
  copy_forward (length bs) dst src m = Ok (tt, write m dst bs).
Proof.
  induction bs as [|b bs IH]; intros m dst src [|o old] Hs Hd Hl Hb Ho; try done.
  cbn [bytes_at length copy_forward write] in *. destruct Hs as [Hs1 Hs2], Hd as [Hd1 Hd2].
  apply Forall_cons in Hb as [Hb1 Hb2].
  mstep (load_ok _ _ _ Hs1). mstep (store_ok _ _ _ _ Hd1 Hb1).
  apply (IH _ _ _ old); try done; [| |lia|lia].
  - eapply bytes_at_agree; [|exact Hs2]. intros a Ha. apply lookup_insert_ne. lia.
  - eapply bytes_at_agree; [|exact Hd2]. intros a Ha. apply lookup_insert_ne. lia.
Qed.

Lemma copy_backward_ok bs : forall m dst src old,
  bytes_at m src bs -> bytes_at m dst old -> length old = length bs -> Forall is_byte bs ->
  src <= dst \/ dst + Z.of_nat (length bs) <= src ->
  copy_backward (length bs) (dst + Z.of_nat (length bs)) (src + Z.of_nat (length bs)) m = Ok (tt, write m dst bs).
Proof.
  induction bs as [|b bs IH] using rev_ind; intros m dst src old Hs Hd Hl Hb Ho; [done|].
  destruct old as [|o old _] using rev_ind; [rewrite !length_app in Hl; simpl in Hl; lia|].
  rewrite !length_app in *. simpl in Hl. rewrite Nat.add_1_r in *. cbn [copy_backward].
  apply bytes_at_app in Hs as [Hs1 [Hs2 _]], Hd as [Hd1 [Hd2 _]]. apply Forall_app in Hb as [Hb1 [Hb2 _]%Forall_cons].
  assert (length old = length bs) as E by lia. rewrite E in Hd2.
  replace (src + Z.of_nat (S (length bs)) - 1) with (src + Z.of_nat (length bs)) by lia.
  replace (dst + Z.of_nat (S (length bs)) - 1) with (dst + Z.of_nat (length bs)) by lia.
  mstep (load_ok _ _ _ Hs2). mstep (store_ok _ _ _ _ Hd2 Hb2).
  rewrite (IH _ _ _ old); [| | |done|done|lia].
  - do 2 f_equal. rewrite write_app. cbn [write]. apply write_insert. lia.
  - eapply bytes_at_agree; [|exact Hs1]. intros a Ha. apply lookup_insert_ne. lia.
  - eapply bytes_at_agree; [|exact Hd1]. intros a Ha. apply lookup_insert_ne. lia.
Qed.

(** ** Strings *)

Lemma cstr_cons m p c s : cstr m p (c :: s) <-> m !! p = Some c /\ 0 < c < 256 /\ cstr m (p + 1) s.
Proof. unfold cstr. cbn [app bytes_at]. rewrite Forall_cons. tauto. Qed.

Lemma cstr_nil m p : cstr m p [] <-> m !! p = Some 0.
Proof. unfold cstr. cbn [app bytes_at]. split; [tauto|]. intros H. split_and!; [done|done|constructor]. Qed.

Lemma cstr_app m p xs ys :
  cstr m p (xs ++ ys) -> bytes_at m p xs /\ cstr m (p + Z.of_nat (length xs)) ys /\ Forall (fun c => 0 < c < 256) xs.
Proof. unfold cstr. rewrite <-app_assoc, bytes_at_app, Forall_app. tauto. Qed.

Lemma cstr_agree m m' p s :
  (forall a, p <= a < p + Z.of_nat (S (length s)) -> m' !! a = m !! a) -> cstr m p s -> cstr m' p s.
Proof.
  intros Ha [H1 H2]. split; [|done]. eapply bytes_at_agree; [|exact H1]. intros a Hr. apply Ha.
  rewrite length_app in Hr. simpl in Hr. lia.
Qed.

Lemma strlen_loop_ok m s : forall p fuel,
  cstr m p s -> (length s < fuel)%nat -> strlen_loop fuel p m = Ok (p + Z.of_nat (length s), m).
Proof.
  induction s as [|c s IH]; intros p fuel Hs Hf; (destruct fuel as [|fuel]; [simpl in Hf; lia|]); cbn [strlen_loop].
  - apply cstr_nil in Hs. mstep (load_ok _ _ _ Hs). by rewrite Z.add_0_r.
  - apply cstr_cons in Hs as (H1 & H2 & H3). mstep (load_ok _ _ _ H1).
    destruct (Z.eqb_spec c 0); [lia|]. rewrite IH by (done || (simpl in Hf; lia)). do 2 f_equal. simpl. lia.
Qed.

Lemma strlen_ok m p s fuel :
  cstr m p s -> p <> NULL -> (length s < fuel)%nat -> strlen fuel p m = Ok (Z.of_nat (length s), m).
Proof.
  intros Hs Hp Hf. unfold strlen. mstep (assert_ptr m p Hp). mstep (strlen_loop_ok _ _ _ _ Hs Hf).
  unfold mret, M_ret. do 2 f_equal. lia.
Qed.

(** The first place of [c]. *)
Fixpoint index (c : Z) (s : list Z) : option nat :=
  match s with
  | [] => None
  | x :: s => if x =? c then Some O else S <$> index c s
  end.

Lemma index_is_Some c s : is_Some (index c s) <-> c ∈ s.
Proof.
  induction s as [|x s IH]; cbn [index]; [rewrite elem_of_nil; split; [by intros [? ?]|done]|].
  rewrite elem_of_cons. destruct (Z.eqb_spec x c) as [->|Hne]; [split; [by left|done]|].
  rewrite fmap_is_Some, IH. split; [by right|]. intros [->|?]; done.
Qed.

Lemma strchr_loop_ok m s c : forall p fuel,
  cstr m p s -> (length s < fuel)%nat ->
  strchr_loop fuel p c m = Ok (match index c (s ++ [0]) with Some i => p + Z.of_nat i | None => NULL end, m).
Proof.
  induction s as [|x s IH]; intros p fuel Hs Hf; (destruct fuel as [|fuel]; [simpl in Hf; lia|]);
    cbn [strchr_loop app index].
  - apply cstr_nil in Hs. mstep (load_ok _ _ _ Hs). destruct (0 =? c); [by rewrite Z.add_0_r|done].
  - apply cstr_cons in Hs as (H1 & H2 & H3). mstep (load_ok _ _ _ H1).
    destruct (Z.eqb_spec x c); [by rewrite Z.add_0_r|]. destruct (Z.eqb_spec x 0); [lia|].
    rewrite IH by (done || (simpl in Hf; lia)). do 2 f_equal. destruct (index c (s ++ [0])); simpl; [lia|done].
Qed.

Lemma strchr_ok m p s c fuel :
  cstr m p s -> p <> NULL -> (length s < fuel)%nat -> is_byte c ->
  strchr fuel p c m = Ok (match index c (s ++ [0]) with Some i => p + Z.of_nat i | None => NULL end, m).
Proof.
  intros Hs Hp Hf Hc. unfold strchr. mstep (assert_ptr m p Hp).
  replace (u8 c) with c by (unfold u8; by rewrite Z.mod_small). by apply strchr_loop_ok.
Qed.

(** As the callers use it: is the character in the set, or null? *)
Lemma strchr_in m p s c fuel :
  cstr m p s -> 0 < p -> (length s < fuel)%nat -> is_byte c ->
  exists r, strchr fuel p c m = Ok (r, m) /\ not_null r = bool_decide (c = 0 \/ c ∈ s).
Proof.
  intros Hs Hp Hf Hc. eexists. split; [apply strchr_ok; try done; unfold NULL; lia|].
  unfold not_null, NULL. destruct (index c (s ++ [0])) as [i|] eqn:Ei.
  - destruct (Z.eqb_spec (p + Z.of_nat i) 0); [lia|]. symmetry. apply bool_decide_eq_true.
    assert (Hin : c ∈ s ++ [0]) by (apply index_is_Some; by eexists).
    apply elem_of_app in Hin as [?|?%list_elem_of_singleton]; tauto.
  - symmetry. apply bool_decide_eq_false. intros Hin. destruct (index_is_Some c (s ++ [0])) as [_ Hi].
    destruct Hi as [? Hi]; [|congruence]. rewrite elem_of_app, list_elem_of_singleton. tauto.
Qed.
