(* ===== verification/CStringProps.v ===== *)
(** * Properties of the string functions *)

From S2P Require Import Prelude ListModel Bytes CString CStringRep.

(** ** Copies *)

Lemma chars_bytes s : Forall (fun c => 0 < c < 256) s -> Forall is_byte s.
Proof. intros H. eapply Forall_impl; [exact H|]. unfold is_byte. simpl. lia. Qed.

Lemma memcpy_ok m dst src bs old :
  bytes_at m src bs -> bytes_at m dst old -> length old = length bs -> Forall is_byte bs ->
  dst + Z.of_nat (length bs) <= src \/ src + Z.of_nat (length bs) <= dst ->
  bs = [] \/ (dst <> NULL /\ src <> NULL) ->
  memcpy dst src (Z.of_nat (length bs)) m = Ok (dst, write m dst bs).
Proof.
  intros Hs Hd Hl Hb Ho Hn. unfold memcpy.
  mstep_by (apply assert_block; destruct Hn as [->|[? ?]]; [by right|by left]).
  mstep_by (apply assert_block; destruct Hn as [->|[? ?]]; [by right|by left]).
  rewrite Nat2Z.id. destruct bs as [|b bs]; [done|].
  mstep_by (apply (copy_forward_ok (b :: bs) m dst src old); try done; simpl in *; lia). done.
Qed.

(** [memmove] copies a block to any other place, however the two blocks
    overlap, and changes nothing else.  It returns the destination when that
    lies behind the source, and the address behind the copy when it lies
    before it. *)
Theorem memmove_correct m dst src bs old :
  bytes_at m src bs -> bytes_at m dst old -> length old = length bs -> Forall is_byte bs ->
  bs = [] \/ (dst <> NULL /\ src <> NULL) ->
  memmove dst src (Z.of_nat (length bs)) m
  = Ok (if dst <? src then dst + Z.of_nat (length bs) else dst, write m dst bs) /\
  bytes_at (write m dst bs) dst bs /\ same_but dst (Z.of_nat (length bs)) m (write m dst bs).
Proof.
  intros Hs Hd Hl Hb Hn. split_and!; [|apply write_at|intros a Ha; by apply write_out]. unfold memmove.
  mstep_by (apply assert_block; destruct Hn as [->|[? ?]]; [by right|by left]).
  mstep_by (apply assert_block; destruct Hn as [->|[? ?]]; [by right|by left]).
  rewrite Nat2Z.id. destruct (Z.ltb_spec dst src).
  - mstep_by (apply (copy_forward_ok bs m dst src old); try done; lia). done.
  - mstep_by (apply (copy_backward_ok bs m dst src old); try done; lia). done.
Qed.

(** Two overlapping moves of the bytes 1..6 at address 100. *)
Definition demo_bytes : bytes := write ∅ 100 [1; 2; 3; 4; 5; 6].

Lemma memmove_correct_witness :
  memmove 102 100 4 demo_bytes = Ok (102, write demo_bytes 102 [1; 2; 3; 4]) /\
  memmove 100 102 4 demo_bytes = Ok (104, write demo_bytes 100 [3; 4; 5; 6]).
Proof.
  split.
  - apply (memmove_correct demo_bytes 102 100 [1; 2; 3; 4] [3; 4; 5; 6]).
    + vm_compute. tauto.
    + vm_compute. tauto.
    + reflexivity.
    + repeat constructor; unfold is_byte; lia.
    + by right.
  - apply (memmove_correct demo_bytes 100 102 [3; 4; 5; 6] [1; 2; 3; 4]).
    + vm_compute. tauto.
    + vm_compute. tauto.
    + reflexivity.
    + repeat constructor; unfold is_byte; lia.
    + by right.
Defined.

(** ** Bounded copies of strings *)

(** The string that [strlcpy] and [strlcat] leave in SIZE bytes. *)
Definition clip (size : nat) (s : list Z) : list Z := take (size - 1) s.

Lemma clip_length size s :
  (0 < size)%nat -> (length (clip size s) < size)%nat /\
  Z.of_nat (length (clip size s))
  = (if Z.of_nat (length s) <? Z.of_nat size - 1 then Z.of_nat (length s) else Z.of_nat size - 1).
Proof. intros H. unfold clip. rewrite length_take. destruct (Z.ltb_spec (Z.of_nat (length s)) (Z.of_nat size - 1)); lia. Qed.

Lemma cstr_write m p s : Forall (fun c => 0 < c < 256) s -> cstr (write m p (s ++ [0])) p s.
Proof. intros H. split; [apply write_at|done]. Qed.

(** The common tail: copy a prefix of SRC to DST and terminate it. *)
Lemma copy_terminated m dst src s old size :
  cstr m src s -> bytes_at m dst old -> (0 < size)%nat -> length old = size -> dst <> NULL -> src <> NULL ->
  dst + Z.of_nat size <= src \/ src + Z.of_nat (S (length s)) <= dst ->
  (memcpy dst src (Z.of_nat (length (clip size s)));; store (dst + Z.of_nat (length (clip size s))) 0) m
  = Ok (tt, write m dst (clip size s ++ [0])).
Proof.
  intros [Hs Hc] Hd Hn Hl Hd0 Hs0 Ho. destruct (clip_length size s Hn) as [Hlt _].
  set (t := clip size s) in *. assert (Et : s = t ++ drop (size - 1) s) by (unfold t, clip; by rewrite take_drop).
  assert (Hts : (length t <= length s)%nat) by (rewrite Et, length_app; lia).
  rewrite Et, <-app_assoc in Hs. apply bytes_at_app in Hs as [Hs _].
  rewrite <-(take_drop (length t) old) in Hd. apply bytes_at_app in Hd as [Hd1 Hd2].
  assert (Hlt' : length (take (length t) old) = length t) by (rewrite length_take; lia). rewrite Hlt' in Hd2.
  mstep_by (apply (memcpy_ok m dst src t (take (length t) old)); try done;
    [apply chars_bytes; rewrite Et in Hc; by apply Forall_app in Hc as [? _]|lia|by right]).
  destruct (drop (length t) old) as [|o rest] eqn:Er; [apply (f_equal length) in Er; rewrite length_drop in Er; simpl in Er; lia|].
  destruct Hd2 as [Hd2 _]. erewrite store_ok; [|rewrite write_out by lia; exact Hd2|unfold is_byte; lia].
  by rewrite write_app.
Qed.

Lemma strlcpy_write m fuel dst src s buf size :
  cstr m src s -> bytes_at m dst buf -> length buf = size -> 0 < dst -> 0 < src -> (0 < size)%nat ->
  dst + Z.of_nat size <= src \/ src + Z.of_nat (S (length s)) <= dst -> (length s < fuel)%nat ->
  strlcpy fuel dst src (Z.of_nat size) m = Ok (Z.of_nat (length s), write m dst (clip size s ++ [0])).
Proof.
  intros Hs Hb Hl Hd0 Hs0 Hpos Ho Hf. assert (N1 : dst <> NULL) by (unfold NULL; lia). assert (N2 : src <> NULL) by (unfold NULL; lia).
  unfold strlcpy. rewrite (proj2 (Z.ltb_lt _ _)) by lia. destruct (clip_length size s) as [L1 L2]; [lia|].
  mstep (assert_ptr m dst N1). mstep (assert_ptr m src N2). mstep (strlen_ok _ _ _ _ Hs N2 Hf).
  rewrite <-L2. mstep_by (apply (copy_terminated m dst src s buf size); try done; lia). done.
Qed.

(** Bounded copies.  [strlcpy] into a buffer of SIZE bytes leaves the first
    [SIZE - 1] characters of the source, terminated, and [strlcat] leaves the
    first [SIZE - 1] characters of the concatenation; both return the length
    the result would have without the bound, and neither writes outside the
    buffer, whatever the length of the source. *)
Theorem strlcpy_strlcat_bounded m fuel dst src s buf size :
  cstr m src s -> bytes_at m dst buf -> length buf = size -> 0 < dst -> 0 < src ->
  dst + Z.of_nat size <= src \/ src + Z.of_nat (S (length s)) <= dst -> (length s < fuel)%nat ->
  (exists m', strlcpy fuel dst src (Z.of_nat size) m = Ok (Z.of_nat (length s), m') /\
     same_but dst (Z.of_nat size) m m' /\ ((0 < size)%nat -> cstr m' dst (clip size s))) /\
  (forall d, cstr m dst d -> (length d < size)%nat -> (length d < fuel)%nat ->
     Z.of_nat (length s + length d) < 4294967296 ->
     exists m', strlcat fuel dst src (Z.of_nat size) m = Ok (Z.of_nat (length s + length d), m') /\
       same_but dst (Z.of_nat size) m m' /\ cstr m' dst (clip size (d ++ s))).
Proof.
  intros Hs Hb Hl Hd0 Hs0 Ho Hf. assert (N1 : dst <> NULL) by (unfold NULL; lia). assert (N2 : src <> NULL) by (unfold NULL; lia).
  split.
  - destruct (decide (0 < size)%nat) as [Hpos|Hz].
    + exists (write m dst (clip size s ++ [0])). destruct (clip_length size s) as [L1 L2]; [lia|]. split_and!.
      * by apply (strlcpy_write m fuel dst src s buf size).
      * intros a Ha. apply write_out. rewrite length_app. simpl. lia.
      * intros _. apply cstr_write. unfold clip. apply Forall_take. apply Hs.
    + exists m. split_and!; [|done|lia]. unfold strlcpy. rewrite (proj2 (Z.ltb_ge _ _)) by lia. mstep (assert_ptr m dst N1). mstep (assert_ptr m src N2).
      by mstep (strlen_ok _ _ _ _ Hs N2 Hf).
  - intros d Hd Hds Hdf Hmax. unfold strlcat. set (n := (size - length d)%nat).
    assert (Hn : (0 < n)%nat) by lia. destruct (clip_length n s Hn) as [L1 L2].
    exists (write m (dst + Z.of_nat (length d)) (clip n s ++ [0])). split_and!.
    + mstep (assert_ptr m dst N1). mstep (assert_ptr m src N2). mstep (strlen_ok _ _ _ _ Hs N2 Hf).
      mstep (strlen_ok _ _ _ _ Hd N1 Hdf).
      destruct (Z.ltb_spec 0 (Z.of_nat size)), (Z.ltb_spec (Z.of_nat (length d)) (Z.of_nat size)); try lia. cbn [andb].
      replace (Z.of_nat size - Z.of_nat (length d)) with (Z.of_nat n) by lia. rewrite <-L2, Z.add_assoc.
      mstep_by (apply (copy_terminated m (dst + Z.of_nat (length d)) src s (drop (length d) buf) n); try done;
        [rewrite <-(take_drop (length d) buf) in Hb; apply bytes_at_app in Hb as [_ Hb]; revert Hb;
         rewrite length_take, Nat.min_l by lia; done|rewrite length_drop; lia|unfold NULL; lia|lia]).
      unfold mret, M_ret. do 2 f_equal. rewrite u32_small; lia.
    + intros a Ha. apply write_out. rewrite length_app. simpl. lia.
    + destruct Hd as [Hd Hdc]. apply bytes_at_app in Hd as [Hd _].
      assert (E : clip size (d ++ s) = d ++ clip n s).
      { unfold clip, n. rewrite take_app_ge by lia. f_equal. f_equal. lia. }
      rewrite E. split; [|apply Forall_app; split; [done|unfold clip; apply Forall_take, Hs]].
      rewrite <-app_assoc, bytes_at_app. split; [|apply write_at]. apply bytes_at_write; [lia|done].
Qed.

(** A buffer of five bytes at 200 that holds "ab", the source "wxyz" at 100. *)
Definition demo_strings : bytes := write (write ∅ 100 [119; 120; 121; 122; 0]) 200 [97; 98; 0; 7; 7].

Lemma strlcpy_strlcat_bounded_witness :
  (exists m', strlcpy 10 200 100 5 demo_strings = Ok (4, m') /\ cstr m' 200 [119; 120; 121; 122]) /\
  (exists m', strlcat 10 200 100 5 demo_strings = Ok (6, m') /\ cstr m' 200 [97; 98; 119; 120]).
Proof.
  assert (Hc : cstr demo_strings 100 [119; 120; 121; 122]) by (split; [vm_compute; tauto|repeat constructor]).
  assert (Hb : bytes_at demo_strings 200 [97; 98; 0; 7; 7]) by (vm_compute; tauto).
  destruct (strlcpy_strlcat_bounded demo_strings 10 200 100 _ _ 5 Hc Hb) as [(m1 & E1 & _ & C1) H2]; simpl; try lia.
  destruct (H2 [97; 98]) as (m2 & E2 & _ & C2); simpl; try lia.
  { split; [vm_compute; tauto|repeat constructor]. }
  split; [exists m1; split; [exact E1|apply C1; lia]|exists m2; split; [exact E2|exact C2]].
Defined.
