(* ===== verification/CStringTok.v ===== *)
(** * [strtok_r]: the tokens of a string *)

From S2P Require Import Prelude ListModel Bytes CString CStringRep.

(** ** The tokens of a sequence of characters *)

Definition flush (cur : list Z) : list (list Z) := match cur with [] => [] | _ => [cur] end.

(** The tokens of [cur ++ s], where [cur] is the token begun so far. *)
Fixpoint words_from (ds cur s : list Z) : list (list Z) :=
  match s with
  | [] => flush cur
  | c :: s => if bool_decide (c ∈ ds) then flush cur ++ words_from ds [] s else words_from ds (cur ++ [c]) s
  end.

Definition words (ds s : list Z) : list (list Z) := words_from ds [] s.

(** The idiom of the comment of [strtok_r]: every token, the first from S and
    the others from the saved position. *)
Fixpoint tokens (n fuel : nat) (s delimiters save : Z) : B (list Z) :=
  match n with
  | O => fail EFuel
  | S n =>
      r ← strtok_r fuel s delimiters save;
      if r.1 =? NULL then mret [] else
      ts ← tokens n fuel NULL delimiters r.2;
      mret (r.1 :: ts)
  end.

Lemma words_skip ds pre rest : Forall (fun c => c ∈ ds) pre -> words ds (pre ++ rest) = words ds rest.
Proof.
  unfold words. induction 1 as [|c pre Hc _ IH]; [done|]. cbn [app words_from].
  by rewrite bool_decide_eq_true_2.
Qed.

Lemma words_take ds tok rest cur :
  Forall (fun c => c ∉ ds) tok -> words_from ds cur (tok ++ rest) = words_from ds (cur ++ tok) rest.
Proof.
  intros H. revert cur. induction H as [|c tok Hc _ IH]; intros cur; [by rewrite app_nil_r|].
  cbn [app words_from]. rewrite bool_decide_eq_false_2 by done. by rewrite IH, <-app_assoc.
Qed.

(** The tokens are the characters that are not delimiters, cut into nonempty
    pieces. *)
Lemma words_from_spec ds cur s :
  concat (words_from ds cur s) = cur ++ List.filter (fun c => negb (bool_decide (c ∈ ds))) s /\
  Forall (fun w => w <> []) (words_from ds cur s).
Proof.
  assert (F : forall c, concat (flush c) = c /\ Forall (fun w => w <> []) (flush c)).
  { intros [|c cs]; cbn; [by split|]. rewrite app_nil_r. split; [done|by repeat constructor]. }
  revert cur. induction s as [|c s IH]; intros cur; cbn [words_from List.filter].
  - rewrite app_nil_r. apply F.
  - destruct (F cur) as [F1 F2]. case_bool_decide; cbn [negb].
    + destruct (IH []) as [I1 I2]. rewrite concat_app, F1, I1. split; [done|]. by apply Forall_app.
    + destruct (IH (cur ++ [c])) as [I1 I2]. rewrite I1, <-app_assoc. by split.
Qed.

(** Splitting at the first character without a property. *)
Lemma split_at (P : Z -> Prop) `{!forall c, Decision (P c)} (s : list Z) :
  exists a b, s = a ++ b /\ Forall P a /\ match b with [] => True | c :: _ => ~ P c end.
Proof.
  induction s as [|c s (a & b & -> & Ha & Hb)]; [by exists [], []|]. destruct (decide (P c)).
  - exists (c :: a), b. split_and!; [done|by constructor|done].
  - by exists [], (c :: a ++ b).
Qed.

(** ** The loops *)

Section Tok.
Context (m : bytes) (d : Z) (ds : list Z) (fuel0 : nat).
Hypotheses (Hds : cstr m d ds) (Hd : 0 < d) (Hfd : (length ds < fuel0)%nat).

Lemma skip_delimiters_ok pre : forall p rest fuel,
  cstr m p (pre ++ rest) -> Forall (fun c => c ∈ ds) pre ->
  match rest with [] => True | c :: _ => ~ c ∈ ds end ->
  (length pre + fuel0 < fuel)%nat ->
  skip_delimiters fuel p d m
  = Ok (match rest with [] => None | _ => Some (p + Z.of_nat (length pre)) end, p + Z.of_nat (length pre), m).
Proof using All.
  induction pre as [|c pre IH]; intros p rest fuel Hs Hp Hr Hf; (destruct fuel as [|fuel]; [lia|]); cbn [skip_delimiters].
  - cbn [app length] in *. rewrite Z.add_0_r. destruct rest as [|c rest].
    + apply cstr_nil in Hs. mstep (load_ok _ _ _ Hs).
      destruct (strchr_in m d ds 0 (S fuel) Hds Hd) as (r & E & Hn); [lia|unfold is_byte; lia|].
      mstep E. rewrite Hn, bool_decide_eq_true_2 by tauto. by mstep (load_ok _ _ _ Hs).
    + apply cstr_cons in Hs as (H1 & H2 & _). mstep (load_ok _ _ _ H1).
      destruct (strchr_in m d ds c (S fuel) Hds Hd) as (r & E & Hn); [lia|unfold is_byte; lia|].
      mstep E. rewrite Hn, bool_decide_eq_false_2; [done|]. intros [->|?]; [lia|done].
  - cbn [app length] in *. apply cstr_cons in Hs as (H1 & H2 & H3). apply Forall_cons in Hp as [Hc Hp].
    mstep (load_ok _ _ _ H1). destruct (strchr_in m d ds c (S fuel) Hds Hd) as (r & E & Hn); [lia|unfold is_byte; lia|].
    mstep E. rewrite Hn, bool_decide_eq_true_2 by tauto. mstep (load_ok _ _ _ H1).
    destruct (Z.eqb_spec c 0); [lia|]. rewrite (IH (p + 1) rest fuel H3 Hp Hr) by lia.
    replace (p + 1 + Z.of_nat (length pre)) with (p + Z.of_nat (S (length pre))) by lia. done.
Qed.

Lemma skip_token_ok tok : forall p rest fuel,
  cstr m p (tok ++ rest) -> Forall (fun c => c ∉ ds) tok ->
  match rest with [] => True | c :: _ => c ∈ ds end ->
  (length tok + fuel0 < fuel)%nat ->
  skip_token fuel p d m = Ok (p + Z.of_nat (length tok), m).
Proof using All.
  induction tok as [|c tok IH]; intros p rest fuel Hs Hp Hr Hf; (destruct fuel as [|fuel]; [lia|]); cbn [skip_token].
  - cbn [app length] in *. rewrite Z.add_0_r.
    assert (exists x, m !! p = Some x /\ is_byte x /\ (x = 0 \/ x ∈ ds)) as (x & Hx & Hxb & Hxd).
    { destruct rest as [|c rest]; [apply cstr_nil in Hs; exists 0; unfold is_byte; split_and!; (done || lia || tauto)|].
      apply cstr_cons in Hs as (H1 & H2 & _). exists c. unfold is_byte. split_and!; (done || lia || tauto). }
    mstep (load_ok _ _ _ Hx). destruct (strchr_in m d ds x (S fuel) Hds Hd) as (r & E & Hn); [lia|done|].
    mstep E. by rewrite Hn, bool_decide_eq_true_2.
  - cbn [app length] in *. apply cstr_cons in Hs as (H1 & H2 & H3). apply Forall_cons in Hp as [Hc Hp].
    mstep (load_ok _ _ _ H1). destruct (strchr_in m d ds c (S fuel) Hds Hd) as (r & E & Hn); [lia|unfold is_byte; lia|].
    mstep E. rewrite Hn, bool_decide_eq_false_2 by (intros [->|?]; [lia|done]).
    rewrite (IH (p + 1) rest fuel H3 Hp Hr) by lia. do 2 f_equal. lia.
Qed.

(** One call, from the position [q] of the rest [s] of the string. *)
Lemma strtok_r_ok q s fuel a save :
  (if a =? NULL then save else a) = q -> 0 < q -> cstr m q s -> (length s + fuel0 < fuel)%nat ->
  match words ds s with
  | [] => exists r, strtok_r fuel a d save m = Ok ((NULL, r), m)
  | w :: ws => exists t r s' m', strtok_r fuel a d save m = Ok ((t, r), m') /\
      cstr m' t w /\ cstr m' r s' /\ words ds s' = ws /\ q <= t /\
      (t + Z.of_nat (length w) < r \/ s' = []) /\ t <= r /\
      r + Z.of_nat (length s') = q + Z.of_nat (length s) /\ same_but q (Z.of_nat (length s)) m m'
  end.
Proof using All.
  intros Ea Hq Hs Hf. unfold strtok_r. rewrite Ea.
  assert (N1 : d <> NULL) by (unfold NULL; lia). assert (N2 : q <> NULL) by (unfold NULL; lia).
  destruct (split_at (fun c => c ∈ ds) s) as (pre & rest & -> & Hpre & Hrest).
  rewrite words_skip by done. rewrite length_app in *.
  pose proof (skip_delimiters_ok pre q rest fuel Hs Hpre Hrest ltac:(lia)) as Esk.
  apply cstr_app in Hs as (_ & Hs & _). set (t := q + Z.of_nat (length pre)) in *.
  destruct rest as [|c rest].
  { exists t. mstep (assert_ptr m d N1). mstep (assert_ptr m q N2). by mstep Esk. }
  destruct (split_at (fun c => c ∉ ds) (c :: rest)) as (tok & rest' & Er & Htok & Hrest').
  rewrite Er in *. unfold words. rewrite words_take by done. cbn [app].
  destruct tok as [|c' tok]; [simpl in Er; subst rest'; tauto|]. set (w := c' :: tok) in *.
  assert (Hrest2 : match rest' with [] => True | c :: _ => c ∈ ds end).
  { destruct rest' as [|e rest']; [done|]. destruct (decide (e ∈ ds)); tauto. }
  rewrite length_app in *. pose proof (skip_token_ok w t rest' fuel Hs Htok Hrest2 ltac:(lia)) as Etk.
  apply cstr_app in Hs as (Hw & Hs & Hwc). set (e := t + Z.of_nat (length w)) in *.
  destruct rest' as [|x rest']; cbn [words_from].
  - exists t, e, [], m. cbn [flush]. unfold w at 1. cbn [flush]. split_and!; try done.
    + mstep (assert_ptr m d N1). mstep (assert_ptr m q N2). mstep Esk. mstep Etk.
      apply cstr_nil in Hs. by mstep (load_ok _ _ _ Hs).
    + apply cstr_nil in Hs. split; [|done]. rewrite bytes_at_app. done.
    + lia.
    + by right.
    + lia.
    + cbn [length]. lia.
  - rewrite bool_decide_eq_true_2 by done. unfold w at 1. cbn [flush app]. fold w.
    apply cstr_cons in Hs as (H1 & H2 & H3).
    exists t, (e + 1), rest', (<[e := 0]> m). split_and!; try done.
    + mstep (assert_ptr m d N1). mstep (assert_ptr m q N2). mstep Esk. mstep Etk. mstep (load_ok _ _ _ H1).
      destruct (Z.eqb_spec x 0); [lia|]. cbn [negb]. by mstep (store_ok _ _ _ 0 H1 ltac:(unfold is_byte; lia)).
    + split; [|done]. rewrite bytes_at_app. split.
      * eapply bytes_at_agree; [|exact Hw]. intros b Hb. apply lookup_insert_ne. lia.
      * split; [by rewrite lookup_insert_eq|done].
    + eapply cstr_agree; [|exact H3]. intros b Hb. apply lookup_insert_ne. lia.
    + lia.
    + left. lia.
    + lia.
    + cbn [length]. lia.
    + intros b Hb. apply lookup_insert_ne. cbn [length] in Hb. lia.
Qed.

End Tok.

(** ** The loop over the tokens *)

Lemma tokens_ok d ds fuel0 ws : forall n fuel m q s a save,
  cstr m d ds -> 0 < d -> (length ds < fuel0)%nat ->
  (if a =? NULL then save else a) = q -> 0 < q -> cstr m q s -> words ds s = ws ->
  d + Z.of_nat (length ds) < q \/ q + Z.of_nat (length s) <= d ->
  (length s + fuel0 < fuel)%nat -> (length ws < n)%nat ->
  exists ts m', tokens n fuel a d save m = Ok (ts, m') /\ Forall2 (cstr m') ts ws /\
    Forall (fun t => q <= t <= q + Z.of_nat (length s)) ts /\ same_but q (Z.of_nat (length s)) m m'.
Proof.
  induction ws as [|w ws IH]; intros n fuel m q s a save Hds Hd Hfd Ea Hq Hs Hw Hdisj Hf Hn;
    (destruct n as [|n]; [simpl in Hn; lia|]); cbn [tokens];
    pose proof (strtok_r_ok m d ds fuel0 Hds Hd Hfd q s fuel a save Ea Hq Hs Hf) as H; rewrite Hw in H.
  - destruct H as [r E]. mstep E. by exists [], m.
  - destruct H as (t & r & s' & m1 & E & Hc & Hs' & Hw' & Ht & Htr & Htr' & Hlen & Hb). mstep E. cbn [fst snd].
    destruct (Z.eqb_spec t NULL) as [Ht0|_]; [unfold NULL in Ht0; lia|].
    assert (Hds' : cstr m1 d ds) by (eapply cstr_agree; [|exact Hds]; intros b Hb'; apply Hb; lia).
    destruct (IH n fuel m1 r s' NULL r) as (ts & m2 & E2 & F2 & R2 & B2); try done; try (simpl in Hn; lia).
    exists (t :: ts), m2. split_and!.
    + by mstep E2.
    + constructor; [|done]. eapply cstr_agree; [|exact Hc]. intros b Hb'. apply B2.
      destruct Htr as [Htr| ->]; simpl; lia.
    + constructor; [lia|]. eapply Forall_impl; [exact R2|]. simpl. lia.
    + intros b Hb'. rewrite B2 by lia. by apply Hb.
Qed.

(** C34: Tokenizing a string with [strtok_r] as its comment shows returns
    pointers to the tokens of the string, in order: the maximal nonempty
    pieces without a delimiter, each left null-terminated in the string's own
    memory.  Nothing outside the string is written, and the loop ends. *)
Theorem strtok_r_tokens m p s d ds fuel n save :
  cstr m p s -> cstr m d ds -> 0 < p -> 0 < d ->
  d + Z.of_nat (length ds) < p \/ p + Z.of_nat (length s) <= d ->
  (length s + S (length ds) < fuel)%nat -> (length (words ds s) < n)%nat ->
  (exists ts m', tokens n fuel p d save m = Ok (ts, m') /\ Forall2 (cstr m') ts (words ds s) /\
     same_but p (Z.of_nat (length s)) m m') /\
  concat (words ds s) = List.filter (fun c => negb (bool_decide (c ∈ ds))) s /\
  Forall (fun w => w <> []) (words ds s).
Proof.
  intros Hs Hds Hp Hd Hdisj Hf Hn. split; [|apply words_from_spec].
  destruct (tokens_ok d ds (S (length ds)) (words ds s) n fuel m p s p save) as (ts & m' & E & F & _ & Bt); try done; try lia.
  - destruct (Z.eqb_spec p NULL) as [E|_]; [unfold NULL in E; lia|done].
  - by exists ts, m'.
Qed.

(** The tokens of " ab  c" with the delimiter " ". *)
Definition demo_line : bytes := write (write ∅ 100 [32; 97; 98; 32; 32; 99; 0]) 200 [32; 0].

Lemma strtok_r_tokens_witness :
  exists ts m', tokens 5 20 100 200 7 demo_line = Ok (ts, m') /\ Forall2 (cstr m') ts [[97; 98]; [99]] /\
    same_but 100 6 demo_line m'.
Proof.
  apply (strtok_r_tokens demo_line 100 [32; 97; 98; 32; 32; 99] 200 [32] 20 5 7).
  - split; [vm_compute; tauto|repeat constructor].
  - split; [vm_compute; tauto|repeat constructor].
  - reflexivity.
  - reflexivity.
  - simpl. lia.
  - simpl. lia.
  - vm_compute. lia.
Defined.
