(* ===== verification/StdLib.v ===== *)
(** * [lib/stdlib.c] and [lib/ctype.h]: numbers, sorting and searching

    An array is a block of bytes in the memory of [CString]; the callback
    COMPARE, with its [aux], is a function of two pointers that may read
    memory.  [fuel] bounds the loops that are not counted. *)

From S2P Require Import Prelude ListModel CString.

(** ** Characters and numbers *)

Definition isspace (c : Z) : bool :=
  (c =? 32) || (c =? 12) || (c =? 10) || (c =? 13) || (c =? 9) || (c =? 11).
Definition isdigit (c : Z) : bool := (48 <=? c) && (c <=? 57).

Fixpoint skip_space (fuel : nat) (s : Z) : B Z :=
  match fuel with
  | O => fail EFuel
  | S fuel => c ← load s; if isspace c then skip_space fuel (s + 1) else mret s
  end.

(** The value is built as a negative [int]. *)
Fixpoint atoi_digits (fuel : nat) (s value : Z) : B Z :=
  match fuel with
  | O => fail EFuel
  | S fuel =>
      c ← load s;
      if isdigit c then atoi_digits fuel (s + 1) (s32 (value * 10 - (c - 48))) else mret value
  end.

Definition atoi (fuel : nat) (s : Z) : B Z :=
  ASSERT (not_null s);;
  s ← skip_space fuel s;
  c ← load s;
  let negative := c =? 45 in
  let s := if (c =? 43) || (c =? 45) then s + 1 else s in
  value ← atoi_digits fuel s 0;
  mret (if negb negative then s32 (- value) else value).

(** ** Heap sort *)

Section Sort.
Context (compare : Z -> Z -> B Z).

(** The address of the element with the 1-based index IDX. *)
Definition elem_ptr (array idx size : Z) : Z := array + u32 ((idx - 1) * size).

Fixpoint swap_bytes (n : nat) (a b : Z) : B unit :=
  match n with
  | O => mret tt
  | S n =>
      t ← load a;
      y ← load b;
      store a y;; store b t;;
      swap_bytes n (a + 1) (b + 1)
  end.

Definition do_swap (array a_idx b_idx size : Z) : B unit :=
  swap_bytes (Z.to_nat size) (elem_ptr array a_idx size) (elem_ptr array b_idx size).

Definition do_compare (array a_idx b_idx size : Z) : B Z :=
  compare (elem_ptr array a_idx size) (elem_ptr array b_idx size).

Fixpoint heapify (fuel : nat) (array i cnt size : Z) : B unit :=
  match fuel with
  | O => fail EFuel
  | S fuel =>
      let left := u32 (2 * i) in
      let right := u32 (2 * i + 1) in
      max ← (if left <=? cnt then
               c ← do_compare array left i size; mret (if 0 <? c then left else i)
             else mret i);
      max ← (if right <=? cnt then
               c ← do_compare array right max size; mret (if 0 <? c then right else max)
             else mret max);
      if max =? i then mret tt else
      do_swap array i max size;;
      heapify fuel array max cnt size
  end.

(** [for (i = cnt / 2; i > 0; i--)]: the index I as a natural number. *)
Fixpoint build_heap (fuel i : nat) (array cnt size : Z) : B unit :=
  match i with
  | O => mret tt
  | S i' => heapify fuel array (Z.of_nat i) cnt size;; build_heap fuel i' array cnt size
  end.

(** [for (i = cnt; i > 1; i--)] *)
Fixpoint sort_heap (fuel i : nat) (array size : Z) : B unit :=
  match i with
  | O | S O => mret tt
  | S i' =>
      do_swap array 1 (Z.of_nat i) size;;
      heapify fuel array 1 (Z.of_nat i - 1) size;;
      sort_heap fuel i' array size
  end.

Definition sort (fuel : nat) (array cnt size : Z) : B unit :=
  ASSERT (not_null array || (cnt =? 0));;
  ASSERT (0 <? size);;
  build_heap fuel (Z.to_nat (cnt / 2)) array cnt size;;
  sort_heap fuel (Z.to_nat cnt) array size.

(** ** Binary search *)

Fixpoint search_loop (fuel : nat) (key first last size : Z) : B Z :=
  match fuel with
  | O => fail EFuel
  | S fuel =>
      if first <? last then
        let range := (last - first) / size in
        let middle := first + (range / 2) * size in
        c ← compare key middle;
        if c <? 0 then search_loop fuel key first middle size
        else if 0 <? c then search_loop fuel key (middle + size) last size
        else mret middle
      else mret NULL
  end.

Definition binary_search (fuel : nat) (key array cnt size : Z) : B Z :=
  search_loop fuel key array (array + u32 (size * cnt)) size.

End Sort.

(** [compare_thunk] calls the function AUX points to. *)
Definition compare_thunk (aux : Z -> Z -> B Z) (a b : Z) : B Z := aux a b.
Definition qsort (fuel : nat) (array cnt size : Z) (compare : Z -> Z -> B Z) : B unit :=
  sort (compare_thunk compare) fuel array cnt size.
Definition bsearch (fuel : nat) (key array cnt size : Z) (compare : Z -> Z -> B Z) : B Z :=
  binary_search (compare_thunk compare) fuel key array cnt size.
