(* ===== verification/SortThms.v ===== *)
(** * Heap sort and binary search on an array in memory *)

From Stdlib Require Import Sorted.
From S2P Require Import Prelude ListModel Bytes CString CStringRep StdLib.

(** ** Binary heaps over a sequence

    The order-theoretic part of heap sort: what one step of [heapify] does to
    the heap condition.  Positions are 1-based, as in the source. *)

(** What the comment of [sort] asks of COMPARE. *)
Class CmpLaws {A : Type} (cmp : A -> A -> Z) : Prop := {
  cmp_opp a b : 0 < cmp a b <-> cmp b a < 0;
  cmp_trans a b c : cmp a b <= 0 -> cmp b c <= 0 -> cmp a c <= 0
}.

Section Heap.
Context {A : Type} `{!Inhabited A} (cmp : A -> A -> Z) `{Hcmp : !CmpLaws cmp}.
Implicit Types (xs : list A) (i j c n : nat).

Definition le (a b : A) : Prop := cmp a b <= 0.

Lemma le_total a b : le a b \/ le b a.
Proof using Hcmp. unfold le. destruct (cmp_opp a b). lia. Qed.

Lemma le_refl a : le a a.
Proof using Hcmp. by destruct (le_total a a). Qed.

Lemma le_of_not a b : ~ 0 < cmp a b -> le a b.
Proof using Hcmp. unfold le. lia. Qed.

Lemma le_of_gt a b : 0 < cmp a b -> le b a.
Proof using Hcmp. unfold le. intros H%cmp_opp. lia. Qed.

Lemma le_trans a b (d : A) : le a b -> le b d -> le a d.
Proof using Hcmp. apply cmp_trans. Qed.

(** ** Positions *)

Definition el xs j : A := xs !!! (j - 1)%nat.

Definition exchange xs i j : list A := <[(i - 1)%nat := el xs j]> (<[(j - 1)%nat := el xs i]> xs).

Definition child c j : Prop := c = (2 * j)%nat \/ c = (2 * j + 1)%nat.

Lemma el_swap xs i j k :
  (1 <= i <= length xs)%nat -> (1 <= j <= length xs)%nat -> (1 <= k)%nat ->
  el (exchange xs i j) k = if decide (k = i) then el xs j else if decide (k = j) then el xs i else el xs k.
Proof using.
  intros Hi Hj Hk. unfold exchange, el at 1. destruct (decide (k = i)) as [->|Hne].
  - apply list_lookup_total_insert_eq. rewrite length_insert. lia.
  - rewrite list_lookup_total_insert_ne by lia. destruct (decide (k = j)) as [->|Hne'].
    + apply list_lookup_total_insert_eq. lia.
    + by rewrite list_lookup_total_insert_ne by lia.
Qed.

Lemma length_swap xs i j : length (exchange xs i j) = length xs.
Proof using. unfold exchange. by rewrite !length_insert. Qed.

Lemma swap_perm xs i j :
  (1 <= i <= length xs)%nat -> (1 <= j <= length xs)%nat -> i <> j -> exchange xs i j ≡ₚ xs.
Proof using.
  intros Hi Hj Hne. unfold exchange, el.
  destruct (lookup_lt_is_Some_2 xs (i - 1)) as [a Ha]; [lia|].
  destruct (lookup_lt_is_Some_2 xs (j - 1)) as [b Hb]; [lia|].
  rewrite !list_lookup_total_alt, Ha, Hb. simpl.
  symmetry. apply Permutation_inj. split; [by rewrite !length_insert|].
  exists (fun k => if decide (k = (i - 1)%nat) then (j - 1)%nat else if decide (k = (j - 1)%nat) then (i - 1)%nat else k). split.
  - intros x y. repeat case_decide; lia.
  - intros k. symmetry. repeat case_decide; subst.
    + rewrite list_lookup_insert_ne by lia. rewrite list_lookup_insert_eq by lia. done.
    + rewrite list_lookup_insert_eq by (rewrite length_insert; lia). done.
    + by rewrite !list_lookup_insert_ne by lia.
Qed.

(** ** The heap condition *)

(** The subtrees rooted at [i0] and behind it are heaps within the first [n]
    elements, except possibly at [i]. *)
Definition heap_but xs i0 n i : Prop :=
  forall j c, (i0 <= j)%nat -> j <> i -> child c j -> (c <= n)%nat -> le (el xs c) (el xs j).

Definition heap xs i0 n : Prop :=
  forall j c, (i0 <= j)%nat -> child c j -> (c <= n)%nat -> le (el xs c) (el xs j).

(** The children of [i] are not above the parent of [i]. *)
Definition below_parent xs i0 n i : Prop :=
  forall c, child c i -> (c <= n)%nat -> (i0 <= i / 2)%nat -> le (el xs c) (el xs (i / 2)).

Lemma parent_child j i : child i j -> (i / 2 = j)%nat.
Proof using.
  intros [->| ->]; [rewrite Nat.mul_comm, Nat.div_mul; lia|].
  rewrite Nat.add_comm, Nat.mul_comm, Nat.div_add; [done|lia].
Qed.

(** The element at [i] sinks below its larger child [k]. *)
Lemma sift_step xs i0 n i k :
  (1 <= i0)%nat -> (i0 <= i)%nat -> (n <= length xs)%nat -> (k <= n)%nat -> child k i ->
  heap_but xs i0 n i -> below_parent xs i0 n i ->
  le (el xs i) (el xs k) -> (forall c, child c i -> (c <= n)%nat -> le (el xs c) (el xs k)) ->
  heap_but (exchange xs i k) i0 n k /\ below_parent (exchange xs i k) i0 n k.
Proof using.
  intros H0 Hi Hn Hk Hki Hb Hp Hle Hmax.
  assert (Hik : (i < k)%nat) by (destruct Hki; lia).
  assert (El : forall j, (1 <= j)%nat -> el (exchange xs i k) j =
    if decide (j = i) then el xs k else if decide (j = k) then el xs i else el xs j) by (intros j Hj; apply el_swap; lia).
  split.
  - intros j c Hj Hne Hc Hcn. assert (Hc1 : (j < c)%nat) by (destruct Hc; lia).
    rewrite !El by lia. destruct (decide (j = i)) as [->|Hji].
    + rewrite decide_False by lia. destruct (decide (c = k)) as [->|]; [done|by apply Hmax].
    + rewrite (decide_False (P := j = k)) by done. destruct (decide (c = i)) as [->|Hci].
      * rewrite <-(parent_child _ _ Hc) in *. by apply Hp.
      * rewrite decide_False; [by apply Hb|]. intros ->. apply Hji.
        by rewrite <-(parent_child _ _ Hc), <-(parent_child _ _ Hki).
  - intros c Hc Hcn _. rewrite (parent_child _ _ Hki). assert (Hc1 : (k < c)%nat) by (destruct Hc; lia).
    rewrite !El by lia. rewrite (decide_False (P := c = i)), (decide_False (P := c = k)), (decide_True (P := i = i)) by lia.
    apply Hb; [lia|lia|done|done].
Qed.

Lemma sift_stop xs i0 n i :
  heap_but xs i0 n i -> (forall c, child c i -> (c <= n)%nat -> le (el xs c) (el xs i)) -> heap xs i0 n.
Proof using. intros Hb Hi j c Hj Hc Hn. destruct (decide (j = i)) as [->|]; [by apply Hi|by apply Hb]. Qed.

Lemma heap_leaves xs n i : (n < 2 * i)%nat -> heap xs i n.
Proof using. intros H j c Hj [->| ->] Hn; lia. Qed.

Lemma heap_root xs n : heap xs 1 n -> forall j, (1 <= j <= n)%nat -> le (el xs j) (el xs 1).
Proof using Hcmp.
  intros Hh j. induction (lt_wf j) as [j _ IH]. intros Hj. destruct (decide (j = 1%nat)) as [->|Hne]; [apply le_refl|].
  assert (Hc : child j (j / 2)).
  { unfold child. pose proof (Nat.div_mod_eq j 2). pose proof (Nat.mod_upper_bound j 2). lia. }
  assert (1 <= j / 2)%nat by (apply Nat.div_le_lower_bound; lia).
  assert (j / 2 < j)%nat by (apply Nat.div_lt; lia).
  eapply le_trans; [apply (Hh (j / 2)%nat j); [done|done|lia]|]. apply IH; lia.
Qed.

End Heap.

Lemma sorted_lookup {A} (R : A -> A -> Prop) (xs : list A) i j a b :
  StronglySorted R xs -> (i < j)%nat -> xs !! i = Some a -> xs !! j = Some b -> R a b.
Proof.
  intros Hs. revert i j. induction Hs as [|x xs Hs IH Hx]; intros i j Hij Ha Hb; [done|].
  destruct j as [|j]; [lia|]. destruct i as [|i]; [|apply (IH i j); [lia|done|done]].
  injection Ha as ->. rewrite Forall_forall in Hx. apply Hx. by apply (list_elem_of_lookup_2 _ j).
Qed.

Section Sort.
Context (compare : Z -> Z -> B Z) (cmp : list Z -> list Z -> Z) (base : Z) (size : nat).
Context `{Hcmp : !CmpLaws cmp}.
Hypothesis Hsize : (0 < size)%nat.

(** COMPARE computes [cmp] of the two elements it is given. *)
Definition compares : Prop := forall m p q a b,
  length a = size -> length b = size -> bytes_at m p a -> bytes_at m q b -> compare p q m = Ok (cmp a b, m).
Hypothesis Hcompare : compares.

(** The array at [base] has the elements [xs]. *)
Definition arr (m : bytes) (xs : list (list Z)) : Prop := forall i x, xs !! i = Some x ->
  length x = size /\ Forall is_byte x /\ bytes_at m (base + Z.of_nat (size * i)) x.

Definition fits (xs : list (list Z)) : Prop :=
  Z.of_nat (size * length xs) < 4294967296 /\ Z.of_nat (length xs) < 2147483648.

Implicit Types (xs : list (list Z)) (i j k n : nat).

Lemma arr_el m xs i :
  arr m xs -> (1 <= i <= length xs)%nat ->
  length (el xs i) = size /\ Forall is_byte (el xs i) /\ bytes_at m (base + Z.of_nat (size * (i - 1))) (el xs i).
Proof using All.
  intros Ha Hi. destruct (lookup_lt_is_Some_2 xs (i - 1)) as [x Hx]; [lia|].
  unfold el. rewrite list_lookup_total_alt, Hx. by apply Ha.
Qed.

Lemma elem_ptr_ok xs i :
  fits xs -> (1 <= i <= length xs)%nat -> elem_ptr base (Z.of_nat i) (Z.of_nat size) = base + Z.of_nat (size * (i - 1)).
Proof using All.
  intros [Hf _] Hi. unfold elem_ptr. rewrite u32_small; [f_equal; nia|]. nia.
Qed.

Lemma do_compare_ok m xs i j :
  arr m xs -> fits xs -> (1 <= i <= length xs)%nat -> (1 <= j <= length xs)%nat ->
  do_compare compare base (Z.of_nat i) (Z.of_nat j) (Z.of_nat size) m = Ok (cmp (el xs i) (el xs j), m).
Proof using All.
  intros Ha Hf Hi Hj. unfold do_compare. rewrite !(elem_ptr_ok xs) by done.
  destruct (arr_el _ _ _ Ha Hi) as (L1 & _ & B1), (arr_el _ _ _ Ha Hj) as (L2 & _ & B2). by apply Hcompare.
Qed.

Lemma swap_bytes_ok a : forall b m p q,
  bytes_at m p a -> bytes_at m q b -> length a = length b -> Forall is_byte a -> Forall is_byte b ->
  p + Z.of_nat (length a) <= q \/ q + Z.of_nat (length a) <= p ->
  swap_bytes (length a) p q m = Ok (tt, write (write m p b) q a).
Proof using All.
  induction a as [|x a IH]; intros [|y b] m p q Ha Hb Hl Fa Fb Hd; try done.
  cbn [bytes_at length swap_bytes write] in *. destruct Ha as [Ha1 Ha2], Hb as [Hb1 Hb2].
  apply Forall_cons in Fa as [Fa1 Fa2], Fb as [Fb1 Fb2].
  mstep (load_ok _ _ _ Ha1). mstep (load_ok _ _ _ Hb1). mstep (store_ok _ _ _ _ Ha1 Fb1).
  mstep_by (eapply store_ok; [rewrite lookup_insert_ne by lia; exact Hb1|done]).
  rewrite (IH b); try done; try lia.
  - do 3 f_equal. rewrite write_insert by lia. done.
  - eapply bytes_at_agree; [|exact Ha2]. intros c Hc. by rewrite !lookup_insert_ne by lia.
  - eapply bytes_at_agree; [|exact Hb2]. intros c Hc. by rewrite !lookup_insert_ne by lia.
Qed.

(** [n] elements from the start of the array are all that may change. *)
Definition only_array n (m m' : bytes) : Prop := same_but base (Z.of_nat (size * n)) m m'.

Lemma only_array_trans n m1 m2 m3 : only_array n m1 m2 -> only_array n m2 m3 -> only_array n m1 m3.
Proof using All. intros H1 H2 a Ha. by rewrite H2, H1. Qed.

Lemma do_swap_ok m xs i j :
  arr m xs -> fits xs -> (1 <= i <= length xs)%nat -> (1 <= j <= length xs)%nat -> i <> j ->
  exists m', do_swap base (Z.of_nat i) (Z.of_nat j) (Z.of_nat size) m = Ok (tt, m') /\
    arr m' (exchange xs i j) /\ only_array (length xs) m m'.
Proof using All.
  intros Ha Hf Hi Hj Hne. unfold do_swap. rewrite !(elem_ptr_ok xs) by done. rewrite Nat2Z.id.
  destruct (arr_el _ _ _ Ha Hi) as (L1 & F1 & B1), (arr_el _ _ _ Ha Hj) as (L2 & F2 & B2).
  eexists. split_and!.
  - pose proof (swap_bytes_ok (el xs i) (el xs j) m _ _ B1 B2) as E. rewrite L1 in E. apply E; [by rewrite L2|done|done|].
    destruct (Nat.lt_total i j) as [?|[?|?]]; [left; nia|lia|right; nia].
  - intros k x Hx. unfold exchange in Hx. rewrite list_lookup_insert_Some in Hx.
    destruct Hx as [(<- & <- & _)|[Hki Hx]].
    + split_and!; [done|done|]. apply bytes_at_write; [rewrite L1, L2; destruct (Nat.lt_total i j) as [?|[?|?]]; nia|].
      apply write_at.
    + rewrite list_lookup_insert_Some in Hx. destruct Hx as [(<- & <- & _)|[Hkj Hx]].
      * split_and!; [done|done|]. apply write_at.
      * destruct (Ha _ _ Hx) as (L & F & Bk). split_and!; [done|done|].
        apply bytes_at_write; [|apply bytes_at_write; [|done]].
        -- rewrite L, L1. destruct (Nat.lt_total k (j - 1)) as [?|[?|?]]; [left; nia|lia|right; nia].
        -- rewrite L, L2. destruct (Nat.lt_total k (i - 1)) as [?|[?|?]]; [left; nia|lia|right; nia].
  - intros a Hout. rewrite !write_out; [done| |]; rewrite ?L1, ?L2; nia.
Qed.

(** ** Floating down *)

(** The child that [heapify] selects. *)
Lemma select_ok m xs i n :
  arr m xs -> fits xs -> (1 <= i)%nat -> (n <= length xs)%nat -> (i <= length xs)%nat ->
  exists k, (max ← (if u32 (2 * Z.of_nat i) <=? Z.of_nat n then
               c ← do_compare compare base (u32 (2 * Z.of_nat i)) (Z.of_nat i) (Z.of_nat size);
               mret (if 0 <? c then u32 (2 * Z.of_nat i) else Z.of_nat i)
             else mret (Z.of_nat i));
      if u32 (2 * Z.of_nat i + 1) <=? Z.of_nat n then
               c ← do_compare compare base (u32 (2 * Z.of_nat i + 1)) max (Z.of_nat size);
               mret (if 0 <? c then u32 (2 * Z.of_nat i + 1) else max)
             else mret max) m = Ok (Z.of_nat k, m) /\
    (k = i \/ (child k i /\ (k <= n)%nat)) /\ le cmp (el xs i) (el xs k) /\
    (forall c, child c i -> (c <= n)%nat -> le cmp (el xs c) (el xs k)).
Proof using All.
  intros Ha Hf H1 Hn Hi. destruct Hf as [Hf1 Hf2].
  replace (u32 (2 * Z.of_nat i)) with (Z.of_nat (2 * i)) by (rewrite u32_small; lia).
  replace (u32 (2 * Z.of_nat i + 1)) with (Z.of_nat (2 * i + 1)) by (rewrite u32_small; lia).
  assert (exists k, (if Z.of_nat (2 * i) <=? Z.of_nat n then
       c ← do_compare compare base (Z.of_nat (2 * i)) (Z.of_nat i) (Z.of_nat size);
       mret (if 0 <? c then Z.of_nat (2 * i) else Z.of_nat i) else mret (Z.of_nat i)) m = Ok (Z.of_nat k, m) /\
     (k = i \/ (k = (2 * i)%nat /\ (k <= n)%nat)) /\ le cmp (el xs i) (el xs k) /\
     ((2 * i <= n)%nat -> le cmp (el xs (2 * i)) (el xs k))) as (k & E & Hk & Lk & Ck).
  { destruct (Z.leb_spec (Z.of_nat (2 * i)) (Z.of_nat n)).
    - mstep (do_compare_ok m xs (2 * i) i Ha (conj Hf1 Hf2) ltac:(lia) ltac:(lia)).
      destruct (Z.ltb_spec 0 (cmp (el xs (2 * i)) (el xs i))) as [Hc|Hc].
      + exists (2 * i)%nat. split_and!; [done|right; lia|by apply le_of_gt|intros _; by apply le_refl].
      + exists i. split_and!; [done|by left|by apply le_refl|intros _; exact Hc].
    - exists i. split_and!; [done|by left|by apply le_refl|lia]. }
  mstep E. destruct (Z.leb_spec (Z.of_nat (2 * i + 1)) (Z.of_nat n)).
  - mstep (do_compare_ok m xs (2 * i + 1) k Ha (conj Hf1 Hf2) ltac:(lia) ltac:(lia)).
    destruct (Z.ltb_spec 0 (cmp (el xs (2 * i + 1)) (el xs k))) as [Hc|Hc].
    + apply le_of_gt in Hc; [|done]. exists (2 * i + 1)%nat. split_and!; [done|right; unfold child; lia|by apply (le_trans cmp _ (el xs k))|].
      intros c [->| ->] Hcn; [apply (le_trans cmp _ (el xs k)); [apply Ck; lia|done]|by apply le_refl].
    + exists k. split_and!; [done|unfold child; lia|done|]. intros c [->| ->] Hcn; [by apply Ck|exact Hc].
  - exists k. split_and!; [done|unfold child; lia|done|]. intros c [->| ->] Hcn; [by apply Ck|lia].
Qed.

Lemma heapify_ok i0 n : forall fuel i m xs,
  arr m xs -> fits xs -> (1 <= i0 <= i)%nat -> (n <= length xs)%nat -> (i <= length xs)%nat ->
  (0 < fuel)%nat -> (n < i + fuel)%nat ->
  heap_but cmp xs i0 n i -> below_parent cmp xs i0 n i ->
  exists m' xs', heapify compare fuel base (Z.of_nat i) (Z.of_nat n) (Z.of_nat size) m = Ok (tt, m') /\
    arr m' xs' /\ xs' ≡ₚ xs /\ heap cmp xs' i0 n /\ drop n xs' = drop n xs /\ only_array (length xs) m m'.
Proof using All.
  induction fuel as [|fuel IH]; intros i m xs Ha Hf Hi0 Hn Hi Hfu0 Hfu Hb Hp; [lia|].
  destruct (select_ok m xs i n Ha Hf) as (k & E & Hk & Lk & Ck); [lia|done|done|].
  cbn [heapify]. rewrite <-bind_assoc. mstep E.
  destruct (Z.eqb_spec (Z.of_nat k) (Z.of_nat i)) as [Hki|Hki].
  { assert (k = i) as -> by lia. exists m, xs. split_and!; [done..|by eapply sift_stop|done|done]. }
  destruct Hk as [->|[Hc Hkn]]; [lia|]. assert (i < k)%nat by (destruct Hc; lia).
  destruct (do_swap_ok m xs i k Ha Hf) as (m1 & E1 & A1 & O1); [lia|lia|lia|]. mstep E1.
  destruct (sift_step cmp xs i0 n i k) as [Hb1 Hp1]; try done; try lia.
  assert (P1 : exchange xs i k ≡ₚ xs) by (apply swap_perm; lia).
  destruct (IH k m1 (exchange xs i k)) as (m2 & xs2 & E2 & A2 & P2 & H2 & D2 & O2); rewrite ?length_swap in *; try done; try lia.
  { unfold fits in *. by rewrite length_swap. }
  exists m2, xs2. split_and!; [done|done|by rewrite P2|done| |by eapply only_array_trans].
  rewrite D2. unfold exchange. by rewrite !drop_insert_lt by lia.
Qed.

(** ** Sorting *)

Lemma fits_perm xs ys : xs ≡ₚ ys -> fits xs -> fits ys.
Proof using All. unfold fits. by intros ->. Qed.

Lemma build_heap_ok fuel i : forall m xs,
  arr m xs -> fits xs -> heap cmp xs (S i) (length xs) -> (i <= length xs)%nat -> (length xs < fuel)%nat ->
  exists m' xs', build_heap compare fuel i base (Z.of_nat (length xs)) (Z.of_nat size) m = Ok (tt, m') /\
    arr m' xs' /\ xs' ≡ₚ xs /\ heap cmp xs' 1 (length xs) /\ only_array (length xs) m m'.
Proof using All.
  induction i as [|i IH]; intros m xs Ha Hf Hh Hi Hfu; cbn [build_heap]; [by exists m, xs|].
  destruct (heapify_ok (S i) (length xs) fuel (S i) m xs) as (m1 & xs1 & E1 & A1 & P1 & H1 & _ & O1); try done; try lia.
  { intros j c Hj Hne Hc Hcn. apply Hh; [lia|done|done]. }
  { intros c Hc Hcn Hp. assert (S i / 2 < S i)%nat by (apply Nat.div_lt; lia). lia. }
  mstep E1. pose proof (Permutation_length P1) as L1.
  destruct (IH m1 xs1) as (m2 & xs2 & E2 & A2 & P2 & H2 & O2); rewrite ?L1 in *; try done; try lia.
  { by apply (fits_perm xs). }
  exists m2, xs2. split_and!; [done|done|by rewrite P2|done|by eapply only_array_trans].
Qed.

(** The last elements are in place and not below the others. *)
Definition done_from xs n : Prop :=
  StronglySorted (le cmp) (drop n xs) /\ forall a b, a ∈ take n xs -> b ∈ drop n xs -> le cmp a b.

(** Moving the root of a heap of [S n] elements behind the others. *)
Lemma root_in_place xs n :
  (1 <= n)%nat -> (S n <= length xs)%nat -> heap cmp xs 1 (S n) -> done_from xs (S n) -> done_from (exchange xs 1 (S n)) n.
Proof using All.
  intros Hn Hl Hh [Hs Hle]. set (ys := exchange xs 1 (S n)).
  assert (Ly : length ys = length xs) by apply length_swap.
  assert (Pp : ys ≡ₚ xs) by (apply swap_perm; lia).
  assert (El : el ys (S n) = el xs 1).
  { unfold ys. rewrite el_swap by lia. rewrite decide_False by lia. by rewrite decide_True. }
  assert (D : drop (S n) ys = drop (S n) xs) by (unfold ys, exchange; by rewrite !drop_insert_lt by lia).
  assert (Dn : drop n ys = el xs 1 :: drop (S n) xs).
  { rewrite <-D, <-El. destruct (lookup_lt_is_Some_2 ys n) as [y Hy]; [lia|].
    rewrite (drop_S _ _ _ Hy). f_equal. unfold el. replace (S n - 1)%nat with n by lia. by rewrite list_lookup_total_alt, Hy. }
  assert (T : take (S n) ys ≡ₚ take (S n) xs).
  { apply (Permutation_app_inv_r (drop (S n) xs)). rewrite <-D at 1. by rewrite !take_drop. }
  assert (Hroot : forall a, a ∈ take (S n) xs -> le cmp a (el xs 1)).
  { intros a Ha. apply list_elem_of_lookup in Ha as [k Hk]. apply lookup_take_Some in Hk as [Hk Hlt].
    assert (a = el xs (S k)) as -> by (unfold el; replace (S k - 1)%nat with k by lia; by rewrite list_lookup_total_alt, Hk).
    apply (heap_root cmp xs (S n)); [done|lia]. }
  assert (H1 : el xs 1 ∈ take (S n) xs).
  { destruct (lookup_lt_is_Some_2 xs 0) as [y Hy]; [lia|]. apply (list_elem_of_lookup_2 _ 0).
    rewrite lookup_take_lt by lia. rewrite Hy. f_equal. unfold el. change (1 - 1)%nat with 0%nat. by rewrite list_lookup_total_alt, Hy. }
  assert (Sub : forall a, a ∈ take n ys -> a ∈ take (S n) xs).
  { intros a Ha. rewrite <-T. apply list_elem_of_lookup in Ha as [k Hk]. apply lookup_take_Some in Hk as [Hk Hlt].
    apply (list_elem_of_lookup_2 _ k). by rewrite lookup_take_lt by lia. }
  split.
  - rewrite Dn. constructor; [done|]. apply Forall_forall. intros b Hb. by apply Hle.
  - intros a b Ha Hb. rewrite Dn, elem_of_cons in Hb. destruct Hb as [->|Hb]; [by apply Hroot, Sub|].
    apply Hle; [by apply Sub|done].
Qed.

Lemma done_from_perm xs ys n : take n ys ≡ₚ take n xs -> drop n ys = drop n xs -> done_from xs n -> done_from ys n.
Proof using All. intros T D [H1 H2]. split; rewrite D; [done|]. intros a b. rewrite T. apply H2. Qed.

Lemma sort_heap_ok fuel i : forall m xs,
  arr m xs -> fits xs -> heap cmp xs 1 i -> done_from xs i -> (i <= length xs)%nat -> (length xs < fuel)%nat ->
  exists m' xs', sort_heap compare fuel i base (Z.of_nat size) m = Ok (tt, m') /\
    arr m' xs' /\ xs' ≡ₚ xs /\ StronglySorted (le cmp) xs' /\ only_array (length xs) m m'.
Proof using All.
  induction i as [|[|i] IH]; intros m xs Ha Hf Hh Hd Hi Hfu.
  - exists m, xs. split_and!; try done. by destruct Hd.
  - exists m, xs. split_and!; try done. destruct Hd as [Hs Hle]. destruct xs as [|x xs]; [constructor|].
    constructor; [done|]. apply Forall_forall. intros b Hb. apply Hle; [|done]. apply list_elem_of_here.
  - remember (S i) as k eqn:Ek. cbn [sort_heap]. subst k.
    destruct (do_swap_ok m xs 1 (S (S i)) Ha Hf) as (m1 & E1 & A1 & O1); [lia|lia|lia|].
    change (Z.of_nat 1) with 1 in E1. mstep E1.
    set (ys := exchange xs 1 (S (S i))) in *. assert (Ly : length ys = length xs) by apply length_swap.
    assert (Pp : ys ≡ₚ xs) by (apply swap_perm; lia).
    destruct (heapify_ok 1 (S i) fuel 1 m1 ys) as (m2 & xs2 & E2 & A2 & P2 & H2 & D2 & O2); try done; try lia.
    { by apply (fits_perm xs). }
    { intros j c Hj Hne Hc Hcn. unfold ys. assert (j < c)%nat by (destruct Hc; lia). rewrite !el_swap by lia.
      rewrite !decide_False by lia. apply Hh; [lia|done|lia]. }
    { intros c _ _ Hp. change (1 / 2)%nat with 0%nat in Hp. lia. }
    replace (Z.of_nat (S (S i)) - 1) with (Z.of_nat (S i)) by lia. change (Z.of_nat 1) with 1 in E2. mstep E2.
    assert (L2 : length xs2 = length xs) by (rewrite <-Ly; by apply Permutation_length).
    destruct (IH m2 xs2) as (m3 & xs3 & E3 & A3 & P3 & S3 & O3); rewrite ?L2; try done; try lia.
    + apply (fits_perm xs); [|done]. by rewrite P2.
    + apply (done_from_perm ys); [|done|apply root_in_place; (done || lia)].
      apply (Permutation_app_inv_r (drop (S i) ys)). rewrite <-D2 at 1. by rewrite !take_drop.
    + exists m3, xs3. rewrite L2, Ly in *. split_and!; [done|done|by rewrite P3, P2|done|].
      eapply only_array_trans; [exact O1|]. by eapply only_array_trans.
Qed.

Lemma sort_ok fuel m xs :
  arr m xs -> fits xs -> base <> NULL -> (length xs < fuel)%nat ->
  exists m' ys, sort compare fuel base (Z.of_nat (length xs)) (Z.of_nat size) m = Ok (tt, m') /\
    arr m' ys /\ ys ≡ₚ xs /\ StronglySorted (le cmp) ys /\ only_array (length xs) m m'.
Proof using All.
  intros Ha Hf Hb Hfu. unfold sort. mstep_by (apply assert_block; by left).
  mstep_by (apply ASSERT_true; apply Z.ltb_lt; lia).
  replace (Z.to_nat (Z.of_nat (length xs) / 2)) with (length xs / 2)%nat by (rewrite <-(Nat2Z.inj_div _ 2); lia).
  assert (length xs / 2 <= length xs)%nat by (apply Nat.Div0.div_le_upper_bound; lia).
  destruct (build_heap_ok fuel (length xs / 2) m xs) as (m1 & xs1 & E1 & A1 & P1 & H1 & O1); try done.
  { apply heap_leaves. pose proof (Nat.div_mod_eq (length xs) 2). pose proof (Nat.mod_upper_bound (length xs) 2). lia. }
  mstep E1. rewrite Nat2Z.id. pose proof (Permutation_length P1) as L1. rewrite <-L1 in *.
  destruct (sort_heap_ok fuel (length xs1) m1 xs1) as (m2 & xs2 & E2 & A2 & P2 & S2 & O2); try done.
  { by apply (fits_perm xs). }
  { split; rewrite drop_all; [constructor|]. by intros a b _ ?%elem_of_nil. }
  exists m2, xs2. split_and!; [done|done|by rewrite P2|done|by eapply only_array_trans].
Qed.

(** ** Searching *)

Lemma search_loop_ok m xs key kv : forall fuel lo hi,
  arr m xs -> StronglySorted (le cmp) xs -> bytes_at m key kv -> length kv = size ->
  (lo <= hi <= length xs)%nat -> (hi - lo < fuel)%nat ->
  exists r, search_loop compare fuel key (base + Z.of_nat (size * lo)) (base + Z.of_nat (size * hi)) (Z.of_nat size) m
      = Ok (r, m) /\
    ((exists i x, (lo <= i < hi)%nat /\ xs !! i = Some x /\ cmp kv x = 0 /\ r = base + Z.of_nat (size * i)) \/
     (r = NULL /\ forall i x, (lo <= i < hi)%nat -> xs !! i = Some x -> cmp kv x <> 0)).
Proof using All.
  induction fuel as [|fuel IH]; intros lo hi Ha Hs Hk Hkl Hlh Hf; [lia|]. cbn [search_loop].
  destruct (Z.ltb_spec (base + Z.of_nat (size * lo)) (base + Z.of_nat (size * hi))) as [Hlt|Hge].
  2: { exists NULL. split; [done|]. right. split; [done|]. intros i x Hi. nia. }
  assert (Hlo : (lo < hi)%nat) by nia.
  assert (Hrange : (base + Z.of_nat (size * hi) - (base + Z.of_nat (size * lo))) / Z.of_nat size = Z.of_nat (hi - lo)).
  { replace (base + Z.of_nat (size * hi) - (base + Z.of_nat (size * lo))) with (Z.of_nat (hi - lo) * Z.of_nat size) by nia.
    apply Z.div_mul. lia. }
  rewrite Hrange. set (mid := (lo + (hi - lo) / 2)%nat).
  assert (Hhalf : ((hi - lo) / 2 < hi - lo)%nat) by (apply Nat.div_lt; lia).
  assert (Hmid : base + Z.of_nat (size * lo) + Z.of_nat (hi - lo) / 2 * Z.of_nat size = base + Z.of_nat (size * mid)).
  { rewrite <-(Nat2Z.inj_div _ 2). unfold mid. nia. }
  rewrite Hmid. destruct (lookup_lt_is_Some_2 xs mid) as [x Hx]; [unfold mid; lia|].
  destruct (Ha _ _ Hx) as (Lx & _ & Bx). mstep (Hcompare m key (base + Z.of_nat (size * mid)) kv x Hkl Lx Hk Bx).
  assert (Hord : forall i j a b, (i <= j)%nat -> xs !! i = Some a -> xs !! j = Some b -> le cmp a b).
  { intros i j a b Hij Hi Hj. destruct (decide (i = j)) as [->|Hne]; [simplify_eq; by apply le_refl|].
    apply (sorted_lookup _ xs i j); [done|lia|done|done]. }
  destruct (Z.ltb_spec (cmp kv x) 0) as [Hc|Hc]; [|destruct (Z.ltb_spec 0 (cmp kv x)) as [Hc'|Hc']].
  - destruct (IH lo mid Ha Hs Hk Hkl) as (r & E & Hr); [unfold mid; lia|unfold mid; lia|]. exists r. split; [exact E|].
    destruct Hr as [(i & y & Hi & H)|[Hr1 Hr2]]; [left; exists i, y; split; [unfold mid in *; lia|done]|right].
    split; [done|]. intros i y Hi Hy. destruct (decide (i < mid)%nat); [apply (Hr2 i); [lia|done]|].
    intros E0. pose proof (Hord mid i x y ltac:(lia) Hx Hy) as Hxy.
    assert (Hyk : le cmp y kv) by (unfold le; pose proof (cmp_opp y kv); lia).
    pose proof (le_trans cmp _ _ _ Hxy Hyk) as Hxk. unfold le in Hxk. pose proof (cmp_opp x kv). lia.
  - replace (base + Z.of_nat (size * mid) + Z.of_nat size) with (base + Z.of_nat (size * S mid)) by nia.
    destruct (IH (S mid) hi Ha Hs Hk Hkl) as (r & E & Hr); [unfold mid; lia|unfold mid; lia|]. exists r. split; [exact E|].
    destruct Hr as [(i & y & Hi & H)|[Hr1 Hr2]]; [left; exists i, y; split; [unfold mid in *; lia|done]|right].
    split; [done|]. intros i y Hi Hy. destruct (decide (mid < i)%nat); [apply (Hr2 i); [lia|done]|].
    intros E0. pose proof (Hord i mid y x ltac:(lia) Hy Hx) as Hyx.
    assert (Hky : le cmp kv y) by (unfold le; lia).
    pose proof (le_trans cmp _ _ _ Hky Hyx) as Hkx. unfold le in Hkx. lia.
  - exists (base + Z.of_nat (size * mid)). split; [done|]. left. exists mid, x. split_and!; [unfold mid; lia|unfold mid; lia|done|lia|done].
Qed.

End Sort.

(** C33: [sort] and [binary_search] agree.  For every COMPARE that computes a
    total preorder of the elements, [sort] returns with the array in order and
    holding the same elements, and no byte outside the array changed; on the
    sorted array [binary_search] returns an element equal to the key, and a
    null pointer exactly when there is none. *)
Theorem sort_search_correct compare cmp base size fuel m xs :
  CmpLaws cmp -> compares compare cmp size -> (0 < size)%nat -> 0 < base ->
  arr base size m xs -> fits size xs -> (length xs < fuel)%nat ->
  exists m' ys, sort compare fuel base (Z.of_nat (length xs)) (Z.of_nat size) m = Ok (tt, m') /\
    arr base size m' ys /\ ys ≡ₚ xs /\ StronglySorted (fun a b => cmp a b <= 0) ys /\
    same_but base (Z.of_nat (size * length xs)) m m' /\
    forall key k, bytes_at m' key k -> length k = size ->
      exists r, binary_search compare fuel key base (Z.of_nat (length xs)) (Z.of_nat size) m' = Ok (r, m') /\
        ((exists i x, ys !! i = Some x /\ cmp k x = 0 /\ r = base + Z.of_nat (size * i)) \/
         (r = NULL /\ forall x, x ∈ ys -> cmp k x <> 0)).
Proof.
  intros Hc Hcompare Hsize Hb Ha Hf Hfu.
  destruct (sort_ok compare cmp base size Hsize Hcompare fuel m xs Ha Hf) as (m' & ys & E & A & P & S & O); [unfold NULL; lia|done|].
  exists m', ys. split_and!; [exact E|done|done|exact S|exact O|]. intros key k Hk Hkl.
  pose proof (Permutation_length P) as L. unfold binary_search.
  destruct (search_loop_ok compare cmp base size Hsize Hcompare m' ys key k fuel 0 (length xs) A S Hk Hkl) as (r & Er & Hr);
    [lia|lia|]. exists r. split.
  - rewrite u32_small by (unfold fits in Hf; lia). replace (Z.of_nat size * Z.of_nat (length xs)) with (Z.of_nat (size * length xs)) by lia.
    rewrite Nat.mul_0_r, Z.add_0_r in Er. exact Er.
  - destruct Hr as [(i & x & _ & H)|[Hr1 Hr2]]; [left; by exists i, x|right; split; [done|]].
    intros x Hx. apply list_elem_of_lookup in Hx as [i Hi]. apply (Hr2 i); [|done].
    apply lookup_lt_Some in Hi. lia.
Qed.

(** Pairs of bytes ordered by their first byte. *)
Definition demo_cmp (a b : list Z) : Z := hd 0 a - hd 0 b.
Definition demo_compare (p q : Z) : B Z := a ← load p; b ← load q; mret (a - b).
Definition demo_array : bytes := write ∅ 100 [3; 1; 2; 2; 3; 3; 1; 4].

Lemma demo_compares : compares demo_compare demo_cmp 2.
Proof.
  intros m p q [|x a] [|y b]; try done. intros _ _ [H1 _] [H2 _]. unfold demo_compare.
  mstep (load_ok _ _ _ H1). by mstep (load_ok _ _ _ H2).
Qed.

Lemma demo_arr : arr 100 2 demo_array [[3; 1]; [2; 2]; [3; 3]; [1; 4]].
Proof.
  intros i x Hx. do 4 (destruct i as [|i]; [injection Hx as <-; split_and!;
    [done|repeat constructor; unfold is_byte; lia|vm_compute; tauto]|]). done.
Qed.

Lemma sort_search_correct_witness :
  exists m' ys, sort demo_compare 10 100 4 2 demo_array = Ok (tt, m') /\
    ys ≡ₚ [[3; 1]; [2; 2]; [3; 3]; [1; 4]] /\ StronglySorted (fun a b => demo_cmp a b <= 0) ys.
Proof.
  destruct (sort_search_correct demo_compare demo_cmp 100 2 10 demo_array [[3; 1]; [2; 2]; [3; 3]; [1; 4]])
    as (m' & ys & E & _ & P & S & _).
  - split; unfold demo_cmp; intros; lia.
  - exact demo_compares.
  - lia.
  - lia.
  - exact demo_arr.
  - split; vm_compute; reflexivity.
  - simpl. lia.
  - exists m', ys. split_and!; [exact E|exact P|exact S].
Defined.
