(* ===== verification/Page.v ===== *)
(** * Pages: [threads/vaddr.h], [threads/pte.h], [threads/palloc.c] and
    [userprog/pagedir.c]

    The kernel sees physical memory at [PHYS_BASE]; [words] is the contents of
    its aligned 32-bit words, in which the page directories and page tables
    live.  The bitmap of a pool is kept beside it as a [bitmap].  The pool
    locks are left out: each call is one critical section.  [init_page_dir]
    and [init_ram_pages] are the globals of [threads/init.c]. *)

From S2P Require Import Prelude ListModel Bitmap.

(** ** Addresses *)

Definition PGBITS : Z := 12.
Definition PGSIZE : Z := 4096.
Definition PGMASK : Z := 4095.
Definition PHYS_BASE : Z := 3221225472.

Definition pg_ofs (va : Z) : Z := Z.land va PGMASK.
Definition pg_no (va : Z) : Z := Z.shiftr va PGBITS.
Definition pg_round_up (va : Z) : Z := Z.land (u32 (va + PGSIZE - 1)) (u32 (Z.lnot PGMASK)).
Definition pg_round_down (va : Z) : Z := Z.land va (u32 (Z.lnot PGMASK)).
Definition is_user_vaddr (vaddr : Z) : bool := vaddr <? PHYS_BASE.
Definition is_kernel_vaddr (vaddr : Z) : bool := PHYS_BASE <=? vaddr.

Definition ptov {S} (paddr : Z) : M S Z :=
  ASSERT (paddr <? PHYS_BASE);; mret (u32 (paddr + PHYS_BASE)).
Definition vtop {S} (vaddr : Z) : M S Z :=
  ASSERT (is_kernel_vaddr vaddr);; mret (vaddr - PHYS_BASE).

(** ** Page table entries *)

Definition PTE_ADDR : Z := 4294963200.
Definition PTE_P : Z := 1.
Definition PTE_W : Z := 2.
Definition PTE_U : Z := 4.
Definition PTE_A : Z := 32.
Definition PTE_D : Z := 64.

Definition pt_no (va : Z) : Z := Z.shiftr (Z.land va 4190208) 12.
Definition pd_no (va : Z) : Z := Z.shiftr va 22.

Definition pde_create {S} (pt : Z) : M S Z :=
  ASSERT (pg_ofs pt =? 0);; p ← vtop pt; mret (Z.lor (Z.lor (Z.lor p PTE_U) PTE_P) PTE_W).
Definition pde_get_pt {S} (pde : Z) : M S Z :=
  ASSERT (negb (Z.land pde PTE_P =? 0));; ptov (Z.land pde PTE_ADDR).
Definition pte_create_kernel {S} (page : Z) (writable : bool) : M S Z :=
  ASSERT (pg_ofs page =? 0);;
  p ← vtop page; mret (Z.lor (Z.lor p PTE_P) (if writable then PTE_W else 0)).
Definition pte_create_user {S} (page : Z) (writable : bool) : M S Z :=
  p ← pte_create_kernel page writable; mret (Z.lor p PTE_U).
Definition pte_get_page {S} (pte : Z) : M S Z := ptov (Z.land pte PTE_ADDR).

(** ** The page allocator *)

Definition PAL_ASSERT : Z := 1.
Definition PAL_ZERO : Z := 2.
Definition PAL_USER : Z := 4.

Record pool := Pool { used_map : bitmap; base : Z }.

Record vm := VM { kernel_pool : pool; user_pool : pool; words : Z -> Z; cr3 : Z }.

Abbreviation V := (M vm).

Definition get_pool (user : bool) (s : vm) : pool := if user then user_pool s else kernel_pool s.
Definition set_pool (user : bool) (p : pool) (s : vm) : vm :=
  if user then VM (kernel_pool s) p (words s) (cr3 s) else VM p (user_pool s) (words s) (cr3 s).
Definition set_words (w : Z -> Z) (s : vm) : vm := VM (kernel_pool s) (user_pool s) w (cr3 s).

(** An operation on the bitmap of a pool. *)
Definition on_map {A} (user : bool) (c : M bitmap A) : V A := fun s =>
  match c (used_map (get_pool user s)) with
  | Ok (a, b) => Ok (a, set_pool user (Pool b (base (get_pool user s))) s)
  | Err e => Err e
  end.

(** [memset] of whole words to the byte VALUE. *)
Definition fill (p size value : Z) (w : Z -> Z) : Z -> Z :=
  fun a => if (p <=? a) && (a <? p + size) then 16843009 * value else w a.

Definition flag (flags f : Z) : bool := negb (Z.land flags f =? 0).

Definition palloc_get_multiple (flags page_cnt : Z) : V Z :=
  let user := flag flags PAL_USER in
  if page_cnt =? 0 then mret NULL else
  page_idx ← on_map user (bitmap_scan_and_flip 0 page_cnt false);
  p ← gets (get_pool user);
  let pages := if negb (page_idx =? BITMAP_ERROR) then u32 (base p + PGSIZE * page_idx) else NULL in
  (if negb (pages =? NULL) then
     if flag flags PAL_ZERO
     then s ← get; put (set_words (fill pages (u32 (PGSIZE * page_cnt)) 0 (words s)) s)
     else mret tt
   else if flag flags PAL_ASSERT then fail EPanic else mret tt);;
  mret pages.

Definition palloc_get_page (flags : Z) : V Z := palloc_get_multiple flags 1.

Definition page_from_pool (p : pool) (page : Z) : bool :=
  let page_no := pg_no page in
  let start_page := pg_no (base p) in
  let end_page := u32 (start_page + bit_cnt (used_map p)) in
  (start_page <=? page_no) && (page_no <? end_page).

Definition palloc_free_multiple (pages page_cnt : Z) : V unit :=
  ASSERT (pg_ofs pages =? 0);;
  if (pages =? NULL) || (page_cnt =? 0) then mret tt else
  s ← get;
  user ← (if page_from_pool (kernel_pool s) pages then mret false
          else if page_from_pool (user_pool s) pages then mret true
          else fail EPanic);
  let page_idx := u32 (pg_no pages - pg_no (base (get_pool user s))) in
  put (set_words (fill pages (u32 (PGSIZE * page_cnt)) 204 (words s)) s);;
  all ← on_map user (bitmap_all page_idx page_cnt);
  ASSERT all;;
  on_map user (bitmap_set_multiple page_idx page_cnt false).

Definition palloc_free_page (page : Z) : V unit := palloc_free_multiple page 1.

(** BLOCK is what the memory at the base of the pool holds. *)
Definition init_pool (user : bool) (pool_base page_cnt : Z) (block : list Z) : V unit :=
  let bm_pages := DIV_ROUND_UP (bitmap_buf_size page_cnt) PGSIZE in
  (if page_cnt <? bm_pages then fail EPanic else mret tt);;
  let page_cnt := page_cnt - bm_pages in
  match bitmap_create_in_buf page_cnt block (u32 (bm_pages * PGSIZE)) with
  | Ok b => s ← get; put (set_pool user (Pool b (u32 (pool_base + bm_pages * PGSIZE))) s)
  | Err e => fail e
  end.

Definition palloc_init (init_ram_pages user_page_limit : Z) (kblock ublock : list Z) : V unit :=
  free_start ← ptov (1024 * 1024);
  free_end ← ptov (u32 (init_ram_pages * PGSIZE));
  let free_pages := u32 (free_end - free_start) / PGSIZE in
  let user_pages := if user_page_limit <? free_pages / 2 then user_page_limit else free_pages / 2 in
  let kernel_pages := u32 (free_pages - user_pages) in
  init_pool false free_start kernel_pages kblock;;
  init_pool true (u32 (free_start + kernel_pages * PGSIZE)) user_pages ublock.

(** ** Page directories *)

Section Pagedir.
Context (init_page_dir init_ram_pages : Z).

Definition rd (p : Z) : V Z := s ← get; mret (words s p).
Definition wr (p v : Z) : V unit :=
  s ← get; put (set_words (fun a => if a =? p then v else words s a) s).

Definition pagedir_create : V Z :=
  pd ← palloc_get_page 0;
  (if negb (pd =? NULL) then
     s ← get;
     put (set_words (fun a => if (pd <=? a) && (a <? pd + PGSIZE) then words s (init_page_dir + (a - pd))
                              else words s a) s)
   else mret tt);;
  mret pd.

Fixpoint free_table (n : nat) (pte : Z) : V unit :=
  match n with
  | O => mret tt
  | S n =>
      e ← rd pte;
      (if flag e PTE_P then p ← pte_get_page e; palloc_free_page p else mret tt);;
      free_table n (pte + 4)
  end.

Fixpoint free_directory (n : nat) (pde : Z) : V unit :=
  match n with
  | O => mret tt
  | S n =>
      e ← rd pde;
      (if flag e PTE_P then
         pt ← pde_get_pt e;
         free_table (Z.to_nat (PGSIZE / 4)) pt;;
         palloc_free_page pt
       else mret tt);;
      free_directory n (pde + 4)
  end.

Definition pagedir_destroy (pd : Z) : V unit :=
  if pd =? NULL then mret tt else
  ASSERT (negb (pd =? init_page_dir));;
  free_directory (Z.to_nat (pd_no PHYS_BASE)) pd;;
  palloc_free_page pd.

Definition lookup_page (pd vaddr : Z) (create : bool) : V Z :=
  ASSERT (negb (pd =? NULL));;
  ASSERT (negb create || is_user_vaddr vaddr);;
  let pde := pd + 4 * pd_no vaddr in
  e ← rd pde;
  ok ← (if e =? 0 then
          if create then
            pt ← palloc_get_page PAL_ZERO;
            if pt =? NULL then mret false else
            e ← pde_create pt; wr pde e;; mret true
          else mret false
        else mret true);
  if negb ok then mret NULL else
  e ← rd pde;
  pt ← pde_get_pt e;
  mret (pt + 4 * pt_no vaddr).

Definition pagedir_set_page (pd upage kpage : Z) (writable : bool) : V bool :=
  ASSERT (pg_ofs upage =? 0);;
  ASSERT (pg_ofs kpage =? 0);;
  ASSERT (is_user_vaddr upage);;
  k ← vtop kpage;
  ASSERT (Z.shiftr k 12 <? init_ram_pages);;
  ASSERT (negb (pd =? init_page_dir));;
  pte ← lookup_page pd upage true;
  if negb (pte =? NULL) then
    e ← rd pte;
    ASSERT (Z.land e PTE_P =? 0);;
    e ← pte_create_user kpage writable;
    wr pte e;; mret true
  else mret false.

Definition pagedir_get_page (pd uaddr : Z) : V Z :=
  ASSERT (is_user_vaddr uaddr);;
  pte ← lookup_page pd uaddr false;
  if pte =? NULL then mret NULL else
  e ← rd pte;
  if flag e PTE_P then p ← pte_get_page e; mret (p + pg_ofs uaddr) else mret NULL.

Definition pagedir_activate (pd : Z) : V unit :=
  p ← vtop (if pd =? NULL then init_page_dir else pd);
  s ← get; put (VM (kernel_pool s) (user_pool s) (words s) p).

Definition active_pd : V Z := s ← get; ptov (cr3 s).

Definition invalidate_pagedir (pd : Z) : V unit :=
  a ← active_pd; if a =? pd then pagedir_activate pd else mret tt.

Definition pagedir_clear_page (pd upage : Z) : V unit :=
  ASSERT (pg_ofs upage =? 0);;
  ASSERT (is_user_vaddr upage);;
  pte ← lookup_page pd upage false;
  if pte =? NULL then mret tt else
  e ← rd pte;
  if flag e PTE_P then wr pte (Z.land e (u32 (Z.lnot PTE_P)));; invalidate_pagedir pd else mret tt.

(** The test and the update of one flag of an entry. *)
Definition is_flag (pd vpage f : Z) : V bool :=
  pte ← lookup_page pd vpage false;
  if pte =? NULL then mret false else e ← rd pte; mret (flag e f).

Definition set_flag (pd vpage f : Z) (v : bool) : V unit :=
  pte ← lookup_page pd vpage false;
  if pte =? NULL then mret tt else
  e ← rd pte;
  if v then wr pte (Z.lor e f)
  else wr pte (Z.land e (u32 (Z.lnot f)));; invalidate_pagedir pd.

Definition pagedir_is_dirty (pd vpage : Z) : V bool := is_flag pd vpage PTE_D.
Definition pagedir_set_dirty (pd vpage : Z) (dirty : bool) : V unit := set_flag pd vpage PTE_D dirty.
Definition pagedir_is_accessed (pd vpage : Z) : V bool := is_flag pd vpage PTE_A.
Definition pagedir_set_accessed (pd vpage : Z) (accessed : bool) : V unit := set_flag pd vpage PTE_A accessed.

End Pagedir.
