(* ===== verification/PageThms.v ===== *)
(** * The page allocator and page directories: arithmetic and allocation *)

From S2P Require Import Prelude ListModel Bitmap BitmapThms Page.

(** ** Addresses as numbers *)

Lemma pg_ofs_mod va : pg_ofs va = va mod 4096.
Proof. unfold pg_ofs, PGMASK. change 4095 with (Z.ones 12). by rewrite Z.land_ones. Qed.

Lemma pg_no_div va : pg_no va = va / 4096.
Proof. unfold pg_no, PGBITS. by rewrite Z.shiftr_div_pow2. Qed.

Lemma pd_no_div va : pd_no va = va / 4194304.
Proof. unfold pd_no. by rewrite Z.shiftr_div_pow2. Qed.

Lemma pt_no_mod va : pt_no va = va / 4096 mod 1024.
Proof.
  unfold pt_no. rewrite Z.shiftr_land. change (Z.shiftr 4190208 12) with (Z.ones 10).
  by rewrite Z.land_ones, Z.shiftr_div_pow2.
Qed.

Lemma page_index va : va / 4096 = 1024 * pd_no va + pt_no va.
Proof.
  rewrite pd_no_div, pt_no_mod. change 4194304 with (4096 * 1024). rewrite <-Z.div_div by lia.
  apply Z.div_mod. lia.
Qed.

Lemma pd_no_user va : 0 <= va < PHYS_BASE -> 0 <= pd_no va < 768.
Proof.
  unfold PHYS_BASE. intros H. rewrite pd_no_div. split; [apply Z.div_pos; lia|]. apply Z.div_lt_upper_bound; lia.
Qed.

Lemma pt_no_range va : 0 <= pt_no va < 1024.
Proof. rewrite pt_no_mod. by apply Z.mod_pos_bound. Qed.

(** An aligned address and flags below it. *)
Lemma land_aligned x f : x mod 4096 = 0 -> 0 <= f < 4096 -> Z.land x f = 0.
Proof.
  intros Hx Hf. replace f with (Z.land f (Z.ones 12)) by (rewrite Z.land_ones by lia; apply Z.mod_small; lia).
  rewrite (Z.land_comm f), Z.land_assoc, Z.land_ones by lia. change (2 ^ 12) with 4096. by rewrite Hx.
Qed.

Lemma lor_aligned x f : x mod 4096 = 0 -> 0 <= f < 4096 -> Z.lor x f = x + f.
Proof. intros Hx Hf. pose proof (Z.add_lor_land x f) as E. rewrite land_aligned in E by done. lia. Qed.

Lemma land_mask v k : 0 <= v < 4294967296 -> 0 <= k ->
  Z.land v (Z.land (Z.ones 32) (Z.lnot (Z.ones k))) = v - v mod 2 ^ k.
Proof.
  intros Hv Hk. rewrite Z.land_assoc, Z.land_ones by lia. change (2 ^ 32) with 4294967296. rewrite Z.mod_small by lia.
  rewrite <-Z.ldiff_land, Z.ldiff_ones_r, Z.shiftl_mul_pow2, Z.shiftr_div_pow2 by lia.
  rewrite Z.mod_eq by (apply Z.pow_nonzero; lia). lia.
Qed.

Lemma land_addr v : 0 <= v < 4294967296 -> Z.land v PTE_ADDR = v - v mod 4096.
Proof. intros Hv. change PTE_ADDR with (Z.land (Z.ones 32) (Z.lnot (Z.ones 12))). by rewrite land_mask. Qed.

Lemma land_1 v : Z.land v 1 = v mod 2.
Proof. change 1 with (Z.ones 1). by rewrite Z.land_ones. Qed.

(** ** Pools *)

Record pool_ok (p : pool) : Prop := {
  po_wf : wf (used_map p);
  po_aligned : base p mod 4096 = 0;
  po_low : PHYS_BASE <= base p;
  po_high : base p + 4096 * bit_cnt (used_map p) <= 4294967296
}.

(** [page] is the page [i] of the pool. *)
Definition page_at (p : pool) (i page : Z) : Prop := 0 <= i < bit_cnt (used_map p) /\ page = base p + 4096 * i.

Definition allocated (p : pool) (page : Z) : Prop := exists i, page_at p i page /\ bit (used_map p) i = true.

Lemma pool_eta user s : set_pool user (Pool (used_map (get_pool user s)) (base (get_pool user s))) s = s.
Proof. by destruct s as [[kb kbase] [ub ubase] w c], user. Qed.

(** The state after the pages from INDEX on have been taken. *)
Definition taken (user : bool) (b : bitmap) (flags pages page_cnt : Z) (s : vm) : vm :=
  let s' := set_pool user (Pool b (base (get_pool user s))) s in
  if flag flags PAL_ZERO then set_words (fill pages (4096 * page_cnt) 0 (words s')) s' else s'.

Lemma palloc_get_multiple_ok flags n s :
  let user := flag flags PAL_USER in let p := get_pool user s in
  pool_ok p -> 0 < n -> 4096 * n < 4294967296 ->
  (no_run (used_map p) 0 n false /\
   palloc_get_multiple flags n s = if flag flags PAL_ASSERT then Err EPanic else Ok (NULL, s)) \/
  (exists i b, first_run (used_map p) 0 n false i /\ updated (used_map p) b (in_range i n) true /\
     palloc_get_multiple flags n s = Ok (base p + 4096 * i, taken user b flags (base p + 4096 * i) n s)).
Proof.
  intros user p Hp Hn Hmax. unfold palloc_get_multiple. fold user.
  destruct (Z.eqb_spec n 0); [lia|]. pose proof (wf_cnt _ (po_wf _ Hp)) as Hc.
  destruct (bitmap_scan_and_flip_ok (used_map p) 0 n false (po_wf _ Hp)) as (r & b & E & H); [lia|lia|].
  destruct H as [(-> & Hno & ->)|(Hlt & Hrun & Hu)]; [left|right].
  - split; [done|]. unfold on_map at 1, mbind at 1, M_bind at 1. fold p. rewrite E. unfold p at 1 2. rewrite pool_eta.
    cbn. by destruct (flag flags PAL_ASSERT).
  - exists r, b. split_and!; [done|done|]. unfold on_map at 1, mbind at 1, M_bind at 1. fold p. rewrite E.
    destruct Hrun as (R1 & R2 & _). unfold gets, mbind at 1, M_bind at 1.
    assert (Hb : base (get_pool user (set_pool user (Pool b (base p)) s)) = base p) by (by destruct user).
    rewrite Hb. destruct (Z.eqb_spec r BITMAP_ERROR); [lia|]. cbn [negb]. unfold PGSIZE.
    pose proof (po_low _ Hp). pose proof (po_high _ Hp). unfold PHYS_BASE in *.
    rewrite u32_small by lia. destruct (Z.eqb_spec (base p + 4096 * r) NULL) as [E0|_]; [unfold NULL in E0; lia|]. cbn [negb].
    unfold taken. fold p. rewrite (u32_small (4096 * n)) by lia.
    by destruct (flag flags PAL_ZERO).
Qed.

(** ** Freeing *)

Lemma page_index_in p i page :
  pool_ok p -> page_at p i page -> pg_no page = pg_no (base p) + i /\ page_from_pool p page = true.
Proof.
  intros Hp [Hi ->]. pose proof (po_low _ Hp) as Hl. pose proof (po_high _ Hp) as Hh.
  pose proof (wf_cnt _ (po_wf _ Hp)). unfold PHYS_BASE in Hl. unfold page_from_pool. rewrite !pg_no_div.
  assert (E : (base p + 4096 * i) / 4096 = base p / 4096 + i) by (rewrite Z.mul_comm, Z.div_add; lia).
  split; [done|]. rewrite E. pose proof (Z.div_mod (base p) 4096 ltac:(lia)) as Hd. rewrite (po_aligned _ Hp) in Hd.
  rewrite u32_small by lia. destruct (Z.leb_spec (base p / 4096) (base p / 4096 + i)); [|lia].
  destruct (Z.ltb_spec (base p / 4096 + i) (base p / 4096 + bit_cnt (used_map p))); [done|lia].
Qed.

Lemma page_not_in p page :
  pool_ok p -> page mod 4096 = 0 -> page < base p \/ base p + 4096 * bit_cnt (used_map p) <= page ->
  0 <= page -> page_from_pool p page = false.
Proof.
  intros Hp Ha Hout H0. pose proof (po_low _ Hp) as Hl. pose proof (po_high _ Hp) as Hh. unfold PHYS_BASE in Hl.
  pose proof (wf_cnt _ (po_wf _ Hp)). unfold page_from_pool. rewrite !pg_no_div.
  pose proof (Z.div_mod (base p) 4096 ltac:(lia)) as Hd. rewrite (po_aligned _ Hp) in Hd.
  pose proof (Z.div_mod page 4096 ltac:(lia)) as Hd'. rewrite Ha in Hd'. rewrite u32_small by lia.
  destruct (Z.leb_spec (base p / 4096) (page / 4096)), (Z.ltb_spec (page / 4096) (base p / 4096 + bit_cnt (used_map p)));
    try done. lia.
Qed.

(** The two pools do not overlap. *)
Record pools_ok (s : vm) : Prop := {
  ps_kernel : pool_ok (kernel_pool s);
  ps_user : pool_ok (user_pool s);
  ps_apart : base (kernel_pool s) + 4096 * bit_cnt (used_map (kernel_pool s)) <= base (user_pool s)
}.

Lemma ps_get user s : pools_ok s -> pool_ok (get_pool user s).
Proof. intros [? ? _]. by destruct user. Qed.

(** The pool of a page is found. *)
Lemma find_pool s user i page :
  pools_ok s -> page_at (get_pool user s) i page ->
  (if page_from_pool (kernel_pool s) page then mret false
   else if page_from_pool (user_pool s) page then mret true else fail EPanic) s = Ok (user, s).
Proof.
  intros Hs Hp. destruct (page_index_in _ _ _ (ps_get user s Hs) Hp) as [_ Hin].
  pose proof (ps_get user s Hs) as Hpool. destruct Hs as [Hk Hu Ha]. destruct Hp as [Hi ->].
  destruct user; cbn [get_pool] in *; [|by rewrite Hin].
  rewrite page_not_in; [by rewrite Hin|done| |lia|pose proof (po_low _ Hu); unfold PHYS_BASE in *; lia].
  rewrite Z.mul_comm, Z.mod_add by lia. apply (po_aligned _ Hu).
Qed.

Lemma palloc_free_multiple_ok s user i n :
  pools_ok s -> 0 < n -> 0 <= i -> i + n <= bit_cnt (used_map (get_pool user s)) ->
  let p := get_pool user s in
  (run (used_map p) i n true ->
     exists b, palloc_free_multiple (base p + 4096 * i) n s
         = Ok (tt, set_words (fill (base p + 4096 * i) (4096 * n) 204 (words s)) (set_pool user (Pool b (base p)) s)) /\
       updated (used_map p) b (in_range i n) false) /\
  (~ run (used_map p) i n true -> palloc_free_multiple (base p + 4096 * i) n s = Err EAssert).
Proof.
  intros Hs Hn Hi Hin p. pose proof (ps_get user s Hs) as Hp. fold p in Hp, Hin.
  pose proof (po_low _ Hp) as Hl. pose proof (po_high _ Hp) as Hh. unfold PHYS_BASE in Hl.
  assert (Hpage : page_at p i (base p + 4096 * i)) by (split; [lia|done]).
  destruct (page_index_in _ _ _ Hp Hpage) as [Hno _].
  assert (Ea : (base p + 4096 * i) mod 4096 = 0) by (rewrite Z.mul_comm, Z.mod_add by lia; apply (po_aligned _ Hp)).
  set (s1 := set_words (fill (base p + 4096 * i) (4096 * n) 204 (words s)) s).
  assert (Hpool : get_pool user s1 = p) by (by destruct user).
  assert (Hrun : palloc_free_multiple (base p + 4096 * i) n s =
    (all ← on_map user (bitmap_all i n); ASSERT all;; on_map user (bitmap_set_multiple i n false)) s1).
  { unfold palloc_free_multiple. rewrite pg_ofs_mod, Ea. cbn [Z.eqb]. rewrite (bind_ok _ _ _ tt s) by done.
    destruct (Z.eqb_spec (base p + 4096 * i) NULL) as [E|_]; [unfold NULL in E; lia|].
    destruct (Z.eqb_spec n 0); [lia|]. cbn [orb]. unfold get at 1. unfold mbind at 1, M_bind at 1.
    mstep (find_pool s user i _ Hs Hpage). fold p. rewrite Hno.
    replace (u32 (pg_no (base p) + i - pg_no (base p))) with i by (rewrite u32_small; lia).
    unfold PGSIZE. rewrite u32_small by lia. done. }
  rewrite Hrun. destruct (bitmap_contains_ok (used_map p) i n false) as (r & Er & Hr); [apply Hp|lia|lia|lia|].
  assert (Eall : on_map user (bitmap_all i n) s1 = Ok (negb r, s1)).
  { unfold on_map. rewrite Hpool. unfold bitmap_all, mbind, M_bind. rewrite Er. unfold mret, M_ret.
    rewrite <-Hpool at 1 2. by rewrite pool_eta. }
  mstep Eall. destruct r; cbn [negb].
  - split; [|done]. intros H. by apply Hr in H.
  - split; [|intros H; exfalso; apply H; by apply Hr]. intros _.
    destruct (bitmap_set_multiple_ok (used_map p) i n false) as (b & Eb & U); [apply Hp|lia|lia|lia|].
    exists b. split; [|done]. rewrite (bind_ok _ _ _ tt s1) by done. unfold on_map. rewrite Hpool, Eb.
    by destruct user.
Qed.
