(* ===== verification/PageDir.v ===== *)
(** * Page directories as maps from user pages to frames *)

From S2P Require Import Prelude ListModel Bitmap BitmapThms Page PageThms.

(** A page of the kernel pool that is in use. *)
Definition kpage (s : vm) (page : Z) : Prop := allocated (kernel_pool s) page.

(** An entry that points to the page [page], with flags. *)
Definition points_to (e page : Z) : Prop :=
  exists f, 0 <= f < 4096 /\ f mod 2 = 1 /\ e = page - PHYS_BASE + f.

(** The user part of the directory at [pd]: [T i] is the page table of the
    entry [i], or [NULL]. *)
Record pd_rep (s : vm) (pd : Z) (T : Z -> Z) : Prop := {
  pr_pool : pool_ok (kernel_pool s);
  pr_pd : kpage s pd;
  pr_tab i : 0 <= i < 768 ->
    (T i = NULL /\ words s (pd + 4 * i) = 0) \/
    (kpage s (T i) /\ T i <> pd /\ points_to (words s (pd + 4 * i)) (T i));
  pr_inj i j : 0 <= i < 768 -> 0 <= j < 768 -> T i <> NULL -> T i = T j -> i = j;
  pr_pte i j : 0 <= i < 768 -> T i <> NULL -> 0 <= j < 1024 ->
    0 <= words s (T i + 4 * j) < 4294967296 /\
    (words s (T i + 4 * j) mod 2 = 1 -> words s (T i + 4 * j) < 4294967296 - PHYS_BASE)
}.

(** Where a user address is mapped, or [NULL]. *)
Definition translate (s : vm) (T : Z -> Z) (ua : Z) : Z :=
  if T (pd_no ua) =? NULL then NULL else
  let e := words s (T (pd_no ua) + 4 * pt_no ua) in
  if e mod 2 =? 1 then e - e mod 4096 + PHYS_BASE + ua mod 4096 else NULL.

Section Dir.
Context (init_page_dir init_ram_pages : Z).
Implicit Types (s : vm) (T : Z -> Z).

Lemma rd_ok p s : rd p s = Ok (words s p, s).
Proof using. done. Qed.

Lemma kpage_range s page :
  pool_ok (kernel_pool s) -> kpage s page ->
  page mod 4096 = 0 /\ PHYS_BASE <= page /\ page + 4096 <= 4294967296.
Proof using.
  intros Hp (i & [Hi ->] & _). pose proof (po_low _ Hp). pose proof (po_high _ Hp).
  split_and!; [|lia|lia]. rewrite Z.mul_comm, Z.mod_add by lia. apply (po_aligned _ Hp).
Qed.

(** Two words of two different pages have different addresses. *)
Lemma words_apart p q i j :
  p mod 4096 = 0 -> q mod 4096 = 0 -> 0 <= i < 1024 -> 0 <= j < 1024 -> p + 4 * i = q + 4 * j -> p = q /\ i = j.
Proof using.
  intros Hp Hq Hi Hj E. pose proof (Z.div_mod p 4096 ltac:(lia)). pose proof (Z.div_mod q 4096 ltac:(lia)). lia.
Qed.

Lemma flag_present e : flag e PTE_P = (e mod 2 =? 1).
Proof using.
  unfold flag, PTE_P. rewrite land_1. pose proof (Z.mod_pos_bound e 2 ltac:(lia)).
  destruct (Z.eqb_spec (e mod 2) 0), (Z.eqb_spec (e mod 2) 1); (done || lia).
Qed.

Lemma mod_2_page p f : p mod 4096 = 0 -> (p + f) mod 2 = f mod 2.
Proof using.
  intros Hp. pose proof (Z.div_mod p 4096 ltac:(lia)) as E. rewrite Hp in E.
  rewrite E, Z.add_0_r, Z.add_comm. replace (4096 * (p / 4096)) with (p / 4096 * 2048 * 2) by lia. by apply Z.mod_add.
Qed.

Lemma points_to_ok s e page :
  page mod 4096 = 0 -> PHYS_BASE <= page -> page + 4096 <= 4294967296 -> points_to e page ->
  e <> 0 /\ pde_get_pt e s = Ok (page, s).
Proof using.
  unfold PHYS_BASE. intros Ha Hl Hh (f & Hf & Hodd & ->). unfold PHYS_BASE.
  assert (Ha' : (page - 3221225472) mod 4096 = 0).
  { replace (page - 3221225472) with (page + (-786432) * 4096) by lia. by rewrite Z.mod_add. }
  assert (Hf' : f <> 0) by (intros ->; done). split; [lia|]. unfold pde_get_pt, PTE_P.
  rewrite land_1, mod_2_page, Hodd by done. rewrite (bind_ok _ _ _ tt s) by done.
  rewrite land_addr by lia.
  assert (E : (page - 3221225472 + f) mod 4096 = f).
  { rewrite Z.add_comm, <-Z.add_mod_idemp_r, Ha', Z.add_0_r by lia. by apply Z.mod_small. }
  rewrite E. unfold ptov. rewrite (bind_ok _ _ _ tt s); [|apply ASSERT_true, Z.ltb_lt; unfold PHYS_BASE; lia].
  unfold mret, M_ret, PHYS_BASE. rewrite u32_small by lia. do 2 f_equal. lia.
Qed.

(** ** Looking up an entry *)

Lemma lookup_page_ok s pd T va :
  pd_rep s pd T -> 0 <= va < PHYS_BASE ->
  lookup_page pd va false s = Ok (if T (pd_no va) =? NULL then NULL else T (pd_no va) + 4 * pt_no va, s).
Proof using.
  intros H Hva. pose proof (kpage_range _ _ (pr_pool _ _ _ H) (pr_pd _ _ _ H)) as (_ & Hl & _).
  unfold lookup_page. rewrite (bind_ok _ _ _ tt s); [|apply ASSERT_true; destruct (Z.eqb_spec pd NULL) as [E|]; [unfold NULL, PHYS_BASE in *; lia|done]].
  rewrite (bind_ok _ _ _ tt s) by done. unfold rd, get, mret, M_ret, mbind, M_bind.
  destruct (pr_tab _ _ _ H (pd_no va) (pd_no_user _ Hva)) as [[E1 E2]|(Hk & _ & Hpt)].
  - by rewrite E2, E1.
  - destruct (kpage_range _ _ (pr_pool _ _ _ H) Hk) as (A1 & A2 & A3).
    destruct (points_to_ok s _ _ A1 A2 A3 Hpt) as [Hne Eg]. unfold PHYS_BASE in A2.
    destruct (Z.eqb_spec (words s (pd + 4 * pd_no va)) 0); [done|]. cbn [negb]. rewrite Eg.
    destruct (Z.eqb_spec (T (pd_no va)) NULL) as [E|]; [unfold NULL in E; lia|done].
Qed.

Lemma pagedir_get_page_ok s pd T ua :
  pd_rep s pd T -> 0 <= ua < PHYS_BASE -> pagedir_get_page pd ua s = Ok (translate s T ua, s).
Proof using.
  intros H Hua. unfold pagedir_get_page. rewrite (bind_ok _ _ _ tt s); [|apply ASSERT_true; unfold is_user_vaddr; lia].
  mstep (lookup_page_ok _ _ _ _ H Hua). unfold translate.
  destruct (Z.eqb_spec (T (pd_no ua)) NULL) as [E|Hne]; [done|].
  destruct (pr_tab _ _ _ H (pd_no ua) (pd_no_user _ Hua)) as [[E _]|(Hk & _)]; [done|].
  destruct (kpage_range _ _ (pr_pool _ _ _ H) Hk) as (_ & A2 & _). unfold PHYS_BASE in A2.
  pose proof (pt_no_range ua) as Hj.
  destruct (Z.eqb_spec (T (pd_no ua) + 4 * pt_no ua) NULL) as [E|_]; [unfold NULL in E; lia|].
  unfold rd, get, mret, M_ret, mbind, M_bind. rewrite flag_present.
  destruct (pr_pte _ _ _ H (pd_no ua) (pt_no ua) (pd_no_user _ Hua) Hne Hj) as [Hw Hp].
  destruct (Z.eqb_spec (words s (T (pd_no ua) + 4 * pt_no ua) mod 2) 1) as [Ho|_]; [|done].
  specialize (Hp Ho). unfold PHYS_BASE in Hp. set (e := words s (T (pd_no ua) + 4 * pt_no ua)) in *.
  pose proof (Z.mod_pos_bound e 4096 ltac:(lia)). pose proof (Z.mod_le e 4096 ltac:(lia) ltac:(lia)).
  unfold pte_get_page. rewrite land_addr by lia. unfold ptov, mbind, M_bind.
  replace (e - e mod 4096 <? PHYS_BASE) with true by (unfold PHYS_BASE; lia). unfold ASSERT, mret, M_ret, PHYS_BASE.
  rewrite u32_small by lia. by rewrite pg_ofs_mod.
Qed.

(** ** Writing an entry *)

Lemma tab_kpage s pd T i : pd_rep s pd T -> 0 <= i < 768 -> T i <> NULL -> kpage s (T i) /\ T i <> pd.
Proof using. intros H Hi Hn. destruct (pr_tab _ _ _ H i Hi) as [[E _]|(Hk & Hne & _)]; done. Qed.

Definition store_word (a v : Z) (s : vm) : vm := set_words (fun b => if b =? a then v else words s b) s.

(** An entry of a page table that the directory may hold. *)
Definition entry_ok (e : Z) : Prop := 0 <= e < 4294967296 /\ (e mod 2 = 1 -> e < 4294967296 - PHYS_BASE).

Lemma entry_words s pd T i j e k l :
  pd_rep s pd T -> 0 <= i < 768 -> T i <> NULL -> 0 <= j < 1024 -> 0 <= k < 768 -> T k <> NULL -> 0 <= l < 1024 ->
  words (store_word (T i + 4 * j) e s) (T k + 4 * l) = if decide (k = i /\ l = j) then e else words s (T k + 4 * l).
Proof using.
  intros H Hi Hti Hj Hk Htk Hl. cbn [store_word set_words words].
  destruct (kpage_range _ _ (pr_pool _ _ _ H) (proj1 (tab_kpage _ _ _ _ H Hi Hti))) as (A1 & _).
  destruct (kpage_range _ _ (pr_pool _ _ _ H) (proj1 (tab_kpage _ _ _ _ H Hk Htk))) as (A2 & _).
  destruct (Z.eqb_spec (T k + 4 * l) (T i + 4 * j)) as [E|Hne]; case_decide as Hd; try done.
  - exfalso. apply Hd. destruct (words_apart _ _ _ _ A2 A1 Hl Hj E) as [ET ->]. split; [|done].
    by apply (pr_inj _ _ _ H k i Hk Hi).
  - exfalso. apply Hne. by destruct Hd as [-> ->].
Qed.

Lemma entry_rep s pd T i j e :
  pd_rep s pd T -> 0 <= i < 768 -> T i <> NULL -> 0 <= j < 1024 -> entry_ok e ->
  pd_rep (store_word (T i + 4 * j) e s) pd T.
Proof using.
  intros H Hi Hti Hj He. destruct (tab_kpage _ _ _ _ H Hi Hti) as [Hk Hnpd].
  destruct (kpage_range _ _ (pr_pool _ _ _ H) Hk) as (A1 & _).
  destruct (kpage_range _ _ (pr_pool _ _ _ H) (pr_pd _ _ _ H)) as (A2 & _). split.
  - apply (pr_pool _ _ _ H).
  - apply (pr_pd _ _ _ H).
  - intros k Hk'. replace (words (store_word (T i + 4 * j) e s) (pd + 4 * k)) with (words s (pd + 4 * k));
      [apply (pr_tab _ _ _ H k Hk')|].
    cbn [store_word set_words words]. destruct (Z.eqb_spec (pd + 4 * k) (T i + 4 * j)) as [E|]; [|done].
    destruct (words_apart pd (T i) k j A2 A1 ltac:(lia) Hj E) as [E' _]. congruence.
  - apply (pr_inj _ _ _ H).
  - intros k l Hk' Htk Hl. rewrite (entry_words s pd T i j e k l) by done.
    case_decide; [done|by apply (pr_pte _ _ _ H)].
Qed.

(** What an entry maps the offset of [ua] to. *)
Definition entry_addr (e ua : Z) : Z :=
  if e mod 2 =? 1 then e - e mod 4096 + PHYS_BASE + ua mod 4096 else NULL.

Lemma translate_store s pd T va e ua :
  pd_rep s pd T -> 0 <= va < PHYS_BASE -> 0 <= ua < PHYS_BASE -> T (pd_no va) <> NULL ->
  translate (store_word (T (pd_no va) + 4 * pt_no va) e s) T ua
  = if ua / 4096 =? va / 4096 then entry_addr e ua else translate s T ua.
Proof using.
  intros H Hva Hua Ht. pose proof (pd_no_user _ Hva) as Hi. pose proof (pd_no_user _ Hua) as Hk.
  pose proof (pt_no_range va) as Hj. pose proof (pt_no_range ua) as Hl.
  unfold translate. rewrite !page_index. destruct (Z.eqb_spec (T (pd_no ua)) NULL) as [E|Hn].
  - destruct (Z.eqb_spec (1024 * pd_no ua + pt_no ua) (1024 * pd_no va + pt_no va)); [|done].
    assert (pd_no ua = pd_no va) by lia. congruence.
  - rewrite (entry_words s pd T) by done. case_decide as Hd.
    + destruct Hd as [-> ->]. by rewrite Z.eqb_refl.
    + destruct (Z.eqb_spec (1024 * pd_no ua + pt_no ua) (1024 * pd_no va + pt_no va)); [exfalso; apply Hd; lia|done].
Qed.

(** ** A new page table *)

Definition with_table (T : Z -> Z) (i pt : Z) : Z -> Z := fun k => if k =? i then pt else T k.

(** The state in which the table PT has been allocated for the entry [i]. *)
Definition table_state (s : vm) (b : bitmap) (pd i pt : Z) : vm :=
  store_word (pd + 4 * i) (pt - PHYS_BASE + 7) (taken false b PAL_ZERO pt 1 s).

Lemma with_table_rep s pd T i n b :
  pd_rep s pd T -> 0 <= i < 768 -> T i = NULL ->
  first_run (used_map (kernel_pool s)) 0 1 false n -> updated (used_map (kernel_pool s)) b (in_range n 1) true ->
  let pt := base (kernel_pool s) + 4096 * n in let s' := table_state s b pd i pt in
  pd_rep s' pd (with_table T i pt) /\ pt <> NULL /\ (forall j, 0 <= j < 1024 -> words s' (pt + 4 * j) = 0) /\
  (forall ua, 0 <= ua < PHYS_BASE -> translate s' (with_table T i pt) ua = translate s T ua).
Proof using.
  intros H Hi Ht (R1 & R2 & R3 & _) U pt s'. pose proof (pr_pool _ _ _ H) as Hp.
  pose proof (po_low _ Hp) as Hlo. pose proof (po_high _ Hp) as Hhi. unfold PHYS_BASE in Hlo.
  assert (Ek : kernel_pool s' = Pool b (base (kernel_pool s))) by reflexivity.
  assert (Ew : words s' = fun a => if a =? pd + 4 * i then pt - PHYS_BASE + 7 else fill pt (4096 * 1) 0 (words s) a) by reflexivity.
  assert (Hpool : pool_ok (kernel_pool s')).
  { rewrite Ek. split; cbn [used_map base]; [apply U|apply (po_aligned _ Hp)|apply (po_low _ Hp)|rewrite (upd_cnt _ _ _ _ U); apply Hhi]. }
  assert (Hkeep : forall page, kpage s page -> kpage s' page /\ page <> pt).
  { intros page (k & [Hk ->] & Hb). assert (Hkn : k <> n).
    { intros ->. specialize (R3 n ltac:(lia)). congruence. }
    split; [|unfold pt; lia]. exists k. unfold page_at. rewrite Ek. cbn [used_map base]. rewrite (upd_cnt _ _ _ _ U). split; [done|].
    rewrite (upd_bit _ _ _ _ U) by lia. by rewrite in_range_false by lia. }
  assert (Hnew : kpage s' pt).
  { exists n. unfold page_at. rewrite Ek. cbn [used_map base]. rewrite (upd_cnt _ _ _ _ U). split; [split; [lia|done]|].
    rewrite (upd_bit _ _ _ _ U) by lia. by rewrite in_range_true by lia. }
  destruct (kpage_range _ _ Hpool Hnew) as (A1 & A2 & A3). unfold PHYS_BASE in A2.
  destruct (Hkeep _ (pr_pd _ _ _ H)) as [Hpd Hpdn]. destruct (kpage_range _ _ Hpool Hpd) as (B1 & B2 & B3).
  assert (W : forall p j, p mod 4096 = 0 -> 0 <= j < 1024 -> p <> pt ->
    words s' (p + 4 * j) = if decide (p = pd /\ j = i) then pt - PHYS_BASE + 7 else words s (p + 4 * j)).
  { intros p j Hpa Hj Hne. rewrite Ew. destruct (Z.eqb_spec (p + 4 * j) (pd + 4 * i)) as [E|Hne'].
    - destruct (words_apart p pd j i Hpa B1 Hj ltac:(lia) E) as [-> ->]. by rewrite decide_True.
    - rewrite decide_False by (intros [-> ->]; lia). unfold fill.
      destruct (Z.leb_spec pt (p + 4 * j)), (Z.ltb_spec (p + 4 * j) (pt + 4096 * 1)); try done.
      pose proof (Z.div_mod p 4096 ltac:(lia)). pose proof (Z.div_mod pt 4096 ltac:(lia)). lia. }
  assert (Wz : forall j, 0 <= j < 1024 -> words s' (pt + 4 * j) = 0).
  { intros j Hj. rewrite Ew. destruct (Z.eqb_spec (pt + 4 * j) (pd + 4 * i)) as [E|Hne'].
    - destruct (words_apart pt pd j i A1 B1 Hj ltac:(lia) E). congruence.
    - unfold fill. destruct (Z.leb_spec pt (pt + 4 * j)), (Z.ltb_spec (pt + 4 * j) (pt + 4096 * 1)); try lia. done. }
  assert (Tn : forall k, 0 <= k < 768 -> T k <> NULL -> T k <> pt /\ (T k) mod 4096 = 0 /\ T k <> pd).
  { intros k Hk Hn. destruct (tab_kpage _ _ _ _ H Hk Hn) as [Hkp Hnpd]. destruct (Hkeep _ Hkp) as [Hkp' Hne].
    split_and!; [done|apply (kpage_range _ _ Hpool Hkp')|done]. }
  split_and!; [|unfold NULL; lia|exact Wz|].
  - split; [exact Hpool|exact Hpd| | |].
    + intros k Hk. unfold with_table. destruct (Z.eqb_spec k i) as [->|Hne].
      * right. split_and!; [done|done|]. exists 7. rewrite W, decide_True by (done || lia). done.
      * rewrite W, decide_False by (done || lia). destruct (pr_tab _ _ _ H k Hk) as [?|(Hkp & ? & ?)]; [by left|right].
        by destruct (Hkeep _ Hkp).
    + intros k l Hk Hl. unfold with_table. destruct (Z.eqb_spec k i) as [->|Hne], (Z.eqb_spec l i) as [->|Hne']; try done.
      * intros _ E. destruct (decide (T l = NULL)) as [E0|Hn]; [unfold NULL in *; lia|]. by destruct (Tn l Hl Hn).
      * intros Hn E. by destruct (Tn k Hk Hn).
      * by apply (pr_inj _ _ _ H).
    + intros k l Hk. unfold with_table. destruct (Z.eqb_spec k i) as [->|Hne]; intros Hn Hl.
      * rewrite Wz by done. split; [lia|done].
      * destruct (Tn k Hk Hn) as (N1 & N2 & N3). rewrite W, decide_False by (done || tauto). by apply (pr_pte _ _ _ H).
  - intros ua Hua. pose proof (pd_no_user _ Hua) as Hk. pose proof (pt_no_range ua) as Hl.
    unfold translate, with_table. destruct (Z.eqb_spec (pd_no ua) i) as [->|Hne].
    + rewrite Ht. destruct (Z.eqb_spec pt NULL) as [E|_]; [unfold NULL in E; lia|]. by rewrite Wz.
    + destruct (Z.eqb_spec (T (pd_no ua)) NULL) as [|Hn]; [done|]. destruct (Tn _ Hk Hn) as (N1 & N2 & N3).
      by rewrite W, decide_False by (done || tauto).
Qed.

(** Pages may have been taken from the kernel pool, nothing else. *)
Definition same_pools (s s' : vm) : Prop :=
  user_pool s' = user_pool s /\ base (kernel_pool s') = base (kernel_pool s) /\
  bit_cnt (used_map (kernel_pool s')) = bit_cnt (used_map (kernel_pool s)).

Lemma lookup_create_ok s pd T va :
  pd_rep s pd T -> 0 <= va < PHYS_BASE ->
  (no_run (used_map (kernel_pool s)) 0 1 false /\ T (pd_no va) = NULL /\ lookup_page pd va true s = Ok (NULL, s)) \/
  exists s' T', lookup_page pd va true s = Ok (T' (pd_no va) + 4 * pt_no va, s') /\ pd_rep s' pd T' /\
    T' (pd_no va) <> NULL /\ (forall ua, 0 <= ua < PHYS_BASE -> translate s' T' ua = translate s T ua) /\
    same_pools s s'.
Proof using.
  intros H Hva. pose proof (pd_no_user _ Hva) as Hi. pose proof (pr_pool _ _ _ H) as Hp.
  destruct (kpage_range _ _ Hp (pr_pd _ _ _ H)) as (B1 & Hl & _). unfold PHYS_BASE in Hl.
  unfold lookup_page. rewrite (bind_ok _ _ _ tt s);
    [|apply ASSERT_true; destruct (Z.eqb_spec pd NULL) as [E|]; [unfold NULL in E; lia|done]].
  rewrite (bind_ok _ _ _ tt s); [|apply ASSERT_true; unfold is_user_vaddr; cbn; lia].
  cbv beta. mstep (rd_ok (pd + 4 * pd_no va) s).
  destruct (pr_tab _ _ _ H (pd_no va) Hi) as [[E1 E2]|(Hk & _ & Hpt)].
  - rewrite E2. cbn [Z.eqb].
    destruct (palloc_get_multiple_ok PAL_ZERO 1 s) as [[Hno E]|(n & b & Hrun & U & E)]; [done|lia|lia| |].
    + left. split_and!; [done|done|]. unfold palloc_get_page. rewrite bind_assoc. by mstep E.
    + right. change (flag PAL_ZERO PAL_USER) with false in *. cbn [get_pool] in *.
      set (pt := base (kernel_pool s) + 4096 * n) in *.
      destruct (with_table_rep s pd T (pd_no va) n b H Hi E1 Hrun U) as (R & Hn & _ & Htr). fold pt in R, Hn, Htr.
      exists (table_state s b pd (pd_no va) pt), (with_table T (pd_no va) pt).
      assert (Ewt : with_table T (pd_no va) pt (pd_no va) = pt) by (unfold with_table; by rewrite Z.eqb_refl).
      rewrite Ewt. split_and!; [|done|done|done|by split_and!; try apply (upd_cnt _ _ _ _ U)].
      assert (Hnew : kpage (table_state s b pd (pd_no va) pt) pt).
      { rewrite <-Ewt at 2. apply (tab_kpage _ _ _ _ R Hi). by rewrite Ewt. }
      destruct (kpage_range _ _ (pr_pool _ _ _ R) Hnew) as (A1 & A2 & A3).
      unfold palloc_get_page. rewrite bind_assoc. mstep E. destruct (Z.eqb_spec pt NULL) as [|_]; [done|].
      set (s1 := taken false b PAL_ZERO pt 1 s).
      assert (Ec : pde_create pt s1 = Ok (pt - PHYS_BASE + 7, s1)).
      { unfold pde_create. rewrite pg_ofs_mod, A1. rewrite (bind_ok _ _ _ tt s1) by done.
        unfold vtop. rewrite bind_assoc, (bind_ok _ _ _ tt s1); [|apply ASSERT_true; unfold is_kernel_vaddr; lia].
        rewrite bind_ret. unfold mret, M_ret, PTE_U, PTE_P, PTE_W. do 2 f_equal.
        rewrite <-!Z.lor_assoc. apply lor_aligned; [|done]. unfold PHYS_BASE.
        replace (pt - 3221225472) with (pt + (-786432) * 4096) by lia. by rewrite Z.mod_add. }
      rewrite bind_assoc. mstep Ec.
      assert (Ew : wr (pd + 4 * pd_no va) (pt - PHYS_BASE + 7) s1 = Ok (tt, table_state s b pd (pd_no va) pt)) by done.
      rewrite bind_assoc. mstep Ew. rewrite bind_ret. cbn [negb].
      mstep (rd_ok (pd + 4 * pd_no va) (table_state s b pd (pd_no va) pt)).
      assert (Epde : words (table_state s b pd (pd_no va) pt) (pd + 4 * pd_no va) = pt - PHYS_BASE + 7).
      { cbn. by rewrite Z.eqb_refl. }
      rewrite Epde. destruct (points_to_ok (table_state s b pd (pd_no va) pt) (pt - PHYS_BASE + 7) pt A1 A2 A3) as [_ Eg];
        [by exists 7|]. by mstep Eg.
  - right. destruct (kpage_range _ _ Hp Hk) as (A1 & A2 & A3). unfold PHYS_BASE in A2.
    destruct (points_to_ok s _ _ A1 A2 A3 Hpt) as [Hne Eg]. exists s, T. split_and!; try done; [|unfold NULL; lia].
    destruct (Z.eqb_spec (words s (pd + 4 * pd_no va)) 0); [done|]. rewrite bind_ret. cbn [negb].
    mstep (rd_ok (pd + 4 * pd_no va) s). by mstep Eg.
Qed.

End Dir.
