(* ===== verification/PageProps.v ===== *)
(** * Properties of the page allocator and of page directories *)

From S2P Require Import Prelude ListModel Bitmap BitmapThms Page PageThms PageDir.

(** ** The allocator *)

(** A pool gets another bitmap of the same size. *)
Lemma pools_map user b s s' :
  pools_ok s -> wf b -> bit_cnt b = bit_cnt (used_map (get_pool user s)) ->
  get_pool user s' = Pool b (base (get_pool user s)) -> get_pool (negb user) s' = get_pool (negb user) s ->
  pools_ok s'.
Proof.
  intros [Hk Hu Ha] Hw Hc E1 E2. destruct Hk as [K1 K2 K3 K4], Hu as [U1 U2 U3 U4].
  destruct user; cbn [negb get_pool] in *; split; rewrite ?E1, ?E2; cbn [used_map base]; rewrite ?Hc;
    try done; split; cbn [used_map base]; rewrite ?Hc; done.
Qed.

(** C38: The page allocator.  A request for pages either finds no free run, and
    then returns a null pointer with nothing changed or panics when asked to,
    or returns page-aligned kernel memory whose pages were all free and are now
    all in use, every other page keeping its state.  Freeing those pages brings
    the bitmap of the pool back to what it was, and freeing them again fails an
    assertion. *)
Theorem palloc_roundtrip flags n s :
  pools_ok s -> 0 < n -> 4096 * n < 4294967296 ->
  let user := flag flags PAL_USER in let p := get_pool user s in
  (no_run (used_map p) 0 n false /\
   palloc_get_multiple flags n s = if flag flags PAL_ASSERT then Err EPanic else Ok (NULL, s)) \/
  (exists i s' s'', palloc_get_multiple flags n s = Ok (base p + 4096 * i, s') /\
     run (used_map p) i n false /\ 0 <= i /\ i + n <= bit_cnt (used_map p) /\
     (base p + 4096 * i) mod 4096 = 0 /\ PHYS_BASE <= base p + 4096 * i /\
     base p + 4096 * (i + n) <= 4294967296 /\
     (forall j, 0 <= j -> bit (used_map (get_pool user s')) j = if in_range i n j then true else bit (used_map p) j) /\
     get_pool (negb user) s' = get_pool (negb user) s /\
     palloc_free_multiple (base p + 4096 * i) n s' = Ok (tt, s'') /\
     (forall j, 0 <= j -> bit (used_map (get_pool user s'')) j = bit (used_map p) j) /\
     palloc_free_multiple (base p + 4096 * i) n s'' = Err EAssert).
Proof.
  intros Hs Hn Hmax user p. pose proof (ps_get user s Hs) as Hp.
  destruct (palloc_get_multiple_ok flags n s Hp Hn Hmax) as [H|(i & b & Hrun & U & E)]; [by left|right].
  fold user p in Hp, Hrun, U, E. pose proof Hrun as (R1 & R2 & R3 & _).
  set (s1 := taken user b flags (base p + 4096 * i) n s) in *.
  assert (Hs1 : pools_ok s1) by
    (apply (pools_map user b s); [done|apply U|apply U|unfold s1, taken; by destruct user, (flag flags PAL_ZERO)..]).
  assert (P1 : get_pool user s1 = Pool b (base p)) by (unfold s1, taken, p; by destruct user, (flag flags PAL_ZERO)).
  destruct (palloc_free_multiple_ok s1 user i n Hs1 Hn R1) as [Hfree _]; [by rewrite P1; cbn; rewrite (upd_cnt _ _ _ _ U)|].
  rewrite P1 in Hfree. cbn [used_map base] in Hfree. destruct Hfree as (b2 & E2 & U2).
  { intros j Hj. rewrite (upd_bit _ _ _ _ U) by lia. by rewrite in_range_true. }
  set (s2 := set_words _ _) in E2. assert (P2 : get_pool user s2 = Pool b2 (base p)) by (unfold s2; by destruct user).
  assert (Hbits : forall j, 0 <= j -> bit b2 j = bit (used_map p) j).
  { intros j Hj. rewrite (upd_bit _ _ _ _ U2), (upd_bit _ _ _ _ U) by done.
    destruct (in_range i n j) eqn:Er; [|done]. symmetry. apply R3. unfold in_range in Er. lia. }
  assert (Hs2 : pools_ok s2).
  { apply (pools_map user b2 s1); [done|apply U2| |by rewrite P1, P2|unfold s2; by destruct user].
    rewrite P1. apply (upd_cnt _ _ _ _ U2). }
  destruct (palloc_free_multiple_ok s2 user i n Hs2 Hn R1) as [_ Hagain].
  { rewrite P2. cbn [used_map]. by rewrite (upd_cnt _ _ _ _ U2), (upd_cnt _ _ _ _ U). }
  rewrite P2 in Hagain. cbn [used_map base] in Hagain.
  pose proof (po_low _ Hp). pose proof (po_high _ Hp).
  exists i, s1, s2. rewrite P1, P2. cbn [used_map]. split_and!; try done; try lia.
  - rewrite Z.mul_comm, Z.mod_add by lia. apply (po_aligned _ Hp).
  - intros j Hj. by rewrite (upd_bit _ _ _ _ U).
  - unfold s1, taken. by destruct user, (flag flags PAL_ZERO).
  - apply Hagain. intros Hr. specialize (Hr i ltac:(lia)). rewrite (upd_bit _ _ _ _ U2), in_range_true in Hr by lia. done.
Qed.

(** Two pools of 32 pages; in the kernel pool the pages 0, 1 and 3 are used. *)
Definition demo_vm : vm :=
  VM (Pool (Bitmap 32 [11]) 3222298624) (Pool (Bitmap 32 [0]) 3222429696) (fun _ => 0) 1073152.

Lemma demo_vm_ok : pools_ok demo_vm.
Proof.
  assert (W : forall w, 0 <= w < 4294967296 -> wf (Bitmap 32 [w])).
  { intros w Hw. split; cbn; [lia|vm_compute; discriminate|]. constructor; [exact Hw|constructor]. }
  split; [split|split|]; cbn; try (apply W; lia); try (vm_compute; congruence); unfold PHYS_BASE; lia.
Qed.

Lemma palloc_roundtrip_witness :
  exists s' s'', palloc_get_multiple 0 2 demo_vm = Ok (3222298624 + 4096 * 4, s') /\
    palloc_free_multiple (3222298624 + 4096 * 4) 2 s' = Ok (tt, s'') /\
    palloc_free_multiple (3222298624 + 4096 * 4) 2 s'' = Err EAssert.
Proof.
  destruct (palloc_roundtrip 0 2 demo_vm demo_vm_ok) as [[Hno _]|(i & s' & s'' & E & _ & _ & _ & _ & _ & _ & _ & _ & F & _ & G)];
    [lia|lia| |].
  - exfalso. apply (Hno 4); [lia|vm_compute; discriminate|]. intros j Hj.
    assert (j = 4 \/ j = 5) as [->| ->] by lia; vm_compute; reflexivity.
  - assert (i = 4) as ->.
    { assert (E' : exists s1, palloc_get_multiple 0 2 demo_vm = Ok (3222315008, s1)) by (eexists; vm_compute; reflexivity).
      destruct E' as [s1 E']. rewrite E' in E. injection E as E _. change (3222315008 = 3222298624 + 4096 * i) in E. lia. }
    exists s', s''. split; [exact E|split; [exact F|exact G]].
Defined.

(** ** Page directories *)

Lemma clear_entry e : 0 <= e < 4294967296 -> Z.land e (u32 (Z.lnot PTE_P)) = e - e mod 2.
Proof. intros He. change (u32 (Z.lnot PTE_P)) with (Z.land (Z.ones 32) (Z.lnot (Z.ones 1))). by rewrite land_mask. Qed.

(** The entry that [pagedir_set_page] writes. *)
Definition user_entry (kpage : Z) (writable : bool) : Z := kpage - PHYS_BASE + (if writable then 7 else 5).

Lemma phys_aligned kp : kp mod 4096 = 0 -> (kp - PHYS_BASE) mod 4096 = 0.
Proof. intros H. unfold PHYS_BASE. replace (kp - 3221225472) with (kp + (-786432) * 4096) by lia. by rewrite Z.mod_add. Qed.

Lemma pte_create_user_ok (s : vm) kp writable :
  kp mod 4096 = 0 -> PHYS_BASE <= kp -> pte_create_user kp writable s = Ok (user_entry kp writable, s).
Proof.
  intros Ha Hl. unfold pte_create_user, pte_create_kernel. rewrite pg_ofs_mod, Ha.
  rewrite bind_assoc, (bind_ok _ _ _ tt s) by done. cbv beta. unfold vtop.
  rewrite !bind_assoc, (bind_ok _ _ _ tt s); [|apply ASSERT_true; unfold is_kernel_vaddr; lia]. cbv beta. rewrite !bind_ret.
  unfold mret, M_ret, user_entry, PTE_P, PTE_W, PTE_U. do 2 f_equal.
  rewrite <-!Z.lor_assoc. destruct writable; apply lor_aligned; by try apply phys_aligned.
Qed.

Lemma user_entry_ok kp writable ua :
  kp mod 4096 = 0 -> PHYS_BASE <= kp < 4294967296 ->
  entry_ok (user_entry kp writable) /\ entry_addr (user_entry kp writable) ua = kp + ua mod 4096.
Proof.
  intros Ha Hr. pose proof (phys_aligned kp Ha) as Hp. pose proof (Z.div_mod kp 4096 ltac:(lia)) as Hd.
  assert (Hm : user_entry kp writable mod 4096 = (if writable then 7 else 5) /\ user_entry kp writable mod 2 = 1).
  { unfold user_entry. rewrite mod_2_page by done. rewrite Z.add_comm, <-Z.add_mod_idemp_r, Hp by lia. by destruct writable. }
  destruct Hm as [M1 M2]. unfold entry_ok, entry_addr. rewrite M1, M2. unfold user_entry, PHYS_BASE in *.
  split; destruct writable; cbn [Z.eqb Pos.eqb]; lia.
Qed.

Lemma invalidate_ok init_page_dir s pd :
  0 <= cr3 s < PHYS_BASE -> PHYS_BASE <= pd ->
  exists c, invalidate_pagedir init_page_dir pd s = Ok (tt, VM (kernel_pool s) (user_pool s) (words s) c).
Proof.
  intros Hc Hp. unfold invalidate_pagedir, active_pd, get, ptov, mbind, M_bind.
  replace (cr3 s <? PHYS_BASE) with true by lia. unfold ASSERT, mret, M_ret.
  destruct (_ =? pd); [|exists (cr3 s); by destruct s].
  unfold pagedir_activate, vtop, mbind, M_bind. destruct (Z.eqb_spec pd NULL) as [E|_]; [unfold NULL, PHYS_BASE in *; lia|].
  unfold ASSERT, is_kernel_vaddr. replace (PHYS_BASE <=? pd) with true by lia. by eexists.
Qed.

Lemma pd_rep_cr3 s pd T c : pd_rep s pd T -> pd_rep (VM (kernel_pool s) (user_pool s) (words s) c) pd T.
Proof. intros [H1 H2 H3 H4 H5]. by split. Qed.

Lemma translate_present s pd T ua :
  pd_rep s pd T -> 0 <= ua < PHYS_BASE ->
  translate s T ua = NULL <-> T (pd_no ua) = NULL \/ words s (T (pd_no ua) + 4 * pt_no ua) mod 2 <> 1.
Proof.
  intros H Hua. unfold translate. destruct (Z.eqb_spec (T (pd_no ua)) NULL) as [E|Hn]; [tauto|].
  destruct (pr_pte _ _ _ H _ _ (pd_no_user _ Hua) Hn (pt_no_range ua)) as [Hw _].
  set (e := words s (T (pd_no ua) + 4 * pt_no ua)) in *.
  pose proof (Z.mod_le e 4096 ltac:(lia) ltac:(lia)). pose proof (Z.mod_pos_bound ua 4096 ltac:(lia)).
  destruct (Z.eqb_spec (e mod 2) 1); [|tauto]. unfold NULL, PHYS_BASE in *. lia.
Qed.

Lemma clear_page_ok init_page_dir s pd T upage :
  pd_rep s pd T -> 0 <= cr3 s < PHYS_BASE -> upage mod 4096 = 0 -> 0 <= upage < PHYS_BASE ->
  exists s', pagedir_clear_page init_page_dir pd upage s = Ok (tt, s') /\ pd_rep s' pd T /\
    forall ua, 0 <= ua < PHYS_BASE ->
      translate s' T ua = if ua / 4096 =? upage / 4096 then NULL else translate s T ua.
Proof.
  intros H Hc Ha Hu. destruct (kpage_range _ _ (pr_pool _ _ _ H) (pr_pd _ _ _ H)) as (_ & Hpd & _).
  unfold pagedir_clear_page. rewrite pg_ofs_mod, Ha. rewrite (bind_ok _ _ _ tt s) by done. cbv beta.
  rewrite (bind_ok _ _ _ tt s) by (apply ASSERT_true; unfold is_user_vaddr; lia). cbv beta.
  mstep (lookup_page_ok _ _ _ _ H Hu).
  assert (Hsame : translate s T upage = NULL -> forall ua, 0 <= ua < PHYS_BASE ->
    translate s T ua = if ua / 4096 =? upage / 4096 then NULL else translate s T ua).
  { intros Hn ua Hua. destruct (Z.eqb_spec (ua / 4096) (upage / 4096)) as [E|]; [|done].
    rewrite !page_index in E. pose proof (pt_no_range ua). pose proof (pt_no_range upage).
    apply (translate_present s pd T ua H Hua). apply (translate_present s pd T upage H Hu) in Hn.
    replace (pd_no ua) with (pd_no upage) by lia. replace (pt_no ua) with (pt_no upage) by lia. done. }
  destruct (Z.eqb_spec (T (pd_no upage)) NULL) as [E|Hn].
  { exists s. split_and!; [done|done|]. apply Hsame. apply (translate_present s pd T upage H Hu). by left. }
  destruct (kpage_range _ _ (pr_pool _ _ _ H) (proj1 (tab_kpage _ _ _ _ H (pd_no_user _ Hu) Hn))) as (_ & Hpt & _).
  pose proof (pt_no_range upage) as Hj. destruct (Z.eqb_spec (T (pd_no upage) + 4 * pt_no upage) NULL) as [E|_];
    [unfold NULL, PHYS_BASE in *; lia|].
  mstep (rd_ok (T (pd_no upage) + 4 * pt_no upage) s). rewrite flag_present.
  destruct (pr_pte _ _ _ H _ _ (pd_no_user _ Hu) Hn Hj) as [Hw Hp].
  set (e := words s (T (pd_no upage) + 4 * pt_no upage)) in *. destruct (Z.eqb_spec (e mod 2) 1) as [Ho|Ho].
  - rewrite clear_entry by done. set (s1 := store_word (T (pd_no upage) + 4 * pt_no upage) (e - e mod 2) s).
    assert (Ew : wr (T (pd_no upage) + 4 * pt_no upage) (e - e mod 2) s = Ok (tt, s1)) by done. mstep Ew.
    destruct (invalidate_ok init_page_dir s1 pd Hc Hpd) as [c Ei]. rewrite Ei. eexists. split; [done|].
    assert (Heven : (e - e mod 2) mod 2 = 0).
    { rewrite Ho. rewrite Zminus_mod, Ho. done. }
    assert (R1 : pd_rep s1 pd T).
    { assert (e <> 0) by (intros E0; by rewrite E0 in Ho).
      apply entry_rep; [done|by apply pd_no_user|done|done|]. split; [lia|]. rewrite Heven. lia. }
    split; [by apply pd_rep_cr3|]. intros ua Hua. change (translate s1 T ua = if ua / 4096 =? upage / 4096 then NULL else translate s T ua).
    unfold s1. rewrite (translate_store s pd T upage) by done. unfold entry_addr. by rewrite Heven.
  - exists s. split_and!; [done|done|]. apply Hsame. apply (translate_present s pd T upage H Hu). by right.
Qed.

Lemma set_page_ok init_page_dir init_ram_pages s pd T upage kp writable :
  pd_rep s pd T -> pd <> init_page_dir -> upage mod 4096 = 0 -> 0 <= upage < PHYS_BASE ->
  kp mod 4096 = 0 -> PHYS_BASE <= kp < 4294967296 -> (kp - PHYS_BASE) / 4096 < init_ram_pages ->
  (translate s T upage <> NULL -> pagedir_set_page init_page_dir init_ram_pages pd upage kp writable s = Err EAssert) /\
  (translate s T upage = NULL ->
     (no_run (used_map (kernel_pool s)) 0 1 false /\
      pagedir_set_page init_page_dir init_ram_pages pd upage kp writable s = Ok (false, s)) \/
     exists s' T', pagedir_set_page init_page_dir init_ram_pages pd upage kp writable s = Ok (true, s') /\
       pd_rep s' pd T' /\ same_pools s s' /\ forall ua, 0 <= ua < PHYS_BASE ->
         translate s' T' ua = if ua / 4096 =? upage / 4096 then kp + ua mod 4096 else translate s T ua).
Proof.
  intros H Hinit Ha Hu Hka Hkr Hram.
  assert (Erun : pagedir_set_page init_page_dir init_ram_pages pd upage kp writable s =
    (pte ← lookup_page pd upage true;
     if negb (pte =? NULL) then
       e ← rd pte; ASSERT (Z.land e PTE_P =? 0);; e ← pte_create_user kp writable; wr pte e;; mret true
     else mret false) s).
  { unfold pagedir_set_page, vtop. rewrite !pg_ofs_mod, Ha, Hka.
    rewrite (bind_ok _ _ _ tt s) by done. cbv beta. rewrite (bind_ok _ _ _ tt s) by done. cbv beta.
    rewrite (bind_ok _ _ _ tt s) by (apply ASSERT_true; unfold is_user_vaddr; lia). cbv beta.
    rewrite bind_assoc, (bind_ok _ _ _ tt s) by (apply ASSERT_true; unfold is_kernel_vaddr; lia). cbv beta. rewrite bind_ret.
    rewrite (bind_ok _ _ _ tt s) by (apply ASSERT_true; rewrite Z.shiftr_div_pow2 by lia; change (2 ^ 12) with 4096; lia). cbv beta.
    by rewrite (bind_ok _ _ _ tt s) by (apply ASSERT_true; destruct (Z.eqb_spec pd init_page_dir); done). }
  rewrite Erun. destruct (lookup_create_ok s pd T upage H Hu) as [(Hno & Hn & E)|(s1 & T1 & E & R & Hn & Htr & Hsp)]; mstep E.
  { split; [|by left]. intros Ht. exfalso. apply Ht. apply (translate_present s pd T upage H Hu). by left. }
  destruct (kpage_range _ _ (pr_pool _ _ _ R) (proj1 (tab_kpage _ _ _ _ R (pd_no_user _ Hu) Hn))) as (_ & Hpt & _).
  pose proof (pt_no_range upage) as Hj. destruct (Z.eqb_spec (T1 (pd_no upage) + 4 * pt_no upage) NULL) as [E0|_];
    [unfold NULL, PHYS_BASE in *; lia|]. cbn [negb].
  mstep (rd_ok (T1 (pd_no upage) + 4 * pt_no upage) s1). unfold PTE_P. rewrite land_1.
  set (e := words s1 (T1 (pd_no upage) + 4 * pt_no upage)) in *. rewrite <-(Htr upage Hu).
  pose proof (translate_present s1 pd T1 upage R Hu) as Hpres. fold e in Hpres.
  pose proof (Z.mod_pos_bound e 2 ltac:(lia)). destruct (Z.eqb_spec (e mod 2) 0) as [He|He].
  - split; [intros Hne; exfalso; apply Hne; apply Hpres; right; lia|]. intros _. right.
    rewrite (bind_ok _ _ _ tt s1) by done. cbv beta. mstep (pte_create_user_ok s1 kp writable Hka (proj1 Hkr)).
    set (s2 := store_word (T1 (pd_no upage) + 4 * pt_no upage) (user_entry kp writable) s1).
    assert (Ew : wr (T1 (pd_no upage) + 4 * pt_no upage) (user_entry kp writable) s1 = Ok (tt, s2)) by done. mstep Ew.
    exists s2, T1. split_and!; [done|apply entry_rep; try done; [by apply pd_no_user|by apply (user_entry_ok kp writable 0)]|done|].
    intros ua Hua. unfold s2. rewrite (translate_store s1 pd T1 upage) by done.
    destruct (user_entry_ok kp writable ua Hka Hkr) as [_ ->]. by rewrite Htr.
  - split; [done|]. intros Ht. apply Hpres in Ht. destruct Ht as [?|Ht]; [done|]. lia.
Qed.

(** C7: A page directory implements a map from user pages to frames.
    [pagedir_get_page] reads it without changing it.  [pagedir_set_page] adds
    exactly one page to it, allocating a page table when the directory has none
    for the address, or returns false with nothing changed when there is no
    memory for one; on a page that is mapped it fails an assertion.
    [pagedir_clear_page] removes exactly one page. *)
Theorem pagedir_refines_map init_page_dir init_ram_pages s pd T upage kp writable :
  pd_rep s pd T -> 0 <= cr3 s < PHYS_BASE -> pd <> init_page_dir ->
  upage mod 4096 = 0 -> 0 <= upage < PHYS_BASE ->
  kp mod 4096 = 0 -> PHYS_BASE <= kp < 4294967296 -> (kp - PHYS_BASE) / 4096 < init_ram_pages ->
  (forall ua, 0 <= ua < PHYS_BASE -> pagedir_get_page pd ua s = Ok (translate s T ua, s)) /\
  (translate s T upage <> NULL ->
     pagedir_set_page init_page_dir init_ram_pages pd upage kp writable s = Err EAssert) /\
  (translate s T upage = NULL ->
     (no_run (used_map (kernel_pool s)) 0 1 false /\
      pagedir_set_page init_page_dir init_ram_pages pd upage kp writable s = Ok (false, s)) \/
     exists s' T', pagedir_set_page init_page_dir init_ram_pages pd upage kp writable s = Ok (true, s') /\
       pd_rep s' pd T' /\ forall ua, 0 <= ua < PHYS_BASE ->
         pagedir_get_page pd ua s'
         = Ok (if ua / 4096 =? upage / 4096 then kp + ua mod 4096 else translate s T ua, s')) /\
  (exists s', pagedir_clear_page init_page_dir pd upage s = Ok (tt, s') /\ pd_rep s' pd T /\
     forall ua, 0 <= ua < PHYS_BASE ->
       pagedir_get_page pd ua s' = Ok (if ua / 4096 =? upage / 4096 then NULL else translate s T ua, s')).
Proof.
  intros H Hc Hinit Ha Hu Hka Hkr Hram.
  destruct (set_page_ok init_page_dir init_ram_pages s pd T upage kp writable H Hinit Ha Hu Hka Hkr Hram) as [H1 H2].
  split_and!; [intros ua Hua; by apply pagedir_get_page_ok|done| |].
  - intros Hn. destruct (H2 Hn) as [?|(s' & T' & E & R & _ & Htr)]; [by left|right]. exists s', T'. split_and!; [done|done|].
    intros ua Hua. by rewrite (pagedir_get_page_ok _ _ _ _ R Hua), Htr.
  - destruct (clear_page_ok init_page_dir s pd T upage H Hc Ha Hu) as (s' & E & R & Htr). exists s'. split_and!; [done|done|].
    intros ua Hua. by rewrite (pagedir_get_page_ok _ _ _ _ R Hua), Htr.
Qed.

(** An empty directory in page 0 of the kernel pool. *)
Lemma demo_pd : pd_rep demo_vm 3222298624 (fun _ => NULL).
Proof.
  split; try done; [apply demo_vm_ok|exists 0; split; [split; [cbn; lia|done]|vm_compute; reflexivity]|].
  intros i Hi. by left.
Qed.

Lemma pagedir_refines_map_witness :
  exists s', pagedir_set_page 5 16384 3222298624 134512640 3222429696 true demo_vm = Ok (true, s') /\
    pagedir_get_page 3222298624 134512645 s' = Ok (3222429701, s').
Proof.
  destruct (pagedir_refines_map 5 16384 demo_vm 3222298624 (fun _ => NULL) 134512640 3222429696 true demo_pd)
    as (_ & _ & Hset & _); try (unfold PHYS_BASE; cbn; lia); try reflexivity.
  destruct (Hset eq_refl) as [[Hno _]|(s' & T' & E & _ & Hget)].
  - exfalso. apply (Hno 2); [lia|vm_compute; discriminate|]. intros j Hj. assert (j = 2) as -> by lia. vm_compute. reflexivity.
  - exists s'. split; [exact E|]. specialize (Hget 134512645). apply Hget. unfold PHYS_BASE. lia.
Defined.
