(* ===== verification/Loader.v ===== *)
(** * Starting a user program: [userprog/process.c]

    The arguments of a command line, the program segments and the initial
    stack.  The machine is the file system, the pools and page tables of
    [Page], and the bytes of the data pages at their kernel addresses.  An
    address of the user's half of memory is resolved through the page
    directory of the process, which is the active one. *)

From S2P Require Import Prelude ListModel Bytes CString Page FsModel.

(** ** Command line arguments *)

(** The loop of [parse_cmd_args].  ARGV is the array as the function sees it,
    MAX_ARGS the global bound, and MOVED tells that [realloc] has replaced the
    array that the caller still points to. *)
Fixpoint parse_loop (n fuel : nat) (delim save max_args : Z) (argv : list Z) (moved : bool)
    : B (list Z * Z * bool) :=
  match n with
  | O => fail EFuel
  | S n =>
      r ← strtok_r fuel NULL delim save;
      if r.1 =? NULL then mret (argv, max_args, moved) else
      let grow := max_args <=? Z.of_nat (length argv) in
      parse_loop n fuel delim r.2 (if grow then s32 (max_args * 2) else max_args)
        (argv ++ [r.1]) (moved || grow)
  end.

(** DELIM is the address of the literal [" "].  [argc] is the length of the
    array. *)
Definition parse_cmd_args (n fuel : nat) (cmd_line delim max_args : Z) : B (list Z * Z * bool) :=
  r ← strtok_r fuel cmd_line delim 0;
  parse_loop n fuel delim r.2 max_args [r.1] false.

(** ** Program segments *)

Record Elf32_Phdr := {
  p_type : Z; p_offset : Z; p_vaddr : Z; p_paddr : Z; p_filesz : Z; p_memsz : Z; p_flags : Z; p_align : Z
}.

(** [file_read] of a structure gives its bytes. *)
Definition half (bs : list Z) (i : nat) : Z := nth i bs 0 + 256 * nth (S i) bs 0.
Definition word (bs : list Z) (i : nat) : Z := half bs i + 65536 * half bs (i + 2).

Definition decode_phdr (bs : list Z) : Elf32_Phdr := {|
  p_type := word bs 0; p_offset := word bs 4; p_vaddr := word bs 8; p_paddr := word bs 12;
  p_filesz := word bs 16; p_memsz := word bs 20; p_flags := word bs 24; p_align := word bs 28
|}.

Record Elf32_Ehdr := {
  e_ident : list Z; e_type : Z; e_machine : Z; e_version : Z; e_entry : Z; e_phoff : Z; e_shoff : Z; e_flags : Z;
  e_ehsize : Z; e_phentsize : Z; e_phnum : Z; e_shentsize : Z; e_shnum : Z; e_shstrndx : Z
}.

Definition decode_ehdr (bs : list Z) : Elf32_Ehdr := {|
  e_ident := take 16 bs; e_type := half bs 16; e_machine := half bs 18; e_version := word bs 20;
  e_entry := word bs 24; e_phoff := word bs 28; e_shoff := word bs 32; e_flags := word bs 36;
  e_ehsize := half bs 40; e_phentsize := half bs 42; e_phnum := half bs 44; e_shentsize := half bs 46;
  e_shnum := half bs 48; e_shstrndx := half bs 50
|}.

(** The checks of [load] on the header. *)
Definition ehdr_bad (ehdr : Elf32_Ehdr) : bool :=
  negb (bool_decide (take 7 (e_ident ehdr) = [127; 69; 76; 70; 1; 1; 1]))
  || negb (e_type ehdr =? 2) || negb (e_machine ehdr =? 3) || negb (e_version ehdr =? 1)
  || negb (e_phentsize ehdr =? 32) || (1024 <? e_phnum ehdr).

Definition PT_LOAD : Z := 1.
Definition PT_DYNAMIC : Z := 2.
Definition PT_INTERP : Z := 3.
Definition PT_SHLIB : Z := 5.

Definition validate_segment (phdr : Elf32_Phdr) (file_length : Z) : bool :=
  if negb (Z.land (p_offset phdr) PGMASK =? Z.land (p_vaddr phdr) PGMASK) then false else
  if u32 file_length <? p_offset phdr then false else
  if p_memsz phdr <? p_filesz phdr then false else
  if p_memsz phdr =? 0 then false else
  if negb (is_user_vaddr (p_vaddr phdr)) then false else
  if negb (is_user_vaddr (u32 (p_vaddr phdr + p_memsz phdr))) then false else
  if u32 (p_vaddr phdr + p_memsz phdr) <? p_vaddr phdr then false else
  if p_vaddr phdr <? PGSIZE then false else
  true.

Definition ROUND_UP (x step : Z) : Z := u32 (u32 (x + step - 1) / step * step).

(** What [load] passes to [load_segment] for a segment: the offset in the
    file, the user page, the bytes to read, the bytes to zero, writability. *)
Definition segment_args (phdr : Elf32_Phdr) : Z * Z * Z * Z * bool :=
  let writable := negb (Z.land (p_flags phdr) 2 =? 0) in
  let file_page := Z.land (p_offset phdr) (u32 (Z.lnot PGMASK)) in
  let mem_page := Z.land (p_vaddr phdr) (u32 (Z.lnot PGMASK)) in
  let page_offset := Z.land (p_vaddr phdr) PGMASK in
  if 0 <? p_filesz phdr then
    let read_bytes := u32 (page_offset + p_filesz phdr) in
    (file_page, mem_page, read_bytes,
     u32 (ROUND_UP (u32 (page_offset + p_memsz phdr)) PGSIZE - read_bytes), writable)
  else (file_page, mem_page, 0, ROUND_UP (u32 (page_offset + p_memsz phdr)) PGSIZE, writable).

(** ** The machine *)

Record machine := Machine { m_fs : fs; m_vm : vm; m_data : bytes }.

Abbreviation P := (M machine).

Definition on_fs {A} (c : M fs A) : P A := fun s =>
  match c (m_fs s) with Ok (a, t) => Ok (a, Machine t (m_vm s) (m_data s)) | Err e => Err e end.
Definition on_vm {A} (c : M vm A) : P A := fun s =>
  match c (m_vm s) with Ok (a, t) => Ok (a, Machine (m_fs s) t (m_data s)) | Err e => Err e end.
Definition on_data {A} (c : M bytes A) : P A := fun s =>
  match c (m_data s) with Ok (a, t) => Ok (a, Machine (m_fs s) (m_vm s) t) | Err e => Err e end.

(** [memcpy] of the bytes BS of a variable to the kernel address P. *)
Fixpoint copy_in (p : Z) (bs : list Z) : B unit :=
  match bs with
  | [] => mret tt
  | b :: bs => store p b;; copy_in (p + 1) bs
  end.

Section Process.

(** The globals of [threads/init.c] and the page directory of the thread. *)
Context (init_page_dir init_ram_pages pagedir : Z).

(** A store of the kernel to an address of either half of memory; one that is
    not mapped is a page fault in the kernel. *)
Definition store_va (a b : Z) : P unit :=
  if is_user_vaddr a then
    k ← on_vm (pagedir_get_page pagedir a);
    if k =? NULL then fail EFault else on_data (store k b)
  else on_data (store a b).

(** [memcpy] to the address DST of a block of the kernel, and of a variable of
    the kernel with the bytes BS. *)
Fixpoint copy_block (size : nat) (dst src : Z) : P unit :=
  match size with
  | O => mret tt
  | S size => b ← on_data (load src); store_va dst b;; copy_block size (dst + 1) (src + 1)
  end.

Fixpoint copy_value (dst : Z) (bs : list Z) : P unit :=
  match bs with
  | [] => mret tt
  | b :: bs => store_va dst b;; copy_value (dst + 1) bs
  end.

Definition install_page (upage kpage : Z) (writable : bool) : P bool :=
  p ← on_vm (pagedir_get_page pagedir upage);
  if p =? NULL then on_vm (pagedir_set_page init_page_dir init_ram_pages pagedir upage kpage writable)
  else mret false.

(** ** Loading a segment *)

(** [file_read] stores what it reads in the page. *)
Fixpoint load_pages (fuel : nat) (file upage read_bytes zero_bytes : Z) (writable : bool) : P bool :=
  match fuel with
  | O => fail EFuel
  | S fuel =>
      if (0 <? read_bytes) || (0 <? zero_bytes) then
        let page_read_bytes := if read_bytes <? PGSIZE then read_bytes else PGSIZE in
        let page_zero_bytes := PGSIZE - page_read_bytes in
        kpage ← on_vm (palloc_get_page PAL_USER);
        if kpage =? NULL then mret false else
        r ← on_fs (file_read file page_read_bytes);
        on_data (copy_in kpage r.2);;
        if negb (r.1 =? page_read_bytes) then on_vm (palloc_free_page kpage);; mret false else
        on_data (memset (kpage + page_read_bytes) 0 page_zero_bytes);;
        installed ← install_page upage kpage writable;
        if negb installed then on_vm (palloc_free_page kpage);; mret false else
        load_pages fuel file (u32 (upage + PGSIZE)) (u32 (read_bytes - page_read_bytes))
          (u32 (zero_bytes - page_zero_bytes)) writable
      else mret true
  end.

Definition load_segment (fuel : nat) (file ofs upage read_bytes zero_bytes : Z) (writable : bool) : P bool :=
  ASSERT (u32 (read_bytes + zero_bytes) mod PGSIZE =? 0);;
  ASSERT (pg_ofs upage =? 0);;
  ASSERT (Z.rem ofs PGSIZE =? 0);;
  on_fs (file_seek file ofs);;
  load_pages fuel file upage read_bytes zero_bytes writable.

(** ** The initial stack *)

Definition MAX_ARGS_SIZE : Z := 4096.

(** The loop over the arguments from the last one down; ARGS has the rest of
    the array in that order, ADDRESS the addresses of those already on the
    stack.  The result has [false] for the early return. *)
Fixpoint push_strings (fuel : nat) (args : list Z) (esp : Z) (address : list Z) : P (bool * Z * list Z) :=
  match args with
  | [] => mret (true, esp, address)
  | arg :: args =>
      len ← on_data (strlen fuel arg);
      let len_arg := len + 1 in
      let esp := esp - len_arg in
      let address := esp :: address in
      if MAX_ARGS_SIZE <? PHYS_BASE - esp then mret (false, esp, address) else
      copy_block (Z.to_nat len_arg) esp arg;;
      push_strings fuel args esp address
  end.

(** The words WS are pushed one after the other. *)
Fixpoint push_words (ws : list Z) (esp : Z) : P Z :=
  match ws with
  | [] => mret esp
  | w :: ws => copy_value (esp - 4) (le_bytes w);; push_words ws (esp - 4)
  end.

(** The arguments on the stack page; the result is the success and [*esp]. *)
Definition push_arguments (fuel : nat) (argv : list Z) : P (bool * Z) :=
  let argc := Z.of_nat (length argv) in
  r ← push_strings fuel (rev argv) PHYS_BASE [];
  let '(fits, esp, address) := r : bool * Z * list Z in
  if negb fits then mret (false, esp) else
  let word_align := esp mod 4 in
  (if negb (word_align =? 0) then copy_value (esp - word_align) (take (Z.to_nat word_align) (le_bytes 0))
   else mret tt);;
  let esp := esp - word_align in
  esp ← push_words (rev (address ++ [0])) esp;
  let temp := esp in
  esp ← push_words [temp; argc; 0] esp;
  mret (true, esp).

(** ESP is what [*esp] holds before.  The zeros that [palloc_get_page] stores
    in the words of the page are the bytes of the data page. *)
Definition setup_stack (fuel : nat) (argv : list Z) (esp : Z) : P (bool * Z) :=
  kpage ← on_vm (palloc_get_page (Z.lor PAL_USER PAL_ZERO));
  if kpage =? NULL then mret (false, esp) else
  on_data (memset_loop (Z.to_nat PGSIZE) kpage 0);;
  success ← install_page (PHYS_BASE - PGSIZE) kpage true;
  if success : bool then push_arguments fuel argv
  else on_vm (palloc_free_page kpage);; mret (false, esp).

(** ** Loading a program *)

(** The loop of [load] over the program headers. *)
Fixpoint load_headers (n fuel : nat) (file file_ofs : Z) : P bool :=
  match n with
  | O => mret true
  | S n =>
      if file_ofs <? 0 then mret false else
      len ← on_fs (file_length file);
      if len <? file_ofs then mret false else
      on_fs (file_seek file file_ofs);;
      r ← on_fs (file_read file 32);
      if negb (r.1 =? 32) then mret false else
      let phdr := decode_phdr r.2 in
      ok ← (if (p_type phdr =? PT_DYNAMIC) || (p_type phdr =? PT_INTERP) || (p_type phdr =? PT_SHLIB)
            then mret false
            else if p_type phdr =? PT_LOAD then
              len ← on_fs (file_length file);
              if validate_segment phdr len then
                let '(file_page, mem_page, read_bytes, zero_bytes, writable) := segment_args phdr in
                load_segment fuel file (s32 file_page) mem_page read_bytes zero_bytes writable
              else mret false
            else mret true);
      if negb ok then mret false else load_headers n fuel file (s32 (file_ofs + 32))
  end.

(** [load] from where the executable FILE is open: the success, [*eip] and
    [*esp]. *)
Definition load_image (fuel : nat) (file : Z) (argv : list Z) (eip esp : Z) : P (bool * Z * Z) :=
  r ← on_fs (file_read file 52);
  let ehdr := decode_ehdr r.2 in
  if negb (r.1 =? 52) || ehdr_bad ehdr then mret (false, eip, esp) else
  ok ← load_headers (Z.to_nat (e_phnum ehdr)) fuel file (s32 (e_phoff ehdr));
  if negb ok then mret (false, eip, esp) else
  r ← setup_stack fuel argv esp;
  mret (if r.1 : bool then (true, e_entry ehdr, r.2) else (false, eip, r.2)).

End Process.
