(* ===== verification/LoaderStack.v ===== *)
(** * The arguments on the user stack

    The words and strings that [push_arguments] leaves on the stack page, and
    what happens when they do not fit. *)

From S2P Require Import Prelude ListModel Bytes FsModel CString CStringRep CStringProps CStringTok Page Loader.

(** ** The arguments of a command line *)

(** The loop takes the remaining tokens; it replaces the array when there are
    more of them than it has room for. *)
Lemma parse_loop_ok fuel delim n : forall save max_args argv moved m ts m',
  tokens n fuel NULL delim save m = Ok (ts, m') -> 0 < max_args -> Z.of_nat (length argv) <= max_args ->
  Z.of_nat (length argv + length ts) < 1073741824 ->
  exists max', parse_loop n fuel delim save max_args argv moved m
    = Ok ((argv ++ ts, max', moved || (max_args <? Z.of_nat (length argv + length ts))), m') /\
    Z.of_nat (length argv + length ts) <= max'.
Proof.
  induction n as [|n IH]; intros save max_args argv moved m ts m' Ht Hmax Hroom Hlen; [done|]. cbn [tokens parse_loop] in *.
  apply bind_inv in Ht as (r & m1 & E & Ht). mstep E. destruct (Z.eqb_spec r.1 NULL) as [_|_].
  - injection Ht as <- <-. exists max_args. cbn [length] in *. rewrite app_nil_r, Nat.add_0_r in *.
    destruct (Z.ltb_spec max_args (Z.of_nat (length argv))); [lia|]. by rewrite orb_false_r.
  - apply bind_inv in Ht as (ts' & m2 & Et & Hr). injection Hr as <- <-. cbn [length] in *.
    assert (Hl : length (argv ++ [r.1]) = S (length argv)) by (rewrite length_app; cbn [length]; lia).
    assert (Hl' : (length argv + S (length ts') = length (argv ++ [r.1]) + length ts')%nat) by lia. rewrite Hl' in *.
    assert (Ha : argv ++ r.1 :: ts' = (argv ++ [r.1]) ++ ts') by (by rewrite <-(assoc_L (++))). rewrite Ha.
    destruct (Z.leb_spec max_args (Z.of_nat (length argv))) as [Hg|Hg].
    + rewrite s32_small by lia. destruct (IH r.2 (max_args * 2) (argv ++ [r.1]) (moved || true) m1 ts' m2 Et) as (max' & E' & Hm'); [lia..|].
      exists max'. split; [|done]. rewrite E'. do 3 f_equal. rewrite orb_true_r. cbn [orb].
      symmetry. apply orb_true_iff. right. apply Z.ltb_lt. lia.
    + destruct (IH r.2 max_args (argv ++ [r.1]) (moved || false) m1 ts' m2 Et) as (max' & E' & Hm'); [lia..|].
      exists max'. split; [|done]. rewrite E'. by rewrite orb_false_r.
Qed.

(** There are not more words than characters. *)
Lemma length_words ds s : (length (CStringTok.words ds s) <= length s)%nat.
Proof.
  destruct (words_from_spec ds [] s) as [Hc Hne]. fold (CStringTok.words ds s) in Hc, Hne.
  assert (H : forall ws : list (list Z), Forall (fun w => w <> []) ws -> (length ws <= length (concat ws))%nat).
  { induction 1 as [|w ws Hw _ IH]; [done|]. cbn [concat length]. rewrite length_app.
    destruct w as [|c w]; [done|]. cbn [length]. lia. }
  etransitivity; [by apply H|]. rewrite Hc. cbn [app]. apply List.filter_length_le.
Qed.

(** [parse_cmd_args] makes an array of pointers to the words of the
    command line, in order, each left null-terminated in the memory of the
    line; nothing else is written and the loop ends.  The array has room for
    them; it has been replaced by [realloc], behind the back of the caller that
    still holds the old one, exactly when there are more words than it had room
    for. *)
Theorem parse_cmd_args_correct m p s d fuel n max_args :
  cstr m p s -> cstr m d [32] -> 0 < p -> 0 < d -> d + 1 < p \/ p + Z.of_nat (length s) <= d ->
  (length s + 2 < fuel)%nat -> (length s < n)%nat -> Z.of_nat (length s) < 1000000000 -> 0 < max_args ->
  let ws := CStringTok.words [32] s in ws <> [] ->
  exists argv max' m', parse_cmd_args n fuel p d max_args m
    = Ok ((argv, max', max_args <? Z.of_nat (length ws)), m') /\
    Forall2 (cstr m') argv ws /\ Z.of_nat (length ws) <= max' /\ same_but p (Z.of_nat (length s)) m m'.
Proof.
  intros Hs Hds Hp Hd Hdis Hf Hn Hlen Hmax ws Hne.
  pose proof (length_words [32] s) as Hws. fold ws in Hws.
  destruct (tokens_ok d [32] 2 ws (S n) fuel m p s p 0) as (ts & m' & E & F & _ & Bt); try done; try (cbn [length]; lia).
  { destruct (Z.eqb_spec p NULL) as [E|_]; [unfold NULL in E; lia|done]. }
  pose proof (Forall2_length _ _ _ F) as Hl. cbn [tokens] in E. apply bind_inv in E as (r & m1 & E & Ht).
  destruct (Z.eqb_spec r.1 NULL) as [_|_].
  { injection Ht as <- <-. destruct ws; [done|]. cbn [length] in Hl. lia. }
  apply bind_inv in Ht as (ts' & m2 & Et & Hr). injection Hr as <- <-. cbn [length] in Hl.
  destruct (parse_loop_ok fuel d n r.2 max_args [r.1] false m1 ts' m2 Et Hmax) as (max' & E' & Hm'); cbn [length] in *; [lia..|].
  exists (r.1 :: ts'), max', m2. split; [|split; [done|split; [lia|done]]].
  unfold parse_cmd_args. mstep E. rewrite E'. cbn [orb app]. by rewrite Nat.add_1_l, Hl.
Qed.

Lemma parse_cmd_args_correct_witness :
  exists argv max' m', parse_cmd_args 10 20 100 200 1 demo_line = Ok ((argv, max', true), m') /\
    Forall2 (cstr m') argv [[97; 98]; [99]] /\ 2 <= max' /\ same_but 100 6 demo_line m'.
Proof.
  apply (parse_cmd_args_correct demo_line 100 [32; 97; 98; 32; 32; 99] 200 20 10 1).
  - split; [vm_compute; tauto|repeat constructor].
  - split; [vm_compute; tauto|repeat constructor].
  - reflexivity.
  - reflexivity.
  - simpl. lia.
  - simpl. lia.
  - simpl. lia.
  - simpl. lia.
  - reflexivity.
  - vm_compute. discriminate.
Defined.

(** ** Memory *)

Lemma write_before m p q xs ys :
  q = p + Z.of_nat (length xs) -> write (write m q ys) p xs = write m p (xs ++ ys).
Proof.
  intros ->. apply map_eq. intros a. rewrite !write_lookup, length_app.
  destruct (Z.leb_spec p a), (Z.ltb_spec a (p + Z.of_nat (length xs))); cbn [andb].
  - destruct (Z.ltb_spec a (p + Z.of_nat (length xs + length ys))); [|lia]. cbn [andb].
    by rewrite lookup_app_l by lia.
  - destruct (Z.leb_spec (p + Z.of_nat (length xs)) a); [|lia]. cbn [andb].
    replace (a <? p + Z.of_nat (length xs) + Z.of_nat (length ys)) with (a <? p + Z.of_nat (length xs + length ys))
      by (f_equal; lia).
    destruct (Z.ltb_spec a (p + Z.of_nat (length xs + length ys))); [|done].
    rewrite lookup_app_r by lia. f_equal. lia.
  - destruct (Z.leb_spec (p + Z.of_nat (length xs)) a); [lia|]. done.
  - destruct (Z.leb_spec (p + Z.of_nat (length xs)) a); [lia|]. done.
Qed.

Lemma write_some m p bs a : is_Some (m !! a) -> is_Some (write m p bs !! a).
Proof.
  intros Hs. rewrite write_lookup. destruct (Z.leb_spec p a), (Z.ltb_spec a (p + Z.of_nat (length bs))); try done.
  cbn [andb]. apply lookup_lt_is_Some. lia.
Qed.

Lemma lookup_repeat {A} (x : A) n i : (i < n)%nat -> repeat x n !! i = Some x.
Proof. revert i. induction n as [|n IH]; intros [|i] Hi; cbn; try lia; [done|]. apply IH. lia. Qed.

Lemma memset_loop_ok n : forall m p x,
  (forall a, p <= a < p + Z.of_nat n -> is_Some (m !! a)) -> memset_loop n p x m = Ok (tt, write m p (repeat (u8 x) n)).
Proof.
  induction n as [|n IH]; intros m p x Hm; cbn [memset_loop repeat write]; [done|].
  destruct (Hm p ltac:(lia)) as [old Ho]. rewrite (bind_ok _ _ _ tt (<[p := u8 x]> m)) by (unfold store; by rewrite Ho).
  cbv beta. apply IH. intros a Ha. rewrite lookup_insert_ne by lia. apply Hm. lia.
Qed.

Lemma le_bytes_byte w : Forall is_byte (le_bytes w).
Proof. unfold le_bytes, is_byte. repeat constructor; apply Z.mod_pos_bound; lia. Qed.

(** ** The stack page *)

Definition STACK_LOW : Z := PHYS_BASE - PGSIZE.

(** The stack page is the frame [kp], whose bytes are in [m], and the page
    below it is not mapped. *)
Record stack_page (pd : Z) (v : vm) (m : bytes) (kp : Z) : Prop := {
  sp_map a : STACK_LOW <= a < PHYS_BASE -> pagedir_get_page pd a v = Ok (kp + (a - STACK_LOW), v);
  sp_below a : STACK_LOW - PGSIZE <= a < STACK_LOW -> pagedir_get_page pd a v = Ok (NULL, v);
  sp_kernel : PHYS_BASE <= kp;
  sp_bytes a : kp <= a < kp + PGSIZE -> is_Some (m !! a)
}.

Section Stack.
Context (pd : Z) (f : fs) (v : vm) (kp : Z).
Implicit Types (m : bytes) (bs img : list Z).

Definition st m : machine := Machine f v m.

(** The kernel's address of a byte of the stack page. *)
Definition frame (a : Z) : Z := kp + (a - STACK_LOW).

Lemma stack_page_write m p bs : stack_page pd v m kp -> stack_page pd v (write m p bs) kp.
Proof using. intros [? ? ? H]. split; try done. intros a Ha. apply write_some. by apply H. Qed.

Lemma store_va_ok m a b :
  stack_page pd v m kp -> STACK_LOW <= a < PHYS_BASE -> is_byte b ->
  store_va pd a b (st m) = Ok (tt, st (<[frame a := b]> m)).
Proof using.
  intros H Ha Hb. unfold store_va, is_user_vaddr. destruct (Z.ltb_spec a PHYS_BASE); [|lia].
  rewrite (bind_ok _ _ _ (frame a) (st m)) by (unfold on_vm; cbn [m_vm st]; by rewrite (sp_map _ _ _ _ H a Ha)).
  cbv beta. pose proof (sp_kernel _ _ _ _ H) as Hk. unfold frame, STACK_LOW, PHYS_BASE, PGSIZE, NULL in *.
  destruct (Z.eqb_spec (kp + (a - (3221225472 - 4096))) 0); [lia|].
  destruct (sp_bytes _ _ _ _ H (kp + (a - (3221225472 - 4096)))) as [old Ho]; [unfold PGSIZE; lia|].
  unfold on_data. cbn [m_data st]. by rewrite (store_ok _ _ _ _ Ho Hb).
Qed.

Lemma store_va_fault m a b :
  stack_page pd v m kp -> STACK_LOW - PGSIZE <= a < STACK_LOW -> store_va pd a b (st m) = Err EFault.
Proof using.
  intros H Ha. unfold store_va, is_user_vaddr. destruct (Z.ltb_spec a PHYS_BASE); [|unfold STACK_LOW, PGSIZE in *; lia].
  rewrite (bind_ok _ _ _ NULL (st m)) by (unfold on_vm; cbn [m_vm st]; by rewrite (sp_below _ _ _ _ H a Ha)). done.
Qed.

Lemma frame_succ a : frame (a + 1) = frame a + 1.
Proof using. unfold frame. lia. Qed.

Lemma copy_value_ok bs : forall m a,
  stack_page pd v m kp -> STACK_LOW <= a -> a + Z.of_nat (length bs) <= PHYS_BASE -> Forall is_byte bs ->
  copy_value pd a bs (st m) = Ok (tt, st (write m (frame a) bs)).
Proof using.
  induction bs as [|b bs IH]; intros m a H H1 H2 Hb; cbn [copy_value write length] in *; [done|].
  inversion_clear Hb. mstep (store_va_ok m a b H ltac:(lia) ltac:(done)).
  rewrite <-frame_succ. apply IH; [by apply (stack_page_write m (frame a) [b])|lia|lia|done].
Qed.

Lemma copy_block_ok bs : forall m a src,
  stack_page pd v m kp -> STACK_LOW <= a -> a + Z.of_nat (length bs) <= PHYS_BASE -> Forall is_byte bs ->
  bytes_at m src bs -> src + Z.of_nat (length bs) <= kp \/ kp + PGSIZE <= src ->
  copy_block pd (length bs) a src (st m) = Ok (tt, st (write m (frame a) bs)).
Proof using.
  induction bs as [|b bs IH]; intros m a src H H1 H2 Hb Hs Hd; cbn [copy_block write length] in *; [done|].
  inversion_clear Hb. destruct Hs as [Hs1 Hs2].
  rewrite (bind_ok _ _ _ b (st m)) by (unfold on_data; cbn [m_data st]; by rewrite (load_ok _ _ _ Hs1)). cbv beta.
  mstep (store_va_ok m a b H ltac:(lia) ltac:(done)).
  rewrite <-frame_succ. apply IH; [by apply (stack_page_write m (frame a) [b])|lia|lia|done| |lia].
  apply (bytes_at_write m (frame a) [b]); [|done]. unfold frame, STACK_LOW, PGSIZE in *. cbn [length]. lia.
Qed.

(** ** The strings *)

(** The string [s] at [arg], outside the stack page. *)
Definition arg_at (fuel : nat) m (arg : Z) (s : list Z) : Prop :=
  cstr m arg s /\ arg <> NULL /\ (length s < fuel)%nat /\
  (arg + Z.of_nat (S (length s)) <= kp \/ kp + PGSIZE <= arg).

Definition strings (ss : list (list Z)) : list Z := flat_map (fun s => s ++ [0]) ss.

Definition total (ss : list (list Z)) : Z := Z.of_nat (length (strings ss)).

(** The addresses of strings that follow each other from [p] on. *)
Fixpoint places (p : Z) (ss : list (list Z)) : list Z :=
  match ss with [] => [] | s :: ss => p :: places (p + Z.of_nat (S (length s))) ss end.

Lemma total_cons s ss : total (s :: ss) = Z.of_nat (S (length s)) + total ss.
Proof using. unfold total, strings. cbn [flat_map]. rewrite !length_app. cbn [length]. lia. Qed.

Lemma strings_app ss ts : strings (ss ++ ts) = strings ss ++ strings ts.
Proof using. apply flat_map_app. Qed.

Lemma total_strings ss ts : total (ss ++ ts) = total ss + total ts.
Proof using. unfold total. rewrite strings_app, length_app. lia. Qed.

Lemma total_rev ss : total (rev ss) = total ss.
Proof using. induction ss as [|s ss IH]; [done|]. cbn [rev]. rewrite total_strings, IH, !total_cons. unfold total at 2. simpl. lia. Qed.

Lemma places_app p ss ts : places p (ss ++ ts) = places p ss ++ places (p + total ss) ts.
Proof using.
  revert p. induction ss as [|s ss IH]; intros p; cbn [app places]; [by rewrite Z.add_0_r|].
  rewrite IH, total_cons. do 3 f_equal. lia.
Qed.

Lemma length_places p ss : length (places p ss) = length ss.
Proof using. revert p. induction ss as [|s ss IH]; intros p; [done|]. cbn [places length]. by rewrite IH. Qed.

Lemma strings_byte ss : Forall (Forall (fun c => 0 < c < 256)) ss -> Forall is_byte (strings ss).
Proof using.
  induction 1 as [|s ss Hs _ IH]; [constructor|]. unfold strings. cbn [flat_map]. apply Forall_app. split; [|done].
  apply Forall_app. split; [by apply chars_bytes|]. repeat constructor; unfold is_byte; lia.
Qed.

Lemma arg_at_write fuel m arg s p bs :
  arg_at fuel m arg s -> kp <= p -> p + Z.of_nat (length bs) <= kp + PGSIZE -> arg_at fuel (write m p bs) arg s.
Proof using.
  intros (H1 & H2 & H3 & H4) Hp Hl. split_and!; try done. apply (cstr_agree m); [|done].
  intros a Ha. apply write_out. lia.
Qed.

Lemma push_strings_ok fuel m0 args ss : Forall2 (arg_at fuel m0) args ss -> stack_page pd v m0 kp ->
  forall esp addr img, esp + Z.of_nat (length img) = PHYS_BASE -> Z.of_nat (length img) <= PGSIZE ->
  let m := write m0 (frame esp) img in
  let low := esp - total ss in
  if STACK_LOW <=? low then
    push_strings pd fuel args esp addr (st m)
    = Ok ((true, low, places low (rev ss) ++ addr), st (write m0 (frame low) (strings (rev ss) ++ img)))
  else exists esp' addr' m', push_strings pd fuel args esp addr (st m) = Ok ((false, esp', addr'), st m') /\
    forall a, a < kp \/ kp + PGSIZE <= a -> m' !! a = m0 !! a.
Proof using.
  intros Hargs Hsp. induction Hargs as [|arg s args ss Harg _ IH]; intros esp addr img He Hi m low; unfold low.
  - cbn [push_strings rev strings places flat_map app total length]. unfold total. cbn. rewrite Z.sub_0_r.
    destruct (Z.leb_spec STACK_LOW esp); [done|]. unfold STACK_LOW in *. lia.
  - cbn [push_strings]. rewrite total_cons. assert (Hin : kp <= frame esp /\ frame esp + Z.of_nat (length img) <= kp + PGSIZE).
    { unfold frame, STACK_LOW. lia. }
    destruct (arg_at_write _ _ _ _ (frame esp) img Harg) as (A1 & A2 & A3 & A4); [lia|lia|].
    rewrite (bind_ok _ _ _ (Z.of_nat (length s)) (st m)) by
      (unfold on_data; cbn [m_data st]; unfold m; by rewrite (strlen_ok _ _ _ _ A1 A2 A3)).
    cbv beta. set (esp1 := esp - (Z.of_nat (length s) + 1)). unfold MAX_ARGS_SIZE.
    destruct (Z.ltb_spec 4096 (PHYS_BASE - esp1)) as [Hout|Hfit].
    + destruct (Z.leb_spec STACK_LOW (esp - (Z.of_nat (S (length s)) + total ss))) as [Hx|_].
      { unfold STACK_LOW, PGSIZE, esp1, total in *. lia. }
      exists esp1, (esp1 :: addr), m. split; [done|]. intros a Ha. unfold m. apply write_out. lia.
    + replace (Z.to_nat (Z.of_nat (length s) + 1)) with (length (s ++ [0])) by (rewrite length_app; cbn [length]; lia).
      assert (Hbytes : Forall is_byte (s ++ [0])).
      { apply Forall_app. split; [apply chars_bytes, A1|]. repeat constructor; unfold is_byte; lia. }
      mstep_by (apply copy_block_ok; [by apply stack_page_write|unfold STACK_LOW, PGSIZE; lia
        |rewrite length_app; cbn [length]; unfold esp1; lia|done|apply A1|rewrite length_app; cbn [length]; lia]).
      unfold m. rewrite write_before by (unfold frame, esp1; rewrite length_app; cbn [length]; lia).
      specialize (IH esp1 (esp1 :: addr) ((s ++ [0]) ++ img)).
      replace (esp - (Z.of_nat (S (length s)) + total ss)) with (esp1 - total ss) by (unfold esp1; lia).
      cbn [rev]. rewrite places_app, strings_app, total_rev. cbn [places].
      replace (strings [s]) with (s ++ [0]) by (unfold strings; cbn [flat_map]; by rewrite app_nil_r).
      replace (esp1 - total ss + total ss) with esp1 by lia. rewrite <-!(assoc_L (++)). rewrite <-!(assoc_L (++)) in IH.
      apply IH; rewrite ?length_app; cbn [length]; unfold esp1 in *; unfold PGSIZE; lia.
Qed.

(** ** The words *)

Lemma push_words_ok m0 ws : stack_page pd v m0 kp ->
  forall esp img, esp + Z.of_nat (length img) = PHYS_BASE -> Z.of_nat (length img) <= PGSIZE -> esp mod 4 = 0 ->
  let low := esp - 4 * Z.of_nat (length ws) in
  push_words pd ws esp (st (write m0 (frame esp) img))
  = if STACK_LOW <=? low then Ok (low, st (write m0 (frame low) (words_bytes (rev ws) ++ img))) else Err EFault.
Proof using.
  intros Hsp. induction ws as [|w ws IH]; intros esp img He Hi Ha low; unfold low; cbn [push_words length rev].
  - rewrite Z.mul_0_r, Z.sub_0_r. destruct (Z.leb_spec STACK_LOW esp); [done|]. unfold STACK_LOW in *. lia.
  - destruct (Z.leb_spec STACK_LOW (esp - 4)) as [Hin|Hout].
    + mstep_by (apply copy_value_ok; [by apply stack_page_write|lia|cbn [length le_bytes]; lia|apply le_bytes_byte]).
      rewrite write_before by (unfold frame; cbn [length le_bytes]; lia).
      rewrite (IH (esp - 4) (le_bytes w ++ img)); [|rewrite length_app; cbn [length le_bytes]; lia
        |rewrite length_app; cbn [length le_bytes]; unfold STACK_LOW in *; lia|rewrite Zminus_mod, Ha; done].
      replace (esp - 4 - 4 * Z.of_nat (length ws)) with (esp - 4 * Z.of_nat (S (length ws))) by lia.
      unfold words_bytes. rewrite flat_map_app. cbn [flat_map]. by rewrite app_nil_r, <-(assoc_L (++)).
    + destruct (Z.leb_spec STACK_LOW (esp - 4 * Z.of_nat (S (length ws)))); [lia|].
      cbn [copy_value le_bytes]. apply bind_err, bind_err, store_va_fault; [by apply stack_page_write|].
      unfold STACK_LOW, PGSIZE in *. lia.
Qed.

(** ** All of it *)

Lemma push_align_ok m low img : stack_page pd v m kp -> low + Z.of_nat (length img) = PHYS_BASE -> STACK_LOW <= low ->
  let align := low mod 4 in
  (if negb (align =? 0) then copy_value pd (low - align) (take (Z.to_nat align) (le_bytes 0)) else mret tt)
    (st (write m (frame low) img))
  = Ok (tt, st (write m (frame (low - align)) (repeat 0 (Z.to_nat align) ++ img))).
Proof using.
  intros Hsp Hl Hfit align. assert (Hal : 0 <= align < 4) by (apply Z.mod_pos_bound; lia).
  pose proof (Z.div_mod low 4 ltac:(lia)) as Hdm. fold align in Hdm.
  destruct (Z.eqb_spec align 0) as [E0|Hne]; cbn [negb]; [by rewrite E0, Z.sub_0_r|].
  rewrite copy_value_ok; [|by apply stack_page_write|unfold STACK_LOW, PHYS_BASE, PGSIZE in *; lia
    |rewrite length_take; cbn [length le_bytes]; lia|apply Forall_take, le_bytes_byte].
  rewrite write_before by (unfold frame; rewrite length_take; cbn [length le_bytes]; lia).
  do 5 f_equal. assert (align = 1 \/ align = 2 \/ align = 3) as [-> | [-> | ->]] by lia; reflexivity.
Qed.

(** What the stack holds from its pointer on. *)
Definition stack_words (argc low argv : Z) (ss : list (list Z)) : list Z :=
  [0; argc; argv] ++ places low ss ++ [0].

(** Every argument is where its pointer says. *)
Lemma stack_strings m low ss : Forall (Forall (fun c => 0 < c < 256)) ss ->
  forall k s, ss !! k = Some s -> exists a, places low ss !! k = Some a /\ low <= a /\
    a + Z.of_nat (length s) < low + total ss /\ (bytes_at m (frame low) (strings ss) -> cstr m (frame a) s).
Proof using.
  intros Hc. revert low. induction Hc as [|t ss Ht _ IH]; intros low k s Hk; [done|]. rewrite total_cons.
  assert (Ht0 : 0 <= total ss) by (unfold total; lia).
  destruct k as [|k]; cbn [places lookup list_lookup] in *.
  - injection Hk as ->. exists low. split_and!; [done|lia|lia|]. unfold strings. cbn [flat_map].
    rewrite bytes_at_app. intros [H _]. by split.
  - destruct (IH (low + Z.of_nat (S (length t))) k s Hk) as (a & H1 & H2 & H3 & H4). exists a. split_and!; [done|lia|lia|].
    unfold strings. cbn [flat_map]. rewrite bytes_at_app. intros [_ H]. apply H4.
    replace (frame (low + Z.of_nat (S (length t)))) with (frame low + Z.of_nat (length (t ++ [0]))); [done|].
    unfold frame. rewrite length_app. cbn [length]. lia.
Qed.

Lemma push_arguments_ok fuel m argv ss : Forall2 (arg_at fuel m) argv ss -> stack_page pd v m kp ->
  let low := PHYS_BASE - total ss in
  let align := low mod 4 in
  let esp := low - align - 4 * (Z.of_nat (length argv) + 1) - 12 in
  if low <? STACK_LOW then
    exists esp' m', push_arguments pd fuel argv (st m) = Ok ((false, esp'), st m') /\
      forall a, a < kp \/ kp + PGSIZE <= a -> m' !! a = m !! a
  else push_arguments pd fuel argv (st m)
    = if esp <? STACK_LOW then Err EFault else
      Ok ((true, esp), st (write m (frame esp)
            (words_bytes (stack_words (Z.of_nat (length argv)) low (esp + 12) ss)
             ++ repeat 0 (Z.to_nat align) ++ strings ss))).
Proof using.
  intros Hargs Hsp low align esp. unfold push_arguments.
  assert (Hrev : Forall2 (arg_at fuel m) (rev argv) (rev ss)) by (rewrite !rev_alt; by apply Forall2_reverse).
  pose proof (push_strings_ok fuel m _ _ Hrev Hsp PHYS_BASE [] []) as Hps. cbn [length write] in Hps.
  rewrite total_rev, rev_involutive, !app_nil_r in Hps. fold low in Hps.
  specialize (Hps ltac:(lia) ltac:(unfold PGSIZE; lia)).
  destruct (Z.leb_spec STACK_LOW low) as [Hfit|Hout], (Z.ltb_spec low STACK_LOW); try lia.
  2: { destruct Hps as (esp' & addr' & m' & E & Hm). exists esp', m'. split; [|done]. by mstep E. }
  mstep Hps. cbn [negb]. fold align. assert (Hal : 0 <= align < 4) by (apply Z.mod_pos_bound; lia).
  pose proof (Z.div_mod low 4 ltac:(lia)) as Hdm. fold align in Hdm.
  assert (Hlow : low - align >= STACK_LOW) by (unfold STACK_LOW, PHYS_BASE, PGSIZE in *; lia).
  set (img := repeat 0 (Z.to_nat align) ++ strings ss).
  assert (Himg : Z.of_nat (length img) = PHYS_BASE - (low - align)).
  { unfold img. rewrite length_app, repeat_length. unfold low. fold (total ss). unfold total. lia. }
  mstep (push_align_ok m low (strings ss) Hsp ltac:(unfold low, total; lia) Hfit). fold align img.
  assert (Halign : (low - align) mod 4 = 0).
  { replace (low - align) with (low / 4 * 4) by lia. apply Z.mod_mul. lia. }
  assert (Hlen : length (places low ss) = length argv) by (rewrite length_places; symmetry; by eapply Forall2_length).
  pose proof (push_words_ok m (rev (places low ss ++ [0])) Hsp (low - align) img) as Hw. cbv zeta in Hw.
  rewrite length_rev, length_app, Hlen, rev_involutive in Hw. cbn [length] in Hw.
  set (esp1 := low - align - 4 * Z.of_nat (length argv + 1)) in *.
  assert (Hesp : esp = esp1 - 12) by (unfold esp, esp1; lia).
  specialize (Hw ltac:(lia) ltac:(unfold STACK_LOW in *; lia) Halign).
  destruct (Z.leb_spec STACK_LOW esp1) as [Hin1|Hout1].
  2: { destruct (Z.ltb_spec esp STACK_LOW); [|lia]. by apply bind_err. }
  mstep Hw. clear Hw.
  pose proof (push_words_ok m [esp1; Z.of_nat (length argv); 0] Hsp esp1 (words_bytes (places low ss ++ [0]) ++ img)) as Hw.
  cbv zeta in Hw. rewrite length_app, length_words_bytes, length_app, Hlen in Hw. cbn [length] in Hw.
  replace (esp1 - 4 * Z.of_nat 3) with esp in Hw by lia.
  specialize (Hw ltac:(lia) ltac:(unfold STACK_LOW in *; lia)).
  assert (Ha1 : esp1 mod 4 = 0).
  { unfold esp1. rewrite Zminus_mod, Halign, (Z.mul_comm 4), Z.mod_mul by lia. done. }
  specialize (Hw Ha1). destruct (Z.leb_spec STACK_LOW esp), (Z.ltb_spec esp STACK_LOW); try lia.
  2: by apply bind_err.
  mstep Hw. unfold mret, M_ret. do 4 f_equal. unfold stack_words. replace (esp + 12) with esp1 by lia.
  cbn [rev app]. unfold words_bytes. cbn [flat_map]. by rewrite <-!(assoc_L (++)).
Qed.

End Stack.
