(* ===== verification/LoaderProps.v ===== *)
(** * Properties of starting a user program *)

From S2P Require Import Prelude ListModel Bitmap BitmapThms Bytes CString CStringRep CStringProps Page PageThms PageDir PageProps FsModel FsThms FsProps Loader LoaderStack.

(** ** Frames of the user pool *)

(** Page tables are below the user pool: what happens there leaves the
    directory alone. *)
Lemma pd_rep_above s s' pd T :
  pools_ok s -> pd_rep s pd T -> kernel_pool s' = kernel_pool s ->
  (forall a, a < base (user_pool s) -> words s' a = words s a) ->
  pd_rep s' pd T /\ forall ua, 0 <= ua < PHYS_BASE -> translate s' T ua = translate s T ua.
Proof.
  intros Hs H Ek Ew.
  assert (W : forall page j, kpage s page -> 0 <= j < 1024 -> words s' (page + 4 * j) = words s (page + 4 * j)).
  { intros page j (i & [Hi ->] & _) Hj. apply Ew. pose proof (ps_apart _ Hs). lia. }
  assert (K : forall page, kpage s' page <-> kpage s page) by (intros page; unfold kpage; by rewrite Ek).
  split; [split|].
  - rewrite Ek. apply (pr_pool _ _ _ H).
  - apply K, (pr_pd _ _ _ H).
  - intros i Hi. rewrite W by (apply (pr_pd _ _ _ H) || lia). rewrite K. by apply (pr_tab _ _ _ H).
  - apply (pr_inj _ _ _ H).
  - intros i j Hi Hn Hj. rewrite W by (by apply (tab_kpage _ _ _ _ H) || done). by apply (pr_pte _ _ _ H).
  - intros ua Hua. unfold translate. destruct (Z.eqb_spec (T (pd_no ua)) NULL) as [|Hn]; [done|].
    rewrite W; [done|apply (tab_kpage _ _ _ _ H); [by apply pd_no_user|done]|apply pt_no_range].
Qed.

(** The frames are in physical memory and their bytes in the data pages. *)
Record frames_ok (init_ram_pages : Z) (v : vm) (m : bytes) : Prop := {
  fr_ram : base (user_pool v) + 4096 * bit_cnt (used_map (user_pool v)) <= PHYS_BASE + 4096 * init_ram_pages;
  fr_bytes a : base (user_pool v) <= a < base (user_pool v) + 4096 * bit_cnt (used_map (user_pool v)) -> is_Some (m !! a)
}.

(** A page for the user is free and is taken, or there is none. *)
Lemma get_user_page flags v pd T init_ram_pages m :
  pools_ok v -> pd_rep v pd T -> frames_ok init_ram_pages v m -> flag flags PAL_USER = true -> flag flags PAL_ASSERT = false ->
  (no_run (used_map (user_pool v)) 0 1 false /\ palloc_get_page flags v = Ok (NULL, v)) \/
  exists i v', let kp := base (user_pool v) + 4096 * i in
    0 <= i < bit_cnt (used_map (user_pool v)) /\ bit (used_map (user_pool v)) i = false /\
    palloc_get_page flags v = Ok (kp, v') /\ pools_ok v' /\ pd_rep v' pd T /\ kernel_pool v' = kernel_pool v /\
    base (user_pool v') = base (user_pool v) /\ updated (used_map (user_pool v)) (used_map (user_pool v')) (in_range i 1) true /\
    (forall ua, 0 <= ua < PHYS_BASE -> translate v' T ua = translate v T ua) /\
    kp mod 4096 = 0 /\ PHYS_BASE <= kp < 4294967296 /\ (kp - PHYS_BASE) / 4096 < init_ram_pages.
Proof.
  intros Hs H Hf Hu Ha. pose proof (ps_user _ Hs) as Hp.
  destruct (palloc_get_multiple_ok flags 1 v) as [[Hno E]|(i & b & Hrun & U & E)]; rewrite ?Hu; [done|lia|lia| |].
  - left. rewrite Hu, Ha in *. split; [exact Hno|exact E].
  - right. rewrite Hu in *. cbn [get_pool] in *. destruct Hrun as (R1 & R2 & R3 & _).
    set (v' := taken true b flags (base (user_pool v) + 4096 * i) 1 v) in *.
    assert (E1 : user_pool v' = Pool b (base (user_pool v)) /\ kernel_pool v' = kernel_pool v).
    { unfold v', taken. by destruct (flag flags PAL_ZERO). }
    destruct E1 as [E1 E2]. assert (Hlo := po_low _ Hp). assert (Hhi := po_high _ Hp). destruct Hf as [Hram _].
    destruct (pd_rep_above v v' pd T Hs H E2) as [Hrep Htr].
    { intros a Hlt. unfold v', taken. destruct (flag flags PAL_ZERO); [|done]. cbn [words set_words set_pool]. unfold fill.
      destruct (Z.leb_spec (base (user_pool v) + 4096 * i) a); [lia|done]. }
    exists i, v'. rewrite E1. cbn [base used_map]. split_and!; try done; try lia.
    + apply R3. lia.
    + apply (pools_map true b v); [done|apply U|apply (upd_cnt _ _ _ _ U)|done|exact E2].
    + rewrite Z.mul_comm, Z.mod_add by lia. apply (po_aligned _ Hp).
    + unfold PHYS_BASE in *. apply Z.div_lt_upper_bound; lia.
Qed.

Lemma free_user_page v pd T i :
  pools_ok v -> pd_rep v pd T -> 0 <= i < bit_cnt (used_map (user_pool v)) -> bit (used_map (user_pool v)) i = true ->
  exists v', palloc_free_page (base (user_pool v) + 4096 * i) v = Ok (tt, v') /\ pools_ok v' /\ pd_rep v' pd T /\
    kernel_pool v' = kernel_pool v /\ base (user_pool v') = base (user_pool v) /\
    updated (used_map (user_pool v)) (used_map (user_pool v')) (in_range i 1) false /\
    (forall ua, 0 <= ua < PHYS_BASE -> translate v' T ua = translate v T ua).
Proof.
  intros Hs H Hi Hb. destruct (palloc_free_multiple_ok v true i 1 Hs) as [Hfree _]; [lia|lia|cbn [get_pool]; lia|].
  cbn [get_pool] in Hfree. destruct Hfree as (b & E & U).
  { intros j Hj. by assert (j = i) as -> by lia. }
  set (v' := set_words _ _) in E. exists v'.
  destruct (pd_rep_above v v' pd T Hs H eq_refl) as [Hrep Htr].
  { intros a Ha. cbn [v' words set_words]. unfold fill. by destruct (Z.leb_spec (base (user_pool v) + 4096 * i) a); [lia|]. }
  split_and!; try done. by apply (pools_map true b v); [|apply U|apply (upd_cnt _ _ _ _ U)|..].
Qed.

(** ** Mapping a page *)

Lemma same_pools_ok v v' pd T : pools_ok v -> pd_rep v' pd T -> same_pools v v' -> pools_ok v'.
Proof.
  intros [H1 H2 H3] R (E1 & E2 & E3). split; rewrite ?E1, ?E2, ?E3; [apply (pr_pool _ _ _ R)|done|done].
Qed.

Lemma install_page_ok init_page_dir init_ram_pages f v m pd T upage kp writable :
  pd_rep v pd T -> pd <> init_page_dir -> upage mod 4096 = 0 -> 0 <= upage < PHYS_BASE ->
  kp mod 4096 = 0 -> PHYS_BASE <= kp < 4294967296 -> (kp - PHYS_BASE) / 4096 < init_ram_pages ->
  let call := install_page init_page_dir init_ram_pages pd upage kp writable (Machine f v m) in
  if decide (translate v T upage = NULL) then
    (no_run (used_map (kernel_pool v)) 0 1 false /\ call = Ok (false, Machine f v m)) \/
    exists v' T', call = Ok (true, Machine f v' m) /\ pd_rep v' pd T' /\ same_pools v v' /\
      forall ua, 0 <= ua < PHYS_BASE ->
        translate v' T' ua = if ua / 4096 =? upage / 4096 then kp + ua mod 4096 else translate v T ua
  else call = Ok (false, Machine f v m).
Proof.
  intros H Hinit Ha Hu Hka Hkr Hram call.
  destruct (set_page_ok init_page_dir init_ram_pages v pd T upage kp writable H Hinit Ha Hu Hka Hkr Hram) as [_ Hset].
  unfold call, install_page.
  rewrite (bind_ok _ _ _ (translate v T upage) (Machine f v m)) by
    (unfold on_vm; cbn [m_vm]; by rewrite (pagedir_get_page_ok _ _ _ _ H Hu)).
  cbv beta. case_decide as Hn.
  - rewrite Hn. cbn [Z.eqb NULL]. unfold on_vm. cbn [m_vm m_fs m_data].
    destruct (Hset Hn) as [[Hno E]|(v' & T' & E & R & Hsp & Htr)]; rewrite E; [by left|right]. by exists v', T'.
  - by destruct (Z.eqb_spec (translate v T upage) NULL).
Qed.

(** ** The initial stack *)

(** The argument strings are in kernel memory below the user pool, where the
    page with the copy of the command line is. *)
Definition args_ok (fuel : nat) (v : vm) (m : bytes) (argv : list Z) (ss : list (list Z)) : Prop :=
  Forall2 (fun arg s => cstr m arg s /\ arg <> NULL /\ (length s < fuel)%nat /\
                        arg + Z.of_nat (S (length s)) <= base (user_pool v)) argv ss.

Lemma page_of a b : b mod 4096 = 0 -> (a / 4096 =? b / 4096) = bool_decide (b <= a < b + 4096).
Proof.
  intros Hb. pose proof (Z.div_mod a 4096 ltac:(lia)). pose proof (Z.mod_pos_bound a 4096 ltac:(lia)).
  pose proof (Z.div_mod b 4096 ltac:(lia)). destruct (Z.eqb_spec (a / 4096) (b / 4096)); symmetry.
  - apply bool_decide_eq_true. lia.
  - apply bool_decide_eq_false. lia.
Qed.

Lemma stack_translate kp ua (x : Z) : 0 <= ua < PHYS_BASE ->
  (if ua / 4096 =? STACK_LOW / 4096 then kp + ua mod 4096 else x)
  = if decide (STACK_LOW <= ua) then kp + (ua - STACK_LOW) else x.
Proof.
  intros Hua. rewrite page_of by done. unfold STACK_LOW, PGSIZE, PHYS_BASE in *. case_decide.
  - rewrite bool_decide_eq_true_2 by lia. f_equal. symmetry. apply (Zmod_unique ua 4096 786431); lia.
  - by rewrite bool_decide_eq_false_2 by lia.
Qed.

(** Once the frame is mapped at the top of user memory it is the stack page. *)
Lemma stack_page_ok v v' pd T T' m kp :
  pd_rep v' pd T' -> PHYS_BASE <= kp -> (forall a, kp <= a < kp + 4096 -> is_Some (m !! a)) ->
  (forall a, STACK_LOW - PGSIZE <= a < STACK_LOW -> translate v T a = NULL) ->
  (forall ua, 0 <= ua < PHYS_BASE ->
     translate v' T' ua = if ua / 4096 =? STACK_LOW / 4096 then kp + ua mod 4096 else translate v T ua) ->
  stack_page pd v' m kp.
Proof.
  intros R Hk Hm Hbelow Htr. split; [| |done|done]; intros a Ha; assert (Hu : 0 <= a < PHYS_BASE)
    by (unfold STACK_LOW, PGSIZE, PHYS_BASE in *; lia); rewrite (pagedir_get_page_ok _ _ _ _ R Hu), Htr, stack_translate by done.
  - by rewrite decide_True by lia.
  - rewrite decide_False by lia. by rewrite Hbelow.
Qed.

(** The page that was cleared, with the words and strings written to it. *)
Lemma stack_image_ok m kp esp low ws al ss :
  Forall (Forall (fun c => 0 < c < 256)) ss -> STACK_LOW <= esp ->
  esp + 4 * Z.of_nat (length ws) + Z.of_nat al = low -> low + total ss = PHYS_BASE ->
  let m' := write (write m kp (repeat 0 (Z.to_nat PGSIZE))) (frame kp esp) (words_bytes ws ++ repeat 0 al ++ strings ss) in
  (forall a, a < kp \/ kp + PGSIZE <= a -> m' !! a = m !! a) /\
  (forall a, kp <= a < kp + (esp - STACK_LOW) -> m' !! a = Some 0) /\
  bytes_at m' (frame kp esp) (words_bytes ws) /\
  (forall k s, ss !! k = Some s -> exists a, places low ss !! k = Some a /\
     esp <= a /\ a + Z.of_nat (length s) < PHYS_BASE /\ cstr m' (frame kp a) s).
Proof.
  intros Hc Hesp Hlow Htop m'. set (img := words_bytes ws ++ repeat 0 al ++ strings ss) in *.
  assert (Himg : Z.of_nat (length img) = PHYS_BASE - esp).
  { unfold img, total in *. rewrite !length_app, length_words_bytes, repeat_length. lia. }
  pose proof (write_at (write m kp (repeat 0 (Z.to_nat PGSIZE))) (frame kp esp) img) as Hat. fold m' in Hat.
  unfold img in Hat. apply bytes_at_app in Hat as [Hat1 Hat2]. apply bytes_at_app in Hat2 as [_ Hat3].
  assert (Hzero : Z.of_nat (length (repeat 0 (Z.to_nat PGSIZE))) = PGSIZE) by (rewrite repeat_length; unfold PGSIZE; lia).
  split_and!; [| |done|].
  - intros a Ha. unfold m'. rewrite !write_out; [done|lia|unfold frame, STACK_LOW in *; lia].
  - intros a Ha. unfold m'. rewrite write_out by (unfold frame; lia).
    rewrite write_in by (rewrite Hzero; unfold STACK_LOW, PGSIZE, PHYS_BASE in *; lia).
    apply lookup_repeat. unfold STACK_LOW, PGSIZE, PHYS_BASE in *. lia.
  - intros k s Hk. destruct (stack_strings kp m' low ss Hc k s Hk) as (a & H1 & H2 & H3 & H4).
    exists a. split_and!; [done|lia|lia|]. apply H4.
    replace (frame kp low) with (frame kp esp + Z.of_nat (length (words_bytes ws)) + Z.of_nat (length (repeat 0 al))); [done|].
    rewrite length_words_bytes, repeat_length. unfold frame. lia.
Qed.

(** Nothing was taken between [s] and [s']: the file system, the pools, their
    used pages and the mappings of the process are the same, and so is every
    byte of memory that is not in a free frame. *)
Record nothing_taken (pd : Z) (T : Z -> Z) (s s' : machine) : Prop := {
  nt_fs : m_fs s' = m_fs s;
  nt_kernel : kernel_pool (m_vm s') = kernel_pool (m_vm s);
  nt_base : base (user_pool (m_vm s')) = base (user_pool (m_vm s));
  nt_cnt : bit_cnt (used_map (user_pool (m_vm s'))) = bit_cnt (used_map (user_pool (m_vm s)));
  nt_used j : 0 <= j -> bit (used_map (user_pool (m_vm s'))) j = bit (used_map (user_pool (m_vm s))) j;
  nt_rep : pd_rep (m_vm s') pd T;
  nt_maps ua : 0 <= ua < PHYS_BASE -> translate (m_vm s') T ua = translate (m_vm s) T ua;
  nt_data a : (forall i, 0 <= i < bit_cnt (used_map (user_pool (m_vm s))) -> bit (used_map (user_pool (m_vm s))) i = false ->
                 ~ (base (user_pool (m_vm s)) + 4096 * i <= a < base (user_pool (m_vm s)) + 4096 * i + PGSIZE)) ->
              m_data s' !! a = m_data s !! a
}.

(** A frame is taken, cleared and mapped at the top of user memory. *)
Lemma setup_stack_frame init_page_dir init_ram_pages pd fuel f v m T argv esp0 :
  pools_ok v -> pd_rep v pd T -> pd <> init_page_dir -> frames_ok init_ram_pages v m ->
  translate v T STACK_LOW = NULL ->
  let call := setup_stack init_page_dir init_ram_pages pd fuel argv esp0 (Machine f v m) in
  (exists s', call = Ok ((false, esp0), s') /\ nothing_taken pd T (Machine f v m) s' /\
     (no_run (used_map (user_pool v)) 0 1 false \/ no_run (used_map (kernel_pool v)) 0 1 false)) \/
  (exists i v' T', let kp := base (user_pool v) + 4096 * i in
     0 <= i < bit_cnt (used_map (user_pool v)) /\ bit (used_map (user_pool v)) i = false /\
     updated (used_map (user_pool v)) (used_map (user_pool v')) (in_range i 1) true /\
     PHYS_BASE <= kp /\ pd_rep v' pd T' /\
     (forall ua, 0 <= ua < PHYS_BASE ->
        translate v' T' ua = if ua / 4096 =? STACK_LOW / 4096 then kp + ua mod 4096 else translate v T ua) /\
     call = push_arguments pd fuel argv (Machine f v' (write m kp (repeat 0 (Z.to_nat PGSIZE))))).
Proof.
  intros Hs H Hinit Hf Hfree call. unfold call, setup_stack.
  destruct (get_user_page (Z.lor PAL_USER PAL_ZERO) v pd T init_ram_pages m Hs H Hf eq_refl eq_refl)
    as [[Hno E]|(i & v1 & Hi & Hbit & E & Hs1 & R1 & Ek & Eb & U & Htr1 & Hka & Hkr & Hram)].
  { left. exists (Machine f v m). rewrite (bind_ok _ _ _ NULL (Machine f v m)) by (unfold on_vm; cbn [m_vm]; by rewrite E).
    split; [done|]. split; [by split|by left]. }
  set (kp := base (user_pool v) + 4096 * i) in *.
  rewrite (bind_ok _ _ _ kp (Machine f v1 m)) by (unfold on_vm; cbn [m_vm]; by rewrite E). cbv beta.
  destruct (Z.eqb_spec kp NULL) as [E0|_]; [unfold NULL, PHYS_BASE in *; lia|].
  set (m1 := write m kp (repeat 0 (Z.to_nat PGSIZE))).
  assert (Hbytes : forall a, kp <= a < kp + 4096 -> is_Some (m !! a)) by (intros a Ha; apply (fr_bytes _ _ _ Hf); lia).
  rewrite (bind_ok _ _ _ tt (Machine f v1 m1)) by (unfold on_data; cbn [m_data]; by rewrite memset_loop_ok).
  cbv beta. pose proof (install_page_ok init_page_dir init_ram_pages f v1 m1 pd T STACK_LOW kp true R1 Hinit eq_refl
    ltac:(unfold STACK_LOW, PHYS_BASE, PGSIZE; lia) Hka Hkr Hram) as Hins. cbv zeta in Hins.
  rewrite decide_True in Hins by (rewrite Htr1 by (unfold STACK_LOW, PHYS_BASE, PGSIZE; lia); done).
  destruct Hins as [[Hno E2]|(v2 & T2 & E2 & R2 & (Eu & _) & Htr2)]; mstep E2.
  - left. destruct (free_user_page v1 pd T i Hs1 R1) as (v3 & E3 & _ & R3 & Ek3 & Eb3 & U3 & Htr3).
    { by rewrite (upd_cnt _ _ _ _ U). }
    { rewrite (upd_bit _ _ _ _ U), in_range_true by lia. done. }
    rewrite Eb in E3. exists (Machine f v3 m1). rewrite (bind_ok _ _ _ tt (Machine f v3 m1)) by
      (unfold on_vm; cbn [m_vm]; fold kp in E3; by rewrite E3).
    split; [done|]. split; [|right; by rewrite <-Ek]. split; cbn [m_fs m_vm m_data]; [done|congruence|congruence| | |done| |].
    + by rewrite (upd_cnt _ _ _ _ U3), (upd_cnt _ _ _ _ U).
    + intros j Hj. rewrite (upd_bit _ _ _ _ U3), (upd_bit _ _ _ _ U) by done.
      destruct (decide (j = i)) as [->|]; [by rewrite in_range_true by lia|by rewrite in_range_false by lia].
    + intros ua Hua. by rewrite Htr3, Htr1.
    + intros a Ha. apply write_out. rewrite repeat_length. specialize (Ha i Hi Hbit). fold kp in Ha. unfold PGSIZE in *. lia.
  - right. exists i, v2, T2. rewrite Eu. split_and!; try done; try lia. intros ua Hua. by rewrite Htr2, Htr1.
Qed.

(** C18: The initial stack of a process.  When there is no frame or no page
    table for it, [setup_stack] returns false with [*esp] as it was and nothing
    taken: the frame it got is free again, and the pools, the mappings, the
    file system and all memory but free frames are as before.  Otherwise
    exactly one frame, one that was free, is taken and mapped at the top of
    user memory, and nothing else is; on success it holds the return address 0, the number of
    arguments, the pointer to the array, the array of pointers closed by a null
    pointer, and the strings, with the stack pointer on a word and every
    pointer on its string; the rest of the page is zero.  Strings of more than
    a page make it return false with [*esp] moved and the frame still taken
    and mapped; strings that fit when the pointers do not make the kernel
    fault. *)
Theorem setup_stack_correct init_page_dir init_ram_pages pd fuel f v m T argv ss esp0 :
  pools_ok v -> pd_rep v pd T -> pd <> init_page_dir -> frames_ok init_ram_pages v m ->
  (forall a, STACK_LOW - PGSIZE <= a < PHYS_BASE -> translate v T a = NULL) -> args_ok fuel v m argv ss ->
  let call := setup_stack init_page_dir init_ram_pages pd fuel argv esp0 (Machine f v m) in
  let low := PHYS_BASE - total ss in
  let esp := low - low mod 4 - 4 * (Z.of_nat (length argv) + 1) - 12 in
  (exists s', call = Ok ((false, esp0), s') /\ nothing_taken pd T (Machine f v m) s' /\
     (no_run (used_map (user_pool v)) 0 1 false \/ no_run (used_map (kernel_pool v)) 0 1 false)) \/
  (exists i v' T', let kp := base (user_pool v) + 4096 * i in
     0 <= i < bit_cnt (used_map (user_pool v)) /\ bit (used_map (user_pool v)) i = false /\ pd_rep v' pd T' /\
     updated (used_map (user_pool v)) (used_map (user_pool v')) (in_range i 1) true /\
     (forall ua, 0 <= ua < PHYS_BASE ->
        translate v' T' ua = if decide (STACK_LOW <= ua) then kp + (ua - STACK_LOW) else translate v T ua) /\
     if low <? STACK_LOW then
       exists esp' m', call = Ok ((false, esp'), Machine f v' m') /\
         forall a, a < kp \/ kp + PGSIZE <= a -> m' !! a = m !! a
     else if esp <? STACK_LOW then call = Err EFault
     else exists m', call = Ok ((true, esp), Machine f v' m') /\ esp mod 4 = 0 /\
       (forall a, a < kp \/ kp + PGSIZE <= a -> m' !! a = m !! a) /\
       (forall a, kp <= a < kp + (esp - STACK_LOW) -> m' !! a = Some 0) /\
       bytes_at m' (kp + (esp - STACK_LOW))
         (words_bytes ([0; Z.of_nat (length argv); esp + 12] ++ places low ss ++ [0])) /\
       (forall k s, ss !! k = Some s -> exists a, places low ss !! k = Some a /\
          esp <= a /\ a + Z.of_nat (length s) < PHYS_BASE /\ cstr m' (kp + (a - STACK_LOW)) s)).
Proof.
  intros Hs H Hinit Hf Hfree Hargs call low esp.
  destruct (setup_stack_frame init_page_dir init_ram_pages pd fuel f v m T argv esp0 Hs H Hinit Hf) as [?|Hok];
    [apply Hfree; unfold STACK_LOW, PGSIZE, PHYS_BASE; lia|by left|right].
  destruct Hok as (i & v2 & T2 & Hi & Hbit & U & Hkr & R2 & Htr & E). unfold call. rewrite E. clear E call.
  set (kp := base (user_pool v) + 4096 * i) in *. set (m1 := write m kp (repeat 0 (Z.to_nat PGSIZE))).
  assert (Hspg : stack_page pd v2 m1 kp).
  { apply (stack_page_ok v v2 pd T T2); [done|done| | |done].
    - intros a Ha. apply write_some, (fr_bytes _ _ _ Hf). lia.
    - intros a Ha. apply Hfree. unfold STACK_LOW, PGSIZE in *. lia. }
  assert (Hargs1 : Forall2 (arg_at kp fuel m1) argv ss).
  { eapply Forall2_impl; [exact Hargs|]. intros arg s (A1 & A2 & A3 & A4). split_and!; [|done|done|lia].
    apply (cstr_agree m); [|done]. intros a Ha. apply write_out. lia. }
  exists i, v2, T2. split_and!; [lia|lia|done|done|done| |].
  { intros ua Hua. rewrite Htr by done. by apply stack_translate. }
  pose proof (push_arguments_ok pd f v2 kp fuel m1 argv ss Hargs1 Hspg) as Hpush. cbv zeta in Hpush. fold low esp in Hpush.
  assert (Hout : forall a, a < kp \/ kp + PGSIZE <= a -> m1 !! a = m !! a).
  { intros a Ha. apply write_out. rewrite repeat_length. unfold PGSIZE in *. lia. }
  unfold st in Hpush. destruct (Z.ltb_spec low STACK_LOW) as [|Hlow].
  { destruct Hpush as (esp' & m' & E & Hm). exists esp', m'. split; [done|]. intros a Ha. by rewrite Hm, Hout. }
  destruct (Z.ltb_spec esp STACK_LOW) as [|Hesp]; [done|].
  assert (Hc : Forall (Forall (fun c => 0 < c < 256)) ss).
  { clear -Hargs. induction Hargs as [|arg s ? ? (A & _) _ IH]; constructor; [apply A|done]. }
  pose proof (Z.mod_pos_bound low 4 ltac:(lia)) as Hal. pose proof (Z.div_mod low 4 ltac:(lia)) as Hdm.
  destruct (stack_image_ok m kp esp low (stack_words (Z.of_nat (length argv)) low (esp + 12) ss) (Z.to_nat (low mod 4)) ss Hc Hesp)
    as (I1 & I2 & I3 & I4); [|unfold low; lia|].
  { unfold stack_words. rewrite !length_app, length_places, <-(Forall2_length _ _ _ Hargs). cbn [length]. unfold esp. lia. }
  eexists. split; [exact Hpush|]. split_and!; [|exact I1|exact I2|exact I3|exact I4].
  replace esp with ((low / 4 - Z.of_nat (length argv) - 4) * 4) by (unfold esp; lia). apply Z.mod_mul. lia.
Qed.

(** The page of the command line has "ls" and "-l"; the frames are zero. *)
Definition demo_data : bytes :=
  write (write ∅ 3222429696 (repeat 0 (Z.to_nat 131072))) 3222302720 [108; 115; 0; 45; 108; 0].

Lemma demo_frames : frames_ok 16384 demo_vm demo_data.
Proof.
  split; cbn [demo_vm user_pool base used_map bit_cnt]; [unfold PHYS_BASE; lia|]. intros a Ha. apply write_some.
  rewrite write_in by (rewrite repeat_length; lia). rewrite lookup_repeat by lia. by eexists.
Qed.

Lemma demo_args m : bytes_at m 3222302720 [108; 115; 0; 45; 108; 0] ->
  args_ok 100 demo_vm m [3222302720; 3222302723] [[108; 115]; [45; 108]].
Proof.
  intros (H1 & H2 & H3 & H4 & H5 & H6 & _). unfold args_ok, cstr, NULL.
  repeat (apply Forall2_cons; split); [..|by constructor]; cbn [length demo_vm user_pool base bytes_at app];
    split_and!; try done; try lia; repeat (apply Forall_cons; split; [lia|]); apply Forall_nil; done.
Qed.

Lemma setup_stack_correct_witness :
  exists v' m' kp,
    setup_stack 5 16384 3222298624 100 [3222302720; 3222302723] 0 (Machine formatted demo_vm demo_data)
    = Ok ((true, PHYS_BASE - 32), Machine formatted v' m') /\
    bytes_at m' (kp + 4064) (words_bytes [0; 2; PHYS_BASE - 20; PHYS_BASE - 6; PHYS_BASE - 3; 0]) /\
    cstr m' (kp + 4090) [108; 115].
Proof.
  destruct (setup_stack_correct 5 16384 3222298624 100 formatted demo_vm demo_data (fun _ => NULL)
    [3222302720; 3222302723] [[108; 115]; [45; 108]] 0 demo_vm_ok demo_pd ltac:(lia) demo_frames ltac:(reflexivity) (demo_args demo_data (write_at _ _ _)))
    as [(s' & _ & _ & [Hno|Hno])|(i & v' & T' & _ & _ & _ & _ & _ & Hend)].
  - exfalso. apply (Hno 2); [lia|vm_compute; discriminate|]. intros j Hj. assert (j = 2) as -> by lia. vm_compute. reflexivity.
  - exfalso. apply (Hno 2); [lia|vm_compute; discriminate|]. intros j Hj. assert (j = 2) as -> by lia. vm_compute. reflexivity.
  - destruct Hend as (m' & E & _ & _ & _ & Hw & Hs). exists v', m', (base (user_pool demo_vm) + 4096 * i).
    split; [exact E|]. split; [exact Hw|].
    destruct (Hs 0%nat [108; 115] eq_refl) as (a & Ha & _ & _ & Hc). injection Ha as <-. exact Hc.
Defined.
