(* ===== verification/LoaderSegment.v ===== *)
(** * Loading the segments of a program *)

From S2P Require Import Prelude ListModel Bitmap BitmapThms Bytes CString CStringRep CStringProps Page PageThms PageDir PageProps FsModel FsRep FsRead FsAlloc FsGrow FsThms FsProps Loader LoaderStack LoaderProps.

(** ** Segments *)

Lemma page_mask x : 0 <= x < 4294967296 ->
  Z.land x (u32 (Z.lnot PGMASK)) = x - x mod 4096 /\ Z.land x PGMASK = x mod 4096.
Proof.
  intros Hx. split; [|apply pg_ofs_mod]. change (u32 (Z.lnot PGMASK)) with PTE_ADDR. by apply land_addr.
Qed.

Lemma round_up_ok x : 0 <= x -> x + 4095 < 4294967296 ->
  x <= ROUND_UP x PGSIZE < x + 4096 /\ ROUND_UP x PGSIZE mod 4096 = 0.
Proof.
  intros H0 H1. unfold ROUND_UP, PGSIZE. rewrite (u32_small (x + 4096 - 1)) by lia.
  pose proof (Z.div_mod (x + 4096 - 1) 4096 ltac:(lia)) as Hd. pose proof (Z.mod_pos_bound (x + 4096 - 1) 4096 ltac:(lia)).
  rewrite u32_small by lia. split; [lia|apply Z.mod_mul; lia].
Qed.

Definition phdr_words (h : Elf32_Phdr) : Prop :=
  is_word (p_offset h) /\ is_word (p_vaddr h) /\ is_word (p_filesz h) /\ is_word (p_memsz h).

Lemma validate_segment_ok h len : 0 <= len < 2147483648 -> phdr_words h ->
  validate_segment h len = true <->
  p_offset h mod 4096 = p_vaddr h mod 4096 /\ p_offset h <= len /\ p_filesz h <= p_memsz h /\ 0 < p_memsz h /\
  4096 <= p_vaddr h /\ p_vaddr h + p_memsz h < PHYS_BASE.
Proof.
  intros Hlen (H1 & H2 & H3 & H4). unfold is_word in *. unfold validate_segment, is_user_vaddr, PGSIZE.
  rewrite (proj2 (page_mask _ H1)), (proj2 (page_mask _ H2)), (u32_small len) by lia.
  assert (Hw : u32 (p_vaddr h + p_memsz h) = p_vaddr h + p_memsz h \/
               u32 (p_vaddr h + p_memsz h) = p_vaddr h + p_memsz h - 4294967296 /\ 4294967296 <= p_vaddr h + p_memsz h).
  { unfold u32. destruct (Z.lt_ge_cases (p_vaddr h + p_memsz h) 4294967296) as [Hs|Hs]; [left; by apply Z.mod_small; lia|right].
    split; [|done]. replace (p_vaddr h + p_memsz h) with (p_vaddr h + p_memsz h - 4294967296 + 1 * 4294967296) at 1 by lia.
    rewrite Z.mod_add by lia. apply Z.mod_small. lia. }
  unfold PHYS_BASE. destruct (Z.eqb_spec (p_offset h mod 4096) (p_vaddr h mod 4096)); cbn [negb]; [|split; [done|lia]].
  repeat match goal with
    | |- context [?a <? ?b] => destruct (Z.ltb_spec a b)
    | |- context [?a =? ?b] => destruct (Z.eqb_spec a b)
    end; cbn [negb]; (split; [intros Ht|intros Hc]); try discriminate; try lia; done.
Qed.

(** What [load] asks [load_segment] for: the assertions there hold, the pages
    are user pages that cover the segment, and the file offset of a byte of
    the segment is where [load_segment] will look for it. *)
Lemma segment_args_ok h len : 0 <= len < 2147483648 -> phdr_words h -> validate_segment h len = true ->
  exists fp mp rb zb w, segment_args h = (fp, mp, rb, zb, w) /\
    0 <= fp <= len /\ fp mod 4096 = 0 /\ mp mod 4096 = 0 /\ 4096 <= mp <= p_vaddr h /\
    p_vaddr h - mp = p_offset h - fp /\ 0 <= rb /\ 0 <= zb /\ (rb + zb) mod 4096 = 0 /\
    p_vaddr h + p_memsz h <= mp + (rb + zb) <= PHYS_BASE /\
    rb = (if 0 <? p_filesz h then p_vaddr h - mp + p_filesz h else 0).
Proof.
  intros Hl Hw Hv. apply validate_segment_ok in Hv as (V1 & V2 & V3 & V4 & V5 & V6); [|done|done].
  destruct Hw as (H1 & H2 & H3 & H4). unfold is_word, PHYS_BASE in *.
  destruct (page_mask _ H1) as [E1 _]. destruct (page_mask _ H2) as [E2 E3].
  pose proof (Z.mod_pos_bound (p_vaddr h) 4096 ltac:(lia)) as Hm. pose proof (Z.div_mod (p_vaddr h) 4096 ltac:(lia)) as Hd.
  pose proof (Z.div_mod (p_offset h) 4096 ltac:(lia)) as Hd'. set (po := p_vaddr h mod 4096) in *.
  destruct (round_up_ok (po + p_memsz h)) as [[U1 U2] U3]; [lia|lia|].
  pose proof (Z.div_mod (ROUND_UP (po + p_memsz h) PGSIZE) 4096 ltac:(lia)) as Hr. rewrite U3 in Hr.
  assert (Hal : forall x : Z, (4096 * x) mod 4096 = 0) by (intros x; rewrite Z.mul_comm; by apply Z.mod_mul).
  unfold segment_args. rewrite E1, E2, E3, (u32_small (po + p_memsz h)) by lia.
  assert (Hp1 : p_offset h - p_offset h mod 4096 = 4096 * (p_offset h / 4096)) by lia.
  assert (Hp2 : p_vaddr h - po = 4096 * (p_vaddr h / 4096)) by lia. rewrite Hp1, Hp2.
  destruct (Z.ltb_spec 0 (p_filesz h)) as [Hf|Hf]; eexists _, _, _, _, _.
  - rewrite (u32_small (po + p_filesz h)), (u32_small (_ - _)) by lia. split; [reflexivity|].
    split_and!; try lia; try apply Hal.
    by replace (po + p_filesz h + (ROUND_UP (po + p_memsz h) PGSIZE - (po + p_filesz h))) with (ROUND_UP (po + p_memsz h) PGSIZE) by lia.
  - split; [reflexivity|]. split_and!; try lia; try apply Hal. by rewrite Z.add_0_l.
Qed.

(** ** Reading a file *)

(** What the loader needs of an open file with the bytes [content]: [opened s p]
    holds when the file is open in [s] at position [p]. *)
Class FileReader (file : Z) (content : list Z) := {
  opened : fs -> Z -> Prop;
  rd_bytes : Forall is_byte content;
  rd_seek s p new : opened s p -> 0 <= new -> exists s', file_seek file new s = Ok (tt, s') /\ opened s' new;
  rd_read s p n : opened s p -> 0 <= p -> 0 <= n -> p + n < 2147483648 ->
    let r := Z.max 0 (Z.min n (Z.of_nat (length content) - p)) in
    exists s', file_read file n s = Ok ((r, take (Z.to_nat r) (drop (Z.to_nat p) content)), s') /\ opened s' (p + r)
}.

(** The bytes of a segment. *)
Definition image (content : list Z) (ofs rb zb : Z) : list Z :=
  take (Z.to_nat rb) (drop (Z.to_nat ofs) content) ++ repeat 0 (Z.to_nat zb).

Lemma image_page content ofs rb zb : 0 <= ofs -> 0 <= rb -> 0 <= zb -> 4096 <= rb + zb ->
  let n := Z.min rb 4096 in
  image content ofs rb zb = image content ofs n (4096 - n) ++ image content (ofs + n) (rb - n) (zb - (4096 - n)).
Proof.
  intros Ho Hr Hz Hs n. unfold image. destruct (Z.le_gt_cases rb 4096) as [Hle|Hgt].
  - replace n with rb by lia. rewrite Z.sub_diag, (eq_refl : Z.to_nat 0 = 0%nat), take_0, app_nil_l, <-(assoc_L (++)), <-repeat_app.
    do 2 f_equal. lia.
  - replace n with 4096 by lia. rewrite Z.sub_diag, Z.sub_0_r. cbn [Z.to_nat repeat]. rewrite app_nil_r, (assoc_L (++)). f_equal.
    rewrite <-(firstn_skipn (Z.to_nat 4096) (take (Z.to_nat rb) _)). f_equal.
    + rewrite take_take. f_equal. lia.
    + rewrite skipn_firstn_comm, drop_drop. f_equal; [lia|]. f_equal. lia.
Qed.

Lemma length_image content ofs rb zb : 0 <= ofs -> 0 <= rb -> 0 <= zb -> rb = 0 \/ ofs + rb <= Z.of_nat (length content) ->
  Z.of_nat (length (image content ofs rb zb)) = rb + zb.
Proof. intros Ho Hr Hz Hl. unfold image. rewrite length_app, length_take, length_drop, repeat_length. lia. Qed.

Lemma image_byte content ofs rb zb : Forall is_byte content -> Forall is_byte (image content ofs rb zb).
Proof.
  intros H. apply Forall_app. split; [by apply Forall_take, Forall_drop|]. apply Forall_forall. intros x Hx.
  apply list_elem_of_In, repeat_spec in Hx as ->. unfold is_byte. lia.
Qed.

(** Byte [k] of a segment that starts [d] bytes into its first page. *)
Lemma image_lookup content ofs d fz zb k : 0 <= ofs -> 0 <= d -> 0 <= fz -> 0 <= zb -> 0 <= k ->
  let rb := if 0 <? fz then d + fz else 0 in
  rb = 0 \/ ofs + rb <= Z.of_nat (length content) -> d + k < rb + zb ->
  image content ofs rb zb !! Z.to_nat (d + k) = if k <? fz then content !! Z.to_nat (ofs + d + k) else Some 0.
Proof.
  intros H1 H2 H3 H4 H5 rb Hfit Hk. unfold image, rb in *.
  destruct (Z.ltb_spec 0 fz), (Z.ltb_spec k fz); try lia.
  - rewrite lookup_app_l by (rewrite length_take, length_drop; lia). rewrite lookup_take_lt, lookup_drop by lia. f_equal. lia.
  - rewrite lookup_app_r by (rewrite length_take, length_drop; lia). apply lookup_repeat. rewrite length_take, length_drop. lia.
  - apply lookup_repeat. lia.
Qed.

Lemma copy_in_ok bs : forall m p, Forall is_byte bs -> (forall a, p <= a < p + Z.of_nat (length bs) -> is_Some (m !! a)) ->
  copy_in p bs m = Ok (tt, write m p bs).
Proof.
  induction bs as [|b bs IH]; intros m p Hb Hm; cbn [copy_in write length] in *; [done|]. inversion_clear Hb.
  destruct (Hm p ltac:(lia)) as [old Ho]. mstep (store_ok m p old b Ho ltac:(done)). apply IH; [done|].
  intros a Ha. rewrite lookup_insert_ne by lia. apply Hm. lia.
Qed.

(** ** The pages of a segment *)

(** [a] is a byte of a frame that is not in use. *)
Definition free_frame (v : vm) (a : Z) : Prop :=
  exists i, 0 <= i < bit_cnt (used_map (user_pool v)) /\ bit (used_map (user_pool v)) i = false /\
    base (user_pool v) + 4096 * i <= a < base (user_pool v) + 4096 * i + 4096.

Section Pages.
Context (init_page_dir init_ram_pages pd file : Z) (content : list Z) {R : FileReader file content}.

(** The pools, the directory and the frames of a process that is loaded. *)
Record loading (v : vm) (m : bytes) (T : Z -> Z) : Prop := {
  lo_pools : pools_ok v;
  lo_rep : pd_rep v pd T;
  lo_frames : frames_ok init_ram_pages v m
}.

Lemma frames_ok_same v v' m m' : frames_ok init_ram_pages v m -> base (user_pool v') = base (user_pool v) ->
  bit_cnt (used_map (user_pool v')) = bit_cnt (used_map (user_pool v)) ->
  (forall a, is_Some (m !! a) -> is_Some (m' !! a)) -> frames_ok init_ram_pages v' m'.
Proof using. intros [H1 H2] E1 E2 H. split; rewrite E1, E2; [done|]. intros a Ha. by apply H, H2. Qed.

(** [m'] is [m] but for the bytes of one page. *)
Definition page_changed (kp : Z) (m m' : bytes) : Prop :=
  (forall a, a < kp \/ kp + 4096 <= a -> m' !! a = m !! a) /\ forall a, is_Some (m !! a) -> is_Some (m' !! a).

Lemma page_write kp m bs : Z.of_nat (length bs) <= 4096 -> page_changed kp m (write m kp bs).
Proof using. intros Hl. split; intros a Ha; [apply write_out; lia|by apply write_some]. Qed.

(** Reading a page of the file and clearing its rest. *)
Lemma fill_page f v m kp ofs n : opened f ofs -> 0 <= ofs -> 0 <= n <= 4096 -> ofs + n < 2147483648 ->
  PHYS_BASE <= kp -> (forall a, kp <= a < kp + 4096 -> is_Some (m !! a)) ->
  exists r bs f' m1, on_fs (file_read file n) (Machine f v m) = Ok ((r, bs), Machine f' v m) /\
    on_data (copy_in kp bs) (Machine f' v m) = Ok (tt, Machine f' v m1) /\ page_changed kp m m1 /\
    if decide (n = 0 \/ ofs + n <= Z.of_nat (length content)) then
      r = n /\ opened f' (ofs + n) /\
      exists m2, on_data (memset (kp + n) 0 (PGSIZE - n)) (Machine f' v m1) = Ok (kp + n, Machine f' v m2) /\
        page_changed kp m m2 /\ bytes_at m2 kp (image content ofs n (4096 - n))
    else r <> n.
Proof using R.
  intros Ho H0 Hn Hmax Hk Hm. destruct (rd_read f ofs n Ho H0 ltac:(lia) Hmax) as (f' & E & Ho').
  set (r := Z.max 0 (Z.min n (Z.of_nat (length content) - ofs))) in *. set (bs := take (Z.to_nat r) (drop (Z.to_nat ofs) content)) in *.
  assert (Hbs : (length bs <= Z.to_nat r)%nat) by (unfold bs; rewrite length_take; lia).
  exists r, bs, f', (write m kp bs). split; [unfold on_fs; cbn [m_fs]; by rewrite E|]. split.
  { unfold on_data. cbn [m_data]. rewrite copy_in_ok; [done|by apply Forall_take, Forall_drop, rd_bytes|].
    intros a Ha. apply Hm. lia. }
  split; [apply page_write; lia|]. case_decide as Hd; [|lia].
  assert (r = n) as Er by lia. split; [done|]. split; [by rewrite <-Er|].
  exists (write m kp (image content ofs n (4096 - n))). split_and!; [|apply page_write; rewrite length_image; lia|apply write_at].
  assert (Hlen : Z.of_nat (length bs) = n) by (unfold bs; rewrite length_take, length_drop; lia).
  unfold on_data, memset. cbn [m_data]. mstep_by (apply assert_block; left; unfold NULL, PHYS_BASE in *; lia).
  mstep_by (apply memset_loop_ok; intros a Ha; apply write_some, Hm; unfold PGSIZE in *; lia).
  unfold image. rewrite write_app, <-Er. fold bs. by rewrite Er, Hlen.
Qed.

(** What loading the pages from [upage] on has done: on success they are
    mapped and hold the bytes [img], and no other page is mapped or unmapped;
    a failure has one of four reasons. *)
Definition loaded (v v' : vm) (m' : bytes) (T T' : Z -> Z) (upage n : Z) (img : list Z) : Prop :=
  (forall ua, 0 <= ua < PHYS_BASE -> ~ upage <= ua < upage + 4096 * n -> translate v' T' ua = translate v T ua) /\
  (forall k, 0 <= k < 4096 * n -> translate v' T' (upage + k) <> NULL /\
     m' !! translate v' T' (upage + k) = img !! Z.to_nat k).

Definition not_loaded (v v' : vm) (T : Z -> Z) (upage n ofs rb : Z) : Prop :=
  no_run (used_map (user_pool v')) 0 1 false \/ no_run (used_map (kernel_pool v')) 0 1 false \/
  (exists k, 0 <= k < n /\ translate v T (upage + 4096 * k) <> NULL) \/
  Z.of_nat (length content) < ofs + rb.

(** The frame that was just taken. *)
Lemma taken_frame v v' i : base (user_pool v') = base (user_pool v) -> 0 <= i < bit_cnt (used_map (user_pool v)) ->
  bit (used_map (user_pool v)) i = false ->
  updated (used_map (user_pool v)) (used_map (user_pool v')) (in_range i 1) true ->
  let kp := base (user_pool v) + 4096 * i in
  (forall a, free_frame v' a -> free_frame v a) /\
  forall a, kp <= a < kp + 4096 -> free_frame v a /\ ~ free_frame v' a.
Proof using.
  intros Eb Hi Hbit U kp. split.
  - intros a (j & Hj & Hf & Ha). rewrite Eb in Ha. rewrite (upd_cnt _ _ _ _ U) in Hj. rewrite (upd_bit _ _ _ _ U) in Hf by lia.
    exists j. split_and!; try lia. by destruct (in_range i 1 j).
  - intros a Ha. split; [by exists i|]. intros (j & Hj & Hf & Ha'). rewrite Eb in Ha'.
    assert (j = i) as -> by (unfold kp in Ha; lia). by rewrite (upd_bit _ _ _ _ U), in_range_true in Hf by lia.
Qed.

(** A frame is given back after a failure. *)
Lemma drop_page f v v1 m m' T i :
  loading v m T -> pools_ok v1 -> pd_rep v1 pd T -> kernel_pool v1 = kernel_pool v -> base (user_pool v1) = base (user_pool v) ->
  0 <= i < bit_cnt (used_map (user_pool v)) -> bit (used_map (user_pool v)) i = false ->
  updated (used_map (user_pool v)) (used_map (user_pool v1)) (in_range i 1) true ->
  let kp := base (user_pool v) + 4096 * i in page_changed kp m m' ->
  exists v', on_vm (palloc_free_page kp) (Machine f v1 m') = Ok (tt, Machine f v' m') /\
    loading v' m' T /\ (forall a, ~ free_frame v a -> m' !! a = m !! a) /\ kernel_pool v' = kernel_pool v.
Proof using.
  intros [_ _ Hfr] Hs1 R1 Ek Eb Hi Hbit U kp [C1 C2].
  destruct (free_user_page v1 pd T i Hs1 R1) as (v3 & E3 & Hs3 & R3 & Ek3 & Eb3 & U3 & _).
  { by rewrite (upd_cnt _ _ _ _ U). }
  { rewrite (upd_bit _ _ _ _ U), in_range_true by lia. done. }
  exists v3. rewrite Eb in E3. split_and!.
  - unfold on_vm. cbn [m_vm]. unfold kp. by rewrite E3.
  - split; [done|done|]. apply (frames_ok_same v v3 m m'); [done|congruence| |done].
    by rewrite (upd_cnt _ _ _ _ U3), (upd_cnt _ _ _ _ U).
  - intros a Ha. apply C1. destruct (Z.lt_ge_cases a kp); [by left|]. destruct (Z.lt_ge_cases a (kp + 4096)); [|by right].
    exfalso. apply Ha. by exists i.
  - congruence.
Qed.

(** The first page and the rest make the whole. *)
Lemma loaded_cons v v1 v' m1 m' T T1 T' upage n kp page img :
  upage mod 4096 = 0 -> 0 <= upage -> upage + 4096 * (n + 1) <= PHYS_BASE -> 0 <= n -> PHYS_BASE <= kp ->
  length page = 4096%nat -> bytes_at m1 kp page ->
  (forall a, kp <= a < kp + 4096 -> ~ free_frame v1 a) -> (forall a, ~ free_frame v1 a -> m' !! a = m1 !! a) ->
  (forall ua, 0 <= ua < PHYS_BASE ->
     translate v1 T1 ua = if ua / 4096 =? upage / 4096 then kp + ua mod 4096 else translate v T ua) ->
  loaded v1 v' m' T1 T' (upage + 4096) n img -> loaded v v' m' T T' upage (n + 1) (page ++ img).
Proof using.
  intros Hua H0 H1 Hn Hkp Hlen Hat Hfr Hm Htr [L1 L2]. split.
  - intros ua Hu Hout. rewrite L1, Htr, page_of, bool_decide_eq_false_2 by lia. done.
  - intros k Hk. destruct (Z.lt_ge_cases k 4096) as [Hlt|Hge].
    + rewrite L1, Htr, page_of, bool_decide_eq_true_2 by lia.
      rewrite (Zplus_mod upage k), Hua, Z.add_0_l, Z.mod_mod, (Z.mod_small k) by lia.
      split; [unfold NULL, PHYS_BASE in *; lia|]. rewrite Hm by (apply Hfr; lia).
      rewrite (bytes_at_lookup m1 kp page) by (done || lia). rewrite lookup_app_l by lia. f_equal. lia.
    + specialize (L2 (k - 4096) ltac:(lia)). replace (upage + 4096 + (k - 4096)) with (upage + k) in L2 by lia.
      rewrite lookup_app_r by lia. rewrite Hlen. replace (Z.to_nat k - 4096)%nat with (Z.to_nat (k - 4096)) by lia. done.
Qed.

Context (Hinit : pd <> init_page_dir) (Hsize : Z.of_nat (length content) < 1073741824).

(** One turn of the loop: it stops with a failure, or the page is mapped. *)
Lemma load_page_step writable fuel f v m T upage ofs rb zb :
  loading v m T -> opened f ofs -> 0 <= ofs -> ofs <= Z.of_nat (length content) -> 0 <= rb -> 0 <= zb -> 4096 <= rb + zb < 4294967296 ->
  upage mod 4096 = 0 -> 0 <= upage -> upage + 4096 <= PHYS_BASE ->
  let call := load_pages init_page_dir init_ram_pages pd (S fuel) file upage rb zb writable (Machine f v m) in
  let n := Z.min rb 4096 in
  (exists f' v' m', call = Ok (false, Machine f' v' m') /\ loading v' m' T /\
     (forall a, ~ free_frame v a -> m' !! a = m !! a) /\ not_loaded v v' T upage 1 ofs n) \/
  (exists f' v' m' T' kp,
     call = load_pages init_page_dir init_ram_pages pd fuel file (upage + 4096) (rb - n) (zb - (4096 - n)) writable
              (Machine f' v' m') /\
     loading v' m' T' /\ opened f' (ofs + n) /\ (forall a, free_frame v' a -> free_frame v a) /\
     (forall a, kp <= a < kp + 4096 -> free_frame v a /\ ~ free_frame v' a) /\ PHYS_BASE <= kp /\
     page_changed kp m m' /\ (n = 0 \/ ofs + n <= Z.of_nat (length content)) /\
     bytes_at m' kp (image content ofs n (4096 - n)) /\
     forall ua, 0 <= ua < PHYS_BASE ->
       translate v' T' ua = if ua / 4096 =? upage / 4096 then kp + ua mod 4096 else translate v T ua).
Proof using R Hinit Hsize.
  intros L Ho H0 Hmax Hrb Hzb Hsum Hua Hu0 Hu1 call n. pose proof L as [Hs Hrep Hfr]. unfold call. cbn [load_pages].
  destruct ((0 <? rb) || (0 <? zb)) eqn:Eb; [|apply orb_false_iff in Eb as [?%Z.ltb_ge ?%Z.ltb_ge]; lia]. clear Eb.
  replace (if rb <? PGSIZE then rb else PGSIZE) with n by (unfold n, PGSIZE; destruct (Z.ltb_spec rb 4096); lia).
  destruct (get_user_page PAL_USER v pd T init_ram_pages m Hs Hrep Hfr eq_refl eq_refl)
    as [[Hno E]|(i & v1 & Hi & Hbit & E & Hs1 & R1 & Ek & Ebase & U & Htr1 & Hka & Hkr & Hram)].
  { left. exists f, v, m. rewrite (bind_ok _ _ _ NULL (Machine f v m)) by (unfold on_vm; cbn [m_vm]; by rewrite E).
    split_and!; [done|by split|done|by left]. }
  destruct (taken_frame v v1 i Ebase Hi Hbit U) as [Hless Htaken].
  set (kp := base (user_pool v) + 4096 * i) in *.
  rewrite (bind_ok _ _ _ kp (Machine f v1 m)) by (unfold on_vm; cbn [m_vm]; by rewrite E). cbv beta.
  destruct (Z.eqb_spec kp NULL) as [E0|_]; [unfold NULL, PHYS_BASE in *; lia|].
  assert (Hm : forall a, kp <= a < kp + 4096 -> is_Some (m !! a)) by (intros a Ha; apply (fr_bytes _ _ _ Hfr); lia).
  destruct (fill_page f v1 m kp ofs n Ho H0 ltac:(lia) ltac:(lia) (proj1 Hkr) Hm) as (r & bs & f1 & m1 & E1 & E2 & C1 & Hrest).
  mstep E1. cbn [fst snd]. mstep E2.
  pose proof (fun m' => drop_page f1 v v1 m m' T i L Hs1 R1 Ek Ebase Hi Hbit U) as Hfree. fold kp in Hfree. cbv zeta in Hfree.
  case_decide as Hd.
  2: { left. destruct (Z.eqb_spec r n); [done|]. cbn [negb]. destruct (Hfree m1 C1) as (v3 & E3 & L3 & M3 & K3). mstep E3.
       exists f1, v3, m1. split_and!; try done. right. right. right. lia. }
  destruct Hrest as (-> & Ho1 & m2 & E3 & C2 & Hat). rewrite Z.eqb_refl. cbn [negb]. mstep E3.
  pose proof (install_page_ok init_page_dir init_ram_pages f1 v1 m2 pd T upage kp writable R1 Hinit Hua ltac:(lia) Hka Hkr Hram) as Hins.
  cbv zeta in Hins. rewrite Htr1 in Hins by lia. case_decide as Hmapped.
  - destruct Hins as [[Hno E4]|(v2 & T2 & E4 & R2 & Hsp & Htr2)]; mstep E4; cbn [negb].
    + left. destruct (Hfree m2 C2) as (v3 & E5 & L3 & M3 & K3). mstep E5. exists f1, v3, m2. split_and!; try done.
      right. left. by rewrite K3, <-Ek.
    + right. exists f1, v2, m2, T2, kp. pose proof (same_pools_ok v1 v2 pd T2 Hs1 R2 Hsp) as Hs2. destruct Hsp as [Eu _].
      assert (Efree : forall a, free_frame v2 a <-> free_frame v1 a) by (intros a; unfold free_frame; by rewrite Eu).
      split_and!; try done.
      * unfold PGSIZE. rewrite !u32_small by (unfold PHYS_BASE in *; lia). done.
      * split; [done|done|]. apply (frames_ok_same v v2 m m2); [done|by rewrite Eu|by rewrite Eu, (upd_cnt _ _ _ _ U)|apply C2].
      * intros a Ha. by apply Hless, Efree.
      * intros a Ha. rewrite Efree. by apply Htaken.
      * lia.
      * intros ua Hua'. by rewrite Htr2, Htr1.
  - mstep Hins. cbn [negb]. left. destruct (Hfree m2 C2) as (v3 & E5 & L3 & M3 & K3). mstep E5. exists f1, v3, m2. split_and!; try done.
    right. right. left. exists 0. split; [lia|]. by rewrite Z.mul_0_r, Z.add_0_r.
Qed.

Lemma load_pages_ok writable n : forall fuel f v m T upage ofs rb zb,
  loading v m T -> opened f ofs -> 0 <= ofs -> ofs <= Z.of_nat (length content) -> 0 <= rb -> 0 <= zb ->
  rb + zb = 4096 * Z.of_nat n -> upage mod 4096 = 0 -> 0 <= upage -> upage + 4096 * Z.of_nat n <= PHYS_BASE -> (n < fuel)%nat ->
  exists ok f' v' m' T',
    load_pages init_page_dir init_ram_pages pd fuel file upage rb zb writable (Machine f v m) = Ok (ok, Machine f' v' m') /\
    loading v' m' T' /\ (forall a, ~ free_frame v a -> m' !! a = m !! a) /\
    if ok : bool then (rb = 0 \/ ofs + rb <= Z.of_nat (length content)) /\
      loaded v v' m' T T' upage (Z.of_nat n) (image content ofs rb zb)
    else not_loaded v v' T upage (Z.of_nat n) ofs rb.
Proof using R Hinit Hsize.
  induction n as [|n IH]; intros [|fuel] f v m T upage ofs rb zb L Ho H0 Hmax Hrb Hzb Hsum Hua Hu0 Hu1 Hfu; try lia.
  { cbn [load_pages]. destruct (Z.ltb_spec 0 rb), (Z.ltb_spec 0 zb); try lia. cbn [orb].
    exists true, f, v, m, T. split; [done|]. split; [done|]. split; [done|].
    split; [left; lia|]. split; [done|]. lia. }
  destruct (load_page_step writable fuel f v m T upage ofs rb zb L Ho H0 Hmax Hrb Hzb ltac:(unfold PHYS_BASE in *; lia) Hua Hu0 ltac:(lia))
    as [(f1 & v1 & m1 & E & L1 & Hm1 & Hwhy)|(f1 & v1 & m1 & T1 & kp & E & L1 & Ho1 & Hless & Htaken & Hkp & [C1 _] & Hfit & Hat & Htr)].
  { exists false, f1, v1, m1, T. split_and!; [done|done|done|]. destruct Hwhy as [?|[?|[(k & Hk & Hne)|?]]].
    - by left. - by right; left. - right. right. left. exists k. split; [lia|done]. - right. right. right. lia. }
  rewrite E. assert (Ha1 : (upage + 4096) mod 4096 = 0) by (rewrite <-(Z.mul_1_l 4096) at 1; by rewrite Z.mod_add).
  destruct (IH fuel f1 v1 m1 T1 (upage + 4096) (ofs + Z.min rb 4096) (rb - Z.min rb 4096) (zb - (4096 - Z.min rb 4096)))
    as (ok & f' & v' & m' & T' & E' & L' & Hm' & Hres); [done|done|lia..|].
  exists ok, f', v', m', T'. split; [done|]. split; [done|]. split.
  { intros a Ha. rewrite Hm' by (intros Hf; by apply Ha, Hless). apply C1.
    destruct (Z.lt_ge_cases a kp); [by left|]. destruct (Z.lt_ge_cases a (kp + 4096)); [|by right].
    exfalso. apply Ha. by apply Htaken. }
  destruct ok.
  - destruct Hres as [Hfit' Hld]. split; [lia|].
    rewrite image_page by lia. replace (Z.of_nat (S n)) with (Z.of_nat n + 1) by lia.
    apply (loaded_cons v v1 v' m1 m' T T1 T' upage (Z.of_nat n) kp); try done; try lia.
    + pose proof (length_image content ofs (Z.min rb 4096) (4096 - Z.min rb 4096)). lia.
    + intros a Ha. by apply Htaken.
  - destruct Hres as [?|[?|[(k & Hk & Hne)|?]]]; [by left|by right; left|right; right; left|right; right; right; lia].
    exists (k + 1). split; [lia|]. revert Hne. rewrite Htr, page_of, bool_decide_eq_false_2 by lia.
    by replace (upage + 4096 + 4096 * k) with (upage + 4096 * (k + 1)) by lia.
Qed.

End Pages.

(** ** Files of the file system *)

Section FsReader.
Context (fp ip : Z) (i : inode) (content : list Z).

(** The open file [fp] of the inode [i] at [ip], whose bytes are [content]. *)
Record fs_opened (s : fs) (p : Z) : Prop := {
  op_handle : exists deny, files s !! fp = Some (File ip p deny);
  op_heap : heap_ok s;
  op_file : exists n, file_ok s ip i n;
  op_content : bytes_of (fs_device s) (ptr (data i)) 0 (dlength (data i)) = content
}.

Lemma fs_opened_handle s n q deny : heap_ok s -> file_ok s ip i n ->
  bytes_of (fs_device s) (ptr (data i)) 0 (dlength (data i)) = content ->
  fs_opened (set_files s (<[fp := File ip q deny]> (files s))) q.
Proof using.
  intros [H1 H2] [A B C D F] E. split; [|by split|exists n; by split|done].
  exists deny. cbn. by rewrite lookup_insert_eq.
Qed.

Lemma fs_opened_move s p q deny : fs_opened s p -> fs_opened (set_files s (<[fp := File ip q deny]> (files s))) q.
Proof using. intros [_ H1 (n & H2) H3]. by eapply fs_opened_handle. Qed.

Lemma fs_opened_same s s' p : same_mem s s' -> dev_eq (fs_device s) (fs_device s') -> fs_opened s p -> fs_opened s' p.
Proof using.
  intros Hs Hd [(deny & H1) H2 (n & H3) H4]. split.
  - exists deny. by rewrite (sm_files _ _ Hs).
  - by eapply heap_ok_same.
  - exists n. by eapply file_ok_same.
  - rewrite <-H4. unfold bytes_of. apply list_fmap_ext. intros k x Hx. apply lookup_seqZ in Hx as [-> Hx].
    apply (byte_at_frame _ _ _ (sectors_of (dlength (data i)))); [intros y _; by apply dev_eq_sector|].
    pose proof (sectors_of_bound (dlength (data i))). lia.
Qed.

Lemma bytes_of_slice D ps p r n : 0 <= p -> 0 <= r -> r = 0 \/ p + r <= n ->
  bytes_of D ps p r = take (Z.to_nat r) (drop (Z.to_nat p) (bytes_of D ps 0 n)).
Proof using.
  intros Hp Hr Hn. apply list_eq. intros k. unfold bytes_of. rewrite list_lookup_fmap.
  destruct (decide (k < Z.to_nat r)%nat) as [Hk|Hk].
  - rewrite lookup_seqZ_lt, lookup_take_lt, lookup_drop, list_lookup_fmap, lookup_seqZ_lt by lia. cbn. do 2 f_equal. lia.
  - rewrite lookup_seqZ_ge by lia. symmetry. apply lookup_ge_None_2. rewrite length_take. lia.
Qed.

(** An open file of the file system is such a file. *)
Definition fs_reader (Hfp : fp <> 0) (Hb : Forall is_byte content) : FileReader fp content.
Proof using ip i.
  refine {| opened := fs_opened |}; [done| |].
  - intros s p new Ho Hnew. pose proof Ho as [(deny & Hh) _ _ _]. eexists. split; [|by apply (fs_opened_move s p new deny)].
    unfold file_seek. rewrite (bind_ok _ _ _ tt s) by (apply ASSERT_true; by destruct (Z.eqb_spec fp 0)). cbv beta.
    rewrite (bind_ok _ _ _ tt s) by (apply ASSERT_true; lia). cbv beta. unfold ld_file, st_file, mbind, M_bind. by rewrite Hh, Hh.
  - intros s p n Ho Hp Hn Hmax r. pose proof Ho as [(deny & Hh) Hheap (k & Hf) Hc]. pose proof (fo_len _ _ _ _ Hf) as Hlen.
    assert (Elen : Z.of_nat (length content) = dlength (data i)).
    { rewrite <-Hc. unfold bytes_of. rewrite length_fmap, length_seqZ. lia. }
    destruct (inode_read_at_ok s ip i k n p Hf Hheap Hp Hn Hmax) as (s1 & E & Hs & Hd).
    replace (read_cnt_of (dlength (data i)) n p) with r in E by (unfold r, read_cnt_of; lia).
    pose proof (fs_opened_same s s1 p Hs Hd Ho) as Ho1. pose proof Ho1 as [(deny1 & Hh1) _ _ _].
    eexists. split; [|by apply (fs_opened_move s1 p (p + r) deny)].
    unfold file_read. rewrite (bind_ok _ _ _ (File ip p deny) s) by (unfold ld_file; by rewrite Hh). cbn [finode pos deny_write].
    mstep E. unfold st_file at 1, mbind, M_bind. rewrite Hh1. unfold mret, M_ret. cbn [fst].
    rewrite s32_small by lia. rewrite (bytes_of_slice _ _ p r (dlength (data i))), Hc by lia. done.
Defined.

End FsReader.

(** ** Segments in memory *)

(** C8: Loading a program segment that [validate_segment] accepts.  Nothing
    is asserted, and the loop ends after one turn for each page.  When it
    returns true, every byte of the segment is mapped, the first [p_filesz]
    ones hold the bytes of the file from [p_offset] on and the others zero, and
    every page outside the pages of the segment is mapped as before.  It
    returns false only when a pool has no free page, a page of the segment is
    already mapped, or the file is too short.  In both cases the directory and
    the pools stay consistent and only frames that were free are written. *)
Theorem load_segment_correct init_page_dir init_ram_pages pd file content (R : FileReader file content) fuel f v m T h p :
  pd <> init_page_dir -> Z.of_nat (length content) < 1073741824 -> loading init_ram_pages pd v m T -> opened f p ->
  phdr_words h -> validate_segment h (Z.of_nat (length content)) = true ->
  let '(file_page, mem_page, rb, zb, writable) := segment_args h in
  rb + zb < 4096 * Z.of_nat fuel ->
  exists ok f' v' m' T',
    load_segment init_page_dir init_ram_pages pd fuel file (s32 file_page) mem_page rb zb writable (Machine f v m)
    = Ok (ok, Machine f' v' m') /\
    loading init_ram_pages pd v' m' T' /\ (forall a, ~ free_frame v a -> m' !! a = m !! a) /\
    if ok : bool then
      (forall k, 0 <= k < p_memsz h ->
         let a := translate v' T' (p_vaddr h + k) in
         a <> NULL /\ m' !! a = if k <? p_filesz h then content !! Z.to_nat (p_offset h + k) else Some 0) /\
      (forall ua, 0 <= ua < PHYS_BASE -> ~ mem_page <= ua < mem_page + (rb + zb) -> translate v' T' ua = translate v T ua)
    else not_loaded content v v' T mem_page ((rb + zb) / 4096) file_page rb.
Proof.
  intros Hinit Hsize L Ho Hw Hv.
  destruct (segment_args_ok h (Z.of_nat (length content)) ltac:(lia) Hw Hv)
    as (fp & mp & rb & zb & w & -> & Hfp & Hfa & Hma & Hmp & Hoff & Hrb & Hzb & Hsum & Hend & Erb). intros Hfu.
  apply validate_segment_ok in Hv as (_ & _ & V3 & V4 & _ & _); [|lia|done]. destruct Hw as (_ & _ & Hw3 & _). unfold is_word in Hw3.
  pose proof (Z.div_mod (rb + zb) 4096 ltac:(lia)) as Hn. rewrite Hsum in Hn.
  destruct (rd_seek f p fp Ho ltac:(lia)) as (f1 & Es & Ho1). unfold PHYS_BASE in Hend.
  destruct (load_pages_ok init_page_dir init_ram_pages pd file content Hinit Hsize w (Z.to_nat ((rb + zb) / 4096)) fuel f1 v m T mp fp rb zb)
    as (ok & f' & v' & m' & T' & E & L' & Hm & Hres); try done; try lia; [unfold PHYS_BASE; lia|].
  exists ok, f', v', m', T'. split; [|split; [done|split; [done|]]].
  - unfold load_segment. rewrite s32_small, (u32_small (rb + zb)) by lia.
    rewrite (bind_ok _ _ _ tt (Machine f v m)) by (apply ASSERT_true; unfold PGSIZE; by rewrite Hsum). cbv beta.
    rewrite (bind_ok _ _ _ tt (Machine f v m)) by (apply ASSERT_true; by rewrite pg_ofs_mod, Hma). cbv beta.
    rewrite (bind_ok _ _ _ tt (Machine f v m)) by
      (apply ASSERT_true; unfold PGSIZE; by rewrite Z.rem_mod_nonneg, Hfa by lia). cbv beta.
    rewrite (bind_ok _ _ _ tt (Machine f1 v m)) by (unfold on_fs; cbn [m_fs]; by rewrite Es). exact E.
  - rewrite Z2Nat.id in Hres by lia. destruct ok; [|done]. destruct Hres as [Hfit [Hout Hin]]. split.
    + intros k Hk a. destruct (Hin (p_vaddr h - mp + k)) as [Hne Hat]; [lia|].
      replace (mp + (p_vaddr h - mp + k)) with (p_vaddr h + k) in Hne, Hat by lia. split; [done|]. unfold a. rewrite Hat.
      rewrite Erb in Hfit |- *. replace (p_offset h) with (fp + (p_vaddr h - mp)) by lia. by apply image_lookup; try lia.
    + intros ua Hua Hno. apply Hout; [done|]. lia.
Qed.

(** A program of 600 bytes in a file that is open, and two frames. *)
Definition demo_fs : fs := set_files formatted (<[77 := File 15 0 false]> (files formatted)).

Definition seg_vm : vm :=
  VM (kernel_pool demo_vm) (Pool (Bitmap 2 [0]) 3222429696) (fun _ => 0) 1073152.

Definition seg_data : bytes := write ∅ 3222429696 (repeat 7 (Z.to_nat 8192)).

Definition seg_phdr : Elf32_Phdr :=
  {| p_type := 1; p_offset := 16; p_vaddr := 134512656; p_paddr := 0; p_filesz := 500; p_memsz := 5000; p_flags := 7; p_align := 4096 |}.

Lemma seg_loading : loading 16384 3222298624 seg_vm seg_data (fun _ => NULL).
Proof.
  destruct demo_vm_ok as [Hk _ _]. split.
  - split; [done| |cbn; lia]. split; cbn; [|done|unfold PHYS_BASE; lia|lia].
    split; cbn; [lia|vm_compute; discriminate|]. by repeat constructor.
  - destruct demo_pd as [H1 H2 H3 H4 H5]. by split.
  - split; cbn; [unfold PHYS_BASE; lia|]. intros a Ha. unfold seg_data. rewrite write_in by (rewrite repeat_length; lia).
    rewrite lookup_repeat by lia. by eexists.
Qed.

Definition demo_content : list Z := repeat 0 600.

Lemma demo_opened : fs_opened 77 15 (inode_at formatted 15) demo_content demo_fs 0.
Proof.
  pose proof formatted_file2 as Hi. eapply fs_opened_handle.
  - exact (fm_heap _ _ (gr_fm _ _ _ _ _ (fi_growing _ _ _ _ Hi))).
  - exact (file_inv_ok _ _ _ _ Hi (file_inv_max _ _ _ _ Hi)).
  - vm_compute. reflexivity.
Qed.

Lemma demo_content_byte : Forall is_byte demo_content.
Proof. unfold demo_content. apply Forall_forall. intros x Hx%list_elem_of_In%repeat_spec. subst x. unfold is_byte. lia. Qed.

Lemma load_segment_correct_witness :
  exists f' v' m' T',
    load_segment 5 16384 3222298624 3 77 0 134512640 516 7676 true (Machine demo_fs seg_vm seg_data)
    = Ok (true, Machine f' v' m') /\
    m' !! translate v' T' (134512656 + 499) = Some 0 /\ m' !! translate v' T' (134512656 + 4999) = Some 0.
Proof.
  destruct (load_segment_correct 5 16384 3222298624 77 demo_content
    (fs_reader 77 15 (inode_at formatted 15) demo_content ltac:(lia) demo_content_byte)
    3 demo_fs seg_vm seg_data (fun _ => NULL) seg_phdr 0) as (ok & f' & v' & m' & T' & E & _ & _ & Hres).
  - lia.
  - vm_compute. reflexivity.
  - exact seg_loading.
  - exact demo_opened.
  - unfold phdr_words, is_word. cbn. lia.
  - vm_compute. reflexivity.
  - vm_compute. reflexivity.
  - exists f', v', m', T'.
    assert (Hrun : match load_segment 5 16384 3222298624 3 77 0 134512640 516 7676 true (Machine demo_fs seg_vm seg_data)
                   with Ok (b, _) => b | Err _ => false end = true) by (vm_compute; reflexivity).
    assert (E' : load_segment 5 16384 3222298624 3 77 0 134512640 516 7676 true (Machine demo_fs seg_vm seg_data)
                 = Ok (ok, Machine f' v' m')) by exact E.
    rewrite E' in Hrun. rewrite E'. rewrite Hrun in Hres |- *. destruct Hres as [Hres _]. split; [reflexivity|].
    split; [apply (Hres 499)|apply (Hres 4999)]; cbn; lia.
Defined.
