(* ===== verification/Syscall.v ===== *)
(** * System calls: [userprog/syscall.c]

    The state of a call is the machine of [Loader], the open files of the
    process and the console.  A call returns to the user with or without a
    value, ends the process or the system, or goes on in [process_execute] or
    [process_wait].  The functions of [filesys.c] and [directory.c], which the
    repository does not have, are parameters, and so is the keyboard.  A field
    that [malloc] leaves uninitialised has the value [junk]. *)

From S2P Require Import Prelude ListModel Bytes CString Page FsModel Loader.

(** ** State and outcomes *)

Record file_process := FileProcess { fp_file : Z; fp_dir : Z; fp_fd : Z; fp_is_dir : bool }.

Record task := Task {
  t_machine : machine;
  file_list : list file_process;
  next_fd : Z;
  typed : nat;
  printed : list Z
}.

Inductive outcome :=
  | Returned (eax : Z)
  | NoValue
  | Exited (status : Z)
  | Halted
  | Executing (cmd_line : Z)
  | Waiting (pid : Z).

(** A computation that may end the call: [inl] is the end. *)
Abbreviation T := (M task).
Definition X (A : Type) : Type := T (outcome + A).

Definition ret {A} (a : A) : X A := mret (inr a).
Definition stop {A} (o : outcome) : X A := mret (inl o).
Definition bindX {A B} (c : X A) (k : A -> X B) : X B :=
  fun s => match c s with
           | Ok (inl o, t) => Ok (inl o, t)
           | Ok (inr a, t) => k a t
           | Err e => Err e
           end.
Definition liftX {A} (c : T A) : X A := fun s =>
  match c s with Ok (a, t) => Ok (inr a, t) | Err e => Err e end.

Declare Scope call_scope.
Delimit Scope call_scope with call.
Notation "x <~ c ; k" := (bindX c (fun x => k)) (at level 20, c at level 100, k at level 200, right associativity) : call_scope.
Notation "c ;~ k" := (bindX c (fun _ => k)) (at level 100, k at level 200, right associativity) : call_scope.
Open Scope call_scope.

Definition on_machine {A} (c : P A) : T A := fun s =>
  match c (t_machine s) with
  | Ok (a, t) => Ok (a, Task t (file_list s) (next_fd s) (typed s) (printed s))
  | Err e => Err e
  end.

Definition set_file_list (l : list file_process) (s : task) : task :=
  Task (t_machine s) l (next_fd s) (typed s) (printed s).

Definition ERROR : Z := -1.
Definition STDIN_FILENO : Z := 0.
Definition STDOUT_FILENO : Z := 1.

Section Syscall.
Context (filesys_create : Z -> Z -> bool -> P bool) (filesys_remove filesys_chdir filesys_mkdir : Z -> P bool).
Context (filesys_open : Z -> P Z) (dir_close : Z -> P unit) (dir_readdir : Z -> Z -> P bool) (dir_get_inode : Z -> P Z).
Context (key : nat -> Z) (junk : Z) (depth : nat) (pagedir : Z).

(** ** Pointers from the user *)

Definition is_valid_ptr (vaddr : Z) : X unit :=
  if negb (is_user_vaddr vaddr) then stop (Exited ERROR) else ret tt.

Definition get_kernel_ptr (vaddr : Z) : X Z :=
  is_valid_ptr vaddr ;~
  ptr <~ liftX (on_machine (on_vm (pagedir_get_page pagedir vaddr)));
  if ptr =? NULL then stop (Exited ERROR) else ret ptr.

(** A load of the kernel from an address of either half of memory. *)
Definition load_va (a : Z) : P Z :=
  if is_user_vaddr a then
    k ← on_vm (pagedir_get_page pagedir a);
    if k =? NULL then fail EFault else on_data (load k)
  else on_data (load a).

Definition load_int (ld : Z -> P Z) (a : Z) : P Z :=
  b0 ← ld a; b1 ← ld (a + 1); b2 ← ld (a + 2); b3 ← ld (a + 3);
  mret (s32 (b0 + 256 * b1 + 65536 * b2 + 16777216 * b3)).

Fixpoint get_arg_loop (n : nat) (esp counter : Z) : X (list Z) :=
  match n with
  | O => ret []
  | S n =>
      let ptr := u32 (esp + 4 * (counter + 1)) in
      is_valid_ptr ptr ;~
      a <~ liftX (on_machine (load_int load_va ptr));
      rest <~ get_arg_loop n esp (counter + 1);
      ret (a :: rest)
  end.

Definition get_arg (esp : Z) (arg_num : nat) : X (list Z) := get_arg_loop arg_num esp 0.

Fixpoint is_valid_string (fuel : nat) (str : Z) : X unit :=
  match fuel with
  | O => fail EFuel
  | S fuel =>
      k <~ get_kernel_ptr str;
      c <~ liftX (on_machine (on_data (load k)));
      if negb (c =? 0) then is_valid_string fuel (u32 (str + 1)) else ret tt
  end.

Fixpoint is_valid_buffer_loop (n : nat) (temp_buffer : Z) : X unit :=
  match n with
  | O => ret tt
  | S n => is_valid_ptr temp_buffer ;~ is_valid_buffer_loop n (u32 (temp_buffer + 1))
  end.

Definition is_valid_buffer (buffer size : Z) : X unit := is_valid_buffer_loop (Z.to_nat size) buffer.

(** ** Open files *)

Definition find_file (cur_fd : Z) (l : list file_process) : option file_process :=
  List.find (fun fp => fp_fd fp =? cur_fd) l.

(** [None] is the null pointer. *)
Definition get_file (cur_fd : Z) : T (option file_process) := gets (fun s => find_file cur_fd (file_list s)).

Definition add_entry (entry : Z -> file_process) : T Z :=
  fp ← on_machine (on_fs malloc);
  if fp =? 0 then mret ERROR else
  s ← get;
  let fd := next_fd s in
  put (Task (t_machine s) (file_list s ++ [entry fd]) (s32 (fd + 1)) (typed s) (printed s));;
  mret fd.

Definition add_file (f : Z) : T Z := add_entry (fun fd => FileProcess f junk fd false).
Definition add_dir (dir : Z) : T Z := add_entry (fun fd => FileProcess junk dir fd true).

(** [list_remove] of the element that [get_file] found: the first with FD. *)
Fixpoint remove_fd (fd : Z) (l : list file_process) : list file_process :=
  match l with
  | [] => []
  | fp :: l => if fp_fd fp =? fd then l else fp :: remove_fd fd l
  end.

Definition sys_close (fd : Z) : T unit :=
  r ← get_file fd;
  match r with
  | None => mret tt
  | Some fp =>
      (if negb (fp_is_dir fp) then on_machine (on_fs (file_close depth (fp_file fp)))
       else on_machine (dir_close (fp_dir fp)));;
      s ← get;
      put (set_file_list (remove_fd fd (file_list s)) s)
  end.

(** [e] moves on before the element is freed. *)
Fixpoint close_all (fps : list file_process) : T unit :=
  match fps with
  | [] => mret tt
  | fp :: fps => sys_close (fp_fd fp);; close_all fps
  end.

Definition close_all_file : T unit := l ← gets file_list; close_all l.

(** ** The calls *)

Definition sys_open (file : Z) : T Z :=
  f ← on_machine (filesys_open file);
  if f =? 0 then mret ERROR else
  sub_dir ← on_machine (on_fs (inode ← file_get_inode f; d ← ld_data inode; mret (is_sub_dir d)));
  if sub_dir : bool then add_dir f else add_file f.

Definition filesize (fd : Z) : T Z :=
  r ← get_file fd;
  match r with
  | None => mret ERROR
  | Some fp => on_machine (on_fs (file_length (fp_file fp)))
  end.

Fixpoint read_keys (n : nat) (buffer : Z) : T unit :=
  match n with
  | O => mret tt
  | S n =>
      s ← get;
      put (Task (t_machine s) (file_list s) (next_fd s) (S (typed s)) (printed s));;
      on_machine (on_data (store buffer (key (typed s))));;
      read_keys n (buffer + 1)
  end.

(** BUFFER is an address of the kernel. *)
Definition sys_read (fd buffer size : Z) : T Z :=
  if fd =? STDIN_FILENO then read_keys (Z.to_nat size) buffer;; mret size else
  r ← get_file fd;
  match r with
  | None => mret ERROR
  | Some fp =>
      d ← on_machine (on_fs (file_read (fp_file fp) (s32 size)));
      on_machine (on_data (copy_in buffer d.2));;
      mret d.1
  end.

Fixpoint load_block (n : nat) (p : Z) : B (list Z) :=
  match n with
  | O => mret []
  | S n => b ← load p; bs ← load_block n (p + 1); mret (b :: bs)
  end.

(** The bytes are fetched before they are written. *)
Definition sys_write (fd buffer size : Z) : T Z :=
  if fd =? STDOUT_FILENO then
    bs ← on_machine (on_data (load_block (Z.to_nat size) buffer));
    s ← get;
    put (Task (t_machine s) (file_list s) (next_fd s) (typed s) (printed s ++ bs));;
    mret size
  else
  r ← get_file fd;
  match r with
  | None => mret ERROR
  | Some fp =>
      if fp_is_dir fp then mret ERROR else
      bs ← on_machine (on_data (load_block (Z.to_nat (s32 size)) buffer));
      on_machine (on_fs (file_write depth (fp_file fp) bs (s32 size)))
  end.

(** [fp->is_dir] is read before FP is tested. *)
Definition sys_seek (fd position : Z) : T unit :=
  r ← get_file fd;
  match r with
  | None => fail EFault
  | Some fp =>
      if fp_is_dir fp then mret tt else on_machine (on_fs (file_seek (fp_file fp) (s32 position)))
  end.

(** There is no statement that returns a value. *)
Definition sys_tell (fd : Z) : T Z :=
  r ← get_file fd;
  match r with
  | None => fail EFault
  | Some fp =>
      if fp_is_dir fp then mret junk else
      on_machine (on_fs (file_tell (fp_file fp)));;
      mret junk
  end.

Definition readdir (fd dir_path : Z) : T bool :=
  r ← get_file fd;
  match r with
  | None => mret false
  | Some fp => if negb (fp_is_dir fp) then mret false else on_machine (dir_readdir (fp_dir fp) dir_path)
  end.

Definition isdir (fd : Z) : T bool :=
  r ← get_file fd; mret (match r with None => false | Some fp => fp_is_dir fp end).

Definition inumber (fd : Z) : T Z :=
  r ← get_file fd;
  match r with
  | None => mret ERROR
  | Some fp =>
      inode ← (if fp_is_dir fp then on_machine (dir_get_inode (fp_dir fp))
               else on_machine (on_fs (file_get_inode (fp_file fp))));
      on_machine (on_fs (inode_get_inumber inode))
  end.

(** ** The handler *)

(** The values of the calls that go to filesys.c. *)
Definition of_bool (b : bool) : Z := if b then 1 else 0.

Definition sys_create (file initial_size : Z) : T bool := on_machine (filesys_create file (u32 initial_size) false).
Definition sys_remove (file : Z) : T bool := on_machine (filesys_remove file).
Definition sys_chdir (dir_path : Z) : T bool := on_machine (filesys_chdir dir_path).
Definition sys_mkdir (dir_path : Z) : T bool := on_machine (filesys_mkdir dir_path).

(** A string argument: checked, and its first byte resolved. *)
Definition string_arg (fuel : nat) (a : Z) : X Z :=
  is_valid_string fuel (u32 a) ;~ get_kernel_ptr (u32 a).

Definition arg (i : nat) (argv : list Z) : Z := nth i argv 0.

Definition eax (c : T Z) : X outcome := v <~ liftX c; ret (Returned (u32 v)).
Definition eax_bool (c : T bool) : X outcome := v <~ liftX c; ret (Returned (of_bool v)).
Definition no_eax (c : T unit) : X outcome := liftX c ;~ ret NoValue.

(** The numbers of [lib/syscall-nr.h] are the positions in its enumeration. *)
Definition dispatch (fuel : nat) (esp number : Z) : X outcome :=
  match number with
  | 0 => stop Halted
  | 1 => argv <~ get_arg esp 1; stop (Exited (arg 0 argv))
  | 2 => argv <~ get_arg esp 1; k <~ string_arg fuel (arg 0 argv); stop (Executing k)
  | 3 => argv <~ get_arg esp 1; stop (Waiting (arg 0 argv))
  | 4 => argv <~ get_arg esp 2; k <~ string_arg fuel (arg 0 argv); eax_bool (sys_create k (arg 1 argv))
  | 5 => argv <~ get_arg esp 1; k <~ string_arg fuel (arg 0 argv); eax_bool (sys_remove k)
  | 6 => argv <~ get_arg esp 1; k <~ string_arg fuel (arg 0 argv); eax (sys_open k)
  | 7 => argv <~ get_arg esp 1; eax (filesize (arg 0 argv))
  | 8 => argv <~ get_arg esp 3; is_valid_buffer (u32 (arg 1 argv)) (u32 (arg 2 argv)) ;~
         k <~ get_kernel_ptr (u32 (arg 1 argv)); eax (sys_read (arg 0 argv) k (u32 (arg 2 argv)))
  | 9 => argv <~ get_arg esp 3; is_valid_buffer (u32 (arg 1 argv)) (u32 (arg 2 argv)) ;~
         k <~ get_kernel_ptr (u32 (arg 1 argv)); eax (sys_write (arg 0 argv) k (u32 (arg 2 argv)))
  | 10 => argv <~ get_arg esp 2; no_eax (sys_seek (arg 0 argv) (u32 (arg 1 argv)))
  | 11 => argv <~ get_arg esp 1; eax (sys_tell (arg 0 argv))
  | 12 => argv <~ get_arg esp 1; no_eax (sys_close (arg 0 argv))
  | 15 => argv <~ get_arg esp 1; k <~ string_arg fuel (arg 0 argv); eax_bool (sys_chdir k)
  | 16 => argv <~ get_arg esp 1; k <~ string_arg fuel (arg 0 argv); eax_bool (sys_mkdir k)
  | 17 => argv <~ get_arg esp 2; k <~ string_arg fuel (arg 1 argv); eax_bool (readdir (arg 0 argv) k)
  | 18 => argv <~ get_arg esp 1; eax_bool (isdir (arg 0 argv))
  | 19 => argv <~ get_arg esp 1; eax (inumber (arg 0 argv))
  | _ => stop (Exited ERROR)
  end.

(** ESP is the stack pointer of the user in the interrupt frame. *)
Definition syscall_handler (fuel : nat) (esp : Z) : T outcome :=
  r ← (k <~ get_kernel_ptr esp;
       number <~ liftX (on_machine (load_int (fun a => on_data (load a)) k));
       dispatch fuel esp number : X outcome);
  mret (match r with inl o => o | inr o => o end).

End Syscall.
