(* ===== verification/SyscallFiles.v ===== *)
(** * The open files of a process

    The list of open files of a process as a map from descriptors, and the
    handles and inodes that keep [file_close] going. *)

From S2P Require Import Prelude ListModel Bitmap Bytes Block FsModel FsRep FsRead FsAlloc FsThms FsProps CString Page PageProps Loader Syscall.

(** ** Handles *)

(** A handle with its inode; the openers of the inode are counted. *)
Definition openers (ip : Z) (refs : list (Z * Z)) : Z := Z.of_nat (length (filter (fun r => r.2 = ip) refs)).

Record handle_ok (f : fs) (refs : list (Z * Z)) (h ip : Z) : Prop := {
  ha_null : h <> 0;
  ha_file : exists p, files f !! h = Some (File ip p false);
  ha_ip : ip <> 0;
  ha_inode : exists i, inodes f !! ip = Some i /\ removed i = false /\ disk_wf (data i) /\
    0 <= sector i < blk_size (fs_device f) /\ openers ip refs <= open_cnt i
}.

Record handles_ok (f : fs) (refs : list (Z * Z)) : Prop := {
  hs_blk : blk_wf (fs_device f);
  hs_nodup : NoDup refs.*1;
  hs_each h ip : (h, ip) ∈ refs -> handle_ok f refs h ip
}.

Lemma openers_cons h ip q refs : openers q ((h, ip) :: refs) = (if decide (ip = q) then 1 else 0) + openers q refs.
Proof. unfold openers. rewrite filter_cons. cbn [snd]. destruct (decide (ip = q)); cbn [length]; lia. Qed.

Lemma openers_in h ip refs : (h, ip) ∈ refs -> 1 <= openers ip refs.
Proof.
  intros Hin. unfold openers. assert (H : (h, ip) ∈ filter (fun r : Z * Z => r.2 = ip) refs) by (by apply list_elem_of_filter).
  destruct (filter _ refs); [by apply not_elem_of_nil in H|]. cbn [length]. lia.
Qed.

Lemma openers_nonneg ip refs : 0 <= openers ip refs.
Proof. unfold openers. lia. Qed.

Lemma openers_perm ip refs refs' : refs ≡ₚ refs' -> openers ip refs = openers ip refs'.
Proof. intros H. unfold openers. by rewrite H. Qed.

Lemma handles_perm f refs refs' : refs ≡ₚ refs' -> handles_ok f refs -> handles_ok f refs'.
Proof.
  intros Hp [H1 H2 H3]. split; [done|by rewrite <-Hp|]. intros h ip Hin. rewrite <-Hp in Hin.
  destruct (H3 h ip Hin) as [A B C (i & D)]. split; try done. exists i. by rewrite <-(openers_perm ip _ _ Hp).
Qed.

Lemma handles_app f refs refs' : handles_ok f (refs ++ refs') -> handles_ok f refs.
Proof.
  intros [H1 H2 H3]. rewrite fmap_app in H2. apply NoDup_app in H2 as [H2 _]. split; [done|done|]. intros h ip Hin.
  destruct (H3 h ip ltac:(apply elem_of_app; by left)) as [A B C (i & D & E & F & G & K)]. split; try done. exists i. split_and!; try done; try lia.
  unfold openers in *. rewrite filter_app, length_app in K. lia.
Qed.

(** The file of handle [h] was closed: the handle is gone, its inode has one
    opener less, and the last opener writes the inode to its sector and frees
    it; no other handle and no other inode has changed. *)
Definition file_closed (f f' : fs) (h : Z) : Prop :=
  exists ip p i, files f !! h = Some (File ip p false) /\ inodes f !! ip = Some i /\
    files f' = delete h (files f) /\ free_map f' = free_map f /\
    if decide (open_cnt i = 1) then
      inodes f' = delete ip (inodes f) /\ open_inodes f' = filter (fun q => q <> ip) (open_inodes f) /\
      forall j, 0 <= j -> sector_of (fs_device f') j =
        if j =? sector i then encode_inode (data i) else sector_of (fs_device f) j
    else
      inodes f' = <[ip := Inode (open_cnt i - 1) (deny_write_cnt i) (removed i) (sector i) (data i) (locked i)]> (inodes f) /\
      open_inodes f' = open_inodes f /\ fs_device f' = fs_device f.

(** Closing the file of the first handle. *)
Lemma file_close_ok d f h ip refs : handles_ok f ((h, ip) :: refs) ->
  exists f', file_close d h f = Ok (tt, f') /\ handles_ok f' refs /\ file_closed f f' h.
Proof.
  intros [H1 H2 H3]. destruct (H3 h ip ltac:(by left)) as [Hn (p & Hf) Hip (i & Hi & Hr & Hd & Hx & Ho)].
  rewrite openers_cons, decide_True in Ho by done. pose proof (openers_nonneg ip refs) as Hpos.
  cbn in H2. apply NoDup_cons in H2 as [Hnew H2].
  assert (Hrest : forall h' ip', (h', ip') ∈ refs -> h' <> h).
  { intros h' ip' Hin ->. apply Hnew, list_elem_of_fmap. by exists (h, ip'). }
  unfold file_close. destruct (Z.eqb_spec h 0); [done|].
  assert (Ea : file_allow_write h f = Ok (tt, f)).
  { unfold file_allow_write, ld_file. destruct (Z.eqb_spec h 0); [done|]. mstep_by reflexivity. mstep_by (by rewrite Hf). done. }
  mstep Ea. mstep_by (unfold ld_file; by rewrite Hf). cbn [finode].
  destruct (decide (open_cnt i = 1)) as [Elast|Hmore].
  - destruct (inode_close_last_ok d f ip i Hi Hip Elast Hr H1 Hx Hd) as (b & Hb1 & Hb2 & Hb3 & E).
    mstep E. mstep_by reflexivity. eexists. split; [reflexivity|]. split.
    2: { exists ip, p, i. rewrite decide_True by done. split_and!; try done. }
    split; [done|done|].
    intros h' ip' Hin. destruct (H3 h' ip' ltac:(by right)) as [Hn' (p' & Hf') Hip' (i' & Hi' & Hr' & Hd' & Hx' & Ho')].
    rewrite openers_cons in Ho'. assert (Hne : ip' <> ip).
    { intros ->. pose proof (openers_in _ _ _ Hin). rewrite decide_True in Ho' by done. rewrite Hi in Hi'. injection Hi' as <-. lia. }
    rewrite decide_False in Ho' by done.
    split; [done|exists p'; cbn; by rewrite lookup_delete_ne by (intros <-; by apply (Hrest h ip'))|done|].
    exists i'. cbn. rewrite lookup_delete_ne, Hb2 by done. done.
  - assert (E : inode_close d ip f = Ok (tt, set_inodes f (<[ip := Inode (open_cnt i - 1) (deny_write_cnt i) (removed i) (sector i) (data i) (locked i)]> (inodes f)))).
    { unfold inode_close. destruct (Z.eqb_spec ip 0); [done|]. mstep (ld_inode_ok _ _ _ Hi). mstep_by (unfold st_inode; by rewrite Hi).
      destruct (Z.eqb_spec (open_cnt i - 1) 0); [lia|done]. }
    mstep E. mstep_by reflexivity. eexists. split; [reflexivity|]. split.
    2: { exists ip, p, i. rewrite decide_False by done. split_and!; try done. }
    split; [done|done|].
    intros h' ip' Hin. destruct (H3 h' ip' ltac:(by right)) as [Hn' (p' & Hf') Hip' (i' & Hi' & Hr' & Hd' & Hx' & Ho')].
    rewrite openers_cons in Ho'.
    split; [done|exists p'; cbn; by rewrite lookup_delete_ne by (intros <-; by apply (Hrest h ip'))|done|]. cbn.
    destruct (decide (ip = ip')) as [<-|Hne].
    + rewrite Hi in Hi'. injection Hi' as <-. eexists. rewrite lookup_insert_eq. split; [done|]. cbn. split_and!; try done; lia.
    + exists i'. rewrite lookup_insert_ne by done. split_and!; try done; lia.
Qed.

(** ** The table *)

Lemma on_machine_ok {A} (c : P A) s a t :
  c (t_machine s) = Ok (a, t) -> on_machine c s = Ok (a, Task t (file_list s) (next_fd s) (typed s) (printed s)).
Proof. intros H. unfold on_machine. by rewrite H. Qed.

Lemma on_fs_ok {A} (c : M fs A) s a t : c (m_fs s) = Ok (a, t) -> on_fs c s = Ok (a, Machine t (m_vm s) (m_data s)).
Proof. intros H. unfold on_fs. by rewrite H. Qed.

(** The handles of the entries that are files. *)
Definition file_handles (l : list file_process) : list Z := fp_file <$> filter (fun fp => fp_is_dir fp = false) l.

(** Descriptors count from [INIT_FD], which is 2. *)
Record table_ok (s : task) (refs : list (Z * Z)) : Prop := {
  to_nodup : NoDup (fp_fd <$> file_list s);
  to_below : Forall (fun fp => 2 <= fp_fd fp < next_fd s) (file_list s);
  to_next : 2 <= next_fd s;
  to_refs : refs.*1 = file_handles (file_list s);
  to_handles : handles_ok (m_fs (t_machine s)) refs
}.

Lemma find_file_in fd l fp : find_file fd l = Some fp -> fp ∈ l /\ fp_fd fp = fd.
Proof. intros [H1 H2]%List.find_some. split; [by apply list_elem_of_In|lia]. Qed.

Lemma find_file_app fd l l' : find_file fd (l ++ l') = match find_file fd l with Some fp => Some fp | None => find_file fd l' end.
Proof. unfold find_file. induction l as [|x l IH]; [done|]. cbn [app List.find]. by destruct (fp_fd x =? fd). Qed.

Lemma find_file_none fd l : fd ∉ fp_fd <$> l -> find_file fd l = None.
Proof.
  intros Hn. destruct (find_file fd l) as [fp|] eqn:E; [|done]. apply find_file_in in E as [Hin <-].
  exfalso. apply Hn. apply list_elem_of_fmap. by exists fp.
Qed.

(** The entry of a descriptor, with what is before and behind it. *)
Lemma find_file_split fd l fp : find_file fd l = Some fp ->
  exists l1 l2, l = l1 ++ fp :: l2 /\ remove_fd fd l = l1 ++ l2 /\ fd ∉ fp_fd <$> l1.
Proof.
  unfold find_file. induction l as [|x l IH]; [done|]. cbn [List.find remove_fd].
  destruct (Z.eqb_spec (fp_fd x) fd) as [E|Hne]; intros H.
  - injection H as ->. exists [], l. split_and!; [done|done|apply not_elem_of_nil].
  - destruct (IH H) as (l1 & l2 & -> & -> & Hn). exists (x :: l1), l2. split_and!; [done|done|].
    cbn. rewrite not_elem_of_cons. split; [congruence|done].
Qed.

Lemma remove_fd_none fd l : find_file fd l = None -> remove_fd fd l = l.
Proof.
  unfold find_file. induction l as [|x l IH]; [done|]. cbn [List.find remove_fd].
  destruct (fp_fd x =? fd); [done|]. intros H. by rewrite (IH H).
Qed.

Lemma find_file_remove fd fd' l : NoDup (fp_fd <$> l) ->
  find_file fd' (remove_fd fd l) = if fd' =? fd then None else find_file fd' l.
Proof.
  induction l as [|x l IH]; cbn [remove_fd fmap list_fmap]; [by destruct (fd' =? fd)|]. intros [Hn Hd]%NoDup_cons.
  unfold find_file in *. cbn [List.find]. destruct (Z.eqb_spec (fp_fd x) fd) as [E|Hne].
  - destruct (Z.eqb_spec fd' fd) as [->|Hne'].
    + apply find_file_none. by rewrite <-E.
    + destruct (Z.eqb_spec (fp_fd x) fd'); [congruence|done].
  - cbn [List.find]. destruct (Z.eqb_spec (fp_fd x) fd') as [E'|]; [|by apply IH].
    by destruct (Z.eqb_spec fd' fd); [congruence|].
Qed.

Section Table.
Context (dir_close : Z -> P unit) (junk : Z) (depth : nat).

(** [dir_close] returns and leaves the files of the process open. *)
Context (dir_close_keeps : forall dir t refs, handles_ok (m_fs t) refs ->
  exists t', dir_close dir t = Ok (tt, t') /\ handles_ok (m_fs t') refs).

Lemma add_entry_ok s refs refs' entry :
  table_ok s refs -> next_fd s < 2147483647 -> (forall fd, fp_fd (entry fd) = fd) ->
  refs'.*1 = file_handles (file_list s ++ [entry (next_fd s)]) -> handles_ok (m_fs (t_machine s)) refs' ->
  (exists s', add_entry entry s = Ok (ERROR, s') /\ file_list s' = file_list s /\ table_ok s' refs) \/
  (exists s', add_entry entry s = Ok (next_fd s, s') /\ next_fd s' = next_fd s + 1 /\
     file_list s' = file_list s ++ [entry (next_fd s)] /\ table_ok s' refs').
Proof using.
  intros [T1 T2 T3 T4 T5] Hmax He Hr Hh. unfold add_entry.
  set (f := m_fs (t_machine s)) in *.
  assert (Hheap : forall p t refs0, handles_ok f refs0 -> handles_ok (set_heap f p t) refs0) by (intros p t refs0 [A B C]; split; try done;
    intros h ip Hin; destruct (C h ip Hin); by split).
  assert (Hm : exists a p t, malloc f = Ok (a, set_heap f p t)) by (unfold malloc; destruct (oracle f (tick f)); by eexists _, _, _).
  destruct Hm as (a & p & t & Em).
  pose proof (on_machine_ok (on_fs malloc) s a _ (on_fs_ok malloc (t_machine s) a _ Em)) as E. mstep E. clear E Em.
  destruct (Z.eqb_spec a 0) as [_|_]; [left|right]; (eexists; split; [reflexivity|]); cbn.
  { split; [done|]. split; try done. by apply Hheap. }
  rewrite s32_small by lia. split; [done|]. split; [done|]. split; cbn; [| |lia|done|by apply Hheap].
  - rewrite fmap_app. cbn. rewrite He. apply NoDup_app. split; [done|]. split; [|apply NoDup_singleton].
    intros x Hx ->%list_elem_of_singleton. apply list_elem_of_fmap in Hx as (fp & E & Hin).
    rewrite Forall_forall in T2. specialize (T2 fp Hin). lia.
  - apply Forall_app. split; [eapply Forall_impl; [exact T2|]; cbn; lia|]. constructor; [rewrite He; lia|constructor].
Qed.

(** Entry [fp] was closed: the file it holds, or the directory by
    [dir_close]. *)
Definition entry_closed (fp : file_process) (t t' : machine) : Prop :=
  if fp_is_dir fp then dir_close (fp_dir fp) t = Ok (tt, t')
  else file_closed (m_fs t) (m_fs t') (fp_file fp) /\ m_vm t' = m_vm t /\ m_data t' = m_data t.

(** The entries were closed one after the other. *)
Fixpoint all_closed (fps : list file_process) (t t' : machine) : Prop :=
  match fps with
  | [] => t' = t
  | fp :: fps => exists t1, entry_closed fp t t1 /\ all_closed fps t1 t'
  end.

Lemma sys_close_ok s refs fd : table_ok s refs ->
  exists s' refs', sys_close dir_close depth fd s = Ok (tt, s') /\ table_ok s' refs' /\ next_fd s' = next_fd s /\
    file_list s' = remove_fd fd (file_list s) /\
    match find_file fd (file_list s) with
    | None => s' = s
    | Some fp => entry_closed fp (t_machine s) (t_machine s')
    end.
Proof using dir_close_keeps.
  intros Ht. pose proof Ht as [T1 T2 T3 T4 T5]. unfold sys_close, get_file, gets. rewrite (bind_ok _ _ _ (find_file fd (file_list s)) s) by done.
  cbv beta. destruct (find_file fd (file_list s)) as [fp|] eqn:Ef.
  2: { exists s, refs. split_and!; try done. by rewrite remove_fd_none. }
  unfold entry_closed.
  destruct (find_file_split _ _ _ Ef) as (l1 & l2 & El & Er & Hn).
  assert (Hnd : NoDup (fp_fd <$> remove_fd fd (file_list s))).
  { rewrite Er. rewrite El, <-Permutation_middle in T1. cbn in T1. by apply NoDup_cons in T1 as [_ T1]. }
  assert (Hbelow : Forall (fun fp => 2 <= fp_fd fp < next_fd s) (remove_fd fd (file_list s))).
  { rewrite Er. rewrite El, Forall_app, Forall_cons in T2. apply Forall_app. tauto. }
  rewrite El in T4. unfold file_handles in T4. rewrite filter_app, filter_cons in T4.
  destruct (fp_is_dir fp) eqn:Ed; cbn [negb].
  - destruct (dir_close_keeps (fp_dir fp) (t_machine s) refs T5) as (t' & E & Hh).
    mstep (on_machine_ok _ s _ _ E). mstep_by reflexivity. eexists _, refs. split; [reflexivity|]. split; [|by split_and!]. split; try done.
    cbn. rewrite Er. unfold file_handles. by rewrite filter_app.
  - rewrite decide_True, fmap_app, fmap_cons in T4 by done.
    apply fmap_app_inv in T4 as (r1 & r2' & E1 & E2 & ->). symmetry in E2. apply fmap_cons_inv in E2 as ([h ip] & r2 & Eh & E2 & ->).
    cbn in Eh. subst h. apply (handles_perm _ _ ((fp_file fp, ip) :: r1 ++ r2)) in T5; [|by rewrite Permutation_middle].
    destruct (file_close_ok depth (m_fs (t_machine s)) (fp_file fp) ip (r1 ++ r2) T5) as (f' & E & Hh & Hc).
    mstep (on_machine_ok _ s _ _ (on_fs_ok _ _ _ _ E)). mstep_by reflexivity. eexists _, (r1 ++ r2). split; [reflexivity|]. split; [|by split_and!].
    split; try done. cbn. rewrite Er. unfold file_handles. by rewrite filter_app, !fmap_app, E1, E2.
Qed.

Lemma close_all_ok fps : forall s refs, table_ok s refs -> file_list s = fps ->
  exists s' refs', close_all dir_close depth fps s = Ok (tt, s') /\ table_ok s' refs' /\ next_fd s' = next_fd s /\ file_list s' = [] /\
    all_closed fps (t_machine s) (t_machine s').
Proof using dir_close_keeps.
  induction fps as [|fp fps IH]; intros s refs Ht El; [by exists s, refs|]. cbn [close_all].
  destruct (sys_close_ok s refs (fp_fd fp) Ht) as (s1 & refs1 & E & Ht1 & En & El1 & Hc). mstep E.
  rewrite El in El1, Hc. unfold find_file in Hc. cbn [remove_fd List.find] in El1, Hc. rewrite Z.eqb_refl in El1, Hc.
  destruct (IH s1 refs1 Ht1 El1) as (s2 & refs2 & E2 & Ht2 & En2 & El2 & Hcs). exists s2, refs2. rewrite E2, En2.
  split_and!; try done. by exists (t_machine s1).
Qed.


End Table.

(** Two files are open, and one of them is in the table. *)
Definition demo_files : fs :=
  set_files formatted (<[77 := File 15 0 false]> (<[78 := File 9 0 false]> (files formatted))).

Definition demo_task : task :=
  Task (Machine demo_files demo_vm ∅) [FileProcess 77 5 2 false] 3 0 [].

Lemma blk_wf_files s l : blk_wf (fs_device s) -> blk_wf (fs_device (set_files s l)).
Proof. done. Qed.

Lemma demo_handles : handles_ok demo_files [(77, 15); (78, 9)].
Proof.
  split.
  - unfold demo_files. apply blk_wf_files, formatted_blk.
  - cbn. apply NoDup_cons. split; [|apply NoDup_singleton]. rewrite list_elem_of_singleton. lia.
  - intros h ip Hin. rewrite !elem_of_cons in Hin. destruct Hin as [E|[E|E]]; [| |by apply not_elem_of_nil in E]; injection E as -> ->; split.
    + lia.
    + exists 0. vm_compute. reflexivity.
    + lia.
    + exists (inode_at formatted 15). split; [vm_compute; reflexivity|]. split; [vm_compute; reflexivity|].
      split; [apply disk_wf_decide; vm_compute; reflexivity|].
      split; [vm_compute; split; congruence|vm_compute; congruence].
    + lia.
    + exists 0. vm_compute. reflexivity.
    + lia.
    + exists (inode_at formatted 9). split; [vm_compute; reflexivity|]. split; [vm_compute; reflexivity|].
      split; [apply disk_wf_decide; vm_compute; reflexivity|].
      split; [vm_compute; split; congruence|vm_compute; congruence].
Qed.

Lemma demo_table : table_ok demo_task [(77, 15)].
Proof.
  split; cbn [demo_task file_list next_fd t_machine m_fs].
  - apply NoDup_singleton.
  - apply Forall_singleton. cbn. lia.
  - lia.
  - reflexivity.
  - exact (handles_app demo_files [(77, 15)] [(78, 9)] demo_handles).
Qed.

