(* ===== verification/SyscallProps.v ===== *)
(** * Properties of the system calls *)

From S2P Require Import Prelude ListModel Bitmap Bytes FsModel FsProps CString CStringRep Page PageThms PageDir PageProps Loader LoaderStack Syscall SyscallFiles.

Lemma bindX_go {A B} (c : X A) (k : A -> X B) s a t : c s = Ok (inr a, t) -> bindX c k s = k a t.
Proof. intros H. unfold bindX. by rewrite H. Qed.

Lemma bindX_end {A B} (c : X A) (k : A -> X B) s o t : c s = Ok (inl o, t) -> bindX c k s = Ok (inl o, t).
Proof. intros H. unfold bindX. by rewrite H. Qed.

Section Pointers.
Context (pd : Z) (T : Z -> Z) (s : task).

Definition mem := m_data (t_machine s).
Definition tr (a : Z) : Z := translate (m_vm (t_machine s)) T a.

(** The byte that the user sees at an address. *)
Definition user_byte (a : Z) : option Z :=
  if (a <? PHYS_BASE) && negb (tr a =? NULL) then mem !! tr a else None.

(** The directory of the process, whose frames are in memory. *)
Context (Hrep : pd_rep (m_vm (t_machine s)) pd T).
Context (Hmem : forall a, 0 <= a < PHYS_BASE -> tr a <> NULL -> is_Some (mem !! tr a)).

Lemma get_kernel_ptr_ok a : 0 <= a ->
  get_kernel_ptr pd a s = Ok (if user_byte a is Some _ then inr (tr a) else inl (Exited ERROR), s).
Proof using Hrep Hmem.
  intros Ha. unfold get_kernel_ptr, is_valid_ptr, is_user_vaddr, user_byte, bindX. destruct (Z.ltb_spec a PHYS_BASE) as [Hu|Hu]; [|done].
  cbn [negb andb ret mret M_ret]. unfold liftX, on_machine, on_vm.
  rewrite (pagedir_get_page_ok _ _ _ _ Hrep (conj Ha Hu)). fold (tr a).
  assert (Es : Task (Machine (m_fs (t_machine s)) (m_vm (t_machine s)) (m_data (t_machine s))) (file_list s) (next_fd s) (typed s) (printed s) = s)
    by (by destruct s as [[] ]). rewrite Es.
  destruct (Z.eqb_spec (tr a) NULL) as [|Hne]; [done|]. cbn [negb]. destruct (Hmem a (conj Ha Hu) Hne) as [b ->]. done.
Qed.

(** A string of the user. *)
Definition user_string (str : Z) (cs : list Z) : Prop :=
  (forall k c, cs !! k = Some c -> user_byte (str + Z.of_nat k) = Some c /\ c <> 0) /\
  user_byte (str + Z.of_nat (length cs)) = Some 0.

Lemma is_valid_string_ok fuel : forall str, 0 <= str < 4294967296 -> (Z.to_nat (PHYS_BASE - str) < fuel)%nat ->
  (exists cs, user_string str cs /\ is_valid_string pd fuel str s = Ok (inr tt, s)) \/
  (exists cs, (forall k c, cs !! k = Some c -> user_byte (str + Z.of_nat k) = Some c /\ c <> 0) /\
     user_byte (str + Z.of_nat (length cs)) = None /\ is_valid_string pd fuel str s = Ok (inl (Exited ERROR), s)).
Proof using Hrep Hmem.
  induction fuel as [|fuel IH]; intros str Hs Hf; [lia|]. cbn [is_valid_string].
  pose proof (get_kernel_ptr_ok str ltac:(lia)) as Eg. destruct (user_byte str) as [b|] eqn:Eb.
  2: { right. exists []. split; [done|]. cbn [length]. rewrite Z.add_0_r. split; [done|]. by apply bindX_end. }
  rewrite (bindX_go _ _ _ _ _ Eg). cbv beta.
  assert (Hb : str < PHYS_BASE /\ mem !! tr str = Some b).
  { revert Eb. unfold user_byte. destruct (Z.ltb_spec str PHYS_BASE); [|done]. by destruct (tr str =? NULL). }
  destruct Hb as [Hlt Hb].
  assert (El : liftX (on_machine (on_data (load (tr str)))) s = Ok (inr b, s)).
  { unfold liftX, on_machine, on_data. fold mem. rewrite (load_ok _ _ _ Hb). unfold mem. by destruct s as [[] ]. }
  rewrite (bindX_go _ _ _ _ _ El). cbv beta. destruct (Z.eqb_spec b 0) as [->|Hne]; cbn [negb].
  { left. exists []. split; [|done]. split; [done|]. cbn [length]. by rewrite Z.add_0_r. }
  unfold PHYS_BASE in *. rewrite u32_small by lia.
  assert (Hcons : forall cs, (forall k c, cs !! k = Some c -> user_byte (str + 1 + Z.of_nat k) = Some c /\ c <> 0) ->
    forall k c, (b :: cs) !! k = Some c -> user_byte (str + Z.of_nat k) = Some c /\ c <> 0).
  { intros cs Hcs [|k] c Hk; cbn in Hk; [injection Hk as <-; by rewrite Z.add_0_r|].
    destruct (Hcs k c Hk). by replace (str + Z.of_nat (S k)) with (str + 1 + Z.of_nat k) by lia. }
  destruct (IH (str + 1)) as [(cs & [H1 H2] & E)|(cs & H1 & H2 & E)]; [lia|lia|left|right]; exists (b :: cs).
  all: replace (str + 1 + Z.of_nat (length cs)) with (str + Z.of_nat (length (b :: cs))) in H2 by (cbn [length]; lia).
  - split; [|done]. split; [by apply Hcons|done].
  - split_and!; [by apply Hcons|done|done].
Qed.

Lemma is_valid_buffer_ok n : forall buffer, 0 <= buffer < 4294967296 ->
  is_valid_buffer_loop n buffer s
  = Ok (if (n =? 0)%nat || (buffer + Z.of_nat n <=? PHYS_BASE) then inr tt else inl (Exited ERROR), s).
Proof using.
  induction n as [|n IH]; intros buffer Hb; [done|]. cbn [is_valid_buffer_loop Nat.eqb orb].
  unfold bindX, is_valid_ptr, is_user_vaddr. destruct (Z.ltb_spec buffer PHYS_BASE) as [Hu|Hu]; cbn [negb].
  - unfold ret, mret, M_ret. unfold PHYS_BASE in *. rewrite u32_small, IH by lia. do 2 f_equal.
    destruct (Nat.eqb_spec n 0), (Z.leb_spec (buffer + 1 + Z.of_nat n) 3221225472), (Z.leb_spec (buffer + Z.of_nat (S n)) 3221225472);
      cbn [orb]; (done || lia).
  - destruct (Z.leb_spec (buffer + Z.of_nat (S n)) PHYS_BASE); [lia|done].
Qed.

(** C31: Pointers from the user.  [get_kernel_ptr] gives the kernel address of
    a mapped user address and ends the process with -1 for every other.
    [is_valid_string] accepts exactly the addresses from which a null-terminated
    string can be read in mapped user memory, and ends the process with -1
    otherwise; it stops at the end of user memory at the latest.
    [is_valid_buffer] looks at the addresses only: it accepts exactly the
    blocks that lie below the kernel's half of memory, mapped or not, although
    the design document says that the page must have been allocated.  None of
    them faults or changes anything. *)
Theorem user_pointers_checked fuel a size :
  0 <= a < 4294967296 -> 0 <= size < 4294967296 -> Z.max 0 (PHYS_BASE - a) < Z.of_nat fuel ->
  get_kernel_ptr pd a s = Ok (if user_byte a is Some _ then inr (tr a) else inl (Exited ERROR), s) /\
  (((exists cs, user_string a cs) /\ is_valid_string pd fuel a s = Ok (inr tt, s)) \/
   (~ (exists cs, user_string a cs) /\ is_valid_string pd fuel a s = Ok (inl (Exited ERROR), s))) /\
  is_valid_buffer a size s = Ok (if (size =? 0) || (a + size <=? PHYS_BASE) then inr tt else inl (Exited ERROR), s).
Proof using Hrep Hmem.
  intros Ha Hs Hf. split; [apply get_kernel_ptr_ok; lia|split].
  - destruct (is_valid_string_ok fuel a Ha ltac:(lia)) as [(cs & H & E)|(cs & H1 & H2 & E)]; [left; by split; [exists cs|]|right].
    split; [|done]. intros (ds & D1 & D2).
    destruct (Nat.lt_trichotomy (length cs) (length ds)) as [Hlt|[Heq|Hgt]].
    + destruct (lookup_lt_is_Some_2 ds _ Hlt) as [c Hc]. destruct (D1 _ _ Hc). congruence.
    + rewrite Heq in H2. congruence.
    + destruct (lookup_lt_is_Some_2 cs _ Hgt) as [c Hc]. destruct (H1 _ _ Hc). congruence.
  - unfold is_valid_buffer. rewrite is_valid_buffer_ok, Z2Nat.id by (done || lia).
    destruct (Nat.eqb_spec (Z.to_nat size) 0), (Z.eqb_spec size 0); (done || lia).
Qed.

End Pointers.

(** A process with the stack and a buffer at the end of the user page
    134512640, which is frame 0; the next user page is frame 2, and frame 1
    belongs to somebody else.  The stack asks for read (0, 134516734, 4). *)
Definition call_vm : vm :=
  VM (kernel_pool demo_vm) (user_pool demo_vm)
    (fun a => if a =? 3222298624 + 4 * 32 then 3222302720 - PHYS_BASE + 7
              else if a =? 3222302720 + 4 * 72 then 3222429696 - PHYS_BASE + 7
              else if a =? 3222302720 + 4 * 73 then 3222437888 - PHYS_BASE + 7 else 0) 1073152.

Definition call_data : bytes :=
  write (write (write ∅ 3222429696 (words_bytes [8; 0; 134516734; 4])) 3222433790 [0; 0; 50; 51]) 3222437888 [60; 61].

Definition call_task : task := Task (Machine formatted call_vm call_data) [] 2 0 [].

Definition call_table (i : Z) : Z := if i =? 32 then 3222302720 else NULL.

(** The handler with library functions that do nothing and the keys 1, 2, ... *)
Definition handle (fuel : nat) (esp : Z) : T outcome :=
  syscall_handler (fun _ _ _ => mret false) (fun _ => mret false) (fun _ => mret false) (fun _ => mret false)
    (fun _ => mret 0) (fun _ => mret tt) (fun _ _ => mret false) (fun _ => mret 0)
    (fun n => Z.of_nat n + 1) 5 2 3222298624 fuel esp.

(** A frame that is mapped is frame 0 or frame 2. *)
Lemma call_frames a : 0 <= a < PHYS_BASE -> translate call_vm call_table a <> NULL ->
  3222429696 <= translate call_vm call_table a < 3222433792 \/ 3222437888 <= translate call_vm call_table a < 3222441984.
Proof.
  intros Ha. unfold translate, call_table. destruct (Z.eqb_spec (pd_no a) 32) as [_|_]; [|done].
  change (3222302720 =? NULL) with false. cbv iota. pose proof (pt_no_range a). pose proof (Z.mod_pos_bound a 4096 ltac:(lia)).
  cbn [call_vm words]. unfold PHYS_BASE.
  destruct (Z.eqb_spec (3222302720 + 4 * pt_no a) (3222298624 + 4 * 32)); [lia|].
  destruct (Z.eqb_spec (3222302720 + 4 * pt_no a) (3222302720 + 4 * 72)) as [_|_].
  { change ((3222429696 - 3221225472 + 7) mod 2 =? 1) with true. change ((3222429696 - 3221225472 + 7) mod 4096) with 7.
    cbv iota. lia. }
  destruct (Z.eqb_spec (3222302720 + 4 * pt_no a) (3222302720 + 4 * 73)) as [_|_]; [|done].
  change ((3222437888 - 3221225472 + 7) mod 2 =? 1) with true. change ((3222437888 - 3221225472 + 7) mod 4096) with 7.
  cbv iota. lia.
Qed.

(** [read] checks and translates only the first address of the buffer.
    When the buffer goes on in another user page the rest of the data is stored
    in the frame that happens to be next in physical memory: here the call
    reports that four bytes were read, the user sees the old contents in the
    second page, and a frame that the process does not have mapped is
    overwritten. *)
Theorem read_wrong_frame :
  (forall a, 0 <= a < PHYS_BASE -> translate call_vm call_table a <> 3222433792) /\
  user_byte call_table call_task 134516736 = Some 60 /\ mem call_task !! 3222433792 = Some 50 /\
  exists s', handle 10 134512640 call_task = Ok (Returned 4, s') /\
    user_byte call_table s' 134516735 = Some 2 /\ user_byte call_table s' 134516736 = Some 60 /\
    mem s' !! 3222433792 = Some 3.
Proof.
  split; [|split; [|split]].
  - intros a Ha E. destruct (call_frames a Ha) as [H|H]; rewrite E in *; unfold NULL in *; lia.
  - vm_compute. reflexivity.
  - vm_compute. reflexivity.
  - assert (H : match handle 10 134512640 call_task with
                | Ok (Returned n, s') => (n =? 4) && bool_decide (user_byte call_table s' 134516735 = Some 2) &&
                    bool_decide (user_byte call_table s' 134516736 = Some 60) && bool_decide (mem s' !! 3222433792 = Some 3)
                | _ => false end = true) by (vm_compute; reflexivity).
    destruct (handle 10 134512640 call_task) as [[[n| | | | |] s']|]; try discriminate. exists s'.
    apply andb_true_iff in H as [H H4%bool_decide_eq_true]. apply andb_true_iff in H as [H H3%bool_decide_eq_true].
    apply andb_true_iff in H as [H1%Z.eqb_eq H2%bool_decide_eq_true]. subst n. done.
Qed.

(** Calls that stop the kernel.  [seek] and [tell] read a field of the null
    pointer when the descriptor is not in use; [seek] to a position of 2^31 or
    more fails an assertion of [file_seek]; and an argument of any call is read
    without asking whether its page is mapped, a page fault in the kernel. *)
Theorem syscall_faults junk pd T s fd position esp :
  (find_file fd (file_list s) = None ->
     sys_seek fd position s = Err EFault /\ sys_tell junk fd s = Err EFault) /\
  (forall fp, find_file fd (file_list s) = Some fp -> fp_is_dir fp = false -> fp_file fp <> 0 ->
     2147483648 <= position < 4294967296 -> sys_seek fd position s = Err EAssert) /\
  (pd_rep (m_vm (t_machine s)) pd T -> 0 <= esp -> esp + 4 < PHYS_BASE -> tr T s (esp + 4) = NULL ->
     get_arg pd esp 1 s = Err EFault).
Proof.
  split; [|split].
  - intros E. unfold sys_seek, sys_tell, get_file, gets. by rewrite !(bind_ok _ _ _ (find_file fd (file_list s)) s), E by done.
  - intros fp E Ed Hn Hp. unfold sys_seek, get_file, gets. rewrite (bind_ok _ _ _ (find_file fd (file_list s)) s), E by done.
    rewrite Ed. unfold on_machine, on_fs, file_seek. rewrite (bind_ok _ _ _ tt (m_fs (t_machine s))) by
      (apply ASSERT_true; by destruct (Z.eqb_spec (fp_file fp) 0)). cbv beta.
    rewrite (bind_err _ _ _ EAssert); [done|]. apply ASSERT_false. apply Z.leb_gt. unfold s32.
    rewrite <-(Z.mod_add _ (-1)) by lia. rewrite Z.mod_small by lia. lia.
  - intros Hrep H0 Hu Hn. unfold get_arg. cbn [get_arg_loop]. replace (4 * (0 + 1)) with 4 by lia.
    unfold PHYS_BASE in Hu. rewrite u32_small by lia.
    rewrite (bindX_go _ _ _ tt s) by (unfold is_valid_ptr, is_user_vaddr, PHYS_BASE; destruct (Z.ltb_spec (esp + 4) 3221225472); [done|lia]).
    cbv beta. unfold bindX, liftX, on_machine, load_int, load_va, is_user_vaddr, PHYS_BASE. destruct (Z.ltb_spec (esp + 4) 3221225472); [|lia].
    rewrite (bind_err _ _ _ EFault); [done|]. unfold on_vm, mbind, M_bind.
    rewrite (pagedir_get_page_ok _ _ _ _ Hrep) by (unfold PHYS_BASE; lia). fold (tr T s (esp + 4)). by rewrite Hn.
Qed.

(** A process with one page, the last one below the kernel; the string "ls"
    is at its end. *)
Definition top_vm : vm :=
  VM (kernel_pool demo_vm) (user_pool demo_vm)
    (fun a => if a =? 3222298624 + 4 * 767 then 3222302720 - PHYS_BASE + 7
              else if a =? 3222302720 + 4 * 1023 then 3222429696 - PHYS_BASE + 7 else 0) 1073152.

Definition top_table (i : Z) : Z := if i =? 767 then 3222302720 else NULL.

Definition top_task : task :=
  Task (Machine formatted top_vm (write (write ∅ 3222429696 (repeat 65 (Z.to_nat 4096))) 3222433786 [108; 115; 0])) [] 2 0 [].

Lemma top_rep : pd_rep top_vm 3222298624 top_table.
Proof.
  split; cbn [top_vm kernel_pool words].
  - apply (ps_kernel _ demo_vm_ok).
  - exists 0. split; [split; [cbn; lia|done]|vm_compute; reflexivity].
  - intros i Hi. unfold top_table. destruct (Z.eqb_spec i 767) as [->|Hne]; [right|left].
    + split; [exists 1; split; [split; [cbn; lia|done]|vm_compute; reflexivity]|]. split; [done|]. exists 7. done.
    + split; [done|]. destruct (Z.eqb_spec (3222298624 + 4 * i) (3222298624 + 4 * 767)); [lia|].
      by destruct (Z.eqb_spec (3222298624 + 4 * i) (3222302720 + 4 * 1023)); [lia|].
  - intros i j Hi Hj. unfold top_table. destruct (Z.eqb_spec i 767), (Z.eqb_spec j 767); (done || congruence).
  - intros i j Hi Hn Hj. unfold top_table in *. destruct (Z.eqb_spec i 767); [|done]. unfold PHYS_BASE.
    destruct (Z.eqb_spec (3222302720 + 4 * j) (3222298624 + 4 * 767)); [lia|].
    destruct (Z.eqb_spec (3222302720 + 4 * j) (3222302720 + 4 * 1023)); [lia|]. split; [lia|done].
Qed.

Lemma top_mem a : 0 <= a < PHYS_BASE -> tr top_table top_task a <> NULL -> is_Some (mem top_task !! tr top_table top_task a).
Proof.
  intros Ha Hn. apply write_some. assert (Hr : 3222429696 <= tr top_table top_task a < 3222433792).
  { revert Hn. unfold tr, translate, top_table. destruct (Z.eqb_spec (pd_no a) 767) as [_|_]; [|done].
    change (3222302720 =? NULL) with false. cbv iota. pose proof (Z.mod_pos_bound a 4096 ltac:(lia)).
    cbn [top_task t_machine m_vm top_vm words]. unfold PHYS_BASE.
    destruct (Z.eqb_spec (3222302720 + 4 * pt_no a) (3222298624 + 4 * 767)); [pose proof (pt_no_range a); lia|].
    destruct (Z.eqb_spec (3222302720 + 4 * pt_no a) (3222302720 + 4 * 1023)) as [_|_]; [|done].
    change ((3222429696 - 3221225472 + 7) mod 2 =? 1) with true. change ((3222429696 - 3221225472 + 7) mod 4096) with 7.
    cbv iota. lia. }
  rewrite write_in by (rewrite repeat_length; lia). rewrite lookup_repeat by lia. by eexists.
Qed.

Lemma user_pointers_checked_witness :
  is_valid_string 3222298624 7 3221225466 top_task = Ok (inr tt, top_task) /\
  get_kernel_ptr 3222298624 3221225466 top_task = Ok (inr 3222433786, top_task) /\
  is_valid_buffer 3221221366 10 top_task = Ok (inr tt, top_task) /\
  get_kernel_ptr 3222298624 3221221366 top_task = Ok (inl (Exited ERROR), top_task).
Proof.
  destruct (user_pointers_checked 3222298624 top_table top_task top_rep top_mem 5000 3221221366 10) as (Hn & _ & Hb);
    [lia|lia|unfold PHYS_BASE; lia|].
  destruct (user_pointers_checked 3222298624 top_table top_task top_rep top_mem 7 3221225466 6) as (Hk & Hs & _).
  - lia.
  - lia.
  - unfold PHYS_BASE. lia.
  - split.
    + destruct Hs as [[_ Hs]|[Hno _]]; [exact Hs|]. exfalso. apply Hno. exists [108; 115]. split.
      * intros [|[|k]] c Hc; cbn in Hc; [injection Hc as <-..|discriminate]; (split; [vm_compute; reflexivity|lia]).
      * vm_compute. reflexivity.
    + rewrite Hk. assert (E : user_byte top_table top_task 3221225466 = Some 108) by (vm_compute; reflexivity).
      rewrite E. assert (E' : tr top_table top_task 3221225466 = 3222433786) by (vm_compute; reflexivity). rewrite E'.
      split; [reflexivity|]. split; [exact Hb|]. rewrite Hn.
      assert (E2 : user_byte top_table top_task 3221221366 = None) by (vm_compute; reflexivity). rewrite E2. reflexivity.
Defined.

(** Calls of a process without open files and with one page. *)
Lemma syscall_faults_witness :
  sys_seek 9 0 top_task = Err EFault /\ get_arg 3222298624 1000 1 top_task = Err EFault.
Proof.
  destruct (syscall_faults 5 3222298624 top_table top_task 9 0 1000) as (H1 & _ & H3). split.
  - apply H1. reflexivity.
  - apply H3; [exact top_rep|lia|unfold PHYS_BASE; lia|vm_compute; reflexivity].
Defined.
