(* ===== verification/Stdio.v ===== *)
(** * Formatted output: [lib/stdio.c]

    A character is the byte it is stored in.  [output] is the callback of the
    formatting functions and acts on a state in which [memory] finds the bytes
    of string arguments; [vsnprintf] and the console are two instances.  A
    format is the list of its characters with the null character at its end,
    and reading behind the end stops with [EFault].  The variable arguments are
    the list of the 32-bit words on the stack. *)

From Stdlib Require Import Strings.Ascii Strings.String.
From S2P Require Import Prelude ListModel CString StdLib.

(** Characters and string literals. *)
Definition chr (a : ascii) : Z := Z.of_nat (nat_of_ascii a).
Arguments chr _%_char_scope.

Fixpoint lit (s : string) : list Z :=
  match s with EmptyString => [] | String a s => chr a :: lit s end.
Arguments lit _%_string_scope.

(** A literal in the program, with its terminator. *)
Definition cstring (s : string) : list Z := lit s ++ [0].
Arguments cstring _%_string_scope.

Definition isprint (c : Z) : bool := (32 <=? c) && (c <? 127).

Definition s8 (z : Z) : Z := (z + 128) mod 256 - 128.
Definition s16 (z : Z) : Z := (z + 32768) mod 65536 - 32768.
Definition u16 (z : Z) : Z := z mod 65536.

(** ** Conversions *)

Definition MINUS : Z := 1.
Definition PLUS : Z := 2.
Definition SPACE : Z := 4.
Definition POUND : Z := 8.
Definition ZERO : Z := 16.
Definition GROUP : Z := 32.

Definition has (flags f : Z) : bool := negb (Z.land flags f =? 0).

Inductive conversion_type := CHAR | SHORT | INT | INTMAX | LONG | LONGLONG | PTRDIFFT | SIZET.

Record printf_conversion := Conversion { flags : Z; width : Z; precision : Z; type : conversion_type }.

Record integer_base := IntegerBase { base_ : Z; digits : list Z; x_char : Z; group : Z }.

Definition base_d : integer_base := IntegerBase 10 (lit "0123456789") 0 3.
Definition base_o : integer_base := IntegerBase 8 (lit "01234567") 0 3.
Definition base_x : integer_base := IntegerBase 16 (lit "0123456789abcdef") (chr "x") 4.
Definition base_X : integer_base := IntegerBase 16 (lit "0123456789ABCDEF") (chr "X") 4.

Section Printf.
Context {S : Type} (output : Z -> M S unit) (memory : S -> bytes) (null_string : Z).

(** A read of memory. *)
Definition reading {A} (c : B A) : M S A := fun s =>
  match c (memory s) with Ok (a, _) => Ok (a, s) | Err e => Err e end.

Definition peek (format : list Z) : M S Z :=
  match format with c :: _ => mret c | [] => fail EFault end.

(** [va_arg] of a word and of two words. *)
Definition va_word (args : list Z) : M S (Z * list Z) :=
  match args with w :: args => mret (w, args) | [] => fail EFault end.
Definition va_dword (args : list Z) : M S (Z * list Z) :=
  match args with w0 :: w1 :: args => mret (w0 + 4294967296 * w1, args) | _ => fail EFault end.

(** *** Parsing a conversion *)

Fixpoint parse_flags (format : list Z) (fl : Z) : Z * list Z :=
  match format with
  | [] => (fl, [])
  | c :: rest =>
      if c =? chr "-" then parse_flags rest (Z.lor fl MINUS)
      else if c =? chr "+" then parse_flags rest (Z.lor fl PLUS)
      else if c =? chr " " then parse_flags rest (Z.lor fl SPACE)
      else if c =? chr "#" then parse_flags rest (Z.lor fl POUND)
      else if c =? chr "0" then parse_flags rest (Z.lor fl ZERO)
      else if c =? chr "'" then parse_flags rest (Z.lor fl GROUP)
      else (fl, format)
  end.

Fixpoint parse_digits (format : list Z) (n : Z) : Z * list Z :=
  match format with
  | c :: rest => if isdigit c then parse_digits rest (s32 (n * 10 + c - chr "0")) else (n, format)
  | [] => (n, [])
  end.

(** A number or a star, from the format or from the arguments. *)
Definition parse_number (format args : list Z) : M S (Z * list Z * list Z) :=
  c ← peek format;
  if c =? chr "*" then r ← va_word args; mret (s32 r.1, tail format, r.2)
  else let '(n, format) := parse_digits format 0 in mret (n, format, args).

Definition parse_type (format : list Z) : M S (conversion_type * list Z) :=
  c ← peek format;
  let rest := tail format in
  if c =? chr "h" then
    c ← peek rest; mret (if c =? chr "h" then (CHAR, tail rest) else (SHORT, rest))
  else if c =? chr "j" then mret (INTMAX, rest)
  else if c =? chr "l" then
    c ← peek rest; mret (if c =? chr "l" then (LONGLONG, tail rest) else (LONG, rest))
  else if c =? chr "t" then mret (PTRDIFFT, rest)
  else if c =? chr "z" then mret (SIZET, rest)
  else mret (INT, format).

Definition parse_conversion (format args : list Z) : M S (printf_conversion * list Z * list Z) :=
  let '(fl, format) := parse_flags format 0 in
  let fl := if has fl MINUS then Z.land fl (Z.lnot ZERO) else fl in
  let fl := if has fl PLUS then Z.land fl (Z.lnot SPACE) else fl in
  r ← parse_number format args;
  let '(w, format, args) := r : Z * list Z * list Z in
  let fl := if w <? 0 then Z.lor fl MINUS else fl in
  let w := if w <? 0 then s32 (- w) else w in
  c ← peek format;
  r ← (if c =? chr "." then
         r ← parse_number (tail format) args;
         let '(p, format, args) := r : Z * list Z * list Z in
         mret (if p <? 0 then -1 else p, format, args)
       else mret (-1, format, args));
  let '(p, format, args) := r : Z * list Z * list Z in
  let fl := if 0 <=? p then Z.land fl (Z.lnot ZERO) else fl in
  r ← parse_type format;
  mret (Conversion fl w p r.1, r.2, args).

(** *** Output *)

Fixpoint output_dup_loop (ch : Z) (cnt : nat) : M S unit :=
  match cnt with O => mret tt | Datatypes.S cnt => output ch;; output_dup_loop ch cnt end.
Definition output_dup (ch cnt : Z) : M S unit := output_dup_loop ch (Z.to_nat cnt).

(** [*cp++ = ch] in a buffer of 64 characters. *)
Definition push (buf : list Z) (ch : Z) : M S (list Z) :=
  if Z.of_nat (length buf) <? 64 then mret (buf ++ [ch]) else fail EFault.

Fixpoint digit_loop (fuel : nat) (fl : Z) (b : integer_base) (value digit_cnt : Z) (buf : list Z) : M S (list Z) :=
  match fuel with
  | O => fail EFuel
  | Datatypes.S fuel =>
      if 0 <? value then
        buf ← (if has fl GROUP && (0 <? digit_cnt) && (digit_cnt mod group b =? 0) then push buf (chr ",") else mret buf);
        d ← lift_opt EFault (digits b !! Z.to_nat (value mod base_ b));
        buf ← push buf d;
        digit_loop fuel fl b (value / base_ b) (digit_cnt + 1) buf
      else mret buf
  end.

Fixpoint zero_loop (fuel : nat) (prec : Z) (buf : list Z) : M S (list Z) :=
  match fuel with
  | O => fail EFuel
  | Datatypes.S fuel =>
      if (Z.of_nat (length buf) <? prec) && (Z.of_nat (length buf) <? 63)
      then buf ← push buf (chr "0"); zero_loop fuel prec buf else mret buf
  end.

Fixpoint output_all (cs : list Z) : M S unit :=
  match cs with [] => mret tt | c :: cs => output c;; output_all cs end.

Definition format_integer (value : Z) (is_signed negative : bool) (b : integer_base) (c : printf_conversion) : M S unit :=
  let sign :=
    if is_signed then
      if has (flags c) PLUS then (if negative then chr "-" else chr "+")
      else if has (flags c) SPACE then (if negative then chr "-" else chr " ")
      else if negative then chr "-" else 0
    else 0 in
  let x := if has (flags c) POUND && negb (value =? 0) then x_char b else 0 in
  buf ← digit_loop 65 (flags c) b value 0 [];
  let prec := if precision c <? 0 then 1 else precision c in
  buf ← zero_loop 65 prec buf;
  buf ← (if has (flags c) POUND && (base_ b =? 8) && negb (bool_decide (last buf = Some (chr "0")))
         then push buf (chr "0") else mret buf);
  let pad_cnt := s32 (width c - Z.of_nat (length buf) - (if x =? 0 then 0 else 2) - (if sign =? 0 then 0 else 1)) in
  let pad_cnt := if pad_cnt <? 0 then 0 else pad_cnt in
  (if negb (has (flags c) (Z.lor MINUS ZERO)) then output_dup (chr " ") pad_cnt else mret tt);;
  (if negb (sign =? 0) then output sign else mret tt);;
  (if negb (x =? 0) then output (chr "0");; output x else mret tt);;
  (if has (flags c) ZERO then output_dup (chr "0") pad_cnt else mret tt);;
  output_all (reverse buf);;
  (if has (flags c) MINUS then output_dup (chr " ") pad_cnt else mret tt).

(** STRING i is the read of the i-th character. *)
Fixpoint output_string (string : Z -> M S Z) (n : nat) (i : Z) : M S unit :=
  match n with
  | O => mret tt
  | Datatypes.S n => c ← string i; output c;; output_string string n (i + 1)
  end.

Definition format_string (string : Z -> M S Z) (length : Z) (c : printf_conversion) : M S unit :=
  (if (length <? width c) && negb (has (flags c) MINUS) then output_dup (chr " ") (width c - length) else mret tt);;
  output_string string (Z.to_nat length) 0;;
  (if (length <? width c) && has (flags c) MINUS then output_dup (chr " ") (width c - length) else mret tt).

(** *** The conversions *)

Definition signed_arg (t : conversion_type) (args : list Z) : M S (Z * list Z) :=
  match t with
  | CHAR => r ← va_word args; mret (s8 r.1, r.2)
  | SHORT => r ← va_word args; mret (s16 r.1, r.2)
  | INT | LONG | PTRDIFFT => r ← va_word args; mret (s32 r.1, r.2)
  | INTMAX | LONGLONG => r ← va_dword args; mret (s64 r.1, r.2)
  | SIZET =>
      r ← va_word args;
      mret (if 4294967295 / 2 <? u32 r.1 then u32 r.1 - 4294967295 - 1 else u32 r.1, r.2)
  end.

Definition unsigned_arg (t : conversion_type) (args : list Z) : M S (Z * list Z) :=
  match t with
  | CHAR => r ← va_word args; mret (u8 r.1, r.2)
  | SHORT => r ← va_word args; mret (u16 r.1, r.2)
  | INT | LONG | SIZET => r ← va_word args; mret (u32 r.1, r.2)
  | INTMAX | LONGLONG => r ← va_dword args; mret (u64 r.1, r.2)
  | PTRDIFFT => r ← va_word args; mret (Z.land (u64 (s32 r.1)) (Z.lor (Z.shiftl 2147483647 1) 1), r.2)
  end.

(** The cases of the conversion character K; the nested call of [__printf] has
    the format of a message. *)
Definition convert (vprintf : list Z -> list Z -> M S unit) (fuel : nat) (k : Z) (c : printf_conversion) (args : list Z)
    : M S (list Z) :=
  if (k =? chr "d") || (k =? chr "i") then
    r ← signed_arg (type c) args;
    format_integer (u64 (if r.1 <? 0 then - r.1 else r.1)) true (r.1 <? 0) base_d c;; mret r.2
  else if (k =? chr "o") || (k =? chr "u") || (k =? chr "x") || (k =? chr "X") then
    r ← unsigned_arg (type c) args;
    let b := if k =? chr "o" then base_o else if k =? chr "u" then base_d else if k =? chr "x" then base_x else base_X in
    format_integer r.1 false false b c;; mret r.2
  else if k =? chr "c" then
    r ← va_word args; format_string (fun _ => mret (u8 r.1)) 1 c;; mret r.2
  else if k =? chr "s" then
    r ← va_word args;
    let s := if r.1 =? NULL then null_string else r.1 in
    n ← reading (strnlen fuel s (u32 (precision c)));
    format_string (fun i => reading (load (s + i))) (s32 n) c;; mret r.2
  else if k =? chr "p" then
    r ← va_word args;
    format_integer (u32 r.1) false false base_x (Conversion POUND (width c) (precision c) (type c));; mret r.2
  else if (k =? chr "f") || (k =? chr "e") || (k =? chr "E") || (k =? chr "g") || (k =? chr "G") || (k =? chr "n") then
    vprintf (cstring "<<no %%%c in kernel>>") [k];; mret args
  else vprintf (cstring "<<no %%%c conversion>>") [k];; mret args.

(** [__vprintf]; the fuel counts the turns of the loop. *)
Fixpoint vprintf (fuel : nat) (format args : list Z) : M S unit :=
  match fuel with
  | O => fail EFuel
  | Datatypes.S fuel =>
      c ← peek format;
      if c =? 0 then mret tt else
      if negb (c =? chr "%") then output c;; vprintf fuel (tail format) args else
      let format := tail format in
      c ← peek format;
      if c =? chr "%" then output (chr "%");; vprintf fuel (tail format) args else
      r ← parse_conversion format args;
      let '(conv, format, args) := r : printf_conversion * list Z * list Z in
      k ← peek format;
      args ← convert (vprintf fuel) fuel k conv args;
      vprintf fuel (tail format) args
  end.

End Printf.

(** ** Output to a buffer *)

Record vsnprintf_aux := Aux { aux_p : Z; aux_length : Z; aux_max_length : Z }.

Definition vsnprintf_helper (ch : Z) : M (bytes * vsnprintf_aux) unit := fun s =>
  let '(m, aux) := s in
  if aux_length aux <? aux_max_length aux then
    match store (aux_p aux) ch m with
    | Ok (_, m) => Ok (tt, (m, Aux (aux_p aux + 1) (s32 (aux_length aux + 1)) (aux_max_length aux)))
    | Err e => Err e
    end
  else Ok (tt, (m, Aux (aux_p aux) (s32 (aux_length aux + 1)) (aux_max_length aux))).

Definition vsnprintf (fuel : nat) (null_string buffer buf_size : Z) (format args : list Z) : B Z := fun m =>
  let max_length := s32 (if 0 <? buf_size then buf_size - 1 else 0) in
  match vprintf vsnprintf_helper fst null_string fuel format args (m, Aux buffer 0 max_length) with
  | Ok (_, (m, aux)) =>
      if 0 <? buf_size then
        match store (aux_p aux) 0 m with Ok (_, m) => Ok (aux_length aux, m) | Err e => Err e end
      else Ok (aux_length aux, m)
  | Err e => Err e
  end.

(** [snprintf] passes its arguments on. *)
Definition snprintf (fuel : nat) (null_string buffer buf_size : Z) (format args : list Z) : B Z :=
  vsnprintf fuel null_string buffer buf_size format args.

(** ** Output to the console *)

Definition console := (bytes * list Z)%type.

Definition putchar (ch : Z) : M console unit := fun s => Ok (tt, (s.1, s.2 ++ [u8 ch])).

Definition printf (fuel : nat) (null_string : Z) (format args : list Z) : M console unit :=
  vprintf putchar fst null_string fuel format args.

Section Dump.
Context (fuel : nat) (null_string : Z).

Definition print (format : string) (args : list Z) : M console unit := printf fuel null_string (cstring format) args.

Fixpoint print_times (n : nat) (format : string) : M console unit :=
  match n with O => mret tt | S n => print format [];; print_times n format end.

(** The bytes and the characters of a line, from column I on. *)
Fixpoint dump_bytes (bs : list Z) (i : Z) : M console unit :=
  match bs with
  | [] => mret tt
  | b :: bs => print "%02hhx%c" [b; if i =? 16 / 2 - 1 then chr "-" else chr " "];; dump_bytes bs (i + 1)
  end.

Fixpoint dump_chars (bs : list Z) : M console unit :=
  match bs with
  | [] => mret tt
  | b :: bs => print "%c" [if isprint b then b else chr "."];; dump_chars bs
  end.

(** The bytes of the buffer that are left are BUF. *)
Fixpoint hex_dump (n : nat) (ofs : Z) (buf : list Z) (ascii : bool) : M console unit :=
  match n with
  | O => fail EFuel
  | S n =>
      let size := Z.of_nat (length buf) in
      if negb (0 <? size) then mret tt else
      let start := ofs mod 16 in
      let end_ := if size <? 16 - start then start + size else 16 in
      let cnt := end_ - start in
      let line := take (Z.to_nat cnt) buf in
      print "%08jx  " [ofs / 16 * 16; 0];;
      print_times (Z.to_nat start) "   ";;
      dump_bytes line start;;
      (if ascii then
         print_times (Z.to_nat (16 - end_)) "   ";;
         print "|" [];;
         print_times (Z.to_nat start) " ";;
         dump_chars line;;
         print_times (Z.to_nat (16 - end_)) " ";;
         print "|" []
       else mret tt);;
      print (String (ascii_of_nat 10) EmptyString) [];;
      hex_dump n (u32 (ofs + cnt)) (drop (Z.to_nat cnt) buf) ascii
  end.

Fixpoint human_factor (fuel : nat) (size : Z) (factors : list string) : M console (Z * string) :=
  match fuel, factors with
  | S fuel, f :: ((_ :: _) as rest) => if 1024 <=? size then human_factor fuel (size / 1024) rest else mret (size, f)
  | _, [f] => mret (size, f)
  | _, _ => fail EFault
  end.

(** FACTOR_AT is the address of the string of the factor. *)
Definition print_human_readable_size (factor_at : string -> Z) (size : Z) : M console unit :=
  if size =? 1 then print "1 byte" [] else
  r ← human_factor 10 size ["bytes"; "kB"; "MB"; "GB"; "TB"]%string;
  print "%llu %s" [u32 r.1; r.1 / 4294967296; factor_at r.2].

End Dump.
