(* ===== verification/StdioThms.v ===== *)
(** * Formatted output: rendering and simulation

    [format_integer] sends [integer_text] to its callback, whatever the
    callback is.  [sim] relates two runs of the formatting functions with
    different callbacks; [vprintf_sim] is the simulation for [vprintf]. *)

From Stdlib Require Import Strings.Ascii Strings.String.
From S2P Require Import Prelude ListModel Bytes CString CStringRep StdLib Stdio.

(** ** The text of an integer *)

(** The number with the digits [ds], the lowest first. *)
Fixpoint number (base : Z) (ds : list Z) : Z :=
  match ds with [] => 0 | d :: ds => d + base * number base ds end.

(** The digits of a positive number; no digits for zero. *)
Definition numeral (base value : Z) (ds : list Z) : Prop :=
  Forall (fun d => 0 <= d < base) ds /\ last ds <> Some 0 /\ number base ds = value.

(** Digit characters with a comma in front of every group but the first. *)
Fixpoint grouped (g : Z) (i : Z) (cs : list Z) : list Z :=
  match cs with
  | [] => []
  | c :: cs => (if (0 <? i) && (i mod g =? 0) then [chr ","] else []) ++ c :: grouped g (i + 1) cs
  end.

Definition digit_char (b : integer_base) (d : Z) : Z := default 0 (digits b !! Z.to_nat d).

Definition body_text (fl : Z) (b : integer_base) (i : Z) (cs : list Z) : list Z :=
  if has fl GROUP then grouped (group b) i cs else cs.

(** The characters of a conversion from right to left: digits, zeros up to the
    precision (63 characters at most), the zero of an octal number. *)
Definition reversed_text (b : integer_base) (c : printf_conversion) (ds : list Z) : list Z :=
  let cs := map (digit_char b) ds in
  let body := body_text (flags c) b 0 cs in
  let prec := if precision c <? 0 then 1 else precision c in
  let text := body ++ replicate (Z.to_nat (prec `min` 63) - length body) (chr "0") in
  if has (flags c) POUND && (base_ b =? 8) && negb (bool_decide (last text = Some (chr "0")))
  then text ++ [chr "0"] else text.

Definition sign_text (is_signed negative : bool) (fl : Z) : list Z :=
  if negb is_signed then [] else
  if negative then [chr "-"] else
  if has fl PLUS then [chr "+"] else if has fl SPACE then [chr " "] else [].

Definition prefix_text (b : integer_base) (fl value : Z) : list Z :=
  if has fl POUND && negb (value =? 0) && negb (x_char b =? 0) then [chr "0"; x_char b] else [].

Definition integer_text (value : Z) (is_signed negative : bool) (b : integer_base) (c : printf_conversion)
    (ds : list Z) : list Z :=
  let sign := sign_text is_signed negative (flags c) in
  let prefix := prefix_text b (flags c) value in
  let text := reverse (reversed_text b c ds) in
  let pad := Z.to_nat (width c - Z.of_nat (length (sign ++ prefix ++ text))) in
  (if has (flags c) (Z.lor MINUS ZERO) then [] else replicate pad (chr " "))
  ++ sign ++ prefix
  ++ (if has (flags c) ZERO then replicate pad (chr "0") else [])
  ++ text
  ++ (if has (flags c) MINUS then replicate pad (chr " ") else []).

Definition bases : list integer_base := [base_d; base_o; base_x; base_X].

Lemma bases_wf b : b ∈ bases -> 8 <= base_ b /\ Z.of_nat (length (digits b)) = base_ b.
Proof.
  unfold bases. intros Hb. repeat (apply elem_of_cons in Hb as [->|Hb]; [by vm_compute|]). by apply elem_of_nil in Hb.
Qed.

Lemma number_nonneg base ds : 0 <= base -> Forall (fun d => 0 <= d < base) ds -> 0 <= number base ds.
Proof. intros Hb. induction 1; cbn [number]; nia. Qed.

Lemma last_cons_ne (d : Z) ds : last (d :: ds) <> Some 0 -> ds = [] /\ d <> 0 \/ ds <> [] /\ last ds <> Some 0.
Proof. destruct ds as [|d' ds]; simpl; [left|right]; naive_solver. Qed.

Lemma numeral_bound base ds :
  8 <= base -> Forall (fun d => 0 <= d < base) ds -> last ds <> Some 0 -> ds <> [] ->
  8 ^ Z.of_nat (length ds) <= 8 * number base ds.
Proof.
  intros Hb Hds. induction Hds as [|d ds Hd Hds IH]; [done|]. intros Hl _. cbn [length number].
  rewrite Nat2Z.inj_succ, Z.pow_succ_r by lia.
  destruct (last_cons_ne _ _ Hl) as [[-> Hd0]|[Hne Hl']]; [cbn; lia|].
  specialize (IH Hl' Hne). nia.
Qed.

Lemma numeral_length base ds value :
  8 <= base -> numeral base value ds -> value < 18446744073709551616 -> (length ds <= 22)%nat.
Proof.
  intros Hb (Hds & Hl & Hv) Hval. destruct (decide (ds = [])) as [->|Hne]; [simpl; lia|].
  pose proof (numeral_bound base ds Hb Hds Hl Hne) as H. rewrite Hv in H.
  destruct (decide (length ds <= 22)%nat); [done|].
  assert (8 ^ 23 <= 8 ^ Z.of_nat (length ds)) by (apply Z.pow_le_mono_r; lia).
  change (8 ^ 23) with 590295810358705651712 in *. lia.
Qed.

Lemma numeral_cons base value d ds :
  8 <= base -> numeral base value (d :: ds) ->
  0 < value /\ value mod base = d /\ numeral base (value / base) ds /\ 0 <= d < base.
Proof.
  intros Hb (Hds & Hl & Hv). apply Forall_cons in Hds as [Hd Hds]. cbn [number] in Hv.
  pose proof (number_nonneg base ds ltac:(lia) Hds) as Hn.
  assert (Hq : value / base = number base ds) by (symmetry; apply Z.div_unique with d; lia).
  assert (Hr : value mod base = d) by (symmetry; apply Z.mod_unique with (number base ds); lia).
  destruct (last_cons_ne _ _ Hl) as [[-> Hd0]|[Hne Hl']]; split_and!; try done; try (simpl in *; lia).
  pose proof (numeral_bound base ds Hb Hds Hl' Hne). pose proof (Z.pow_pos_nonneg 8 (Z.of_nat (length ds))). nia.
Qed.

(** Every number has one numeral. *)
Lemma numeral_exists base : 2 <= base -> forall n value, 0 <= value < base ^ Z.of_nat n -> exists ds, numeral base value ds.
Proof.
  intros Hb. induction n as [|n IH]; intros value Hv.
  - exists []. unfold numeral. split_and!; [done..|]. simpl in *. lia.
  - destruct (decide (value = 0)) as [->|Hne]; [by exists []|].
    rewrite Nat2Z.inj_succ, Z.pow_succ_r in Hv by lia.
    destruct (IH (value / base)) as (ds & Hds & Hl & Hn).
    { split; [apply Z.div_pos; lia|]. apply Z.div_lt_upper_bound; lia. }
    pose proof (Z.mod_pos_bound value base ltac:(lia)). pose proof (Z.div_mod value base ltac:(lia)).
    exists (value mod base :: ds). unfold numeral. split_and!; [by constructor| |cbn [number]; lia].
    destruct ds as [|d ds]; [simpl in *; intros [=]; lia|done].
Qed.

Lemma numeral_unique base value ds ds' : 8 <= base -> numeral base value ds -> numeral base value ds' -> ds = ds'.
Proof.
  intros Hb. revert value ds'. induction ds as [|d ds IH]; intros value [|d' ds'] H H'; [done|..].
  - destruct (numeral_cons _ _ _ _ Hb H') as (Hpos & _). destruct H as (_ & _ & <-). simpl in Hpos. lia.
  - destruct (numeral_cons _ _ _ _ Hb H) as (Hpos & _). destruct H' as (_ & _ & <-). simpl in Hpos. lia.
  - destruct (numeral_cons _ _ _ _ Hb H) as (_ & <- & Hq & _). destruct (numeral_cons _ _ _ _ Hb H') as (_ & <- & Hq' & _).
    f_equal. by apply (IH (value / base)).
Qed.

Lemma grouped_length g i cs : (length (grouped g i cs) <= 2 * length cs)%nat.
Proof.
  revert i. induction cs as [|c cs IH]; intros i; cbn [grouped length]; [lia|]. specialize (IH (i + 1)).
  rewrite length_app. destruct (_ && _); cbn [length]; lia.
Qed.

Lemma body_text_length fl b ds : (length (body_text fl b 0 (map (digit_char b) ds)) <= 2 * length ds)%nat.
Proof.
  unfold body_text. pose proof (grouped_length (group b) 0 (map (digit_char b) ds)) as Hg.
  rewrite length_map in Hg. destruct (has fl GROUP); rewrite ?length_map; lia.
Qed.

Lemma sign_text_length sg neg fl : (length (sign_text sg neg fl) <= 1)%nat.
Proof. unfold sign_text. destruct sg, neg, (has fl PLUS), (has fl SPACE); simpl; lia. Qed.

Lemma prefix_text_length b fl value : (length (prefix_text b fl value) <= 2)%nat.
Proof. unfold prefix_text. destruct (_ && _); simpl; lia. Qed.

Section Rendering.
Context {S : Type}.

Lemma push_char_ok (s : S) buf ch : Z.of_nat (length buf) < 64 -> push buf ch s = Ok (buf ++ [ch], s).
Proof. intros H. unfold push. by rewrite (proj2 (Z.ltb_lt _ _) H). Qed.

Lemma digit_loop_ok (s : S) fl b : b ∈ bases -> forall ds fuel value i buf,
  numeral (base_ b) value ds -> (length ds < fuel)%nat -> (length buf + 2 * length ds <= 64)%nat ->
  digit_loop fuel fl b value i buf s = Ok (buf ++ body_text fl b i (map (digit_char b) ds), s).
Proof.
  intros Hb. destruct (bases_wf b Hb) as [H8 Hlen].
  induction ds as [|d ds IH]; intros [|fuel] value i buf Hnum Hf Hroom; try (cbn [length] in *; lia).
  - destruct Hnum as (_ & _ & <-). unfold body_text. cbn. destruct (has fl GROUP); by rewrite app_nil_r.
  - destruct (numeral_cons _ _ _ _ H8 Hnum) as (Hpos & Hmod & Hnum' & Hd). cbn [digit_loop].
    rewrite (proj2 (Z.ltb_lt _ _) Hpos), Hmod. cbn [length map] in *.
    assert (HD : digits b !! Z.to_nat d = Some (digit_char b d)).
    { unfold digit_char. destruct (lookup_lt_is_Some_2 (digits b) (Z.to_nat d)) as [x ->]; [lia|done]. }
    set (comma := has fl GROUP && (0 <? i) && (i mod group b =? 0)).
    erewrite bind_ok; [|instantiate (2 := buf ++ if comma then [chr ","] else []); destruct comma;
      [apply push_char_ok; lia | rewrite app_nil_r; reflexivity]].
    cbv beta. rewrite HD. rewrite (bind_ok _ _ _ _ s) by done. cbv beta.
    erewrite bind_ok; [|apply push_char_ok; rewrite length_app; destruct comma; cbn [length]; lia]. cbv beta.
    rewrite IH; [|done|lia|rewrite !length_app; destruct comma; cbn [length]; lia].
    f_equal. f_equal. unfold body_text, comma. destruct (has fl GROUP); simpl.
    + by rewrite <- !app_assoc.
    + by rewrite app_nil_r, <- app_assoc.
Qed.

Lemma zero_loop_ok (s : S) prec : forall fuel buf,
  (64 - length buf < fuel)%nat -> (length buf <= 64)%nat ->
  zero_loop fuel prec buf s = Ok (buf ++ replicate (Z.to_nat (prec `min` 63) - length buf) (chr "0"), s).
Proof.
  induction fuel as [|fuel IH]; intros buf Hf Hl; [lia|]. cbn [zero_loop].
  destruct (Z.ltb_spec (Z.of_nat (length buf)) prec); destruct (Z.ltb_spec (Z.of_nat (length buf)) 63); cbn [andb];
    try (replace (_ - _)%nat with 0%nat by lia; simpl; by rewrite app_nil_r).
  rewrite (bind_ok _ _ _ _ _ (push_char_ok s buf (chr "0") ltac:(lia))). cbv beta.
  rewrite IH; rewrite ?length_app; cbn [length]; [|lia..].
  replace (Z.to_nat (prec `min` 63) - length buf)%nat
    with (Datatypes.S (Z.to_nat (prec `min` 63) - (length buf + 1)))%nat by lia.
  by rewrite replicate_S, <- app_assoc.
Qed.

End Rendering.

Section Emitting.
Context {S : Type} (output : Z -> M S unit).

(** The action M sends the characters CS. *)
Definition emits (m : M S unit) (cs : list Z) : Prop := forall s, m s = output_all output cs s.

Lemma emits_seq m k xs ys : emits m xs -> emits k ys -> emits (m;; k) (xs ++ ys).
Proof.
  intros Hm Hk s. unfold mbind, M_bind. rewrite Hm. clear Hm. revert s.
  induction xs as [|x xs IH]; intros s; [apply Hk|]. cbn [output_all app]. unfold mbind, M_bind.
  destruct (output x s) as [[[] s']|e]; [apply IH|done].
Qed.

Lemma emits_all cs : emits (output_all output cs) cs.
Proof. done. Qed.

Lemma emits_one c : emits (output c) [c].
Proof. intros s. cbn [output_all]. unfold mbind, M_bind. by destruct (output c s) as [[[] s']|]. Qed.

Lemma emits_none : emits (mret tt) [].
Proof. done. Qed.

Lemma emits_if (b : bool) m xs ys :
  (b = true -> emits m xs /\ ys = xs) -> (b = false -> ys = []) -> emits (if b then m else mret tt) ys.
Proof. destruct b; intros Ht Hf; [by destruct Ht as [H ->]|by rewrite Hf]. Qed.

Lemma emits_dup ch cnt : emits (output_dup output ch cnt) (replicate (Z.to_nat cnt) ch).
Proof.
  unfold output_dup. induction (Z.to_nat cnt) as [|n IH]; [done|]. intros s. cbn [output_dup_loop replicate output_all].
  unfold mbind, M_bind. by destruct (output ch s) as [[[] s']|]; [apply IH|].
Qed.

Lemma emits_sign (sg neg : bool) fl :
  let sign := if sg then if has fl PLUS then (if neg then chr "-" else chr "+")
              else if has fl SPACE then (if neg then chr "-" else chr " ") else if neg then chr "-" else 0 else 0 in
  emits (if negb (sign =? 0) then output sign else mret tt) (sign_text sg neg fl) /\
  (if sign =? 0 then 0 else 1) = Z.of_nat (length (sign_text sg neg fl)).
Proof.
  unfold sign_text.
  destruct sg, (has fl PLUS), (has fl SPACE), neg; (split; [first [apply emits_one|apply emits_none]|reflexivity]).
Qed.

Lemma emits_prefix b fl value :
  let x := if has fl POUND && negb (value =? 0) then x_char b else 0 in
  emits (if negb (x =? 0) then output (chr "0");; output x else mret tt) (prefix_text b fl value) /\
  (if x =? 0 then 0 else 2) = Z.of_nat (length (prefix_text b fl value)).
Proof.
  unfold prefix_text. destruct (has fl POUND && negb (value =? 0)); [|split; [apply emits_none|done]]. cbn zeta.
  destruct (x_char b =? 0); (split; [|done]); [apply emits_none|].
  apply (emits_seq _ _ [chr "0"] [x_char b]); apply emits_one.
Qed.

Lemma reversed_text_length b c ds :
  (length ds <= 22)%nat -> (length (reversed_text b c ds) <= 64)%nat.
Proof.
  intros Hds. unfold reversed_text. pose proof (body_text_length (flags c) b ds) as Hb.
  set (body := body_text _ _ _ _) in *. set (prec := if _ <? 0 then _ else _).
  assert ((length (body ++ replicate (Z.to_nat (prec `min` 63) - length body) (chr "0")) <= 63)%nat)
    by (rewrite length_app, length_replicate; lia).
  destruct (_ && _); rewrite ?length_app in *; cbn [length]; lia.
Qed.

(** The buffer of [format_integer], for whatever is done with it. *)
Lemma format_integer_buffer (k : list Z -> M S unit) (s : S) b c ds value :
  b ∈ bases -> 0 <= value < 18446744073709551616 -> numeral (base_ b) value ds ->
  (buf ← digit_loop 65 (flags c) b value 0 [];
   buf ← zero_loop 65 (if precision c <? 0 then 1 else precision c) buf;
   buf ← (if has (flags c) POUND && (base_ b =? 8) && negb (bool_decide (last buf = Some (chr "0")))
          then push buf (chr "0") else mret buf);
   k buf) s = k (reversed_text b c ds) s.
Proof.
  intros Hb Hv Hnum. destruct (bases_wf b Hb) as [H8 _].
  pose proof (numeral_length _ _ _ H8 Hnum ltac:(lia)) as Hl.
  rewrite (bind_ok _ _ _ _ _ (digit_loop_ok s (flags c) b Hb ds 65 value 0 [] Hnum ltac:(lia) ltac:(simpl; lia))).
  cbv beta. rewrite app_nil_l. pose proof (body_text_length (flags c) b ds) as Hbody.
  erewrite bind_ok; [cbv beta|apply zero_loop_ok; lia].
  unfold reversed_text. set (text := _ ++ replicate _ _). destruct (_ && _); [|done].
  apply bind_ok. apply push_char_ok. unfold text. rewrite length_app, length_replicate. lia.
Qed.

Lemma format_integer_text b c ds value sg neg :
  b ∈ bases -> 0 <= value < 18446744073709551616 -> numeral (base_ b) value ds -> 0 <= width c < 2147483648 ->
  emits (format_integer output value sg neg b c) (integer_text value sg neg b c ds).
Proof.
  intros Hb Hv Hnum Hw s. destruct (bases_wf b Hb) as [H8 _].
  pose proof (reversed_text_length b c ds (numeral_length _ _ _ H8 Hnum ltac:(lia))) as Hl.
  destruct (emits_sign sg neg (flags c)) as [Hsign Hsl]. destruct (emits_prefix b (flags c) value) as [Hpre Hpl].
  unfold format_integer. cbn zeta in *. rewrite (format_integer_buffer _ s b c ds value Hb Hv Hnum).
  cbv beta. rewrite Hsl, Hpl. pose proof (sign_text_length sg neg (flags c)). pose proof (prefix_text_length b (flags c) value).
  rewrite s32_small by lia.
  unfold integer_text. set (text := reversed_text b c ds) in *.
  set (sign := sign_text _ _ _) in *. set (pre := prefix_text _ _ _) in *.
  set (pad := if _ <? 0 then _ else _).
  replace (Z.to_nat (width c - _)) with (Z.to_nat pad)
    by (unfold pad; rewrite !length_app, length_reverse; destruct (Z.ltb_spec (width c - Z.of_nat (length text)
          - Z.of_nat (length pre) - Z.of_nat (length sign)) 0); lia).
  repeat apply emits_seq; try apply emits_all; try done.
  all: match goal with |- emits (if ?b then _ else _) (if ?b' then _ else _) => destruct b' end;
    try apply emits_dup; try apply emits_none.
Qed.

End Emitting.

(** ** Two runs with different callbacks

    [R] relates the states of two runs; [good] holds in every state from which
    a good state is reached.  A memory of the second run may have more
    bytes. *)
Section Simulation.
Context {S1 S2 : Type} (out1 : Z -> M S1 unit) (out2 : Z -> M S2 unit) (mem1 : S1 -> bytes) (mem2 : S2 -> bytes)
  (R : S1 -> S2 -> Prop) (good : S1 -> Prop) (null_string : Z).

Definition sim {A} (m1 : M S1 A) (m2 : M S2 A) : Prop := forall s1 a s1',
  m1 s1 = Ok (a, s1') -> good s1' ->
  good s1 /\ forall s2, R s1 s2 -> exists s2', m2 s2 = Ok (a, s2') /\ R s1' s2'.

Lemma sim_ret {A} (a : A) : sim (mret a) (mret a).
Proof. intros s1 a' s1' [= <- <-] Hg. split; [done|]. intros s2 HR. by exists s2. Qed.

Lemma sim_fail {A} e (m : M S2 A) : sim (fail e) m.
Proof. by intros s1 a s1'. Qed.

Lemma sim_bind {A B} (m1 : M S1 A) (m2 : M S2 A) (k1 : A -> M S1 B) (k2 : A -> M S2 B) :
  sim m1 m2 -> (forall a, sim (k1 a) (k2 a)) -> sim (m1 ≫= k1) (m2 ≫= k2).
Proof.
  intros Hm Hk s1 b s1'' Hrun Hg. apply bind_inv in Hrun as (a & s1' & H1 & H2).
  destruct (Hk a _ _ _ H2 Hg) as [Hg' Hk']. destruct (Hm _ _ _ H1 Hg') as [Hg1 Hm'].
  split; [done|]. intros s2 HR. destruct (Hm' s2 HR) as (s2' & E2 & HR').
  destruct (Hk' s2' HR') as (s2'' & E3 & HR''). exists s2''. split; [|done]. by rewrite (bind_ok _ _ _ _ _ E2).
Qed.

Lemma sim_if {A} (b : bool) (m1 m1' : M S1 A) (m2 m2' : M S2 A) :
  sim m1 m2 -> sim m1' m2' -> sim (if b then m1 else m1') (if b then m2 else m2').
Proof. by destruct b. Qed.

Create HintDb sim.
#[local] Hint Resolve sim_ret sim_fail sim_bind sim_if : sim.

Lemma sim_lift_opt {A} e (o : option A) : sim (lift_opt e o) (lift_opt e o).
Proof. destruct o; unfold lift_opt; auto with sim. Qed.

Lemma sim_peek format : sim (peek format) (peek format).
Proof. destruct format; unfold peek; auto with sim. Qed.

Lemma sim_va_word args : sim (va_word args) (va_word args).
Proof. destruct args; unfold va_word; auto with sim. Qed.

Lemma sim_va_dword args : sim (va_dword args) (va_dword args).
Proof. destruct args as [|? [|]]; unfold va_dword; auto with sim. Qed.

Lemma sim_push buf ch : sim (push buf ch) (push buf ch).
Proof. unfold push. auto with sim. Qed.

#[local] Hint Resolve sim_lift_opt sim_peek sim_va_word sim_va_dword sim_push : sim.

(** [simulate] follows the structure of two programs. *)
Ltac simulate := repeat (intros; first
  [ solve [auto with sim] | apply sim_bind | apply sim_if
  | match goal with |- context [let '(_, _) := ?x in _] => destruct x eqn:?; cbv iota beta end ]).

Lemma sim_digit_loop fl b fuel : forall value cnt buf,
  sim (digit_loop fuel fl b value cnt buf) (digit_loop fuel fl b value cnt buf).
Proof. induction fuel; cbn [digit_loop]; simulate. Qed.

Lemma sim_zero_loop prec fuel : forall buf, sim (zero_loop fuel prec buf) (zero_loop fuel prec buf).
Proof. induction fuel; cbn [zero_loop]; simulate. Qed.

Lemma sim_parse_number format args : sim (parse_number format args) (parse_number format args).
Proof. unfold parse_number. simulate. Qed.

Lemma sim_parse_type format : sim (parse_type format) (parse_type format).
Proof. unfold parse_type. simulate. Qed.

#[local] Hint Resolve sim_digit_loop sim_zero_loop sim_parse_number sim_parse_type : sim.

Lemma sim_parse_conversion format args : sim (parse_conversion format args) (parse_conversion format args).
Proof. unfold parse_conversion. simulate. Qed.

Lemma sim_signed_arg t args : sim (signed_arg t args) (signed_arg t args).
Proof. destruct t; unfold signed_arg; simulate. Qed.

Lemma sim_unsigned_arg t args : sim (unsigned_arg t args) (unsigned_arg t args).
Proof. destruct t; unfold unsigned_arg; simulate. Qed.

#[local] Hint Resolve sim_parse_conversion sim_signed_arg sim_unsigned_arg : sim.

Context (Hout : forall ch, sim (out1 ch) (out2 ch)) (Hmem : forall s1 s2, R s1 s2 -> mem1 s1 ⊆ mem2 s2).
#[local] Hint Resolve Hout : sim.

Lemma sim_output_dup ch cnt : sim (output_dup out1 ch cnt) (output_dup out2 ch cnt).
Proof using Hout. unfold output_dup. induction (Z.to_nat cnt); cbn [output_dup_loop]; simulate. Qed.

Lemma sim_output_all cs : sim (output_all out1 cs) (output_all out2 cs).
Proof using Hout. induction cs; cbn [output_all]; simulate. Qed.

#[local] Hint Resolve sim_output_dup sim_output_all : sim.

Lemma sim_format_integer value sg neg b c :
  sim (format_integer out1 value sg neg b c) (format_integer out2 value sg neg b c).
Proof using Hout. unfold format_integer. cbn zeta. simulate. Qed.

Lemma sim_output_string (str1 : Z -> M S1 Z) (str2 : Z -> M S2 Z) n :
  (forall i, sim (str1 i) (str2 i)) -> forall i, sim (output_string out1 str1 n i) (output_string out2 str2 n i).
Proof using Hout. intros Hs. induction n; cbn [output_string]; simulate. Qed.

#[local] Hint Resolve sim_format_integer sim_output_string : sim.

Lemma sim_format_string (str1 : Z -> M S1 Z) (str2 : Z -> M S2 Z) n c :
  (forall i, sim (str1 i) (str2 i)) -> sim (format_string out1 str1 n c) (format_string out2 str2 n c).
Proof using Hout. intros Hs. unfold format_string. simulate. Qed.

(** A read that succeeds gives the same in a larger memory. *)
Definition monotone {A} (c : B A) : Prop := forall m m' a mx,
  m ⊆ m' -> c m = Ok (a, mx) -> mx = m /\ c m' = Ok (a, m').

Lemma load_monotone p : monotone (load p).
Proof.
  intros m m' a mx Hs. unfold load. destruct (m !! p) as [b|] eqn:E; intros [= <- <-].
  by rewrite (lookup_weaken _ _ _ _ E Hs).
Qed.

Lemma strnlen_loop_monotone fuel p n : forall i, monotone (strnlen_loop fuel p n i).
Proof.
  induction fuel as [|fuel IH]; intros i m m' a mx Hs Hrun; [done|]. cbn [strnlen_loop] in *.
  apply bind_inv in Hrun as (x & m1 & H1 & H2). destruct (load_monotone _ _ _ _ _ Hs H1) as [-> H1'].
  rewrite (bind_ok _ _ _ _ _ H1'). destruct (_ && _); [by apply (IH _ m)|]. by injection H2 as <- <-.
Qed.

Lemma sim_reading {A} (c : B A) : monotone c -> sim (reading mem1 c) (reading mem2 c).
Proof using Hmem.
  intros Hc s1 a s1' Hrun Hg. unfold reading in *. destruct (c (mem1 s1)) as [[x mx]|] eqn:E; [|done].
  injection Hrun as <- <-. split; [done|]. intros s2 HR. exists s2.
  by destruct (Hc _ _ _ _ (Hmem _ _ HR) E) as [_ ->].
Qed.

#[local] Hint Resolve sim_format_string sim_reading load_monotone strnlen_loop_monotone : sim.
#[local] Hint Extern 1 (monotone (strnlen _ _ _)) => unfold strnlen : sim.

Lemma sim_convert vp1 vp2 fuel k c args :
  (forall format args, sim (vp1 format args) (vp2 format args)) ->
  sim (convert out1 mem1 null_string vp1 fuel k c args) (convert out2 mem2 null_string vp2 fuel k c args).
Proof using Hout Hmem.
  intros Hvp. unfold convert. cbn zeta. simulate.
Qed.

Lemma vprintf_sim fuel : forall format args,
  sim (vprintf out1 mem1 null_string fuel format args) (vprintf out2 mem2 null_string fuel format args).
Proof using Hout Hmem.
  induction fuel as [|fuel IH]; intros format args; cbn [vprintf]; [apply sim_fail|].
  pose proof sim_convert. simulate.
Qed.

End Simulation.

(** ** Steps of the loop *)
Section Steps.
Context {S : Type} (out : Z -> M S unit) (mem : S -> bytes) (null_string : Z).

Lemma vprintf_char fuel c format args s :
  c <> 0 -> c <> chr "%" ->
  vprintf out mem null_string (Datatypes.S fuel) (c :: format) args s
  = (out c;; vprintf out mem null_string fuel format args) s.
Proof. intros H0 Hp. cbn [vprintf peek]. rewrite bind_ret. by rewrite (proj2 (Z.eqb_neq _ _) H0), (proj2 (Z.eqb_neq _ _) Hp). Qed.

Lemma vprintf_end fuel format args s : vprintf out mem null_string (Datatypes.S fuel) (0 :: format) args s = Ok (tt, s).
Proof. done. Qed.

Lemma vprintf_conversion fuel c format args conv k format' args' s :
  c <> chr "%" -> parse_conversion (c :: format) args s = Ok ((conv, k :: format', args'), s) ->
  vprintf out mem null_string (Datatypes.S fuel) (chr "%" :: c :: format) args s
  = (args'' ← convert out mem null_string (vprintf out mem null_string fuel) fuel k conv args';
     vprintf out mem null_string fuel format' args'') s.
Proof.
  intros Hc Hparse. cbn [vprintf peek]. rewrite bind_ret.
  change (chr "%" =? 0) with false. change (negb (chr "%" =? chr "%")) with false. cbv iota. cbn [tail peek]. rewrite bind_ret.
  rewrite (proj2 (Z.eqb_neq _ _) Hc). by rewrite (bind_ok _ _ _ _ _ Hparse).
Qed.

(** A decimal conversion sends the text of its argument. *)
Lemma convert_d vp fuel conv w args ds s :
  type conv = INT -> 0 <= width conv < 2147483648 -> numeral 10 (Z.abs (s32 w)) ds ->
  convert out mem null_string vp fuel (chr "d") conv (w :: args) s
  = (output_all out (integer_text (Z.abs (s32 w)) true (s32 w <? 0) base_d conv ds);; mret args) s.
Proof.
  intros Ht Hw Hds. unfold convert. cbn [signed_arg]. rewrite Ht.
  assert (Hr : -2147483648 <= s32 w < 2147483648)
    by (unfold s32; pose proof (Z.mod_pos_bound (w + 2147483648) 4294967296 ltac:(done)); lia).
  change ((chr "d" =? chr "d") || (chr "d" =? chr "i")) with true. cbv iota.
  rewrite (bind_ok _ _ _ (s32 w, args) s) by done. cbn [fst snd].
  replace (u64 (if s32 w <? 0 then - s32 w else s32 w)) with (Z.abs (s32 w)).
  2: { rewrite u64_small; destruct (Z.ltb_spec (s32 w) 0); lia. }
  unfold mbind, M_bind. rewrite (format_integer_text out base_d conv ds _ true (s32 w <? 0)); [done|..|done|done].
  - apply elem_of_cons. by left.
  - lia.
Qed.

End Steps.

Lemma output_all_putchar cs : forall m w, output_all putchar cs (m, w) = Ok (tt, (m, w ++ map u8 cs)).
Proof.
  induction cs as [|c cs IH]; intros m w; cbn [output_all map]; [by rewrite app_nil_r|].
  rewrite (bind_ok _ _ _ tt (m, w ++ [u8 c])) by done. cbv beta. rewrite IH. by rewrite <- app_assoc.
Qed.

(** ** Numbers read back *)

Definition decimal (ds : list Z) : list Z := match ds with [] => [chr "0"] | _ => reverse (map (fun d => d + 48) ds) end.

Lemma digit_char_d d : 0 <= d < 10 -> digit_char base_d d = d + 48.
Proof.
  intros Hd. assert (exists i, d = Z.of_nat i /\ (i < 10)%nat) as (i & -> & Hi) by (exists (Z.to_nat d); lia).
  do 10 (destruct i as [|i]; [done|]). lia.
Qed.

Lemma map_u8_bytes bs : Forall is_byte bs -> map u8 bs = bs.
Proof. induction 1 as [|b bs Hb _ IH]; cbn [map]; [done|]. rewrite IH. f_equal. by apply Z.mod_small. Qed.

Lemma reversed_text_d c ds :
  Forall (fun d => 0 <= d < 10) ds -> has (flags c) POUND = false -> has (flags c) GROUP = false -> precision c = -1 ->
  reverse (reversed_text base_d c ds) = decimal ds.
Proof.
  intros Hds Hp Hg Hprec.
  assert (Hcs : map (digit_char base_d) ds = map (fun d => d + 48) ds).
  { apply map_ext_Forall. apply (Forall_impl _ _ _ Hds). intros d Hd. by apply digit_char_d. }
  unfold reversed_text, body_text. rewrite Hp, Hg, Hprec, Hcs. cbn [andb]. change (-1 <? 0) with true. cbv iota.
  destruct ds as [|d ds]; [done|]. cbn [map length]. change (Z.to_nat (1 `min` 63)) with 1%nat.
  cbn [Nat.sub replicate]. by rewrite app_nil_r.
Qed.

Lemma decimal_bytes ds : Forall (fun d => 0 <= d < 10) ds -> Forall is_byte (decimal ds).
Proof.
  intros Hds. unfold decimal. destruct ds as [|d ds]; [by repeat constructor|].
  apply Forall_reverse, Forall_map. apply (Forall_impl _ _ _ Hds). intros x Hx. unfold is_byte. lia.
Qed.

(** The text of "%d". *)
Lemma integer_text_plain v ds :
  numeral 10 (Z.abs v) ds ->
  map u8 (integer_text (Z.abs v) true (v <? 0) base_d (Conversion 0 0 (-1) INT) ds)
  = (if v <? 0 then [chr "-"] else []) ++ decimal ds.
Proof.
  intros (Hds & _ & _). unfold integer_text. rewrite reversed_text_d by done. cbn [width flags].
  replace (Z.to_nat (0 - _)) with 0%nat by lia.
  change (has 0 (Z.lor MINUS ZERO)) with false. change (has 0 ZERO) with false. change (has 0 MINUS) with false.
  change (prefix_text base_d 0 (Z.abs v)) with (@nil Z). cbv iota. cbn [replicate app]. rewrite app_nil_r, map_app.
  rewrite (map_u8_bytes _ (decimal_bytes ds Hds)). f_equal. unfold sign_text. by destruct (v <? 0).
Qed.

(** What [atoi] accumulates. *)
Definition atoi_value (acc : Z) (ms : list Z) : Z := foldl (fun a d => a * 10 - d) acc ms.

Lemma atoi_value_le ms : forall acc, acc <= 0 -> Forall (fun d => 0 <= d < 10) ms -> atoi_value acc ms <= acc.
Proof.
  induction ms as [|d ms IH]; intros acc Ha Hms; [done|]. apply Forall_cons in Hms as [Hd Hms].
  change (atoi_value acc (d :: ms)) with (atoi_value (acc * 10 - d) ms). specialize (IH (acc * 10 - d) ltac:(lia) Hms). lia.
Qed.

Lemma atoi_value_number ds : atoi_value 0 (reverse ds) = - number 10 ds.
Proof.
  unfold atoi_value. induction ds as [|d ds IH]; [done|]. rewrite reverse_cons, foldl_app. cbn [foldl number]. lia.
Qed.

Lemma atoi_digits_ok (m : bytes) ms : forall p acc fuel,
  bytes_at m p (map (fun d => d + 48) ms ++ [0]) -> Forall (fun d => 0 <= d < 10) ms -> acc <= 0 ->
  -2147483648 <= atoi_value acc ms -> (length ms < fuel)%nat ->
  atoi_digits fuel p acc m = Ok (atoi_value acc ms, m).
Proof.
  induction ms as [|d ms IH]; intros p acc [|fuel] Hm Hms Hacc Hv Hf; cbn [length] in *; try lia; cbn [atoi_digits].
  - destruct Hm as [Hm _]. by rewrite (bind_ok _ _ _ _ _ (load_ok _ _ _ Hm)).
  - destruct Hm as [Hm Hrest]. apply Forall_cons in Hms as [Hd Hms].
    rewrite (bind_ok _ _ _ _ _ (load_ok _ _ _ Hm)). cbv beta.
    replace (isdigit (d + 48)) with true by (unfold isdigit; symmetry; apply andb_true_intro; split; apply Z.leb_le; lia).
    change (atoi_value acc (d :: ms)) with (atoi_value (acc * 10 - d) ms) in *.
    pose proof (atoi_value_le ms (acc * 10 - d) ltac:(lia) Hms).
    replace (s32 (acc * 10 - (d + 48 - 48))) with (acc * 10 - d) by (rewrite s32_small; lia).
    apply IH; try done; lia.
Qed.

(** ** Strings *)

Lemma strnlen_loop_ok (m : bytes) p s : forall i fuel maxlen,
  cstr m (p + i) s -> i + Z.of_nat (length s) < maxlen -> (length s < fuel)%nat ->
  strnlen_loop fuel p maxlen i m = Ok (i + Z.of_nat (length s), m).
Proof.
  induction s as [|c s IH]; intros i [|fuel] maxlen Hm Hl Hf; cbn [length] in *; try lia; cbn [strnlen_loop].
  - apply cstr_nil in Hm. mstep (load_ok m _ 0 Hm). cbn. by rewrite Z.add_0_r.
  - apply cstr_cons in Hm as (Hc & Hr & Hs). mstep (load_ok m _ c Hc).
    rewrite (proj2 (Z.eqb_neq c 0)) by lia. rewrite (proj2 (Z.ltb_lt i maxlen)) by lia. cbn [negb andb].
    rewrite IH; [f_equal; f_equal; lia| |lia|lia]. by replace (p + (i + 1)) with (p + i + 1) by lia.
Qed.

Lemma output_string_ok (m : bytes) p s : forall i w,
  cstr m (p + i) s ->
  output_string putchar (fun i => reading fst (load (p + i))) (length s) i (m, w) = Ok (tt, (m, w ++ s)).
Proof.
  induction s as [|c s IH]; intros i w Hm; cbn [length output_string]; [by rewrite app_nil_r|].
  apply cstr_cons in Hm as (Hc & Hr & Hs).
  rewrite (bind_ok _ _ _ c (m, w)) by (unfold reading; cbn [fst]; by rewrite (load_ok m _ c Hc)). cbv beta.
  rewrite (bind_ok _ _ _ tt (m, w ++ [c])) by (unfold putchar, u8; cbn [fst snd]; by rewrite Z.mod_small by lia). cbv beta.
  rewrite IH by (by replace (p + (i + 1)) with (p + i + 1) by lia). by rewrite <- app_assoc.
Qed.

Lemma convert_s (m : bytes) w null_string vp fuel p s args :
  p <> NULL -> cstr m p s -> (length s < fuel)%nat -> Z.of_nat (length s) < 2147483648 ->
  convert putchar fst null_string vp fuel (chr "s") (Conversion 0 0 (-1) INT) (p :: args) (m, w) = Ok (args, (m, w ++ s)).
Proof.
  intros Hp Hm Hf Hl. unfold convert.
  change ((chr "s" =? chr "d") || (chr "s" =? chr "i")) with false.
  change ((chr "s" =? chr "o") || (chr "s" =? chr "u") || (chr "s" =? chr "x") || (chr "s" =? chr "X")) with false.
  change (chr "s" =? chr "c") with false. change (chr "s" =? chr "s") with true. cbv iota.
  rewrite (bind_ok _ _ _ (p, args) (m, w)) by done. cbn [fst snd]. rewrite (proj2 (Z.eqb_neq p NULL) Hp). cbv zeta.
  assert (Hn : strnlen fuel p (u32 (precision (Conversion 0 0 (-1) INT))) m = Ok (Z.of_nat (length s), m)).
  { unfold strnlen. change (u32 (precision (Conversion 0 0 (-1) INT))) with 4294967295.
    rewrite (strnlen_loop_ok m p s 0); [done|by rewrite Z.add_0_r|lia|lia]. }
  rewrite (bind_ok _ _ _ (Z.of_nat (length s)) (m, w)) by (unfold reading; cbn [fst]; by rewrite Hn). cbv beta.
  rewrite s32_small by lia. unfold format_string. cbn [width flags].
  rewrite (proj2 (Z.ltb_ge (Z.of_nat (length s)) 0)) by lia. cbn [andb]. rewrite !bind_assoc, bind_ret. rewrite Nat2Z.id.
  rewrite bind_assoc. erewrite bind_ok; [|apply output_string_ok; by rewrite Z.add_0_r]. done.
Qed.
