(* ===== verification/StdioProps.v ===== *)
(** * Formatted output: the properties

    [vsnprintf] stores what [printf] would print, cut to the buffer; integers
    are rendered as their numerals; [atoi] reads back what ["%d"] wrote; and
    two inputs on which the code does not do what it means to. *)

From Stdlib Require Import Strings.Ascii Strings.String.
From S2P Require Import Prelude ListModel Bytes CString CStringRep StdLib Stdio StdioThms.

Section Buffer.
Context (m m0 : bytes) (buffer size : Z).

(** What the buffer holds when the output so far is [w]. *)
Definition max_length : Z := if 0 <? size then size - 1 else 0.
Definition stored (w : list Z) : list Z := take (Z.to_nat max_length) w.

Definition buffer_rel (s1 : console) (s2 : bytes * vsnprintf_aux) : Prop :=
  s1.1 = m0 /\ Forall is_byte s1.2 /\
  s2 = (write m buffer (stored s1.2),
        Aux (buffer + Z.of_nat (length (stored s1.2))) (Z.of_nat (length s1.2)) max_length).

Definition short_output (s1 : console) : Prop := Z.of_nat (length s1.2) < 2147483648.

Context (Hsize : 0 <= size <= 2147483648)
  (Hbuf : forall a, buffer <= a < buffer + size -> is_Some (m !! a) /\ m0 !! a = None) (Hsub : m0 ⊆ m).

Lemma max_length_range : 0 <= max_length /\ (max_length < size \/ max_length = 0).
Proof using Hsize. unfold max_length. destruct (Z.ltb_spec 0 size); lia. Qed.

Lemma stored_length w : Z.of_nat (length (stored w)) = Z.min max_length (Z.of_nat (length w)).
Proof using Hsize. pose proof max_length_range. unfold stored. rewrite length_take. lia. Qed.

Lemma buffer_helper ch : sim buffer_rel short_output (putchar ch) (vsnprintf_helper ch).
Proof using Hsize Hbuf.
  intros [mx w] [] s1' [= <-] Hg. unfold short_output in *. cbn [fst snd] in *. rewrite length_app in Hg. cbn [length] in Hg.
  split; [lia|]. intros s2 (Hm0 & Hw & ->). cbn [fst snd] in *. subst mx. pose proof max_length_range as Hmax.
  unfold vsnprintf_helper. cbn [aux_length aux_max_length aux_p].
  assert (Hb : Forall is_byte (w ++ [u8 ch])).
  { apply Forall_app. split; [done|]. constructor; [apply Z.mod_pos_bound; lia|done]. }
  rewrite s32_small by lia. pose proof (stored_length w) as Hsl.
  destruct (Z.ltb_spec (Z.of_nat (length w)) max_length) as [Hlt|Hge].
  - assert (Hst : stored w = w) by (unfold stored; rewrite take_ge; [done|lia]).
    assert (Hst' : stored (w ++ [u8 ch]) = w ++ [u8 ch])
      by (unfold stored; rewrite take_ge; [done|rewrite length_app; cbn [length]; lia]).
    rewrite Hst in *. unfold store. rewrite write_out by lia.
    destruct (Hbuf (buffer + Z.of_nat (length w))) as [[old ->] _]; [lia|].
    eexists. split; [reflexivity|]. unfold buffer_rel. cbn [fst snd]. rewrite Hst'. split_and!; [done..|].
    rewrite write_app, length_app. cbn [length write]. f_equal. f_equal; lia.
  - assert (Hst : stored (w ++ [u8 ch]) = stored w) by (unfold stored; rewrite take_app_le; [done|lia]).
    eexists. split; [reflexivity|]. unfold buffer_rel. cbn [fst snd]. rewrite Hst. split_and!; [done..|].
    f_equal. rewrite length_app. cbn [length]. f_equal. lia.
Qed.

Lemma buffer_memory s1 s2 : buffer_rel s1 s2 -> s1.1 ⊆ s2.1.
Proof using Hsize Hbuf Hsub.
  intros (-> & _ & ->). cbn [fst]. apply map_subseteq_spec. intros a x Hx. pose proof (stored_length s1.2).
  pose proof max_length_range. rewrite write_out; [by apply (lookup_weaken m0)|].
  destruct (decide (buffer <= a < buffer + size)) as [Ha|Ha]; [destruct (Hbuf a Ha); congruence|]. lia.
Qed.

Lemma vsnprintf_run fuel null_string format args m1 w :
  printf fuel null_string format args (m0, []) = Ok (tt, (m1, w)) -> Z.of_nat (length w) < 2147483648 ->
  vsnprintf fuel null_string buffer size format args m
  = Ok (Z.of_nat (length w), write m buffer (if 0 <? size then stored w ++ [0] else [])).
Proof using Hsize Hbuf Hsub.
  intros Hrun Hw. pose proof max_length_range as Hmax. unfold printf in Hrun.
  destruct (vprintf_sim putchar vsnprintf_helper fst fst buffer_rel short_output null_string
              buffer_helper buffer_memory fuel format args _ _ _ Hrun Hw) as [_ Hsim].
  destruct (Hsim (m, Aux buffer 0 max_length)) as ([m' aux] & E & Hm1 & Hb & Heq).
  { split_and!; [done..|]. cbn [snd]. unfold stored. rewrite take_nil. cbn [write length]. f_equal. f_equal. lia. }
  cbn [fst snd] in *. unfold vsnprintf. cbn zeta.
  replace (s32 (if 0 <? size then size - 1 else 0)) with max_length
    by (unfold max_length; rewrite s32_small; [done|destruct (Z.ltb_spec 0 size); lia]).
  rewrite E. injection Heq as -> ->. cbn [aux_p aux_length].
  pose proof (stored_length w) as Hsl. destruct (Z.ltb_spec 0 size) as [Hpos|Hz].
  - unfold store. rewrite write_out by lia. destruct (Hbuf (buffer + Z.of_nat (length (stored w)))) as [[old ->] _].
    { unfold max_length in *. destruct (Z.ltb_spec 0 size); lia. }
    by rewrite write_app.
  - replace (stored w) with (@nil Z); [done|]. unfold stored, max_length. destruct (Z.ltb_spec 0 size); [lia|done].
Qed.

End Buffer.

(** C13: [vsnprintf] stores what the console would show: when [printf] prints
    the characters W, it writes the first SIZE - 1 of them and a null
    character to the buffer, changes nothing else and returns the length of
    W, also when the buffer is too short; a size of zero writes nothing.  The
    strings that the format names are outside the buffer. *)
Theorem vsnprintf_correct fuel null_string format args m m0 m1 buffer size w :
  0 <= size <= 2147483648 ->
  (forall a, buffer <= a < buffer + size -> is_Some (m !! a) /\ m0 !! a = None) -> m0 ⊆ m ->
  printf fuel null_string format args (m0, []) = Ok (tt, (m1, w)) -> Z.of_nat (length w) < 2147483648 ->
  exists m', vsnprintf fuel null_string buffer size format args m = Ok (Z.of_nat (length w), m') /\
    m' = write m buffer (if 0 <? size then take (Z.to_nat (size - 1)) w ++ [0] else []) /\
    same_but buffer size m m'.
Proof.
  intros Hsize Hbuf Hsub Hrun Hw. eexists. split; [by apply (vsnprintf_run m m0 buffer size Hsize Hbuf Hsub _ _ _ _ m1)|].
  unfold stored, max_length. destruct (Z.ltb_spec 0 size); (split; [done|]); intros a Ha; [|done].
  apply write_out. rewrite length_app, length_take. cbn [length]. lia.
Qed.

(** The string "Pintos" and a buffer of 12 bytes behind it. *)
Definition some_memory : bytes := write ∅ 100 (lit "Pintos" ++ [0]).
Definition some_buffer : bytes := write some_memory 200 (replicate 12 255).

Lemma vsnprintf_correct_witness :
  exists m', vsnprintf 50 0 200 12 (cstring "%-7s|%05d|%#x") [100; 4294967254; 255] some_buffer = Ok (18, m') /\
    m' = write some_buffer 200 (lit "Pintos |-00" ++ [0]) /\ same_but 200 12 some_buffer m'.
Proof.
  apply (vsnprintf_correct 50 0 (cstring "%-7s|%05d|%#x") [100; 4294967254; 255] some_buffer some_memory some_memory
           200 12 (lit "Pintos |-0042|0xff")); [done| | |by vm_compute|done].
  - intros a Ha. destruct (decide (a = 200)) as [->|]; [by vm_compute; eauto|].
    assert (exists i, a = 201 + Z.of_nat i /\ (i < 11)%nat) as (i & -> & Hi) by (exists (Z.to_nat (a - 201)); lia).
    do 11 (destruct i as [|i]; [vm_compute; split; [by eexists|done]|]). lia.
  - apply map_subseteq_spec. intros a x Hx. unfold some_buffer. rewrite write_out; [done|].
    unfold some_memory in Hx. rewrite length_replicate. destruct (decide (a < 107)) as [|Hge]; [lia|].
    rewrite write_out in Hx by (simpl; lia). by rewrite lookup_empty in Hx.
Defined.

(** ** Integers *)

(** C35: Integer conversions are right for every base, flag, width and precision:
    the characters sent to the output, whatever it is, are the padding, the
    sign, the prefix, the zeros and the digits that [integer_text] names, with
    the digits of the one numeral of the value; the buffer of 64 characters is
    never exceeded. *)
Theorem format_integer_correct {S} (output : Z -> M S unit) b c value is_signed negative :
  b ∈ bases -> 0 <= value < 18446744073709551616 -> 0 <= width c < 2147483648 ->
  exists ds, numeral (base_ b) value ds /\ (forall ds', numeral (base_ b) value ds' -> ds' = ds) /\
    (length (reversed_text b c ds) <= 64)%nat /\
    forall s, format_integer output value is_signed negative b c s
            = output_all output (integer_text value is_signed negative b c ds) s.
Proof.
  intros Hb Hv Hw. destruct (bases_wf b Hb) as [H8 _].
  destruct (numeral_exists (base_ b) ltac:(lia) 64 value) as [ds Hds].
  { split; [lia|]. apply Z.lt_le_trans with 18446744073709551616; [lia|].
    apply Z.le_trans with (8 ^ 64); [done|]. apply Z.pow_le_mono_l. lia. }
  exists ds. split; [done|]. split; [intros ds' Hds'; by apply (numeral_unique (base_ b) value)|].
  split; [|by apply format_integer_text].
  apply reversed_text_length. apply (numeral_length (base_ b) ds value); [done..|lia].
Qed.

Lemma format_integer_correct_witness :
  exists ds, numeral 10 1234567 ds /\ (forall ds', numeral 10 1234567 ds' -> ds' = ds) /\
    (length (reversed_text base_d (Conversion GROUP 12 (-1) INT) ds) <= 64)%nat /\
    forall s, format_integer putchar 1234567 true true base_d (Conversion GROUP 12 (-1) INT) s
            = output_all putchar (integer_text 1234567 true true base_d (Conversion GROUP 12 (-1) INT) ds) s.
Proof.
  apply (format_integer_correct putchar base_d (Conversion GROUP 12 (-1) INT) 1234567 true true); [|done..].
  apply elem_of_cons. by left.
Defined.

Example integer_text_grouped :
  integer_text 1234567 true true base_d (Conversion GROUP 12 (-1) INT) [7; 6; 5; 4; 3; 2; 1] = lit "  -1,234,567".
Proof. reflexivity. Qed.

(** ** Numbers written and read back *)

Lemma abs_numeral v : -2147483648 <= v < 2147483648 -> exists ds, numeral 10 (Z.abs v) ds /\ (length ds <= 10)%nat.
Proof.
  intros Hv. destruct (numeral_exists 10 ltac:(lia) 10 (Z.abs v)) as [ds Hds].
  { change (10 ^ Z.of_nat 10) with 10000000000. lia. }
  exists ds. split; [done|]. destruct (decide (ds = [])) as [->|Hne]; [simpl; lia|].
  destruct Hds as (Hd & Hl & Hn). clear -Hd Hl Hn Hne Hv.
  assert (Hb : 10 ^ Z.of_nat (length ds) <= 10 * number 10 ds).
  { clear Hn. induction Hd as [|d ds Hd Hds IH]; [done|]. cbn [length number]. rewrite Nat2Z.inj_succ, Z.pow_succ_r by lia.
    destruct (last_cons_ne _ _ Hl) as [[-> Hd0]|[Hne' Hl']]; [simpl; lia|]. specialize (IH Hl' Hne'). lia. }
  destruct (decide (length ds <= 10)%nat); [done|].
  assert (10 ^ 11 <= 10 ^ Z.of_nat (length ds)) by (apply Z.pow_le_mono_r; lia).
  change (10 ^ 11) with 100000000000 in *. lia.
Qed.

Lemma printf_d_ok fuel null_string v m0 ds :
  -2147483648 <= v < 2147483648 -> numeral 10 (Z.abs v) ds -> (2 <= fuel)%nat ->
  printf fuel null_string (cstring "%d") [u32 v] (m0, [])
  = Ok (tt, (m0, (if v <? 0 then [chr "-"] else []) ++ decimal ds)).
Proof.
  intros Hv Hds Hf. destruct fuel as [|[|fuel]]; [lia..|]. unfold printf.
  change (cstring "%d") with (chr "%" :: cstring "d").
  rewrite (vprintf_conversion _ _ _ _ (chr "d") [0] _ (Conversion 0 0 (-1) INT) (chr "d") [0] [u32 v]); [|done..].
  unfold mbind, M_bind. rewrite (convert_d _ _ _ _ _ _ _ _ ds); [|done..|by rewrite s32_u32].
  rewrite s32_u32 by done. unfold mbind, M_bind. rewrite output_all_putchar. cbn [mret M_ret].
  by rewrite integer_text_plain.
Qed.

Lemma decimal_digits ds : Forall (fun d => 0 <= d < 10) ds -> exists ms,
  decimal ds = map (fun d => d + 48) ms /\ Forall (fun d => 0 <= d < 10) ms /\ ms <> [] /\
  (length ms <= length ds + 1)%nat /\ atoi_value 0 ms = - number 10 ds.
Proof.
  intros Hds. destruct ds as [|d ds].
  - exists [0]. split_and!; [done| |done|done|done]. by repeat constructor.
  - exists (reverse (d :: ds)). split_and!.
    + unfold decimal. by rewrite <- fmap_reverse.
    + by apply Forall_reverse.
    + intros E. apply (f_equal length) in E. by rewrite length_reverse in E.
    + rewrite length_reverse. lia.
    + apply atoi_value_number.
Qed.

Lemma digit_not_sign c : 48 <= c <= 57 -> isspace c = false /\ (c =? 43) = false /\ (c =? 45) = false.
Proof. intros Hc. unfold isspace. rewrite !(proj2 (Z.eqb_neq _ _)) by lia. done. Qed.

Lemma atoi_decimal (m : bytes) p v ds fuel :
  p <> NULL -> -2147483648 <= v < 2147483648 -> numeral 10 (Z.abs v) ds -> (length ds + 2 <= fuel)%nat ->
  bytes_at m p (((if v <? 0 then [chr "-"] else []) ++ decimal ds) ++ [0]) -> atoi fuel p m = Ok (v, m).
Proof.
  intros Hp Hv (Hds & _ & Hn) Hf Hm. destruct (decimal_digits ds Hds) as (ms & Hdec & Hms & Hne & Hlen & Hval).
  rewrite Hdec in Hm. unfold atoi. rewrite (bind_ok _ _ _ _ _ (assert_ptr m p Hp)). cbv beta.
  destruct fuel as [|fuel]; [lia|]. cbn [skip_space].
  destruct (Z.ltb_spec v 0) as [Hneg|Hpos]; cbn [app] in Hm.
  - destruct Hm as [Hm Hrest]. rewrite bind_assoc. rewrite (bind_ok _ _ _ _ _ (load_ok _ _ _ Hm)). cbv beta.
    change (isspace (chr "-")) with false. cbv iota. rewrite bind_ret.
    rewrite (bind_ok _ _ _ _ _ (load_ok _ _ _ Hm)). cbv beta. cbn zeta.
    change ((chr "-" =? 43) || (chr "-" =? 45)) with true. cbv iota.
    rewrite (bind_ok _ _ _ _ _ (atoi_digits_ok m ms (p + 1) 0 (S fuel) Hrest Hms ltac:(lia) ltac:(lia) ltac:(lia))).
    cbv beta. change (negb (chr "-" =? 45)) with false. cbv iota. unfold mret, M_ret. f_equal. f_equal. lia.
  - assert (Hall := Hm). destruct ms as [|d ms]; [done|]. destruct Hm as [Hm Hrest].
    pose proof (Forall_inv Hms) as Hd. cbv beta in Hd. destruct (digit_not_sign (d + 48) ltac:(lia)) as (E1 & E2 & E3).
    rewrite bind_assoc. rewrite (bind_ok _ _ _ _ _ (load_ok _ _ _ Hm)). cbv beta. rewrite E1, bind_ret.
    rewrite (bind_ok _ _ _ _ _ (load_ok _ _ _ Hm)). cbv beta. rewrite E2, E3. cbn zeta. cbn [orb negb].
    rewrite (bind_ok _ _ _ _ _ (atoi_digits_ok m (d :: ms) p 0 (S fuel) Hall Hms ltac:(lia) ltac:(lia) ltac:(cbn [length] in *; lia))).
    cbv beta. unfold mret, M_ret. f_equal. f_equal. rewrite s32_small; lia.
Qed.

(** What ["%d"] writes, [atoi] reads: printing any [int] to a buffer of 12
    bytes or more and converting the string back gives the same number,
    the smallest one included, and changes only the buffer. *)
Theorem printf_atoi_roundtrip fuel null_string v (m : bytes) buffer size :
  -2147483648 <= v < 2147483648 -> buffer <> NULL -> 12 <= size <= 2147483648 ->
  (forall a, buffer <= a < buffer + size -> is_Some (m !! a)) -> (12 <= fuel)%nat ->
  exists n m', snprintf fuel null_string buffer size (cstring "%d") [u32 v] m = Ok (n, m') /\ 1 <= n <= 11 /\
    same_but buffer (n + 1) m m' /\ atoi fuel buffer m' = Ok (v, m').
Proof.
  intros Hv Hp Hs Hm Hf. destruct (abs_numeral v Hv) as (ds & Hds & Hlen).
  pose proof (printf_d_ok fuel null_string v ∅ ds Hv Hds ltac:(lia)) as Hrun. set (w := _ ++ decimal ds) in Hrun.
  assert (Hw : 1 <= Z.of_nat (length w) <= 11).
  { unfold w. rewrite length_app. unfold decimal. destruct ds; [destruct (v <? 0); simpl; lia|].
    rewrite length_reverse, length_map. cbn [length] in *. destruct (v <? 0); cbn [length]; lia. }
  exists (Z.of_nat (length w)), (write m buffer (w ++ [0])). split_and!; try lia.
  - unfold snprintf. erewrite (vsnprintf_run m ∅ buffer size); [|lia| |apply map_empty_subseteq|apply Hrun|lia].
    + unfold stored, max_length. rewrite (proj2 (Z.ltb_lt 0 size)) by lia. rewrite take_ge by lia. done.
    + intros a Ha. split; [by apply Hm|apply lookup_empty].
  - intros a Ha. apply write_out. rewrite length_app. cbn [length]. lia.
  - apply (atoi_decimal _ _ _ ds); [done..|lia|]. apply write_at.
Qed.

Lemma printf_atoi_roundtrip_witness :
  exists n m', snprintf 12 0 200 12 (cstring "%d") [u32 (-2147483648)] some_buffer = Ok (n, m') /\ 1 <= n <= 11 /\
    same_but 200 (n + 1) some_buffer m' /\ atoi 12 200 m' = Ok (-2147483648, m').
Proof.
  apply (printf_atoi_roundtrip 12 0 (-2147483648) some_buffer 200 12); [done..| |done].
  intros a Ha. unfold some_buffer. rewrite write_in by done. apply lookup_lt_is_Some_2. rewrite length_replicate. lia.
Defined.

(** ** Two flaws *)

Lemma parse_star_width {S} (s : S) a args :
  s32 a < 0 ->
  parse_conversion (cstring "0*d") (a :: args) s
  = Ok ((Conversion (Z.lor ZERO MINUS) (s32 (- s32 a)) (-1) INT, cstring "d", args), s).
Proof.
  intros Ha. unfold parse_conversion. change (parse_flags (cstring "0*d") 0) with (ZERO, cstring "*d"). cbv iota beta zeta.
  change (has ZERO MINUS) with false. change (has ZERO PLUS) with false. cbv iota.
  rewrite (bind_ok _ _ _ (s32 a, cstring "d", args) s) by done. cbv iota beta.
  by rewrite (proj2 (Z.ltb_lt _ _) Ha).
Qed.

Lemma integer_text_both v ds wd :
  numeral 10 v ds ->
  let pad := Z.to_nat (wd - Z.of_nat (length (decimal ds))) in
  map u8 (integer_text v true false base_d (Conversion (Z.lor ZERO MINUS) wd (-1) INT) ds)
  = replicate pad (chr "0") ++ decimal ds ++ replicate pad (chr " ").
Proof.
  intros (Hds & _ & _) pad. unfold integer_text. rewrite reversed_text_d by done. cbn [width flags].
  change (sign_text true false (Z.lor ZERO MINUS)) with (@nil Z).
  change (prefix_text base_d (Z.lor ZERO MINUS) v) with (@nil Z). cbn [app]. fold pad.
  change (has (Z.lor ZERO MINUS) (Z.lor MINUS ZERO)) with true. change (has (Z.lor ZERO MINUS) ZERO) with true.
  change (has (Z.lor ZERO MINUS) MINUS) with true. cbv iota. cbn [app].
  apply map_u8_bytes. apply Forall_app; split; [by apply Forall_replicate|].
  apply Forall_app; split; [by apply decimal_bytes|by apply Forall_replicate].
Qed.

Lemma printf_plain fuel null_string p format args : forall m w,
  Forall (fun c => c <> 0 /\ c <> chr "%") p ->
  printf (length p + fuel) null_string (p ++ format) args (m, w)
  = printf fuel null_string format args (m, w ++ map u8 p).
Proof.
  unfold printf. induction p as [|c p IH]; intros m w Hp; [by rewrite app_nil_r|].
  apply Forall_cons in Hp as [[H0 Hc] Hp]. cbn [length app Nat.add]. rewrite vprintf_char by done.
  rewrite (bind_ok _ _ _ tt (m, w ++ [u8 c])) by done. cbv beta. rewrite IH by done. by rewrite <- app_assoc.
Qed.

Lemma printf_percent_end fuel null_string args m w : printf (30 + fuel) null_string [chr "%"; 0] args (m, w) = Err EFault.
Proof.
  unfold printf. cbn [Nat.add]. 
  rewrite (vprintf_conversion _ _ _ _ 0 [] _ (Conversion 0 0 (-1) INT) 0 [] args) by done. by vm_compute.
Qed.

(** Two formats on which [__vprintf] does not do what it means to.  A
    negative width given by a star sets the flag for padding on the right
    without clearing the one for zeros, so the field is padded on both sides
    and is wider than asked for.  A format that ends in a percent sign makes
    the loop step over the terminator and read behind the string. *)
Theorem printf_flaws fuel null_string (m : bytes) :
  (forall v wd ds, 0 <= v < 2147483648 -> numeral 10 v ds -> Z.of_nat (length (decimal ds)) <= wd < 2147483648 ->
     let pad := Z.to_nat (wd - Z.of_nat (length (decimal ds))) in
     printf (2 + fuel) null_string (cstring "%0*d") [u32 (- wd); v] (m, [])
     = Ok (tt, (m, replicate pad (chr "0") ++ decimal ds ++ replicate pad (chr " ")))) /\
  (forall p args w, Forall (fun c => c <> 0 /\ c <> chr "%") p ->
     printf (length p + (30 + fuel)) null_string (p ++ [chr "%"; 0]) args (m, w) = Err EFault).
Proof.
  split.
  - intros v wd ds Hv Hds Hw pad. unfold printf. cbn [Nat.add].
    assert (Hwd : 1 <= Z.of_nat (length (decimal ds)))
      by (unfold decimal; destruct ds; [simpl; lia|rewrite length_reverse; simpl; lia]).
    change (cstring "%0*d") with (chr "%" :: chr "0" :: cstring "*d").
    rewrite (vprintf_conversion _ _ _ _ (chr "0") (cstring "*d") _ (Conversion (Z.lor ZERO MINUS) wd (-1) INT)
               (chr "d") [0] [v]); [|done|].
    2: { etransitivity; [apply (parse_star_width (m, []) (u32 (- wd)) [v]); rewrite s32_u32; lia|].
         rewrite s32_u32 by lia. rewrite s32_small by lia. by rewrite Z.opp_involutive. }
    assert (Hs : s32 v = v) by (apply s32_small; lia).
    unfold mbind, M_bind. rewrite (convert_d _ _ _ _ _ _ _ _ ds); [|done|simpl; lia|rewrite Hs, Z.abs_eq by lia; done].
    rewrite Hs, Z.abs_eq, (proj2 (Z.ltb_ge v 0)) by lia. unfold mbind, M_bind. rewrite output_all_putchar.
    by rewrite integer_text_both.
  - intros p args w Hp. rewrite printf_plain by done. apply printf_percent_end.
Qed.

Lemma printf_flaws_witness :
  printf 2 0 (cstring "%0*d") [u32 (-5); 42] (∅, []) = Ok (tt, (∅, lit "00042   ")) /\
  printf 32 0 (cstring "50%") [] (∅, []) = Err EFault.
Proof.
  destruct (printf_flaws 0 0 ∅) as [Hstar Hend]. split.
  - apply (Hstar 42 5 [2; 4]); [done| |done]. unfold numeral. split_and!; [by repeat constructor|done|done].
  - apply (Hend (lit "50") [] []). by repeat constructor.
Defined.
