(* ===== verification/Random.v ===== *)
(** * Random numbers: [lib/random.c]

    The state is the permutation [s] with its two indices.  A buffer is the
    list of the bytes that are written to it.  An index into [s] is a byte, and
    an access outside [s] stops with [EFault]. *)

From S2P Require Import Prelude ListModel Bytes.

Record rng := Rng { s : list Z; s_i : Z; s_j : Z; inited : bool }.

Abbreviation R := (M rng).

Definition update (f : rng -> rng) : R unit := fun g => Ok (tt, f g).
Definition s_at (i : Z) : R Z := fun g => lift_opt EFault (s g !! Z.to_nat i) g.
Definition set_s (i v : Z) : R unit := fun g =>
  match s g !! Z.to_nat i with
  | Some _ => Ok (tt, Rng (<[Z.to_nat i := v]> (s g)) (s_i g) (s_j g) (inited g))
  | None => Err EFault
  end.

(** The arguments are the indices of the bytes. *)
Definition swap_byte (a b : Z) : R unit :=
  t ← s_at a;
  y ← s_at b;
  set_s a y;;
  set_s b t.

(** [seedp[i % sizeof seed]]. *)
Definition seed_byte (seed i : Z) : Z := u8 (Z.shiftr seed (8 * (i mod 4))).

Fixpoint fill_loop (n : nat) (i : Z) : R unit :=
  match n with O => mret tt | S n => set_s i (u8 i);; fill_loop n (i + 1) end.

Fixpoint seed_loop (n : nat) (seed i j : Z) : R unit :=
  match n with
  | O => mret tt
  | S n =>
      si ← s_at i;
      let j := u8 (j + (si + seed_byte seed i)) in
      swap_byte i j;;
      seed_loop n seed (i + 1) j
  end.

Definition random_init (seed : Z) : R unit :=
  fill_loop 256 0;;
  seed_loop 256 seed 0 0;;
  update (fun g => Rng (s g) 0 0 true).

(** A turn of the loop of [random_bytes]. *)
Definition random_byte : R Z :=
  update (fun g => Rng (s g) (u8 (s_i g + 1)) (s_j g) (inited g));;
  i ← gets s_i;
  si ← s_at i;
  update (fun g => Rng (s g) (s_i g) (u8 (s_j g + si)) (inited g));;
  j ← gets s_j;
  swap_byte i j;;
  si ← s_at i;
  sj ← s_at j;
  s_at (u8 (si + sj)).

Fixpoint random_loop (size : nat) : R (list Z) :=
  match size with
  | O => mret []
  | S size => b ← random_byte; buf ← random_loop size; mret (b :: buf)
  end.

Definition random_bytes (size : Z) : R (list Z) :=
  g ← get;
  (if negb (inited g) then random_init 0 else mret tt);;
  random_loop (Z.to_nat size).

Definition random_ulong : R Z :=
  ul ← random_bytes 4;
  match bytes_words ul with [w] => mret w | _ => fail EFault end.

(** ** The state of the generator *)

(** [s] holds every byte exactly once. *)
Definition rng_wf (g : rng) : Prop :=
  s g ≡ₚ seqZ 0 256 /\ is_byte (s_i g) /\ is_byte (s_j g).

(** A turn backwards. *)
Definition previous (g : rng) : rng :=
  let i := Z.to_nat (s_i g) in
  let j := Z.to_nat (s_j g) in
  let x := s g !!! i in
  let y := s g !!! j in
  Rng (<[j := x]> (<[i := y]> (s g))) (u8 (s_i g - 1)) (u8 (s_j g - y)) (inited g).

(** The generator may not have been seeded yet. *)
Definition rng_ok (g : rng) : Prop :=
  length (s g) = 256%nat /\ is_byte (s_i g) /\ is_byte (s_j g) /\ (inited g = true -> s g ≡ₚ seqZ 0 256).

Lemma u8_byte z : is_byte (u8 z).
Proof. apply Z.mod_pos_bound. lia. Qed.

Lemma u8_back i x : is_byte i -> u8 (u8 (i + x) - x) = i.
Proof. intros Hi. unfold u8. rewrite Zminus_mod_idemp_l. replace (i + x - x) with i by lia. by apply Z.mod_small. Qed.

Lemma wf_length l : l ≡ₚ seqZ 0 256 -> length l = 256%nat.
Proof. intros H. apply Permutation_length in H. by rewrite length_seqZ in H. Qed.

Lemma table_lookup l i : l ≡ₚ seqZ 0 256 -> is_byte i -> exists x, l !! Z.to_nat i = Some x /\ is_byte x.
Proof.
  intros Hl Hi. unfold is_byte in *. destruct (lookup_lt_is_Some_2 l (Z.to_nat i)) as [x Hx]; [rewrite (wf_length l Hl); lia|].
  exists x. split; [done|]. apply list_elem_of_lookup_2 in Hx. rewrite Hl in Hx. apply elem_of_seqZ in Hx. lia.
Qed.

Lemma s_at_ok g i x : s g !! Z.to_nat i = Some x -> s_at i g = Ok (x, g).
Proof. intros H. unfold s_at. by rewrite H. Qed.

Lemma set_s_ok g i v : (Z.to_nat i < length (s g))%nat ->
  set_s i v g = Ok (tt, Rng (<[Z.to_nat i := v]> (s g)) (s_i g) (s_j g) (inited g)).
Proof. intros H. unfold set_s. by destruct (lookup_lt_is_Some_2 _ _ H) as [x ->]. Qed.

Lemma swap_byte_ok g a b x y : s g !! Z.to_nat a = Some x -> s g !! Z.to_nat b = Some y ->
  swap_byte a b g = Ok (tt, Rng (<[Z.to_nat b := x]> (<[Z.to_nat a := y]> (s g))) (s_i g) (s_j g) (inited g)).
Proof.
  intros Ha Hb. unfold swap_byte. mstep (s_at_ok g a x Ha). mstep (s_at_ok g b y Hb).
  mstep (set_s_ok g a y (lookup_lt_Some _ _ _ Ha)). rewrite set_s_ok; [done|]. cbn [s]. rewrite length_insert.
  by apply (lookup_lt_Some _ _ y).
Qed.

Lemma exchange_back (l : list Z) i j x y :
  l !! i = Some x -> l !! j = Some y -> let l' := <[j := x]> (<[i := y]> l) in
  l' !!! j = x /\ <[j := l' !!! i]> (<[i := l' !!! j]> l') = l.
Proof.
  intros Hi Hj l'. pose proof (lookup_lt_Some _ _ _ Hi) as Li. pose proof (lookup_lt_Some _ _ _ Hj) as Lj.
  assert (Ej : l' !!! j = x) by (apply list_lookup_total_insert_eq; rewrite length_insert; done).
  split; [done|]. rewrite Ej. destruct (decide (i = j)) as [<-|Hne].
  - rewrite Ej. unfold l'. by rewrite !list_insert_insert_eq, list_insert_id.
  - assert (l' !!! i = y) as ->.
    { unfold l'. rewrite list_lookup_total_insert_ne by done. by apply list_lookup_total_insert_eq. }
    apply list_eq. intros k. unfold l'. destruct (decide (k = j)) as [->|Hkj].
    + rewrite list_lookup_insert_eq by (rewrite !length_insert; done). done.
    + rewrite list_lookup_insert_ne by done. destruct (decide (k = i)) as [->|Hki].
      * rewrite list_lookup_insert_eq by (rewrite !length_insert; done). done.
      * by rewrite !list_lookup_insert_ne by done.
Qed.

Lemma random_byte_ok g :
  rng_wf g -> exists b g', random_byte g = Ok (b, g') /\ rng_wf g' /\ is_byte b /\ previous g' = g /\ inited g' = inited g.
Proof.
  intros (Hs & Hi & Hj). destruct g as [l i j ini]. cbn [s s_i s_j inited] in *.
  set (i' := u8 (i + 1)). assert (Bi : is_byte i') by apply u8_byte.
  destruct (table_lookup l i' Hs Bi) as (x & Hx & Bx). set (j' := u8 (j + x)). assert (Bj : is_byte j') by apply u8_byte.
  destruct (table_lookup l j' Hs Bj) as (y & Hy & By). set (l' := <[Z.to_nat j' := x]> (<[Z.to_nat i' := y]> l)).
  assert (Hs' : l' ≡ₚ seqZ 0 256) by (unfold l'; by rewrite Permutation_insert_swap).
  destruct (table_lookup l' i' Hs' Bi) as (x' & Hx' & _). destruct (table_lookup l' j' Hs' Bj) as (y' & Hy' & _).
  destruct (table_lookup l' (u8 (x' + y')) Hs' (u8_byte _)) as (b & Hb & Bb).
  exists b, (Rng l' i' j' ini). split_and!; [|done|done| |done].
  - unfold random_byte. rewrite (bind_ok _ _ _ tt (Rng l i' j ini)) by done. cbv beta.
    rewrite (bind_ok _ _ _ i' (Rng l i' j ini)) by done. cbv beta. mstep (s_at_ok (Rng l i' j ini) i' x Hx).
    rewrite (bind_ok _ _ _ tt (Rng l i' j' ini)) by done. cbv beta.
    rewrite (bind_ok _ _ _ j' (Rng l i' j' ini)) by done. cbv beta.
    mstep (swap_byte_ok (Rng l i' j' ini) i' j' x y Hx Hy). cbn [s s_i s_j inited]. fold l'.
    mstep (s_at_ok (Rng l' i' j' ini) i' x' Hx'). mstep (s_at_ok (Rng l' i' j' ini) j' y' Hy'). by apply s_at_ok.
  - unfold previous. cbn [s s_i s_j inited]. destruct (exchange_back l _ _ _ _ Hx Hy) as [E1 E2]. fold l' in E1, E2.
    rewrite E2, E1. f_equal; by apply u8_back.
Qed.

Lemma random_loop_ok n : forall g, rng_wf g ->
  exists buf g', random_loop n g = Ok (buf, g') /\ rng_wf g' /\ length buf = n /\ Forall is_byte buf /\
    Nat.iter n previous g' = g /\ inited g' = inited g.
Proof.
  induction n as [|n IH]; intros g Hg; [by exists [], g|].
  destruct (random_byte_ok g Hg) as (b & g1 & E1 & Hg1 & Hb & Hp & Hi).
  destruct (IH g1 Hg1) as (buf & g2 & E2 & Hg2 & Hl & Hbuf & Hp2 & Hi2). exists (b :: buf), g2.
  cbn [random_loop]. mstep E1. mstep E2. split_and!; [done|done|cbn [length]; lia|by constructor| |congruence].
  cbn [Nat.iter nat_rect]. unfold Nat.iter in Hp2. by rewrite Hp2.
Qed.

Lemma fill_loop_ok n : forall i g,
  0 <= i -> i + Z.of_nat n = 256 -> length (s g) = 256%nat -> (forall k, 0 <= k < i -> s g !! Z.to_nat k = Some k) ->
  fill_loop n i g = Ok (tt, Rng (seqZ 0 256) (s_i g) (s_j g) (inited g)).
Proof.
  induction n as [|n IH]; intros i [l si sj ini] Hi Hn Hl Hs; cbn [s s_i s_j inited fill_loop] in *.
  - assert (l = seqZ 0 256) as ->; [|done]. apply list_eq_same_length with 256%nat; [done..|].
    intros k x y Hk Hx Hy. specialize (Hs (Z.of_nat k)). rewrite Nat2Z.id in Hs. apply lookup_seqZ in Hy.
    rewrite Hs in Hx by lia. injection Hx. lia.
  - mstep (set_s_ok (Rng l si sj ini) i (u8 i) ltac:(cbn [s]; lia)). cbn [s s_i s_j inited].
    rewrite IH; cbn [s s_i s_j inited]; [done|lia|lia|by rewrite length_insert|].
    intros k Hk. destruct (decide (k = i)) as [->|Hne].
    + rewrite list_lookup_insert_eq by lia. f_equal. unfold u8. apply Z.mod_small. lia.
    + rewrite list_lookup_insert_ne by lia. apply Hs. lia.
Qed.

Lemma seed_loop_ok n seed : forall i j g,
  0 <= i -> i + Z.of_nat n <= 256 -> s g ≡ₚ seqZ 0 256 ->
  exists l, seed_loop n seed i j g = Ok (tt, Rng l (s_i g) (s_j g) (inited g)) /\ l ≡ₚ seqZ 0 256.
Proof.
  induction n as [|n IH]; intros i j g Hi Hn Hs; [exists (s g); by destruct g|]. cbn [seed_loop].
  destruct (table_lookup (s g) i Hs) as (x & Hx & _); [unfold is_byte; lia|]. mstep (s_at_ok g i x Hx). cbn zeta.
  set (j' := u8 _). destruct (table_lookup (s g) j' Hs (u8_byte _)) as (y & Hy & _). mstep (swap_byte_ok g i j' x y Hx Hy).
  apply (IH (i + 1) j' (Rng (<[Z.to_nat j' := x]> (<[Z.to_nat i := y]> (s g))) (s_i g) (s_j g) (inited g))); [lia|lia|].
  cbn [s]. by rewrite Permutation_insert_swap.
Qed.

Lemma random_init_ok seed g :
  length (s g) = 256%nat -> exists g', random_init seed g = Ok (tt, g') /\ rng_wf g' /\ inited g' = true.
Proof.
  intros Hl. unfold random_init. erewrite bind_ok; [cbv beta|apply fill_loop_ok; [lia|done|done|lia]].
  destruct (seed_loop_ok 256 seed 0 0 (Rng (seqZ 0 256) (s_i g) (s_j g) (inited g))) as (l & E & Hs); [lia|lia|done|].
  mstep E. cbn [s s_i s_j inited]. eexists. split; [reflexivity|]. by unfold rng_wf, is_byte.
Qed.

(** C27: The generator keeps the type of its state: whatever the seed, its table
    is a permutation of the 256 bytes after [random_init] and stays one under
    [random_bytes], which seeds the generator itself when nobody did; no index
    is ever outside the table.  [random_bytes] yields as many bytes as it was
    asked for, [random_ulong] a 32-bit number, and no two states have the same
    successor, since [previous] takes each turn back. *)
Theorem random_state_wf g size :
  rng_ok g -> 0 <= size ->
  (forall seed, exists g', random_init seed g = Ok (tt, g') /\ rng_wf g' /\ inited g' = true) /\
  (exists buf g', random_bytes size g = Ok (buf, g') /\ rng_wf g' /\ rng_ok g' /\ inited g' = true /\
     length buf = Z.to_nat size /\ Forall is_byte buf /\
     (inited g = true -> Nat.iter (Z.to_nat size) previous g' = g)) /\
  (exists w g', random_ulong g = Ok (w, g') /\ rng_ok g' /\ 0 <= w < 4294967296).
Proof.
  intros (Hl & Hi & Hj & Hs) Hsize.
  assert (Hstart : exists g1, (if negb (inited g) then random_init 0 else mret tt) g = Ok (tt, g1) /\ rng_wf g1 /\
            inited g1 = true /\ (inited g = true -> g1 = g)).
  { destruct (inited g) eqn:E; cbn [negb]; [exists g; split_and!; try done; by split_and!; [apply Hs|..]|].
    destruct (random_init_ok 0 g Hl) as (g1 & E1 & W1 & I1). by exists g1. }
  destruct Hstart as (g1 & E1 & W1 & I1 & Same).
  assert (Hbytes : forall n, exists buf g', random_bytes n g = Ok (buf, g') /\ rng_wf g' /\ rng_ok g' /\ inited g' = true /\
     length buf = Z.to_nat n /\ Forall is_byte buf /\ (inited g = true -> Nat.iter (Z.to_nat n) previous g' = g)).
  { intros n. destruct (random_loop_ok (Z.to_nat n) g1 W1) as (buf & g' & E2 & W2 & L2 & B2 & P2 & I2). exists buf, g'.
    split_and!; try done; [|by split_and!; [apply wf_length, W2|apply W2|apply W2|intros; apply W2]|congruence|].
    - unfold random_bytes. rewrite (bind_ok _ _ _ g g) by done. cbv beta. by mstep E1.
    - intros Hin. rewrite P2. by apply Same. }
  split_and!; [intros seed; by apply random_init_ok|apply Hbytes|].
  destruct (Hbytes 4) as (buf & g' & E & _ & Hok & _ & L & B & _). unfold random_ulong. mstep E.
  destruct buf as [|a [|b [|c [|d [|]]]]]; try done. cbn [bytes_words]. eexists _, g'. split; [reflexivity|]. split; [done|].
  repeat (apply Forall_cons in B as [? B]). unfold is_byte in *. lia.
Qed.

(** The static data at start-up. *)
Definition rng_start : rng := Rng (replicate 256 0) 0 0 false.

Lemma random_state_wf_witness :
  exists buf g', random_bytes 3 rng_start = Ok (buf, g') /\ rng_ok g' /\ length buf = 3%nat.
Proof.
  destruct (random_state_wf rng_start 3) as (_ & (buf & g' & H & _ & Hok & _ & L & _) & _); [|lia|].
  - unfold rng_ok, is_byte. by split_and!.
  - exists buf, g'. split; [exact H|]. split; [exact Hok|exact L].
Defined.

(** With the seed 0, as the RC4 key stream for that key. *)
Example random_bytes_seed_0 : exists g, random_bytes 4 rng_start = Ok ([222; 24; 137; 65], g).
Proof. eexists. vm_compute. reflexivity. Qed.
