(* ===== verification/Intq.v ===== *)
(** * Interrupt queues: [devices/intq.c] and [devices/input.c]

    A queue is shared by threads and interrupt handlers, which run with
    interrupts off.  A thread leaves the processor only where it waits for
    the lock of the queue or for the condition, and at the end of [lock_release], where [sema_up] yields to a thread of
    higher priority, so each function is split at
    these points; [pcs] says where every thread is that has not finished its
    call.  [exec] runs one section: the start of a call, a call by an
    interrupt handler, or a thread that goes on. *)

From S2P Require Import Prelude ListModel Bytes.

Definition INTQ_BUFSIZE : Z := 64.

Record intq := Intq { not_full : Z; not_empty : Z; buf : list Z; head : Z; tail : Z }.

(** The member that [waiter] points to. *)
Inductive waiter := Not_full | Not_empty.

#[export] Instance waiter_eq_dec : EqDecision waiter.
Proof. solve_decision. Defined.

(** Where a call stands: in [lock_acquire], in [thread_block] of [wait],
    woken up and about to release the lock, or at the end of [lock_release], where it may have yielded. *)
Inductive pc :=
  | Get_lock | Get_wait | Get_woken | Get_released
  | Put_lock (byte : Z) | Put_wait (byte : Z) | Put_woken (byte : Z) | Put_released (byte : Z).

Inductive context := Thread (t : Z) | Interrupt.

(** The queue, the holder of its lock and the interrupt level. *)
Record st := St { q : intq; holder : Z; pcs : gmap Z pc; intr_off : bool }.

Definition intr_context (c : context) : bool := match c with Interrupt => true | Thread _ => false end.

Definition set_q (f : intq -> intq) : M st unit := fun s => Ok (tt, St (f (q s)) (holder s) (pcs s) (intr_off s)).
Definition set_holder (t : Z) : M st unit := fun s => Ok (tt, St (q s) t (pcs s) (intr_off s)).
Definition set_pc (t : Z) (p : pc) : M st unit := fun s => Ok (tt, St (q s) (holder s) (<[t := p]> (pcs s)) (intr_off s)).
Definition clear_pc (t : Z) : M st unit := fun s => Ok (tt, St (q s) (holder s) (delete t (pcs s)) (intr_off s)).
Definition assert_off : M st unit := off ← gets intr_off; ASSERT off.

(** ** [intq.c] *)

Definition intq_init (s : st) : st := St (Intq NULL NULL (buf (q s)) 0 0) NULL (pcs s) (intr_off s).

Definition next (pos : Z) : Z := (pos + 1) mod INTQ_BUFSIZE.

Definition intq_empty : M st bool := assert_off;; gets (fun s => head (q s) =? tail (q s)).
Definition intq_full : M st bool := assert_off;; gets (fun s => next (head (q s)) =? tail (q s)).

Definition condition (w : waiter) : M st bool := match w with Not_empty => intq_empty | Not_full => intq_full end.

Definition waiting (w : waiter) (x : intq) : Z := match w with Not_empty => not_empty x | Not_full => not_full x end.
Definition set_waiting (w : waiter) (t : Z) (x : intq) : intq :=
  match w with
  | Not_empty => Intq (not_full x) t (buf x) (head x) (tail x)
  | Not_full => Intq t (not_empty x) (buf x) (head x) (tail x)
  end.

(** [wait] by the thread T, which stays at P until it is woken. *)
Definition wait (t : Z) (w : waiter) (p : pc) : M st unit :=
  assert_off;;
  c ← condition w;
  ASSERT c;;
  set_q (set_waiting w t);;
  set_pc t p.

(** [thread_unblock] of a thread that waits. *)
Definition thread_unblock (t : Z) : M st unit := fun s =>
  match pcs s !! t with
  | Some Get_wait => set_pc t Get_woken s
  | Some (Put_wait b) => set_pc t (Put_woken b) s
  | _ => Err EAssert
  end.

Definition signal (w : waiter) : M st unit :=
  assert_off;;
  c ← condition w;
  ASSERT (negb c);;
  t ← gets (fun s => waiting w (q s));
  if negb (t =? NULL) then thread_unblock t;; set_q (set_waiting w NULL) else mret tt.

(** [lock_acquire] by T, which stays at P when the lock is taken; [locked] is
    the code behind it.  [None]: the thread has left the processor. *)
Definition lock_acquire {A} (t : Z) (p : pc) (locked : M st (option A)) : M st (option A) :=
  h ← gets holder;
  if h =? NULL then set_holder t;; locked else set_pc t p;; mret None.

Definition lock_release (t : Z) : M st unit :=
  h ← gets holder;
  ASSERT (h =? t);;
  set_holder NULL.

Definition getc_locked (t : Z) : M st (option Z) := wait t Not_empty Get_wait;; mret None.
Definition putc_locked (t byte : Z) : M st (option unit) := wait t Not_full (Put_wait byte);; mret None.

Definition take_byte : M st (option Z) :=
  x ← gets q;
  byte ← lift_opt EFault (buf x !! Z.to_nat (tail x));
  set_q (fun x => Intq (not_full x) (not_empty x) (buf x) (head x) (next (tail x)));;
  signal Not_full;;
  mret (Some byte).

Definition add_byte (byte : Z) : M st (option unit) :=
  x ← gets q;
  lift_opt EFault (buf x !! Z.to_nat (head x));;
  set_q (fun x => Intq (not_full x) (not_empty x) (<[Z.to_nat (head x) := byte]> (buf x)) (next (head x)) (tail x));;
  signal Not_empty;;
  mret (Some tt).

(** [intq_getc], from its start and from the head of its loop. *)
Definition intq_getc (c : context) : M st (option Z) :=
  assert_off;;
  e ← intq_empty;
  if (e : bool) then
    ASSERT (negb (intr_context c));;
    match c with Thread t => lock_acquire t Get_lock (getc_locked t) | Interrupt => fail EAssert end
  else take_byte.

Definition intq_putc (c : context) (byte : Z) : M st (option unit) :=
  assert_off;;
  f ← intq_full;
  if (f : bool) then
    ASSERT (negb (intr_context c));;
    match c with Thread t => lock_acquire t (Put_lock byte) (putc_locked t byte) | Interrupt => fail EAssert end
  else add_byte byte.

(** A call behind [wait], up to where [lock_release] may yield. *)
Definition getc_rest (t : Z) : M st (option Z) := lock_release t;; set_pc t Get_released;; mret None.
Definition putc_rest (t byte : Z) : M st (option unit) := lock_release t;; set_pc t (Put_released byte);; mret None.

(** Behind [lock_release]: the head of the loop. *)
Definition getc_again (t : Z) : M st (option Z) := clear_pc t;; intq_getc (Thread t).
Definition putc_again (t byte : Z) : M st (option unit) := clear_pc t;; intq_putc (Thread t) byte.

(** [input_putc] of the keyboard handler. *)
Definition input_putc (key : Z) : M st (option unit) :=
  assert_off;;
  f ← intq_full;
  ASSERT (negb f);;
  intq_putc Interrupt key.

(** ** Sections *)

Inductive action := Getc (c : context) | Putc (c : context) (byte : Z) | Input_putc (byte : Z) | Resume (t : Z).

(** What a section did to the queue. *)
Inductive event := Got (byte : Z) | Added (byte : Z) | Slept.

Definition got (c : M st (option Z)) : M st event := r ← c; mret (match r with Some b => Got b | None => Slept end).
Definition added (byte : Z) (c : M st (option unit)) : M st event :=
  r ← c; mret (match r with Some _ => Added byte | None => Slept end).

(** A new call comes from a thread that has no call open; a thread in
    [lock_acquire] goes on when the lock is free. *)
Definition enabled (a : action) (s : st) : Prop :=
  match a with
  | Getc (Thread t) | Putc (Thread t) _ => t <> NULL /\ pcs s !! t = None
  | Getc Interrupt | Putc Interrupt _ | Input_putc _ => True
  | Resume t =>
      match pcs s !! t with
      | Some (Get_lock | Put_lock _) => holder s = NULL
      | Some (Get_woken | Put_woken _ | Get_released | Put_released _) => True
      | _ => False
      end
  end.

Definition resume (t : Z) : M st event := fun s =>
  match pcs s !! t with
  | Some Get_lock => got (clear_pc t;; lock_acquire t Get_lock (getc_locked t)) s
  | Some (Put_lock b) => added b (clear_pc t;; lock_acquire t (Put_lock b) (putc_locked t b)) s
  | Some Get_woken => got (getc_rest t) s
  | Some (Put_woken b) => added b (putc_rest t b) s
  | Some Get_released => got (getc_again t) s
  | Some (Put_released b) => added b (putc_again t b) s
  | _ => Err EFault
  end.

Definition exec (a : action) : M st event :=
  match a with
  | Getc c => got (intq_getc c)
  | Putc c byte => added byte (intq_putc c byte)
  | Input_putc byte => added byte (input_putc byte)
  | Resume t => resume t
  end.

Definition ins (e : event) : list Z := match e with Added b => [b] | _ => [] end.
Definition outs (e : event) : list Z := match e with Got b => [b] | _ => [] end.

(** The states that sections lead to, with the bytes that were added and the
    bytes that were taken so far; [may] restricts who uses the queue. *)
Inductive reachable (may : action -> Prop) : list Z -> list Z -> st -> Prop :=
  | reach_init b : length b = 64%nat -> reachable may [] [] (intq_init (St (Intq 0 0 b 0 0) 0 ∅ true))
  | reach_step xs ys s a e s' :
      reachable may xs ys s -> may a -> enabled a s -> exec a s = Ok (e, s') ->
      reachable may (xs ++ ins e) (ys ++ outs e) s'.

Definition anyone (a : action) : Prop := True.

(** Only the thread T and interrupt handlers. *)
Definition only (t : Z) (a : action) : Prop :=
  match a with Getc (Thread u) | Putc (Thread u) _ | Resume u => u = t | _ => True end.

#[export] Instance pc_eq_dec : EqDecision pc.
Proof. solve_decision. Defined.
