(* ===== verification/IntqProps.v ===== *)
(** * Interrupt queues: the properties

    [contents] is the list of the bytes in a queue, the oldest first.  [inv] is
    the invariant of all interleavings; [exec_spec] says of every section
    whether it fails an assertion and what it does otherwise. *)

From S2P Require Import Prelude ListModel Bytes Intq.

Definition q_wf (x : intq) : Prop := length (buf x) = 64%nat /\ 0 <= head x < 64 /\ 0 <= tail x < 64.

Definition count (x : intq) : Z := (head x - tail x) mod 64.
Definition contents (x : intq) : list Z :=
  map (fun i => buf x !!! Z.to_nat ((tail x + i) mod 64)) (seqZ 0 (count x)).

(** ** The ring *)

Lemma next_eq p : 0 <= p < 64 -> next p = if p =? 63 then 0 else p + 1.
Proof.
  intros Hp. unfold next, INTQ_BUFSIZE. destruct (Z.eqb_spec p 63) as [->|]; [done|]. apply Z.mod_small. lia.
Qed.

Lemma next_range p : 0 <= next p < 64.
Proof. apply Z.mod_pos_bound. done. Qed.

Lemma count_eq x : q_wf x -> count x = if tail x <=? head x then head x - tail x else head x - tail x + 64.
Proof.
  intros (_ & Hh & Ht). unfold count. destruct (Z.leb_spec (tail x) (head x)); [apply Z.mod_small; lia|].
  symmetry. apply Z.mod_unique with (-1); lia.
Qed.

Lemma count_range x : 0 <= count x < 64.
Proof. apply Z.mod_pos_bound. done. Qed.

Lemma contents_length x : Z.of_nat (length (contents x)) = count x.
Proof. unfold contents. rewrite length_map, length_seqZ. pose proof (count_range x). lia. Qed.

Lemma contents_nil x : contents x = [] <-> count x = 0.
Proof. rewrite <- contents_length. destruct (contents x); cbn [length]; split; (done || lia). Qed.

Lemma empty_eqb x : q_wf x -> (head x =? tail x) = (count x =? 0).
Proof. intros H. rewrite count_eq by done. destruct H as (_ & ? & ?). destruct (Z.leb_spec (tail x) (head x)); lia. Qed.

Lemma full_eqb x : q_wf x -> (next (head x) =? tail x) = (count x =? 63).
Proof.
  intros H. rewrite count_eq by done. destruct H as (_ & Hh & ?). rewrite next_eq by done.
  destruct (Z.eqb_spec (head x) 63); destruct (Z.leb_spec (tail x) (head x)); lia.
Qed.

Lemma contents_same x y : buf x = buf y -> head x = head y -> tail x = tail y -> contents x = contents y.
Proof. intros H1 H2 H3. unfold contents, count. by rewrite H1, H2, H3. Qed.

Lemma contents_take x nf ne :
  q_wf x -> count x <> 0 ->
  exists b, buf x !! Z.to_nat (tail x) = Some b /\ contents x = b :: contents (Intq nf ne (buf x) (head x) (next (tail x))).
Proof.
  intros Hwf Hc. pose proof Hwf as (Hl & Hh & Ht).
  destruct (lookup_lt_is_Some_2 (buf x) (Z.to_nat (tail x))) as [b Hb]; [lia|]. exists b. split; [done|].
  set (y := Intq _ _ _ _ _). pose proof (count_range x).
  assert (Hy : count y = count x - 1).
  { assert (q_wf y) by (unfold q_wf, y; cbn; pose proof (next_range (tail x)); auto).
    rewrite !count_eq by done. unfold y. cbn [head tail]. rewrite next_eq by done.
    rewrite count_eq in Hc by done. destruct (Z.eqb_spec (tail x) 63); destruct (Z.leb_spec (tail x) (head x));
      match goal with |- context [?a <=? ?b] => destruct (Z.leb_spec a b) end; lia. }
  unfold contents at 1. rewrite seqZ_cons by lia. cbn [map]. f_equal.
  - rewrite Z.add_0_r, Z.mod_small by done. by apply list_lookup_total_correct.
  - unfold contents. rewrite Hy. unfold y. cbn [buf tail]. replace (Z.succ 0) with 1 by done.
    replace (seqZ 1 (Z.pred (count x))) with (map (Z.add 1) (seqZ 0 (count x - 1))).
    2: { etransitivity; [apply (fmap_add_seqZ 1 0 (count x - 1))|]. f_equal; lia. }
    rewrite map_map. apply map_ext_in. intros i _. f_equal. f_equal. unfold next, INTQ_BUFSIZE.
    rewrite Zplus_mod_idemp_l. f_equal. lia.
Qed.

Lemma contents_add x nf ne b :
  q_wf x -> count x <> 63 ->
  contents (Intq nf ne (<[Z.to_nat (head x) := b]> (buf x)) (next (head x)) (tail x)) = contents x ++ [b].
Proof.
  intros Hwf Hc. pose proof Hwf as (Hl & Hh & Ht). set (y := Intq _ _ _ _ _). pose proof (count_range x).
  assert (Hy : count y = count x + 1).
  { assert (q_wf y) by (unfold q_wf, y; cbn; rewrite length_insert; pose proof (next_range (head x)); auto).
    rewrite !count_eq by done. unfold y. cbn [head tail]. rewrite next_eq by done.
    rewrite count_eq in Hc by done. destruct (Z.eqb_spec (head x) 63); destruct (Z.leb_spec (tail x) (head x));
      match goal with |- context [?a <=? ?b] => destruct (Z.leb_spec a b) end; lia. }
  unfold contents at 1. rewrite Hy, seqZ_app by lia. rewrite map_app. cbn [buf tail].
  assert (Hidx : forall i, 0 <= i <= count x -> (tail x + i) mod 64 = head x -> i = count x).
  { intros i Hi E. rewrite count_eq in * by done. destruct (Z.leb_spec (tail x) (head x));
      (destruct (decide (tail x + i < 64)); [rewrite Z.mod_small in E; lia|]);
      (rewrite <- (Z.mod_unique (tail x + i) 64 1 (tail x + i - 64)) in E; lia). }
  f_equal.
  - unfold contents. apply map_ext_in. intros i Hi. apply list_elem_of_In, elem_of_seqZ in Hi. unfold y. cbn [buf tail].
    rewrite list_lookup_total_insert_ne; [done|]. intros E. pose proof (Z.mod_pos_bound (tail x + i) 64 ltac:(lia)).
    specialize (Hidx i ltac:(lia) ltac:(lia)). lia.
  - replace (seqZ (0 + count x) 1) with [count x] by (rewrite seqZ_cons by lia; f_equal; lia). cbn [map]. f_equal. unfold y. cbn [buf tail].
    replace ((tail x + count x) mod 64) with (head x).
    2: { unfold count. rewrite Zplus_mod_idemp_r. replace (tail x + (head x - tail x)) with (head x) by lia.
         by rewrite Z.mod_small. }
    apply list_lookup_total_insert_eq. lia.
Qed.

(** ** The invariant *)

Definition holding (p : pc) : bool :=
  match p with Get_wait | Get_woken | Put_wait _ | Put_woken _ => true | Get_lock | Get_released | Put_lock _ | Put_released _ => false end.

Definition waits (w : waiter) (p : pc) : bool :=
  match w, p with Not_empty, Get_wait | Not_full, Put_wait _ => true | _, _ => false end.

(** The part that does not speak of the contents. *)
Record base (s : st) : Prop := {
  inv_wf : q_wf (q s);
  inv_off : intr_off s = true;
  inv_null : pcs s !! NULL = None;
  inv_waiting : forall w, waiting w (q s) <> NULL -> exists p, pcs s !! waiting w (q s) = Some p /\ waits w p = true;
  inv_waits : forall w t p, pcs s !! t = Some p -> waits w p = true -> waiting w (q s) = t;
  inv_holding : forall t p, pcs s !! t = Some p -> holding p = true -> holder s = t;
  inv_held : holder s <> NULL -> exists p, pcs s !! holder s = Some p /\ holding p = true
}.

Definition level (w : waiter) : Z := match w with Not_empty => 0 | Not_full => 63 end.

(** A thread waits for a condition only while it does not hold. *)
Definition inv (s : st) : Prop := base s /\ forall w, waiting w (q s) <> NULL -> count (q s) = level w.

Lemma assert_off_ok s : intr_off s = true -> assert_off s = Ok (tt, s).
Proof. intros H. unfold assert_off. rewrite (bind_ok _ _ _ true s); [done|]. unfold gets. by rewrite H. Qed.

Lemma condition_ok w s : q_wf (q s) -> intr_off s = true -> condition w s = Ok (count (q s) =? level w, s).
Proof.
  intros Hwf Hoff. destruct w; cbn [condition]; unfold intq_full, intq_empty; mstep (assert_off_ok s Hoff);
    unfold gets; f_equal; f_equal; cbn [level]; [by apply full_eqb|by apply empty_eqb].
Qed.

Definition woken (p : pc) : pc := match p with Get_wait => Get_woken | Put_wait b => Put_woken b | p => p end.

Lemma waits_holding w p : waits w p = true -> holding p = true /\ holding (woken p) = true.
Proof. by destruct w, p. Qed.

Lemma waits_inj w w' p : waits w p = true -> waits w' p = true -> w = w'.
Proof. by destruct w, w', p. Qed.

Lemma waits_woken w w' p : waits w p = true -> waits w' (woken p) = false.
Proof. by destruct w, w', p. Qed.

Lemma intq_unblock_ok w t p s : pcs s !! t = Some p -> waits w p = true -> thread_unblock t s = set_pc t (woken p) s.
Proof. intros H Hw. unfold thread_unblock. rewrite H. by destruct w, p. Qed.

Definition same_bytes (x y : intq) : Prop := buf x = buf y /\ head x = head y /\ tail x = tail y.

Lemma same_bytes_wf x y : same_bytes x y -> q_wf x -> q_wf y.
Proof. intros (H1 & H2 & H3) (L & Hh & Ht). unfold q_wf. by rewrite <- H1, <- H2, <- H3. Qed.

Lemma same_bytes_count x y : same_bytes x y -> count x = count y.
Proof. intros (_ & H2 & H3). unfold count. by rewrite H2, H3. Qed.

Lemma same_bytes_contents x y : same_bytes x y -> contents x = contents y.
Proof. intros (H1 & H2 & H3). by apply contents_same. Qed.

Lemma set_waiting_same w t x : same_bytes x (set_waiting w t x).
Proof. by destruct w. Qed.

Lemma waiting_set w w' t x : waiting w' (set_waiting w t x) = if decide (w = w') then t else waiting w' x.
Proof. by destruct w, w'. Qed.

Lemma signal_ok w s :
  base s -> count (q s) <> level w ->
  exists s', signal w s = Ok (tt, s') /\ base s' /\ same_bytes (q s) (q s') /\ waiting w (q s') = NULL /\
    (forall w', w' <> w -> waiting w' (q s') = waiting w' (q s)) /\
    (forall t, pcs s !! t = None -> pcs s' !! t = None) /\
    (forall t p, pcs s !! t = Some p -> waits w p = true -> pcs s' !! t = Some (woken p)).
Proof.
  intros Hs Hc. unfold signal. mstep (assert_off_ok s (inv_off s Hs)).
  mstep (condition_ok w s (inv_wf s Hs) (inv_off s Hs)). rewrite (proj2 (Z.eqb_neq _ _) Hc). cbn [negb].
  rewrite (bind_ok _ _ _ tt s) by done. cbv beta. rewrite (bind_ok _ _ _ (waiting w (q s)) s) by done. cbv beta.
  destruct (Z.eqb_spec (waiting w (q s)) NULL) as [E|E]; cbn [negb].
  { exists s. split_and!; try done. intros t p Hp Hw. rewrite (inv_waits s Hs w t p Hp Hw) in E. subst t.
    by rewrite (inv_null s Hs) in Hp. }
  destruct (inv_waiting s Hs w E) as (p & Hp & Hw). set (t := waiting w (q s)) in *.
  rewrite (bind_ok _ _ _ tt (St (q s) (holder s) (<[t := woken p]> (pcs s)) (intr_off s)))
    by (by rewrite (intq_unblock_ok w t p s)). cbv beta.
  eexists. split; [reflexivity|]. cbn [q holder pcs intr_off].
  destruct (waits_holding w p Hw) as [Hp1 Hp2].
  split_and!.
  2: apply set_waiting_same. 2: by rewrite waiting_set, decide_True. 2: intros w' Hne; by rewrite waiting_set, decide_False.
  2: intros u Hu; rewrite lookup_insert_ne; [done|]; congruence.
  2: { intros u p' Hu Hp'. assert (u = t) as -> by (symmetry; by apply (inv_waits s Hs w u p')).
       rewrite Hp in Hu. injection Hu as <-. by rewrite lookup_insert_eq. }
  split; cbn [q holder pcs intr_off].
  - eapply same_bytes_wf; [apply set_waiting_same|]. apply Hs.
  - apply Hs.
  - rewrite lookup_insert_ne by done. apply Hs.
  - intros w'. rewrite waiting_set. case_decide as Ew; [done|]. intros Hne.
    destruct (inv_waiting s Hs w' Hne) as (p' & Hp' & Hw'). exists p'. rewrite lookup_insert_ne; [done|].
    intros Et. rewrite <- Et, Hp in Hp'. injection Hp' as <-. by apply Ew, (waits_inj _ _ p).
  - intros w' u p' Hu Hw'. rewrite waiting_set. destruct (decide (t = u)) as [<-|Htu].
    + rewrite lookup_insert_eq in Hu. injection Hu as <-. by rewrite (waits_woken w w' p Hw) in Hw'.
    + rewrite lookup_insert_ne in Hu by done. case_decide as Ew; [subst w'|by apply (inv_waits s Hs w' u p')].
      by destruct Htu; apply (inv_waits s Hs w u p').
  - intros u p' Hu Hh. destruct (decide (t = u)) as [<-|Htu]; [by apply (inv_holding s Hs t p)|].
    rewrite lookup_insert_ne in Hu by done. by apply (inv_holding s Hs u p').
  - intros Hh. destruct (inv_held s Hs Hh) as (p' & Hp' & Hh'). destruct (decide (t = holder s)) as [->|Hne].
    + exists (woken p). by rewrite lookup_insert_eq.
    + exists p'. by rewrite lookup_insert_ne.
Qed.

Lemma base_set_pc s t p :
  base s -> t <> NULL -> pcs s !! t = None -> holding p = false ->
  base (St (q s) (holder s) (<[t := p]> (pcs s)) (intr_off s)).
Proof.
  intros Hs Ht Hn Hp. assert (Hw : forall w, waits w p = false) by (by intros []; destruct p).
  split; cbn [q holder pcs intr_off]; [apply Hs|apply Hs|rewrite lookup_insert_ne by done; apply Hs|..].
  - intros w Hw'. destruct (inv_waiting s Hs w Hw') as (p' & Hp' & ?). exists p'.
    rewrite lookup_insert_ne by congruence. done.
  - intros w u p' Hu Hp'. destruct (decide (t = u)) as [<-|Hne].
    + rewrite lookup_insert_eq in Hu. injection Hu as <-. by rewrite Hw in Hp'.
    + rewrite lookup_insert_ne in Hu by done. by apply (inv_waits s Hs w u p').
  - intros u p' Hu Hp'. destruct (decide (t = u)) as [<-|Hne].
    + rewrite lookup_insert_eq in Hu. congruence.
    + rewrite lookup_insert_ne in Hu by done. by apply (inv_holding s Hs u p').
  - intros Hh. destruct (inv_held s Hs Hh) as (p' & Hp' & ?). exists p'. rewrite lookup_insert_ne by congruence. done.
Qed.

(** Nobody waits while the lock is free. *)
Lemma free_no_waiting s w : base s -> holder s = NULL -> waiting w (q s) = NULL.
Proof.
  intros Hs Hh. destruct (decide (waiting w (q s) = NULL)) as [|Hne]; [done|].
  destruct (inv_waiting s Hs w Hne) as (p & Hp & Hw). destruct (waits_holding w p Hw) as [Hp1 _].
  by rewrite <- (inv_holding s Hs _ p Hp Hp1) in Hne.
Qed.

Lemma base_wait s t w p :
  base s -> holder s = NULL -> t <> NULL -> pcs s !! t = None -> waits w p = true ->
  base (St (set_waiting w t (q s)) t (<[t := p]> (pcs s)) (intr_off s)).
Proof.
  intros Hs Hh Ht Hn Hw. destruct (waits_holding w p Hw) as [Hp1 _].
  assert (Hfree : forall u p', pcs s !! u = Some p' -> holding p' = false).
  { intros u p' Hu. destruct (holding p') eqn:E; [|done]. pose proof (inv_holding s Hs u p' Hu E) as Hu'.
    rewrite Hh in Hu'. subst u. by rewrite (inv_null s Hs) in Hu. }
  split; cbn [q holder pcs intr_off].
  - eapply same_bytes_wf; [apply set_waiting_same|]. apply Hs.
  - apply Hs.
  - rewrite lookup_insert_ne by done. apply Hs.
  - intros w'. rewrite waiting_set. case_decide as E; [subst w'; intros _; exists p; by rewrite lookup_insert_eq|].
    by rewrite (free_no_waiting s w' Hs Hh).
  - intros w' u p' Hu Hp'. destruct (decide (t = u)) as [<-|Hne].
    + rewrite lookup_insert_eq in Hu. injection Hu as <-. by rewrite waiting_set, decide_True by (by apply (waits_inj w w' p)).
    + rewrite lookup_insert_ne in Hu by done. destruct (waits_holding w' p' Hp') as [Hx _].
      by rewrite (Hfree u p' Hu) in Hx.
  - intros u p' Hu Hp'. destruct (decide (t = u)) as [<-|Hne]; [done|]. rewrite lookup_insert_ne in Hu by done.
    by rewrite (Hfree u p' Hu) in Hp'.
  - intros _. exists p. by rewrite lookup_insert_eq.
Qed.

Lemma acquire_run {A} s t P w p :
  q_wf (q s) -> intr_off s = true ->
  lock_acquire t P (wait t w p;; mret (@None A)) s =
    if holder s =? NULL then
      if count (q s) =? level w
      then Ok (None, St (set_waiting w t (q s)) t (<[t := p]> (pcs s)) (intr_off s)) else Err EAssert
    else Ok (None, St (q s) (holder s) (<[t := P]> (pcs s)) (intr_off s)).
Proof.
  intros Hwf Hoff. unfold lock_acquire. rewrite (bind_ok _ _ _ (holder s) s) by done. cbv beta.
  destruct (holder s =? NULL); [|done]. set (s1 := St (q s) t (pcs s) (intr_off s)).
  rewrite (bind_ok _ _ _ tt s1) by done. cbv beta. unfold wait. rewrite !bind_assoc. mstep (assert_off_ok s1 Hoff). rewrite bind_assoc.
  mstep (condition_ok w s1 Hwf Hoff). cbn [q s1]. by destruct (count (q s) =? level w).
Qed.

(** A thread that waits, for the lock or for the condition. *)
Lemma acquire_ok {A} s t P w p :
  inv s -> t <> NULL -> pcs s !! t = None -> holding P = false -> waits w p = true ->
  (holder s <> NULL \/ count (q s) = level w) ->
  exists s', lock_acquire t P (wait t w p;; mret (@None A)) s = Ok (None, s') /\ inv s' /\ contents (q s') = contents (q s).
Proof.
  intros [Hs Hc] Ht Hn HP Hw Hcase. rewrite acquire_run by apply Hs.
  destruct (Z.eqb_spec (holder s) NULL) as [Hh|Hh].
  - destruct Hcase as [|Hlevel]; [done|]. rewrite (proj2 (Z.eqb_eq _ _) Hlevel).
    eexists. split; [done|]. split; [split; [by apply base_wait|]|].
    + cbn [q]. intros w'. rewrite waiting_set. case_decide as E; [subst w'; intros _|by rewrite (free_no_waiting s w' Hs Hh)].
      by rewrite <- (same_bytes_count _ _ (set_waiting_same w t (q s))).
    + symmetry. apply same_bytes_contents, set_waiting_same.
  - eexists. split; [done|]. split; [split; [by apply base_set_pc|]|]; done.
Qed.

Lemma base_bytes s x :
  base s -> q_wf x -> (forall w, waiting w x = waiting w (q s)) -> base (St x (holder s) (pcs s) (intr_off s)).
Proof.
  intros [H1 H2 H3 H4 H5 H6 H7] Hx Hw. split; cbn [q holder pcs intr_off]; try done.
  - intros w. rewrite Hw. apply H4.
  - intros w t p. rewrite Hw. apply H5.
Qed.

(** The end of [intq_getc] and of [intq_putc]: the other condition ends. *)
Lemma signal_inv s x w w' :
  inv s -> w <> w' -> q_wf x -> (forall w, waiting w x = waiting w (q s)) -> count x <> level w -> count (q s) <> level w' ->
  exists s', signal w (St x (holder s) (pcs s) (intr_off s)) = Ok (tt, s') /\ inv s' /\ contents (q s') = contents x /\
    (forall t, pcs s !! t = None -> pcs s' !! t = None) /\
    (forall t p, pcs s !! t = Some p -> waits w p = true -> pcs s' !! t = Some (woken p)).
Proof.
  intros [Hs Hc] Hne Hx Hw Hl Hl'. destruct (signal_ok w _ (base_bytes s x Hs Hx Hw) Hl) as (s' & E & Hb & Hsame & Hw0 & Hother & Hp).
  cbn [q pcs] in *. exists s'. split; [done|]. split; [split; [done|]|by rewrite (same_bytes_contents _ _ Hsame)].
  intros w''. assert (w'' = w \/ w'' = w') as [->| ->] by (clear -Hne; destruct w, w', w''; first [by left|by right|congruence]); [done|].
  rewrite Hother, Hw by done. intros Hn. by destruct Hl'; apply Hc.
Qed.

Lemma take_byte_run s :
  inv s -> count (q s) <> 0 ->
  exists b s', take_byte s = Ok (Some b, s') /\ inv s' /\ contents (q s) = b :: contents (q s') /\
    (forall t, pcs s !! t = None -> pcs s' !! t = None) /\
    (forall t p, pcs s !! t = Some p -> waits Not_full p = true -> pcs s' !! t = Some (woken p)).
Proof.
  intros Hs Hc. pose proof (inv_wf s (proj1 Hs)) as Hwf.
  destruct (contents_take (q s) (not_full (q s)) (not_empty (q s)) Hwf Hc) as (b & Hb & Hcont).
  set (x := Intq _ _ _ _ _) in Hcont.
  assert (Hx : q_wf x) by (destruct Hwf as (? & ? & ?); unfold q_wf, x; cbn; pose proof (next_range (tail (q s))); auto).
  assert (Hcx : count x <> 63).
  { rewrite <- contents_length. pose proof (contents_length (q s)) as Hl. rewrite Hcont in Hl. cbn [length] in Hl.
    pose proof (count_range (q s)). lia. }
  destruct (signal_inv s x Not_full Not_empty Hs) as (s' & E & Hs' & Hc' & Hp & Hw); [done|done|by intros []|done|done|].
  exists b, s'. split_and!; [|done|by rewrite Hc'|done|done].
  unfold take_byte. rewrite (bind_ok _ _ _ (q s) s) by done. cbv beta. rewrite Hb. rewrite (bind_ok _ _ _ b s) by done. cbv beta.
  rewrite (bind_ok _ _ _ tt (St x (holder s) (pcs s) (intr_off s))) by done. cbv beta. by mstep E.
Qed.

Lemma take_byte_ok s :
  inv s -> count (q s) <> 0 ->
  exists b s', take_byte s = Ok (Some b, s') /\ inv s' /\ contents (q s) = b :: contents (q s') /\
    (forall t, pcs s !! t = None -> pcs s' !! t = None).
Proof. intros Hs Hc. destruct (take_byte_run s Hs Hc) as (b & s' & E & Hs' & Hcont & Hp & _). eauto 6. Qed.

Lemma take_byte_wakes s r s' t x :
  inv s -> count (q s) = 63 -> pcs s !! t = Some (Put_wait x) -> take_byte s = Ok (r, s') -> pcs s' !! t = Some (Put_woken x).
Proof.
  intros Hs Hc Ht Hrun. destruct (take_byte_run s Hs ltac:(lia)) as (b & s1 & E & _ & _ & _ & Hw). rewrite E in Hrun. injection Hrun as <- <-.
  exact (Hw t _ Ht eq_refl).
Qed.

Lemma add_byte_ok s b :
  inv s -> count (q s) <> 63 ->
  exists s', add_byte b s = Ok (Some tt, s') /\ inv s' /\ contents (q s') = contents (q s) ++ [b] /\
    (forall t, pcs s !! t = None -> pcs s' !! t = None) /\
    (forall t, pcs s !! t = Some Get_wait -> pcs s' !! t = Some Get_woken).
Proof.
  intros Hs Hc. pose proof (inv_wf s (proj1 Hs)) as Hwf.
  pose proof (contents_add (q s) (not_full (q s)) (not_empty (q s)) b Hwf Hc) as Hcont. set (x := Intq _ _ _ _ _) in Hcont.
  pose proof Hwf as (Hl & Hh & Ht).
  assert (Hx : q_wf x) by (unfold q_wf, x; cbn; rewrite length_insert; pose proof (next_range (head (q s))); auto).
  assert (Hcx : count x <> 0) by (rewrite <- contents_length, Hcont, length_app; cbn [length]; lia).
  destruct (signal_inv s x Not_empty Not_full Hs) as (s' & E & Hs' & Hc' & Hp); [done|done|by intros []|done|done|].
  exists s'. split_and!; [|done|by rewrite Hc'|apply Hp|by intros t Ht'; apply (proj2 Hp t Get_wait)].
  unfold add_byte. rewrite (bind_ok _ _ _ (q s) s) by done. cbv beta.
  destruct (lookup_lt_is_Some_2 (buf (q s)) (Z.to_nat (head (q s)))) as [old ->]; [lia|].
  rewrite (bind_ok _ _ _ old s) by done. cbv beta.
  rewrite (bind_ok _ _ _ tt (St x (holder s) (pcs s) (intr_off s))) by done. cbv beta. by mstep E.
Qed.

(** Calls by a thread T that has no call open. *)
Lemma getc_thread s t :
  inv s -> t <> NULL -> pcs s !! t = None ->
  exists r s', intq_getc (Thread t) s = Ok (r, s') /\ inv s' /\
    match r with
    | Some b => contents (q s) = b :: contents (q s') /\ pcs s' !! t = None
    | None => contents (q s') = contents (q s) /\ contents (q s) = []
    end.
Proof.
  intros Hs Ht Hn. destruct (Hs) as [Hb _]. unfold intq_getc. mstep (assert_off_ok s (inv_off s Hb)).
  mstep (condition_ok Not_empty s (inv_wf s Hb) (inv_off s Hb)). cbn [level].
  destruct (Z.eqb_spec (count (q s)) 0) as [Hc|Hc].
  - rewrite (bind_ok _ _ _ tt s) by done. cbv beta.
    destruct (acquire_ok (A:=Z) s t Get_lock Not_empty Get_wait Hs) as (s' & E & Hs' & Hc'); [done..|by right|].
    exists None, s'. split_and!; [apply E|done|done|by apply contents_nil].
  - destruct (take_byte_ok s Hs Hc) as (b & s' & E & Hs' & Hc' & Hp). exists (Some b), s'. auto.
Qed.

Lemma putc_thread s t b :
  inv s -> t <> NULL -> pcs s !! t = None ->
  exists r s', intq_putc (Thread t) b s = Ok (r, s') /\ inv s' /\
    match r with
    | Some _ => contents (q s') = contents (q s) ++ [b] /\ pcs s' !! t = None
    | None => contents (q s') = contents (q s) /\ count (q s) = 63
    end.
Proof.
  intros Hs Ht Hn. destruct (Hs) as [Hb _]. unfold intq_putc. mstep (assert_off_ok s (inv_off s Hb)).
  mstep (condition_ok Not_full s (inv_wf s Hb) (inv_off s Hb)). cbn [level].
  destruct (Z.eqb_spec (count (q s)) 63) as [Hc|Hc].
  - rewrite (bind_ok _ _ _ tt s) by done. cbv beta.
    destruct (acquire_ok (A:=unit) s t (Put_lock b) Not_full (Put_wait b) Hs) as (s' & E & Hs' & Hc'); [done..|by right|].
    exists None, s'. split_and!; [apply E|done|done|done].
  - destruct (add_byte_ok s b Hs Hc) as (s' & E & Hs' & Hc' & Hp & _). exists (Some tt), s'. auto.
Qed.

Lemma getc_interrupt s :
  inv s ->
  if count (q s) =? 0 then intq_getc Interrupt s = Err EAssert else
  exists b s', intq_getc Interrupt s = Ok (Some b, s') /\ inv s' /\ contents (q s) = b :: contents (q s').
Proof.
  intros Hs. destruct (Hs) as [Hb _]. unfold intq_getc. mstep (assert_off_ok s (inv_off s Hb)).
  mstep (condition_ok Not_empty s (inv_wf s Hb) (inv_off s Hb)). cbn [level].
  destruct (Z.eqb_spec (count (q s)) 0) as [Hc|Hc]; [done|].
  destruct (take_byte_ok s Hs Hc) as (b & s' & E & Hs' & Hc' & _). by exists b, s'.
Qed.

Lemma putc_interrupt s b :
  inv s ->
  if count (q s) =? 63 then intq_putc Interrupt b s = Err EAssert else
  exists s', intq_putc Interrupt b s = Ok (Some tt, s') /\ inv s' /\ contents (q s') = contents (q s) ++ [b].
Proof.
  intros Hs. destruct (Hs) as [Hb _]. unfold intq_putc. mstep (assert_off_ok s (inv_off s Hb)).
  mstep (condition_ok Not_full s (inv_wf s Hb) (inv_off s Hb)). cbn [level].
  destruct (Z.eqb_spec (count (q s)) 63) as [Hc|Hc]; [done|].
  destruct (add_byte_ok s b Hs Hc) as (s' & E & Hs' & Hc' & _). by exists s'.
Qed.

(** ** A thread goes on *)

Lemma inv_release s t p :
  inv s -> pcs s !! t = Some p -> holding p = true -> (forall w, waits w p = false) ->
  holder s = t /\ inv (St (q s) NULL (delete t (pcs s)) (intr_off s)).
Proof.
  intros [Hs Hc] Hp Hh Hw. pose proof (inv_holding s Hs t p Hp Hh) as Ht. split; [done|].
  assert (Honly : forall u p', pcs s !! u = Some p' -> holding p' = true -> u = t)
    by (intros u p' Hu Hp'; rewrite <- Ht; symmetry; by apply (inv_holding s Hs u p')).
  assert (Hnone : forall w, waiting w (q s) = NULL).
  { intros w. destruct (decide (waiting w (q s) = NULL)) as [|Hne]; [done|].
    destruct (inv_waiting s Hs w Hne) as (p' & Hp' & Hw'). destruct (waits_holding w p' Hw') as [Hh' _].
    rewrite (Honly _ _ Hp' Hh'), Hp in Hp'. injection Hp' as <-. by rewrite Hw in Hw'. }
  split; [|cbn [q]; intros w; by rewrite Hnone].
  split; cbn [q holder pcs intr_off]; [apply Hs|apply Hs|by apply lookup_delete_None; right; apply Hs| | | |done].
  - intros w. by rewrite Hnone.
  - intros w u p' Hu Hp'. apply lookup_delete_Some in Hu as [Hne Hu]. destruct (waits_holding w p' Hp') as [Hh' _].
    by destruct Hne; symmetry; apply (Honly u p').
  - intros u p' Hu Hp'. apply lookup_delete_Some in Hu as [Hne Hu]. by destruct Hne; symmetry; apply (Honly u p').
Qed.

Lemma inv_clear s t p :
  inv s -> pcs s !! t = Some p -> holding p = false -> inv (St (q s) (holder s) (delete t (pcs s)) (intr_off s)).
Proof.
  intros [Hs Hc] Hp Hh. split; [|done]. assert (Hw : forall w, waits w p = false) by (by intros []; destruct p).
  split; cbn [q holder pcs intr_off]; [apply Hs|apply Hs|by apply lookup_delete_None; right; apply Hs|..].
  - intros w Hne. destruct (inv_waiting s Hs w Hne) as (p' & Hp' & Hw'). exists p'. rewrite lookup_delete_ne; [done|].
    intros E. rewrite <- E, Hp in Hp'. injection Hp' as <-. by rewrite Hw in Hw'.
  - intros w u p' Hu. apply lookup_delete_Some in Hu as [_ Hu]. by apply (inv_waits s Hs w u p').
  - intros u p' Hu. apply lookup_delete_Some in Hu as [_ Hu]. by apply (inv_holding s Hs u p').
  - intros Hne. destruct (inv_held s Hs Hne) as (p' & Hp' & Hh'). exists p'. rewrite lookup_delete_ne; [done|].
    intros E. rewrite <- E, Hp in Hp'. congruence.
Qed.

Lemma inv_not_null s t p : inv s -> pcs s !! t = Some p -> t <> NULL.
Proof. intros [Hs _] Hp ->. by rewrite (inv_null s Hs) in Hp. Qed.

Lemma release_run s t p : holder s = t ->
  (lock_release t;; set_pc t p) s = Ok (tt, St (q s) NULL (<[t := p]> (pcs s)) (intr_off s)).
Proof.
  intros <-. unfold lock_release. rewrite bind_assoc. rewrite (bind_ok _ _ _ (holder s) s) by done. cbv beta. rewrite bind_assoc.
  by rewrite Z.eqb_refl.
Qed.

(** The section of a woken thread: it gives up the lock. *)
Lemma release_runs {A} s t p p' :
  inv s -> pcs s !! t = Some p -> holding p = true -> (forall w, waits w p = false) -> holding p' = false ->
  exists s', (lock_release t;; set_pc t p';; mret (@None A)) s = Ok (None, s') /\ inv s' /\ q s' = q s /\ holder s' = NULL /\
    pcs s' = <[t := p']> (pcs s).
Proof.
  intros Hs Hp Hh Hw Hp'. destruct (inv_release s t p Hs Hp Hh Hw) as [Ht Hinv].
  pose proof (inv_not_null s t p Hs Hp) as Hn. destruct Hinv as [Hb Hl].
  exists (St (q s) NULL (<[t := p']> (pcs s)) (intr_off s)). split_and!; try done.
  - rewrite <- bind_assoc. by rewrite (bind_ok _ _ _ _ _ (release_run s t p' Ht)).
  - pose proof (base_set_pc _ t p' Hb Hn (lookup_delete_eq _ _) Hp') as H. cbn [q holder pcs intr_off] in H. rewrite insert_delete_eq in H.
    split; [exact H|exact Hl].
Qed.

Lemma resume_woken_get s t :
  inv s -> pcs s !! t = Some Get_woken ->
  exists s', getc_rest t s = Ok (None, s') /\ inv s' /\ q s' = q s /\ holder s' = NULL /\ pcs s' = <[t := Get_released]> (pcs s).
Proof. intros Hs Hp. by apply (release_runs s t Get_woken); [..|intros []|]. Qed.

Lemma resume_woken_put s t b :
  inv s -> pcs s !! t = Some (Put_woken b) ->
  exists s', putc_rest t b s = Ok (None, s') /\ inv s' /\ q s' = q s /\ holder s' = NULL /\ pcs s' = <[t := Put_released b]> (pcs s).
Proof. intros Hs Hp. by apply (release_runs s t (Put_woken b)); [..|intros []|]. Qed.

(** Behind it the call starts over. *)
Lemma resume_released_get s t :
  inv s -> pcs s !! t = Some Get_released ->
  exists r s', getc_again t s = Ok (r, s') /\ inv s' /\
    match r with
    | Some b => contents (q s) = b :: contents (q s') /\ pcs s' !! t = None
    | None => contents (q s') = contents (q s) /\ contents (q s) = []
    end.
Proof.
  intros Hs Hp. unfold getc_again. rewrite (bind_ok _ _ _ tt (St (q s) (holder s) (delete t (pcs s)) (intr_off s))) by done. cbv beta.
  apply (getc_thread (St (q s) (holder s) (delete t (pcs s)) (intr_off s)) t); [by apply (inv_clear s t Get_released)|by apply (inv_not_null s t Get_released)|].
  apply lookup_delete_eq.
Qed.

Lemma resume_released_put s t b :
  inv s -> pcs s !! t = Some (Put_released b) ->
  exists r s', putc_again t b s = Ok (r, s') /\ inv s' /\
    match r with
    | Some _ => contents (q s') = contents (q s) ++ [b] /\ pcs s' !! t = None
    | None => contents (q s') = contents (q s) /\ count (q s) = 63
    end.
Proof.
  intros Hs Hp. unfold putc_again. rewrite (bind_ok _ _ _ tt (St (q s) (holder s) (delete t (pcs s)) (intr_off s))) by done. cbv beta.
  apply (putc_thread (St (q s) (holder s) (delete t (pcs s)) (intr_off s)) t b); [by apply (inv_clear s t (Put_released b))|by apply (inv_not_null s t (Put_released b))|].
  apply lookup_delete_eq.
Qed.

Lemma resume_lock {A} s t w P p :
  inv s -> pcs s !! t = Some P -> holding P = false -> waits w p = true -> holder s = NULL ->
  if count (q s) =? level w then
    exists s', (clear_pc t;; lock_acquire t P (wait t w p;; mret (@None A))) s = Ok (None, s') /\ inv s' /\
      contents (q s') = contents (q s)
  else (clear_pc t;; lock_acquire t P (wait t w p;; mret (@None A))) s = Err EAssert.
Proof.
  intros Hs HP Hh Hw Hfree. set (s1 := St (q s) (holder s) (delete t (pcs s)) (intr_off s)).
  assert (Hs1 : inv s1) by (by apply (inv_clear s t P)). rewrite (bind_ok _ _ _ tt s1) by done. cbv beta.
  destruct (Z.eqb_spec (count (q s)) (level w)) as [Hc|Hc].
  - apply (acquire_ok s1 t P w p Hs1); [by apply (inv_not_null s t P)|apply lookup_delete_eq|done|done|by right].
  - rewrite acquire_run by apply Hs1. cbn [holder q s1]. rewrite Hfree. by rewrite (proj2 (Z.eqb_neq _ _) Hc).
Qed.

(** ** Every section *)

(** The sections that stop the kernel: an interrupt handler that finds nothing
    to take or no room, and a thread that gets the lock after the condition it
    was to wait for has changed. *)
Definition fails (a : action) (s : st) : bool :=
  match a with
  | Getc Interrupt => count (q s) =? 0
  | Putc Interrupt _ | Input_putc _ => count (q s) =? 63
  | Resume t =>
      match pcs s !! t with
      | Some Get_lock => negb (count (q s) =? 0)
      | Some (Put_lock _) => negb (count (q s) =? 63)
      | _ => false
      end
  | _ => false
  end.

Lemma exec_spec a s :
  inv s -> enabled a s ->
  if fails a s then exec a s = Err EAssert else
  exists e s', exec a s = Ok (e, s') /\ inv s' /\ contents (q s) ++ ins e = outs e ++ contents (q s').
Proof.
  assert (Hgot : forall (c : M st (option Z)) r s', inv s -> c s = Ok (r, s') -> inv s' ->
    match r with Some b => contents (q s) = b :: contents (q s') | None => contents (q s') = contents (q s) end ->
    exists e s', got c s = Ok (e, s') /\ inv s' /\ contents (q s) ++ ins e = outs e ++ contents (q s')).
  { intros c r s' Hs E Hs' Hr. unfold got. mstep E. destruct r as [b|].
    - exists (Got b), s'. cbn. by rewrite app_nil_r.
    - exists Slept, s'. cbn. by rewrite app_nil_r, Hr. }
  assert (Hadd : forall b (c : M st (option unit)) r s', inv s -> c s = Ok (r, s') -> inv s' ->
    match r with Some _ => contents (q s') = contents (q s) ++ [b] | None => contents (q s') = contents (q s) end ->
    exists e s', added b c s = Ok (e, s') /\ inv s' /\ contents (q s) ++ ins e = outs e ++ contents (q s')).
  { intros b c r s' Hs E Hs' Hr. unfold added. mstep E. destruct r as [[]|].
    - by exists (Added b), s'.
    - exists Slept, s'. cbn. by rewrite app_nil_r, Hr. }
  intros Hs He. destruct a as [[t|]|[t|] b|b|t]; cbn [exec fails enabled] in *.
  - destruct He as [Ht Hn]. destruct (getc_thread s t Hs Ht Hn) as (r & s' & E & Hs' & Hr).
    apply (Hgot _ r s'); [done..|]. by destruct r; destruct Hr.
  - pose proof (getc_interrupt s Hs) as H. destruct (count (q s) =? 0); [unfold got; by rewrite (bind_err _ _ _ _ H)|].
    destruct H as (b & s' & E & Hs' & Hr). by apply (Hgot _ (Some b) s').
  - destruct He as [Ht Hn]. destruct (putc_thread s t b Hs Ht Hn) as (r & s' & E & Hs' & Hr).
    apply (Hadd b _ r s'); [done..|]. by destruct r; destruct Hr.
  - pose proof (putc_interrupt s b Hs) as H. destruct (count (q s) =? 63); [unfold added; by rewrite (bind_err _ _ _ _ H)|].
    destruct H as (s' & E & Hs' & Hr). by apply (Hadd b _ (Some tt) s').
  - assert (Hi : input_putc b s = if count (q s) =? 63 then Err EAssert else intq_putc Interrupt b s).
    { destruct Hs as [Hb _]. unfold input_putc. mstep (assert_off_ok s (inv_off s Hb)).
      mstep (condition_ok Not_full s (inv_wf s Hb) (inv_off s Hb)). cbn [level]. by destruct (count (q s) =? 63). }
    pose proof (putc_interrupt s b Hs) as H.
    destruct (count (q s) =? 63); [unfold added; by rewrite (bind_err _ _ _ _ Hi)|].
    destruct H as (s' & E & Hs' & Hr). apply (Hadd b _ (Some tt) s'); [done|by rewrite Hi|done|done].
  - unfold resume. destruct (pcs s !! t) as [[| | | |b|b|b|b]|] eqn:Hp; try done.
    + pose proof (resume_lock (A:=Z) s t Not_empty Get_lock Get_wait Hs Hp eq_refl eq_refl He) as H. cbn [level] in H.
      destruct (count (q s) =? 0); cbn [negb]; [|unfold got; by rewrite (bind_err _ _ _ _ H)].
      destruct H as (s' & E & Hs' & Hr). by apply (Hgot _ None s').
    + destruct (resume_woken_get s t Hs Hp) as (s' & E & Hs' & Hr & _). apply (Hgot _ None s'); [done..|]. by rewrite Hr.
    + destruct (resume_released_get s t Hs Hp) as (r & s' & E & Hs' & Hr). apply (Hgot _ r s'); [done..|]. by destruct r; destruct Hr.
    + pose proof (resume_lock (A:=unit) s t Not_full (Put_lock b) (Put_wait b) Hs Hp eq_refl eq_refl He) as H. cbn [level] in H.
      destruct (count (q s) =? 63); cbn [negb]; [|unfold added; by rewrite (bind_err _ _ _ _ H)].
      destruct H as (s' & E & Hs' & Hr). by apply (Hadd b _ None s').
    + destruct (resume_woken_put s t b Hs Hp) as (s' & E & Hs' & Hr & _). apply (Hadd b _ None s'); [done..|]. by rewrite Hr.
    + destruct (resume_released_put s t b Hs Hp) as (r & s' & E & Hs' & Hr). apply (Hadd b _ r s'); [done..|]. by destruct r; destruct Hr.
Qed.

Lemma reachable_inv may xs ys s : reachable may xs ys s -> inv s /\ xs = ys ++ contents (q s).
Proof.
  induction 1 as [b Hb|xs ys s a e s' _ [Hs IH] _ He Hrun].
  - split; [|done]. split; [|by intros []]. split; cbn; try done. by intros [].
  - pose proof (exec_spec a s Hs He) as H. destruct (fails a s); [congruence|]. destruct H as (e' & s1 & E & Hs1 & Hc).
    rewrite Hrun in E. injection E as <- <-. split; [done|]. rewrite IH, <- !app_assoc. by f_equal.
Qed.

(** A byte that is added wakes the thread that waits for one. *)
Lemma putc_wakes c y s r s' t :
  inv s -> pcs s !! t = Some Get_wait -> intq_putc c y s = Ok (r, s') -> r = Some tt /\ pcs s' !! t = Some Get_woken.
Proof.
  intros Hs Ht Hrun. pose proof Hs as [Hb Hc].
  assert (Hempty : count (q s) = 0).
  { apply (Hc Not_empty). rewrite (inv_waits s Hb Not_empty t Get_wait Ht eq_refl). by apply (inv_not_null s t Get_wait). }
  destruct (add_byte_ok s y Hs ltac:(lia)) as (s1 & E1 & _ & _ & _ & Hwake).
  unfold intq_putc in Hrun. rewrite (bind_ok _ _ _ _ _ (assert_off_ok s (inv_off s Hb))) in Hrun. cbv beta in Hrun.
  rewrite (bind_ok _ _ _ _ _ (condition_ok Not_full s (inv_wf s Hb) (inv_off s Hb))) in Hrun. cbv beta in Hrun. cbn [level] in Hrun. rewrite Hempty in Hrun.
  change (0 =? 63) with false in Hrun. cbv iota in Hrun. rewrite E1 in Hrun. injection Hrun as <- <-. auto.
Qed.

(** A byte that is taken wakes the thread that waits for room. *)
Lemma getc_wakes c s r s' t x :
  inv s -> pcs s !! t = Some (Put_wait x) -> intq_getc c s = Ok (r, s') -> pcs s' !! t = Some (Put_woken x).
Proof.
  intros Hs Ht Hrun. pose proof Hs as [Hb Hc].
  assert (Hfull : count (q s) = 63).
  { apply (Hc Not_full). rewrite (inv_waits s Hb Not_full t _ Ht eq_refl). by apply (inv_not_null s t (Put_wait x)). }
  unfold intq_getc in Hrun. rewrite (bind_ok _ _ _ _ _ (assert_off_ok s (inv_off s Hb))) in Hrun. cbv beta in Hrun.
  rewrite (bind_ok _ _ _ _ _ (condition_ok Not_empty s (inv_wf s Hb) (inv_off s Hb))) in Hrun. cbv beta in Hrun. cbn [level] in Hrun. rewrite Hfull in Hrun.
  change (63 =? 0) with false in Hrun. cbv iota in Hrun. by apply (take_byte_wakes s r).
Qed.

Lemma got_wakes a s b s' t x :
  inv s -> enabled a s -> exec a s = Ok (Got b, s') -> pcs s !! t = Some (Put_wait x) -> pcs s' !! t = Some (Put_woken x).
Proof.
  intros Hs He Hrun Ht. pose proof Hs as [Hb Hc].
  assert (Hadd : forall y (c : M st (option unit)), added y c s <> Ok (Got b, s')).
  { intros y c. unfold added. intros H. apply bind_inv in H as ([[]|] & s2 & _ & H2); done. }
  assert (Hgot : forall c : M st (option Z), got c s = Ok (Got b, s') -> c s = Ok (Some b, s')).
  { intros c H. unfold got in H. apply bind_inv in H as ([y|] & s2 & E2 & H2); cbn in H2; [|done]. by injection H2 as -> ->. }
  destruct a as [[u|]|[u|] y|y|u]; cbn [exec] in Hrun; try (by destruct (Hadd _ _ Hrun)).
  - apply Hgot in Hrun. by eapply (getc_wakes (Thread u)).
  - apply Hgot in Hrun. by eapply (getc_wakes Interrupt).
  - pose proof (inv_holding s Hb t _ Ht eq_refl) as Hh. unfold resume in Hrun. cbn [enabled] in He.
    destruct (pcs s !! u) as [[| | | |y|y|y|y]|] eqn:Hu; try done; try (by destruct (Hadd _ _ Hrun)).
    + by rewrite He in Hh; destruct (inv_not_null s t _ Hs Ht).
    + rewrite <- (inv_holding s Hb u _ Hu eq_refl), Hh, Ht in Hu. done.
    + apply Hgot in Hrun. unfold getc_again in Hrun. apply bind_inv in Hrun as ([] & s1 & E1 & Hrun). injection E1 as <-.
      eapply (getc_wakes (Thread u)); [by apply (inv_clear s u Get_released)| |exact Hrun]. cbn [pcs]. rewrite lookup_delete_ne by congruence. done.
Qed.

Lemma added_wakes a s b s' t :
  inv s -> enabled a s -> exec a s = Ok (Added b, s') -> pcs s !! t = Some Get_wait -> pcs s' !! t = Some Get_woken.
Proof.
  intros Hs He Hrun Ht. pose proof Hs as [Hb Hc].
  assert (Hgot : forall c : M st (option Z), got c s <> Ok (Added b, s')).
  { intros c. unfold got. intros H. apply bind_inv in H as ([x|] & s2 & _ & H2); done. }
  assert (Hadd : forall y (c : M st (option unit)), added y c s = Ok (Added b, s') -> c s = Ok (Some tt, s')).
  { intros y c H. unfold added in H. apply bind_inv in H as ([[]|] & s2 & E2 & H2); cbn in H2; [|done]. by injection H2 as -> ->. }
  destruct a as [[u|]|[u|] y|y|u]; cbn [exec] in Hrun; try (by destruct (Hgot _ Hrun)).
  - eapply (putc_wakes (Thread u)); [done|done|]. by apply Hadd in Hrun.
  - eapply (putc_wakes Interrupt); [done|done|]. by apply Hadd in Hrun.
  - apply Hadd in Hrun. unfold input_putc in Hrun. apply bind_inv in Hrun as ([] & s1 & E1 & Hrun). rewrite (assert_off_ok s (inv_off s Hb)) in E1. injection E1 as <-.
    apply bind_inv in Hrun as (f & s1 & E1 & Hrun). change intq_full with (condition Not_full) in E1. rewrite (condition_ok Not_full s (inv_wf s Hb) (inv_off s Hb)) in E1. injection E1 as <- <-.
    apply bind_inv in Hrun as ([] & s1 & E1 & Hrun). destruct (negb _); [|done]. injection E1 as <-. by eapply (putc_wakes Interrupt).
  - pose proof (inv_holding s Hb t Get_wait Ht eq_refl) as Hh. unfold resume in Hrun. cbn [enabled] in He.
    destruct (pcs s !! u) as [[| | | |y|y|y|y]|] eqn:Hu; try done; try (by destruct (Hgot _ Hrun)).
    + by rewrite He in Hh; destruct (inv_not_null s t Get_wait Hs Ht).
    + rewrite <- (inv_holding s Hb u _ Hu eq_refl), Hh, Ht in Hu. done.
    + apply Hadd in Hrun. unfold putc_again in Hrun. apply bind_inv in Hrun as ([] & s1 & E1 & Hrun). injection E1 as <-.
      eapply (putc_wakes (Thread u)); [by apply (inv_clear s u (Put_released y))| |exact Hrun]. cbn [pcs]. rewrite lookup_delete_ne by congruence. done.
Qed.

(** C24: An interrupt queue is a queue, in every interleaving of threads and
    interrupt handlers: the bytes added are the bytes taken, in the same
    order, followed by the contents, of which there are at most 63.  Every
    section that does not fail does what the contents say, and the sections
    that fail an assertion are exactly those that [fails] names. *)
Theorem intq_refines_fifo xs ys s :
  reachable anyone xs ys s ->
  xs = ys ++ contents (q s) /\ (length (contents (q s)) <= 63)%nat /\
  forall a, enabled a s ->
    if fails a s then exec a s = Err EAssert else
    exists e s', exec a s = Ok (e, s') /\ contents (q s) ++ ins e = outs e ++ contents (q s').
Proof.
  intros H. destruct (reachable_inv anyone xs ys s H) as [Hs Hc]. split_and!; [done| |].
  - pose proof (contents_length (q s)). pose proof (count_range (q s)). lia.
  - intros a He. pose proof (exec_spec a s Hs He) as Ha. destruct (fails a s); [done|].
    destruct Ha as (e & s' & E & _ & Hr). by exists e, s'.
Qed.

(** C37: No wake-up is lost.  A thread sleeps for a byte only while the queue is
    empty, and for room only while it is full; the byte that is added wakes the
    reader that sleeps, and the byte that is taken the writer.  A woken thread can always go on: it first gives up the lock, which lets others run, and
    then, in its next section, takes the oldest byte and returns if there is still one, or adds its own
    if there is still room; otherwise it waits again. *)
Theorem intq_no_lost_wakeup xs ys s t :
  reachable anyone xs ys s ->
  (pcs s !! t = Some Get_wait -> contents (q s) = [] /\
     forall a b s', enabled a s -> exec a s = Ok (Added b, s') -> pcs s' !! t = Some Get_woken) /\
  (forall x, pcs s !! t = Some (Put_wait x) -> length (contents (q s)) = 63%nat /\
     forall a b s', enabled a s -> exec a s = Ok (Got b, s') -> pcs s' !! t = Some (Put_woken x)) /\
  (pcs s !! t = Some Get_woken -> enabled (Resume t) s /\
     exists s', exec (Resume t) s = Ok (Slept, s') /\ holder s' = NULL /\ q s' = q s /\ pcs s' = <[t := Get_released]> (pcs s)) /\
  (forall x, pcs s !! t = Some (Put_woken x) -> enabled (Resume t) s /\
     exists s', exec (Resume t) s = Ok (Slept, s') /\ holder s' = NULL /\ q s' = q s /\ pcs s' = <[t := Put_released x]> (pcs s)) /\
  (pcs s !! t = Some Get_released -> enabled (Resume t) s /\
     exists e s', exec (Resume t) s = Ok (e, s') /\
       match contents (q s) with b :: _ => e = Got b /\ pcs s' !! t = None | [] => e = Slept end) /\
  (forall x, pcs s !! t = Some (Put_released x) -> enabled (Resume t) s /\
     exists e s', exec (Resume t) s = Ok (e, s') /\
       if count (q s) =? 63 then e = Slept else e = Added x /\ pcs s' !! t = None).
Proof.
  intros H. destruct (reachable_inv anyone xs ys s H) as [Hs _]. pose proof Hs as [Hb Hlevel].
  assert (Hw : forall w p, pcs s !! t = Some p -> waits w p = true -> count (q s) = level w).
  { intros w p Hp Hp'. apply Hlevel. rewrite (inv_waits s Hb w t p Hp Hp'). by apply (inv_not_null s t p). }
  pose proof (contents_length (q s)) as Hlen. split_and!; cbn [enabled exec]; unfold resume.
  - intros Hp. split; [apply contents_nil; by apply (Hw Not_empty Get_wait)|]. intros a b s' He E. by apply (added_wakes a s b s').
  - intros b Hp. specialize (Hw Not_full (Put_wait b) Hp eq_refl). cbn [level] in Hw. split; [lia|]. intros a c s' He E. by apply (got_wakes a s c s').
  - intros Hp. rewrite Hp. split; [done|]. destruct (resume_woken_get s t Hs Hp) as (s' & E & _ & Hr). exists s'. unfold got. mstep E. split; [done|]. split; [apply Hr|]. by split; apply Hr.
  - intros x Hp. rewrite Hp. split; [done|]. destruct (resume_woken_put s t x Hs Hp) as (s' & E & _ & Hr). exists s'. unfold added. mstep E. split; [done|]. split; [apply Hr|]. by split; apply Hr.
  - intros Hp. rewrite Hp. split; [done|]. destruct (resume_released_get s t Hs Hp) as (r & s' & E & _ & Hr). eexists _, s'. unfold got. mstep E. split; [reflexivity|].
    destruct r as [b|]; [destruct Hr as [-> Hn]; done|by destruct Hr as [_ ->]].
  - intros x Hp. rewrite Hp. split; [done|]. destruct (resume_released_put s t x Hs Hp) as (r & s' & E & _ & Hr). eexists _, s'. unfold added. mstep E. split; [reflexivity|].
    destruct r as [[]|]; [|destruct Hr as [_ ->]; done]. destruct Hr as [Hr Hn]. pose proof (contents_length (q s')) as Hl'. rewrite Hr, length_app in Hl'. cbn [length] in Hl'.
    pose proof (count_range (q s')). destruct (Z.eqb_spec (count (q s)) 63); [lia|done].
Qed.

(** ** Who may use a queue *)

Definition enabledb (a : action) (s : st) : bool :=
  match a with
  | Getc (Thread t) | Putc (Thread t) _ => negb (t =? NULL) && bool_decide (pcs s !! t = None)
  | Getc Interrupt | Putc Interrupt _ | Input_putc _ => true
  | Resume t =>
      match pcs s !! t with
      | Some (Get_lock | Put_lock _) => holder s =? NULL
      | Some (Get_woken | Put_woken _ | Get_released | Put_released _) => true
      | _ => false
      end
  end.

Lemma enabledb_spec a s : enabledb a s = true -> enabled a s.
Proof.
  destruct a as [[t|]|[t|] b|b|t]; cbn [enabledb enabled]; try done.
  - intros H. apply andb_true_iff in H as [H1 H2]. apply bool_decide_eq_true in H2. by apply negb_true_iff, Z.eqb_neq in H1.
  - intros H. apply andb_true_iff in H as [H1 H2]. apply bool_decide_eq_true in H2. by apply negb_true_iff, Z.eqb_neq in H1.
  - destruct (pcs s !! t) as [[]|]; try done; apply Z.eqb_eq.
Qed.

(** Only T has a call open, and it does not wait for the lock. *)
Definition solo (t : Z) (s : st) : Prop :=
  forall u p, pcs s !! u = Some p -> u = t /\ match p with Get_lock | Put_lock _ => False | _ => True end.

Definition keeps (P : st -> Prop) {A} (m : M st A) : Prop := forall s a s', P s -> m s = Ok (a, s') -> P s'.

Lemma keeps_bind P {A B} (m : M st A) (k : A -> M st B) : keeps P m -> (forall a, keeps P (k a)) -> keeps P (m ≫= k).
Proof. intros Hm Hk s b s'' Hs H. apply bind_inv in H as (a & s' & H1 & H2). eapply Hk, H2. by eapply Hm, H1. Qed.

Lemma keeps_ret P {A} (a : A) : keeps P (mret a).
Proof. intros s a' s' Hs H. by injection H as <- <-. Qed.

Lemma keeps_gets P {A} (f : st -> A) : keeps P (gets f).
Proof. intros s a' s' Hs H. by injection H as <- <-. Qed.

Lemma keeps_fail P {A} e : keeps P (fail (A:=A) e).
Proof. by intros s a s' Hs H. Qed.

Lemma keeps_assert P b : keeps P (ASSERT b).
Proof. destruct b; [apply keeps_ret|apply keeps_fail]. Qed.

Lemma keeps_lift_opt P {A} e (o : option A) : keeps P (lift_opt e o).
Proof. destruct o; [apply keeps_ret|apply keeps_fail]. Qed.

Lemma keeps_set_q t f : keeps (solo t) (set_q f).
Proof. intros s a s' Hs H. by injection H as _ <-. Qed.

Lemma keeps_unblock t u : keeps (solo t) (thread_unblock u).
Proof.
  intros s a s' Hs H. unfold thread_unblock in H.
  assert (Hset : forall p, set_pc u p s = Ok (a, s') -> pcs s !! u <> None ->
            match p with Get_lock | Put_lock _ => False | _ => True end -> solo t s').
  { intros p Hp Hu Hn v p' Hv. injection Hp as _ <-. cbn [pcs] in Hv. destruct (pcs s !! u) as [pu|] eqn:E; [|done].
    destruct (decide (u = v)) as [<-|Hne]; [rewrite lookup_insert_eq in Hv; injection Hv as <-; by destruct (Hs u pu E)|].
    rewrite lookup_insert_ne in Hv by done. by apply Hs. }
  destruct (pcs s !! u) as [[]|] eqn:E; try done; by eapply Hset; [apply H| |].
Qed.

Create HintDb keeps.
#[local] Hint Resolve keeps_bind keeps_ret keeps_gets keeps_fail keeps_assert keeps_lift_opt keeps_set_q keeps_unblock : keeps.

Lemma keeps_signal t w : keeps (solo t) (signal w).
Proof.
  unfold signal, condition, intq_full, intq_empty, assert_off.
  destruct w; repeat (apply keeps_bind; intros); auto with keeps; destruct (negb _); auto with keeps.
Qed.

#[local] Hint Resolve keeps_signal : keeps.

Lemma keeps_take t : keeps (solo t) take_byte.
Proof. unfold take_byte. repeat first [solve [auto with keeps]|apply keeps_bind; intros]. Qed.

Lemma keeps_add t b : keeps (solo t) (add_byte b).
Proof. unfold add_byte. repeat first [solve [auto with keeps]|apply keeps_bind; intros]. Qed.

Lemma solo_free t s : base s -> solo t s -> pcs s !! t = None -> holder s = NULL.
Proof.
  intros Hs Hsolo Hn. destruct (decide (holder s = NULL)) as [|Hne]; [done|].
  destruct (inv_held s Hs Hne) as (p & Hp & _). destruct (Hsolo _ _ Hp) as [<- _]. congruence.
Qed.

Lemma solo_wait {A} t s P w p r s' :
  base s -> solo t s -> pcs s !! t = None -> waits w p = true ->
  lock_acquire t P (wait t w p;; mret (@None A)) s = Ok (r, s') -> solo t s'.
Proof.
  intros Hs Hsolo Hn Hw Hrun. rewrite acquire_run in Hrun by apply Hs. rewrite (solo_free t s Hs Hsolo Hn) in Hrun.
  change (NULL =? NULL) with true in Hrun. destruct (_ =? _); [|done]. injection Hrun as _ <-. intros u p' Hu. cbn [pcs] in Hu.
  destruct (decide (t = u)) as [<-|Hne].
  - rewrite lookup_insert_eq in Hu. injection Hu as <-. split; [done|]. by destruct w, p.
  - rewrite lookup_insert_ne in Hu by done. by apply Hsolo.
Qed.

Lemma getc_solo c t s r s' :
  inv s -> solo t s -> (c = Interrupt \/ c = Thread t /\ pcs s !! t = None) -> intq_getc c s = Ok (r, s') -> solo t s'.
Proof.
  intros [Hs _] Hsolo Hc Hrun. unfold intq_getc in Hrun. rewrite (bind_ok _ _ _ _ _ (assert_off_ok s (inv_off s Hs))) in Hrun.
  cbv beta in Hrun. rewrite (bind_ok _ _ _ _ _ (condition_ok Not_empty s (inv_wf s Hs) (inv_off s Hs))) in Hrun.
  cbv beta in Hrun. destruct (_ =? _); [|by apply (keeps_take t s r)].
  destruct Hc as [->|[-> Hn]]; [done|]. rewrite (bind_ok _ _ _ tt s) in Hrun by done.
  by apply (solo_wait t s Get_lock Not_empty Get_wait r s').
Qed.

Lemma putc_solo c t s b r s' :
  inv s -> solo t s -> (c = Interrupt \/ c = Thread t /\ pcs s !! t = None) -> intq_putc c b s = Ok (r, s') -> solo t s'.
Proof.
  intros [Hs _] Hsolo Hc Hrun. unfold intq_putc in Hrun. rewrite (bind_ok _ _ _ _ _ (assert_off_ok s (inv_off s Hs))) in Hrun.
  cbv beta in Hrun. rewrite (bind_ok _ _ _ _ _ (condition_ok Not_full s (inv_wf s Hs) (inv_off s Hs))) in Hrun.
  cbv beta in Hrun. destruct (_ =? _); [|by apply (keeps_add t b s r)].
  destruct Hc as [->|[-> Hn]]; [done|]. rewrite (bind_ok _ _ _ tt s) in Hrun by done.
  by apply (solo_wait t s (Put_lock b) Not_full (Put_wait b) r s').
Qed.

Lemma solo_clear t s : solo t s -> solo t (St (q s) (holder s) (delete t (pcs s)) (intr_off s)).
Proof. intros Hs u p Hu. cbn [pcs] in Hu. apply lookup_delete_Some in Hu as [_ Hu]. by apply Hs. Qed.

Lemma solo_insert t s s' p : solo t s -> pcs s' = <[t := p]> (pcs s) -> match p with Get_lock | Put_lock _ => False | _ => True end -> solo t s'.
Proof.
  intros Hs E Hp u p' Hu. rewrite E in Hu. destruct (decide (t = u)) as [<-|Hne]; [rewrite lookup_insert_eq in Hu; by injection Hu as <-|].
  rewrite lookup_insert_ne in Hu by done. by apply Hs.
Qed.

Lemma solo_reachable t xs ys s : reachable (only t) xs ys s -> solo t s.
Proof.
  induction 1 as [b Hb|xs ys s a e s' Hr Hsolo Hmay He Hrun]; [by intros u p Hu|].
  destruct (reachable_inv _ _ _ _ Hr) as [Hs _].
  destruct a as [[u|]|[u|] b|b|u]; cbn [only enabled exec] in *; subst; unfold got, added, resume in Hrun.
  - apply bind_inv in Hrun as (r & s1 & E & H). injection H as _ <-. apply (getc_solo (Thread t) t s r); try done. right. by destruct He.
  - apply bind_inv in Hrun as (r & s1 & E & H). injection H as _ <-. apply (getc_solo Interrupt t s r); auto.
  - apply bind_inv in Hrun as (r & s1 & E & H). injection H as _ <-. apply (putc_solo (Thread t) t s b r); try done. right. by destruct He.
  - apply bind_inv in Hrun as (r & s1 & E & H). injection H as _ <-. apply (putc_solo Interrupt t s b r); auto.
  - apply bind_inv in Hrun as (r & s1 & E & H). injection H as _ <-. unfold input_putc in E.
    destruct Hs as [Hb Hl]. rewrite (bind_ok _ _ _ _ _ (assert_off_ok s (inv_off s Hb))) in E. cbv beta in E.
    rewrite (bind_ok _ _ _ _ _ (condition_ok Not_full s (inv_wf s Hb) (inv_off s Hb))) in E. cbv beta in E.
    apply bind_inv in E as ([] & s2 & E1 & E2). destruct (negb _); [|done]. injection E1 as <-.
    apply (putc_solo Interrupt t s b r); auto. by split.
  - destruct (pcs s !! t) as [p|] eqn:Hp; [|done]. destruct (Hsolo t p Hp) as [_ Hlock]. destruct p as [| | | |b|b|b|b]; try done.
    + destruct (resume_woken_get s t Hs Hp) as (s1 & E & _ & _ & _ & Hpcs). unfold got in Hrun. rewrite (bind_ok _ _ _ _ _ E) in Hrun. injection Hrun as _ <-.
      by apply (solo_insert t s s1 Get_released).
    + apply bind_inv in Hrun as (r & s1 & E & H). injection H as _ <-. unfold getc_again in E. rewrite (bind_ok _ _ _ tt _ (eq_refl : clear_pc t s = _)) in E. cbv beta in E.
      eapply (getc_solo (Thread t)); [by apply (inv_clear s t Get_released)|by apply solo_clear| |apply E]. right. split; [done|apply lookup_delete_eq].
    + destruct (resume_woken_put s t b Hs Hp) as (s1 & E & _ & _ & _ & Hpcs). unfold added in Hrun. rewrite (bind_ok _ _ _ _ _ E) in Hrun. injection Hrun as _ <-.
      by apply (solo_insert t s s1 (Put_released b)).
    + apply bind_inv in Hrun as (r & s1 & E & H). injection H as _ <-. unfold putc_again in E. rewrite (bind_ok _ _ _ tt _ (eq_refl : clear_pc t s = _)) in E. cbv beta in E.
      eapply (putc_solo (Thread t)); [by apply (inv_clear s t (Put_released b))|by apply solo_clear| |apply E]. right. split; [done|apply lookup_delete_eq].
Qed.

(** Several sections. *)
Fixpoint run (acts : list action) (s : st) : option st :=
  match acts with
  | [] => Some s
  | a :: acts => if enabledb a s then match exec a s with Ok (_, s') => run acts s' | Err _ => None end else None
  end.

Lemma run_reachable acts : forall xs ys s s', reachable anyone xs ys s -> run acts s = Some s' ->
  exists xs' ys', reachable anyone xs' ys' s'.
Proof.
  induction acts as [|a acts IH]; intros xs ys s s' Hr H; cbn [run] in H; [injection H as <-; eauto|].
  destruct (enabledb a s) eqn:E; [|done]. destruct (exec a s) as [[e s1]|] eqn:E1; [|done].
  eapply IH, H. eapply reach_step; [done|done|by apply enabledb_spec|done].
Qed.

Definition start : st := intq_init (St (Intq 0 0 (replicate 64 0) 0 0) 0 ∅ true).

(** Two readers, of which the second waits for the lock while bytes come
    and gets it when the first one releases it;
    a reader that is woken late, and a writer that then waits for the lock. *)
Definition two_readers : list action :=
  [Getc (Thread 1); Getc (Thread 2); Input_putc 65; Input_putc 66; Resume 1].
Definition reader_and_writer : list action :=
  Getc (Thread 1) :: replicate 63 (Putc Interrupt 65) ++ [Putc (Thread 2) 66; Resume 1; Resume 1].

(** A queue that one thread and interrupt handlers use never fails an
    assertion in that thread.  With a second thread it does: when
    [lock_acquire] has made a thread wait, the condition may have changed
    before [wait] asserts it, be it two readers or a reader and a writer. *)
Theorem intq_lock_race :
  (forall t xs ys s a, reachable (only t) xs ys s -> enabled a s ->
     match a with Getc (Thread u) | Putc (Thread u) _ | Resume u => u = t | _ => False end ->
     exists e s', exec a s = Ok (e, s')) /\
  (exists xs ys s, reachable anyone xs ys s /\ pcs s !! 2 = Some Get_lock /\
     enabled (Resume 2) s /\ exec (Resume 2) s = Err EAssert) /\
  (exists xs ys s, reachable anyone xs ys s /\ pcs s !! 2 = Some (Put_lock 66) /\
     enabled (Resume 2) s /\ exec (Resume 2) s = Err EAssert).
Proof.
  split_and!.
  - intros t xs ys s a Hr He Ha. pose proof (solo_reachable t xs ys s Hr) as Hsolo.
    destruct (reachable_inv _ _ _ _ Hr) as [Hs _]. pose proof (exec_spec a s Hs He) as H.
    replace (fails a s) with false in H; [destruct H as (e & s' & E & _); by exists e, s'|].
    destruct a as [[u|]|[u|] b|b|u]; try done. subst u. cbn [fails]. destruct (pcs s !! t) as [p|] eqn:Hp; [|done].
    destruct (Hsolo t p Hp) as [_ Hl]. by destruct p.
  - destruct (run two_readers start) as [s|] eqn:E; [|vm_compute in E; done].
    destruct (run_reachable two_readers [] [] start s) as (xs & ys & Hr); [by apply reach_init|done|]. exists xs, ys, s.
    vm_compute in E. injection E as <-. split; [done|]. by vm_compute.
  - destruct (run reader_and_writer start) as [s|] eqn:E; [|vm_compute in E; done].
    destruct (run_reachable reader_and_writer [] [] start s) as (xs & ys & Hr); [by apply reach_init|done|]. exists xs, ys, s.
    vm_compute in E. injection E as <-. split; [done|]. by vm_compute.
Qed.

Lemma woken_reachable : exists xs ys s,
  reachable anyone xs ys s /\ pcs s !! 1 = Some Get_woken /\ contents (q s) = [65; 66] /\ enabledb (Getc Interrupt) s = true.
Proof.
  destruct (run (take 4 two_readers) start) as [s|] eqn:E; [|vm_compute in E; done].
  destruct (run_reachable (take 4 two_readers) [] [] start s) as (xs & ys & Hr); [by apply reach_init|done|].
  exists xs, ys, s. vm_compute in E. injection E as <-. split; [done|]. by vm_compute.
Qed.

Lemma intq_refines_fifo_witness :
  exists s e s', contents (q s) = [65; 66] /\ exec (Getc Interrupt) s = Ok (e, s') /\ [65; 66] ++ ins e = outs e ++ contents (q s').
Proof.
  destruct woken_reachable as (xs & ys & s & Hr & _ & Hc & He). exists s.
  destruct (intq_refines_fifo xs ys s Hr) as (_ & _ & Ha). specialize (Ha (Getc Interrupt) (enabledb_spec _ _ He)).
  cbn [fails] in Ha. rewrite <- contents_length, Hc in Ha. destruct Ha as (e & s' & E & H). by exists e, s'.
Defined.

Lemma released_reachable : exists xs ys s,
  reachable anyone xs ys s /\ pcs s !! 1 = Some Get_released /\ contents (q s) = [65; 66].
Proof.
  destruct (run two_readers start) as [s|] eqn:E; [|vm_compute in E; done].
  destruct (run_reachable two_readers [] [] start s) as (xs & ys & Hr); [by apply reach_init|done|].
  exists xs, ys, s. vm_compute in E. injection E as <-. split; [done|]. by vm_compute.
Qed.

Lemma intq_no_lost_wakeup_witness :
  (exists s s', pcs s !! 1 = Some Get_woken /\ exec (Resume 1) s = Ok (Slept, s') /\ pcs s' !! 1 = Some Get_released) /\
  (exists s s', pcs s !! 1 = Some Get_released /\ exec (Resume 1) s = Ok (Got 65, s') /\ pcs s' !! 1 = None).
Proof.
  split.
  - destruct woken_reachable as (xs & ys & s & Hr & Hp & Hc & _). exists s.
    destruct (intq_no_lost_wakeup xs ys s 1 Hr) as (_ & _ & Hget & _). destruct (Hget Hp) as (_ & s' & E & _ & _ & Hn). exists s'.
    split; [exact Hp|]. split; [exact E|]. rewrite Hn. apply lookup_insert_eq.
  - destruct released_reachable as (xs & ys & s & Hr & Hp & Hc). exists s.
    destruct (intq_no_lost_wakeup xs ys s 1 Hr) as (_ & _ & _ & _ & Hget & _). destruct (Hget Hp) as (_ & e & s' & E & He). rewrite Hc in He. destruct He as [-> Hn].
    exists s'. split; [exact Hp|]. split; [exact E|exact Hn].
Defined.

Lemma intq_lock_race_witness : exists e s', exec (Getc (Thread 1)) start = Ok (e, s').
Proof.
  destruct intq_lock_race as [Hsafe _]. apply (Hsafe 1 [] [] start (Getc (Thread 1))); [by apply reach_init|done|done].
Defined.
