(* ===== verification/Devices.v ===== *)
(** * The registry of block devices and partitions: [devices/block.c] and
    [devices/partition.c]

    A block device is known by its address.  Its driver operations with their
    [aux] are either those of a disk, which is an ideal one as in [Block], or
    those of a partition of another device.  [all_blocks] has the devices in
    probe order.  [heap] is what the calls of [malloc] return, one after the
    other.  Messages to the console are left out. *)

From Stdlib Require Import Strings.Ascii Strings.String.
From S2P Require Import Prelude ListModel Bytes Block CString CStringRep StdLib Stdio.

(** [struct block_operations] with [aux]; the second is [struct partition]. *)
Inductive operations :=
  | ide_operations (disk : Z)
  | partition_operations (block start : Z).

Record device := Device {
  dev_name : list Z;
  dev_type : block_type;
  dev_size : Z;
  dev_ops : operations;
  dev_read_cnt : Z;
  dev_write_cnt : Z
}.

Record registry := Registry {
  devices : gmap Z device;
  all_blocks : list Z;
  block_by_role : list Z;
  disks : gmap Z (list (list Z));
  heap : list Z
}.

Abbreviation D := (M registry).

Definition set_device (b : Z) (d : device) : D unit := fun r =>
  Ok (tt, Registry (<[b := d]> (devices r)) (all_blocks r) (block_by_role r) (disks r) (heap r)).
Definition get_device (b : Z) : D device := fun r => lift_opt EFault (devices r !! b) r.

Definition malloc : D Z := fun r =>
  Ok (default NULL (hd_error (heap r)), Registry (devices r) (all_blocks r) (block_by_role r) (disks r) (tail (heap r))).

(** ** [block.c] *)

Definition role_index (t : block_type) : Z :=
  match t with
  | BLOCK_KERNEL => 0 | BLOCK_FILESYS => 1 | BLOCK_SCRATCH => 2 | BLOCK_SWAP => 3 | BLOCK_RAW => 4 | BLOCK_FOREIGN => 5
  end.
Definition BLOCK_ROLE_CNT : Z := 4.

Definition block_type_name (t : block_type) : list Z :=
  match t with
  | BLOCK_KERNEL => lit "kernel" | BLOCK_FILESYS => lit "filesys" | BLOCK_SCRATCH => lit "scratch"
  | BLOCK_SWAP => lit "swap" | BLOCK_RAW => lit "raw" | BLOCK_FOREIGN => lit "foreign"
  end.

Definition block_get_role (role : block_type) : D Z :=
  ASSERT (role_index role <? BLOCK_ROLE_CNT);;
  roles ← gets block_by_role;
  lift_opt EFault (roles !! Z.to_nat (role_index role)).

Definition block_set_role (role : block_type) (block : Z) : D unit :=
  ASSERT (role_index role <? BLOCK_ROLE_CNT);;
  r ← get;
  put (Registry (devices r) (all_blocks r) (<[Z.to_nat (role_index role) := block]> (block_by_role r)) (disks r) (heap r)).

(** The element behind ELEM in the list, or [NULL] at the end. *)
Fixpoint next_in (l : list Z) (elem : Z) : Z :=
  match l with
  | a :: ((b :: _) as l) => if a =? elem then b else next_in l elem
  | _ => NULL
  end.

Definition block_first : D Z := gets (fun r => default NULL (hd_error (all_blocks r))).
Definition block_next (block : Z) : D Z := gets (fun r => next_in (all_blocks r) block).

Fixpoint find_name (name : list Z) (l : list Z) : D Z :=
  match l with
  | [] => mret NULL
  | b :: l => d ← get_device b; if bool_decide (name = dev_name d) then mret b else find_name name l
  end.

Definition block_get_by_name (name : list Z) : D Z := l ← gets all_blocks; find_name name l.

Definition check_sector (block sector : Z) : D unit :=
  d ← get_device block;
  if dev_size d <=? sector then fail EPanic else mret tt.

Definition ide_read (disk sector : Z) : D (list Z) := fun r =>
  match disks r !! disk with
  | Some c => lift_opt EFault (c !! Z.to_nat sector) r
  | None => Err EFault
  end.

Definition ide_write (disk sector : Z) (buffer : list Z) : D unit := fun r =>
  match disks r !! disk with
  | Some c => Ok (tt, Registry (devices r) (all_blocks r) (block_by_role r)
                        (<[disk := <[Z.to_nat sector := buffer]> c]> (disks r)) (heap r))
  | None => Err EFault
  end.

(** [partition_read] and [partition_write] of partition.c, with the functions
    of the device below. *)
Definition partition_read (read : Z -> Z -> D (list Z)) (p_block p_start sector : Z) : D (list Z) :=
  read p_block (u32 (p_start + sector)).
Definition partition_write (write : Z -> Z -> list Z -> D unit) (p_block p_start sector : Z) (buffer : list Z) : D unit :=
  write p_block (u32 (p_start + sector)) buffer.

(** [depth] bounds the nesting of devices. *)
Fixpoint block_read (depth : nat) (block sector : Z) : D (list Z) :=
  match depth with
  | O => fail EFuel
  | S depth =>
      check_sector block sector;;
      d ← get_device block;
      buffer ← (match dev_ops d with
                | ide_operations disk => ide_read disk sector
                | partition_operations p_block p_start => partition_read (block_read depth) p_block p_start sector
                end);
      d ← get_device block;
      set_device block (Device (dev_name d) (dev_type d) (dev_size d) (dev_ops d) (u64 (dev_read_cnt d + 1)) (dev_write_cnt d));;
      mret buffer
  end.

Fixpoint block_write (depth : nat) (block sector : Z) (buffer : list Z) : D unit :=
  match depth with
  | O => fail EFuel
  | S depth =>
      check_sector block sector;;
      d ← get_device block;
      ASSERT (negb (bool_decide (dev_type d = BLOCK_FOREIGN)));;
      (match dev_ops d with
       | ide_operations disk => ide_write disk sector buffer
       | partition_operations p_block p_start => partition_write (block_write depth) p_block p_start sector buffer
       end);;
      d ← get_device block;
      set_device block (Device (dev_name d) (dev_type d) (dev_size d) (dev_ops d) (dev_read_cnt d) (u64 (dev_write_cnt d + 1)))
  end.

Definition block_size (block : Z) : D Z := d ← get_device block; mret (dev_size d).
Definition block_name (block : Z) : D (list Z) := d ← get_device block; mret (dev_name d).

(** NAME is cut to the 15 characters that [struct block] has room for. *)
Definition block_register (name : list Z) (type : block_type) (size : Z) (ops : operations) : D Z :=
  block ← malloc;
  if block =? NULL then fail EPanic else
  r ← get;
  put (Registry (devices r) (all_blocks r ++ [block]) (block_by_role r) (disks r) (heap r));;
  set_device block (Device (take 15 name) type size ops 0 0);;
  mret block.

(** ** [partition.c] *)

Record partition_table_entry := Entry { e_type : Z; e_offset : Z; e_size : Z }.

Definition byte_at (sector : list Z) (i : Z) : Z := default 0 (sector !! Z.to_nat i).
Definition long_at (sector : list Z) (i : Z) : Z :=
  byte_at sector i + 256 * byte_at sector (i + 1) + 65536 * byte_at sector (i + 2) + 16777216 * byte_at sector (i + 3).

(** The table behind the 446 bytes of the loader. *)
Definition partitions (pt : list Z) : list partition_table_entry :=
  map (fun i => let e := 446 + 16 * i in Entry (byte_at pt (e + 4)) (long_at pt (e + 8)) (long_at pt (e + 12))) [0; 1; 2; 3].
Definition signature (pt : list Z) : Z := byte_at pt 510 + 256 * byte_at pt 511.

Definition partition_type (part_type : Z) : block_type :=
  if part_type =? 32 then BLOCK_KERNEL else if part_type =? 33 then BLOCK_FILESYS
  else if part_type =? 34 then BLOCK_SCRATCH else if part_type =? 35 then BLOCK_SWAP else BLOCK_FOREIGN.

(** [snprintf (name, sizeof name, "%s%d", block_name (block), part_nr)]: what
    [printf] prints, cut to 15 characters. *)
Definition partition_name (name : list Z) (part_nr : Z) : D (list Z) := fun r =>
  match printf 64 NULL (cstring "%s%d") [1; u32 part_nr] (write ∅ 1 (name ++ [0]), []) with
  | Ok (_, (_, w)) => Ok (take 15 w, r)
  | Err e => Err e
  end.

Definition found_partition (block part_type start size part_nr : Z) : D unit :=
  bsize ← block_size block;
  if bsize <=? start then mret tt else
  if (u32 (start + size) <? start) || (bsize <? u32 (start + size)) then mret tt else
  p ← malloc;
  if p =? NULL then fail EPanic else
  bname ← block_name block;
  name ← partition_name bname part_nr;
  block_register name (partition_type part_type) size (partition_operations block start);;
  mret tt.

Definition is_extended (t : Z) : bool := (t =? 5) || (t =? 15) || (t =? 133) || (t =? 197).

(** The loop over the entries; [read] is the recursive call, and the result is
    the number of partitions so far. *)
Fixpoint parse_partitions (read : Z -> Z -> Z -> D Z) (block sector primary_extended_sector : Z)
    (es : list partition_table_entry) (part_nr : Z) : D Z :=
  match es with
  | [] => mret part_nr
  | e :: es =>
      part_nr ← (if (e_size e =? 0) || (e_type e =? 0) then mret part_nr
                 else if is_extended (e_type e) then
                   if sector =? 0 then read (e_offset e) (e_offset e) part_nr
                   else read (u32 (e_offset e + primary_extended_sector)) primary_extended_sector part_nr
                 else
                   let part_nr := s32 (part_nr + 1) in
                   found_partition block (e_type e) (u32 (e_offset e + sector)) (e_size e) part_nr;; mret part_nr);
      parse_partitions read block sector primary_extended_sector es part_nr
  end.

(** The names of the known types. *)
Definition type_names : list (Z * string) :=
  [(0, "Empty"); (1, "FAT12"); (2, "XENIX root"); (3, "XENIX usr"); (4, "FAT16 <32M"); (5, "Extended");
   (6, "FAT16"); (7, "HPFS/NTFS"); (8, "AIX"); (9, "AIX bootable"); (10, "OS/2 Boot Manager");
   (11, "W95 FAT32"); (12, "W95 FAT32 (LBA)"); (14, "W95 FAT16 (LBA)"); (15, "W95 Ext'd (LBA)");
   (16, "OPUS"); (17, "Hidden FAT12"); (18, "Compaq diagnostics"); (20, "Hidden FAT16 <32M");
   (22, "Hidden FAT16"); (23, "Hidden HPFS/NTFS"); (24, "AST SmartSleep"); (27, "Hidden W95 FAT32");
   (28, "Hidden W95 FAT32 (LBA)"); (30, "Hidden W95 FAT16 (LBA)"); (32, "Pintos OS kernel");
   (33, "Pintos file system"); (34, "Pintos scratch"); (35, "Pintos swap"); (36, "NEC DOS"); (57, "Plan 9");
   (60, "PartitionMagic recovery"); (64, "Venix 80286"); (65, "PPC PReP Boot"); (66, "SFS"); (77, "QNX4.x");
   (78, "QNX4.x 2nd part"); (79, "QNX4.x 3rd part"); (80, "OnTrack DM"); (81, "OnTrack DM6 Aux1");
   (82, "CP/M"); (83, "OnTrack DM6 Aux3"); (84, "OnTrackDM6"); (85, "EZ-Drive"); (86, "Golden Bow");
   (92, "Priam Edisk"); (97, "SpeedStor"); (99, "GNU HURD or SysV"); (100, "Novell Netware 286");
   (101, "Novell Netware 386"); (112, "DiskSecure Multi-Boot"); (117, "PC/IX"); (128, "Old Minix");
   (129, "Minix / old Linux"); (130, "Linux swap / Solaris"); (131, "Linux"); (132, "OS/2 hidden C: drive");
   (133, "Linux extended"); (134, "NTFS volume set"); (135, "NTFS volume set"); (136, "Linux plaintext");
   (142, "Linux LVM"); (147, "Amoeba"); (148, "Amoeba BBT"); (159, "BSD/OS");
   (160, "IBM Thinkpad hibernation"); (165, "FreeBSD"); (166, "OpenBSD"); (167, "NeXTSTEP");
   (168, "Darwin UFS"); (169, "NetBSD"); (171, "Darwin boot"); (183, "BSDI fs"); (184, "BSDI swap");
   (187, "Boot Wizard hidden"); (190, "Solaris boot"); (191, "Solaris"); (193, "DRDOS/sec (FAT-12)");
   (196, "DRDOS/sec (FAT-16 < 32M)"); (198, "DRDOS/sec (FAT-16)"); (199, "Syrinx"); (218, "Non-FS data");
   (219, "CP/M / CTOS / ..."); (222, "Dell Utility"); (223, "BootIt"); (225, "DOS access"); (227, "DOS R/O");
   (228, "SpeedStor"); (235, "BeOS fs"); (238, "EFI GPT"); (239, "EFI (FAT-12/16/32)");
   (240, "Linux/PA-RISC boot"); (241, "SpeedStor"); (244, "SpeedStor"); (242, "DOS secondary");
   (253, "Linux raid autodetect"); (254, "LANstep"); (255, "BBT")]%string.

Fixpoint lookup_name (names : list (Z * string)) (type : Z) : option string :=
  match names with
  | [] => None
  | (t, name) :: names => if t =? type then Some name else lookup_name names type
  end.

Definition partition_type_name (type : Z) : list Z := lit (default "Unknown"%string (lookup_name type_names type)).

Section Scan.
Context (depth : nat).

(** The table is read from sector 0 whatever SECTOR is. *)
Fixpoint read_partition_table (fuel : nat) (block sector primary_extended_sector part_nr : Z) : D Z :=
  match fuel with
  | O => fail EFuel
  | S fuel =>
      bsize ← block_size block;
      if bsize <=? sector then mret part_nr else
      p ← malloc;
      if p =? NULL then fail EPanic else
      pt ← block_read depth block 0;
      if negb (signature pt =? 43605) then mret part_nr else
      parse_partitions (fun s e n => read_partition_table fuel block s e n) block sector primary_extended_sector (partitions pt) part_nr
  end.

Definition partition_scan (fuel : nat) (block : Z) : D unit :=
  part_nr ← read_partition_table fuel block 0 0 0;
  mret tt.

End Scan.
