(* ===== verification/DevicesProps.v ===== *)
(** * Devices and partitions: the properties

    [view r b] is the ideal device of [Block] that the device [b] stands for:
    a partition is a range of the sectors of the disk below it. *)

From Stdlib Require Import Strings.Ascii Strings.String.
From S2P Require Import Prelude ListModel Bytes Block CString CStringRep StdLib Stdio StdioThms StdioProps Devices.

(** ** Well-formed registries *)

(** A disk has its sectors; a partition lies on a disk, within its bounds. *)
Definition device_wf (r : registry) (d : device) : Prop :=
  0 <= dev_size d < 4294967296 /\ Forall (fun c => 0 < c < 256) (dev_name d) /\ (length (dev_name d) <= 15)%nat /\
  match dev_ops d with
  | ide_operations disk =>
      dev_type d <> BLOCK_FOREIGN /\
      exists c, disks r !! disk = Some c /\ Z.of_nat (length c) = dev_size d /\ Forall (fun s => length s = 512%nat) c
  | partition_operations p start =>
      0 <= start /\ exists d' disk, devices r !! p = Some d' /\ dev_ops d' = ide_operations disk /\ start + dev_size d <= dev_size d'
  end.

Definition registry_wf (r : registry) : Prop := map_Forall (fun _ d => device_wf r d) (devices r).

(** The disk of a device and the sector of it where the device starts. *)
Definition place (r : registry) (d : device) : option (Z * Z) :=
  match dev_ops d with
  | ide_operations disk => Some (disk, 0)
  | partition_operations p start =>
      d' ← devices r !! p;
      match dev_ops d' with ide_operations disk => Some (disk, start) | _ => None end
  end.

Definition content (r : registry) (disk : Z) : list (list Z) := default [] (disks r !! disk).

Definition device_sectors (r : registry) (d : device) : list (list Z) :=
  match place r d with
  | Some (disk, start) => take (Z.to_nat (dev_size d)) (drop (Z.to_nat start) (content r disk))
  | None => []
  end.

Definition view (r : registry) (b : Z) : option block :=
  d ← devices r !! b;
  Some (Block (dev_type d) (dev_size d) (device_sectors r d) (dev_read_cnt d) (dev_write_cnt d)).

Lemma get_device_ok r b d : devices r !! b = Some d -> get_device b r = Ok (d, r).
Proof. intros H. unfold get_device. by rewrite H. Qed.

Definition counted_read (d : device) : device :=
  Device (dev_name d) (dev_type d) (dev_size d) (dev_ops d) (u64 (dev_read_cnt d + 1)) (dev_write_cnt d).
Definition counted_write (d : device) : device :=
  Device (dev_name d) (dev_type d) (dev_size d) (dev_ops d) (dev_read_cnt d) (u64 (dev_write_cnt d + 1)).

Definition with_device (r : registry) (b : Z) (d : device) : registry :=
  Registry (<[b := d]> (devices r)) (all_blocks r) (block_by_role r) (disks r) (heap r).
Definition with_sector (r : registry) (disk sector : Z) (data : list Z) : registry :=
  Registry (devices r) (all_blocks r) (block_by_role r)
    (<[disk := <[Z.to_nat sector := data]> (content r disk)]> (disks r)) (heap r).

Lemma check_sector_ok r b d sector :
  devices r !! b = Some d ->
  Devices.check_sector b sector r = if dev_size d <=? sector then Err EPanic else Ok (tt, r).
Proof.
  intros H. unfold Devices.check_sector. rewrite (bind_ok _ _ _ d r) by by apply get_device_ok.
  by destruct (dev_size d <=? sector).
Qed.

(** ** Access to a disk *)

Lemma disk_read_run r depth b d disk c sector data :
  devices r !! b = Some d -> dev_ops d = ide_operations disk -> disks r !! disk = Some c -> 0 <= sector < dev_size d ->
  c !! Z.to_nat sector = Some data ->
  Devices.block_read (S depth) b sector r = Ok (data, with_device r b (counted_read d)).
Proof.
  intros Hd Hops Hc Hs Hdata. cbn [Devices.block_read]. rewrite (bind_ok _ _ _ tt r).
  2: { rewrite (check_sector_ok r b d) by done. by rewrite (proj2 (Z.leb_gt _ _)) by lia. }
  cbv beta. rewrite (bind_ok _ _ _ d r) by by apply get_device_ok. cbv beta. rewrite Hops.
  rewrite (bind_ok _ _ _ data r) by (unfold ide_read; by rewrite Hc, Hdata). cbv beta.
  by rewrite (bind_ok _ _ _ d r) by by apply get_device_ok.
Qed.

Lemma disk_read_ok r depth b d disk sector :
  registry_wf r -> devices r !! b = Some d -> dev_ops d = ide_operations disk -> 0 <= sector < dev_size d ->
  exists data, content r disk !! Z.to_nat sector = Some data /\ length data = 512%nat /\
    Devices.block_read (S depth) b sector r = Ok (data, with_device r b (counted_read d)).
Proof.
  intros Hr Hd Hops Hs. destruct (Hr b d Hd) as (Hsz & _ & _ & Hwf). rewrite Hops in Hwf.
  destruct Hwf as (_ & c & Hc & Hlen & H512). unfold content. rewrite Hc. cbn [default from_option id].
  destruct (lookup_lt_is_Some_2 c (Z.to_nat sector)) as [data Hdata]; [lia|]. exists data. split; [done|].
  split; [exact (Forall_lookup_1 _ _ _ _ H512 Hdata)|]. by apply (disk_read_run r depth b d disk c).
Qed.

Lemma disk_write_ok r depth b d disk sector data :
  registry_wf r -> devices r !! b = Some d -> dev_ops d = ide_operations disk -> 0 <= sector < dev_size d ->
  Devices.block_write (S depth) b sector data r = Ok (tt, with_device (with_sector r disk sector data) b (counted_write d)).
Proof.
  intros Hr Hd Hops Hs. destruct (Hr b d Hd) as (Hsz & _ & _ & Hwf). rewrite Hops in Hwf.
  destruct Hwf as (Hty & c & Hc & Hlen & H512).
  cbn [Devices.block_write]. rewrite (bind_ok _ _ _ tt r).
  2: { rewrite (check_sector_ok r b d) by done. by rewrite (proj2 (Z.leb_gt _ _)) by lia. }
  cbv beta. rewrite (bind_ok _ _ _ d r) by by apply get_device_ok. cbv beta.
  rewrite (bind_ok _ _ _ tt r) by (by rewrite bool_decide_eq_false_2). cbv beta. rewrite Hops.
  rewrite (bind_ok _ _ _ tt (with_sector r disk sector data)) by (unfold ide_write, with_sector, content; by rewrite Hc). cbv beta.
  by rewrite (bind_ok _ _ _ d (with_sector r disk sector data)) by by apply get_device_ok.
Qed.

(** ** Access to any device *)

(** The part of a device that access does not change. *)
Definition plain (d : device) : device := Device (dev_name d) (dev_type d) (dev_size d) (dev_ops d) 0 0.

Definition same_devices (r r' : registry) : Prop := plain <$> devices r' = plain <$> devices r.

Lemma same_lookup r r' b d : same_devices r r' -> devices r !! b = Some d -> exists d', devices r' !! b = Some d' /\ plain d' = plain d.
Proof.
  intros Hs Hd. apply (f_equal (lookup b)) in Hs. rewrite !lookup_fmap, Hd in Hs. cbn in Hs.
  destruct (devices r' !! b) as [d'|]; cbn in Hs; [|done]. apply (inj Some) in Hs. eauto.
Qed.

Lemma same_sym r r' : same_devices r r' -> same_devices r' r.
Proof. done. Qed.

Lemma same_device r b d d' : devices r !! b = Some d -> plain d' = plain d -> same_devices r (with_device r b d').
Proof.
  intros Hd Hp. unfold same_devices. cbn [devices with_device]. rewrite fmap_insert, Hp. apply insert_id.
  by rewrite lookup_fmap, Hd.
Qed.

Lemma plain_eq d d' : plain d = plain d' ->
  dev_name d = dev_name d' /\ dev_type d = dev_type d' /\ dev_size d = dev_size d' /\ dev_ops d = dev_ops d'.
Proof. intros H. by injection H. Qed.

Lemma same_place r r' d d' : same_devices r r' -> plain d' = plain d -> place r' d' = place r d.
Proof.
  intros Hs Hp. apply plain_eq in Hp as (_ & _ & _ & Ho). unfold place. rewrite Ho. destruct (dev_ops d) as [|p start]; [done|].
  destruct (devices r !! p) as [x|] eqn:E.
  - destruct (same_lookup r r' p x Hs E) as (x' & -> & Hx). apply plain_eq in Hx as (_ & _ & _ & Hx). cbn. by rewrite Hx.
  - destruct (devices r' !! p) as [x'|] eqn:E'; [|done]. destruct (same_lookup r' r p x' (same_sym _ _ Hs) E') as (x & Hx & _). congruence.
Qed.

Lemma same_wf r r' :
  same_devices r r' ->
  (forall disk c, disks r !! disk = Some c -> exists c', disks r' !! disk = Some c' /\ length c' = length c /\
     (Forall (fun s => length s = 512%nat) c -> Forall (fun s => length s = 512%nat) c')) ->
  registry_wf r -> registry_wf r'.
Proof.
  intros Hs Hdisk Hr b d' Hd'. destruct (same_lookup r' r b d' (same_sym _ _ Hs) Hd') as (d & Hd & Hp).
  destruct (Hr b d Hd) as (Hsz & Hnm & Hnl & Hops). apply plain_eq in Hp as (En & Et & Es & Eo).
  unfold device_wf. rewrite <- En, <- Et, <- Es, <- Eo. split_and!; try done; try apply Hsz.
  destruct (dev_ops d) as [disk|p start].
  - destruct Hops as (Hty & c & Hc & Hl & H512). split; [done|]. destruct (Hdisk disk c Hc) as (c' & Hc' & Hl' & Hf).
    exists c'. split; [done|]. split; [lia|by apply Hf].
  - destruct Hops as (H0 & x & disk & Hx & Hxo & Hb). split; [done|]. destruct (same_lookup r r' p x Hs Hx) as (x' & Hx' & Hpx).
    apply plain_eq in Hpx as (_ & _ & Es' & Eo'). exists x', disk. rewrite Eo', Es'. done.
Qed.

Lemma place_wf r b d :
  registry_wf r -> devices r !! b = Some d ->
  exists disk start, place r d = Some (disk, start) /\ 0 <= start /\
    start + dev_size d <= Z.of_nat (length (content r disk)) /\ Z.of_nat (length (content r disk)) < 4294967296 /\
    disks r !! disk = Some (content r disk) /\ Forall (fun s => length s = 512%nat) (content r disk).
Proof.
  intros Hr Hd. destruct (Hr b d Hd) as (Hsz & _ & _ & Hops). unfold place, content. destruct (dev_ops d) as [disk|p start].
  - destruct Hops as (_ & c & Hc & Hl & H512). exists disk, 0. rewrite Hc. cbn [default from_option id]. split_and!; (done || lia).
  - destruct Hops as (H0 & x & disk & Hx & Hxo & Hb). destruct (Hr p x Hx) as (Hxs & _ & _ & Hxops). rewrite Hxo in Hxops.
    destruct Hxops as (_ & c & Hc & Hl & H512). exists disk, start. rewrite Hx, Hc. cbn. rewrite Hxo. cbn [default from_option id].
    split_and!; (done || lia).
Qed.

Lemma device_read_ok r b d disk start sector :
  registry_wf r -> devices r !! b = Some d -> place r d = Some (disk, start) -> 0 <= sector < dev_size d ->
  exists data r', Devices.block_read 2 b sector r = Ok (data, r') /\ content r disk !! Z.to_nat (start + sector) = Some data /\
    disks r' = disks r /\ same_devices r r' /\ devices r' !! b = Some (counted_read d).
Proof.
  intros Hr Hd Hpl Hs. destruct (dev_ops d) as [k|p st] eqn:Hops.
  - unfold place in Hpl. rewrite Hops in Hpl. injection Hpl as -> <-.
    destruct (disk_read_ok r 1 b d disk sector Hr Hd Hops Hs) as (data & Hdata & _ & E).
    exists data, (with_device r b (counted_read d)). split_and!; [done|done|done|by apply (same_device r b d)|apply lookup_insert_eq].
  - destruct (Hr b d Hd) as (Hsz & _ & _ & Hwf). rewrite Hops in Hwf. destruct Hwf as (H0 & x & k & Hx & Hxo & Hb).
    unfold place in Hpl. rewrite Hops, Hx in Hpl. cbn in Hpl. rewrite Hxo in Hpl. injection Hpl as -> ->.
    assert (Hbp : b <> p) by (intros <-; congruence). destruct (Hr p x Hx) as (Hxs & _).
    destruct (disk_read_ok r 0 p x disk (start + sector) Hr Hx Hxo ltac:(lia)) as (data & Hdata & _ & E).
    set (r1 := with_device r p (counted_read x)) in E.
    assert (Hd1 : devices r1 !! b = Some d) by (unfold r1; cbn; by rewrite lookup_insert_ne).
    exists data, (with_device r1 b (counted_read d)). split_and!; [|done|done| |apply lookup_insert_eq].
    + cbn [Devices.block_read]. rewrite (bind_ok _ _ _ tt r).
      2: { rewrite (check_sector_ok r b d) by done. by rewrite (proj2 (Z.leb_gt _ _)) by lia. }
      cbv beta. rewrite (bind_ok _ _ _ d r) by by apply get_device_ok. cbv beta. rewrite Hops. unfold partition_read.
      rewrite u32_small by lia. mstep E. by rewrite (bind_ok _ _ _ d r1) by by apply get_device_ok.
    + unfold same_devices. rewrite (same_device r1 b d (counted_read d) Hd1 eq_refl). by apply (same_device r p x).
Qed.

Lemma device_write_ok r b d disk start sector data :
  registry_wf r -> devices r !! b = Some d -> place r d = Some (disk, start) -> 0 <= sector < dev_size d ->
  dev_type d <> BLOCK_FOREIGN ->
  exists r', Devices.block_write 2 b sector data r = Ok (tt, r') /\
    disks r' = <[disk := <[Z.to_nat (start + sector) := data]> (content r disk)]> (disks r) /\
    same_devices r r' /\ devices r' !! b = Some (counted_write d).
Proof.
  intros Hr Hd Hpl Hs Hty. destruct (dev_ops d) as [k|p st] eqn:Hops.
  - unfold place in Hpl. rewrite Hops in Hpl. injection Hpl as -> <-.
    exists (with_device (with_sector r disk sector data) b (counted_write d)).
    split_and!; [by apply disk_write_ok|done|by apply (same_device (with_sector r disk sector data) b d)|apply lookup_insert_eq].
  - destruct (Hr b d Hd) as (Hsz & _ & _ & Hwf). rewrite Hops in Hwf. destruct Hwf as (H0 & x & k & Hx & Hxo & Hb).
    unfold place in Hpl. rewrite Hops, Hx in Hpl. cbn in Hpl. rewrite Hxo in Hpl. injection Hpl as -> ->.
    assert (Hbp : b <> p) by (intros <-; congruence). destruct (Hr p x Hx) as (Hxs & _).
    pose proof (disk_write_ok r 0 p x disk (start + sector) data Hr Hx Hxo ltac:(lia)) as E.
    set (r1 := with_device _ p (counted_write x)) in E.
    assert (Hd1 : devices r1 !! b = Some d) by (unfold r1; cbn; by rewrite lookup_insert_ne).
    exists (with_device r1 b (counted_write d)). split_and!; [|done| |apply lookup_insert_eq].
    + cbn [Devices.block_write]. rewrite (bind_ok _ _ _ tt r).
      2: { rewrite (check_sector_ok r b d) by done. by rewrite (proj2 (Z.leb_gt _ _)) by lia. }
      cbv beta. rewrite (bind_ok _ _ _ d r) by by apply get_device_ok. cbv beta.
      rewrite (bind_ok _ _ _ tt r) by (by rewrite bool_decide_eq_false_2). cbv beta. rewrite Hops. unfold partition_write.
      rewrite u32_small by lia. mstep E. by rewrite (bind_ok _ _ _ d r1) by by apply get_device_ok.
    + unfold same_devices. rewrite (same_device r1 b d (counted_write d) Hd1 eq_refl).
      by apply (same_device (with_sector r disk (start + sector) data) p x).
Qed.

(** The device that a registered device stands for, after an access. *)
Lemma view_same r r' b d d' :
  same_devices r r' -> devices r' !! b = Some d' -> plain d' = plain d ->
  view r' b = Some (Block (dev_type d) (dev_size d)
    (match place r d with
     | Some (disk, start) => take (Z.to_nat (dev_size d)) (drop (Z.to_nat start) (content r' disk)) | None => [] end)
    (dev_read_cnt d') (dev_write_cnt d')).
Proof.
  intros Hs Hd' Hp. unfold view, device_sectors. rewrite Hd'. cbn. rewrite (same_place r r' d d' Hs Hp).
  apply plain_eq in Hp as (_ & Et & Es & _). by rewrite Et, Es.
Qed.

Lemma slice_insert (c : list (list Z)) start size i data :
  take size (drop start (<[(start + i)%nat := data]> c)) = <[i := data]> (take size (drop start c)).
Proof.
  rewrite drop_insert_ge by lia. replace (start + i - start)%nat with i by lia.
  destruct (decide (i < size)%nat).
  - by rewrite take_insert_lt.
  - rewrite take_insert_ge by lia. symmetry. apply list_insert_ge. rewrite length_take. lia.
Qed.

(** Two devices have no sector in common. *)
Definition apart (r : registry) (d d' : device) : Prop :=
  match place r d, place r d' with
  | Some (disk, start), Some (disk', start') =>
      disk <> disk' \/ start + dev_size d <= start' \/ start' + dev_size d' <= start
  | _, _ => False
  end.

Lemma write_apart r r' d d' disk start sector data :
  same_devices r r' -> place r d = Some (disk, start) -> 0 <= start -> 0 <= sector < dev_size d -> apart r d d' ->
  (forall disk start, place r d' = Some (disk, start) -> 0 <= start) -> 0 <= dev_size d' ->
  disks r' = <[disk := <[Z.to_nat (start + sector) := data]> (content r disk)]> (disks r) ->
  device_sectors r' d' = device_sectors r d'.
Proof.
  intros Hs Hpl H0 Hsec Hap H0' Hsz Hdisks. unfold device_sectors, apart in *. rewrite Hpl in Hap.
  rewrite (same_place r r' d' d' Hs eq_refl). destruct (place r d') as [[disk' start']|] eqn:Hpl'; [|done].
  specialize (H0' _ _ eq_refl). unfold content at 1. rewrite Hdisks.
  destruct (decide (disk = disk')) as [<-|Hne]; [|by rewrite lookup_insert_ne].
  rewrite lookup_insert_eq. cbn [default from_option id]. destruct Hap as [|[Hap|Hap]]; [done| |].
  - by rewrite drop_insert_lt by lia.
  - rewrite drop_insert_ge by lia. by rewrite take_insert_ge by lia.
Qed.

(** C12: A registered device, be it a disk or a partition, implements the ideal
    device of [Block], the one the file system is verified against: a read and
    a write of a sector succeed, panic or fail an assertion exactly when the
    ideal device does, give the same data, leave the same contents and counts,
    and keep the registry well formed.  A write through one device leaves every
    device that shares no sector with it as it was. *)
Theorem partition_refines_block r b d x sector data :
  registry_wf r -> devices r !! b = Some d -> view r b = Some x -> 0 <= sector -> length data = 512%nat ->
  match Block.block_read sector x with
  | Ok (bs, x') => exists r', Devices.block_read 2 b sector r = Ok (bs, r') /\ view r' b = Some x' /\ registry_wf r' /\ disks r' = disks r
  | Err e => Devices.block_read 2 b sector r = Err e
  end /\
  match Block.block_write sector data x with
  | Ok (_, x') => exists r', Devices.block_write 2 b sector data r = Ok (tt, r') /\ view r' b = Some x' /\ registry_wf r' /\
      forall b' d', devices r !! b' = Some d' -> apart r d d' -> device_sectors r' d' = device_sectors r d'
  | Err e => Devices.block_write 2 b sector data r = Err e
  end.
Proof.
  intros Hr Hd Hx Hsec Hlen. destruct (place_wf r b d Hr Hd) as (disk & start & Hpl & H0 & Hin & Hmax & Hdk & H512).
  unfold view, device_sectors in Hx. rewrite Hd in Hx. cbn in Hx. rewrite Hpl in Hx. injection Hx as <-.
  destruct (Z.leb_spec (dev_size d) sector) as [Hge|Hlt].
  { rewrite block_read_panic, block_write_panic by done. cbn [Devices.block_read Devices.block_write].
    split; apply bind_err; rewrite (check_sector_ok r b d) by done; by rewrite (proj2 (Z.leb_le _ _) Hge). }
  destruct (device_read_ok r b d disk start sector Hr Hd Hpl ltac:(lia)) as (bs & r1 & E1 & Hbs & Hk1 & Hs1 & Hb1).
  assert (Hslice : take (Z.to_nat (dev_size d)) (drop (Z.to_nat start) (content r disk)) !! Z.to_nat sector = Some bs).
  { rewrite lookup_take_lt, lookup_drop by lia. by replace (Z.to_nat start + Z.to_nat sector)%nat with (Z.to_nat (start + sector)) by lia. }
  split.
  - unfold Block.block_read, Block.check_sector, ops_read, mbind, M_bind, get, put, mret, M_ret. cbn [blk_size sectors].
    rewrite (proj2 (Z.leb_gt _ _) Hlt). cbn [sectors]. rewrite Hslice. exists r1. split_and!; [done| | |done].
    + rewrite (view_same r r1 b d (counted_read d) Hs1 Hb1 eq_refl), Hpl. unfold content. by rewrite Hk1.
    + apply (same_wf r r1 Hs1); [|done]. intros k c Hc. rewrite Hk1. by exists c.
  - unfold Block.block_write, Block.check_sector, ops_write, mbind, M_bind, get, put, mret, M_ret. cbn [blk_size blk_type].
    rewrite (proj2 (Z.leb_gt _ _) Hlt). case_bool_decide as Hty.
    + cbn [ASSERT negb]. cbn [Devices.block_write]. rewrite (bind_ok _ _ _ tt r).
      2: { rewrite (check_sector_ok r b d) by done. by rewrite (proj2 (Z.leb_gt _ _) Hlt). }
      cbv beta. rewrite (bind_ok _ _ _ d r) by by apply get_device_ok. cbv beta.
      apply bind_err. by rewrite bool_decide_eq_true_2.
    + cbn. destruct (device_write_ok r b d disk start sector data Hr Hd Hpl ltac:(lia) Hty) as (r2 & E2 & Hk2 & Hs2 & Hb2).
      exists r2. split_and!; [done| | |].
      * rewrite (view_same r r2 b d (counted_write d) Hs2 Hb2 eq_refl), Hpl. unfold content at 1. rewrite Hk2, lookup_insert_eq.
        cbn [default from_option id]. replace (Z.to_nat (start + sector)) with (Z.to_nat start + Z.to_nat sector)%nat by lia.
        by rewrite slice_insert.
      * apply (same_wf r r2 Hs2); [|done]. intros k c Hc. rewrite Hk2. destruct (decide (disk = k)) as [<-|Hne].
        -- rewrite lookup_insert_eq. eexists. split; [done|]. rewrite Hdk in Hc. injection Hc as <-.
           split; [by rewrite length_insert|]. intros _. by apply Forall_insert.
        -- rewrite lookup_insert_ne by done. by exists c.
      * intros b' d' Hd' Hap. apply (write_apart r r2 d d' disk start sector data Hs2 Hpl H0 ltac:(lia) Hap); [| |done].
        -- intros k st Hk. destruct (place_wf r b' d' Hr Hd') as (k' & st' & Hk' & ? & _). congruence.
        -- by apply (Hr b' d' Hd').
Qed.

(** ** Scanning for partitions *)

Definition empty_entry (e : partition_table_entry) : bool := (e_size e =? 0) || (e_type e =? 0).

(** The partition that an entry without an extended type describes, when it
    lies within a device of BSIZE sectors. *)
Definition entry_device (b : Z) (name : list Z) (bsize : Z) (e : partition_table_entry) (part_nr : Z) : option device :=
  if e_offset e + e_size e <=? bsize
  then Some (Device (take 15 (name ++ [48 + part_nr])) (partition_type (e_type e)) (e_size e)
               (partition_operations b (e_offset e)) 0 0)
  else None.

Fixpoint expected (b : Z) (name : list Z) (bsize : Z) (es : list partition_table_entry) (part_nr : Z) : list device :=
  match es with
  | [] => []
  | e :: es =>
      if empty_entry e then expected b name bsize es part_nr
      else option_list (entry_device b name bsize e (part_nr + 1)) ++ expected b name bsize es (part_nr + 1)
  end.

(** What [malloc] promises: new addresses. *)
Definition heap_fresh (r : registry) : Prop :=
  NoDup (heap r) /\ Forall (fun a => a <> NULL /\ devices r !! a = None) (heap r).

Lemma printf_sd_ok fuel p name v (m : bytes) ds :
  p <> NULL -> cstr m p name -> (length name + 2 < fuel)%nat -> Z.of_nat (length name) < 2147483648 ->
  0 <= v < 2147483648 -> numeral 10 v ds ->
  printf fuel NULL (cstring "%s%d") [p; u32 v] (m, []) = Ok (tt, (m, name ++ decimal ds)).
Proof.
  intros Hp Hm Hf Hl Hv Hds. destruct fuel as [|[|[|fuel]]]; [lia..|]. unfold printf.
  change (cstring "%s%d") with (chr "%" :: chr "s" :: cstring "%d").
  rewrite (vprintf_conversion _ _ _ _ (chr "s") (cstring "%d") _ (Conversion 0 0 (-1) INT) (chr "s") (cstring "%d") [p; u32 v]);
    [|done..].
  mstep (convert_s m [] NULL (vprintf putchar fst NULL (S (S fuel))) (S (S fuel)) p name [u32 v] Hp Hm ltac:(lia) Hl).
  change (cstring "%d") with (chr "%" :: chr "d" :: [0]).
  rewrite (vprintf_conversion _ _ _ _ (chr "d") [0] _ (Conversion 0 0 (-1) INT) (chr "d") [0] [u32 v]); [|done..].
  unfold mbind, M_bind. rewrite (convert_d _ _ _ _ _ _ _ _ ds); [|done..|by rewrite s32_u32, Z.abs_eq by lia].
  rewrite s32_u32 by lia. unfold mbind, M_bind. rewrite output_all_putchar. cbn [mret M_ret app].
  rewrite integer_text_plain by (by rewrite Z.abs_eq by lia). by rewrite (proj2 (Z.ltb_ge v 0)) by lia.
Qed.

Lemma partition_name_ok r name n :
  Forall (fun c => 0 < c < 256) name -> (length name <= 15)%nat -> 1 <= n <= 4 ->
  partition_name name n r = Ok (take 15 (name ++ [48 + n]), r).
Proof.
  intros Hn Hl Hr. unfold partition_name.
  rewrite (printf_sd_ok 64 1 name n (write ∅ 1 (name ++ [0])) [n]); try done; try lia.
  - cbn. by rewrite Z.add_comm.
  - split; [apply write_at|done].
  - unfold numeral. split_and!; [|cbn; intros [=]; lia|cbn; lia]. constructor; [lia|done].
Qed.

Definition entry_range (e : partition_table_entry) : Prop := 0 <= e_offset e < 4294967296 /\ 0 <= e_size e < 4294967296.

Lemma byte_at_range pt i : Forall is_byte pt -> is_byte (byte_at pt i).
Proof.
  intros Hpt. unfold byte_at. destruct (pt !! Z.to_nat i) as [x|] eqn:E; cbn; [|unfold is_byte; lia].
  by apply (Forall_lookup_1 _ _ _ _ Hpt E).
Qed.

Lemma long_at_range pt i : Forall is_byte pt -> 0 <= long_at pt i < 4294967296.
Proof.
  intros Hpt. unfold long_at. pose proof (byte_at_range pt i Hpt). pose proof (byte_at_range pt (i + 1) Hpt).
  pose proof (byte_at_range pt (i + 2) Hpt). pose proof (byte_at_range pt (i + 3) Hpt). unfold is_byte in *. lia.
Qed.

Lemma partitions_range pt : Forall is_byte pt -> Forall entry_range (partitions pt).
Proof. intros Hpt. unfold partitions. apply Forall_map, Forall_true. intros i. split; by apply long_at_range. Qed.

(** The test of the bounds, with its wrap-around, is the one that it means. *)
Lemma bounds_test start size bsize :
  0 <= start < 4294967296 -> 0 < size < 4294967296 -> 0 <= bsize < 4294967296 ->
  (if bsize <=? start then true else (u32 (start + size) <? start) || (bsize <? u32 (start + size)))
  = negb (start + size <=? bsize).
Proof.
  intros Hst Hsz Hb. destruct (Z.leb_spec bsize start); [symmetry; apply negb_true_iff, Z.leb_gt; lia|].
  destruct (decide (start + size < 4294967296)).
  - rewrite u32_small by lia. rewrite (proj2 (Z.ltb_ge (start + size) start)) by lia. cbn [orb]. by rewrite Z.leb_antisym, negb_involutive.
  - unfold u32. rewrite <- (Z.mod_unique (start + size) 4294967296 1 (start + size - 4294967296)) by lia.
    rewrite (proj2 (Z.ltb_lt _ start)) by lia. cbn [orb]. symmetry. apply negb_true_iff, Z.leb_gt. lia.
Qed.

Definition register (r : registry) (a : Z) (x : device) (rest : list Z) : registry :=
  Registry (<[a := x]> (devices r)) (all_blocks r ++ [a]) (block_by_role r) (disks r) rest.

Lemma found_partition_run r b d e n p a rest :
  devices r !! b = Some d -> device_wf r d -> entry_range e -> empty_entry e = false -> 1 <= n <= 4 ->
  heap r = p :: a :: rest -> p <> NULL -> a <> NULL -> a <> b ->
  found_partition b (e_type e) (e_offset e) (e_size e) n r
  = Ok (tt, match entry_device b (dev_name d) (dev_size d) e n with Some x => register r a x rest | None => r end).
Proof.
  intros Hd (Hsz & Hnm & Hnl & _) (Ho & Hs) He Hn Hh Hp Ha Hab.
  assert (Hpos : 0 < e_size e) by (unfold empty_entry in He; destruct (Z.eqb_spec (e_size e) 0); [done|lia]).
  unfold found_partition. rewrite (bind_ok _ _ _ (dev_size d) r).
  2: { unfold block_size. by rewrite (bind_ok _ _ _ d r) by by apply get_device_ok. }
  cbv beta. pose proof (bounds_test (e_offset e) (e_size e) (dev_size d) Ho ltac:(lia) Hsz) as Hb.
  unfold entry_device. destruct (e_offset e + e_size e <=? dev_size d); cbn [negb] in Hb.
  - destruct (dev_size d <=? e_offset e); [done|]. rewrite Hb.
    set (r1 := Registry (devices r) (all_blocks r) (block_by_role r) (disks r) (a :: rest)).
    rewrite (bind_ok _ _ _ p r1) by (unfold malloc; by rewrite Hh). cbv beta. rewrite (proj2 (Z.eqb_neq p NULL) Hp).
    rewrite (bind_ok _ _ _ (dev_name d) r1).
    2: { unfold block_name. by rewrite (bind_ok _ _ _ d r1) by by apply get_device_ok. }
    cbv beta. mstep (partition_name_ok r1 (dev_name d) n Hnm Hnl Hn).
    unfold block_register. rewrite !bind_assoc.
    rewrite (bind_ok _ _ _ a (Registry (devices r) (all_blocks r) (block_by_role r) (disks r) rest)) by done. cbv beta.
    rewrite (proj2 (Z.eqb_neq a NULL) Ha). rewrite take_idemp. done.
  - destruct (dev_size d <=? e_offset e); [done|]. by rewrite Hb.
Qed.

Lemma device_wf_mono r r' d :
  devices r ⊆ devices r' -> disks r' = disks r -> device_wf r d -> device_wf r' d.
Proof.
  intros Hsub Hk (H1 & H2 & H3 & H4). split_and!; try done; try apply H1. destruct (dev_ops d) as [k|p st]; [by rewrite Hk|].
  destruct H4 as (H0 & d' & k & Hd' & Hrest). split; [done|]. exists d', k. split; [|done]. by apply (lookup_weaken (devices r)).
Qed.

Lemma register_wf r a x rest : registry_wf r -> devices r !! a = None -> device_wf r x -> registry_wf (register r a x rest).
Proof.
  intros Hr Ha Hx. assert (Hsub : devices r ⊆ devices (register r a x rest)) by by apply insert_subseteq.
  apply map_Forall_insert_2; [by apply (device_wf_mono r)|]. intros b d Hd. by apply (device_wf_mono r); [| |apply (Hr b d)].
Qed.

Lemma entry_device_wf r b d disk e n x :
  registry_wf r -> devices r !! b = Some d -> dev_ops d = ide_operations disk -> entry_range e -> 1 <= n <= 4 ->
  entry_device b (dev_name d) (dev_size d) e n = Some x -> device_wf r x.
Proof.
  intros Hr Hd Hops (Ho & Hs) Hn Hx. destruct (Hr b d Hd) as (Hsz & Hnm & Hnl & _). unfold entry_device in Hx.
  destruct (Z.leb_spec (e_offset e + e_size e) (dev_size d)) as [Hin|]; [|done]. injection Hx as <-. split_and!; cbn; try lia.
  - apply Forall_take, Forall_app. split; [done|]. constructor; [lia|done].
  - rewrite length_take. lia.
  - split; [lia|]. by exists d, disk.
Qed.

Definition supported (e : partition_table_entry) : Prop := entry_range e /\ (empty_entry e = true \/ is_extended (e_type e) = false).

Lemma heap_fresh_register r p a x rest : heap_fresh r -> heap r = p :: a :: rest -> heap_fresh (register r a x rest).
Proof.
  intros [Hnd Hf] Hh. rewrite Hh in *. apply NoDup_cons in Hnd as [_ Hnd]. apply NoDup_cons in Hnd as [Hna Hnd].
  apply Forall_cons in Hf as [_ Hf]. apply Forall_cons in Hf as [_ Hf]. split; cbn; [done|].
  apply Forall_forall. intros y Hy. rewrite Forall_forall in Hf. destruct (Hf y Hy) as [H1 H2]. split; [done|].
  rewrite lookup_insert_ne; [done|]. by intros ->.
Qed.

Lemma parse_partitions_ok read b d disk es : forall r n,
  registry_wf r -> devices r !! b = Some d -> dev_ops d = ide_operations disk -> heap_fresh r ->
  Forall supported es -> 0 <= n -> n + Z.of_nat (length es) <= 4 -> (2 * length es <= length (heap r))%nat ->
  exists r' n' addrs, parse_partitions read b 0 0 es n r = Ok (n', r') /\ registry_wf r' /\ disks r' = disks r /\
    devices r ⊆ devices r' /\ all_blocks r' = all_blocks r ++ addrs /\
    Forall2 (fun a x => devices r' !! a = Some x) addrs (expected b (dev_name d) (dev_size d) es n).
Proof.
  induction es as [|e es IH]; intros r n Hr Hd Hops Hh Hes Hn Hle Hlen.
  - exists r, n, []. split_and!; try done. by rewrite app_nil_r.
  - apply Forall_cons in Hes as [[Hrange Hext] Hes]. cbn [length expected parse_partitions] in *.
    fold (empty_entry e). destruct (empty_entry e) eqn:He.
    + rewrite bind_ret. apply IH; try done; lia.
    + destruct Hext as [|Hext]; [done|]. rewrite Hext. rewrite (s32_small (n + 1)) by lia. rewrite bind_assoc.
      destruct (heap r) as [|p [|a rest]] eqn:Eh; cbn [length] in Hlen; try lia.
      destruct Hh as [Hnd Hf]. pose proof Hf as Hf'. rewrite Eh in Hf'. apply Forall_cons in Hf' as [[Hp _] Hf'].
      apply Forall_cons in Hf' as [[Ha Hafree] _]. replace (u32 (e_offset e + 0)) with (e_offset e) by (rewrite Z.add_0_r, u32_small; [done|apply Hrange]).
      assert (Hab : a <> b) by congruence.
      mstep (found_partition_run r b d e (n + 1) p a rest Hd (Hr b d Hd) Hrange He ltac:(lia) Eh Hp Ha Hab). rewrite bind_ret.
      destruct (entry_device b (dev_name d) (dev_size d) e (n + 1)) as [x|] eqn:Ex; cbn [option_list app].
      * pose proof (entry_device_wf r b d disk e (n + 1) x Hr Hd Hops Hrange ltac:(lia) Ex) as Hx.
        destruct (IH (register r a x rest) (n + 1)) as (r' & n' & addrs & E & Hr' & Hk & Hsub & Hall & Hf2); try done.
        -- by apply register_wf.
        -- cbn. by rewrite lookup_insert_ne.
        -- by apply (heap_fresh_register r p).
        -- lia.
        -- lia.
        -- cbn. lia.
        -- exists r', n', (a :: addrs). split_and!; try done.
           ++ etransitivity; [|apply Hsub]. by apply insert_subseteq.
           ++ rewrite Hall. cbn. by rewrite <- app_assoc.
           ++ constructor; [|done]. apply (lookup_weaken (devices (register r a x rest))); [apply lookup_insert_eq|done].
      * apply IH; try done; [lia|lia|rewrite Eh; cbn [length]; lia].
Qed.

Lemma counted_wf r b d : registry_wf r -> devices r !! b = Some d -> registry_wf (with_device r b (counted_read d)).
Proof.
  intros Hr Hd. apply (same_wf r); [by apply (same_device r b d)| |done]. intros k c Hc. by exists c.
Qed.

(** The step before the entries: the table comes from sector 0. *)
Lemma read_table_run depth fuel b sector prim n r d disk c mbr p rest :
  devices r !! b = Some d -> dev_ops d = ide_operations disk -> disks r !! disk = Some c -> c !! 0%nat = Some mbr ->
  0 <= sector < dev_size d -> heap r = p :: rest -> p <> NULL -> signature mbr = 43605 ->
  read_partition_table (S depth) (S fuel) b sector prim n r
  = parse_partitions (fun s e n => read_partition_table (S depth) fuel b s e n) b sector prim (partitions mbr) n
      (with_device (Registry (devices r) (all_blocks r) (block_by_role r) (disks r) rest) b (counted_read d)).
Proof.
  intros Hd Hops Hc Hm Hs Hh Hp Hsig. cbn [read_partition_table].
  rewrite (bind_ok _ _ _ (dev_size d) r).
  2: { unfold block_size. by rewrite (bind_ok _ _ _ d r) by by apply get_device_ok. }
  cbv beta. rewrite (proj2 (Z.leb_gt _ _)) by lia.
  set (r1 := Registry (devices r) (all_blocks r) (block_by_role r) (disks r) rest).
  rewrite (bind_ok _ _ _ p r1) by (unfold malloc; by rewrite Hh). cbv beta. rewrite (proj2 (Z.eqb_neq p NULL) Hp).
  mstep (disk_read_run r1 depth b d disk c 0 mbr Hd Hops Hc ltac:(lia) Hm). by rewrite Hsig.
Qed.

(** Scanning a disk whose table has no extended partition registers exactly
    the partitions that lie on the disk, in the order of the table, each with
    its type, size and first sector and the name of the disk with its number
    added, and leaves the registry well formed; the test for partitions that
    reach past the end is right also where its sum wraps around. *)
Theorem partition_scan_correct r b d disk mbr fuel :
  registry_wf r -> devices r !! b = Some d -> dev_ops d = ide_operations disk -> 0 < dev_size d ->
  content r disk !! 0%nat = Some mbr -> Forall is_byte mbr -> heap_fresh r -> (9 <= length (heap r))%nat ->
  signature mbr = 43605 -> Forall (fun e => empty_entry e = true \/ is_extended (e_type e) = false) (partitions mbr) ->
  exists r' addrs, partition_scan 2 (S fuel) b r = Ok (tt, r') /\ registry_wf r' /\ disks r' = disks r /\
    all_blocks r' = all_blocks r ++ addrs /\
    Forall2 (fun a x => devices r' !! a = Some x) addrs (expected b (dev_name d) (dev_size d) (partitions mbr) 0).
Proof.
  intros Hr Hd Hops Hsz Hm Hbytes Hh Hlen Hsig Hext.
  assert (Hc : disks r !! disk = Some (content r disk)).
  { unfold content in *. destruct (disks r !! disk); [done|]. discriminate Hm. }
  destruct Hh as [Hnd Hf]. destruct (heap r) as [|p rest] eqn:Eh; [cbn in Hlen; lia|].
  pose proof Hf as Hf'. apply Forall_cons in Hf' as [[Hp _] Hf']. apply NoDup_cons in Hnd as [_ Hnd].
  unfold partition_scan. set (r1 := Registry (devices r) (all_blocks r) (block_by_role r) (disks r) rest).
  pose proof (read_table_run 1 fuel b 0 0 0 r d disk _ mbr p rest Hd Hops Hc Hm ltac:(lia) Eh Hp Hsig) as Hrun. fold r1 in Hrun.
  set (r2 := with_device r1 b (counted_read d)) in Hrun.
  assert (Hr1 : registry_wf r1) by (intros x y Hx; exact (Hr x y Hx)).
  destruct (parse_partitions_ok (fun s e n => read_partition_table 2 fuel b s e n) b (counted_read d) disk (partitions mbr) r2 0)
    as (r' & n' & addrs & E & Hr' & Hk & _ & Hall & Hf2).
  - by apply counted_wf.
  - apply lookup_insert_eq.
  - done.
  - split; [done|]. cbn. apply (Forall_impl _ _ _ Hf'). intros a [Ha Hna]. split; [done|]. rewrite lookup_insert_ne; [done|congruence].
  - apply Forall_and. split; [by apply partitions_range|done].
  - done.
  - done.
  - cbn in *. lia.
  - exists r', addrs. split_and!; [|done|done|done|done]. rewrite (bind_ok _ _ _ n' r'); [done|]. by rewrite Hrun.
Qed.

(** ** Extended partitions *)

(** What stays while a scan goes on. *)
Definition scanning (b : Z) (d : device) (disk : Z) (c : list (list Z)) (r : registry) : Prop :=
  (exists d', devices r !! b = Some d' /\ plain d' = plain d) /\ disks r !! disk = Some c /\ b ∉ heap r.

Definition ends_badly {A} (m : D A) (r : registry) : Prop := exists e, m r = Err e.

Lemma partition_name_state name n r w r' : partition_name name n r = Ok (w, r') -> r' = r.
Proof.
  unfold partition_name. generalize (printf 64 NULL (cstring "%s%d") [1; u32 n] (write ∅ 1 (name ++ [0]), [])).
  intros [[u [m x]]|e] H; [by injection H|done].
Qed.

Lemma found_keeps b d disk c r r' t start size n :
  scanning b d disk c r -> found_partition b t start size n r = Ok (tt, r') -> scanning b d disk c r'.
Proof.
  intros Hr Hrun. unfold found_partition in Hrun. apply bind_inv in Hrun as (bsize & r1 & E & H).
  assert (r1 = r) as ->.
  { unfold block_size in E. apply bind_inv in E as (x & r2 & Ex & E2). unfold get_device in Ex.
    destruct (devices r !! b); [|done]. injection Ex as _ <-. by injection E2. }
  destruct (bsize <=? start); [by injection H as <-|]. destruct (_ || _); [by injection H as <-|].
  apply bind_inv in H as (p & r1 & Ep & H). injection Ep as <- <-. destruct (_ =? NULL); [done|].
  apply bind_inv in H as (bn & r1 & Eb & H).
  assert (r1 = Registry (devices r) (all_blocks r) (block_by_role r) (disks r) (tail (heap r))) as ->.
  { unfold block_name in Eb. apply bind_inv in Eb as (x & r2 & Ex & E2). unfold get_device in Ex. cbn [devices] in Ex.
    destruct (devices r !! b); [|done]. injection Ex as _ <-. by injection E2. }
  apply bind_inv in H as (nm & r1 & En & H). apply partition_name_state in En as ->.
  apply bind_inv in H as (blk & r1 & Er & H). injection H as <-.
  unfold block_register in Er. apply bind_inv in Er as (a & r2 & Ea & Er). injection Ea as <- <-.
  destruct (_ =? NULL) eqn:Hne; [done|]. apply Z.eqb_neq in Hne.
  cbn in Er, Hne. injection Er as _ <-. destruct Hr as ((d' & Hd' & Hp) & Hk & Hb). split_and!; [|done|].
  - exists d'. split; [|done]. cbn. rewrite lookup_insert_ne; [done|]. intros <-. apply Hb.
    destruct (heap r) as [|h1 [|h2 hs]]; cbn in *; try done. apply elem_of_cons. right. apply elem_of_cons. by left.
  - cbn. intros Hin. apply Hb. destruct (heap r) as [|h1 [|h2 hs]]; cbn in *; try done. by do 2 (apply elem_of_cons; right).
Qed.

Lemma parse_bad read b d disk c sector prim e post pre : forall r n,
  Forall (fun e => is_extended (e_type e) = false) pre -> empty_entry e = false -> is_extended (e_type e) = true ->
  (forall r n, scanning b d disk c r ->
     ends_badly (read (if sector =? 0 then e_offset e else u32 (e_offset e + prim)) (if sector =? 0 then e_offset e else prim) n) r) ->
  scanning b d disk c r -> ends_badly (parse_partitions read b sector prim (pre ++ e :: post) n) r.
Proof.
  induction pre as [|x pre IH]; intros r n Hpre He Hext Hread Hr; cbn [app parse_partitions].
  - fold (empty_entry e). rewrite He, Hext. destruct (Hread r n Hr) as [er Her]. exists er. apply bind_err. by destruct (sector =? 0).
  - apply Forall_cons in Hpre as [Hx Hpre]. fold (empty_entry x). destruct (empty_entry x).
    + destruct (IH r n) as [er Her]; try done. exists er. by rewrite bind_ret.
    + rewrite Hx. cbv zeta. destruct (found_partition b (e_type x) (u32 (e_offset x + sector)) (e_size x) (s32 (n + 1)) r) as [[[] r1]|er] eqn:E.
      * destruct (IH r1 (s32 (n + 1))) as [er Her]; try done; [by apply (found_keeps b d disk c r r1 (e_type x) (u32 (e_offset x + sector)) (e_size x) (s32 (n + 1)))|].
        exists er. rewrite bind_assoc, (bind_ok _ _ _ _ _ E). by rewrite bind_ret.
      * exists er. apply bind_err, bind_err. done.
Qed.

Lemma read_table_bad b d disk c mbr pre e post depth :
  dev_ops d = ide_operations disk -> c !! 0%nat = Some mbr -> signature mbr = 43605 -> partitions mbr = pre ++ e :: post ->
  Forall (fun e => is_extended (e_type e) = false) pre -> empty_entry e = false -> is_extended (e_type e) = true ->
  0 <= e_offset e -> 2 * e_offset e < dev_size d < 4294967296 ->
  forall fuel sector prim n r, scanning b d disk c r -> 0 <= sector < dev_size d -> (sector = 0 \/ prim = e_offset e) ->
  ends_badly (read_partition_table (S depth) fuel b sector prim n) r.
Proof.
  intros Hops Hm Hsig Hparts Hpre He Hext Hoff Hsz. induction fuel as [|fuel IH]; intros sector prim n r Hr Hs Hcase; [by exists EFuel|].
  pose proof Hr as ((d' & Hd' & Hp) & Hk & Hb). apply plain_eq in Hp as Heq. destruct Heq as (_ & _ & Es & Eo).
  assert (Hsize : block_size b r = Ok (dev_size d', r)).
  { unfold block_size. by rewrite (bind_ok _ _ _ d' r) by by apply get_device_ok. }
  assert (Hpanic : default NULL (hd_error (heap r)) = NULL -> ends_badly (read_partition_table (S depth) (S fuel) b sector prim n) r).
  { intros Hnull. exists EPanic. cbn [read_partition_table]. mstep Hsize. rewrite (proj2 (Z.leb_gt _ _)) by lia.
    rewrite (bind_ok _ _ _ NULL (Registry (devices r) (all_blocks r) (block_by_role r) (disks r) (tail (heap r))))
      by (unfold malloc; by rewrite Hnull). done. }
  destruct (heap r) as [|p rest] eqn:Eh; [by apply Hpanic|].
  destruct (decide (p = NULL)) as [->|Hpn]; [by apply Hpanic|].
  unfold ends_badly. rewrite (read_table_run depth fuel b sector prim n r d' disk c mbr p rest); try done; [|congruence|lia].
  rewrite Hparts. apply (parse_bad _ b d disk c sector prim e post pre); try done.
  - intros r2 n2 Hr2. destruct (Z.eqb_spec sector 0) as [->|Hne].
    + apply IH; [done|lia|by right].
    + destruct Hcase as [|Hprim]; [done|]. rewrite Hprim. rewrite u32_small by lia. apply IH; [done|lia|by right].
  - split_and!; [|done|].
    + exists (counted_read d'). cbn. rewrite lookup_insert_eq. done.
    + cbn. intros Hin. apply Hb. apply elem_of_cons. by right.
Qed.

(** A disk whose table has an extended partition in its first half stops
    the start of the kernel: [read_partition_table] reads the table of sector 0
    again at every level, finds the same extended partition in it and never
    returns, for no amount of fuel and memory. *)
Theorem extended_partition_never_returns r b d disk mbr pre e post fuel depth :
  devices r !! b = Some d -> dev_ops d = ide_operations disk -> content r disk !! 0%nat = Some mbr -> b ∉ heap r ->
  signature mbr = 43605 -> partitions mbr = pre ++ e :: post ->
  Forall (fun e => is_extended (e_type e) = false) pre -> empty_entry e = false -> is_extended (e_type e) = true ->
  0 <= e_offset e -> 2 * e_offset e < dev_size d < 4294967296 ->
  exists err, partition_scan (S depth) fuel b r = Err err.
Proof.
  intros Hd Hops Hm Hb Hsig Hparts Hpre He Hext Hoff Hsz.
  assert (Hc : disks r !! disk = Some (content r disk)).
  { unfold content in *. destruct (disks r !! disk); [done|]. discriminate Hm. }
  destruct (read_table_bad b d disk (content r disk) mbr pre e post depth Hops Hm Hsig Hparts Hpre He Hext Hoff Hsz fuel 0 0 0 r)
    as [err Herr]; [|lia|by left|].
  - split_and!; [by exists d|done|done].
  - exists err. unfold partition_scan. by apply bind_err.
Qed.

(** ** An example: a disk of ten sectors *)

(** Entries of type, offset and size; numbers below 256. *)
Definition table_entry (e : Z * Z * Z) : list Z :=
  let '(t, off, sz) := e in [0; 0; 0; 0; t; 0; 0; 0; off; 0; 0; 0; sz; 0; 0; 0].
Definition table (es : list (Z * Z * Z)) : list Z :=
  replicate 446 0 ++ flat_map table_entry es ++ replicate (64 - 16 * length es) 0 ++ [85; 170].

Definition some_disk (es : list (Z * Z * Z)) : list (list Z) := table es :: replicate 9 (replicate 512 7).
Definition hda : device := Device (lit "hda") BLOCK_RAW 10 (ide_operations 1) 0 0.
Definition hda1 : device := Device (lit "hda1") BLOCK_FILESYS 3 (partition_operations 16 2) 0 0.

Definition some_registry (es : list (Z * Z * Z)) : registry :=
  Registry {[16 := hda]} [16] [0; 0; 0; 0] {[1 := some_disk es]} [100; 200; 300; 400; 500; 600; 700; 800; 900; 1000].
Definition with_partition (es : list (Z * Z * Z)) : registry :=
  Registry (<[32 := hda1]> {[16 := hda]}) [16; 32] [0; 0; 0; 0] {[1 := some_disk es]} [].

Lemma some_disk_wf es : (length es <= 4)%nat -> Forall (fun s => length s = 512%nat) (some_disk es).
Proof.
  intros Hl. unfold some_disk, table. constructor; [|by apply Forall_replicate].
  rewrite !length_app, !length_replicate. cbn [length].
  assert (length (flat_map table_entry es) = 16 * length es)%nat as ->.
  { clear Hl. induction es as [|[[t o] s] es IH]; [done|]. cbn [flat_map]. rewrite length_app, IH. cbn [table_entry length]. lia. }
  lia.
Qed.

Lemma hda_wf es r : (length es <= 4)%nat -> disks r = {[1 := some_disk es]} -> device_wf r hda.
Proof.
  intros Hl Hk. unfold device_wf, hda. cbn -[lit]. split_and!; try lia; [by repeat (apply Forall_cons; split; [by vm_compute|])|simpl; lia|done|].
  exists (some_disk es). rewrite Hk. split; [apply lookup_singleton_eq|]. split; [done|by apply some_disk_wf].
Qed.

Lemma partition_refines_block_witness :
  exists bs r', Devices.block_read 2 32 1 (with_partition []) = Ok (bs, r') /\ registry_wf r'.
Proof.
  assert (Hr : registry_wf (with_partition [])).
  { apply map_Forall_insert_2; [|apply map_Forall_singleton; apply (hda_wf []); [simpl; lia|done]].
    unfold device_wf, hda1. cbn -[lit]. split_and!; try lia; [by repeat (apply Forall_cons; split; [by vm_compute|])|simpl; lia|].
    exists hda, 1. split; [done|]. split; [done|]. cbn. lia. }
  destruct (view (with_partition []) 32) as [x|] eqn:Hx; [|done].
  destruct (partition_refines_block (with_partition []) 32 hda1 x 1 (replicate 512 9) Hr) as [Hread _];
    [apply lookup_insert_eq|done|lia|by rewrite length_replicate|].
  assert (Hb : exists bs x', Block.block_read 1 x = Ok (bs, x')) by (vm_compute in Hx; injection Hx as <-; vm_compute; eauto).
  destruct Hb as (bs & x' & E). rewrite E in Hread. destruct Hread as (r' & E' & _ & Hr' & _). exists bs, r'. split; [exact E'|exact Hr'].
Defined.

Lemma partition_scan_correct_witness :
  exists r' addrs, partition_scan 2 1 16 (some_registry [(33, 2, 3); (32, 8, 5)]) = Ok (tt, r') /\ registry_wf r' /\
    all_blocks r' = [16] ++ addrs /\ Forall2 (fun a x => devices r' !! a = Some x) addrs [hda1].
Proof.
  destruct (partition_scan_correct (some_registry [(33, 2, 3); (32, 8, 5)]) 16 hda 1 (table [(33, 2, 3); (32, 8, 5)]) 0)
    as (r' & addrs & E & Hr & _ & Hall & Hf).
  - apply map_Forall_singleton. apply (hda_wf [(33, 2, 3); (32, 8, 5)]); [simpl; lia|done].
  - apply lookup_singleton_eq.
  - done.
  - done.
  - done.
  - unfold table, is_byte. repeat first [apply Forall_app; split | apply Forall_replicate; lia | (repeat constructor; lia)].
  - split; [apply (bool_decide_unpack _); vm_compute; exact I|].
    apply (Forall_impl (fun a => 100 <= a)); [repeat constructor; lia|]. intros a Ha. split; [unfold NULL; lia|].
    cbn. rewrite lookup_singleton_ne; [done|lia].
  - cbn. lia.
  - by vm_compute.
  - repeat (constructor; [vm_compute; auto|]). constructor.
  - exists r', addrs. split; [exact E|]. split; [exact Hr|]. split; [exact Hall|exact Hf].
Defined.

Lemma extended_partition_never_returns_witness : exists err, partition_scan 2 4 16 (some_registry [(33, 2, 3); (5, 4, 6)]) = Err err.
Proof.
  apply (extended_partition_never_returns (some_registry [(33, 2, 3); (5, 4, 6)]) 16 hda 1 (table [(33, 2, 3); (5, 4, 6)])
           [Entry 33 2 3] (Entry 5 4 6) [Entry 0 0 0; Entry 0 0 0] 4 1); try (by vm_compute).
  - apply (bool_decide_unpack _). by vm_compute.
  - by repeat constructor.
Defined.
