(* ===== verification/Malloc.v ===== *)
(** * The block allocator: [threads/malloc.c]

    The pages and the words of memory are those of [Page]; the headers of
    arenas and the contents of blocks are in these words.  The list elements
    inside free blocks are in a memory of [ListModel]: a block becomes an
    element of it when it is put into a free list, with whatever its bytes were
    before.  A descriptor is known by its address in the array [descs], which
    lies at [descs_at].  The locks of the descriptors are left out: each call
    is one critical section. *)

From S2P Require Import Prelude ListModel Bitmap Page.

Definition ARENA_MAGIC : Z := 2589232877.

(** [struct desc] without its list and lock, and the sizes of the structures. *)
Record desc := Desc { d_block_size : Z; d_blocks_per_arena : Z }.
Definition sizeof_desc : Z := 48.
Definition sizeof_arena : Z := 12.

(** [descs] holds the first [desc_cnt] descriptors. *)
Record hstate := HS { hv : vm; elems : mem; descs : list desc }.

Abbreviation H := (M hstate).

Definition on_vm {A} (c : V A) : H A := fun s =>
  match c (hv s) with Ok (a, v) => Ok (a, HS v (elems s) (descs s)) | Err e => Err e end.
Definition on_elems {A} (c : M mem A) : H A := fun s =>
  match c (elems s) with Ok (a, m) => Ok (a, HS (hv s) m (descs s)) | Err e => Err e end.

(** The block at B as a list element with the contents N. *)
Definition as_block (b : Z) (n : list_elem) : H unit := fun s => Ok (tt, HS (hv s) (<[b := n]> (elems s)) (descs s)).

(** ** Bytes in words *)

Definition get_byte (w : Z -> Z) (a : Z) : Z := w (a - a mod 4) / 2 ^ (8 * (a mod 4)) mod 256.
Definition set_byte (a v : Z) (w : Z -> Z) : Z -> Z := fun x =>
  if x =? a - a mod 4 then w x + (v - get_byte w a) * 2 ^ (8 * (a mod 4)) else w x.

Definition load_byte (a : Z) : V Z := s ← get; mret (get_byte (words s) a).
Definition store_byte (a v : Z) : V unit := s ← get; put (set_words (set_byte a v (words s)) s).

Fixpoint memset_loop (n : nat) (dst value : Z) : V unit :=
  match n with O => mret tt | S n => store_byte dst value;; memset_loop n (dst + 1) value end.
Definition memset (dst value size : Z) : V unit := memset_loop (Z.to_nat size) dst value.

Fixpoint memcpy_loop (n : nat) (dst src : Z) : V unit :=
  match n with O => mret tt | S n => b ← load_byte src; store_byte dst b;; memcpy_loop n (dst + 1) (src + 1) end.
Definition memcpy (dst src size : Z) : V unit := memcpy_loop (Z.to_nat size) dst src.

Section Malloc.
Context (descs_at : Z) (garbage : Z -> list_elem).

Definition desc_addr (i : nat) : Z := descs_at + sizeof_desc * Z.of_nat i.
Definition free_list (d : Z) : Z := d + 8.

(** Access through a pointer to a descriptor. *)
Definition get_desc (d : Z) : H desc := fun s =>
  if (0 <=? d - descs_at) && ((d - descs_at) mod sizeof_desc =? 0)
  then lift_opt EFault (descs s !! Z.to_nat ((d - descs_at) / sizeof_desc)) s else Err EFault.

(** The fields of the arena at A. *)
Definition magic (a : Z) : H Z := on_vm (rd a).
Definition arena_desc (a : Z) : H Z := on_vm (rd (a + 4)).
Definition free_cnt (a : Z) : H Z := on_vm (rd (a + 8)).
Definition set_arena (a desc cnt : Z) : H unit :=
  on_vm (wr a ARENA_MAGIC);; on_vm (wr (a + 4) desc);; on_vm (wr (a + 8) cnt).

(** ** Initialization *)

Fixpoint init_loop (fuel : nat) (block_size : Z) : H unit :=
  match fuel with
  | O => fail EFuel
  | S fuel =>
      if block_size <? PGSIZE / 2 then
        s ← get;
        let i := length (descs s) in
        ASSERT (Z.of_nat (S i) <=? 10);;
        put (HS (hv s) (elems s) (descs s ++ [Desc block_size ((PGSIZE - sizeof_arena) / block_size)]));;
        on_elems (list_init (free_list (desc_addr i)));;
        init_loop fuel (u32 (block_size * 2))
      else mret tt
  end.

Definition malloc_init : H unit := init_loop 11 16.

(** ** Blocks and arenas *)

Definition block_to_arena (b : Z) : H Z :=
  let a := pg_round_down b in
  ASSERT (negb (a =? NULL));;
  m ← magic a;
  ASSERT (m =? ARENA_MAGIC);;
  d ← arena_desc a;
  (if d =? NULL then mret tt
   else x ← get_desc d; ASSERT (u32 (pg_ofs b - sizeof_arena) mod d_block_size x =? 0));;
  ASSERT (negb (d =? NULL) || (pg_ofs b =? sizeof_arena));;
  mret a.

Definition arena_to_block (a idx : Z) : H Z :=
  ASSERT (negb (a =? NULL));;
  m ← magic a;
  ASSERT (m =? ARENA_MAGIC);;
  d ← arena_desc a;
  x ← get_desc d;
  ASSERT (idx <? d_blocks_per_arena x);;
  mret (u32 (a + sizeof_arena + idx * d_block_size x)).

(** ** Allocation *)

(** The first descriptor from I on whose blocks have room for SIZE bytes. *)
Fixpoint find_desc (ds : list desc) (i : nat) (size : Z) : option (nat * desc) :=
  match ds with
  | [] => None
  | d :: ds => if size <=? d_block_size d then Some (i, d) else find_desc ds (S i) size
  end.

Fixpoint add_blocks (n : nat) (d a i : Z) : H unit :=
  match n with
  | O => mret tt
  | S n =>
      b ← arena_to_block a i;
      as_block b (garbage b);;
      on_elems (list_push_back (free_list d) b);;
      add_blocks n d a (i + 1)
  end.

(** The list of D has a free block, or a new arena is made for it. *)
Definition refill (d : Z) (x : desc) : H bool :=
  e ← on_elems (list_empty (free_list d));
  if (e : bool) then
    a ← on_vm (palloc_get_page 0);
    if a =? NULL then mret false else
    set_arena a d (d_blocks_per_arena x);;
    add_blocks (Z.to_nat (d_blocks_per_arena x)) d a 0;;
    mret true
  else mret true.

Definition malloc (size : Z) : H Z :=
  if size =? 0 then mret NULL else
  s ← get;
  match find_desc (descs s) 0 size with
  | None =>
      let page_cnt := DIV_ROUND_UP (u32 (size + sizeof_arena)) PGSIZE in
      a ← on_vm (palloc_get_multiple 0 page_cnt);
      if a =? NULL then mret NULL else
      set_arena a NULL page_cnt;;
      mret (a + sizeof_arena)
  | Some (i, x) =>
      let d := desc_addr i in
      ok ← refill d x;
      if negb ok then mret NULL else
      b ← on_elems (list_pop_front (free_list d));
      a ← block_to_arena b;
      c ← free_cnt a;
      on_vm (wr (a + 8) (u32 (c - 1)));;
      mret b
  end.

Definition calloc (a b : Z) : H Z :=
  let size := u32 (a * b) in
  if (size <? a) || (size <? b) then mret NULL else
  p ← malloc size;
  (if negb (p =? NULL) then on_vm (memset p 0 size) else mret tt);;
  mret p.

Definition block_size (block : Z) : H Z :=
  a ← block_to_arena block;
  d ← arena_desc a;
  if negb (d =? NULL) then x ← get_desc d; mret (d_block_size x)
  else n ← free_cnt a; mret (u32 (PGSIZE * n - pg_ofs block)).

(** ** Freeing *)

Fixpoint remove_blocks (n : nat) (a i : Z) : H unit :=
  match n with
  | O => mret tt
  | S n =>
      b ← arena_to_block a i;
      on_elems (list_remove b);;
      remove_blocks n a (i + 1)
  end.

Definition free (p : Z) : H unit :=
  if p =? NULL then mret tt else
  a ← block_to_arena p;
  d ← arena_desc a;
  if negb (d =? NULL) then
    x ← get_desc d;
    on_vm (memset p 204 (d_block_size x));;
    as_block p (ListElem 3435973836 3435973836);;
    on_elems (list_push_front (free_list d) p);;
    c ← free_cnt a;
    on_vm (wr (a + 8) (u32 (c + 1)));;
    if d_blocks_per_arena x <=? u32 (c + 1) then
      ASSERT (u32 (c + 1) =? d_blocks_per_arena x);;
      remove_blocks (Z.to_nat (d_blocks_per_arena x)) a 0;;
      on_vm (palloc_free_page a)
    else mret tt
  else
    n ← free_cnt a;
    on_vm (palloc_free_multiple a n).

Definition realloc (old_block new_size : Z) : H Z :=
  if new_size =? 0 then free old_block;; mret NULL else
  new_block ← malloc new_size;
  (if negb (old_block =? NULL) && negb (new_block =? NULL) then
     old_size ← block_size old_block;
     let min_size := if new_size <? old_size then new_size else old_size in
     on_vm (memcpy new_block old_block min_size);;
     free old_block
   else mret tt);;
  mret new_block.

End Malloc.
