(* ===== verification/MallocRep.v ===== *)
(** * The block allocator: the shape of the heap

    [fam fls] is the family of the free lists of the descriptors.  [heap_rep s ar
    fls] relates a state to its arenas: [ar] says of each arena which descriptor
    it belongs to and which of its blocks are in use, or how many pages a big
    block has.  [is_live ar b n]: there is an allocated block of [n] bytes at
    [b]. *)

From S2P Require Import Prelude ListModel ListRep ListOps HashRep Bitmap BitmapThms Page PageThms PageProps Malloc.

(** ** The free lists *)

Section Free_lists.
Context (descs_at : Z).

Definition hdr (i : nat) : Z := free_list (desc_addr descs_at i).
Definition fam (fls : list (list Z)) : list (Z * list Z) := imap (fun i xs => (hdr i, xs)) fls.

Lemma fam_split fls i xs :
  fls !! i = Some xs -> exists rest, forall ys, fam (<[i := ys]> fls) ≡ₚ (hdr i, ys) :: rest.
Proof.
  intros Hi. exists (fam (take i fls) ++ imap (fun j zs => (hdr (i + S j), zs)) (drop (S i) fls)).
  intros ys. pose proof (lookup_lt_Some _ _ _ Hi) as Hlt. rewrite insert_take_drop by done. unfold fam. rewrite imap_app.
  rewrite length_take, Nat.min_l by lia. cbn [imap]. rewrite Nat.add_0_r.
  by rewrite Permutation_middle.
Qed.

Lemma elem_of_fam fls a :
  a ∈ foot (fam fls) <-> exists i xs, fls !! i = Some xs /\ a ∈ whole (hdr i) xs.
Proof.
  unfold foot. rewrite <- flat_map_concat_map. rewrite list_elem_of_In, in_flat_map. split.
  - intros ([l xs] & Hin & Ha). apply list_elem_of_In in Hin, Ha. apply elem_of_lookup_imap in Hin as (i & y & [= -> <-] & Hy).
    eauto.
  - intros (i & xs & Hi & Ha). exists (hdr i, xs). split; [|by apply list_elem_of_In].
    apply list_elem_of_In, elem_of_lookup_imap. eauto.
Qed.

Lemma fam_focus m fls i xs :
  reps m (fam fls) -> fls !! i = Some xs ->
  exists rest, reps m ((hdr i, xs) :: rest) /\ foot (fam fls) ≡ₚ foot ((hdr i, xs) :: rest) /\
    forall m' ys, reps m' ((hdr i, ys) :: rest) <-> reps m' (fam (<[i := ys]> fls)).
Proof.
  intros Hr Hi. destruct (fam_split fls i xs Hi) as [rest Hrest]. exists rest. pose proof (Hrest xs) as Hxs.
  rewrite list_insert_id in Hxs by done. split_and!; [by rewrite <- Hxs|by rewrite Hxs|]. intros m' ys. by rewrite Hrest.
Qed.

(** A block becomes an element of the memory. *)
Lemma reps_new m ls b n : reps m ls -> b ∉ foot ls -> reps (<[b := n]> m) ls /\ has (<[b := n]> m) b.
Proof.
  intros Hr Hb. split; [|exists n; apply lookup_insert_eq]. apply (reps_agree m); [|done]. intros a Ha.
  rewrite lookup_insert_ne; [done|]. by intros ->.
Qed.

Lemma fam_push_back m fls i xs b n :
  reps m (fam fls) -> fls !! i = Some xs -> b <> NULL -> b ∉ foot (fam fls) ->
  exists m', list_push_back (hdr i) b (<[b := n]> m) = Ok (tt, m') /\ reps m' (fam (<[i := xs ++ [b]]> fls)).
Proof.
  intros Hr Hi Hb Hn. destruct (fam_focus m fls i xs Hr Hi) as (rest & Hr1 & Hf & Hback). rewrite Hf in Hn.
  destruct (reps_new m _ b n Hr1 Hn) as [Hr2 Hh]. rewrite foot_cons, elem_of_app in Hn.
  pose proof (proj1 (reps_cons _ _ _ _) Hr2) as (Hl & _ & Hd).
  destruct (list_push_back_ok (<[b := n]> m) (hdr i) xs b Hl Hb Hh) as (m' & E & Hl' & Ho); [tauto|].
  exists m'. split; [done|]. apply Hback.
  assert (Hw : forall a, a ∈ whole (hdr i) (xs ++ [b]) -> a ∉ foot rest).
  { intros a Ha Hin. assert (a = b \/ a ∈ whole (hdr i) xs) as [->|Ha'] by (unfold whole in *; set_solver); [tauto|]. by apply (Hd a). }
  by apply (reps_set (<[b := n]> m) m' (hdr i) xs (xs ++ [b]) (whole (hdr i) (xs ++ [b]))).
Qed.

Lemma fam_push_front m fls i xs b n :
  reps m (fam fls) -> fls !! i = Some xs -> b <> NULL -> b ∉ foot (fam fls) ->
  exists m', list_push_front (hdr i) b (<[b := n]> m) = Ok (tt, m') /\ reps m' (fam (<[i := b :: xs]> fls)).
Proof.
  intros Hr Hi Hb Hn. destruct (fam_focus m fls i xs Hr Hi) as (rest & Hr1 & Hf & Hback). rewrite Hf in Hn.
  destruct (reps_new m _ b n Hr1 Hn) as [Hr2 Hh].
  destruct (reps_push _ _ _ _ b Hr2 Hb Hh Hn) as (m' & E & Hr' & _). exists m'. split; [done|]. by apply Hback.
Qed.

Lemma fam_remove m fls i us b vs :
  reps m (fam fls) -> fls !! i = Some (us ++ b :: vs) ->
  exists y m', list_remove b m = Ok (y, m') /\ reps m' (fam (<[i := us ++ vs]> fls)).
Proof.
  intros Hr Hi. destruct (fam_focus m fls i _ Hr Hi) as (rest & Hr1 & _ & Hback).
  destruct (reps_remove m _ _ _ _ _ Hr1) as (m' & E & Hr' & _). eexists _, m'. split; [apply E|]. by apply Hback.
Qed.

Lemma fam_pop m fls i b xs :
  reps m (fam fls) -> fls !! i = Some (b :: xs) ->
  exists m', list_pop_front (hdr i) m = Ok (b, m') /\ reps m' (fam (<[i := xs]> fls)).
Proof.
  intros Hr Hi. destruct (fam_focus m fls i _ Hr Hi) as (rest & Hr1 & _ & Hback).
  pose proof (proj1 (reps_cons _ _ _ _) Hr1) as (Hl & _ & Hd).
  destruct (list_pop_front_ok m (hdr i) b xs Hl) as (m' & E & Hl' & Ho & _). exists m'. split; [done|]. apply Hback.
  apply (reps_set m m' (hdr i) (b :: xs) xs (whole (hdr i) (b :: xs))); try done.
  intros a Ha. apply Hd, whole_cons. by right.
Qed.

Lemma fam_rep m fls i xs : reps m (fam fls) -> fls !! i = Some xs -> rep m (hdr i) xs.
Proof.
  intros Hr Hi. destruct (fam_focus m fls i xs Hr Hi) as (rest & Hr1 & _). by apply reps_cons in Hr1 as [Hl _].
Qed.

(** The elements of the free lists. *)
Lemma fam_elem fls i xs b : fls !! i = Some xs -> b ∈ xs -> b ∈ foot (fam fls).
Proof. intros Hi Hb. apply elem_of_fam. exists i, xs. split; [done|]. unfold whole. set_solver. Qed.

Lemma fam_nodup m fls i xs : reps m (fam fls) -> fls !! i = Some xs -> NoDup xs.
Proof.
  intros Hr Hi. pose proof (rep_nodup _ _ _ (fam_rep m fls i xs Hr Hi)) as Hn. unfold whole in Hn.
  apply NoDup_cons in Hn as [_ Hn]. by apply NoDup_app in Hn as [Hn _].
Qed.

End Free_lists.

(** ** Arenas *)

Definition std_descs : list desc :=
  [Desc 16 255; Desc 32 127; Desc 64 63; Desc 128 31; Desc 256 15; Desc 512 7; Desc 1024 3].

Lemma std_desc_ok i x : std_descs !! i = Some x ->
  (i < 7)%nat /\ 16 <= d_block_size x <= 1024 /\ d_block_size x mod 4 = 0 /\ 1 < d_blocks_per_arena x <= 255 /\
  12 + d_blocks_per_arena x * d_block_size x <= 4096.
Proof. intros Hi. do 7 (destruct i as [|i]; [injection Hi as <-; split_and!; first [by vm_compute | cbn; lia]|]). done. Qed.

Inductive kind := Small (i : nat) (used : list Z) | Big (n : Z).

Definition pages_of (k : kind) : Z := match k with Small _ _ => 1 | Big n => n end.

Definition block_addr (a : Z) (x : desc) (idx : Z) : Z := a + 12 + idx * d_block_size x.

(** The pages of an arena are allocated in the kernel pool. *)
Definition on_pages (v : vm) (a n : Z) : Prop :=
  exists j, 0 <= j /\ j + n <= bit_cnt (used_map (kernel_pool v)) /\ a = base (kernel_pool v) + 4096 * j /\
    run (used_map (kernel_pool v)) j n true.

Section Heap.
Context (descs_at : Z).

(** The header of an arena. *)
Definition header_ok (w : Z -> Z) (a : Z) (k : kind) : Prop :=
  w a = ARENA_MAGIC /\
  match k with
  | Small i used =>
      w (a + 4) = desc_addr descs_at i /\
      exists x, std_descs !! i = Some x /\ w (a + 8) = d_blocks_per_arena x - Z.of_nat (length used) /\
        NoDup used /\ Forall (fun u => 0 <= u < d_blocks_per_arena x) used
  | Big n => w (a + 4) = NULL /\ w (a + 8) = n /\ 0 < n
  end.

Definition arena_ok (v : vm) (a : Z) (k : kind) : Prop := on_pages v a (pages_of k) /\ header_ok (words v) a k.

Definition arenas_apart (ar : gmap Z kind) : Prop := forall a a' k k',
  ar !! a = Some k -> ar !! a' = Some k' -> a <> a' -> a + 4096 * pages_of k <= a' \/ a' + 4096 * pages_of k' <= a.

Definition free_block (ar : gmap Z kind) (i : nat) (b : Z) : Prop :=
  exists a used x idx, ar !! a = Some (Small i used) /\ std_descs !! i = Some x /\
    0 <= idx < d_blocks_per_arena x /\ (idx ∉ used) /\ b = block_addr a x idx.

Record heap_rep (s : hstate) (ar : gmap Z kind) (fls : list (list Z)) : Prop := {
  hr_pools : pools_ok (hv s);
  hr_static : 0 < descs_at /\ descs_at + 480 <= base (kernel_pool (hv s));
  hr_descs : descs s = std_descs;
  hr_arenas : map_Forall (arena_ok (hv s)) ar;
  hr_apart : arenas_apart ar;
  hr_length : length fls = 7%nat;
  hr_lists : reps (elems s) (fam descs_at fls);
  hr_free : forall i xs b, fls !! i = Some xs -> (b ∈ xs <-> free_block ar i b)
}.

Definition live_at (ar : gmap Z kind) (a b n : Z) : Prop :=
  match ar !! a with
  | Some (Small i used) =>
      exists x idx, std_descs !! i = Some x /\ idx ∈ used /\ b = block_addr a x idx /\ n = d_block_size x
  | Some (Big k) => b = a + 12 /\ n = 4096 * k - 12
  | None => False
  end.
Definition is_live (ar : gmap Z kind) (b n : Z) : Prop := exists a, live_at ar a b n.

(** ** Addresses *)

Lemma on_pages_bounds v a n : pools_ok v -> 0 < n -> on_pages v a n ->
  a mod 4096 = 0 /\ PHYS_BASE <= base (kernel_pool v) <= a /\ a + 4096 * n <= 4294967296 /\
  a + 4096 * n <= base (kernel_pool v) + 4096 * bit_cnt (used_map (kernel_pool v)).
Proof.
  intros Hv Hn (j & Hj & Hjn & -> & _). destruct (ps_kernel v Hv) as [_ Hal Hlow Hhigh]. split_and!; try lia.
  rewrite Z.mul_comm, Z.mod_add by lia. done.
Qed.

Lemma page_round a b : a mod 4096 = 0 -> 0 <= a -> a <= b < a + 4096 -> b < 4294967296 -> pg_round_down b = a /\ pg_ofs b = b - a.
Proof.
  intros Ha H0 Hb Hmax.
  assert (Hm : b mod 4096 = b - a).
  { pose proof (Z.div_mod a 4096 ltac:(lia)). symmetry. apply Z.mod_unique with (a / 4096); lia. }
  split; [|by rewrite pg_ofs_mod].
  unfold pg_round_down. change (u32 (Z.lnot PGMASK)) with PTE_ADDR. rewrite land_addr by lia. lia.
Qed.

Lemma block_in_page a x i idx : std_descs !! i = Some x -> 0 <= idx < d_blocks_per_arena x ->
  a + 12 <= block_addr a x idx /\ block_addr a x idx + d_block_size x <= a + 4096.
Proof. intros Hx Hidx. destruct (std_desc_ok i x Hx) as (_ & Hbs & _ & _ & Hb). unfold block_addr. nia. Qed.

Lemma block_addr_inj a x idx idx' : 0 < d_block_size x -> block_addr a x idx = block_addr a x idx' -> idx = idx'.
Proof. unfold block_addr. nia. Qed.

Lemma arena_pages s ar fls a k : heap_rep s ar fls -> ar !! a = Some k -> 0 < pages_of k.
Proof.
  intros Hr Ha. destruct (hr_arenas _ _ _ Hr a k Ha) as [_ (_ & Hk)]. destruct k as [i used|n]; cbn; [lia|]. by destruct Hk as (_ & _ & Hn).
Qed.

Lemma arena_bounds s ar fls a k : heap_rep s ar fls -> ar !! a = Some k ->
  a mod 4096 = 0 /\ PHYS_BASE <= base (kernel_pool (hv s)) <= a /\ a + 4096 * pages_of k <= 4294967296.
Proof.
  intros Hr Ha. pose proof (arena_pages s ar fls a k Hr Ha) as Hp. destruct (hr_arenas _ _ _ Hr a k Ha) as [Hon _].
  destruct (on_pages_bounds _ _ _ (hr_pools _ _ _ Hr) Hp Hon) as (? & ? & ? & _). done.
Qed.

(** An address belongs to one arena. *)
Lemma arena_unique s ar fls a a' k k' b : heap_rep s ar fls -> ar !! a = Some k -> ar !! a' = Some k' ->
  a <= b < a + 4096 * pages_of k -> a' <= b < a' + 4096 * pages_of k' -> a = a'.
Proof.
  intros Hr Ha Ha' Hb Hb'. destruct (decide (a = a')) as [|Hne]; [done|].
  destruct (hr_apart _ _ _ Hr a a' k k' Ha Ha' Hne); lia.
Qed.

Lemma desc_index i : desc_addr descs_at i - descs_at = 48 * Z.of_nat i.
Proof. unfold desc_addr, sizeof_desc. lia. Qed.

Lemma get_desc_ok s i x : descs s = std_descs -> std_descs !! i = Some x -> get_desc descs_at (desc_addr descs_at i) s = Ok (x, s).
Proof.
  intros Hd Hx. unfold get_desc. rewrite desc_index. rewrite Z.mul_comm. unfold sizeof_desc.
  rewrite (proj2 (Z.leb_le _ _)) by lia. rewrite Z.mod_mul by lia. cbn [andb Z.eqb]. rewrite Z.div_mul by lia.
  by rewrite Nat2Z.id, Hd, Hx.
Qed.

Lemma desc_not_null i : 0 < descs_at -> desc_addr descs_at i <> NULL.
Proof. unfold desc_addr, sizeof_desc, NULL. lia. Qed.

(** Headers of lists lie below every arena. *)
Lemma foot_below fls a :
  (length fls <= 10)%nat -> a ∈ foot (fam descs_at fls) ->
  a < descs_at + 480 \/ exists i xs, fls !! i = Some xs /\ a ∈ xs.
Proof.
  intros Hl Ha. apply elem_of_fam in Ha as (i & xs & Hi & Ha). pose proof (lookup_lt_Some _ _ _ Hi).
  unfold whole, hdr, free_list, head_of, tail_of, desc_addr, sizeof_desc in Ha.
  rewrite elem_of_cons, elem_of_app, list_elem_of_singleton in Ha. destruct Ha as [->|[Ha| ->]]; [left; lia|right; eauto|left; lia].
Qed.

(** The fields of an arena. *)
Lemma on_vm_ok {A} (c : V A) s a v : c (hv s) = Ok (a, v) -> on_vm c s = Ok (a, HS v (elems s) (descs s)).
Proof. intros E. unfold on_vm. by rewrite E. Qed.

Lemma field_ok s p : on_vm (rd p) s = Ok (words (hv s) p, s).
Proof. by destruct s. Qed.

Definition put_word (p v : Z) (w : Z -> Z) : Z -> Z := fun a => if a =? p then v else w a.
Definition with_words (s : hstate) (w : Z -> Z) : hstate := HS (set_words w (hv s)) (elems s) (descs s).

Lemma wr_ok s p v : on_vm (wr p v) s = Ok (tt, with_words s (put_word p v (words (hv s)))).
Proof. done. Qed.

Lemma put_word_eq p v w : put_word p v w p = v.
Proof. unfold put_word. by rewrite Z.eqb_refl. Qed.

Lemma put_word_ne p v w a : a <> p -> put_word p v w a = w a.
Proof. intros H. unfold put_word. by rewrite (proj2 (Z.eqb_neq a p) H). Qed.

(** The header of an arena of small blocks, whatever its count is. *)
Record small_arena (s : hstate) (a : Z) (i : nat) (x : desc) : Prop := {
  sa_desc : std_descs !! i = Some x;
  sa_descs : descs s = std_descs;
  sa_static : 0 < descs_at;
  sa_aligned : a mod 4096 = 0;
  sa_range : 0 < a /\ a + 4096 <= 4294967296;
  sa_magic : words (hv s) a = ARENA_MAGIC;
  sa_owner : words (hv s) (a + 4) = desc_addr descs_at i
}.

Lemma block_to_arena_small s a i x idx :
  small_arena s a i x -> 0 <= idx < d_blocks_per_arena x -> block_to_arena descs_at (block_addr a x idx) s = Ok (a, s).
Proof.
  intros [Hx Hd Hst Ha Hr Hm Ho] Hidx. destruct (block_in_page a x i idx Hx Hidx) as [Hlo Hhi].
  destruct (std_desc_ok i x Hx) as (_ & Hbs & _ & _ & _).
  destruct (page_round a (block_addr a x idx)) as [Hrd Hof]; [done|lia|lia|lia|].
  unfold block_to_arena. rewrite Hrd, Hof. cbv zeta. rewrite (proj2 (Z.eqb_neq a NULL)) by (unfold NULL; lia).
  rewrite (bind_ok _ _ _ tt s) by done. cbv beta. unfold magic. mstep (field_ok s a). rewrite Hm.
  rewrite (bind_ok _ _ _ tt s) by done. cbv beta. unfold arena_desc. mstep (field_ok s (a + 4)). rewrite Ho.
  rewrite (proj2 (Z.eqb_neq _ _) (desc_not_null i Hst)). rewrite (bind_ok _ _ _ tt s).
  - cbv beta. by rewrite (bind_ok _ _ _ tt s).
  - mstep (get_desc_ok s i x Hd Hx). apply ASSERT_true, Z.eqb_eq. unfold block_addr, sizeof_arena.
    replace (a + 12 + idx * d_block_size x - a - 12) with (idx * d_block_size x) by lia.
    rewrite u32_small by (unfold block_addr in *; nia). apply Z.mod_mul. lia.
Qed.

Lemma block_to_arena_big s a :
  a mod 4096 = 0 -> 0 < a -> a + 4096 <= 4294967296 -> words (hv s) a = ARENA_MAGIC -> words (hv s) (a + 4) = NULL ->
  block_to_arena descs_at (a + 12) s = Ok (a, s).
Proof.
  intros Ha H0 Hr Hm Ho. destruct (page_round a (a + 12)) as [Hrd Hof]; [done|lia|lia|lia|].
  unfold block_to_arena. rewrite Hrd, Hof. cbv zeta. rewrite (proj2 (Z.eqb_neq a NULL)) by (unfold NULL; lia).
  rewrite (bind_ok _ _ _ tt s) by done. cbv beta. unfold magic. mstep (field_ok s a). rewrite Hm.
  rewrite (bind_ok _ _ _ tt s) by done. cbv beta. unfold arena_desc. mstep (field_ok s (a + 4)). rewrite Ho.
  change (NULL =? NULL) with true. cbv iota. rewrite bind_ret. replace (a + 12 - a) with 12 by lia.
  by rewrite (bind_ok _ _ _ tt s).
Qed.

Lemma arena_to_block_ok s a i x idx :
  small_arena s a i x -> 0 <= idx < d_blocks_per_arena x -> arena_to_block descs_at a idx s = Ok (block_addr a x idx, s).
Proof.
  intros [Hx Hd Hst Ha Hr Hm Ho] Hidx. destruct (block_in_page a x i idx Hx Hidx) as [Hlo Hhi].
  destruct (std_desc_ok i x Hx) as (_ & Hbs & _ & _ & _).
  unfold arena_to_block. rewrite (proj2 (Z.eqb_neq a NULL)) by (unfold NULL; lia).
  rewrite (bind_ok _ _ _ tt s) by done. cbv beta. unfold magic. mstep (field_ok s a). rewrite Hm.
  rewrite (bind_ok _ _ _ tt s) by done. cbv beta. unfold arena_desc. mstep (field_ok s (a + 4)). rewrite Ho.
  mstep (get_desc_ok s i x Hd Hx). rewrite (proj2 (Z.ltb_lt _ _)) by lia. rewrite (bind_ok _ _ _ tt s) by done.
  cbv beta. unfold sizeof_arena. change (a + 12 + idx * d_block_size x) with (block_addr a x idx).
  by rewrite u32_small by lia.
Qed.

Lemma rep_small s ar fls a i used x :
  heap_rep s ar fls -> ar !! a = Some (Small i used) -> std_descs !! i = Some x -> small_arena s a i x.
Proof.
  intros Hr Ha Hx. destruct (arena_bounds s ar fls a _ Hr Ha) as (Hal & Hb & Hmax). cbn [pages_of] in Hmax.
  destruct (hr_arenas _ _ _ Hr a _ Ha) as [_ (Hm & Ho & _)]. destruct (hr_static _ _ _ Hr). unfold PHYS_BASE in *.
  split; try done; try apply Hr; lia.
Qed.

Lemma small_arena_elems s a i x m : small_arena s a i x -> small_arena (HS (hv s) m (descs s)) a i x.
Proof. intros [? ? ? ? ? ? ?]. by split. Qed.

(** Adding the blocks of an arena to a free list, from block IDX on. *)
Definition blocks_from (a : Z) (x : desc) (idx : Z) (n : nat) : list Z :=
  map (fun j => block_addr a x j) (seqZ idx (Z.of_nat n)).

Lemma blocks_from_S a x idx n : blocks_from a x idx (S n) = block_addr a x idx :: blocks_from a x (idx + 1) n.
Proof. unfold blocks_from. rewrite seqZ_cons by lia. cbn [map]. do 3 f_equal; lia. Qed.

Lemma elem_of_blocks_from a x idx n b :
  b ∈ blocks_from a x idx n <-> exists j, idx <= j < idx + Z.of_nat n /\ b = block_addr a x j.
Proof.
  unfold blocks_from. rewrite list_elem_of_In, in_map_iff. split.
  - intros (j & <- & Hj). apply list_elem_of_In, elem_of_seqZ in Hj. exists j. split; [lia|done].
  - intros (j & Hj & ->). exists j. split; [done|]. apply list_elem_of_In, elem_of_seqZ. lia.
Qed.

Lemma add_blocks_ok garbage a i x n : forall s idx fls xs,
  small_arena s a i x -> 0 <= idx -> idx + Z.of_nat n <= d_blocks_per_arena x ->
  reps (elems s) (fam descs_at fls) -> fls !! i = Some xs ->
  (forall j, idx <= j < idx + Z.of_nat n -> block_addr a x j ∉ foot (fam descs_at fls)) ->
  exists m', add_blocks descs_at garbage n (desc_addr descs_at i) a idx s = Ok (tt, HS (hv s) m' (descs s)) /\
    reps m' (fam descs_at (<[i := xs ++ blocks_from a x idx n]> fls)).
Proof.
  induction n as [|n IH]; intros s idx fls xs Hs H0 Hn Hr Hi Hout; cbn [add_blocks].
  - exists (elems s). unfold blocks_from. cbn. rewrite app_nil_r, list_insert_id by done. by destruct s.
  - pose proof (sa_range _ _ _ _ Hs) as Hrange. destruct (block_in_page a x i idx (sa_desc _ _ _ _ Hs) ltac:(lia)) as [Hlo _].
    mstep (arena_to_block_ok s a i x idx Hs ltac:(lia)). set (b := block_addr a x idx) in *.
    rewrite (bind_ok _ _ _ tt (HS (hv s) (<[b := garbage b]> (elems s)) (descs s))) by done. cbv beta.
    destruct (fam_push_back descs_at (elems s) fls i xs b (garbage b) Hr Hi) as (m1 & E1 & Hr1); [unfold NULL; lia|apply Hout; lia|]. unfold hdr in E1.
    rewrite (bind_ok _ _ _ tt (HS (hv s) m1 (descs s))) by (unfold on_elems; cbn [elems]; by rewrite E1). cbv beta.
    destruct (IH (HS (hv s) m1 (descs s)) (idx + 1) (<[i := xs ++ [b]]> fls) (xs ++ [b])) as (m' & E & Hr'); try lia.
    + by apply small_arena_elems.
    + done.
    + apply list_lookup_insert_eq. by apply (lookup_lt_Some _ _ xs).
    + intros j Hj Hin. apply elem_of_fam in Hin as (k & zs & Hk & Hin). destruct (decide (i = k)) as [<-|Hne].
      * rewrite list_lookup_insert_eq in Hk by (by apply (lookup_lt_Some _ _ xs)). injection Hk as <-.
        assert (block_addr a x j = b \/ block_addr a x j ∈ whole (hdr descs_at i) xs) as [E2|Hin'] by (unfold whole in *; set_solver).
        -- apply block_addr_inj in E2; [lia|]. destruct (std_desc_ok i x (sa_desc _ _ _ _ Hs)) as (_ & ? & _). lia.
        -- apply (Hout j); [lia|]. apply elem_of_fam. eauto.
      * rewrite list_lookup_insert_ne in Hk by done. apply (Hout j); [lia|]. apply elem_of_fam. eauto.
    + exists m'. cbn [hv descs] in E. split; [exact E|]. rewrite blocks_from_S.
      rewrite list_insert_insert_eq in Hr'. by rewrite <- app_assoc in Hr'.
Qed.

(** ** Changes of the set of arenas *)

(** Memory changes within N pages at A only. *)
Definition local_change (a n : Z) (w w' : Z -> Z) : Prop := forall x, x < a \/ a + 4096 * n <= x -> w' x = w x.

Lemma header_frame w w' a0 k0 a n :
  local_change a n w w' -> 0 < pages_of k0 -> a0 + 4096 * pages_of k0 <= a \/ a + 4096 * n <= a0 ->
  header_ok w a0 k0 -> header_ok w' a0 k0.
Proof.
  intros Hw Hk Hap (Hm & Hrest). unfold header_ok. rewrite !Hw by lia. done.
Qed.

(** The kernel pool of [v'] has the bitmap [b], where it had another of the same size. *)
Record pool_change (v v' : vm) (b : bitmap) : Prop := {
  pc_pools : pools_ok v';
  pc_base : base (kernel_pool v') = base (kernel_pool v);
  pc_map : used_map (kernel_pool v') = b;
  pc_cnt : bit_cnt b = bit_cnt (used_map (kernel_pool v))
}.

Lemma on_pages_change v v' b a n :
  pool_change v v' b -> 0 <= n -> on_pages v a n ->
  (forall j, 0 <= j -> base (kernel_pool v) + 4096 * j < a + 4096 * n -> a <= base (kernel_pool v) + 4096 * j ->
     bit (used_map (kernel_pool v)) j = true -> bit b j = true) ->
  on_pages v' a n.
Proof.
  intros [_ Hb Hm Hc] Hn (j & Hj & Hjn & -> & Hrun) Hkeep. exists j. rewrite Hb, Hm, Hc. split_and!; try done.
  intros l Hl. apply Hkeep; [lia|lia|lia|by apply Hrun].
Qed.

(** The pages that a free run gives do not belong to any arena. *)
Lemma fresh_apart s ar fls j n a0 k0 :
  heap_rep s ar fls -> run (used_map (kernel_pool (hv s))) j n false -> 0 < n -> ar !! a0 = Some k0 ->
  let a := base (kernel_pool (hv s)) + 4096 * j in a0 + 4096 * pages_of k0 <= a \/ a + 4096 * n <= a0.
Proof.
  intros Hr Hrun Hn Ha0 a. pose proof (arena_pages s ar fls a0 k0 Hr Ha0) as Hk.
  destruct (hr_arenas _ _ _ Hr a0 k0 Ha0) as [(j0 & Hj0 & _ & E & Hrun0) _].
  destruct (decide (j0 + pages_of k0 <= j)) as [|H1]; [left; lia|]. destruct (decide (j + n <= j0)) as [|H2]; [right; lia|]. exfalso.
  specialize (Hrun (Z.max j j0) ltac:(lia)). specialize (Hrun0 (Z.max j j0) ltac:(lia)). congruence.
Qed.

Lemma arenas_new s ar fls j n a k v' b :
  heap_rep s ar fls -> n = pages_of k -> 0 < n -> 0 <= j -> j + n <= bit_cnt (used_map (kernel_pool (hv s))) ->
  run (used_map (kernel_pool (hv s))) j n false -> a = base (kernel_pool (hv s)) + 4096 * j ->
  pool_change (hv s) v' b -> updated (used_map (kernel_pool (hv s))) b (in_range j n) true ->
  local_change a n (words (hv s)) (words v') -> header_ok (words v') a k ->
  map_Forall (arena_ok v') (<[a := k]> ar) /\ arenas_apart (<[a := k]> ar) /\ ar !! a = None.
Proof.
  intros Hr -> Hn Hj Hjn Hrun -> Hpc Hu Hw Hk. set (a := base _ + 4096 * j) in *.
  assert (Hap : forall a0 k0, ar !! a0 = Some k0 -> a0 + 4096 * pages_of k0 <= a \/ a + 4096 * pages_of k <= a0)
    by (intros a0 k0 H0; exact (fresh_apart s ar fls j (pages_of k) a0 k0 Hr Hrun Hn H0)).
  assert (Hnone : ar !! a = None).
  { destruct (ar !! a) as [k0|] eqn:E; [|done]. pose proof (arena_pages s ar fls a k0 Hr E). destruct (Hap a k0 E); lia. }
  split_and!; [| |done].
  - apply map_Forall_insert_2.
    + split; [|done]. exists j. rewrite (pc_base _ _ _ Hpc), (pc_map _ _ _ Hpc), (pc_cnt _ _ _ Hpc). split_and!; try done.
      intros l Hl. rewrite (upd_bit _ _ _ _ Hu) by lia. by rewrite in_range_true.
    + intros a0 k0 H0. destruct (hr_arenas _ _ _ Hr a0 k0 H0) as [Hon Hhd]. pose proof (arena_pages s ar fls a0 k0 Hr H0).
      split; [|by apply (header_frame (words (hv s)) (words v') a0 k0 a (pages_of k)); auto].
      apply (on_pages_change (hv s) v' b a0); [done|lia|done|]. intros l Hl0 Hl1 Hl2 Hbit.
      rewrite (upd_bit _ _ _ _ Hu) by done. by destruct (in_range j (pages_of k) l).
  - intros a1 a2 k1 k2 H1 H2 Hne. apply lookup_insert_Some in H1, H2.
    destruct H1 as [[<- <-]|[N1 H1]], H2 as [[<- <-]|[N2 H2]]; [done| | |by apply (hr_apart _ _ _ Hr)].
    + destruct (Hap a2 k2 H2); auto.
    + destruct (Hap a1 k1 H1); auto.
Qed.

(** The header of an arena changes, its pages do not. *)
Lemma arenas_update s ar fls a k k' v' :
  heap_rep s ar fls -> ar !! a = Some k -> pages_of k' = pages_of k -> pool_change (hv s) v' (used_map (kernel_pool (hv s))) ->
  local_change a (pages_of k) (words (hv s)) (words v') -> header_ok (words v') a k' ->
  map_Forall (arena_ok v') (<[a := k']> ar) /\ arenas_apart (<[a := k']> ar).
Proof.
  intros Hr Ha Hp Hpc Hw Hk'. split.
  - apply map_Forall_lookup. intros a0 k0 H0. apply lookup_insert_Some in H0 as [[<- <-]|[Hne H0]].
    + split; [|done]. destruct (hr_arenas _ _ _ Hr a k Ha) as [Hon _]. rewrite Hp. pose proof (arena_pages s ar fls a k Hr Ha).
      apply (on_pages_change (hv s) v' (used_map (kernel_pool (hv s))) a); auto with lia.
    + destruct (hr_arenas _ _ _ Hr a0 k0 H0) as [Hon Hhd]. pose proof (arena_pages s ar fls a0 k0 Hr H0). split.
      * apply (on_pages_change (hv s) v' (used_map (kernel_pool (hv s))) a0); auto with lia.
      * apply (header_frame (words (hv s)) (words v') a0 k0 a (pages_of k)); try done.
        destruct (hr_apart _ _ _ Hr a a0 k k0 Ha H0 Hne); auto.
  - intros a1 a2 k1 k2 H1 H2 Hne. apply lookup_insert_Some in H1, H2.
    destruct H1 as [[<- <-]|[N1 H1]], H2 as [[<- <-]|[N2 H2]]; [done| | |by apply (hr_apart _ _ _ Hr)]; rewrite Hp.
    + by apply (hr_apart _ _ _ Hr).
    + by apply (hr_apart _ _ _ Hr).
Qed.

(** An arena gives its pages back. *)
Lemma arenas_drop s ar fls j a k v' b :
  heap_rep s ar fls -> ar !! a = Some k -> 0 <= j -> a = base (kernel_pool (hv s)) + 4096 * j ->
  pool_change (hv s) v' b -> updated (used_map (kernel_pool (hv s))) b (in_range j (pages_of k)) false ->
  local_change a (pages_of k) (words (hv s)) (words v') ->
  map_Forall (arena_ok v') (delete a ar) /\ arenas_apart (delete a ar).
Proof.
  intros Hr Ha Hj Hbase Hpc Hu Hw. split.
  - apply map_Forall_lookup. intros a0 k0 H0. apply lookup_delete_Some in H0 as [Hne H0].
    destruct (hr_arenas _ _ _ Hr a0 k0 H0) as [Hon Hhd]. pose proof (arena_pages s ar fls a0 k0 Hr H0).
    assert (Hap := hr_apart _ _ _ Hr a a0 k k0 Ha H0 Hne). split.
    + apply (on_pages_change (hv s) v' b a0); [done|lia|done|]. intros l Hl0 Hl1 Hl2 Hbit.
      rewrite (upd_bit _ _ _ _ Hu) by done. rewrite in_range_false; [done|lia].
    + apply (header_frame (words (hv s)) (words v') a0 k0 a (pages_of k)); try done. destruct Hap; auto.
  - intros a1 a2 k1 k2 H1 H2 Hne. apply lookup_delete_Some in H1 as [_ H1], H2 as [_ H2]. by apply (hr_apart _ _ _ Hr).
Qed.

End Heap.
