(* ===== verification/MallocOps.v ===== *)
(** * The block allocator: [malloc] and [free] on the shape of the heap *)

From S2P Require Import Prelude ListModel ListRep ListOps HashRep Bitmap BitmapThms Page PageThms PageProps Malloc MallocRep.

Section Ops.
Context (descs_at : Z) (garbage : Z -> list_elem).

Abbreviation heap_rep := (heap_rep descs_at).

(** The contents of the allocated blocks are as they were. *)
Definition frame (ar : gmap Z kind) (s s' : hstate) : Prop := forall b n y,
  is_live ar b n -> b <= y < b + n -> words (hv s') y = words (hv s) y.

(** ** Which blocks there are *)

Lemma block_unique s ar fls a a' i i' used used' x x' idx idx' :
  heap_rep s ar fls -> ar !! a = Some (Small i used) -> ar !! a' = Some (Small i' used') ->
  std_descs !! i = Some x -> std_descs !! i' = Some x' ->
  0 <= idx < d_blocks_per_arena x -> 0 <= idx' < d_blocks_per_arena x' ->
  block_addr a x idx = block_addr a' x' idx' -> a = a' /\ i = i' /\ x = x' /\ idx = idx'.
Proof.
  intros Hr Ha Ha' Hx Hx' Hi Hi' E. destruct (block_in_page a x i idx Hx Hi), (block_in_page a' x' i' idx' Hx' Hi').
  destruct (std_desc_ok i x Hx) as (_ & Hb & _), (std_desc_ok i' x' Hx') as (_ & Hb' & _).
  assert (a = a') as <- by (apply (arena_unique descs_at s ar fls a a' _ _ (block_addr a x idx) Hr Ha Ha'); cbn [pages_of]; lia).
  rewrite Ha in Ha'. injection Ha' as <- <-. assert (x = x') as <- by congruence.
  split_and!; try done. apply (block_addr_inj a x); [lia|done].
Qed.

Lemma used_range s ar fls a i used x idx :
  heap_rep s ar fls -> ar !! a = Some (Small i used) -> std_descs !! i = Some x -> idx ∈ used -> 0 <= idx < d_blocks_per_arena x.
Proof.
  intros Hr Ha Hx Hidx. destruct (hr_arenas _ _ _ _ Hr a _ Ha) as [_ (_ & _ & x' & Hx' & _ & _ & Hf)].
  rewrite Hx in Hx'. injection Hx' as <-. rewrite Forall_forall in Hf. by apply Hf.
Qed.

(** An allocated block lies in its arena behind the header. *)
Lemma live_in_arena s ar fls a b n :
  heap_rep s ar fls -> live_at ar a b n ->
  exists k, ar !! a = Some k /\ a + 12 <= b /\ b + n <= a + 4096 * pages_of k /\ 0 < n /\ b mod 4 = 0 /\ n mod 4 = 0.
Proof.
  intros Hr Hl. unfold live_at in Hl. destruct (ar !! a) as [k|] eqn:Ha; [|done]. exists k. split; [done|].
  destruct (arena_bounds descs_at s ar fls a _ Hr Ha) as (Hal & _). pose proof (Z.div_mod a 4096 ltac:(lia)).
  pose proof (arena_pages descs_at s ar fls a _ Hr Ha) as Hk. destruct k as [i used|k]; cbn [pages_of] in *.
  - destruct Hl as (x & idx & Hx & Hidx & -> & ->).
    destruct (block_in_page a x i idx Hx (used_range s ar fls a i used x idx Hr Ha Hx Hidx)).
    destruct (std_desc_ok i x Hx) as (_ & Hb & Hmod & _). pose proof (Z.div_mod (d_block_size x) 4 ltac:(lia)).
    split_and!; try done; try lia. unfold block_addr.
    symmetry. apply Z.mod_unique with (1024 * (a / 4096) + 3 + idx * (d_block_size x / 4)); lia.
  - destruct Hl as [-> ->]. split_and!; try lia.
    + symmetry. apply Z.mod_unique with (1024 * (a / 4096) + 3); lia.
    + symmetry. apply Z.mod_unique with (1024 * k - 3); lia.
Qed.

(** Allocated blocks do not overlap. *)
Lemma live_disjoint s ar fls b n b' n' :
  heap_rep s ar fls -> is_live ar b n -> is_live ar b' n' -> (b = b' /\ n = n') \/ b + n <= b' \/ b' + n' <= b.
Proof.
  intros Hr [a H] [a' H']. destruct (live_in_arena s ar fls a b n Hr H) as (k & Ha & L1 & L2 & _).
  destruct (live_in_arena s ar fls a' b' n' Hr H') as (k' & Ha' & L1' & L2' & _).
  destruct (decide (a = a')) as [<-|Hne]; [|right; destruct (hr_apart _ _ _ _ Hr a a' k k' Ha Ha' Hne); lia].
  unfold live_at in H, H'. rewrite Ha in H, H'. destruct k as [i used|k].
  - destruct H as (x & idx & Hx & Hidx & -> & ->), H' as (x' & idx' & Hx' & Hidx' & -> & ->).
    assert (x = x') as <- by congruence. destruct (std_desc_ok i x Hx) as (_ & ? & _). unfold block_addr.
    destruct (Z.lt_trichotomy idx idx') as [|[->|]]; [right; left; nia|by left|right; right; nia].
  - destruct H as [-> ->], H' as [-> ->]. by left.
Qed.

(** A change inside one arena that spares its allocated blocks is no change
    of any allocated block. *)
Lemma frame_local s ar fls s' a n :
  heap_rep s ar fls -> local_change a n (words (hv s)) (words (hv s')) -> 0 <= n ->
  (forall a0 k, ar !! a0 = Some k -> a0 <> a -> a0 + 4096 * pages_of k <= a \/ a + 4096 * n <= a0) ->
  (forall b m y, live_at ar a b m -> b <= y < b + m -> words (hv s') y = words (hv s) y) ->
  frame ar s s'.
Proof.
  intros Hr Hw Hn Hap Hin b m y [a0 Hl] Hy. destruct (decide (a0 = a)) as [->|Hne]; [by apply (Hin b m)|].
  destruct (live_in_arena s ar fls a0 b m Hr Hl) as (k & Ha & L1 & L2 & _). apply Hw. destruct (Hap a0 k Ha Hne); lia.
Qed.

(** Only words of the header at A change. *)
Lemma frame_header s ar fls s' a k :
  heap_rep s ar fls -> ar !! a = Some k ->
  (forall x, x < a \/ a + 12 <= x -> words (hv s') x = words (hv s) x) -> frame ar s s'.
Proof.
  intros Hr Ha Hw. apply (frame_local s ar fls s' a (pages_of k)); [done| | | |].
  - intros x Hx. pose proof (arena_pages descs_at s ar fls a k Hr Ha). apply Hw. lia.
  - pose proof (arena_pages descs_at s ar fls a k Hr Ha). lia.
  - intros a0 k0 H0 Hne. destruct (hr_apart _ _ _ _ Hr a a0 k k0 Ha H0 ltac:(done)); auto.
  - intros b m y Hl Hy. destruct (live_in_arena s ar fls a b m Hr Hl) as (k' & _ & L1 & _). apply Hw. lia.
Qed.

(** ** A new arena *)

(** The header that [set_arena] writes. *)
Definition header_words (a d cnt : Z) (w : Z -> Z) : Z -> Z :=
  put_word (a + 8) cnt (put_word (a + 4) d (put_word a ARENA_MAGIC w)).

Lemma set_arena_ok s a d cnt : set_arena a d cnt s = Ok (tt, with_words s (header_words a d cnt (words (hv s)))).
Proof. done. Qed.

Lemma header_words_at a d cnt w :
  header_words a d cnt w a = ARENA_MAGIC /\ header_words a d cnt w (a + 4) = d /\ header_words a d cnt w (a + 8) = cnt.
Proof.
  unfold header_words. split_and!; [|by rewrite put_word_ne, put_word_eq by lia|apply put_word_eq].
  by rewrite !put_word_ne, put_word_eq by lia.
Qed.

Lemma header_words_out a d cnt w x : x < a \/ a + 12 <= x -> header_words a d cnt w x = w x.
Proof. intros Hx. unfold header_words. by rewrite !put_word_ne by lia. Qed.

(** The pages that the allocator hands out, with the header of the new arena
    in them, for N pages of kind K. *)
Lemma new_arena_ok s ar fls n k d cnt :
  heap_rep s ar fls -> 0 < n -> 4096 * n < 4294967296 -> n = pages_of k ->
  (forall a w, w = header_words a d cnt (words (hv s)) -> header_ok descs_at w a k) ->
  (on_vm (palloc_get_multiple 0 n) s = Ok (NULL, s) /\ no_run (used_map (kernel_pool (hv s))) 0 n false) \/
  exists a s1 s2, on_vm (palloc_get_multiple 0 n) s = Ok (a, s1) /\ a <> NULL /\ set_arena a d cnt s1 = Ok (tt, s2) /\
    elems s2 = elems s /\ descs s2 = descs s /\ pools_ok (hv s2) /\ base (kernel_pool (hv s2)) = base (kernel_pool (hv s)) /\
    words (hv s2) = header_words a d cnt (words (hv s)) /\ base (kernel_pool (hv s)) <= a /\
    map_Forall (arena_ok descs_at (hv s2)) (<[a := k]> ar) /\ arenas_apart (<[a := k]> ar) /\ ar !! a = None /\
    (forall a0 k0, ar !! a0 = Some k0 -> a0 + 4096 * pages_of k0 <= a \/ a + 4096 * n <= a0) /\
    a mod 4096 = 0 /\ 0 < a /\ a + 4096 * n <= 4294967296.
Proof.
  intros Hr Hn Hmax Hk Hhd. pose proof (hr_pools _ _ _ _ Hr) as Hp.
  destruct (palloc_get_multiple_ok 0 n (hv s) (ps_kernel _ Hp) Hn Hmax) as [[Hno E]|(j & b & Hrun & Hu & E)].
  - left. split; [|done]. rewrite (on_vm_ok _ _ _ _ E). by destruct s.
  - right. cbn [get_pool] in *. change (flag 0 PAL_USER) with false in *. cbn [get_pool] in *.
    destruct Hrun as (R1 & R2 & R3 & _). set (a := base (kernel_pool (hv s)) + 4096 * j) in *.
    set (v1 := taken false b 0 a n (hv s)) in *.
    assert (Hv1 : v1 = VM (Pool b (base (kernel_pool (hv s)))) (user_pool (hv s)) (words (hv s)) (cr3 (hv s))) by done.
    destruct (ps_kernel _ Hp) as [_ Hal Hlow Hhigh]. unfold PHYS_BASE in Hlow.
    set (v2 := VM (Pool b (base (kernel_pool (hv s)))) (user_pool (hv s)) (header_words a d cnt (words (hv s))) (cr3 (hv s))).
    exists a, (HS v1 (elems s) (descs s)), (HS v2 (elems s) (descs s)). cbn [elems descs hv].
    assert (Hp2 : pools_ok v2) by (apply (pools_map false b (hv s)); [done|apply Hu|apply Hu|done|done]).
    assert (Hw : local_change a n (words (hv s)) (words v2)) by (intros x Hx; unfold v2; cbn [words]; apply header_words_out; lia).
    destruct (arenas_new descs_at s ar fls j n a k v2 b) as (Ha1 & Ha2 & Ha3); try done; [|by apply Hhd|].
    + split; [done|done|done|apply Hu].
    + split_and!; try done; try lia; [by apply on_vm_ok|unfold NULL; lia| |].
      * intros a0 k0 H0. exact (fresh_apart descs_at s ar fls j n a0 k0 Hr R3 Hn H0).
      * unfold a. rewrite Z.mul_comm, Z.mod_add by lia. done.
Qed.

Lemma free_block_new ar a i x i' b :
  ar !! a = None -> std_descs !! i = Some x ->
  free_block (<[a := Small i []]> ar) i' b <->
  free_block ar i' b \/ i' = i /\ exists idx, 0 <= idx < d_blocks_per_arena x /\ b = block_addr a x idx.
Proof.
  intros Hn Hx. split.
  - intros (a0 & used & x0 & idx & Ha & Hx0 & Hidx & Hu & ->). apply lookup_insert_Some in Ha as [[<- E]|[Hne Ha]].
    + injection E as <- <-. right. split; [done|]. exists idx. assert (x0 = x) as -> by congruence. done.
    + left. by exists a0, used, x0, idx.
  - intros [(a0 & used & x0 & idx & Ha & H)|[-> (idx & Hidx & ->)]].
    + exists a0, used, x0, idx. rewrite lookup_insert_ne by congruence. done.
    + exists a, [], x, idx. rewrite lookup_insert_eq. split_and!; try done; try lia. apply not_elem_of_nil.
Qed.

Lemma is_live_new ar a i b n : ar !! a = None -> is_live (<[a := Small i []]> ar) b n <-> is_live ar b n.
Proof.
  intros Hn. unfold is_live, live_at. split; intros [a0 H].
  - destruct (decide (a = a0)) as [<-|Hne].
    + rewrite lookup_insert_eq in H. destruct H as (x & idx & _ & Hin & _). by apply not_elem_of_nil in Hin.
    + rewrite lookup_insert_ne in H by done. by exists a0.
  - exists a0. rewrite lookup_insert_ne; [done|]. intros <-. by rewrite Hn in H.
Qed.

(** The blocks of a new arena are in no free list. *)
Lemma new_blocks_out s ar fls a n b :
  heap_rep s ar fls -> base (kernel_pool (hv s)) <= a -> a + 12 <= b < a + 4096 * n ->
  (forall a0 k0, ar !! a0 = Some k0 -> a0 + 4096 * pages_of k0 <= a \/ a + 4096 * n <= a0) -> b ∉ foot (fam descs_at fls).
Proof.
  intros Hr Ha Hb Hap Hin. apply foot_below in Hin as [Hlow|(i & xs & Hi & Hin)].
  - destruct (hr_static _ _ _ _ Hr). lia.
  - apply (hr_free _ _ _ _ Hr i xs b Hi) in Hin as (a0 & used & x & idx & H0 & Hx & Hidx & _ & ->).
    destruct (block_in_page a0 x i idx Hx Hidx), (std_desc_ok i x Hx) as (_ & ? & _). specialize (Hap a0 _ H0). cbn [pages_of] in Hap. lia.
  - rewrite (hr_length _ _ _ _ Hr). lia.
Qed.

Lemma refill_ok s ar fls i x xs :
  heap_rep s ar fls -> std_descs !! i = Some x -> fls !! i = Some xs ->
  match xs with
  | _ :: _ => refill descs_at garbage (desc_addr descs_at i) x s = Ok (true, s)
  | [] =>
      refill descs_at garbage (desc_addr descs_at i) x s = Ok (false, s) /\ no_run (used_map (kernel_pool (hv s))) 0 1 false \/
      exists a s', refill descs_at garbage (desc_addr descs_at i) x s = Ok (true, s') /\ ar !! a = None /\
        heap_rep s' (<[a := Small i []]> ar) (<[i := blocks_from a x 0 (Z.to_nat (d_blocks_per_arena x))]> fls) /\ frame ar s s'
  end.
Proof.
  intros Hr Hx Hi. pose proof (hr_lists _ _ _ _ Hr) as Hl. pose proof (list_empty_ok _ _ _ (fam_rep descs_at _ _ _ _ Hl Hi)) as He.
  destruct (std_desc_ok i x Hx) as (_ & Hbs & _ & Hbpa & Hfit).
  assert (Hemp : on_elems (list_empty (free_list (desc_addr descs_at i))) s = Ok (bool_decide (xs = []), s)).
  { unfold on_elems. change (free_list (desc_addr descs_at i)) with (hdr descs_at i). rewrite He. by destruct s. }
  unfold refill. rewrite (bind_ok _ _ _ _ _ Hemp). cbv beta. destruct xs as [|y ys]; [|done].
  rewrite bool_decide_eq_true_2 by done. unfold palloc_get_page.
  destruct (new_arena_ok s ar fls 1 (Small i []) (desc_addr descs_at i) (d_blocks_per_arena x) Hr) as
    [[E Hno]|(a & s1 & s2 & E1 & Hnn & E2 & Hel & Hds & Hp2 & Hb2 & Hw2 & Hab & Har & Hap & Hnone & Hout & Hal & Hpos & Hmax)]; try done.
  { intros a w ->. destruct (header_words_at a (desc_addr descs_at i) (d_blocks_per_arena x) (words (hv s))) as (H1 & H2 & H3).
    split; [done|]. split; [done|]. exists x. split_and!; try done; [rewrite H3; simpl; lia|apply NoDup_nil_2]. }
  { left. rewrite (bind_ok _ _ _ _ _ E). done. }
  right. exists a. mstep E1. rewrite (proj2 (Z.eqb_neq a NULL) Hnn). mstep E2.
  assert (Hsa : small_arena descs_at s2 a i x).
  { destruct (header_words_at a (desc_addr descs_at i) (d_blocks_per_arena x) (words (hv s))) as (H1 & H2 & _).
    split; try done; [by rewrite Hds; apply Hr|apply Hr|by rewrite Hw2|by rewrite Hw2]. }
  destruct (add_blocks_ok descs_at garbage a i x (Z.to_nat (d_blocks_per_arena x)) s2 0 fls [] Hsa) as (m' & E3 & Hl'); try lia; try done.
  { by rewrite Hel. }
  { intros j Hj. destruct (block_in_page a x i j Hx ltac:(lia)). apply (new_blocks_out s ar fls a 1); [done|done|lia|done]. }
  mstep E3. eexists. split; [reflexivity|]. split; [done|]. split.
  - split; cbn [hv elems descs]; try done.
    + rewrite Hb2. apply Hr.
    + by rewrite Hds; apply Hr.
    + rewrite length_insert. apply Hr.
    + intros i' zs b Hz. rewrite (free_block_new ar a i x i' b Hnone Hx). destruct (decide (i = i')) as [<-|Hne].
      * rewrite list_lookup_insert_eq in Hz by (by apply (lookup_lt_Some _ _ [])). injection Hz as <-. cbn [app].
        rewrite elem_of_blocks_from, Z2Nat.id by lia. rewrite <- (hr_free _ _ _ _ Hr i [] b Hi). set_solver by lia.
      * rewrite list_lookup_insert_ne in Hz by done. rewrite (hr_free _ _ _ _ Hr i' zs b Hz). naive_solver.
  - apply (frame_local s ar fls _ a 1); cbn [hv]; [done| |lia| |].
    + intros y Hy. rewrite Hw2. apply header_words_out. lia.
    + intros a0 k H0 _. by apply Hout.
    + intros b m y Hlv. unfold live_at in Hlv. by rewrite Hnone in Hlv.
Qed.

(** ** One block changes hands *)

(** The set of used blocks of the arena [a] becomes [used']. *)
Lemma free_block_update ar a i x used used' i' b :
  ar !! a = Some (Small i used) -> std_descs !! i = Some x ->
  free_block (<[a := Small i used']> ar) i' b <->
  (exists a0 used0 x0 idx, a0 <> a /\ ar !! a0 = Some (Small i' used0) /\ std_descs !! i' = Some x0 /\
     0 <= idx < d_blocks_per_arena x0 /\ (idx ∉ used0) /\ b = block_addr a0 x0 idx) \/
  (i' = i /\ exists idx, 0 <= idx < d_blocks_per_arena x /\ (idx ∉ used') /\ b = block_addr a x idx).
Proof.
  intros Ha Hx. split.
  - intros (a0 & used0 & x0 & idx & Ha0 & Hx0 & Hidx & Hu & ->). apply lookup_insert_Some in Ha0 as [[<- E]|[Hne Ha0]].
    + injection E as <- <-. right. split; [done|]. exists idx. assert (x0 = x) as -> by congruence. done.
    + left. exists a0, used0, x0, idx. done.
  - intros [(a0 & used0 & x0 & idx & Hne & Ha0 & H)|[-> (idx & Hidx & Hu & ->)]].
    + exists a0, used0, x0, idx. rewrite lookup_insert_ne by done. done.
    + exists a, used', x, idx. by rewrite lookup_insert_eq.
Qed.

Lemma is_live_update ar a i x used used' b n :
  ar !! a = Some (Small i used) -> std_descs !! i = Some x ->
  is_live (<[a := Small i used']> ar) b n <->
  (exists a0, a0 <> a /\ live_at ar a0 b n) \/ (exists idx, idx ∈ used' /\ b = block_addr a x idx /\ n = d_block_size x).
Proof.
  intros Ha Hx. unfold is_live. split.
  - intros [a0 H]. destruct (decide (a0 = a)) as [->|Hne]; unfold live_at in H.
    + rewrite lookup_insert_eq in H. destruct H as (x0 & idx & Hx0 & Hidx & -> & ->). right. exists idx.
      assert (x0 = x) as -> by congruence. done.
    + rewrite lookup_insert_ne in H by done. left. by exists a0.
  - intros [(a0 & Hne & H)|(idx & Hidx & -> & ->)].
    + exists a0. unfold live_at. by rewrite lookup_insert_ne.
    + exists a. unfold live_at. rewrite lookup_insert_eq. by exists x, idx.
Qed.

Lemma is_live_split ar a i x used b n :
  ar !! a = Some (Small i used) -> std_descs !! i = Some x ->
  is_live ar b n <->
  (exists a0, a0 <> a /\ live_at ar a0 b n) \/ (exists idx, idx ∈ used /\ b = block_addr a x idx /\ n = d_block_size x).
Proof. intros Ha Hx. rewrite <- (is_live_update ar a i x used used b n Ha Hx). by rewrite insert_id. Qed.

Lemma free_block_split ar a i x used i' b :
  ar !! a = Some (Small i used) -> std_descs !! i = Some x ->
  free_block ar i' b <->
  (exists a0 used0 x0 idx, a0 <> a /\ ar !! a0 = Some (Small i' used0) /\ std_descs !! i' = Some x0 /\
     0 <= idx < d_blocks_per_arena x0 /\ (idx ∉ used0) /\ b = block_addr a0 x0 idx) \/
  (i' = i /\ exists idx, 0 <= idx < d_blocks_per_arena x /\ (idx ∉ used) /\ b = block_addr a x idx).
Proof. intros Ha Hx. rewrite <- (free_block_update ar a i x used used i' b Ha Hx). by rewrite insert_id. Qed.

Lemma used_length (used : list Z) n : NoDup used -> Forall (fun u => 0 <= u < n) used -> 0 <= n -> Z.of_nat (length used) <= n.
Proof.
  intros Hnd Hf Hn. assert (used ⊆+ seqZ 0 n) as Hs.
  { apply NoDup_submseteq; [done|]. intros u Hu. rewrite Forall_forall in Hf. apply elem_of_seqZ. specialize (Hf u Hu). lia. }
  apply submseteq_length in Hs. rewrite length_seqZ in Hs. lia.
Qed.

(** Only the count in the header of A changes. *)
Lemma count_change s a c : forall x, x < a \/ a + 12 <= x ->
  words (hv (with_words s (put_word (a + 8) c (words (hv s))))) x = words (hv s) x.
Proof. intros x Hx. cbn. apply put_word_ne. lia. Qed.

Lemma same_pool s w : pools_ok (hv s) -> pool_change (hv s) (set_words w (hv s)) (used_map (kernel_pool (hv s))).
Proof. intros [Hk Hu Ha]. split; [by split|done|done|done]. Qed.

Lemma header_small s ar fls a i used x :
  heap_rep s ar fls -> ar !! a = Some (Small i used) -> std_descs !! i = Some x ->
  words (hv s) (a + 8) = d_blocks_per_arena x - Z.of_nat (length used) /\ NoDup used /\
  Forall (fun u => 0 <= u < d_blocks_per_arena x) used.
Proof.
  intros Hr Ha Hx. destruct (hr_arenas _ _ _ _ Hr a _ Ha) as [_ (_ & _ & x' & Hx' & Hc & Hnd & Hf)].
  rewrite Hx in Hx'. by injection Hx' as <-.
Qed.

(** The arena [a] gets the used blocks [used'] and a header that says so. *)
Lemma rep_update s ar fls a i x used used' w m fls' :
  heap_rep s ar fls -> ar !! a = Some (Small i used) -> std_descs !! i = Some x ->
  NoDup used' -> Forall (fun u => 0 <= u < d_blocks_per_arena x) used' ->
  local_change a 1 (words (hv s)) w -> w a = ARENA_MAGIC -> w (a + 4) = desc_addr descs_at i ->
  w (a + 8) = d_blocks_per_arena x - Z.of_nat (length used') ->
  length fls' = 7%nat -> reps m (fam descs_at fls') ->
  (forall i' zs b, fls' !! i' = Some zs -> (b ∈ zs <-> free_block (<[a := Small i used']> ar) i' b)) ->
  heap_rep (HS (set_words w (hv s)) m (descs s)) (<[a := Small i used']> ar) fls'.
Proof.
  intros Hr Ha Hx Hnd Hf Hw Hm Ho Hc Hlen Hl Hfree.
  destruct (arenas_update descs_at s ar fls a (Small i used) (Small i used') (set_words w (hv s)) Hr Ha eq_refl) as [H1 H2].
  - apply same_pool, Hr.
  - done.
  - split; [done|]. split; [done|]. by exists x.
  - split; cbn [hv elems descs]; try done; try apply Hr. apply (pc_pools _ _ _ (same_pool s w (hr_pools _ _ _ _ Hr))).
Qed.

Lemma take_ok s ar fls i x b xs :
  heap_rep s ar fls -> std_descs !! i = Some x -> fls !! i = Some (b :: xs) ->
  exists a used idx s', ar !! a = Some (Small i used) /\ b = block_addr a x idx /\ (idx ∉ used) /\
    (b ← on_elems (list_pop_front (free_list (desc_addr descs_at i)));
     a ← block_to_arena descs_at b; c ← free_cnt a; on_vm (wr (a + 8) (u32 (c - 1)));; mret b) s = Ok (b, s') /\
    heap_rep s' (<[a := Small i (idx :: used)]> ar) (<[i := xs]> fls) /\ frame ar s s' /\
    (forall b' n, is_live (<[a := Small i (idx :: used)]> ar) b' n <-> is_live ar b' n \/ b' = b /\ n = d_block_size x) /\
    ~ (exists n, is_live ar b n).
Proof.
  intros Hr Hx Hi. pose proof (hr_lists _ _ _ _ Hr) as Hl. destruct (std_desc_ok i x Hx) as (_ & Hbs & _ & Hbpa & _).
  assert (Hfree : free_block ar i b) by (apply (hr_free _ _ _ _ Hr i _ b Hi); apply elem_of_cons; by left).
  destruct Hfree as (a & used & x' & idx & Ha & Hx' & Hidx & Hu & Hb). assert (x' = x) as -> by congruence.
  destruct (header_small s ar fls a i used x Hr Ha Hx) as (Hc & Hnd & Hf).
  destruct (fam_pop descs_at (elems s) fls i b xs Hl Hi) as (m' & E & Hl'). unfold hdr in E.
  pose proof (rep_small descs_at s ar fls a i used x Hr Ha Hx) as Hsa. set (s1 := HS (hv s) m' (descs s)).
  pose proof (small_arena_elems descs_at s a i x m' Hsa) as Hsa1. fold s1 in Hsa1.
  assert (Hnd' : NoDup (idx :: used)) by (by constructor).
  assert (Hf' : Forall (fun u => 0 <= u < d_blocks_per_arena x) (idx :: used)) by (by constructor).
  pose proof (used_length (idx :: used) (d_blocks_per_arena x) Hnd' Hf' ltac:(lia)) as Hlen. cbn [length] in Hlen.
  set (w := put_word (a + 8) (u32 (words (hv s) (a + 8) - 1)) (words (hv s))).
  exists a, used, idx, (HS (set_words w (hv s)) m' (descs s)). split_and!; try done.
  - rewrite (bind_ok _ _ _ b s1) by (unfold on_elems; by rewrite E). cbv beta. rewrite Hb at 1.
    mstep (block_to_arena_small descs_at s1 a i x idx Hsa1 Hidx). unfold free_cnt. by mstep (field_ok s1 (a + 8)).
  - apply (rep_update s ar fls a i x used); try done.
    + intros y Hy. apply put_word_ne. lia.
    + unfold w. rewrite put_word_ne by lia. apply Hsa.
    + unfold w. rewrite put_word_ne by lia. apply Hsa.
    + unfold w. rewrite put_word_eq, Hc. cbn [length]. rewrite u32_small by lia. lia.
    + rewrite length_insert. apply Hr.
    + intros i' zs b' Hz. rewrite (free_block_update ar a i x used (idx :: used) i' b' Ha Hx). destruct (decide (i = i')) as [<-|Hne].
      * rewrite list_lookup_insert_eq in Hz by (by apply (lookup_lt_Some _ _ (b :: xs))). injection Hz as <-.
        pose proof (fam_nodup descs_at _ _ _ _ Hl Hi) as Hndx. apply NoDup_cons in Hndx as [Hbx _].
        assert (Hsp : b' ∈ xs <-> free_block ar i b' /\ b' <> b).
        { rewrite <- (hr_free _ _ _ _ Hr i _ b' Hi), elem_of_cons. split; [intros H; split; [by right|by intros ->]|naive_solver]. }
        rewrite Hsp, (free_block_split ar a i x used i b' Ha Hx). split.
        -- intros [[H|[_ (j & Hj & Hju & ->)]] Hne]; [by left|right]. split; [done|]. exists j. split; [done|]. split; [|done].
           rewrite not_elem_of_cons. split; [|done]. intros ->. by rewrite Hb in Hne.
        -- intros [H|[_ (j & Hj & Hju & ->)]].
           ++ split; [by left|]. destruct H as (a0 & used0 & x0 & k & Hne & Ha0 & Hx0 & Hk & Hku & ->). rewrite Hb. intros Eb.
              by destruct (block_unique s ar fls a0 a i i used0 used x0 x k idx Hr Ha0 Ha Hx0 Hx Hk Hidx Eb).
           ++ apply not_elem_of_cons in Hju as [Hji Hju]. split; [right; split; [done|]; by exists j|]. rewrite Hb. intros Eb.
              apply block_addr_inj in Eb; [done|lia].
      * rewrite list_lookup_insert_ne in Hz by done. rewrite (hr_free _ _ _ _ Hr i' zs b' Hz), (free_block_split ar a i x used i' b' Ha Hx).
        split; (intros [H|[-> _]]; [by left|done]).
  - apply (frame_header s ar fls _ a (Small i used) Hr Ha). intros y Hy. cbn. apply put_word_ne. lia.
  - intros b' n. rewrite (is_live_update ar a i x used (idx :: used) b' n Ha Hx), (is_live_split ar a i x used b' n Ha Hx). split.
    + intros [H|(j & Hj & -> & ->)]; [left; by left|]. apply elem_of_cons in Hj as [->|Hj]; [by right; rewrite Hb|].
      left. right. by exists j.
    + intros [[H|(j & Hj & -> & ->)]|[-> ->]]; [by left|right|right].
      * exists j. split; [|done]. apply elem_of_cons. by right.
      * exists idx. split; [|done]. apply elem_of_cons. by left.
  - intros [n [a0 H0]]. destruct (live_in_arena s ar fls a0 b n Hr H0) as (k0 & Hk0 & L1 & L2 & Ln & _).
    destruct (block_in_page a x i idx Hx Hidx) as [P1 P2].
    assert (a0 = a) as -> by (apply (arena_unique descs_at s ar fls a0 a k0 _ b Hr Hk0 Ha); cbn [pages_of]; lia).
    unfold live_at in H0. rewrite Ha in H0. destruct H0 as (x0 & j & Hx0 & Hj & Ej & _). assert (x0 = x) as -> by congruence.
    rewrite Hb in Ej. apply block_addr_inj in Ej; [|lia]. by subst j.
Qed.

(** ** Allocation *)

Lemma find_desc_spec ds size : forall i,
  match find_desc ds i size with
  | Some (j, x) => exists l, j = (i + l)%nat /\ ds !! l = Some x /\ size <= d_block_size x
  | None => Forall (fun x => d_block_size x < size) ds
  end.
Proof.
  induction ds as [|d ds IH]; intros i; cbn [find_desc]; [constructor|]. destruct (Z.leb_spec size (d_block_size d)).
  - exists 0%nat. split; [lia|done].
  - specialize (IH (S i)). destruct (find_desc ds (S i) size) as [[j x]|].
    + destruct IH as (l & -> & Hl & Hs). exists (S l). split; [lia|done].
    + by constructor.
Qed.

Lemma free_block_big ar a n i b : ar !! a = None -> free_block (<[a := Big n]> ar) i b <-> free_block ar i b.
Proof.
  intros Hn. split; intros (a0 & used & x & idx & Ha & H); exists a0, used, x, idx.
  - apply lookup_insert_Some in Ha as [[_ Ha]|[_ Ha]]; done.
  - rewrite lookup_insert_ne by congruence. done.
Qed.

Lemma is_live_big ar a k b n : ar !! a = None ->
  is_live (<[a := Big k]> ar) b n <-> is_live ar b n \/ b = a + 12 /\ n = 4096 * k - 12.
Proof.
  intros Hn. unfold is_live, live_at. split.
  - intros [a0 H]. destruct (decide (a = a0)) as [<-|Hne]; [rewrite lookup_insert_eq in H; by right|].
    rewrite lookup_insert_ne in H by done. left. by exists a0.
  - intros [[a0 H]|H].
    + exists a0. rewrite lookup_insert_ne; [done|]. intros <-. by rewrite Hn in H.
    + exists a. by rewrite lookup_insert_eq.
Qed.

(** No arena is kept without an allocated block. *)
Definition compact (ar : gmap Z kind) : Prop := forall a i, ar !! a <> Some (Small i []).

(** The pages that a new arena for SIZE bytes takes. *)
Definition pages_for (size : Z) : Z := if size <=? 1024 then 1 else (size + 12 + 4095) / 4096.

(** A block that [malloc] returns: new, of at least SIZE bytes, apart from all
    others, whose contents stay; or nothing, when SIZE is 0 or there are not
    enough free pages side by side. *)
Definition malloc_post (ar : gmap Z kind) (s : hstate) (size p : Z) (s' : hstate) : Prop :=
  (p = NULL /\ s' = s /\ (size = 0 \/ no_run (used_map (kernel_pool (hv s))) 0 (pages_for size) false)) \/
  exists n ar' fls', p <> NULL /\ size <= n /\ p mod 4 = 0 /\ heap_rep s' ar' fls' /\ frame ar s s' /\
    (forall b m, is_live ar b m -> p + n <= b \/ b + m <= p) /\
    (forall b m, is_live ar' b m <-> is_live ar b m \/ b = p /\ m = n) /\ (compact ar -> compact ar').

(** A big block of N pages. *)
Lemma big_block s ar fls n :
  heap_rep s ar fls -> 0 < n < 1048576 ->
  exists p s', (a ← on_vm (palloc_get_multiple 0 n);
    if a =? NULL then mret NULL else set_arena a NULL n;; mret (a + sizeof_arena)) s = Ok (p, s') /\ malloc_post ar s (4096 * n - 12) p s'.
Proof.
  intros Hr Hn.
  destruct (new_arena_ok s ar fls n (Big n) NULL n Hr) as
    [[E Hno]|(a & s1 & s2 & E1 & Hnn & E2 & Hel & Hds & Hp2 & Hb2 & Hw2 & Hab & Har & Hap & Hnone & Hout & Hal & Hpos & Hmax)];
    [lia|lia|done| | |].
  { intros a w ->. destruct (header_words_at a NULL n (words (hv s))) as (H1 & H2 & H3). split; [done|]. split_and!; [done|done|lia]. }
  { exists NULL, s. rewrite (bind_ok _ _ _ _ _ E). split; [done|]. left. split_and!; [done|done|right]. unfold pages_for.
    rewrite (proj2 (Z.leb_gt _ _)) by lia. replace ((4096 * n - 12 + 12 + 4095) / 4096) with n; [done|]. apply Z.div_unique with 4095; lia. }
  assert (Hfr : frame ar s s2).
  { apply (frame_local s ar fls s2 a n Hr); [|lia| |].
    - intros y Hy. rewrite Hw2. apply header_words_out. lia.
    - intros a0 k H0 _. by apply Hout.
    - intros b m y Hl. unfold live_at in Hl. by rewrite Hnone in Hl. }
  exists (a + 12), s2. split; [mstep E1; rewrite (proj2 (Z.eqb_neq a NULL) Hnn); by mstep E2|].
  right. exists (4096 * n - 12), (<[a := Big n]> ar), fls. split_and!; try done; try (unfold NULL; lia).
  - pose proof (Z.div_mod a 4096 ltac:(lia)). symmetry. apply Z.mod_unique with (1024 * (a / 4096) + 3); lia.
  - split; try done; [rewrite Hb2; apply Hr|by rewrite Hds; apply Hr|apply Hr|rewrite Hel; apply Hr|].
    intros i xs b Hi. rewrite (free_block_big ar a n i b Hnone). by apply Hr.
  - intros b m [a0 Hl]. destruct (live_in_arena s ar fls a0 b m Hr Hl) as (k & Hk & L1 & L2 & _). destruct (Hout a0 k Hk); lia.
  - intros b m. by apply is_live_big.
  - intros Hc a0 i0 H0. apply lookup_insert_Some in H0 as [[_ H0]|[_ H0]]; [done|by apply (Hc a0 i0)].
Qed.

(** A request that is served by more than it asks for. *)
Lemma malloc_post_weaken ar s size size' p s' :
  malloc_post ar s size' p s' -> 0 <= size <= size' -> 0 < size' -> pages_for size = pages_for size' -> malloc_post ar s size p s'.
Proof.
  intros [(-> & -> & Hwhy)|(n & ar' & fls' & Hp & Hn & Hrest)] Hs H0 Hpf.
  - left. split_and!; [done|done|right]. rewrite Hpf. destruct Hwhy; [lia|done].
  - right. exists n, ar', fls'. split; [done|]. split; [lia|done].
Qed.

(** There are not as many pages as SIZE needs. *)
Lemma too_big s ar fls size : heap_rep s ar fls -> 1073741824 <= size -> no_run (used_map (kernel_pool (hv s))) 0 (pages_for size) false.
Proof.
  intros Hr Hsize i Hi Hn _. destruct (ps_kernel _ (hr_pools _ _ _ _ Hr)) as [_ _ Hlow Hhigh]. unfold PHYS_BASE in Hlow.
  unfold pages_for in Hn. rewrite (proj2 (Z.leb_gt _ _)) in Hn by lia.
  assert (Hp : 1073745920 / 4096 <= (size + 12 + 4095) / 4096) by (apply Z.div_le_mono; lia). change (1073745920 / 4096) with 262145 in Hp. lia.
Qed.

Lemma malloc_big s ar fls size :
  heap_rep s ar fls -> 1024 < size -> size <= 4294967284 ->
  let n := DIV_ROUND_UP (u32 (size + sizeof_arena)) PGSIZE in
  exists p s', (a ← on_vm (palloc_get_multiple 0 n);
    if a =? NULL then mret NULL else set_arena a NULL n;; mret (a + sizeof_arena)) s = Ok (p, s') /\ malloc_post ar s size p s'.
Proof.
  intros Hr Hlo Hhi n. destruct (decide (size <= 4294963188)) as [Hfit|Hbig].
  - assert (Hn : n = (size + 12 + 4095) / 4096).
    { unfold n, DIV_ROUND_UP, sizeof_arena, PGSIZE. rewrite (u32_small (size + 12)) by lia. rewrite u32_small by lia. f_equal. lia. }
    pose proof (Z.div_mod (size + 12 + 4095) 4096 ltac:(lia)) as Hdm. pose proof (Z.mod_pos_bound (size + 12 + 4095) 4096 ltac:(lia)) as Hmb.
    rewrite <- Hn in Hdm. clearbody n. destruct (big_block s ar fls n Hr ltac:(lia)) as (p & s' & E & Hpost). exists p, s'. split; [done|].
    apply (malloc_post_weaken ar s size (4096 * n - 12)); [done|lia|lia|]. unfold pages_for. rewrite !(proj2 (Z.leb_gt _ _)) by lia.
    rewrite <- Hn. apply Z.div_unique with 4095; lia.
  - exists NULL, s. assert (Hn : n = 0).
    { unfold n, DIV_ROUND_UP, sizeof_arena, PGSIZE. destruct (decide (size = 4294967284)) as [->|Hne]; [done|].
      rewrite (u32_small (size + 12)) by lia. replace (size + 12 + 4096 - 1) with (size + 4107 - 4294967296 + 1 * 4294967296) by lia.
      unfold u32, wrap. change (2 ^ 32) with 4294967296. rewrite Z.mod_add, Z.mod_small by lia. apply Z.div_small. lia. }
    rewrite Hn. split; [by destruct s|]. left. split_and!; [done|done|right]. apply (too_big s ar fls size Hr). lia.
Qed.

Lemma frame_trans ar s1 s2 s3 : frame ar s1 s2 -> frame ar s2 s3 -> frame ar s1 s3.
Proof. intros H1 H2 b n y Hl Hy. by rewrite (H2 b n y Hl Hy), (H1 b n y Hl Hy). Qed.

Lemma frame_same ar ar' s s' : (forall b n, is_live ar b n -> is_live ar' b n) -> frame ar' s s' -> frame ar s s'.
Proof. intros H Hf b n y Hl. by apply (Hf b n y), H. Qed.

Lemma malloc_small s ar fls size i x :
  heap_rep s ar fls -> std_descs !! i = Some x -> size <= d_block_size x ->
  exists p s', (ok ← refill descs_at garbage (desc_addr descs_at i) x;
      if negb ok then mret NULL else
      b ← on_elems (list_pop_front (free_list (desc_addr descs_at i)));
      a ← block_to_arena descs_at b; c ← free_cnt a; on_vm (wr (a + 8) (u32 (c - 1)));; mret b) s = Ok (p, s') /\
    malloc_post ar s size p s'.
Proof.
  intros Hr Hx Hsize. destruct (lookup_lt_is_Some_2 fls i) as [xs Hi].
  { rewrite (hr_length _ _ _ _ Hr). by destruct (std_desc_ok i x Hx). }
  assert (Htake : forall s1 ar1 fls1 b ys, heap_rep s1 ar1 fls1 -> fls1 !! i = Some (b :: ys) -> frame ar s s1 ->
    (forall c n, is_live ar1 c n <-> is_live ar c n) ->
    (compact ar -> forall a0 i0, ar1 !! a0 = Some (Small i0 []) -> i0 = i /\ exists j, 0 <= j < d_blocks_per_arena x /\ b = block_addr a0 x j) ->
    exists s', (b ← on_elems (list_pop_front (free_list (desc_addr descs_at i)));
      a ← block_to_arena descs_at b; c ← free_cnt a; on_vm (wr (a + 8) (u32 (c - 1)));; mret b) s1 = Ok (b, s') /\
      malloc_post ar s size b s').
  { intros s1 ar1 fls1 b ys Hr1 Hi1 Hfr1 Hlive Hcomp.
    destruct (take_ok s1 ar1 fls1 i x b ys Hr1 Hx Hi1) as (a & used & idx & s' & Ha & Hb & Hu & E & Hr' & Hfr & Hl' & Hnew).
    exists s'. split; [done|]. right. exists (d_block_size x), (<[a := Small i (idx :: used)]> ar1), (<[i := ys]> fls1).
    assert (Hlb : is_live (<[a := Small i (idx :: used)]> ar1) b (d_block_size x)) by (apply Hl'; by right).
    destruct Hlb as [a2 Hlb2]. destruct (live_in_arena s' _ _ a2 b _ Hr' Hlb2) as (k2 & Hk2 & L1 & L2 & L3 & L4 & L5).
    destruct (arena_bounds descs_at s' _ _ a2 k2 Hr' Hk2) as (_ & Hb2 & _). unfold PHYS_BASE in Hb2.
    split_and!; try done; [unfold NULL; lia| | | |].
    - apply (frame_trans ar s s1 s'); [done|]. apply (frame_same ar ar1); [|done]. intros c n Hc. by apply Hlive.
    - intros c m Hc. apply Hlive in Hc. assert (Hc' : is_live (<[a := Small i (idx :: used)]> ar1) c m) by (apply Hl'; by left).
      destruct (live_disjoint s' _ _ b (d_block_size x) c m Hr' (ex_intro _ a2 Hlb2) Hc') as [[<- <-]|]; [|done]. exfalso. apply Hnew. by exists (d_block_size x).
    - intros c m. by rewrite Hl', Hlive.
    - intros Hc a0 i0 H0. apply lookup_insert_Some in H0 as [[_ H0]|[Hne H0]]; [done|].
      destruct (Hcomp Hc a0 i0 H0) as (-> & j & Hj & Ej). rewrite Hb in Ej.
      assert (Hidx : 0 <= idx < d_blocks_per_arena x).
      { apply (used_range s' _ _ a i (idx :: used) x idx Hr'); [apply lookup_insert_eq|done|apply elem_of_cons; by left]. }
      by destruct (block_unique s1 ar1 fls1 a a0 i i used [] x x idx j Hr1 Ha H0 Hx Hx Hidx Hj Ej). }
  pose proof (refill_ok s ar fls i x xs Hr Hx Hi) as Hrefill. destruct xs as [|b ys].
  - destruct Hrefill as [[E Hno]|(a & s1 & E & Hnone & Hr1 & Hfr)].
    + exists NULL, s. rewrite (bind_ok _ _ _ _ _ E). split; [done|]. left. split_and!; [done|done|right]. unfold pages_for.
      destruct (std_desc_ok i x Hx) as (_ & Hbs & _). by rewrite (proj2 (Z.leb_le _ _)) by lia.
    + destruct (std_desc_ok i x Hx) as (_ & _ & _ & Hbpa & _).
      assert (Hb : blocks_from a x 0 (Z.to_nat (d_blocks_per_arena x))
                   = block_addr a x 0 :: blocks_from a x 1 (Z.to_nat (d_blocks_per_arena x) - 1)).
      { rewrite <- (blocks_from_S a x 0). f_equal. lia. }
      rewrite Hb in Hr1. destruct (Htake _ _ _ (block_addr a x 0) (blocks_from a x 1 (Z.to_nat (d_blocks_per_arena x) - 1)) Hr1) as (s' & E' & Hpost).
      * apply list_lookup_insert_eq. by apply (lookup_lt_Some _ _ []).
      * done.
      * intros c n. by apply is_live_new.
      * intros Hc a0 i0 H0. apply lookup_insert_Some in H0 as [[<- H0]|[_ H0]]; [|by destruct (Hc a0 i0)].
        injection H0 as <-. split; [done|]. exists 0. split; [lia|done].
      * exists (block_addr a x 0), s'. split; [|done]. mstep E. done.
  - destruct (Htake s ar fls b ys Hr Hi) as (s' & E' & Hpost); [by intros c n y|done|by intros Hc a0 i0 H0; destruct (Hc a0 i0)|].
    exists b, s'. split; [|done]. mstep Hrefill. done.
Qed.

Lemma malloc_block_ok s ar fls size :
  heap_rep s ar fls -> 0 <= size <= 4294967284 ->
  exists p s', malloc descs_at garbage size s = Ok (p, s') /\ malloc_post ar s size p s'.
Proof.
  intros Hr Hsize. unfold malloc. destruct (Z.eqb_spec size 0) as [->|Hne]; [exists NULL, s; split; [done|by left; auto]|].
  rewrite (bind_ok _ _ _ s s) by done. cbv beta. rewrite (hr_descs _ _ _ _ Hr). pose proof (find_desc_spec std_descs size 0) as Hf.
  destruct (find_desc std_descs 0 size) as [[j x]|].
  - destruct Hf as (l & -> & Hl & Hs). by apply (malloc_small s ar fls size l x).
  - apply (malloc_big s ar fls size Hr); [|lia]. rewrite Forall_forall in Hf. apply (Hf (Desc 1024 3)). unfold std_descs. set_solver.
Qed.

(** The size of the arena's header makes the sum wrap around. *)
Lemma malloc_wraps s ar fls size :
  heap_rep s ar fls -> 4294967284 < size < 4294967296 ->
  exists p s', malloc descs_at garbage size s = Ok (p, s') /\ malloc_post ar s 4084 p s'.
Proof.
  intros Hr Hsize. unfold malloc. rewrite (proj2 (Z.eqb_neq size 0)) by lia.
  rewrite (bind_ok _ _ _ s s) by done. cbv beta. rewrite (hr_descs _ _ _ _ Hr). pose proof (find_desc_spec std_descs size 0) as Hf.
  destruct (find_desc std_descs 0 size) as [[j x]|].
  - destruct Hf as (l & -> & Hl & Hs). destruct (std_desc_ok l x Hl) as (_ & Hb & _). lia.
  - cbv zeta. replace (DIV_ROUND_UP (u32 (size + sizeof_arena)) PGSIZE) with 1; [by apply (big_block s ar fls 1 Hr)|].
    unfold sizeof_arena. replace (size + 12) with (size + 12 - 4294967296 + 1 * 4294967296) by lia. unfold u32 at 1, wrap.
    change (2 ^ 32) with 4294967296. rewrite Z.mod_add, Z.mod_small by lia. unfold DIV_ROUND_UP, PGSIZE. rewrite u32_small by lia.
    apply Z.div_unique with (size + 12 - 4294967296 - 1); lia.
Qed.

End Ops.
