(* ===== verification/MallocFree.v ===== *)
(** * The block allocator: [free], [calloc] and [realloc] on the shape of the
    heap, and the bytes of blocks *)

From S2P Require Import Prelude ListModel ListRep ListOps HashRep Bitmap BitmapThms Page PageThms PageProps Malloc MallocRep MallocOps.

(** ** Bytes in words *)

Lemma byte_replace W k v : 0 <= k -> 0 <= v < 256 ->
  let W' := W + (v - W / 2 ^ (8 * k) mod 256) * 2 ^ (8 * k) in
  W' / 2 ^ (8 * k) mod 256 = v /\ forall k', 0 <= k' -> k' <> k -> W' / 2 ^ (8 * k') mod 256 = W / 2 ^ (8 * k') mod 256.
Proof.
  intros Hk Hv W'. set (P := 2 ^ (8 * k)). assert (HP : 0 < P) by (apply Z.pow_pos_nonneg; lia).
  pose proof (Z.div_mod W P ltac:(lia)) as HW. pose proof (Z.mod_pos_bound W P HP) as HR. set (q := W / P) in *. set (r := W mod P) in *.
  pose proof (Z.div_mod q 256 ltac:(lia)) as Hq. pose proof (Z.mod_pos_bound q 256 ltac:(lia)) as Ho.
  set (o := q mod 256) in *. set (h := q / 256) in *.
  assert (EW' : W' = (256 * h + v) * P + r) by (unfold W'; fold P q; nia).
  assert (Eq' : W' / P = 256 * h + v) by (symmetry; apply Z.div_unique with r; lia).
  split.
  - rewrite Eq'. symmetry. apply Z.mod_unique with h; lia.
  - intros k' Hk' Hne. destruct (decide (k' < k)) as [Hlt|Hge].
    + assert (HPk : exists m, P = 256 * m * 2 ^ (8 * k')).
      { exists (2 ^ (8 * (k - k' - 1))). unfold P. change 256 with (2 ^ 8). rewrite <- !Z.pow_add_r by lia. f_equal. lia. }
      destruct HPk as [m Em]. assert (Hpos : 2 ^ (8 * k') <> 0) by (apply Z.pow_nonzero; lia).
      assert (EW : W' = W + (v - o) * m * 256 * 2 ^ (8 * k')) by (unfold W'; fold P q o; rewrite Em; ring).
      rewrite EW, Z.div_add by done. apply Z.mod_add. lia.
    + assert (HPk : exists m, 2 ^ (8 * k') = P * 256 * m /\ 0 < m).
      { exists (2 ^ (8 * (k' - k - 1))). split; [|apply Z.pow_pos_nonneg; lia]. unfold P. change 256 with (2 ^ 8).
        rewrite <- !Z.pow_add_r by lia. f_equal. lia. }
      destruct HPk as (m & Em & Hm). rewrite Em.
      assert (E1 : W' / (P * 256 * m) = h / m).
      { rewrite <- !Z.div_div by lia. rewrite Eq'. f_equal. symmetry. apply Z.div_unique with v; lia. }
      assert (E2 : W / (P * 256 * m) = h / m) by (rewrite <- !Z.div_div by lia; done).
      by rewrite E1, E2.
Qed.

Lemma get_set_byte w a v a' : 0 <= v < 256 -> get_byte (set_byte a v w) a' = if a' =? a then v else get_byte w a'.
Proof.
  intros Hv. unfold get_byte at 1, set_byte. pose proof (Z.mod_pos_bound a 4 ltac:(lia)) as Ha. pose proof (Z.mod_pos_bound a' 4 ltac:(lia)) as Ha'.
  destruct (byte_replace (w (a - a mod 4)) (a mod 4) v ltac:(lia) Hv) as [Hsame Hother].
  destruct (Z.eqb_spec (a' - a' mod 4) (a - a mod 4)) as [E|E].
  - rewrite E. destruct (Z.eqb_spec a' a) as [->|Hne]; [exact Hsame|]. unfold get_byte. rewrite E. apply Hother; lia.
  - by destruct (Z.eqb_spec a' a) as [->|Hne].
Qed.

Lemma set_byte_out w a v x p n : p mod 4 = 0 -> n mod 4 = 0 -> p <= a < p + n -> x < p \/ p + n <= x -> set_byte a v w x = w x.
Proof.
  intros Hp Hn Ha Hx. unfold set_byte. destruct (Z.eqb_spec x (a - a mod 4)) as [->|]; [|done]. exfalso.
  pose proof (Z.div_mod p 4 ltac:(lia)). pose proof (Z.div_mod n 4 ltac:(lia)). pose proof (Z.div_mod a 4 ltac:(lia)).
  pose proof (Z.mod_pos_bound a 4 ltac:(lia)). lia.
Qed.

(** Writing N bytes at DST inside the block at P. *)
Definition bytes_written (p len : Z) (w w' : Z -> Z) (dst : Z) (n : nat) (f : Z -> Z) : Prop :=
  (forall x, x < p \/ p + len <= x -> w' x = w x) /\
  (forall x, get_byte w' x = if (dst <=? x) && (x <? dst + Z.of_nat n) then f x else get_byte w x).

Lemma memset_words_ok p len v : p mod 4 = 0 -> len mod 4 = 0 -> 0 <= v < 256 -> forall n dst s,
  p <= dst -> dst + Z.of_nat n <= p + len ->
  exists w', memset_loop n dst v s = Ok (tt, set_words w' s) /\ bytes_written p len (words s) w' dst n (fun _ => v).
Proof.
  intros Hp Hl Hv. induction n as [|n IH]; intros dst s Hlo Hhi; cbn [memset_loop].
  - exists (words s). split; [by destruct s|]. split; [done|]. intros x.
    destruct (Z.leb_spec dst x); cbn [andb]; [|done]. by rewrite (proj2 (Z.ltb_ge _ _)) by lia.
  - set (s1 := set_words (set_byte dst v (words s)) s). rewrite (bind_ok _ _ _ tt s1) by done. cbv beta.
    destruct (IH (dst + 1) s1) as (w' & E & Hout & Hget); [lia|lia|]. exists w'. split; [exact E|]. split.
    + intros x Hx. rewrite Hout by done. apply (set_byte_out _ _ _ _ p len); (done || lia).
    + intros x. rewrite Hget. unfold s1. cbn [words set_words]. rewrite get_set_byte by done.
      destruct (Z.leb_spec (dst + 1) x), (Z.leb_spec dst x), (Z.eqb_spec x dst); cbn [andb]; try lia; try done.
      * destruct (Z.ltb_spec x (dst + 1 + Z.of_nat n)), (Z.ltb_spec x (dst + Z.of_nat (S n))); try done; lia.
      * by rewrite (proj2 (Z.ltb_lt _ _)) by lia.
Qed.

Lemma memcpy_loop_ok p len src0 : p mod 4 = 0 -> len mod 4 = 0 -> forall n dst src s,
  p <= dst -> dst + Z.of_nat n <= p + len -> dst - src = p - src0 ->
  src + Z.of_nat n <= p \/ p + len <= src ->
  exists w', memcpy_loop n dst src s = Ok (tt, set_words w' s) /\
    bytes_written p len (words s) w' dst n (fun x => get_byte (words s) (x - (p - src0))).
Proof.
  intros Hp Hl. induction n as [|n IH]; intros dst src s Hlo Hhi Hd Hap; cbn [memcpy_loop].
  - exists (words s). split; [by destruct s|]. split; [done|]. intros x.
    destruct (Z.leb_spec dst x); cbn [andb]; [|done]. by rewrite (proj2 (Z.ltb_ge _ _)) by lia.
  - set (v := get_byte (words s) src). assert (Hv : 0 <= v < 256) by (apply Z.mod_pos_bound; lia).
    rewrite (bind_ok _ _ _ v s) by (by destruct s). cbv beta.
    set (s1 := set_words (set_byte dst v (words s)) s). rewrite (bind_ok _ _ _ tt s1) by done. cbv beta.
    destruct (IH (dst + 1) (src + 1) s1) as (w' & E & Hout & Hget); [lia|lia|lia|lia|]. exists w'. split; [exact E|]. split.
    + intros x Hx. rewrite Hout by done. apply (set_byte_out _ _ _ _ p len); (done || lia).
    + intros x. rewrite Hget. unfold s1. cbn [words set_words]. rewrite !get_set_byte by done.
      destruct (Z.leb_spec (dst + 1) x), (Z.leb_spec dst x), (Z.eqb_spec x dst); cbn [andb]; try lia; try done.
      * destruct (Z.ltb_spec x (dst + 1 + Z.of_nat n)), (Z.ltb_spec x (dst + Z.of_nat (S n))); try done; try lia.
        by rewrite (proj2 (Z.eqb_neq _ _)) by lia.
      * rewrite (proj2 (Z.ltb_lt _ _)) by lia. unfold v. f_equal. lia.
Qed.

(** ** Giving blocks and pages back *)

Section Free.
Context (descs_at : Z).

Abbreviation heap_rep := (heap_rep descs_at).

Lemma remove_blocks_ok a i x n : forall s idx fls xs,
  small_arena descs_at s a i x -> 0 <= idx -> idx + Z.of_nat n <= d_blocks_per_arena x ->
  reps (elems s) (fam descs_at fls) -> fls !! i = Some xs ->
  (forall j, idx <= j < idx + Z.of_nat n -> block_addr a x j ∈ xs) ->
  exists m' ys, remove_blocks descs_at n a idx s = Ok (tt, HS (hv s) m' (descs s)) /\
    reps m' (fam descs_at (<[i := ys]> fls)) /\
    forall b, b ∈ ys <-> b ∈ xs /\ ~ exists j, idx <= j < idx + Z.of_nat n /\ b = block_addr a x j.
Proof.
  induction n as [|n IH]; intros s idx fls xs Hs H0 Hn Hr Hi Hin; cbn [remove_blocks].
  - exists (elems s), xs. split; [by destruct s|]. rewrite list_insert_id by done. split; [done|]. intros b. split; [|tauto].
    intros Hb. split; [done|]. intros (j & Hj & _). lia.
  - destruct (std_desc_ok i x (sa_desc _ _ _ _ _ Hs)) as (_ & Hbs & _).
    mstep (arena_to_block_ok descs_at s a i x idx Hs ltac:(lia)). set (b := block_addr a x idx) in *.
    destruct (list_elem_of_split xs b) as (us & vs & ->); [apply Hin; lia|].
    pose proof (fam_nodup descs_at _ _ _ _ Hr Hi) as Hnd. apply NoDup_app in Hnd as (_ & Hus & Hvs). apply NoDup_cons in Hvs as [Hvs _].
    destruct (fam_remove descs_at (elems s) fls i us b vs Hr Hi) as (y & m1 & E1 & Hr1).
    rewrite (bind_ok _ _ _ y (HS (hv s) m1 (descs s))) by (unfold on_elems; by rewrite E1). cbv beta.
    assert (Hmem : forall c, c ∈ us ++ vs <-> c ∈ us ++ b :: vs /\ c <> b).
    { intros c. rewrite !elem_of_app, elem_of_cons. split; [|naive_solver]. intros [H|H].
      - split; [by left|]. intros ->. apply (Hus b H), elem_of_cons. by left.
      - split; [by right; right|]. by intros ->. }
    destruct (IH (HS (hv s) m1 (descs s)) (idx + 1) (<[i := us ++ vs]> fls) (us ++ vs)) as (m' & ys & E & Hr' & Hys); try lia; try done.
    + by apply small_arena_elems.
    + apply list_lookup_insert_eq. by apply (lookup_lt_Some _ _ (us ++ b :: vs)).
    + intros j Hj. apply Hmem. split; [apply Hin; lia|]. intros Ej. apply block_addr_inj in Ej; lia.
    + exists m', ys. rewrite list_insert_insert_eq in Hr'. split_and!; [exact E|done|]. intros c. rewrite Hys, Hmem. split.
      * intros [[Hc Hne] Hno]. split; [done|]. intros (j & Hj & ->). destruct (decide (j = idx)) as [->|]; [done|].
        apply Hno. exists j. split; [lia|done].
      * intros [Hc Hno]. split; [split; [done|]|].
        -- intros ->. apply Hno. exists idx. split; [lia|done].
        -- intros (j & Hj & ->). apply Hno. exists j. split; [lia|done].
Qed.

(** The pages of an arena go back to the pool. *)
Lemma drop_pages s ar fls a k :
  heap_rep s ar fls -> ar !! a = Some k ->
  exists v', palloc_free_multiple a (pages_of k) (hv s) = Ok (tt, v') /\ pools_ok v' /\
    base (kernel_pool v') = base (kernel_pool (hv s)) /\ local_change a (pages_of k) (words (hv s)) (words v') /\
    map_Forall (arena_ok descs_at v') (delete a ar) /\ arenas_apart (delete a ar).
Proof.
  intros Hr Ha. pose proof (arena_pages descs_at s ar fls a k Hr Ha) as Hn. pose proof (hr_pools _ _ _ _ Hr) as Hp.
  destruct (hr_arenas _ _ _ _ Hr a k Ha) as [(j & Hj & Hjn & Hbase & Hrun) _].
  destruct (palloc_free_multiple_ok (hv s) false j (pages_of k) Hp Hn Hj Hjn) as [Hok _]. cbn [get_pool] in Hok.
  destruct (Hok Hrun) as (b & E & Hu). rewrite <- Hbase in E. set (v' := set_words _ _) in E. exists v'.
  assert (Hp' : pools_ok v') by (apply (pools_map false b (hv s)); [done|apply Hu|apply Hu|done|done]).
  assert (Hw : local_change a (pages_of k) (words (hv s)) (words v')).
  { intros y Hy. unfold v'. cbn [words set_words set_pool]. unfold fill.
    by destruct (Z.leb_spec a y), (Z.ltb_spec y (a + 4096 * pages_of k)); try lia. }
  split_and!; try done; apply (arenas_drop descs_at s ar fls j a k v' b); try done; (split; [done|done|done|apply Hu]).
Qed.

(** What is left without the arena [a]. *)
Lemma is_live_drop ar a b n : is_live (delete a ar) b n <-> exists a0, a0 <> a /\ live_at ar a0 b n.
Proof.
  unfold is_live, live_at. split; intros [a0 H]; exists a0.
  - destruct (decide (a0 = a)) as [->|Hne]; [by rewrite lookup_delete_eq in H|]. by rewrite lookup_delete_ne in H by done.
  - destruct H as [Hne H]. by rewrite lookup_delete_ne.
Qed.

Lemma frame_drop s ar fls s' a k :
  heap_rep s ar fls -> ar !! a = Some k -> local_change a (pages_of k) (words (hv s)) (words (hv s')) -> frame (delete a ar) s s'.
Proof.
  intros Hr Ha Hw b n y Hl Hy. apply is_live_drop in Hl as (a0 & Hne & Hl).
  destruct (live_in_arena descs_at s ar fls a0 b n Hr Hl) as (k0 & Hk0 & L1 & L2 & _). apply Hw.
  destruct (hr_apart _ _ _ _ Hr a a0 k k0 Ha Hk0 ltac:(done)); lia.
Qed.

Lemma compact_drop ar a : compact ar -> compact (delete a ar).
Proof. intros Hc a0 i0 H0. apply lookup_delete_Some in H0 as [_ H0]. by apply (Hc a0 i0). Qed.

(** What [free] leaves: every allocated block but the one at P. *)
Definition free_post (ar : gmap Z kind) (s : hstate) (p : Z) (s' : hstate) : Prop :=
  exists ar' fls', heap_rep s' ar' fls' /\ frame ar' s s' /\
    (forall b m, is_live ar' b m <-> is_live ar b m /\ b <> p) /\ (compact ar -> compact ar').

Lemma free_big s ar fls a n :
  heap_rep s ar fls -> ar !! a = Some (Big n) ->
  exists s', free descs_at (a + 12) s = Ok (tt, s') /\ free_post ar s (a + 12) s'.
Proof.
  intros Hr Ha. destruct (arena_bounds descs_at s ar fls a _ Hr Ha) as (Hal & Hlow & Hmax). cbn [pages_of] in Hmax. unfold PHYS_BASE in Hlow.
  destruct (hr_arenas _ _ _ _ Hr a _ Ha) as [_ (Hm & Ho & Hc & Hn)].
  destruct (drop_pages s ar fls a _ Hr Ha) as (v' & E & Hp & Hb & Hw & H1 & H2). cbn [pages_of] in E.
  exists (HS v' (elems s) (descs s)). split.
  - unfold free. rewrite (proj2 (Z.eqb_neq _ _)) by (unfold NULL; lia).
    mstep (block_to_arena_big descs_at s a Hal ltac:(lia) ltac:(lia) Hm Ho). unfold arena_desc, free_cnt.
    mstep (field_ok s (a + 4)). rewrite Ho. change (negb (NULL =? NULL)) with false. cbv iota. mstep (field_ok s (a + 8)). rewrite Hc.
    by apply on_vm_ok.
  - exists (delete a ar), fls. split_and!.
    + split; cbn [hv elems descs]; try done; [rewrite Hb; apply Hr|apply Hr|apply Hr|apply Hr|]. intros i xs b Hi. rewrite (hr_free _ _ _ _ Hr i xs b Hi).
      split; intros (a0 & used & x & idx & H0 & H); exists a0, used, x, idx; (split; [|done]).
      * rewrite lookup_delete_ne by congruence. done.
      * by apply lookup_delete_Some in H0 as [_ H0].
    + by apply (frame_drop s ar fls _ a (Big n) Hr Ha).
    + intros b m. rewrite is_live_drop. split.
      * intros (a0 & Hne & Hl). split; [by exists a0|]. intros ->.
        destruct (live_in_arena descs_at s ar fls a0 _ m Hr Hl) as (k0 & Hk0 & L1 & L2 & L3 & _). apply Hne.
        apply (arena_unique descs_at s ar fls a0 a k0 _ (a + 12) Hr Hk0 Ha); cbn [pages_of]; lia.
      * intros [[a0 Hl] Hne]. exists a0. split; [|done]. intros ->. unfold live_at in Hl. rewrite Ha in Hl. by destruct Hl.
    + apply compact_drop.
Qed.

(** The arena [a] without allocated blocks gives its page back. *)
Lemma release_ok s ar fls a i x :
  heap_rep s ar fls -> ar !! a = Some (Small i []) -> std_descs !! i = Some x ->
  exists s' ys, (remove_blocks descs_at (Z.to_nat (d_blocks_per_arena x)) a 0;; on_vm (palloc_free_page a)) s = Ok (tt, s') /\
    heap_rep s' (delete a ar) (<[i := ys]> fls) /\ frame (delete a ar) s s'.
Proof.
  intros Hr Ha Hx. destruct (std_desc_ok i x Hx) as (Hi7 & Hbs & _ & Hbpa & _). destruct (lookup_lt_is_Some_2 fls i) as [xs Hi].
  { by rewrite (hr_length _ _ _ _ Hr). }
  destruct (remove_blocks_ok a i x (Z.to_nat (d_blocks_per_arena x)) s 0 fls xs) as (m' & ys & E & Hl & Hys);
    [by apply (rep_small descs_at s ar fls a i [])|lia|lia|apply Hr|done| |].
  { intros j Hj. apply (hr_free _ _ _ _ Hr i xs _ Hi). exists a, [], x, j. split_and!; try done; try lia. apply not_elem_of_nil. }
  rewrite Z2Nat.id in Hys by lia. destruct (drop_pages s ar fls a _ Hr Ha) as (v' & E2 & Hp & Hb & Hw & H1 & H2). cbn [pages_of] in *.
  exists (HS v' m' (descs s)), ys. split_and!.
  - mstep E. by apply (on_vm_ok _ (HS (hv s) m' (descs s))).
  - split; cbn [hv elems descs]; try done; [rewrite Hb; apply Hr|apply Hr|rewrite length_insert; apply Hr|]. intros i' zs b Hz.
    assert (Hdrop : free_block (delete a ar) i' b <-> free_block ar i' b /\
      ~ (i' = i /\ exists j, 0 <= j < 0 + d_blocks_per_arena x /\ b = block_addr a x j)).
    { split.
      - intros (a0 & used & x0 & idx & H0 & Hx0 & Hidx & Hu & ->). apply lookup_delete_Some in H0 as [Hne H0]. split; [by exists a0, used, x0, idx|].
        intros [-> (j & Hj & Ej)]. assert (Hj' : 0 <= j < d_blocks_per_arena x) by lia.
        by destruct (block_unique descs_at s ar fls a0 a i i used [] x0 x idx j Hr H0 Ha Hx0 Hx Hidx Hj' Ej).
      - intros [(a0 & used & x0 & idx & H0 & Hx0 & Hidx & Hu & ->) Hno]. exists a0, used, x0, idx.
        destruct (decide (a0 = a)) as [->|Hne]; [|by rewrite lookup_delete_ne]. exfalso. apply Hno. rewrite Ha in H0. injection H0 as <- <-.
        split; [done|]. assert (x0 = x) as -> by congruence. exists idx. split; [lia|done]. }
    rewrite Hdrop. destruct (decide (i = i')) as [<-|Hne].
    + rewrite list_lookup_insert_eq in Hz by (by apply (lookup_lt_Some _ _ xs)). injection Hz as <-. rewrite Hys, (hr_free _ _ _ _ Hr i xs b Hi).
      split; (intros [Hin Hno]; split; [done|]); [by intros [_ Hj]|intros Hj; by apply Hno].
    + rewrite list_lookup_insert_ne in Hz by done. rewrite (hr_free _ _ _ _ Hr i' zs b Hz). split; [|by intros [? _]].
      intros Hf. split; [done|]. by intros [-> _].
  - by apply (frame_drop s ar fls _ a (Small i []) Hr Ha).
Qed.

(** An allocated block is in no free list. *)
Lemma live_not_free s ar fls a i x used idx :
  heap_rep s ar fls -> ar !! a = Some (Small i used) -> std_descs !! i = Some x -> idx ∈ used ->
  block_addr a x idx ∉ foot (fam descs_at fls).
Proof.
  intros Hr Ha Hx Hu Hin. pose proof (used_range descs_at s ar fls a i used x idx Hr Ha Hx Hu) as Hidx.
  destruct (block_in_page a x i idx Hx Hidx). destruct (arena_bounds descs_at s ar fls a _ Hr Ha) as (_ & Hlow & _).
  apply foot_below in Hin as [Hin|(i0 & xs & Hi0 & Hin)]; [destruct (hr_static _ _ _ _ Hr); lia| |rewrite (hr_length _ _ _ _ Hr); lia].
  apply (hr_free _ _ _ _ Hr i0 xs _ Hi0) in Hin as (a0 & used0 & x0 & j & Ha0 & Hx0 & Hj & Hju & E).
  destruct (block_unique descs_at s ar fls a a0 i i0 used used0 x x0 idx j Hr Ha Ha0 Hx Hx0 Hidx Hj E) as (<- & <- & <- & <-).
  rewrite Ha in Ha0. injection Ha0 as <-. done.
Qed.

(** The block is put into its list and counted. *)
Lemma put_back_ok s ar fls a i x us idx vs :
  heap_rep s ar fls -> ar !! a = Some (Small i (us ++ idx :: vs)) -> std_descs !! i = Some x ->
  let p := block_addr a x idx in
  let c := d_blocks_per_arena x - Z.of_nat (length (us ++ vs)) in
  exists s1 s2 s3 s4 fls', on_vm (memset p 204 (d_block_size x)) s = Ok (tt, s1) /\
    as_block p (ListElem 3435973836 3435973836) s1 = Ok (tt, s2) /\
    on_elems (list_push_front (free_list (desc_addr descs_at i)) p) s2 = Ok (tt, s3) /\
    words (hv s3) (a + 8) = c - 1 /\ on_vm (wr (a + 8) c) s3 = Ok (tt, s4) /\
    heap_rep s4 (<[a := Small i (us ++ vs)]> ar) fls' /\ frame (<[a := Small i (us ++ vs)]> ar) s s4 /\
    (forall b m, is_live (<[a := Small i (us ++ vs)]> ar) b m <-> is_live ar b m /\ b <> p).
Proof.
  intros Hr Ha Hx p c. set (used := us ++ idx :: vs) in *. assert (Hu : idx ∈ used) by (apply elem_of_app; right; apply elem_of_cons; by left).
  destruct (std_desc_ok i x Hx) as (Hi7 & Hbs & Hmod & Hbpa & _). destruct (header_small descs_at s ar fls a i used x Hr Ha Hx) as (Hc & Hnd & Hf).
  pose proof (used_range descs_at s ar fls a i used x idx Hr Ha Hx Hu) as Hidx. destruct (block_in_page a x i idx Hx Hidx) as [P1 P2].
  destruct (lookup_lt_is_Some_2 fls i) as [xs Hi]; [by rewrite (hr_length _ _ _ _ Hr)|].
  assert (Hlive : live_at ar a p (d_block_size x)) by (unfold live_at; rewrite Ha; by exists x, idx).
  destruct (live_in_arena descs_at s ar fls a p _ Hr Hlive) as (_ & _ & _ & _ & _ & Hp4 & _).
  destruct (memset_words_ok p (d_block_size x) 204 Hp4 Hmod ltac:(lia) (Z.to_nat (d_block_size x)) p (hv s)) as (w1 & E1 & Hout & _); [lia|lia|].
  destruct (fam_push_front descs_at (elems s) fls i xs p (ListElem 3435973836 3435973836)) as (m1 & E2 & Hl);
    [apply Hr|done|destruct (arena_bounds descs_at s ar fls a _ Hr Ha); unfold NULL, PHYS_BASE in *; lia|by apply (live_not_free s ar fls a i x used)|].
  unfold hdr in E2. set (w2 := put_word (a + 8) c w1). pose proof (rep_small descs_at s ar fls a i used x Hr Ha Hx) as Hsa.
  assert (Hnd' : NoDup (us ++ vs) /\ idx ∉ us ++ vs).
  { unfold used in Hnd. rewrite <- Permutation_middle in Hnd. apply NoDup_cons in Hnd as [? ?]. done. }
  assert (Hin : forall j, j ∈ us ++ vs <-> j ∈ used /\ j <> idx).
  { intros j. unfold used. rewrite <- Permutation_middle, elem_of_cons. split; [|naive_solver]. intros H. split; [by right|]. intros ->. by destruct Hnd'. }
  assert (Hlive' : forall b m, is_live (<[a := Small i (us ++ vs)]> ar) b m <-> is_live ar b m /\ b <> p).
  { intros b m. rewrite (is_live_update ar a i x used (us ++ vs) b m Ha Hx), (is_live_split ar a i x used b m Ha Hx). split.
    - intros [(a0 & Hne & H)|(j & Hj & -> & ->)].
      + split; [left; by exists a0|]. intros ->. destruct (live_in_arena descs_at s ar fls a0 p m Hr H) as (k0 & Hk0 & L1 & L2 & L3 & _).
        apply Hne. apply (arena_unique descs_at s ar fls a0 a k0 _ p Hr Hk0 Ha); cbn [pages_of]; lia.
      + apply Hin in Hj as [Hj Hne]. split; [right; by exists j|]. intros Ej. apply block_addr_inj in Ej; [done|lia].
    - intros [[H|(j & Hj & -> & ->)] Hne]; [by left|right]. exists j. split; [|done]. apply Hin. split; [done|]. by intros ->. }
  exists (HS (set_words w1 (hv s)) (elems s) (descs s)). eexists. exists (HS (set_words w1 (hv s)) m1 (descs s)). eexists. exists (<[i := p :: xs]> fls).
  split; [by apply on_vm_ok|]. split; [reflexivity|]. split; [unfold on_elems; cbn [elems hv descs]; by rewrite E2|].
  split; [cbn; rewrite Hout, Hc by lia; unfold c, used; rewrite !length_app; cbn [length]; lia|]. split; [apply wr_ok|]. split_and!; [| |done].
  - apply (rep_update descs_at s ar fls a i x used); try done.
    + by destruct Hnd'.
    + rewrite Forall_forall in *. intros j Hj. apply Hf. by apply Hin in Hj as [Hj _].
    + intros y Hy. cbn. rewrite put_word_ne by lia. apply Hout. lia.
    + cbn. rewrite put_word_ne, Hout by lia. apply Hsa.
    + cbn. rewrite put_word_ne, Hout by lia. apply Hsa.
    + cbn. apply put_word_eq.
    + rewrite length_insert. apply Hr.
    + intros i' zs b Hz. rewrite (free_block_update ar a i x used (us ++ vs) i' b Ha Hx). destruct (decide (i = i')) as [<-|Hne].
      * rewrite list_lookup_insert_eq in Hz by (by apply (lookup_lt_Some _ _ xs)). injection Hz as <-.
        rewrite elem_of_cons, (hr_free _ _ _ _ Hr i xs b Hi), (free_block_split ar a i x used i b Ha Hx). split.
        -- intros [->|[H|[_ (j & Hj & Hju & ->)]]]; [right; split; [done|]; exists idx; by destruct Hnd'|by left|right].
           split; [done|]. exists j. split; [done|]. split; [|done]. intros H. by apply Hin in H as [H _].
        -- intros [H|[_ (j & Hj & Hju & ->)]]; [right; by left|]. destruct (decide (j = idx)) as [->|Hji]; [by left|right; right].
           split; [done|]. exists j. split; [done|]. split; [|done]. intros H. apply Hju, Hin. done.
      * rewrite list_lookup_insert_ne in Hz by done. rewrite (hr_free _ _ _ _ Hr i' zs b Hz), (free_block_split ar a i x used i' b Ha Hx).
        split; (intros [H|[-> _]]; [by left|done]).
  - intros b m y Hlb Hy. apply Hlive' in Hlb as [Hlb Hne]. cbn. destruct Hlb as [a0 Hlb].
    destruct (live_disjoint descs_at s ar fls b m p (d_block_size x) Hr (ex_intro _ a0 Hlb) (ex_intro _ a Hlive)) as [[-> _]|Hd]; [done|].
    destruct (live_in_arena descs_at s ar fls a0 b m Hr Hlb) as (k0 & Hk0 & L1 & L2 & _).
    rewrite put_word_ne; [apply Hout; lia|]. intros ->. destruct (decide (a0 = a)) as [->|Hna]; [lia|].
    destruct (hr_apart _ _ _ _ Hr a0 a k0 _ Hk0 Ha Hna) as [Hap|Hap]; cbn [pages_of] in Hap; lia.
Qed.

Lemma free_small s ar fls a i x used idx :
  heap_rep s ar fls -> ar !! a = Some (Small i used) -> std_descs !! i = Some x -> idx ∈ used ->
  exists s', free descs_at (block_addr a x idx) s = Ok (tt, s') /\ free_post ar s (block_addr a x idx) s'.
Proof.
  intros Hr Ha Hx Hu. pose proof (rep_small descs_at s ar fls a i used x Hr Ha Hx) as Hsa.
  pose proof (used_range descs_at s ar fls a i used x idx Hr Ha Hx Hu) as Hidx. destruct (block_in_page a x i idx Hx Hidx) as [P1 _].
  destruct (list_elem_of_split used idx Hu) as (us & vs & ->). destruct (std_desc_ok i x Hx) as (_ & _ & _ & Hbpa & _).
  destruct (put_back_ok s ar fls a i x us idx vs Hr Ha Hx) as (s1 & s2 & s3 & s4 & fls' & E1 & E2 & E3 & Hc & E4 & Hr4 & Hfr & Hlive).
  assert (Hlen : 0 <= d_blocks_per_arena x - Z.of_nat (length (us ++ vs)) <= 255).
  { destruct (header_small descs_at s ar fls a i _ x Hr Ha Hx) as (_ & Hnd & Hf).
    pose proof (used_length _ _ Hnd Hf ltac:(lia)) as Hl. rewrite length_app in *. cbn [length] in Hl. lia. }
  set (c := d_blocks_per_arena x - Z.of_nat (length (us ++ vs))) in *. destruct (sa_range _ _ _ _ _ Hsa).
  assert (Erun : free descs_at (block_addr a x idx) s =
    (if d_blocks_per_arena x <=? c then
       ASSERT (c =? d_blocks_per_arena x);; remove_blocks descs_at (Z.to_nat (d_blocks_per_arena x)) a 0;; on_vm (palloc_free_page a)
     else mret tt) s4).
  { unfold free. rewrite (proj2 (Z.eqb_neq _ _)) by (unfold NULL; lia). mstep (block_to_arena_small descs_at s a i x idx Hsa Hidx).
    unfold arena_desc, free_cnt. mstep (field_ok s (a + 4)). rewrite (sa_owner _ _ _ _ _ Hsa).
    rewrite (proj2 (Z.eqb_neq _ _) (desc_not_null descs_at i (sa_static _ _ _ _ _ Hsa))). cbn [negb].
    mstep (get_desc_ok descs_at s i x (sa_descs _ _ _ _ _ Hsa) Hx). mstep E1. mstep E2. mstep E3. mstep (field_ok s3 (a + 8)).
    rewrite Hc. replace (c - 1 + 1) with c by lia. rewrite u32_small by lia. by mstep E4. }
  rewrite Erun. destruct (Z.leb_spec (d_blocks_per_arena x) c) as [Hfull|Hpart].
  - assert (us ++ vs = []) as Hnil by (apply length_zero_iff_nil; unfold c in *; lia). rewrite Hnil in *.
    assert (Ec : c = d_blocks_per_arena x) by (unfold c; cbn [length]; lia). rewrite Ec, Z.eqb_refl.
    destruct (release_ok s4 (<[a := Small i []]> ar) fls' a i x Hr4 (lookup_insert_eq _ _ _) Hx) as (s5 & ys & E5 & Hr5 & Hfr5).
    exists s5. rewrite (bind_ok _ _ _ tt s4) by done. split; [exact E5|]. rewrite delete_insert_eq in Hr5, Hfr5.
    assert (Hlv : forall b m, is_live (delete a ar) b m <-> is_live ar b m /\ b <> block_addr a x idx).
    { intros b m. rewrite <- Hlive, is_live_drop, (is_live_update ar a i x _ [] b m Ha Hx). split; [by left|].
      intros [H2|(j & Hj & _)]; [done|by apply not_elem_of_nil in Hj]. }
    exists (delete a ar), (<[i := ys]> fls'). split_and!; [done| |done|apply compact_drop].
    apply (frame_trans _ s s4 s5); [|done]. apply (frame_same _ (<[a := Small i []]> ar)); [|done].
    intros b m Hb. by apply Hlive, Hlv.
  - exists s4. split; [done|]. exists (<[a := Small i (us ++ vs)]> ar), fls'. split_and!; [done|done|done|].
    intros Hcp a0 i0 H1. apply lookup_insert_Some in H1 as [[_ H1]|[_ H1]]; [|by apply (Hcp a0 i0)].
    injection H1 as _ Hnil. unfold c in Hpart. rewrite Hnil in Hpart. cbn [length] in Hpart. lia.
Qed.

Lemma free_ok s ar fls p n :
  heap_rep s ar fls -> is_live ar p n -> exists s', free descs_at p s = Ok (tt, s') /\ free_post ar s p s'.
Proof.
  intros Hr [a Hl]. unfold live_at in Hl. destruct (ar !! a) as [[i used|k]|] eqn:Ha; [| |done].
  - destruct Hl as (x & idx & Hx & Hidx & -> & _). by apply (free_small s ar fls a i x used idx).
  - destruct Hl as [-> _]. by apply (free_big s ar fls a k).
Qed.

Lemma block_size_ok s ar fls p n : heap_rep s ar fls -> is_live ar p n -> block_size descs_at p s = Ok (n, s).
Proof.
  intros Hr [a Hl]. destruct (live_in_arena descs_at s ar fls a p n Hr Hl) as (k & Ha & L1 & L2 & _).
  destruct (arena_bounds descs_at s ar fls a k Hr Ha) as (Hal & Hlow & Hmax). unfold PHYS_BASE in Hlow.
  destruct (hr_arenas _ _ _ _ Hr a k Ha) as [_ (Hm & Hk)]. unfold live_at in Hl. rewrite Ha in Hl.
  unfold block_size. destruct k as [i used|k]; cbn [pages_of] in *.
  - destruct Hl as (x & idx & Hx & Hidx & -> & ->). pose proof (rep_small descs_at s ar fls a i used x Hr Ha Hx) as Hsa.
    mstep (block_to_arena_small descs_at s a i x idx Hsa (used_range descs_at s ar fls a i used x idx Hr Ha Hx Hidx)).
    unfold arena_desc. mstep (field_ok s (a + 4)). rewrite (sa_owner _ _ _ _ _ Hsa).
    rewrite (proj2 (Z.eqb_neq _ _) (desc_not_null descs_at i (sa_static _ _ _ _ _ Hsa))). cbn [negb].
    by mstep (get_desc_ok descs_at s i x (sa_descs _ _ _ _ _ Hsa) Hx).
  - destruct Hl as [-> ->], Hk as (Ho & Hc & Hn). mstep (block_to_arena_big descs_at s a Hal ltac:(lia) ltac:(lia) Hm Ho).
    unfold arena_desc, free_cnt. mstep (field_ok s (a + 4)). rewrite Ho. change (negb (NULL =? NULL)) with false. cbv iota.
    mstep (field_ok s (a + 8)). rewrite Hc. destruct (page_round a (a + 12)) as [_ Hof]; [done|lia|lia|lia|].
    rewrite Hof. unfold PGSIZE. replace (4096 * k - (a + 12 - a)) with (4096 * k - 12) by lia. by rewrite u32_small by lia.
Qed.

(** ** The bytes of blocks *)

(** Writing inside an allocated block leaves the heap as it is. *)
Lemma rep_write s ar fls p n w' :
  heap_rep s ar fls -> is_live ar p n -> (forall y, y < p \/ p + n <= y -> w' y = words (hv s) y) ->
  heap_rep (with_words s w') ar fls.
Proof.
  intros Hr [a Hl] Hw. destruct (live_in_arena descs_at s ar fls a p n Hr Hl) as (k & Ha & L1 & L2 & _).
  assert (Hkeep : forall a0 k0, ar !! a0 = Some k0 -> header_ok descs_at (words (hv s)) a0 k0 -> header_ok descs_at w' a0 k0).
  { intros a0 k0 H0 Hh. pose proof (arena_pages descs_at s ar fls a0 k0 Hr H0). assert (Hout : a0 + 12 <= p \/ p + n <= a0).
    { destruct (decide (a0 = a)) as [->|Hne]; [lia|]. destruct (hr_apart _ _ _ _ Hr a0 a k0 k H0 Ha Hne); lia. }
    unfold header_ok in *. rewrite !Hw by lia. done. }
  pose proof (same_pool s w' (hr_pools _ _ _ _ Hr)) as Hpc.
  split; try apply Hr; cbn [hv with_words]; [apply Hpc|]. apply map_Forall_lookup. intros a0 k0 H0.
  destruct (hr_arenas _ _ _ _ Hr a0 k0 H0) as [Hon Hh]. split; [done|]. by apply Hkeep.
Qed.

(** The bytes of a block are those of its words. *)
Lemma frame_bytes s0 ar fls s s' b n y :
  heap_rep s0 ar fls -> frame ar s s' -> is_live ar b n -> b <= y < b + n -> get_byte (words (hv s')) y = get_byte (words (hv s)) y.
Proof.
  intros Hr Hf Hl Hy. destruct Hl as [a Hl]. destruct (live_in_arena descs_at s0 ar fls a b n Hr Hl) as (_ & _ & _ & _ & _ & Hb & Hn).
  unfold get_byte. rewrite (Hf b n (y - y mod 4)); [done|by exists a|]. pose proof (Z.div_mod b 4 ltac:(lia)).
  pose proof (Z.div_mod y 4 ltac:(lia)). pose proof (Z.mod_pos_bound y 4 ltac:(lia)). lia.
Qed.

(** The bytes of the other blocks, when one block is written. *)
Lemma frame_write s ar fls p n w' :
  heap_rep s ar fls -> is_live ar p n -> (forall y, y < p \/ p + n <= y -> w' y = words (hv s) y) ->
  forall b m y, is_live ar b m -> b <> p -> b <= y < b + m -> w' y = words (hv s) y.
Proof.
  intros Hr Hl Hw b m y Hb Hne Hy. apply Hw. destruct (live_disjoint descs_at s ar fls b m p n Hr Hb Hl) as [[-> _]|]; [done|lia].
Qed.

(** ** Initialization *)

Lemma fam_snoc fls xs : fam descs_at (fls ++ [xs]) = fam descs_at fls ++ [(hdr descs_at (length fls), xs)].
Proof. unfold fam. rewrite imap_app. cbn. by rewrite Nat.add_0_r. Qed.

Lemma std_desc_at k : (k < 7)%nat ->
  std_descs !! k = Some (Desc (16 * 2 ^ Z.of_nat k) ((PGSIZE - sizeof_arena) / (16 * 2 ^ Z.of_nat k))) /\
  16 * 2 ^ Z.of_nat k < 2048 /\ u32 (16 * 2 ^ Z.of_nat k * 2) = 16 * 2 ^ Z.of_nat (S k).
Proof. intros Hk. do 7 (destruct k as [|k]; [by vm_compute|]). lia. Qed.

Lemma init_loop_ok n : forall k fuel s,
  (k + n = 7)%nat -> (n < fuel)%nat -> 0 < descs_at -> descs s = take k std_descs ->
  reps (elems s) (fam descs_at (replicate k [])) ->
  (forall i, (i < 7)%nat -> has (elems s) (head_of (hdr descs_at i)) /\ has (elems s) (tail_of (hdr descs_at i))) ->
  exists m', init_loop descs_at fuel (16 * 2 ^ Z.of_nat k) s = Ok (tt, HS (hv s) m' std_descs) /\
    reps m' (fam descs_at (replicate 7 [])).
Proof.
  induction n as [|n IH]; intros k [|fuel] s Hk Hfuel Hat Hd Hr Hh; try lia; cbn [init_loop].
  - assert (k = 7%nat) as -> by lia. exists (elems s). split; [|done]. change (16 * 2 ^ Z.of_nat 7 <? PGSIZE / 2) with false. cbv iota. destruct s. cbn in Hd. by subst.
  - destruct (std_desc_at k ltac:(lia)) as (Hx & Hlt & Hnext). rewrite (proj2 (Z.ltb_lt _ _)) by done.
    assert (Hlen : length (descs s) = k) by (rewrite Hd, length_take; change (length std_descs) with 7%nat; lia).
    rewrite (bind_ok _ _ _ s s) by done. cbv beta zeta. rewrite Hlen, (proj2 (Z.leb_le _ _)) by lia. rewrite (bind_ok _ _ _ tt s) by done. cbv beta.
    set (s1 := HS (hv s) (elems s) _). rewrite (bind_ok _ _ _ tt s1) by done. cbv beta. destruct (Hh k ltac:(lia)) as [Hhd Htl].
    destruct (list_init_ok (elems s) (hdr descs_at k)) as (m1 & E1 & Hl1 & Ho); try done;
      [unfold hdr, free_list, desc_addr, sizeof_desc, NULL; lia|unfold hdr, tail_of, free_list, desc_addr, sizeof_desc, NULL; lia|].
    unfold hdr in E1. set (s2 := HS (hv s) m1 (descs s1)). rewrite (bind_ok _ _ _ tt s2) by (unfold on_elems; cbn [elems s1]; by rewrite E1). cbv beta.
    rewrite Hnext. destruct (IH (S k) fuel s2) as (m' & E & Hr'); try lia.
    + unfold s2, s1. cbn [descs]. rewrite Hd. symmetry. by apply take_S_r.
    + rewrite replicate_S_end, fam_snoc, length_replicate. apply reps_app.
      assert (Hsep : forall a, a ∈ foot (fam descs_at (replicate k [])) -> a ∉ whole (hdr descs_at k) []).
      { intros a Ha Hin. apply elem_of_fam in Ha as (i & xs & Hi & Ha). apply lookup_replicate in Hi as [-> Hi].
        unfold whole, hdr, head_of, tail_of, free_list, desc_addr, sizeof_desc in *. cbn [app] in *. set_solver by lia. }
      split_and!.
      * apply (reps_outside (whole (hdr descs_at k) []) (elems s)); [done| |done]. intros a Ha Hin. by apply (Hsep a).
      * apply reps_cons. split_and!; [done|by split; [constructor|apply NoDup_nil_2]|]. intros a _. apply not_elem_of_nil.
      * intros a Ha. rewrite foot_cons, app_nil_r. by apply Hsep.
    + intros i Hi. cbn [elems s2]. destruct (Hh i Hi) as [[n1 H1] [n2 H2]], Ho as [Hdom _]. apply elem_of_dom_2 in H1, H2. rewrite <- Hdom in H1, H2.
      apply elem_of_dom in H1, H2. done.
    + exists m'. split; [exact E|done].
Qed.

Lemma malloc_init_ok s :
  pools_ok (hv s) -> 0 < descs_at -> descs_at + 480 <= base (kernel_pool (hv s)) -> descs s = [] ->
  (forall i, (i < 7)%nat -> has (elems s) (head_of (hdr descs_at i)) /\ has (elems s) (tail_of (hdr descs_at i))) ->
  exists s', malloc_init descs_at s = Ok (tt, s') /\ heap_rep s' ∅ (replicate 7 []) /\ hv s' = hv s.
Proof.
  intros Hp Hat Hlow Hd Hh. destruct (init_loop_ok 7 0 11 s) as (m' & E & Hr); try done; try lia; [by split; [constructor|apply NoDup_nil_2]|].
  eexists. split; [exact E|]. split; [|done]. split; try done.
  intros i xs b Hi. apply lookup_replicate in Hi as [-> _]. split; [by intros H%not_elem_of_nil|]. by intros (a & used & x & idx & H & _).
Qed.

End Free.
