(* ===== verification/MallocProps.v ===== *)
(** * The block allocator: what [malloc], [calloc], [realloc] and [free] promise

    The promise is a map from the addresses of the allocated blocks to their
    sizes: [heap_ok blocks s] says that the state holds these blocks and no
    arena without one. *)

From S2P Require Import Prelude ListModel ListRep ListOps HashRep Bitmap BitmapThms Page PageThms PageProps Malloc MallocRep MallocOps MallocFree.

Section Allocator.
Context (descs_at : Z) (garbage : Z -> list_elem).

Definition heap_ok (blocks : gmap Z Z) (s : hstate) : Prop := exists ar fls,
  heap_rep descs_at s ar fls /\ compact ar /\ forall b n, is_live ar b n <-> blocks !! b = Some n.

(** The bytes of the blocks of [blocks] are the same in both states. *)
Definition same_bytes (blocks : gmap Z Z) (s s' : hstate) : Prop := forall b n y,
  blocks !! b = Some n -> b <= y < b + n -> get_byte (words (hv s')) y = get_byte (words (hv s)) y.

(** A block for SIZE bytes is added to [blocks], or there is no room for it. *)
Definition allocated (blocks : gmap Z Z) (s : hstate) (size p : Z) (s' : hstate) : Prop :=
  (p = NULL /\ s' = s /\ (size = 0 \/ no_run (used_map (kernel_pool (hv s))) 0 (pages_for size) false)) \/
  (p <> NULL /\ exists n, size <= n /\ blocks !! p = None /\ heap_ok (<[p := n]> blocks) s' /\ same_bytes blocks s s').

Lemma heap_same_bytes blocks s0 ar fls s s' :
  heap_rep descs_at s0 ar fls -> (forall b n, is_live ar b n <-> blocks !! b = Some n) -> frame ar s s' -> same_bytes blocks s s'.
Proof using Type. intros Hr Hb Hf b n y Hl%Hb Hy. by apply (frame_bytes descs_at s0 ar fls s s' b n y). Qed.

Lemma malloc_allocated blocks s size :
  heap_ok blocks s -> 0 <= size <= 4294967284 ->
  exists p s', malloc descs_at garbage size s = Ok (p, s') /\ allocated blocks s size p s'.
Proof.
  intros (ar & fls & Hr & Hc & Hb) Hsize. destruct (malloc_block_ok descs_at garbage s ar fls size Hr Hsize) as (p & s' & E & Hpost).
  exists p, s'. split; [done|]. destruct Hpost as [H|(n & ar' & fls' & Hp & Hn & _ & Hr' & Hf & Hd & Hl & Hc')]; [by left|right].
  split; [done|]. exists n. assert (Hnone : blocks !! p = None).
  { destruct (blocks !! p) as [m|] eqn:Em; [|done]. apply Hb in Em. specialize (Hd p m Em). destruct Em as [a Em].
    destruct (live_in_arena descs_at s ar fls a p m Hr Em) as (_ & _ & _ & _ & Hm & _).
    assert (Hpn : is_live ar' p n) by (apply Hl; by right). destruct Hpn as [a' Hpn].
    destruct (live_in_arena descs_at s' ar' fls' a' p n Hr' Hpn) as (_ & _ & _ & _ & Hn' & _). lia. }
  split_and!; [done|done| |by apply (heap_same_bytes blocks s ar fls)].
  exists ar', fls'. split_and!; [done|by apply Hc'|]. intros b m. rewrite Hl, Hb. split.
  - intros [H|[-> ->]]; [|apply lookup_insert_eq]. rewrite lookup_insert_ne; [done|]. intros ->. by rewrite Hnone in H.
  - intros [[<- <-]|[_ H]]%lookup_insert_Some; [by right|by left].
Qed.

Lemma free_released blocks s p n :
  heap_ok blocks s -> blocks !! p = Some n ->
  exists s', free descs_at p s = Ok (tt, s') /\ heap_ok (delete p blocks) s' /\ same_bytes (delete p blocks) s s'.
Proof using Type.
  intros (ar & fls & Hr & Hc & Hb) Hp. apply Hb in Hp. destruct (free_ok descs_at s ar fls p n Hr Hp) as (s' & E & ar' & fls' & Hr' & Hf & Hl & Hc').
  assert (Hb' : forall b m, is_live ar' b m <-> delete p blocks !! b = Some m).
  { intros b m. rewrite Hl, Hb, lookup_delete_Some. split; (intros [H1 H2]; split; [|done || by apply not_eq_sym]; done || by apply not_eq_sym). }
  exists s'. split_and!; [done| |by apply (heap_same_bytes _ s' ar' fls')]. exists ar', fls'. split_and!; [done|by apply Hc'|done].
Qed.

(** A block is filled by bytes from elsewhere. *)
Lemma block_written blocks s p n w' :
  heap_ok blocks s -> blocks !! p = Some n -> (forall y, y < p \/ p + n <= y -> w' y = words (hv s) y) ->
  heap_ok blocks (with_words s w') /\ same_bytes (delete p blocks) s (with_words s w').
Proof using Type.
  intros (ar & fls & Hr & Hc & Hb) Hp%Hb Hw. pose proof (rep_write descs_at s ar fls p n w' Hr Hp Hw) as Hr'. split; [by exists ar, fls|].
  intros b m y [Hne Hl%Hb]%lookup_delete_Some Hy. assert (Hl' := Hl). destruct Hl' as [a Hla].
  destruct (live_in_arena descs_at s ar fls a b m Hr Hla) as (_ & _ & _ & _ & _ & H4 & Hm4). unfold get_byte. cbn [hv with_words words set_words].
  rewrite (frame_write descs_at s ar fls p n w' Hr Hp Hw b m (y - y mod 4)); [done|done|done|].
  pose proof (Z.div_mod b 4 ltac:(lia)). pose proof (Z.div_mod y 4 ltac:(lia)). pose proof (Z.mod_pos_bound y 4 ltac:(lia)). lia.
Qed.

(** The blocks are aligned, do not overlap, and lie in the kernel pool. *)
Lemma heap_blocks blocks s b n :
  heap_ok blocks s -> blocks !! b = Some n ->
  0 < n /\ b mod 4 = 0 /\ n mod 4 = 0 /\ base (kernel_pool (hv s)) < b /\
  (b + n <= base (kernel_pool (hv s)) + 4096 * bit_cnt (used_map (kernel_pool (hv s))) /\ b + n <= 4294967296) /\
  forall b' n', blocks !! b' = Some n' -> b <> b' -> b + n <= b' \/ b' + n' <= b.
Proof using Type.
  intros (ar & fls & Hr & Hc & Hb) Hl%Hb. assert (Hl' := Hl). destruct Hl' as [a Hla].
  destruct (live_in_arena descs_at s ar fls a b n Hr Hla) as (k & Hk & L1 & L2 & L3 & L4 & L5).
  destruct (arena_bounds descs_at s ar fls a k Hr Hk) as (_ & Hlow & Hmax).
  destruct (hr_arenas _ _ _ _ Hr a k Hk) as [(j & _ & Hj & Ej & _) _]. split_and!; try done; try lia.
  intros b' n' Hb'%Hb Hne. destruct (live_disjoint descs_at s ar fls b n b' n' Hr Hl Hb') as [[? _]|]; [done|done].
Qed.

(** SIZE is the product as [calloc] computes it. *)
Lemma calloc_allocated blocks s a b size :
  heap_ok blocks s -> 0 <= a -> 0 <= b -> size = u32 (a * b) -> size <= 4294967284 -> (size = 0 \/ a <= size /\ b <= size) ->
  exists p s', calloc descs_at garbage a b s = Ok (p, s') /\ allocated blocks s size p s' /\
     (p <> NULL -> forall i, 0 <= i < size -> get_byte (words (hv s')) (p + i) = 0).
Proof.
  intros Hs Ha Hb Esize Hmax Hfit. unfold calloc. rewrite <- Esize. assert (H0 : 0 <= size) by (subst; apply u32_range).
  destruct ((size <? a) || (size <? b)) eqn:Eo.
  { exists NULL, s. split; [done|]. split; [|done]. left. split_and!; [done|done|left]. lia. }
  destruct (malloc_allocated blocks s size Hs ltac:(lia)) as (p & s1 & E & Hal). cbv zeta. rewrite (bind_ok _ _ _ _ _ E). cbv beta.
  destruct Hal as [(-> & -> & Hwhy)|(Hp & n & Hn & Hnone & Hs1 & Hsame)].
  - exists NULL, s. split; [done|]. split; [by left|done].
  - rewrite (proj2 (Z.eqb_neq p NULL) Hp). cbn [negb].
    destruct (heap_blocks _ s1 p n Hs1 (lookup_insert_eq _ _ _)) as (Hn0 & Hp4 & Hn4 & _ & _ & Hdis).
    destruct (memset_words_ok p n 0 Hp4 Hn4 ltac:(lia) (Z.to_nat size) p (hv s1)) as (w' & E2 & Hout & Hget); [lia|lia|].
    rewrite (bind_ok _ _ _ tt (with_words s1 w')) by (by apply on_vm_ok). exists p, (with_words s1 w'). split; [done|].
    destruct (block_written _ s1 p n w' Hs1 (lookup_insert_eq _ _ _) Hout) as [Hs2 Hs12]. rewrite delete_insert_id in Hs12 by done. split.
    + right. split; [done|]. exists n. split_and!; try done. intros c m y Hc Hy. by rewrite (Hs12 c m y Hc Hy), (Hsame c m y Hc Hy).
    + intros _ i Hi. cbn [hv with_words words set_words]. rewrite Hget, Z2Nat.id by lia.
      by rewrite (proj2 (Z.leb_le _ _)), (proj2 (Z.ltb_lt _ _)) by lia.
Qed.

Lemma realloc_moved blocks s p n size :
  heap_ok blocks s -> blocks !! p = Some n -> 0 < size <= 4294967284 ->
  exists q s', realloc descs_at garbage p size s = Ok (q, s') /\
    ((q = NULL /\ s' = s /\ no_run (used_map (kernel_pool (hv s))) 0 (pages_for size) false) \/
     q <> NULL /\ exists m, size <= m /\ blocks !! q = None /\ heap_ok (<[q := m]> (delete p blocks)) s' /\
       same_bytes (delete p blocks) s s' /\
       forall i, 0 <= i < Z.min size n -> get_byte (words (hv s')) (q + i) = get_byte (words (hv s)) (p + i)).
Proof.
  intros Hs Hp Hsize. unfold realloc. rewrite (proj2 (Z.eqb_neq size 0)) by lia.
  destruct (malloc_allocated blocks s size Hs ltac:(lia)) as (q & s1 & E & Hal). rewrite (bind_ok _ _ _ _ _ E). cbv beta.
  destruct (heap_blocks _ s p n Hs Hp) as (Hn0 & _ & _ & Hlow & _). assert (Hpn : p <> NULL).
  { destruct Hs as (ar & fls & Hr & _). pose proof (po_low _ (ps_kernel _ (hr_pools _ _ _ _ Hr))). unfold NULL, PHYS_BASE in *. lia. }
  rewrite (proj2 (Z.eqb_neq p NULL) Hpn). destruct Hal as [(-> & -> & Hwhy)|(Hq & m & Hm & Hnone & Hs1 & Hsame)].
  - exists NULL, s. split; [done|]. left. destruct Hwhy as [->|]; [lia|done].
  - rewrite (proj2 (Z.eqb_neq q NULL) Hq). cbn [negb andb]. assert (Hne : q <> p) by (intros ->; by rewrite Hnone in Hp).
    assert (Hp1 : <[q := m]> blocks !! p = Some n) by (by rewrite lookup_insert_ne).
    destruct (heap_blocks _ s1 q m Hs1 (lookup_insert_eq _ _ _)) as (Hm0 & Hq4 & Hm4 & _ & _ & Hdis). specialize (Hdis p n Hp1 Hne).
    assert (Esize : block_size descs_at p s1 = Ok (n, s1)).
    { destruct Hs1 as (ar1 & fls1 & Hr1 & _ & Hb1). apply (block_size_ok descs_at s1 ar1 fls1 p n Hr1). by apply Hb1. }
    set (k := if size <? n then size else n). assert (Hk : k = Z.min size n) by (unfold k; destruct (Z.ltb_spec size n); lia).
    destruct (memcpy_loop_ok q m p Hq4 Hm4 (Z.to_nat k) q p (hv s1)) as (w' & E2 & Hout & Hget); [lia|lia|lia|lia|].
    destruct (block_written _ s1 q m w' Hs1 (lookup_insert_eq _ _ _) Hout) as [Hs2 Hs12]. rewrite delete_insert_id in Hs12 by done.
    destruct (free_released _ (with_words s1 w') p n Hs2 Hp1) as (s3 & E3 & Hs3 & Hs23). rewrite delete_insert_ne in Hs3, Hs23 by done.
    exists q, s3. split.
    { rewrite (bind_ok _ _ _ tt s3); [done|]. mstep Esize. cbv zeta. fold k.
      rewrite (bind_ok _ _ _ tt (with_words s1 w')) by (by apply on_vm_ok). exact E3. }
    right. split; [done|]. exists m. split_and!; try done.
    + intros c l y [Hcp Hc]%lookup_delete_Some Hy. rewrite (Hs23 c l y), (Hs12 c l y Hc Hy); [by apply (Hsame c l y)| |done].
      rewrite lookup_insert_ne; [by apply lookup_delete_Some|]. intros ->. by rewrite Hnone in Hc.
    + intros i Hi. rewrite (Hs23 q m (q + i)) by (first [apply lookup_insert_eq | lia]). cbn [hv with_words words set_words].
      rewrite Hget, Z2Nat.id by lia. rewrite (proj2 (Z.leb_le _ _)), (proj2 (Z.ltb_lt _ _)) by lia. cbn [andb].
      replace (q + i - (q - p)) with (p + i) by lia. apply (Hsame p n); [done|lia].
Qed.

End Allocator.

(** ** Sessions of a client *)

(** What [malloc_init] finds: the page allocator is ready, the descriptors and
    the ends of their lists are static data below the pool. *)
Record boot_ok (descs_at : Z) (s : hstate) : Prop := {
  bo_pools : pools_ok (hv s);
  bo_static : 0 < descs_at /\ descs_at + 480 <= base (kernel_pool (hv s));
  bo_descs : descs s = [];
  bo_lists : forall i, (i < 7)%nat -> has (elems s) (head_of (hdr descs_at i)) /\ has (elems s) (tail_of (hdr descs_at i))
}.

Lemma empty_heap descs_at s fls : heap_rep descs_at s ∅ fls -> heap_ok descs_at ∅ s.
Proof. intros Hr. exists ∅, fls. split_and!; [done|by intros a i H|]. intros b n. split; [by intros [a H]|done]. Qed.

Lemma boot_heap descs_at s : boot_ok descs_at s -> exists s', malloc_init descs_at s = Ok (tt, s') /\ heap_ok descs_at ∅ s'.
Proof.
  intros [Hp [H0 Hlow] Hd Hl]. destruct (malloc_init_ok descs_at s Hp H0 Hlow Hd Hl) as (s' & E & Hr & _). exists s'. split; [done|].
  by apply (empty_heap descs_at s' (replicate 7 [])).
Qed.

(** The states that a client reaches after [malloc_init], with the blocks it
    then has: it allocates, resizes and frees, and writes into its blocks. *)
Inductive session (descs_at : Z) (garbage : Z -> list_elem) (s0 : hstate) : gmap Z Z -> hstate -> Prop :=
| session_init s : malloc_init descs_at s0 = Ok (tt, s) -> session descs_at garbage s0 ∅ s
| session_malloc blocks s size p s' n :
    session descs_at garbage s0 blocks s -> 0 <= size <= 4294967284 -> malloc descs_at garbage size s = Ok (p, s') ->
    p <> NULL -> block_size descs_at p s' = Ok (n, s') -> session descs_at garbage s0 (<[p := n]> blocks) s'
| session_no_memory blocks s size s' :
    session descs_at garbage s0 blocks s -> 0 <= size <= 4294967284 -> malloc descs_at garbage size s = Ok (NULL, s') ->
    session descs_at garbage s0 blocks s'
| session_realloc blocks s size p q s' n :
    session descs_at garbage s0 blocks s -> 0 < size <= 4294967284 -> is_Some (blocks !! p) ->
    realloc descs_at garbage p size s = Ok (q, s') -> q <> NULL -> block_size descs_at q s' = Ok (n, s') ->
    session descs_at garbage s0 (<[q := n]> (delete p blocks)) s'
| session_free blocks s p s' :
    session descs_at garbage s0 blocks s -> is_Some (blocks !! p) -> free descs_at p s = Ok (tt, s') ->
    session descs_at garbage s0 (delete p blocks) s'
| session_write blocks s p n w :
    session descs_at garbage s0 blocks s -> blocks !! p = Some n ->
    (forall y, y < p \/ p + n <= y -> w y = words (hv s) y) -> session descs_at garbage s0 blocks (with_words s w).

Lemma heap_block_size descs_at blocks s p n m :
  heap_ok descs_at blocks s -> blocks !! p = Some n -> block_size descs_at p s = Ok (m, s) -> m = n.
Proof.
  intros (ar & fls & Hr & _ & Hb) Hp%Hb E. rewrite (block_size_ok descs_at s ar fls p n Hr Hp) in E. by injection E.
Qed.

Lemma session_heap descs_at garbage s0 blocks s :
  boot_ok descs_at s0 -> session descs_at garbage s0 blocks s -> heap_ok descs_at blocks s.
Proof.
  intros H0 Hs. induction Hs as [s E|blocks s size p s' n _ IH Hsize E Hp En|blocks s size s' _ IH Hsize E|blocks s size p q s' n _ IH Hsize [m Hm] E Hq En
    |blocks s p s' _ IH [n Hn] E|blocks s p n w _ IH Hn Hw].
  - destruct (boot_heap descs_at s0 H0) as (s' & E' & Hh). rewrite E' in E. by injection E as <-.
  - destruct (malloc_allocated descs_at garbage blocks s size IH Hsize) as (p' & s'' & E' & Hal). rewrite E in E'. injection E' as <- <-.
    destruct Hal as [[? _]|(_ & k & _ & _ & Hok & _)]; [done|]. by rewrite (heap_block_size _ _ _ p k n Hok (lookup_insert_eq _ _ _) En).
  - destruct (malloc_allocated descs_at garbage blocks s size IH Hsize) as (p' & s'' & E' & Hal). rewrite E in E'. injection E' as <- <-.
    destruct Hal as [(_ & -> & _)|(? & _)]; done.
  - destruct (realloc_moved descs_at garbage blocks s p m size IH Hm Hsize) as (q' & s'' & E' & Hal). rewrite E in E'. injection E' as <- <-.
    destruct Hal as [[? _]|(_ & k & _ & _ & Hok & _)]; [done|]. by rewrite (heap_block_size _ _ _ q k n Hok (lookup_insert_eq _ _ _) En).
  - destruct (free_released descs_at blocks s p n IH Hn) as (s'' & E' & Hok & _). rewrite E in E'. by injection E' as <-.
  - by apply (block_written descs_at blocks s p n w).
Qed.

(** ** The properties *)

(** C3: on a heap with the allocated blocks [blocks], [malloc] of up to
    2^32 - 12 bytes returns a block of at least that size at a new address, adds it to
    the blocks and does not touch the bytes of the others, or returns a null
    pointer and changes nothing, which happens only for size 0 or when the pool
    has not enough free pages side by side; [free] of a block removes just that block, gives back
    an arena that is then unused, and leaves the bytes of the others; [free] of
    a null pointer does nothing; [block_size] tells the size of a block. *)
Theorem malloc_refines_allocator descs_at garbage blocks s :
  heap_ok descs_at blocks s ->
  (forall size, 0 <= size <= 4294967284 ->
     exists p s', malloc descs_at garbage size s = Ok (p, s') /\ allocated descs_at blocks s size p s') /\
  (forall p n, blocks !! p = Some n -> block_size descs_at p s = Ok (n, s) /\
     exists s', free descs_at p s = Ok (tt, s') /\ heap_ok descs_at (delete p blocks) s' /\ same_bytes (delete p blocks) s s') /\
  free descs_at NULL s = Ok (tt, s).
Proof.
  intros Hs. split_and!; [intros size Hsize; by apply malloc_allocated| |done]. intros p n Hp. split; [|by apply free_released with n].
  destruct Hs as (ar & fls & Hr & _ & Hb). apply (block_size_ok descs_at s ar fls p n Hr). by apply Hb.
Qed.

(** C25: whatever a client does with [malloc], [realloc] and [free] after
    [malloc_init], and whatever it writes into its blocks, its blocks are
    aligned, lie in the kernel pool and do not overlap, and when it has freed
    them all no arena is left. *)
Theorem heap_session_safe descs_at garbage s0 blocks s :
  boot_ok descs_at s0 -> session descs_at garbage s0 blocks s ->
  (forall b n, blocks !! b = Some n ->
     0 < n /\ b mod 4 = 0 /\ base (kernel_pool (hv s)) < b /\
     (b + n <= base (kernel_pool (hv s)) + 4096 * bit_cnt (used_map (kernel_pool (hv s))) /\ b + n <= 4294967296) /\
     forall b' n', blocks !! b' = Some n' -> b <> b' -> b + n <= b' \/ b' + n' <= b) /\
  (blocks = ∅ -> exists fls, heap_rep descs_at s ∅ fls).
Proof.
  intros H0 Hs. pose proof (session_heap descs_at garbage s0 blocks s H0 Hs) as Hh. split.
  - intros b n Hb. by destruct (heap_blocks descs_at blocks s b n Hh Hb) as (? & ? & _ & ? & ? & ?).
  - intros ->. destruct Hh as (ar & fls & Hr & Hc & Hb). exists fls. replace ∅ with ar; [done|]. apply map_empty. intros a.
    destruct (ar !! a) as [[i [|u used]|n]|] eqn:Ea; [by destruct (Hc a i)| | |done]; exfalso.
    + destruct (hr_arenas _ _ _ _ Hr a _ Ea) as [_ (_ & _ & x & Hx & _)].
      assert (Hl : is_live ar (block_addr a x u) (d_block_size x)); [|by apply Hb in Hl].
      exists a. unfold live_at. rewrite Ea. exists x, u. split_and!; try done. apply elem_of_cons. by left.
    + assert (Hl : is_live ar (a + 12) (4096 * n - 12)); [|by apply Hb in Hl]. exists a. unfold live_at. by rewrite Ea.
Qed.

(** [realloc] of a block of N bytes to SIZE bytes moves it to a new block
    that starts with the first min(SIZE, N) bytes of the old one, frees the old
    one and leaves the bytes of all others; when there is no room it returns a null
    pointer and the old block stays.  With a null pointer it is [malloc], with
    size 0 it is [free].  [calloc] returns a block of zeros when the product fits. *)
Theorem realloc_calloc_correct descs_at garbage blocks s :
  heap_ok descs_at blocks s ->
  (forall p n size, blocks !! p = Some n -> 0 < size <= 4294967284 ->
     exists q s', realloc descs_at garbage p size s = Ok (q, s') /\
       ((q = NULL /\ s' = s /\ no_run (used_map (kernel_pool (hv s))) 0 (pages_for size) false) \/
        q <> NULL /\ exists m, size <= m /\ blocks !! q = None /\ heap_ok descs_at (<[q := m]> (delete p blocks)) s' /\
          same_bytes (delete p blocks) s s' /\
          forall i, 0 <= i < Z.min size n -> get_byte (words (hv s')) (q + i) = get_byte (words (hv s)) (p + i))) /\
  (forall size, 0 < size -> realloc descs_at garbage NULL size s = malloc descs_at garbage size s) /\
  (forall p, realloc descs_at garbage p 0 s = (free descs_at p;; mret NULL) s) /\
  (forall a b, 0 <= a -> 0 <= b -> a * b <= 4294967284 ->
     exists p s', calloc descs_at garbage a b s = Ok (p, s') /\ allocated descs_at blocks s (a * b) p s' /\
       (p <> NULL -> forall i, 0 <= i < a * b -> get_byte (words (hv s')) (p + i) = 0)).
Proof.
  intros Hs. split_and!.
  - intros p n size Hp Hsize. by apply realloc_moved.
  - intros size Hsize. unfold realloc. rewrite (proj2 (Z.eqb_neq size 0)) by lia. unfold mbind, M_bind.
    by destruct (malloc descs_at garbage size s) as [[q s']|].
  - done.
  - intros a b Ha Hb Hab. apply calloc_allocated; try done; [by rewrite u32_small by nia|].
    destruct (decide (a * b = 0)) as [|H0]; [by left|right]. assert (a <> 0 /\ b <> 0) by (split; intros ->; lia). nia.
Qed.

(** a request of more than 2^32 - 12 bytes wraps around when the header is
    added: [malloc] returns a block that is too small for it; and [calloc]'s test for
    overflow misses products such as 65537 * 65537, for which it returns a
    block of less than the product. *)
Theorem malloc_flaws descs_at garbage blocks s size j :
  heap_ok descs_at blocks s -> 4294967284 < size < 4294967296 ->
  0 <= j -> j + 33 <= bit_cnt (used_map (kernel_pool (hv s))) -> run (used_map (kernel_pool (hv s))) j 33 false ->
  (exists p s' n, malloc descs_at garbage size s = Ok (p, s') /\ p <> NULL /\ block_size descs_at p s' = Ok (n, s') /\ n < size) /\
  (exists p s' n, calloc descs_at garbage 65537 65537 s = Ok (p, s') /\ p <> NULL /\
     block_size descs_at p s' = Ok (n, s') /\ n < 65537 * 65537).
Proof.
  intros Hs Hsize Hj Hcnt Hrun. assert (Hroom : forall n, 0 < n <= 33 -> ~ no_run (used_map (kernel_pool (hv s))) 0 n false).
  { intros n Hn Hno. apply (Hno j); [lia|lia|]. intros l Hl. apply Hrun. lia. }
  assert (Hsmall : forall ar' fls' s' p n, heap_rep descs_at s' ar' fls' -> is_live ar' p n -> block_size descs_at p s' = Ok (n, s') /\ n < 4294967284).
  { intros ar' fls' s' p n Hr Hl. split; [by apply (block_size_ok descs_at s' ar' fls')|]. destruct Hl as [a Hl].
    destruct (live_in_arena descs_at s' ar' fls' a p n Hr Hl) as (k & Hk & L1 & L2 & _).
    destruct (arena_bounds descs_at s' ar' fls' a k Hr Hk) as (_ & Hlow & Hmax). unfold PHYS_BASE in Hlow. lia. }
  split.
  - destruct Hs as (ar & fls & Hr & _). destruct (malloc_wraps descs_at garbage s ar fls size Hr Hsize) as (p & s' & E & Hpost). exists p, s'.
    destruct Hpost as [(_ & _ & [?|Hno])|(n & ar' & fls' & Hp & _ & _ & Hr' & _ & _ & Hl & _)]; [lia|by destruct (Hroom (pages_for 4084))|].
    exists n. destruct (Hsmall ar' fls' s' p n Hr') as [Eb Hn]; [apply Hl; by right|]. split_and!; try done. lia.
  - destruct (calloc_allocated descs_at garbage blocks s 65537 65537 131073 Hs) as (p & s' & E & Hal & _); try done; [right; split; lia|]. exists p, s'.
    destruct Hal as [(_ & _ & [?|Hno])|(Hp & n & _ & _ & (ar' & fls' & Hr' & _ & Hb) & _)]; [lia|by destruct (Hroom (pages_for 131073))|].
    exists n. destruct (Hsmall ar' fls' s' p n Hr') as [Eb Hn]; [apply Hb, lookup_insert_eq|]. split_and!; try done. lia.
Qed.

(** ** Witnesses *)

(** A kernel pool of 64 pages, of which three are used, and static data below it. *)
Definition demo_pool_vm : vm :=
  VM (Pool (Bitmap 64 [11; 0]) 3222298624) (Pool (Bitmap 32 [0]) 3222560768) (fun _ => 0) 1073152.

Definition demo_descs : Z := 3222200000.

Definition demo_elems : mem :=
  foldr (fun i m => <[hdr demo_descs i := ListElem 0 0]> (<[tail_of (hdr demo_descs i) := ListElem 0 0]> m)) ∅ (seq 0 7).

Definition demo_boot : hstate := HS demo_pool_vm demo_elems [].

Lemma demo_boot_ok : boot_ok demo_descs demo_boot.
Proof.
  assert (W : forall n w, 0 <= n <= 4294967264 -> Z.of_nat (length w) >= elem_cnt n -> Forall word w -> wf (Bitmap n w)) by (by intros; split).
  split.
  - split; [split|split|]; cbn; try (apply W; [lia|vm_compute; congruence|repeat constructor; unfold word; lia]);
      try (vm_compute; congruence); unfold PHYS_BASE; lia.
  - cbn. unfold demo_descs. lia.
  - done.
  - intros i Hi. assert (Hok : forallb (fun i => bool_decide (is_Some (demo_elems !! head_of (hdr demo_descs i))) &&
      bool_decide (is_Some (demo_elems !! tail_of (hdr demo_descs i)))) (seq 0 7) = true) by (vm_compute; reflexivity).
    rewrite forallb_forall in Hok. specialize (Hok i (proj2 (in_seq 7 0 i) ltac:(lia))). apply andb_true_iff in Hok as [H1 H2].
    split; by eapply bool_decide_eq_true_1.
Qed.

Lemma malloc_refines_allocator_witness : exists s, heap_ok demo_descs ∅ s /\
  exists p s', malloc demo_descs (fun _ => ListElem 0 0) 100 s = Ok (p, s') /\ allocated demo_descs ∅ s 100 p s'.
Proof.
  destruct (boot_heap demo_descs demo_boot demo_boot_ok) as (s & _ & Hs). exists s. split; [exact Hs|].
  destruct (malloc_refines_allocator demo_descs (fun _ => ListElem 0 0) ∅ s Hs) as (H & _). apply H. lia.
Defined.

(** A session: blocks of 100, 20 and 5000 bytes are allocated, the first one is
    written to, the second one resized to 60 bytes and the first one freed. *)
Definition demo_garbage : Z -> list_elem := fun _ => ListElem 0 0.

Definition outcome {A} (d : A) (r : result (A * hstate)) : A * hstate := match r with Ok x => x | Err _ => (d, demo_boot) end.
Definition succeeds {A} (r : result (A * hstate)) : bool := match r with Ok _ => true | Err _ => false end.

Lemma outcome_ok {A} (d : A) r a : succeeds r = true -> (outcome d r).1 = a -> r = Ok (a, (outcome d r).2).
Proof. destruct r as [[x s]|]; [|done]. by intros _ <-. Qed.

Definition session0 : hstate := (outcome tt (malloc_init demo_descs demo_boot)).2.
Definition session1 : hstate := (outcome 0 (malloc demo_descs demo_garbage 100 session0)).2.
Definition session2 : hstate := (outcome 0 (malloc demo_descs demo_garbage 20 session1)).2.
Definition session3 : hstate := (outcome 0 (malloc demo_descs demo_garbage 5000 session2)).2.
Definition session4 : hstate := with_words session3 (fun y => if y =? 3222306828 then 42 else words (hv session3) y).
Definition session5 : hstate := (outcome 0 (realloc demo_descs demo_garbage 3222315020 60 session4)).2.
Definition session6 : hstate := (outcome tt (free demo_descs 3222306828 session5)).2.

Definition demo_blocks : gmap Z Z :=
  delete 3222306828 (<[3222327308 := 64]> (delete 3222315020 (<[3222319116 := 8180]> (<[3222315020 := 32]> (<[3222306828 := 128]> ∅))))).

(** [block_size] only reads. *)
Definition reads {A} (c : M hstate A) : Prop := forall s r s', c s = Ok (r, s') -> s' = s.

Lemma reads_bind {A B} (c : M hstate A) (k : A -> M hstate B) : reads c -> (forall x, reads (k x)) -> reads (c ≫= k).
Proof. intros Hc Hk s r s' (x & s1 & E1 & E2)%bind_inv. apply Hc in E1 as ->. by apply Hk in E2. Qed.

Lemma reads_ret {A} (x : A) : reads (mret x).
Proof. intros s r s' E. by injection E. Qed.

Lemma reads_assert b : reads (ASSERT b).
Proof. intros s r s'. unfold ASSERT. destruct b; [intros E; by injection E|done]. Qed.

Lemma reads_word a : reads (on_vm (rd a)).
Proof. intros [v e d] r s'. cbn. intros E. by injection E. Qed.

Lemma reads_desc d x : reads (get_desc d x).
Proof.
  intros s r s'. unfold get_desc. destruct (_ && _); [|done]. destruct (descs s !! _); cbn; [intros E; by injection E|done].
Qed.

Lemma block_size_reads d p : reads (block_size d p).
Proof.
  unfold block_size, block_to_arena, magic, arena_desc, free_cnt.
  repeat (first [apply reads_bind; [|intros ?]|apply reads_ret|apply reads_assert|apply reads_word|apply reads_desc|destruct (_ =? _)|destruct (negb _)]).
Qed.

Lemma same_size d p n s :
  succeeds (block_size d p s) = true -> (outcome 0 (block_size d p s)).1 = n -> block_size d p s = Ok (n, s).
Proof. intros H1 H2. pose proof (outcome_ok 0 _ n H1 H2) as E. by rewrite (block_size_reads d p _ _ _ E) in E. Qed.

Lemma demo_session : session demo_descs demo_garbage demo_boot demo_blocks session6.
Proof.
  unfold demo_blocks. apply (session_free _ _ _ _ session5).
  2: { vm_compute. by eexists. }
  2: { apply outcome_ok; vm_compute; reflexivity. }
  apply (session_realloc _ _ _ _ session4 60); [|lia|vm_compute; by eexists|apply outcome_ok; vm_compute; reflexivity|done|].
  2: { apply same_size; vm_compute; reflexivity. }
  apply (session_write _ _ _ _ session3 3222306828 128); [|reflexivity|].
  2: { intros y Hy. cbv beta. destruct (Z.eqb_spec y 3222306828); [lia|done]. }
  apply (session_malloc _ _ _ _ session2 5000); [|lia|apply outcome_ok; vm_compute; reflexivity|done|].
  2: { apply same_size; vm_compute; reflexivity. }
  apply (session_malloc _ _ _ _ session1 20); [|lia|apply outcome_ok; vm_compute; reflexivity|done|].
  2: { apply same_size; vm_compute; reflexivity. }
  apply (session_malloc _ _ _ _ session0 100); [|lia|apply outcome_ok; vm_compute; reflexivity|done|].
  2: { apply same_size; vm_compute; reflexivity. }
  apply session_init. apply outcome_ok; vm_compute; reflexivity.
Qed.

Lemma heap_session_safe_witness :
  demo_blocks !! 3222319116 = Some 8180 /\ demo_blocks !! 3222327308 = Some 64 /\
  3222319116 mod 4 = 0 /\ base (kernel_pool (hv session6)) < 3222319116 /\
  (3222319116 + 8180 <= 3222327308 \/ 3222327308 + 64 <= 3222319116).
Proof.
  assert (E1 : demo_blocks !! 3222319116 = Some 8180) by reflexivity.
  assert (E2 : demo_blocks !! 3222327308 = Some 64) by reflexivity.
  destruct (heap_session_safe demo_descs demo_garbage demo_boot demo_blocks session6 demo_boot_ok demo_session) as [H _].
  destruct (H _ _ E1) as (_ & Hal & Hlow & _ & Hdis). split; [exact E1|]. split; [exact E2|]. split; [exact Hal|]. split; [exact Hlow|].
  apply (Hdis _ _ E2). discriminate.
Defined.

Lemma realloc_calloc_correct_witness : exists s, heap_ok demo_descs ∅ s /\
  exists p s', calloc demo_descs (fun _ => ListElem 0 0) 3 50 s = Ok (p, s') /\ allocated demo_descs ∅ s (3 * 50) p s'.
Proof.
  destruct (boot_heap demo_descs demo_boot demo_boot_ok) as (s & _ & Hs). exists s. split; [exact Hs|].
  destruct (realloc_calloc_correct demo_descs (fun _ => ListElem 0 0) ∅ s Hs) as (_ & _ & _ & H).
  destruct (H 3 50) as (p & s' & E & Hal & _); [lia|lia|lia|]. by exists p, s'.
Defined.

Lemma malloc_flaws_witness : exists s p s' n,
  malloc demo_descs (fun _ => ListElem 0 0) 4294967295 s = Ok (p, s') /\ block_size demo_descs p s' = Ok (n, s') /\ n < 4294967295.
Proof.
  destruct demo_boot_ok as [Hp [H0 Hlow] Hd Hl]. destruct (malloc_init_ok demo_descs demo_boot Hp H0 Hlow Hd Hl) as (s & E & Hr & Hv). exists s.
  destruct (malloc_flaws demo_descs (fun _ => ListElem 0 0) ∅ s 4294967295 4) as [(p & s' & n & E1 & _ & E2 & Hn) _].
  - exact (empty_heap _ _ _ Hr).
  - lia.
  - lia.
  - rewrite Hv. vm_compute. discriminate.
  - rewrite Hv. intros l Hbit. assert (Hall : forallb (fun l => negb (bit (Bitmap 64 [11; 0]) (Z.of_nat l))) (seq 4 33) = true) by (vm_compute; reflexivity).
    rewrite forallb_forall in Hall. specialize (Hall (Z.to_nat l) (proj2 (in_seq 33 4 (Z.to_nat l)) ltac:(clear Hl; lia))). rewrite Z2Nat.id in Hall by lia.
    exact (proj1 (negb_true_iff _) Hall).
  - exists p, s', n. split; [exact E1|]. split; [exact E2|exact Hn].
Defined.
