(* ===== verification/Ustar.v ===== *)
(** * [lib/ustar.c]: headers of tar archives

    The header is a block of 512 bytes in memory, the state the memory with the
    text on the console.  A string literal of the code is at the address that
    [lit_at] gives for it.  [fuel] bounds the loops over strings. *)

From Stdlib Require Import Strings.Ascii Strings.String.
From S2P Require Import Prelude ListModel Bytes CString CStringRep Stdio.

Definition USTAR_HEADER_SIZE : Z := 512.

(** [enum ustar_type]. *)
Definition USTAR_REGULAR : Z := 48.
Definition USTAR_DIRECTORY : Z := 53.
Definition USTAR_EOF : Z := -1.

(** The fields of [struct ustar_header]: the offset and the size of each. *)
Record field := Field { offset : Z; size_of : Z }.
Definition h_name : field := Field 0 100.
Definition h_mode : field := Field 100 8.
Definition h_uid : field := Field 108 8.
Definition h_gid : field := Field 116 8.
Definition h_size : field := Field 124 12.
Definition h_mtime : field := Field 136 12.
Definition h_chksum : field := Field 148 8.
Definition h_typeflag : field := Field 156 1.
Definition h_linkname : field := Field 157 100.
Definition h_magic : field := Field 257 6.
Definition h_version : field := Field 263 2.
Definition h_uname : field := Field 265 32.
Definition h_gname : field := Field 297 32.
Definition h_devmajor : field := Field 329 8.
Definition h_devminor : field := Field 337 8.
Definition h_prefix : field := Field 345 155.
Definition h_padding : field := Field 500 12.

Definition sizeof_header : Z := offset h_padding + size_of h_padding.

Definition ULONG_MAX : Z := 4294967295.
Definition INT_MAX : Z := 2147483647.

Definition on_bytes {A} (c : B A) : M console A := fun s =>
  match c s.1 with Ok (a, m) => Ok (a, (m, s.2)) | Err e => Err e end.

(** ** Checksums and octal numbers *)

Definition in_chksum_field (i : Z) : bool := (offset h_chksum <=? i) && (i <? offset h_chksum + size_of h_chksum).

Fixpoint chksum_loop (n : nat) (header i chksum : Z) : B Z :=
  match n with
  | O => mret chksum
  | S n =>
      b ← (if in_chksum_field i then mret (chr " ") else load (header + i));
      chksum_loop n header (i + 1) (u32 (chksum + b))
  end.

Definition calculate_chksum (h : Z) : B Z := chksum_loop (Z.to_nat USTAR_HEADER_SIZE) h 0 0.

(** The result and the contents of [*value]. *)
Fixpoint parse_octal_loop (n : nat) (s ofs value : Z) : B (bool * Z) :=
  match n with
  | O => mret (false, value)
  | S n =>
      c ← load (s + ofs);
      if (chr "0" <=? c) && (c <=? chr "7") then
        if ULONG_MAX / 8 <? value then mret (false, value)
        else parse_octal_loop n s (ofs + 1) (u32 (c - chr "0" + value * 8))
      else if (c =? chr " ") || (c =? 0) then mret (0 <? ofs, value)
      else mret (false, value)
  end.

Definition parse_octal_field (s size : Z) : B (bool * Z) := parse_octal_loop (Z.to_nat size) s 0 0.

Fixpoint is_all_zeros_loop (n : nat) (block : Z) : B bool :=
  match n with
  | O => mret true
  | S n => b ← load block; if negb (b =? 0) then mret false else is_all_zeros_loop n (block + 1)
  end.

Definition is_all_zeros (block cnt : Z) : B bool := is_all_zeros_loop (Z.to_nat cnt) block.

Section Ustar.
Context (lit_at : string -> Z) (null_string : Z).

(** ** Names *)

Definition antisocial (file_name : Z) : B bool :=
  x ← load file_name;
  if x =? chr "/" then mret true else
  r ← memcmp file_name (lit_at "./") 2;
  if r =? 0 then mret true else
  r ← memcmp file_name (lit_at "../") 3;
  mret (r =? 0).

Fixpoint strip_loop (fuel : nat) (file_name : Z) : B Z :=
  match fuel with
  | O => fail EFuel
  | S fuel' =>
      a ← antisocial file_name;
      if (a : bool) then p ← strchr fuel file_name (chr "/"); strip_loop fuel' (p + 1)
      else mret file_name
  end.

Definition strip_antisocial_prefixes (fuel : nat) (file_name : Z) : B Z :=
  file_name ← strip_loop fuel file_name;
  x ← load file_name;
  if x =? 0 then mret (lit_at ".") else
  r ← strcmp fuel file_name (lit_at "..");
  mret (if r =? 0 then lit_at "." else file_name).

(** ** Headers *)

(** The header without its checksum. *)
Definition fill_header (fuel : nat) (file_name type size h : Z) : B unit :=
  memset h 0 sizeof_header;;
  strlcpy fuel (h + offset h_name) file_name (size_of h_name);;
  snprintf fuel null_string (h + offset h_mode) (size_of h_mode) (cstring "%07o") [if type =? USTAR_REGULAR then 420 else 493];;
  strlcpy fuel (h + offset h_uid) (lit_at "0000000") (size_of h_uid);;
  strlcpy fuel (h + offset h_gid) (lit_at "0000000") (size_of h_gid);;
  snprintf fuel null_string (h + offset h_size) (size_of h_size) (cstring "%011o") [u32 size];;
  snprintf fuel null_string (h + offset h_mtime) (size_of h_size) (cstring "%011o") [1136102400];;
  store (h + offset h_typeflag) type;;
  strlcpy fuel (h + offset h_magic) (lit_at "ustar") (size_of h_magic);;
  store (h + offset h_version + 1) (chr "0");;
  store (h + offset h_version) (chr "0");;
  strlcpy fuel (h + offset h_gname) (lit_at "root") (size_of h_gname);;
  strlcpy fuel (h + offset h_uname) (lit_at "root") (size_of h_uname);;
  mret tt.

Definition ustar_make_header (fuel : nat) (file_name type size h : Z) : M console bool :=
  ASSERT (sizeof_header =? USTAR_HEADER_SIZE);;
  ASSERT ((type =? USTAR_REGULAR) || (type =? USTAR_DIRECTORY));;
  file_name ← on_bytes (strip_antisocial_prefixes fuel file_name);
  n ← on_bytes (strlen fuel file_name);
  if 99 <? n then
    printf fuel null_string (lit "%s: file name too long" ++ [10; 0]) [file_name];;
    mret false
  else
    on_bytes (fill_header fuel file_name type size h);;
    sum ← on_bytes (calculate_chksum h);
    on_bytes (snprintf fuel null_string (h + offset h_chksum) (size_of h_chksum) (cstring "%07o") [sum]);;
    mret true.

(** What [ustar_parse_header] stores: the address of the name, the type and the
    size. *)
Record archived := Archived { a_name : Z; a_type : Z; a_size : Z }.

(** The message, a null pointer for success, and what is stored through the
    pointers. *)
Definition ustar_parse_header (fuel : nat) (h : Z) : B (Z * option archived) :=
  ASSERT (sizeof_header =? USTAR_HEADER_SIZE);;
  z ← is_all_zeros h USTAR_HEADER_SIZE;
  if (z : bool) then mret (NULL, Some (Archived NULL USTAR_EOF 0)) else
  r ← memcmp (h + offset h_magic) (lit_at "ustar") 6;
  if negb (r =? 0) then mret (lit_at "not a ustar archive", None) else
  v0 ← load (h + offset h_version);
  bad ← (if negb (v0 =? chr "0") then mret true else v1 ← load (h + offset h_version + 1); mret (negb (v1 =? chr "0")));
  if (bad : bool) then mret (lit_at "invalid ustar version", None) else
  c ← parse_octal_field (h + offset h_chksum) (size_of h_chksum);
  if negb c.1 then mret (lit_at "corrupt chksum field", None) else
  sum ← calculate_chksum h;
  if negb (c.2 =? sum) then mret (lit_at "checksum mismatch", None) else
  n ← load (h + offset h_name + size_of h_name - 1);
  long ← (if negb (n =? 0) then mret true else p ← load (h + offset h_prefix); mret (negb (p =? 0)));
  if (long : bool) then mret (lit_at "file name too long", None) else
  t ← load (h + offset h_typeflag);
  if negb (t =? USTAR_REGULAR) && negb (t =? USTAR_DIRECTORY) then mret (lit_at "unimplemented file type", None) else
  size ← (if t =? USTAR_REGULAR then
            s ← parse_octal_field (h + offset h_size) (size_of h_size);
            mret (if negb s.1 then inl (lit_at "corrupt file size field")
                  else if INT_MAX <? s.2 then inl (lit_at "file too large") else inr s.2)
          else mret (inr 0));
  match size with
  | inl message => mret (message, None)
  | inr size_ul =>
      name ← strip_antisocial_prefixes fuel (h + offset h_name);
      mret (NULL, Some (Archived name t size_ul))
  end.

End Ustar.
