(* ===== verification/UstarThms.v ===== *)
(** * Archive headers: octal fields, names and checksums

    [octal_text n v] is the number [v] in [n] octal digits, [safe_name s] what
    is left of a file name without its dangerous prefixes, and [chk_sum m h]
    the sum of the bytes of the header at [h]. *)

From Stdlib Require Import Strings.Ascii Strings.String.
From S2P Require Import Prelude ListModel Bytes CString CStringRep CStringProps Stdio StdioThms StdioProps Ustar.

(** ** Octal numbers *)

Fixpoint octal_text (n : nat) (v : Z) : list Z :=
  match n with O => [] | S n => octal_text n (v / 8) ++ [48 + v mod 8] end.

Lemma octal_text_length n v : length (octal_text n v) = n.
Proof. revert v. induction n as [|n IH]; intros v; cbn [octal_text]; [done|]. rewrite length_app, IH. cbn [length]. lia. Qed.

Lemma octal_text_digits n v : Forall (fun c => 48 <= c <= 55) (octal_text n v).
Proof.
  revert v. induction n as [|n IH]; intros v; cbn [octal_text]; [constructor|]. apply Forall_app. split; [done|].
  constructor; [|constructor]. pose proof (Z.mod_pos_bound v 8 ltac:(lia)). lia.
Qed.

Lemma octal_zeros n : octal_text n 0 = replicate n 48.
Proof. induction n as [|n IH]; [done|]. cbn [octal_text]. change (0 / 8) with 0. rewrite IH. by rewrite <- replicate_S_end. Qed.

(** The text of a conversion with leading zeros. *)
Lemma octal_numeral v ds n : numeral 8 v ds -> (length ds <= n)%nat ->
  octal_text n v = replicate (n - length ds) 48 ++ reverse (map (fun d => d + 48) ds).
Proof.
  revert v n. induction ds as [|d ds IH]; intros v n Hv Hn.
  - destruct Hv as (_ & _ & <-). cbn [number length map]. by rewrite Nat.sub_0_r, octal_zeros, app_nil_r.
  - destruct n as [|n]; [cbn [length] in Hn; lia|]. destruct (numeral_cons 8 v d ds ltac:(lia) Hv) as (_ & Hm & Hq & _).
    cbn [octal_text length map Nat.sub]. rewrite (IH (v / 8) n Hq) by (cbn [length] in Hn; lia). rewrite Hm, reverse_cons, app_assoc. do 2 f_equal. lia.
Qed.

Lemma octal_length v ds n : numeral 8 v ds -> v < 8 ^ Z.of_nat n -> (length ds <= n)%nat.
Proof.
  intros Hv Hn. destruct (decide (ds = [])) as [->|Hne]; [simpl; lia|]. destruct Hv as (Hd & Hl & Hv).
  pose proof (numeral_bound 8 ds ltac:(lia) Hd Hl Hne) as Hb. rewrite Hv in Hb.
  destruct (decide (length ds <= n)%nat) as [|Hgt]; [done|]. exfalso.
  assert (8 ^ Z.of_nat (S n) <= 8 ^ Z.of_nat (length ds)) by (apply Z.pow_le_mono_r; lia).
  rewrite Nat2Z.inj_succ, Z.pow_succ_r in * by lia. lia.
Qed.

Lemma digit_char_o d : 0 <= d < 8 -> digit_char base_o d = d + 48.
Proof.
  intros Hd. assert (exists i, d = Z.of_nat i /\ (i < 8)%nat) as (i & -> & Hi) by (exists (Z.to_nat d); lia).
  do 8 (destruct i as [|i]; [done|]). lia.
Qed.

Lemma integer_text_o v w ds : numeral 8 v ds -> v < 8 ^ Z.of_nat w -> (0 < w)%nat ->
  integer_text v false false base_o (Conversion ZERO (Z.of_nat w) (-1) INT) ds = octal_text w v.
Proof.
  intros Hv Hw H0. pose proof (octal_length v ds w Hv Hw) as Hl. rewrite (octal_numeral v ds w Hv Hl). destruct Hv as (Hds & _ & _).
  assert (Hcs : map (digit_char base_o) ds = map (fun d => d + 48) ds).
  { apply map_ext_Forall. apply (Forall_impl _ _ _ Hds). intros d Hd. by apply digit_char_o. }
  unfold integer_text, reversed_text, body_text. cbn [flags width precision]. change (has ZERO GROUP) with false. change (has ZERO POUND) with false.
  change (-1 <? 0) with true. change (has ZERO (Z.lor MINUS ZERO)) with true. change (has ZERO ZERO) with true. change (has ZERO MINUS) with false.
  change (sign_text false false ZERO) with (@nil Z). change (prefix_text base_o ZERO v) with (@nil Z). cbv iota. cbn [andb app].
  rewrite Hcs, app_nil_r, length_reverse. change (Z.to_nat (1 `min` 63)) with 1%nat. destruct ds as [|d ds].
  - cbn [map length Nat.sub app replicate]. change (reverse [chr "0"]) with [48]. change (chr "0") with 48. rewrite <- replicate_S_end.
    rewrite (reverse_nil (A := Z)), app_nil_r. f_equal. lia.
  - cbn [map length Nat.sub replicate]. rewrite app_nil_r. cbn [length]. rewrite length_map. f_equal. f_equal. cbn [length] in Hl. lia.
Qed.

(** The formats that the headers use, with the width W of their field. *)
Definition octal_format (w : nat) (f : string) : Prop :=
  forall (S : Type) (s : S) args, parse_conversion (tail (cstring f)) args s
    = Ok ((Conversion ZERO (Z.of_nat w) (-1) INT, cstring "o", args), s) /\ cstring f = chr "%" :: tail (cstring f) /\
      (exists c rest, tail (cstring f) = c :: rest /\ c <> chr "%").

Lemma octal_format_7 : octal_format 7 "%07o".
Proof. intros S s args. split; [done|]. split; [done|]. by eexists _, _. Qed.

Lemma octal_format_11 : octal_format 11 "%011o".
Proof. intros S s args. split; [done|]. split; [done|]. by eexists _, _. Qed.

Lemma printf_octal fuel null_string w f v (m : bytes) :
  octal_format w f -> (0 < w < 20)%nat -> 0 <= v < 4294967296 -> v < 8 ^ Z.of_nat w -> (2 <= fuel)%nat ->
  printf fuel null_string (cstring f) [v] (m, []) = Ok (tt, (m, octal_text w v)).
Proof.
  intros Hf Hw Hv Hmax Hfuel. destruct fuel as [|[|fuel]]; [lia..|]. destruct (Hf console (m, []) [v]) as (Hp & Ef & c & rest & Er & Hc).
  destruct (numeral_exists 8 ltac:(lia) w v ltac:(lia)) as [ds Hds]. unfold printf.
  assert (E : cstring f = chr "%" :: c :: rest) by (by rewrite Ef, Er). rewrite Er in Hp. rewrite E.
  rewrite (vprintf_conversion _ _ _ _ c rest _ _ (chr "o") [0] [v] _ Hc Hp).
  rewrite (bind_ok _ _ _ [] (m, octal_text w v)); [done|]. unfold convert.
  change ((chr "o" =? chr "d") || (chr "o" =? chr "i")) with false.
  change ((chr "o" =? chr "o") || (chr "o" =? chr "u") || (chr "o" =? chr "x") || (chr "o" =? chr "X")) with true. cbv iota.
  cbn [unsigned_arg type]. rewrite (bind_ok _ _ _ (u32 v, []) ((m, []) : console)) by done. cbv beta zeta. cbn [fst snd].
  change (chr "o" =? chr "o") with true. cbv iota. rewrite u32_small by done.
  assert (Hb : base_o ∈ bases) by (unfold bases; set_solver).
  unfold mbind, M_bind. rewrite (format_integer_text putchar base_o _ ds v false false Hb); [|lia|done|cbn [width]; lia].
  rewrite integer_text_o by (done || lia). rewrite output_all_putchar. cbn [app]. rewrite map_u8_bytes; [done|].
  apply (Forall_impl _ _ _ (octal_text_digits w v)). intros x Hx. unfold is_byte. lia.
Qed.

Lemma snprintf_octal fuel null_string w f v (m : bytes) p :
  octal_format w f -> (0 < w < 20)%nat -> 0 <= v < 4294967296 -> v < 8 ^ Z.of_nat w -> (2 <= fuel)%nat ->
  (forall a, p <= a < p + Z.of_nat (S w) -> is_Some (m !! a)) ->
  snprintf fuel null_string p (Z.of_nat (S w)) (cstring f) [v] m = Ok (Z.of_nat w, write m p (octal_text w v ++ [0])).
Proof.
  intros Hf Hw Hv Hmax Hfuel Hm. pose proof (printf_octal fuel null_string w f v ∅ Hf Hw Hv Hmax Hfuel) as Hrun.
  unfold snprintf. erewrite (vsnprintf_run m ∅ p (Z.of_nat (S w))); [|lia| |apply map_empty_subseteq|apply Hrun|rewrite octal_text_length; lia].
  - rewrite octal_text_length. unfold stored, max_length. rewrite (proj2 (Z.ltb_lt _ _)) by lia. rewrite take_ge; [done|]. rewrite octal_text_length. lia.
  - intros a Ha. split; [by apply Hm|apply lookup_empty].
Qed.

(** The value that the digits add up to. *)
Fixpoint octal_value (acc : Z) (cs : list Z) : Z :=
  match cs with [] => acc | c :: cs => octal_value (c - 48 + acc * 8) cs end.

Lemma octal_value_app acc xs ys : octal_value acc (xs ++ ys) = octal_value (octal_value acc xs) ys.
Proof. revert acc. induction xs as [|x xs IH]; intros acc; cbn; [done|]. apply IH. Qed.

Lemma octal_value_mono acc cs : 0 <= acc -> Forall (fun c => 48 <= c <= 55) cs -> acc <= octal_value acc cs.
Proof.
  intros Ha Hcs. revert acc Ha. induction Hcs as [|c cs Hc _ IH]; intros acc Ha; cbn [octal_value]; [lia|].
  specialize (IH (c - 48 + acc * 8) ltac:(lia)). lia.
Qed.

Lemma octal_value_text n v : 0 <= v < 8 ^ Z.of_nat n -> octal_value 0 (octal_text n v) = v.
Proof.
  revert v. induction n as [|n IH]; intros v Hv; [cbn in *; lia|]. cbn [octal_text]. rewrite octal_value_app.
  rewrite Nat2Z.inj_succ, Z.pow_succ_r in Hv by lia. pose proof (Z.div_mod v 8 ltac:(lia)). pose proof (Z.mod_pos_bound v 8 ltac:(lia)).
  rewrite IH; [cbn [octal_value]; lia|]. split; [apply Z.div_pos; lia|apply Z.div_lt_upper_bound; lia].
Qed.

Lemma parse_octal_loop_ok m cs : forall n s ofs value,
  Forall (fun c => 48 <= c <= 55) cs -> bytes_at m (s + ofs) (cs ++ [0]) -> (length cs < n)%nat -> 0 <= ofs ->
  0 < ofs + Z.of_nat (length cs) -> 0 <= value -> octal_value value cs < 4294967296 ->
  parse_octal_loop n s ofs value m = Ok ((true, octal_value value cs), m).
Proof.
  induction cs as [|c cs IH]; intros n s ofs value Hcs Hm Hn Ho Hpos Hv Hmax; (destruct n as [|n]; [lia|]); cbn [parse_octal_loop].
  - destruct Hm as [Hm _]. mstep (load_ok _ _ _ Hm). cbn. by rewrite (proj2 (Z.ltb_lt 0 ofs)) by (cbn [length] in Hpos; lia).
  - apply Forall_cons in Hcs as [Hc Hcs]. destruct Hm as [Hm Hrest]. mstep (load_ok _ _ _ Hm). cbn [octal_value] in Hmax.
    pose proof (octal_value_mono (c - 48 + value * 8) cs ltac:(lia) Hcs) as Hmono.
    change (chr "0") with 48. change (chr "7") with 55. rewrite (proj2 (Z.leb_le 48 c)), (proj2 (Z.leb_le c 55)) by lia. cbn [andb].
    change (ULONG_MAX / 8) with 536870911. rewrite (proj2 (Z.ltb_ge _ _)) by lia. rewrite u32_small by lia.
    cbn [octal_value]. apply IH; try done; try lia; [|cbn [length] in Hn; lia]. by rewrite Z.add_assoc.
Qed.

Lemma parse_octal_text m n s size v :
  bytes_at m s (octal_text n v ++ [0]) -> (0 < n)%nat -> Z.of_nat n < size -> 0 <= v < 8 ^ Z.of_nat n -> v < 4294967296 ->
  parse_octal_field s size m = Ok ((true, v), m).
Proof.
  intros Hm Hn Hs Hv Hmax. unfold parse_octal_field. rewrite (parse_octal_loop_ok m (octal_text n v)); try lia.
  - by rewrite octal_value_text.
  - apply octal_text_digits.
  - by rewrite Z.add_0_r.
  - rewrite octal_text_length. lia.
  - rewrite octal_text_length. lia.
  - by rewrite octal_value_text.
Qed.

(** ** Comparisons *)

Lemma memcmp_prefix m s ys : forall a b,
  cstr m a s -> bytes_at m b ys -> Forall (fun c => 0 < c < 256) ys ->
  exists r, memcmp_loop (length ys) a b m = Ok (r, m) /\ (r = 0 <-> ys `prefix_of` s).
Proof.
  revert s. induction ys as [|y ys IH]; intros s a b Ha Hb Hys; cbn [length memcmp_loop].
  - exists 0. split; [done|]. split; [intros _; apply prefix_nil|done].
  - apply Forall_cons in Hys as [Hy Hys]. destruct Hb as [Hb Hrest]. destruct s as [|c s].
    + apply cstr_nil in Ha. mstep (load_ok _ _ _ Ha). mstep (load_ok _ _ _ Hb). rewrite (proj2 (Z.eqb_neq 0 y)) by lia. cbn [negb].
      rewrite (proj2 (Z.ltb_ge y 0)) by lia. exists (-1). split; [done|]. split; [done|]. by intros H%prefix_nil_inv.
    + apply cstr_cons in Ha as (Ha & Hc & Ha'). mstep (load_ok _ _ _ Ha). mstep (load_ok _ _ _ Hb). destruct (Z.eqb_spec c y) as [->|Hne]; cbn [negb].
      * destruct (IH s (a + 1) (b + 1) Ha' Hrest Hys) as (r & E & Hr). exists r. split; [done|]. rewrite Hr. split; [apply prefix_cons|apply prefix_cons_inv_2].
      * eexists. split; [reflexivity|]. split; [by destruct (y <? c)|]. intros H%prefix_cons_inv_1. congruence.
Qed.

Lemma memcmp_same m xs ys : forall a b,
  bytes_at m a xs -> bytes_at m b ys -> length xs = length ys ->
  exists r, memcmp_loop (length ys) a b m = Ok (r, m) /\ (r = 0 <-> xs = ys).
Proof.
  revert ys. induction xs as [|x xs IH]; intros [|y ys] a b Ha Hb Hl; try done; cbn [length memcmp_loop].
  - by exists 0.
  - destruct Ha as [Ha Ha'], Hb as [Hb Hb']. mstep (load_ok _ _ _ Ha). mstep (load_ok _ _ _ Hb). destruct (Z.eqb_spec x y) as [->|Hne]; cbn [negb].
    + destruct (IH ys (a + 1) (b + 1) Ha' Hb') as (r & E & Hr); [by injection Hl|]. exists r. split; [done|]. rewrite Hr. split; [by intros ->|by intros [=]].
    + eexists. split; [reflexivity|]. split; [by destruct (y <? x)|]. congruence.
Qed.

Lemma strcmp_loop_ok m s : forall t a b fuel,
  cstr m a s -> cstr m b t -> (length s < fuel)%nat -> exists r, strcmp_loop fuel a b m = Ok (r, m) /\ (r = 0 <-> s = t).
Proof.
  assert (Hne : forall x y, x <> y -> (if x <? y then -1 else if y <? x then 1 else 0) <> 0)
    by (intros x y H; destruct (Z.ltb_spec x y); [done|]; destruct (Z.ltb_spec y x); [done|lia]).
  induction s as [|c s IH]; intros t a b [|fuel] Ha Hb Hf; try lia; cbn [strcmp_loop].
  - apply cstr_nil in Ha. mstep (load_ok _ _ _ Ha). destruct t as [|d t].
    + apply cstr_nil in Hb. mstep (load_ok _ _ _ Hb). by exists 0.
    + apply cstr_cons in Hb as (Hb & Hd & _). mstep (load_ok _ _ _ Hb). cbn [Z.eqb negb andb]. eexists. split; [reflexivity|].
      split; [|done]. intros H. by apply Hne in H; [|lia].
  - apply cstr_cons in Ha as (Ha & Hc & Ha'). mstep (load_ok _ _ _ Ha). rewrite (proj2 (Z.eqb_neq c 0)) by lia. cbn [negb andb]. destruct t as [|d t].
    + apply cstr_nil in Hb. mstep (load_ok _ _ _ Hb). rewrite (proj2 (Z.eqb_neq c 0)) by lia. eexists. split; [reflexivity|].
      split; [|done]. intros H. by apply Hne in H; [|lia].
    + apply cstr_cons in Hb as (Hb & Hd & Hb'). mstep (load_ok _ _ _ Hb). destruct (Z.eqb_spec c d) as [->|Hcd].
      * destruct (IH t (a + 1) (b + 1) fuel Ha' Hb') as (r & E & Hr); [cbn [length] in Hf; lia|]. exists r. split; [done|]. rewrite Hr.
        split; [by intros ->|by intros [=]].
      * eexists. split; [reflexivity|]. split; [intros H; by apply Hne in H|congruence].
Qed.

(** ** Names *)

(** The name without the prefixes "/", "./" and "../". *)
Fixpoint strip_prefixes (s : list Z) : list Z :=
  match s with
  | [] => []
  | c :: s1 =>
      if c =? chr "/" then strip_prefixes s1 else
      match s1 with
      | [] => s
      | d :: s2 =>
          if (c =? chr ".") && (d =? chr "/") then strip_prefixes s2 else
          match s2 with
          | [] => s
          | e :: s3 => if (c =? chr ".") && (d =? chr ".") && (e =? chr "/") then strip_prefixes s3 else s
          end
      end
  end.

Definition safe_name (s : list Z) : list Z :=
  let s := strip_prefixes s in if bool_decide (s = [] \/ s = lit "..") then lit "." else s.

Definition dangerous (s : list Z) : Prop := lit "/" `prefix_of` s \/ lit "./" `prefix_of` s \/ lit "../" `prefix_of` s.

#[global] Instance dangerous_dec s : Decision (dangerous s).
Proof. unfold dangerous. apply _. Defined.

(** One turn of the loop: the rest behind the first slash. *)
Lemma strip_prefixes_step s : dangerous s -> exists i rest, index (chr "/") (s ++ [0]) = Some i /\ (i < length s)%nat /\
  rest = drop (S i) s /\ strip_prefixes s = strip_prefixes rest /\ (length rest < length s)%nat.
Proof.
  intros [[k ->]|[[k ->]|[k ->]]].
  - exists 0%nat, k. split_and!; try done; cbn; lia.
  - exists 1%nat, k. split_and!; try done; cbn; lia.
  - exists 2%nat, k. split_and!; try done; cbn; lia.
Qed.

Lemma strip_prefixes_stop s : ~ dangerous s -> strip_prefixes s = s.
Proof.
  intros Hs. destruct s as [|c s]; [done|]. cbn [strip_prefixes]. destruct (Z.eqb_spec c (chr "/")) as [->|Hc].
  { exfalso. apply Hs. left. by exists s. }
  destruct s as [|d s]; [done|]. destruct (Z.eqb_spec c (chr ".")) as [->|]; cbn [andb]; [|by destruct s].
  destruct (Z.eqb_spec d (chr "/")) as [->|]; [exfalso; apply Hs; right; left; by exists s|].
  destruct s as [|e s]; [done|]. destruct (Z.eqb_spec d (chr ".")) as [->|]; cbn [andb]; [|done].
  destruct (Z.eqb_spec e (chr "/")) as [->|]; [exfalso; apply Hs; right; right; by exists s|done].
Qed.

(** Induction over the turns of the loop. *)
Lemma strip_prefixes_elim (P : list Z -> list Z -> Prop) :
  (forall s, ~ dangerous s -> P s s) -> (forall s i r, dangerous s -> P (drop i s) r -> P s r) -> forall s, P s (strip_prefixes s).
Proof.
  intros H0 H1. assert (H : forall n s, (length s < n)%nat -> P s (strip_prefixes s)).
  { induction n as [|n IH]; intros s Hn; [lia|]. destruct (decide (dangerous s)) as [Hd|Hd]; [|by rewrite strip_prefixes_stop; [apply H0|]].
    destruct (strip_prefixes_step s Hd) as (i & rest & _ & _ & -> & -> & Hl). apply (H1 s (S i)); [done|]. apply IH. lia. }
  intros s. apply (H (S (length s))). lia.
Qed.

Lemma strip_prefixes_safe s : ~ dangerous (strip_prefixes s).
Proof. by apply (strip_prefixes_elim (fun _ r => ~ dangerous r)). Qed.

Lemma strip_prefixes_length s : (length (strip_prefixes s) <= length s)%nat.
Proof.
  apply (strip_prefixes_elim (fun s r => length r <= length s)%nat); [done|]. intros s0 i r _ Hr. rewrite length_drop in Hr. lia.
Qed.

(** What is kept has no dangerous prefix, is not empty and is not "..". *)
Lemma safe_name_safe s : ~ dangerous (safe_name s) /\ safe_name s <> [] /\ safe_name s <> lit "..".
Proof.
  unfold safe_name. cbv zeta. case_bool_decide as Hb.
  - split; [|done]. intros [[k E]|[[k E]|[k E]]]; vm_compute in E; discriminate E.
  - split; [apply strip_prefixes_safe|]. split; intros E; apply Hb; [by left|by right].
Qed.

Lemma safe_name_id s : ~ dangerous s -> s <> [] -> s <> lit ".." -> safe_name s = s.
Proof. intros Hd H1 H2. unfold safe_name. rewrite strip_prefixes_stop by done. cbv zeta. rewrite bool_decide_eq_false_2; [done|]. by intros [?|?]. Qed.

(** ** The literals of the code *)

Definition literals : list string :=
  ["./"; "../"; ".."; "."; "0000000"; "ustar"; "root"; "not a ustar archive"; "invalid ustar version"; "corrupt chksum field";
   "checksum mismatch"; "file name too long"; "unimplemented file type"; "corrupt file size field"; "file too large"]%string.

Section Strip.
Context (lit_at : string -> Z).

(** The literals are in memory, outside the N bytes at H. *)
Definition literals_ok (m : bytes) (h n : Z) : Prop := Forall (fun s => cstr m (lit_at s) (lit s) /\ 0 < lit_at s /\
  (lit_at s + Z.of_nat (S (length (lit s))) <= h \/ h + n <= lit_at s)) literals.

Lemma literal m h n s : literals_ok m h n -> bool_decide (s ∈ literals) = true -> cstr m (lit_at s) (lit s) /\ 0 < lit_at s /\
  (lit_at s + Z.of_nat (S (length (lit s))) <= h \/ h + n <= lit_at s).
Proof. intros Hl Hs%bool_decide_eq_true_1. unfold literals_ok in Hl. rewrite Forall_forall in Hl. by apply Hl. Qed.

Lemma literal_pos m h n s : literals_ok m h n -> bool_decide (s ∈ literals) = true -> 0 < lit_at s.
Proof. intros Hl Hs. by destruct (literal m h n s Hl Hs) as (_ & H & _). Qed.

Lemma literals_write m h n m' : literals_ok m h n -> same_but h n m m' -> literals_ok m' h n.
Proof.
  unfold literals_ok. intros Hl Hs. apply (Forall_impl _ _ _ Hl). intros s (H1 & H2 & H3). split; [|done].
  apply (cstr_agree m); [|done]. intros a Ha. apply Hs. cbn [length] in *. lia.
Qed.

Lemma memcmp_literal m h n a s l : literals_ok m h n -> bool_decide (l ∈ literals) = true -> cstr m a s -> 0 < a ->
  exists r, memcmp a (lit_at l) (Z.of_nat (length (lit l))) m = Ok (r, m) /\ (r = 0 <-> lit l `prefix_of` s).
Proof.
  intros Hl Hin Ha H0. destruct (literal m h n l Hl Hin) as ([Hb Hc] & H1 & _). apply bytes_at_app in Hb as [Hb _].
  unfold memcmp. mstep (assert_block m a (Z.of_nat (length (lit l))) ltac:(unfold NULL; lia)).
  mstep (assert_block m (lit_at l) (Z.of_nat (length (lit l))) ltac:(unfold NULL; lia)). rewrite Nat2Z.id.
  by apply memcmp_prefix.
Qed.

Lemma antisocial_ok m h n p s : literals_ok m h n -> cstr m p s -> 0 < p ->
  antisocial lit_at p m = Ok (bool_decide (dangerous s), m).
Proof.
  intros Hl Hp H0. unfold antisocial. destruct s as [|c s].
  - assert (Hm := proj1 (cstr_nil m p) Hp). mstep (load_ok _ _ _ Hm). change (0 =? chr "/") with false. cbv iota.
    destruct (memcmp_literal m h n p [] "./" Hl eq_refl Hp H0) as (r1 & E1 & Hr1). cbn [lit map length] in E1.
    rewrite (bind_ok _ _ _ _ _ E1). cbv beta. destruct (Z.eqb_spec r1 0) as [E|_]; [by apply Hr1, prefix_nil_inv in E|].
    destruct (memcmp_literal m h n p [] "../" Hl eq_refl Hp H0) as (r2 & E2 & Hr2).
    rewrite (bind_ok _ _ _ _ _ E2). cbv beta. destruct (Z.eqb_spec r2 0) as [E|_]; [by apply Hr2, prefix_nil_inv in E|].
    by rewrite bool_decide_eq_false_2 by (intros [H|[H|H]]; by apply prefix_nil_inv in H).
  - pose proof (proj1 (cstr_cons m p c s) Hp) as (Hm & _). mstep (load_ok _ _ _ Hm). destruct (Z.eqb_spec c (chr "/")) as [->|Hc].
    { rewrite bool_decide_eq_true_2; [done|]. left. by exists s. }
    assert (Hno : ~ lit "/" `prefix_of` (c :: s)) by (intros H%prefix_cons_inv_1; by rewrite H in Hc).
    destruct (memcmp_literal m h n p (c :: s) "./" Hl eq_refl Hp H0) as (r1 & E1 & Hr1).
    rewrite (bind_ok _ _ _ _ _ E1). cbv beta. destruct (Z.eqb_spec r1 0) as [E|H1].
    { rewrite bool_decide_eq_true_2; [done|]. right. left. by apply Hr1. }
    destruct (memcmp_literal m h n p (c :: s) "../" Hl eq_refl Hp H0) as (r2 & E2 & Hr2).
    rewrite (bind_ok _ _ _ _ _ E2). cbv beta. unfold mret, M_ret. do 2 f_equal. rewrite Hr1 in H1.
    destruct (Z.eqb_spec r2 0) as [E|H2]; [apply Hr2 in E|rewrite Hr2 in H2]; symmetry.
    + apply bool_decide_eq_true_2. by right; right.
    + apply bool_decide_eq_false_2. by intros [?|[?|?]].
Qed.

Lemma strip_loop_ok m h n fuel : forall p s,
  literals_ok m h n -> cstr m p s -> 0 < p -> (length s < fuel)%nat ->
  exists k, strip_loop lit_at fuel p m = Ok (p + k, m) /\ 0 <= k /\ k + Z.of_nat (length (strip_prefixes s)) <= Z.of_nat (length s) /\
    cstr m (p + k) (strip_prefixes s) /\ (~ dangerous s -> k = 0).
Proof.
  induction fuel as [|fuel IH]; intros p s Hl Hp H0 Hf; [lia|]. cbn [strip_loop]. mstep (antisocial_ok m h n p s Hl Hp H0).
  case_bool_decide as Hd.
  - destruct (strip_prefixes_step s Hd) as (i & rest & Hi & Hlt & Er & -> & Hlen).
    rewrite (bind_ok _ _ _ (p + Z.of_nat i) m) by (rewrite (strchr_ok m p s (chr "/") (S fuel)); [by rewrite Hi|done|unfold NULL; lia|lia|done]).
    cbv beta. assert (Hrest : cstr m (p + Z.of_nat i + 1) rest).
    { rewrite <- (take_drop (S i) s), <- Er in Hp. apply cstr_app in Hp as (_ & Hp & _). rewrite length_take, Nat.min_l in Hp by lia.
      by replace (p + Z.of_nat i + 1) with (p + Z.of_nat (S i)) by lia. }
    destruct (IH _ rest Hl Hrest) as (k & E & Hk & Hk2 & Hs & _); [lia|lia|]. assert (length rest = length s - S i)%nat by (by rewrite Er, length_drop). exists (Z.of_nat i + 1 + k). split_and!; try lia.
    + by replace (p + (Z.of_nat i + 1 + k)) with (p + Z.of_nat i + 1 + k) by lia.
    + by replace (p + (Z.of_nat i + 1 + k)) with (p + Z.of_nat i + 1 + k) by lia.
    + done.
  - exists 0. rewrite Z.add_0_r, strip_prefixes_stop by done. done.
Qed.

Lemma strip_ok m h n fuel p s :
  literals_ok m h n -> cstr m p s -> 0 < p -> (length s + 3 < fuel)%nat ->
  exists q, strip_antisocial_prefixes lit_at fuel p m = Ok (q, m) /\ cstr m q (safe_name s) /\ 0 < q /\
    (q = lit_at "." /\ safe_name s = lit "." \/
      exists k, 0 <= k /\ q = p + k /\ k + Z.of_nat (length (safe_name s)) <= Z.of_nat (length s)) /\
    (~ dangerous s -> s <> [] -> s <> lit ".." -> q = p).
Proof.
  intros Hl Hp H0 Hf. destruct (strip_loop_ok m h n fuel p s Hl Hp H0 ltac:(lia)) as (k & E & Hk & Hk2 & Hs & Hk0).
  destruct (literal m h n "." Hl eq_refl) as (Hdot & Hd0 & _). destruct (literal m h n ".." Hl eq_refl) as (Hdd & Hdd0 & _).
  unfold strip_antisocial_prefixes, safe_name. mstep E. cbv zeta. destruct (strip_prefixes s) as [|c rest] eqn:Es.
  - assert (Hm := proj1 (cstr_nil m _) Hs). mstep (load_ok _ _ _ Hm). change (0 =? 0) with true. cbv iota. exists (lit_at ".").
    rewrite bool_decide_eq_true_2 by (by left). split_and!; try done; [by left|]. intros Hn Hne. by rewrite strip_prefixes_stop in Es by done.
  - destruct (proj1 (cstr_cons m _ c rest) Hs) as (Hm & Hc & _). mstep (load_ok _ _ _ Hm). rewrite (proj2 (Z.eqb_neq c 0)) by lia. unfold strcmp.
    assert (Hlen : (length (c :: rest) <= length s)%nat).
    { rewrite <- Es. apply strip_prefixes_length. }
    rewrite (bind_assoc (ASSERT (not_null (p + k)))). mstep (assert_ptr m (p + k) ltac:(unfold NULL; lia)).
    rewrite bind_assoc. mstep (assert_ptr m (lit_at "..") ltac:(unfold NULL; lia)).
    destruct (strcmp_loop_ok m (c :: rest) (lit "..") (p + k) (lit_at "..") fuel Hs Hdd ltac:(lia)) as (r & Er & Hr).
    rewrite (bind_ok _ _ _ _ _ Er). cbv beta. destruct (Z.eqb_spec r 0) as [E0|H1].
    + exists (lit_at "."). apply Hr in E0. rewrite bool_decide_eq_true_2 by (by right). split_and!; try done; [by left|].
      intros Hn _ Hne. rewrite strip_prefixes_stop in Es by done. by rewrite Es in Hne.
    + exists (p + k). rewrite Hr in H1. rewrite bool_decide_eq_false_2 by (by intros [?|?]). split_and!; try done; try lia; [right; by exists k|].
      intros Hn _ _. rewrite (Hk0 Hn). lia.
Qed.

End Strip.
