(* ===== verification/UstarProps.v ===== *)
(** * Archive headers: what is made is read back, and changes are noticed *)

From Stdlib Require Import Strings.Ascii Strings.String.
From S2P Require Import Prelude ListModel Bytes CString CStringRep CStringProps LoaderStack Stdio StdioThms StdioProps Ustar UstarThms.

(** ** Checksums *)

Definition chk_byte (m : bytes) (h i : Z) : Z := if in_chksum_field i then chr " " else default 0 (m !! (h + i)).

(** The sum of the N bytes from offset I on. *)
Fixpoint chk_from (n : nat) (m : bytes) (h i : Z) : Z :=
  match n with O => 0 | S n => chk_byte m h i + chk_from n m h (i + 1) end.

Definition chk_sum (m : bytes) (h : Z) : Z := chk_from 512 m h 0.

(** N bytes at P. *)
Definition block_at (m : bytes) (p n : Z) : Prop := forall a, p <= a < p + n -> exists b, m !! a = Some b /\ is_byte b.

Lemma chk_byte_range m h i : block_at m h 512 -> 0 <= i < 512 -> 0 <= chk_byte m h i < 256.
Proof.
  intros Hm Hi. unfold chk_byte. destruct (in_chksum_field i); [change (chr " ") with 32; lia|].
  destruct (Hm (h + i)) as (b & -> & Hb); [lia|done].
Qed.

Lemma chk_from_range m h n : block_at m h 512 -> forall i, 0 <= i -> i + Z.of_nat n <= 512 ->
  0 <= chk_from n m h i <= 255 * Z.of_nat n.
Proof.
  intros Hm. induction n as [|n IH]; intros i Hi Hn; cbn [chk_from]; [lia|].
  pose proof (chk_byte_range m h i Hm ltac:(lia)). specialize (IH (i + 1) ltac:(lia) ltac:(lia)). lia.
Qed.

Lemma chksum_loop_ok m h n : block_at m h 512 -> forall i acc, 0 <= i -> i + Z.of_nat n <= 512 -> 0 <= acc <= 255 * i ->
  chksum_loop n h i acc m = Ok (acc + chk_from n m h i, m).
Proof.
  intros Hm. induction n as [|n IH]; intros i acc Hi Hn Hacc; cbn [chksum_loop chk_from]; [by rewrite Z.add_0_r|].
  pose proof (chk_byte_range m h i Hm ltac:(lia)) as Hb.
  rewrite (bind_ok _ _ _ (chk_byte m h i) m).
  - cbv beta. rewrite u32_small by lia. rewrite IH by lia. do 2 f_equal. lia.
  - unfold chk_byte. destruct (in_chksum_field i); [done|]. destruct (Hm (h + i)) as (b & E & _); [lia|]. rewrite E. by apply load_ok.
Qed.

Lemma calculate_chksum_ok m h : block_at m h 512 -> calculate_chksum h m = Ok (chk_sum m h, m) /\ 0 <= chk_sum m h <= 130560.
Proof.
  intros Hm. split; [by apply (chksum_loop_ok m h 512 Hm 0 0)|]. pose proof (chk_from_range m h 512 Hm 0). unfold chk_sum. lia.
Qed.

(** The field of the checksum does not count. *)
Lemma chk_sum_field m m' h : same_but (h + 148) 8 m m' -> chk_sum m' h = chk_sum m h.
Proof.
  intros Hm. unfold chk_sum. generalize 0 as i. generalize 512%nat as n. induction n as [|n IH]; intros i; cbn [chk_from]; [done|]. rewrite IH. f_equal.
  unfold chk_byte, in_chksum_field. cbn [offset size_of h_chksum]. destruct (Z.leb_spec 148 i), (Z.ltb_spec i (148 + 8)); cbn [andb]; try done; rewrite Hm by lia; done.
Qed.

(** One other byte does. *)
Lemma chk_sum_change m h j old new :
  0 <= j < 512 -> in_chksum_field j = false -> m !! (h + j) = Some old -> chk_sum (<[h + j := new]> m) h = chk_sum m h + (new - old).
Proof.
  intros Hj Hf Hold. assert (H : forall n i, chk_from n (<[h + j := new]> m) h i
    = chk_from n m h i + (if (i <=? j) && (j <? i + Z.of_nat n) then new - old else 0)).
  { induction n as [|n IH]; intros i; cbn [chk_from]; [destruct (Z.leb_spec i j); cbn [andb]; [|done]; by rewrite (proj2 (Z.ltb_ge _ _)) by lia|].
    rewrite IH. unfold chk_byte. destruct (decide (i = j)) as [->|Hne].
    - rewrite Hf, lookup_insert_eq, Hold. cbn [default from_option id].
      rewrite (proj2 (Z.leb_gt (j + 1) j)), (proj2 (Z.leb_le j j)) by lia. cbn [andb]. rewrite (proj2 (Z.ltb_lt j _)) by lia. lia.
    - rewrite lookup_insert_ne by lia. destruct (in_chksum_field i), (Z.leb_spec (i + 1) j), (Z.leb_spec i j); cbn [andb]; try lia;
        destruct (Z.ltb_spec j (i + 1 + Z.of_nat n)), (Z.ltb_spec j (i + Z.of_nat (S n))); lia. }
  unfold chk_sum. rewrite H. rewrite (proj2 (Z.leb_le 0 j)), (proj2 (Z.ltb_lt j _)) by lia. done.
Qed.

(** ** Fields *)

Definition put_fields (m : bytes) (h : Z) (fs : list (field * list Z)) : bytes :=
  foldl (fun m p => write m (h + offset p.1) p.2) m fs.

Definition apart (f g : field) : bool := (offset f + size_of f <=? offset g) || (offset g + size_of g <=? offset f).

(** Each value fits into its field, and the fields do not overlap. *)
Fixpoint fields_ok (fs : list (field * list Z)) : Prop :=
  match fs with
  | [] => True
  | p :: fs => Z.of_nat (length p.2) <= size_of p.1 /\ Forall (fun q => apart p.1 q.1 = true) fs /\ fields_ok fs
  end.

Lemma put_fields_out fs : forall m h a, fields_ok fs ->
  Forall (fun p => a < h + offset p.1 \/ h + offset p.1 + size_of p.1 <= a) fs -> put_fields m h fs !! a = m !! a.
Proof.
  induction fs as [|[f bs] fs IH]; intros m h a Hok Ha; [done|]. destruct Hok as (Hl & _ & Hok). apply Forall_cons in Ha as [Hf Ha]. cbn [fst snd] in *.
  unfold put_fields in *. cbn [foldl fst snd]. rewrite (IH _ h a Hok Ha). apply write_out. lia.
Qed.

Lemma put_fields_at fs f bs : forall m h, fields_ok fs -> (f, bs) ∈ fs -> bytes_at (put_fields m h fs) (h + offset f) bs.
Proof.
  induction fs as [|[g cs] fs IH]; intros m h Hok Hin; [by apply elem_of_nil in Hin|]. destruct Hok as (Hl & Hap & Hok).
  apply elem_of_cons in Hin as [[= -> ->]|Hin]; [|by apply IH]. cbn [fst snd] in *. unfold put_fields. cbn [foldl fst snd].
  fold (put_fields (write m (h + offset g) cs) h fs). apply (bytes_at_agree (write m (h + offset g) cs)); [|apply write_at]. intros a Ha.
  apply put_fields_out; [done|]. apply (Forall_impl _ _ _ Hap). intros q Hq. unfold apart in Hq. lia.
Qed.

(** Written fields leave bytes in the block, and nothing else changes. *)
Lemma put_fields_block fs : forall m h, fields_ok fs ->
  Forall (fun p => 0 <= offset p.1 /\ offset p.1 + size_of p.1 <= 512 /\ Forall is_byte p.2) fs ->
  block_at m h 512 -> block_at (put_fields m h fs) h 512 /\ same_but h 512 m (put_fields m h fs).
Proof.
  induction fs as [|[f bs] fs IH]; intros m h Hok Hin Hm; [done|]. destruct Hok as (Hl & _ & Hok).
  apply Forall_cons in Hin as [(H0 & H1 & Hb) Hin]. cbn [fst snd] in *. unfold put_fields. cbn [foldl fst snd]. fold (put_fields (write m (h + offset f) bs) h fs).
  assert (Hsame : same_but h 512 m (write m (h + offset f) bs)) by (intros a Ha; apply write_out; lia).
  destruct (IH (write m (h + offset f) bs) h Hok Hin) as [H2 H3].
  - intros a Ha. rewrite write_lookup. destruct ((_ <=? a) && (a <? _)) eqn:E; [|by apply Hm].
    destruct (lookup_lt_is_Some_2 bs (Z.to_nat (a - (h + offset f)))) as [b Eb]; [lia|]. exists b. split; [done|]. by apply (Forall_lookup_1 _ _ _ _ Hb Eb).
  - split; [done|]. intros a Ha. rewrite H3, Hsame by done. done.
Qed.

(** ** Loops of the reader *)

Lemma is_all_zeros_ok m n : forall p, block_at m p (Z.of_nat n) ->
  exists b, is_all_zeros_loop n p m = Ok (b, m) /\ (b = true <-> forall a, p <= a < p + Z.of_nat n -> m !! a = Some 0).
Proof.
  induction n as [|n IH]; intros p Hm; cbn [is_all_zeros_loop].
  - exists true. split; [done|]. split; [intros _ a Ha; lia|done].
  - destruct (Hm p) as (x & Hx & _); [lia|]. mstep (load_ok _ _ _ Hx). destruct (Z.eqb_spec x 0) as [->|Hne]; cbn [negb].
    + destruct (IH (p + 1)) as (b & E & Hb); [intros a Ha; apply Hm; lia|]. exists b. split; [done|]. rewrite Hb. split; intros H a Ha; [|apply H; lia].
      destruct (decide (a = p)) as [->|]; [done|apply H; lia].
    + exists false. split; [done|]. split; [done|]. intros H. rewrite (H p) in Hx by lia. congruence.
Qed.

Lemma parse_octal_total m m' n : forall s ofs value, 0 <= ofs ->
  (forall i, ofs <= i < ofs + Z.of_nat n -> is_Some (m !! (s + i)) /\ m' !! (s + i) = m !! (s + i)) ->
  exists r, parse_octal_loop n s ofs value m = Ok (r, m) /\ parse_octal_loop n s ofs value m' = Ok (r, m').
Proof.
  induction n as [|n IH]; intros s ofs value H0 Hm; cbn [parse_octal_loop]; [by eexists|].
  destruct (Hm ofs) as [[c Hc] Hc']; [lia|]. assert (Hc2 : m' !! (s + ofs) = Some c) by congruence.
  rewrite (bind_ok _ _ _ _ _ (load_ok _ _ _ Hc)), (bind_ok _ _ _ _ _ (load_ok _ _ _ Hc2)). cbv beta.
  destruct ((chr "0" <=? c) && (c <=? chr "7")).
  - destruct (ULONG_MAX / 8 <? value); [by eexists|]. apply IH; [lia|]. intros i Hi. apply Hm. lia.
  - destruct ((c =? chr " ") || (c =? 0)); by eexists.
Qed.

(** ** Filling in a header *)

Section Header.
Context (lit_at : string -> Z) (null_string h : Z) (fuel : nat).
Context (Hh : 0 < h) (Hfuel : (120 <= fuel)%nat).

(** A memory with the literals and the block of the header. *)
Definition ready (m : bytes) : Prop := literals_ok lit_at m h 512 /\ block_at m h 512.

Lemma ready_write m f bs : ready m -> 0 <= offset f -> offset f + size_of f <= 512 -> Z.of_nat (length bs) <= size_of f -> Forall is_byte bs ->
  ready (write m (h + offset f) bs) /\ same_but h 512 m (write m (h + offset f) bs).
Proof.
  intros [Hl Hm] H0 H1 Hlen Hb. destruct (put_fields_block [(f, bs)] m h) as [H2 H3]; [by repeat constructor|by repeat constructor|done|].
  split; [|done]. split; [by apply (literals_write lit_at m)|done].
Qed.

(** The part of the block that a field has. *)
Lemma block_bytes m f : block_at m h 512 -> 0 <= offset f -> 0 <= size_of f -> offset f + size_of f <= 512 ->
  exists buf, bytes_at m (h + offset f) buf /\ length buf = Z.to_nat (size_of f).
Proof.
  intros Hm H0 H1 H2. remember (Z.to_nat (size_of f)) as n eqn:En. assert (Hn : offset f + Z.of_nat n <= 512) by lia. clear En H1 H2.
  remember (h + offset f) as p eqn:Ep. assert (Hp : h <= p /\ p + Z.of_nat n <= h + 512) by lia. clear Ep H0 Hn. revert p Hp.
  induction n as [|n IH]; intros p Hp; [by exists []|]. destruct (Hm p) as (b & Eb & _); [lia|]. destruct (IH (p + 1)) as (buf & Hb & Hl); [lia|].
  exists (b :: buf). split; [done|]. cbn. by rewrite Hl.
Qed.

(** Copying a string that fits into a field. *)
Lemma strlcpy_field m f src s :
  ready m -> 0 <= offset f -> offset f + size_of f <= 512 -> Z.of_nat (length s) < size_of f <= 100 ->
  cstr m src s -> 0 < src -> src + Z.of_nat (S (length s)) <= h \/ h + 512 <= src ->
  strlcpy fuel (h + offset f) src (size_of f) m = Ok (Z.of_nat (length s), write m (h + offset f) (s ++ [0])) /\
  ready (write m (h + offset f) (s ++ [0])) /\ same_but h 512 m (write m (h + offset f) (s ++ [0])).
Proof using Hh Hfuel.
  intros Hr H0 H1 Hs Hc Hsrc Hd. destruct (block_bytes m f (proj2 Hr) H0 ltac:(lia) H1) as (buf & Hb & Hl).
  assert (Hchars : Forall is_byte (s ++ [0])).
  { apply Forall_app. split; [|by repeat constructor]. apply (Forall_impl _ _ _ (proj2 Hc)). intros x Hx. unfold is_byte. lia. }
  split; [|apply ready_write; try done; rewrite length_app; cbn [length]; lia].
  rewrite <- (Z2Nat.id (size_of f)) by lia. rewrite (strlcpy_write m fuel (h + offset f) src s buf (Z.to_nat (size_of f))); try done; try lia.
  unfold clip. by rewrite take_ge by lia.
Qed.

Lemma strlcpy_literal m f l :
  ready m -> 0 <= offset f -> offset f + size_of f <= 512 -> Z.of_nat (length (lit l)) < size_of f <= 100 -> bool_decide (l ∈ literals) = true ->
  strlcpy fuel (h + offset f) (lit_at l) (size_of f) m = Ok (Z.of_nat (length (lit l)), write m (h + offset f) (lit l ++ [0])) /\
  ready (write m (h + offset f) (lit l ++ [0])) /\ same_but h 512 m (write m (h + offset f) (lit l ++ [0])).
Proof using Hh Hfuel.
  intros Hr H0 H1 Hs Hin. destruct (literal lit_at m h 512 l (proj1 Hr) Hin) as (Hc & H2 & Hd). by apply strlcpy_field.
Qed.

Lemma snprintf_field m f w s v :
  ready m -> 0 <= offset f -> offset f + size_of f <= 512 -> size_of f = Z.of_nat (S w) -> octal_format w s -> (0 < w < 20)%nat ->
  0 <= v < 4294967296 -> v < 8 ^ Z.of_nat w ->
  snprintf fuel null_string (h + offset f) (size_of f) (cstring s) [v] m = Ok (Z.of_nat w, write m (h + offset f) (octal_text w v ++ [0])) /\
  ready (write m (h + offset f) (octal_text w v ++ [0])) /\ same_but h 512 m (write m (h + offset f) (octal_text w v ++ [0])).
Proof using Hfuel.
  intros Hr H0 H1 Hs Hf Hw Hv Hmax. split.
  - rewrite Hs. apply snprintf_octal; try done; [lia|]. intros a Ha. destruct (proj2 Hr a) as (b & -> & _); [lia|by eexists].
  - apply ready_write; try done; [rewrite length_app, octal_text_length; cbn [length]; lia|]. apply Forall_app. split; [|by repeat constructor].
    apply (Forall_impl _ _ _ (octal_text_digits w v)). intros x Hx. unfold is_byte. lia.
Qed.

Lemma store_field m f v : ready m -> 0 <= offset f -> offset f + size_of f <= 512 -> size_of f = 1 -> is_byte v ->
  store (h + offset f) v m = Ok (tt, write m (h + offset f) [v]) /\ ready (write m (h + offset f) [v]) /\ same_but h 512 m (write m (h + offset f) [v]).
Proof.
  intros Hr H0 H1 Hs Hv. split; [|apply ready_write; try done; [rewrite Hs; cbn; lia|by constructor]].
  destruct (proj2 Hr (h + offset f)) as (b & Eb & _); [lia|]. by rewrite (store_ok _ _ b).
Qed.

Definition header_fields (name : list Z) (type size : Z) : list (field * list Z) :=
  [(h_name, name ++ [0]); (h_mode, octal_text 7 (if type =? USTAR_REGULAR then 420 else 493) ++ [0]);
   (h_uid, lit "0000000" ++ [0]); (h_gid, lit "0000000" ++ [0]); (h_size, octal_text 11 (u32 size) ++ [0]);
   (h_mtime, octal_text 11 1136102400 ++ [0]); (h_typeflag, [type]); (h_magic, lit "ustar" ++ [0]);
   (Field 264 1, [chr "0"]); (Field 263 1, [chr "0"]); (h_gname, lit "root" ++ [0]); (h_uname, lit "root" ++ [0])].

Definition filled (m : bytes) (name : list Z) (type size : Z) : bytes :=
  put_fields (write m h (repeat 0 512)) h (header_fields name type size).

Lemma memset_header m : ready m ->
  memset h 0 sizeof_header m = Ok (h, write m h (repeat 0 512)) /\ ready (write m h (repeat 0 512)) /\ same_but h 512 m (write m h (repeat 0 512)).
Proof using Hh Hfuel.
  intros Hr. split.
  - unfold memset. mstep (assert_block m h sizeof_header ltac:(unfold NULL; lia)). change (Z.to_nat sizeof_header) with 512%nat.
    rewrite (bind_ok _ _ _ tt (write m h (repeat 0 512))); [done|]. apply memset_loop_ok. intros a Ha.
    destruct (proj2 Hr a) as (b & -> & _); [lia|by eexists].
  - destruct (ready_write m (Field 0 512) (repeat 0 512)) as [H1 H2]; try done.
    + apply Forall_forall. intros x Hx%list_elem_of_In%repeat_spec. by subst.
    + cbn [offset] in *. by rewrite Z.add_0_r in *.
Qed.

Lemma same_but_trans p n (m1 m2 m3 : bytes) : same_but p n m1 m2 -> same_but p n m2 m3 -> same_but p n m1 m3.
Proof. intros H1 H2 a Ha. by rewrite H2, H1. Qed.

(** One field of the header is written: E says so, S that the rest stays. *)
Local Ltac field_step E S mx :=
  rewrite (bind_ok _ _ _ _ _ E); cbv beta; clear E;
  match goal with Hs : same_but h 512 ?m ?m1 |- _ => match type of S with same_but h 512 m1 ?m2 =>
    let H := fresh in pose proof (same_but_trans h 512 m m1 m2 Hs S) as H; clear S Hs; set (mx := m2) in * end end.

Lemma fill_header_ok m q name type size :
  ready m -> cstr m q name -> 0 < q -> q + Z.of_nat (S (length name)) <= h \/ h + 512 <= q -> (length name <= 99)%nat ->
  type = USTAR_REGULAR \/ type = USTAR_DIRECTORY ->
  fill_header lit_at null_string fuel q type size h m = Ok (tt, filled m name type size) /\ ready (filled m name type size) /\
  same_but h 512 m (filled m name type size).
Proof using Hh Hfuel.
  intros Hr Hq H0 Hd Hlen Ht. unfold filled, header_fields, put_fields. cbn [foldl fst snd]. unfold fill_header.
  destruct (memset_header m Hr) as (E & R & S0). mstep E. set (m0 := write m h _) in *. clear E Hr.
  assert (Hq0 : cstr m0 q name) by (apply (cstr_agree m); [intros a Ha; apply S0; lia|done]).
  assert (Hsame : same_but h 512 m m0) by done. clear S0.
  assert (Hmode : 0 <= (if type =? USTAR_REGULAR then 420 else 493) < 4294967296 /\ (if type =? USTAR_REGULAR then 420 else 493) < 8 ^ Z.of_nat 7)
    by (change (8 ^ Z.of_nat 7) with 2097152; destruct (type =? USTAR_REGULAR); lia).
  assert (Hsize : 0 <= u32 size < 4294967296 /\ u32 size < 8 ^ Z.of_nat 11)
    by (change (8 ^ Z.of_nat 11) with 8589934592; pose proof (u32_range size); lia).
  assert (Htype : is_byte type) by (destruct Ht as [->| ->]; done).
  destruct (strlcpy_field m0 h_name q name R) as (E & R1 & S1); [done|done|cbn; lia|done|done|done|]. field_step E S1 m1.
  destruct (snprintf_field m1 h_mode 7 "%07o" _ R1 ltac:(done) ltac:(done) eq_refl octal_format_7 ltac:(lia) (proj1 Hmode) (proj2 Hmode)) as (E & R2 & S2). field_step E S2 m2.
  destruct (strlcpy_literal m2 h_uid "0000000" R2) as (E & R3 & S3); [done..|]. field_step E S3 m3.
  destruct (strlcpy_literal m3 h_gid "0000000" R3) as (E & R4 & S4); [done..|]. field_step E S4 m4.
  destruct (snprintf_field m4 h_size 11 "%011o" _ R4 ltac:(done) ltac:(done) eq_refl octal_format_11 ltac:(lia) (proj1 Hsize) (proj2 Hsize)) as (E & R5 & S5). field_step E S5 m5.
  destruct (snprintf_field m5 h_mtime 11 "%011o" 1136102400 R5 ltac:(done) ltac:(done) eq_refl octal_format_11 ltac:(lia) ltac:(lia) ltac:(done)) as (E & R6 & S6). field_step E S6 m6.
  destruct (store_field m6 h_typeflag type R6) as (E & R7 & S7); [done..|]. field_step E S7 m7.
  destruct (strlcpy_literal m7 h_magic "ustar" R7) as (E & R8 & S8); [done..|]. field_step E S8 m8.
  destruct (store_field m8 (Field 264 1) (chr "0") R8) as (E & R9 & S9); [done..|]. 
  replace (h + offset h_version + 1) with (h + offset (Field 264 1)) by (cbn; lia). field_step E S9 m9.
  destruct (store_field m9 (Field 263 1) (chr "0") R9) as (E & R10 & S10); [done..|]. change (h + offset h_version) with (h + offset (Field 263 1)). field_step E S10 m10.
  destruct (strlcpy_literal m10 h_gname "root" R10) as (E & R11 & S11); [done..|]. field_step E S11 m11.
  destruct (strlcpy_literal m11 h_uname "root" R11) as (E & R12 & S12); [done..|]. field_step E S12 m12.
  done.
Qed.

(** ** Reading a header *)

(** How the checks up to the checksum end. *)
Lemma parse_checks m : ready m ->
  (ustar_parse_header lit_at fuel h m = Ok ((NULL, Some (Archived NULL USTAR_EOF 0)), m) /\ forall a, h <= a < h + 512 -> m !! a = Some 0) \/
  (exists msg, ustar_parse_header lit_at fuel h m = Ok ((msg, None), m) /\ 0 < msg) \/
  (parse_octal_field (h + 148) 8 m = Ok ((true, chk_sum m h), m) /\ bytes_at m (h + 257) (lit "ustar" ++ [0])).
Proof using Hh Hfuel.
  intros [Hl Hm]. unfold ustar_parse_header, is_all_zeros. mstep_by done. destruct (is_all_zeros_ok m 512 h Hm) as (z & E & Hz).
  change (Z.to_nat USTAR_HEADER_SIZE) with 512%nat. mstep E. destruct z; [left; split; [done|]; by apply Hz|right]. clear E Hz.
  destruct (block_bytes m h_magic Hm ltac:(done) ltac:(done) ltac:(done)) as (xs & Hxs & Hlen). cbn [offset size_of h_magic] in *.
  destruct (literal lit_at m h 512 "ustar" Hl eq_refl) as ([Hu _] & Hu0 & _).
  destruct (memcmp_same m xs (lit "ustar" ++ [0]) (h + 257) (lit_at "ustar") Hxs Hu Hlen) as (r & E & Hr).
  unfold memcmp. rewrite (bind_assoc (ASSERT (not_null (h + 257) || _))). mstep (assert_block m (h + 257) 6 ltac:(unfold NULL; lia)).
  rewrite bind_assoc. mstep (assert_block m (lit_at "ustar") 6 ltac:(unfold NULL; lia)). change (Z.to_nat 6) with (length (lit "ustar" ++ [0])).
  rewrite (bind_ok _ _ _ _ _ E). cbv beta. destruct (Z.eqb_spec r 0) as [E0|Hne]; cbn [negb].
  2: { left. eexists. split; [reflexivity|]. by eapply (literal_pos lit_at m h 512). }
  apply Hr in E0. subst xs. destruct (Hm (h + 263)) as (v0 & Hv0 & _); [lia|]. destruct (Hm (h + 264)) as (v1 & Hv1 & _); [lia|].
  cbn [offset h_version]. mstep (load_ok _ _ _ Hv0). replace (h + 263 + 1) with (h + 264) by lia.
  assert (Ebad : exists bad, (if negb (v0 =? chr "0") then mret true else v1 ← load (h + 264); mret (negb (v1 =? chr "0"))) m = Ok (bad, m)).
  { destruct (negb (v0 =? chr "0")); [by eexists|]. rewrite (bind_ok _ _ _ _ _ (load_ok _ _ _ Hv1)). by eexists. }
  destruct Ebad as [bad Ebad]. rewrite (bind_ok _ _ _ _ _ Ebad). cbv beta. destruct bad.
  { left. eexists. split; [reflexivity|]. by eapply (literal_pos lit_at m h 512). }
  cbn [offset size_of h_chksum]. unfold parse_octal_field.
  destruct (parse_octal_total m m (Z.to_nat 8) (h + 148) 0 0) as ([ok c] & Ec & _); [lia| |].
  { intros i Hi. split; [|done]. destruct (Hm (h + 148 + i)) as (b & -> & _); [lia|by eexists]. }
  rewrite (bind_ok _ _ _ _ _ Ec). cbv beta. cbn [fst snd]. destruct ok; cbn [negb].
  2: { left. eexists. split; [reflexivity|]. by eapply (literal_pos lit_at m h 512). }
  destruct (calculate_chksum_ok m h Hm) as [Es _]. rewrite (bind_ok _ _ _ _ _ Es). cbv beta. destruct (Z.eqb_spec c (chk_sum m h)) as [->|Hc]; cbn [negb].
  - by right.
  - left. eexists. split; [reflexivity|]. by eapply (literal_pos lit_at m h 512).
Qed.

(** A header that has all its fields right. *)
Record good_header (m : bytes) (name : list Z) (type size : Z) : Prop := {
  gh_ready : ready m;
  gh_name : cstr m h name;
  gh_name_end : m !! (h + 99) = Some 0;
  gh_size : bytes_at m (h + 124) (octal_text 11 size ++ [0]);
  gh_chksum : bytes_at m (h + 148) (octal_text 7 (chk_sum m h) ++ [0]);
  gh_type : m !! (h + 156) = Some type;
  gh_magic : bytes_at m (h + 257) (lit "ustar" ++ [0]);
  gh_version : m !! (h + 263) = Some (chr "0") /\ m !! (h + 264) = Some (chr "0");
  gh_prefix : m !! (h + 345) = Some 0
}.

Lemma parse_good m name type size :
  good_header m name type size -> type = USTAR_REGULAR \/ type = USTAR_DIRECTORY -> 0 <= size < 2147483648 ->
  ~ dangerous name -> name <> [] -> name <> lit ".." -> (length name <= 99)%nat ->
  ustar_parse_header lit_at fuel h m = Ok ((NULL, Some (Archived h type (if type =? USTAR_REGULAR then size else 0))), m).
Proof using Hh Hfuel.
  intros [[Hl Hm] Hn Hne Hs Hc Ht Hmag [Hv0 Hv1] Hpre] Htype Hsize Hd Hn0 Hn2 Hlen.
  unfold ustar_parse_header, is_all_zeros. mstep_by done. destruct (is_all_zeros_ok m 512 h Hm) as (z & E & Hz).
  change (Z.to_nat USTAR_HEADER_SIZE) with 512%nat. mstep E. destruct z.
  { destruct Hmag as [Hmag _]. rewrite (proj1 Hz eq_refl (h + 257)) in Hmag by lia. done. }
  destruct (literal lit_at m h 512 "ustar" Hl eq_refl) as ([Hu _] & Hu0 & _).
  destruct (memcmp_same m (lit "ustar" ++ [0]) (lit "ustar" ++ [0]) (h + 257) (lit_at "ustar") Hmag Hu eq_refl) as (r & Er & Hr).
  unfold memcmp. cbn [offset size_of h_magic h_version h_chksum h_name h_prefix h_typeflag h_size].
  rewrite (bind_assoc (ASSERT (not_null (h + 257) || _))). mstep (assert_block m (h + 257) 6 ltac:(unfold NULL; lia)).
  rewrite bind_assoc. mstep (assert_block m (lit_at "ustar") 6 ltac:(unfold NULL; lia)). change (Z.to_nat 6) with (length (lit "ustar" ++ [0])).
  rewrite (bind_ok _ _ _ _ _ Er). cbv beta. rewrite (proj2 Hr eq_refl). change (negb (0 =? 0)) with false. cbv iota.
  mstep (load_ok _ _ _ Hv0). change (negb (chr "0" =? chr "0")) with false. cbv iota. replace (h + 263 + 1) with (h + 264) by lia.
  rewrite bind_assoc. mstep (load_ok _ _ _ Hv1). rewrite bind_ret. change (negb (chr "0" =? chr "0")) with false. cbv iota.
  destruct (calculate_chksum_ok m h Hm) as [Es Hsum].
  mstep (parse_octal_text m 7 (h + 148) 8 (chk_sum m h) Hc ltac:(lia) ltac:(lia) ltac:(change (8 ^ Z.of_nat 7) with 2097152; lia) ltac:(lia)).
  cbn [fst snd negb]. mstep Es. rewrite Z.eqb_refl. cbn [negb]. replace (h + 0 + 100 - 1) with (h + 99) by lia. mstep (load_ok _ _ _ Hne).
  change (negb (0 =? 0)) with false. cbv iota. rewrite bind_assoc. mstep (load_ok _ _ _ Hpre). rewrite bind_ret. change (negb (0 =? 0)) with false. cbv iota.
  mstep (load_ok _ _ _ Ht). assert (Hk : negb (type =? USTAR_REGULAR) && negb (type =? USTAR_DIRECTORY) = false) by (destruct Htype as [->| ->]; done).
  rewrite Hk. rewrite (bind_ok _ _ _ (inr (if type =? USTAR_REGULAR then size else 0)) m).
  - cbv beta iota. rewrite Z.add_0_r. destruct (strip_ok lit_at m h 512 fuel h name Hl Hn Hh ltac:(lia)) as (q & Eq & _ & _ & _ & Hq).
    mstep Eq. by rewrite (Hq Hd Hn0 Hn2).
  - destruct (type =? USTAR_REGULAR); [|done].
    mstep (parse_octal_text m 11 (h + 124) 12 size Hs ltac:(lia) ltac:(lia) ltac:(change (8 ^ Z.of_nat 11) with 8589934592; lia) ltac:(lia)).
    cbn [fst snd negb]. by rewrite (proj2 (Z.ltb_ge INT_MAX size)) by (unfold INT_MAX; lia).
Qed.

(** ** Making a header *)

Definition made (m : bytes) (name : list Z) (type size : Z) : bytes :=
  write (filled m name type size) (h + 148) (octal_text 7 (chk_sum (filled m name type size) h) ++ [0]).

Lemma made_good m name type size :
  ready m -> ready (filled m name type size) -> Forall (fun c => 0 < c < 256) name -> (length name <= 99)%nat -> 0 <= size < 2147483648 ->
  good_header (made m name type size) name type size /\ same_but h 512 (filled m name type size) (made m name type size).
Proof using Hh Hfuel.
  intros Hr Hr1 Hname Hlen Hsize. destruct (calculate_chksum_ok (filled m name type size) h (proj2 Hr1)) as [_ Hsum].
  set (sum := chk_sum (filled m name type size) h) in *. set (rest := tail (header_fields name type size) ++ [(h_chksum, octal_text 7 sum ++ [0])]).
  assert (Emade : made m name type size = put_fields (write m h (repeat 0 512)) h ((h_name, name ++ [0]) :: rest)).
  { unfold made, filled, put_fields, rest. cbn [header_fields tail app foldl fst snd offset h_chksum]. done. }
  assert (Hrest : fields_ok rest).
  { unfold rest, header_fields. cbn [tail app].
    repeat (split; [cbn [fst snd]; rewrite ?length_app, ?octal_text_length; vm_compute; congruence|split; [repeat constructor|]]). done. }
  assert (Hok : fields_ok ((h_name, name ++ [0]) :: rest)).
  { cbn [fields_ok fst snd]. split_and!; [rewrite length_app; cbn; lia| |done]. unfold rest. repeat constructor. }
  assert (Hl7 : Z.of_nat (length (octal_text 7 sum ++ [0])) <= size_of h_chksum) by (rewrite length_app, octal_text_length; done).
  assert (Hb7 : Forall is_byte (octal_text 7 sum ++ [0])).
  { apply Forall_app. split; [|by repeat constructor]. apply (Forall_impl _ _ _ (octal_text_digits 7 sum)). intros x Hx. unfold is_byte. lia. }
  destruct (ready_write (filled m name type size) h_chksum (octal_text 7 sum ++ [0]) Hr1 ltac:(done) ltac:(done) Hl7 Hb7) as [Hr2 Hsame].
  split; [|exact Hsame].
  assert (Hat : forall i f bs, ((h_name, name ++ [0]) :: rest) !! i = Some (f, bs) -> bytes_at (made m name type size) (h + offset f) bs)
    by (intros i f bs Hf; rewrite Emade; apply put_fields_at; [done|by apply (list_elem_of_lookup_2 _ i)]).
  split.
  - exact Hr2.
  - split; [|done]. specialize (Hat 0%nat h_name (name ++ [0]) eq_refl). cbn [offset h_name] in Hat. by rewrite Z.add_0_r in Hat.
  - rewrite Emade. unfold put_fields. cbn [foldl fst snd]. fold (put_fields (write (write m h (repeat 0 512)) (h + offset h_name) (name ++ [0])) h rest).
    rewrite put_fields_out; [|exact Hrest|unfold rest, header_fields; cbn [tail app]; repeat (apply Forall_cons_2; [cbn; lia|]); constructor].
    cbn [offset h_name]. rewrite Z.add_0_r. destruct (decide (length name = 99)%nat) as [E99|Hlt].
    + rewrite write_in by (rewrite length_app; cbn [length]; lia). replace (Z.to_nat (h + 99 - h)) with (length name + 0)%nat by lia. by rewrite lookup_app_r, Nat.add_0_r, Nat.sub_diag by lia.
    + rewrite write_out by (rewrite length_app; cbn [length]; lia). rewrite write_in by (rewrite repeat_length; lia). by replace (Z.to_nat (h + 99 - h)) with 99%nat by lia.
  - pose proof (Hat 4%nat h_size (octal_text 11 (u32 size) ++ [0]) eq_refl) as Hs. by rewrite u32_small in Hs by lia.
  - replace (chk_sum (made m name type size) h) with sum; [exact (Hat 12%nat h_chksum _ eq_refl)|]. symmetry. apply chk_sum_field.
    intros a Ha. apply write_out. rewrite length_app, octal_text_length. cbn [length]. lia.
  - exact (proj1 (Hat 6%nat h_typeflag [type] eq_refl)).
  - exact (Hat 7%nat h_magic _ eq_refl).
  - split; [exact (proj1 (Hat 9%nat (Field 263 1) [chr "0"] eq_refl))|exact (proj1 (Hat 8%nat (Field 264 1) [chr "0"] eq_refl))].
  - rewrite Emade, put_fields_out; [|exact Hok|].
    2: { constructor; [right; cbn; lia|]. unfold rest, header_fields. cbn [tail app].
         repeat (apply Forall_cons_2; [cbn; lia|]). constructor. }
    rewrite write_in by (rewrite repeat_length; lia). by replace (Z.to_nat (h + 345 - h)) with 345%nat by lia.
Qed.

Lemma make_header_ok m w p name type size :
  ready m -> cstr m p name -> 0 < p -> p + Z.of_nat (S (length name)) <= h \/ h + 512 <= p -> (length name + 3 < fuel)%nat ->
  type = USTAR_REGULAR \/ type = USTAR_DIRECTORY -> (length (safe_name name) <= 99)%nat ->
  ustar_make_header lit_at null_string fuel p type size h (m, w) = Ok (true, (made m (safe_name name) type size, w)) /\
  ready (filled m (safe_name name) type size) /\ same_but h 512 m (filled m (safe_name name) type size).
Proof using Hh Hfuel.
  intros Hr Hp H0 Hd Hf Ht Hlen. destruct (strip_ok lit_at m h 512 fuel p name (proj1 Hr) Hp H0 Hf) as (q & Eq & Hq & Hq0 & Hwhere & _).
  assert (Hqd : q + Z.of_nat (S (length (safe_name name))) <= h \/ h + 512 <= q).
  { destruct Hwhere as [[-> ->]|(k & Hk & -> & Hk2)]; [by apply (literal lit_at m h 512 "." (proj1 Hr) eq_refl)|lia]. }
  destruct (fill_header_ok m q (safe_name name) type size Hr Hq Hq0 Hqd Hlen Ht) as (E & Hr1 & Hs). split; [|done].
  destruct (calculate_chksum_ok (filled m (safe_name name) type size) h (proj2 Hr1)) as [Ec Hsum].
  unfold ustar_make_header. mstep_by done. rewrite (bind_ok _ _ _ tt (m, w)) by (destruct Ht as [->| ->]; done). cbv beta.
  rewrite (bind_ok _ _ _ q (m, w)) by (unfold on_bytes; cbn [fst]; by rewrite Eq). cbv beta.
  rewrite (bind_ok _ _ _ (Z.of_nat (length (safe_name name))) (m, w))
    by (unfold on_bytes; cbn [fst]; by rewrite (strlen_ok m q (safe_name name) fuel) by (done || unfold NULL; lia)).
  cbv beta. rewrite (proj2 (Z.ltb_ge 99 _)) by lia.
  rewrite (bind_ok _ _ _ tt (filled m (safe_name name) type size, w)) by (unfold on_bytes; cbn [fst]; by rewrite E). cbv beta.
  rewrite (bind_ok _ _ _ (chk_sum (filled m (safe_name name) type size) h) (filled m (safe_name name) type size, w))
    by (unfold on_bytes; cbn [fst]; by rewrite Ec). cbv beta.
  destruct (snprintf_field _ h_chksum 7 "%07o" (chk_sum (filled m (safe_name name) type size) h) Hr1 ltac:(done) ltac:(done) eq_refl octal_format_7 ltac:(lia) ltac:(lia)
    ltac:(change (8 ^ Z.of_nat 7) with 2097152; lia)) as (E2 & _).
  rewrite (bind_ok _ _ _ (Z.of_nat 7) (made m (safe_name name) type size, w)) by (unfold on_bytes; cbn [fst]; by rewrite E2). done.
Qed.

Lemma make_header_long m w p name type size :
  ready m -> cstr m p name -> 0 < p -> (length name + 3 < fuel)%nat -> Z.of_nat (length name) < 2147483648 ->
  type = USTAR_REGULAR \/ type = USTAR_DIRECTORY -> (99 < length (safe_name name))%nat ->
  ustar_make_header lit_at null_string fuel p type size h (m, w)
  = Ok (false, (m, w ++ safe_name name ++ lit ": file name too long" ++ [10])).
Proof using Hh Hfuel.
  intros Hr Hp H0 Hf Hmax Ht Hlen. destruct (strip_ok lit_at m h 512 fuel p name (proj1 Hr) Hp H0 Hf) as (q & Eq & Hq & Hq0 & Hwhere & _).
  assert (Hle : (length (safe_name name) <= length name)%nat).
  { destruct Hwhere as [[_ E]|(k & Hk & _ & Hk2)]; [rewrite E in Hlen; cbn in Hlen; lia|lia]. }
  unfold ustar_make_header. mstep_by done. rewrite (bind_ok _ _ _ tt (m, w)) by (destruct Ht as [->| ->]; done). cbv beta.
  rewrite (bind_ok _ _ _ q (m, w)) by (unfold on_bytes; cbn [fst]; by rewrite Eq). cbv beta.
  rewrite (bind_ok _ _ _ (Z.of_nat (length (safe_name name))) (m, w))
    by (unfold on_bytes; cbn [fst]; by rewrite (strlen_ok m q (safe_name name) fuel) by (done || unfold NULL; lia)).
  cbv beta. rewrite (proj2 (Z.ltb_lt 99 _)) by lia.
  set (msg := lit ": file name too long" ++ [10]). assert (Hmsg : Forall (fun c => c <> 0 /\ c <> chr "%") msg) by (by repeat constructor).
  rewrite (bind_ok _ _ _ tt ((m, w ++ safe_name name ++ msg) : console)); [done|].
  destruct fuel as [|f]; [lia|]. change (lit "%s: file name too long" ++ [10; 0]) with (chr "%" :: chr "s" :: msg ++ [0]). unfold printf.
  rewrite (vprintf_conversion _ _ _ _ (chr "s") (msg ++ [0]) _ (Conversion 0 0 (-1) INT) (chr "s") (msg ++ [0]) [q]); [|done..].
  mstep (convert_s m w null_string (vprintf putchar fst null_string f) f q (safe_name name) [] ltac:(unfold NULL; lia) Hq ltac:(lia) ltac:(lia)).
  replace f with (length msg + (f - length msg))%nat by (change (length msg) with 21%nat; lia).
  pose proof (printf_plain (f - length msg) null_string msg [0] [] m (w ++ safe_name name) Hmsg) as Hpl. unfold printf in Hpl. rewrite Hpl.
  assert (Hf1 : exists f', (f - length msg)%nat = S f') by (exists (f - length msg - 1)%nat; change (length msg) with 21%nat; lia).
  destruct Hf1 as [f' ->]. cbn [vprintf peek]. rewrite <- app_assoc. reflexivity.
Qed.

End Header.

(** ** The properties *)

(** C17: A header made for a file is read back: the name without dangerous
    prefixes, the type and the size of a regular file; making it changes the 512 bytes
    of the header only.  A name of more than 99 characters is refused with a
    message.  The name that is kept never starts with "/", "./" or "../" and is neither empty
    nor "..". *)
Theorem ustar_roundtrip lit_at null_string fuel h (m : bytes) w p name type size :
  ready lit_at h m -> 0 < h -> (120 + length name <= fuel)%nat -> Z.of_nat (length name) < 2147483648 ->
  cstr m p name -> 0 < p -> p + Z.of_nat (S (length name)) <= h \/ h + 512 <= p ->
  type = USTAR_REGULAR \/ type = USTAR_DIRECTORY -> 0 <= size < 2147483648 ->
  ((length (safe_name name) <= 99)%nat -> exists m',
     ustar_make_header lit_at null_string fuel p type size h (m, w) = Ok (true, (m', w)) /\ same_but h 512 m m' /\
     ustar_parse_header lit_at fuel h m' = Ok ((NULL, Some (Archived h type (if type =? USTAR_REGULAR then size else 0))), m') /\
     cstr m' h (safe_name name)) /\
  ((99 < length (safe_name name))%nat ->
     ustar_make_header lit_at null_string fuel p type size h (m, w)
     = Ok (false, (m, w ++ safe_name name ++ lit ": file name too long" ++ [10]))) /\
  ~ dangerous (safe_name name) /\ safe_name name <> [] /\ safe_name name <> lit "..".
Proof.
  intros Hr Hh Hf Hmax Hp H0 Hd Ht Hs. destruct (safe_name_safe name) as (N1 & N2 & N3). split_and!; try done.
  - intros Hlen. exists (made h m (safe_name name) type size).
    destruct (make_header_ok lit_at null_string h fuel Hh ltac:(lia) m w p name type size Hr Hp H0 Hd ltac:(lia) Ht Hlen) as (E & Hr1 & S1).
    assert (Hchars : Forall (fun c => 0 < c < 256) (safe_name name)).
    { destruct (strip_ok lit_at m h 512 fuel p name (proj1 Hr) Hp H0 ltac:(lia)) as (q & _ & [_ Hq] & _). done. }
    destruct (made_good lit_at h fuel Hh ltac:(lia) m (safe_name name) type size Hr Hr1 Hchars Hlen Hs) as [Hg S2].
    split_and!; [done|by apply (same_but_trans h 512 m _ _ S1)| |by apply (gh_name _ _ _ _ _ _ Hg)].
    by apply (parse_good lit_at h fuel Hh ltac:(lia) _ (safe_name name)).
  - intros Hlen. by apply (make_header_long lit_at null_string h fuel Hh); try lia.
Qed.

(** A damaged header is noticed: when a header that is read successfully has one byte outside
    the checksum field changed, whichever it is, reading it gives an error message. *)
Theorem ustar_detects_changes lit_at fuel h (m m1 : bytes) a j old new :
  ready lit_at h m -> 0 < h -> (120 <= fuel)%nat ->
  ustar_parse_header lit_at fuel h m = Ok ((NULL, Some a), m1) -> a_type a <> USTAR_EOF ->
  0 <= j < 512 -> in_chksum_field j = false -> m !! (h + j) = Some old -> new <> old -> is_byte new ->
  exists msg, ustar_parse_header lit_at fuel h (<[h + j := new]> m) = Ok ((msg, None), <[h + j := new]> m) /\ msg <> NULL.
Proof.
  intros Hr Hh Hf E Ha Hj Hjf Hold Hne Hnew. set (m' := <[h + j := new]> m).
  destruct (ready_write lit_at h m (Field j 1) [new] Hr) as [Hr' _]; try done; try (cbn; lia); [by apply Forall_singleton|].
  change (write m (h + offset (Field j 1)) [new]) with m' in Hr'.
  destruct (parse_checks lit_at h fuel Hh Hf m Hr) as [[E0 _]|[(msg & E0 & Hmsg)|[Hc Hmag]]].
  - rewrite E0 in E. injection E as <- _. done.
  - rewrite E0 in E. discriminate E.
  - destruct (parse_checks lit_at h fuel Hh Hf m' Hr') as [[_ Hz]|[(msg & E' & Hmsg)|[Hc' _]]].
    + destruct Hmag as (M0 & M1 & _). pose proof (Hz (h + 257) ltac:(lia)) as Z0. pose proof (Hz (h + 257 + 1) ltac:(lia)) as Z1. unfold m' in Z0, Z1.
      destruct (decide (j = 257)) as [->|Hj7].
      * rewrite lookup_insert_ne, M1 in Z1 by lia. discriminate Z1.
      * rewrite lookup_insert_ne, M0 in Z0 by lia. discriminate Z0.
    + exists msg. split; [done|unfold NULL; lia].
    + exfalso. unfold in_chksum_field in Hjf. cbn [offset size_of h_chksum] in Hjf.
      destruct (parse_octal_total m m' (Z.to_nat 8) (h + 148) 0 0) as (r & P1 & P2); [lia| |].
      { intros i Hi. destruct (proj2 Hr (h + 148 + i)) as (b & Eb & _); [lia|]. split; [by eexists|]. unfold m'. apply lookup_insert_ne. lia. }
      unfold parse_octal_field in Hc, Hc'. rewrite P1 in Hc. rewrite P2 in Hc'. injection Hc as ->. injection Hc' as Hsum.
      unfold m' in Hsum. rewrite (chk_sum_change m h j old new) in Hsum by done. lia.
Qed.

(** ** Witnesses *)

Fixpoint place (s : string) (l : list string) (a : Z) : Z :=
  match l with [] => 1 | x :: l => if String.eqb s x then a else place s l (a + 40) end.

Definition demo_at (s : string) : Z := place s literals 1000.

(** The literals, the name "/../src/a.c" at 200 and a block of 512 bytes at 10000. *)
Definition demo_archive : bytes :=
  write (foldr (fun s m => write m (demo_at s) (lit s ++ [0])) (write ∅ 200 (lit "/../src/a.c" ++ [0])) literals) 10000 (replicate 512 7).

Lemma demo_ready : ready demo_at 10000 demo_archive.
Proof.
  split.
  - unfold literals_ok, literals. repeat (apply Forall_cons_2; [split; [split; [vm_compute; tauto|repeat constructor]|split; [done|by left]]|]). constructor.
  - intros a Ha. unfold demo_archive. rewrite write_in by (rewrite length_replicate; lia). exists 7. split; [|done].
    apply lookup_replicate. split; [done|lia].
Qed.

Lemma ustar_roundtrip_witness : exists m',
  ustar_make_header demo_at 0 200 200 USTAR_REGULAR 1234 10000 (demo_archive, []) = Ok (true, (m', [])) /\
  ustar_parse_header demo_at 200 10000 m' = Ok ((NULL, Some (Archived 10000 USTAR_REGULAR 1234)), m') /\ cstr m' 10000 (lit "src/a.c").
Proof.
  destruct (ustar_roundtrip demo_at 0 200 10000 demo_archive [] 200 (lit "/../src/a.c") USTAR_REGULAR 1234 demo_ready) as (H & _);
    [lia|vm_compute; lia|done|split; [vm_compute; tauto|repeat constructor]|lia|left; vm_compute; discriminate|by left|lia|].
  destruct H as (m' & E & _ & E2 & Hn); [vm_compute; lia|]. exists m'. split; [exact E|]. split; [exact E2|exact Hn].
Defined.

Lemma ustar_detects_changes_witness : exists (m : bytes) msg,
  ustar_parse_header demo_at 200 10000 (<[10000 + 3 := 65]> m) = Ok ((msg, None), <[10000 + 3 := 65]> m) /\ msg <> NULL.
Proof.
  destruct (make_header_ok demo_at 0 10000 200 ltac:(lia) ltac:(lia) demo_archive [] 200 (lit "/../src/a.c") USTAR_REGULAR 1234 demo_ready) as (_ & Hr & _);
    [split; [vm_compute; tauto|repeat constructor]|lia|left; vm_compute; discriminate|vm_compute; lia|by left|vm_compute; lia|].
  destruct (made_good demo_at 10000 200 ltac:(lia) ltac:(lia) demo_archive (lit "src/a.c") USTAR_REGULAR 1234 demo_ready Hr) as [Hg _];
    [repeat constructor|vm_compute; lia|lia|].
  exists (made 10000 demo_archive (lit "src/a.c") USTAR_REGULAR 1234). set (m := made _ _ _ _ _) in *. clearbody m.
  apply (ustar_detects_changes demo_at 200 10000 m m (Archived 10000 USTAR_REGULAR 1234) 3 (chr "/") 65); try lia; try done.
  - apply (gh_ready _ _ _ _ _ _ Hg).
  - apply (parse_good demo_at 10000 200 ltac:(lia) ltac:(lia) m (lit "src/a.c") USTAR_REGULAR 1234 Hg); [by left|lia| |done|done|vm_compute; lia].
    intros [[k E]|[[k E]|[k E]]]; vm_compute in E; discriminate E.
  - destruct (gh_name _ _ _ _ _ _ Hg) as [(_ & _ & _ & Hx & _) _]. by replace (10000 + 3) with (10000 + 1 + 1 + 1) by lia.
Defined.
