(* ===== verification/Paging.v ===== *)
(** * The kernel's own page directory: [paging_init] of [threads/init.c]

    [start] and [end_kernel_text] are the bounds of the kernel's code, set by the
    linker.  [walk] is what the processor does with a directory; the theorems
    say that it maps every page of physical memory at [PHYS_BASE], read-only
    where the code is. *)

From S2P Require Import Prelude ListModel Bitmap BitmapThms Page PageThms PageDir PageProps.

Section Paging.
Context (init_ram_pages start end_kernel_text : Z).

Definition in_kernel_text (vaddr : Z) : bool := (start <=? vaddr) && (vaddr <? end_kernel_text).

(** The loop, from PAGE on for N pages; PT is the page table in use. *)
Fixpoint paging_loop (n : nat) (pd pt page : Z) : V unit :=
  match n with
  | O => mret tt
  | S n =>
      vaddr ← ptov (u32 (page * PGSIZE));
      let pde_idx := pd_no vaddr in
      let pte_idx := pt_no vaddr in
      e ← rd (pd + 4 * pde_idx);
      pt ← (if e =? 0 then
              pt ← palloc_get_page (Z.lor PAL_ASSERT PAL_ZERO);
              e ← pde_create pt;
              wr (pd + 4 * pde_idx) e;;
              mret pt
            else mret pt);
      e ← pte_create_kernel vaddr (negb (in_kernel_text vaddr));
      wr (pt + 4 * pte_idx) e;;
      paging_loop n pd pt (page + 1)
  end.

(** The result is the value of [init_page_dir]. *)
Definition paging_init : V Z :=
  pd ← palloc_get_page (Z.lor PAL_ASSERT PAL_ZERO);
  paging_loop (Z.to_nat init_ram_pages) pd NULL 0;;
  p ← vtop pd;
  s ← get;
  put (VM (kernel_pool s) (user_pool s) (words s) p);;
  mret pd.

(** ** What the processor makes of a directory *)

(** The physical address of VA and whether it can be written. *)
Definition walk (w : Z -> Z) (pd va : Z) : option (Z * bool) :=
  let pde := w (pd + 4 * pd_no va) in
  if pde mod 2 =? 0 then None else
  let pte := w (pde - pde mod 4096 + PHYS_BASE + 4 * pt_no va) in
  if pte mod 2 =? 0 then None else Some (pte - pte mod 4096 + va mod 4096, negb (pte / 2 mod 2 =? 0)).

(** K pages of the kernel pool are free. *)
Definition room (s : vm) (k : nat) : Prop := exists l, NoDup l /\ length l = k /\
  Forall (fun i => 0 <= i < bit_cnt (used_map (kernel_pool s)) /\ bit (used_map (kernel_pool s)) i = false) l.

(** A free page of zeros is handed out; the others stay free. *)
Lemma get_zero_page s k : pools_ok s -> room s (S k) ->
  exists p s', palloc_get_page (Z.lor PAL_ASSERT PAL_ZERO) s = Ok (p, s') /\ pools_ok s' /\ room s' k /\ kpage s' p /\
    (forall q, kpage s q -> kpage s' q /\ q <> p) /\
    words s' = fill p 4096 0 (words s) /\ base (kernel_pool s') = base (kernel_pool s) /\ user_pool s' = user_pool s.
Proof.
  intros Hs (l & Hnd & Hlen & Hl). pose proof (ps_kernel _ Hs) as Hp. unfold palloc_get_page.
  destruct (palloc_get_multiple_ok (Z.lor PAL_ASSERT PAL_ZERO) 1 s Hp ltac:(lia) ltac:(lia)) as [[Hno _]|(i & b & (R1 & R2 & R3 & _) & Hu & E)].
  { destruct l as [|i l]; [done|]. apply Forall_cons in Hl as [[Hi Hb] _]. exfalso. apply (Hno i); [lia|change (i + 1 <= bit_cnt (used_map (kernel_pool s))); lia|]. intros j Hj. by replace j with i by lia. }
  change (get_pool (flag (Z.lor PAL_ASSERT PAL_ZERO) PAL_USER) s) with (kernel_pool s) in *.
  change (flag (Z.lor PAL_ASSERT PAL_ZERO) PAL_USER) with false in *. set (p := base (kernel_pool s) + 4096 * i) in *.
  set (s' := taken false b (Z.lor PAL_ASSERT PAL_ZERO) p 1 s) in *. exists p, s'.
  assert (Ek : kernel_pool s' = Pool b (base (kernel_pool s))) by reflexivity.
  assert (Hs' : pools_ok s') by (apply (pools_map false b s); [done|apply Hu|apply Hu|done|done]).
  assert (Hcnt : bit_cnt b = bit_cnt (used_map (kernel_pool s))) by apply Hu.
  split_and!; try done.
  - assert (Hkeep : forall j, j ∈ l -> j <> i -> 0 <= j < bit_cnt b /\ bit b j = false).
    { rewrite Forall_forall in Hl. intros j Hj Hne. destruct (Hl j Hj) as [Hr Hb]. rewrite Hcnt. split; [done|].
      rewrite (upd_bit _ _ _ _ Hu) by lia. by rewrite in_range_false by lia. }
    destruct (decide (i ∈ l)) as [Hin|Hout].
    + apply list_elem_of_split in Hin as (us & vs & ->). rewrite <- Permutation_middle in Hnd. apply NoDup_cons in Hnd as [Hi Hnd].
      exists (us ++ vs). split_and!; [done|rewrite length_app in *; cbn [length] in Hlen; lia|]. rewrite Ek. cbn [used_map]. apply Forall_forall.
      intros j Hj. apply Hkeep; [rewrite elem_of_app, elem_of_cons in *; tauto|]. by intros ->.
    + destruct l as [|j l]; [done|]. apply NoDup_cons in Hnd as [_ Hnd]. exists l. split_and!; [done|by injection Hlen|]. rewrite Ek. cbn [used_map].
      apply Forall_forall. intros x Hx. apply Hkeep; [by right|]. intros ->. apply Hout. by right.
  - exists i. unfold page_at. rewrite Ek. cbn [used_map base]. rewrite Hcnt. split; [split; [lia|done]|].
    rewrite (upd_bit _ _ _ _ Hu) by lia. by rewrite in_range_true by lia.
  - intros q (j & [Hj ->] & Hb). assert (Hne : j <> i) by (intros ->; specialize (R3 i ltac:(lia)); congruence). split; [|unfold p; lia].
    exists j. unfold page_at. rewrite Ek. cbn [used_map base]. rewrite Hcnt. split; [done|]. rewrite (upd_bit _ _ _ _ Hu) by lia. by rewrite in_range_false by lia.
Qed.

(** ** The loop *)

Definition vaddr_of (page : Z) : Z := PHYS_BASE + 4096 * page.
Definition kernel_entry (page : Z) : Z := 4096 * page + (if in_kernel_text (vaddr_of page) then 1 else 3).

(** The directory when PAGE pages are mapped through the tables [pts]. *)
Record paged (s : vm) (pd : Z) (pts : list Z) (page : Z) : Prop := {
  pg_pools : pools_ok s;
  pg_pd : kpage s pd;
  pg_pts : Forall (kpage s) pts;
  pg_nodup : NoDup (pd :: pts);
  pg_len : Z.of_nat (length pts) = (page + 1023) / 1024;
  pg_pde i : 0 <= i < 1024 ->
    words s (pd + 4 * i) = match (if 768 <=? i then pts !! Z.to_nat (i - 768) else None) with Some t => t - PHYS_BASE + 7 | None => 0 end;
  pg_pte i t j : pts !! i = Some t -> 0 <= j < 1024 ->
    words s (t + 4 * j) = if 1024 * Z.of_nat i + j <? page then kernel_entry (1024 * Z.of_nat i + j) else 0
}.

Lemma vaddr_index page : 0 <= page < 262144 ->
  pd_no (vaddr_of page) = 768 + page / 1024 /\ pt_no (vaddr_of page) = page mod 1024.
Proof.
  intros Hp. rewrite pd_no_div, pt_no_mod. unfold vaddr_of, PHYS_BASE. pose proof (Z.div_mod page 1024 ltac:(lia)).
  pose proof (Z.mod_pos_bound page 1024 ltac:(lia)). split.
  - symmetry. apply Z.div_unique with (4096 * (page mod 1024)); lia.
  - replace ((3221225472 + 4096 * page) / 4096) with (page + 768 * 1024) by (apply Z.div_unique with 0; lia). apply Z.mod_add. lia.
Qed.

Lemma vaddr_ok (s : vm) page : 0 <= page < 262144 -> ptov (u32 (page * PGSIZE)) s = Ok (vaddr_of page, s).
Proof.
  intros Hp. unfold PGSIZE. rewrite u32_small by lia. unfold ptov. rewrite (bind_ok _ _ _ tt s).
  - unfold mret, M_ret, vaddr_of, PHYS_BASE. rewrite u32_small by lia. do 2 f_equal. lia.
  - apply ASSERT_true. unfold PHYS_BASE. lia.
Qed.

Lemma kernel_entry_create (s : vm) page : 0 <= page < 262144 ->
  pte_create_kernel (vaddr_of page) (negb (in_kernel_text (vaddr_of page))) s = Ok (kernel_entry page, s).
Proof.
  intros Hp. unfold pte_create_kernel. assert (Ha : vaddr_of page mod 4096 = 0).
  { unfold vaddr_of, PHYS_BASE. replace (3221225472 + 4096 * page) with ((786432 + page) * 4096) by lia. apply Z.mod_mul. lia. }
  rewrite pg_ofs_mod, Ha. rewrite (bind_ok _ _ _ tt s) by done. cbv beta. unfold vtop. rewrite bind_assoc, (bind_ok _ _ _ tt s).
  - cbv beta. rewrite bind_ret. unfold mret, M_ret, kernel_entry, PTE_P, PTE_W. do 2 f_equal.
    replace (vaddr_of page - PHYS_BASE) with (4096 * page) by (unfold vaddr_of; lia).
    assert (Hal : (4096 * page) mod 4096 = 0) by (rewrite Z.mul_comm; apply Z.mod_mul; lia).
    rewrite <- Z.lor_assoc. destruct (in_kernel_text (vaddr_of page)); cbn [negb]; (rewrite lor_aligned by done; done).
  - apply ASSERT_true. unfold is_kernel_vaddr, vaddr_of. lia.
Qed.

Lemma pde_create_ok (s : vm) pt : pt mod 4096 = 0 -> PHYS_BASE <= pt -> pde_create pt s = Ok (pt - PHYS_BASE + 7, s).
Proof.
  intros Ha Hl. unfold pde_create. rewrite pg_ofs_mod, Ha. rewrite (bind_ok _ _ _ tt s) by done. cbv beta. unfold vtop.
  rewrite bind_assoc, (bind_ok _ _ _ tt s).
  - cbv beta. rewrite bind_ret. unfold mret, M_ret, PTE_P, PTE_W, PTE_U. do 2 f_equal. rewrite <- !Z.lor_assoc. apply lor_aligned; [by apply phys_aligned|done].
  - apply ASSERT_true. unfold is_kernel_vaddr. lia.
Qed.

(** A word in a page that is neither the directory nor a table. *)
Lemma word_ne p q i j : p mod 4096 = 0 -> q mod 4096 = 0 -> 0 <= i < 1024 -> 0 <= j < 1024 -> p <> q \/ i <> j -> p + 4 * i <> q + 4 * j.
Proof. intros Hp Hq Hi Hj Hne E. destruct (words_apart p q i j Hp Hq Hi Hj E). destruct Hne; done. Qed.

Lemma fill_out p n v w a : a < p \/ p + n <= a -> fill p n v w a = w a.
Proof. intros Ha. unfold fill. by destruct (Z.leb_spec p a), (Z.ltb_spec a (p + n)); try lia. Qed.

Lemma fill_word p q v w i : p mod 4096 = 0 -> q mod 4096 = 0 -> 0 <= i < 1024 ->
  fill p 4096 v w (q + 4 * i) = if q =? p then 16843009 * v else w (q + 4 * i).
Proof.
  intros Hp Hq Hi. pose proof (Z.div_mod p 4096 ltac:(lia)). pose proof (Z.div_mod q 4096 ltac:(lia)). unfold fill.
  destruct (Z.eqb_spec q p) as [->|Hne].
  - by rewrite (proj2 (Z.leb_le _ _)), (proj2 (Z.ltb_lt _ _)) by lia.
  - destruct (Z.leb_spec p (q + 4 * i)), (Z.ltb_spec (q + 4 * i) (p + 4096)); cbn [andb]; try done. lia.
Qed.

Lemma kpage_aligned s q : pools_ok s -> kpage s q -> q mod 4096 = 0 /\ PHYS_BASE <= q /\ q + 4096 <= 4294967296.
Proof. intros Hs. apply kpage_range. apply Hs. Qed.

Lemma kpage_store s a v q : kpage s q -> kpage (store_word a v s) q.
Proof. done. Qed.

(** The entry of the next page is written into the last table. *)
Lemma entry_step s pd pts page t :
  paged s pd pts page -> 0 <= page < 262144 -> page mod 1024 <> 0 -> pts !! Z.to_nat (page / 1024) = Some t ->
  paged (store_word (t + 4 * (page mod 1024)) (kernel_entry page) s) pd pts (page + 1).
Proof.
  intros [Hs Hpd Hpts Hnd Hlen Hpde Hpte] Hp Hm Ht. pose proof (Z.div_mod page 1024 ltac:(lia)) as Hdm. pose proof (Z.mod_pos_bound page 1024 ltac:(lia)) as Hmb.
  assert (Hkt : kpage s t) by (rewrite Forall_forall in Hpts; apply Hpts; by apply list_elem_of_lookup_2 in Ht).
  destruct (kpage_aligned s t Hs Hkt) as (At & _). destruct (kpage_aligned s pd Hs Hpd) as (Apd & _).
  apply NoDup_cons in Hnd as [Hnpd Hnd]. assert (Htpd : pd <> t) by (intros ->; apply Hnpd; by apply list_elem_of_lookup_2 in Ht).
  split; try done.
  - destruct Hs as [K U A]. by split.
  - by apply NoDup_cons.
  - rewrite Hlen. transitivity (page / 1024 + 1); [symmetry|]; [apply Z.div_unique with (page mod 1024 - 1); lia|].
    apply Z.div_unique with (page mod 1024); lia.
  - intros i Hi. rewrite <- (Hpde i Hi). cbn [store_word set_words words]. rewrite (proj2 (Z.eqb_neq _ _)); [done|]. apply word_ne; try done. by left.
  - intros i t' j Hi Hj. cbn [store_word set_words words]. assert (Hkt' : kpage s t') by (rewrite Forall_forall in Hpts; apply Hpts; by apply list_elem_of_lookup_2 in Hi).
    destruct (kpage_aligned s t' Hs Hkt') as (At' & _). destruct (decide (i = Z.to_nat (page / 1024) /\ j = page mod 1024)) as [[-> ->]|Hne].
    + assert (t' = t) as -> by congruence. rewrite Z.eqb_refl, Z2Nat.id by (apply Z.div_pos; lia). rewrite <- Hdm. by rewrite (proj2 (Z.ltb_lt _ _)) by lia.
    + rewrite (proj2 (Z.eqb_neq _ _)).
      2: { apply word_ne; try done. destruct (decide (t' = t)) as [->|]; [right|by left]. intros ->. apply Hne. split; [|done].
           by apply (NoDup_lookup pts i (Z.to_nat (page / 1024)) t). }
      rewrite (Hpte i t' j Hi Hj). assert (1024 * Z.of_nat i + j <> page).
      { intros E. apply Hne. assert (page / 1024 = Z.of_nat i) by (symmetry; apply Z.div_unique with j; lia). split; [lia|]. lia. }
      destruct (Z.ltb_spec (1024 * Z.of_nat i + j) page), (Z.ltb_spec (1024 * Z.of_nat i + j) (page + 1)); try done; lia.
Qed.

(** A new table is entered in the directory. *)
Lemma table_step s pd pts page t s1 :
  paged s pd pts page -> 0 <= page < 262144 -> page mod 1024 = 0 ->
  pools_ok s1 -> kpage s1 t -> (forall q, kpage s q -> kpage s1 q /\ q <> t) -> words s1 = fill t 4096 0 (words s) ->
  paged (store_word (t + 4 * (page mod 1024)) (kernel_entry page) (store_word (pd + 4 * (768 + page / 1024)) (t - PHYS_BASE + 7) s1))
    pd (pts ++ [t]) (page + 1).
Proof.
  intros [Hs Hpd Hpts Hnd Hlen Hpde Hpte] Hp Hm Hs1 Hkt Hkeep Hw. pose proof (Z.div_mod page 1024 ltac:(lia)) as Hdm. rewrite Hm in *.
  assert (Hlen' : Z.of_nat (length pts) = page / 1024) by (rewrite Hlen; symmetry; apply Z.div_unique with 1023; lia).
  destruct (kpage_aligned s1 t Hs1 Hkt) as (At & _). destruct (Hkeep pd Hpd) as [Hpd1 Hpdt]. destruct (kpage_aligned s1 pd Hs1 Hpd1) as (Apd & _).
  assert (Hold : forall q, q ∈ pts -> kpage s1 q /\ q <> t /\ q <> pd /\ q mod 4096 = 0).
  { intros q Hq. rewrite Forall_forall in Hpts. destruct (Hkeep q (Hpts q Hq)) as [Hq1 Hne]. split_and!; try done; [|by apply (kpage_aligned s1)].
    apply NoDup_cons in Hnd as [Hno _]. by intros ->. }
  assert (Hidx : 0 <= page / 1024 < 256) by lia.
  split.
  - destruct Hs1 as [K U A]. by split.
  - done.
  - apply Forall_app. split; [apply Forall_forall; intros q Hq; by apply Hold|by repeat constructor].
  - apply NoDup_cons in Hnd as [Hno Hnd]. apply NoDup_cons. split; [rewrite elem_of_app, list_elem_of_singleton; tauto|].
    apply NoDup_app. split_and!; [done| |apply NoDup_singleton]. intros q Hq Hqt%list_elem_of_singleton. by apply Hold in Hq as (_ & ? & _).
  - rewrite length_app. cbn [length]. rewrite Nat2Z.inj_add, Hlen'. apply Z.div_unique with 0; lia.
  - intros i Hi. cbn [store_word set_words words]. rewrite Hw. rewrite (proj2 (Z.eqb_neq (pd + 4 * i) (t + 4 * 0))) by (apply word_ne; (done || lia)).
    destruct (Z.eqb_spec (pd + 4 * i) (pd + 4 * (768 + page / 1024))) as [E|Hne].
    + assert (i = 768 + page / 1024) as -> by lia. rewrite (proj2 (Z.leb_le _ _)) by lia.
      replace (Z.to_nat (768 + page / 1024 - 768)) with (length pts) by lia. by rewrite lookup_app_r, Nat.sub_diag by lia.
    + rewrite fill_word, (proj2 (Z.eqb_neq pd t)) by (done || lia). rewrite (Hpde i Hi). destruct (Z.leb_spec 768 i); [|done].
      destruct (decide (Z.to_nat (i - 768) < length pts)%nat) as [Hlt|Hge]; [by rewrite lookup_app_l|].
      rewrite lookup_ge_None_2 by lia. by rewrite lookup_ge_None_2 by (rewrite length_app; cbn [length]; lia).
  - intros i t' j Hi Hj. cbn [store_word set_words words]. rewrite Hw. apply lookup_app_Some in Hi as [Hi|[Hge Hi]].
    + destruct (Hold t' (list_elem_of_lookup_2 _ _ _ Hi)) as (_ & Hne & Hne' & At'). pose proof (lookup_lt_Some _ _ _ Hi).
      rewrite (proj2 (Z.eqb_neq (t' + 4 * j) (t + 4 * 0))) by (apply word_ne; (done || lia || by left)).
      rewrite (proj2 (Z.eqb_neq (t' + 4 * j) (pd + _))) by (apply word_ne; (done || lia || by left)).
      rewrite fill_word, (proj2 (Z.eqb_neq t' t)) by done. rewrite (Hpte i t' j Hi Hj).
      destruct (Z.ltb_spec (1024 * Z.of_nat i + j) page), (Z.ltb_spec (1024 * Z.of_nat i + j) (page + 1)); try done; lia.
    + apply list_lookup_singleton_Some in Hi as [E <-]. assert (i = length pts) as -> by lia. rewrite Hlen', Z.add_comm with (n := 1024 * _).
      replace (j + 1024 * (page / 1024)) with (page + j) by lia. destruct (decide (j = 0)) as [->|Hj0].
      * rewrite Z.eqb_refl, Z.add_0_r. by rewrite (proj2 (Z.ltb_lt _ _)) by lia.
      * rewrite (proj2 (Z.eqb_neq (t + 4 * j) (t + 4 * 0))) by lia. rewrite (proj2 (Z.eqb_neq (t + 4 * j) (pd + _))) by (apply word_ne; (done || lia || (left; done))).
        rewrite fill_word, Z.eqb_refl by done. rewrite (proj2 (Z.ltb_ge _ _)) by lia. done.
Qed.

Lemma paging_loop_ok pd n : forall s pts pt page k,
  paged s pd pts page -> 0 <= page -> page + Z.of_nat n <= 262144 ->
  (page mod 1024 <> 0 -> pts !! Z.to_nat (page / 1024) = Some pt) ->
  room s k -> (page + Z.of_nat n + 1023) / 1024 <= Z.of_nat (length pts + k) ->
  exists s' pts', paging_loop n pd pt page s = Ok (tt, s') /\ paged s' pd pts' (page + Z.of_nat n) /\ user_pool s' = user_pool s.
Proof.
  induction n as [|n IH]; intros s pts pt page k Hpg H0 Hmax Hpt Hroom Hk; cbn [paging_loop].
  - exists s, pts. by rewrite Z.add_0_r.
  - destruct (vaddr_index page ltac:(lia)) as [Epd Ept]. pose proof (Z.div_mod page 1024 ltac:(lia)) as Hdm. pose proof (Z.mod_pos_bound page 1024 ltac:(lia)) as Hmb.
    mstep (vaddr_ok s page ltac:(lia)). rewrite Epd, Ept. mstep (rd_ok (pd + 4 * (768 + page / 1024)) s). pose proof (pg_len _ _ _ _ Hpg) as Hlen.
    rewrite (pg_pde _ _ _ _ Hpg) by lia. rewrite (proj2 (Z.leb_le 768 _)) by lia. replace (Z.to_nat (768 + page / 1024 - 768)) with (Z.to_nat (page / 1024)) by lia.
    replace (page + Z.of_nat (S n)) with (page + 1 + Z.of_nat n) in * by lia. destruct (decide (page mod 1024 = 0)) as [Hm|Hm].
    + assert (Hlen' : Z.of_nat (length pts) = page / 1024) by (rewrite Hlen; symmetry; apply Z.div_unique with 1023; lia).
      rewrite lookup_ge_None_2 by lia. change (0 =? 0) with true. cbv iota. destruct k as [|k].
      { exfalso. assert ((page + 1024) / 1024 <= (page + 1 + Z.of_nat n + 1023) / 1024) by (apply Z.div_le_mono; lia).
        replace ((page + 1024) / 1024) with (page / 1024 + 1) in *; [lia|]. apply Z.div_unique with 0; lia. }
      destruct (get_zero_page s k (pg_pools _ _ _ _ Hpg) Hroom) as (t & s1 & E & Hs1 & Hroom1 & Hkt & Hkeep & Hw & _ & Hu).
      destruct (kpage_aligned s1 t Hs1 Hkt) as (At & Bt & _). rewrite !bind_assoc. mstep E. rewrite bind_assoc. mstep (pde_create_ok s1 t At Bt).
      rewrite bind_assoc. set (s2 := store_word (pd + 4 * (768 + page / 1024)) (t - PHYS_BASE + 7) s1). rewrite (bind_ok _ _ _ tt s2) by done. cbv beta. rewrite bind_ret.
      mstep (kernel_entry_create s2 page ltac:(lia)). set (s3 := store_word (t + 4 * (page mod 1024)) (kernel_entry page) s2). rewrite (bind_ok _ _ _ tt s3) by done. cbv beta.
      pose proof (table_step s pd pts page t s1 Hpg ltac:(lia) Hm Hs1 Hkt Hkeep Hw) as Hpg3. fold s2 s3 in Hpg3.
      destruct (IH s3 (pts ++ [t]) t (page + 1) k Hpg3) as (s' & pts' & E' & Hpg' & Hu'); [lia|lia| |exact Hroom1| |].
      * intros _. replace (Z.to_nat ((page + 1) / 1024)) with (length pts); [by rewrite lookup_app_r, Nat.sub_diag|].
        replace ((page + 1) / 1024) with (page / 1024); [lia|]. apply Z.div_unique with 1; lia.
      * rewrite length_app. cbn [length]. replace (length pts + 1 + k)%nat with (length pts + S k)%nat by lia. done.
      * exists s', pts'. split_and!; [done|done|]. by rewrite Hu', <- Hu.
    + specialize (Hpt Hm). rewrite Hpt. assert (Hkt : kpage s pt) by (pose proof (pg_pts _ _ _ _ Hpg) as Hf; rewrite Forall_forall in Hf; apply Hf; by apply list_elem_of_lookup_2 in Hpt).
      destruct (kpage_aligned s pt (pg_pools _ _ _ _ Hpg) Hkt) as (At & Bt & _). rewrite (proj2 (Z.eqb_neq _ 0)) by lia. rewrite bind_ret.
      mstep (kernel_entry_create s page ltac:(lia)). set (s3 := store_word (pt + 4 * (page mod 1024)) (kernel_entry page) s). rewrite (bind_ok _ _ _ tt s3) by done. cbv beta.
      pose proof (entry_step s pd pts page pt Hpg ltac:(lia) Hm Hpt) as Hpg3. fold s3 in Hpg3.
      destruct (IH s3 pts pt (page + 1) k Hpg3) as (s' & pts' & E' & Hpg' & Hu'); [lia|lia| |exact Hroom|done|].
      * intros Hm1. replace ((page + 1) / 1024) with (page / 1024); [done|]. apply Z.div_unique with (page mod 1024 + 1); [|lia].
        left. split; [lia|]. destruct (decide (page mod 1024 = 1023)) as [E|]; [|lia]. exfalso. apply Hm1.
        symmetry. apply Z.mod_unique with (page / 1024 + 1); lia.
      * exists s', pts'. split_and!; [done|done|]. by rewrite Hu'.
Qed.

Lemma paged_start s pd s1 : pools_ok s1 -> kpage s1 pd -> words s1 = fill pd 4096 0 (words s) -> paged s1 pd [] 0.
Proof.
  intros Hs Hpd Hw. destruct (kpage_aligned s1 pd Hs Hpd) as (Apd & _). split; try done.
  - apply NoDup_singleton.
  - intros i Hi. rewrite Hw, fill_word, Z.eqb_refl by done. rewrite lookup_nil. by destruct (768 <=? i).
Qed.

(** What the processor finds in the directory. *)
Lemma paged_walk s pd pts n va :
  paged s pd pts n -> 0 <= n <= 262144 -> 0 <= va < 4294967296 ->
  walk (words s) pd va =
    if (PHYS_BASE <=? va) && (va <? PHYS_BASE + 4096 * n)
    then Some (va - PHYS_BASE, negb (in_kernel_text (va - va mod 4096))) else None.
Proof.
  intros Hpg Hn Hva. pose proof (Z.div_mod va 4096 ltac:(lia)) as Hv. pose proof (Z.mod_pos_bound va 4096 ltac:(lia)) as Hvm.
  pose proof (page_index va) as Hidx. pose proof (pt_no_range va) as Hj. set (i := pd_no va) in *. set (j := pt_no va) in *.
  assert (Hi : 0 <= i < 1024) by (unfold i; rewrite pd_no_div; split; [apply Z.div_pos; lia|apply Z.div_lt_upper_bound; lia]).
  unfold walk. fold i j. rewrite (pg_pde _ _ _ _ Hpg i Hi). unfold PHYS_BASE in *. destruct (Z.leb_spec 768 i) as [Hk|Hu].
  2: { change (0 mod 2 =? 0) with true. cbv iota. destruct (Z.leb_spec 3221225472 va); cbn [andb]; [|done]. lia. }
  rewrite (proj2 (Z.leb_le 3221225472 va)) by lia. cbn [andb]. set (page := 1024 * (i - 768) + j).
  assert (Epage : va = 3221225472 + 4096 * page + va mod 4096) by (unfold page; lia). pose proof (pg_len _ _ _ _ Hpg) as Hlen.
  destruct (pts !! Z.to_nat (i - 768)) as [t|] eqn:Et.
  - assert (Hkt : kpage s t) by (pose proof (pg_pts _ _ _ _ Hpg) as Hf; rewrite Forall_forall in Hf; apply Hf; by apply list_elem_of_lookup_2 in Et).
    destruct (kpage_aligned s t (pg_pools _ _ _ _ Hpg) Hkt) as (At & Bt & _). pose proof (phys_aligned t At) as Pt. unfold PHYS_BASE in Bt, Pt.
    rewrite mod_2_page by done. change (7 mod 2 =? 0) with false. cbv iota.
    assert (M7 : (t - 3221225472 + 7) mod 4096 = 7) by (rewrite <- Z.add_mod_idemp_l, Pt by lia; done). rewrite M7.
    replace (t - 3221225472 + 7 - 7 + 3221225472 + 4 * j) with (t + 4 * j) by lia. rewrite (pg_pte _ _ _ _ Hpg _ t j Et Hj), Z2Nat.id by lia. fold page.
    destruct (Z.ltb_spec page n) as [Hlt|Hge].
    + rewrite (proj2 (Z.ltb_lt va _)) by lia. unfold kernel_entry, vaddr_of, PHYS_BASE. replace (va - va mod 4096) with (3221225472 + 4096 * page) by lia.
      assert (E4 : forall f, 0 <= f < 4096 -> (4096 * page + f) mod 4096 = f) by (intros f Hf; symmetry; apply Z.mod_unique with page; lia).
      destruct (in_kernel_text (3221225472 + 4096 * page)).
      * rewrite E4 by lia. replace ((4096 * page + 1) mod 2) with 1 by (apply Z.mod_unique with (2048 * page); lia). change (1 =? 0) with false. cbv iota.
        replace ((4096 * page + 1) / 2 mod 2) with 0; [f_equal; f_equal; lia|]. replace ((4096 * page + 1) / 2) with (2048 * page) by (apply Z.div_unique with 1; lia).
        apply Z.mod_unique with (1024 * page); lia.
      * rewrite E4 by lia. replace ((4096 * page + 3) mod 2) with 1 by (apply Z.mod_unique with (2048 * page + 1); lia). change (1 =? 0) with false. cbv iota.
        replace ((4096 * page + 3) / 2 mod 2) with 1; [f_equal; f_equal; lia|]. replace ((4096 * page + 3) / 2) with (2048 * page + 1) by (apply Z.div_unique with 1; lia).
        apply Z.mod_unique with (1024 * page); lia.
    + change (0 mod 2 =? 0) with true. cbv iota. by rewrite (proj2 (Z.ltb_ge va _)) by lia.
  - change (0 mod 2 =? 0) with true. cbv iota. apply lookup_ge_None_1 in Et. rewrite (proj2 (Z.ltb_ge va _)); [done|].
    assert (n <= 1024 * ((n + 1023) / 1024)) by (pose proof (Z.div_mod (n + 1023) 1024 ltac:(lia)); pose proof (Z.mod_pos_bound (n + 1023) 1024 ltac:(lia)); lia).
    unfold page in Epage. lia.
Qed.

End Paging.

(** ** The properties *)

(** C20: [paging_init], given enough free pages, builds a directory in which the
    processor finds exactly the pages of physical memory, each at [PHYS_BASE] plus its address,
    writable unless it holds kernel code, and no user page; and it loads that directory. *)
Theorem paging_init_correct n start end_kernel_text s k :
  pools_ok s -> 0 <= n <= 262144 -> room s (S k) -> (n + 1023) / 1024 <= Z.of_nat k ->
  exists pd s', paging_init n start end_kernel_text s = Ok (pd, s') /\ pools_ok s' /\
    cr3 s' = pd - PHYS_BASE /\ pd_rep s' pd (fun _ => NULL) /\
    forall va, 0 <= va < 4294967296 -> walk (words s') pd va =
      if (PHYS_BASE <=? va) && (va <? PHYS_BASE + 4096 * n)
      then Some (va - PHYS_BASE, negb (in_kernel_text start end_kernel_text (va - va mod 4096))) else None.
Proof.
  intros Hs Hn Hroom Hk. unfold paging_init. destruct (get_zero_page s k Hs Hroom) as (pd & s1 & E & Hs1 & Hroom1 & Hpd & _ & Hw & _).
  pose proof (paged_start start end_kernel_text s pd s1 Hs1 Hpd Hw) as Hpg.
  destruct (paging_loop_ok start end_kernel_text pd (Z.to_nat n) s1 [] NULL 0 k Hpg) as (s2 & pts & E2 & Hpg2 & _); [lia|lia|done|done| |].
  { cbn [length Nat.add]. rewrite Z2Nat.id by lia. done. }
  rewrite Z2Nat.id, Z.add_0_l in Hpg2 by lia. mstep E. mstep E2. destruct (kpage_aligned s2 pd (pg_pools _ _ _ _ _ _ Hpg2) (pg_pd _ _ _ _ _ _ Hpg2)) as (Apd & Bpd & _).
  unfold vtop. rewrite bind_assoc, (bind_ok _ _ _ tt s2) by (apply ASSERT_true; unfold is_kernel_vaddr; lia). cbv beta. rewrite bind_ret.
  rewrite (bind_ok _ _ _ s2 s2) by done. cbv beta. eexists pd, _. split; [reflexivity|]. split_and!.
  - destruct (pg_pools _ _ _ _ _ _ Hpg2) as [K U A]. by split.
  - done.
  - apply pd_rep_cr3. split; try done; [apply (pg_pools _ _ _ _ _ _ Hpg2)|apply (pg_pd _ _ _ _ _ _ Hpg2)|].
    intros i Hi. left. split; [done|]. rewrite (pg_pde _ _ _ _ _ _ Hpg2) by lia. by rewrite (proj2 (Z.leb_gt 768 i)) by lia.
  - intros va Hva. by apply (paged_walk start end_kernel_text s2 pd pts n va Hpg2).
Qed.

(** Five thousand pages; four free pages would be too few. *)
Lemma paging_init_correct_witness :
  exists pd s', paging_init 5000 3222274048 3222290432 demo_vm = Ok (pd, s') /\ walk (words s') pd 3222278100 = Some (1052628, false) /\
    walk (words s') pd 3221225473 = Some (1, true) /\ walk (words s') pd 134512640 = None.
Proof.
  destruct (paging_init_correct 5000 3222274048 3222290432 demo_vm 5 demo_vm_ok) as (pd & s' & E & _ & _ & _ & Hw); [lia| |vm_compute; discriminate|].
  { exists [4; 5; 6; 7; 8; 9]. split_and!; [|done|].
    - apply (bool_decide_eq_true_1 (NoDup [4; 5; 6; 7; 8; 9])). vm_compute. reflexivity.
    - repeat (apply Forall_cons_2; [split; [cbn; lia|vm_compute; reflexivity]|]). constructor. }
  exists pd, s'. split; [exact E|]. clear E. rewrite !Hw by lia. clear Hw.
  repeat split; vm_compute; reflexivity.
Defined.
