(* ===== verification/Process.v ===== *)
(** * Starting, waiting for and ending processes: [userprog/process.c]

    A process is known by its thread id.  Its calls are cut into the sections
    between which another thread may run: [p_at] is where it is.  A semaphore
    is its value; a thread in [sema_down] goes on in a section of its own, which can be
    taken when the value is positive.  The records of children live in [recs], from
    which freeing removes them, so that an access to a freed record stops with [EFault].
    A thread never leaves the list of all threads, since [thread_exit] does
    not complete in this kernel, so [thread_exist] and [get_thread] find every thread there was.
    What the loader, [palloc_get_page] and [malloc] answer is given by the
    caller.  [p_code] is a ghost variable: the argument of [exit], if it was called; a
    process that an exception ends has none. *)

From S2P Require Import Prelude ListModel.

Definition ERROR : Z := -1.
Definition TID_ERROR : Z := -1.
Definition NO_PARENT : Z := -1.
Definition INIT_EXIT_STATUS : Z := -1.
Definition NOT_LOADED : Z := 0.
Definition LOAD_SUCCESS : Z := 1.
Definition LOAD_FAIL : Z := -1.

(** [struct child_process]. *)
Record child_process := Child { c_pid : Z; c_exit : bool; c_wait : bool; c_status : Z; sema_zombi : Z }.

Inductive place :=
  | Start                  (** before [start_process] *)
  | Run                    (** in the user program *)
  | Exec_down (tid : Z)    (** [process_execute] at [sema_down (&child_t->sema_load)] *)
  | Wait_set (c : Z)       (** [process_wait] behind [child->wait = true] *)
  | Wait_down (c : Z)      (** at [sema_down (&cur->sema_wait)] *)
  | Wait_done (c : Z)      (** behind it *)
  | Exit_set               (** [process_exit] behind [cur->child_proc->exit = true] *)
  | Exit_down              (** at [sema_down (&cur->child_proc->sema_zombi)] *)
  | Gone.                  (** blocked for ever at the end of [process_exit] *)

Record process := Process {
  p_parent : Z;
  p_child : Z;
  p_children : list Z;
  p_executable : bool;
  p_load_status : Z;
  sema_wait : Z;
  sema_load : Z;
  p_at : place;
  p_code : option Z
}.

Record sys := Sys { procs : gmap Z process; recs : gmap Z child_process }.

Abbreviation P := (M sys).

Definition proc (t : Z) : P process := fun s => lift_opt EFault (procs s !! t) s.
Definition set_proc (t : Z) (p : process) : P unit := fun s => Ok (tt, Sys (<[t := p]> (procs s)) (recs s)).
Definition record (c : Z) : P child_process := fun s => lift_opt EFault (recs s !! c) s.
Definition set_record (c : Z) (r : child_process) : P unit := fun s =>
  match recs s !! c with Some _ => Ok (tt, Sys (procs s) (<[c := r]> (recs s))) | None => Err EFault end.
Definition free_record (c : Z) : P unit := fun s =>
  match recs s !! c with Some _ => Ok (tt, Sys (procs s) (delete c (recs s))) | None => Err EFault end.

Definition at_ (x : place) (p : process) : process :=
  Process (p_parent p) (p_child p) (p_children p) (p_executable p) (p_load_status p) (sema_wait p) (sema_load p) x (p_code p).
Definition with_children (l : list Z) (p : process) : process :=
  Process (p_parent p) (p_child p) l (p_executable p) (p_load_status p) (sema_wait p) (sema_load p) (p_at p) (p_code p).
Definition with_wait (v : Z) (p : process) : process :=
  Process (p_parent p) (p_child p) (p_children p) (p_executable p) (p_load_status p) v (sema_load p) (p_at p) (p_code p).
Definition with_loaded (status : Z) (p : process) : process :=
  Process (p_parent p) (p_child p) (p_children p) (p_executable p || (status =? LOAD_SUCCESS)) status (sema_wait p) (sema_load p + 1) (p_at p) (p_code p).
Definition with_load (v : Z) (p : process) : process :=
  Process (p_parent p) (p_child p) (p_children p) (p_executable p) (p_load_status p) (sema_wait p) v (p_at p) (p_code p).
Definition with_code (v : Z) (p : process) : process :=
  Process (p_parent p) (p_child p) (p_children p) (p_executable p) (p_load_status p) (sema_wait p) (sema_load p) (p_at p) (Some v).

Definition go (t : Z) (x : place) : P unit := p ← proc t; set_proc t (at_ x p).
Definition thread_exist (t : Z) : P bool := gets (fun s => bool_decide (is_Some (procs s !! t))).

(** ** Records of children *)

Fixpoint find_child (l : list Z) (tid : Z) : P Z :=
  match l with
  | [] => mret NULL
  | c :: l => r ← record c; if c_pid r =? tid then mret c else find_child l tid
  end.

Definition get_child_proc (t tid : Z) : P Z := p ← proc t; find_child (p_children p) tid.

Definition remove_child_proc (t c : Z) : P unit :=
  p ← proc t;
  set_proc t (with_children (filter (fun x => x <> c) (p_children p)) p);;
  free_record c.

Fixpoint free_children (l : list Z) : P unit :=
  match l with [] => mret tt | c :: l => free_record c;; free_children l end.

Definition free_child_proc (t : Z) : P unit :=
  p ← proc t; free_children (p_children p);; set_proc t (with_children [] p).

(** ** Starting *)

(** C is what [malloc] returns. *)
Definition add_child_proc (t tid c : Z) : P unit := fun s =>
  if c =? NULL then Ok (tt, s) else
  match procs s !! t with
  | Some p => Ok (tt, Sys (<[t := with_children (p_children p ++ [c]) p]> (procs s))
                          (<[c := Child tid false false INIT_EXIT_STATUS 0]> (recs s)))
  | None => Err EFault
  end.

(** What [thread_create] does to processes. *)
Definition create (t tid c : Z) : P unit :=
  add_child_proc t tid c;; set_proc tid (Process t c [] false NOT_LOADED 0 0 Start None).

(** Up to [sema_down]: whether there is a page for the copy of the command
    line, and the thread and the record that [thread_create] makes, if it does.
    A result is given when the call returns. *)
Definition process_execute (t : Z) (page : bool) (created : option (Z * Z)) : P (option Z) :=
  if negb page then mret (Some TID_ERROR) else
  match created with
  | None => fail EFault
  | Some (tid, c) =>
      create t tid c;;
      go t (Exec_down tid);;
      mret None
  end.

(** The semaphore of the child is positive. *)
Definition process_execute_rest (t tid : Z) : P (option Z) :=
  child_t ← proc tid;
  set_proc tid (with_load (sema_load child_t - 1) child_t);;
  go t Run;;
  mret (Some (if p_load_status child_t =? LOAD_FAIL then TID_ERROR else tid)).

(** [process_exit] up to the test of [wait]. *)
Definition process_exit (t : Z) : P unit :=
  p ← proc t;
  (if p_executable p then record (p_child p);; mret tt else mret tt);;
  free_child_proc t;;
  p ← proc t;
  e ← thread_exist (p_parent p);
  if e && p_executable p && negb (p_child p =? NULL) then
    r ← record (p_child p);
    set_record (p_child p) (Child (c_pid r) true (c_wait r) (c_status r) (sema_zombi r));;
    go t Exit_set
  else go t Gone.

(** Whether [malloc] has room for the copy of the name, and what [load]
    returns. *)
Definition start_process (t : Z) (room loaded : bool) : P unit :=
  if negb room then process_exit t else
  p ← proc t;
  if loaded then set_proc t (at_ Run (with_loaded LOAD_SUCCESS p))
  else set_proc t (with_loaded LOAD_FAIL p);; process_exit t.

(** ** Waiting *)

Definition process_wait (t tid : Z) : P (option Z) :=
  c ← get_child_proc t tid;
  if c =? NULL then mret (Some ERROR) else
  r ← record c;
  if c_wait r then mret (Some ERROR) else
  set_record c (Child (c_pid r) (c_exit r) true (c_status r) (sema_zombi r));;
  go t (Wait_set c);;
  mret None.

Definition process_wait_test (t c : Z) : P unit :=
  r ← record c;
  if c_exit r then
    set_record c (Child (c_pid r) (c_exit r) (c_wait r) (c_status r) (sema_zombi r + 1));;
    go t (Wait_done c)
  else go t (Wait_down c).

Definition process_wait_down (t c : Z) : P unit :=
  p ← proc t; set_proc t (at_ (Wait_done c) (with_wait (sema_wait p - 1) p)).

Definition process_wait_rest (t c : Z) : P (option Z) :=
  r ← record c;
  remove_child_proc t c;;
  go t Run;;
  mret (Some (c_status r)).

(** ** Ending *)

(** The system call [exit]. *)
Definition exit (t status : Z) : P unit :=
  p ← proc t;
  set_proc t (with_code status p);;
  e ← thread_exist (p_parent p);
  (if e && negb (p_child p =? NULL) then
     r ← record (p_child p);
     set_record (p_child p) (Child (c_pid r) (c_exit r) (c_wait r) status (sema_zombi r))
   else mret tt);;
  process_exit t.

Definition process_exit_test (t : Z) : P unit :=
  p ← proc t;
  r ← record (p_child p);
  if c_wait r then
    parent ← proc (p_parent p);
    set_proc (p_parent p) (with_wait (sema_wait parent + 1) parent);;
    go t Gone
  else go t Exit_down.

Definition process_exit_down (t : Z) : P unit :=
  p ← proc t;
  r ← record (p_child p);
  set_record (p_child p) (Child (c_pid r) (c_exit r) (c_wait r) (c_status r) (sema_zombi r - 1));;
  go t Gone.

(** [kill] of [userprog/exception.c] for an exception in the code segment CS, up to where
    [thread_exit] has called [process_exit]: 27 is the segment of user programs, 8 the one of the kernel. *)
Definition kill (t cs : Z) : P unit :=
  if cs =? 27 then process_exit t else if cs =? 8 then fail EPanic else process_exit t.

(** ** All interleavings *)

(** The steps of the process T.  When [fine] is false a flag is set and the
    other one tested without a switch of threads in between.  Thread ids are
    never used twice, and [malloc] does not return the address of a record
    to which some process still points. *)
Inductive step (fine : bool) (t : Z) : sys -> option Z -> sys -> Prop :=
| step_exec s tid c r s' p :
    procs s !! t = Some p -> p_at p = Run -> procs s !! tid = None -> tid <> TID_ERROR -> recs s !! c = None ->
    (c <> NULL -> forall u q, procs s !! u = Some q -> p_child q <> c) ->
    process_execute t true (Some (tid, c)) s = Ok (r, s') -> step fine t s r s'
| step_exec_down s tid r s' p child :
    procs s !! t = Some p -> p_at p = Exec_down tid -> procs s !! tid = Some child -> 0 < sema_load child ->
    process_execute_rest t tid s = Ok (r, s') -> step fine t s r s'
| step_start s room loaded s' p :
    procs s !! t = Some p -> p_at p = Start -> start_process t room loaded s = Ok (tt, s') -> step fine t s None s'
| step_wait s tid r s' p :
    fine = true -> procs s !! t = Some p -> p_at p = Run -> process_wait t tid s = Ok (r, s') -> step fine t s r s'
| step_wait_test s c s' p :
    procs s !! t = Some p -> p_at p = Wait_set c -> process_wait_test t c s = Ok (tt, s') -> step fine t s None s'
| step_wait_both s tid r s' p :
    procs s !! t = Some p -> p_at p = Run ->
    (r ← process_wait t tid; match r with
       | Some _ => mret r
       | None => p ← proc t; (match p_at p with Wait_set c => process_wait_test t c | _ => mret tt end);; mret None end) s = Ok (r, s') ->
    step fine t s r s'
| step_wait_down s c s' p :
    procs s !! t = Some p -> p_at p = Wait_down c -> 0 < sema_wait p -> process_wait_down t c s = Ok (tt, s') -> step fine t s None s'
| step_wait_rest s c r s' p :
    procs s !! t = Some p -> p_at p = Wait_done c -> process_wait_rest t c s = Ok (r, s') -> step fine t s r s'
| step_exit s status s' p :
    fine = true -> procs s !! t = Some p -> p_at p = Run -> exit t status s = Ok (tt, s') -> step fine t s None s'
| step_exit_test s s' p :
    procs s !! t = Some p -> p_at p = Exit_set -> process_exit_test t s = Ok (tt, s') -> step fine t s None s'
| step_exit_both s status s' p :
    procs s !! t = Some p -> p_at p = Run ->
    (exit t status;; p ← proc t; match p_at p with Exit_set => process_exit_test t | _ => mret tt end) s = Ok (tt, s') ->
    step fine t s None s'
| step_kill s cs s' p :
    fine = true -> procs s !! t = Some p -> p_at p = Run -> kill t cs s = Ok (tt, s') -> step fine t s None s'
| step_kill_both s cs s' p :
    procs s !! t = Some p -> p_at p = Run ->
    (kill t cs;; p ← proc t; match p_at p with Exit_set => process_exit_test t | _ => mret tt end) s = Ok (tt, s') ->
    step fine t s None s'
| step_exit_down s s' p r :
    procs s !! t = Some p -> p_at p = Exit_down -> recs s !! p_child p = Some r -> 0 < sema_zombi r ->
    process_exit_down t s = Ok (tt, s') -> step fine t s None s'.

(** The first process is the kernel's main thread. *)
Definition boot_sys (main : Z) : sys := Sys {[ main := Process NO_PARENT NULL [] false NOT_LOADED 0 0 Run None ]} ∅.

Inductive reach (fine : bool) (main : Z) : sys -> Prop :=
| reach_boot : reach fine main (boot_sys main)
| reach_step s t r s' : reach fine main s -> step fine t s r s' -> reach fine main s'.
