(* ===== verification/ProcessInv.v ===== *)
(** * Starting, waiting for and ending processes: the invariant

    [link] relates a parent and a child through the record of the child;
    [sys_ok] holds in every state reached when a flag is set and the other
    one tested without a switch of threads in between. *)

From S2P Require Import Prelude ListModel Process.

(** ** Effects of the sections *)

Lemma proc_ok s t p : procs s !! t = Some p -> proc t s = Ok (p, s).
Proof. intros H. unfold proc. by rewrite H. Qed.

Lemma record_ok s c r : recs s !! c = Some r -> record c s = Ok (r, s).
Proof. intros H. unfold record. by rewrite H. Qed.

Lemma set_record_ok s c r r' : recs s !! c = Some r -> set_record c r' s = Ok (tt, Sys (procs s) (<[c := r']> (recs s))).
Proof. intros H. unfold set_record. by rewrite H. Qed.

Lemma go_ok s t p x : procs s !! t = Some p -> go t x s = Ok (tt, Sys (<[t := at_ x p]> (procs s)) (recs s)).
Proof. intros H. unfold go. by mstep (proc_ok s t p H). Qed.

Definition without (l : list Z) (m : gmap Z child_process) : gmap Z child_process := foldr delete m l.

Lemma without_lookup l m c : without l m !! c = if decide (c ∈ l) then None else m !! c.
Proof.
  induction l as [|x l IH]; cbn [without foldr]; [by rewrite decide_False by apply not_elem_of_nil|]. fold (without l m).
  destruct (decide (c = x)) as [->|Hne].
  - rewrite lookup_delete_eq, decide_True; [done|]. apply elem_of_cons. by left.
  - rewrite lookup_delete_ne, IH by done. destruct (decide (c ∈ l)) as [Hin|Hout].
    + rewrite decide_True; [done|]. apply elem_of_cons. by right.
    + rewrite decide_False; [done|]. rewrite elem_of_cons. tauto.
Qed.

Lemma free_children_ok l : forall s, NoDup l -> Forall (fun c => is_Some (recs s !! c)) l ->
  free_children l s = Ok (tt, Sys (procs s) (without l (recs s))).
Proof.
  induction l as [|c l IH]; intros s Hnd Hl; cbn [free_children]; [by destruct s|].
  apply NoDup_cons in Hnd as [Hc Hnd]. apply Forall_cons in Hl as [[r Hr] Hl].
  rewrite (bind_ok _ _ _ tt (Sys (procs s) (delete c (recs s)))) by (unfold free_record; by rewrite Hr). cbv beta.
  rewrite IH; [|done|].
  - cbn [procs recs]. do 3 f_equal. apply map_eq. intros d. cbn [without foldr]. fold (without l (recs s)). rewrite !without_lookup.
    destruct (decide (d = c)) as [->|Hne]; [by rewrite decide_False, !lookup_delete_eq|]. rewrite !lookup_delete_ne by done. by rewrite without_lookup.
  - cbn [recs]. rewrite !Forall_forall in *. intros d Hd. destruct (Hl d Hd) as [r' Hr'].
    exists r'. rewrite lookup_delete_ne; [done|]. intros ->. apply Hc. by apply list_elem_of_In.
Qed.

(** What an execution that succeeds has found. *)
Lemma proc_inv s t p s' : proc t s = Ok (p, s') -> procs s !! t = Some p /\ s' = s.
Proof. unfold proc. destruct (procs s !! t); intros H; [|discriminate H]. by injection H as -> ->. Qed.

Lemma record_inv s c r s' : record c s = Ok (r, s') -> recs s !! c = Some r /\ s' = s.
Proof. unfold record. destruct (recs s !! c); intros H; [|discriminate H]. by injection H as -> ->. Qed.

Lemma set_record_inv s c r u s' : set_record c r s = Ok (u, s') -> s' = Sys (procs s) (<[c := r]> (recs s)).
Proof. unfold set_record. destruct (recs s !! c); intros H; by simplify_eq. Qed.

Lemma set_proc_inv s t p u s' : set_proc t p s = Ok (u, s') -> s' = Sys (<[t := p]> (procs s)) (recs s).
Proof. unfold set_proc. intros H; by simplify_eq. Qed.

Lemma free_record_inv s c u s' : free_record c s = Ok (u, s') -> is_Some (recs s !! c) /\ s' = Sys (procs s) (delete c (recs s)).
Proof. unfold free_record. destruct (recs s !! c); intros H; by simplify_eq. Qed.

Lemma go_inv s t x u s' : go t x s = Ok (u, s') -> exists p, procs s !! t = Some p /\ s' = Sys (<[t := at_ x p]> (procs s)) (recs s).
Proof.
  intros H. apply bind_inv in H as (p & s1 & H1 & H2). apply proc_inv in H1 as [Hp ->]. apply set_proc_inv in H2 as ->. eauto.
Qed.

Lemma free_children_inv l : forall s u s', free_children l s = Ok (u, s') -> s' = Sys (procs s) (without l (recs s)).
Proof.
  induction l as [|c l IH]; intros s u s' H; cbn [free_children] in H.
  - injection H as _ <-. by destruct s.
  - apply bind_inv in H as (u1 & s1 & H1 & H2). apply free_record_inv in H1 as [_ ->]. apply IH in H2 as ->. cbn [procs recs].
    f_equal. apply map_eq. intros d. cbn [without foldr]. fold (without l (recs s)). rewrite !without_lookup.
    destruct (decide (d = c)) as [->|Hne]; [rewrite !lookup_delete_eq; by destruct (decide _)|].
    rewrite !lookup_delete_ne by done. by rewrite without_lookup.
Qed.

Lemma find_child_inv l tid : forall s c s', find_child l tid s = Ok (c, s') -> s' = s /\
  (c = NULL \/ c ∈ l /\ exists r, recs s !! c = Some r /\ c_pid r = tid).
Proof.
  induction l as [|x l IH]; intros s c s' H; cbn [find_child] in H; [injection H as <- <-; auto|].
  apply bind_inv in H as (r & s1 & H1 & H2). apply record_inv in H1 as [Hr ->]. destruct (Z.eqb_spec (c_pid r) tid) as [Ht|Ht].
  - injection H2 as <- <-. split; [done|]. right. split; [apply elem_of_cons; by left|eauto].
  - apply IH in H2 as [-> [->|[Hin Hx]]]; split; auto. right. split; [apply elem_of_cons; by right|done].
Qed.

(** ** The invariant *)

Definition idle (x : place) : Prop := match x with Start | Run | Exec_down _ => True | _ => False end.
Definition ended (x : place) : Prop := x = Exit_down \/ x = Gone.

(** What a parent is to get: the argument of [exit], or -1 when the process was ended without it. *)
Definition exit_value (q : process) : Z := match p_code q with Some v => v | None => -1 end.

Record link_ok (x : place) (c : Z) (r : child_process) (q : process) : Prop := {
  lk_wait : c_wait r = true <-> x = Wait_down c \/ x = Wait_done c;
  lk_done : x = Wait_done c -> c_exit r = true;
  lk_exit : c_exit r = true -> ended (p_at q);
  lk_status : c_status r = exit_value q;
  lk_down : p_at q = Exit_down -> c_exit r = true;
  lk_zombi : 0 <= sema_zombi r /\ (c_wait r = true -> p_at q = Exit_down -> 0 < sema_zombi r)
}.

(** The child of T with the record C. *)
Definition link (s : sys) (t : Z) (x : place) (c : Z) : Prop := exists r q,
  recs s !! c = Some r /\ procs s !! c_pid r = Some q /\ c_pid r <> t /\ c <> NULL /\ p_child q = c /\ p_parent q = t /\ link_ok x c r q.

(** The value of the semaphore on which a parent waits. *)
Definition tokens (s : sys) (x : place) : Z :=
  match x with
  | Wait_down c => match recs s !! c with Some r => if c_exit r then 1 else 0 | None => 0 end
  | _ => 0
  end.

Record process_ok (s : sys) (t : Z) (p : process) : Prop := {
  po_nodup : NoDup (p_children p);
  po_links c : c ∈ p_children p -> link s t (p_at p) c;
  po_set : p_at p <> Exit_set /\ (forall c, p_at p <> Wait_set c);
  po_place c : p_at p = Wait_down c \/ p_at p = Wait_done c -> c ∈ p_children p;
  po_wait : sema_wait p = tokens s (p_at p);
  po_start : p_at p = Start -> p_executable p = false;
  po_gone : ended (p_at p) -> p_children p = []
}.

Record sys_ok (s : sys) : Prop := {
  so_process t p : procs s !! t = Some p -> process_ok s t p;
  so_owner c r : recs s !! c = Some r -> exists t p, procs s !! t = Some p /\ c ∈ p_children p;
  so_inj t t' p p' : procs s !! t = Some p -> procs s !! t' = Some p' -> p_child p <> NULL -> p_child p = p_child p' -> t = t'
}.

(** ** Changes that the invariant does not see *)

Record quiet (p p' : process) : Prop := {
  qu_parent : p_parent p' = p_parent p;
  qu_child : p_child p' = p_child p;
  qu_children : p_children p' = p_children p;
  qu_wait : sema_wait p' = sema_wait p;
  qu_at : p_at p' = p_at p \/ idle (p_at p) /\ idle (p_at p') \/ (idle (p_at p) \/ p_at p = Exit_down) /\ p_at p' = Gone /\ p_children p = [];
  qu_start : p_at p' = Start -> p_executable p' = false
}.

Lemma idle_not_ended x : idle x -> ~ ended x.
Proof. intros Hx [->| ->]; exact Hx. Qed.

Lemma quiet_places p p' : quiet p p' -> (forall c, p_at p' = Wait_down c <-> p_at p = Wait_down c) /\
  (forall c, p_at p' = Wait_done c <-> p_at p = Wait_done c) /\ (forall c, p_at p' = Wait_set c <-> p_at p = Wait_set c) /\
  (p_at p' = Exit_set <-> p_at p = Exit_set) /\ (p_at p' = Exit_down -> p_at p = Exit_down) /\ (ended (p_at p) -> ended (p_at p')).
Proof.
  intros H. unfold ended. destruct (qu_at p p' H) as [-> |[[Hx Hy]|([Hx| ->] & -> & _)]]; [tauto| | |repeat split; intros; try (by intuition discriminate)];
    repeat split; intros; destruct (p_at p), (p_at p') eqn:E; try done; intuition discriminate.
Qed.

(** A record that another one replaces. *)
Record same_record (s : sys) (r r' : child_process) : Prop := {
  sr_pid : c_pid r' = c_pid r;
  sr_exit : c_exit r' = c_exit r;
  sr_wait : c_wait r' = c_wait r;
  sr_zombi : 0 <= sema_zombi r -> 0 <= sema_zombi r';
  sr_down : sema_zombi r <= sema_zombi r' \/ forall q, procs s !! c_pid r = Some q -> p_at q <> Exit_down
}.

Lemma same_record_refl s r : same_record s r r.
Proof. split; auto; left; lia. Qed.

Lemma quiet_link s x x' c r r' p p' : quiet p p' -> same_record s r r' -> procs s !! c_pid r = Some p -> c_status r' = exit_value p' ->
  (x' = Wait_down c <-> x = Wait_down c) -> (x' = Wait_done c <-> x = Wait_done c) -> link_ok x c r p -> link_ok x' c r' p'.
Proof.
  intros Hq [S1 S2 S3 S4 S5] Hp Hst Hx Hy [H1 H2 H3 H6 H4 H5]. destruct (quiet_places p p' Hq) as (_ & _ & _ & _ & Q5 & Q6).
  split; rewrite ?S2, ?S3; [by rewrite H1, Hx, Hy|by rewrite Hy|auto|done|auto|].
  destruct H5 as [H5 H7]. split; [auto|]. intros Hw He. destruct S5 as [S5|S5]; [specialize (H7 Hw (Q5 He)); lia|].
  by destruct (S5 p Hp); apply Q5.
Qed.

Lemma quiet_same p : (p_at p = Start -> p_executable p = false) -> quiet p p.
Proof. by split; auto. Qed.

Lemma tokens_eq s s' x x' : (forall c, x' = Wait_down c <-> x = Wait_down c) ->
  (forall c, x = Wait_down c -> recs s' !! c = recs s !! c) -> tokens s' x' = tokens s x.
Proof.
  intros Hx Hr. destruct x as [| | | | c | | | |] eqn:E; try (destruct x' as [| | | | c' | | | |]; try done; by destruct (proj1 (Hx c') eq_refl)).
  rewrite (proj2 (Hx c) eq_refl). cbn [tokens]. by rewrite Hr.
Qed.

Lemma link_to s s' t x x' d : link s t x d ->
  (forall r q, recs s !! d = Some r -> procs s !! c_pid r = Some q -> c_pid r <> t -> p_child q = d -> p_parent q = t -> link_ok x d r q ->
     exists r' q', recs s' !! d = Some r' /\ c_pid r' = c_pid r /\ procs s' !! c_pid r = Some q' /\
       p_child q' = p_child q /\ p_parent q' = p_parent q /\ link_ok x' d r' q') ->
  link s' t x' d.
Proof.
  intros (r & q & Hr & Hq & Hne & Hn & Hc & Hp & Hl) H. destruct (H r q Hr Hq Hne Hc Hp Hl) as (r' & q' & E1 & E2 & E3 & E4 & E5 & E6).
  exists r', q'. rewrite E2, E4, E5. by split_and!.
Qed.

(** Processes and records change in ways that keep the status of a record
    equal to the value of its process. *)
Lemma update_ok s m rm : sys_ok s ->
  (forall u p', m !! u = Some p' -> exists p, procs s !! u = Some p /\ quiet p p') ->
  (forall u p, procs s !! u = Some p -> is_Some (m !! u)) ->
  (forall c r', rm !! c = Some r' -> exists r, recs s !! c = Some r /\ same_record s r r') ->
  (forall c r, recs s !! c = Some r -> is_Some (rm !! c)) ->
  (forall c r r' q q', recs s !! c = Some r -> rm !! c = Some r' -> procs s !! c_pid r = Some q -> m !! c_pid r = Some q' -> p_child q = c ->
     c_status r = exit_value q -> c_status r' = exit_value q') ->
  sys_ok (Sys m rm).
Proof.
  intros [H1 H2 H3] Hm Hd Hr Hrd Hst. split; cbn [procs recs].
  - intros t p' Hp'. destruct (Hm t p' Hp') as (p & Hp & Hq). destruct (H1 t p Hp) as [K1 K2 K3 K4 K5 K6 K7].
    destruct (quiet_places p p' Hq) as (W1 & W2 & W3 & W4 & W5 & W6). split.
    + by rewrite (qu_children p p' Hq).
    + intros c Hc. rewrite (qu_children p p' Hq) in Hc. apply (link_to _ _ _ _ _ _ (K2 c Hc)). intros r q Hrc Hqq _ Hqc _ Hl.
      destruct (Hd _ _ Hqq) as [q' Hq']. destruct (Hm _ _ Hq') as (q0 & Hq0 & Hqu). assert (q0 = q) as -> by congruence.
      destruct (Hrd c r Hrc) as [r' Hr']. destruct (Hr c r' Hr') as (r0 & Hr0 & Hsr). assert (r0 = r) as -> by congruence.
      exists r', q'. cbn [recs procs]. split_and!; [done|apply Hsr|done|apply Hqu|apply Hqu|].
      apply (quiet_link s (p_at p) _ _ r _ q); try done. by apply (Hst c r r' q q'), Hl.
    + rewrite W4. split; [apply K3|]. intros c. rewrite W3. apply K3.
    + intros c. rewrite W1, W2, (qu_children p p' Hq). apply K4.
    + rewrite (qu_wait p p' Hq), K5. destruct (p_at p) as [| | | | c | | | |] eqn:E;
        try (symmetry; cbn [tokens]; destruct (p_at p') as [| | | | c' | | | |] eqn:E'; try done; by destruct (proj1 (W1 c') eq_refl)).
      rewrite (proj2 (W1 c) eq_refl). cbn [tokens recs]. destruct (recs s !! c) as [r|] eqn:Erc.
      * destruct (Hrd c r Erc) as [r' Hr']. rewrite Hr'. destruct (Hr c r' Hr') as (r0 & Hr0 & Hsr). assert (r0 = r) as -> by congruence. by rewrite (sr_exit _ _ _ Hsr).
      * destruct (rm !! c) as [r'|] eqn:Er'; [|done]. destruct (Hr c r' Er') as (r0 & Hr0 & _). congruence.
    + apply Hq.
    + intros He. rewrite (qu_children p p' Hq). destruct (qu_at p p' Hq) as [E|[[_ Hi]|(_ & _ & E)]]; [apply K7; by rewrite <- E| |done].
      by destruct (idle_not_ended _ Hi).
  - intros c r' Hr'. destruct (Hr c r' Hr') as (r & Hrc & _). destruct (H2 c r Hrc) as (t & p & Hp & Hc). destruct (Hd t p Hp) as [p' Hp']. exists t, p'.
    destruct (Hm t p' Hp') as (p0 & Hp0 & Hq). assert (p0 = p) as -> by congruence. by rewrite (qu_children p p' Hq).
  - intros t t' p p' Hp Hp' Hn He. destruct (Hm t p Hp) as (p0 & Hp0 & Hq0), (Hm t' p' Hp') as (p1 & Hp1 & Hq1).
    apply (H3 t t' p0 p1 Hp0 Hp1); [by rewrite <- (qu_child _ _ Hq0)|]. by rewrite <- (qu_child _ _ Hq0), <- (qu_child _ _ Hq1).
Qed.

Lemma quiet_lookup s t p p' : sys_ok s -> procs s !! t = Some p -> quiet p p' ->
  (forall u q', (<[t := p']> (procs s)) !! u = Some q' -> exists q, procs s !! u = Some q /\ quiet q q') /\
  (forall u q, procs s !! u = Some q -> is_Some ((<[t := p']> (procs s)) !! u)).
Proof.
  intros Hs Hp Hq. split.
  - intros u q. destruct (decide (u = t)) as [->|Hne].
    + rewrite lookup_insert_eq. intros [= <-]. eauto.
    + rewrite lookup_insert_ne by done. intros Hu. exists q. split; [done|]. apply quiet_same, (po_start _ _ _ (so_process s Hs u q Hu)).
  - intros u q Hu. apply lookup_insert_is_Some'. by right.
Qed.

Lemma quiet_insert s t p p' : sys_ok s -> procs s !! t = Some p -> quiet p p' -> p_code p' = p_code p -> sys_ok (Sys (<[t := p']> (procs s)) (recs s)).
Proof.
  intros Hs Hp Hq Hcode. destruct (quiet_lookup s t p p' Hs Hp Hq) as [Q1 Q2]. apply (update_ok s); try done.
  - intros c r Hr. exists r. split; [done|apply same_record_refl].
  - intros c r r' q q' Hr Hr' Hk Hk' _ Hst. assert (r' = r) as -> by congruence. rewrite Hst. unfold exit_value.
    destruct (decide (c_pid r = t)) as [Ht|Ht]; [rewrite Ht in *; rewrite lookup_insert_eq in Hk'; injection Hk' as <-; assert (q = p) as -> by congruence; by rewrite Hcode|].
    rewrite lookup_insert_ne in Hk' by done. by assert (q' = q) as -> by congruence.
Qed.

Lemma quiet_record s c r r' : sys_ok s -> recs s !! c = Some r -> same_record s r r' -> c_status r' = c_status r ->
  sys_ok (Sys (procs s) (<[c := r']> (recs s))).
Proof.
  intros Hs Hr Hsr Hst. apply (update_ok s); try done.
  - intros u p Hu. exists p. split; [done|]. apply quiet_same, (po_start _ _ _ (so_process s Hs u p Hu)).
  - intros d r0. destruct (decide (d = c)) as [->|Hne]; [rewrite lookup_insert_eq; intros [= <-]; eauto|].
    rewrite lookup_insert_ne by done. intros Hd. exists r0. split; [done|apply same_record_refl].
  - intros d r0 Hd. apply lookup_insert_is_Some'. by right.
  - intros d r0 r1 q q' Hd Hd' Hk Hk' _ He. assert (q' = q) as -> by congruence. destruct (decide (d = c)) as [->|Hne].
    + rewrite lookup_insert_eq in Hd'. injection Hd' as <-. assert (r0 = r) as -> by congruence. congruence.
    + rewrite lookup_insert_ne in Hd' by done. congruence.
Qed.

(** ** Changes of one process and of the records of its children *)

Lemma not_shared s t u p q d : sys_ok s -> procs s !! t = Some p -> procs s !! u = Some q -> d ∈ p_children p -> d ∈ p_children q -> t = u.
Proof.
  intros Hs Hp Hq Hd Hd'. destruct (po_links _ _ _ (so_process s Hs t p Hp) d Hd) as (r & k & Hr & Hk & _ & _ & _ & Hpar & _).
  destruct (po_links _ _ _ (so_process s Hs u q Hq) d Hd') as (r' & k' & Hr' & Hk' & _ & _ & _ & Hpar' & _). congruence.
Qed.

Lemma link_ok_live x c r q q' : link_ok x c r q -> p_code q' = p_code q -> ~ ended (p_at q) -> ~ ended (p_at q') -> link_ok x c r q'.
Proof.
  intros [L1 L2 L3 L6 L4 L5] Ec Hq Hq'. split; [done|done| |unfold exit_value; by rewrite Ec| |].
  - intros He. by destruct Hq; apply L3.
  - intros He. destruct Hq'. by left.
  - split; [apply L5|]. intros _ He. destruct Hq'. by left.
Qed.

(** The other processes do not see it. *)
Lemma others s t p p' m : sys_ok s -> procs s !! t = Some p -> p_parent p' = p_parent p -> p_child p' = p_child p -> p_code p' = p_code p ->
  ~ ended (p_at p) -> ~ ended (p_at p') -> (forall d, d ∉ p_children p -> is_Some (recs s !! d) -> m !! d = recs s !! d) ->
  forall u q, u <> t -> procs s !! u = Some q -> process_ok (Sys (<[t := p']> (procs s)) m) u q.
Proof.
  intros Hs Hp E1 E2 E3 He He' Hm u q Hne Hq. destruct (so_process s Hs u q Hq) as [K1 K2 K3 K4 K5 K6 K7].
  assert (Hsame : forall d, d ∈ p_children q -> m !! d = recs s !! d).
  { intros d Hd. apply Hm.
    - intros Hd'. apply Hne. symmetry. by apply (not_shared s t u p q d).
    - destruct (K2 d Hd) as (r & k & Hr & _). by eexists. }
  split; try done.
  - intros d Hd. apply (link_to _ _ _ _ _ _ (K2 d Hd)). intros r k Hr Hk _ Hc _ Hl. exists r.
    cbn [recs procs]. rewrite (Hsame d Hd). destruct (decide (c_pid r = t)) as [Ht|Ht].
    + rewrite Ht in *. assert (k = p) as -> by congruence. exists p'. rewrite lookup_insert_eq. split_and!; try done. by apply (link_ok_live _ _ _ p).
    + exists k. rewrite lookup_insert_ne by done. by split_and!.
  - rewrite K5. symmetry. apply tokens_eq; [done|]. intros c Hc. cbn [recs]. apply Hsame, K4. by left.
Qed.

(** What is left to show for T itself. *)
Lemma change_ok s t p p' m : sys_ok s -> procs s !! t = Some p -> p_parent p' = p_parent p -> p_child p' = p_child p -> p_code p' = p_code p ->
  ~ ended (p_at p) -> ~ ended (p_at p') -> (forall d, d ∉ p_children p -> is_Some (recs s !! d) -> m !! d = recs s !! d) ->
  (forall d r, m !! d = Some r -> d ∈ p_children p' \/ (d ∉ p_children p) /\ is_Some (recs s !! d)) ->
  process_ok (Sys (<[t := p']> (procs s)) m) t p' -> sys_ok (Sys (<[t := p']> (procs s)) m).
Proof.
  intros Hs Hp E1 E2 E3 He He' Hm Hown Ht. split; cbn [procs recs].
  - intros u q. destruct (decide (u = t)) as [->|Hne]; [rewrite lookup_insert_eq; by intros [= <-]|].
    rewrite lookup_insert_ne by done. by apply (others s t p).
  - intros d r Hr. destruct (Hown d r Hr) as [Hd|[Hd [r' Hr']]]; [exists t, p'; by rewrite lookup_insert_eq|].
    destruct (so_owner s Hs d r' Hr') as (u & q & Hu & Hdu). exists u, q. rewrite lookup_insert_ne; [done|]. intros ->. congruence.
  - assert (Hlook : forall u q, (<[t := p']> (procs s)) !! u = Some q -> exists q0, procs s !! u = Some q0 /\ p_child q0 = p_child q).
    { intros u q. destruct (decide (u = t)) as [->|Hne]; [rewrite lookup_insert_eq; intros [= <-]; eauto|].
      rewrite lookup_insert_ne by done. eauto. }
    intros u u' q q' Hu Hu' Hn Hc. destruct (Hlook u q Hu) as (k & Hk & Ek), (Hlook u' q' Hu') as (k' & Hk' & Ek').
    apply (so_inj s Hs u u' k k' Hk Hk'); congruence.
Qed.

Lemma idle_tokens s x : idle x -> tokens s x = 0.
Proof. by destruct x. Qed.

Lemma idle_set x : idle x -> x <> Exit_set /\ (forall c, x <> Wait_set c) /\ (forall c, ~ (x = Wait_down c \/ x = Wait_done c)).
Proof. intros Hx. by split_and!; [|intros c|intros c [|]]; destruct x. Qed.

(** [free_child_proc]. *)
Lemma free_child_proc_ok s t p : sys_ok s -> procs s !! t = Some p -> idle (p_at p) ->
  sys_ok (Sys (<[t := with_children [] p]> (procs s)) (without (p_children p) (recs s))).
Proof.
  intros Hs Hp Hi. apply (change_ok s t p); try done.
  - by apply idle_not_ended.
  - by apply idle_not_ended.
  - intros d Hd _. by rewrite without_lookup, decide_False.
  - intros d r. rewrite without_lookup. destruct (decide _) as [Hd|Hd]; [done|]. right. by split; [|eexists].
  - destruct (idle_set _ Hi) as (I1 & I2 & I3). destruct (so_process s Hs t p Hp) as [K1 K2 K3 K4 K5 K6 K7]. split; cbn [p_children p_at p_executable with_children sema_wait]; try done.
    + constructor.
    + intros c Hc. by apply not_elem_of_nil in Hc.
    + intros c Hc. by destruct (I3 c).
    + rewrite K5. by rewrite !idle_tokens.
Qed.

(** [process_wait]: the record is marked, and the flag of the child decides. *)
Lemma wait_ok s t p c r r' x : sys_ok s -> procs s !! t = Some p -> p_at p = Run -> c ∈ p_children p -> recs s !! c = Some r ->
  c_pid r' = c_pid r -> c_exit r' = c_exit r -> c_status r' = c_status r -> c_wait r' = true ->
  (c_exit r = true /\ x = Wait_done c /\ sema_zombi r' = sema_zombi r + 1 \/ c_exit r = false /\ x = Wait_down c /\ sema_zombi r' = sema_zombi r) ->
  sys_ok (Sys (<[t := at_ x p]> (procs s)) (<[c := r']> (recs s))).
Proof.
  intros Hs Hp Hrun Hc Hr E1 E2 E3 E4 Hx. destruct (so_process s Hs t p Hp) as [K1 K2 K3 K4 K5 K6 K7]. rewrite Hrun in *.
  assert (Hne : ~ ended x) by (intros He; destruct He as [He|He]; intuition congruence).
  apply (change_ok s t p); try done.
  - rewrite Hrun. by apply idle_not_ended.
  - intros d Hd _. apply lookup_insert_ne. intros ->. contradiction.
  - intros d r0 Hd. cbn [p_children at_]. destruct (decide (d ∈ p_children p)); [by left|]. right. split; [done|].
    rewrite lookup_insert_ne in Hd by (intros ->; contradiction). by eexists.
  - split; cbn [p_children p_at at_ p_executable sema_wait]; try done.
    + intros d Hd. apply (link_to _ _ _ _ _ _ (K2 d Hd)). intros r0 q Hr0 Hq Ht Hcq Hpq [L1 L2 L3 L6 L4 L5].
      cbn [recs procs]. rewrite (lookup_insert_ne (procs s)) by congruence. destruct (decide (d = c)) as [->|Hdc].
      * assert (r0 = r) as -> by congruence. exists r', q. rewrite lookup_insert_eq. split_and!; try done.
        split; rewrite ?E2, ?E3, ?E4; try done; [intuition|intuition congruence|].
        split; [destruct Hx as [(_ & _ & ->)|(_ & _ & ->)]; lia|]. intros _ He. specialize (L4 He).
        destruct Hx as [(_ & _ & ->)|(Hf & _)]; [lia|congruence].
      * exists r0, q. rewrite lookup_insert_ne by done. split_and!; try done. split; try done.
        -- rewrite L1. split; intros H; exfalso; destruct H as [H|H]; try discriminate; destruct Hx as [(_ & -> & _)|(_ & -> & _)]; congruence.
        -- intros H. exfalso. destruct Hx as [(_ & -> & _)|(_ & -> & _)]; congruence.
    + split; [|intros d]; intros H; destruct Hx as [(_ & -> & _)|(_ & -> & _)]; discriminate.
    + intros d H. destruct Hx as [(_ & -> & _)|(_ & -> & _)]; destruct H as [H|H]; congruence.
    + rewrite K5. destruct Hx as [(_ & -> & _)|(Hf & -> & _)]; cbn [tokens recs]; [done|]. by rewrite lookup_insert_eq, E2, Hf.
    + intros ->. destruct Hx as [(_ & H & _)|(_ & H & _)]; discriminate.
Qed.

(** A waiting parent that finds its semaphore positive. *)
Lemma wait_down_ok s t p c : sys_ok s -> procs s !! t = Some p -> p_at p = Wait_down c -> 0 < sema_wait p ->
  sys_ok (Sys (<[t := at_ (Wait_done c) (with_wait (sema_wait p - 1) p)]> (procs s)) (recs s)).
Proof.
  intros Hs Hp Hat Hw. destruct (so_process s Hs t p Hp) as [K1 K2 K3 K4 K5 K6 K7]. rewrite Hat in *.
  assert (Hc : c ∈ p_children p) by (apply K4; by left).
  cbn [tokens] in K5. destruct (recs s !! c) as [r|] eqn:Hr; [|lia]. destruct (c_exit r) eqn:He; [|lia].
  apply (change_ok s t p); try done.
  - rewrite Hat. by intros [|].
  - by intros [|].
  - intros d r0 Hd. cbn [p_children at_ with_wait]. destruct (decide (d ∈ p_children p)); [by left|]. right. split; [done|by eexists].
  - split; cbn [p_children p_at at_ with_wait p_executable sema_wait]; try done.
    + intros d Hd. apply (link_to _ _ _ _ _ _ (K2 d Hd)). intros r0 q Hr0 Hq Ht Hcq Hpq [L1 L2 L3 L6 L4 L5]. exists r0, q.
      cbn [recs procs]. rewrite lookup_insert_ne by congruence. split_and!; try done. split; try done.
      * rewrite L1. split; intros [H|H]; try discriminate; injection H as ->; auto.
      * intros [= ->]. congruence.
    + intros d [H|H]; [discriminate|by injection H as <-].
    + cbn [tokens]. lia.
    + by intros [|].
Qed.

(** [remove_child_proc] when the parent has waited. *)
Lemma wait_rest_ok s t p c : sys_ok s -> procs s !! t = Some p -> p_at p = Wait_done c ->
  sys_ok (Sys (<[t := at_ Run (with_children (filter (fun x => x <> c) (p_children p)) p)]> (procs s)) (delete c (recs s))).
Proof.
  intros Hs Hp Hat. destruct (so_process s Hs t p Hp) as [K1 K2 K3 K4 K5 K6 K7]. rewrite Hat in *.
  apply (change_ok s t p); try done.
  - rewrite Hat. by intros [|].
  - by intros [|].
  - intros d Hd _. apply lookup_delete_ne. intros ->. apply Hd, K4. by right.
  - intros d r0 Hd. cbn [p_children at_ with_children]. destruct (decide (d = c)) as [->|Hne]; [by rewrite lookup_delete_eq in Hd|].
    rewrite lookup_delete_ne in Hd by done. rewrite list_elem_of_filter. destruct (decide (d ∈ p_children p)); [by left|]. right. split; [done|by eexists].
  - split; cbn [p_children p_at at_ with_children p_executable sema_wait]; try done.
    + by apply NoDup_filter.
    + intros d Hd. apply list_elem_of_filter in Hd as [Hne Hd]. apply (link_to _ _ _ _ _ _ (K2 d Hd)). intros r0 q Hr0 Hq Ht Hcq Hpq [L1 L2 L3 L6 L4 L5].
      exists r0, q. cbn [recs procs]. rewrite lookup_insert_ne, lookup_delete_ne by congruence. split_and!; try done. split; try done.
      rewrite L1. split; intros [H|H]; try discriminate; congruence.
    + by intros d [|].
    + by intros [|].
Qed.

(** [thread_create]: the thread, then its record. *)
Lemma new_process_ok s t tid c : sys_ok s -> procs s !! tid = None -> (c <> NULL -> forall u q, procs s !! u = Some q -> p_child q <> c) ->
  sys_ok (Sys (<[tid := Process t c [] false NOT_LOADED 0 0 Start None]> (procs s)) (recs s)).
Proof.
  intros [H1 H2 H3] Hn Hfresh. split; cbn [procs recs].
  - intros u q. destruct (decide (u = tid)) as [->|Hne].
    + rewrite lookup_insert_eq. intros [= <-]. split; cbn; try done; [constructor|intros d Hd; by apply not_elem_of_nil in Hd|by intros d [|]].
    + rewrite lookup_insert_ne by done. intros Hq. destruct (H1 u q Hq) as [K1 K2 K3 K4 K5 K6 K7]. split; try done.
      intros d Hd. apply (link_to _ _ _ _ _ _ (K2 d Hd)). intros r k Hr Hk _ _ _ Hl. exists r, k. cbn [procs recs].
      rewrite lookup_insert_ne by congruence. by split_and!.
  - intros d r Hr. destruct (H2 d r Hr) as (u & q & Hq & Hd). exists u, q. by rewrite lookup_insert_ne by congruence.
  - intros u u' q q' Hu Hu' Hnn He. destruct (decide (u = tid)) as [->|Hu1], (decide (u' = tid)) as [->|Hu2]; try done.
    + rewrite lookup_insert_eq in Hu. injection Hu as <-. rewrite lookup_insert_ne in Hu' by done. cbn in Hnn, He.
      by destruct (Hfresh Hnn u' q').
    + rewrite lookup_insert_eq in Hu'. injection Hu' as <-. rewrite lookup_insert_ne in Hu by done. cbn in He.
      rewrite He in Hnn. by destruct (Hfresh Hnn u q).
    + rewrite lookup_insert_ne in Hu by done. rewrite lookup_insert_ne in Hu' by done. by apply (H3 u u' q q').
Qed.

Lemma new_record_ok s t p tid c q : sys_ok s -> procs s !! t = Some p -> p_at p = Run -> recs s !! c = None -> c <> NULL ->
  tid <> t -> procs s !! tid = Some q -> p_child q = c -> p_parent q = t -> p_at q = Start -> p_code q = None ->
  sys_ok (Sys (<[t := with_children (p_children p ++ [c]) p]> (procs s)) (<[c := Child tid false false INIT_EXIT_STATUS 0]> (recs s))).
Proof.
  intros Hs Hp Hrun Hc Hn Ht Hq Hqc Hqp Hqs Hqn. destruct (so_process s Hs t p Hp) as [K1 K2 K3 K4 K5 K6 K7]. rewrite Hrun in *.
  assert (Hcl : c ∉ p_children p) by (intros Hin; destruct (K2 c Hin) as (r & _ & Hr & _); congruence).
  assert (Hlive : ~ ended (p_at p)) by (rewrite Hrun; by intros [|]).
  apply (change_ok s t p); try done.
  - intros d _ [r Hr]. apply lookup_insert_ne. congruence.
  - intros d r Hd. cbn [p_children with_children]. rewrite elem_of_app, list_elem_of_singleton.
    destruct (decide (d = c)) as [->|Hne]; [auto|]. rewrite lookup_insert_ne in Hd by done.
    destruct (decide (d ∈ p_children p)); [auto|]. right. split; [done|by eexists].
  - split; cbn [p_children p_at with_children p_executable sema_wait]; rewrite ?Hrun; try done.
    + apply NoDup_app. split_and!; [done| |apply NoDup_singleton]. intros d Hd Hd'. apply list_elem_of_singleton in Hd' as ->. contradiction.
    + intros d Hd. apply elem_of_app in Hd as [Hd|Hd].
      * apply (link_to _ _ _ _ _ _ (K2 d Hd)). intros r k Hr Hk Hne _ _ Hl. exists r, k. cbn [procs recs].
        rewrite (lookup_insert_ne (procs s)), (lookup_insert_ne (recs s)) by congruence. by split_and!.
      * apply list_elem_of_singleton in Hd as ->. eexists _, q. cbn [procs recs]. rewrite lookup_insert_eq. split; [reflexivity|].
        cbn [c_pid]. rewrite lookup_insert_ne by congruence. split_and!; try done. split; cbn; try done; [by split; [|intros [|]]|unfold exit_value; by rewrite Hqn|by rewrite Hqs].
    + by intros d [|].
    + by intros [|].
Qed.

(** The record of a process is in the list of its parent. *)
Lemma own_record s t p r : sys_ok s -> procs s !! t = Some p -> p_child p <> NULL -> recs s !! p_child p = Some r ->
  exists pu, procs s !! p_parent p = Some pu /\ p_child p ∈ p_children pu /\ c_pid r = t /\ p_parent p <> t /\ link_ok (p_at pu) (p_child p) r p.
Proof.
  intros Hs Hp Hn Hr. destruct (so_owner s Hs _ r Hr) as (u & pu & Hpu & Hin).
  destruct (po_links _ _ _ (so_process s Hs u pu Hpu) _ Hin) as (r1 & q & Hr1 & Hq & Hne & _ & Hqc & Hqp & Hl).
  assert (r1 = r) as -> by congruence. assert (Ht : c_pid r = t) by (apply (so_inj s Hs _ _ q p); congruence).
  rewrite Ht in *. assert (q = p) as -> by congruence. rewrite Hqp. exists pu. by split_and!; [| | |congruence|].
Qed.

Lemma idle_not_exited s t p r : sys_ok s -> procs s !! t = Some p -> p_child p <> NULL -> recs s !! p_child p = Some r -> idle (p_at p) -> c_exit r = false.
Proof.
  intros Hs Hp Hn Hr Hi. destruct (own_record s t p r Hs Hp Hn Hr) as (pu & _ & _ & _ & _ & Hl).
  destruct (c_exit r) eqn:E; [|done]. destruct (idle_not_ended _ Hi). by apply Hl.
Qed.

(** [process_exit] from [exit = true] on: the child has stored its status. *)
Lemma exit_ok s t p u pu c r y v : sys_ok s -> procs s !! t = Some p -> idle (p_at p) -> p_children p = [] -> p_child p = c -> c <> NULL ->
  recs s !! c = Some r -> p_parent p = u -> procs s !! u = Some pu ->
  (c_wait r = true /\ y = Gone /\ v = sema_wait pu + 1 \/ c_wait r = false /\ y = Exit_down /\ v = sema_wait pu) ->
  sys_ok (Sys (<[t := at_ y p]> (<[u := with_wait v pu]> (procs s))) (<[c := Child (c_pid r) true (c_wait r) (c_status r) (sema_zombi r)]> (recs s))).
Proof.
  intros Hs Hp Hi Hnil Hc Hn Hr Hu Hpu Hy.
  rewrite <- Hc in Hn, Hr. pose proof (idle_not_exited s t p r Hs Hp Hn Hr Hi) as Hex.
  destruct (own_record s t p r Hs Hp Hn Hr) as (pu0 & Hpu0 & Hin & Ht & Hne & Hl). rewrite Hc, Hu in *. assert (pu0 = pu) as -> by congruence. clear Hpu0.
  rewrite Ht.
  assert (Hye : ended y) by (destruct Hy as [(_ & -> & _)|(_ & -> & _)]; [by right|by left]).
  set (m := <[c := _]> (recs s)).
  assert (Hlook : forall w q, (<[t := at_ y p]> (<[u := with_wait v pu]> (procs s))) !! w = Some q -> exists q0, procs s !! w = Some q0 /\
    p_child q = p_child q0 /\ p_children q = p_children q0 /\ (w <> t -> p_at q = p_at q0)).
  { intros w q. destruct (decide (w = t)) as [->|Hw]; [rewrite lookup_insert_eq; intros [= <-]; by exists p|]. rewrite lookup_insert_ne by done.
    destruct (decide (w = u)) as [->|Hw']; [rewrite lookup_insert_eq; intros [= <-]; by exists pu|]. rewrite lookup_insert_ne by done. intros Hq. by exists q. }
  assert (Hlinks : forall w q d, procs s !! w = Some q -> d ∈ p_children q -> d <> c -> link (Sys (<[t := at_ y p]> (<[u := with_wait v pu]> (procs s))) m) w (p_at q) d).
  { intros w q d Hw Hd Hdc. apply (link_to _ _ _ _ _ _ (po_links _ _ _ (so_process s Hs w q Hw) d Hd)). intros r0 k Hr0 Hk _ Hkc _ [L1 L2 L3 L6 L4 L5].
    exists r0. cbn [recs procs]. unfold m. rewrite (lookup_insert_ne (recs s)), lookup_insert_ne by congruence.
    destruct (decide (c_pid r0 = u)) as [E|E].
    - rewrite E in *. assert (k = pu) as -> by congruence. exists (with_wait v pu). rewrite lookup_insert_eq. by split_and!.
    - exists k. rewrite lookup_insert_ne by done. by split_and!. }
  split; cbn [procs recs].
  - intros w q. destruct (decide (w = t)) as [->|Hw].
    + rewrite lookup_insert_eq. intros [= <-]. destruct (so_process s Hs t p Hp) as [K1 K2 K3 K4 K5 K6 K7].
      split; cbn [p_children p_at at_ p_executable sema_wait]; rewrite ?Hnil; try done; [constructor|intros d Hd; by apply not_elem_of_nil in Hd|..];
        destruct Hye as [->| ->]; try done; try (by intros d [|]); rewrite K5; by rewrite idle_tokens.
    + rewrite lookup_insert_ne by done. destruct (decide (w = u)) as [->|Hwu].
      * rewrite lookup_insert_eq. intros [= <-]. destruct (so_process s Hs u pu Hpu) as [K1 K2 K3 K4 K5 K6 K7].
        destruct Hl as [L1 L2 L3 L6 L4 L5]. split; cbn [p_children p_at with_wait p_executable sema_wait]; try done.
        -- intros d Hd. destruct (decide (d = c)) as [->|Hdc]; [|by apply (Hlinks u pu)]. eexists _, (at_ y p). cbn [procs recs]. unfold m.
           rewrite lookup_insert_eq. split; [reflexivity|]. cbn [c_pid]. rewrite lookup_insert_eq. split_and!; try done.
           split; cbn [c_wait c_exit c_status sema_zombi p_at p_code at_]; try done. split; [apply L5|]. intros Hwt ->.
           destruct Hy as [(_ & H & _)|(H & _)]; congruence.
        -- unfold tokens in *. cbn [recs]. unfold m. destruct Hy as [(Hwt & _ & ->)|(Hwt & _ & ->)].
           ++ destruct (proj1 L1 Hwt) as [E|E]; [|specialize (L2 E); congruence]. rewrite E in *. rewrite lookup_insert_eq. rewrite Hr, Hex in K5. cbn. lia.
           ++ rewrite K5. destruct (p_at pu) as [| | | | d | | | |] eqn:E; try done. rewrite lookup_insert_ne; [done|]. intros <-. rewrite (proj2 L1) in Hwt; [done|by left].
      * rewrite lookup_insert_ne by done. intros Hq. destruct (so_process s Hs w q Hq) as [K1 K2 K3 K4 K5 K6 K7]. split; try done.
        -- intros d Hd. apply (Hlinks w q d Hq Hd). intros ->. apply Hwu. by apply (not_shared s w u q pu c).
        -- rewrite K5. symmetry. apply tokens_eq; [done|]. intros d Hd. cbn [recs]. apply lookup_insert_ne. intros <-.
           apply Hwu. apply (not_shared s w u q pu c); [done..| |done]. apply K4. by left.
  - intros d r0 Hd. assert (Hs0 : is_Some (recs s !! d)) by (unfold m in Hd; destruct (decide (d = c)) as [->|]; [by eexists|rewrite lookup_insert_ne in Hd by done; by eexists]).
    destruct Hs0 as [r2 Hr2]. destruct (so_owner s Hs d r2 Hr2) as (w & q & Hq & Hdq).
    assert (Hin' : is_Some ((<[t := at_ y p]> (<[u := with_wait v pu]> (procs s))) !! w)) by (do 2 (apply lookup_insert_is_Some'; right); by eexists).
    destruct Hin' as [q' Hq']. exists w, q'. split; [done|]. destruct (Hlook w q' Hq') as (q0 & Hq0 & _ & E & _). rewrite E. congruence.
  - intros w w' q q' Hw Hw' Hnn He. destruct (Hlook w q Hw) as (k & Hk & Ek & _), (Hlook w' q' Hw') as (k' & Hk' & Ek' & _).
    apply (so_inj s Hs w w' k k' Hk Hk'); congruence.
Qed.

(** ** Every step preserves the invariant *)

Lemma execute_ok s t p tid c r s' : sys_ok s -> procs s !! t = Some p -> p_at p = Run -> procs s !! tid = None -> recs s !! c = None ->
  (c <> NULL -> forall u q, procs s !! u = Some q -> p_child q <> c) -> process_execute t true (Some (tid, c)) s = Ok (r, s') -> sys_ok s'.
Proof.
  intros Hs Hp Hrun Htid Hc Hfresh H. cbn [process_execute negb] in H. assert (Hne : tid <> t) by congruence.
  apply bind_inv in H as (u1 & s1 & H1 & H2). apply bind_inv in H2 as (u2 & s2 & H2 & H3). injection H3 as _ <-.
  assert (Hs1 : sys_ok s1 /\ exists p1, procs s1 !! t = Some p1 /\ p_at p1 = Run).
  { unfold create in H1. apply bind_inv in H1 as (u3 & s3 & H3 & H4). apply set_proc_inv in H4 as ->. unfold add_child_proc in H3.
    pose proof (new_process_ok s t tid c Hs Htid Hfresh) as Hnew. destruct (Z.eqb_spec c NULL) as [Hn|Hn].
    - injection H3 as _ <-. split; [done|]. exists p. by cbn [procs]; rewrite lookup_insert_ne.
    - rewrite Hp in H3. injection H3 as _ <-. cbn [procs recs]. split.
      + assert (Hp' : procs (Sys (<[tid := Process t c [] false NOT_LOADED 0 0 Start None]> (procs s)) (recs s)) !! t = Some p) by (cbn [procs]; by rewrite lookup_insert_ne).
        pose proof (new_record_ok _ t p tid c _ Hnew Hp' Hrun Hc Hn Hne (lookup_insert_eq _ _ _) eq_refl eq_refl eq_refl eq_refl) as Hrec. cbn [procs recs] in Hrec.
        by rewrite insert_insert_ne by done.
      + exists (with_children (p_children p ++ [c]) p). rewrite lookup_insert_ne, lookup_insert_eq by done. done. }
  destruct Hs1 as (Hs1 & p1 & Hp1 & Hrun1). apply go_inv in H2 as (p2 & Hp2 & ->). assert (p2 = p1) as -> by congruence.
  apply (quiet_insert s1 t p1); [done|done| |done]. split; cbn [p_parent p_child p_children sema_wait p_code p_at at_]; auto; [|discriminate].
  right. left. by rewrite Hrun1.
Qed.

Lemma execute_rest_ok s t tid p r s' : sys_ok s -> procs s !! t = Some p -> p_at p = Exec_down tid -> process_execute_rest t tid s = Ok (r, s') -> sys_ok s'.
Proof.
  intros Hs Hp Hat H. unfold process_execute_rest in H. apply bind_inv in H as (q & s1 & H1 & H). apply proc_inv in H1 as [Hq ->].
  apply bind_inv in H as (u1 & s1 & H1 & H). apply set_proc_inv in H1 as ->. apply bind_inv in H as (u2 & s2 & H2 & H). injection H as _ <-.
  apply go_inv in H2 as (p1 & Hp1 & ->). apply (quiet_insert (Sys _ _) t p1); [|done| |done].
  - apply (quiet_insert s tid q); [done|done| |done]. split; auto. apply (po_start _ _ _ (so_process s Hs tid q Hq)).
  - assert (Hx : p_at p1 = Exec_down tid).
    { cbn [procs] in Hp1. destruct (decide (tid = t)) as [->|Hne].
      - rewrite lookup_insert_eq in Hp1. injection Hp1 as <-. cbn [p_at with_load]. congruence.
      - rewrite lookup_insert_ne in Hp1 by done. congruence. }
    split; cbn [p_parent p_child p_children sema_wait p_code p_at at_]; auto; [|discriminate]. right. left. by rewrite Hx.
Qed.

(** The states of [process_exit]. *)
Lemma process_exit_inv s t p u s' : procs s !! t = Some p -> process_exit t s = Ok (u, s') ->
  let p1 := with_children [] p in let m := without (p_children p) (recs s) in
  s' = Sys (<[t := at_ Gone p1]> (procs s)) m \/
  p_executable p = true /\ p_child p <> NULL /\ exists r, m !! p_child p = Some r /\
    s' = Sys (<[t := at_ Exit_set p1]> (procs s)) (<[p_child p := Child (c_pid r) true (c_wait r) (c_status r) (sema_zombi r)]> m).
Proof.
  intros Hp H p1 m. unfold process_exit in H. rewrite (bind_ok _ _ _ _ _ (proc_ok s t p Hp)) in H. cbv beta in H.
  apply bind_inv in H as (u0 & s0 & H0 & H). assert (s0 = s) as ->.
  { destruct (p_executable p); [|by injection H0 as _ <-]. apply bind_inv in H0 as (r0 & s1 & H1 & H2). apply record_inv in H1 as [_ ->]. by injection H2 as _ <-. }
  apply bind_inv in H as (u1 & s1 & H1 & H). unfold free_child_proc in H1. rewrite (bind_ok _ _ _ _ _ (proc_ok s t p Hp)) in H1. cbv beta in H1.
  apply bind_inv in H1 as (u2 & s2 & H1 & H2). apply free_children_inv in H1 as ->. apply set_proc_inv in H2 as ->. cbn [procs recs] in H. fold p1 m in H.
  apply bind_inv in H as (q & s2 & H1 & H). apply proc_inv in H1 as [Hq ->]. cbn [procs] in Hq. rewrite lookup_insert_eq in Hq. injection Hq as <-.
  rewrite (bind_ok _ _ _ (bool_decide (is_Some ((<[t := p1]> (procs s)) !! p_parent p))) (Sys (<[t := p1]> (procs s)) m)) in H by reflexivity. cbv beta in H.
  change (p_child p1) with (p_child p) in H. change (p_executable p1) with (p_executable p) in H.
  destruct (bool_decide _ && p_executable p && negb (p_child p =? NULL)) eqn:E.
  - right. apply andb_true_iff in E as [E1 E3]. apply andb_true_iff in E1 as [E1 E2]. split; [done|]. split; [by apply negb_true_iff, Z.eqb_neq in E3|].
    apply bind_inv in H as (r & s2 & H1 & H). apply record_inv in H1 as [Hr ->]. apply bind_inv in H as (u3 & s3 & H1 & H). apply set_record_inv in H1 as ->.
    apply go_inv in H as (q & Hq & ->). cbn [procs recs] in *. rewrite lookup_insert_eq in Hq. injection Hq as <-. exists r. split; [done|]. by rewrite insert_insert_eq.
  - left. apply go_inv in H as (q & Hq & ->). cbn [procs recs] in *. rewrite lookup_insert_eq in Hq. injection Hq as <-. by rewrite insert_insert_eq.
Qed.

(** An idle process that ends without a word. *)
Lemma gone_ok s t p : sys_ok s -> procs s !! t = Some p -> idle (p_at p) ->
  sys_ok (Sys (<[t := at_ Gone (with_children [] p)]> (procs s)) (without (p_children p) (recs s))).
Proof.
  intros Hs Hp Hi. pose proof (free_child_proc_ok s t p Hs Hp Hi) as Hs1.
  pose proof (quiet_insert _ t (with_children [] p) (at_ Gone (with_children [] p)) Hs1 (lookup_insert_eq _ _ _)) as H. cbn [procs recs] in H.
  rewrite insert_insert_eq in H. apply H; [|done]. split; cbn [p_parent p_child p_children sema_wait p_code p_at at_ with_children]; auto; discriminate.
Qed.

Lemma start_ok s t p room loaded u s' : sys_ok s -> procs s !! t = Some p -> p_at p = Start -> start_process t room loaded s = Ok (u, s') -> sys_ok s'.
Proof.
  intros Hs Hp Hat H. pose proof (po_start _ _ _ (so_process s Hs t p Hp) Hat) as Hex. unfold start_process in H. destruct room; cbn [negb] in H.
  - rewrite (bind_ok _ _ _ _ _ (proc_ok s t p Hp)) in H. cbv beta in H. destruct loaded.
    + apply set_proc_inv in H as ->. apply (quiet_insert s t p); [done|done| |done]. split; cbn [p_parent p_child p_children sema_wait p_code p_at at_ with_loaded]; auto; [|discriminate].
      right. left. by rewrite Hat.
    + apply bind_inv in H as (u1 & s1 & H1 & H). apply set_proc_inv in H1 as ->. set (p1 := with_loaded LOAD_FAIL p) in H.
      assert (Hp1 : procs (Sys (<[t := p1]> (procs s)) (recs s)) !! t = Some p1) by apply lookup_insert_eq.
      assert (Hs1 : sys_ok (Sys (<[t := p1]> (procs s)) (recs s))).
      { apply (quiet_insert s t p); [done|done| |done]. split; auto. cbn [p_executable p1 with_loaded]. by rewrite Hex. }
      apply (process_exit_inv _ _ p1) in H as [->|(He & _)]; [|unfold p1 in He; cbn [p_executable with_loaded] in He; by rewrite Hex in He|done].
      apply gone_ok; [done|done|]. unfold p1. cbn [p_at with_loaded]. by rewrite Hat.
  - apply (process_exit_inv _ _ p) in H as [->|(He & _)]; [|congruence|done]. apply gone_ok; [done|done|by rewrite Hat].
Qed.

Definition wait_both (t tid : Z) : P (option Z) :=
  r ← process_wait t tid; match r with
    | Some _ => mret r
    | None => p ← proc t; (match p_at p with Wait_set c => process_wait_test t c | _ => mret tt end);; mret None end.

Definition exit_both (t status : Z) : P unit :=
  exit t status;; p ← proc t; match p_at p with Exit_set => process_exit_test t | _ => mret tt end.

Lemma process_wait_inv s t tid r s' : process_wait t tid s = Ok (r, s') ->
  r = Some ERROR /\ s' = s \/
  r = None /\ exists p c rc, procs s !! t = Some p /\ c ∈ p_children p /\ recs s !! c = Some rc /\ c_pid rc = tid /\ c_wait rc = false /\
    s' = Sys (<[t := at_ (Wait_set c) p]> (procs s)) (<[c := Child (c_pid rc) (c_exit rc) true (c_status rc) (sema_zombi rc)]> (recs s)).
Proof.
  intros H. unfold process_wait, get_child_proc in H. apply bind_inv in H as (c & s1 & H1 & H). apply bind_inv in H1 as (p & s2 & H1 & H2).
  apply proc_inv in H1 as [Hp ->]. apply find_child_inv in H2 as [-> Hc]. destruct (Z.eqb_spec c NULL) as [->|Hn]; [injection H as <- <-; by left|].
  destruct Hc as [Hc|(Hin & rc & Hrc & Htid)]; [done|]. rewrite (bind_ok _ _ _ _ _ (record_ok s c rc Hrc)) in H. cbv beta in H.
  destruct (c_wait rc) eqn:Hw; [injection H as <- <-; by left|]. right. apply bind_inv in H as (u1 & s1 & H1 & H). apply set_record_inv in H1 as ->.
  apply bind_inv in H as (u2 & s2 & H1 & H). injection H as <- <-. apply go_inv in H1 as (p' & Hp' & ->). cbn [procs recs] in *.
  split; [done|]. exists p, c, rc. assert (p' = p) as -> by congruence. by split_and!.
Qed.

Lemma wait_both_ok s t p tid r s' : sys_ok s -> procs s !! t = Some p -> p_at p = Run -> wait_both t tid s = Ok (r, s') -> sys_ok s'.
Proof.
  intros Hs Hp Hrun H. unfold wait_both in H. apply bind_inv in H as (r1 & s1 & H1 & H).
  apply process_wait_inv in H1 as [[-> ->]|(-> & p0 & c & rc & Hp0 & Hc & Hrc & _ & Hw & ->)]; [by injection H as _ <-|].
  assert (p0 = p) as -> by congruence. apply bind_inv in H as (p1 & s1 & H1 & H). apply proc_inv in H1 as [Hp1 ->]. cbn [procs] in Hp1.
  rewrite lookup_insert_eq in Hp1. injection Hp1 as <-. cbn [p_at at_] in H. apply bind_inv in H as (u2 & s2 & H1 & H). injection H as _ <-.
  unfold process_wait_test in H1. apply bind_inv in H1 as (r2 & s1 & H2 & H1). apply record_inv in H2 as [Hr2 ->]. cbn [recs] in Hr2.
  rewrite lookup_insert_eq in Hr2. injection Hr2 as <-. cbn [c_exit c_pid c_wait c_status sema_zombi] in H1. destruct (c_exit rc) eqn:He.
  - apply bind_inv in H1 as (u3 & s3 & H3 & H1). apply set_record_inv in H3 as ->. apply go_inv in H1 as (p3 & Hp3 & ->). cbn [procs recs] in *.
    rewrite lookup_insert_eq in Hp3. injection Hp3 as <-. rewrite !insert_insert_eq.
    apply (wait_ok s t p c rc); cbn [c_pid c_exit c_status c_wait sema_zombi]; auto.
  - apply go_inv in H1 as (p3 & Hp3 & ->). cbn [procs recs] in *.
    rewrite lookup_insert_eq in Hp3. injection Hp3 as <-. rewrite !insert_insert_eq.
    apply (wait_ok s t p c rc); cbn [c_pid c_exit c_status c_wait sema_zombi]; auto.
Qed.

Lemma process_wait_rest_inv s t c p r s' : procs s !! t = Some p -> process_wait_rest t c s = Ok (r, s') ->
  exists rc, recs s !! c = Some rc /\ r = Some (c_status rc) /\
    s' = Sys (<[t := at_ Run (with_children (filter (fun x => x <> c) (p_children p)) p)]> (procs s)) (delete c (recs s)).
Proof.
  intros Hp H. unfold process_wait_rest in H. apply bind_inv in H as (rc & s1 & H1 & H). apply record_inv in H1 as [Hrc ->].
  apply bind_inv in H as (u1 & s1 & H1 & H). unfold remove_child_proc in H1. rewrite (bind_ok _ _ _ _ _ (proc_ok s t p Hp)) in H1. cbv beta in H1.
  apply bind_inv in H1 as (u2 & s2 & H2 & H1). apply set_proc_inv in H2 as ->. apply free_record_inv in H1 as [_ ->]. cbn [procs recs] in *.
  apply bind_inv in H as (u3 & s3 & H3 & H). injection H as <- <-. apply go_inv in H3 as (p3 & Hp3 & ->). cbn [procs recs] in *.
  rewrite lookup_insert_eq in Hp3. injection Hp3 as <-. rewrite insert_insert_eq. eauto.
Qed.

(** The status and the ghost variable are stored together. *)
Lemma store_status_ok s t p status s1 u : sys_ok s -> procs s !! t = Some p -> idle (p_at p) -> p_at p <> Start ->
  (if bool_decide (is_Some ((<[t := with_code status p]> (procs s)) !! p_parent p)) && negb (p_child p =? NULL) then
     r ← record (p_child p); set_record (p_child p) (Child (c_pid r) (c_exit r) (c_wait r) status (sema_zombi r))
   else mret tt) (Sys (<[t := with_code status p]> (procs s)) (recs s)) = Ok (u, s1) ->
  sys_ok s1 /\ procs s1 !! t = Some (with_code status p).
Proof.
  intros Hs Hp Hi Hst H. assert (Hq : quiet p (with_code status p)) by (by split; auto).
  destruct (quiet_lookup s t p _ Hs Hp Hq) as [Q1 Q2].
  assert (Hmine : forall c r q q', recs s !! c = Some r -> procs s !! c_pid r = Some q -> (<[t := with_code status p]> (procs s)) !! c_pid r = Some q' -> p_child q = c ->
    p_child p <> NULL /\ c = p_child p /\ (exists pu, procs s !! p_parent p = Some pu) /\ exit_value q' = status \/ c_pid r <> t /\ q' = q).
  { intros c r q q' Hr Hk Hk' Hc. destruct (decide (c_pid r = t)) as [Ht|Ht]; [left|right; rewrite lookup_insert_ne in Hk' by done; split; [done|congruence]].
    rewrite Ht in *. assert (q = p) as -> by congruence. rewrite lookup_insert_eq in Hk'. injection Hk' as <-.
    destruct (so_owner s Hs c r Hr) as (w & pw & Hpw & Hin). destruct (po_links _ _ _ (so_process s Hs w pw Hpw) c Hin) as (r1 & q & Hr1 & Hq1 & _ & Hn & Hqc & Hqp & _).
    assert (r1 = r) as -> by congruence. rewrite Ht in *. assert (q = p) as -> by congruence. rewrite Hqp. split_and!; try congruence; [by eexists|done]. }
  destruct (bool_decide _ && negb (p_child p =? NULL)) eqn:E.
  - apply andb_true_iff in E as [_ E]. apply negb_true_iff, Z.eqb_neq in E. apply bind_inv in H as (r & s2 & H1 & H). apply record_inv in H1 as [Hr ->].
    apply set_record_inv in H as ->. cbn [procs recs] in *. split; [|apply lookup_insert_eq].
    destruct (own_record s t p r Hs Hp E Hr) as (_ & _ & _ & Hpid & _).
    apply (update_ok s); try done.
    + intros d r0. destruct (decide (d = p_child p)) as [->|Hne].
      * rewrite lookup_insert_eq. intros [= <-]. exists r. split; [done|]. split; cbn; auto. left. lia.
      * rewrite lookup_insert_ne by done. intros Hd. exists r0. split; [done|apply same_record_refl].
    + intros d r0 Hd. apply lookup_insert_is_Some'. by right.
    + intros d r0 r1 q q' Hd Hd' Hk Hk' Hc He. destruct (Hmine d r0 q q' Hd Hk Hk' Hc) as [(_ & -> & _ & ->)|[Ht ->]].
      * rewrite lookup_insert_eq in Hd'. by injection Hd' as <-.
      * rewrite lookup_insert_ne in Hd'; [congruence|]. intros <-. congruence.
  - injection H as _ <-. split; [|apply lookup_insert_eq]. apply (update_ok s); try done.
    + intros c r Hr. exists r. split; [done|apply same_record_refl].
    + intros c r r' q q' Hr Hr' Hk Hk' Hc He. destruct (Hmine c r q q' Hr Hk Hk' Hc) as [(Hn & _ & [pu Hpu] & _)|[_ ->]]; [|congruence].
      exfalso. apply andb_false_iff in E as [E|E]; [|by apply negb_false_iff, Z.eqb_eq in E].
      apply bool_decide_eq_false in E. apply E. apply lookup_insert_is_Some'. right. by eexists.
Qed.

Lemma exit_test_ok s t p r u s' : sys_ok s -> procs s !! t = Some p -> idle (p_at p) -> p_children p = [] -> p_child p <> NULL ->
  recs s !! p_child p = Some r ->
  process_exit_test t (Sys (<[t := at_ Exit_set p]> (procs s))
    (<[p_child p := Child (c_pid r) true (c_wait r) (c_status r) (sema_zombi r)]> (recs s))) = Ok (u, s') -> sys_ok s'.
Proof.
  intros Hs Hp Hi Hnil Hn Hr H. destruct (own_record s t p r Hs Hp Hn Hr) as (pu & Hpu & _ & _ & Hne & _).
  unfold process_exit_test in H. apply bind_inv in H as (q & s1 & H1 & H). apply proc_inv in H1 as [Hq ->]. cbn [procs] in Hq.
  rewrite lookup_insert_eq in Hq. injection Hq as <-. cbn [p_child p_parent at_] in H. apply bind_inv in H as (r' & s1 & H1 & H).
  apply record_inv in H1 as [Hr' ->]. cbn [recs] in Hr'. rewrite lookup_insert_eq in Hr'. injection Hr' as <-. cbn [c_wait] in H.
  destruct (c_wait r) eqn:Hw.
  - apply bind_inv in H as (q & s1 & H1 & H). apply proc_inv in H1 as [Hq ->]. cbn [procs] in Hq. rewrite lookup_insert_ne in Hq by done.
    assert (q = pu) as -> by congruence. apply bind_inv in H as (u1 & s1 & H1 & H). apply set_proc_inv in H1 as ->.
    apply go_inv in H as (q & Hq' & ->). cbn [procs recs] in *. rewrite lookup_insert_ne, lookup_insert_eq in Hq' by done. injection Hq' as <-.
    rewrite (insert_insert_ne (procs s)), insert_insert_eq by done.
    pose proof (exit_ok s t p (p_parent p) pu (p_child p) r Gone (sema_wait pu + 1) Hs Hp Hi Hnil eq_refl Hn Hr eq_refl Hpu) as He.
    rewrite Hw in He. apply He. auto.
  - apply go_inv in H as (q & Hq' & ->). cbn [procs recs] in *. rewrite lookup_insert_eq in Hq'. injection Hq' as <-. rewrite insert_insert_eq.
    pose proof (exit_ok s t p (p_parent p) pu (p_child p) r Exit_down (sema_wait pu) Hs Hp Hi Hnil eq_refl Hn Hr eq_refl Hpu) as He.
    rewrite (insert_id (procs s) (p_parent p)) in He by (rewrite Hpu; by destruct pu). rewrite Hw in He. apply He. auto.
Qed.

(** [process_exit] up to where the thread blocks. *)
Definition leave (t : Z) : P unit := p ← proc t; match p_at p with Exit_set => process_exit_test t | _ => mret tt end.

Lemma leave_ok s t p u s' : sys_ok s -> procs s !! t = Some p -> idle (p_at p) -> (process_exit t;; leave t) s = Ok (u, s') -> sys_ok s'.
Proof.
  intros Hs Hp Hi H. apply bind_inv in H as (u0 & s0 & H0 & H). apply bind_inv in H as (q & s2 & H1 & H). apply proc_inv in H1 as [Hq ->].
  apply (process_exit_inv _ _ p) in H0 as [->|(Hex & Hn & r & Hr & ->)]; [| |done]; cbn [procs] in Hq; rewrite lookup_insert_eq in Hq; injection Hq as <-; cbn [p_at at_] in H.
  - injection H as _ <-. exact (gone_ok s t p Hs Hp Hi).
  - pose proof (free_child_proc_ok s t p Hs Hp Hi) as Hs2.
    apply (exit_test_ok _ t (with_children [] p) r u s' Hs2); cbn [procs recs]; try done.
    + apply lookup_insert_eq.
    + by rewrite insert_insert_eq.
Qed.

Lemma exit_both_ok s t p status u s' : sys_ok s -> procs s !! t = Some p -> p_at p = Run -> exit_both t status s = Ok (u, s') -> sys_ok s'.
Proof.
  intros Hs Hp Hrun H. unfold exit_both in H. apply bind_inv in H as (u0 & s0 & H0 & H). unfold exit in H0.
  rewrite (bind_ok _ _ _ _ _ (proc_ok s t p Hp)) in H0. cbv beta in H0. apply bind_inv in H0 as (u1 & s1 & H1 & H0). apply set_proc_inv in H1 as ->.
  apply bind_inv in H0 as (e & s1 & H1 & H0). injection H1 as <- <-. cbn [procs recs] in H0. apply bind_inv in H0 as (u2 & s1 & H1 & H0).
  assert (Hi : idle (p_at p)) by by rewrite Hrun.
  destruct (store_status_ok s t p status s1 u2 Hs Hp Hi ltac:(by rewrite Hrun) H1) as (Hs1 & Hp1).
  apply (leave_ok s1 t (with_code status p) u s' Hs1 Hp1 Hi). by rewrite (bind_ok _ _ _ _ _ H0).
Qed.

Lemma kill_both_ok s t p cs u s' : sys_ok s -> procs s !! t = Some p -> p_at p = Run -> (kill t cs;; leave t) s = Ok (u, s') -> sys_ok s'.
Proof.
  intros Hs Hp Hrun H. assert (Hi : idle (p_at p)) by by rewrite Hrun. unfold kill in H.
  destruct (cs =? 27); [by apply (leave_ok s t p u s')|]. destruct (cs =? 8); [done|by apply (leave_ok s t p u s')].
Qed.

Lemma exit_down_ok s t p r u s' : sys_ok s -> procs s !! t = Some p -> p_at p = Exit_down -> recs s !! p_child p = Some r -> 0 < sema_zombi r ->
  process_exit_down t s = Ok (u, s') -> sys_ok s'.
Proof.
  intros Hs Hp Hat Hr Hz H. unfold process_exit_down in H. rewrite (bind_ok _ _ _ _ _ (proc_ok s t p Hp)) in H. cbv beta in H.
  rewrite (bind_ok _ _ _ _ _ (record_ok s _ r Hr)) in H. cbv beta in H. apply bind_inv in H as (u1 & s1 & H1 & H). apply set_record_inv in H1 as ->.
  apply go_inv in H as (q & Hq & ->). cbn [procs recs] in *. assert (q = p) as -> by congruence.
  destruct (so_process s Hs t p Hp) as [_ _ _ _ _ _ K7].
  assert (Hs1 : sys_ok (Sys (<[t := at_ Gone p]> (procs s)) (recs s))).
  { apply (quiet_insert s t p); [done|done| |done]. split; auto; [|discriminate]. right. right. split; [by right|]. split; [done|]. apply K7. by left. }
  destruct (so_owner s Hs _ r Hr) as (w & pw & Hpw & Hin).
  destruct (po_links _ _ _ (so_process s Hs w pw Hpw) _ Hin) as (r1 & q1 & Hr1 & Hq1 & Hne & Hn & Hqc & Hqp & Hl).
  assert (r1 = r) as -> by congruence. assert (Ht : c_pid r = t) by (apply (so_inj s Hs _ _ q1 p); congruence).
  pose proof (quiet_record _ (p_child p) r (Child (c_pid r) (c_exit r) (c_wait r) (c_status r) (sema_zombi r - 1)) Hs1 Hr) as Hrec.
  cbn [procs recs c_pid c_exit c_status c_wait sema_zombi] in Hrec. apply Hrec; [|done]. split; cbn; auto; [lia|]. right. intros q. rewrite Ht, lookup_insert_eq. by intros [= <-].
Qed.

Lemma step_ok s t r s' : sys_ok s -> step false t s r s' -> sys_ok s'.
Proof.
  intros Hs H. inversion H as [s0 tid c r0 s1 p Hp Hat Htid _ Hc Hf He|s0 tid r0 s1 p q Hp Hat Hq Hl He|s0 room loaded s1 p Hp Hat He|s0 tid r0 s1 p Hfine
    |s0 c s1 p Hp Hat He|s0 tid r0 s1 p Hp Hat He|s0 c s1 p Hp Hat Hw He|s0 c r0 s1 p Hp Hat He|s0 st s1 p Hfine|s0 s1 p Hp Hat He|s0 st s1 p Hp Hat He|s0 cs s1 p Hfine|s0 cs s1 p Hp Hat He|s0 s1 p r0 Hp Hat Hr Hz He];
    subst; try discriminate.
  - by apply (execute_ok s t p tid c r s').
  - by apply (execute_rest_ok s t tid p r s').
  - by apply (start_ok s t p room loaded tt s').
  - destruct (po_set _ _ _ (so_process s Hs t p Hp)) as [_ Hset]. by destruct (Hset c).
  - by apply (wait_both_ok s t p tid r s').
  - unfold process_wait_down in He. rewrite (bind_ok _ _ _ _ _ (proc_ok s t p Hp)) in He. apply set_proc_inv in He as ->. by apply wait_down_ok.
  - apply (process_wait_rest_inv s t c p) in He as (rc & _ & _ & ->); [|done]. by apply wait_rest_ok.
  - destruct (po_set _ _ _ (so_process s Hs t p Hp)) as [Hset _]. contradiction.
  - by apply (exit_both_ok s t p st tt s').
  - by apply (kill_both_ok s t p cs tt s').
  - by apply (exit_down_ok s t p r0 tt s').
Qed.

Lemma reach_ok main s : reach false main s -> sys_ok s.
Proof.
  induction 1 as [|s t r s' _ IH Hstep]; [|by apply (step_ok s t r)]. unfold boot_sys. split; cbn [procs recs].
  - intros t p Hp. apply lookup_singleton_Some in Hp as [<- <-]. split; cbn; try done; [by apply NoDup_nil|intros d Hd; by apply not_elem_of_nil in Hd|by intros d [|]].
  - intros c r Hr. by rewrite lookup_empty in Hr.
  - intros t t' p p' Hp Hp'. apply lookup_singleton_Some in Hp as [<- _]. by apply lookup_singleton_Some in Hp' as [<- _].
Qed.
