(* ===== verification/ProcessProps.v ===== *)
(** * Starting, waiting for and ending processes: the properties

    What the invariant gives to a parent that waits, what a switch of threads
    between a flag and a test does, and what happens to a child that outlives its parent. *)

From S2P Require Import Prelude ListModel Process ProcessInv.

(** ** Properties *)


(** ** Runs *)

Definition after {A : Type} (m : P A) (s : sys) : sys := match m s with Ok (_, s') => s' | Err _ => s end.

Lemma fresh_record (s : sys) (c : Z) : bool_decide (map_Forall (fun _ q => p_child q <> c) (procs s)) = true ->
  c <> NULL -> forall u q, procs s !! u = Some q -> p_child q <> c.
Proof. intros H _ u q Hq. apply bool_decide_eq_true in H. exact (H u q Hq). Qed.

(** Process T starts TID with the record C. *)
Definition run_exec (t tid c : Z) (s : sys) : sys :=
  after (process_execute_rest t tid) (after (start_process tid true true) (after (process_execute t true (Some (tid, c))) s)).

Ltac run_step c := eapply c; vm_compute; reflexivity.
Ltac run_exec H t tid c :=
  match goal with |- reach ?f ?m (run_exec _ _ _ ?s) =>
    let s1 := constr:(after (process_execute t true (Some (tid, c))) s) in let s2 := constr:(after (start_process tid true true) s1) in
    eapply (reach_step f m s2 t (Some tid));
    [eapply (reach_step f m s1 tid None); [eapply (reach_step f m s t None _ H)|run_step (step_start f tid s1 true true)]|run_step (step_exec_down f t s2 tid)];
    eapply (step_exec f t s tid c); [vm_compute; reflexivity..|discriminate|vm_compute; reflexivity|apply fresh_record; vm_compute; reflexivity|vm_compute; reflexivity]
  end.

Definition one_child := run_exec 1 2 100 (boot_sys 1).
Definition two_children := run_exec 1 3 200 one_child.
Definition grandchild := run_exec 2 3 200 one_child.

Lemma one_child_reached fine : reach fine 1 one_child.
Proof. unfold one_child. run_exec (reach_boot fine 1) 1 2 100. Qed.

Lemma two_children_reached fine : reach fine 1 two_children.
Proof. unfold two_children. run_exec (one_child_reached fine) 1 3 200. Qed.

Lemma grandchild_reached fine : reach fine 1 grandchild.
Proof. unfold grandchild. run_exec (one_child_reached fine) 2 3 200. Qed.

(** The child runs, the parent waits, the child exits, the parent goes on. *)
Definition parent_waits := after (wait_both 1 2) one_child.
Definition child_exits := after (exit_both 2 7) parent_waits.
Definition parent_woken := after (process_wait_down 1 100) child_exits.

Lemma parent_woken_reached : reach false 1 parent_woken.
Proof.
  apply (reach_step _ _ child_exits 1 None); [|run_step step_wait_down]. apply (reach_step _ _ parent_waits 2 None); [|run_step (step_exit_both false 2 parent_waits 7)].
  apply (reach_step _ _ one_child 1 None); [apply one_child_reached|run_step (step_wait_both false 1 one_child 2)].
Qed.

(** The same, but the child is killed by an exception in its own code. *)
Definition child_killed := after (kill 2 27;; leave 2) parent_waits.
Definition parent_of_killed := after (process_wait_down 1 100) child_killed.

Lemma parent_of_killed_reached : reach false 1 parent_of_killed.
Proof.
  apply (reach_step _ _ child_killed 1 None); [|run_step step_wait_down]. apply (reach_step _ _ parent_waits 2 None); [|run_step (step_kill_both false 2 parent_waits 27)].
  apply (reach_step _ _ one_child 1 None); [apply one_child_reached|run_step (step_wait_both false 1 one_child 2)].
Qed.


(** A child that exits between the assignment and the test of its parent. *)
Definition race1 := after (process_wait 1 2) two_children.
Definition race2 := after (exit 2 7) race1.
Definition race3 := after (process_wait_test 1 100) race2.
Definition race4 := after (process_exit_test 2) race3.
Definition race5 := after (process_wait_rest 1 100) race4.
Definition race6 := after (process_wait 1 3) race5.
Definition race7 := after (process_wait_test 1 200) race6.
Definition race8 := after (process_wait_down 1 200) race7.
Definition race9 := after (process_wait_rest 1 200) race8.

Lemma race8_reached : reach true 1 race8.
Proof.
  apply (reach_step _ _ race7 1 None); [|run_step step_wait_down].
  apply (reach_step _ _ race6 1 None); [|run_step step_wait_test].
  apply (reach_step _ _ race5 1 None); [|run_step (step_wait true 1 race5 3)].
  apply (reach_step _ _ race4 1 (Some 7)); [|run_step step_wait_rest].
  apply (reach_step _ _ race3 2 None); [|run_step step_exit_test].
  apply (reach_step _ _ race2 1 None); [|run_step step_wait_test].
  apply (reach_step _ _ race1 2 None); [|run_step (step_exit true 2 race1 7)].
  apply (reach_step _ _ two_children 1 None); [apply two_children_reached|run_step (step_wait true 1 two_children 2)].
Qed.

(** A process that has ended with a child of its own. *)
Definition orphaned := after (exit_both 2 0) grandchild.

Lemma orphaned_reached : reach false 1 orphaned.
Proof. apply (reach_step _ _ grandchild 2 None); [apply grandchild_reached|run_step (step_exit_both false 2 grandchild 0)]. Qed.

(** without that assumption the semaphores are not enough: a child that
    exits between [child->wait = true] and the test of [child->exit] wakes its parent twice over, and the parent's next
    [process_wait] returns -1 while the child it waits for still runs; and in every interleaving a process whose parent has
    ended accesses its freed record when it exits. *)
Theorem process_races :
  (exists s s' q, reach true 1 s /\ step true 1 s (Some ERROR) s' /\
     (exists p rc, procs s !! 1 = Some p /\ p_at p = Wait_done 200 /\ recs s !! 200 = Some rc /\ c_pid rc = 3) /\
     procs s' !! 3 = Some q /\ p_parent q = 1 /\ p_at q = Run) /\
  (exists s p, reach false 1 s /\ procs s !! 3 = Some p /\ p_at p = Run /\ forall status, exit 3 status s = Err EFault).
Proof.
  split.
  - exists race8, race9. eexists. split; [apply race8_reached|]. split; [run_step step_wait_rest|].
    split; [eexists _, _; split_and!; vm_compute; reflexivity|]. split_and!; vm_compute; reflexivity.
  - exists orphaned. eexists. split; [apply orphaned_reached|]. split_and!; [vm_compute; reflexivity..|]. intros status. vm_compute. reflexivity.
Qed.
