(* ===== verification/Rtc.v ===== *)
(** * Clocks: [devices/rtc.c], [devices/pit.c] and the delays of [devices/timer.c]

    [register n i] is the byte that the clock chip returns when register I is read as the
    N-th read; the state is the number of reads so far.  [fuel]
    bounds the loop that waits for two equal readings of the seconds.
    [unix_time] is the reference: the Gregorian calendar.  The second half is the
    interval timer chip with the bytes written to its ports, and the calibration
    and use of the delay loops.  How many ticks pass during a loop is
    a parameter of the hardware; what a call waits for is recorded. *)

From S2P Require Import Prelude.

Definition RTC_REG_SEC : Z := 0.
Definition RTC_REG_MIN : Z := 2.
Definition RTC_REG_HOUR : Z := 4.
Definition RTC_REG_MDAY : Z := 7.
Definition RTC_REG_MON : Z := 8.
Definition RTC_REG_YEAR : Z := 9.

Definition days_per_month : list Z := [31; 28; 31; 30; 31; 30; 31; 31; 30; 31; 30; 31].

(** The local variables of [rtc_get_time]. *)
Record components := Components { sec : Z; min : Z; hour : Z; mday : Z; mon : Z; year : Z }.

Definition bcd_to_bin (x : Z) : Z := Z.land x 15 + Z.shiftr x 4 * 10.

(** The loop over the months, with I from 1 on for N months. *)
Fixpoint add_months (n : nat) (i time : Z) : M nat Z :=
  match n with
  | O => mret time
  | S n =>
      d ← lift_opt EFault (days_per_month !! Z.to_nat (i - 1));
      add_months n (i + 1) (u32 (time + d * 24 * 60 * 60))
  end.

(** The seconds, from the conversion of the year on. *)
Definition to_time (c : components) : M nat Z :=
  let year := if year c <? 70 then year c + 100 else year c in
  let year := year - 70 in
  let time := u32 (s32 ((year * 365 + Z.quot (year - 1) 4) * 24 * 60 * 60)) in
  time ← add_months (Z.to_nat (mon c)) 1 time;
  let time := if (2 <? mon c) && (Z.rem year 4 =? 0) then u32 (time + 24 * 60 * 60) else time in
  let time := u32 (time + (mday c - 1) * 24 * 60 * 60) in
  let time := u32 (time + hour c * 60 * 60) in
  let time := u32 (time + min c * 60) in
  mret (u32 (time + sec c)).

Section Rtc.
Context (register : nat -> Z -> Z).

Definition cmos_read (index : Z) : M nat Z := fun n => Ok (u8 (register n index), S n).

Definition read_bcd (index : Z) : M nat Z := x ← cmos_read index; mret (bcd_to_bin x).

Fixpoint read_loop (fuel : nat) : M nat components :=
  match fuel with
  | O => fail EFuel
  | S fuel =>
      sec ← read_bcd RTC_REG_SEC;
      min ← read_bcd RTC_REG_MIN;
      hour ← read_bcd RTC_REG_HOUR;
      mday ← read_bcd RTC_REG_MDAY;
      mon ← read_bcd RTC_REG_MON;
      year ← read_bcd RTC_REG_YEAR;
      again ← read_bcd RTC_REG_SEC;
      if negb (sec =? again) then read_loop fuel else mret (Components sec min hour mday mon year)
  end.

Definition rtc_get_time (fuel : nat) : M nat Z := c ← read_loop fuel; to_time c.

End Rtc.

(** ** The calendar *)

(** A date with its full year. *)
Record date := Date { d_year : Z; d_mon : Z; d_mday : Z; d_hour : Z; d_min : Z; d_sec : Z }.

Definition leap (y : Z) : bool := (y mod 4 =? 0) && (negb (y mod 100 =? 0) || (y mod 400 =? 0)).
Definition days_in_month (y m : Z) : Z := nth (Z.to_nat (m - 1)) days_per_month 0 + (if (m =? 2) && leap y then 1 else 0).
Definition days_in_year (y : Z) : Z := if leap y then 366 else 365.

Definition sum_from (f : Z -> Z) (start : Z) (n : nat) : Z := foldr Z.add 0 (map (fun k => f (start + Z.of_nat k)) (seq 0 n)).

(** The days from January 1, 1970 to the first of a month. *)
Definition days_before (y m : Z) : Z :=
  sum_from days_in_year 1970 (Z.to_nat (y - 1970)) + sum_from (days_in_month y) 1 (Z.to_nat (m - 1)).

Definition unix_time (d : date) : Z :=
  86400 * (days_before (d_year d) (d_mon d) + d_mday d - 1) + 3600 * d_hour d + 60 * d_min d + d_sec d.

Definition valid_date (d : date) : Prop :=
  1970 <= d_year d < 2070 /\ 1 <= d_mon d <= 12 /\ 1 <= d_mday d <= days_in_month (d_year d) (d_mon d) /\
  0 <= d_hour d < 24 /\ 0 <= d_min d < 60 /\ 0 <= d_sec d < 60.

(** ** The registers of the chip *)

Definition to_bcd (v : Z) : Z := v / 10 * 16 + v mod 10.

Definition shows (r : Z -> Z) (d : date) : Prop :=
  r RTC_REG_SEC = to_bcd (d_sec d) /\ r RTC_REG_MIN = to_bcd (d_min d) /\ r RTC_REG_HOUR = to_bcd (d_hour d) /\
  r RTC_REG_MDAY = to_bcd (d_mday d) /\ r RTC_REG_MON = to_bcd (d_mon d) /\ r RTC_REG_YEAR = to_bcd (d_year d mod 100).

Lemma in_interval (start : Z) (n : nat) v : start <= v < start + Z.of_nat n -> In v (map (fun k => start + Z.of_nat k) (seq 0 n)).
Proof. intros Hv. apply in_map_iff. exists (Z.to_nat (v - start)). split; [lia|]. apply in_seq. lia. Qed.

Lemma bcd_roundtrip v : 0 <= v < 100 -> bcd_to_bin (u8 (to_bcd v)) = v.
Proof.
  intros Hv. assert (H : forallb (fun v => bcd_to_bin (u8 (to_bcd v)) =? v) (map (fun k => 0 + Z.of_nat k) (seq 0 100)) = true) by (vm_compute; reflexivity).
  apply Z.eqb_eq. exact (proj1 (forallb_forall _ _) H v (in_interval 0 100 v Hv)).
Qed.

Lemma read_bcd_ok register n i v : register n i = to_bcd v -> 0 <= v < 100 -> read_bcd register i n = Ok (v, S n).
Proof.
  intros Hr Hv. unfold read_bcd, cmos_read. rewrite (bind_ok _ _ _ (u8 (register n i)) (S n)) by reflexivity. cbv beta.
  rewrite Hr, bcd_roundtrip by done. reflexivity.
Qed.

(** ** The result *)

(** By how many days it differs from the calendar. *)
Definition excess (y m : Z) : Z :=
  let k := y - 1970 in
  nth (Z.to_nat (m - 1)) days_per_month 0 + Z.quot (k - 1) 4 - (k + 1) / 4 +
  (if 2 <? m then (if k mod 4 =? 0 then 1 else 0) - (if k mod 4 =? 2 then 1 else 0) else 0).

Definition code_days (y m : Z) : Z :=
  let k := y - 1970 in
  k * 365 + Z.quot (k - 1) 4 + sum_from (fun i => nth (Z.to_nat (i - 1)) days_per_month 0) 1 (Z.to_nat m) +
  (if (2 <? m) && (Z.rem k 4 =? 0) then 1 else 0).

Definition years : list Z := map (fun k => 1970 + Z.of_nat k) (seq 0 100).
Definition months : list Z := map (fun k => 1 + Z.of_nat k) (seq 0 12).

Lemma calendar_checked :
  forallb (fun y => forallb (fun m => (code_days y m =? days_before y m + excess y m) && (27 <=? excess y m) && (excess y m <=? 32)) months) years = true.
Proof. vm_compute. reflexivity. Qed.

Lemma calendar_ok y m : 1970 <= y < 2070 -> 1 <= m <= 12 ->
  code_days y m = days_before y m + excess y m /\ 27 <= excess y m <= 32.
Proof.
  intros Hy Hm. pose proof (proj1 (forallb_forall _ _) calendar_checked y (in_interval 1970 100 y ltac:(lia))) as H. cbv beta in H.
  pose proof (proj1 (forallb_forall _ _) H m (in_interval 1 12 m ltac:(lia))) as H'. cbv beta in H'. lia.
Qed.

Lemma u32_add a b : u32 (u32 a + b) = u32 (a + b).
Proof. unfold u32. by rewrite Z.add_mod_idemp_l. Qed.

Lemma u32_s32 a : u32 (s32 a) = u32 a.
Proof.
  unfold u32, s32. rewrite <- (Z.add_opp_r _ 2147483648), Z.add_mod_idemp_l by lia. by rewrite <- Z.add_assoc, Z.add_opp_diag_r, Z.add_0_r.
Qed.

Lemma sum_from_S f start n : sum_from f start (S n) = f start + sum_from f (start + 1) n.
Proof.
  unfold sum_from. cbn [seq map foldr]. rewrite Z.add_0_r. f_equal. rewrite <- seq_shift, map_map. f_equal.
  apply map_ext. intros k. f_equal. lia.
Qed.

Lemma add_months_ok n : forall i time k, 1 <= i -> i - 1 + Z.of_nat n <= 12 ->
  add_months n i (u32 time) k = Ok (u32 (time + 86400 * sum_from (fun i => nth (Z.to_nat (i - 1)) days_per_month 0) i n), k).
Proof.
  induction n as [|n IH]; intros i time k Hi Hn; cbn [add_months].
  - unfold sum_from. cbn [seq map foldr]. by rewrite Z.mul_0_r, Z.add_0_r.
  - destruct (lookup_lt_is_Some_2 days_per_month (Z.to_nat (i - 1))) as [d Hd]; [cbn [days_per_month length]; lia|].
    rewrite (bind_ok _ _ _ d k) by (by rewrite Hd). cbv beta. rewrite u32_add, IH by lia. rewrite sum_from_S.
    rewrite (nth_lookup_Some _ _ 0 _ Hd). do 3 f_equal. lia.
Qed.

Lemma to_time_ok d k : valid_date d ->
  to_time (Components (d_sec d) (d_min d) (d_hour d) (d_mday d) (d_mon d) (d_year d mod 100)) k =
  Ok (u32 (unix_time d + 86400 * excess (d_year d) (d_mon d)), k).
Proof.
  intros (Hy & Hm & Hd & Hh & Hmin & Hs). destruct (calendar_ok _ _ Hy Hm) as [Hc _]. unfold to_time. cbn [sec min hour mday mon year].
  set (y := if d_year d mod 100 <? 70 then d_year d mod 100 + 100 else d_year d mod 100).
  assert (Ey : y - 70 = d_year d - 1970).
  { unfold y. destruct (Z_lt_ge_dec (d_year d) 2000).
    - assert (d_year d mod 100 = d_year d - 1900) as -> by (symmetry; apply (Z.mod_unique _ _ 19); lia). destruct (Z.ltb_spec (d_year d - 1900) 70); lia.
    - assert (d_year d mod 100 = d_year d - 2000) as -> by (symmetry; apply (Z.mod_unique _ _ 20); lia). destruct (Z.ltb_spec (d_year d - 2000) 70); lia. }
  rewrite Ey, u32_s32. rewrite (bind_ok _ _ _ _ k (add_months_ok (Z.to_nat (d_mon d)) 1 _ k ltac:(lia) ltac:(lia))). cbv beta zeta.
  unfold code_days in Hc. cbv zeta in Hc. unfold unix_time, mret, M_ret. destruct ((2 <? d_mon d) && (Z.rem (d_year d - 1970) 4 =? 0));
    repeat first [rewrite u32_add | rewrite <- Z.add_assoc]; do 3 f_equal; lia.
Qed.

Lemma month_bound y m : days_in_month y m <= 32.
Proof.
  unfold days_in_month. assert (Hb : Forall (fun d => d <= 31) days_per_month) by (repeat (apply Forall_cons_2; [lia|]); by apply Forall_nil).
  assert (Hn : nth (Z.to_nat (m - 1)) days_per_month 0 <= 31).
  { destruct (nth_in_or_default (Z.to_nat (m - 1)) days_per_month 0) as [Hin| ->]; [|lia]. by apply (proj1 (List.Forall_forall _ _) Hb). }
  destruct (_ && _); lia.
Qed.

Lemma read_round register fuel n d : valid_date d -> (forall k, (k < 7)%nat -> shows (register (k + n)%nat) d) ->
  read_loop register (S fuel) n = Ok (Components (d_sec d) (d_min d) (d_hour d) (d_mday d) (d_mon d) (d_year d mod 100), (7 + n)%nat).
Proof.
  intros (Hy & Hm & Hd & Hh & Hmin & Hs) H. cbn [read_loop]. pose proof (month_bound (d_year d) (d_mon d)) as Hb.
  assert (Hy' : 0 <= d_year d mod 100 < 100) by (apply Z.mod_pos_bound; lia).
  rewrite (bind_ok _ _ _ _ _ (read_bcd_ok register n _ _ (proj1 (H 0%nat ltac:(lia))) ltac:(lia))). cbv beta.
  destruct (H 1%nat ltac:(lia)) as (_ & E1 & _). rewrite (bind_ok _ _ _ _ _ (read_bcd_ok register _ _ _ E1 ltac:(lia))). cbv beta.
  destruct (H 2%nat ltac:(lia)) as (_ & _ & E2 & _). rewrite (bind_ok _ _ _ _ _ (read_bcd_ok register _ _ _ E2 ltac:(lia))). cbv beta.
  destruct (H 3%nat ltac:(lia)) as (_ & _ & _ & E3 & _). rewrite (bind_ok _ _ _ _ _ (read_bcd_ok register _ _ _ E3 ltac:(lia))). cbv beta.
  destruct (H 4%nat ltac:(lia)) as (_ & _ & _ & _ & E4 & _). rewrite (bind_ok _ _ _ _ _ (read_bcd_ok register _ _ _ E4 ltac:(lia))). cbv beta.
  destruct (H 5%nat ltac:(lia)) as (_ & _ & _ & _ & _ & E5). rewrite (bind_ok _ _ _ _ _ (read_bcd_ok register _ _ _ E5 Hy')). cbv beta.
  rewrite (bind_ok _ _ _ _ _ (read_bcd_ok register _ _ _ (proj1 (H 6%nat ltac:(lia))) ltac:(lia))). cbv beta.
  by rewrite Z.eqb_refl.
Qed.

(** A round of readings in which the seconds change is repeated. *)
Lemma read_again register fuel n :
  bcd_to_bin (u8 (register n RTC_REG_SEC)) <> bcd_to_bin (u8 (register (6 + n)%nat RTC_REG_SEC)) ->
  read_loop register (S fuel) n = read_loop register fuel (7 + n)%nat.
Proof.
  intros H. cbn [read_loop]. unfold read_bcd, cmos_read, mbind, M_bind, mret, M_ret.
  cbn [Nat.add] in H. by rewrite (proj2 (Z.eqb_neq _ _) H).
Qed.

Lemma read_loop_ok register d j : forall fuel n, valid_date d -> (j < fuel)%nat ->
  (forall i, (i < j)%nat -> bcd_to_bin (u8 (register (7 * i + n)%nat RTC_REG_SEC)) <> bcd_to_bin (u8 (register (7 * i + 6 + n)%nat RTC_REG_SEC))) ->
  (forall k, (k < 7)%nat -> shows (register (7 * j + k + n)%nat) d) ->
  read_loop register fuel n = Ok (Components (d_sec d) (d_min d) (d_hour d) (d_mday d) (d_mon d) (d_year d mod 100), (7 * j + 7 + n)%nat).
Proof.
  induction j as [|j IH]; intros fuel n Hd Hf Hi Hs; (destruct fuel as [|fuel]; [lia|]).
  - apply read_round; [done|]. intros k Hk. exact (Hs k Hk).
  - rewrite read_again by exact (Hi 0%nat ltac:(lia)). rewrite IH; [do 2 f_equal; lia|done|lia| |].
    + intros i Hij. replace (7 * i + (7 + n))%nat with (7 * S i + n)%nat by lia. replace (7 * i + 6 + (7 + n))%nat with (7 * S i + 6 + n)%nat by lia. apply Hi. lia.
    + intros k Hk. replace (7 * j + k + (7 + n))%nat with (7 * S j + k + n)%nat by lia. by apply Hs.
Qed.

(** when the seconds change in the first J rounds of readings and the
    clock shows the date D through the next one, [rtc_get_time] ends after that round, and its result is
    the time of D since the epoch, modulo 2^32, plus a number of days that depends on the year and the month alone and is between 27
    and 32: the code adds the month that has not passed yet, and counts leap years from 1970. *)
Theorem rtc_get_time_late register d j fuel n : valid_date d -> (j < fuel)%nat ->
  (forall i, (i < j)%nat -> bcd_to_bin (u8 (register (7 * i + n)%nat RTC_REG_SEC)) <> bcd_to_bin (u8 (register (7 * i + 6 + n)%nat RTC_REG_SEC))) ->
  (forall k, (k < 7)%nat -> shows (register (7 * j + k + n)%nat) d) ->
  rtc_get_time register fuel n = Ok (u32 (unix_time d + 86400 * excess (d_year d) (d_mon d)), (7 * j + 7 + n)%nat) /\
  27 <= excess (d_year d) (d_mon d) <= 32.
Proof.
  intros Hd Hf Hi Hs. unfold rtc_get_time. rewrite (bind_ok _ _ _ _ _ (read_loop_ok register d j fuel n Hd Hf Hi Hs)). cbv beta.
  split; [by apply to_time_ok|]. by apply calendar_ok; apply Hd.
Qed.

(** February 29, 2000, at noon, is taken for March 28. *)
Definition demo_date : date := Date 2000 2 29 12 0 0.

Definition demo_register (n : nat) (i : Z) : Z :=
  if i =? 0 then 0 else if i =? 2 then 0 else if i =? 4 then 18 else if i =? 7 then 41 else if i =? 8 then 2 else 0.

Lemma rtc_get_time_late_witness : rtc_get_time demo_register 1 0%nat = Ok (954244800, 7%nat) /\ unix_time demo_date = 951825600.
Proof.
  split; [|vm_compute; reflexivity]. assert (Hv : valid_date demo_date) by (vm_compute; intuition discriminate).
  destruct (rtc_get_time_late demo_register demo_date 0 1 0%nat Hv ltac:(lia)) as [H _].
  - intros i Hi. lia.
  - intros k _. vm_compute. auto 10.
  - etransitivity; [exact H|]. vm_compute. reflexivity.
Defined.

(** ** The interval timer: [devices/pit.c] *)

Definition PIT_PORT_CONTROL : Z := 67.
Definition PIT_PORT_COUNTER (channel : Z) : Z := 64 + channel.
Definition PIT_HZ : Z := 1193180.

(** The state is the bytes written to ports, in order. *)
Definition pit_out (port v : Z) : M (list (Z * Z)) unit := fun s => Ok (tt, s ++ [(port, u8 v)]).

Definition pit_configure_channel (channel mode frequency : Z) : M (list (Z * Z)) unit :=
  ASSERT ((channel =? 0) || (channel =? 2));;
  ASSERT ((mode =? 2) || (mode =? 3));;
  let count :=
    if frequency <? 19 then 0
    else if PIT_HZ <? frequency then 2
    else (PIT_HZ + frequency / 2) / frequency mod 65536 in
  pit_out PIT_PORT_CONTROL (Z.lor (Z.lor (Z.shiftl channel 6) 48) (Z.shiftl mode 1));;
  pit_out (PIT_PORT_COUNTER channel) count;;
  pit_out (PIT_PORT_COUNTER channel) (Z.shiftr count 8).

(** ** Delays: [devices/timer.c] *)

Definition TIMER_FREQ : Z := 100.

Inductive pause := Slept (ticks : Z) | Looped (loops : Z).

(** [loops_per_tick], the interrupt flag, and what the calls waited for. *)
Record delays := Delays { loops_per_tick : Z; timer_intr_on : bool; pauses : list pause }.

Definition set_loops (n : Z) : M delays unit := fun s => Ok (tt, Delays n (timer_intr_on s) (pauses s)).
Definition pause_for (p : pause) : M delays unit := fun s => Ok (tt, Delays (loops_per_tick s) (timer_intr_on s) (pauses s ++ [p])).

Section Calibrate.
(** The ticks that pass while [busy_wait] runs a number of loops from a tick on. *)
Context (ticks_during : Z -> Z).

Definition too_many_loops (loops : Z) : bool := negb (ticks_during loops =? 0).

Fixpoint double_loop (n : nat) : M delays unit :=
  match n with
  | O => fail EFuel
  | S n =>
      l ← gets loops_per_tick;
      if too_many_loops (u32 (Z.shiftl l 1)) then mret tt else
      set_loops (u32 (Z.shiftl l 1));;
      ASSERT (negb (u32 (Z.shiftl l 1) =? 0));;
      double_loop n
  end.

Fixpoint refine_loop (n : nat) (high_bit test_bit : Z) : M delays unit :=
  match n with
  | O => fail EFuel
  | S n =>
      if test_bit =? Z.shiftr high_bit 10 then mret tt else
      (if too_many_loops (Z.lor high_bit test_bit) then mret tt else
         l ← gets loops_per_tick; set_loops (Z.lor l test_bit));;
      refine_loop n high_bit (Z.shiftr test_bit 1)
  end.

(** An [unsigned] has 32 bits, so that 33 turns are enough for either loop. *)
Definition timer_calibrate : M delays unit :=
  on ← gets timer_intr_on;
  ASSERT on;;
  set_loops (Z.shiftl 1 10);;
  double_loop 33;;
  high_bit ← gets loops_per_tick;
  refine_loop 33 high_bit (Z.shiftr high_bit 1).

End Calibrate.

Definition busy_wait (loops : Z) : M delays unit := pause_for (Looped loops).

Definition real_time_delay (num denom : Z) : M delays unit :=
  ASSERT (Z.rem denom 1000 =? 0);;
  l ← gets loops_per_tick;
  busy_wait (Z.quot (s64 (Z.quot (s64 (l * num)) 1000 * TIMER_FREQ)) (Z.quot denom 1000)).

Definition real_time_sleep (num denom : Z) : M delays unit :=
  let ticks := Z.quot (s64 (num * TIMER_FREQ)) denom in
  on ← gets timer_intr_on;
  ASSERT on;;
  if 0 <? ticks then pause_for (Slept ticks) else real_time_delay num denom.

Definition timer_msleep (ms : Z) : M delays unit := real_time_sleep ms 1000.
Definition timer_usleep (us : Z) : M delays unit := real_time_sleep us (1000 * 1000).
Definition timer_nsleep (ns : Z) : M delays unit := real_time_sleep ns (1000 * 1000 * 1000).
Definition timer_mdelay (ms : Z) : M delays unit := real_time_delay ms 1000.
Definition timer_udelay (us : Z) : M delays unit := real_time_delay us (1000 * 1000).
Definition timer_ndelay (ns : Z) : M delays unit := real_time_delay ns (1000 * 1000 * 1000).

(** ** The rate of the timer chip *)

(** What the chip makes of the bytes: the count of a channel, low byte first, where 0 stands for 65536. *)
Definition pit_count (s : list (Z * Z)) (channel : Z) : Z :=
  match List.filter (fun o => fst o =? PIT_PORT_COUNTER channel) s with
  | [lo; hi] => let c := snd lo + 256 * snd hi in if c =? 0 then 65536 else c
  | _ => 0
  end.

Lemma two_bytes c : 0 <= c < 65536 -> u8 c + 256 * u8 (Z.shiftr c 8) = c.
Proof.
  intros Hc. unfold u8. rewrite Z.shiftr_div_pow2 by lia. change (2 ^ 8) with 256. rewrite (Z.mod_small (c / 256)) by (split; [apply Z.div_pos; lia|apply Z.div_lt_upper_bound; lia]).
  pose proof (Z.div_mod c 256). lia.
Qed.

Lemma pit_nearest f : 19 <= f <= PIT_HZ -> let c := (PIT_HZ + f / 2) / f in 1 <= c < 65536 /\ 2 * Z.abs (PIT_HZ - f * c) <= f.
Proof.
  intros Hf c. unfold PIT_HZ in *. pose proof (Z.div_mod f 2 ltac:(lia)) as H2. pose proof (Z.mod_pos_bound f 2 ltac:(lia)).
  pose proof (Z.div_mod (1193180 + f / 2) f ltac:(lia)) as Hq. pose proof (Z.mod_pos_bound (1193180 + f / 2) f ltac:(lia)). fold c in Hq.
  assert (1 <= c) by (unfold c; apply Z.div_le_lower_bound; lia). assert (c < 65536) by (unfold c; apply Z.div_lt_upper_bound; lia). split; [done|]. lia.
Qed.

(** the chip is programmed with the count whose rate is the nearest to the one asked for, and with its
    slowest or a fast rate outside its range; the kernel's own rate of 100 Hz is exact to less than 42 parts in a million.
    The count that the comment calls illegal in mode 2 is programmed for frequencies near the clock of the chip. *)
Theorem pit_rate_nearest channel mode f : channel = 0 \/ channel = 2 -> mode = 2 \/ mode = 3 ->
  exists s, pit_configure_channel channel mode f [] = Ok (tt, s) /\ hd_error s = Some (PIT_PORT_CONTROL, 64 * channel + 48 + 2 * mode) /\
    (19 <= f <= PIT_HZ -> 1 <= pit_count s channel < 65536 /\ 2 * Z.abs (PIT_HZ - f * pit_count s channel) <= f) /\
    (f < 19 -> pit_count s channel = 65536) /\ (PIT_HZ < f -> pit_count s channel = 2) /\
    (f = TIMER_FREQ -> 1000000 * Z.abs (PIT_HZ - f * pit_count s channel) < 42 * PIT_HZ) /\
    (f = PIT_HZ -> pit_count s channel = 1).
Proof.
  intros Hc Hm. unfold pit_configure_channel. rewrite (bind_ok _ _ _ tt []) by (apply ASSERT_true; lia). cbv beta. rewrite (bind_ok _ _ _ tt []) by (apply ASSERT_true; lia). cbv beta zeta.
  set (c := if f <? 19 then 0 else if PIT_HZ <? f then 2 else (PIT_HZ + f / 2) / f mod 65536).
  assert (Hr : 0 <= c < 65536) by (unfold c; destruct (f <? 19); [lia|]; destruct (PIT_HZ <? f); [lia|apply Z.mod_pos_bound; lia]).
  eexists. split; [reflexivity|]. split; [by destruct Hc as [-> | ->], Hm as [-> | ->]|].
  assert (Ec : pit_count [(PIT_PORT_CONTROL, u8 (Z.lor (Z.lor (Z.shiftl channel 6) 48) (Z.shiftl mode 1))); (PIT_PORT_COUNTER channel, u8 c); (PIT_PORT_COUNTER channel, u8 (Z.shiftr c 8))] channel = if c =? 0 then 65536 else c).
  { unfold pit_count, PIT_PORT_CONTROL, PIT_PORT_COUNTER. cbn [List.filter fst snd]. rewrite Z.eqb_refl. rewrite (proj2 (Z.eqb_neq 67 (64 + channel))) by lia. cbn [snd]. by rewrite two_bytes. }
  cbn [app]. rewrite Ec. clear Ec. unfold c. split; [|split; [|split; [|split]]].
  - intros Hf. destruct (pit_nearest f Hf) as [H1 H2]. rewrite (proj2 (Z.ltb_ge _ _)), (proj2 (Z.ltb_ge PIT_HZ f)), Z.mod_small by lia. destruct (Z.eqb_spec ((PIT_HZ + f / 2) / f) 0); [lia|done].
  - intros Hf. by rewrite (proj2 (Z.ltb_lt _ _)).
  - intros Hf. rewrite (proj2 (Z.ltb_ge _ _)), (proj2 (Z.ltb_lt PIT_HZ f)) by (unfold PIT_HZ in *; lia). done.
  - intros ->. vm_compute. reflexivity.
  - intros ->. vm_compute. reflexivity.
Qed.

(** ** Calibration *)

Section Accuracy.
Context (ticks_during : Z -> Z) (cap : Z).
(** The machine runs CAP loops in a tick, and no more. *)
Context (Hcap : forall n, 0 <= n < 2 ^ 32 -> (ticks_during n = 0 <-> n <= cap)).

Lemma too_many_ok n : 0 <= n < 2 ^ 32 -> too_many_loops ticks_during n = (cap <? n).
Proof using Hcap. intros Hn. unfold too_many_loops. destruct (Z.eqb_spec (ticks_during n) 0) as [E|E]; cbn [negb]; pose proof (Hcap n Hn); lia. Qed.

Lemma double_loop_ok n : forall k on ps, 10 <= k <= 30 -> 2 ^ k <= cap < 2 ^ 31 -> (Z.to_nat (31 - k) <= n)%nat ->
  exists j, k <= j <= 30 /\ 2 ^ j <= cap < 2 ^ (j + 1) /\ double_loop ticks_during n (Delays (2 ^ k) on ps) = Ok (tt, Delays (2 ^ j) on ps).
Proof using Hcap.
  induction n as [|n IH]; intros k on ps Hk Hc Hn; [lia|]. cbn [double_loop]. rewrite (bind_ok _ _ _ (2 ^ k) (Delays (2 ^ k) on ps)) by done. cbv beta.
  assert (Ed : u32 (Z.shiftl (2 ^ k) 1) = 2 ^ (k + 1)).
  { rewrite Z.shiftl_mul_pow2, Z.pow_add_r by lia. apply u32_small. assert (2 ^ k <= 2 ^ 30) by (apply Z.pow_le_mono_r; lia). change (2 ^ 30) with 1073741824 in *. lia. }
  assert (Hb : 2 ^ (k + 1) <= 2 ^ 31) by (apply Z.pow_le_mono_r; lia). rewrite Ed, too_many_ok by (change (2 ^ 31) with 2147483648 in *; change (2 ^ 32) with 4294967296; lia).
  destruct (Z.ltb_spec cap (2 ^ (k + 1))) as [Hlt|Hge]; [exists k; split; [lia|]; split; [lia|done]|].
  assert (k < 30) by (destruct (Z.eq_dec k 30) as [->|]; [lia|lia]).
  rewrite (bind_ok _ _ _ tt (Delays (2 ^ (k + 1)) on ps)) by done. cbv beta. rewrite (bind_ok _ _ _ tt (Delays (2 ^ (k + 1)) on ps)) by (apply ASSERT_true, negb_true_iff, Z.eqb_neq; lia). cbv beta.
  destruct (IH (k + 1) on ps) as (j & Hj & Hcj & E); [lia|lia|lia|]. exists j. split; [lia|]. done.
Qed.

Lemma double_overflow n : forall k on ps, 10 <= k <= 31 -> 2 ^ 31 <= cap -> (Z.to_nat (32 - k) <= n)%nat -> double_loop ticks_during n (Delays (2 ^ k) on ps) = Err EAssert.
Proof using Hcap.
  induction n as [|n IH]; intros k on ps Hk Hc Hn; [lia|]. cbn [double_loop]. rewrite (bind_ok _ _ _ (2 ^ k) (Delays (2 ^ k) on ps)) by done. cbv beta.
  destruct (Z.eq_dec k 31) as [->|Hne].
  - change (u32 (Z.shiftl (2 ^ 31) 1)) with 0. rewrite too_many_ok by lia. rewrite (proj2 (Z.ltb_ge _ _)) by lia. done.
  - assert (Hb : 2 ^ (k + 1) <= 2 ^ 31) by (apply Z.pow_le_mono_r; lia). assert (Hpos : 0 < 2 ^ (k + 1)) by (apply Z.pow_pos_nonneg; lia).
    assert (Ed : u32 (Z.shiftl (2 ^ k) 1) = 2 ^ (k + 1)) by (rewrite Z.shiftl_mul_pow2, <- Z.pow_add_r by lia; apply u32_small; change (2 ^ 31) with 2147483648 in *; lia).
    rewrite Ed, too_many_ok by (change (2 ^ 31) with 2147483648 in *; change (2 ^ 32) with 4294967296; lia). rewrite (proj2 (Z.ltb_ge _ _)) by lia.
    rewrite (bind_ok _ _ _ tt (Delays (2 ^ (k + 1)) on ps)) by done. cbv beta. rewrite (bind_ok _ _ _ tt (Delays (2 ^ (k + 1)) on ps)) by (apply ASSERT_true, negb_true_iff, Z.eqb_neq; lia). cbv beta.
    apply IH; lia.
Qed.

Lemma lor_next_bit e m : 0 <= e -> Z.lor (2 * m * 2 ^ e) (2 ^ e) = (2 * m + 1) * 2 ^ e.
Proof using Type.
  clear. intros He. rewrite <- !Z.shiftl_mul_pow2 by lia. rewrite <- (Z.mul_1_l (2 ^ e)), <- Z.shiftl_mul_pow2, <- Z.shiftl_lor by lia. f_equal.
  symmetry. apply Z.add_nocarry_lor. change 1 with (Z.ones 1). rewrite Z.land_ones by lia. change (2 ^ 1) with 2. by rewrite Z.mul_comm, Z.mod_mul.
Qed.

Lemma high_or j e : 0 <= e < j -> Z.lor (2 ^ j) (2 ^ e) = 2 ^ j + 2 ^ e.
Proof using Type.
  clear. intros He. replace (2 ^ j) with (2 * 2 ^ (j - e - 1) * 2 ^ e).
  - rewrite lor_next_bit by lia. lia.
  - replace j with (1 + (j - e - 1) + e) at 2 by lia. rewrite !Z.pow_add_r by lia. lia.
Qed.

(** When a bit fits, all that follow do: they are tried one by one against the top bit. *)
Lemma refine_rest j (Hj : 10 <= j <= 30) (i : nat) : forall n e m on ps, e = j - 10 + Z.of_nat i -> e < j -> (i < n)%nat -> 2 ^ j + 2 ^ e <= cap -> 
  refine_loop ticks_during n (2 ^ j) (2 ^ e) (Delays (2 * m * 2 ^ e) on ps) = Ok (tt, Delays (2 * m * 2 ^ e + 2 * 2 ^ e - 2 * 2 ^ (j - 10)) on ps).
Proof using Hcap.
  induction i as [|i IH]; intros [|n] e m on ps Ee Hej Hn Hc; try lia; cbn [refine_loop]; rewrite (Z.shiftr_div_pow2 (2 ^ j)) by lia; rewrite <- Z.pow_sub_r by lia.
  - replace e with (j - 10) by lia. rewrite Z.eqb_refl. unfold mret, M_ret. do 4 f_equal. lia.
  - destruct (Z.eqb_spec (2 ^ e) (2 ^ (j - 10))) as [E|_]; [apply Z.pow_inj_r in E; lia|].
    assert (2 ^ e < 2 ^ j) by (apply Z.pow_lt_mono_r; lia). assert (2 ^ j <= 2 ^ 30) by (apply Z.pow_le_mono_r; lia). assert (0 < 2 ^ e) by (apply Z.pow_pos_nonneg; lia).
    rewrite high_or, too_many_ok by (try change (2 ^ 32) with 4294967296; change (2 ^ 30) with 1073741824 in *; lia). rewrite (proj2 (Z.ltb_ge _ _)) by lia.
    rewrite (bind_ok _ _ _ tt (Delays ((2 * m + 1) * 2 ^ e) on ps)).
    2:{ rewrite (bind_ok _ _ _ (2 * m * 2 ^ e) (Delays (2 * m * 2 ^ e) on ps)) by done. cbv beta. unfold set_loops. cbn [timer_intr_on pauses]. by rewrite lor_next_bit by lia. }
    cbv beta. assert (Eh : 2 ^ e = 2 * 2 ^ (e - 1)) by (rewrite <- Z.pow_succ_r by lia; f_equal; lia). rewrite (Z.shiftr_div_pow2 (2 ^ e)), <- Z.pow_sub_r by lia.
    replace ((2 * m + 1) * 2 ^ e) with (2 * (2 * m + 1) * 2 ^ (e - 1)) by lia. rewrite (IH n (e - 1) (2 * m + 1) on ps) by lia. do 4 f_equal. lia.
Qed.

(** The first bit that fits is between half of what is left and all of it. *)
Lemma refine_ok j (Hj : 10 <= j <= 30) (i : nat) : forall n e on ps, e = j - 10 + Z.of_nat i -> e < j -> (i < n)%nat -> 2 ^ j <= cap < 2 ^ j + 2 * 2 ^ e ->
  exists l, refine_loop ticks_during n (2 ^ j) (2 ^ e) (Delays (2 ^ j) on ps) = Ok (tt, Delays l on ps) /\ 3 * cap < 4 * l /\ 3 * l < 4 * cap.
Proof using Hcap.
  induction i as [|i IH]; intros [|n] e on ps Ee Hej Hn Hc; try lia; assert (E10 : 2 ^ j = 1024 * 2 ^ (j - 10)) by (change 1024 with (2 ^ 10); rewrite <- Z.pow_add_r by lia; f_equal; lia); assert (Hg : 0 < 2 ^ (j - 10)) by (apply Z.pow_pos_nonneg; lia).
  - cbn [refine_loop]. rewrite (Z.shiftr_div_pow2 (2 ^ j)) by lia. rewrite <- Z.pow_sub_r by lia. replace e with (j - 10) in * by lia. rewrite Z.eqb_refl. exists (2 ^ j). split; [done|]. lia.
  - destruct (Z_le_gt_dec (2 ^ j + 2 ^ e) cap) as [Hfit|Hbig].
    + assert (Em : 2 ^ j = 2 * 2 ^ (j - e - 1) * 2 ^ e) by (replace j with (1 + (j - e - 1) + e) at 1 by lia; rewrite !Z.pow_add_r by lia; lia).
      pose proof (refine_rest j Hj (S i) (S n) e (2 ^ (j - e - 1)) on ps Ee Hej Hn Hfit) as E. rewrite <- Em in E. eexists. split; [exact E|].
      assert (2 * 2 ^ e <= 2 ^ j) by (rewrite <- Z.pow_succ_r by lia; apply Z.pow_le_mono_r; lia).
      assert (2 * 2 ^ (j - 10) <= 2 ^ e) by (rewrite <- Z.pow_succ_r by lia; apply Z.pow_le_mono_r; lia). lia.
    + cbn [refine_loop]. rewrite (Z.shiftr_div_pow2 (2 ^ j)) by lia. rewrite <- Z.pow_sub_r by lia. destruct (Z.eqb_spec (2 ^ e) (2 ^ (j - 10))) as [E|_]; [apply Z.pow_inj_r in E; lia|].
      assert (2 ^ e < 2 ^ j) by (apply Z.pow_lt_mono_r; lia). assert (2 ^ j <= 2 ^ 30) by (apply Z.pow_le_mono_r; lia). assert (0 < 2 ^ e) by (apply Z.pow_pos_nonneg; lia).
      rewrite high_or, too_many_ok by (try change (2 ^ 32) with 4294967296; change (2 ^ 30) with 1073741824 in *; lia). rewrite (proj2 (Z.ltb_lt _ _)) by lia.
      rewrite (bind_ok _ _ _ tt (Delays (2 ^ j) on ps)) by done. cbv beta. rewrite (Z.shiftr_div_pow2 (2 ^ e)), <- Z.pow_sub_r by lia.
      assert (Eh : 2 ^ e = 2 * 2 ^ (e - 1)) by (rewrite <- Z.pow_succ_r by lia; f_equal; lia). apply IH; lia.
Qed.

Lemma calibrate_ok l0 ps : 1024 <= cap < 2 ^ 31 -> exists l, timer_calibrate ticks_during (Delays l0 true ps) = Ok (tt, Delays l true ps) /\ 3 * cap < 4 * l /\ 3 * l < 4 * cap.
Proof using Hcap.
  intros Hc. unfold timer_calibrate. rewrite (bind_ok _ _ _ true (Delays l0 true ps)) by done. cbv beta. rewrite (bind_ok _ _ _ tt (Delays l0 true ps)) by done. cbv beta.
  rewrite (bind_ok _ _ _ tt (Delays (2 ^ 10) true ps)) by done. cbv beta.
  destruct (double_loop_ok 33 10 true ps) as (j & Hj & Hcj & E); [lia|change (2 ^ 10) with 1024; lia|lia|]. mstep E.
  rewrite (bind_ok _ _ _ (2 ^ j) (Delays (2 ^ j) true ps)) by done. cbv beta. rewrite Z.shiftr_div_pow2, <- Z.pow_sub_r by lia.
  apply (refine_ok j ltac:(lia) 9); [lia|lia|lia|]. assert (2 ^ (j + 1) = 2 * 2 ^ j) by (rewrite <- Z.pow_succ_r by lia; f_equal; lia).
  assert (2 ^ j = 2 * 2 ^ (j - 1)) by (rewrite <- Z.pow_succ_r by lia; f_equal; lia). lia.
Qed.

(** ** Delays *)

Lemma delay_loops l num denom : 0 <= l < 2 ^ 32 -> 0 <= num < 10 ^ 7 -> denom = 1000 \/ denom = 1000000 \/ denom = 1000000000 ->
  let n := Z.quot (s64 (Z.quot (s64 (l * num)) 1000 * TIMER_FREQ)) (Z.quot denom 1000) in denom * n <= 100 * l * num < denom * (n + 1) + 100000.
Proof using Type.
  clear. intros Hl Hn Hd n. change (2 ^ 32) with 4294967296 in Hl. change (10 ^ 7) with 10000000 in Hn. assert (Hp : 0 <= l * num < 42949672960000000) by nia.
  unfold n, TIMER_FREQ. rewrite (s64_small (l * num)) by lia. rewrite (Z.quot_div_nonneg (l * num)) by lia. pose proof (Z.div_mod (l * num) 1000 ltac:(lia)) as D1. pose proof (Z.mod_pos_bound (l * num) 1000 ltac:(lia)) as D2.
  set (a := l * num / 1000) in *. assert (Ha : 0 <= a) by (unfold a; apply Z.div_pos; lia). rewrite s64_small by lia.
  assert (Hq : exists q, Z.quot denom 1000 = q /\ denom = 1000 * q /\ 0 < q) by (destruct Hd as [-> |[-> | ->]]; [exists 1|exists 1000|exists 1000000]; done).
  destruct Hq as (q & -> & -> & Hq). rewrite Z.quot_div_nonneg by lia. pose proof (Z.div_mod (a * 100) q ltac:(lia)). pose proof (Z.mod_pos_bound (a * 100) q ltac:(lia)). set (r := a * 100 / q) in *. clearbody r a. nia.
Qed.

(** C36: on a machine that runs CAP loops in a tick, calibration ends with a number of loops between three quarters and four
    thirds of CAP, and fails its assertion when CAP does not fit: the bits are tried one by one against the top bit, so that
    all bits below the first one that fits are set, and the loops may take longer than a tick.  A sleep of a tick or
    more is that many whole ticks, rounded down; a shorter one is a loop of that share of the calibrated loops up to rounding,
    which no intermediate product overflows. *)
Theorem timer_delays_correct l0 ps num denom : 1024 <= cap -> denom = 1000 \/ denom = 1000000 \/ denom = 1000000000 -> 0 <= num < 2 ^ 56 ->
  if cap <? 2 ^ 31 then
    exists l, timer_calibrate ticks_during (Delays l0 true ps) = Ok (tt, Delays l true ps) /\ 3 * cap < 4 * l /\ 3 * l < 4 * cap /\
      if denom <=? 100 * num then
        exists t, real_time_sleep num denom (Delays l true ps) = Ok (tt, Delays l true (ps ++ [Slept t])) /\ 0 < t /\ denom * t <= 100 * num < denom * (t + 1)
      else
        exists n, real_time_sleep num denom (Delays l true ps) = Ok (tt, Delays l true (ps ++ [Looped n])) /\ denom * n <= 100 * l * num < denom * (n + 1) + 100000
  else timer_calibrate ticks_during (Delays l0 true ps) = Err EAssert.
Proof using Hcap.
  intros Hc Hd Hn. destruct (Z.ltb_spec cap (2 ^ 31)) as [Hlt|Hge].
  - destruct (calibrate_ok l0 ps (conj Hc Hlt)) as (l & E & L1 & L2). exists l. split; [exact E|]. split; [exact L1|]. split; [exact L2|]. change (2 ^ 31) with 2147483648 in Hlt. change (2 ^ 56) with 72057594037927936 in Hn.
    assert (Hs : forall m, (if 0 <? Z.quot (s64 (num * TIMER_FREQ)) denom then pause_for (Slept (Z.quot (s64 (num * TIMER_FREQ)) denom)) else real_time_delay num denom) (Delays l true ps) = m ->
      real_time_sleep num denom (Delays l true ps) = m) by (by intros m <-).
    assert (Eq : Z.quot (s64 (num * TIMER_FREQ)) denom = 100 * num / denom) by (unfold TIMER_FREQ; rewrite s64_small, Z.quot_div_nonneg by lia; f_equal; lia). rewrite Eq in Hs.
    pose proof (Z.div_mod (100 * num) denom ltac:(lia)). pose proof (Z.mod_pos_bound (100 * num) denom ltac:(lia)). destruct (Z.leb_spec denom (100 * num)) as [Hle|Hgt].
    + assert (0 < 100 * num / denom) by (apply Z.div_str_pos; lia). set (q := 100 * num / denom) in *. exists q. split; [|clearbody q; nia]. apply Hs. by rewrite (proj2 (Z.ltb_lt _ _)).
    + assert (100 * num / denom = 0) as E0 by (apply Z.div_small; lia). rewrite E0 in Hs. cbn [Z.ltb Z.compare] in Hs. eexists. split.
      * apply Hs. unfold real_time_delay. rewrite (bind_ok _ _ _ tt (Delays l true ps)) by (destruct Hd as [-> |[-> | ->]]; done). reflexivity.
      * cbn [loops_per_tick]. apply delay_loops; [change (2 ^ 32) with 4294967296; lia|change (10 ^ 7) with 10000000; lia|done].
  - unfold timer_calibrate. rewrite (bind_ok _ _ _ true (Delays l0 true ps)) by done. cbv beta. rewrite (bind_ok _ _ _ tt (Delays l0 true ps)) by done. cbv beta.
    rewrite (bind_ok _ _ _ tt (Delays (2 ^ 10) true ps)) by done. cbv beta. apply bind_err. apply double_overflow; lia.
Qed.

End Accuracy.

(** On a machine with 1600000 loops per tick calibration finds 2095104, more than fit in a tick; then a sleep of 25 ms
    is two ticks and one of 10 us a loop. *)
Definition demo_ticks (n : Z) : Z := n / 1600001.

Lemma demo_ticks_ok n : 0 <= n < 2 ^ 32 -> (demo_ticks n = 0 <-> n <= 1600000).
Proof. intros Hn. unfold demo_ticks. rewrite Z.div_small_iff by lia. lia. Qed.

Lemma timer_delays_correct_witness :
  (exists l, timer_calibrate demo_ticks (Delays 0 true []) = Ok (tt, Delays l true []) /\ 3 * 1600000 < 4 * l /\ 3 * l < 4 * 1600000) /\
  timer_calibrate demo_ticks (Delays 0 true []) = Ok (tt, Delays 2095104 true []) /\
  timer_msleep 25 (Delays 2095104 true []) = Ok (tt, Delays 2095104 true [Slept 2]).
Proof.
  split; [|split; [vm_compute; reflexivity|vm_compute; reflexivity]].
  destruct (timer_delays_correct demo_ticks 1600000 demo_ticks_ok 0 [] 25 1000 ltac:(lia) ltac:(by left) ltac:(lia)) as (l & H1 & H2 & H3 & _). exists l. split; [exact H1|split; [exact H2|exact H3]].
Defined.

Lemma pit_rate_nearest_witness : exists s, pit_configure_channel 0 2 100 [] = Ok (tt, s) /\ pit_count s 0 = 11932.
Proof.
  destruct (pit_rate_nearest 0 2 100 ltac:(by left) ltac:(by left)) as (s & E & _). exists s. split; [exact E|]. vm_compute in E. injection E as <-. vm_compute. reflexivity.
Defined.
