(* ===== verification/Vga.v ===== *)
(** * The text display and the console: [devices/vga.c] and [lib/kernel/console.c]

    [fb] has the bytes of the frame buffer, [out] the words written to the
    ports of the controller, the newest first; a store outside of the 25 rows of 80 columns stops with
    [EFault].  HI and LO are what the controller answers when it
    is asked for the cursor.  The reference is a paper tape without an end, of which the
    display shows 25 rows.  The console comes last: it sends every character to
    the serial port, of which the bytes are recorded, and to the display, under a lock that its holder can take again. *)

From Stdlib Require Import Strings.Ascii Strings.String.
From S2P Require Import Prelude ListModel Bytes CString CStringRep Stdio StdioThms.

Definition COL_CNT : Z := 80.
Definition ROW_CNT : Z := 25.
Definition GRAY_ON_BLACK : Z := 7.

Definition u16 (z : Z) : Z := z mod 65536.

Record vga := Vga { inited : bool; cx : Z; cy : Z; fb : Z -> Z; out : list (Z * Z) }.

Definition set_cursor (x y : Z) : M vga unit := fun s => Ok (tt, Vga (inited s) x y (fb s) (out s)).
Definition outport (port v : Z) : M vga unit := fun s => Ok (tt, Vga (inited s) (cx s) (cy s) (fb s) ((port, v) :: out s)).

(** The address of [fb[y][x][k]], and a store to it. *)
Definition cell (y x k : Z) : Z := 2 * (COL_CNT * y + x) + k.

Definition put_cell (y x k v : Z) : M vga unit := fun s =>
  if (0 <=? y) && (y <? ROW_CNT) && (0 <=? x) && (x <? COL_CNT) then
    Ok (tt, Vga (inited s) (cx s) (cy s) (fun a => if a =? cell y x k then u8 v else fb s a) (out s))
  else Err EFault.

Fixpoint clear_row_loop (n : nat) (y x : Z) : M vga unit :=
  match n with
  | O => mret tt
  | S n => put_cell y x 0 32;; put_cell y x 1 GRAY_ON_BLACK;; clear_row_loop n y (x + 1)
  end.

Definition clear_row (y : Z) : M vga unit := clear_row_loop (Z.to_nat COL_CNT) y 0.

(** [memmove (&fb[0], &fb[1], sizeof fb[0] * (ROW_CNT - 1))]. *)
Definition move_rows : M vga unit := fun s =>
  let size := 2 * COL_CNT in
  Ok (tt, Vga (inited s) (cx s) (cy s)
            (fun a => if (0 <=? a) && (a <? size * (ROW_CNT - 1)) then fb s (a + size) else fb s a) (out s)).

Definition newline : M vga unit :=
  s ← get;
  set_cursor 0 (cy s + 1);;
  if ROW_CNT <=? cy s + 1 then
    set_cursor 0 (ROW_CNT - 1);;
    move_rows;;
    clear_row (ROW_CNT - 1)
  else mret tt.

Definition move_cursor : M vga unit :=
  s ← get;
  let cp := u16 (cx s + COL_CNT * cy s) in
  outport 980 (Z.lor 14 (Z.land cp 65280));;
  outport 980 (u16 (Z.lor 15 (Z.shiftl cp 8))).

Fixpoint cls_loop (n : nat) (y : Z) : M vga unit :=
  match n with O => mret tt | S n => clear_row y;; cls_loop n (y + 1) end.

Definition cls : M vga unit :=
  cls_loop (Z.to_nat ROW_CNT) 0;;
  set_cursor 0 0;;
  move_cursor.

Section Vga.
Context (hi lo : Z).

Definition find_cursor : M vga (Z * Z) :=
  outport 980 14;;
  outport 980 15;;
  let cp := Z.lor (u16 (Z.shiftl (u8 hi) 8)) (u8 lo) in
  mret (cp mod COL_CNT, cp / COL_CNT).

Definition init : M vga unit :=
  s ← get;
  if negb (inited s) then
    p ← find_cursor;
    s ← get;
    put (Vga true p.1 p.2 (fb s) (out s))
  else mret tt.

(** The beep of the speaker is not part of the state. *)
Definition vga_putc (c : Z) : M vga unit :=
  init;;
  s ← get;
  (if c =? 10 then newline
   else if c =? 12 then cls
   else if c =? 8 then (if 0 <? cx s then set_cursor (cx s - 1) (cy s) else mret tt)
   else if c =? 13 then set_cursor 0 (cy s)
   else if c =? 9 then
     let x := (cx s + 1 + 8 - 1) / 8 * 8 in
     set_cursor x (cy s);;
     (if COL_CNT <=? x then newline else mret tt)
   else if c =? 7 then mret tt
   else
     put_cell (cy s) (cx s) 0 c;;
     put_cell (cy s) (cx s) 1 GRAY_ON_BLACK;;
     set_cursor (cx s + 1) (cy s);;
     (if COL_CNT <=? cx s + 1 then newline else mret tt));;
  move_cursor.

Fixpoint vga_puts (cs : list Z) : M vga unit :=
  match cs with [] => mret tt | c :: cs => vga_putc c;; vga_puts cs end.

End Vga.

(** ** The tape *)

(** What is in each row and column, the first row on the display, and the
    position of the cursor. *)
Record tape := Tape { t_cell : Z -> Z -> Z * Z; base : Z; row : Z; col : Z }.

Definition blank : Z * Z := (32, 7).

Definition tape_newline (t : tape) : tape := Tape (t_cell t) (Z.max (base t) (row t + 1 - 24)) (row t + 1) 0.

Definition tape_put (t : tape) (c : Z) : tape :=
  if c =? 10 then tape_newline t
  else if c =? 12 then Tape (fun y x => if base t <=? y then blank else t_cell t y x) (base t) (base t) 0
  else if c =? 8 then Tape (t_cell t) (base t) (row t) (Z.max 0 (col t - 1))
  else if c =? 13 then Tape (t_cell t) (base t) (row t) 0
  else if c =? 9 then
    (if 72 <=? col t then tape_newline t else Tape (t_cell t) (base t) (row t) (8 * (col t / 8 + 1)))
  else if c =? 7 then t
  else
    let t' := Tape (fun y x => if (y =? row t) && (x =? col t) then (u8 c, 7) else t_cell t y x) (base t) (row t) (col t + 1) in
    if col t =? 79 then tape_newline t' else t'.

(** The display shows the tape: its rows, and the column of the cursor. *)
Record rows_shown (v : vga) (t : tape) : Prop := {
  sh_inited : inited v = true;
  sh_row : cy v = row t - base t /\ 0 <= row t - base t < 25;
  sh_cells y x : 0 <= y < 25 -> 0 <= x < 80 -> (fb v (cell y x 0), fb v (cell y x 1)) = t_cell t (base t + y) x;
  sh_below y x : base t + 25 <= y -> t_cell t y x = blank
}.

Definition shown (v : vga) (t : tape) : Prop := rows_shown v t /\ cx v = col t /\ 0 <= col t < 80.

(** The position that the controller was told last. *)
Definition told (v : vga) : option Z :=
  match out v with
  | (p1, low) :: (p2, high) :: _ =>
      if (p1 =? 980) && (p2 =? 980) && (low mod 256 =? 15) && (high mod 256 =? 14) then Some (high / 256 * 256 + low / 256) else None
  | _ => None
  end.

(** ** The operations on the display *)

(** Everything but the frame buffer is the same. *)
Definition same_regs (v v' : vga) : Prop := inited v' = inited v /\ cx v' = cx v /\ cy v' = cy v /\ out v' = out v.

Definition on_screen (y x k : Z) : Prop := 0 <= y < 25 /\ 0 <= x < 80 /\ 0 <= k < 2.

Lemma cell_inj y x k y' x' k' : on_screen y x k -> on_screen y' x' k' -> cell y x k = cell y' x' k' -> y = y' /\ x = x' /\ k = k'.
Proof. unfold on_screen, cell, COL_CNT. lia. Qed.

Lemma put_cell_ok v y x k c : on_screen y x k -> exists v', put_cell y x k c v = Ok (tt, v') /\ same_regs v v' /\
  fb v' (cell y x k) = u8 c /\ (forall y' x' k', on_screen y' x' k' -> (y', x', k') <> (y, x, k) -> fb v' (cell y' x' k') = fb v (cell y' x' k')).
Proof.
  intros Hon. unfold put_cell. destruct Hon as (Hy & Hx & Hk). rewrite !(proj2 (Z.leb_le _ _)), !(proj2 (Z.ltb_lt _ _)) by (unfold ROW_CNT, COL_CNT; lia). cbn [andb].
  eexists. split; [reflexivity|]. split; [by repeat split|]. cbn [fb]. rewrite Z.eqb_refl. split; [done|]. intros y' x' k' Hon' Hne.
  destruct (Z.eqb_spec (cell y' x' k') (cell y x k)) as [E|E]; [|done]. destruct Hne. apply cell_inj in E as (-> & -> & ->); [done|done|]. exact (conj Hy (conj Hx Hk)).
Qed.

Lemma clear_row_loop_ok n : forall v y x, 0 <= y < 25 -> 0 <= x -> x + Z.of_nat n = 80 -> exists v', clear_row_loop n y x v = Ok (tt, v') /\ same_regs v v' /\
  forall y' x' k, on_screen y' x' k -> fb v' (cell y' x' k) = if (y' =? y) && (x <=? x') then (if k =? 0 then 32 else 7) else fb v (cell y' x' k).
Proof.
  induction n as [|n IH]; intros v y x Hy Hx Hn; cbn [clear_row_loop].
  - exists v. split; [done|]. split; [by repeat split|]. intros y' x' k (_ & Hx' & _). destruct (Z.leb_spec x x'); [lia|]. by rewrite andb_false_r.
  - destruct (put_cell_ok v y x 0 32) as (v1 & E1 & S1 & H1 & H1'); [by repeat split; lia|]. mstep E1.
    destruct (put_cell_ok v1 y x 1 GRAY_ON_BLACK) as (v2 & E2 & S2 & H2 & H2'); [by repeat split; lia|]. mstep E2.
    destruct (IH v2 y (x + 1)) as (v' & E & S & H); [lia..|]. exists v'. split; [done|].
    split; [unfold same_regs in *; intuition congruence|]. intros y' x' k Hon. rewrite (H y' x' k Hon).
    destruct (Z.eqb_spec y' y) as [->|Hne]; cbn [andb].
    + destruct (Z.leb_spec (x + 1) x'), (Z.leb_spec x x'); try lia.
      * assert (x' = x) as -> by lia. destruct (Z.eqb_spec k 0) as [->|Hk].
        -- rewrite H2'; [exact H1|done|congruence].
        -- assert (k = 1) as -> by (destruct Hon; lia). exact H2.
      * rewrite H2', H1'; [done|done| |done|]; intros [=]; lia.
    + rewrite H2', H1'; [done|done|congruence|done|congruence].
Qed.

Lemma clear_row_ok v y : 0 <= y < 25 -> exists v', clear_row y v = Ok (tt, v') /\ same_regs v v' /\
  forall y' x' k, on_screen y' x' k -> fb v' (cell y' x' k) = if y' =? y then (if k =? 0 then 32 else 7) else fb v (cell y' x' k).
Proof.
  intros Hy. destruct (clear_row_loop_ok (Z.to_nat COL_CNT) v y 0) as (v' & E & S & H); [lia|lia|unfold COL_CNT; lia|]. exists v'. split; [done|]. split; [done|].
  intros y' x' k Hon. rewrite (H y' x' k Hon). destruct Hon as (_ & Hx & _). by rewrite (proj2 (Z.leb_le 0 x')), andb_true_r by lia.
Qed.

Lemma cls_loop_ok n : forall v y, 0 <= y -> y + Z.of_nat n = 25 -> exists v', cls_loop n y v = Ok (tt, v') /\ same_regs v v' /\
  forall y' x' k, on_screen y' x' k -> fb v' (cell y' x' k) = if y <=? y' then (if k =? 0 then 32 else 7) else fb v (cell y' x' k).
Proof.
  induction n as [|n IH]; intros v y Hy Hn; cbn [cls_loop].
  - exists v. split; [done|]. split; [by repeat split|]. intros y' x' k (Hy' & _). by destruct (Z.leb_spec y y'); [lia|].
  - destruct (clear_row_ok v y) as (v1 & E1 & S1 & H1); [lia|]. mstep E1. destruct (IH v1 (y + 1)) as (v' & E & S & H); [lia..|].
    exists v'. split; [done|]. split; [unfold same_regs in *; intuition congruence|]. intros y' x' k Hon. rewrite (H y' x' k Hon), (H1 y' x' k Hon).
    destruct (Z.leb_spec (y + 1) y'), (Z.leb_spec y y'), (Z.eqb_spec y' y); try done; lia.
Qed.

Lemma move_cursor_ok v : 0 <= cx v < 80 -> 0 <= cy v < 25 -> exists v', move_cursor v = Ok (tt, v') /\
  inited v' = inited v /\ cx v' = cx v /\ cy v' = cy v /\ fb v' = fb v /\ told v' = Some (cx v + 80 * cy v).
Proof.
  intros Hx Hy. unfold move_cursor. eexists. split; [reflexivity|]. cbn [inited cx cy fb]. split_and!; try done.
  unfold told. cbn [out]. set (p := cx v + 80 * cy v). change (cx v + COL_CNT * cy v) with p. assert (Hp : 0 <= p < 2000) by (unfold p; lia). clearbody p.
  assert (H : forallb (fun p => match told (Vga true 0 0 (fun _ => 0) [(980, u16 (Z.lor 15 (Z.shiftl (u16 p) 8))); (980, Z.lor 14 (Z.land (u16 p) 65280))]) with Some q => q =? p | None => false end)
    (map Z.of_nat (seq 0 2000)) = true) by (vm_compute; reflexivity).
  pose proof (proj1 (forallb_forall _ _) H p) as Hq. cbv beta in Hq. unfold told in Hq. cbn [out] in Hq.
  destruct (_ && _); [|by specialize (Hq ltac:(apply in_map_iff; exists (Z.to_nat p); split; [lia|apply in_seq; lia]))].
  f_equal. apply Z.eqb_eq, Hq. apply in_map_iff. exists (Z.to_nat p). split; [lia|]. apply in_seq. lia.
Qed.

Lemma rows_shown_same v v' t t' : rows_shown v t -> inited v' = inited v -> cy v' = cy v -> fb v' = fb v ->
  t_cell t' = t_cell t -> base t' = base t -> row t' = row t -> rows_shown v' t'.
Proof. intros [H1 H2 H3 H4] E1 E2 E3 E4 E5 E6. split; rewrite ?E1, ?E2, ?E3, ?E4, ?E5, ?E6; done. Qed.

Lemma newline_ok v t : rows_shown v t -> exists v', newline v = Ok (tt, v') /\ shown v' (tape_newline t).
Proof.
  intros [H1 [H2 H2'] H3 H4]. unfold newline. rewrite (bind_ok _ _ _ v v) by reflexivity. cbv beta.
  rewrite (bind_ok _ _ _ tt (Vga (inited v) 0 (cy v + 1) (fb v) (out v))) by reflexivity. cbv beta.
  unfold tape_newline, shown. cbn [col]. destruct (Z.leb_spec ROW_CNT (cy v + 1)) as [Hge|Hlt]; unfold ROW_CNT in *.
  - rewrite (bind_ok _ _ _ tt (Vga (inited v) 0 (25 - 1) (fb v) (out v))) by reflexivity. cbv beta.
    rewrite (bind_ok _ _ _ tt (Vga (inited v) 0 (25 - 1) (fun a => if (0 <=? a) && (a <? 2 * COL_CNT * (ROW_CNT - 1)) then fb v (a + 2 * COL_CNT) else fb v a) (out v))) by reflexivity. cbv beta.
    set (v1 := Vga _ _ _ _ _). destruct (clear_row_ok v1 24) as (v' & E & (S1 & S2 & S3 & S4) & H); [lia|]. exists v'. split; [exact E|].
    split; [|rewrite S2; cbn [cx v1]; lia]. replace (Z.max (base t) (row t + 1 - 24)) with (base t + 1) by lia.
    split; cbn [base row t_cell]; rewrite ?S1, ?S3; cbn [inited cy v1]; [done|lia| |intros y x Hy; apply H4; lia].
    intros y x Hy Hx. rewrite !H by (repeat split; lia). destruct (Z.eqb_spec y 24) as [->|Hne].
    + rewrite !Z.eqb_refl. cbn. symmetry. apply H4. lia.
    + assert (Hrow : forall k, 0 <= k < 2 -> fb v1 (cell y x k) = fb v (cell (y + 1) x k)).
      { intros k Hk. unfold v1. cbn [fb]. unfold cell, COL_CNT, ROW_CNT. rewrite (proj2 (Z.leb_le _ _)), (proj2 (Z.ltb_lt _ _)) by lia. cbn [andb]. f_equal. lia. }
      rewrite !Hrow by lia. rewrite H3 by lia. f_equal. lia.
  - eexists. split; [reflexivity|]. split; [|cbn [cx]; lia]. replace (Z.max (base t) (row t + 1 - 24)) with (base t) by lia.
    split; cbn [base row t_cell inited cy fb]; [done|lia|done|done].
Qed.

Lemma put_char_ok v t c : shown v t -> exists v1 v2, put_cell (cy v) (cx v) 0 c v = Ok (tt, v1) /\ put_cell (cy v) (cx v) 1 GRAY_ON_BLACK v1 = Ok (tt, v2) /\
  same_regs v v2 /\
  rows_shown v2 (Tape (fun y x => if (y =? row t) && (x =? col t) then (u8 c, 7) else t_cell t y x) (base t) (row t) (col t + 1)).
Proof.
  intros ([H1 [H2 H2'] H3 H4] & Hc & Hc').
  destruct (put_cell_ok v (cy v) (cx v) 0 c) as (v1 & E1 & S1 & G1 & G1'); [by repeat split; lia|].
  destruct (put_cell_ok v1 (cy v) (cx v) 1 GRAY_ON_BLACK) as (v2 & E2 & S2 & G2 & G2'); [by repeat split; lia|].
  exists v1, v2. split; [done|]. split; [done|]. assert (S : same_regs v v2) by (unfold same_regs in *; intuition congruence). split; [done|].
  destruct S as (Sa & Sb & Sc & Sd). split; cbn [base row t_cell]; rewrite ?Sa, ?Sc; [done|lia| |].
  - intros y x Hy Hx. destruct (Z.eqb_spec (base t + y) (row t)) as [Ey|Ey]; [destruct (Z.eqb_spec x (col t)) as [Ex|Ex]|]; cbn [andb].
    + replace y with (cy v) by lia. replace x with (cx v) by lia. rewrite G2. rewrite G2'; [by rewrite G1|repeat split; lia|congruence].
    + rewrite !G2', !G1', H3; try (repeat split; lia); try done; intros [=]; lia.
    + rewrite !G2', !G1', H3; try (repeat split; lia); try done; intros [=]; lia.
  - intros y x Hy. destruct (Z.eqb_spec y (row t)); [lia|]. cbn [andb]. by apply H4.
Qed.

Lemma init_ok hi lo v : inited v = true -> init hi lo v = Ok (tt, v).
Proof. intros H. unfold init. rewrite (bind_ok _ _ _ v v) by reflexivity. cbv beta. by rewrite H. Qed.

Definition screen_pos (t : tape) : Z := col t + 80 * (row t - base t).

(** After the switch the cursor is moved. *)
Lemma finish_ok (m : M vga unit) v v1 t : m v = Ok (tt, v1) -> shown v1 t ->
  exists v', (m;; move_cursor) v = Ok (tt, v') /\ shown v' t /\ told v' = Some (screen_pos t).
Proof.
  intros Hm [Hr [Hc Hc']]. mstep Hm. destruct (sh_row _ _ Hr) as [Hy Hy'].
  destruct (move_cursor_ok v1) as (v' & E & F1 & F2 & F3 & F4 & F5); [lia..|]. exists v'. split; [done|]. split.
  - split; [by apply (rows_shown_same v1 v' t t)|]. by rewrite F2.
  - rewrite F5. unfold screen_pos. f_equal. lia.
Qed.

Lemma vga_putc_ok hi lo v t c : shown v t ->
  exists v', vga_putc hi lo c v = Ok (tt, v') /\ shown v' (tape_put t c) /\ told v' = Some (screen_pos (tape_put t c)).
Proof.
  intros Hs. destruct Hs as [Hr [Hc Hc']]. unfold vga_putc. mstep (init_ok hi lo v (sh_inited _ _ Hr)).
  rewrite (bind_ok _ _ _ v v) by reflexivity. cbv beta. unfold tape_put.
  destruct (c =? 10); [destruct (newline_ok v t Hr) as (v1 & E & H); by apply (finish_ok _ v v1)|].
  destruct (c =? 12).
  { destruct (cls_loop_ok (Z.to_nat ROW_CNT) v 0) as (v1 & E1 & (S1 & S2 & S3 & S4) & H1); [lia|unfold ROW_CNT; lia|].
    set (v2 := Vga (inited v1) 0 0 (fb v1) (out v1)). destruct (move_cursor_ok v2) as (v3 & E3 & F1 & F2 & F3 & F4 & _); [cbn; lia..|].
    apply (finish_ok _ v v3); [unfold cls; mstep E1; rewrite (bind_ok _ _ _ tt v2) by reflexivity; exact E3|].
    clear E1 E3. split; [|rewrite F2; cbn [cx col v2]; lia]. destruct Hr as [R1 R2 R3 R4]. split; cbn [base row t_cell]; rewrite ?F1, ?F3, ?F4; cbn [inited cy fb v2].
    - by rewrite S1.
    - lia.
    - intros y x Hy Hx. rewrite !H1 by (repeat split; lia). rewrite (proj2 (Z.leb_le 0 y)), (proj2 (Z.leb_le _ _)) by lia. done.
    - intros y x Hy. by rewrite (proj2 (Z.leb_le _ _)) by lia. }
  destruct (c =? 8).
  { destruct (Z.ltb_spec 0 (cx v)).
    - eapply (finish_ok _ v (Vga (inited v) (cx v - 1) (cy v) (fb v) (out v))); [reflexivity|]. split; [by apply (rows_shown_same v _ t)|]. cbn [cx col]. lia.
    - apply (finish_ok _ v v); [reflexivity|]. split; [by apply (rows_shown_same v _ t)|]. cbn [cx col]. lia. }
  destruct (c =? 13).
  { eapply (finish_ok _ v (Vga (inited v) 0 (cy v) (fb v) (out v))); [reflexivity|]. split; [by apply (rows_shown_same v _ t)|]. cbn [cx col]. lia. }
  destruct (c =? 9).
  { assert (Ex : (cx v + 1 + 8 - 1) / 8 * 8 = 8 * (col t / 8 + 1)) by (replace (cx v + 1 + 8 - 1) with (col t + 1 * 8) by lia; rewrite Z.div_add by lia; lia).
    cbv zeta. rewrite Ex. set (x := 8 * (col t / 8 + 1)). set (v1 := Vga (inited v) x (cy v) (fb v) (out v)).
    assert (Hr1 : rows_shown v1 t) by by apply (rows_shown_same v _ t). assert (Hx : (72 <= col t -> 80 <= x) /\ (col t < 72 -> x < 80) /\ 0 <= x).
    { pose proof (Z.div_mod (col t) 8 ltac:(lia)). pose proof (Z.mod_pos_bound (col t) 8 ltac:(lia)). unfold x. lia. }
    destruct (Z.leb_spec 72 (col t)) as [H72|H72].
    - destruct (newline_ok v1 t Hr1) as (v2 & E & H). apply (finish_ok _ v v2); [|done]. rewrite (bind_ok _ _ _ tt v1) by reflexivity. cbv beta.
      by rewrite (proj2 (Z.leb_le _ _)) by (unfold COL_CNT; lia).
    - apply (finish_ok _ v v1); [|split; [by apply (rows_shown_same v _ t)|cbn [cx col v1]; fold x; lia]]. rewrite (bind_ok _ _ _ tt v1) by reflexivity. cbv beta.
      by rewrite (proj2 (Z.leb_gt _ _)) by (unfold COL_CNT; lia). }
  destruct (c =? 7); [apply (finish_ok _ v v); [reflexivity|by split]|]. cbv zeta.
  destruct (put_char_ok v t c) as (v1 & v2 & E1 & E2 & (S1 & S2 & S3 & S4) & H2); [by split|]. set (t1 := Tape _ _ _ _) in *.
  set (v3 := Vga (inited v2) (cx v + 1) (cy v) (fb v2) (out v2)).
  assert (Hr3 : rows_shown v3 t1) by (apply (rows_shown_same v2 _ t1); try done; cbn [cy v3]; congruence).
  destruct (Z.eqb_spec (col t) 79) as [H79|H79].
  - destruct (newline_ok v3 t1 Hr3) as (v4 & E & H). apply (finish_ok _ v v4); [|done]. mstep E1. mstep E2. rewrite (bind_ok _ _ _ tt v3) by reflexivity. cbv beta.
    by rewrite (proj2 (Z.leb_le _ _)) by (unfold COL_CNT; lia).
  - apply (finish_ok _ v v3); [|split; [done|cbn [cx col v3 t1]; lia]]. mstep E1. mstep E2. rewrite (bind_ok _ _ _ tt v3) by reflexivity. cbv beta.
    by rewrite (proj2 (Z.leb_gt _ _)) by (unfold COL_CNT; lia).
Qed.

(** The tape at the first use: the contents of the display, and the cursor
    that the controller reports. *)
Definition first_tape (hi lo : Z) (v : vga) : tape :=
  Tape (fun y x => if y <? 25 then (fb v (cell y x 0), fb v (cell y x 1)) else blank) 0 ((256 * hi + lo) / 80) ((256 * hi + lo) mod 80).

Lemma cursor_word hi lo : 0 <= hi < 256 -> 0 <= lo < 256 -> Z.lor (u16 (Z.shiftl (u8 hi) 8)) (u8 lo) = 256 * hi + lo.
Proof.
  intros Hh Hl. unfold u16, u8. rewrite !(Z.mod_small _ 256) by lia. rewrite (Z.mod_small (Z.shiftl hi 8)) by (rewrite Z.shiftl_mul_pow2; lia).
  pose proof (Z.add_lor_land (Z.shiftl hi 8) lo) as E. assert (Hz : Z.land (Z.shiftl hi 8) lo = 0).
  { apply Z.bits_inj_0. intros i. rewrite Z.land_spec. destruct (Z_lt_ge_dec i 8) as [Hi|Hi].
    - destruct (Z_lt_ge_dec i 0); [by rewrite Z.testbit_neg_r|]. by rewrite Z.shiftl_spec_low.
    - rewrite (Z.bits_above_log2 lo), andb_false_r; [done|lia|]. destruct (Z.eq_dec lo 0) as [->|]; [cbn; lia|]. apply Z.log2_lt_pow2; [lia|].
      apply (Z.lt_le_trans _ (2 ^ 8)); [lia|]. apply Z.pow_le_mono_r; lia. }
  rewrite Hz, Z.shiftl_mul_pow2 in E by lia. rewrite Z.shiftl_mul_pow2 by lia. lia.
Qed.

Lemma init_first hi lo v : inited v = false -> 0 <= hi < 256 -> 0 <= lo < 256 -> 256 * hi + lo < 2000 ->
  exists v1, init hi lo v = Ok (tt, v1) /\ shown v1 (first_tape hi lo v).
Proof.
  intros Hi Hh Hl Hc. unfold init. rewrite (bind_ok _ _ _ v v) by reflexivity. cbv beta. rewrite Hi. cbn [negb].
  eexists. split; [reflexivity|]. rewrite (cursor_word hi lo Hh Hl). unfold first_tape, COL_CNT. set (p := 256 * hi + lo) in *.
  pose proof (Z.div_mod p 80 ltac:(lia)) as Ep. pose proof (Z.mod_pos_bound p 80 ltac:(lia)) as Em.
  split; [split; cbn [inited cy fb row base t_cell fst snd]|cbn [cx col fst]; done].
  - done.
  - split; [lia|]. assert (0 <= p) by (unfold p; lia). split; [|]; nia.
  - intros y x Hy Hx. rewrite Z.add_0_l, (proj2 (Z.ltb_lt _ _)) by lia. done.
  - intros y x Hy. by rewrite (proj2 (Z.ltb_ge _ _)) by lia.
Qed.

(** ** Text *)

Definition printable (c : Z) : bool := negb ((c =? 7) || (c =? 8) || (c =? 9) || (c =? 10) || (c =? 12) || (c =? 13)).

Lemma tape_put_printable t c : printable c = true -> 0 <= col t < 80 ->
  let t' := tape_put t c in
  0 <= col t' < 80 /\ 80 * row t' + col t' = 80 * row t + col t + 1 /\ base t <= base t' /\
  forall y x, t_cell t' y x = if (y =? row t) && (x =? col t) then (u8 c, 7) else t_cell t y x.
Proof.
  unfold printable, tape_put. intros Hc Ht. apply negb_true_iff in Hc. repeat (apply orb_false_iff in Hc as [Hc ?]).
  repeat match goal with H : (c =? _) = false |- _ => rewrite H; clear H end. cbv zeta.
  destruct (Z.eqb_spec (col t) 79); unfold tape_newline; cbn [col row base t_cell]; (split_and!; [lia..|done]).
Qed.

Lemma tape_text cs : forall t, forallb printable cs = true -> 0 <= col t < 80 ->
  let t' := fold_left tape_put cs t in
  80 * row t' + col t' = 80 * row t + col t + Z.of_nat (length cs) /\ base t <= base t' /\
  forall y x, 0 <= x < 80 -> t_cell t' y x =
    match (if 80 * row t + col t <=? 80 * y + x then cs !! Z.to_nat (80 * y + x - (80 * row t + col t)) else None) with
    | Some c => (u8 c, 7) | None => t_cell t y x end.
Proof.
  induction cs as [|c cs IH]; intros t Hp Ht; cbn [fold_left length].
  - split; [lia|]. split; [lia|]. intros y x Hx. by destruct (_ <=? _).
  - cbn [forallb] in Hp. apply andb_true_iff in Hp as [Hc Hp]. destruct (tape_put_printable t c Hc Ht) as (H1 & H2 & H3 & H4).
    destruct (IH (tape_put t c) Hp H1) as (G1 & G2 & G3). split; [lia|]. split; [lia|]. intros y x Hx. rewrite (G3 y x Hx), H2, H4.
    destruct (Z.leb_spec (80 * row t + col t + 1) (80 * y + x)), (Z.leb_spec (80 * row t + col t) (80 * y + x)); try lia.
    + replace (Z.to_nat (80 * y + x - (80 * row t + col t))) with (S (Z.to_nat (80 * y + x - (80 * row t + col t + 1)))) by lia.
      set (n := Z.to_nat (80 * y + x - (80 * row t + col t + 1))). change ((c :: cs) !! S n) with (cs !! n).
      destruct (cs !! n); [done|]. destruct (Z.eqb_spec y (row t)), (Z.eqb_spec x (col t)); try done. lia.
    + replace (Z.to_nat (80 * y + x - (80 * row t + col t))) with 0%nat by lia. assert (y = row t) as -> by lia. assert (x = col t) as -> by lia. by rewrite !Z.eqb_refl.
    + destruct (Z.eqb_spec y (row t)), (Z.eqb_spec x (col t)); try done. lia.
Qed.

Lemma vga_puts_ok hi lo cs : forall v t, shown v t -> exists v', vga_puts hi lo cs v = Ok (tt, v') /\ shown v' (fold_left tape_put cs t) /\
  (cs <> [] -> told v' = Some (screen_pos (fold_left tape_put cs t))).
Proof.
  induction cs as [|c cs IH]; intros v t Hs; cbn [vga_puts fold_left]; [by exists v|].
  destruct (vga_putc_ok hi lo v t c Hs) as (v1 & E1 & H1 & T1). mstep E1. destruct (IH v1 (tape_put t c) H1) as (v' & E & H & T).
  exists v'. split; [done|]. split; [done|]. intros _. destruct cs as [|c' cs]; [|by apply T]. cbn [vga_puts] in E. injection E as <-. exact T1.
Qed.

(** The first call asks the controller for the cursor. *)
Lemma vga_puts_first hi lo v v1 c cs : inited v = false -> init hi lo v = Ok (tt, v1) -> inited v1 = true ->
  vga_puts hi lo (c :: cs) v = vga_puts hi lo (c :: cs) v1.
Proof.
  intros Hi H H1. cbn [vga_puts]. assert (E : vga_putc hi lo c v = vga_putc hi lo c v1); [|unfold mbind, M_bind; by rewrite E].
  unfold vga_putc. mstep H. by mstep (init_ok hi lo v1 H1).
Qed.

(** C22: the display is a window on a tape without an end.  Any text written to a display that shows a tape, or that is used for the
    first time with the cursor on the display, leaves it showing the tape with the text on it, control characters and scrolling
    included: no store leaves the frame buffer, the cursor stays on the display, and the controller was told its position.  A text
    without control characters stands in reading order from the cursor on, and what is still on the display shows its characters. *)
Theorem vga_refines_tape hi lo v t c cs :
  shown v t \/ inited v = false /\ 0 <= hi < 256 /\ 0 <= lo < 256 /\ 256 * hi + lo < 2000 /\ t = first_tape hi lo v ->
  let text := c :: cs in let t' := fold_left tape_put text t in
  exists v', vga_puts hi lo text v = Ok (tt, v') /\ shown v' t' /\ told v' = Some (screen_pos t') /\ 0 <= screen_pos t' < 2000 /\
  (forallb printable text = true -> forall i ch, text !! i = Some ch ->
     let p := 80 * row t + col t + Z.of_nat i in let y := p / 80 - base t' in y < 25 /\ (0 <= y -> fb v' (cell y (p mod 80) 0) = u8 ch)).
Proof.
  intros Hv text t'. assert (H : exists v1, shown v1 t /\ vga_puts hi lo text v = vga_puts hi lo text v1).
  { destruct Hv as [Hv|(Hi & Hh & Hl & Hp & ->)]; [by exists v|]. destruct (init_first hi lo v Hi Hh Hl Hp) as (v1 & E1 & H1). exists v1. split; [done|].
    apply vga_puts_first; [done|done|]. apply H1. }
  destruct H as (v1 & H1 & ->). destruct (vga_puts_ok hi lo text v1 t H1) as (v' & E & Hs & Ht). fold t' in Hs, Ht. exists v'.
  destruct Hs as [Hr [Hcx Hcol]]. destruct (sh_row _ _ Hr) as [Hy Hy']. split; [done|]. split; [by split|]. split; [by apply Ht|]. split; [unfold screen_pos; lia|].
  intros Hpr i ch Hi p y. destruct H1 as [_ [_ Hc1]]. destruct (tape_text text t Hpr Hc1) as (G1 & G2 & G3). fold t' in G1, G2, G3.
  apply lookup_lt_Some in Hi as Hlt. pose proof (Z.div_mod p 80 ltac:(lia)) as Ep. pose proof (Z.mod_pos_bound p 80 ltac:(lia)) as Em.
  assert (Hy25 : y < 25) by (unfold y; nia). split; [done|]. intros Hy0. pose proof (sh_cells _ _ Hr y (p mod 80) ltac:(lia) Em) as Hcell.
  replace (base t' + y) with (p / 80) in Hcell by (unfold y; lia). rewrite (G3 _ _ Em), <- Ep in Hcell.
  rewrite (proj2 (Z.leb_le _ _)) in Hcell by (unfold p; lia). replace (Z.to_nat (p - (80 * row t + col t))) with i in Hcell by (unfold p; lia).
  rewrite Hi in Hcell. by injection Hcell.
Qed.

(** A display of dots with the cursor at the end of the last line but one. *)
Definition demo_vga : vga := Vga false 0 0 (fun _ => 46) [].

Lemma vga_refines_tape_witness : exists v', vga_puts 7 127 [72; 105] demo_vga = Ok (tt, v') /\ told v' = Some 1921 /\ fb v' (cell 23 79 0) = 72 /\ fb v' (cell 24 0 0) = 105.
Proof.
  destruct (vga_refines_tape 7 127 demo_vga (first_tape 7 127 demo_vga) 72 [105]) as (v' & E & _ & Ht & _ & Hc); [right; split_and!; [reflexivity|lia..|reflexivity]|].
  exists v'. split; [exact E|]. split; [exact Ht|].
  split; [exact (proj2 (Hc eq_refl 0%nat 72 eq_refl) ltac:(vm_compute; discriminate))|exact (proj2 (Hc eq_refl 1%nat 105 eq_refl) ltac:(vm_compute; discriminate))].
Defined.

(** ** The console *)

(** The holder of the lock, [NULL] when it is free, and the other static
    variables of console.c, with the bytes passed to the serial port and the display. *)
Record con := Con {
  console_lock : Z; use_console_lock : bool; console_lock_depth : Z; write_cnt : Z;
  serial_out : list Z; display : vga
}.

Definition set_lock (holder : Z) (use : bool) (depth : Z) (s : con) : con := Con holder use depth (write_cnt s) (serial_out s) (display s).

Definition console_init : M con unit := fun s => Ok (tt, set_lock NULL true (console_lock_depth s) s).
Definition console_panic : M con unit := fun s => Ok (tt, set_lock (console_lock s) false (console_lock_depth s) s).

Section Console.
(** The answers of the display controller, and who calls: a thread or, for [None], an interrupt handler. *)
Context (hi lo : Z) (me : option Z).

(** False: another thread has the lock, and the caller sleeps. *)
Definition acquire_console : M con bool := fun s =>
  match me with
  | Some t =>
      if use_console_lock s then
        if console_lock s =? t then Ok (true, set_lock t true (s32 (console_lock_depth s + 1)) s)
        else if console_lock s =? NULL then Ok (true, set_lock t true (console_lock_depth s) s)
        else Ok (false, s)
      else Ok (true, s)
  | None => Ok (true, s)
  end.

Definition release_console : M con unit := fun s =>
  match me with
  | Some t =>
      if use_console_lock s then
        if 0 <? console_lock_depth s then Ok (tt, set_lock (console_lock s) true (console_lock_depth s - 1) s)
        else if console_lock s =? t then Ok (tt, set_lock NULL true (console_lock_depth s) s)
        else Err EAssert
      else Ok (tt, s)
  | None => Ok (tt, s)
  end.

Definition console_locked_by_current_thread (s : con) : bool :=
  match me with Some t => negb (use_console_lock s) || (console_lock s =? t) | None => true end.

Definition putchar_have_lock (c : Z) : M con unit :=
  s ← get;
  ASSERT (console_locked_by_current_thread s);;
  match vga_putc hi lo (u8 c) (display s) with
  | Ok (_, v) => put (Con (console_lock s) (use_console_lock s) (console_lock_depth s) (s64 (write_cnt s + 1)) (serial_out s ++ [u8 c]) v)
  | Err e => fail e
  end.

(** [body] between [acquire_console] and [release_console]. *)
Definition with_console {A} (body : M (bytes * con) A) : M (bytes * con) (option A) := fun s =>
  match acquire_console s.2 with
  | Ok (true, x) =>
      match body (s.1, x) with
      | Ok (a, (m, x)) => match release_console x with Ok (_, x) => Ok (Some a, (m, x)) | Err e => Err e end
      | Err e => Err e
      end
  | Ok (false, x) => Ok (None, (s.1, x))
  | Err e => Err e
  end.

Definition on_con {A} (c : M con A) : M (bytes * con) A := fun s => match c s.2 with Ok (a, x) => Ok (a, (s.1, x)) | Err e => Err e end.
Definition on_bytes {A} (c : B A) : M (bytes * con) A := fun s => match c s.1 with Ok (a, m) => Ok (a, (m, s.2)) | Err e => Err e end.

Definition vprintf_helper (c : Z) : M (bytes * (con * Z)) unit := fun s =>
  let '(m, (x, cnt)) := s in
  match putchar_have_lock c x with Ok (_, x) => Ok (tt, (m, (x, s32 (cnt + 1)))) | Err e => Err e end.

Definition vprintf (fuel : nat) (null_string : Z) (format args : list Z) : M (bytes * con) (option Z) :=
  with_console (fun s =>
    match Stdio.vprintf vprintf_helper fst null_string fuel format args (s.1, (s.2, 0)) with
    | Ok (_, (m, (x, cnt))) => Ok (cnt, (m, x))
    | Err e => Err e
    end).

Fixpoint puts_loop (fuel : nat) (s : Z) : M (bytes * con) unit :=
  match fuel with
  | O => fail EFuel
  | S fuel => c ← on_bytes (load s); if c =? 0 then mret tt else on_con (putchar_have_lock c);; puts_loop fuel (s + 1)
  end.

Definition puts (fuel : nat) (s : Z) : M (bytes * con) (option Z) :=
  with_console (puts_loop fuel s;; on_con (putchar_have_lock 10);; mret 0).

Fixpoint putbuf_loop (n : nat) (buffer : Z) : M (bytes * con) unit :=
  match n with
  | O => mret tt
  | S n => c ← on_bytes (load buffer); on_con (putchar_have_lock c);; putbuf_loop n (buffer + 1)
  end.

Definition putbuf (buffer n : Z) : M (bytes * con) (option unit) := with_console (putbuf_loop (Z.to_nat n) buffer).

Definition putchar (c : Z) : M (bytes * con) (option Z) := with_console (on_con (putchar_have_lock c);; mret c).

(** *** What a call leaves behind *)

Definition same_lock (s s' : con) : Prop :=
  console_lock s' = console_lock s /\ use_console_lock s' = use_console_lock s /\ console_lock_depth s' = console_lock_depth s.

(** From S to S' the bytes CS were written, to the serial port and to a display that shows T. *)
Definition wrote (t : tape) (cs : list Z) (s s' : con) : Prop :=
  serial_out s' = serial_out s ++ cs /\ shown (display s') (fold_left tape_put cs t) /\ write_cnt s' = write_cnt s + Z.of_nat (length cs).

(** There is room in the counter for N more. *)
Definition countable (n : nat) (s : con) : Prop := 0 <= write_cnt s /\ write_cnt s + Z.of_nat n < 2 ^ 63.

Lemma wrote_nothing t s s' : serial_out s' = serial_out s -> display s' = display s -> write_cnt s' = write_cnt s -> shown (display s) t -> wrote t [] s s'.
Proof using. intros E1 E2 E3 H. unfold wrote. rewrite E1, E2, E3, app_nil_r. split_and!; [done|done|]. cbn. lia. Qed.

Lemma wrote_more t cs cs' s s1 s2 : wrote t cs s s1 -> wrote (fold_left tape_put cs t) cs' s1 s2 -> wrote t (cs ++ cs') s s2.
Proof using.
  intros (A1 & A2 & A3) (B1 & B2 & B3). unfold wrote. rewrite B1, A1, fold_left_app, length_app, app_assoc. split_and!; [done|done|lia].
Qed.

Lemma same_lock_trans s s1 s2 : same_lock s s1 -> same_lock s1 s2 -> same_lock s s2.
Proof using. intros (A & B & C) (D & E & F). unfold same_lock. by rewrite D, E, F. Qed.

Lemma locked_same s s' : same_lock s s' -> console_locked_by_current_thread s' = console_locked_by_current_thread s.
Proof using. intros (A & B & _). unfold console_locked_by_current_thread. by rewrite A, B. Qed.

Lemma putchar_have_lock_ok c t s : console_locked_by_current_thread s = true -> shown (display s) t -> countable 1 s ->
  exists s', putchar_have_lock c s = Ok (tt, s') /\ same_lock s s' /\ wrote t [u8 c] s s'.
Proof using.
  intros Hl Hs [H0 Hc]. unfold putchar_have_lock. rewrite (bind_ok _ _ _ s s) by done. cbv beta. rewrite (bind_ok _ _ _ tt s) by (by apply ASSERT_true). cbv beta.
  destruct (vga_putc_ok hi lo (display s) t (u8 c) Hs) as (v & E & H & _). rewrite E. eexists. split; [reflexivity|]. split; [done|].
  split; [done|]. split; [exact H|]. cbn [write_cnt length]. rewrite s64_small by lia. lia.
Qed.
(** Threads have addresses, and nobody has taken a free lock again. *)
Definition con_ok (s : con) : Prop := 0 <= console_lock_depth s < 2 ^ 31 - 1 /\ (console_lock s = NULL -> console_lock_depth s = 0) /\ me <> Some NULL.

(** Another thread has the lock. *)
Definition must_wait (s : con) : bool :=
  match me with Some t => use_console_lock s && negb (console_lock s =? t) && negb (console_lock s =? NULL) | None => false end.

Definition same_output (s s' : con) : Prop := serial_out s' = serial_out s /\ display s' = display s /\ write_cnt s' = write_cnt s.

Lemma acquire_console_ok s : con_ok s -> must_wait s = false ->
  exists x, acquire_console s = Ok (true, x) /\ console_locked_by_current_thread x = true /\ same_output s x /\
    forall x', same_lock x x' -> exists s', release_console x' = Ok (tt, s') /\ same_lock s s' /\ same_output x' s'.
Proof using.
  intros (Hd & Hn & Hme) Hw. unfold acquire_console, release_console, console_locked_by_current_thread, must_wait in *. destruct me as [t|]; [|by exists s; split_and!; [..|intros x' ?; by exists x']].
  destruct (use_console_lock s) eqn:Hu.
  2: { exists s. rewrite Hu. split_and!; try done. intros x' (A & B & C). rewrite B, Hu. by exists x'. }
  destruct (Z.eqb_spec (console_lock s) t) as [Ht|Ht].
  - eexists. split; [reflexivity|]. cbn. rewrite Z.eqb_refl. split_and!; try done. intros x' (A & B & C). cbn in A, B, C. rewrite s32_small in C by lia.
    rewrite A, B, C. rewrite (proj2 (Z.ltb_lt _ _)) by lia. eexists. split; [reflexivity|]. split; [|done]. split_and!; cbn; [by rewrite Ht|done|lia].
  - destruct (Z.eqb_spec (console_lock s) NULL) as [E|E]; [|done]. eexists. split; [reflexivity|]. cbn. rewrite Z.eqb_refl. split_and!; try done.
    intros x' (A & B & C). cbn in A, B, C. rewrite (Hn E) in C. rewrite A, B, C. rewrite Z.ltb_irrefl, Z.eqb_refl. eexists. split; [reflexivity|]. split; [|done].
    split_and!; cbn; [done|done|by rewrite Hn].
Qed.

(** A call writes its text and gives the lock back, or waits and writes nothing. *)
Lemma with_console_ok {A} (body : M (bytes * con) A) m s t cs a : con_ok s -> shown (display s) t ->
  (forall x, console_locked_by_current_thread x = true -> same_output s x -> exists x', body (m, x) = Ok (a, (m, x')) /\ same_lock x x' /\ wrote t cs x x') ->
  if must_wait s then with_console body (m, s) = Ok (None, (m, s))
  else exists s', with_console body (m, s) = Ok (Some a, (m, s')) /\ same_lock s s' /\ wrote t cs s s'.
Proof using.
  intros Hok Hs Hbody. destruct (must_wait s) eqn:Hw.
  - unfold with_console, acquire_console. unfold must_wait in Hw. destruct me as [u|]; [|done]. cbn [fst snd].
    destruct (use_console_lock s), (console_lock s =? u), (console_lock s =? NULL); done.
  - destruct (acquire_console_ok s Hok Hw) as (x & E & Hl & Ho & Hrel). destruct (Hbody x Hl Ho) as (x' & E' & Hlock & Hwr).
    destruct (Hrel x' Hlock) as (s' & E2 & Hlock' & (P1 & P2 & P3)). exists s'. unfold with_console. cbn [fst snd]. rewrite E, E', E2. split_and!; try done.
    destruct Hwr as (W1 & W2 & W3). destruct Ho as (O1 & O2 & O3). unfold wrote. by rewrite P1, P2, P3, W1, W3, O1, O3.
Qed.

Lemma countable_wrote t cs n s s' : countable (length cs + n) s -> wrote t cs s s' -> countable n s'.
Proof using. intros [H1 H2] (_ & _ & H3). unfold countable. lia. Qed.

Lemma countable_less n k s : (k <= n)%nat -> countable n s -> countable k s.
Proof using. unfold countable. lia. Qed.

Lemma put_con_ok c t m s : console_locked_by_current_thread s = true -> shown (display s) t -> countable 1 s ->
  exists s', on_con (putchar_have_lock c) (m, s) = Ok (tt, (m, s')) /\ same_lock s s' /\ wrote t [u8 c] s s'.
Proof using.
  intros Hl Hs Hc. destruct (putchar_have_lock_ok c t s Hl Hs Hc) as (s' & E & H). exists s'. unfold on_con. cbn [fst snd]. by rewrite E.
Qed.

Lemma putbuf_loop_ok cs : forall m p t s, bytes_at m p cs -> console_locked_by_current_thread s = true -> shown (display s) t -> countable (length cs) s ->
  exists s', putbuf_loop (length cs) p (m, s) = Ok (tt, (m, s')) /\ same_lock s s' /\ wrote t (map u8 cs) s s'.
Proof using.
  induction cs as [|c cs IH]; intros m p t s Hm Hl Hs Hc; cbn [length putbuf_loop map].
  - exists s. split_and!; try done. by apply wrote_nothing.
  - destruct Hm as [Hp Hm]. rewrite (bind_ok _ _ _ c (m, s)) by (unfold on_bytes, load; cbn [fst snd]; by rewrite Hp). cbv beta.
    destruct (put_con_ok c t m s Hl Hs) as (s1 & E & Hlk & Hw); [eapply countable_less, Hc; cbn; lia|]. mstep E.
    destruct (IH m (p + 1) (fold_left tape_put [u8 c] t) s1) as (s' & E' & Hlk' & Hw'); [done|by rewrite (locked_same _ _ Hlk)|apply Hw|by eapply countable_wrote, Hw|].
    exists s'. split; [done|]. split; [by eapply same_lock_trans|exact (wrote_more t [u8 c] _ _ _ _ Hw Hw')].
Qed.

Lemma puts_loop_ok cs : forall fuel m p t s, cstr m p cs -> (length cs < fuel)%nat -> console_locked_by_current_thread s = true -> shown (display s) t -> countable (length cs) s ->
  exists s', puts_loop fuel p (m, s) = Ok (tt, (m, s')) /\ same_lock s s' /\ wrote t cs s s'.
Proof using.
  induction cs as [|c cs IH]; intros [|fuel] m p t s Hm Hf Hl Hs Hc; try (cbn in Hf; lia); cbn [puts_loop].
  - apply cstr_nil in Hm. rewrite (bind_ok _ _ _ 0 (m, s)) by (unfold on_bytes, load; cbn [fst snd]; by rewrite Hm). cbv beta.
    exists s. split_and!; try done. by apply wrote_nothing.
  - apply cstr_cons in Hm as (Hp & Hb & Hm). rewrite (bind_ok _ _ _ c (m, s)) by (unfold on_bytes, load; cbn [fst snd]; by rewrite Hp). cbv beta.
    rewrite (proj2 (Z.eqb_neq c 0)) by lia. destruct (put_con_ok c t m s Hl Hs) as (s1 & E & Hlk & Hw); [eapply countable_less, Hc; cbn; lia|]. mstep E.
    replace (u8 c) with c in Hw by (unfold u8; rewrite Z.mod_small; lia).
    destruct (IH fuel m (p + 1) (fold_left tape_put [c] t) s1) as (s' & E' & Hlk' & Hw'); [done|cbn in Hf; lia|by rewrite (locked_same _ _ Hlk)|apply Hw|by eapply countable_wrote, Hw|].
    exists s'. split; [done|]. split; [by eapply same_lock_trans|exact (wrote_more t [c] _ _ _ _ Hw Hw')].
Qed.

(** [vprintf] writes what the formatter of [Stdio] writes. *)
Lemma helper_sim m t x c : console_locked_by_current_thread x = true ->
  sim (fun (s1 : Stdio.console) s2 => s1.1 = m /\ exists x', s2 = (m, (x', Z.of_nat (length s1.2))) /\ same_lock x x' /\ wrote t s1.2 x x')
    (fun s1 => Z.of_nat (length s1.2) < 2 ^ 31 /\ countable (length s1.2) x) (Stdio.putchar c) (vprintf_helper c).
Proof using.
  intros Hl [m1 w] [] s1' [= <-] [H1 H2]. cbn [fst snd] in *. rewrite length_app in H1, H2. cbn [length] in H1, H2. split; [split; [lia|]|].
  { eapply countable_less, H2. lia. }
  intros s2 (-> & x1 & -> & Hlk & Hw). unfold vprintf_helper.
  destruct (putchar_have_lock_ok c (fold_left tape_put w t) x1) as (x' & E & Hlk' & Hw'); [by rewrite (locked_same _ _ Hlk)|apply Hw|by eapply countable_wrote, Hw|].
  rewrite E. eexists. split; [reflexivity|]. split; [done|]. exists x'. rewrite length_app. cbn [length]. rewrite s32_small by lia. split_and!.
  - do 3 f_equal. lia.
  - by eapply same_lock_trans.
  - exact (wrote_more t w _ _ _ _ Hw Hw').
Qed.

(** CALL returns A and writes CS as a whole, with the lock as it was; when
    another thread has the lock it waits and writes nothing. *)
Definition writes {A} (call : M (bytes * con) (option A)) (a : A) (cs : list Z) (m : bytes) (s : con) (t : tape) : Prop :=
  if must_wait s then call (m, s) = Ok (None, (m, s))
  else exists s', call (m, s) = Ok (Some a, (m, s')) /\ same_lock s s' /\ wrote t cs s s'.

(** C40: Every function of the console writes its text, and nothing else, both to the serial
    port and to the display, counts the characters and returns what it promises: [putchar] its
    character, [putbuf] the bytes of the buffer, [puts] the string with a new line, and
    [vprintf] the text that the formatter makes of the format, and its length.  The lock is afterwards as it was before, also when the
    caller had it already, so that a call can be made from within another one; while another thread has the lock a
    call writes nothing, but interrupt handlers and a kernel that panics never wait. *)
Theorem console_correct m s t : con_ok s -> shown (display s) t ->
  (forall c, countable 1 s -> writes (putchar c) c [u8 c] m s t) /\
  (forall p cs, bytes_at m p cs -> countable (length cs) s -> writes (putbuf p (Z.of_nat (length cs))) tt (map u8 cs) m s t) /\
  (forall fuel p cs, cstr m p cs -> (length cs < fuel)%nat -> countable (S (length cs)) s -> writes (puts fuel p) 0 (cs ++ [10]) m s t) /\
  (forall fuel null_string format args m' w, Stdio.printf fuel null_string format args (m, []) = Ok (tt, (m', w)) ->
     Z.of_nat (length w) < 2 ^ 31 -> countable (length w) s -> writes (vprintf fuel null_string format args) (Z.of_nat (length w)) w m s t) /\
  (me = None -> must_wait s = false) /\ (forall s', console_panic s = Ok (tt, s') -> must_wait s' = false).
Proof using.
  intros Hok Hs. assert (Hx : forall n x, same_output s x -> countable n s -> shown (display x) t /\ countable n x).
  { intros n x (_ & E2 & E3) Hc. unfold countable in *. by rewrite E2, E3. }
  split_and!.
  - intros c Hc. apply with_console_ok; [done|done|]. intros x Hl Ho. destruct (Hx 1%nat x Ho Hc) as [Hd Hc'].
    destruct (put_con_ok c t m x Hl Hd Hc') as (x' & E & H). exists x'. by mstep E.
  - intros p cs Hm Hc. apply with_console_ok; [done|done|]. intros x Hl Ho. destruct (Hx _ x Ho Hc) as [Hd Hc']. rewrite Nat2Z.id. by apply putbuf_loop_ok.
  - intros fuel p cs Hm Hf Hc. apply with_console_ok; [done|done|]. intros x Hl Ho. destruct (Hx _ x Ho Hc) as [Hd Hc'].
    destruct (puts_loop_ok cs fuel m p t x Hm Hf Hl Hd) as (x1 & E & Hlk & Hw); [eapply countable_less, Hc'; lia|]. mstep E.
    destruct (put_con_ok 10 (fold_left tape_put cs t) m x1) as (x' & E' & Hlk' & Hw'); [by rewrite (locked_same _ _ Hlk)|apply Hw|eapply countable_wrote, Hw; by rewrite Nat.add_1_r|].
    mstep E'. exists x'. split; [done|]. split; [by eapply same_lock_trans|exact (wrote_more t cs _ _ _ _ Hw Hw')].
  - intros fuel null_string format args m' w Hrun Hw Hc. apply with_console_ok; [done|done|]. intros x Hl Ho. destruct (Hx _ x Ho Hc) as [Hd Hc'].
    unfold Stdio.printf in Hrun. destruct (vprintf_sim _ _ fst fst _ _ null_string (fun c => helper_sim m t x c Hl) ltac:(by intros s1 s2 (-> & x1 & -> & _)) fuel format args _ _ _ Hrun (conj Hw Hc')) as [_ Hsim].
    destruct (Hsim (m, (x, 0))) as (s2 & E & _ & x' & -> & Hlk & Hwr).
    { split; [done|]. exists x. split_and!; try done. by apply wrote_nothing. }
    exists x'. cbn [fst snd] in *. by rewrite E.
  - unfold must_wait. by intros ->.
  - intros s' [= <-]. unfold must_wait. by destruct me.
Qed.
End Console.

(** A thread that has the lock prints from within another call, while a second one waits. *)
Definition demo_con : con := Con 5 true 0 7 [] (Vga true 0 0 (fun i => if Z.even i then 32 else 7) []).
Definition demo_tape : tape := Tape (fun _ _ => blank) 0 0 0.

Lemma demo_shown : shown (display demo_con) demo_tape.
Proof.
  split; [split; [done|cbn; lia| |done]|cbn; lia]. intros y x Hy Hx. unfold cell. cbn [display demo_con fb].
  rewrite !Z.even_add, !Z.even_mul. done.
Qed.

Lemma console_correct_witness :
  (exists s', vprintf 0 0 (Some 5) 40 0 (cstring "%d!") [42] (∅, demo_con) = Ok (Some 3, (∅, s')) /\ serial_out s' = [52; 50; 33] /\ console_lock_depth s' = 0) /\
  putchar 0 0 (Some 6) 65 (∅, demo_con) = Ok (None, (∅, demo_con)).
Proof.
  assert (Hrun : Stdio.printf 40 0 (cstring "%d!") [42] (∅, []) = Ok (tt, (∅, [52; 50; 33]))) by (vm_compute; reflexivity).
  assert (Hok : forall u, u <> NULL -> con_ok (Some u) demo_con) by (intros u Hu; split_and!; [cbn; lia..|congruence]).
  split.
  - destruct (console_correct 0 0 (Some 5) ∅ demo_con demo_tape) as (_ & _ & _ & Hp & _); [by apply Hok|exact demo_shown|].
    specialize (Hp 40%nat 0 (cstring "%d!") [42] ∅ [52; 50; 33] Hrun ltac:(cbn; lia) ltac:(split; cbn; lia)).
    destruct Hp as (s' & E & (_ & _ & Hd) & (Hs & _)). exists s'. split; [exact E|]. split; [exact Hs|exact Hd].
  - destruct (console_correct 0 0 (Some 6) ∅ demo_con demo_tape) as (Hp & _); [by apply Hok|exact demo_shown|].
    exact (Hp 65 ltac:(split; cbn; lia)).
Defined.
