(* ===== verification/Kbd.v ===== *)
(** * The keyboard: [devices/kbd.c]

    [keyboard_interrupt] gets the bytes of the data register as arguments, the second of which
    is used after the prefix [0xe0]; characters go to the input buffer of [Intq].
    The reference is a table of the US layout and what the history of the
    keyboard says: which keys are held down, and how often Caps Lock was pressed. *)

From S2P Require Import Prelude ListModel Bytes Intq IntqProps.

Record kbd := Kbd {
  left_shift : bool; right_shift : bool;
  left_alt : bool; right_alt : bool;
  left_ctrl : bool; right_ctrl : bool;
  caps_lock : bool;
  key_cnt : Z
}.

(** [struct keymap]; the entry with a null pointer ends the array. *)
Record keymap := Keymap { first_scancode : Z; chars : list Z }.

Definition invariant_keymap : list keymap :=
  [Keymap 1 [27]; Keymap 14 [8]; Keymap 15 [9; 81; 87; 69; 82; 84; 89; 85; 73; 79; 80]; Keymap 28 [13];
   Keymap 30 [65; 83; 68; 70; 71; 72; 74; 75; 76]; Keymap 44 [90; 88; 67; 86; 66; 78; 77]; Keymap 55 [42]; Keymap 57 [32]; Keymap 83 [127]].

Definition unshifted_keymap : list keymap :=
  [Keymap 2 [49; 50; 51; 52; 53; 54; 55; 56; 57; 48; 45; 61]; Keymap 26 [91; 93]; Keymap 39 [59; 39; 96]; Keymap 43 [92]; Keymap 51 [44; 46; 47]].

Definition shifted_keymap : list keymap :=
  [Keymap 2 [33; 64; 35; 36; 37; 94; 38; 42; 40; 41; 95; 43]; Keymap 26 [123; 125]; Keymap 39 [58; 34; 126]; Keymap 43 [124]; Keymap 51 [60; 62; 63]].

Fixpoint map_key (k : list keymap) (scancode : Z) : option Z :=
  match k with
  | [] => None
  | x :: k =>
      if (first_scancode x <=? scancode) && (scancode <? first_scancode x + Z.of_nat (length (chars x)))
      then chars x !! Z.to_nat (scancode - first_scancode x)
      else map_key k scancode
  end.

Definition tolower (c : Z) : Z := if (65 <=? c) && (c <=? 90) then c - 65 + 97 else c.

(** The table of shift keys: the variable that a scancode stands for. *)
Definition set_shift_key (code : Z) (b : bool) (k : kbd) : kbd :=
  let '(Kbd ls rs la ra lc rc caps n) := k in
  if code =? 42 then Kbd b rs la ra lc rc caps n
  else if code =? 54 then Kbd ls b la ra lc rc caps n
  else if code =? 56 then Kbd ls rs b ra lc rc caps n
  else if code =? 57400 then Kbd ls rs la b lc rc caps n
  else if code =? 29 then Kbd ls rs la ra b rc caps n
  else if code =? 57373 then Kbd ls rs la ra lc b caps n
  else k.

Inductive outcome := Returned | Reboot.

Abbreviation K := (M (kbd * st)).

Definition on_queue {A} (c : M st A) : K A := fun s => match c s.2 with Ok (a, q) => Ok (a, (s.1, q)) | Err e => Err e end.
Definition set_kbd (f : kbd -> kbd) : K unit := fun s => Ok (tt, (f s.1, s.2)).

Definition input_full : M st bool := assert_off;; intq_full.

Definition with_caps (b : bool) (k : kbd) : kbd :=
  Kbd (left_shift k) (right_shift k) (left_alt k) (right_alt k) (left_ctrl k) (right_ctrl k) b (key_cnt k).
Definition with_cnt (n : Z) (k : kbd) : kbd :=
  Kbd (left_shift k) (right_shift k) (left_alt k) (right_alt k) (left_ctrl k) (right_ctrl k) (caps_lock k) n.

Definition first_some {A} (a b : option A) : option A := match a with Some x => Some x | None => b end.

Definition keyboard_interrupt (b1 b2 : Z) : K outcome :=
  k ← gets fst;
  let shift := left_shift k || right_shift k in
  let alt := left_alt k || right_alt k in
  let ctrl := left_ctrl k || right_ctrl k in
  let code := if b1 =? 224 then Z.lor (Z.shiftl b1 8) b2 else b1 in
  let release := negb (Z.land code 128 =? 0) in
  let code := Z.land code (u32 (Z.lnot 128)) in
  if code =? 58 then
    (if negb release then set_kbd (with_caps (negb (caps_lock k))) else mret tt);;
    mret Returned
  else
    match first_some (map_key invariant_keymap code)
            (first_some (if negb shift then map_key unshifted_keymap code else None)
                        (if shift then map_key shifted_keymap code else None)) with
    | Some c =>
        if negb release then
          if (c =? 127) && ctrl && alt then mret Reboot else
          let c :=
            if ctrl && (64 <=? c) && (c <? 96) then c - 64
            else if eqb shift (caps_lock k) then tolower c
            else c in
          let c := if alt then u8 (c + 128) else c in
          f ← on_queue input_full;
          (if negb f then set_kbd (with_cnt (s64 (key_cnt k + 1)));; on_queue (input_putc c);; mret tt else mret tt);;
          mret Returned
        else mret Returned
    | None =>
        set_kbd (set_shift_key code (negb release));;
        mret Returned
    end.

(** ** The reference *)

(** The US layout: scancode, character without and with Shift. *)
Definition layout : list (Z * (Z * Z)) :=
  [(1, (27, 27)); (2, (49, 33)); (3, (50, 64)); (4, (51, 35)); (5, (52, 36)); (6, (53, 37)); (7, (54, 94)); (8, (55, 38)); (9, (56, 42));
   (10, (57, 40)); (11, (48, 41)); (12, (45, 95)); (13, (61, 43)); (14, (8, 8)); (15, (9, 9));
   (16, (113, 81)); (17, (119, 87)); (18, (101, 69)); (19, (114, 82)); (20, (116, 84)); (21, (121, 89)); (22, (117, 85)); (23, (105, 73)); (24, (111, 79)); (25, (112, 80));
   (26, (91, 123)); (27, (93, 125)); (28, (13, 13));
   (30, (97, 65)); (31, (115, 83)); (32, (100, 68)); (33, (102, 70)); (34, (103, 71)); (35, (104, 72)); (36, (106, 74)); (37, (107, 75)); (38, (108, 76));
   (39, (59, 58)); (40, (39, 34)); (41, (96, 126)); (43, (92, 124));
   (44, (122, 90)); (45, (120, 88)); (46, (99, 67)); (47, (118, 86)); (48, (98, 66)); (49, (110, 78)); (50, (109, 77));
   (51, (44, 60)); (52, (46, 62)); (53, (47, 63)); (55, (42, 42)); (57, (32, 32)); (83, (127, 127))].

Definition is_letter (c : Z) : bool := (97 <=? c) && (c <=? 122).

(** The character that a key gives: Caps Lock reverses Shift for letters,
    Ctrl makes a control character of a letter in any case and of [@[\]^_], and Alt sets the top bit. *)
Definition key_char (shift caps ctrl alt : bool) (code : Z) : option Z :=
  match List.find (fun e => fst e =? code) layout with
  | None => None
  | Some (_, (plain, shifted)) =>
      let with_shift := if shift then shifted else plain in
      let sign := if is_letter plain then shifted else with_shift in
      let c :=
        if ctrl && (64 <=? sign) && (sign <=? 95) then sign - 64
        else if is_letter plain then (if xorb shift caps then shifted else plain)
        else with_shift in
      Some (if alt then c + 128 else c)
  end.

(** A key that is pressed or released: its scancode with the prefix. *)
Record event := Event { e_key : Z; e_release : bool }.

Definition event_ok (e : event) : bool :=
  ((1 <=? e_key e) && (e_key e <? 128) && negb ((e_key e =? 96) && e_release e)) || ((57344 <=? e_key e) && (e_key e <? 57472)).

(** The bytes that the keyboard sends. *)
Definition sent (e : event) : Z * Z :=
  let r := if e_release e then 128 else 0 in
  if e_key e <? 128 then (e_key e + r, 0) else (224, e_key e - 57344 + r).

(** The last event of a key was a press. *)
Definition held (key : Z) (h : list event) : bool :=
  match List.find (fun e => e_key e =? key) (rev h) with Some e => negb (e_release e) | None => false end.

Definition shift_held (h : list event) : bool := held 42 h || held 54 h.
Definition alt_held (h : list event) : bool := held 56 h || held 57400 h.
Definition ctrl_held (h : list event) : bool := held 29 h || held 57373 h.

(** Caps Lock was pressed an odd number of times. *)
Definition caps_on (h : list event) : bool := Nat.odd (length (List.filter (fun e => (e_key e =? 58) && negb (e_release e)) h)).

(** The character of an event after a history, and the keys that reboot. *)
Definition typed (h : list event) (e : event) : list Z :=
  if e_release e then [] else
  match key_char (shift_held h) (caps_on h) (ctrl_held h) (alt_held h) (e_key e) with Some c => [c] | None => [] end.

Definition reboots (h : list event) (e : event) : bool := (e_key e =? 83) && negb (e_release e) && ctrl_held h && alt_held h.

(** ** Tables and scancodes *)

(** The character that the code computes. *)
Definition code_key (shift : bool) (code : Z) : option Z :=
  first_some (map_key invariant_keymap code)
    (first_some (if negb shift then map_key unshifted_keymap code else None) (if shift then map_key shifted_keymap code else None)).

Definition code_char (shift caps ctrl alt : bool) (c : Z) : Z :=
  let c := if ctrl && (64 <=? c) && (c <? 96) then c - 64 else if eqb shift caps then tolower c else c in
  if alt then u8 (c + 128) else c.

Definition keys : list Z := map Z.of_nat (seq 1 127) ++ map (fun k => 57344 + Z.of_nat k) (seq 0 128).
Definition bools : list bool := [false; true].

Lemma in_keys e : event_ok e = true -> In (e_key e) keys.
Proof.
  unfold event_ok, keys. intros H. apply in_app_iff. apply orb_true_iff in H as [H|H].
  - left. apply andb_true_iff in H as [H _]. apply in_map_iff. exists (Z.to_nat (e_key e)). split; [lia|]. apply in_seq. lia.
  - right. apply in_map_iff. exists (Z.to_nat (e_key e - 57344)). split; [lia|]. apply in_seq. lia.
Qed.

Lemma in_bools b : In b bools.
Proof. destruct b; cbn; auto. Qed.

(** A check of all keys. *)
Lemma all_keys (f : Z -> bool) e : forallb f keys = true -> event_ok e = true -> f (e_key e) = true.
Proof. intros H He. exact (proj1 (forallb_forall _ _) H _ (in_keys e He)). Qed.

Lemma all_bools (f : bool -> bool) b : forallb f bools = true -> f b = true.
Proof. intros H. exact (proj1 (forallb_forall _ _) H _ (in_bools b)). Qed.

Definition opt_eqb (a b : option Z) : bool := match a, b with Some x, Some y => x =? y | None, None => true | _, _ => false end.

Lemma opt_eqb_eq a b : opt_eqb a b = true -> a = b.
Proof. destruct a, b; cbn; try done. intros H. f_equal. lia. Qed.

Lemma code_char_ok e shift caps ctrl alt : event_ok e = true ->
  option_map (code_char shift caps ctrl alt) (code_key shift (e_key e)) = key_char shift caps ctrl alt (e_key e).
Proof.
  intros He. apply opt_eqb_eq. revert caps ctrl alt.
  assert (H : forallb (fun c => forallb (fun shift => forallb (fun caps => forallb (fun ctrl => forallb (fun alt =>
    opt_eqb (option_map (code_char shift caps ctrl alt) (code_key shift c)) (key_char shift caps ctrl alt c)) bools) bools) bools) bools) keys = true) by (vm_compute; reflexivity).
  intros caps ctrl alt. pose proof (all_keys _ e H He) as H1. cbv beta in H1.
  pose proof (all_bools _ shift H1) as H2. cbv beta in H2. pose proof (all_bools _ caps H2) as H3. cbv beta in H3.
  pose proof (all_bools _ ctrl H3) as H4. cbv beta in H4. exact (all_bools _ alt H4).
Qed.

Definition decode (b : Z * Z) : Z * bool :=
  let code := if b.1 =? 224 then Z.lor (Z.shiftl b.1 8) b.2 else b.1 in (Z.land code (u32 (Z.lnot 128)), negb (Z.land code 128 =? 0)).

Lemma decode_sent e : event_ok e = true -> decode (sent e) = (e_key e, e_release e).
Proof.
  intros He. assert (H : forallb (fun k => forallb (fun r => negb (event_ok (Event k r)) || ((fst (decode (sent (Event k r))) =? k) && eqb (snd (decode (sent (Event k r)))) r)) bools) keys = true)
    by (vm_compute; reflexivity).
  pose proof (all_keys _ e H He) as H1. cbv beta in H1. pose proof (all_bools _ (e_release e) H1) as H2. cbv beta in H2. destruct e as [k r]. cbn [e_key e_release] in *.
  rewrite He in H2. cbn [negb orb] in H2. apply andb_true_iff in H2 as [E1 E2]. apply Z.eqb_eq in E1. apply eqb_prop in E2. destruct (decode _). cbn [fst snd] in *. by subst.
Qed.

(** No key is a character and a shift key. *)
Definition plain_key (c : Z) : bool := negb ((c =? 42) || (c =? 54) || (c =? 56) || (c =? 57400) || (c =? 29) || (c =? 57373) || (c =? 58)).

Lemma code_key_plain e shift c : event_ok e = true -> code_key shift (e_key e) = Some c -> plain_key (e_key e) = true.
Proof.
  intros He Hc. assert (H : forallb (fun k => forallb (fun shift => match code_key shift k with Some _ => plain_key k | None => true end) bools) keys = true) by (vm_compute; reflexivity).
  pose proof (all_keys _ e H He) as H1. cbv beta in H1. pose proof (all_bools _ shift H1) as H2. cbv beta in H2. by rewrite Hc in H2.
Qed.

Lemma code_key_delete e shift c : event_ok e = true -> code_key shift (e_key e) = Some c -> (c =? 127) = (e_key e =? 83).
Proof.
  intros He Hc. assert (H : forallb (fun k => forallb (fun shift => match code_key shift k with Some c => eqb (c =? 127) (k =? 83) | None => true end) bools) keys = true) by (vm_compute; reflexivity).
  pose proof (all_keys _ e H He) as H1. cbv beta in H1. pose proof (all_bools _ shift H1) as H2. cbv beta in H2. rewrite Hc in H2. by apply eqb_prop.
Qed.

(** ** The history *)

Definition kbd_ok (k : kbd) (h : list event) : Prop :=
  left_shift k = held 42 h /\ right_shift k = held 54 h /\ left_alt k = held 56 h /\ right_alt k = held 57400 h /\
  left_ctrl k = held 29 h /\ right_ctrl k = held 57373 h /\ caps_lock k = caps_on h.

Lemma held_snoc key h e : held key (h ++ [e]) = if e_key e =? key then negb (e_release e) else held key h.
Proof. unfold held. rewrite rev_app_distr. cbn [rev app List.find]. by destruct (e_key e =? key). Qed.

Lemma caps_snoc h e : caps_on (h ++ [e]) = xorb (caps_on h) ((e_key e =? 58) && negb (e_release e)).
Proof.
  unfold caps_on. rewrite List.filter_app, length_app, Nat.odd_add. f_equal. cbn [List.filter]. by destruct (_ && _).
Qed.

(** A key that is no shift key leaves the variables. *)
Lemma kbd_ok_plain k h e n : kbd_ok k h -> plain_key (e_key e) = true -> kbd_ok (with_cnt n k) (h ++ [e]).
Proof.
  intros H Hp. unfold plain_key in Hp. apply negb_true_iff in Hp. repeat (apply orb_false_iff in Hp as [Hp ?]).
  unfold kbd_ok. rewrite !held_snoc, caps_snoc. repeat match goal with H : (e_key e =? _) = false |- _ => rewrite H; clear H end.
  cbn [andb]. rewrite xorb_false_r. exact H.
Qed.

Lemma kbd_ok_shift k h e : kbd_ok k h -> (e_key e =? 58) = false -> kbd_ok (set_shift_key (e_key e) (negb (e_release e)) k) (h ++ [e]).
Proof.
  intros H Hc. unfold kbd_ok in *. rewrite !held_snoc, caps_snoc, Hc. cbn [andb]. rewrite xorb_false_r. destruct k as [ls rs la ra lc rc caps n]. cbn [set_shift_key].
  destruct (Z.eqb_spec (e_key e) 42) as [E|H1]; [rewrite ?E; cbn in *; intuition|].
  destruct (Z.eqb_spec (e_key e) 54) as [E|H2]; [rewrite ?E; cbn in *; intuition|].
  destruct (Z.eqb_spec (e_key e) 56) as [E|H3]; [rewrite ?E; cbn in *; intuition|].
  destruct (Z.eqb_spec (e_key e) 57400) as [E|H4]; [rewrite ?E; cbn in *; intuition|].
  destruct (Z.eqb_spec (e_key e) 29) as [E|H5]; [rewrite ?E; cbn in *; intuition|].
  destruct (Z.eqb_spec (e_key e) 57373) as [E|H6]; [rewrite ?E; cbn in *; intuition|]. exact H.
Qed.

Lemma input_full_ok s : inv s -> input_full s = Ok (count (q s) =? 63, s).
Proof.
  intros [Hb _]. unfold input_full. mstep (assert_off_ok s (inv_off s Hb)). exact (condition_ok Not_full s (inv_wf s Hb) (inv_off s Hb)).
Qed.

Lemma input_putc_ok s c : inv s -> count (q s) <> 63 -> exists s', input_putc c s = Ok (Some tt, s') /\ inv s' /\ contents (q s') = contents (q s) ++ [c].
Proof.
  intros Hs Hc. pose proof (putc_interrupt s c Hs) as H. rewrite (proj2 (Z.eqb_neq _ _) Hc) in H. destruct H as (s' & E & Hs' & Hq). exists s'.
  split; [|done]. destruct Hs as [Hb _]. unfold input_putc. mstep (assert_off_ok s (inv_off s Hb)).
  mstep (condition_ok Not_full s (inv_wf s Hb) (inv_off s Hb)). cbn [level]. rewrite (proj2 (Z.eqb_neq _ _) Hc). exact E.
Qed.

(** ** One interrupt *)

Definition interrupt (e : event) : K outcome := keyboard_interrupt (sent e).1 (sent e).2.

Lemma interrupt_eq e k s : event_ok e = true ->
  let shift := left_shift k || right_shift k in let alt := left_alt k || right_alt k in let ctrl := left_ctrl k || right_ctrl k in
  interrupt e (k, s) =
  (if e_key e =? 58 then
     (if negb (e_release e) then set_kbd (with_caps (negb (caps_lock k))) else mret tt);; mret Returned
   else match code_key shift (e_key e) with
        | Some c =>
            if negb (e_release e) then
              if (c =? 127) && ctrl && alt then mret Reboot else
              f ← on_queue input_full;
              (if negb f then set_kbd (with_cnt (s64 (key_cnt k + 1)));; on_queue (input_putc (code_char shift (caps_lock k) ctrl alt c));; mret tt else mret tt);;
              mret Returned
            else mret Returned
        | None => set_kbd (set_shift_key (e_key e) (negb (e_release e)));; mret Returned
        end) (k, s).
Proof.
  intros He shift alt ctrl. pose proof (decode_sent e He) as Hd. unfold decode in Hd. injection Hd as E1 E2. unfold interrupt, keyboard_interrupt.
  rewrite (bind_ok _ _ _ k (k, s)) by reflexivity. cbv beta zeta. fold shift alt ctrl.
  rewrite E1, E2. reflexivity.
Qed.

(** The counter after [n] more keys; it is a [long long]. *)
Definition counted (k : kbd) (n : Z) : Z := s64 (key_cnt k + n).

Lemma s64_add a b : s64 (s64 a + b) = s64 (a + b).
Proof.
  unfold s64. f_equal. replace ((a + 9223372036854775808) mod 18446744073709551616 - 9223372036854775808 + b + 9223372036854775808)
    with ((a + 9223372036854775808) mod 18446744073709551616 + b) by lia. rewrite Zplus_mod_idemp_l. f_equal. lia.
Qed.

Definition used (s : st) : Z := Z.of_nat (length (contents (q s))).

Lemma interrupt_ok k s h e : kbd_ok k h -> key_cnt k = counted k 0 -> inv s -> event_ok e = true -> reboots h e = false ->
  exists k' s', interrupt e (k, s) = Ok (Returned, (k', s')) /\ kbd_ok k' (h ++ [e]) /\ inv s' /\
    contents (q s') = take 63 (contents (q s) ++ typed h e) /\ key_cnt k' = counted k (used s' - used s).
Proof.
  intros Hk Hcnt Hs He Hr. rewrite (interrupt_eq e k s He). cbv zeta. pose proof Hk as (K1 & K2 & K3 & K4 & K5 & K6 & K7). rewrite K1, K2, K3, K4, K5, K6, K7.
  fold (shift_held h) (alt_held h) (ctrl_held h). pose proof (contents_length (q s)) as Hl. pose proof (count_range (q s)) as Hcr.
  assert (Hcnt0 : key_cnt k = counted k (used s - used s)) by (by rewrite Z.sub_diag).
  assert (Hsame : contents (q s) = take 63 (contents (q s) ++ [])) by (rewrite app_nil_r, take_ge; [done|lia]).
  destruct (Z.eqb_spec (e_key e) 58) as [E58|E58].
  - assert (Ht : typed h e = []) by (unfold typed; rewrite E58; by destruct (e_release e)).
    rewrite Ht, <- Hsame. exists (if negb (e_release e) then with_caps (negb (caps_on h)) k else k), s.
    split; [by destruct (negb (e_release e))|]. split; [|split; [done|]; split; [done|by destruct (negb (e_release e))]].
    assert (Hk' : kbd_ok (with_caps (caps_on (h ++ [e])) k) (h ++ [e])) by (unfold kbd_ok; rewrite !held_snoc, E58; cbn; by split_and!).
    rewrite caps_snoc, E58 in Hk'. cbn [Z.eqb andb Pos.eqb] in Hk'. destruct (negb (e_release e)).
    + by rewrite xorb_true_r in Hk'.
    + rewrite xorb_false_r, <- K7 in Hk'. by destruct k.
  - pose proof (code_char_ok e (shift_held h) (caps_on h) (ctrl_held h) (alt_held h) He) as Hchar.
    destruct (code_key (shift_held h) (e_key e)) as [c|] eqn:Hc; cbn [option_map] in Hchar.
    + pose proof (code_key_plain e _ c He Hc) as Hplain. pose proof (code_key_delete e _ c He Hc) as Hdel.
      destruct (e_release e) eqn:Hrel; cbn [negb].
      * exists k, s. split; [done|]. split; [|split; [done|]; split; [by unfold typed; rewrite Hrel|done]]. pose proof (kbd_ok_plain k h e (key_cnt k) Hk Hplain) as H. by destruct k.
      * assert (Hnr : (c =? 127) && ctrl_held h && alt_held h = false).
        { unfold reboots in Hr. rewrite Hrel in Hr. cbn [negb] in Hr. by rewrite Hdel, <- Hr, andb_true_r. }
        rewrite Hnr. rewrite (bind_ok _ _ _ (count (q s) =? 63) (k, s)) by (unfold on_queue; cbn [fst snd]; by rewrite (input_full_ok s Hs)). cbv beta.
        assert (Ht : typed h e = [code_char (shift_held h) (caps_on h) (ctrl_held h) (alt_held h) c]) by (unfold typed; by rewrite Hrel, <- Hchar). rewrite Ht.
        destruct (Z.eqb_spec (count (q s)) 63) as [Hfull|Hfull]; cbn [negb].
        -- exists k, s. split; [done|]. split; [pose proof (kbd_ok_plain k h e (key_cnt k) Hk Hplain) as H; by destruct k|]. split; [done|].
           split; [|done]. rewrite take_app_le, take_ge by lia. done.
        -- destruct (input_putc_ok s (code_char (shift_held h) (caps_on h) (ctrl_held h) (alt_held h) c) Hs Hfull) as (s' & E & Hs' & Hq).
           exists (with_cnt (s64 (key_cnt k + 1)) k), s'. split; [|split; [by apply kbd_ok_plain|split; [done|split]]].
           ++ rewrite bind_assoc. rewrite (bind_ok _ _ _ tt (with_cnt (s64 (key_cnt k + 1)) k, s)) by reflexivity. cbv beta. rewrite bind_assoc.
              rewrite (bind_ok _ _ _ (Some tt) (with_cnt (s64 (key_cnt k + 1)) k, s')) by (unfold on_queue; cbn [fst snd]; by rewrite E). reflexivity.
           ++ rewrite Hq, take_ge; [done|]. rewrite length_app. cbn [length]. lia.
           ++ unfold counted, used. rewrite Hq, length_app. cbn [length key_cnt with_cnt]. f_equal. lia.
    + assert (Ht : typed h e = []) by (unfold typed; rewrite <- Hchar; by destruct (e_release e)). rewrite Ht, <- Hsame.
      eexists _, s. split; [reflexivity|]. split; [apply kbd_ok_shift; [done|by apply Z.eqb_neq]|].
      split; [done|]. split; [done|]. rewrite <- Hcnt0. unfold set_shift_key. destruct k. by repeat (destruct (_ =? _)).
Qed.

(** Ctrl+Alt+Del. *)
Lemma interrupt_reboots k s h e : kbd_ok k h -> event_ok e = true -> reboots h e = true -> interrupt e (k, s) = Ok (Reboot, (k, s)).
Proof.
  intros (K1 & K2 & K3 & K4 & K5 & K6 & K7) He Hr. rewrite (interrupt_eq e k s He). cbv zeta. rewrite K1, K2, K3, K4, K5, K6, K7.
  fold (shift_held h) (alt_held h) (ctrl_held h). unfold reboots in Hr. repeat (apply andb_true_iff in Hr as [Hr ?]). apply Z.eqb_eq in Hr. rewrite Hr.
  repeat match goal with H : _ = true |- _ => rewrite H; clear H end. by destruct (shift_held h).
Qed.

(** ** A session *)

Fixpoint press_all (es : list event) : K outcome :=
  match es with
  | [] => mret Returned
  | e :: es => o ← interrupt e; match o with Reboot => mret Reboot | Returned => press_all es end
  end.

Fixpoint typed_all (h es : list event) : list Z :=
  match es with [] => [] | e :: es => typed h e ++ typed_all (h ++ [e]) es end.

Fixpoint no_reboot (h es : list event) : bool :=
  match es with [] => true | e :: es => negb (reboots h e) && no_reboot (h ++ [e]) es end.

Lemma take_take_app {A} n (l l' : list A) : take n (take n l ++ l') = take n (l ++ l').
Proof.
  destruct (le_lt_dec (length l) n) as [Hl|Hl]; [by rewrite (take_ge l)|].
  rewrite (take_app_le l) by lia. rewrite take_app_le, take_take, Nat.min_id; [done|]. rewrite length_take. lia.
Qed.

(** C26: whatever keys are pressed and released, the handler's variables say which shift keys are held down and whether Caps Lock was pressed an
    odd number of times, and the input buffer has got the characters that the layout gives for the keys under what was held then, in
    order, up to its 63 bytes; [key_cnt] has grown, as a 64-bit integer, by the number of characters that were put into the buffer, those for
    which there was room; Ctrl+Alt+Del reboots. *)
Theorem keyboard_session_correct k s h es : kbd_ok k h -> key_cnt k = counted k 0 -> inv s -> forallb event_ok es = true -> no_reboot h es = true ->
  exists k' s', press_all es (k, s) = Ok (Returned, (k', s')) /\ kbd_ok k' (h ++ es) /\ inv s' /\
    contents (q s') = take 63 (contents (q s) ++ typed_all h es) /\
    key_cnt k' = counted k (used s' - used s) /\
    (forall e, event_ok e = true -> reboots (h ++ es) e = true -> interrupt e (k', s') = Ok (Reboot, (k', s'))).
Proof.
  revert k s h. induction es as [|e es IH]; intros k s h Hk Hcnt Hs Hes Hnr; cbn [press_all typed_all].
  - exists k, s. rewrite !app_nil_r, Z.sub_diag. split_and!; [done|done|done| |done|intros e He Hr; by apply (interrupt_reboots k s h)].
    pose proof (contents_length (q s)). pose proof (count_range (q s)). rewrite take_ge; [done|lia].
  - cbn [forallb no_reboot] in Hes, Hnr. apply andb_true_iff in Hes as [He Hes]. apply andb_true_iff in Hnr as [Hr Hnr]. apply negb_true_iff in Hr.
    destruct (interrupt_ok k s h e Hk Hcnt Hs He Hr) as (k1 & s1 & E1 & Hk1 & Hs1 & Hq1 & Hc1). mstep E1.
    assert (Hcnt1 : key_cnt k1 = counted k1 0) by (unfold counted in *; by rewrite Hc1, s64_add, Z.add_0_r).
    destruct (IH k1 s1 (h ++ [e]) Hk1 Hcnt1 Hs1 Hes Hnr) as (k' & s' & E & Hk' & Hs' & Hq & Hc & Hre). exists k', s'.
    rewrite <- (app_assoc h [e] es) in Hk', Hre. split_and!; [done|exact Hk'|done| | |exact Hre].
    + by rewrite Hq, Hq1, take_take_app, app_assoc.
    + rewrite Hc. unfold counted in *. rewrite Hc1, s64_add. f_equal. lia.
Qed.

Definition kbd_start : kbd := Kbd false false false false false false false 0.

(** Shift and H, then I with Caps Lock and Shift released. *)
Lemma keyboard_session_correct_witness : exists k' s',
  press_all [Event 42 false; Event 35 false; Event 35 true; Event 42 true; Event 58 false; Event 58 true; Event 23 false] (kbd_start, start) = Ok (Returned, (k', s')) /\
  contents (q s') = [72; 73] /\ key_cnt k' = 2.
Proof.
  assert (Hs : inv start) by (exact (proj1 (reachable_inv anyone _ _ _ (reach_init anyone (replicate 64 0) eq_refl)))).
  destruct (keyboard_session_correct kbd_start start [] [Event 42 false; Event 35 false; Event 35 true; Event 42 true; Event 58 false; Event 58 true; Event 23 false])
    as (k' & s' & E & _ & _ & Hq & Hc & _); [vm_compute; auto 10|reflexivity|exact Hs|reflexivity|reflexivity|].
  exists k', s'. split; [exact E|]. rewrite Hc. unfold used. rewrite Hq. split; vm_compute; reflexivity.
Defined.
