(* ===== verification/Descr.v ===== *)
(** * Segments, gates and interrupts: [userprog/gdt.c], [tss.c], the tables of [exception.c] and [threads/interrupt.c]

    A descriptor is a 64-bit word; [decode_segment] and [decode_gate] are what the
    processor makes of it.  The state [intr] has the interrupt descriptor table, the handlers with their names, the
    counts of unexpected interrupts, the flags of the dispatcher, the interrupt flag
    of the processor, the bytes written to ports and the vectors about which a message
    was printed, the newest first.  [intr_stubs] are the addresses of the assembly stubs, and [run] is
    what the handler at an address does. *)

From Stdlib Require Import Strings.String.
From S2P Require Import Prelude ListModel.

(** ** Segment descriptors *)

Definition SEL_KCSEG : Z := 8.
Definition SEL_KDSEG : Z := 16.
Definition SEL_UCSEG : Z := 27.
Definition SEL_UDSEG : Z := 35.
Definition SEL_TSS : Z := 40.
Definition SEL_CNT : Z := 6.

Definition CLS_SYSTEM : Z := 0.
Definition CLS_CODE_DATA : Z := 1.
Definition GRAN_BYTE : Z := 0.
Definition GRAN_PAGE : Z := 1.

Definition make_seg_desc {S} (base limit class type dpl granularity : Z) : M S Z :=
  ASSERT (limit <=? 1048575);;
  ASSERT ((class =? CLS_SYSTEM) || (class =? CLS_CODE_DATA));;
  ASSERT ((0 <=? type) && (type <=? 15));;
  ASSERT ((0 <=? dpl) && (dpl <=? 3));;
  ASSERT ((granularity =? GRAN_BYTE) || (granularity =? GRAN_PAGE));;
  let e0 := Z.lor (Z.land limit 65535) (u32 (Z.shiftl base 16)) in
  let e1 := Z.lor (Z.lor (Z.lor (Z.lor (Z.lor (Z.lor (Z.lor (Z.lor (Z.land (Z.shiftr base 16) 255)
              (Z.shiftl type 8)) (Z.shiftl class 12)) (Z.shiftl dpl 13)) (Z.shiftl 1 15))
              (Z.land limit 983040)) (Z.shiftl 1 22)) (Z.shiftl granularity 23)) (Z.land base 4278190080) in
  mret (Z.lor e0 (Z.shiftl e1 32)).

Definition make_code_desc {S} (dpl : Z) : M S Z := make_seg_desc 0 1048575 CLS_CODE_DATA 10 dpl GRAN_PAGE.
Definition make_data_desc {S} (dpl : Z) : M S Z := make_seg_desc 0 1048575 CLS_CODE_DATA 2 dpl GRAN_PAGE.
Definition make_tss_desc {S} (laddr : Z) : M S Z := make_seg_desc laddr 103 CLS_SYSTEM 9 0 GRAN_BYTE.
Definition make_gdtr_operand (limit base : Z) : Z := Z.lor limit (Z.shiftl base 16).

(** The members of the task-state segment that are ever set. *)
Record tss := Tss { tss_addr : Z; ss0 : Z; esp0 : Z; bitmap : Z }.

Definition tss_get : M tss Z := t ← get; ASSERT (negb (tss_addr t =? NULL));; mret (tss_addr t).

Definition tss_update (thread_current : Z) : M tss unit :=
  t ← get;
  ASSERT (negb (tss_addr t =? NULL));;
  put (Tss (tss_addr t) (ss0 t) (u32 (thread_current + 4096)) (bitmap t)).

(** PAGE is what [palloc_get_page (PAL_ASSERT | PAL_ZERO)] returns. *)
Definition tss_init (page thread_current : Z) : M tss unit :=
  put (Tss page SEL_KDSEG 0 57343);;
  tss_update thread_current.

(** The table [gdt] and the operand of [lgdt], for a table at the address GDT. *)
Definition gdt_init (gdt : Z) : M tss (list Z * Z) :=
  kcode ← make_code_desc 0;
  kdata ← make_data_desc 0;
  ucode ← make_code_desc 3;
  udata ← make_data_desc 3;
  t ← tss_get;
  tss ← make_tss_desc t;
  let table := replicate 6 0 in
  let table := <[Z.to_nat (SEL_KCSEG / 8) := kcode]> table in
  let table := <[Z.to_nat (SEL_KDSEG / 8) := kdata]> table in
  let table := <[Z.to_nat (SEL_UCSEG / 8) := ucode]> table in
  let table := <[Z.to_nat (SEL_UDSEG / 8) := udata]> table in
  let table := <[Z.to_nat (SEL_TSS / 8) := tss]> table in
  mret (table, make_gdtr_operand (8 * SEL_CNT - 1) gdt).

(** ** Gates *)

Definition make_gate {S} (function dpl type : Z) : M S Z :=
  ASSERT (negb (function =? NULL));;
  ASSERT ((0 <=? dpl) && (dpl <=? 3));;
  ASSERT ((0 <=? type) && (type <=? 15));;
  let e0 := Z.lor (Z.land function 65535) (Z.shiftl SEL_KCSEG 16) in
  let e1 := Z.lor (Z.lor (Z.lor (Z.lor (Z.land function 4294901760) (Z.shiftl 1 15)) (Z.shiftl dpl 13)) (Z.shiftl 0 12)) (Z.shiftl type 8) in
  mret (Z.lor e0 (Z.shiftl e1 32)).

Definition make_intr_gate {S} (function dpl : Z) : M S Z := make_gate function dpl 14.
Definition make_trap_gate {S} (function dpl : Z) : M S Z := make_gate function dpl 15.
Definition make_idtr_operand (limit base : Z) : Z := Z.lor limit (Z.shiftl base 16).

(** ** What the processor reads *)

Definition bits (w start len : Z) : Z := w / 2 ^ start mod 2 ^ len.

Record segment := Segment {
  s_base : Z; s_limit : Z; s_class : Z; s_type : Z; s_dpl : Z; s_present : Z; s_32bit : Z; s_granularity : Z
}.

Definition decode_segment (w : Z) : segment :=
  Segment (bits w 16 24 + 2 ^ 24 * bits w 56 8) (bits w 0 16 + 2 ^ 16 * bits w 48 4)
    (bits w 44 1) (bits w 40 4) (bits w 45 2) (bits w 47 1) (bits w 54 1) (bits w 55 1).

Record gate := Gate { g_offset : Z; g_selector : Z; g_type : Z; g_dpl : Z; g_present : Z }.

Definition decode_gate (w : Z) : gate :=
  Gate (bits w 0 16 + 2 ^ 16 * bits w 48 16) (bits w 16 16) (bits w 40 5) (bits w 45 2) (bits w 47 1).

(** ** Bit fields as digits *)

Lemma lor_low k a b : 0 <= k -> 0 <= a < 2 ^ k -> Z.lor a (b * 2 ^ k) = a + b * 2 ^ k.
Proof.
  intros Hk Ha. assert (Hz : Z.land a (b * 2 ^ k) = 0).
  { apply Z.bits_inj_0. intros i. rewrite Z.land_spec. destruct (Z_lt_ge_dec i 0); [by rewrite Z.testbit_neg_r|].
    destruct (Z_lt_ge_dec i k) as [Hi|Hi].
    - rewrite Z.mul_pow2_bits_low by done. by rewrite andb_false_r.
    - destruct (Z.eq_dec a 0) as [->|]; [by rewrite Z.bits_0|]. rewrite (Z.bits_above_log2 a); [done|lia|].
      apply Z.log2_lt_pow2; [lia|]. apply (Z.lt_le_trans _ (2 ^ k)); [lia|]. apply Z.pow_le_mono_r; lia. }
  pose proof (Z.add_lor_land a (b * 2 ^ k)). lia.
Qed.

Lemma lor_high k a b : 0 <= k -> 0 <= b < 2 ^ k -> Z.lor (a * 2 ^ k) b = a * 2 ^ k + b.
Proof. intros Hk Hb. rewrite Z.lor_comm, lor_low by done. lia. Qed.

Lemma land_field x k n : 0 <= k -> 0 <= n -> Z.land x (Z.ones n * 2 ^ k) = x / 2 ^ k mod 2 ^ n * 2 ^ k.
Proof.
  intros Hk Hn. rewrite <- Z.land_ones, <- Z.shiftr_div_pow2, <- !Z.shiftl_mul_pow2 by done. apply Z.bits_inj_iff'. intros i Hi.
  rewrite Z.land_spec. destruct (Z_lt_ge_dec i k) as [Hlt|Hge].
  - rewrite !Z.shiftl_spec_low by done. by rewrite andb_false_r.
  - rewrite !Z.shiftl_spec_high, Z.land_spec, Z.shiftr_spec by lia. do 2 f_equal. lia.
Qed.

Lemma bits_digit w start len lo x hi : 0 <= start -> 0 <= len -> w = lo + 2 ^ start * (x + 2 ^ len * hi) -> 0 <= lo < 2 ^ start -> 0 <= x < 2 ^ len ->
  bits w start len = x.
Proof.
  intros Hs Hl Hw Hlo Hx. unfold bits. assert (E : w / 2 ^ start = x + 2 ^ len * hi) by (symmetry; apply (Z.div_unique _ _ _ lo); lia).
  rewrite E. symmetry. apply (Z.mod_unique _ _ hi); lia.
Qed.

Ltac pow_numerals :=
  change (2 ^ 1) with 2 in *; change (2 ^ 2) with 4 in *; change (2 ^ 4) with 16 in *; change (2 ^ 5) with 32 in *; change (2 ^ 8) with 256 in *;
  change (2 ^ 12) with 4096 in *; change (2 ^ 13) with 8192 in *; change (2 ^ 15) with 32768 in *; change (2 ^ 16) with 65536 in *;
  change (2 ^ 20) with 1048576 in *; change (2 ^ 22) with 4194304 in *; change (2 ^ 23) with 8388608 in *; change (2 ^ 24) with 16777216 in *; change (2 ^ 32) with 4294967296 in *;
  change (2 ^ 40) with 1099511627776 in *; change (2 ^ 44) with 17592186044416 in *; change (2 ^ 45) with 35184372088832 in *;
  change (2 ^ 47) with 140737488355328 in *; change (2 ^ 48) with 281474976710656 in *; change (2 ^ 54) with 18014398509481984 in *;
  change (2 ^ 55) with 36028797018963968 in *; change (2 ^ 56) with 72057594037927936 in *.

(** The descriptor as a sum of its fields. *)
Lemma seg_desc_sum base limit class type dpl g : 0 <= base < 2 ^ 32 -> 0 <= limit < 2 ^ 20 -> 0 <= class < 2 -> 0 <= type < 16 -> 0 <= dpl < 4 -> 0 <= g < 2 ->
  Z.lor (Z.lor (Z.land limit 65535) (u32 (Z.shiftl base 16)))
    (Z.shiftl (Z.lor (Z.lor (Z.lor (Z.lor (Z.lor (Z.lor (Z.lor (Z.lor (Z.land (Z.shiftr base 16) 255)
       (Z.shiftl type 8)) (Z.shiftl class 12)) (Z.shiftl dpl 13)) (Z.shiftl 1 15))
       (Z.land limit 983040)) (Z.shiftl 1 22)) (Z.shiftl g 23)) (Z.land base 4278190080)) 32) =
  limit mod 65536 + 65536 * (base mod 65536) + 2 ^ 32 * (base / 65536 mod 256) + 2 ^ 40 * type + 2 ^ 44 * class + 2 ^ 45 * dpl + 2 ^ 47 +
  2 ^ 48 * (limit / 65536) + 2 ^ 54 + 2 ^ 55 * g + 2 ^ 56 * (base / 16777216).
Proof.
  intros Hb Hl Hc Ht Hd Hg.
  change 65535 with (Z.ones 16). change 255 with (Z.ones 8). change 983040 with (Z.ones 4 * 2 ^ 16). change 4278190080 with (Z.ones 8 * 2 ^ 24).
  rewrite (land_field limit 16 4), (land_field base 24 8), !Z.land_ones, !Z.shiftl_mul_pow2, Z.shiftr_div_pow2 by lia.
  assert (Eu : u32 (base * 2 ^ 16) = base mod 2 ^ 16 * 2 ^ 16).
  { unfold u32. change 4294967296 with (2 ^ 16 * 2 ^ 16). rewrite Z.mul_mod_distr_r by lia. done. }
  rewrite Eu. assert (El : limit / 2 ^ 16 mod 2 ^ 4 = limit / 2 ^ 16) by (apply Z.mod_small; split; [apply Z.div_pos|apply Z.div_lt_upper_bound]; lia).
  assert (Eb : base / 2 ^ 24 mod 2 ^ 8 = base / 2 ^ 24) by (apply Z.mod_small; split; [apply Z.div_pos|apply Z.div_lt_upper_bound]; lia). rewrite El, Eb.
  assert (R1 : 0 <= limit mod 2 ^ 16 < 2 ^ 16) by (apply Z.mod_pos_bound; lia). assert (R2 : 0 <= base mod 2 ^ 16 < 2 ^ 16) by (apply Z.mod_pos_bound; lia).
  assert (R3 : 0 <= base / 2 ^ 16 mod 2 ^ 8 < 2 ^ 8) by (apply Z.mod_pos_bound; lia).
  assert (R4 : 0 <= limit / 2 ^ 16 < 16) by (split; [apply Z.div_pos|apply Z.div_lt_upper_bound]; lia).
  rewrite (lor_low 8), (lor_low 12), (lor_low 13), (lor_low 15), (lor_low 16 _ (limit / 2 ^ 16)), (lor_low 22), (lor_low 23), (lor_low 24), (lor_low 16), (lor_low 32); pow_numerals; lia.
Qed.

Lemma make_seg_desc_ok {S} (s : S) base limit class type dpl g :
  0 <= base < 2 ^ 32 -> 0 <= limit < 2 ^ 20 -> 0 <= class < 2 -> 0 <= type < 16 -> 0 <= dpl < 4 -> 0 <= g < 2 ->
  exists w, make_seg_desc base limit class type dpl g s = Ok (w, s) /\ decode_segment w = Segment base limit class type dpl 1 1 g.
Proof.
  intros Hb Hl Hc Ht Hd Hg. unfold make_seg_desc. eexists. split.
  - rewrite (bind_ok _ _ _ tt s) by (apply ASSERT_true; pow_numerals; lia). cbv beta.
    rewrite (bind_ok _ _ _ tt s) by (apply ASSERT_true; unfold CLS_SYSTEM, CLS_CODE_DATA; lia). cbv beta.
    rewrite (bind_ok _ _ _ tt s) by (apply ASSERT_true; lia). cbv beta. rewrite (bind_ok _ _ _ tt s) by (apply ASSERT_true; lia). cbv beta.
    rewrite (bind_ok _ _ _ tt s) by (apply ASSERT_true; unfold GRAN_BYTE, GRAN_PAGE; lia). cbv beta zeta. rewrite (seg_desc_sum base limit class type dpl g) by done. reflexivity.
  - set (l0 := limit mod 65536). set (l1 := limit / 65536). set (b0 := base mod 65536). set (b1 := base / 65536 mod 256). set (b2 := base / 16777216).
    assert (R0 : 0 <= l0 < 65536) by (apply Z.mod_pos_bound; lia). assert (R1 : 0 <= b0 < 65536) by (apply Z.mod_pos_bound; lia). assert (R2 : 0 <= b1 < 256) by (apply Z.mod_pos_bound; lia).
    assert (R3 : 0 <= l1 < 16) by (unfold l1; split; [apply Z.div_pos|apply Z.div_lt_upper_bound]; lia). assert (R4 : 0 <= b2 < 256) by (unfold b2; split; [apply Z.div_pos|apply Z.div_lt_upper_bound]; lia).
    assert (El : limit = l0 + 65536 * l1) by (unfold l0, l1; pose proof (Z.div_mod limit 65536); lia).
    assert (Eb : base = b0 + 65536 * (b1 + 256 * b2)).
    { unfold b0, b1, b2. change 16777216 with (65536 * 256). rewrite <- Z.div_div by lia. pose proof (Z.div_mod base 65536). pose proof (Z.div_mod (base / 65536) 256). lia. }
    clearbody l0 l1 b0 b1 b2. unfold decode_segment.
    rewrite (bits_digit _ 16 24 l0 (b0 + 65536 * b1) (type + 2 ^ 4 * (class + 2 * (dpl + 4 * (1 + 2 * (l1 + 2 ^ 6 + 2 ^ 7 * g + 2 ^ 8 * b2))))));
      [|pow_numerals; lia..].
    rewrite (bits_digit _ 56 8 (l0 + 65536 * b0 + 2 ^ 32 * b1 + 2 ^ 40 * type + 2 ^ 44 * class + 2 ^ 45 * dpl + 2 ^ 47 + 2 ^ 48 * l1 + 2 ^ 54 + 2 ^ 55 * g) b2 0); [|pow_numerals; lia..].
    rewrite (bits_digit _ 0 16 0 l0 (b0 + 65536 * b1 + 2 ^ 24 * type + 2 ^ 28 * class + 2 ^ 29 * dpl + 2 ^ 31 + 2 ^ 32 * l1 + 2 ^ 38 + 2 ^ 39 * g + 2 ^ 40 * b2)); [|pow_numerals; lia..].
    rewrite (bits_digit _ 48 4 (l0 + 65536 * b0 + 2 ^ 32 * b1 + 2 ^ 40 * type + 2 ^ 44 * class + 2 ^ 45 * dpl + 2 ^ 47) l1 (4 + 8 * g + 16 * b2)); [|pow_numerals; lia..].
    rewrite (bits_digit _ 44 1 (l0 + 65536 * b0 + 2 ^ 32 * b1 + 2 ^ 40 * type) class (dpl + 4 + 8 * l1 + 2 ^ 9 + 2 ^ 10 * g + 2 ^ 11 * b2)); [|pow_numerals; lia..].
    rewrite (bits_digit _ 40 4 (l0 + 65536 * b0 + 2 ^ 32 * b1) type (class + 2 * dpl + 8 + 16 * l1 + 2 ^ 10 + 2 ^ 11 * g + 2 ^ 12 * b2)); [|pow_numerals; lia..].
    rewrite (bits_digit _ 45 2 (l0 + 65536 * b0 + 2 ^ 32 * b1 + 2 ^ 40 * type + 2 ^ 44 * class) dpl (1 + 2 * l1 + 2 ^ 7 + 2 ^ 8 * g + 2 ^ 9 * b2)); [|pow_numerals; lia..].
    rewrite (bits_digit _ 47 1 (l0 + 65536 * b0 + 2 ^ 32 * b1 + 2 ^ 40 * type + 2 ^ 44 * class + 2 ^ 45 * dpl) 1 (l1 + 64 + 2 ^ 7 * g + 2 ^ 8 * b2)); [|pow_numerals; lia..].
    rewrite (bits_digit _ 54 1 (l0 + 65536 * b0 + 2 ^ 32 * b1 + 2 ^ 40 * type + 2 ^ 44 * class + 2 ^ 45 * dpl + 2 ^ 47 + 2 ^ 48 * l1) 1 (g + 2 * b2)); [|pow_numerals; lia..].
    rewrite (bits_digit _ 55 1 (l0 + 65536 * b0 + 2 ^ 32 * b1 + 2 ^ 40 * type + 2 ^ 44 * class + 2 ^ 45 * dpl + 2 ^ 47 + 2 ^ 48 * l1 + 2 ^ 54) g b2); [|pow_numerals; lia..].
    f_equal; pow_numerals; lia.
Qed.

(** ** Gates as sums *)

Lemma make_gate_ok {S} (s : S) function dpl type : 0 < function < 2 ^ 32 -> 0 <= dpl < 4 -> 0 <= type < 16 ->
  exists w, make_gate function dpl type s = Ok (w, s) /\ decode_gate w = Gate function SEL_KCSEG type dpl 1.
Proof.
  intros Hf Hd Ht. unfold make_gate. eexists. split.
  - rewrite (bind_ok _ _ _ tt s) by (apply ASSERT_true; unfold NULL; lia). cbv beta. rewrite (bind_ok _ _ _ tt s) by (apply ASSERT_true; lia). cbv beta.
    rewrite (bind_ok _ _ _ tt s) by (apply ASSERT_true; lia). cbv beta zeta. reflexivity.
  - change 65535 with (Z.ones 16). change 4294901760 with (Z.ones 16 * 2 ^ 16). rewrite (land_field function 16 16), Z.land_ones, !Z.shiftl_mul_pow2 by lia.
    set (f0 := function mod 2 ^ 16). set (f1 := function / 2 ^ 16 mod 2 ^ 16).
    assert (R0 : 0 <= f0 < 65536) by (apply Z.mod_pos_bound; lia). assert (R1 : 0 <= f1 < 65536) by (apply Z.mod_pos_bound; lia).
    assert (Ef : function = f0 + 65536 * f1).
    { unfold f0, f1. rewrite (Z.mod_small (function / 2 ^ 16)) by (split; [apply Z.div_pos|apply Z.div_lt_upper_bound]; lia). pose proof (Z.div_mod function (2 ^ 16)). pow_numerals. lia. }
    clearbody f0 f1. unfold SEL_KCSEG. change (0 * 2 ^ 12) with 0. rewrite Z.lor_0_r.
    rewrite (lor_low 16) by (pow_numerals; lia). rewrite (lor_high 16 f1 (1 * 2 ^ 15)) by (pow_numerals; lia).
    replace (f1 * 2 ^ 16 + 1 * 2 ^ 15) with ((2 * f1 + 1) * 2 ^ 15) by (pow_numerals; lia). rewrite (lor_high 15) by (pow_numerals; lia).
    replace ((2 * f1 + 1) * 2 ^ 15 + dpl * 2 ^ 13) with ((8 * f1 + 4 + dpl) * 2 ^ 13) by (pow_numerals; lia). rewrite (lor_high 13) by (pow_numerals; lia).
    rewrite (lor_low 32) by (pow_numerals; lia). unfold decode_gate.
    rewrite (bits_digit _ 0 16 0 f0 (8 + 2 ^ 16 * ((8 * f1 + 4 + dpl) * 2 ^ 13 + type * 2 ^ 8))); [|pow_numerals; lia..].
    rewrite (bits_digit _ 48 16 (f0 + 8 * 2 ^ 16 + 2 ^ 32 * (2 ^ 15 + 2 ^ 13 * dpl + 2 ^ 8 * type)) f1 0); [|pow_numerals; lia..].
    rewrite (bits_digit _ 16 16 f0 8 ((8 * f1 + 4 + dpl) * 2 ^ 13 + type * 2 ^ 8)); [|pow_numerals; lia..].
    rewrite (bits_digit _ 40 5 (f0 + 8 * 2 ^ 16) type (8 * f1 + 4 + dpl)); [|pow_numerals; lia..].
    rewrite (bits_digit _ 45 2 (f0 + 8 * 2 ^ 16 + 2 ^ 40 * type) dpl (1 + 2 * f1)); [|pow_numerals; lia..].
    rewrite (bits_digit _ 47 1 (f0 + 8 * 2 ^ 16 + 2 ^ 40 * type + 2 ^ 45 * dpl) 1 f1); [|pow_numerals; lia..].
    f_equal. pow_numerals. lia.
Qed.

(** ** The interrupt table and the dispatcher *)

Definition INTR_CNT : Z := 256.

Record intr := Intr {
  idt : Z -> Z;
  intr_handlers : Z -> Z;
  intr_names : Z -> string;
  unexpected_cnt : Z -> Z;
  in_external_intr : bool;
  yield_on_return : bool;
  if_flag : bool;
  outs : list (Z * Z);
  printed : list Z;
  yields : nat
}.

Definition upd {A} (f : Z -> A) (k : Z) (v : A) : Z -> A := fun i => if i =? k then v else f i.

Definition set_gate (vec_no w : Z) : M intr unit := fun s =>
  Ok (tt, Intr (upd (idt s) vec_no w) (intr_handlers s) (intr_names s) (unexpected_cnt s) (in_external_intr s) (yield_on_return s) (if_flag s) (outs s) (printed s) (yields s)).
Definition set_handler (vec_no handler : Z) (name : string) : M intr unit := fun s =>
  Ok (tt, Intr (idt s) (upd (intr_handlers s) vec_no handler) (upd (intr_names s) vec_no name) (unexpected_cnt s) (in_external_intr s) (yield_on_return s) (if_flag s) (outs s) (printed s) (yields s)).
Definition set_flags (external yield : bool) : M intr unit := fun s =>
  Ok (tt, Intr (idt s) (intr_handlers s) (intr_names s) (unexpected_cnt s) external yield (if_flag s) (outs s) (printed s) (yields s)).
Definition add_out (port v : Z) (s : intr) : intr :=
  Intr (idt s) (intr_handlers s) (intr_names s) (unexpected_cnt s) (in_external_intr s) (yield_on_return s) (if_flag s) ((port, v) :: outs s) (printed s) (yields s).
Definition outb (port v : Z) : M intr unit := fun s => Ok (tt, add_out port v s).
(** The call of [thread_yield], counted. *)
Definition call_yield : M intr unit := fun s =>
  Ok (tt, Intr (idt s) (intr_handlers s) (intr_names s) (unexpected_cnt s) (in_external_intr s) (yield_on_return s) (if_flag s) (outs s) (printed s) (S (yields s))).

Definition pic_init : M intr unit :=
  outb 33 255;; outb 161 255;;
  outb 32 17;; outb 33 32;; outb 33 4;; outb 33 1;;
  outb 160 17;; outb 161 40;; outb 161 2;; outb 161 1;;
  outb 33 0;; outb 161 0.

Definition pic_end_of_interrupt (irq : Z) : M intr unit :=
  ASSERT ((32 <=? irq) && (irq <? 48));;
  outb 32 32;;
  if 40 <=? irq then outb 160 32 else mret tt.

Definition unexpected_interrupt (vec_no : Z) : M intr unit := fun s =>
  let n := u32 (unexpected_cnt s vec_no + 1) in
  Ok (tt, Intr (idt s) (intr_handlers s) (intr_names s) (upd (unexpected_cnt s) vec_no n) (in_external_intr s) (yield_on_return s) (if_flag s) (outs s)
            (if Z.land n (u32 (n - 1)) =? 0 then vec_no :: printed s else printed s) (yields s)).

(** The names of [intr_init], from vector 0 on. *)
Definition exception_names : list string :=
  ["#DE Divide Error"; "#DB Debug Exception"; "NMI Interrupt"; "#BP Breakpoint Exception"; "#OF Overflow Exception"; "#BR BOUND Range Exceeded Exception";
   "#UD Invalid Opcode Exception"; "#NM Device Not Available Exception"; "#DF Double Fault Exception"; "Coprocessor Segment Overrun"; "#TS Invalid TSS Exception";
   "#NP Segment Not Present"; "#SS Stack Fault Exception"; "#GP General Protection Exception"; "#PF Page-Fault Exception"; "unknown";
   "#MF x87 FPU Floating-Point Error"; "#AC Alignment Check Exception"; "#MC Machine-Check Exception"; "#XF SIMD Floating-Point Exception"]%string.

Section Intr.
Context (intr_stubs : Z -> Z) (run : Z -> Z -> M intr unit).

Fixpoint init_loop (n : nat) (i : Z) : M intr unit :=
  match n with
  | O => mret tt
  | S n => w ← make_intr_gate (intr_stubs i) 0; set_gate i w;; init_loop n (i + 1)
  end.

Definition set_names : M intr unit := fun s =>
  Ok (tt, Intr (idt s) (intr_handlers s) (fun i => nth (Z.to_nat i) exception_names "unknown"%string) (unexpected_cnt s)
            (in_external_intr s) (yield_on_return s) (if_flag s) (outs s) (printed s) (yields s)).

(** For a table at the address IDT; the result is the operand of [lidt]. *)
Definition intr_init (idt : Z) : M intr Z :=
  pic_init;;
  init_loop (Z.to_nat INTR_CNT) 0;;
  let idtr_operand := make_idtr_operand (8 * INTR_CNT - 1) idt in
  set_names;;
  mret idtr_operand.

Definition register_handler (vec_no dpl : Z) (level : bool) (handler : Z) (name : string) : M intr unit :=
  s ← get;
  ASSERT (intr_handlers s vec_no =? NULL);;
  w ← (if level then make_trap_gate (intr_stubs vec_no) dpl else make_intr_gate (intr_stubs vec_no) dpl);
  set_gate vec_no w;;
  set_handler vec_no handler name.

Definition intr_register_ext (vec_no handler : Z) (name : string) : M intr unit :=
  ASSERT ((32 <=? vec_no) && (vec_no <=? 47));;
  register_handler vec_no 0 false handler name.

Definition intr_register_int (vec_no dpl : Z) (level : bool) (handler : Z) (name : string) : M intr unit :=
  ASSERT ((vec_no <? 32) || (47 <? vec_no));;
  register_handler vec_no dpl level handler name.

Definition intr_handler (vec_no : Z) : M intr unit :=
  let external := (32 <=? vec_no) && (vec_no <? 48) in
  s ← get;
  (if external then
     ASSERT (negb (if_flag s));;
     ASSERT (negb (in_external_intr s));;
     set_flags true false
   else mret tt);;
  let handler := intr_handlers s vec_no in
  (if negb (handler =? NULL) then run handler vec_no
   else if (vec_no =? 39) || (vec_no =? 47) then mret tt
   else unexpected_interrupt vec_no);;
  if external then
    s ← get;
    ASSERT (negb (if_flag s));;
    ASSERT (in_external_intr s);;
    set_flags false (yield_on_return s);;
    pic_end_of_interrupt vec_no;;
    if yield_on_return s then call_yield else mret tt
  else mret tt.

(** [exception_init] and [syscall_init], with the addresses of the handlers. *)
Definition exception_init (kill page_fault : Z) : M intr unit :=
  intr_register_int 3 3 true kill "#BP Breakpoint Exception";;
  intr_register_int 4 3 true kill "#OF Overflow Exception";;
  intr_register_int 5 3 true kill "#BR BOUND Range Exceeded Exception";;
  intr_register_int 0 0 true kill "#DE Divide Error";;
  intr_register_int 1 0 true kill "#DB Debug Exception";;
  intr_register_int 6 0 true kill "#UD Invalid Opcode Exception";;
  intr_register_int 7 0 true kill "#NM Device Not Available Exception";;
  intr_register_int 11 0 true kill "#NP Segment Not Present";;
  intr_register_int 12 0 true kill "#SS Stack Fault Exception";;
  intr_register_int 13 0 true kill "#GP General Protection Exception";;
  intr_register_int 16 0 true kill "#MF x87 FPU Floating-Point Error";;
  intr_register_int 19 0 true kill "#XF SIMD Floating-Point Exception";;
  intr_register_int 14 0 false page_fault "#PF Page-Fault Exception".

Definition syscall_init (syscall_handler : Z) : M intr unit := intr_register_int 48 3 true syscall_handler "syscall".

End Intr.

(** ** Registration *)

(** A call of [intr_register_ext] or [intr_register_int]. *)
Record reg := Reg { r_ext : bool; r_vec : Z; r_dpl : Z; r_level : bool; r_handler : Z; r_name : string }.

Definition register (stubs : Z -> Z) (r : reg) : M intr unit :=
  if r_ext r then intr_register_ext stubs (r_vec r) (r_handler r) (r_name r)
  else intr_register_int stubs (r_vec r) (r_dpl r) (r_level r) (r_handler r) (r_name r).

Fixpoint register_all (stubs : Z -> Z) (rs : list reg) : M intr unit :=
  match rs with
  | [] => mret tt
  | [r] => register stubs r
  | r :: rs => register stubs r;; register_all stubs rs
  end.

(** The arguments have the right types. *)
Definition typed_reg (r : reg) : Prop := 0 <= r_vec r < 256 /\ 0 <= r_dpl r < 4 /\ r_handler r <> NULL.

Definition registered (rs : list reg) (v : Z) : option reg := List.find (fun r => r_vec r =? v) rs.

Definition external_vec (v : Z) : bool := (32 <=? v) && (v <=? 47).

(** The registration is accepted after those of RS. *)
Definition acceptable (rs : list reg) (r : reg) : bool :=
  eqb (r_ext r) (external_vec (r_vec r)) && match registered rs (r_vec r) with None => true | Some _ => false end.

Fixpoint acceptable_all (rs new : list reg) : bool :=
  match new with [] => true | r :: new => acceptable rs r && acceptable_all (r :: rs) new end.

(** The gate of a vector: an external interrupt runs with interrupts off and cannot be called. *)
Definition gate_of (stubs : Z -> Z) (rs : list reg) (v : Z) : gate :=
  match registered rs v with
  | Some r => if r_ext r then Gate (stubs v) SEL_KCSEG 14 0 1 else Gate (stubs v) SEL_KCSEG (if r_level r then 15 else 14) (r_dpl r) 1
  | None => Gate (stubs v) SEL_KCSEG 14 0 1
  end.

Definition table_ok (stubs : Z -> Z) (rs : list reg) (s : intr) : Prop := forall v, 0 <= v < 256 ->
  decode_gate (idt s v) = gate_of stubs rs v /\
  intr_handlers s v = match registered rs v with Some r => r_handler r | None => NULL end /\
  intr_names s v = match registered rs v with Some r => r_name r | None => nth (Z.to_nat v) exception_names "unknown"%string end.

Definition stubs_ok (stubs : Z -> Z) : Prop := forall v, 0 <= v < 256 -> 0 < stubs v < 2 ^ 32.

Lemma upd_eq {A} (f : Z -> A) k v : upd f k v k = v.
Proof. unfold upd. by rewrite Z.eqb_refl. Qed.

Lemma upd_ne {A} (f : Z -> A) k v i : i <> k -> upd f k v i = f i.
Proof. intros H. unfold upd. by rewrite (proj2 (Z.eqb_neq i k) H). Qed.

Lemma registered_vec rs v r : registered rs v = Some r -> r_vec r = v.
Proof. intros H. apply List.find_some in H as [_ H]. lia. Qed.

Lemma register_ok stubs rs r s : stubs_ok stubs -> table_ok stubs rs s -> typed_reg r -> Forall typed_reg rs ->
  if acceptable rs r then exists s', register stubs r s = Ok (tt, s') /\ table_ok stubs (r :: rs) s'
  else register stubs r s = Err EAssert.
Proof.
  intros Hst Htab (Hv & Hd & Hh) Hrs. unfold acceptable, register, intr_register_ext, intr_register_int, external_vec.
  assert (Hreg : forall dpl level name, 0 <= dpl < 4 -> match registered rs (r_vec r) with
    | Some _ => register_handler stubs (r_vec r) dpl level (r_handler r) name s = Err EAssert
    | None => exists w s', register_handler stubs (r_vec r) dpl level (r_handler r) name s = Ok (tt, s') /\
        decode_gate w = Gate (stubs (r_vec r)) SEL_KCSEG (if level then 15 else 14) dpl 1 /\
        idt s' = upd (idt s) (r_vec r) w /\ intr_handlers s' = upd (intr_handlers s) (r_vec r) (r_handler r) /\ intr_names s' = upd (intr_names s) (r_vec r) name end).
  { intros dpl level name Hdpl. destruct (Htab (r_vec r) Hv) as (_ & Eh & _). unfold register_handler. rewrite (bind_ok _ _ _ s s) by reflexivity. cbv beta.
    destruct (registered rs (r_vec r)) as [r0|] eqn:E.
    - rewrite (bind_err _ _ _ EAssert); [done|]. apply ASSERT_false, Z.eqb_neq. rewrite Eh.
      apply List.find_some in E as [Hin _]. by apply (proj1 (List.Forall_forall _ _) Hrs r0 Hin).
    - rewrite (bind_ok _ _ _ tt s) by (apply ASSERT_true, Z.eqb_eq; exact Eh). cbv beta.
      destruct (make_gate_ok s (stubs (r_vec r)) dpl (if level then 15 else 14)) as (w & Ew & Dw); [by apply Hst|done|by destruct level|].
      exists w. eexists. split; [rewrite (bind_ok _ _ _ w s); [reflexivity|by destruct level]|done]. }
  assert (Htable : forall s' w, decode_gate w = gate_of stubs (r :: rs) (r_vec r) -> idt s' = upd (idt s) (r_vec r) w ->
    intr_handlers s' = upd (intr_handlers s) (r_vec r) (r_handler r) -> intr_names s' = upd (intr_names s) (r_vec r) (r_name r) -> table_ok stubs (r :: rs) s').
  { intros s' w Hw E1 E2 E3 v Hv'. rewrite E1, E2, E3. destruct (Z.eq_dec v (r_vec r)) as [->|Hne].
    - rewrite !upd_eq. split; [done|]. unfold registered. cbn [List.find]. by rewrite Z.eqb_refl.
    - rewrite !upd_ne by done. unfold gate_of, registered. cbn [List.find]. rewrite (proj2 (Z.eqb_neq (r_vec r) v)) by congruence. by apply Htab. }
  assert (Hself : registered (r :: rs) (r_vec r) = Some r) by (unfold registered; cbn [List.find]; by rewrite Z.eqb_refl).
  destruct (r_ext r) eqn:Hext; cbn [eqb].
  - destruct ((32 <=? r_vec r) && (r_vec r <=? 47)) eqn:Hrange; cbn [andb].
    + rewrite (bind_ok _ _ _ tt s) by (by apply ASSERT_true). cbv beta. specialize (Hreg 0 false (r_name r) ltac:(lia)). destruct (registered rs (r_vec r)); [done|].
      destruct Hreg as (w & s' & E & Dw & E1 & E2 & E3). exists s'. split; [done|]. apply (Htable s' w); [|done..]. unfold gate_of. by rewrite Hself, Hext.
    + by rewrite (bind_err _ _ _ EAssert) by (by apply ASSERT_false).
  - assert (Hint : (r_vec r <? 32) || (47 <? r_vec r) = negb ((32 <=? r_vec r) && (r_vec r <=? 47))) by lia. rewrite Hint.
    destruct ((32 <=? r_vec r) && (r_vec r <=? 47)); cbn [negb andb].
    + by rewrite (bind_err _ _ _ EAssert) by (by apply ASSERT_false).
    + rewrite (bind_ok _ _ _ tt s) by (by apply ASSERT_true). cbv beta. specialize (Hreg (r_dpl r) (r_level r) (r_name r) Hd). destruct (registered rs (r_vec r)); [done|].
      destruct Hreg as (w & s' & E & Dw & E1 & E2 & E3). exists s'. split; [done|]. apply (Htable s' w); [|done..]. unfold gate_of. by rewrite Hself, Hext.
Qed.

Lemma register_all_cons stubs r rs s : register_all stubs (r :: rs) s = (register stubs r;; register_all stubs rs) s.
Proof. destruct rs; [|done]. cbn [register_all]. unfold mbind, M_bind. by destruct (register stubs r s) as [[[] s2]|]. Qed.

Lemma register_all_ok stubs new : forall rs s, stubs_ok stubs -> table_ok stubs rs s -> Forall typed_reg new -> Forall typed_reg rs ->
  if acceptable_all rs new then exists s', register_all stubs new s = Ok (tt, s') /\ table_ok stubs (rev new ++ rs) s'
  else register_all stubs new s = Err EAssert.
Proof.
  induction new as [|r new IH]; intros rs s Hst Htab Hnew Hrs; cbn [acceptable_all]; [by exists s|].
  apply Forall_cons in Hnew as [Hr Hnew]. pose proof (register_ok stubs rs r s Hst Htab Hr Hrs) as H1.
  rewrite register_all_cons. destruct (acceptable rs r); cbn [andb]; [|by rewrite (bind_err _ _ _ EAssert)].
  destruct H1 as (s1 & E1 & Ht1). mstep E1. specialize (IH (r :: rs) s1 Hst Ht1 Hnew (Forall_cons_2 _ _ _ Hr Hrs)).
  cbn [rev]. rewrite <- app_assoc. exact IH.
Qed.

Lemma gates_init_ok stubs n : forall i s, stubs_ok stubs -> 0 <= i -> i + Z.of_nat n <= 256 -> exists s', init_loop stubs n i s = Ok (tt, s') /\
  intr_handlers s' = intr_handlers s /\ outs s' = outs s /\ unexpected_cnt s' = unexpected_cnt s /\
  (forall v, i <= v < i + Z.of_nat n -> decode_gate (idt s' v) = Gate (stubs v) SEL_KCSEG 14 0 1) /\
  (forall v, v < i -> idt s' v = idt s v).
Proof.
  induction n as [|n IH]; intros i s Hst Hi Hn; cbn [init_loop].
  - exists s. split_and!; try done. intros v Hv. lia.
  - destruct (make_gate_ok s (stubs i) 0 14) as (w & Ew & Dw); [apply Hst; lia|lia..|].
    unfold make_intr_gate. mstep Ew. rewrite (bind_ok _ _ _ tt (Intr (upd (idt s) i w) (intr_handlers s) (intr_names s) (unexpected_cnt s) (in_external_intr s) (yield_on_return s) (if_flag s) (outs s) (printed s) (yields s))) by reflexivity.
    cbv beta. match goal with |- context [init_loop stubs n (i + 1) ?x] => destruct (IH (i + 1) x) as (s' & E & F1 & F2 & F3 & F4 & F5); [done|lia|lia|] end.
    exists s'. split; [exact E|]. split_and!; [done..| |].
    + intros v Hv. destruct (Z.eq_dec v i) as [->|Hne]; [|apply F4; lia]. rewrite F5 by lia. cbn [idt]. by rewrite upd_eq.
    + intros v Hv. rewrite F5 by lia. cbn [idt]. apply upd_ne. lia.
Qed.

Lemma outb_ok port v s : outb port v s = Ok (tt, add_out port v s).
Proof. reflexivity. Qed.

Lemma pic_init_ok s : exists s1, pic_init s = Ok (tt, s1) /\ intr_handlers s1 = intr_handlers s.
Proof.
  unfold pic_init. do 11 (rewrite (bind_ok _ _ _ _ _ (outb_ok _ _ _)); cbv beta). eexists. split; [apply outb_ok|]. reflexivity.
Qed.

Lemma intr_init_ok stubs addr s : stubs_ok stubs -> (forall v, intr_handlers s v = NULL) -> exists s', intr_init stubs addr s = Ok (make_idtr_operand (8 * INTR_CNT - 1) addr, s') /\ table_ok stubs [] s'.
Proof.
  intros Hst Hh. unfold intr_init. destruct (pic_init_ok s) as (s1 & Ep & Hh1). mstep Ep. clear Ep.
  destruct (gates_init_ok stubs (Z.to_nat INTR_CNT) 0 s1) as (s2 & E & F1 & _ & _ & F4 & _); [done|lia|unfold INTR_CNT; lia|]. mstep E.
  eexists. split; [reflexivity|]. intros v Hv. cbn [idt intr_handlers intr_names registered gate_of List.find]. split; [apply F4; unfold INTR_CNT; lia|]. split; [|done].
  by rewrite F1, Hh1.
Qed.

(** An operand of [lgdt] and [lidt] is six bytes: the limit and the address. *)
Lemma operand_ok limit base : 0 <= limit < 2 ^ 16 -> 0 <= base -> let op := Z.lor limit (Z.shiftl base 16) in op mod 2 ^ 16 = limit /\ op / 2 ^ 16 = base.
Proof.
  intros Hl Hb op. unfold op. rewrite Z.shiftl_mul_pow2, (lor_low 16) by lia. split.
  - rewrite Z.mod_add by lia. by apply Z.mod_small.
  - rewrite Z.div_add by lia. by rewrite Z.div_small.
Qed.

(** The descriptor table and the task-state segment. *)
Lemma gdt_ok page current gdt s : 0 < page < 2 ^ 32 -> 0 <= current < 2 ^ 32 - 4096 -> 0 <= gdt ->
  exists table op s', (tss_init page current;; gdt_init gdt) s = Ok ((table, op), s') /\ s' = Tss page SEL_KDSEG (current + 4096) 57343 /\ op mod 2 ^ 16 = 8 * 6 - 1 /\ op / 2 ^ 16 = gdt /\
    map decode_segment (drop 1 table) =
      [Segment 0 1048575 1 10 0 1 1 1; Segment 0 1048575 1 2 0 1 1 1; Segment 0 1048575 1 10 3 1 1 1; Segment 0 1048575 1 2 3 1 1 1; Segment page 103 0 9 0 1 1 0] /\
    map (fun sel => option_map (fun w => s_dpl (decode_segment w)) (table !! Z.to_nat (sel / 8))) [SEL_KCSEG; SEL_KDSEG; SEL_UCSEG; SEL_UDSEG] =
      map (fun sel => Some (sel mod 4)) [SEL_KCSEG; SEL_KDSEG; SEL_UCSEG; SEL_UDSEG].
Proof.
  intros Hp Hc Hg. unfold tss_init. rewrite bind_assoc. rewrite (bind_ok _ _ _ tt (Tss page SEL_KDSEG 0 57343)) by reflexivity. cbv beta.
  set (t := Tss page SEL_KDSEG (current + 4096) 57343).
  rewrite (bind_ok _ _ _ tt t).
  2:{ unfold tss_update. rewrite (bind_ok _ _ _ (Tss page SEL_KDSEG 0 57343) (Tss page SEL_KDSEG 0 57343)) by reflexivity. cbv beta.
      rewrite (bind_ok _ _ _ tt (Tss page SEL_KDSEG 0 57343)) by (apply ASSERT_true, negb_true_iff, Z.eqb_neq; cbn [tss_addr]; unfold NULL; lia). cbv beta.
      unfold put, t. cbn [tss_addr ss0 bitmap]. by rewrite u32_small by (pow_numerals; lia). }
  cbv beta. unfold gdt_init.
  destruct (make_seg_desc_ok t 0 1048575 1 10 0 1) as (w1 & E1 & D1); [pow_numerals; lia..|]. unfold make_code_desc at 1, CLS_CODE_DATA, GRAN_PAGE. mstep E1.
  destruct (make_seg_desc_ok t 0 1048575 1 2 0 1) as (w2 & E2 & D2); [pow_numerals; lia..|]. unfold make_data_desc at 1, CLS_CODE_DATA, GRAN_PAGE. mstep E2.
  destruct (make_seg_desc_ok t 0 1048575 1 10 3 1) as (w3 & E3 & D3); [pow_numerals; lia..|]. unfold make_code_desc, CLS_CODE_DATA, GRAN_PAGE. mstep E3.
  destruct (make_seg_desc_ok t 0 1048575 1 2 3 1) as (w4 & E4 & D4); [pow_numerals; lia..|]. unfold make_data_desc, CLS_CODE_DATA, GRAN_PAGE. mstep E4.
  rewrite (bind_ok _ _ _ page t).
  2:{ unfold tss_get. rewrite (bind_ok _ _ _ t t) by reflexivity. cbv beta. rewrite (bind_ok _ _ _ tt t); [reflexivity|]. apply ASSERT_true, negb_true_iff, Z.eqb_neq. cbn [tss_addr t]. unfold NULL. lia. }
  cbv beta. destruct (make_seg_desc_ok t page 103 0 9 0 0) as (w5 & E5 & D5); [pow_numerals; lia..|]. unfold make_tss_desc, CLS_SYSTEM, GRAN_BYTE. mstep E5.
  exists [0; w1; w2; w3; w4; w5]. eexists _, t. split; [reflexivity|]. split; [done|].
  destruct (operand_ok (8 * SEL_CNT - 1) gdt ltac:(done) Hg) as [O1 O2]. split; [exact O1|]. split; [exact O2|]. split; [cbn [map drop]; by rewrite D1, D2, D3, D4, D5|].
  transitivity [Some (s_dpl (decode_segment w1)); Some (s_dpl (decode_segment w2)); Some (s_dpl (decode_segment w3)); Some (s_dpl (decode_segment w4))]; [reflexivity|].
  by rewrite D1, D2, D3, D4.
Qed.

(** C28: the processor reads back from a descriptor what [make_seg_desc] was
    given; the table that [gdt_init] builds has flat code and data segments for the kernel and for user programs, usable at the
    privilege of their selectors, and the task-state segment at its place; the operands of [lgdt] and [lidt] give the address and the last byte of each table; and after [intr_init] the calls of [intr_register_ext] and [intr_register_int] are accepted exactly
    when the vector is in the right range and has no handler yet: then every one of the 256 gates leads to its stub in the kernel's code segment with
    the privilege and the type that were registered, an external one with interrupts off and out of reach of user programs. *)
Theorem descriptor_tables_correct :
  (forall base limit class type dpl g (s : unit), 0 <= base < 2 ^ 32 -> 0 <= limit < 2 ^ 20 -> 0 <= class < 2 -> 0 <= type < 16 -> 0 <= dpl < 4 -> 0 <= g < 2 ->
     exists w, make_seg_desc base limit class type dpl g s = Ok (w, s) /\ decode_segment w = Segment base limit class type dpl 1 1 g) /\
  (forall page current gdt s, 0 < page < 2 ^ 32 -> 0 <= current < 2 ^ 32 - 4096 -> 0 <= gdt ->
     exists table op s', (tss_init page current;; gdt_init gdt) s = Ok ((table, op), s') /\ s' = Tss page SEL_KDSEG (current + 4096) 57343 /\ op mod 2 ^ 16 = 8 * 6 - 1 /\ op / 2 ^ 16 = gdt /\
       map decode_segment (drop 1 table) =
         [Segment 0 1048575 1 10 0 1 1 1; Segment 0 1048575 1 2 0 1 1 1; Segment 0 1048575 1 10 3 1 1 1; Segment 0 1048575 1 2 3 1 1 1; Segment page 103 0 9 0 1 1 0] /\
       map (fun sel => option_map (fun w => s_dpl (decode_segment w)) (table !! Z.to_nat (sel / 8))) [SEL_KCSEG; SEL_KDSEG; SEL_UCSEG; SEL_UDSEG] =
         map (fun sel => Some (sel mod 4)) [SEL_KCSEG; SEL_KDSEG; SEL_UCSEG; SEL_UDSEG]) /\
  (forall stubs addr rs s, 0 <= addr -> stubs_ok stubs -> (forall v, intr_handlers s v = NULL) -> Forall typed_reg rs ->
     if acceptable_all [] rs then exists op s', (op ← intr_init stubs addr; register_all stubs rs;; mret op) s = Ok (op, s') /\ op mod 2 ^ 16 = 8 * 256 - 1 /\ op / 2 ^ 16 = addr /\ table_ok stubs (rev rs) s'
     else (op ← intr_init stubs addr; register_all stubs rs;; mret op) s = Err EAssert).
Proof.
  split; [|split].
  - intros. by apply make_seg_desc_ok.
  - intros. by apply gdt_ok.
  - intros stubs addr rs s Ha Hst Hh Hrs. destruct (intr_init_ok stubs addr s Hst Hh) as (s1 & E1 & Ht1).
    pose proof (register_all_ok stubs rs [] s1 Hst Ht1 Hrs (Forall_nil_2 _)) as H. rewrite app_nil_r in H. destruct (acceptable_all [] rs).
    + destruct H as (s' & E & Ht). eexists _, s'. split; [mstep E1; by mstep E|]. destruct (operand_ok (8 * INTR_CNT - 1) addr ltac:(done) Ha) as [O1 O2].
      split; [exact O1|]. by split; [exact O2|].
    + mstep E1. by apply bind_err.
Qed.

(** The gates that a user program can call. *)
Definition kernel_regs (kill page_fault syscall_handler : Z) : list reg :=
  [Reg false 3 3 true kill "#BP Breakpoint Exception"; Reg false 4 3 true kill "#OF Overflow Exception"; Reg false 5 3 true kill "#BR BOUND Range Exceeded Exception";
   Reg false 0 0 true kill "#DE Divide Error"; Reg false 1 0 true kill "#DB Debug Exception"; Reg false 6 0 true kill "#UD Invalid Opcode Exception";
   Reg false 7 0 true kill "#NM Device Not Available Exception"; Reg false 11 0 true kill "#NP Segment Not Present"; Reg false 12 0 true kill "#SS Stack Fault Exception";
   Reg false 13 0 true kill "#GP General Protection Exception"; Reg false 16 0 true kill "#MF x87 FPU Floating-Point Error";
   Reg false 19 0 true kill "#XF SIMD Floating-Point Exception"; Reg false 14 0 false page_fault "#PF Page-Fault Exception"; Reg false 48 3 true syscall_handler "syscall"]%string.

Lemma register_all_snoc stubs rs r : forall s, (register_all stubs rs;; register stubs r) s = register_all stubs (rs ++ [r]) s.
Proof.
  induction rs as [|r0 rs IH]; intros s; cbn [app]; [done|]. rewrite register_all_cons. rewrite <- (bind_ok (mret tt) (fun _ => register_all stubs (r0 :: rs);; register stubs r) s tt s) by done.
  unfold mbind, M_bind, mret, M_ret. rewrite register_all_cons. unfold mbind, M_bind. destruct (register stubs r0 s) as [[[] s1]|]; [|done]. apply IH.
Qed.

Lemma kernel_regs_run stubs kill page_fault syscall_handler s :
  (exception_init stubs kill page_fault;; syscall_init stubs syscall_handler) s = register_all stubs (kernel_regs kill page_fault syscall_handler) s.
Proof. exact (register_all_snoc stubs (take 13 (kernel_regs kill page_fault syscall_handler)) (Reg false 48 3 true syscall_handler "syscall") s). Qed.

Definition user_vectors : list Z := [3; 4; 5; 48].

Lemma user_gates stubs s : stubs_ok stubs -> table_ok stubs (rev (kernel_regs 1 2 3)) s ->
  forall v, 0 <= v < 256 -> (g_dpl (decode_gate (idt s v)) = 3 <-> v ∈ user_vectors).
Proof.
  intros Hst Ht v Hv. destruct (Ht v Hv) as (-> & _). assert (H : forallb (fun v => eqb (g_dpl (gate_of (fun _ => 1) (rev (kernel_regs 1 2 3)) v) =? 3) (bool_decide (v ∈ user_vectors)))
    (map Z.of_nat (seq 0 256)) = true) by (vm_compute; reflexivity).
  pose proof (proj1 (forallb_forall _ _) H v ltac:(apply in_map_iff; exists (Z.to_nat v); split; [lia|apply in_seq; lia])) as Hq. cbv beta in Hq. apply eqb_prop in Hq.
  replace (g_dpl (gate_of stubs (rev (kernel_regs 1 2 3)) v)) with (g_dpl (gate_of (fun _ => 1) (rev (kernel_regs 1 2 3)) v)).
  - rewrite <- Z.eqb_eq, Hq. apply bool_decide_eq_true.
  - unfold gate_of. destruct (registered _ v) as [r|]; [|done]. by destruct (r_ext r).
Qed.

Lemma descriptor_tables_correct_witness : exists op s',
  (op ← intr_init (fun v => v + 1) 8192; (exception_init (fun v => v + 1) 1 2;; syscall_init (fun v => v + 1) 3);; mret op)
    (Intr (fun _ => 0) (fun _ => 0) (fun _ => EmptyString) (fun _ => 0) false false false [] [] 0) = Ok (op, s') /\ op / 2 ^ 16 = 8192 /\
  forall v, 0 <= v < 256 -> (g_dpl (decode_gate (idt s' v)) = 3 <-> v ∈ user_vectors).
Proof.
  assert (Hst : stubs_ok (fun v => v + 1)) by (intros v Hv; pow_numerals; lia).
  assert (Hrs : Forall typed_reg (kernel_regs 1 2 3)) by (unfold kernel_regs; repeat (apply Forall_cons_2; [unfold typed_reg; cbn; unfold NULL; lia|]); apply Forall_nil_2).
  pose proof (proj2 (proj2 descriptor_tables_correct) (fun v => v + 1) 8192 (kernel_regs 1 2 3)
    (Intr (fun _ => 0) (fun _ => 0) (fun _ => EmptyString) (fun _ => 0) false false false [] [] 0) ltac:(done) Hst (fun _ => eq_refl) Hrs) as H.
  change (acceptable_all [] (kernel_regs 1 2 3)) with true in H. cbv iota in H. destruct H as (op & s' & E & _ & Ho & Ht). exists op, s'. split; [|split; [exact Ho|by apply (user_gates (fun v => v + 1))]].
  etransitivity; [|exact E]. unfold mbind at 1 4, M_bind. destruct (intr_init _ _ _) as [[op1 s1]|]; [|reflexivity]. unfold mbind at 1 3, M_bind. by rewrite <- kernel_regs_run.
Defined.

(** ** Dispatch *)

(** The commands to the two interrupt controllers. *)
Definition acks (l : list (Z * Z)) : list (Z * Z) := List.filter (fun o => (fst o =? 32) || (fst o =? 160)) l.

(** What the dispatcher asks of the handlers of external interrupts: they
    return with interrupts still off, do not speak to the controllers and do not yield. *)
Class Handlers (run : Z -> Z -> M intr unit) : Prop :=
  handler_returns : forall h v s, in_external_intr s = true -> if_flag s = false -> exists s', run h v s = Ok (tt, s') /\
    in_external_intr s' = true /\ if_flag s' = false /\ intr_handlers s' = intr_handlers s /\ acks (outs s') = acks (outs s) /\ yields s' = yields s.

(** The acknowledgement of a vector. *)
Definition eoi (v : Z) : list (Z * Z) := (if 40 <=? v then [(160, 32)] else []) ++ [(32, 32)].

(** The state a handler of an external interrupt starts in. *)
Definition entering (s : intr) : intr :=
  Intr (idt s) (intr_handlers s) (intr_names s) (unexpected_cnt s) true false (if_flag s) (outs s) (printed s) (yields s).

(** The external interrupt V was served between [s] and [s'].  The handler that is registered for it ran, once, and left [s2]; without one, a
    vector that can be spurious is ignored and any other is reported.  Then the interrupt was acknowledged, and there was a yield if, and only if,
    the handler had asked for one; nothing else changed. *)
Record served (run : Z -> Z -> M intr unit) (v : Z) (s s2 s' : intr) : Prop := {
  sv_handler : intr_handlers s v <> NULL -> run (intr_handlers s v) v (entering s) = Ok (tt, s2);
  sv_spurious : intr_handlers s v = NULL -> v = 39 \/ v = 47 -> s2 = entering s;
  sv_unexpected : intr_handlers s v = NULL -> v <> 39 -> v <> 47 -> unexpected_interrupt v (entering s) = Ok (tt, s2);
  sv_ack : outs s' = eoi v ++ outs s2;
  sv_yield : yields s' = ((if yield_on_return s2 then 1 else 0) + yields s2)%nat;
  sv_flags : if_flag s' = if_flag s2 /\ in_external_intr s' = false /\ yield_on_return s' = yield_on_return s2;
  sv_rest : idt s' = idt s2 /\ intr_handlers s' = intr_handlers s2 /\ intr_names s' = intr_names s2 /\
    unexpected_cnt s' = unexpected_cnt s2 /\ printed s' = printed s2
}.

(** The interrupts were served one after the other. *)
Fixpoint served_all (run : Z -> Z -> M intr unit) (vs : list Z) (s s' : intr) : Prop :=
  match vs with
  | [] => s' = s
  | v :: vs => exists s2 s1, served run v s s2 s1 /\ served_all run vs s1 s'
  end.

Fixpoint handle_all (run : Z -> Z -> M intr unit) (vs : list Z) : M intr unit :=
  match vs with [] => mret tt | v :: vs => intr_handler run v;; handle_all run vs end.

Section Dispatch.
Context (run : Z -> Z -> M intr unit) `{!Handlers run}.

Lemma intr_handler_external v s : 32 <= v < 48 -> if_flag s = false -> in_external_intr s = false ->
  exists s', intr_handler run v s = Ok (tt, s') /\ if_flag s' = false /\ in_external_intr s' = false /\ intr_handlers s' = intr_handlers s /\
    acks (outs s') = eoi v ++ acks (outs s) /\ (yields s <= yields s' <= S (yields s))%nat /\ exists s2, served run v s s2 s'.
Proof using Type*.
  intros Hv Hif Hext. unfold intr_handler. replace ((32 <=? v) && (v <? 48)) with true by lia. cbv zeta. rewrite (bind_ok _ _ _ s s) by reflexivity. cbv beta.
  set (s1 := entering s).
  rewrite (bind_ok _ _ _ tt s1).
  2:{ rewrite (bind_ok _ _ _ tt s) by (apply ASSERT_true; by rewrite Hif). cbv beta. rewrite (bind_ok _ _ _ tt s) by (apply ASSERT_true; by rewrite Hext). reflexivity. }
  cbv beta. assert (Hbody : exists s2, (if negb (intr_handlers s v =? NULL) then run (intr_handlers s v) v else if (v =? 39) || (v =? 47) then mret tt else unexpected_interrupt v) s1 = Ok (tt, s2) /\
    in_external_intr s2 = true /\ if_flag s2 = false /\ intr_handlers s2 = intr_handlers s /\ acks (outs s2) = acks (outs s) /\ yields s2 = yields s).
  { destruct (negb (intr_handlers s v =? NULL)); [exact (handler_returns (intr_handlers s v) v s1 eq_refl Hif)|].
    destruct ((v =? 39) || (v =? 47)); eexists; (split; [reflexivity|]); by split_and!. }
  destruct Hbody as (s2 & E2 & F1 & F2 & F3 & F4 & F5). mstep E2.
  assert (Hran : (intr_handlers s v <> NULL -> run (intr_handlers s v) v s1 = Ok (tt, s2)) /\
    (intr_handlers s v = NULL -> v = 39 \/ v = 47 -> s2 = s1) /\
    (intr_handlers s v = NULL -> v <> 39 -> v <> 47 -> unexpected_interrupt v s1 = Ok (tt, s2))).
  { destruct (Z.eqb_spec (intr_handlers s v) NULL) as [E0|E0]; cbn [negb] in E2; [|by split_and!].
    split; [done|]. split; intros _; [intros Hsp|intros H1 H2].
    - replace ((v =? 39) || (v =? 47)) with true in E2 by lia. by injection E2.
    - replace ((v =? 39) || (v =? 47)) with false in E2 by lia. exact E2. }
  destruct Hran as (R1 & R2 & R3). rewrite (bind_ok _ _ _ s2 s2) by reflexivity. cbv beta.
  rewrite (bind_ok _ _ _ tt s2) by (apply ASSERT_true; by rewrite F2). cbv beta. rewrite (bind_ok _ _ _ tt s2) by (apply ASSERT_true; by rewrite F1). cbv beta.
  set (s3 := Intr (idt s2) (intr_handlers s2) (intr_names s2) (unexpected_cnt s2) false (yield_on_return s2) (if_flag s2) (outs s2) (printed s2) (yields s2)).
  rewrite (bind_ok _ _ _ tt s3) by reflexivity. cbv beta.
  set (s4 := if 40 <=? v then add_out 160 32 (add_out 32 32 s3) else add_out 32 32 s3).
  rewrite (bind_ok _ _ _ tt s4).
  2:{ unfold pic_end_of_interrupt. rewrite (bind_ok _ _ _ tt s3) by (apply ASSERT_true; lia). cbv beta. rewrite (bind_ok _ _ _ _ _ (outb_ok 32 32 s3)). cbv beta.
      unfold s4. by destruct (40 <=? v). }
  cbv beta. assert (H4 : if_flag s4 = false /\ in_external_intr s4 = false /\ intr_handlers s4 = intr_handlers s /\ acks (outs s4) = eoi v ++ acks (outs s) /\ yields s4 = yields s).
  { unfold s4, eoi. destruct (40 <=? v); cbn [if_flag in_external_intr intr_handlers outs yields add_out s3 acks List.filter fst Z.eqb Pos.eqb orb app]; fold (acks (outs s2)); by rewrite F4. }
  destruct H4 as (G1 & G2 & G3 & G4 & G5).
  assert (G6 : outs s4 = eoi v ++ outs s2 /\ if_flag s4 = if_flag s2 /\ yield_on_return s4 = yield_on_return s2 /\ yields s4 = yields s2 /\ idt s4 = idt s2 /\
    intr_handlers s4 = intr_handlers s2 /\ intr_names s4 = intr_names s2 /\ unexpected_cnt s4 = unexpected_cnt s2 /\ printed s4 = printed s2).
  { unfold s4, eoi. by destruct (40 <=? v). }
  destruct G6 as (O1 & O2 & O3 & O4 & O5 & O6 & O7 & O8 & O9). clearbody s4. destruct (yield_on_return s2) eqn:Hy.
  - eexists. split; [reflexivity|]. cbn [if_flag in_external_intr intr_handlers outs yields]. split_and!; try done; try lia.
    exists s2. split; cbn [outs yields if_flag in_external_intr yield_on_return idt intr_handlers intr_names unexpected_cnt printed]; try done;
      [rewrite Hy; lia|by rewrite O3, Hy].
  - exists s4. split; [reflexivity|]. split_and!; try done; try lia. exists s2. split; try done; [by rewrite Hy|by rewrite O3, Hy].
Qed.

Lemma handle_all_ok vs : forall s, Forall (fun v => 32 <= v < 48) vs -> if_flag s = false -> in_external_intr s = false ->
  exists s', handle_all run vs s = Ok (tt, s') /\ if_flag s' = false /\ in_external_intr s' = false /\ intr_handlers s' = intr_handlers s /\
    acks (outs s') = flat_map eoi (rev vs) ++ acks (outs s) /\ (yields s <= yields s' <= length vs + yields s)%nat /\ served_all run vs s s'.
Proof using Type*.
  induction vs as [|v vs IH]; intros s Hvs Hif Hext; cbn [handle_all]; [by exists s|].
  apply Forall_cons in Hvs as [Hv Hvs]. destruct (intr_handler_external v s Hv Hif Hext) as (s1 & E1 & F1 & F2 & F3 & F4 & F5 & s2 & Hsv). mstep E1.
  destruct (IH s1 Hvs F1 F2) as (s' & E & G1 & G2 & G3 & G4 & G5 & G6). exists s'. split_and!; [done|done|done|congruence| |lia|cbn [length]; lia|by exists s2, s1].
  rewrite G4, F4. cbn [rev]. by rewrite flat_map_app, <- app_assoc; cbn [flat_map]; rewrite app_nil_r.
Qed.

End Dispatch.

(** ** Unexpected interrupts *)

Lemma land_pred_pow2 n : 1 <= n -> Z.land n (n - 1) = 0 <-> n = 2 ^ Z.log2 n.
Proof.
  intros Hn. pose proof (Z.log2_spec n ltac:(lia)) as [H1 H2]. pose proof (Z.log2_nonneg n) as Hk. set (k := Z.log2 n) in *. split.
  - intros Hz. destruct (Z.eq_dec n (2 ^ k)) as [|Hne]; [done|]. exfalso.
    assert (Hb : Z.testbit (Z.land n (n - 1)) k = true).
    { rewrite Z.land_spec. assert (Z.log2 (n - 1) = k) as Hl by (apply Z.log2_unique; lia). rewrite <- Hl at 2. unfold k. by rewrite !Z.bit_log2 by lia. }
    by rewrite Hz, Z.bits_0 in Hb.
  - clear H1 H2. clearbody k. intros ->. replace (2 ^ k - 1) with (Z.ones k) by (rewrite Z.ones_equiv; lia). rewrite Z.land_ones by done. apply Z.mod_same. lia.
Qed.

Fixpoint unexpected_times (n : nat) (v : Z) : M intr unit :=
  match n with O => mret tt | S n => unexpected_times n v;; unexpected_interrupt v end.

(** The number of messages about a vector. *)
Definition messages (n : nat) : nat := if n is O then O else S (Z.to_nat (Z.log2 (Z.of_nat n))).

Lemma messages_step n : messages (S n) = (messages n + (if (Z.land (Z.of_nat (S n)) (Z.of_nat (S n) - 1) =? 0)%Z then 1 else 0))%nat.
Proof.
  set (m := Z.of_nat (S n)). pose proof (land_pred_pow2 m ltac:(lia)) as Hp. destruct n as [|n]; [done|]. cbn [messages]. fold m.
  pose proof (Z.log2_spec m ltac:(lia)) as [H1 H2]. pose proof (Z.log2_nonneg m). pose proof (Z.log2_nonneg (Z.of_nat (S n))).
  destruct (Z.eqb_spec (Z.land m (m - 1)) 0) as [Hz|Hz].
  - apply Hp in Hz. assert (Hk : 0 < Z.log2 m) by (destruct (Z.eq_dec (Z.log2 m) 0) as [E|]; [rewrite E in Hz; cbn in Hz; lia|lia]).
    assert (E : Z.log2 (Z.of_nat (S n)) = Z.log2 m - 1).
    { apply Z.log2_unique; [lia|]. replace (Z.succ (Z.log2 m - 1)) with (Z.log2 m) by lia.
      assert (E2 : 2 ^ Z.log2 m = 2 * 2 ^ (Z.log2 m - 1)) by (rewrite <- Z.pow_succ_r by lia; f_equal; lia). pose proof (Z.pow_pos_nonneg 2 (Z.log2 m - 1)). lia. }
    rewrite E. lia.
  - assert (E : Z.log2 (Z.of_nat (S n)) = Z.log2 m) by (apply Z.log2_unique; [lia|]; destruct (Z.eq_dec m (2 ^ Z.log2 m)); [tauto|lia]). rewrite E. lia.
Qed.

Lemma unexpected_times_ok n v : forall s, unexpected_cnt s v = 0 -> Z.of_nat n < 2 ^ 32 -> exists s', unexpected_times n v s = Ok (tt, s') /\
  unexpected_cnt s' v = Z.of_nat n /\ printed s' = replicate (messages n) v ++ printed s.
Proof.
  induction n as [|n IH]; intros s H0 Hn; cbn [unexpected_times]; [by exists s|].
  destruct (IH s H0) as (s1 & E1 & C1 & P1); [lia|]. mstep E1. eexists. split; [reflexivity|]. cbn [unexpected_cnt printed]. rewrite upd_eq, C1.
  pow_numerals. rewrite (u32_small (Z.of_nat n + 1)) by lia. replace (Z.of_nat n + 1) with (Z.of_nat (S n)) by lia. split; [done|].
  rewrite (u32_small (Z.of_nat (S n) - 1)) by lia. rewrite messages_step, P1.
  destruct (_ =? 0); [|by rewrite Nat.add_0_r]. by rewrite Nat.add_1_r.
Qed.

(** C30: in any sequence of external interrupts, for any handlers that keep to
    their contract, no assertion of the dispatcher fails: afterwards no interrupt is being processed, every one was acknowledged once at the master controller, and also at the
    slave if it came from there, in order.  Each one was served as [served] says, one after the other: the handler registered for its vector ran once on the
    state with interrupt processing noted and no yield asked for, a vector without handler was ignored if it can be spurious and reported otherwise, and a yield
    followed exactly when the handler had asked for it.  An external interrupt that arrives with interrupts on or during
    another one is stopped by an assertion.  Of N unexpected interrupts of one vector all are counted, and a message
    is printed about the first and then whenever their number has doubled. *)
Theorem interrupt_dispatch_correct run `{!Handlers run} vs s : Forall (fun v => 32 <= v < 48) vs ->
  (if_flag s = false -> in_external_intr s = false ->
   exists s', handle_all run vs s = Ok (tt, s') /\ if_flag s' = false /\ in_external_intr s' = false /\ intr_handlers s' = intr_handlers s /\
     acks (outs s') = flat_map eoi (rev vs) ++ acks (outs s) /\ (yields s <= yields s' <= length vs + yields s)%nat /\
     served_all run vs s s') /\
  (forall v, v ∈ vs -> if_flag s = true \/ in_external_intr s = true -> intr_handler run v s = Err EAssert) /\
  (forall v n, ~ v ∈ vs -> unexpected_cnt s v = 0 -> Z.of_nat n < 2 ^ 32 -> exists s', unexpected_times n v s = Ok (tt, s') /\
     unexpected_cnt s' v = Z.of_nat n /\ printed s' = replicate (messages n) v ++ printed s).
Proof.
  intros Hvs. split; [intros; by apply handle_all_ok|]. split; [|intros v n _; apply unexpected_times_ok].
  intros v Hv Hs. assert (Hr : 32 <= v < 48) by exact (proj1 (List.Forall_forall _ vs) Hvs v (proj1 (list_elem_of_In _ _) Hv)).
  unfold intr_handler. replace ((32 <=? v) && (v <? 48)) with true by lia. cbv zeta. rewrite (bind_ok _ _ _ s s) by reflexivity. cbv beta.
  apply bind_err. destruct (if_flag s) eqn:Ef.
  - apply bind_err. by apply ASSERT_false.
  - rewrite (bind_ok _ _ _ tt s) by (by apply ASSERT_true). cbv beta. apply bind_err. destruct Hs as [Hs|Hs]; [done|]. rewrite Hs. by apply ASSERT_false.
Qed.

(** A handler that asks for a yield. *)
Definition demo_run (h v : Z) : M intr unit := fun s =>
  Ok (tt, Intr (idt s) (intr_handlers s) (intr_names s) (unexpected_cnt s) (in_external_intr s) true (if_flag s) ((96, h) :: outs s) (printed s) (yields s)).

#[export] Instance demo_handlers : Handlers demo_run.
Proof. intros h v s Hext Hif. eexists. split; [reflexivity|]. by split_and!. Qed.

Definition demo_intr : intr :=
  Intr (fun _ => 0) (fun v => if v =? 33 then 5 else 0) (fun _ => EmptyString) (fun _ => 0) false false false [] [] 0.

Definition run_of (s s2 : intr) : Prop := demo_run 5 33 (entering s) = Ok (tt, s2).

Lemma interrupt_dispatch_correct_witness : exists s', handle_all demo_run [33; 46] demo_intr = Ok (tt, s') /\ acks (outs s') = [(160, 32); (32, 32); (32, 32)] /\ yields s' = 1%nat /\
  exists s2 s1, run_of demo_intr s2 /\ served demo_run 33 demo_intr s2 s1.
Proof.
  destruct (interrupt_dispatch_correct demo_run [33; 46] demo_intr) as ((s' & E & _ & _ & _ & Ha & _ & (s2 & s1 & Hsv & _)) & _); [repeat (apply Forall_cons_2; [lia|]); apply Forall_nil_2|done|done|].
  exists s'. split; [exact E|]. split; [exact Ha|]. split; [vm_compute in E; injection E as <-; reflexivity|].
  exists s2, s1. split; [|exact Hsv]. apply (sv_handler _ _ _ _ _ Hsv). discriminate.
Defined.
