(* ===== verification/Ide.v ===== *)
(** * Reading and writing sectors: [devices/ide.c]

    The hardware of a channel is a parameter: its state HW with what the
    instructions on its ports do, what the passing of time does, and whether an
    interrupt comes.  [AtaLaws] is what the driver relies on, from the ATA standard: the
    registers keep what was written, a command works on the sector that they
    select, the device is busy for a while and then asks for the transfer of a sector, and an interrupt reports the end.  The state of
    the driver is the one of the channel, with the messages it printed, the newest first; the lock of the
    channel is left out, each call is one critical section. *)

From Stdlib Require Import Strings.String.
From S2P Require Import Prelude ListModel Bytes Block.

Class Ata (hw : Type) := {
  outb : Z -> Z -> hw -> hw;
  inb : Z -> hw -> Z * hw;
  insw : Z -> hw -> list Z * hw;
  outsw : Z -> list Z -> hw -> hw;
  sleep : hw -> hw;
  interrupt : hw -> option hw
}.

(** [struct channel], as far as the transfers use it, and the interrupt flag of the processor. *)
Record channel := Channel { intr_on : bool; reg_base : Z; expecting_interrupt : bool; completion_wait : Z; messages : list string }.

Definition reg_data (base : Z) : Z := base + 0.
Definition reg_nsect (base : Z) : Z := base + 2.
Definition reg_lbal (base : Z) : Z := base + 3.
Definition reg_lbam (base : Z) : Z := base + 4.
Definition reg_lbah (base : Z) : Z := base + 5.
Definition reg_device (base : Z) : Z := base + 6.
Definition reg_status (base : Z) : Z := base + 7.
Definition reg_command (base : Z) : Z := reg_status base.
Definition reg_ctl (base : Z) : Z := base + 518.
Definition reg_alt_status (base : Z) : Z := reg_ctl base.

Definition STA_BSY : Z := 128.
Definition STA_DRQ : Z := 8.
Definition DEV_MBS : Z := 160.
Definition DEV_LBA : Z := 64.
Definition DEV_DEV : Z := 16.
Definition CMD_READ_SECTOR_RETRY : Z := 32.
Definition CMD_WRITE_SECTOR_RETRY : Z := 48.

Section Driver.
Context {hw : Type} `{!Ata hw}.

Abbreviation I := (M (channel * hw)).

Definition base : I Z := gets (fun s => reg_base s.1).
Definition out (port v : Z) : I unit := fun s => Ok (tt, (s.1, outb port (u8 v) s.2)).
Definition in_ (port : Z) : I Z := fun s => let r := inb port s.2 in Ok (r.1, (s.1, r.2)).
Definition nap : I unit := fun s => Ok (tt, (s.1, sleep s.2)).
Definition say (m : string) : I unit := fun s =>
  Ok (tt, (Channel (intr_on s.1) (reg_base s.1) (expecting_interrupt s.1) (completion_wait s.1) (m :: messages s.1), s.2)).
Definition set_completion (v : Z) : I unit := fun s =>
  Ok (tt, (Channel (intr_on s.1) (reg_base s.1) (expecting_interrupt s.1) v (messages s.1), s.2)).

(** ** Waiting *)

Fixpoint idle_loop (n : nat) : I unit :=
  match n with
  | O => say "idle timeout"
  | S n =>
      b ← base;
      x ← in_ (reg_status b);
      if Z.land x (Z.lor STA_BSY STA_DRQ) =? 0 then mret tt else nap;; idle_loop n
  end.

Definition wait_until_idle : I unit := idle_loop 1000.

(** N more rounds of the 3000. *)
Fixpoint busy_loop (n : nat) : I bool :=
  match n with
  | O => say "failed";; mret false
  | S n =>
      (if (n =? 2299)%nat then say "busy, waiting..." else mret tt);;
      b ← base;
      x ← in_ (reg_alt_status b);
      if Z.land x STA_BSY =? 0 then
        (if (n <=? 2299)%nat then say "ok" else mret tt);;
        x ← in_ (reg_alt_status b);
        mret (negb (Z.land x STA_DRQ =? 0))
      else nap;; busy_loop n
  end.

Definition wait_while_busy : I bool := busy_loop 3000.

(** ** Interrupts *)

(** [interrupt_handler] for the channel whose interrupt it is. *)
Definition interrupt_handler : I unit :=
  s ← get;
  if expecting_interrupt s.1 then
    in_ (reg_status (reg_base s.1));;
    s ← get;
    set_completion (completion_wait s.1 + 1)
  else say "unexpected interrupt".

(** [sema_down (&c->completion_wait)]: a thread that finds zero goes on behind
    the interrupt that raises it. *)
Definition sema_down : I unit :=
  s ← get;
  (if 0 <? completion_wait s.1 then mret tt else
     match interrupt s.2 with
     | Some h => put (s.1, h);; interrupt_handler
     | None => fail EFuel
     end);;
  s ← get;
  if 0 <? completion_wait s.1 then set_completion (completion_wait s.1 - 1) else fail EFuel.

(** ** Commands *)

Definition select_device (dev_no : Z) : I unit :=
  b ← base;
  let dev := DEV_MBS in
  let dev := if dev_no =? 1 then Z.lor dev DEV_DEV else dev in
  out (reg_device b) dev;;
  in_ (reg_alt_status b);;
  nap.

Definition select_device_wait (dev_no : Z) : I unit :=
  wait_until_idle;;
  select_device dev_no;;
  wait_until_idle.

Definition select_sector (dev_no sec_no : Z) : I unit :=
  ASSERT (sec_no <? 2 ^ 28);;
  select_device_wait dev_no;;
  b ← base;
  out (reg_nsect b) 1;;
  out (reg_lbal b) sec_no;;
  out (reg_lbam b) (Z.shiftr sec_no 8);;
  out (reg_lbah b) (Z.shiftr sec_no 16);;
  out (reg_device b) (Z.lor (Z.lor (Z.lor DEV_MBS DEV_LBA) (if dev_no =? 1 then DEV_DEV else 0)) (Z.shiftr sec_no 24)).

Definition issue_pio_command (command : Z) : I unit :=
  s ← get;
  ASSERT (intr_on s.1);;
  put (Channel (intr_on s.1) (reg_base s.1) true (completion_wait s.1) (messages s.1), s.2);;
  out (reg_command (reg_base s.1)) command.

Definition input_sector : I (list Z) := fun s =>
  let r := insw (reg_data (reg_base s.1)) s.2 in Ok (r.1, (s.1, r.2)).

Definition output_sector (sector : list Z) : I unit := fun s => Ok (tt, (s.1, outsw (reg_data (reg_base s.1)) sector s.2)).

Definition ide_read (dev_no sec_no : Z) : I (list Z) :=
  select_sector dev_no sec_no;;
  issue_pio_command CMD_READ_SECTOR_RETRY;;
  sema_down;;
  ok ← wait_while_busy;
  if negb ok then fail EPanic else
  input_sector.

Definition ide_write (dev_no sec_no : Z) (buffer : list Z) : I unit :=
  select_sector dev_no sec_no;;
  issue_pio_command CMD_WRITE_SECTOR_RETRY;;
  ok ← wait_while_busy;
  if negb ok then fail EPanic else
  output_sector buffer;;
  sema_down.

End Driver.

(** ** What the hardware promises *)

(** Where a device is in a command: the device number and the sector; [n] more
    naps until the device has finished with it. *)
Inductive phase :=
  | Idle
  | Reading (n : nat) (dev sec : Z)
  | Writing (n : nat) (dev sec : Z)
  | Flushing (dev : Z)
  | Failed (n : nat).

(** The contents of the two disks, the registers and the phase. *)
Record ata := AtaState { a_disk : Z -> list (list Z); a_reg : Z -> Z; a_phase : phase }.

Definition set_reg (p v : Z) (a : ata) : ata := AtaState (a_disk a) (fun q => if q =? p then v else a_reg a q) (a_phase a).
Definition set_phase (x : phase) (a : ata) : ata := AtaState (a_disk a) (a_reg a) x.
Definition set_disk (dev : Z) (c : list (list Z)) (a : ata) : ata := AtaState (fun d => if d =? dev then c else a_disk a d) (a_reg a) (a_phase a).

(** The device and the sector that the registers select in LBA mode. *)
Definition reg_dev (b : Z) (a : ata) : Z := a_reg a (reg_device b) / 16 mod 2.
Definition reg_lba (b : Z) (a : ata) : Z :=
  a_reg a (reg_lbal b) + 256 * a_reg a (reg_lbam b) + 65536 * a_reg a (reg_lbah b) + 16777216 * (a_reg a (reg_device b) mod 16).
Definition lba_mode (b : Z) (a : ata) : Prop := a_reg a (reg_device b) / 64 mod 2 = 1 /\ a_reg a (reg_nsect b) = 1.

(** The status: busy while there are naps left, then a request for data unless the command failed. *)
Definition busy (x : phase) : bool := match x with Idle => false | Reading n _ _ | Writing n _ _ | Failed n => negb (n =? 0)%nat | Flushing _ => true end.
Definition wants_data (x : phase) : bool := match x with Reading O _ _ | Writing O _ _ => true | _ => false end.

Definition status_ok (x : phase) (v : Z) : Prop :=
  (Z.land v STA_BSY =? 0) = negb (busy x) /\ (busy x = false -> (Z.land v STA_DRQ =? 0) = negb (wants_data x)).

Definition rest (x : phase) : phase :=
  match x with Reading n d s => Reading (pred n) d s | Writing n d s => Writing (pred n) d s | Failed n => Failed (pred n) | x => x end.

(** VIEW is the documented state behind HW, for the channel at B. *)
Class AtaLaws (hw : Type) `{!Ata hw} (b : Z) (view : hw -> ata) : Prop := {
  law_select h p v : a_phase (view h) = Idle -> p ∈ [reg_nsect b; reg_lbal b; reg_lbam b; reg_lbah b; reg_device b] -> 0 <= v < 256 ->
    view (outb p v h) = set_reg p v (view h);
  law_status h p : p ∈ [reg_status b; reg_alt_status b] -> status_ok (a_phase (view h)) (inb p h).1 /\ view (inb p h).2 = view h;
  law_sleep h : (forall d, a_phase (view h) <> Flushing d) -> view (sleep h) = set_phase (rest (a_phase (view h))) (view h);
  law_command h cmd : a_phase (view h) = Idle -> lba_mode b (view h) -> cmd ∈ [CMD_READ_SECTOR_RETRY; CMD_WRITE_SECTOR_RETRY] ->
    exists n, (n < 3000)%nat /\ view (outb (reg_command b) cmd h) =
      set_phase (if reg_lba b (view h) <? Z.of_nat (length (a_disk (view h) (reg_dev b (view h)))) then
                   if cmd =? CMD_READ_SECTOR_RETRY then Reading n (reg_dev b (view h)) (reg_lba b (view h)) else Writing n (reg_dev b (view h)) (reg_lba b (view h))
                 else Failed n) (view h);
  law_interrupt h : match a_phase (view h) with
    | Reading _ d s => exists h', interrupt h = Some h' /\ view h' = set_phase (Reading 0 d s) (view h)
    | Failed _ => exists h', interrupt h = Some h' /\ view h' = set_phase (Failed 0) (view h)
    | Flushing _ => exists h', interrupt h = Some h' /\ view h' = set_phase Idle (view h)
    | _ => True
    end;
  law_insw h d s c : a_phase (view h) = Reading 0 d s -> a_disk (view h) d !! Z.to_nat s = Some c ->
    (insw (reg_data b) h).1 = c /\ view (insw (reg_data b) h).2 = set_phase Idle (view h);
  law_outsw h d s c : a_phase (view h) = Writing 0 d s -> length c = 512%nat ->
    view (outsw (reg_data b) c h) = set_phase (Flushing d) (set_disk d (<[Z.to_nat s := c]> (a_disk (view h) d)) (view h))
}.

Section Laws.
Context {hw : Type} `{!Ata hw} (b : Z) (view : hw -> ata) `{!AtaLaws hw b view}.

(** The same channel up to what it printed. *)
Definition same_channel (c c' : channel) : Prop :=
  intr_on c' = intr_on c /\ reg_base c' = reg_base c /\ expecting_interrupt c' = expecting_interrupt c /\ completion_wait c' = completion_wait c.

Lemma in_status p c h : p ∈ [reg_status b; reg_alt_status b] -> exists v h', in_ p (c, h) = Ok (v, (c, h')) /\ status_ok (a_phase (view h)) v /\ view h' = view h.
Proof using Type*. intros Hp. destruct (law_status h p Hp) as [H1 H2]. eexists _, _. split; [reflexivity|]. done. Qed.

Lemma status_in : reg_status b ∈ [reg_status b; reg_alt_status b] /\ reg_alt_status b ∈ [reg_status b; reg_alt_status b].
Proof using Type. split; rewrite !elem_of_cons; [by left|by right; left]. Qed.

Lemma idle_status v : status_ok Idle v -> (Z.land v (Z.lor STA_BSY STA_DRQ) =? 0) = true.
Proof using Type.
  intros [H1 H2]. specialize (H2 eq_refl). cbn [busy wants_data negb] in *. rewrite Z.land_lor_distr_r. apply Z.eqb_eq in H1. apply Z.eqb_eq in H2. by rewrite H1, H2.
Qed.

Lemma idle_loop_ok N c h : reg_base c = b -> a_phase (view h) = Idle -> exists h', idle_loop (S N) (c, h) = Ok (tt, (c, h')) /\ view h' = view h.
Proof using Type*.
  intros Hb Hi. cbn [idle_loop]. rewrite (bind_ok _ _ _ b (c, h)) by (unfold base, gets; cbn [fst]; by rewrite Hb). cbv beta.
  destruct (in_status (reg_status b) c h (proj1 status_in)) as (v & h' & E & Hs & Hv). mstep E. rewrite Hi in Hs. rewrite (idle_status v Hs). by exists h'.
Qed.

Lemma wait_until_idle_ok c h : reg_base c = b -> a_phase (view h) = Idle -> exists h', wait_until_idle (c, h) = Ok (tt, (c, h')) /\ view h' = view h.
Proof using Type*. exact (idle_loop_ok 999 c h). Qed.

(** A phase that ends with time. *)
Record ends (X : nat -> phase) (w : bool) : Prop := {
  en_rest n : rest (X n) = X (pred n);
  en_busy n : busy (X n) = negb (n =? 0)%nat;
  en_data : wants_data (X O) = w;
  en_flush n d : X n <> Flushing d
}.

Lemma say_ok m (c : channel) (h : hw) : exists c', say m (c, h) = Ok (tt, (c', h)) /\ same_channel c c'.
Proof using Type. eexists. split; [reflexivity|]. by split_and!. Qed.

Lemma maybe_say (q : bool) m (c : channel) (h : hw) : exists c', (if q then say m else mret tt) (c, h) = Ok (tt, (c', h)) /\ same_channel c c'.
Proof using Type. destruct q; [apply say_ok|]. exists c. split; [done|]. by split_and!. Qed.

Lemma busy_loop_ok X w N : ends X w -> forall n c h, reg_base c = b -> a_phase (view h) = X n -> (n < N)%nat ->
  exists c' h', busy_loop N (c, h) = Ok (w, (c', h')) /\ same_channel c c' /\ view h' = set_phase (X O) (view h).
Proof using Type*.
  intros HX. induction N as [|N IH]; intros n c h Hb Hp Hn; [lia|]. cbn [busy_loop].
  destruct (maybe_say (N =? 2299)%nat "busy, waiting..." c h) as (c1 & E1 & (S0 & S1 & S2 & S3)). mstep E1.
  rewrite (bind_ok _ _ _ b (c1, h)) by (unfold base, gets; cbn [fst]; by rewrite S1, Hb). cbv beta.
  destruct (in_status (reg_alt_status b) c1 h (proj2 status_in)) as (v & h1 & E2 & [Hs1 Hs2] & Hv). mstep E2. rewrite Hp in Hs1, Hs2. rewrite (en_busy X w HX), negb_involutive in Hs1. rewrite Hs1.
  destruct (Nat.eqb_spec n 0) as [->|Hne].
  - destruct (maybe_say (N <=? 2299)%nat "ok" c1 h1) as (c2 & E3 & (T0 & T1 & T2 & T3)). mstep E3.
    destruct (in_status (reg_alt_status b) c2 h1 (proj2 status_in)) as (v2 & h2 & E4 & [_ Hd] & Hv2). mstep E4. rewrite Hv, Hp in Hd. rewrite (en_busy X w HX) in Hd. specialize (Hd eq_refl).
    exists c2, h2. rewrite Hd, (en_data X w HX), negb_involutive. split; [done|]. split; [unfold same_channel; by rewrite T0, T1, T2, T3|].
    rewrite Hv2, Hv. destruct (view h). cbn [a_phase] in Hp. by subst.
  - rewrite (bind_ok _ _ _ tt (c1, sleep h1)) by reflexivity. cbv beta.
    assert (Hsl : view (sleep h1) = set_phase (X (pred n)) (view h)).
    { rewrite law_sleep; [by rewrite Hv, Hp, (en_rest X w HX)|]. intros d. rewrite Hv, Hp. apply (en_flush X w HX). }
    destruct (IH (pred n) c1 (sleep h1)) as (c' & h' & E & (U0 & U1 & U2 & U3) & Hv'); [congruence|by rewrite Hsl|lia|]. exists c', h'. split; [exact E|].
    split; [unfold same_channel; split_and!; congruence|]. rewrite Hv', Hsl. reflexivity.
Qed.

Lemma reading_ends d s : ends (fun n => Reading n d s) true.
Proof using Type. by split. Qed.
Lemma writing_ends d s : ends (fun n => Writing n d s) true.
Proof using Type. by split. Qed.
Lemma failed_ends : ends Failed false.
Proof using Type. by split. Qed.

(** ** Selecting a sector *)

Definition ready (c : channel) (h : hw) : Prop := intr_on c = true /\ reg_base c = b /\ completion_wait c = 0 /\ a_phase (view h) = Idle.

Lemma out_reg p v c h : a_phase (view h) = Idle -> p ∈ [reg_nsect b; reg_lbal b; reg_lbam b; reg_lbah b; reg_device b] ->
  exists h', out p v (c, h) = Ok (tt, (c, h')) /\ view h' = set_reg p (u8 v) (view h).
Proof using Type*.
  intros Hi Hp. eexists. split; [reflexivity|]. apply law_select; [done|done|]. apply Z.mod_pos_bound. lia.
Qed.

Lemma select_device_ok dev c h : reg_base c = b -> a_phase (view h) = Idle -> exists h' v, select_device dev (c, h) = Ok (tt, (c, h')) /\ view h' = set_reg (reg_device b) v (view h).
Proof using Type*.
  intros Hb Hi. unfold select_device. rewrite (bind_ok _ _ _ b (c, h)) by (unfold base, gets; cbn [fst]; by rewrite Hb). cbv beta zeta.
  destruct (out_reg (reg_device b) (if dev =? 1 then Z.lor DEV_MBS DEV_DEV else DEV_MBS) c h Hi) as (h1 & E1 & V1); [rewrite !elem_of_cons; tauto|]. mstep E1.
  destruct (in_status (reg_alt_status b) c h1 (proj2 status_in)) as (v & h2 & E2 & _ & V2). mstep E2. exists (sleep h2). eexists. split; [reflexivity|].
  assert (Hi2 : a_phase (view h2) = Idle) by (rewrite V2, V1; exact Hi). rewrite law_sleep by (intros d; rewrite Hi2; discriminate). rewrite Hi2. cbn [rest].
  assert (E : set_phase Idle (view h2) = view h2) by (destruct (view h2); cbn [a_phase] in Hi2; by subst). rewrite E, V2. exact V1.
Qed.

Lemma select_device_wait_ok dev c h : reg_base c = b -> a_phase (view h) = Idle -> exists h' v, select_device_wait dev (c, h) = Ok (tt, (c, h')) /\ view h' = set_reg (reg_device b) v (view h).
Proof using Type*.
  intros Hb Hi. unfold select_device_wait. destruct (wait_until_idle_ok c h Hb Hi) as (h1 & E1 & V1). mstep E1.
  destruct (select_device_ok dev c h1 Hb) as (h2 & v & E2 & V2); [by rewrite V1|]. mstep E2.
  destruct (wait_until_idle_ok c h2 Hb) as (h3 & E3 & V3); [by rewrite V2, V1|]. exists h3, v. split; [exact E3|]. by rewrite V3, V2, V1.
Qed.

(** The registers hold the parts of the sector number. *)
Lemma lba_parts sec : 0 <= sec < 2 ^ 28 ->
  u8 sec + 256 * u8 (Z.shiftr sec 8) + 65536 * u8 (Z.shiftr sec 16) + 16777216 * Z.shiftr sec 24 = sec /\ 0 <= Z.shiftr sec 24 < 16.
Proof using Type.
  intros Hs. rewrite !Z.shiftr_div_pow2 by lia. unfold u8. change (2 ^ 8) with 256. change (2 ^ 16) with (256 * 256). change (2 ^ 24) with (256 * 256 * 256).
  rewrite <- !Z.div_div by lia. pose proof (Z.div_mod sec 256 ltac:(lia)). pose proof (Z.div_mod (sec / 256) 256 ltac:(lia)). pose proof (Z.div_mod (sec / 256 / 256) 256 ltac:(lia)).
  split; [lia|]. split; [repeat apply Z.div_pos; lia|]. rewrite !Z.div_div by lia. apply Z.div_lt_upper_bound; [lia|]. change (2 ^ 28) with 268435456 in Hs. lia.
Qed.

Lemma device_byte dev hi : 0 <= dev < 2 -> 0 <= hi < 16 ->
  let v := u8 (Z.lor (Z.lor (Z.lor DEV_MBS DEV_LBA) (if dev =? 1 then DEV_DEV else 0)) hi) in v / 16 mod 2 = dev /\ v mod 16 = hi /\ v / 64 mod 2 = 1.
Proof using Type.
  intros Hd Hh. assert (H : forallb (fun d => forallb (fun k => let v := u8 (Z.lor (Z.lor (Z.lor DEV_MBS DEV_LBA) (if d =? 1 then DEV_DEV else 0)) k) in
    (v / 16 mod 2 =? d) && (v mod 16 =? k) && (v / 64 mod 2 =? 1)) (map Z.of_nat (seq 0 16))) [0; 1] = true) by (vm_compute; reflexivity).
  assert (Hin : In dev [0; 1]) by (cbn; lia). pose proof (proj1 (forallb_forall _ _) H dev Hin) as H1. cbv beta in H1.
  pose proof (proj1 (forallb_forall _ _) H1 hi ltac:(apply in_map_iff; exists (Z.to_nat hi); split; [lia|apply in_seq; lia])) as H2. cbv beta zeta in *. lia.
Qed.

Lemma select_sector_ok dev sec c h : 0 <= dev < 2 -> 0 <= sec < 2 ^ 28 -> reg_base c = b -> a_phase (view h) = Idle ->
  exists h', select_sector dev sec (c, h) = Ok (tt, (c, h')) /\ a_phase (view h') = Idle /\ a_disk (view h') = a_disk (view h) /\
    lba_mode b (view h') /\ reg_dev b (view h') = dev /\ reg_lba b (view h') = sec.
Proof using Type*.
  intros Hd Hs Hb Hi. unfold select_sector. rewrite (bind_ok _ _ _ tt (c, h)) by (apply ASSERT_true, Z.ltb_lt; apply Hs). cbv beta.
  destruct (select_device_wait_ok dev c h Hb Hi) as (h1 & v1 & E1 & V1). mstep E1. rewrite (bind_ok _ _ _ b (c, h1)) by (unfold base, gets; cbn [fst]; by rewrite Hb). cbv beta.
  destruct (out_reg (reg_nsect b) 1 c h1) as (h2 & E2 & V2); [by rewrite V1|rewrite !elem_of_cons; tauto|]. mstep E2.
  destruct (out_reg (reg_lbal b) sec c h2) as (h3 & E3 & V3); [by rewrite V2, V1|rewrite !elem_of_cons; tauto|]. mstep E3.
  destruct (out_reg (reg_lbam b) (Z.shiftr sec 8) c h3) as (h4 & E4 & V4); [by rewrite V3, V2, V1|rewrite !elem_of_cons; tauto|]. mstep E4.
  destruct (out_reg (reg_lbah b) (Z.shiftr sec 16) c h4) as (h5 & E5 & V5); [by rewrite V4, V3, V2, V1|rewrite !elem_of_cons; tauto|]. mstep E5.
  destruct (out_reg (reg_device b) (Z.lor (Z.lor (Z.lor DEV_MBS DEV_LBA) (if dev =? 1 then DEV_DEV else 0)) (Z.shiftr sec 24)) c h5) as (h6 & E6 & V6); [by rewrite V5, V4, V3, V2, V1|rewrite !elem_of_cons; tauto|].
  exists h6. split; [exact E6|]. rewrite V6, V5, V4, V3, V2, V1. split; [exact Hi|]. split; [reflexivity|].
  destruct (lba_parts sec Hs) as [Hp Hh]. destruct (device_byte dev (Z.shiftr sec 24) Hd Hh) as (D1 & D2 & D3).
  assert (Hne : forall i j, i <> j -> (b + i =? b + j) = false) by (intros i j Hij; apply Z.eqb_neq; lia).
  unfold lba_mode, reg_dev, reg_lba, set_reg. cbn [a_reg]. unfold reg_device, reg_nsect, reg_lbal, reg_lbam, reg_lbah. rewrite !Z.eqb_refl, !Hne by lia.
  rewrite D1, D2, D3. split; [done|]. split; [done|]. exact Hp.
Qed.

(** ** Transfers *)

Lemma issue_ok cmd c h : intr_on c = true -> reg_base c = b -> a_phase (view h) = Idle -> lba_mode b (view h) -> cmd ∈ [CMD_READ_SECTOR_RETRY; CMD_WRITE_SECTOR_RETRY] ->
  exists n h', (n < 3000)%nat /\ issue_pio_command cmd (c, h) = Ok (tt, (Channel true b true (completion_wait c) (messages c), h')) /\
    view h' = set_phase (if reg_lba b (view h) <? Z.of_nat (length (a_disk (view h) (reg_dev b (view h)))) then
                           if cmd =? CMD_READ_SECTOR_RETRY then Reading n (reg_dev b (view h)) (reg_lba b (view h)) else Writing n (reg_dev b (view h)) (reg_lba b (view h))
                         else Failed n) (view h).
Proof using Type*.
  intros Ho Hb Hi Hl Hc. destruct (law_command h cmd Hi Hl Hc) as (n & Hn & V). exists n. eexists. split; [done|]. split; [|exact V].
  unfold issue_pio_command. rewrite (bind_ok _ _ _ (c, h) (c, h)) by reflexivity. cbv beta. cbn [fst snd]. rewrite Ho, Hb. rewrite (bind_ok _ _ _ tt (c, h)) by reflexivity. cbv beta.
  rewrite (bind_ok _ _ _ tt (Channel true b true (completion_wait c) (messages c), h)) by reflexivity. cbv beta.
  unfold out. cbn [fst snd]. assert (u8 cmd = cmd) as -> by (rewrite !elem_of_cons in Hc; destruct Hc as [->|[->|Hc]]; [done|done|by apply not_elem_of_nil in Hc]). done.
Qed.

(** The semaphore is zero: the interrupt raises it and the thread takes it. *)
Lemma sema_down_ok c h h' : intr_on c = true -> reg_base c = b -> expecting_interrupt c = true -> completion_wait c = 0 -> interrupt h = Some h' ->
  exists h2, sema_down (c, h) = Ok (tt, (Channel true b true 0 (messages c), h2)) /\ view h2 = view h'.
Proof using Type*.
  intros Ho Hb He Hz Hint. unfold sema_down. rewrite (bind_ok _ _ _ (c, h) (c, h)) by reflexivity. cbv beta. cbn [fst snd]. rewrite Hz, Hint. cbn [Z.ltb Z.compare].
  destruct (in_status (reg_status b) c h' (proj1 status_in)) as (v & h2 & E & _ & V). exists h2. split; [|exact V].
  rewrite (bind_ok _ _ _ tt (Channel true b true 1 (messages c), h2)).
  - rewrite (bind_ok _ _ _ (Channel true b true 1 (messages c), h2) (Channel true b true 1 (messages c), h2)) by reflexivity. reflexivity.
  - rewrite (bind_ok _ _ _ tt (c, h')) by reflexivity. cbv beta. unfold interrupt_handler. rewrite (bind_ok _ _ _ (c, h') (c, h')) by reflexivity. cbv beta. cbn [fst].
    rewrite He, Hb. mstep E. rewrite (bind_ok _ _ _ (c, h2) (c, h2)) by reflexivity. cbv beta. cbn [fst]. rewrite Hz. unfold set_completion. cbn [fst snd]. by rewrite Ho, Hb, He.
Qed.

Lemma ide_read_ok dev sec c h : 0 <= dev < 2 -> 0 <= sec -> ready c h ->
  if sec <? 2 ^ 28 then
    match a_disk (view h) dev !! Z.to_nat sec with
    | Some data => exists c' h', ide_read dev sec (c, h) = Ok (data, (c', h')) /\ ready c' h' /\ a_disk (view h') = a_disk (view h)
    | None => ide_read dev sec (c, h) = Err EPanic
    end
  else ide_read dev sec (c, h) = Err EAssert.
Proof using Type*.
  intros Hd Hs (Ho & Hb & Hz & Hi). unfold ide_read. destruct (Z.ltb_spec sec (2 ^ 28)) as [Hlt|Hge].
  2:{ apply bind_err. unfold select_sector. apply bind_err, ASSERT_false, Z.ltb_ge. lia. }
  destruct (select_sector_ok dev sec c h Hd (conj Hs Hlt) Hb Hi) as (h1 & E1 & I1 & K1 & L1 & R1 & S1). mstep E1.
  destruct (issue_ok CMD_READ_SECTOR_RETRY c h1 Ho Hb I1 L1) as (n & h2 & Hn & E2 & V2); [rewrite !elem_of_cons; tauto|]. mstep E2. rewrite R1, S1, K1 in V2. cbn [Z.eqb] in V2.
  set (c1 := Channel true b true (completion_wait c) (messages c)). destruct (a_disk (view h) dev !! Z.to_nat sec) as [data|] eqn:Hdata.
  - apply lookup_lt_Some in Hdata as Hlen. rewrite (proj2 (Z.ltb_lt _ _)) in V2 by lia. rewrite Z.eqb_refl in V2.
    pose proof (law_interrupt h2) as Hint. rewrite V2 in Hint. cbn [a_phase set_phase] in Hint. destruct Hint as (h3 & Hint & V3).
    destruct (sema_down_ok c1 h2 h3 eq_refl eq_refl eq_refl Hz Hint) as (h4 & E4 & V4). mstep E4.
    destruct (busy_loop_ok (fun n => Reading n dev sec) true 3000 (reading_ends dev sec) 0 (Channel true b true 0 (messages c1)) h4 eq_refl) as (c5 & h5 & E5 & (T0 & T1 & T2 & T3) & V5); [by rewrite V4, V3|lia|].
    unfold wait_while_busy. mstep E5. cbn [negb]. assert (P5 : a_phase (view h5) = Reading 0 dev sec) by (by rewrite V5).
    assert (D5 : a_disk (view h5) = a_disk (view h)) by (rewrite V5, V4, V3; cbn [a_disk set_phase]; by rewrite K1).
    destruct (law_insw h5 dev sec data P5) as [F1 F2]; [by rewrite D5|]. exists c5, (insw (reg_data b) h5).2. unfold input_sector. cbn [fst snd]. rewrite T1. cbn [reg_base].
    split; [by rewrite F1|]. unfold ready. rewrite F2, T0, T1, T3. split; [done|]. exact D5.
  - apply lookup_ge_None in Hdata. rewrite (proj2 (Z.ltb_ge _ _)) in V2 by lia. pose proof (law_interrupt h2) as Hint. rewrite V2 in Hint. cbn [a_phase set_phase] in Hint. destruct Hint as (h3 & Hint & V3).
    destruct (sema_down_ok c1 h2 h3 eq_refl eq_refl eq_refl Hz Hint) as (h4 & E4 & V4). mstep E4.
    destruct (busy_loop_ok Failed false 3000 failed_ends 0 (Channel true b true 0 (messages c1)) h4 eq_refl) as (c5 & h5 & E5 & _ & _); [by rewrite V4, V3|lia|]. unfold wait_while_busy. by mstep E5.
Qed.

Lemma ide_write_ok dev sec data c h : 0 <= dev < 2 -> 0 <= sec -> length data = 512%nat -> ready c h ->
  if sec <? 2 ^ 28 then
    if sec <? Z.of_nat (length (a_disk (view h) dev)) then
      exists c' h', ide_write dev sec data (c, h) = Ok (tt, (c', h')) /\ ready c' h' /\
        forall d, a_disk (view h') d = if d =? dev then <[Z.to_nat sec := data]> (a_disk (view h) dev) else a_disk (view h) d
    else ide_write dev sec data (c, h) = Err EPanic
  else ide_write dev sec data (c, h) = Err EAssert.
Proof using Type*.
  intros Hd Hs Hlen (Ho & Hb & Hz & Hi). unfold ide_write. destruct (Z.ltb_spec sec (2 ^ 28)) as [Hlt|Hge].
  2:{ apply bind_err. unfold select_sector. apply bind_err, ASSERT_false, Z.ltb_ge. lia. }
  destruct (select_sector_ok dev sec c h Hd (conj Hs Hlt) Hb Hi) as (h1 & E1 & I1 & K1 & L1 & R1 & S1). mstep E1.
  destruct (issue_ok CMD_WRITE_SECTOR_RETRY c h1 Ho Hb I1 L1) as (n & h2 & Hn & E2 & V2); [rewrite !elem_of_cons; tauto|]. mstep E2. rewrite R1, S1, K1 in V2.
  set (c1 := Channel true b true (completion_wait c) (messages c)). destruct (Z.ltb_spec sec (Z.of_nat (length (a_disk (view h) dev)))) as [Hin|Hout].
  - destruct (busy_loop_ok (fun n => Writing n dev sec) true 3000 (writing_ends dev sec) n c1 h2 eq_refl) as (c3 & h3 & E3 & (T0 & T1 & T2 & T3) & V3); [by rewrite V2|done|].
    unfold wait_while_busy. mstep E3. cbn [negb]. assert (P3 : a_phase (view h3) = Writing 0 dev sec) by (by rewrite V3).
    pose proof (law_outsw h3 dev sec data P3 Hlen) as V4. set (h4 := outsw (reg_data b) data h3) in *.
    rewrite (bind_ok _ _ _ tt (c3, h4)) by (unfold output_sector; cbn [fst snd]; by rewrite T1). cbv beta.
    pose proof (law_interrupt h4) as Hint. rewrite V4 in Hint. cbn [a_phase set_phase] in Hint. destruct Hint as (h5 & Hint & V5).
    assert (Hz3 : completion_wait c3 = 0) by (rewrite T3; exact Hz).
    destruct (sema_down_ok c3 h4 h5 T0 T1 T2 Hz3 Hint) as (h6 & E6 & V6). rewrite E6. eexists _, h6. split; [reflexivity|]. unfold ready. rewrite V6, V5. split; [done|].
    intros d. cbn [a_disk set_phase set_disk]. rewrite V3, V2. cbn [a_disk set_phase]. by rewrite K1.
  - destruct (busy_loop_ok Failed false 3000 failed_ends n c1 h2 eq_refl) as (c3 & h3 & E3 & _ & _); [by rewrite V2|done|]. unfold wait_while_busy. by mstep E3.
Qed.

End Laws.

(** ** A session *)

(** A call of the driver, and what it answers. *)
Inductive request := Read (dev sec : Z) | Write (dev sec : Z) (data : list Z).

Definition request_ok (r : request) : Prop :=
  match r with Read dev sec => 0 <= dev < 2 /\ 0 <= sec | Write dev sec data => 0 <= dev < 2 /\ 0 <= sec /\ length data = 512%nat end.

(** The driver. *)
Definition serve {hw} `{!Ata hw} (r : request) : M (channel * hw) (list Z) :=
  match r with Read dev sec => ide_read dev sec | Write dev sec data => ide_write dev sec data;; mret [] end.

Fixpoint serve_all {hw} `{!Ata hw} (rs : list request) : M (channel * hw) (list (list Z)) :=
  match rs with [] => mret [] | r :: rs => a ← serve r; l ← serve_all rs; mret (a :: l) end.

(** Two ideal disks. *)
Definition spec (r : request) : M (Z -> list (list Z)) (list Z) := fun disks =>
  match r with
  | Read dev sec =>
      if 2 ^ 28 <=? sec then Err EAssert else
      match disks dev !! Z.to_nat sec with Some d => Ok (d, disks) | None => Err EPanic end
  | Write dev sec data =>
      if 2 ^ 28 <=? sec then Err EAssert else
      if sec <? Z.of_nat (length (disks dev)) then Ok ([], fun d => if d =? dev then <[Z.to_nat sec := data]> (disks dev) else disks d) else Err EPanic
  end.

Fixpoint spec_all (rs : list request) : M (Z -> list (list Z)) (list (list Z)) :=
  match rs with [] => mret [] | r :: rs => a ← spec r; l ← spec_all rs; mret (a :: l) end.

(** One call of the driver against the ideal disks. *)
Lemma serve_ok {hw} `{!Ata hw} b view `{!AtaLaws hw b view} r c h disks : request_ok r -> ready b view c h -> (forall d, a_disk (view h) d = disks d) ->
  match spec r disks with
  | Ok (a, disks') => exists c' h', serve r (c, h) = Ok (a, (c', h')) /\ ready b view c' h' /\ forall d, a_disk (view h') d = disks' d
  | Err e => serve r (c, h) = Err e
  end.
Proof.
  intros Hr Hc Hd. destruct r as [dev sec|dev sec data]; cbn [request_ok spec serve] in *.
  - destruct Hr as [Hdev Hs]. pose proof (ide_read_ok b view dev sec c h Hdev Hs Hc) as H. rewrite Z.leb_antisym. destruct (sec <? 2 ^ 28); cbn [negb]; [|exact H].
    rewrite <- Hd. destruct (a_disk (view h) dev !! Z.to_nat sec) as [data|]; [|exact H]. destruct H as (c' & h' & E & Hr' & Hd'). exists c', h'. split; [done|]. split; [done|].
    intros d. by rewrite Hd'.
  - destruct Hr as (Hdev & Hs & Hl). pose proof (ide_write_ok b view dev sec data c h Hdev Hs Hl Hc) as H. rewrite Z.leb_antisym. destruct (sec <? 2 ^ 28); cbn [negb]; [|by apply bind_err].
    rewrite <- Hd. destruct (sec <? Z.of_nat (length (a_disk (view h) dev))); [|by apply bind_err]. destruct H as (c' & h' & E & Hr' & Hd'). exists c', h'.
    split; [by mstep E|]. split; [done|]. intros d. rewrite Hd'. by destruct (d =? dev).
Qed.

(** C10: on any hardware that keeps the ATA protocol, the driver implements two arrays of sectors: every
    sequence of reads and writes of either disk of a channel gives the data that the arrays give, one that leaves a
    disk stops the kernel at the same call, and behind each call the interrupts are on, the channel is idle and its semaphore zero. *)
Theorem ide_refines_disks {hw} `{!Ata hw} b view `{!AtaLaws hw b view} rs c h disks :
  Forall request_ok rs -> ready b view c h -> (forall d, a_disk (view h) d = disks d) ->
  match spec_all rs disks with
  | Ok (answers, disks') => exists c' h', serve_all rs (c, h) = Ok (answers, (c', h')) /\ ready b view c' h' /\ forall d, a_disk (view h') d = disks' d
  | Err e => serve_all rs (c, h) = Err e
  end.
Proof.
  revert c h disks. induction rs as [|r rs IH]; intros c h disks Hrs Hc Hd; cbn [spec_all serve_all]; [by exists c, h|].
  apply Forall_cons in Hrs as [Hr Hrs]. pose proof (serve_ok b view r c h disks Hr Hc Hd) as H1. unfold mbind at 1, M_bind.
  destruct (spec r disks) as [[a disks1]|e]; [|by apply bind_err]. destruct H1 as (c1 & h1 & E1 & Hc1 & Hd1). mstep E1.
  specialize (IH c1 h1 disks1 Hrs Hc1 Hd1). unfold mbind at 1, M_bind. destruct (spec_all rs disks1) as [[l disks2]|e]; [|by apply bind_err].
  destruct IH as (c2 & h2 & E2 & Hc2 & Hd2). exists c2, h2. split; [by mstep E2|done].
Qed.

(** ** A device that keeps the protocol *)

(** The channel at port 0x1f0 whose hardware is the documented state itself; a command takes one nap. *)
Definition port : Z := 496.

Definition model_status (x : phase) : Z := if busy x then STA_BSY else if wants_data x then STA_DRQ else 0.

Definition model_command (cmd : Z) (a : ata) : ata :=
  set_phase (if reg_lba port a <? Z.of_nat (length (a_disk a (reg_dev port a))) then
               if cmd =? CMD_READ_SECTOR_RETRY then Reading 1 (reg_dev port a) (reg_lba port a) else Writing 1 (reg_dev port a) (reg_lba port a)
             else Failed 1) a.

#[global] Instance model_ata : Ata ata := {
  outb p v a := if p =? reg_command port then model_command v a else set_reg p v a;
  inb _ a := (model_status (a_phase a), a);
  insw _ a := match a_phase a with Reading O d s => (default [] (a_disk a d !! Z.to_nat s), set_phase Idle a) | _ => ([], a) end;
  outsw _ c a := match a_phase a with Writing O d s => set_phase (Flushing d) (set_disk d (<[Z.to_nat s := c]> (a_disk a d)) a) | _ => a end;
  sleep a := set_phase (rest (a_phase a)) a;
  interrupt a := match a_phase a with
    | Reading _ d s => Some (set_phase (Reading 0 d s) a)
    | Failed _ => Some (set_phase (Failed 0) a)
    | Flushing _ => Some (set_phase Idle a)
    | _ => None
    end
}.

#[global] Instance model_laws : AtaLaws ata port (fun a => a).
Proof.
  split; cbn [outb inb insw outsw sleep interrupt model_ata fst snd].
  - intros h p v _ Hp _. rewrite !elem_of_cons in Hp. destruct (Z.eqb_spec p (reg_command port)) as [->|]; [|done].
    exfalso. destruct Hp as [Hp|[Hp|[Hp|[Hp|[Hp|Hp]]]]]; [discriminate Hp..|]. by apply not_elem_of_nil in Hp.
  - intros h p _. split; [|done]. by destruct (a_phase h) as [|[] ? ?|[] ? ?|?|[]].
  - done.
  - intros h cmd _ _ _. exists 1%nat. split; [lia|done].
  - intros h. destruct (a_phase h); try done; by eexists.
  - intros h d s c -> ->. done.
  - intros h d s c -> _. done.
Qed.

(** A sector of the first disk is written and read back, and the second disk keeps its own. *)
Lemma ide_refines_disks_witness :
  let disk := repeat (repeat 0 512) 4 in
  let h := AtaState (fun _ => disk) (fun _ => 0) Idle in
  exists c h', serve_all [Write 0 3 (repeat 7 512); Read 0 3; Read 1 3] (Channel true port false 0 [], h) = Ok ([[]; repeat 7 512; repeat 0 512], (c, h')) /\
    ready port (fun a => a) c h'.
Proof.
  intros disk h. set (rs := [Write 0 3 (repeat 7 512); Read 0 3; Read 1 3]).
  assert (Hspec : match spec_all rs (fun _ => disk) with Ok (a, _) => a = [[]; repeat 7 512; repeat 0 512] | Err _ => False end) by (vm_compute; reflexivity).
  assert (Hrs : Forall request_ok rs) by (repeat apply Forall_cons_2; [..|apply Forall_nil_2]; cbn [request_ok]; repeat split; lia).
  pose proof (ide_refines_disks port (fun a => a) rs (Channel true port false 0 []) h (fun _ => disk) Hrs (conj eq_refl (conj eq_refl (conj eq_refl eq_refl))) (fun _ => eq_refl)) as H.
  destruct (spec_all rs (fun _ => disk)) as [[a d]|e]; [|destruct Hspec]. subst a. destruct H as (c & h' & H1 & H2 & _). exists c, h'. split; [exact H1|exact H2].
Defined.
