(* ===== verification/UserCall.v ===== *)
(** * The system call library of user programs: [lib/user/syscall.c]

    A stub pushes its arguments and the number of the call on the stack of
    the user, enters the kernel through interrupt 0x30 and drops what it
    pushed; the value is in the register EAX.  The state is the stack pointer with the
    [task] of [Syscall], whose [syscall_handler] is what the interrupt runs.  A
    push is a store of the user: outside the mapped pages of the user's half of memory it is a page
    fault.  EAX0 is what the register holds when the kernel leaves it alone. *)

From S2P Require Import Prelude ListModel Bytes CString CStringRep Page PageThms PageDir Loader Syscall SyscallProps.

Record cpu := Cpu { u_esp : Z; u_task : task }.

(** How a stub ends: with a value, or in the kernel, which ends the process or the
    system or goes on elsewhere. *)
Inductive ending := Value (retval : Z) | Left (o : outcome).

Section Stubs.
Context (handler : Z -> T outcome) (pagedir eax0 : Z).

Definition user_store (a b : Z) : P unit :=
  if is_user_vaddr a then
    k ← on_vm (pagedir_get_page pagedir a);
    if k =? NULL then fail EFault else on_data (store k b)
  else fail EFault.

(** The instruction [pushl], low byte first. *)
Definition pushl (v : Z) : M cpu unit := fun s =>
  let esp := u32 (u_esp s - 4) in
  match on_machine (user_store esp (u8 v);;
                    user_store (esp + 1) (u8 (Z.shiftr v 8));;
                    user_store (esp + 2) (u8 (Z.shiftr v 16));;
                    user_store (esp + 3) (u8 (Z.shiftr v 24))) (u_task s) with
  | Ok (_, t) => Ok (tt, Cpu esp t)
  | Err e => Err e
  end.

(** [int $0x30] and the value of EAX behind it, as an [int]. *)
Definition int_0x30 : M cpu ending := fun s =>
  match handler (u_esp s) (u_task s) with
  | Ok (Returned eax, t) => Ok (Value (s32 eax), Cpu (u_esp s) t)
  | Ok (NoValue, t) => Ok (Value (s32 eax0), Cpu (u_esp s) t)
  | Ok (o, t) => Ok (Left o, Cpu (u_esp s) t)
  | Err e => Err e
  end.

(** [addl $n, %esp]. *)
Definition addl (n : Z) : M cpu unit := fun s => Ok (tt, Cpu (u32 (u_esp s + n)) (u_task s)).

Definition syscall0 (number : Z) : M cpu ending :=
  pushl number;; r ← int_0x30; addl 4;; mret r.

Definition syscall1 (number arg0 : Z) : M cpu ending :=
  pushl arg0;; pushl number;; r ← int_0x30; addl 8;; mret r.

Definition syscall2 (number arg0 arg1 : Z) : M cpu ending :=
  pushl arg1;; pushl arg0;; pushl number;; r ← int_0x30; addl 12;; mret r.

Definition syscall3 (number arg0 arg1 arg2 : Z) : M cpu ending :=
  pushl arg2;; pushl arg1;; pushl arg0;; pushl number;; r ← int_0x30; addl 16;; mret r.

(** [NOT_REACHED] behind a call that does not return. *)
Definition not_reached (r : ending) : M cpu ending :=
  match r with Value _ => fail EPanic | Left o => mret (Left o) end.

(** The conversion of the value to the type of the function. *)
Definition as_ (f : Z -> Z) (r : ending) : ending := match r with Value v => Value (f v) | Left o => Left o end.
Definition to_bool (v : Z) : Z := if v =? 0 then 0 else 1.
Definition no_value (v : Z) : Z := 0.

Definition halt : M cpu ending := r ← syscall0 0; not_reached r.
Definition exit (status : Z) : M cpu ending := r ← syscall1 1 status; not_reached r.
Definition exec (file : Z) : M cpu ending := syscall1 2 file.
Definition wait (pid : Z) : M cpu ending := syscall1 3 pid.
Definition create (file initial_size : Z) : M cpu ending := r ← syscall2 4 file initial_size; mret (as_ to_bool r).
Definition remove (file : Z) : M cpu ending := r ← syscall1 5 file; mret (as_ to_bool r).
Definition open (file : Z) : M cpu ending := syscall1 6 file.
Definition filesize (fd : Z) : M cpu ending := syscall1 7 fd.
Definition read (fd buffer size : Z) : M cpu ending := syscall3 8 fd buffer size.
Definition write (fd buffer size : Z) : M cpu ending := syscall3 9 fd buffer size.
Definition seek (fd position : Z) : M cpu ending := r ← syscall2 10 fd position; mret (as_ no_value r).
Definition tell (fd : Z) : M cpu ending := r ← syscall1 11 fd; mret (as_ u32 r).
Definition close (fd : Z) : M cpu ending := r ← syscall1 12 fd; mret (as_ no_value r).
Definition mmap (fd addr : Z) : M cpu ending := syscall2 13 fd addr.
Definition munmap (mapid : Z) : M cpu ending := r ← syscall1 14 mapid; mret (as_ no_value r).
Definition chdir (dir : Z) : M cpu ending := r ← syscall1 15 dir; mret (as_ to_bool r).
Definition mkdir (dir : Z) : M cpu ending := r ← syscall1 16 dir; mret (as_ to_bool r).
Definition readdir (fd name : Z) : M cpu ending := r ← syscall2 17 fd name; mret (as_ to_bool r).
Definition isdir (fd : Z) : M cpu ending := r ← syscall1 18 fd; mret (as_ to_bool r).
Definition inumber (fd : Z) : M cpu ending := syscall1 19 fd.

End Stubs.

(** ** What a call means *)

(** A call with its arguments as the program gave them, and the function of the library that makes it. *)
Inductive call :=
  | Halt | Exit (status : Z) | Exec (file : Z) | Wait (pid : Z) | Create (file initial_size : Z) | Remove (file : Z)
  | Open (file : Z) | Filesize (fd : Z) | Read (fd buffer size : Z) | Write (fd buffer size : Z) | Seek (fd position : Z)
  | Tell (fd : Z) | Close (fd : Z) | Mmap (fd addr : Z) | Munmap (mapid : Z) | Chdir (dir : Z) | Mkdir (dir : Z)
  | Readdir (fd name : Z) | Isdir (fd : Z) | Inumber (fd : Z).

Definition invoke (handler : Z -> T outcome) (pd eax0 : Z) (c : call) : M cpu ending :=
  match c with
  | Halt => halt handler pd eax0 | Exit status => exit handler pd eax0 status | Exec file => exec handler pd eax0 file
  | Wait pid => wait handler pd eax0 pid | Create file n => create handler pd eax0 file n | Remove file => remove handler pd eax0 file
  | Open file => open handler pd eax0 file | Filesize fd => filesize handler pd eax0 fd | Read fd buffer size => read handler pd eax0 fd buffer size
  | Write fd buffer size => write handler pd eax0 fd buffer size | Seek fd position => seek handler pd eax0 fd position | Tell fd => tell handler pd eax0 fd
  | Close fd => close handler pd eax0 fd | Mmap fd addr => mmap handler pd eax0 fd addr | Munmap mapid => munmap handler pd eax0 mapid
  | Chdir dir => chdir handler pd eax0 dir | Mkdir dir => mkdir handler pd eax0 dir | Readdir fd name => readdir handler pd eax0 fd name
  | Isdir fd => isdir handler pd eax0 fd | Inumber fd => inumber handler pd eax0 fd
  end.

(** The values of the types [int], and of pointers and [unsigned]. *)
Definition int (z : Z) : Prop := -2147483648 <= z < 2147483648.
Definition uint (z : Z) : Prop := 0 <= z < 4294967296.

Definition typed_call (c : call) : Prop :=
  match c with
  | Halt => True
  | Exit x | Wait x | Filesize x | Tell x | Close x | Munmap x | Isdir x | Inumber x => int x
  | Exec p | Remove p | Open p | Chdir p | Mkdir p => uint p
  | Create p n => uint p /\ uint n
  | Read fd p n | Write fd p n => int fd /\ uint p /\ uint n
  | Seek fd p | Mmap fd p | Readdir fd p => int fd /\ uint p
  end.

(** What is on the stack while the kernel runs: the number of [lib/syscall-nr.h] below the arguments. *)
Definition frame (c : call) : list Z :=
  match c with
  | Halt => [0] | Exit status => [1; status] | Exec file => [2; file] | Wait pid => [3; pid] | Create file n => [4; file; n]
  | Remove file => [5; file] | Open file => [6; file] | Filesize fd => [7; fd] | Read fd buffer size => [8; fd; buffer; size]
  | Write fd buffer size => [9; fd; buffer; size] | Seek fd position => [10; fd; position] | Tell fd => [11; fd] | Close fd => [12; fd]
  | Mmap fd addr => [13; fd; addr] | Munmap mapid => [14; mapid] | Chdir dir => [15; dir] | Mkdir dir => [16; dir]
  | Readdir fd name => [17; fd; name] | Isdir fd => [18; fd] | Inumber fd => [19; fd]
  end.

(** The value that the program gets, from the answer of the kernel: the register as an [int], converted to the type of the function. *)
Definition convert (c : call) (v : Z) : Z :=
  match c with
  | Create _ _ | Remove _ | Chdir _ | Mkdir _ | Readdir _ _ | Isdir _ => if v =? 0 then 0 else 1
  | Tell _ => u32 v
  | Seek _ _ | Close _ | Munmap _ => 0
  | _ => v
  end.

Definition answer (c : call) (eax0 : Z) (o : outcome) : ending :=
  match o with
  | Returned v => Value (convert c (s32 v))
  | NoValue => Value (convert c (s32 eax0))
  | o => Left o
  end.

Section Service.
Context (filesys_create : Z -> Z -> bool -> P bool) (filesys_remove filesys_chdir filesys_mkdir : Z -> P bool).
Context (filesys_open : Z -> P Z) (dir_close : Z -> P unit) (dir_readdir : Z -> Z -> P bool) (dir_get_inode : Z -> P Z).
Context (key : nat -> Z) (junk : Z) (depth : nat) (pd : Z) (fuel : nat).

(** A block of memory: below the kernel, and its first byte mapped. *)
Definition buffer_arg (p n : Z) : X Z := is_valid_buffer p n ;~ get_kernel_ptr pd p.

(** The work of the kernel for a call, on the arguments of the program. *)
Definition service (c : call) : X outcome :=
  match c with
  | Halt => stop Halted
  | Exit status => stop (Exited status)
  | Exec file => k <~ string_arg pd fuel file; stop (Executing k)
  | Wait pid => stop (Waiting pid)
  | Create file n => k <~ string_arg pd fuel file; eax_bool (sys_create filesys_create k n)
  | Remove file => k <~ string_arg pd fuel file; eax_bool (sys_remove filesys_remove k)
  | Open file => k <~ string_arg pd fuel file; eax (sys_open filesys_open junk k)
  | Filesize fd => eax (Syscall.filesize fd)
  | Read fd p n => k <~ buffer_arg p n; eax (sys_read key fd k n)
  | Write fd p n => k <~ buffer_arg p n; eax (sys_write depth fd k n)
  | Seek fd position => no_eax (sys_seek fd position)
  | Tell fd => eax (sys_tell junk fd)
  | Close fd => no_eax (sys_close dir_close depth fd)
  | Mmap _ _ | Munmap _ => stop (Exited ERROR)
  | Chdir dir => k <~ string_arg pd fuel dir; eax_bool (sys_chdir filesys_chdir k)
  | Mkdir dir => k <~ string_arg pd fuel dir; eax_bool (sys_mkdir filesys_mkdir k)
  | Readdir fd name => k <~ string_arg pd fuel name; eax_bool (Syscall.readdir dir_readdir fd k)
  | Isdir fd => eax_bool (Syscall.isdir fd)
  | Inumber fd => eax (Syscall.inumber dir_get_inode fd)
  end.

End Service.

(** ** The stack of the user *)

Definition with_data (d : bytes) (s : task) : task :=
  Task (Machine (m_fs (t_machine s)) (m_vm (t_machine s)) d) (file_list s) (next_fd s) (typed s) (printed s).

Definition poke (k b : Z) (s : task) : task := with_data (<[k := b]> (mem s)) s.

Lemma on_machine_bind {A B} (c : P A) (k : A -> P B) s : on_machine (x ← c; k x) s = (x ← on_machine c; on_machine (k x)) s.
Proof.
  unfold on_machine, mbind, M_bind. destruct (c (t_machine s)) as [[a m]|e]; [|done]. cbn [t_machine file_list next_fd typed printed]. reflexivity.
Qed.

Lemma word_bytes w : u8 w + 256 * u8 (Z.shiftr w 8) + 65536 * u8 (Z.shiftr w 16) + 16777216 * u8 (Z.shiftr w 24) = u32 w.
Proof.
  unfold u8, u32. rewrite !Z.shiftr_div_pow2 by lia. change (2 ^ 8) with 256. change (2 ^ 16) with (256 * 256). change (2 ^ 24) with (256 * 256 * 256).
  change 4294967296 with (256 * (256 * (256 * 256))). rewrite (Z.rem_mul_r w 256) by lia. rewrite (Z.rem_mul_r (w / 256) 256) by lia. rewrite (Z.rem_mul_r (w / 256 / 256) 256) by lia.
  rewrite !Z.div_div by lia. lia.
Qed.

Lemma s32_of_u32 w : s32 (u32 w) = s32 w.
Proof. unfold s32, u32. by rewrite Zplus_mod_idemp_l. Qed.

Lemma u32_of_s32 w : u32 (s32 w) = u32 w.
Proof. unfold s32, u32. rewrite Zminus_mod_idemp_l. f_equal. lia. Qed.

Section Stack.
Context (pd : Z) (T : Z -> Z).

Lemma tr_add s a j : a mod 4 = 0 -> 0 <= j < 4 -> tr T s a <> NULL -> tr T s (a + j) = tr T s a + j.
Proof using Type.
  intros Ha Hj. assert (Hq : (a + j) / 4096 = a / 4096 /\ (a + j) mod 4096 = a mod 4096 + j).
  { pose proof (Z.div_mod a 4096). pose proof (Z.mod_pos_bound a 4096). assert (a mod 4096 mod 4 = 0) by (rewrite Z.mod_mod_divide; [done|by exists 1024]).
    pose proof (Z.div_mod (a mod 4096) 4). split; [symmetry; apply (Z.div_unique _ _ _ (a mod 4096 + j)); lia|symmetry; apply (Z.mod_unique _ _ (a / 4096)); lia]. }
  destruct Hq as [Hd Hm]. unfold tr, translate. assert (pd_no (a + j) = pd_no a /\ pt_no (a + j) = pt_no a) as [-> ->].
  { rewrite !pd_no_div, !pt_no_mod, Hd. split; [|done]. change 4194304 with (4096 * 1024). rewrite <- !Z.div_div, Hd by lia. done. }
  destruct (T (pd_no a) =? NULL); [done|]. destruct (_ mod 2 =? 1); [|done]. intros _. lia.
Qed.

(** Two bytes less than a page apart are not the same byte of memory. *)
Lemma tr_inj s x y : tr T s x = tr T s y -> tr T s x <> NULL -> -4096 < x - y < 4096 -> x = y.
Proof using Type.
  intros E Hn Hd. assert (Hm : forall z, tr T s z <> NULL -> tr T s z mod 4096 = z mod 4096).
  { intros z. unfold tr, translate. destruct (T (pd_no z) =? NULL); [done|]. set (e := words _ _). destruct (e mod 2 =? 1); [|done]. intros _.
    pose proof (Z.div_mod e 4096). pose proof (Z.mod_pos_bound z 4096). unfold PHYS_BASE. symmetry. apply (Z.mod_unique _ _ (e / 4096 + 786432)); lia. }
  pose proof (Hm x Hn) as H1. pose proof (Hm y ltac:(congruence)) as H2. rewrite E in H1.
  pose proof (Z.div_mod x 4096). pose proof (Z.div_mod y 4096). nia.
Qed.

Lemma user_byte_tr s a b : user_byte T s a = Some b -> a < PHYS_BASE /\ tr T s a <> NULL /\ mem s !! tr T s a = Some b.
Proof using Type. unfold user_byte. destruct (Z.ltb_spec a PHYS_BASE); [|done]. destruct (Z.eqb_spec (tr T s a) NULL); [done|]. done. Qed.

Lemma user_byte_poke s a b old x : user_byte T s a = Some old -> -4096 < x - a < 4096 ->
  user_byte T (poke (tr T s a) b s) x = if x =? a then Some b else user_byte T s x.
Proof using Type.
  intros Ha Hx. destruct (user_byte_tr _ _ _ Ha) as (H1 & H2 & H3). unfold user_byte at 1. change (tr T (poke (tr T s a) b s)) with (tr T s). change (mem (poke (tr T s a) b s)) with (<[tr T s a := b]> (mem s)).
  destruct (Z.eqb_spec x a) as [->|Hne].
  - rewrite (proj2 (Z.ltb_lt _ _) H1), (proj2 (Z.eqb_neq _ _) H2). apply lookup_insert_eq.
  - unfold user_byte. destruct (x <? PHYS_BASE); [|done]. destruct (Z.eqb_spec (tr T s x) NULL) as [|Hn]; [done|]. cbn [negb andb].
    apply lookup_insert_ne. intros E. apply Hne. symmetry. apply (tr_inj s); [done|done|lia].
Qed.

Lemma user_store_ok s a b old : pd_rep (m_vm (t_machine s)) pd T -> 0 <= a -> user_byte T s a = Some old -> is_byte b ->
  on_machine (user_store pd a b) s = Ok (tt, poke (tr T s a) b s).
Proof using Type.
  intros Hr Ha Hu Hb. destruct (user_byte_tr _ _ _ Hu) as (H1 & H2 & H3). unfold on_machine, user_store, is_user_vaddr. rewrite (proj2 (Z.ltb_lt _ _) H1).
  rewrite (bind_ok _ _ _ (tr T s a) (t_machine s)) by (unfold on_vm; rewrite (pagedir_get_page_ok _ _ _ _ Hr) by lia; unfold tr; by destruct (t_machine s)). cbv beta.
  rewrite (proj2 (Z.eqb_neq _ _) H2). unfold on_data. fold (mem s). by rewrite (store_ok _ _ _ _ H3 Hb).
Qed.

(** The word W at the user address A, and the words WS from A on. *)
Definition word_at (s : task) (a w : Z) : Prop :=
  user_byte T s a = Some (u8 w) /\ user_byte T s (a + 1) = Some (u8 (Z.shiftr w 8)) /\
  user_byte T s (a + 2) = Some (u8 (Z.shiftr w 16)) /\ user_byte T s (a + 3) = Some (u8 (Z.shiftr w 24)).

Fixpoint holds (s : task) (a : Z) (ws : list Z) : Prop :=
  match ws with [] => True | w :: ws => word_at s a w /\ holds s (a + 4) ws end.

(** S' is S up to the bytes of the user addresses from LO to HI. *)
Definition framed (s s' : task) (lo hi : Z) : Prop :=
  s' = with_data (mem s') s /\ (forall a, is_Some (user_byte T s a) -> is_Some (user_byte T s' a)) /\
  forall k, (forall a, lo <= a < hi -> k <> tr T s a) -> mem s' !! k = mem s !! k.

Definition mapped (s : task) (lo hi : Z) : Prop := forall a, lo <= a < hi -> is_Some (user_byte T s a).

Lemma byte_of w : is_byte (u8 w).
Proof using Type. unfold is_byte, u8. apply Z.mod_pos_bound. lia. Qed.

Lemma framed_poke s a b old lo hi : user_byte T s a = Some old -> lo <= a < hi -> framed s (poke (tr T s a) b s) lo hi.
Proof using Type.
  intros Ha Hr. split; [done|]. split.
  - intros x Hx. unfold user_byte in Hx |- *. change (tr T (poke (tr T s a) b s)) with (tr T s). change (mem (poke (tr T s a) b s)) with (<[tr T s a := b]> (mem s)).
    destruct (_ && _); [|done]. destruct (decide (tr T s a = tr T s x)) as [->|Hne]; [rewrite lookup_insert_eq; by eexists|by rewrite lookup_insert_ne].
  - intros k Hk. change (mem (poke (tr T s a) b s)) with (<[tr T s a := b]> (mem s)). apply lookup_insert_ne. intros E. by apply (Hk a Hr).
Qed.

Lemma framed_trans s s1 s2 lo hi lo' hi' : framed s s1 lo hi -> framed s1 s2 lo' hi' -> framed s s2 (Z.min lo lo') (Z.max hi hi').
Proof using Type.
  intros (E1 & M1 & F1) (E2 & M2 & F2). assert (Et : forall a, tr T s1 a = tr T s a) by (intros a; rewrite E1; reflexivity). split; [|split].
  - etransitivity; [exact E2|]. rewrite E1. reflexivity.
  - intros a Ha. by apply M2, M1.
  - intros k Hk. rewrite F2, F1; [done|intros a Ha; apply Hk; lia|intros a Ha; rewrite Et; apply Hk; lia].
Qed.

Lemma framed_refl s lo hi : framed s s lo hi.
Proof using Type. split; [by destruct s as [[] ]|]. done. Qed.

Lemma framed_mapped s s' lo hi lo' hi' : framed s s' lo hi -> mapped s lo' hi' -> mapped s' lo' hi'.
Proof using Type. intros (_ & M & _) H a Ha. by apply M, H. Qed.

(** The bytes of the user outside the frame, less than a page away from it, stay. *)
Lemma holds_poke s a b old : user_byte T s a = Some old -> forall ws lo, a < lo -> lo + 4 * Z.of_nat (length ws) <= a + 4096 -> holds s lo ws -> holds (poke (tr T s a) b s) lo ws.
Proof using Type.
  intros Ha ws. induction ws as [|w ws IH]; intros lo Hlo Hlen; cbn [holds length] in *; [done|]. intros [(W0 & W1 & W2 & W3) Hws]. split; [|apply IH; [lia|lia|done]].
  unfold word_at. rewrite !(user_byte_poke s a b old) by (done || lia). rewrite !(proj2 (Z.eqb_neq _ _)) by lia. done.
Qed.

Lemma pushl_ok s esp ws v : pd_rep (m_vm (t_machine s)) pd T -> 4 <= esp <= PHYS_BASE -> mapped s (esp - 4) esp -> (length ws <= 16)%nat -> holds s esp ws ->
  exists s', pushl pd v (Cpu esp s) = Ok (tt, Cpu (esp - 4) s') /\ holds s' (esp - 4) (v :: ws) /\ framed s s' (esp - 4) esp.
Proof using Type.
  intros Hr He Hm Hl Hw. set (e := esp - 4) in *.
  destruct (Hm e ltac:(lia)) as [o0 H0]. set (s0 := poke (tr T s e) (u8 v) s).
  assert (F0 : framed s s0 e esp) by (apply (framed_poke s e (u8 v) o0); [done|lia]). pose proof (framed_mapped _ _ _ _ _ _ F0 Hm) as Hm0.
  destruct (Hm0 (e + 1) ltac:(lia)) as [o1 H1]. set (s1 := poke (tr T s0 (e + 1)) (u8 (Z.shiftr v 8)) s0).
  assert (F1 : framed s0 s1 e esp) by (apply (framed_poke s0 (e + 1) _ o1); [done|lia]). pose proof (framed_mapped _ _ _ _ _ _ F1 Hm0) as Hm1.
  destruct (Hm1 (e + 2) ltac:(lia)) as [o2 H2]. set (s2 := poke (tr T s1 (e + 2)) (u8 (Z.shiftr v 16)) s1).
  assert (F2 : framed s1 s2 e esp) by (apply (framed_poke s1 (e + 2) _ o2); [done|lia]). pose proof (framed_mapped _ _ _ _ _ _ F2 Hm1) as Hm2.
  destruct (Hm2 (e + 3) ltac:(lia)) as [o3 H3]. set (s3 := poke (tr T s2 (e + 3)) (u8 (Z.shiftr v 24)) s2).
  assert (F3 : framed s2 s3 e esp) by (apply (framed_poke s2 (e + 3) _ o3); [done|lia]).
  exists s3. split; [|split].
  - unfold pushl. cbn [u_esp u_task]. fold e. unfold PHYS_BASE in He. rewrite u32_small by lia. cbv zeta.
    rewrite on_machine_bind. mstep (user_store_ok s e (u8 v) o0 Hr ltac:(lia) H0 (byte_of v)).
    rewrite on_machine_bind. mstep (user_store_ok s0 (e + 1) (u8 (Z.shiftr v 8)) o1 Hr ltac:(lia) H1 (byte_of _)).
    rewrite on_machine_bind. mstep (user_store_ok s1 (e + 2) (u8 (Z.shiftr v 16)) o2 Hr ltac:(lia) H2 (byte_of _)).
    fold s2. by rewrite (user_store_ok s2 (e + 3) (u8 (Z.shiftr v 24)) o3 Hr ltac:(lia) H3 (byte_of _)).
  - cbn [holds]. split.
    + unfold word_at, s3. rewrite !(user_byte_poke s2 (e + 3) _ o3) by (done || lia). unfold s2. rewrite !(user_byte_poke s1 (e + 2) _ o2) by (done || lia).
      unfold s1. rewrite !(user_byte_poke s0 (e + 1) _ o1) by (done || lia). unfold s0. rewrite !(user_byte_poke s e _ o0) by (done || lia).
      rewrite !Z.eqb_refl. rewrite !(proj2 (Z.eqb_neq _ _)) by lia. done.
    + replace (e + 4) with esp by lia. apply (holds_poke s2 _ _ o3); [done|lia|lia|]. apply (holds_poke s1 _ _ o2); [done|lia|lia|].
      apply (holds_poke s0 _ _ o1); [done|lia|lia|]. apply (holds_poke s _ _ o0); [done|lia|lia|done].
  - pose proof (framed_trans _ _ _ _ _ _ _ (framed_trans _ _ _ _ _ _ _ (framed_trans _ _ _ _ _ _ _ F0 F1) F2) F3) as F. by rewrite !Z.min_id, !Z.max_id in F.
Qed.

(** ** What the kernel reads *)

Lemma load_data_ok s k b : mem s !! k = Some b -> on_data (load k) (t_machine s) = Ok (b, t_machine s).
Proof using Type. intros H. unfold on_data. fold (mem s). rewrite (load_ok _ _ _ H). unfold mem. by destruct (t_machine s). Qed.

Lemma load_va_ok s a b : pd_rep (m_vm (t_machine s)) pd T -> 0 <= a -> user_byte T s a = Some b -> load_va pd a (t_machine s) = Ok (b, t_machine s).
Proof using Type.
  intros Hr Ha Hu. destruct (user_byte_tr _ _ _ Hu) as (H1 & H2 & H3). unfold load_va, is_user_vaddr. rewrite (proj2 (Z.ltb_lt _ _) H1).
  rewrite (bind_ok _ _ _ (tr T s a) (t_machine s)) by (unfold on_vm; rewrite (pagedir_get_page_ok _ _ _ _ Hr) by lia; unfold tr; by destruct (t_machine s)). cbv beta.
  rewrite (proj2 (Z.eqb_neq _ _) H2). by apply load_data_ok.
Qed.

Lemma load_int_ok ld (m : machine) a w :
  ld a m = Ok (u8 w, m) -> ld (a + 1) m = Ok (u8 (Z.shiftr w 8), m) -> ld (a + 2) m = Ok (u8 (Z.shiftr w 16), m) -> ld (a + 3) m = Ok (u8 (Z.shiftr w 24), m) ->
  load_int ld a m = Ok (s32 w, m).
Proof using Type. intros H0 H1 H2 H3. unfold load_int. mstep H0. mstep H1. mstep H2. mstep H3. by rewrite word_bytes, s32_of_u32. Qed.

Lemma task_machine s : Task (t_machine s) (file_list s) (next_fd s) (typed s) (printed s) = s.
Proof using Type. by destruct s. Qed.

Lemma get_arg_ok s esp args : pd_rep (m_vm (t_machine s)) pd T -> 0 <= esp -> forall c, 0 <= c -> esp + 4 * (c + 1) + 4 * Z.of_nat (length args) < 4294967296 -> holds s (esp + 4 * (c + 1)) args ->
  get_arg_loop pd (length args) esp c s = Ok (inr (map s32 args), s).
Proof using Type.
  intros Hr He. induction args as [|w args IH]; intros c Hc Hb Hw; cbn [length get_arg_loop map holds] in *; [done|]. destruct Hw as [(W0 & W1 & W2 & W3) Hw].
  rewrite u32_small by lia. set (p := esp + 4 * (c + 1)) in *. destruct (user_byte_tr _ _ _ W0) as (Hu & _ & _).
  rewrite (bindX_go _ _ _ tt s) by (unfold is_valid_ptr, is_user_vaddr; by rewrite (proj2 (Z.ltb_lt _ _) Hu)). cbv beta.
  rewrite (bindX_go _ _ _ (s32 w) s).
  2:{ unfold liftX, on_machine. rewrite (load_int_ok (load_va pd) (t_machine s) p w) by (apply load_va_ok; (done || lia)). by rewrite task_machine. }
  cbv beta. rewrite (bindX_go _ _ _ (map s32 args) s); [done|]. apply IH; [lia|unfold p in *; lia|]. by replace (esp + 4 * (c + 1 + 1)) with (p + 4) by (unfold p; lia).
Qed.

Lemma get_number_ok s esp w : pd_rep (m_vm (t_machine s)) pd T -> 0 <= esp -> esp mod 4 = 0 -> word_at s esp w ->
  get_kernel_ptr pd esp s = Ok (inr (tr T s esp), s) /\ liftX (on_machine (load_int (fun a => on_data (load a)) (tr T s esp))) s = Ok (inr (s32 w), s).
Proof using Type.
  intros Hr He Ha (W0 & W1 & W2 & W3). destruct (user_byte_tr _ _ _ W0) as (Hu & Hn & M0). split.
  - unfold get_kernel_ptr, is_valid_ptr, is_user_vaddr. rewrite (proj2 (Z.ltb_lt _ _) Hu). cbn [negb].
    rewrite (bindX_go _ _ _ tt s) by done. cbv beta. rewrite (bindX_go _ _ _ (tr T s esp) s).
    + by rewrite (proj2 (Z.eqb_neq _ _) Hn).
    + unfold liftX, on_machine, on_vm. rewrite (pagedir_get_page_ok _ _ _ _ Hr) by lia. unfold tr. by destruct s as [[] ].
  - destruct (user_byte_tr _ _ _ W1) as (_ & _ & M1). destruct (user_byte_tr _ _ _ W2) as (_ & _ & M2). destruct (user_byte_tr _ _ _ W3) as (_ & _ & M3).
    rewrite !tr_add in * by (done || lia). unfold liftX, on_machine. rewrite (load_int_ok _ (t_machine s) (tr T s esp) w); [by rewrite task_machine|by apply load_data_ok..].
Qed.

End Stack.

(** ** The stubs *)

Lemma bind_ext {S A B} (c d : M S A) (k : A -> M S B) s : c s = d s -> (x ← c; k x) s = (x ← d; k x) s.
Proof. intros H. unfold mbind, M_bind. by rewrite H. Qed.

(** EAX as an [int]. *)
Definition retval (eax0 : Z) (o : outcome) : ending :=
  match o with Returned v => Value (s32 v) | NoValue => Value (s32 eax0) | o => Left o end.

Lemma bind_result {S A B} (c : M S A) (k : A -> M S B) s x : c s = x -> (y ← c; k y) s = match x with Ok (a, t) => k a t | Err e => Err e end.
Proof. intros <-. done. Qed.

Lemma bindX_assoc {A B C} (c : X A) (f : A -> X B) (g : B -> X C) s : bindX (bindX c f) g s = bindX c (fun a => bindX (f a) g) s.
Proof. unfold bindX. by destruct (c s) as [[[o|a] t]|e]. Qed.

Lemma string_arg_s32 pd fuel a : string_arg pd fuel (s32 a) = string_arg pd fuel a.
Proof. unfold string_arg. by rewrite u32_of_s32. Qed.

Section Calls.
Context (filesys_create : Z -> Z -> bool -> P bool) (filesys_remove filesys_chdir filesys_mkdir : Z -> P bool).
Context (filesys_open : Z -> P Z) (dir_close : Z -> P unit) (dir_readdir : Z -> Z -> P bool) (dir_get_inode : Z -> P Z).
Context (key : nat -> Z) (junk : Z) (depth : nat) (pd : Z) (fuel : nat) (T : Z -> Z) (eax0 : Z).

Abbreviation kernel := (syscall_handler filesys_create filesys_remove filesys_chdir filesys_mkdir filesys_open dir_close dir_readdir dir_get_inode key junk depth pd fuel).
Abbreviation serve := (service filesys_create filesys_remove filesys_chdir filesys_mkdir filesys_open dir_close dir_readdir dir_get_inode key junk depth pd fuel).

Abbreviation dispatched := (dispatch filesys_create filesys_remove filesys_chdir filesys_mkdir filesys_open dir_close dir_readdir dir_get_inode key junk depth pd fuel).

Fixpoint pushes (ws : list Z) (k : M cpu ending) : M cpu ending :=
  match ws with [] => k | w :: ws => pushl pd w;; pushes ws k end.

Lemma pushes_ok ws : forall s esp old, pd_rep (m_vm (t_machine s)) pd T -> 4 * Z.of_nat (length ws) <= esp <= PHYS_BASE -> mapped T s (esp - 4 * Z.of_nat (length ws)) esp ->
  (length old + length ws <= 16)%nat -> holds T s esp old ->
  exists s', holds T s' (esp - 4 * Z.of_nat (length ws)) (rev ws ++ old) /\ framed T s s' (esp - 4 * Z.of_nat (length ws)) esp /\
    forall k, pushes ws k (Cpu esp s) = k (Cpu (esp - 4 * Z.of_nat (length ws)) s').
Proof using Type.
  induction ws as [|w ws IH]; intros s esp old Hr He Hm Hl Ho; cbn [length rev app pushes] in *.
  { exists s. replace (esp - 4 * Z.of_nat 0) with esp by lia. split; [done|]. split; [apply framed_refl|done]. }
  destruct (pushl_ok pd T s esp old w Hr) as (s1 & E1 & H1 & F1); [lia|intros a Ha; apply Hm; lia|lia|done|].
  assert (Hr1 : pd_rep (m_vm (t_machine s1)) pd T) by (destruct F1 as [-> _]; exact Hr).
  destruct (IH s1 (esp - 4) (w :: old) Hr1) as (s' & H' & F' & K'); [lia| |cbn [length]; lia|done|].
  { apply (framed_mapped _ _ _ _ _ _ _ F1). intros a Ha. apply Hm. lia. }
  replace (esp - 4 - 4 * Z.of_nat (length ws)) with (esp - 4 * Z.of_nat (S (length ws))) in * by lia. exists s'. split; [by rewrite <- app_assoc|]. split.
  - pose proof (framed_trans _ _ _ _ _ _ _ _ F1 F') as F. by rewrite Z.min_r, Z.max_l in F by lia.
  - intros k. mstep E1. apply K'.
Qed.

(** Entering the kernel and dropping N bytes. *)
Lemma enter_ok handler esp n s : 0 <= esp < 4294967296 ->
  (r ← int_0x30 handler eax0; addl n;; mret r) (Cpu (esp - n) s) =
  match handler (esp - n) s with Ok (o, t) => Ok (retval eax0 o, Cpu esp t) | Err e => Err e end.
Proof using Type.
  intros He. unfold int_0x30, addl, mbind, M_bind. cbn [u_esp u_task]. destruct (handler (esp - n) s) as [[o t]|e]; [|done].
  assert (Ee : u32 (esp - n + n) = esp) by (rewrite Z.sub_add; apply u32_small; lia).
  destruct o; cbn [u_esp u_task mret M_ret retval]; by rewrite Ee.
Qed.

(** The kernel finds the arguments. *)
Lemma kernel_ok c s esp : pd_rep (m_vm (t_machine s)) pd T -> typed_call c -> 0 <= esp -> esp + 16 < 4294967296 -> esp mod 4 = 0 -> holds T s esp (frame c) ->
  kernel esp s = (r ← serve c; mret (match r with inl o => o | inr o => o end)) s.
Proof using Type.
  intros Hr Hc He Hb Ha Hf. unfold syscall_handler. apply bind_ext.
  assert (Hk : forall number args, frame c = number :: args -> s32 number = number ->
    (k <~ get_kernel_ptr pd esp; n <~ liftX (on_machine (load_int (fun a => on_data (load a)) k)); dispatched esp n) s = dispatched esp number s).
  { intros number args Ef En. rewrite Ef in Hf. destruct Hf as [Hw _]. destruct (get_number_ok pd T s esp number Hr He Ha Hw) as [E1 E2].
    rewrite (bindX_go _ _ _ _ _ E1). cbv beta. rewrite (bindX_go _ _ _ _ _ E2). cbv beta. by rewrite En. }
  assert (Hg : forall number args n (k : list Z -> X outcome), frame c = number :: args -> length args = n -> (n <= 3)%nat -> bindX (get_arg pd esp n) k s = k (map s32 args) s).
  { intros number args n k Ef El Hl. rewrite Ef in Hf. destruct Hf as [_ Hw]. apply bindX_go. unfold get_arg. rewrite <- El.
    apply (get_arg_ok pd T s esp args Hr He); [lia|lia|]. by replace (esp + 4 * (0 + 1)) with (esp + 4) by lia. }
  destruct c; cbn [typed_call] in Hc; unfold int, uint in Hc; rewrite (Hk _ _ eq_refl eq_refl); cbn [dispatch];
    try first [rewrite (Hg _ _ 1%nat _ eq_refl eq_refl) by lia | rewrite (Hg _ _ 2%nat _ eq_refl eq_refl) by lia | rewrite (Hg _ _ 3%nat _ eq_refl eq_refl) by lia];
    unfold arg; cbn [map nth service]; unfold buffer_arg, sys_create; rewrite ?bindX_assoc, ?string_arg_s32, ?u32_of_s32, ?s32_small, ?u32_small by lia; try done.
Qed.

Lemma convert_ok c o : answer c eax0 o = as_ (convert c) (retval eax0 o).
Proof using Type. by destruct o. Qed.

(** A stub: it leaves the frame on the stack, and gives the value of the kernel. *)
Lemma stub_ok handler c s esp : pd_rep (m_vm (t_machine s)) pd T -> 4 * Z.of_nat (length (frame c)) <= esp <= PHYS_BASE -> mapped T s (esp - 4 * Z.of_nat (length (frame c))) esp ->
  exists s', holds T s' (esp - 4 * Z.of_nat (length (frame c))) (frame c) /\ framed T s s' (esp - 4 * Z.of_nat (length (frame c))) esp /\
    invoke handler pd eax0 c (Cpu esp s) =
    match handler (esp - 4 * Z.of_nat (length (frame c))) s' with
    | Ok (o, t) =>
        match c, retval eax0 o with
        | (Halt | Exit _), Value _ => Err EPanic
        | _, r => Ok (as_ (convert c) r, Cpu esp t)
        end
    | Err e => Err e
    end.
Proof using Type.
  intros Hr He Hm. assert (Hl : (length (frame c) <= 16)%nat) by (destruct c; cbn; lia). set (n := 4 * Z.of_nat (length (frame c))) in *.
  destruct (pushes_ok (rev (frame c)) s esp [] Hr) as (s' & H' & F' & K'); rewrite ?length_rev, ?rev_involutive, ?app_nil_r in *; [done|done|done|done|]. fold n in H', F', K'.
  exists s'. split; [done|]. split; [done|].
  assert (Hs : pushes (rev (frame c)) (r ← int_0x30 handler eax0; addl n;; mret r) (Cpu esp s) =
    match handler (esp - n) s' with Ok (o, t) => Ok (retval eax0 o, Cpu esp t) | Err e => Err e end) by (rewrite K'; apply enter_ok; unfold PHYS_BASE in He; lia).
  destruct c; cbn [frame length Z.of_nat Pos.of_succ_nat Pos.succ] in n; cbn [frame rev app pushes] in Hs; cbn [invoke];
    unfold halt, exit, exec, wait, create, remove, open, filesize, read, write, seek, tell, close, mmap, munmap, chdir, mkdir, readdir, isdir, inumber.
  all: etransitivity; [first [exact Hs | exact (bind_result _ _ _ _ Hs)]|].
  all: destruct (handler (esp - n) s') as [[o t]|e]; [by destruct o|done].
Qed.

(** C11: every function of the user's system call library does what the kernel does for its
    arguments: the arguments and the number that it pushes are the ones that [syscall_handler] reads and dispatches on, the
    value is the answer of the kernel in the type of the function, the stack pointer is back where it was, and no
    memory but the words below it has changed before the kernel starts.  [mmap] and [munmap], which the
    kernel does not have, end the process. *)
Theorem user_calls_correct c s esp :
  pd_rep (m_vm (t_machine s)) pd T -> typed_call c -> esp mod 4 = 0 ->
  4 * Z.of_nat (length (frame c)) <= esp <= PHYS_BASE -> mapped T s (esp - 4 * Z.of_nat (length (frame c))) esp ->
  exists s', framed T s s' (esp - 4 * Z.of_nat (length (frame c))) esp /\
    invoke kernel pd eax0 c (Cpu esp s) =
    match serve c s' with
    | Ok (r, t) => Ok (answer c eax0 (match r with inl o => o | inr o => o end), Cpu esp t)
    | Err e => Err e
    end.
Proof using Type.
  intros Hr Hc Ha He Hm. destruct (stub_ok kernel c s esp Hr He Hm) as (s' & H' & F' & E). exists s'. split; [done|].
  assert (Hr' : pd_rep (m_vm (t_machine s')) pd T) by (destruct F' as [-> _]; exact Hr).
  assert (Hl : (length (frame c) <= 4)%nat) by (destruct c; cbn; lia). unfold PHYS_BASE in He.
  rewrite (kernel_ok c s' _ Hr' Hc) in E; [|lia|lia| |done].
  2:{ replace (4 * Z.of_nat (length (frame c))) with (Z.of_nat (length (frame c)) * 4) by lia. by rewrite Zminus_mod, Z.mod_mul, Ha by lia. }
  rewrite E. unfold mbind, M_bind. destruct (serve c s') as [[r t]|e] eqn:Es; [|done]. cbn [mret M_ret]. rewrite convert_ok.
  destruct c; cbn [service] in Es; first [injection Es as <- <-; done | by destruct r as [[]|[]]].
Qed.

End Calls.

(** The handler and the reference with library functions that do nothing. *)
Definition demo_kernel : Z -> T outcome :=
  syscall_handler (fun _ _ _ => mret false) (fun _ => mret false) (fun _ => mret false) (fun _ => mret false)
    (fun _ => mret 0) (fun _ => mret tt) (fun _ _ => mret false) (fun _ => mret 0) (fun n => Z.of_nat n + 1) 5 2 3222298624 10%nat.
Definition demo_service : call -> X outcome :=
  service (fun _ _ _ => mret false) (fun _ => mret false) (fun _ => mret false) (fun _ => mret false)
    (fun _ => mret 0) (fun _ => mret tt) (fun _ _ => mret false) (fun _ => mret 0) (fun n => Z.of_nat n + 1) 5 2 3222298624 10%nat.

Lemma top_mapped : mapped top_table top_task 3221225384 3221225400.
Proof.
  intros a Ha. assert (H : forallb (fun k => bool_decide (is_Some (user_byte top_table top_task (3221225384 + Z.of_nat k)))) (seq 0 16) = true) by (vm_compute; reflexivity).
  pose proof (proj1 (forallb_forall _ _) H (Z.to_nat (a - 3221225384)) ltac:(apply in_seq; lia)) as Hk. cbv beta in Hk. apply bool_decide_eq_true in Hk.
  replace (3221225384 + Z.of_nat (Z.to_nat (a - 3221225384))) with a in Hk by lia. exact Hk.
Qed.

(** A program on the last page of user memory writes the three characters at its end
    to the console. *)
Lemma user_calls_correct_witness :
  (exists s', framed top_table top_task s' 3221225384 3221225400 /\
     invoke demo_kernel 3222298624 0 (Write 1 3221225466 3) (Cpu 3221225400 top_task) =
     match demo_service (Write 1 3221225466 3) s' with
     | Ok (r, t) => Ok (answer (Write 1 3221225466 3) 0 (match r with inl o => o | inr o => o end), Cpu 3221225400 t)
     | Err e => Err e
     end) /\
  match invoke demo_kernel 3222298624 0 (Write 1 3221225466 3) (Cpu 3221225400 top_task) with
  | Ok (Value v, c) => v = 3 /\ printed (u_task c) = [108; 115; 0]
  | _ => False
  end.
Proof.
  split; [|vm_compute; split; reflexivity].
  apply (user_calls_correct (fun _ _ _ => mret false) (fun _ => mret false) (fun _ => mret false) (fun _ => mret false)
    (fun _ => mret 0) (fun _ => mret tt) (fun _ _ => mret false) (fun _ => mret 0) (fun n => Z.of_nat n + 1) 5 2 3222298624 10%nat top_table 0
    (Write 1 3221225466 3) top_task 3221225400).
  - exact top_rep.
  - split; [split; lia|split; split; lia].
  - reflexivity.
  - cbn. unfold PHYS_BASE. lia.
  - exact top_mapped.
Defined.
