(* ===== verification/Boot.v ===== *)
(** * The command line of the kernel: [threads/init.c]

    [read_command_line], [parse_options] and [run_actions], over the bytes of
    memory that the loader left, with the string functions, [atoi], the
    random number generator and the block devices of the other components.  A
    string literal is at the address that [addr] gives it, the argument
    vector is a list that ends with the null pointer, and an index outside the array [argv] stops with
    [EFault].  The functions of the actions are recorded with their arguments in the order
    of their calls, and what is echoed as the pointers with the quotes around them.  The build
    is the one of [filesys/Make.vars]: [USERPROG] and [FILESYS], not [VM]. *)

From Stdlib Require Import Strings.String.
From S2P Require Import Prelude ListModel Bytes Block CString CStringRep CStringTok StdLib Stdio StdioThms UstarThms Random Devices.

Inductive shutdown_type := SHUTDOWN_NONE | SHUTDOWN_POWER_OFF | SHUTDOWN_REBOOT.

(** The table of [run_actions]. *)
Inductive action := run_task | fsutil_ls | fsutil_cat | fsutil_rm | fsutil_extract | fsutil_append.

Record boot := BootState {
  b_mem : bytes;
  b_rng : rng;
  how : shutdown_type;
  format_filesys : bool;
  filesys_bdev_name : Z;
  scratch_bdev_name : Z;
  thread_mlfqs : bool;
  user_page_limit : Z;
  echoed : list (bool * Z);
  performed : list (action * list Z)
}.

Abbreviation K := (M boot).

Definition on_mem {A} (c : B A) : K A := fun s =>
  match c (b_mem s) with
  | Ok (a, m) => Ok (a, BootState m (b_rng s) (how s) (format_filesys s) (filesys_bdev_name s) (scratch_bdev_name s) (thread_mlfqs s) (user_page_limit s) (echoed s) (performed s))
  | Err e => Err e
  end.
Definition on_rng (c : R unit) : K unit := fun s =>
  match c (b_rng s) with
  | Ok (a, g) => Ok (a, BootState (b_mem s) g (how s) (format_filesys s) (filesys_bdev_name s) (scratch_bdev_name s) (thread_mlfqs s) (user_page_limit s) (echoed s) (performed s))
  | Err e => Err e
  end.
Definition shutdown_configure (type : shutdown_type) : K unit := fun s =>
  Ok (tt, BootState (b_mem s) (b_rng s) type (format_filesys s) (filesys_bdev_name s) (scratch_bdev_name s) (thread_mlfqs s) (user_page_limit s) (echoed s) (performed s)).
Definition set_format : K unit := fun s =>
  Ok (tt, BootState (b_mem s) (b_rng s) (how s) true (filesys_bdev_name s) (scratch_bdev_name s) (thread_mlfqs s) (user_page_limit s) (echoed s) (performed s)).
Definition set_filesys (value : Z) : K unit := fun s =>
  Ok (tt, BootState (b_mem s) (b_rng s) (how s) (format_filesys s) value (scratch_bdev_name s) (thread_mlfqs s) (user_page_limit s) (echoed s) (performed s)).
Definition set_scratch (value : Z) : K unit := fun s =>
  Ok (tt, BootState (b_mem s) (b_rng s) (how s) (format_filesys s) (filesys_bdev_name s) value (thread_mlfqs s) (user_page_limit s) (echoed s) (performed s)).
Definition set_mlfqs : K unit := fun s =>
  Ok (tt, BootState (b_mem s) (b_rng s) (how s) (format_filesys s) (filesys_bdev_name s) (scratch_bdev_name s) true (user_page_limit s) (echoed s) (performed s)).
Definition set_limit (value : Z) : K unit := fun s =>
  Ok (tt, BootState (b_mem s) (b_rng s) (how s) (format_filesys s) (filesys_bdev_name s) (scratch_bdev_name s) (thread_mlfqs s) value (echoed s) (performed s)).
Definition echo (quoted : bool) (p : Z) : K unit := fun s =>
  Ok (tt, BootState (b_mem s) (b_rng s) (how s) (format_filesys s) (filesys_bdev_name s) (scratch_bdev_name s) (thread_mlfqs s) (user_page_limit s) (echoed s ++ [(quoted, p)]) (performed s)).
Definition perform (a : action) (args : list Z) : K unit := fun s =>
  Ok (tt, BootState (b_mem s) (b_rng s) (how s) (format_filesys s) (filesys_bdev_name s) (scratch_bdev_name s) (thread_mlfqs s) (user_page_limit s) (echoed s) (performed s ++ [(a, args)])).

(** [loader.h]; the last two as the addresses that [ptov] gives. *)
Definition LOADER_END : Z := 32256.
Definition LOADER_SIG : Z := LOADER_END - 2.
Definition LOADER_PARTS : Z := LOADER_SIG - 64.
Definition LOADER_ARGS_LEN : Z := 128.
Definition LOADER_ARGS : Z := LOADER_PARTS - LOADER_ARGS_LEN.
Definition LOADER_ARG_CNT : Z := LOADER_ARGS - 4.
Definition ptov (paddr : Z) : Z := paddr + 3221225472.

Section Boot.
Context (addr : string -> Z) (fuel : nat).

(** ** Reading the command line *)

(** The elements of the static array. *)
Definition ARGV_CNT : Z := LOADER_ARGS_LEN / 2 + 1.

(** The loop over I < ARGC; N arguments are left and ARGV has the ones so far. *)
Fixpoint read_args (n : nat) (p end_ : Z) (argv : list Z) : K (list Z) :=
  match n with
  | O => mret argv
  | S n =>
      if end_ <=? p then fail EPanic else
      if ARGV_CNT <=? Z.of_nat (length argv) then fail EFault else
      len ← on_mem (strnlen fuel p (end_ - p));
      read_args n (p + (len + 1)) end_ (argv ++ [p])
  end.

Fixpoint echo_args (argv : list Z) : K unit :=
  match argv with
  | [] => mret tt
  | p :: argv =>
      space ← on_mem (strchr fuel p 32);
      echo (negb (space =? NULL)) p;;
      echo_args argv
  end.

Definition load_word (p : Z) : B Z :=
  b0 ← load p; b1 ← load (p + 1); b2 ← load (p + 2); b3 ← load (p + 3);
  mret (b0 + 256 * b1 + 65536 * b2 + 16777216 * b3).

Definition read_command_line : K (list Z) :=
  w ← on_mem (load_word (ptov LOADER_ARG_CNT));
  let argc := s32 w in
  let p := ptov LOADER_ARGS in
  let end_ := p + LOADER_ARGS_LEN in
  argv ← read_args (Z.to_nat argc) p end_ [];
  (if (argc <? 0) || (ARGV_CNT <=? argc) then fail EFault else mret tt);;
  echo_args argv;;
  mret (argv ++ [NULL]).

(** ** Options *)

(** [!strcmp (name, literal)]. *)
Definition is_ (name : Z) (literal : string) : K bool :=
  c ← on_mem (strcmp fuel name (addr literal)); mret (c =? 0).

(** The body of the loop: [false] when [usage] powers the machine off. *)
Definition parse_option (arg : Z) : K bool :=
  r ← on_mem (strtok_r fuel arg (addr "=") 0);
  let name := r.1 in
  v ← on_mem (strtok_r fuel NULL (addr "") r.2);
  let value := v.1 in
  h ← is_ name "-h";
  if h : bool then mret false else
  q ← is_ name "-q";
  if q : bool then shutdown_configure SHUTDOWN_POWER_OFF;; mret true else
  r ← is_ name "-r";
  if r : bool then shutdown_configure SHUTDOWN_REBOOT;; mret true else
  f ← is_ name "-f";
  if f : bool then set_format;; mret true else
  fs ← is_ name "-filesys";
  if fs : bool then set_filesys value;; mret true else
  sc ← is_ name "-scratch";
  if sc : bool then set_scratch value;; mret true else
  rs ← is_ name "-rs";
  if rs : bool then seed ← on_mem (atoi fuel value); on_rng (random_init (u32 seed));; mret true else
  mlfqs ← is_ name "-mlfqs";
  if mlfqs : bool then set_mlfqs;; mret true else
  ul ← is_ name "-ul";
  if ul : bool then n ← on_mem (atoi fuel value); set_limit (u32 n);; mret true else
  fail EPanic.

Fixpoint parse_args (n : nat) (argv : list Z) : K (option (list Z)) :=
  match n with
  | O => fail EFuel
  | S n =>
      p ← lift_opt EFault (argv !! 0%nat);
      if p =? NULL then mret (Some argv) else
      c ← on_mem (load p);
      if negb (c =? 45) then mret (Some argv) else
      on ← parse_option p;
      if on : bool then parse_args n (tail argv) else mret None
  end.

(** TIME is what [rtc_get_time] returns; [None] when the machine was powered off. *)
Definition parse_options (time : Z) (argv : list Z) : K (option (list Z)) :=
  r ← parse_args (length argv) argv;
  match r with
  | Some argv => on_rng (random_init (u32 time));; mret (Some argv)
  | None => mret None
  end.

(** ** Actions *)

Definition actions : list (string * nat * action) :=
  [("run", 2%nat, run_task); ("ls", 1%nat, fsutil_ls); ("cat", 2%nat, fsutil_cat); ("rm", 2%nat, fsutil_rm);
   ("extract", 1%nat, fsutil_extract); ("append", 2%nat, fsutil_append)]%string.

Fixpoint find_action (table : list (string * nat * action)) (name : Z) : K (nat * action) :=
  match table with
  | [] => fail EPanic
  | (n, argc, f) :: table => b ← is_ name n; if b : bool then mret (argc, f) else find_action table name
  end.

(** The loop over I from 1 to ARGC. *)
Fixpoint check_args (n i : nat) (argv : list Z) : K unit :=
  match n with
  | O => mret tt
  | S n => p ← lift_opt EFault (argv !! i); if p =? NULL then fail EPanic else check_args n (S i) argv
  end.

Fixpoint run_loop (n : nat) (argv : list Z) : K unit :=
  match n with
  | O => fail EFuel
  | S n =>
      p ← lift_opt EFault (argv !! 0%nat);
      if p =? NULL then mret tt else
      a ← find_action actions p;
      check_args (a.1 - 1) 1 argv;;
      perform a.2 (take a.1 argv);;
      run_loop n (drop a.1 argv)
  end.

Definition run_actions (argv : list Z) : K unit := run_loop (length argv) argv.

(** The part of [main] that handles the command line: [false] when [usage] powered the machine off. *)
Definition main_line (time : Z) : K bool :=
  argv ← read_command_line;
  r ← parse_options time argv;
  match r with
  | Some argv => run_actions argv;; mret true
  | None => mret false
  end.

End Boot.

(** ** Block devices *)

(** The loop over the devices in probe order. *)
Fixpoint first_of_type (n : nat) (role : block_type) (block : Z) : D Z :=
  match n with
  | O => fail EFuel
  | S n =>
      if block =? NULL then mret NULL else
      d ← get_device block;
      if bool_decide (dev_type d = role) then mret block else
      next ← block_next block;
      first_of_type n role next
  end.

(** NAME is the string behind the pointer, if it is not null. *)
Definition locate_block_device (role : block_type) (name : option (list Z)) : D unit :=
  block ← match name with
          | Some name =>
              block ← block_get_by_name name;
              if block =? NULL then fail EPanic else mret block
          | None => first ← block_first; l ← gets all_blocks; first_of_type (S (length l)) role first
          end;
  if negb (block =? NULL) then block_set_role role block else mret tt.

Definition locate_block_devices (filesys_name scratch_name : option (list Z)) : D unit :=
  locate_block_device BLOCK_FILESYS filesys_name;;
  locate_block_device BLOCK_SCRATCH scratch_name.

(** ** What a command line means *)

(** The name of an option and what is behind its first equals sign. *)
Fixpoint cut (s : list Z) : list Z * list Z :=
  match s with
  | [] => ([], [])
  | c :: s => if c =? 61 then ([], s) else (c :: (cut s).1, (cut s).2)
  end.

Definition value_of (rest : list Z) : option (list Z) := match rest with [] => None | _ => Some rest end.

(** The number at the start of a string. *)
Fixpoint skip_spaces (s : list Z) : list Z := match s with c :: s' => if isspace c then skip_spaces s' else s | [] => [] end.
Fixpoint digits (s : list Z) (v : Z) : Z := match s with c :: s => if isdigit c then digits s (s32 (v * 10 - (c - 48))) else v | [] => v end.
Definition atoi_of (s : list Z) : Z :=
  let s := skip_spaces s in
  let c := hd 0 s in
  let v := digits (if (c =? 43) || (c =? 45) then tail s else s) 0 in
  if c =? 45 then v else s32 (- v).

Record options := Options {
  o_how : shutdown_type; o_format : bool; o_filesys : option (list Z); o_scratch : option (list Z); o_mlfqs : bool; o_limit : Z
}.

Inductive step := Go (o : options) | Off | Stops (e : err).

Definition option_spec (a : list Z) (o : options) : step :=
  let name := (cut a).1 in
  let value := value_of (cut a).2 in
  if bool_decide (name = lit "-h") then Off else
  if bool_decide (name = lit "-q") then Go (Options SHUTDOWN_POWER_OFF (o_format o) (o_filesys o) (o_scratch o) (o_mlfqs o) (o_limit o)) else
  if bool_decide (name = lit "-r") then Go (Options SHUTDOWN_REBOOT (o_format o) (o_filesys o) (o_scratch o) (o_mlfqs o) (o_limit o)) else
  if bool_decide (name = lit "-f") then Go (Options (o_how o) true (o_filesys o) (o_scratch o) (o_mlfqs o) (o_limit o)) else
  if bool_decide (name = lit "-filesys") then Go (Options (o_how o) (o_format o) value (o_scratch o) (o_mlfqs o) (o_limit o)) else
  if bool_decide (name = lit "-scratch") then Go (Options (o_how o) (o_format o) (o_filesys o) value (o_mlfqs o) (o_limit o)) else
  if bool_decide (name = lit "-rs") then match value with Some _ => Go o | None => Stops EAssert end else
  if bool_decide (name = lit "-mlfqs") then Go (Options (o_how o) (o_format o) (o_filesys o) (o_scratch o) true (o_limit o)) else
  if bool_decide (name = lit "-ul") then
    match value with Some v => Go (Options (o_how o) (o_format o) (o_filesys o) (o_scratch o) (o_mlfqs o) (u32 (atoi_of v))) | None => Stops EAssert end
  else Stops EPanic.

(** The options in front, and the arguments behind them. *)
Inductive parsed := Parsed (o : options) (rest : list (list Z)) | Help | Failed (e : err).

Fixpoint interpret (args : list (list Z)) (o : options) : parsed :=
  match args with
  | [] => Parsed o []
  | a :: rest =>
      if hd 0 a =? 45 then match option_spec a o with Go o => interpret rest o | Off => Help | Stops e => Failed e end
      else Parsed o args
  end.

(** The actions with their arguments, if all are known and complete. *)
Definition action_spec (name : list Z) : option (nat * action) :=
  option_map (fun x : string * nat * action => (x.1.2, x.2)) (List.find (fun x : string * nat * action => bool_decide (name = lit x.1.1)) actions).

Fixpoint plan (n : nat) (args : list (list Z)) : option (list (action * list (list Z))) :=
  match n, args with
  | _, [] => Some []
  | S n, name :: _ =>
      match action_spec name with
      | Some (argc, f) => if (length args <? argc)%nat then None else option_map (cons (f, take argc args)) (plan n (drop argc args))
      | None => None
      end
  | O, _ => None
  end.

(** ** String functions on the arguments *)

Lemma strcmp_ok m s t a b fuel : cstr m a s -> cstr m b t -> a <> NULL -> b <> NULL -> (length s < fuel)%nat ->
  exists c, strcmp fuel a b m = Ok (c, m) /\ (c =? 0) = bool_decide (s = t).
Proof.
  intros Hs Ht Ha Hb Hf. unfold strcmp. mstep (assert_ptr m a Ha). mstep (assert_ptr m b Hb). destruct (strcmp_loop_ok m s t a b fuel Hs Ht Hf) as (r & E & Hr). exists r. split; [exact E|].
  destruct (Z.eqb_spec r 0); [by rewrite bool_decide_eq_true_2 by tauto|by rewrite bool_decide_eq_false_2 by tauto].
Qed.

(** The first token of a string that starts with one. *)
Lemma strtok_token m d ds p tok rest fuel a save :
  cstr m d ds -> 0 < d -> cstr m p (tok ++ rest) -> 0 < p -> (if a =? NULL then save else a) = p ->
  tok <> [] -> Forall (fun c => c ∉ ds) tok -> match rest with [] => True | c :: _ => c ∈ ds end -> (length tok + S (length ds) < fuel)%nat ->
  strtok_r fuel a d save m =
  match rest with
  | [] => Ok ((p, p + Z.of_nat (length tok)), m)
  | _ => Ok ((p, p + Z.of_nat (length tok) + 1), <[p + Z.of_nat (length tok) := 0]> m)
  end.
Proof.
  intros Hd Hd0 Hs Hp Ha Hne Htok Hrest Hf. unfold strtok_r. rewrite Ha.
  assert (N1 : d <> NULL) by (unfold NULL; lia). assert (N2 : p <> NULL) by (unfold NULL; lia). mstep (assert_ptr m d N1). mstep (assert_ptr m p N2).
  assert (E1 : skip_delimiters fuel p d m = Ok ((Some p, p), m)).
  { pose proof (skip_delimiters_ok m d ds (S (length ds)) Hd Hd0 ltac:(lia) [] p (tok ++ rest) fuel Hs (Forall_nil_2 _)) as E. cbn [length] in E.
    destruct tok as [|c tok]; [done|]. cbn [app] in E. rewrite E; [by rewrite Z.add_0_r|by apply Forall_cons in Htok as [? _]|lia]. }
  mstep E1. mstep (skip_token_ok m d ds (S (length ds)) Hd Hd0 ltac:(lia) tok p rest fuel Hs Htok Hrest ltac:(lia)).
  apply cstr_app in Hs as (_ & Hs & _). destruct rest as [|x rest].
  - apply cstr_nil in Hs. by mstep (load_ok _ _ _ Hs).
  - apply cstr_cons in Hs as (Hx & Hr & _). mstep (load_ok _ _ _ Hx). destruct (Z.eqb_spec x 0); [lia|]. cbn [negb]. by mstep (store_ok _ _ _ 0 Hx ltac:(unfold is_byte; lia)).
Qed.

Lemma strtok_none m d ds p fuel a save : cstr m d ds -> 0 < d -> cstr m p [] -> 0 < p -> (if a =? NULL then save else a) = p -> (S (length ds) < fuel)%nat ->
  strtok_r fuel a d save m = Ok ((NULL, p), m).
Proof.
  intros Hd Hd0 Hs Hp Ha Hf. unfold strtok_r. rewrite Ha.
  assert (N1 : d <> NULL) by (unfold NULL; lia). assert (N2 : p <> NULL) by (unfold NULL; lia). mstep (assert_ptr m d N1). mstep (assert_ptr m p N2).
  mstep (skip_delimiters_ok m d ds (S (length ds)) Hd Hd0 ltac:(lia) [] p [] fuel Hs (Forall_nil_2 _) I ltac:(cbn [length]; lia)). cbn [length]. by rewrite Z.add_0_r.
Qed.

Lemma skip_space_ok m s : forall p fuel, cstr m p s -> (length s < fuel)%nat ->
  exists q, skip_space fuel p m = Ok (q, m) /\ cstr m q (skip_spaces s).
Proof.
  induction s as [|c s IH]; intros p [|fuel] Hs Hf; cbn [length] in Hf; try lia; cbn [skip_space skip_spaces].
  - apply cstr_nil in Hs as H0. mstep (load_ok _ _ _ H0). by exists p.
  - apply cstr_cons in Hs as H0. destruct H0 as (Hc & Hr & Hs'). mstep (load_ok _ _ _ Hc). destruct (isspace c); [|by exists p]. apply IH; [done|lia].
Qed.

Lemma digits_ok m s : forall p v fuel, cstr m p s -> (length s < fuel)%nat -> atoi_digits fuel p v m = Ok (digits s v, m).
Proof.
  induction s as [|c s IH]; intros p v [|fuel] Hs Hf; cbn [length] in Hf; try lia; cbn [atoi_digits digits].
  - apply cstr_nil in Hs. by mstep (load_ok _ _ _ Hs).
  - apply cstr_cons in Hs as (Hc & Hr & Hs). mstep (load_ok _ _ _ Hc). destruct (isdigit c); [|done]. apply IH; [done|lia].
Qed.

Lemma skip_spaces_length s : (length (skip_spaces s) <= length s)%nat.
Proof. induction s as [|c s IH]; cbn [skip_spaces length]; [lia|]. destruct (isspace c); cbn [length]; lia. Qed.

Lemma atoi_ok m p s fuel : cstr m p s -> p <> NULL -> (length s < fuel)%nat -> atoi fuel p m = Ok (atoi_of s, m).
Proof.
  intros Hs Hp Hf. unfold atoi, atoi_of. mstep (assert_ptr m p Hp). destruct (skip_space_ok m s p fuel Hs Hf) as (q & E & Hq). mstep E.
  pose proof (skip_spaces_length s) as Hl. destruct (skip_spaces s) as [|c r] eqn:Er.
  - apply cstr_nil in Hq as Hc. mstep (load_ok _ _ _ Hc). cbn [hd Z.eqb orb]. by mstep (digits_ok m [] q 0 fuel Hq ltac:(cbn; lia)).
  - apply cstr_cons in Hq as Hc. destruct Hc as (Hc & Hr & Hq'). mstep (load_ok _ _ _ Hc). cbn [hd tail length] in *. cbv zeta.
    destruct ((c =? 43) || (c =? 45)); [mstep (digits_ok m r (q + 1) 0 fuel Hq' ltac:(lia))|mstep (digits_ok m (c :: r) q 0 fuel Hq ltac:(cbn; lia))]; by destruct (c =? 45).
Qed.

(** ** The generator forgets its past *)

Definition blank_rng : rng := Rng (seqZ 0 256) 0 0 false.
Definition seeded (seed : Z) : rng := match random_init seed blank_rng with Ok (_, g) => g | Err _ => blank_rng end.

Lemma seed_loop_fields n seed : forall i j l, 0 <= i -> i + Z.of_nat n <= 256 -> l ≡ₚ seqZ 0 256 ->
  exists l', l' ≡ₚ seqZ 0 256 /\ forall a b c, seed_loop n seed i j (Rng l a b c) = Ok (tt, Rng l' a b c).
Proof.
  induction n as [|n IH]; intros i j l Hi Hn Hl; cbn [seed_loop]; [by exists l|].
  destruct (table_lookup l i Hl) as (x & Hx & _); [unfold is_byte; lia|]. set (j' := u8 (j + (x + seed_byte seed i))). destruct (table_lookup l j' Hl (u8_byte _)) as (y & Hy & _).
  destruct (IH (i + 1) j' (<[Z.to_nat j' := x]> (<[Z.to_nat i := y]> l))) as (l' & Hl' & E); [lia|lia|by rewrite Permutation_insert_swap|].
  exists l'. split; [done|]. intros a b c. mstep (s_at_ok (Rng l a b c) i x Hx). cbn zeta. fold j'. mstep (swap_byte_ok (Rng l a b c) i j' x y Hx Hy). apply E.
Qed.

Lemma random_init_seeded seed g : length (s g) = 256%nat -> random_init seed g = Ok (tt, seeded seed) /\ length (s (seeded seed)) = 256%nat.
Proof.
  intros Hl. destruct (seed_loop_fields 256 seed 0 0 (seqZ 0 256)) as (l & Hp & E); [lia|lia|done|].
  assert (H : forall g, length (s g) = 256%nat -> random_init seed g = Ok (tt, Rng l 0 0 true)).
  { intros g' Hg. unfold random_init. erewrite bind_ok; [cbv beta|apply fill_loop_ok; [lia|done|done|lia]]. by mstep (E (s_i g') (s_j g') (inited g')). }
  assert (Hs : seeded seed = Rng l 0 0 true) by (unfold seeded; by rewrite H). rewrite Hs. split; [by apply H|]. by apply wf_length.
Qed.

(** ** The arguments in memory *)

(** ARGS one behind the other from P on, each with its terminator. *)
Fixpoint laid (m : bytes) (p : Z) (args : list (list Z)) : Prop :=
  match args with [] => True | a :: args => cstr m p a /\ laid m (p + Z.of_nat (length a) + 1) args end.

Fixpoint ptrs (p : Z) (args : list (list Z)) : list Z :=
  match args with [] => [] | a :: args => p :: ptrs (p + Z.of_nat (length a) + 1) args end.

Fixpoint size (args : list (list Z)) : Z :=
  match args with [] => 0 | a :: args => Z.of_nat (length a) + 1 + size args end.

Lemma size_nonneg args : 0 <= size args.
Proof. induction args; cbn [size]; lia. Qed.

Lemma laid_agree m m' args : forall p, (forall a, p <= a < p + size args -> m' !! a = m !! a) -> laid m p args -> laid m' p args.
Proof.
  induction args as [|a args IH]; intros p Hm; cbn [laid size] in *; [done|]. intros [Ha Hl]. pose proof (size_nonneg args). split.
  - eapply cstr_agree; [|exact Ha]. intros b Hb. apply Hm. lia.
  - apply IH; [|done]. intros b Hb. apply Hm. lia.
Qed.

Lemma ptrs_length p args : length (ptrs p args) = length args.
Proof. revert p. induction args as [|a args IH]; intros p; cbn; [done|]. by rewrite IH. Qed.

Lemma laid_Forall2 m args : forall p, laid m p args -> Forall2 (cstr m) (ptrs p args) args.
Proof. induction args as [|a args IH]; intros p; cbn [laid ptrs]; [by constructor|]. intros [Ha Hl]. constructor; [done|by apply IH]. Qed.

Lemma ptrs_drop n : forall p args, exists q, drop n (ptrs p args) = ptrs q (drop n args) /\ p <= q /\ q + size (drop n args) <= p + size args /\ forall m, laid m p args -> laid m q (drop n args).
Proof.
  induction n as [|n IH]; intros p args; [exists p; rewrite !drop_0; split; [done|]; split; [lia|]; split; [lia|done]|].
  destruct args as [|a args]; [exists p; cbn; split; [done|]; split; [lia|]; split; [lia|done]|].
  destruct (IH (p + Z.of_nat (length a) + 1) args) as (q & E & H1 & H2 & H3). exists q. cbn [drop ptrs size laid]. split; [done|]. split; [lia|]. split; [lia|]. intros m [_ H]. by apply H3.
Qed.

Definition set_mem (m : bytes) (s : boot) : boot :=
  BootState m (b_rng s) (how s) (format_filesys s) (filesys_bdev_name s) (scratch_bdev_name s) (thread_mlfqs s) (user_page_limit s) (echoed s) (performed s).

Lemma on_mem_ok {A} (c : B A) s a m : c (b_mem s) = Ok (a, m) -> on_mem c s = Ok (a, set_mem m s).
Proof. intros H. unfold on_mem. by rewrite H. Qed.

Lemma on_mem_same {A} (c : B A) s a : c (b_mem s) = Ok (a, b_mem s) -> on_mem c s = Ok (a, s).
Proof. intros H. rewrite (on_mem_ok _ _ _ _ H). by destruct s. Qed.

(** The literals of the code lie outside the arguments. *)
Definition literals : list string :=
  ["="; ""; "-h"; "-q"; "-r"; "-f"; "-filesys"; "-scratch"; "-rs"; "-mlfqs"; "-ul"; "run"; "ls"; "cat"; "rm"; "extract"; "append"]%string.

Ltac lit_in := unfold literals; rewrite !elem_of_cons; tauto.

Definition args_start : Z := ptov LOADER_ARGS.
Definition args_end : Z := ptov LOADER_ARGS + LOADER_ARGS_LEN.

Lemma cut_ok (a : list Z) : Forall (fun c => c ∉ [61]) (cut a).1 /\ (a = (cut a).1 /\ (cut a).2 = [] \/ a = (cut a).1 ++ 61 :: (cut a).2).
Proof.
  induction a as [|c a [H1 H2]]; cbn [cut]; [by split; [constructor|left]|]. destruct (Z.eqb_spec c 61) as [->|Hne]; cbn [fst snd]; [by split; [constructor|right]|].
  split; [constructor; [by rewrite list_elem_of_singleton|done]|]. destruct H2 as [[E ->]|E]; [left|right]; rewrite E at 1; done.
Qed.

(** A name that an option set, in memory below HI; no name is the null pointer. *)
Definition name_at (m : bytes) (hi p : Z) (v : option (list Z)) : Prop :=
  match v with None => p = NULL | Some v => cstr m p v /\ args_start <= p /\ p + Z.of_nat (length v) < hi end.

Lemma name_agree m m' hi hi' p v : (forall a, args_start <= a < hi -> m' !! a = m !! a) -> hi <= hi' -> name_at m hi p v -> name_at m' hi' p v.
Proof.
  intros Hm Hh. destruct v as [v|]; [|done]. intros (H1 & H2 & H3). split; [|split; [done|lia]]. eapply cstr_agree; [|exact H1]. intros b Hb. apply Hm. lia.
Qed.

Definition rel (s : boot) (o : options) (hi : Z) : Prop :=
  how s = o_how o /\ format_filesys s = o_format o /\ name_at (b_mem s) hi (filesys_bdev_name s) (o_filesys o) /\
  name_at (b_mem s) hi (scratch_bdev_name s) (o_scratch o) /\ thread_mlfqs s = o_mlfqs o /\ user_page_limit s = o_limit o.

Definition kept (s s' : boot) : Prop := echoed s' = echoed s /\ performed s' = performed s /\ length (Random.s (b_rng s')) = 256%nat.

Section Line.
Context (addr : string -> Z) (fuel : nat).

Definition lits_ok (m : bytes) : Prop := Forall (fun l => 0 < addr l /\ cstr m (addr l) (lit l) /\ (addr l + Z.of_nat (length (lit l)) < args_start \/ args_end <= addr l)) literals.

Lemma lits_at m l : lits_ok m -> l ∈ literals -> 0 < addr l /\ cstr m (addr l) (lit l) /\ (addr l + Z.of_nat (length (lit l)) < args_start \/ args_end <= addr l).
Proof using Type. intros H. apply (proj1 (Forall_forall _ _) H). Qed.

Lemma lits_agree m m' : (forall a, a < args_start \/ args_end <= a -> m' !! a = m !! a) -> lits_ok m -> lits_ok m'.
Proof using Type.
  intros Hm H. eapply Forall_impl; [exact H|]. intros l (H1 & H2 & H3). split; [done|]. split; [|done]. eapply cstr_agree; [|exact H2]. intros b Hb. apply Hm. lia.
Qed.

Context (Hfuel : (200 <= fuel)%nat).

Lemma is_ok s p name l : lits_ok (b_mem s) -> l ∈ literals -> cstr (b_mem s) p name -> p <> NULL -> (length name < 200)%nat -> is_ addr fuel p l s = Ok (bool_decide (name = lit l), s).
Proof using Hfuel.
  intros Hl Hin Hn Hp Hlen. destruct (lits_at _ _ Hl Hin) as (H1 & H2 & _). unfold is_.
  destruct (strcmp_ok (b_mem s) name (lit l) p (addr l) fuel Hn H2 Hp) as (c & E & Hc); [unfold NULL; lia|lia|]. mstep (on_mem_same _ _ _ E). by rewrite Hc.
Qed.

(** ** Reading *)

Lemma read_args_ok s args : forall p old, laid (b_mem s) p args -> p + size args <= args_end -> args_start <= p -> (length old + length args <= 64)%nat ->
  read_args fuel (length args) p args_end old s = Ok (old ++ ptrs p args, s).
Proof using Hfuel.
  induction args as [|a args IH]; intros p old Hl Hs Hp Hn; cbn [length read_args ptrs laid size] in *; [by rewrite app_nil_r|]. destruct Hl as [Ha Hl]. pose proof (size_nonneg args).
  rewrite (proj2 (Z.leb_gt _ _)) by lia. change ARGV_CNT with 65. rewrite (proj2 (Z.leb_gt _ _)) by lia.
  assert (E : strnlen fuel p (args_end - p) (b_mem s) = Ok (Z.of_nat (length a), b_mem s)).
  { apply (strnlen_loop_ok (b_mem s) p a 0 fuel (args_end - p)); [by rewrite Z.add_0_r|lia|]. unfold args_start, args_end, ptov, LOADER_ARGS, LOADER_ARGS_LEN in *. lia. }
  mstep (on_mem_same _ _ _ E). rewrite Z.add_assoc. rewrite IH; [by rewrite <- app_assoc|done|lia|lia|rewrite length_app; cbn; lia].
Qed.

Definition add_echoed (l : list (bool * Z)) (s : boot) : boot :=
  BootState (b_mem s) (b_rng s) (how s) (format_filesys s) (filesys_bdev_name s) (scratch_bdev_name s) (thread_mlfqs s) (user_page_limit s) (echoed s ++ l) (performed s).

Definition quoted (args : list (list Z)) : list bool := map (fun a => bool_decide (32 ∈ a)) args.

Lemma echo_args_ok args : forall p s, laid (b_mem s) p args -> 0 < p -> size args <= 200 -> echo_args fuel (ptrs p args) s = Ok (tt, add_echoed (zip (quoted args) (ptrs p args)) s).
Proof using Hfuel.
  induction args as [|a args IH]; intros p s Hl Hp Hs; cbn [ptrs echo_args laid size quoted map zip zip_with] in *.
  { unfold add_echoed. rewrite app_nil_r. by destruct s. }
  destruct Hl as [Ha Hl]. pose proof (size_nonneg args). destruct (strchr_in (b_mem s) p a 32 fuel Ha Hp) as (r & E & Hr); [lia|unfold is_byte; lia|].
  mstep (on_mem_same _ _ _ E). unfold not_null in Hr. rewrite Hr. rewrite (bind_ok _ _ _ tt (add_echoed [(bool_decide (32 ∈ a), p)] s)).
  2:{ unfold echo, add_echoed. do 4 f_equal. do 2 f_equal. apply bool_decide_ext. split; [by intros [|]|by right]. }
  cbv beta. rewrite IH; [|done|lia|lia]. unfold add_echoed. cbn [b_mem b_rng how format_filesys filesys_bdev_name scratch_bdev_name thread_mlfqs user_page_limit echoed performed]. by rewrite <- app_assoc.
Qed.

(** ** Options *)

(** The two calls of [strtok_r]. *)
Lemma option_cut m p a : lits_ok m -> cstr m p a -> (cut a).1 <> [] -> args_start <= p -> p + Z.of_nat (length a) < args_end ->
  exists m1 sv vp sv', strtok_r fuel p (addr "=") 0 m = Ok ((p, sv), m1) /\ strtok_r fuel NULL (addr "") sv m1 = Ok ((vp, sv'), m1) /\
    cstr m1 p (cut a).1 /\ name_at m1 (p + Z.of_nat (length a) + 1) vp (value_of (cut a).2) /\ same_but p (Z.of_nat (length a)) m m1.
Proof using Hfuel.
  intros Hl Ha Hne Hp He. destruct (cut_ok a) as [Hn Hc]. set (name := (cut a).1) in *. set (rest := (cut a).2) in *.
  destruct (lits_at m "=" Hl) as (D1 & D2 & _); [lit_in|]. destruct (lits_at m "" Hl) as (E1 & E2 & E3); [lit_in|].
  assert (Hsm : args_start = 3221257534 /\ args_end = 3221257662) by done. destruct Hsm as [As Ae].
  assert (Hlen : (length a < 128)%nat) by lia. destruct Hc as [[Ea Hr]|Ea].
  - assert (Hs : cstr m p (name ++ [])) by (by rewrite app_nil_r, <- Ea). rewrite Ea in Hlen, He |- *.
    pose proof (strtok_token m (addr "=") (lit "=") p name [] fuel p 0 D2 D1 Hs ltac:(lia)) as T. rewrite (proj2 (Z.eqb_neq p NULL)) in T by (unfold NULL; lia).
    specialize (T eq_refl Hne Hn I ltac:(cbn [lit length]; lia)). apply cstr_app in Hs as (_ & Hs & _).
    eexists m, _, NULL, _. split; [exact T|]. split; [apply (strtok_none m (addr "") (lit "")); [done|done|done|lia|done|cbn; lia]|]. rewrite Hr. split; [by rewrite <- Ea|]. split; [done|]. intros b _. done.
  - assert (Hs : cstr m p (name ++ 61 :: rest)) by (by rewrite <- Ea). assert (Hla : length a = (length name + S (length rest))%nat) by (rewrite Ea, length_app; done).
    pose proof (strtok_token m (addr "=") (lit "=") p name (61 :: rest) fuel p 0 D2 D1 Hs ltac:(lia)) as T. rewrite (proj2 (Z.eqb_neq p NULL)) in T by (unfold NULL; lia).
    specialize (T eq_refl Hne Hn ltac:(cbn; by left) ltac:(cbn [lit length]; lia)). apply cstr_app in Hs as (Hs1 & Hs2 & Hs3). apply cstr_cons in Hs2 as (_ & _ & Hs2).
    set (z := p + Z.of_nat (length name)) in *. set (m1 := <[z := 0]> m).
    assert (C2 : cstr m1 (z + 1) rest) by (eapply cstr_agree; [|exact Hs2]; intros b Hb; apply lookup_insert_ne; lia).
    assert (E2' : cstr m1 (addr "") (lit "")) by (eapply cstr_agree; [|exact E2]; intros b Hb; apply lookup_insert_ne; cbn [lit length] in *; lia).
    assert (C1 : cstr m1 p name).
    { split; [|done]. rewrite bytes_at_app. split; [eapply bytes_at_agree; [|exact Hs1]; intros b Hb; apply lookup_insert_ne; lia|]. split; [apply lookup_insert_eq|done]. }
    assert (SB : same_but p (Z.of_nat (length a)) m m1) by (intros b Hb; apply lookup_insert_ne; lia).
    destruct rest as [|c rest'] eqn:Er.
    + eexists m1, _, NULL, _. split; [exact T|]. split; [apply (strtok_none m1 (addr "") (lit "") (z + 1)); [done|done|done|lia|done|cbn; lia]|]. done.
    + assert (Hs' : cstr m1 (z + 1) ((c :: rest') ++ [])) by (by rewrite app_nil_r).
      pose proof (strtok_token m1 (addr "") (lit "") (z + 1) (c :: rest') [] fuel NULL (z + 1) E2' E1 Hs' ltac:(lia) eq_refl ltac:(done) ltac:(apply Forall_forall; intros x _; apply not_elem_of_nil) I ltac:(cbn [lit length] in *; lia)) as T2.
      eexists m1, _, (z + 1), _. split; [exact T|]. split; [exact T2|]. split; [done|]. split; [|done]. cbn [value_of name_at]. split; [done|]. split; lia.
Qed.

Lemma rel_agree s m1 o p hi : rel s o p -> same_but p (hi - p) (b_mem s) m1 -> p <= hi -> rel (set_mem m1 s) o hi.
Proof using Type.
  clear. intros (R1 & R2 & R3 & R4 & R5 & R6) Hm Hh. assert (Ha : forall a, args_start <= a < p -> m1 !! a = b_mem s !! a) by (intros a Ha; apply Hm; lia).
  unfold rel. cbn [set_mem how format_filesys filesys_bdev_name scratch_bdev_name thread_mlfqs user_page_limit b_mem].
  split; [done|]. split; [done|]. split; [by apply (name_agree (b_mem s) _ p)|]. split; [by apply (name_agree (b_mem s) _ p)|]. done.
Qed.

Lemma parse_option_ok s o p a : lits_ok (b_mem s) -> cstr (b_mem s) p a -> (cut a).1 <> [] -> args_start <= p -> p + Z.of_nat (length a) < args_end ->
  rel s o p -> length (Random.s (b_rng s)) = 256%nat ->
  match option_spec a o with
  | Go o' => exists s', parse_option addr fuel p s = Ok (true, s') /\ rel s' o' (p + Z.of_nat (length a) + 1) /\ same_but p (Z.of_nat (length a)) (b_mem s) (b_mem s') /\ kept s s'
  | Off => exists s', parse_option addr fuel p s = Ok (false, s') /\ kept s s'
  | Stops e => parse_option addr fuel p s = Err e
  end.
Proof using Hfuel.
  intros Hl Ha Hne Hp He Hr Hg. destruct (option_cut (b_mem s) p a Hl Ha Hne Hp He) as (m1 & sv & vp & sv' & T1 & T2 & Hn & Hv & Hm).
  set (s1 := set_mem m1 s). assert (Hl1 : lits_ok (b_mem s1)) by (eapply lits_agree; [|exact Hl]; intros b Hb; apply Hm; lia).
  assert (Hr1 : rel s1 o (p + Z.of_nat (length a) + 1)).
  { apply (rel_agree s m1 o p); [done| |lia]. intros b Hb. apply Hm. lia. }
  assert (Hlen : (length (cut a).1 < 200)%nat).
  { assert (length (cut a).1 <= length a)%nat by (destruct (cut_ok a) as [_ [[E _]|E]]; rewrite E at 2; rewrite ?length_app; lia). assert (args_end - args_start = 128) by done. lia. }
  assert (Hp0 : p <> NULL) by (assert (args_start = 3221257534) by done; unfold NULL; lia).
  assert (Hk : kept s s1) by done.
  unfold parse_option, option_spec. mstep (on_mem_ok _ s _ _ T1). mstep (on_mem_ok _ s1 _ _ T2). cbn [fst snd]. change (set_mem m1 s1) with s1.
  set (name := (cut a).1) in *. set (rest := (cut a).2) in *. destruct Hr1 as (R1 & R2 & R3 & R4 & R5 & R6).
  mstep (is_ok s1 p name "-h" Hl1 ltac:(lit_in) Hn Hp0 Hlen). case_bool_decide; [eexists; split; [reflexivity|exact Hk]|].
  mstep (is_ok s1 p name "-q" Hl1 ltac:(lit_in) Hn Hp0 Hlen). case_bool_decide; [eexists; split; [reflexivity|]; done|].
  mstep (is_ok s1 p name "-r" Hl1 ltac:(lit_in) Hn Hp0 Hlen). case_bool_decide; [eexists; split; [reflexivity|]; done|].
  mstep (is_ok s1 p name "-f" Hl1 ltac:(lit_in) Hn Hp0 Hlen). case_bool_decide; [eexists; split; [reflexivity|]; done|].
  mstep (is_ok s1 p name "-filesys" Hl1 ltac:(lit_in) Hn Hp0 Hlen). case_bool_decide; [eexists; split; [reflexivity|]; done|].
  mstep (is_ok s1 p name "-scratch" Hl1 ltac:(lit_in) Hn Hp0 Hlen). case_bool_decide; [eexists; split; [reflexivity|]; done|].
  assert (Hvalue : match value_of rest with Some v => atoi fuel vp m1 = Ok (atoi_of v, m1) | None => atoi fuel vp m1 = Err EAssert end).
  { destruct (value_of rest) as [v|]; cbn [name_at] in Hv; [|rewrite Hv; apply bind_err, ASSERT_false; done]. destruct Hv as (V1 & V2 & V3). assert (args_start = 3221257534 /\ args_end = 3221257662) as [As Ae] by done.
    apply atoi_ok; [done|unfold NULL; lia|lia]. }
  mstep (is_ok s1 p name "-rs" Hl1 ltac:(lit_in) Hn Hp0 Hlen). case_bool_decide.
  { destruct (value_of rest) as [v|]; [|apply bind_err; unfold on_mem; change (b_mem s1) with m1; by rewrite Hvalue].
    mstep (on_mem_ok _ s1 _ _ Hvalue). change (set_mem m1 s1) with s1. destruct (random_init_seeded (u32 (atoi_of v)) (b_rng s1) Hg) as [Ei Hi].
    eexists. split; [unfold on_rng, mbind, M_bind; rewrite Ei; reflexivity|]. split; [exact (conj R1 (conj R2 (conj R3 (conj R4 (conj R5 R6)))))|]. split; [exact Hm|]. split; [reflexivity|]. split; [reflexivity|exact Hi]. }
  mstep (is_ok s1 p name "-mlfqs" Hl1 ltac:(lit_in) Hn Hp0 Hlen). case_bool_decide; [eexists; split; [reflexivity|]; done|].
  mstep (is_ok s1 p name "-ul" Hl1 ltac:(lit_in) Hn Hp0 Hlen). case_bool_decide; [|done].
  destruct (value_of rest) as [v|]; [|apply bind_err; unfold on_mem; change (b_mem s1) with m1; by rewrite Hvalue].
  mstep (on_mem_ok _ s1 _ _ Hvalue). change (set_mem m1 s1) with s1. eexists. split; [reflexivity|]. done.
Qed.

Lemma cut_dash a : hd 0 a = 45 -> (cut a).1 <> [].
Proof using Type. destruct a as [|c a]; cbn [hd cut]; [done|]. by intros ->. Qed.

Lemma parse_args_ok args : forall n s o p, lits_ok (b_mem s) -> laid (b_mem s) p args -> args_start <= p -> p + size args <= args_end -> rel s o p ->
  length (Random.s (b_rng s)) = 256%nat -> (length args < n)%nat ->
  match interpret args o with
  | Parsed o' rest => exists s' q, parse_args addr fuel n (ptrs p args ++ [NULL]) s = Ok (Some (ptrs q rest ++ [NULL]), s') /\ laid (b_mem s') q rest /\ rel s' o' q /\ kept s s' /\
      args_start <= q /\ q + size rest <= args_end /\ lits_ok (b_mem s')
  | Help => exists s', parse_args addr fuel n (ptrs p args ++ [NULL]) s = Ok (None, s') /\ kept s s'
  | Failed e => parse_args addr fuel n (ptrs p args ++ [NULL]) s = Err e
  end.
Proof using Hfuel.
  induction args as [|a args IH]; intros [|n] s o p Hl Hd Hp He Hr Hg Hn; cbn [length] in Hn; try lia; cbn [interpret ptrs app parse_args laid size] in *.
  { rewrite (bind_ok _ _ _ NULL s) by done. cbv beta. rewrite Z.eqb_refl. exists s, p. cbn [ptrs app]. repeat (split; [done|]). done. }
  destruct Hd as [Ha Hd]. pose proof (size_nonneg args) as Hsz. assert (Hp0 : p <> NULL) by (assert (args_start = 3221257534) by done; unfold NULL; lia).
  rewrite (bind_ok _ _ _ p s) by done. cbv beta. rewrite (proj2 (Z.eqb_neq _ _) Hp0).
  assert (El : load p (b_mem s) = Ok (hd 0 a, b_mem s)) by (destruct a as [|c a]; [apply cstr_nil in Ha|apply cstr_cons in Ha as (Ha & _)]; by rewrite (load_ok _ _ _ Ha)).
  mstep (on_mem_same _ _ _ El). destruct (Z.eqb_spec (hd 0 a) 45) as [E45|Hne]; cbn [negb].
  - pose proof (parse_option_ok s o p a Hl Ha (cut_dash a E45) Hp ltac:(lia) Hr Hg) as H. destruct (option_spec a o) as [o'| |e].
    + destruct H as (s1 & E1 & R1 & M1 & K1). mstep E1. cbn [tail].
      assert (Hl1 : lits_ok (b_mem s1)) by (eapply lits_agree; [|exact Hl]; intros b Hb; apply M1; lia).
      assert (Hd1 : laid (b_mem s1) (p + Z.of_nat (length a) + 1) args) by (eapply laid_agree; [|exact Hd]; intros b Hb; apply M1; lia).
      destruct K1 as (K1 & K2 & K3). specialize (IH n s1 o' (p + Z.of_nat (length a) + 1) Hl1 Hd1 ltac:(lia) ltac:(lia) R1 K3 ltac:(lia)).
      destruct (interpret args o'); [| |exact IH].
      2:{ destruct IH as (s' & E & H3 & H4 & H5). exists s'. split; [exact E|]. split; [congruence|split; [congruence|done]]. }
      destruct IH as (s' & q & E & H1 & H2 & (H3 & H4 & H5) & H6). exists s', q. split; [exact E|]. split; [done|]. split; [done|]. split; [split; [congruence|split; [congruence|done]]|done].
    + destruct H as (s1 & E1 & K1). mstep E1. by eexists.
    + by apply bind_err.
  - exists s, p. cbn [ptrs app laid size]. split; [done|]. split; [done|]. split; [done|]. split; [done|]. split; [done|]. split; [lia|done].
Qed.

(** ** Actions *)

Lemma find_action_ok s p name table : lits_ok (b_mem s) -> Forall (fun x : string * nat * action => x.1.1 ∈ literals) table -> cstr (b_mem s) p name -> p <> NULL -> (length name < 200)%nat ->
  find_action addr fuel table p s =
  match List.find (fun x : string * nat * action => bool_decide (name = lit x.1.1)) table with Some x => Ok ((x.1.2, x.2), s) | None => Err EPanic end.
Proof using Hfuel.
  intros Hl Ht Hn Hp Hlen. induction Ht as [|[[l argc] f] table Hin Ht IH]; cbn [find_action List.find fst snd]; [done|].
  mstep (is_ok s p name l Hl Hin Hn Hp Hlen). by destruct (bool_decide (name = lit l)).
Qed.

Lemma actions_literals : Forall (fun x : string * nat * action => x.1.1 ∈ literals) actions.
Proof using Type. unfold actions. repeat (apply Forall_cons_2; [cbn [fst]; lit_in|]). apply Forall_nil_2. Qed.

Lemma check_args_ok s p args : 0 < p -> forall n i, (0 < i)%nat -> (i <= length args)%nat ->
  check_args n i (ptrs p args ++ [NULL]) s = if (i + n <=? length args)%nat then Ok (tt, s) else Err EPanic.
Proof using Type.
  clear. intros Hp. induction n as [|n IH]; intros i Hi Hl; cbn [check_args]; [by rewrite Nat.add_0_r, (proj2 (Nat.leb_le _ _) Hl)|].
  destruct (decide (i < length args)%nat) as [Hlt|Hge].
  - destruct (lookup_lt_is_Some_2 (ptrs p args) i) as [q Hq]; [by rewrite ptrs_length|]. rewrite (bind_ok _ _ _ q s) by (by rewrite lookup_app_l, Hq by (by rewrite ptrs_length)). cbv beta.
    assert (Hq0 : 0 < q). { clear - Hq Hp. revert p i Hp Hq. induction args as [|a args IH]; intros p i Hp Hq; [done|]. destruct i; cbn in Hq; [by injection Hq as <-|]. apply (IH (p + Z.of_nat (length a) + 1) i); [lia|done]. }
    destruct (Z.eqb_spec q NULL); [unfold NULL in *; lia|]. rewrite IH by lia. by replace (S i + n)%nat with (i + S n)%nat by lia.
  - assert (i = length args) as -> by lia. rewrite (bind_ok _ _ _ NULL s) by (rewrite lookup_app_r, ptrs_length, Nat.sub_diag by (by rewrite ptrs_length); done). cbv beta.
    rewrite Z.eqb_refl. destruct (Nat.leb_spec (length args + S n) (length args)); [lia|done].
Qed.

Definition add_performed (l : list (action * list Z)) (s : boot) : boot :=
  BootState (b_mem s) (b_rng s) (how s) (format_filesys s) (filesys_bdev_name s) (scratch_bdev_name s) (thread_mlfqs s) (user_page_limit s) (echoed s) (performed s ++ l).

(** The calls, as pointers and as strings. *)
Definition same_calls (m : bytes) (log : list (action * list Z)) (acts : list (action * list (list Z))) : Prop :=
  Forall2 (fun x y => x.1 = y.1 /\ Forall2 (cstr m) x.2 y.2) log acts.

Lemma action_spec_argc name argc f : action_spec name = Some (argc, f) -> (1 <= argc <= 2)%nat.
Proof using Type.
  clear. unfold action_spec. destruct (List.find _ actions) as [x|] eqn:E; [|done]. cbn [option_map]. intros [= <- <-]. apply List.find_some in E as [Hin _].
  unfold actions in Hin. cbn [In] in Hin. repeat (destruct Hin as [<-|Hin]; [cbn; lia|]). done.
Qed.

Lemma run_loop_ok n : forall args s q k, laid (b_mem s) q args -> lits_ok (b_mem s) -> args_start <= q -> q + size args <= args_end -> (length args < n)%nat -> (length args <= k)%nat ->
  match plan k args with
  | Some acts => exists log, run_loop addr fuel n (ptrs q args ++ [NULL]) s = Ok (tt, add_performed log s) /\ same_calls (b_mem s) log acts
  | None => run_loop addr fuel n (ptrs q args ++ [NULL]) s = Err EPanic
  end.
Proof using Hfuel.
  induction n as [|n IH]; intros args s q k Hd Hl Hq He Hn Hk; [lia|]. destruct args as [|name args].
  { assert (Ep : plan k [] = Some []) by (by destruct k). rewrite Ep. exists []. cbn [ptrs app run_loop]. rewrite (bind_ok _ _ _ NULL s) by done. cbv beta. rewrite Z.eqb_refl.
    split; [|constructor]. unfold add_performed. rewrite app_nil_r. by destruct s. }
  destruct k as [|k]; cbn [length] in Hk; [lia|]. cbn [plan]. assert (As : args_start = 3221257534 /\ args_end = 3221257662) by done. destruct As as [As Ae].
  pose proof Hd as [Ha Hd']. cbn [size] in He. pose proof (size_nonneg args) as Hsz. assert (Hq0 : q <> NULL) by (unfold NULL; lia).
  cbn [run_loop]. rewrite (bind_ok _ _ _ q s) by done. cbv beta. rewrite (proj2 (Z.eqb_neq _ _) Hq0).
  pose proof (find_action_ok s q name actions Hl actions_literals Ha Hq0 ltac:(lia)) as Ef.
  pose proof (action_spec_argc name) as Hargc. unfold action_spec in *. destruct (List.find _ actions) as [[[l argc] f]|]; cbn [option_map fst snd] in *; [|by apply bind_err].
  specialize (Hargc argc f eq_refl). mstep Ef. cbn [fst snd]. set (all := name :: args) in *.
  pose proof (check_args_ok s q all ltac:(lia) (argc - 1) 1 ltac:(lia) ltac:(cbn; lia)) as Ec. replace (1 + (argc - 1))%nat with argc in Ec by lia.
  destruct (Nat.ltb_spec (length all) argc) as [Hlt|Hge].
  { destruct (Nat.leb_spec argc (length all)); [lia|]. by apply bind_err. }
  rewrite (proj2 (Nat.leb_le _ _) Hge) in Ec. mstep Ec.
  destruct (ptrs_drop argc q all) as (q' & E1 & E2 & E3 & E4).
  rewrite take_app_le, drop_app_le by (rewrite ptrs_length; lia). rewrite E1.
  set (s1 := add_performed [(f, take argc (ptrs q all))] s). rewrite (bind_ok _ _ _ tt s1) by done. cbv beta.
  assert (Hlen : (length (drop argc all) < n)%nat) by (rewrite length_drop; cbn [all length] in *; lia).
  assert (Hlen' : (length (drop argc all) <= k)%nat) by (rewrite length_drop; cbn [all length] in *; lia).
  specialize (IH (drop argc all) s1 q' k (E4 _ Hd) Hl ltac:(lia) ltac:(cbn [all size] in E3; lia) Hlen Hlen').
  destruct (plan k (drop argc all)) as [acts|]; cbn [option_map]; [|exact IH]. destruct IH as (log & E & Hs). exists ((f, take argc (ptrs q all)) :: log). split.
  - rewrite E. unfold add_performed. cbn [b_mem b_rng how format_filesys filesys_bdev_name scratch_bdev_name thread_mlfqs user_page_limit echoed performed s1 add_performed]. by rewrite <- app_assoc.
  - constructor; [|exact Hs]. cbn [fst snd]. split; [done|]. apply Forall2_take, laid_Forall2. exact Hd.
Qed.

(** ** The whole line *)

(** The variables before the line is read. *)
Definition start (m : bytes) (g : rng) : boot := BootState m g SHUTDOWN_NONE false NULL NULL false 4294967295 [] [].
Definition defaults : options := Options SHUTDOWN_NONE false None None false 4294967295.

Lemma load_word_ok m p n : bytes_at m p [n; 0; 0; 0] -> load_word p m = Ok (n, m).
Proof using Type.
  clear. intros (H0 & H1 & H2 & H3 & _). unfold load_word. mstep (load_ok _ _ _ H0). mstep (load_ok _ _ _ H1).
  replace (p + 1 + 1) with (p + 2) in * by lia. mstep (load_ok _ _ _ H2). replace (p + 2 + 1) with (p + 3) in * by lia. mstep (load_ok _ _ _ H3). unfold mret, M_ret. do 2 f_equal. lia.
Qed.

Lemma read_command_line_ok s args : bytes_at (b_mem s) (args_start - 4) [Z.of_nat (length args); 0; 0; 0] -> laid (b_mem s) args_start args -> size args <= 128 -> (length args <= 64)%nat ->
  read_command_line fuel s = Ok (ptrs args_start args ++ [NULL], add_echoed (zip (quoted args) (ptrs args_start args)) s).
Proof using Hfuel.
  intros Hc Hl Hs Hn. unfold read_command_line. assert (Ew : load_word (ptov LOADER_ARG_CNT) (b_mem s) = Ok (Z.of_nat (length args), b_mem s)) by (by apply load_word_ok).
  mstep (on_mem_same _ _ _ Ew). cbv zeta. rewrite s32_small by lia. rewrite Nat2Z.id.
  assert (As : args_start = 3221257534 /\ args_end = 3221257662) by done. destruct As as [As Ae].
  pose proof (read_args_ok s args args_start [] Hl ltac:(lia) ltac:(lia) ltac:(cbn; lia)) as E. change (ptov LOADER_ARGS + LOADER_ARGS_LEN) with args_end. change (ptov LOADER_ARGS) with args_start. mstep E.
  change ARGV_CNT with 65. destruct (Z.ltb_spec (Z.of_nat (length args)) 0); [lia|]. destruct (Z.leb_spec 65 (Z.of_nat (length args))); [lia|]. cbn [orb app].
  rewrite (bind_ok _ _ _ tt s) by done. cbv beta. by mstep (echo_args_ok args args_start s Hl ltac:(lia) ltac:(lia)).
Qed.

(** C16: the command line that the loader left is carried out as written: the options set what they
    name, up to the first argument without a dash, the actions are called in order, each with its own arguments, and [-h] powers
    the machine off before anything is done.  An unknown option or action and a missing
    argument stop the kernel, and so does [-rs] or [-ul] without a value.  Whatever [-rs] asks for, the generator is left seeded with the time of day. *)
Theorem command_line_correct m g time args : lits_ok m -> length (Random.s g) = 256%nat ->
  bytes_at m (args_start - 4) [Z.of_nat (length args); 0; 0; 0] -> laid m args_start args -> size args <= 128 -> (length args <= 64)%nat ->
  match interpret args defaults with
  | Help => exists s', main_line addr fuel time (start m g) = Ok (false, s') /\ performed s' = []
  | Failed e => main_line addr fuel time (start m g) = Err e
  | Parsed o rest =>
      match plan (length rest) rest with
      | Some acts => exists s', main_line addr fuel time (start m g) = Ok (true, s') /\ rel s' o args_end /\ b_rng s' = seeded (u32 time) /\
          echoed s' = zip (quoted args) (ptrs args_start args) /\ same_calls (b_mem s') (performed s') acts
      | None => main_line addr fuel time (start m g) = Err EPanic
      end
  end.
Proof using Hfuel.
  intros Hlit Hg Hc Hl Hs Hn. unfold main_line. mstep (read_command_line_ok (start m g) args Hc Hl Hs Hn). set (s1 := add_echoed _ _).
  unfold parse_options. rewrite length_app, ptrs_length. cbn [length].
  pose proof (parse_args_ok args (length args + 1) s1 defaults args_start Hlit Hl ltac:(lia)) as H.
  assert (As : args_start = 3221257534 /\ args_end = 3221257662) by done. destruct As as [As Ae].
  specialize (H ltac:(lia) ltac:(done) Hg ltac:(lia)). destruct (interpret args defaults) as [o rest| |e].
  - destruct H as (s2 & q & E2 & L2 & R2 & (K1 & K2 & K3) & Q1 & Q2 & T2). rewrite !bind_assoc. mstep E2. destruct (random_init_seeded (u32 time) (b_rng s2) K3) as [Ei _].
    set (s3 := BootState (b_mem s2) (seeded (u32 time)) (how s2) (format_filesys s2) (filesys_bdev_name s2) (scratch_bdev_name s2) (thread_mlfqs s2) (user_page_limit s2) (echoed s2) (performed s2)).
    rewrite !bind_assoc. rewrite (bind_ok _ _ _ tt s3) by (unfold on_rng; by rewrite Ei). cbv beta. rewrite (bind_ok _ _ _ (Some (ptrs q rest ++ [NULL])) s3) by done. cbv beta iota.
    unfold run_actions. rewrite length_app, ptrs_length. cbn [length].
    pose proof (run_loop_ok (length rest + 1) rest s3 q (length rest) L2 T2 Q1 Q2 ltac:(lia) ltac:(lia)) as Hr. destruct (plan (length rest) rest) as [acts|]; [|by apply bind_err].
    destruct Hr as (log & E & Hsame). exists (add_performed log s3). split; [by mstep E|]. split.
    + destruct R2 as (R1 & R2 & R3 & R4 & R5 & R6). pose proof (size_nonneg rest). split; [exact R1|]. split; [exact R2|].
      split; [apply (name_agree (b_mem s2) _ q); [done|lia|exact R3]|]. split; [apply (name_agree (b_mem s2) _ q); [done|lia|exact R4]|]. split; [exact R5|exact R6].
    + split; [reflexivity|]. split; [exact K1|]. cbn [add_performed performed b_mem s3]. rewrite K2. exact Hsame.
  - destruct H as (s2 & E2 & K1 & K2 & K3). rewrite !bind_assoc. mstep E2. rewrite (bind_ok _ _ _ None s2) by done. exists s2. split; [done|exact K2].
  - rewrite !bind_assoc. by apply bind_err.
Qed.

End Line.

(** ** A command line *)

Fixpoint check_bytes (m : bytes) (p : Z) (bs : list Z) : bool :=
  match bs with [] => true | b :: bs => bool_decide (m !! p = Some b) && check_bytes m (p + 1) bs end.

Lemma check_bytes_ok m bs : forall p, check_bytes m p bs = true -> bytes_at m p bs.
Proof. induction bs as [|b bs IH]; intros p; cbn; [done|]. intros [H1%bool_decide_eq_true H2]%andb_true_iff. split; [done|by apply IH]. Qed.

Definition check_cstr (m : bytes) (p : Z) (s : list Z) : bool := check_bytes m p (s ++ [0]) && forallb (fun c => (0 <? c) && (c <? 256)) s.

Lemma check_cstr_ok m p s : check_cstr m p s = true -> cstr m p s.
Proof.
  intros [H1 H2]%andb_true_iff. split; [by apply check_bytes_ok|]. apply List.Forall_forall. intros c Hc. pose proof (proj1 (forallb_forall _ _) H2 c Hc) as H. cbv beta in H. lia.
Qed.

Fixpoint position (l : string) (ls : list string) : Z := match ls with [] => 0 | x :: ls => if String.eqb l x then 0 else 1 + position l ls end.
Definition demo_addr (l : string) : Z := 1000 + 16 * position l literals.

Definition demo_args : list (list Z) := map lit ["-q"; "-rs=5"; "-filesys=hdb1"; "run"; "echo x"; "ls"]%string.

Definition demo_mem : bytes :=
  foldr (fun l m => write m (demo_addr l) (lit l ++ [0])) (write ∅ (args_start - 4) ([6; 0; 0; 0] ++ concat (map (fun a => a ++ [0]) demo_args))) literals.

Definition check_lits (m : bytes) : bool :=
  forallb (fun l => (0 <? demo_addr l) && check_cstr m (demo_addr l) (lit l) && (demo_addr l + Z.of_nat (length (lit l)) <? args_start)) literals.

Lemma check_lits_ok m : check_lits m = true -> lits_ok demo_addr m.
Proof.
  intros H. apply List.Forall_forall. intros l Hl. pose proof (proj1 (forallb_forall _ _) H l Hl) as Hq. cbv beta in Hq. apply andb_true_iff in Hq as [[Hq1 Hq2]%andb_true_iff Hq3].
  split; [lia|]. split; [by apply check_cstr_ok|]. left. lia.
Qed.

Fixpoint check_laid (m : bytes) (p : Z) (args : list (list Z)) : bool :=
  match args with [] => true | a :: args => check_cstr m p a && check_laid m (p + Z.of_nat (length a) + 1) args end.

Lemma check_laid_ok m args : forall p, check_laid m p args = true -> laid m p args.
Proof. induction args as [|a args IH]; intros p; cbn [check_laid laid]; [done|]. intros [H1 H2]%andb_true_iff. split; [by apply check_cstr_ok|by apply IH]. Qed.

(** Two actions run, the machine is to power off behind them, and the seed is the time, 77, instead of 5. *)
Lemma command_line_correct_witness : exists s',
  main_line demo_addr 200 77 (start demo_mem (Rng (repeat 0 256) 0 0 false)) = Ok (true, s') /\ how s' = SHUTDOWN_POWER_OFF /\
  name_at (b_mem s') args_end (filesys_bdev_name s') (Some (lit "hdb1")) /\ b_rng s' = seeded 77 /\
  same_calls (b_mem s') (performed s') [(run_task, [lit "run"; lit "echo x"]); (fsutil_ls, [lit "ls"])].
Proof.
  assert (H1 : lits_ok demo_addr demo_mem) by (apply check_lits_ok; vm_compute; reflexivity).
  assert (H2 : bytes_at demo_mem (args_start - 4) [Z.of_nat (length demo_args); 0; 0; 0]) by (apply check_bytes_ok; vm_compute; reflexivity).
  assert (H3 : laid demo_mem args_start demo_args) by (apply check_laid_ok; vm_compute; reflexivity).
  assert (H4 : size demo_args <= 128) by (vm_compute; discriminate).
  assert (H5 : (length demo_args <= 64)%nat) by (cbn; lia).
  pose proof (command_line_correct demo_addr 200 ltac:(lia) demo_mem (Rng (repeat 0 256) 0 0 false) 77 demo_args H1 ltac:(reflexivity) H2 H3 H4 H5) as H.
  assert (Ei : interpret demo_args defaults = Parsed (Options SHUTDOWN_POWER_OFF false (Some (lit "hdb1")) None false 4294967295) [lit "run"; lit "echo x"; lit "ls"]) by (vm_compute; reflexivity).
  rewrite Ei in H.
  assert (Ep : plan (length [lit "run"; lit "echo x"; lit "ls"]) [lit "run"; lit "echo x"; lit "ls"] = Some [(run_task, [lit "run"; lit "echo x"]); (fsutil_ls, [lit "ls"])]) by (vm_compute; reflexivity).
  rewrite Ep in H. destruct H as (s' & E & (R1 & _ & R3 & _) & Hr & _ & Hs). exists s'. split; [exact E|]. split; [exact R1|]. split; [exact R3|]. split; [exact Hr|exact Hs].
Defined.

(** ** The devices of the roles *)

(** The first device in probe order with a property. *)
Definition first_device (f : device -> bool) (r : registry) : option Z :=
  List.find (fun b => match devices r !! b with Some d => f d | None => false end) (all_blocks r).

Definition registry_ok (r : registry) : Prop :=
  NoDup (all_blocks r) /\ Forall (fun b => b <> NULL /\ is_Some (devices r !! b)) (all_blocks r).

(** What the comment of [locate_block_device] asks for: the device of that name if there is a name, otherwise the first of the type. *)
Definition chosen (role : block_type) (name : option (list Z)) (r : registry) : option Z :=
  match name with
  | Some name => first_device (fun d => bool_decide (name = dev_name d)) r
  | None => first_device (fun d => bool_decide (dev_type d = role)) r
  end.

Definition with_role (role : block_type) (b : Z) (r : registry) : registry :=
  Registry (devices r) (all_blocks r) (<[Z.to_nat (role_index role) := b]> (block_by_role r)) (disks r) (heap r).

Lemma find_name_ok r name l : Forall (fun b => b <> NULL /\ is_Some (devices r !! b)) l ->
  find_name name l r = Ok (default NULL (List.find (fun b => match devices r !! b with Some d => bool_decide (name = dev_name d) | None => false end) l), r).
Proof.
  induction 1 as [|b l (Hb & d & Hd) Hl IH]; cbn [find_name List.find]; [done|]. rewrite (bind_ok _ _ _ d r) by (unfold get_device; by rewrite Hd). cbv beta. rewrite Hd.
  by destruct (bool_decide (name = dev_name d)).
Qed.

Lemma next_in_app pre b l : NoDup (pre ++ b :: l) -> next_in (pre ++ b :: l) b = default NULL (hd_error l).
Proof.
  induction pre as [|a pre IH]; intros Hn; cbn [app] in *.
  - destruct l as [|c l]; [done|]. cbn [next_in]. by rewrite Z.eqb_refl.
  - apply NoDup_cons in Hn as [Ha Hn]. assert (a <> b) by (intros ->; apply Ha; set_solver). rewrite <- (IH Hn).
    destruct (pre ++ b :: l) as [|c l'] eqn:E; [by destruct pre|]. cbn [next_in]. by rewrite (proj2 (Z.eqb_neq a b)).
Qed.

Lemma first_of_type_ok r role l : forall pre n, all_blocks r = pre ++ l -> registry_ok r -> (length l < n)%nat ->
  first_of_type n role (default NULL (hd_error l)) r =
  Ok (default NULL (List.find (fun b => match devices r !! b with Some d => bool_decide (dev_type d = role) | None => false end) l), r).
Proof.
  induction l as [|b l IH]; intros pre [|n] El Hr Hn; cbn [length] in Hn; try lia; cbn [first_of_type hd_error default List.find]; [done|].
  pose proof Hr as [Hd Hf]. rewrite El in Hd, Hf. apply Forall_app in Hf as [_ Hf]. apply Forall_cons in Hf as [(Hb & d & Hdev) Hf].
  cbn. rewrite (proj2 (Z.eqb_neq _ _) Hb). rewrite (bind_ok _ _ _ d r) by (unfold get_device; by rewrite Hdev). cbv beta. rewrite Hdev.
  destruct (bool_decide (dev_type d = role)); [done|].
  rewrite (bind_ok _ _ _ (default NULL (hd_error l)) r) by (unfold block_next, gets; by rewrite El, next_in_app). cbv beta.
  apply (IH (pre ++ [b])); [by rewrite <- app_assoc|done|lia].
Qed.

Lemma first_device_nonnull r f b : registry_ok r -> first_device f r = Some b -> b <> NULL.
Proof. intros [_ Hf] H. apply List.find_some in H as [Hin _]. by apply (proj1 (List.Forall_forall _ _) Hf). Qed.

Lemma locate_ok role name r : registry_ok r -> role_index role < 4 ->
  locate_block_device role name r =
  match chosen role name r with
  | Some b => Ok (tt, with_role role b r)
  | None => match name with Some _ => Err EPanic | None => Ok (tt, r) end
  end.
Proof.
  intros Hr Hi. unfold locate_block_device, chosen. assert (Hset : forall b, block_set_role role b r = Ok (tt, with_role role b r)).
  { intros b. unfold block_set_role. rewrite (bind_ok _ _ _ tt r) by (apply ASSERT_true; unfold BLOCK_ROLE_CNT; lia). done. }
  destruct name as [name|].
  - rewrite bind_assoc. rewrite (bind_ok _ _ _ (default NULL (first_device (fun d => bool_decide (name = dev_name d)) r)) r).
    2:{ unfold block_get_by_name. rewrite (bind_ok _ _ _ (all_blocks r) r) by done. cbv beta. by rewrite (find_name_ok r name (all_blocks r) (proj2 Hr)). }
    cbv beta. pose proof (first_device_nonnull r (fun d => bool_decide (name = dev_name d))) as Hnn. destruct (first_device _ r) as [b|]; cbn [default]; [|done]. specialize (Hnn b Hr eq_refl).
    cbn. rewrite (proj2 (Z.eqb_neq _ _) Hnn). rewrite (bind_ok _ _ _ b r) by done. cbv beta. rewrite (proj2 (Z.eqb_neq _ _) Hnn). apply Hset.
  - rewrite (bind_ok _ _ _ (default NULL (first_device (fun d => bool_decide (dev_type d = role)) r)) r).
    2:{ rewrite (bind_ok _ _ _ (default NULL (hd_error (all_blocks r))) r) by done. cbv beta. rewrite (bind_ok _ _ _ (all_blocks r) r) by done. cbv beta.
        by rewrite (first_of_type_ok r role (all_blocks r) [] (S (length (all_blocks r))) eq_refl Hr (Nat.lt_succ_diag_r _)). }
    cbv beta. pose proof (first_device_nonnull r (fun d => bool_decide (dev_type d = role))) as Hnn. destruct (first_device _ r) as [b|]; cbn; [|done]. rewrite (proj2 (Z.eqb_neq _ _) (Hnn b Hr eq_refl)). apply Hset.
Qed.

Definition missing (role : block_type) (name : option (list Z)) (r : registry) : bool :=
  match name, chosen role name r with Some _, None => true | _, _ => false end.

(** the file system and the scratch role go to the devices that the options name, or without an option to the
    first device of that type in probe order; without such a device the role stays as it was, other roles never
    change, and a name that no device has stops the kernel. *)
Theorem locate_block_devices_correct fs sc r roles : registry_ok r -> block_by_role r = roles -> length roles = 4%nat ->
  if missing BLOCK_FILESYS fs r || missing BLOCK_SCRATCH sc r then locate_block_devices fs sc r = Err EPanic
  else exists r', locate_block_devices fs sc r = Ok (tt, r') /\ devices r' = devices r /\ all_blocks r' = all_blocks r /\
    (forall b, chosen BLOCK_FILESYS fs r = Some b -> block_get_role BLOCK_FILESYS r' = Ok (b, r')) /\
    (forall b, chosen BLOCK_SCRATCH sc r = Some b -> block_get_role BLOCK_SCRATCH r' = Ok (b, r')) /\
    forall i x, roles !! i = Some x -> (i = 1%nat -> chosen BLOCK_FILESYS fs r = None) -> (i = 2%nat -> chosen BLOCK_SCRATCH sc r = None) -> block_by_role r' !! i = Some x.
Proof.
  intros Hr Hroles Hlen. unfold locate_block_devices, missing. pose proof (locate_ok BLOCK_FILESYS fs r Hr eq_refl) as E1.
  destruct roles as [|x0 [|x1 [|x2 [|x3 [|]]]]]; try discriminate Hlen. clear Hlen.
  assert (Hc : forall b, chosen BLOCK_SCRATCH sc (with_role BLOCK_FILESYS b r) = chosen BLOCK_SCRATCH sc r) by (intros b; by destruct sc).
  assert (E2 : forall b, locate_block_device BLOCK_SCRATCH sc (with_role BLOCK_FILESYS b r) = match chosen BLOCK_SCRATCH sc r with
    | Some c => Ok (tt, with_role BLOCK_SCRATCH c (with_role BLOCK_FILESYS b r)) | None => match sc with Some _ => Err EPanic | None => Ok (tt, with_role BLOCK_FILESYS b r) end end).
  { intros b. rewrite <- (Hc b). by apply locate_ok. }
  pose proof (locate_ok BLOCK_SCRATCH sc r Hr eq_refl) as E3.
  assert (F : forall r', devices r' = devices r -> all_blocks r' = all_blocks r ->
    block_by_role r' = [x0; default x1 (chosen BLOCK_FILESYS fs r); default x2 (chosen BLOCK_SCRATCH sc r); x3] ->
    devices r' = devices r /\ all_blocks r' = all_blocks r /\ (forall b, chosen BLOCK_FILESYS fs r = Some b -> block_get_role BLOCK_FILESYS r' = Ok (b, r')) /\
    (forall b, chosen BLOCK_SCRATCH sc r = Some b -> block_get_role BLOCK_SCRATCH r' = Ok (b, r')) /\
    forall i x, [x0; x1; x2; x3] !! i = Some x -> (i = 1%nat -> chosen BLOCK_FILESYS fs r = None) -> (i = 2%nat -> chosen BLOCK_SCRATCH sc r = None) -> block_by_role r' !! i = Some x).
  { intros r' D1 D2 D3. split; [done|]. split; [done|]. split; [|split].
    - intros b Hb. unfold block_get_role. rewrite (bind_ok _ _ _ tt r') by done. cbv beta. rewrite (bind_ok _ _ _ (block_by_role r') r') by done. cbv beta. by rewrite D3, Hb.
    - intros b Hb. unfold block_get_role. rewrite (bind_ok _ _ _ tt r') by done. cbv beta. rewrite (bind_ok _ _ _ (block_by_role r') r') by done. cbv beta. by rewrite D3, Hb.
    - intros i x Hi H1 H2. rewrite D3. destruct i as [|[|[|i]]]; [done|by rewrite (H1 eq_refl)|by rewrite (H2 eq_refl)|done]. }
  destruct (chosen BLOCK_FILESYS fs r) as [b|] eqn:Eb; destruct (chosen BLOCK_SCRATCH sc r) as [c|] eqn:Ec; destruct fs, sc; rewrite ?Eb, ?Ec; cbv beta iota delta [orb]; try (by apply bind_err); mstep E1; rewrite ?E2, ?E3.
  all: try done.
  all: eexists; split; [reflexivity|]; apply F; [done|done|]; cbn [with_role block_by_role]; by rewrite Hroles.
Qed.

Definition demo_registry : registry :=
  Registry {[100 := Device (lit "hda") BLOCK_RAW 64 (ide_operations 1) 0 0; 101 := Device (lit "hda1") BLOCK_FILESYS 32 (partition_operations 100 1) 0 0;
             102 := Device (lit "hdb1") BLOCK_FILESYS 32 (partition_operations 100 33) 0 0]} [100; 101; 102] [0; 0; 0; 0] ∅ [].

Lemma demo_registry_ok : registry_ok demo_registry.
Proof.
  split; [apply (bool_decide_eq_true_1 _); vm_compute; reflexivity|]. repeat (apply Forall_cons_2; [split; [done|eexists; vm_compute; reflexivity]|]). apply Forall_nil_2.
Qed.

(** The second file system partition is named, and there is no scratch device. *)
Lemma locate_block_devices_correct_witness : exists r',
  locate_block_devices (Some (lit "hdb1")) None demo_registry = Ok (tt, r') /\ block_get_role BLOCK_FILESYS r' = Ok (102, r') /\ block_by_role r' !! 2%nat = Some 0.
Proof.
  pose proof (locate_block_devices_correct (Some (lit "hdb1")) None demo_registry [0; 0; 0; 0] demo_registry_ok eq_refl eq_refl) as H.
  assert (E : missing BLOCK_FILESYS (Some (lit "hdb1")) demo_registry || missing BLOCK_SCRATCH None demo_registry = false) by (vm_compute; reflexivity).
  rewrite E in H. destruct H as (r' & H1 & _ & _ & H2 & _ & H3). exists r'. split; [exact H1|]. split; [apply H2; vm_compute; reflexivity|].
  apply H3; [reflexivity|discriminate|intros _; vm_compute; reflexivity].
Defined.
