(* ===== verification/Serial.v ===== *)
(** * The serial port and the input buffer: [devices/serial.c] and [devices/input.c]

    The UART is a parameter: its state HW with what the instructions on its
    ports do.  [UartLaws] is what the driver relies on, from the data sheet of the 16550A:
    which register a port is, that a byte written to an empty transmitter is sent,
    and that the transmitter empties after a while.  The state of the driver has the two interrupt
    queues of [Intq], the interrupt flag and the vectors of [Descr].  A call is split where its thread
    leaves the processor, as in [Intq]: [None] says that it sleeps, and the [_rest] functions are the part behind. *)

From Stdlib Require Import Strings.String.
From S2P Require Import Prelude ListModel Bytes Bitmap Descr Intq IntqProps.

Class Uart (hw : Type) := { inb : Z -> hw -> Z * hw; outb : Z -> Z -> hw -> hw }.

Definition IO_BASE : Z := 1016.
Definition RBR_REG : Z := IO_BASE + 0.
Definition THR_REG : Z := IO_BASE + 0.
Definition IER_REG : Z := IO_BASE + 1.
Definition LS_REG : Z := IO_BASE + 0.
Definition MS_REG : Z := IO_BASE + 1.
Definition IIR_REG : Z := IO_BASE + 2.
Definition FCR_REG : Z := IO_BASE + 2.
Definition LCR_REG : Z := IO_BASE + 3.
Definition MCR_REG : Z := IO_BASE + 4.
Definition LSR_REG : Z := IO_BASE + 5.
Definition IER_RECV : Z := 1.
Definition IER_XMIT : Z := 2.
Definition LCR_N81 : Z := 3.
Definition LCR_DLAB : Z := 128.
Definition MCR_OUT2 : Z := 8.
Definition LSR_DR : Z := 1.
Definition LSR_THRE : Z := 32.

Inductive tx_mode := UNINIT | POLL | QUEUE.

#[export] Instance tx_mode_eq_dec : EqDecision tx_mode.
Proof. solve_decision. Defined.

(** The static variables of both files, the interrupt flag of the processor,
    the interrupt vectors and the UART.  The queues see the flag [off]; their own is unused. *)
Record serial (hw : Type) := Serial { mode : tx_mode; txq : st; buffer : st; off : bool; ints : intr; port : hw }.
Arguments Serial {hw} _ _ _ _ _ _.
Arguments mode {hw} _.
Arguments txq {hw} _.
Arguments buffer {hw} _.
Arguments off {hw} _.
Arguments ints {hw} _.
Arguments port {hw} _.

Definition at_level (b : bool) (x : st) : st := St (q x) (holder x) (pcs x) b.

Section Driver.
Context {hw : Type} `{!Uart hw}.

Abbreviation D := (M (serial hw)).

Definition with_mode (m : tx_mode) (s : serial hw) : serial hw := Serial m (txq s) (buffer s) (off s) (ints s) (port s).
Definition with_txq (x : st) (s : serial hw) : serial hw := Serial (mode s) x (buffer s) (off s) (ints s) (port s).
Definition with_buffer (x : st) (s : serial hw) : serial hw := Serial (mode s) (txq s) x (off s) (ints s) (port s).
Definition with_off (b : bool) (s : serial hw) : serial hw := Serial (mode s) (txq s) (buffer s) b (ints s) (port s).
Definition with_ints (i : intr) (s : serial hw) : serial hw := Serial (mode s) (txq s) (buffer s) (off s) i (port s).
Definition with_port (h : hw) (s : serial hw) : serial hw := Serial (mode s) (txq s) (buffer s) (off s) (ints s) h.

Definition update (f : serial hw -> serial hw) : D unit := fun s => Ok (tt, f s).

(** A call on one of the queues. *)
Definition on_txq {A} (c : M st A) : D A := fun s =>
  match c (at_level (off s) (txq s)) with Ok (a, x) => Ok (a, with_txq (at_level true x) s) | Err e => Err e end.
Definition on_buffer {A} (c : M st A) : D A := fun s =>
  match c (at_level (off s) (buffer s)) with Ok (a, x) => Ok (a, with_buffer (at_level true x) s) | Err e => Err e end.

Definition out (p v : Z) : D unit := update (fun s => with_port (outb p (u8 v) (port s)) s).
Definition in_ (p : Z) : D Z := fun s => let r := inb p (port s) in Ok (r.1, with_port r.2 s).

(** The level before, true for [INTR_OFF]. *)
Definition intr_disable : D bool := old ← gets off; update (with_off true);; mret old.
Definition intr_set_level (b : bool) : D unit := update (with_off b).
Definition assert_intr_off : D unit := b ← gets off; ASSERT b.

(** ** The input buffer *)

Definition input_init : D unit := on_buffer (fun x => Ok (tt, intq_init x)).

Definition input_full : D bool := assert_intr_off;; on_buffer intq_full.

(** ** The port *)

Definition write_ier : D unit :=
  assert_intr_off;;
  e ← on_txq intq_empty;
  let ier := if negb e then Z.lor 0 IER_XMIT else 0 in
  f ← input_full;
  let ier := if negb f then Z.lor ier IER_RECV else ier in
  out IER_REG ier.

Fixpoint poll_loop (fuel : nat) : D unit :=
  match fuel with
  | O => fail EFuel
  | S fuel => x ← in_ LSR_REG; if Z.land x LSR_THRE =? 0 then poll_loop fuel else mret tt
  end.

Definition putc_poll (fuel : nat) (byte : Z) : D unit :=
  assert_intr_off;;
  poll_loop fuel;;
  out THR_REG byte.

Definition set_serial (bps : Z) : D unit :=
  let base_rate := 1843200 / 16 in
  (if bps =? 0 then fail ETrap else mret tt);;
  let divisor := Z.quot base_rate bps mod 65536 in
  ASSERT ((300 <=? bps) && (bps <=? 115200));;
  out LCR_REG (Z.lor LCR_N81 LCR_DLAB);;
  out LS_REG (Z.land divisor 255);;
  out MS_REG (Z.shiftr divisor 8);;
  out LCR_REG LCR_N81.

Definition init_poll : D unit :=
  m ← gets mode;
  ASSERT (bool_decide (m = UNINIT));;
  out IER_REG 0;;
  out FCR_REG 0;;
  set_serial 9600;;
  out MCR_REG MCR_OUT2;;
  on_txq (fun x => Ok (tt, intq_init x));;
  update (with_mode POLL).

Definition register_serial (stubs : Z -> Z) (handler : Z) : D unit := fun s =>
  match intr_register_ext stubs (32 + 4) handler "serial"%string (ints s) with
  | Ok (_, i) => Ok (tt, with_ints i s)
  | Err e => Err e
  end.

(** [serial_interrupt] has the address HANDLER. *)
Definition serial_init_queue (stubs : Z -> Z) (handler : Z) : D unit :=
  m ← gets mode;
  (if bool_decide (m = UNINIT) then init_poll else mret tt);;
  m ← gets mode;
  ASSERT (bool_decide (m = POLL));;
  register_serial stubs handler;;
  update (with_mode QUEUE);;
  old_level ← intr_disable;
  write_ier;;
  intr_set_level old_level.

(** [k] behind a call that may have made the thread sleep. *)
Definition unless_asleep {A B} (r : option A) (k : A -> D (option B)) : D (option B) :=
  match r with Some a => k a | None => mret None end.

(** By a thread or an interrupt handler C. *)
Definition serial_putc (fuel : nat) (c : context) (byte : Z) : D (option unit) :=
  old_level ← intr_disable;
  m ← gets mode;
  r ← (if negb (bool_decide (m = QUEUE)) then
         (if bool_decide (m = UNINIT) then init_poll else mret tt);;
         putc_poll fuel byte;;
         mret (Some tt)
       else
         f ← (if (old_level : bool) then on_txq intq_full else mret false);
         r ← (if (f : bool) then r ← on_txq (intq_getc c); unless_asleep r (fun b => putc_poll fuel b;; mret (Some tt))
              else mret (Some tt));
         unless_asleep r (fun _ =>
           r ← on_txq (intq_putc c byte);
           unless_asleep r (fun _ => write_ier;; mret (Some tt))));
  unless_asleep r (fun _ => intr_set_level old_level;; mret (Some tt)).

(** A thread T goes on in the [intq_putc] of a call that began at OLD_LEVEL. *)
Definition serial_putc_rest (t : Z) (old_level : bool) : D event :=
  e ← on_txq (resume t);
  match e with
  | Slept => mret Slept
  | e => write_ier;; intr_set_level old_level;; mret e
  end.

(** [intq_getc] does not sleep here, the queue is not empty. *)
Fixpoint flush_loop (n fuel : nat) (c : context) : D unit :=
  match n with
  | O => fail EFuel
  | S n =>
      e ← on_txq intq_empty;
      if negb e then
        r ← on_txq (intq_getc c);
        match r with Some b => putc_poll fuel b;; flush_loop n fuel c | None => fail EFuel end
      else mret tt
  end.

Definition serial_flush (fuel : nat) (c : context) : D unit :=
  old_level ← intr_disable;
  flush_loop fuel fuel c;;
  intr_set_level old_level.

Definition serial_notify : D unit :=
  assert_intr_off;;
  m ← gets mode;
  if bool_decide (m = QUEUE) then write_ier else mret tt.

Definition input_putc (key : Z) : D unit :=
  assert_intr_off;;
  f ← on_buffer intq_full;
  ASSERT (negb f);;
  on_buffer (intq_putc Interrupt key);;
  serial_notify.

Definition input_getc (t : Z) : D (option Z) :=
  old_level ← intr_disable;
  r ← on_buffer (intq_getc (Thread t));
  unless_asleep r (fun key => serial_notify;; intr_set_level old_level;; mret (Some key)).

Definition input_getc_rest (t : Z) (old_level : bool) : D event :=
  e ← on_buffer (resume t);
  match e with
  | Slept => mret Slept
  | e => serial_notify;; intr_set_level old_level;; mret e
  end.

Fixpoint receive_loop (fuel : nat) : D unit :=
  match fuel with
  | O => fail EFuel
  | S fuel =>
      f ← input_full;
      if negb f then
        x ← in_ LSR_REG;
        if negb (Z.land x LSR_DR =? 0) then b ← in_ RBR_REG; input_putc b;; receive_loop fuel else mret tt
      else mret tt
  end.

Fixpoint transmit_loop (fuel : nat) : D unit :=
  match fuel with
  | O => fail EFuel
  | S fuel =>
      e ← on_txq intq_empty;
      if negb e then
        x ← in_ LSR_REG;
        if negb (Z.land x LSR_THRE =? 0) then
          r ← on_txq (intq_getc Interrupt);
          match r with Some b => out THR_REG b;; transmit_loop fuel | None => fail EFuel end
        else mret tt
      else mret tt
  end.

Definition serial_interrupt (fuel : nat) : D unit :=
  in_ IIR_REG;;
  receive_loop fuel;;
  transmit_loop fuel;;
  write_ier.

End Driver.

(** ** The UART *)

(** What was sent and what was read from the receiver, and the registers. *)
Record uview := UView { sent : list Z; taken : list Z; ier : Z; lcr : Z; divisor : Z }.

Definition dlab (v : uview) : bool := Z.testbit (lcr v) 7.

(** [busy] bounds how often the status register still reports a full transmitter. *)
Class UartLaws (hw : Type) `{!Uart hw} (view : hw -> uview) (ready has_data : hw -> bool) (busy : hw -> nat) (busy_max : nat) : Prop := {
  busy_bound h : (busy h <= busy_max)%nat;
  out_lcr h v : 0 <= v < 256 -> view (outb LCR_REG v h) = UView (sent (view h)) (taken (view h)) (ier (view h)) v (divisor (view h));
  out_ctl h p v : p = FCR_REG \/ p = MCR_REG -> 0 <= v < 256 -> view (outb p v h) = view h;
  out_latch h v : dlab (view h) = true -> 0 <= v < 256 ->
    view (outb LS_REG v h) = UView (sent (view h)) (taken (view h)) (ier (view h)) (lcr (view h)) (divisor (view h) / 256 * 256 + v);
  out_thr h v : dlab (view h) = false -> ready h = true -> 0 <= v < 256 ->
    view (outb THR_REG v h) = UView (sent (view h) ++ [v]) (taken (view h)) (ier (view h)) (lcr (view h)) (divisor (view h));
  out_ier h v : 0 <= v < 256 -> view (outb IER_REG v h) =
    if dlab (view h) then UView (sent (view h)) (taken (view h)) (ier (view h)) (lcr (view h)) (divisor (view h) mod 256 + 256 * v)
    else UView (sent (view h)) (taken (view h)) v (lcr (view h)) (divisor (view h));
  out_ready h v : ready h = true -> dlab (view h) = false -> ready (outb IER_REG v h) = true;
  in_status h p : p = IIR_REG \/ p = LSR_REG -> view (inb p h).2 = view h;
  in_ready h p : ready h = true -> ready (inb p h).2 = true;
  in_lsr h : Z.testbit (inb LSR_REG h).1 5 = ready (inb LSR_REG h).2 /\ Z.testbit (inb LSR_REG h).1 0 = has_data (inb LSR_REG h).2 /\
    (ready (inb LSR_REG h).2 = false -> (busy (inb LSR_REG h).2 < busy h)%nat);
  in_rbr h : dlab (view h) = false -> has_data h = true ->
    view (inb RBR_REG h).2 = UView (sent (view h)) (taken (view h) ++ [(inb RBR_REG h).1]) (ier (view h)) (lcr (view h)) (divisor (view h))
}.

(** ** Who sleeps on which queue *)

(** Every call that is open on a queue is of the kind F. *)
Definition kinds (f : pc -> bool) (x : st) : Prop := forall t p, pcs x !! t = Some p -> f p = true.

Definition is_put (p : pc) : bool := match p with Put_lock _ | Put_wait _ | Put_woken _ | Put_released _ => true | _ => false end.
Definition is_get (p : pc) : bool := negb (is_put p).

Section Kinds.
Context (f : pc -> bool) (Hf : forall p, f (woken p) = f p).

Lemma kinds_set_q g : keeps (kinds f) (set_q g).
Proof using. intros s a s' Hs H. by injection H as _ <-. Qed.

Lemma kinds_set_holder h : keeps (kinds f) (set_holder h).
Proof using. intros s a s' Hs H. by injection H as _ <-. Qed.

Lemma kinds_set_pc t p : f p = true -> keeps (kinds f) (set_pc t p).
Proof using.
  intros Hp s a s' Hs H. injection H as _ <-. intros u p' Hu. cbn [pcs] in Hu.
  apply lookup_insert_Some in Hu as [[_ <-]|[_ Hu]]; [done|by apply (Hs u)].
Qed.

Lemma kinds_clear_pc t : keeps (kinds f) (clear_pc t).
Proof using. intros s a s' Hs H. injection H as _ <-. intros u p' Hu. cbn [pcs] in Hu. apply lookup_delete_Some in Hu as [_ Hu]. by apply (Hs u). Qed.

Lemma kinds_release t : keeps (kinds f) (lock_release t).
Proof using.
  unfold lock_release. apply keeps_bind; [apply keeps_gets|intros h]. apply keeps_bind; [apply keeps_assert|intros _]. apply kinds_set_holder.
Qed.

Lemma kinds_unblock t : keeps (kinds f) (thread_unblock t).
Proof using Hf.
  intros s a s' Hs H. unfold thread_unblock in H.
  destruct (pcs s !! t) as [[]|] eqn:E; try done; eapply kinds_set_pc; try exact H; try done; pose proof (Hs t _ E) as Hp; by rewrite <- Hf in Hp.
Qed.

#[local] Hint Resolve keeps_bind keeps_ret keeps_gets keeps_fail keeps_assert keeps_lift_opt kinds_set_q kinds_set_holder kinds_set_pc kinds_clear_pc kinds_unblock : keeps.

Lemma kinds_signal w : keeps (kinds f) (signal w).
Proof using Hf.
  unfold signal, condition, intq_full, intq_empty, assert_off.
  destruct w; repeat (apply keeps_bind; intros); auto with keeps; destruct (negb _); auto with keeps.
Qed.

#[local] Hint Resolve kinds_signal : keeps.

Lemma kinds_take : keeps (kinds f) take_byte.
Proof using Hf. unfold take_byte. repeat first [solve [auto with keeps]|apply keeps_bind; intros]. Qed.

Lemma kinds_add b : keeps (kinds f) (add_byte b).
Proof using Hf. unfold add_byte. repeat first [solve [auto with keeps]|apply keeps_bind; intros]. Qed.

Lemma kinds_acquire {A} t P w p : f P = true -> f p = true -> keeps (kinds f) (lock_acquire t P (wait t w p;; mret (@None A))).
Proof using Hf.
  intros HP Hp. unfold lock_acquire, wait, condition, intq_full, intq_empty, assert_off.
  apply keeps_bind; [auto with keeps|intros h]. destruct (h =? NULL); destruct w; repeat first [solve [auto with keeps]|apply keeps_bind; intros].
Qed.

#[local] Hint Resolve kinds_take kinds_add kinds_acquire : keeps.

Lemma kinds_getc c : f Get_lock = true -> f Get_wait = true -> keeps (kinds f) (intq_getc c).
Proof using Hf.
  intros H1 H2. unfold intq_getc, intq_empty, assert_off. repeat (apply keeps_bind; intros); auto with keeps.
  destruct a0; [|auto with keeps]. apply keeps_bind; [auto with keeps|intros _]. destruct c; [|auto with keeps]. by apply kinds_acquire.
Qed.

Lemma kinds_putc c b : f (Put_lock b) = true -> f (Put_wait b) = true -> keeps (kinds f) (intq_putc c b).
Proof using Hf.
  intros H1 H2. unfold intq_putc, intq_full, assert_off. repeat (apply keeps_bind; intros); auto with keeps.
  destruct a0; [|auto with keeps]. apply keeps_bind; [auto with keeps|intros _]. destruct c; [|auto with keeps]. by apply kinds_acquire.
Qed.
End Kinds.

Lemma woken_is_put p : is_put (woken p) = is_put p.
Proof. by destruct p. Qed.

Lemma woken_is_get p : is_get (woken p) = is_get p.
Proof. by destruct p. Qed.

Lemma resume_puts t : keeps (kinds is_put) (resume t).
Proof.
  intros s e s' Hs H. unfold resume in H. destruct (pcs s !! t) as [p|] eqn:Hp; [|done]. pose proof (Hs t p Hp) as Hk.
  destruct p as [| | | |b|b|b|b]; try done; unfold added, putc_rest, putc_again in H.
  - revert H. apply keeps_bind; [|intros; apply keeps_ret|done]. apply keeps_bind; [apply kinds_clear_pc|intros _]. by apply (kinds_acquire _ woken_is_put).
  - revert H. apply keeps_bind; [|intros; apply keeps_ret|done]. apply keeps_bind; [apply kinds_release|intros _].
    apply keeps_bind; [by apply kinds_set_pc|intros _; apply keeps_ret].
  - revert H. apply keeps_bind; [|intros; apply keeps_ret|done]. apply keeps_bind; [apply kinds_clear_pc|intros _]. by apply (kinds_putc _ woken_is_put).
Qed.

Lemma resume_gets t : keeps (kinds is_get) (resume t).
Proof.
  intros s e s' Hs H. unfold resume in H. destruct (pcs s !! t) as [p|] eqn:Hp; [|done]. pose proof (Hs t p Hp) as Hk.
  destruct p as [| | | |b|b|b|b]; try done; unfold got, getc_rest, getc_again in H.
  - revert H. apply keeps_bind; [|intros; apply keeps_ret|done]. apply keeps_bind; [apply kinds_clear_pc|intros _]. by apply (kinds_acquire _ woken_is_get).
  - revert H. apply keeps_bind; [|intros; apply keeps_ret|done]. apply keeps_bind; [apply kinds_release|intros _].
    apply keeps_bind; [by apply kinds_set_pc|intros _; apply keeps_ret].
  - revert H. apply keeps_bind; [|intros; apply keeps_ret|done]. apply keeps_bind; [apply kinds_clear_pc|intros _]. by apply (kinds_getc _ woken_is_get).
Qed.

(** ** The invariant *)

Section Correct.
Context {hw : Type} `{!Uart hw} (view : hw -> uview) (ready has_data : hw -> bool) (busy : hw -> nat) (busy_max : nat).
Context (laws : UartLaws hw view ready has_data busy busy_max).

(** Output waits in the queue only in interrupt mode, and the line is set to
    9600 bits per second, without parity, as soon as it is used. *)
Record wf (s : serial hw) : Prop := {
  wf_txq : inv (txq s);
  wf_buffer : inv (buffer s);
  wf_puts : kinds is_put (txq s);
  wf_gets : kinds is_get (buffer s);
  wf_line : mode s <> UNINIT -> lcr (view (port s)) = LCR_N81 /\ divisor (view (port s)) = 12;
  wf_fresh : mode s <> QUEUE -> pcs (txq s) = ∅;
  wf_idle : mode s <> QUEUE -> contents (q (txq s)) = []
}.

(** The interrupts that the driver needs are enabled: for the transmitter
    while there is something to send, for the receiver exactly while there is room. *)
Definition ier_ok (s : serial hw) : Prop :=
  (contents (q (txq s)) <> [] -> Z.testbit (ier (view (port s))) 1 = true) /\
  Z.testbit (ier (view (port s))) 0 = negb (count (q (buffer s)) =? 63).

(** From S to S' the bytes ACC were accepted for sending, INP came into the
    input buffer and RET were taken from it. *)
Definition moved (s s' : serial hw) (acc inp ret : list Z) : Prop :=
  sent (view (port s')) ++ map u8 (contents (q (txq s'))) = sent (view (port s)) ++ map u8 (contents (q (txq s)) ++ acc) /\
  contents (q (buffer s)) ++ inp = ret ++ contents (q (buffer s')).

Lemma moved_refl s : moved s s [] [] [].
Proof using. split; by rewrite !app_nil_r. Qed.

Lemma moved_same s s' : sent (view (port s')) = sent (view (port s)) -> contents (q (txq s')) = contents (q (txq s)) ->
  contents (q (buffer s')) = contents (q (buffer s)) -> moved s s' [] [] [].
Proof using. intros E1 E2 E3. unfold moved. by rewrite E1, E2, E3, !app_nil_r. Qed.

Lemma moved_trans s s1 s2 a1 i1 r1 a2 i2 r2 :
  moved s s1 a1 i1 r1 -> moved s1 s2 a2 i2 r2 -> moved s s2 (a1 ++ a2) (i1 ++ i2) (r1 ++ r2).
Proof using.
  intros [A1 B1] [A2 B2]. split.
  - rewrite A2, map_app, (app_assoc (sent _)), A1, !map_app, !app_assoc. done.
  - rewrite (app_assoc _ i1), B1, <- !app_assoc. f_equal. done.
Qed.

Lemma at_level_id x : intr_off x = true -> at_level true x = x.
Proof using. by destruct x as [? ? ? []]. Qed.

Lemma on_txq_ok {A} (c : M st A) s a x :
  off s = true -> wf s -> c (txq s) = Ok (a, x) -> inv x -> on_txq c s = Ok (a, with_txq x s).
Proof using.
  intros Ho Hs Hc Hx. unfold on_txq. rewrite Ho, (at_level_id (txq s)) by apply Hs. rewrite Hc. by rewrite at_level_id by apply Hx.
Qed.

Lemma on_buffer_ok {A} (c : M st A) s a x :
  off s = true -> wf s -> c (buffer s) = Ok (a, x) -> inv x -> on_buffer c s = Ok (a, with_buffer x s).
Proof using.
  intros Ho Hs Hc Hx. unfold on_buffer. rewrite Ho, (at_level_id (buffer s)) by apply Hs. rewrite Hc. by rewrite at_level_id by apply Hx.
Qed.

Lemma assert_intr_off_ok (s : serial hw) : off s = true -> assert_intr_off s = Ok (tt, s).
Proof using. intros Ho. unfold assert_intr_off. rewrite (bind_ok _ _ _ true s) by (unfold gets; by rewrite Ho). done. Qed.

Lemma txq_condition w s : off s = true -> wf s -> on_txq (condition w) s = Ok (count (q (txq s)) =? level w, s).
Proof using.
  intros Ho Hs. destruct (wf_txq s Hs) as [Hb ?]. rewrite (on_txq_ok _ s _ (txq s) Ho Hs (condition_ok w (txq s) (inv_wf _ Hb) (inv_off _ Hb))) by done.
  by destruct s.
Qed.

Lemma buffer_condition w s : off s = true -> wf s -> on_buffer (condition w) s = Ok (count (q (buffer s)) =? level w, s).
Proof using.
  intros Ho Hs. destruct (wf_buffer s Hs) as [Hb ?]. rewrite (on_buffer_ok _ s _ (buffer s) Ho Hs (condition_ok w (buffer s) (inv_wf _ Hb) (inv_off _ Hb))) by done.
  by destruct s.
Qed.

Lemma serial_input_full_ok s : off s = true -> wf s -> input_full s = Ok (count (q (buffer s)) =? 63, s).
Proof using. intros Ho Hs. unfold input_full. mstep (assert_intr_off_ok s Ho). exact (buffer_condition Not_full s Ho Hs). Qed.

(** Same driver state, with a UART that has the same line settings. *)
Lemma wf_port h s : wf s -> (mode s <> UNINIT -> lcr (view h) = lcr (view (port s)) /\ divisor (view h) = divisor (view (port s))) -> wf (with_port h s).
Proof using.
  intros [H1 H2 H3 H4 H5 H6 H7] Hh. split; cbn; try done. intros Hm. destruct (Hh Hm) as [-> ->]. auto.
Qed.

Lemma wf_off b s : wf s -> wf (with_off b s).
Proof using. by intros [H1 H2 H3 H4 H5 H6 H7]. Qed.

Lemma line_open s : wf s -> mode s <> UNINIT -> dlab (view (port s)) = false.
Proof using. intros Hs Hm. unfold dlab. by destruct (wf_line s Hs Hm) as [-> _]. Qed.

(** ** Single steps *)

Definition ier_value (s : serial hw) : Z :=
  Z.lor (if count (q (txq s)) =? 0 then 0 else IER_XMIT) (if count (q (buffer s)) =? 63 then 0 else IER_RECV).

Lemma write_ier_ok s : off s = true -> wf s -> mode s <> UNINIT ->
  exists h, write_ier s = Ok (tt, with_port h s) /\ wf (with_port h s) /\ ier_ok (with_port h s) /\
    sent (view h) = sent (view (port s)) /\ taken (view h) = taken (view (port s)) /\ (ready (port s) = true -> ready h = true).
Proof using laws.
  intros Ho Hs Hm. exists (outb IER_REG (ier_value s) (port s)).
  assert (Hv : view (outb IER_REG (ier_value s) (port s)) =
    UView (sent (view (port s))) (taken (view (port s))) (ier_value s) (lcr (view (port s))) (divisor (view (port s)))).
  { rewrite (out_ier (UartLaws:=laws)); [by rewrite line_open|]. unfold ier_value. by destruct (_ =? _), (_ =? _). }
  split_and!.
  - unfold write_ier. mstep (assert_intr_off_ok s Ho). mstep (txq_condition Not_empty s Ho Hs). mstep (serial_input_full_ok s Ho Hs).
    unfold out, update, ier_value. cbn [level]. by destruct (_ =? 0), (_ =? 63).
  - apply wf_port; [done|]. by rewrite Hv.
  - unfold ier_ok. cbn [with_port txq buffer port]. rewrite Hv. cbn [ier]. unfold ier_value. split.
    + intros Hne. destruct (Z.eqb_spec (count (q (txq s))) 0) as [E|_]; [by apply contents_nil in E|]. by destruct (_ =? _).
    + by destruct (_ =? 0), (_ =? 63).
  - by rewrite Hv.
  - by rewrite Hv.
  - intros Hr. apply (out_ready (UartLaws:=laws)); [done|by apply line_open].
Qed.

Lemma serial_notify_ok s : off s = true -> wf s ->
  exists h, serial_notify s = Ok (tt, with_port h s) /\ wf (with_port h s) /\ (mode s = QUEUE -> ier_ok (with_port h s)) /\
    sent (view h) = sent (view (port s)) /\ taken (view h) = taken (view (port s)) /\ (ready (port s) = true -> ready h = true).
Proof using laws.
  intros Ho Hs. unfold serial_notify. mstep (assert_intr_off_ok s Ho). rewrite (bind_ok _ _ _ (mode s) s) by done. cbv beta.
  case_bool_decide as Hm.
  - destruct (write_ier_ok s Ho Hs) as (h & E & H1 & H2 & H3); [by rewrite Hm|]. exists h. auto.
  - exists (port s). replace (with_port (port s) s) with s by (by destruct s). done.
Qed.

Lemma poll_loop_ok fuel s : (busy (port s) < fuel)%nat ->
  exists h, poll_loop fuel s = Ok (tt, with_port h s) /\ view h = view (port s) /\ ready h = true.
Proof using laws.
  revert s. induction fuel as [|fuel IH]; intros s Hf; [lia|]. cbn [poll_loop].
  set (h := (inb LSR_REG (port s)).2). rewrite (bind_ok _ _ _ (inb LSR_REG (port s)).1 (with_port h s)) by done. cbv beta.
  destruct (in_lsr (UartLaws:=laws) (port s)) as (Ht & _ & Hb). fold h in Ht, Hb.
  assert (Hv : view h = view (port s)) by (apply (in_status (UartLaws:=laws)); by right).
  pose proof (land_pow2_eqb (inb LSR_REG (port s)).1 5 ltac:(lia)) as Hl. change (2 ^ 5) with LSR_THRE in Hl. rewrite Ht in Hl.
  destruct (Z.land _ LSR_THRE =? 0); cbn [negb] in Hl.
  - destruct (IH (with_port h s)) as (h' & E & Hv' & Hr); [cbn; specialize (Hb (eq_sym Hl)); lia|]. exists h'. rewrite E, Hv'. by split_and!.
  - exists h. by rewrite <- Hl.
Qed.

Lemma putc_poll_ok fuel s b : (busy_max < fuel)%nat -> off s = true -> wf s -> mode s <> UNINIT ->
  exists h, putc_poll fuel b s = Ok (tt, with_port h s) /\
    view h = UView (sent (view (port s)) ++ [u8 b]) (taken (view (port s))) (ier (view (port s))) (lcr (view (port s))) (divisor (view (port s))).
Proof using laws.
  intros Hf Ho Hs Hm. destruct (poll_loop_ok fuel s) as (h & E & Hv & Hr); [pose proof (busy_bound (UartLaws:=laws) (port s)); lia|].
  exists (outb THR_REG (u8 b) h). split.
  - unfold putc_poll. mstep (assert_intr_off_ok s Ho). by mstep E.
  - rewrite (out_thr (UartLaws:=laws)); [by rewrite Hv|rewrite Hv; by apply line_open|done|by apply Z.mod_pos_bound].
Qed.

(** ** Setting up *)

Lemma set_up_port h0 :
  let h1 := outb IER_REG (u8 0) h0 in
  let h2 := outb FCR_REG (u8 0) h1 in
  let h3 := outb LCR_REG (u8 (Z.lor LCR_N81 LCR_DLAB)) h2 in
  let h4 := outb LS_REG (u8 (Z.land 12 255)) h3 in
  let h5 := outb MS_REG (u8 (Z.shiftr 12 8)) h4 in
  let h6 := outb LCR_REG (u8 LCR_N81) h5 in
  let h7 := outb MCR_REG (u8 MCR_OUT2) h6 in
  sent (view h7) = sent (view h0) /\ taken (view h7) = taken (view h0) /\ lcr (view h7) = LCR_N81 /\ divisor (view h7) = 12.
Proof using laws.
  intros h1 h2 h3 h4 h5 h6 h7.
  assert (E1 : sent (view h1) = sent (view h0) /\ taken (view h1) = taken (view h0)).
  { unfold h1. rewrite (out_ier (UartLaws:=laws)) by done. by destruct (dlab _). }
  assert (E2 : view h2 = view h1) by (apply (out_ctl (UartLaws:=laws)); [by left|done]).
  assert (E3 : view h3 = UView (sent (view h2)) (taken (view h2)) (ier (view h2)) 131 (divisor (view h2))) by (by apply (out_lcr (UartLaws:=laws))).
  assert (E4 : view h4 = UView (sent (view h3)) (taken (view h3)) (ier (view h3)) (lcr (view h3)) (divisor (view h3) / 256 * 256 + 12)).
  { apply (out_latch (UartLaws:=laws)); [unfold dlab; by rewrite E3|done]. }
  assert (E5 : view h5 = UView (sent (view h4)) (taken (view h4)) (ier (view h4)) (lcr (view h4)) (divisor (view h4) mod 256 + 256 * 0)).
  { unfold h5. change MS_REG with IER_REG. rewrite (out_ier (UartLaws:=laws)) by done. unfold dlab at 1. by rewrite E4, E3. }
  assert (E6 : view h6 = UView (sent (view h5)) (taken (view h5)) (ier (view h5)) 3 (divisor (view h5))) by (by apply (out_lcr (UartLaws:=laws))).
  assert (E7 : view h7 = view h6) by (apply (out_ctl (UartLaws:=laws)); [by right|done]).
  rewrite E7, E6. cbn [sent taken lcr divisor]. rewrite E5. cbn [sent taken lcr divisor]. rewrite E4. cbn [sent taken divisor]. rewrite E3.
  cbn [sent taken]. rewrite E2. destruct E1 as [-> ->]. split_and!; try done.
  rewrite Z.mul_0_r, Z.add_0_r, Z.add_comm, Z.mod_add by lia. done.
Qed.

Lemma fresh_queue x : inv x -> pcs x = ∅ -> inv (at_level true (intq_init x)) /\ contents (q (intq_init x)) = [].
Proof using.
  intros [Hb _] Hp. split; [|done]. split; [|by intros []]. destruct (inv_wf x Hb) as (Hl & _).
  split; cbn; rewrite ?Hp; try done. by intros [].
Qed.

Lemma init_poll_ok s : wf s -> mode s = UNINIT ->
  exists s', init_poll s = Ok (tt, s') /\ wf s' /\ mode s' = POLL /\ off s' = off s /\ ints s' = ints s /\ buffer s' = buffer s /\
    contents (q (txq s')) = contents (q (txq s)) /\ (forall t, pcs (txq s') !! t = None) /\ moved s s' [] [] [] /\ taken (view (port s')) = taken (view (port s)).
Proof using laws.
  intros Hs Hm. destruct (set_up_port (port s)) as (H1 & H2 & H3 & H4). destruct (fresh_queue (txq s) (wf_txq s Hs) (wf_fresh s Hs ltac:(by rewrite Hm))) as [Hi Hc].
  pose proof (wf_idle s Hs ltac:(by rewrite Hm)) as Hidle. pose proof (wf_fresh s Hs ltac:(by rewrite Hm)) as Hfr.
  unfold init_poll. rewrite (bind_ok _ _ _ (mode s) s) by done. cbv beta. rewrite Hm. rewrite (bind_ok _ _ _ tt s) by done. cbv beta.
  eexists. split; [reflexivity|]. cbn [with_mode with_txq with_port mode off ints buffer txq port at_level q pcs]. rewrite Hidle. split_and!; try done.
  - destruct Hs as [W1 W2 W3 W4 W5 W6 W7]. split; cbn [mode txq buffer off ints port]; try done.
  - intros t. cbn. by rewrite Hfr.
  - apply moved_same; [exact H1|by rewrite Hidle|done].
Qed.

Context (stubs : Z -> Z) (handler : Z) (Hstubs : stubs_ok stubs).

Lemma register_serial_ok (s : serial hw) :
  if intr_handlers (ints s) 36 =? NULL then exists i, register_serial stubs handler s = Ok (tt, with_ints i s)
  else register_serial stubs handler s = Err EAssert.
Proof using Hstubs.
  unfold register_serial, intr_register_ext, register_handler. destruct (make_gate_ok (ints s) (stubs 36) 0 14) as (w & Ew & _); [by apply Hstubs|done|done|].
  change (32 + 4) with 36. rewrite (bind_ok _ _ _ tt (ints s)) by done. cbv beta. rewrite (bind_ok _ _ _ (ints s) (ints s)) by done. cbv beta.
  destruct (intr_handlers (ints s) 36 =? NULL); [|done]. rewrite (bind_ok _ _ _ tt (ints s)) by done. cbv beta.
  unfold make_intr_gate. rewrite (bind_ok _ _ _ w (ints s) Ew). cbv beta. by eexists.
Qed.

Lemma wf_queue i s : wf s -> mode s = POLL -> wf (with_mode QUEUE (with_ints i s)).
Proof using. intros [W1 W2 W3 W4 W5 W6 W7] Hm. split; cbn; try done. intros _. apply W5. by rewrite Hm. Qed.

Lemma serial_init_queue_ok s : wf s ->
  if bool_decide (mode s = QUEUE) || negb (intr_handlers (ints s) 36 =? NULL) then serial_init_queue stubs handler s = Err EAssert
  else exists s', serial_init_queue stubs handler s = Ok (tt, s') /\ wf s' /\ mode s' = QUEUE /\ ier_ok s' /\ moved s s' [] [] [].
Proof using laws Hstubs.
  intros Hs. unfold serial_init_queue. rewrite (bind_ok _ _ _ (mode s) s) by done. cbv beta.
  assert (Hrest : forall s1, wf s1 -> mode s1 = POLL ->
    if intr_handlers (ints s1) 36 =? NULL then exists s', (m ← gets mode; ASSERT (bool_decide (m = POLL));; register_serial stubs handler;; update (with_mode QUEUE);;
        old_level ← intr_disable; write_ier;; intr_set_level old_level) s1 = Ok (tt, s') /\ wf s' /\ mode s' = QUEUE /\ ier_ok s' /\ moved s1 s' [] [] []
    else (m ← gets mode; ASSERT (bool_decide (m = POLL));; register_serial stubs handler;; update (with_mode QUEUE);;
        old_level ← intr_disable; write_ier;; intr_set_level old_level) s1 = Err EAssert).
  { intros s1 Hs1 Hm. rewrite (bind_ok _ _ _ (mode s1) s1) by done. cbv beta. rewrite Hm. rewrite (bind_ok _ _ _ tt s1) by done. cbv beta.
    pose proof (register_serial_ok s1) as Hr. destruct (_ =? NULL); [|by rewrite (bind_err _ _ _ _ Hr)]. destruct Hr as (i & Hr). mstep Hr.
    set (s2 := with_mode QUEUE (with_ints i s1)). rewrite (bind_ok _ _ _ tt s2) by done. cbv beta.
    rewrite (bind_ok _ _ _ (off s1) (with_off true s2)) by done. cbv beta.
    destruct (write_ier_ok (with_off true s2)) as (h & E & W & Hier & Hsent & _); [done|by apply wf_off, wf_queue|done|]. mstep E.
    eexists. split; [reflexivity|]. cbn [with_off with_port mode]. split_and!; [by apply (wf_off (off s1))|done|exact Hier|].
    by apply moved_same. }
  destruct (mode s) eqn:Hm.
  - rewrite (bool_decide_eq_false_2 (UNINIT = QUEUE)) by done. rewrite (bool_decide_eq_true_2 (UNINIT = UNINIT)) by done. cbn [orb].
    destruct (init_poll_ok s Hs Hm) as (s1 & E & W & Hm1 & _ & Hi & _ & _ & _ & Hmv & _). mstep E. specialize (Hrest s1 W Hm1). rewrite Hi in Hrest.
    destruct (_ =? NULL); [|exact Hrest]. destruct Hrest as (s' & E' & W' & Hm' & Hier & Hmv'). exists s'. split_and!; try done. exact (moved_trans _ _ _ _ _ _ _ _ _ Hmv Hmv').
  - rewrite (bool_decide_eq_false_2 (POLL = UNINIT)), (bool_decide_eq_false_2 (POLL = QUEUE)) by done. rewrite (bind_ok _ _ _ tt s) by done. cbv beta. cbn [orb].
    specialize (Hrest s Hs Hm). by destruct (_ =? NULL).
  - rewrite (bool_decide_eq_true_2 (QUEUE = QUEUE)) by done. rewrite (bool_decide_eq_false_2 (QUEUE = UNINIT)) by done. rewrite (bind_ok _ _ _ tt s) by done. cbv beta.
    rewrite (bind_ok _ _ _ (mode s) s) by done. cbv beta. rewrite Hm. done.
Qed.

(** ** Output *)

Lemma wf_set_txq x s : wf s -> mode s = QUEUE -> inv x -> kinds is_put x -> wf (with_txq x s).
Proof using. intros [W1 W2 W3 W4 W5 W6 W7] Hm Hx Hk. split; cbn; try done; by rewrite Hm. Qed.

Lemma txq_mode s : wf s -> count (q (txq s)) <> 0 -> mode s = QUEUE.
Proof using. intros Hs Hc. destruct (decide (mode s = QUEUE)) as [|Hm]; [done|]. apply (wf_idle s Hs) in Hm. by apply contents_nil in Hm. Qed.

(** [intq_getc] takes the oldest byte. *)
Lemma txq_take_ok c s : off s = true -> wf s -> count (q (txq s)) <> 0 ->
  exists b x, on_txq (intq_getc c) s = Ok (Some b, with_txq x s) /\ wf (with_txq x s) /\ mode s = QUEUE /\
    contents (q (txq s)) = b :: contents (q x) /\ (forall t, pcs (txq s) !! t = None -> pcs x !! t = None).
Proof using.
  intros Ho Hs Hc. pose proof (wf_txq s Hs) as Hi. destruct (take_byte_ok (txq s) Hi Hc) as (b & x & E & Hx & Hcont & Hp).
  assert (Hrun : intq_getc c (txq s) = Ok (Some b, x)).
  { destruct Hi as [Hb _]. unfold intq_getc. mstep (assert_off_ok _ (inv_off _ Hb)). mstep (condition_ok Not_empty _ (inv_wf _ Hb) (inv_off _ Hb)).
    cbn [level]. by rewrite (proj2 (Z.eqb_neq _ _) Hc). }
  exists b, x. pose proof (txq_mode s Hs Hc) as Hm. split_and!; [by apply on_txq_ok| |done..].
  apply wf_set_txq; [done..|]. exact (kinds_take _ woken_is_put _ _ _ (wf_puts s Hs) E).
Qed.

(** One byte leaves the queue and the machine. *)
Lemma drain_ok fuel c s : (busy_max < fuel)%nat -> off s = true -> wf s -> count (q (txq s)) <> 0 ->
  exists b x h, on_txq (intq_getc c) s = Ok (Some b, with_txq x s) /\ putc_poll fuel b (with_txq x s) = Ok (tt, with_port h (with_txq x s)) /\
    wf (with_port h (with_txq x s)) /\ mode s = QUEUE /\ moved s (with_port h (with_txq x s)) [] [] [] /\
    ier (view h) = ier (view (port s)) /\ contents (q (txq s)) = b :: contents (q x) /\ (forall t, pcs (txq s) !! t = None -> pcs x !! t = None).
Proof using laws.
  intros Hf Ho Hs Hc. destruct (txq_take_ok c s Ho Hs Hc) as (b & x & E & W & Hm & Hcont & Hp).
  destruct (putc_poll_ok fuel (with_txq x s) b Hf Ho W) as (h & E' & Hv); [cbn; by rewrite Hm|]. exists b, x, h. split_and!; try done.
  - apply wf_port; [done|]. by rewrite Hv.
  - split; cbn [with_port with_txq port txq buffer]; [|by rewrite app_nil_r]. rewrite Hv, Hcont, app_nil_r. cbn [sent map]. rewrite <- app_assoc. done.
  - by rewrite Hv.
Qed.

(** [intq_putc] adds a byte, or the thread that called it sleeps. *)
Definition may_put (c : context) (s : serial hw) : Prop :=
  match c with Thread t => t <> NULL /\ pcs (txq s) !! t = None | Interrupt => count (q (txq s)) <> 63 end.

Lemma put_ok c b s : off s = true -> wf s -> mode s = QUEUE -> may_put c s ->
  exists r x, on_txq (intq_putc c b) s = Ok (r, with_txq x s) /\ wf (with_txq x s) /\
    match r with Some _ => contents (q x) = contents (q (txq s)) ++ [b] | None => contents (q x) = contents (q (txq s)) /\ count (q (txq s)) = 63 end.
Proof using.
  intros Ho Hs Hm Hc. pose proof (wf_txq s Hs) as Hi.
  assert (Hput : exists r x, intq_putc c b (txq s) = Ok (r, x) /\ inv x /\
    match r with Some _ => contents (q x) = contents (q (txq s)) ++ [b] | None => contents (q x) = contents (q (txq s)) /\ count (q (txq s)) = 63 end).
  { destruct c as [t|]; cbn [may_put] in Hc.
    - destruct Hc as [Ht Hp]. destruct (putc_thread (txq s) t b Hi Ht Hp) as (r & x & E & Hx & Hr). exists r, x. split_and!; [done..|]. by destruct r; [destruct Hr|].
    - pose proof (putc_interrupt (txq s) b Hi) as H. rewrite (proj2 (Z.eqb_neq _ _) Hc) in H. destruct H as (x & E & Hx & Hr). by exists (Some tt), x. }
  destruct Hput as (r & x & E & Hx & Hr). exists r, x. split_and!; [by apply on_txq_ok| |done].
  apply wf_set_txq; [done..|]. refine (kinds_putc _ woken_is_put c b eq_refl eq_refl _ _ _ (wf_puts s Hs) E).
Qed.

(** The queue part of [serial_putc], behind the test for a full queue. *)
Lemma enqueue_ok c b s : off s = true -> wf s -> mode s = QUEUE -> ier_ok s -> may_put c s ->
  exists r s', (r ← on_txq (intq_putc c b); unless_asleep r (fun _ => write_ier;; mret (Some tt))) s = Ok (r, s') /\ wf s' /\ mode s' = QUEUE /\ ier_ok s' /\
    moved s s' (match r with Some _ => [b] | None => [] end) [] [] /\ (count (q (txq s)) <> 63 -> r = Some tt).
Proof using laws.
  intros Ho Hs Hm Hier Hc. destruct (put_ok c b s Ho Hs Hm Hc) as (r & x & E & W & Hr). mstep E. destruct r as [[]|]; cbn [unless_asleep].
  - destruct (write_ier_ok (with_txq x s) Ho W) as (h & E' & W' & Hi' & Hsent & _); [cbn; by rewrite Hm|]. mstep E'.
    exists (Some tt), (with_port h (with_txq x s)). split_and!; try done. split; [|by rewrite app_nil_r].
    cbn [with_port with_txq port txq]. by rewrite Hsent, Hr.
  - destruct Hr as [Hr Hf]. exists None, (with_txq x s). split_and!; try done.
    + destruct Hier as [H1 H2]. split; cbn [with_txq txq port buffer]; [by rewrite Hr|done].
    + by apply moved_same.
Qed.

(** A byte is accepted, or the thread sleeps, which happens only with interrupts on. *)
Lemma serial_putc_ok fuel c b s : (busy_max < fuel)%nat -> wf s -> (mode s = QUEUE -> ier_ok s) ->
  match c with Thread t => t <> NULL /\ pcs (txq s) !! t = None | Interrupt => off s = true end ->
  exists r s', serial_putc fuel c b s = Ok (r, s') /\ wf s' /\ (mode s' = QUEUE -> ier_ok s') /\
    moved s s' (match r with Some _ => [b] | None => [] end) [] [] /\ (off s = true -> r = Some tt) /\ (r = Some tt -> off s' = off s).
Proof using laws.
  intros Hf Hs Hier Hc. unfold serial_putc. set (s0 := with_off true s). rewrite (bind_ok _ _ _ (off s) s0) by done. cbv beta.
  assert (Hs0 : wf s0) by (by apply wf_off). rewrite (bind_ok _ _ _ (mode s) s0) by done. cbv beta.
  set (body := (if negb _ then _ else _ : M (serial hw) (option unit))).
  assert (Hbody : exists r s', body s0 = Ok (r, s') /\ wf s' /\ (mode s' = QUEUE -> ier_ok s') /\
    moved s s' (match r with Some _ => [b] | None => [] end) [] [] /\ (off s = true -> r = Some tt)).
  { subst body. destruct (decide (mode s = QUEUE)) as [Hm|Hm].
    - rewrite (bool_decide_eq_true_2 (mode s = QUEUE)) by done. cbn [negb].
      assert (Hfull : (if off s then on_txq intq_full else mret false) s0 = Ok (off s && (count (q (txq s0)) =? 63), s0)).
      { destruct (off s); [|done]. exact (txq_condition Not_full s0 eq_refl Hs0). }
      mstep Hfull. destruct (off s && (count (q (txq s0)) =? 63)) eqn:Ef.
      + apply andb_true_iff in Ef as [Ho Ef]. apply Z.eqb_eq in Ef.
        destruct (drain_ok fuel c s0 Hf eq_refl Hs0) as (y & x & h & E1 & E2 & W & _ & Hmv & Hi & Hcont & Hp); [lia|].
        rewrite bind_assoc. mstep E1. cbn [unless_asleep]. rewrite bind_assoc. mstep E2. rewrite (bind_ok _ _ _ (Some tt) (with_port h (with_txq x s0))) by done. cbv beta. cbn [unless_asleep].
        assert (Hroom : count (q x) <> 63) by (rewrite <- contents_length; pose proof (contents_length (q (txq s0))) as Hl; rewrite Hcont in Hl; cbn [length] in Hl; lia).
        destruct (enqueue_ok c b (with_port h (with_txq x s0))) as (r & s' & E & W' & Hm' & Hi' & Hmv' & Hr); try done.
        { destruct (Hier Hm) as [H1 H2]. split; cbn [with_port with_txq txq port buffer]; rewrite Hi; [|done]. intros _. apply H1. change (txq s) with (txq s0). by rewrite Hcont. }
        { destruct c as [t|]; [|done]. split; [apply Hc|]. apply Hp, Hc. }
        exists r, s'. split_and!; [done|done|done| |by intros _; apply Hr]. exact (moved_trans _ _ _ _ _ _ _ _ _ Hmv Hmv').
      + rewrite (bind_ok _ _ _ (Some tt) s0) by done. cbv beta. cbn [unless_asleep].
        destruct (enqueue_ok c b s0) as (r & s' & E & W' & Hm' & Hi' & Hmv' & Hr); [done|done|done|exact (Hier Hm)| |].
        { destruct c as [t|]; [exact Hc|]. cbn. rewrite Hc in Ef. apply Z.eqb_neq. exact Ef. }
        exists r, s'. split_and!; [done|done|done|exact Hmv'|]. intros Ho. apply Hr. rewrite Ho in Ef. by apply Z.eqb_neq.
    - rewrite (bool_decide_eq_false_2 (mode s = QUEUE)) by done. cbn [negb].
      assert (Hinit : exists s1, (if bool_decide (mode s = UNINIT) then init_poll else mret tt) s0 = Ok (tt, s1) /\ wf s1 /\ mode s1 = POLL /\ off s1 = true /\ moved s s1 [] [] []).
      { case_bool_decide as Hu.
        - destruct (init_poll_ok s0 Hs0 Hu) as (s1 & E & W & Hm1 & Ho1 & _ & _ & _ & _ & Hmv & _). exists s1. by split_and!.
        - exists s0. split_and!; [done|done|change (mode s = POLL); by destruct (mode s)|done|exact (moved_refl s)]. }
      destruct Hinit as (s1 & E & W & Hm1 & Ho1 & Hmv). mstep E. destruct (putc_poll_ok fuel s1 b Hf Ho1 W) as (h & E' & Hv); [by rewrite Hm1|]. mstep E'.
      exists (Some tt), (with_port h s1). split_and!; [done| |cbn; by rewrite Hm1| |done].
      + apply wf_port; [done|]. by rewrite Hv.
      + refine (moved_trans _ _ _ [] [] [] _ _ _ Hmv _). split; [|by rewrite app_nil_r]. cbn [with_port port txq]. rewrite Hv. cbn [sent].
        rewrite (wf_idle s1 W) by (by rewrite Hm1). cbn [app map]. by rewrite app_nil_r. }
  destruct Hbody as (r & s' & E & W & Hi & Hmv & Hr). mstep E. destruct r as [[]|]; cbn [unless_asleep].
  - exists (Some tt), (with_off (off s) s'). split_and!; try done. by apply wf_off.
  - exists None, s'. by split_and!.
Qed.

Lemma resume_put_event t x e x' : kinds is_put x -> resume t x = Ok (e, x') -> outs e = [].
Proof using.
  intros Hk H. unfold resume in H. destruct (pcs x !! t) as [p|] eqn:Hp; [|done]. pose proof (Hk t p Hp).
  destruct p; try done; unfold added in H; apply bind_inv in H as (r & y & _ & H); injection H as <- _; by destruct r.
Qed.

Lemma resume_get_event t x e x' : kinds is_get x -> resume t x = Ok (e, x') -> ins e = [].
Proof using.
  intros Hk H. unfold resume in H. destruct (pcs x !! t) as [p|] eqn:Hp; [|done]. pose proof (Hk t p Hp).
  destruct p; try done; unfold got in H; apply bind_inv in H as (r & y & _ & H); injection H as <- _; by destruct r.
Qed.

Lemma on_txq_err {A} (c : M st A) s e : off s = true -> wf s -> c (txq s) = Err e -> on_txq c s = Err e.
Proof using. intros Ho Hs Hc. unfold on_txq. rewrite Ho, (at_level_id (txq s)) by apply Hs. by rewrite Hc. Qed.

Lemma on_buffer_err {A} (c : M st A) s e : off s = true -> wf s -> c (buffer s) = Err e -> on_buffer c s = Err e.
Proof using. intros Ho Hs Hc. unfold on_buffer. rewrite Ho, (at_level_id (buffer s)) by apply Hs. by rewrite Hc. Qed.

Lemma serial_putc_rest_ok t old s : off s = true -> wf s -> (mode s = QUEUE -> ier_ok s) -> enabled (Resume t) (txq s) ->
  if fails (Resume t) (txq s) then serial_putc_rest t old s = Err EAssert else
  exists e s', serial_putc_rest t old s = Ok (e, s') /\ wf s' /\ (mode s' = QUEUE -> ier_ok s') /\ moved s s' (ins e) [] [].
Proof using laws.
  intros Ho Hs Hier He. pose proof (exec_spec (Resume t) (txq s) (wf_txq s Hs) He) as Hx. unfold serial_putc_rest. cbn [exec] in Hx.
  destruct (fails (Resume t) (txq s)); [by rewrite (bind_err _ _ _ EAssert) by (by apply on_txq_err)|].
  destruct Hx as (e & x & E & Hx & Hc). mstep (on_txq_ok _ s e x Ho Hs E Hx). pose proof (resume_put_event t _ e x (wf_puts s Hs) E) as Hout.
  assert (Hm : mode s = QUEUE).
  { destruct (decide (mode s = QUEUE)) as [|Hm]; [done|]. cbn [enabled] in He. rewrite (wf_fresh s Hs Hm), lookup_empty in He. done. }
  assert (W : wf (with_txq x s)) by (apply wf_set_txq; try done; by apply (resume_puts t _ _ _ (wf_puts s Hs) E)).
  rewrite Hout in Hc. cbn [app] in Hc. destruct e as [b|b|]; cbn [outs ins] in *; [done| |].
  - destruct (write_ier_ok (with_txq x s) Ho W) as (h & E' & W' & Hi' & Hsent & _); [cbn; by rewrite Hm|]. mstep E'.
    eexists _, _. split; [reflexivity|]. split_and!; [by apply wf_off|done|]. split; [|by rewrite app_nil_r]. cbn. rewrite Hsent. by rewrite Hc.
  - exists Slept, (with_txq x s). rewrite app_nil_r in Hc. split_and!; [done|done| |by apply moved_same].
    intros _. destruct (Hier Hm) as [H1 H2]. split; cbn [with_txq txq port buffer]; [by rewrite <- Hc|done].
Qed.

Lemma flush_loop_ok fuel c n : forall s, (busy_max < fuel)%nat -> off s = true -> wf s -> (mode s = QUEUE -> ier_ok s) -> (length (contents (q (txq s))) < n)%nat ->
  exists s', flush_loop n fuel c s = Ok (tt, s') /\ wf s' /\ off s' = true /\ (mode s' = QUEUE -> ier_ok s') /\ moved s s' [] [] [] /\ contents (q (txq s')) = [].
Proof using laws.
  induction n as [|n IH]; intros s Hf Ho Hs Hier Hn; [lia|]. cbn [flush_loop]. mstep (txq_condition Not_empty s Ho Hs). cbn [level].
  destruct (Z.eqb_spec (count (q (txq s))) 0) as [Hc|Hc]; cbn [negb].
  - exists s. split_and!; [done..|apply moved_refl|by apply contents_nil].
  - destruct (drain_ok fuel c s Hf Ho Hs Hc) as (b & x & h & E1 & E2 & W & Hm & Hmv & Hi & Hcont & _). mstep E1. mstep E2.
    destruct (IH (with_port h (with_txq x s))) as (s' & E & W' & Ho' & Hi' & Hmv' & He); [done|done|done| | |].
    + intros _. destruct (Hier Hm) as [H1 H2]. split; cbn [with_port with_txq txq port buffer]; rewrite Hi; [|done]. intros _. apply H1. by rewrite Hcont.
    + rewrite Hcont in Hn. cbn [length] in Hn. cbn [with_port with_txq txq]. lia.
    + exists s'. split_and!; try done. exact (moved_trans _ _ _ _ _ _ _ _ _ Hmv Hmv').
Qed.

Lemma serial_flush_ok fuel c s : (busy_max < fuel)%nat -> (63 < fuel)%nat -> wf s -> (mode s = QUEUE -> ier_ok s) ->
  exists s', serial_flush fuel c s = Ok (tt, s') /\ wf s' /\ (mode s' = QUEUE -> ier_ok s') /\ moved s s' [] [] [] /\ contents (q (txq s')) = [] /\ off s' = off s.
Proof using laws.
  intros Hf Hn Hs Hier. unfold serial_flush. rewrite (bind_ok _ _ _ (off s) (with_off true s)) by done. cbv beta.
  destruct (flush_loop_ok fuel c fuel (with_off true s)) as (s' & E & W & _ & Hi & Hmv & He); [done|done|by apply wf_off|done| |].
  { cbn [with_off txq]. pose proof (contents_length (q (txq s))). pose proof (count_range (q (txq s))). lia. }
  mstep E. exists (with_off (off s) s'). split_and!; try done. by apply wf_off.
Qed.

(** ** Input *)

Lemma wf_set_buffer x s : wf s -> inv x -> kinds is_get x -> wf (with_buffer x s).
Proof using. by intros [W1 W2 W3 W4 W5 W6 W7] Hx Hk. Qed.

Lemma serial_input_putc_ok b s : off s = true -> wf s -> count (q (buffer s)) <> 63 ->
  exists x h, input_putc b s = Ok (tt, with_port h (with_buffer x s)) /\ wf (with_port h (with_buffer x s)) /\
    (mode s = QUEUE -> ier_ok (with_port h (with_buffer x s))) /\ contents (q x) = contents (q (buffer s)) ++ [b] /\
    sent (view h) = sent (view (port s)) /\ taken (view h) = taken (view (port s)) /\ (ready (port s) = true -> ready h = true).
Proof using laws.
  intros Ho Hs Hc. pose proof (wf_buffer s Hs) as Hi. unfold input_putc. mstep (assert_intr_off_ok s Ho).
  mstep (buffer_condition Not_full s Ho Hs). cbn [level]. rewrite (proj2 (Z.eqb_neq _ _) Hc). rewrite (bind_ok _ _ _ tt s) by done. cbv beta.
  pose proof (putc_interrupt (buffer s) b Hi) as H. rewrite (proj2 (Z.eqb_neq _ _) Hc) in H. destruct H as (x & E & Hx & Hr).
  mstep (on_buffer_ok _ s _ x Ho Hs E Hx).
  assert (W : wf (with_buffer x s)).
  { apply wf_set_buffer; [done..|]. destruct (Hi) as [Hb _]. unfold intq_putc in E. rewrite (bind_ok _ _ _ _ _ (assert_off_ok _ (inv_off _ Hb))) in E. cbv beta in E.
    rewrite (bind_ok _ _ _ _ _ (condition_ok Not_full _ (inv_wf _ Hb) (inv_off _ Hb))) in E. cbv beta in E. cbn [level] in E. rewrite (proj2 (Z.eqb_neq _ _) Hc) in E.
    exact (kinds_add _ woken_is_get b _ _ _ (wf_gets s Hs) E). }
  destruct (serial_notify_ok (with_buffer x s) Ho W) as (h & E' & W' & Hi' & H3). exists x, h. by split_and!; try apply H3.
Qed.

Lemma input_getc_ok t s : wf s -> (mode s = QUEUE -> ier_ok s) -> t <> NULL -> pcs (buffer s) !! t = None ->
  exists r s', input_getc t s = Ok (r, s') /\ wf s' /\ (mode s' = QUEUE -> ier_ok s') /\
    moved s s' [] [] (match r with Some b => [b] | None => [] end) /\ (r = None -> contents (q (buffer s)) = []).
Proof using laws.
  intros Hs Hier Ht Hp. unfold input_getc. set (s0 := with_off true s). assert (Hs0 : wf s0) by (by apply wf_off).
  rewrite (bind_ok _ _ _ (off s) s0) by done. cbv beta. destruct (getc_thread (buffer s) t (wf_buffer s Hs) Ht Hp) as (r & x & E & Hx & Hr).
  mstep (on_buffer_ok _ s0 r x eq_refl Hs0 E Hx).
  assert (W : wf (with_buffer x s0)) by (apply wf_set_buffer; [done..|]; exact (kinds_getc _ woken_is_get (Thread t) eq_refl eq_refl _ _ _ (wf_gets s Hs) E)).
  destruct r as [b|]; cbn [unless_asleep].
  - destruct (serial_notify_ok (with_buffer x s0) eq_refl W) as (h & E' & W' & Hi' & Hsent & _). mstep E'.
    eexists _, _. split; [reflexivity|]. split_and!; [by apply wf_off|exact Hi'| |done]. destruct Hr as [Hr _].
    split; cbn; [by rewrite Hsent, app_nil_r|by rewrite app_nil_r].
  - destruct Hr as [Hr Hn]. exists None, (with_buffer x s0). split_and!; [done|done| |by apply moved_same|done].
    intros Hm. destruct (Hier Hm) as [H1 H2]. split; [exact H1|]. cbn [with_buffer buffer port s0 with_off]. rewrite <- contents_length, Hr, contents_length. exact H2.
Qed.

Lemma input_getc_rest_ok t old s : off s = true -> wf s -> (mode s = QUEUE -> ier_ok s) -> enabled (Resume t) (buffer s) ->
  if fails (Resume t) (buffer s) then input_getc_rest t old s = Err EAssert else
  exists e s', input_getc_rest t old s = Ok (e, s') /\ wf s' /\ (mode s' = QUEUE -> ier_ok s') /\ moved s s' [] [] (outs e).
Proof using laws.
  intros Ho Hs Hier He. pose proof (exec_spec (Resume t) (buffer s) (wf_buffer s Hs) He) as Hx. unfold input_getc_rest. cbn [exec] in Hx.
  destruct (fails (Resume t) (buffer s)); [by rewrite (bind_err _ _ _ EAssert) by (by apply on_buffer_err)|].
  destruct Hx as (e & x & E & Hx & Hc). mstep (on_buffer_ok _ s e x Ho Hs E Hx). pose proof (resume_get_event t _ e x (wf_gets s Hs) E) as Hin.
  assert (W : wf (with_buffer x s)) by (apply wf_set_buffer; try done; by apply (resume_gets t _ _ _ (wf_gets s Hs) E)).
  rewrite Hin, app_nil_r in Hc. destruct e as [b|b|]; cbn [outs ins] in *; [|done|].
  - destruct (serial_notify_ok (with_buffer x s) Ho W) as (h & E' & W' & Hi' & Hsent & _). mstep E'.
    eexists _, _. split; [reflexivity|]. split_and!; [by apply wf_off|exact Hi'|]. split; cbn; [by rewrite Hsent, app_nil_r|by rewrite app_nil_r].
  - cbn [app] in Hc. exists Slept, (with_buffer x s). split_and!; [done|done| |by apply moved_same].
    intros Hm. destruct (Hier Hm) as [H1 H2]. split; [exact H1|]. cbn [with_buffer buffer port]. rewrite <- contents_length, <- Hc, contents_length. exact H2.
Qed.

(** ** The interrupt handler *)

Lemma in_status_ok p s : p = IIR_REG \/ p = LSR_REG -> wf s ->
  let h := (inb p (port s)).2 in in_ p s = Ok ((inb p (port s)).1, with_port h s) /\ wf (with_port h s) /\ view h = view (port s) /\ (ready (port s) = true -> ready h = true).
Proof using laws.
  intros Hp Hs h. assert (Hv : view h = view (port s)) by (by apply (in_status (UartLaws:=laws))). split_and!; [done| |done|apply (in_ready (UartLaws:=laws))].
  apply wf_port; [done|]. by rewrite Hv.
Qed.

(** Every byte that is read from the receiver goes to the buffer. *)
Lemma receive_loop_ok fuel : forall s, off s = true -> wf s -> mode s = QUEUE -> ier_ok s -> 63 - count (q (buffer s)) < Z.of_nat fuel ->
  exists s' bs, receive_loop fuel s = Ok (tt, s') /\ wf s' /\ off s' = true /\ mode s' = QUEUE /\ txq s' = txq s /\ sent (view (port s')) = sent (view (port s)) /\
    moved s s' [] bs [] /\ taken (view (port s')) = taken (view (port s)) ++ bs /\ (ready (port s) = true -> ready (port s') = true).
Proof using laws.
  induction fuel as [|fuel IH]; intros s Ho Hs Hm Hier Hn; [pose proof (count_range (q (buffer s))); lia|]. cbn [receive_loop]. mstep (serial_input_full_ok s Ho Hs).
  destruct (Z.eqb_spec (count (q (buffer s))) 63) as [Hc|Hc]; cbn [negb].
  { exists s, []. rewrite app_nil_r. split_and!; try done. apply moved_refl. }
  destruct (in_status_ok LSR_REG s (or_intror eq_refl) Hs) as (E & W & Hv & Hr). destruct (in_lsr (UartLaws:=laws) (port s)) as (_ & Hd & _).
  set (r := inb LSR_REG (port s)) in *. mstep E. pose proof (land_pow2_eqb r.1 0 ltac:(lia)) as Hl. change (2 ^ 0) with LSR_DR in Hl. rewrite Hl, Hd.
  destruct (has_data r.2) eqn:Hdata.
  2: { exists (with_port r.2 s), []. rewrite app_nil_r. split_and!; try done; try (apply moved_same; cbn [with_port port]; by rewrite ?Hv); cbn [with_port port]; by rewrite ?Hv. }
  set (h := (inb RBR_REG r.2).2). set (b := (inb RBR_REG r.2).1). rewrite (bind_ok _ _ _ b (with_port h s)) by done. cbv beta.
  assert (Hh : view h = UView (sent (view (port s))) (taken (view (port s)) ++ [b]) (ier (view (port s))) (lcr (view (port s))) (divisor (view (port s)))).
  { unfold h. rewrite (in_rbr (UartLaws:=laws)); [by rewrite Hv| |done]. rewrite Hv. apply line_open; [done|by rewrite Hm]. }
  destruct (serial_input_putc_ok b (with_port h s)) as (x & h' & E' & W' & Hi' & Hx & Hsent & Htaken & Hready); [done| |done|].
  { apply wf_port; [done|]. by rewrite Hh. }
  mstep E'. destruct (IH (with_port h' (with_buffer x (with_port h s)))) as (s' & bs & E2 & W2 & Ho2 & Hm2 & Ht2 & Hs2 & Hmv2 & Htk2 & Hr2); [done|done|done|by apply Hi'| |].
  { cbn [with_port with_buffer buffer]. rewrite <- (contents_length (q x)), Hx, length_app. cbn [with_port buffer length] in *. pose proof (contents_length (q (buffer s))). lia. }
  cbn [with_port with_buffer port] in *. exists s', (b :: bs). split_and!; try done.
  - by rewrite Hs2, Hsent, Hh.
  - refine (moved_trans _ _ _ [] [b] [] [] bs [] _ Hmv2). split; cbn; [by rewrite Hsent, Hh, app_nil_r|by rewrite Hx].
  - rewrite Htk2, Htaken, Hh. cbn [taken]. by rewrite <- app_assoc.
  - intros H. apply Hr2, Hready. apply (in_ready (UartLaws:=laws)). by apply Hr.
Qed.

(** An empty transmitter gets at least the oldest byte. *)
Lemma transmit_loop_ok fuel : forall s, off s = true -> wf s -> mode s = QUEUE -> (length (contents (q (txq s))) < fuel)%nat ->
  exists s', transmit_loop fuel s = Ok (tt, s') /\ wf s' /\ off s' = true /\ mode s' = QUEUE /\ buffer s' = buffer s /\ moved s s' [] [] [] /\
    taken (view (port s')) = taken (view (port s)) /\
    exists more, sent (view (port s')) = sent (view (port s)) ++ more /\ (ready (port s) = true -> contents (q (txq s)) <> [] -> more <> []).
Proof using laws.
  induction fuel as [|fuel IH]; intros s Ho Hs Hm Hn; [lia|]. cbn [transmit_loop]. mstep (txq_condition Not_empty s Ho Hs). cbn [level].
  destruct (Z.eqb_spec (count (q (txq s))) 0) as [Hc|Hc]; cbn [negb].
  { exists s. split_and!; try done; [apply moved_refl|]. exists []. rewrite app_nil_r. split; [done|]. intros _ H. by apply contents_nil in Hc. }
  destruct (in_status_ok LSR_REG s (or_intror eq_refl) Hs) as (E & W & Hv & Hr). destruct (in_lsr (UartLaws:=laws) (port s)) as (Hd & _).
  set (r := inb LSR_REG (port s)) in *. mstep E. pose proof (land_pow2_eqb r.1 5 ltac:(lia)) as Hl. change (2 ^ 5) with LSR_THRE in Hl. rewrite Hl, Hd.
  destruct (ready r.2) eqn:Hrd.
  2: { exists (with_port r.2 s). split_and!; try done; [apply moved_same; cbn; by rewrite ?Hv|cbn; by rewrite Hv|].
       exists []. rewrite app_nil_r. cbn. rewrite Hv. split; [done|]. intros H _. by specialize (Hr H). }
  destruct (txq_take_ok Interrupt (with_port r.2 s) Ho W Hc) as (b & x & E1 & W1 & _ & Hcont & _). mstep E1.
  set (h := outb THR_REG (u8 b) r.2). set (s1 := with_port h (with_txq x (with_port r.2 s))). rewrite (bind_ok _ _ _ tt s1) by done. cbv beta.
  assert (Hh : view h = UView (sent (view (port s)) ++ [u8 b]) (taken (view (port s))) (ier (view (port s))) (lcr (view (port s))) (divisor (view (port s)))).
  { unfold h. rewrite (out_thr (UartLaws:=laws)); [by rewrite Hv| |done|by apply Z.mod_pos_bound]. rewrite Hv. apply line_open; [done|by rewrite Hm]. }
  cbn [with_port txq] in Hcont.
  destruct (IH s1) as (s' & E2 & W2 & Ho2 & Hm2 & Hb2 & Hmv2 & Htk2 & more & Hs2 & _); [done| |done| |].
  { apply wf_port; [done|]. cbn [with_txq with_port port]. by rewrite Hh, Hv. }
  { rewrite Hcont in Hn. cbn [length] in Hn. cbn [s1 with_port with_txq txq]. lia. }
  exists s'. cbn [s1 with_port with_txq port] in *. split_and!; try done.
  - refine (moved_trans _ _ _ [] [] [] [] [] [] _ Hmv2). split; cbn [with_port with_txq port txq buffer]; [|by rewrite app_nil_r].
    change (port s1) with h; change (txq s1) with x; rewrite Hh, Hcont, app_nil_r. cbn [sent map]. by rewrite <- app_assoc.
  - by rewrite Htk2, Hh.
  - exists (u8 b :: more). rewrite Hs2, Hh. cbn [sent]. rewrite <- app_assoc. done.
Qed.

Lemma serial_interrupt_ok fuel s : (63 < fuel)%nat -> off s = true -> wf s -> mode s = QUEUE -> ier_ok s ->
  exists s' bs, serial_interrupt fuel s = Ok (tt, s') /\ wf s' /\ mode s' = QUEUE /\ ier_ok s' /\ moved s s' [] bs [] /\
    taken (view (port s')) = taken (view (port s)) ++ bs /\
    (ready (port s) = true -> contents (q (txq s)) <> [] -> exists more, more <> [] /\ sent (view (port s')) = sent (view (port s)) ++ more).
Proof using laws.
  intros Hf Ho Hs Hm Hier. unfold serial_interrupt. destruct (in_status_ok IIR_REG s (or_introl eq_refl) Hs) as (E & W & Hv & Hr). mstep E.
  set (s1 := with_port (inb IIR_REG (port s)).2 s) in *.
  destruct (receive_loop_ok fuel s1) as (s2 & bs & E2 & W2 & Ho2 & Hm2 & Ht2 & Hs2 & Hmv2 & Htk2 & Hr2); [done|done|done| | |].
  { unfold ier_ok. cbn [s1 with_port port txq buffer]. by rewrite Hv. }
  { pose proof (count_range (q (buffer s1))). lia. }
  mstep E2. destruct (transmit_loop_ok fuel s2) as (s3 & E3 & W3 & Ho3 & Hm3 & Hb3 & Hmv3 & Htk3 & more & Hs3 & Hmore); [done|done|done| |].
  { pose proof (contents_length (q (txq s2))). pose proof (count_range (q (txq s2))). lia. }
  mstep E3. destruct (write_ier_ok s3) as (h & E4 & W4 & Hi4 & Hs4 & Htk4 & _); [done|done|by rewrite Hm3|]. exists (with_port h s3), bs.
  cbn [with_port port]. split_and!; try done.
  - assert (Hmv1 : moved s s1 [] [] []) by (apply moved_same; cbn; by rewrite ?Hv).
    assert (Hmv4 : moved s3 (with_port h s3) [] [] []) by (by apply moved_same).
    pose proof (moved_trans _ _ _ _ _ _ _ _ _ (moved_trans _ _ _ _ _ _ _ _ _ Hmv1 Hmv2) (moved_trans _ _ _ _ _ _ _ _ _ Hmv3 Hmv4)) as H.
    cbn [app] in H. by rewrite app_nil_r in H.
  - rewrite Htk4, Htk3, Htk2. cbn [s1 with_port port]. by rewrite Hv.
  - intros Hrd Hne. exists more. split; [apply Hmore; [by apply Hr2, Hr|by rewrite Ht2]|].
    rewrite Hs4, Hs3, Hs2. cbn [s1 with_port port]. by rewrite Hv.
Qed.

(** ** All interleavings *)

(** [Level] is what other code does to the interrupt flag; a thread that goes on
    was called at the level OLD. *)
Inductive section :=
  | Init_queue
  | Put (t byte : Z)
  | Put_handler (byte : Z)
  | Put_resume (t : Z) (old : bool)
  | Flush (c : context)
  | Get (t : Z)
  | Get_resume (t : Z) (old : bool)
  | Key (key : Z)
  | Serial_irq
  | Level (b : bool).

(** A handler runs with interrupts off. *)
Definition in_handler (c : M (serial hw) unit) : M (serial hw) unit := update (with_off true);; c;; update (with_off false).

(** The keyboard handler, when it has a character. *)
Definition key_pressed (key : Z) : M (serial hw) unit := f ← input_full; if negb f then input_putc key else mret tt.

Definition asleep {A} (r : option A) (f : A -> list Z) : list Z := match r with Some a => f a | None => [] end.

(** The bytes that were accepted for sending and those that were returned. *)
Definition exec_section (fuel : nat) (a : section) : M (serial hw) (list Z * list Z) :=
  match a with
  | Init_queue => serial_init_queue stubs handler;; mret ([], [])
  | Put t b => r ← serial_putc fuel (Thread t) b; mret (asleep r (fun _ => [b]), [])
  | Put_handler b => r ← serial_putc fuel Interrupt b; mret (asleep r (fun _ => [b]), [])
  | Put_resume t old => update (with_off true);; e ← serial_putc_rest t old; mret (ins e, [])
  | Flush c => serial_flush fuel c;; mret ([], [])
  | Get t => r ← input_getc t; mret ([], asleep r (fun b => [b]))
  | Get_resume t old => update (with_off true);; e ← input_getc_rest t old; mret ([], outs e)
  | Key k => in_handler (key_pressed k);; mret ([], [])
  | Serial_irq => in_handler (serial_interrupt fuel);; mret ([], [])
  | Level b => update (with_off b);; mret ([], [])
  end.

(** The bytes that came in: a key for which there was room, and what was read from the receiver. *)
Definition arrived (a : section) (s s' : serial hw) : list Z :=
  match a with
  | Key k => if count (q (buffer s)) =? 63 then [] else [k]
  | Serial_irq => drop (length (taken (view (port s)))) (taken (view (port s')))
  | _ => []
  end.

Definition can_run (a : section) (s : serial hw) : Prop :=
  match a with
  | Put t _ => t <> NULL /\ pcs (txq s) !! t = None
  | Put_handler _ => off s = true
  | Put_resume t _ => enabled (Resume t) (txq s)
  | Get t => t <> NULL /\ pcs (buffer s) !! t = None
  | Get_resume t _ => enabled (Resume t) (buffer s)
  | Key _ => off s = false
  | Serial_irq => off s = false /\ mode s = QUEUE
  | _ => True
  end.

(** The sections that stop the kernel: a second start of interrupt mode, and
    a thread that waited for the lock of a queue and finds its condition changed. *)
Definition section_fails (a : section) (s : serial hw) : bool :=
  match a with
  | Init_queue => bool_decide (mode s = QUEUE) || negb (intr_handlers (ints s) 36 =? NULL)
  | Put_resume t _ => fails (Resume t) (txq s)
  | Get_resume t _ => fails (Resume t) (buffer s)
  | _ => false
  end.

Definition safe (s : serial hw) : Prop := wf s /\ (mode s = QUEUE -> ier_ok s).

Lemma key_pressed_ok k s : off s = true -> safe s ->
  exists s', key_pressed k s = Ok (tt, s') /\ safe s' /\ moved s s' [] (if count (q (buffer s)) =? 63 then [] else [k]) [].
Proof using laws.
  intros Ho [Hs Hier]. unfold key_pressed. mstep (serial_input_full_ok s Ho Hs). destruct (Z.eqb_spec (count (q (buffer s))) 63) as [|Hc]; cbn [negb].
  - exists s. split_and!; [done|by split|apply moved_refl].
  - destruct (serial_input_putc_ok k s Ho Hs Hc) as (x & h & E & W & Hi & Hx & Hsent & _). eexists. split; [exact E|]. split; [by split|].
    split; cbn; [by rewrite Hsent, app_nil_r|by rewrite Hx].
Qed.

Lemma exec_section_ok fuel a s : (busy_max < fuel)%nat -> (63 < fuel)%nat -> safe s -> can_run a s ->
  if section_fails a s then exec_section fuel a s = Err EAssert else
  exists o s', exec_section fuel a s = Ok (o, s') /\ safe s' /\ moved s s' o.1 (arrived a s s') o.2.
Proof using laws Hstubs.
  intros Hf Hn [Hs Hier] Hc. destruct a as [|t b|b|t old|c|t|t old|k| |b]; cbn [section_fails can_run exec_section arrived] in *.
  - pose proof (serial_init_queue_ok s Hs) as H. destruct (_ || _); [by rewrite (bind_err _ _ _ _ H)|]. destruct H as (s' & E & W & _ & Hi & Hmv). mstep E.
    exists ([], []), s'. by split_and!.
  - destruct (serial_putc_ok fuel (Thread t) b s Hf Hs Hier Hc) as (r & s' & E & W & Hi & Hmv & _). mstep E. eexists _, s'. split; [reflexivity|]. split; [by split|]. by destruct r.
  - destruct (serial_putc_ok fuel Interrupt b s Hf Hs Hier Hc) as (r & s' & E & W & Hi & Hmv & _). mstep E. eexists _, s'. split; [reflexivity|]. split; [by split|]. by destruct r.
  - rewrite (bind_ok _ _ _ tt (with_off true s)) by done. cbv beta. pose proof (serial_putc_rest_ok t old (with_off true s) eq_refl (wf_off true s Hs) Hier Hc) as H.
    cbn [with_off txq] in H. destruct (fails _ _); [by rewrite (bind_err _ _ _ _ H)|]. destruct H as (e & s' & E & W & Hi & Hmv). mstep E. by exists (ins e, []), s'.
  - destruct (serial_flush_ok fuel c s Hf Hn Hs Hier) as (s' & E & W & Hi & Hmv & _). mstep E. by exists ([], []), s'.
  - destruct Hc as [Ht Hp]. destruct (input_getc_ok t s Hs Hier Ht Hp) as (r & s' & E & W & Hi & Hmv & _). mstep E. eexists _, s'. split; [reflexivity|]. split; [by split|]. by destruct r.
  - rewrite (bind_ok _ _ _ tt (with_off true s)) by done. cbv beta. pose proof (input_getc_rest_ok t old (with_off true s) eq_refl (wf_off true s Hs) Hier Hc) as H.
    cbn [with_off buffer] in H. destruct (fails _ _); [by rewrite (bind_err _ _ _ _ H)|]. destruct H as (e & s' & E & W & Hi & Hmv). mstep E. by exists ([], outs e), s'.
  - unfold in_handler. rewrite !bind_assoc. rewrite (bind_ok _ _ _ tt (with_off true s)) by done. cbv beta. rewrite bind_assoc.
    destruct (key_pressed_ok k (with_off true s) eq_refl) as (s' & E & [W Hi] & Hmv); [by split; [apply wf_off|]|]. mstep E.
    eexists ([], []), _. split; [reflexivity|]. split; [by split; [apply wf_off|]|exact Hmv].
  - destruct Hc as [_ Hm]. unfold in_handler. rewrite !bind_assoc. rewrite (bind_ok _ _ _ tt (with_off true s)) by done. cbv beta. rewrite bind_assoc.
    destruct (serial_interrupt_ok fuel (with_off true s) Hn eq_refl (wf_off true s Hs) Hm (Hier Hm)) as (s' & bs & E & W & Hm' & Hi & Hmv & Htk & _). mstep E.
    eexists ([], []), _. split; [reflexivity|]. split; [by split; [apply wf_off|]|]. cbn [with_off port] in *. rewrite Htk, drop_app_length. exact Hmv.
  - exists ([], []), (with_off b s). split; [done|]. split; [by split; [apply wf_off|]|by apply moved_same].
Qed.

(** The states that sections lead to from the start of the kernel, with the bytes
    accepted for sending, those that came in and those that were returned. *)
Inductive runs (fuel : nat) (h0 : hw) : list Z -> list Z -> list Z -> serial hw -> Prop :=
  | runs_start b0 b1 i l s : length b0 = 64%nat -> length b1 = 64%nat ->
      input_init (Serial UNINIT (St (Intq 0 0 b0 0 0) 0 ∅ true) (St (Intq 0 0 b1 0 0) 0 ∅ true) l i h0) = Ok (tt, s) ->
      runs fuel h0 [] [] [] s
  | runs_step acc inp ret s a o s' :
      runs fuel h0 acc inp ret s -> can_run a s -> exec_section fuel a s = Ok (o, s') ->
      runs fuel h0 (acc ++ o.1) (inp ++ arrived a s s') (ret ++ o.2) s'.

Lemma runs_safe fuel h0 acc inp ret s : (busy_max < fuel)%nat -> (63 < fuel)%nat -> runs fuel h0 acc inp ret s ->
  safe s /\ sent (view (port s)) ++ map u8 (contents (q (txq s))) = sent (view h0) ++ map u8 acc /\ inp = ret ++ contents (q (buffer s)).
Proof using laws Hstubs.
  intros Hf Hn. induction 1 as [b0 b1 i l s Hb0 Hb1 Hi|acc inp ret s a o s' _ (Hs & Hsent & Hinp) Hc Hrun].
  - injection Hi as <-. split_and!; [|by cbn|done]. assert (Hq : forall b, length b = 64%nat -> inv (at_level true (intq_init (St (Intq 0 0 b 0 0) 0 ∅ true)))).
    { intros b Hb. split; [|by intros []]. split; cbn; try done. by intros []. }
    split; [|done]. split; cbn [mode txq buffer with_buffer]; try done; [exact (Hq b0 Hb0)|exact (Hq b1 Hb1)].
  - pose proof (exec_section_ok fuel a s Hf Hn Hs Hc) as H. destruct (section_fails a s); [congruence|]. destruct H as (o' & s1 & E & Hs1 & M1 & M2).
    rewrite Hrun in E. injection E as <- <-. split_and!; [done| |].
    + rewrite M1, map_app, map_app, !app_assoc. by rewrite Hsent, <- !app_assoc.
    + rewrite Hinp, <- !app_assoc. by f_equal.
Qed.

(** C23: In every interleaving of threads, the keyboard and the
    serial interrupt, from the start of the kernel on: the bytes on the line are
    those that [serial_putc] accepted, in the order in which it did, and the rest of them is
    in the queue; [input_getc] returns the keys and the received bytes in the
    order in which they came, none is lost once it has been read from the port; the port runs at 9600 bits per second
    as soon as it is used; in interrupt mode its interrupt is enabled while there is something to
    send, and for reception exactly while there is room, and an interrupt of an
    empty transmitter sends the next byte.  A call of [serial_putc] with interrupts off, by a thread or a handler, never sleeps, [serial_flush] sends
    everything, all loops end, and the only sections that stop the kernel are a second start and a thread that waited for the lock of a
    queue while its condition changed. *)
Theorem serial_line_correct fuel h0 acc inp ret s :
  (busy_max < fuel)%nat -> (63 < fuel)%nat -> runs fuel h0 acc inp ret s ->
  sent (view (port s)) ++ map u8 (contents (q (txq s))) = sent (view h0) ++ map u8 acc /\
  inp = ret ++ contents (q (buffer s)) /\
  (mode s <> UNINIT -> lcr (view (port s)) = LCR_N81 /\ divisor (view (port s)) = 1843200 / 16 / 9600) /\
  (mode s = QUEUE ->
     (contents (q (txq s)) <> [] -> Z.testbit (ier (view (port s))) 1 = true) /\
     (Z.testbit (ier (view (port s))) 0 = true <-> (length (contents (q (buffer s))) < 63)%nat)) /\
  (mode s = QUEUE -> off s = false -> ready (port s) = true -> contents (q (txq s)) <> [] ->
     exists o s' more, exec_section fuel Serial_irq s = Ok (o, s') /\ more <> [] /\ sent (view (port s')) = sent (view (port s)) ++ more) /\
  (forall c byte, off s = true -> match c with Thread t => t <> NULL /\ pcs (txq s) !! t = None | Interrupt => True end ->
     exists s', serial_putc fuel c byte s = Ok (Some tt, s') /\ off s' = true) /\
  (forall c, exists s', serial_flush fuel c s = Ok (tt, s') /\ sent (view (port s')) = sent (view h0) ++ map u8 acc) /\
  (forall a, can_run a s -> if section_fails a s then exec_section fuel a s = Err EAssert else exists o s', exec_section fuel a s = Ok (o, s')).
Proof using laws Hstubs.
  intros Hf Hn Hr. destruct (runs_safe fuel h0 acc inp ret s Hf Hn Hr) as ([Hs Hier] & Hsent & Hinp). split_and!; [done|done|apply (wf_line s Hs)|..].
  - intros Hm. destruct (Hier Hm) as [H1 H2]. split; [done|]. rewrite H2, negb_true_iff, Z.eqb_neq, <- contents_length.
    pose proof (contents_length (q (buffer s))). pose proof (count_range (q (buffer s))). split; lia.
  - intros Hm Ho Hrd Hne. cbn [exec_section]. unfold in_handler. rewrite !bind_assoc. rewrite (bind_ok _ _ _ tt (with_off true s)) by done. cbv beta. rewrite bind_assoc.
    destruct (serial_interrupt_ok fuel (with_off true s) Hn eq_refl (wf_off true s Hs) Hm (Hier Hm)) as (s' & bs & E & _ & _ & _ & _ & _ & Hmore). mstep E.
    destruct (Hmore Hrd Hne) as (more & H1 & H2). eexists _, _, more. split; [reflexivity|]. by split.
  - intros c b Ho Hc. assert (Hc' : match c with Thread t => t <> NULL /\ pcs (txq s) !! t = None | Interrupt => off s = true end) by (by destruct c).
    destruct (serial_putc_ok fuel c b s Hf Hs Hier Hc') as (r & s' & E & _ & _ & _ & H1 & H2). specialize (H1 Ho). subst r. exists s'.
    split; [done|]. by rewrite H2.
  - intros c. destruct (serial_flush_ok fuel c s Hf Hn Hs Hier) as (s' & E & _ & _ & [M1 _] & He & _). exists s'. split; [done|].
    rewrite He, !app_nil_r in M1. cbn [map] in M1. rewrite ?app_nil_r in M1. by rewrite Hsent in M1.
  - intros a Hc. pose proof (exec_section_ok fuel a s Hf Hn (conj Hs Hier) Hc) as H. destruct (section_fails a s); [done|].
    destruct H as (o & s' & E & _). by exists o, s'.
Qed.

Definition can_runb (a : section) (s : serial hw) : bool :=
  match a with
  | Put t _ => negb (t =? NULL) && bool_decide (pcs (txq s) !! t = None)
  | Put_handler _ => off s
  | Put_resume t _ => enabledb (Resume t) (txq s)
  | Get t => negb (t =? NULL) && bool_decide (pcs (buffer s) !! t = None)
  | Get_resume t _ => enabledb (Resume t) (buffer s)
  | Key _ => negb (off s)
  | Serial_irq => negb (off s) && bool_decide (mode s = QUEUE)
  | _ => true
  end.

Lemma can_runb_spec a s : can_runb a s = true -> can_run a s.
Proof using.
  destruct a; cbn [can_runb can_run]; rewrite ?andb_true_iff, ?negb_true_iff, ?bool_decide_eq_true, ?Z.eqb_neq; try done; apply enabledb_spec.
Qed.

(** Several sections, with the bytes. *)
Fixpoint run_sections (fuel : nat) (l : list section) (acc inp ret : list Z) (s : serial hw) : option (list Z * list Z * list Z * serial hw) :=
  match l with
  | [] => Some (acc, inp, ret, s)
  | a :: l =>
      if can_runb a s then
        match exec_section fuel a s with
        | Ok (o, s') => run_sections fuel l (acc ++ o.1) (inp ++ arrived a s s') (ret ++ o.2) s'
        | Err _ => None
        end
      else None
  end.

Lemma run_sections_runs fuel h0 l : forall acc inp ret s acc' inp' ret' s', runs fuel h0 acc inp ret s ->
  run_sections fuel l acc inp ret s = Some (acc', inp', ret', s') -> runs fuel h0 acc' inp' ret' s'.
Proof using.
  induction l as [|a l IH]; intros acc inp ret s acc' inp' ret' s' Hr H; cbn [run_sections] in *; [by injection H as <- <- <- <-|].
  destruct (can_runb a s) eqn:Hc; [|done]. destruct (exec_section fuel a s) as [[o s1]|] eqn:E; [|done].
  eapply IH, H. eapply runs_step; [done|by apply can_runb_spec|done].
Qed.
End Correct.

(** ** A concrete UART: a byte takes two looks at the status register *)

Inductive phase := Empty | Shifting | Full.
Record model := Model { m_view : uview; m_phase : phase; m_rx : list Z }.

Definition model_out (p v : Z) (m : model) : model :=
  let '(UView sent taken ier lcr divisor) := m_view m in
  let dlab := Z.testbit lcr 7 in
  if p =? LCR_REG then Model (UView sent taken ier v divisor) (m_phase m) (m_rx m)
  else if p =? IER_REG then
    Model (if dlab then UView sent taken ier lcr (divisor mod 256 + 256 * v) else UView sent taken v lcr divisor) (m_phase m) (m_rx m)
  else if p =? THR_REG then
    if dlab then Model (UView sent taken ier lcr (divisor / 256 * 256 + v)) (m_phase m) (m_rx m)
    else match m_phase m with Empty => Model (UView (sent ++ [v]) taken ier lcr divisor) Full (m_rx m) | _ => m end
  else m.

Definition next_phase (p : phase) : phase := match p with Full => Shifting | _ => Empty end.
Definition is_empty (p : phase) : bool := match p with Empty => true | _ => false end.

Definition model_in (p : Z) (m : model) : Z * model :=
  if p =? LSR_REG then
    (Z.lor (if is_empty (next_phase (m_phase m)) then LSR_THRE else 0) (match m_rx m with [] => 0 | _ => LSR_DR end), Model (m_view m) (next_phase (m_phase m)) (m_rx m))
  else if p =? RBR_REG then
    match m_rx m with
    | b :: rx => if dlab (m_view m) then (0, m) else
        (b, Model (UView (sent (m_view m)) (taken (m_view m) ++ [b]) (ier (m_view m)) (lcr (m_view m)) (divisor (m_view m))) (m_phase m) rx)
    | [] => (0, m)
    end
  else (0, m).

#[export] Instance model_uart : Uart model := { inb := model_in; outb := model_out }.

Definition model_ready (m : model) : bool := is_empty (m_phase m).
Definition model_data (m : model) : bool := match m_rx m with [] => false | _ => true end.
Definition model_busy (m : model) : nat := match m_phase m with Empty => 0 | Shifting => 1 | Full => 2 end.

#[export] Instance model_uart_laws : UartLaws model m_view model_ready model_data model_busy 2.
Proof.
  split; cbn [inb outb model_uart].
  - intros [v [] rx]; cbn; lia.
  - by intros [[sent taken ier lcr divisor] ph rx] v Hv.
  - by intros [[sent taken ier lcr divisor] ph rx] p v [->| ->] Hv.
  - intros [[sent taken ier lcr divisor] ph rx] v Hd Hv. cbn in *. by rewrite Hd.
  - intros [[sent taken ier lcr divisor] [] rx] v Hd Hr Hv; cbn in *; [by rewrite Hd|done|done].
  - intros [[sent taken ier lcr divisor] ph rx] v Hv. cbn. by destruct (Z.testbit lcr 7).
  - by intros [[sent taken ier lcr divisor] ph rx] v Hr Hd.
  - by intros [v ph rx] p [->| ->].
  - intros [v [] rx] p Hr; try done. unfold model_in. destruct (p =? LSR_REG); [done|]. destruct (p =? RBR_REG); [|done]. destruct rx; cbn [m_rx m_view]; [done|]. by destruct (dlab v).
  - intros [v [] []]; (split_and!; [reflexivity|reflexivity|intros H]); first [discriminate H|exact (Nat.lt_succ_diag_r 1)].
  - intros [v ph [|b rx]] Hd Hr; [done|]. unfold model_in. cbn [m_rx m_view] in *. change (RBR_REG =? LSR_REG) with false. change (RBR_REG =? RBR_REG) with true. by rewrite Hd.
Qed.

(** Two bytes by polling, then interrupt mode; a reader sleeps until a
    key is pressed, a byte is received, and two more bytes are sent by interrupts. *)
Definition demo : list section :=
  [Put 1 72; Put 1 105; Init_queue; Level false; Get 2; Level false; Key 97; Get_resume 2 false; Get_resume 2 false; Put 1 33; Put 1 10; Serial_irq; Serial_irq; Serial_irq; Get 2].

Definition demo_port : model := Model (UView [] [] 0 0 0) Empty [98].
Definition no_ints : intr := Intr (fun _ => 0) (fun _ => NULL) (fun _ => EmptyString) (fun _ => 0) false false false [] [] 0.
Definition demo_start : serial model :=
  Serial UNINIT (St (Intq 0 0 (replicate 64 0) 0 0) 0 ∅ true) (St (Intq 0 0 (replicate 64 0) 0 0) 0 ∅ true) true no_ints demo_port.

Definition demo_run := run_sections m_view (fun _ => 4096) 8192 70 demo [] [] [] (with_buffer (at_level true (intq_init (buffer demo_start))) demo_start).

Lemma demo_bytes :
  match demo_run with
  | Some (acc, inp, ret, s) =>
      acc = [72; 105; 33; 10] /\ inp = [97; 98] /\ ret = [97; 98] /\ contents (q (txq s)) = [] /\ sent (m_view (port s)) = [72; 105; 33; 10] /\ taken (m_view (port s)) = [98]
  | None => False
  end.
Proof. vm_compute. repeat split. Qed.

Lemma demo_runs acc inp ret s : demo_run = Some (acc, inp, ret, s) -> runs m_view (fun _ => 4096) 8192 70 demo_port acc inp ret s.
Proof.
  intros E. eapply run_sections_runs; [|exact E]. apply (runs_start m_view (fun _ => 4096) 8192 70 demo_port (replicate 64 0) (replicate 64 0) no_ints true); reflexivity.
Qed.

Lemma serial_line_correct_witness :
  exists s s', contents (q (txq s)) = [] /\ sent (m_view (port s)) = [72; 105; 33; 10] /\
    serial_flush 70 Interrupt s = Ok (tt, s') /\ sent (m_view (port s')) = [72; 105; 33; 10].
Proof.
  pose proof demo_bytes as H. destruct demo_run as [[[[acc inp] ret] s]|] eqn:E; [|destruct H]. destruct H as (Ha & _ & _ & Hc & Hs & _).
  assert (Hst : stubs_ok (fun _ => 4096)) by (intros v _; lia).
  destruct (serial_line_correct m_view model_ready model_data model_busy 2 model_uart_laws (fun _ => 4096) 8192 Hst 70 demo_port acc inp ret s)
    as (_ & _ & _ & _ & _ & _ & Hflush & _); [lia|lia|exact (demo_runs acc inp ret s E)|].
  destruct (Hflush Interrupt) as (s' & E' & Hs'). exists s, s'. split; [exact Hc|]. split; [exact Hs|]. split; [exact E'|]. rewrite Hs', Ha. reflexivity.
Defined.
